(* ===== verification/_CoqProject ===== *)
-Q . S2P
Prelude.v
KList.v
KListSpec.v
KListSort.v
KListRefine.v
Bitmap.v
Arith.v
FixedPoint.v
Kernel.v
Thread.v
Synch.v
Timer.v
Machine.v
SchedInv.v
SchedOps.v
SchedSync.v
SchedLock.v
SchedStep.v
SchedEvents.v
SchedTick.v
SchedMain.v
SchedBoot.v
SchedProps.v
SchedLive.v
CMem.v
CString.v
CStringSpec.v
CStringEdit.v
StdLib.v
StdLibSort.v
Stdio.v
StdioSpec.v
Hash.v
HashSpec.v
Palloc.v
PallocSpec.v
Pagedir.v
PagedirSpec.v
Malloc.v
MallocSpec.v
Inode.v
InodeSpec.v
Directory.v
DirectorySpec.v
FilesysProps.v
Exec.v
ExecSpec.v
Loader.v
LoaderSpec.v
Syscall.v
SyscallSpec.v
SyscallMem.v
SyscallTab.v
Process.v
ProcessSpec.v
UserThread.v
UserThreadSpec.v
UserJoin.v
Ustar.v
UstarSpec.v
Random.v
Paging.v
Block.v
BlockSpec.v
Intq.v
UserSync.v
Boot.v
BootSpec.v
Rtc.v
Vga.v
Kbd.v
Descriptors.v
Ide.v
IdeSpec.v
Serial.v
SerialSpec.v
Console.v
Delay.v
Fsutil.v
FsutilSpec.v
