(* ===== verification/Prelude.v ===== *)
(** * A verification library for the Pintos kernel

    The program is the CS 162 edition of Pintos, a small kernel for a 32-bit
    x86 machine, under src/src.  This library translates its code into
    executable Rocq definitions, function by function and with the names of
    the source, and proves what the functions do.

    ** The program and the files that model it

    - Lists (lib/kernel/list.c): [KList] is the pointer code on a store of
      list elements; [KListSpec], [KListSort] and [KListRefine] show that it
      implements functional lists.  Every queue of the kernel is such a list.
    - Bitmaps (lib/kernel/bitmap.c): [Bitmap].  The page allocator and the map
      of free sectors are built on them.
    - Arithmetic (lib/arithmetic.c, threads/fixed-point.h): [Arith] and
      [FixedPoint].
    - Threads (threads/thread.c, synch.c, interrupt.c, devices/timer.c):
      [Kernel] holds the state (thread control blocks, semaphores, locks,
      the ready list, the sleep list, the interrupt flag), [Thread], [Synch]
      and [Timer] the operations, and [Machine] the transition system: the
      running thread calls the kernel or continues a function that slept, and
      a timer interrupt comes at any point at which interrupts are on.
      [SchedInv] states the invariant; [SchedOps], [SchedSync], [SchedLock],
      [SchedStep], [SchedEvents], [SchedTick], [SchedMain] and [SchedBoot]
      prove that booting establishes it and every event keeps it;
      [SchedProps] draws the consequences and [SchedLive] shows that the FIFO
      scheduler is fair.
    - The C library (lib/string.c, stdlib.c, ctype.h, stdio.c): [CMem] is byte
      memory; [CString], [StdLib] and [Stdio] are the functions;
      [CStringSpec], [CStringEdit], [StdLibSort] and [StdioSpec] the theorems.
    - Hash tables (lib/kernel/hash.c): [Hash] and [HashSpec].
    - Memory (threads/vaddr.h, palloc.c, pte.h, userprog/pagedir.c): [Palloc]
      hands out page frames, [Pagedir] builds page tables in such frames;
      [PallocSpec] and [PagedirSpec] are the theorems.  [Malloc] divides
      frames into blocks (threads/malloc.c), and [MallocSpec] shows that it is
      an allocator.
    - The file system (devices/block.c, filesys/inode.c, file.c, free-map.c,
      directory.c, filesys.c): [Inode] and [Directory], with [InodeSpec],
      [DirectorySpec] and [FilesysProps].
    - Starting programs (userprog/process_create.c): [Exec] is what becomes
      of the command line, on byte memory, and [Loader] the ELF loader, on the
      page tables and the file system; [ExecSpec] and [LoaderSpec] are the
      theorems.
    - System calls (userprog/syscall.c): [Syscall] is the dispatcher with its
      checks and the calls on files, on the memory of the process, its table of
      open files and the file system.  [SyscallSpec] has the invariant of the
      table, [SyscallMem] the transfers between files and user memory, and
      [SyscallTab] puts them together: which memory a call can change.
    - Parents and children (userprog/process_create.c, process_exit.c,
      syscall.c): [Process] is [exec], [wait] and [exit] as threads that are
      interleaved, on the entries and semaphores that parent and child share,
      with freed memory; [ProcessSpec] has the invariant and the runs that
      break it.
    - The threads of a process (userprog/userthread_create.c,
      userthread_join.c, process_exit.c): [UserThread] is creating, joining
      and ending threads and the end of a process with several threads, again
      interleaved, and the fault handler (exception.c); [UserThreadSpec] has
      the invariant of the counters and the runs that fail, [UserJoin] what
      becomes of a join, whatever the other threads do.  [UserSync] is the calls on
      locks and semaphores (syscall.c), with a specification that they
      implement; the locks and semaphores of synch.c are contracts there.
    - The start of the kernel (threads/init.c): [Boot] is the command line on
      the memory of the loader, [Paging] the page tables of the kernel;
      [BootSpec] has a specification of the command line on strings.
    - Disks (devices/block.c, partition.c, ide.c): [Block] is the list of block
      devices with disks and partitions, [BlockSpec] its theorems; [Ide] is the
      driver on a reference model of the controller, [IdeSpec] its theorems.
    - The console (devices/intq.c, input.c, kbd.c, serial.c, vga.c,
      lib/kernel/console.c): [Intq] is the ring of bytes that handlers and
      threads share, with its sleeping threads; [Kbd] the keyboard, [Serial]
      with [SerialSpec] the serial port, [Vga] the text screen, and [Console]
      the lock that keeps messages apart.
    - Clocks (devices/rtc.c, timer.c, pit.c, speaker.c): [Rtc] is the date and
      time, [Delay] the calibration of delays, on a clock that goes on in the
      rounds of waiting loops, and the interval timer.
    - Tables of the processor (userprog/gdt.c, threads/interrupt.c and the
      functions that register handlers): [Descriptors].
    - Random numbers and archives (lib/random.c, lib/ustar.c,
      filesys/fsutil.c): [Random]; [Ustar] with [UstarSpec] is the headers of
      archives and [Fsutil] with [FsutilSpec] the archive on the scratch
      device, proved against an interface of headers that lib/ustar.c
      implements and a contract of the file system, a map from names to
      contents in which creating, opening and part-sector transfers can fail.

    ** How code is translated

    Code is a function in the error-and-state monad [M] below, over the state
    of its component.  A failed assertion or a kernel panic is the outcome
    [Panic]; undefined behaviour of C (a null, dangling or wild pointer, an
    access outside an object, a signed overflow) is the outcome [Undef].
    Integers are values of [Z] with the conversions ([u32], [i32], [i8], ...)
    written where the code has them.  A function that sleeps is cut at the
    call of [schedule]: what it has left to do is a frame on the kernel stack
    of the thread, so that the interleavings of the kernel are sequences of
    events of [Machine].

    A loop that is not structural has a bound; running out of it is the
    outcome [NoFuel].  The bounds are the number of elements of the store
    (lists), of mapped bytes (strings), of threads (donation), of bytes to be
    transferred (inodes), of bytes of the directory, of pages (segments of a
    program), of devices (partitions of partitions), of blocks of the heap
    (nested partition tables), of arguments and of readings of a status
    register, and 32 or 64 for loops over the bits of a word or the bytes of a
    queue.  The theorems show that these are enough: they state
    that the function returns [Ok], never only what holds if it does.

    What the code obtains from outside is a parameter: whether an allocation
    by [malloc] succeeds and what the memory it returns holds, the pages
    [palloc_get_page] returns to the scheduler, the floating-point unit, the
    comparison and hash functions of the clients, the times that devices take
    and the bytes that they receive.

    ** What is proved

    Each theorem states the conditions that it needs; these are the main ones.

    - Threads: the invariant of the queues, states, stacks and locks holds in
      every state a booted kernel reaches by events that keep to the rules
      [obeys] of [SchedMain]: objects that exist, no condition variables and
      readers-writers locks, locks given back before a thread exits, no thread
      freed between its wake-up and the comparison of its priority in
      [sema_up].  No such event follows a wild pointer, and it panics only if a
      lock is misused or handed over while donation passes; locks exclude each
      other; yielding runs a thread of the highest priority, and with the FIFO
      scheduler every ready thread has its turn after those before it have
      yielded, unless donation moves it; a semaphore wakes the waiter of the
      highest priority; donation raises everyone on the chain of holders to the
      priority of the donor, or panics if the chain leads to a lock without
      holder; sleepers wake up in time.  [cond_wait] has a thread that still
      runs in the list of the condition, so that a yield corrupts it.
      Runs by computation show more failures: a freed thread read by
      [sema_up], a donated priority that stays, a delayed sleeper.
    - Lists and hash tables refine functional lists and sets for every
      sequence of operations; sorting sorts, stably for lists.
    - The page allocator hands out free pages and takes back only pages in
      use; page tables translate what was mapped, and destroying one gives
      back each page once.  Blocks from [malloc] do not overlap, keep their
      contents until they are freed, and leak no page; a request for nearly
      4 GB gets a block of one page.
    - Inodes and directories read back what was written to them and keep the
      rest.  Two failures are shown: [dir_add] overwrites an entry when memory
      is short, and [filesys_create] loses sectors.
    - [load] returns for every executable and every failing allocation, and on
      success the memory of the process is what the program headers say;
      the words of the command line are on the stack of the program.  A
      command line of spaces stops the kernel.
    - A system call keeps the table of open files consistent and changes no
      memory but that of the process, if a buffer for [read] is in user
      memory; what is written through a descriptor is read back.  With another
      buffer [read] can be made to overwrite the kernel, and large offsets
      stop it.
    - A parent that waits gets the code its child exited with, and the entries
      they share are freed once, from the state on in which the first program
      has been loaded and as long as a hand-over is not interrupted, memory
      lasts, processes outlive their children and the initial thread runs no
      further program; otherwise freed memory is used.
    - The counter of the threads in the kernel keeps its meaning: the
      end of a process frees no thread between the start of a system call and
      the decrement, but it can free one that is past it and still on its
      kernel stack.  A joiner sleeps until the other thread calls
      [pthread_exit] and frees it, whatever the others do, short of the end of
      the process.  Five runs fail: a panic, two threads that sleep for ever, a
      freed thread that is scheduled and an element removed twice from the list
      of all threads.  The calls on locks and
      semaphores implement their specification for every history; a thread
      that exits keeps its locks.
    - A command line of at most 64 arguments sets what its options say and
      runs its actions, or stops the kernel, as a function on strings tells
      (it follows the code where comments differ); more arguments, which must
      be empty, overflow the array of arguments.  The page tables of the kernel map all
      of memory, the text read-only.
    - A sector of any device is a sector of a disk, and writing changes it
      only; scanning registers the partitions that lie on a disk, and runs out
      of memory on an extended one.  The disk driver makes the drives arrays of
      sectors and keeps to the protocol of the controller, if a drive takes at
      most 29.99 seconds for a command; it finds the drives that are there.  An interrupt without a
      command breaks the protocol.
    - The queue of bytes is a first-in first-out queue without lost wake-ups;
      two readers can stop the kernel.  The serial port sends every byte once
      and in order, and interrupts when it has to; the keyboard's characters
      are those of the layout; the screen follows a specification; messages
      of different threads do not mix.
    - The calibration of the delay loop is right to one part in 512, from 1024
      to 2^31 rounds per tick; the clock is 27 to 32 days fast.
    - The descriptor tables say what they should to the processor: user
      programs can name four interrupts only, and device handlers run with
      interrupts off.
    - The library functions: bounds of buffers, equivalence with functions on
      lists, round trips between printing and parsing and between composing
      and reading archive headers, exact division, one stream of random bytes
      per seed.
    - Files appended to an archive come back when it is extracted, if there is
      room and memory.

    ** What is not modelled

    Assembly (the context switch is a step of [Machine]), the task-state
    segment (tss.c, one field for the processor), switching off
    (shutdown.c), the floating-point unit, panics (debug.c), the actions that
    list, print and remove files (fsutil.c), the library of user programs
    (wrappers of the system call instruction), and the tests.  In modelled files: the programming of the
    interrupt controller, statistics, and the release of the files and page
    tables of a process in [process_exit_tail], whose parts are modelled apart.
    The hardware (drives, serial port, keyboard, clock) is a reference model
    or a parameter in the file of its driver.  The kernel stack is not bounded in the model, and components with
    models of their own (the scheduler, the file system, the processes) meet
    in them as the theorems about the others allow, not in one state.

    This file holds the monad, the machine integers and the lemmas, hints and
    tactics that the components share. *)

From Stdlib Require Export ZArith Lia.
From stdpp Require Export base gmap sets numbers sorting list.

Declare Scope kernel_scope.
Delimit Scope kernel_scope with kernel.
#[global] Open Scope Z_scope.

(** ** Outcomes of kernel code

    [Panic] is what [ASSERT], [PANIC] and [NOT_REACHED] do (lib/debug.h):
    the kernel stops.  [Undef] is undefined behaviour of the C program: a
    null or dangling pointer is followed, or an object outside its storage
    is accessed.  [NoFuel] marks a loop cut off by its bound; every theorem
    about a loop proves that its bound is never reached. *)
Inductive fault := Panic | Undef | NoFuel.

#[global] Instance fault_eq_dec : EqDecision fault.
Proof. solve_decision. Defined.

Inductive res (A : Type) :=
| Ok (a : A)
| Err (f : fault).
Arguments Ok {A} a.
Arguments Err {A} f.

(** Kernel code over a state [S]: a small error-and-state monad. *)
Definition M (S A : Type) : Type := S → res (A * S).

#[global] Instance M_ret {S} : MRet (M S) := λ A a s, Ok (a, s).
#[global] Instance M_bind {S} : MBind (M S) := λ A B f m s,
  match m s with
  | Ok (a, s') => f a s'
  | Err e => Err e
  end.
#[global] Instance M_fmap {S} : FMap (M S) := λ A B f m,
  mbind (λ a, mret (f a)) m.

Definition fail {S A} (e : fault) : M S A := λ _, Err e.
Definition get {S} : M S S := λ s, Ok (s, s).
Definition gets {S A} (f : S → A) : M S A := λ s, Ok (f s, s).
Definition put {S} (s : S) : M S unit := λ _, Ok ((), s).
Definition modify {S} (f : S → S) : M S unit := λ s, Ok ((), f s).
Definition lift {S A} (o : option A) (e : fault) : M S A :=
  match o with Some a => mret a | None => fail e end.

(** [ASSERT (b)] of lib/debug.h. *)
Definition ASSERT {S} (b : bool) : M S unit :=
  if b then mret () else fail Panic.
Definition PANIC {S A} : M S A := fail Panic.

Definition whenM {S} (b : bool) (m : M S unit) : M S unit :=
  if b then m else mret ().

Lemma bind_Ok {S A B} (m : M S A) (f : A → M S B) s a s' :
  m s = Ok (a, s') → (m ≫= f) s = f a s'.
Proof. unfold mbind, M_bind. by intros ->. Qed.

Lemma bind_Err {S A B} (m : M S A) (f : A → M S B) s e : m s = Err e → (m ≫= f) s = Err e.
Proof. unfold mbind, M_bind. by intros ->. Qed.

Lemma bind_Ok_inv {S A B} (m : M S A) (f : A → M S B) s r :
  (m ≫= f) s = Ok r → ∃ a s', m s = Ok (a, s') ∧ f a s' = Ok r.
Proof.
  unfold mbind, M_bind. destruct (m s) as [[a s']|]; [|done]. eauto.
Qed.

Lemma ASSERT_true {S} b (s : S) : b = true → ASSERT b s = Ok ((), s).
Proof. by intros ->. Qed.

Lemma ASSERT_inv {S} b (s : S) r : ASSERT b s = Ok r → b = true ∧ r = ((), s).
Proof. destruct b; cbn; [|done]. intros [= <-]. done. Qed.

(** ** Machine integers

    A [w]-bit unsigned value is a [Z] in [0, 2^w), a signed one a [Z] in
    [-2^(w-1), 2^(w-1)).  The wrap-around of C's unsigned types (and of
    GCC's conversions to a narrower signed type) is written out. *)
Definition wrapu (w z : Z) : Z := z mod 2 ^ w.
Definition wraps (w z : Z) : Z := (z + 2 ^ (w - 1)) mod 2 ^ w - 2 ^ (w - 1).
Abbreviation u8 := (wrapu 8).
Abbreviation u16 := (wrapu 16).
Abbreviation u32 := (wrapu 32).
Abbreviation u64 := (wrapu 64).
Abbreviation i8 := (wraps 8).
Abbreviation i32 := (wraps 32).
Abbreviation i64 := (wraps 64).

Definition in_u (w z : Z) : Prop := 0 ≤ z < 2 ^ w.
Definition in_s (w z : Z) : Prop := - 2 ^ (w - 1) ≤ z < 2 ^ (w - 1).

#[global] Instance in_u_dec w z : Decision (in_u w z).
Proof. unfold in_u. apply _. Defined.
#[global] Instance in_s_dec w z : Decision (in_s w z).
Proof. unfold in_s. apply _. Defined.

Lemma wrapu_id w z : in_u w z → wrapu w z = z.
Proof. apply Z.mod_small. Qed.

Lemma wrapu_range w z : 0 ≤ w → in_u w (wrapu w z).
Proof. intros. apply Z.mod_pos_bound. by apply Z.pow_pos_nonneg. Qed.

Lemma pow2_half w : 0 < w → 2 ^ w = 2 * 2 ^ (w - 1).
Proof. intros. rewrite <- Z.pow_succ_r by lia. f_equal. lia. Qed.

Lemma wraps_id w z : 0 < w → in_s w z → wraps w z = z.
Proof.
  unfold in_s, wraps. intros Hw Hz. pose proof (pow2_half w Hw).
  rewrite Z.mod_small; lia.
Qed.

Lemma wraps_range w z : 0 < w → in_s w (wraps w z).
Proof.
  unfold in_s, wraps. intros Hw. pose proof (pow2_half w Hw).
  assert (0 < 2 ^ (w - 1)) by (apply Z.pow_pos_nonneg; lia).
  pose proof (Z.mod_pos_bound (z + 2 ^ (w - 1)) (2 ^ w)). lia.
Qed.

(** [wraps] changes a value by a multiple of [2^w] only. *)
Lemma wraps_mod w z : 0 < w → wraps w z mod 2 ^ w = z mod 2 ^ w.
Proof.
  unfold wraps. intros Hw.
  rewrite Zminus_mod_idemp_l. f_equal. lia.
Qed.

(** The bytes of a 32-bit word, the lowest first, and back. *)
Definition le32 (z : Z) : list Z := [u8 z; u8 (z / 2 ^ 8); u8 (z / 2 ^ 16); u8 (z / 2 ^ 24)].
Definition of_le32 (bs : list Z) : Z :=
  match bs with a :: b :: c :: d :: _ => a + b * 2 ^ 8 + c * 2 ^ 16 + d * 2 ^ 24 | _ => 0 end.

Lemma le32_of_le32 z : in_u 32 z → of_le32 (le32 z) = z.
Proof.
  intros Hz. unfold le32, of_le32, wrapu, in_u in *. change (2 ^ 8) with 256. change (2 ^ 16) with 65536.
  change (2 ^ 24) with 16777216. change (2 ^ 32) with 4294967296 in Hz. Z.to_euclidean_division_equations. lia.
Qed.

Lemma le32_length z : length (le32 z) = 4%nat.
Proof. done. Qed.

Lemma le32_bytes z : Forall (in_u 8) (le32 z).
Proof. repeat constructor; apply wrapu_range; lia. Qed.

(** [ROUND_UP], [DIV_ROUND_UP] and [ROUND_DOWN] of lib/round.h, on
    arguments for which the sums do not wrap. *)
Definition DIV_ROUND_UP (x step : Z) : Z := (x + step - 1) / step.
Definition ROUND_UP (x step : Z) : Z := (x + step - 1) / step * step.
Definition ROUND_DOWN (x step : Z) : Z := x / step * step.

Lemma DIV_ROUND_UP_spec x step :
  0 < step → (DIV_ROUND_UP x step - 1) * step < x ≤ DIV_ROUND_UP x step * step.
Proof.
  unfold DIV_ROUND_UP. intros Hs.
  pose proof (Z.div_mod (x + step - 1) step).
  pose proof (Z.mod_pos_bound (x + step - 1) step). nia.
Qed.

(** ** Lists *)

Lemma Sorted_mono {A} (R R' : A → A → Prop) xs :
  (∀ a b, a ∈ xs → b ∈ xs → R a b → R' a b) → Sorted R xs → Sorted R' xs.
Proof.
  intros H. induction 1 as [|x xs Hs IH Hh]; constructor.
  - apply IH. intros. apply H; [by right..|done].
  - inversion Hh; constructor. apply H; subst; [left|right; left|done].
Qed.

Lemma list_nil_of {A} (xs : list A) : (∀ x, x ∉ xs) → xs = [].
Proof. intros H. destruct xs as [|x xs]; [done|]. destruct (H x). left. Qed.

(** ** Proof automation *)

Create HintDb kernel.
#[export] Hint Resolve wrapu_id wraps_id wrapu_range wraps_range : kernel.

(** Run one monadic step whose outcome is known. *)
Ltac mstep := erewrite bind_Ok; [|solve [eauto]].
Ltac mstep_by tac := erewrite bind_Ok; [|solve [tac]].

(** Decompose a successful monadic run. *)
Ltac minv :=
  repeat match goal with
  | H : (_ ≫= _) _ = Ok _ |- _ =>
      let a := fresh "a" in let s := fresh "s" in let H1 := fresh "Hm" in
      apply bind_Ok_inv in H as (a & s & H1 & H)
  | H : ASSERT _ _ = Ok _ |- _ =>
      let Hb := fresh "Hb" in let E := fresh "E" in
      apply ASSERT_inv in H as [Hb E]; simplify_eq E
  | H : mret _ _ = Ok _ |- _ => injection H as ? ?; subst
  end.
