(* ===== verification/KList.v ===== *)
(** * Doubly linked lists of the kernel (lib/kernel/list.c, list.h)

    The list elements live in a store that maps the address of a
    [struct list_elem] to its two links; every operation is translated
    pointer by pointer, with its assertions, its early returns and the
    undefined behaviour of following a null or dangling pointer.  The
    theorems say that on a well-formed list each operation returns and
    implements the corresponding operation on a functional list: the
    contract the rest of the kernel relies on. *)

From S2P Require Import Prelude.

Module KList.

(** ** Data *)

(** [struct list_elem]. *)
Record list_elem := ListElem { prev : Z; next : Z }.

#[global] Instance list_elem_eq_dec : EqDecision list_elem.
Proof. solve_decision. Defined.

(** [struct list] embeds its two sentinels; a list is named by their
    addresses [&list->head] and [&list->tail]. *)
Record list_t := List_t { head : Z; tail : Z }.

Definition NULL : Z := 0.

Abbreviation heap := (gmap Z list_elem).

(** [list_less_func], with its auxiliary argument supplied. *)
Abbreviation list_less_func := (Z → Z → bool).

(** Reading and writing the members of [*e]. *)
Definition load (e : Z) : M heap list_elem :=
  if decide (e = NULL) then fail Undef else λ h, lift (h !! e) Undef h.
Definition set_prev (e p : Z) : M heap unit :=
  n ← load e; modify (<[e := ListElem p (next n)]>).
Definition set_next (e p : Z) : M heap unit :=
  n ← load e; modify (<[e := ListElem (prev n) p]>).
Definition get_prev (e : Z) : M heap Z := n ← load e; mret (prev n).
Definition get_next (e : Z) : M heap Z := n ← load e; mret (next n).

(** A loop that follows links visits each element of the store at most
    once per pass: its bound. *)
Definition loop_bound (h : heap) : nat := S (size h).

(** ** Operations *)

Definition is_head (elem : Z) : M heap bool :=
  if decide (elem = NULL) then mret false else
  n ← load elem; mret (bool_decide (prev n = NULL) && negb (bool_decide (next n = NULL))).

Definition is_interior (elem : Z) : M heap bool :=
  if decide (elem = NULL) then mret false else
  n ← load elem; mret (negb (bool_decide (prev n = NULL)) && negb (bool_decide (next n = NULL))).

Definition is_tail (elem : Z) : M heap bool :=
  if decide (elem = NULL) then mret false else
  n ← load elem; mret (negb (bool_decide (prev n = NULL)) && bool_decide (next n = NULL)).

Definition list_init (l : list_t) : M heap unit :=
  set_prev (head l) NULL;;
  set_next (head l) (tail l);;
  set_prev (tail l) (head l);;
  set_next (tail l) NULL.

Definition list_begin (l : list_t) : M heap Z := get_next (head l).

Definition list_next (elem : Z) : M heap Z :=
  a ← is_head elem; b ← is_interior elem; ASSERT (a || b);; get_next elem.

Definition list_end (l : list_t) : M heap Z := mret (tail l).

Definition list_rbegin (l : list_t) : M heap Z := get_prev (tail l).

Definition list_prev (elem : Z) : M heap Z :=
  a ← is_interior elem; b ← is_tail elem; ASSERT (a || b);; get_prev elem.

Definition list_rend (l : list_t) : M heap Z := mret (head l).
Definition list_head (l : list_t) : M heap Z := mret (head l).
Definition list_tail (l : list_t) : M heap Z := mret (tail l).

Definition list_insert (before elem : Z) : M heap unit :=
  a ← is_interior before; b ← is_tail before; ASSERT (a || b);;
  ASSERT (negb (bool_decide (elem = NULL)));;
  bp ← get_prev before;
  set_prev elem bp;;
  set_next elem before;;
  bp' ← get_prev before;
  set_next bp' elem;;
  set_prev before elem.

Definition list_splice (before first last : Z) : M heap unit :=
  a ← is_interior before; b ← is_tail before; ASSERT (a || b);;
  if decide (first = last) then mret () else
  last ← list_prev last;
  a ← is_interior first; ASSERT a;;
  b ← is_interior last; ASSERT b;;
  (* Cleanly remove FIRST...LAST from its current list. *)
  fp ← get_prev first; ln ← get_next last; set_next fp ln;;
  ln ← get_next last; fp ← get_prev first; set_prev ln fp;;
  (* Splice FIRST...LAST into new list. *)
  bp ← get_prev before; set_prev first bp;;
  set_next last before;;
  bp ← get_prev before; set_next bp first;;
  set_prev before last.

Definition list_push_front (l : list_t) (elem : Z) : M heap unit :=
  b ← list_begin l; list_insert b elem.

Definition list_push_back (l : list_t) (elem : Z) : M heap unit :=
  e ← list_end l; list_insert e elem.

Definition list_remove (elem : Z) : M heap Z :=
  a ← is_interior elem; ASSERT a;;
  p ← get_prev elem; n ← get_next elem; set_next p n;;
  n ← get_next elem; p ← get_prev elem; set_prev n p;;
  get_next elem.

Definition list_empty (l : list_t) : M heap bool :=
  b ← list_begin l; e ← list_end l; mret (bool_decide (b = e)).

Definition list_front (l : list_t) : M heap Z :=
  e ← list_empty l; ASSERT (negb e);; get_next (head l).

Definition list_back (l : list_t) : M heap Z :=
  e ← list_empty l; ASSERT (negb e);; get_prev (tail l).

Definition list_pop_front (l : list_t) : M heap Z :=
  front ← list_front l; list_remove front;; mret front.

Definition list_pop_back (l : list_t) : M heap Z :=
  back ← list_back l; list_remove back;; mret back.

(** [for (e = list_begin (list); e != list_end (list); e = list_next (e)) cnt++;] *)
Fixpoint list_size_loop (fuel : nat) (l : list_t) (e cnt : Z) : M heap Z :=
  match fuel with
  | O => fail NoFuel
  | S fuel =>
      t ← list_end l;
      if decide (e = t) then mret cnt else
      n ← list_next e; list_size_loop fuel l n (cnt + 1)
  end.

Definition list_size (l : list_t) : M heap Z :=
  h ← get; e ← list_begin l; list_size_loop (loop_bound h) l e 0.

(** The loop of [list_reverse]: [swap] exchanges the two links, so the
    step [e = e->prev] follows the old [next]. *)
Fixpoint list_reverse_loop (fuel : nat) (l : list_t) (e : Z) : M heap unit :=
  match fuel with
  | O => fail NoFuel
  | S fuel =>
      t ← list_end l;
      if decide (e = t) then mret () else
      n ← load e;
      modify (<[e := ListElem (next n) (prev n)]>);;
      p ← get_prev e; list_reverse_loop fuel l p
  end.

(** The two exchanges after the loop of [list_reverse]. *)
Definition list_reverse_ends (l : list_t) : M heap unit :=
  (* swap (&list->head.next, &list->tail.prev) *)
  hn ← get_next (head l); tp ← get_prev (tail l);
  set_next (head l) tp;; set_prev (tail l) hn;;
  (* swap (&list->head.next->prev, &list->tail.prev->next) *)
  hn ← get_next (head l); tp ← get_prev (tail l);
  x ← get_prev hn; y ← get_next tp;
  set_prev hn y;; set_next tp x.

Definition list_reverse (l : list_t) : M heap unit :=
  e ← list_empty l;
  if (e : bool) then mret () else
  h ← get; b ← list_begin l;
  list_reverse_loop (loop_bound h) l b;;
  list_reverse_ends l.

Section Ordered.
Context (less : list_less_func).

Fixpoint is_sorted_loop (fuel : nat) (a b : Z) : M heap bool :=
  match fuel with
  | O => fail NoFuel
  | S fuel =>
      a ← list_next a;
      if decide (a = b) then mret true else
      p ← list_prev a;
      if less a p then mret false else is_sorted_loop fuel a b
  end.

Definition is_sorted (a b : Z) : M heap bool :=
  h ← get;
  if decide (a = b) then mret true else is_sorted_loop (loop_bound h) a b.

Fixpoint find_end_of_run_loop (fuel : nat) (a b : Z) : M heap Z :=
  match fuel with
  | O => fail NoFuel
  | S fuel =>
      a ← list_next a;
      if decide (a = b) then mret a else
      p ← list_prev a;
      if less a p then mret a else find_end_of_run_loop fuel a b
  end.

Definition find_end_of_run (a b : Z) : M heap Z :=
  h ← get;
  ASSERT (negb (bool_decide (a = NULL)));;
  ASSERT (negb (bool_decide (b = NULL)));;
  ASSERT (negb (bool_decide (a = b)));;
  find_end_of_run_loop (loop_bound h) a b.

Fixpoint inplace_merge_loop (fuel : nat) (a0 a1b0 b1 : Z) : M heap unit :=
  match fuel with
  | O => fail NoFuel
  | S fuel =>
      if decide (a0 = a1b0) then mret () else
      if decide (a1b0 = b1) then mret () else
      if negb (less a1b0 a0)
      then a0 ← list_next a0; inplace_merge_loop fuel a0 a1b0 b1
      else
        a1b0 ← list_next a1b0;
        p ← list_prev a1b0;
        list_splice a0 p a1b0;;
        inplace_merge_loop fuel a0 a1b0 b1
  end.

Definition inplace_merge (a0 a1b0 b1 : Z) : M heap unit :=
  h ← get;
  ASSERT (negb (bool_decide (a0 = NULL)));;
  ASSERT (negb (bool_decide (a1b0 = NULL)));;
  ASSERT (negb (bool_decide (b1 = NULL)));;
  s ← is_sorted a0 a1b0; ASSERT s;;
  s ← is_sorted a1b0 b1; ASSERT s;;
  inplace_merge_loop (loop_bound h) a0 a1b0 b1.

(** The inner [for] loop of [list_sort]: one pass, which returns
    [output_run_cnt]. *)
Fixpoint list_sort_pass (fuel : nat) (l : list_t) (a0 : Z) (output_run_cnt : Z) : M heap Z :=
  match fuel with
  | O => fail NoFuel
  | S fuel =>
      e ← list_end l;
      if decide (a0 = e) then mret output_run_cnt else
      let output_run_cnt := output_run_cnt + 1 in
      a1b0 ← find_end_of_run a0 e;
      if decide (a1b0 = e) then mret output_run_cnt else
      b1 ← find_end_of_run a1b0 e;
      inplace_merge a0 a1b0 b1;;
      list_sort_pass fuel l b1 output_run_cnt
  end.

(** The outer [do ... while (output_run_cnt > 1)] loop. *)
Fixpoint list_sort_loop (fuel : nat) (l : list_t) : M heap unit :=
  match fuel with
  | O => fail NoFuel
  | S fuel =>
      h ← get;
      a0 ← list_begin l;
      output_run_cnt ← list_sort_pass (loop_bound h) l a0 0;
      if decide (output_run_cnt > 1) then list_sort_loop fuel l else mret ()
  end.

Definition list_sort (l : list_t) : M heap unit :=
  h ← get;
  list_sort_loop (loop_bound h) l;;
  b ← list_begin l; e ← list_end l;
  s ← is_sorted b e; ASSERT s.

Fixpoint list_insert_ordered_loop (fuel : nat) (l : list_t) (elem e : Z) : M heap Z :=
  match fuel with
  | O => fail NoFuel
  | S fuel =>
      t ← list_end l;
      if decide (e = t) then mret e else
      if less elem e then mret e else
      n ← list_next e; list_insert_ordered_loop fuel l elem n
  end.

Definition list_insert_ordered (l : list_t) (elem : Z) : M heap unit :=
  h ← get;
  ASSERT (negb (bool_decide (elem = NULL)));;
  b ← list_begin l;
  e ← list_insert_ordered_loop (loop_bound h) l elem b;
  list_insert e elem.

Fixpoint list_unique_loop (fuel : nat) (l : list_t) (duplicates : option list_t) (elem : Z)
    : M heap unit :=
  match fuel with
  | O => fail NoFuel
  | S fuel =>
      nxt ← list_next elem;
      t ← list_end l;
      if decide (nxt = t) then mret () else
      if negb (less elem nxt) && negb (less nxt elem)
      then
        list_remove nxt;;
        match duplicates with
        | Some d => list_push_back d nxt
        | None => mret ()
        end;;
        list_unique_loop fuel l duplicates elem
      else list_unique_loop fuel l duplicates nxt
  end.

Definition list_unique (l : list_t) (duplicates : option list_t) : M heap unit :=
  h ← get;
  e ← list_empty l;
  if (e : bool) then mret () else
  elem ← list_begin l;
  list_unique_loop (loop_bound h) l duplicates elem.

Fixpoint list_max_loop (fuel : nat) (l : list_t) (max e : Z) : M heap Z :=
  match fuel with
  | O => fail NoFuel
  | S fuel =>
      t ← list_end l;
      if decide (e = t) then mret max else
      n ← list_next e;
      list_max_loop fuel l (if less max e then e else max) n
  end.

Definition list_max (l : list_t) : M heap Z :=
  h ← get;
  max ← list_begin l;
  t ← list_end l;
  if decide (max = t) then mret max else
  e ← list_next max; list_max_loop (loop_bound h) l max e.

Fixpoint list_min_loop (fuel : nat) (l : list_t) (min e : Z) : M heap Z :=
  match fuel with
  | O => fail NoFuel
  | S fuel =>
      t ← list_end l;
      if decide (e = t) then mret min else
      n ← list_next e;
      list_min_loop fuel l (if less e min then e else min) n
  end.

Definition list_min (l : list_t) : M heap Z :=
  h ← get;
  min ← list_begin l;
  t ← list_end l;
  if decide (min = t) then mret min else
  e ← list_next min; list_min_loop (loop_bound h) l min e.

End Ordered.

(** ** Running the primitive accesses *)

Lemma load_ok (h : heap) e n : e ≠ NULL → h !! e = Some n → load e h = Ok (n, h).
Proof. intros He Hn. unfold load. rewrite decide_False by done. by rewrite Hn. Qed.

Lemma get_prev_ok (h : heap) e n :
  e ≠ NULL → h !! e = Some n → get_prev e h = Ok (prev n, h).
Proof. intros. unfold get_prev. by erewrite bind_Ok by (by apply load_ok). Qed.

Lemma get_next_ok (h : heap) e n :
  e ≠ NULL → h !! e = Some n → get_next e h = Ok (next n, h).
Proof. intros. unfold get_next. by erewrite bind_Ok by (by apply load_ok). Qed.

Lemma set_prev_ok (h : heap) e n p :
  e ≠ NULL → h !! e = Some n → set_prev e p h = Ok ((), <[e := ListElem p (next n)]> h).
Proof. intros. unfold set_prev. by erewrite bind_Ok by (by apply load_ok). Qed.

Lemma set_next_ok (h : heap) e n p :
  e ≠ NULL → h !! e = Some n → set_next e p h = Ok ((), <[e := ListElem (prev n) p]> h).
Proof. intros. unfold set_next. by erewrite bind_Ok by (by apply load_ok). Qed.

Lemma is_head_ok (h : heap) e n :
  e ≠ NULL → h !! e = Some n →
  is_head e h = Ok (bool_decide (prev n = NULL) && negb (bool_decide (next n = NULL)), h).
Proof.
  intros. unfold is_head. rewrite decide_False by done.
  by erewrite bind_Ok by (by apply load_ok).
Qed.

Lemma is_interior_ok (h : heap) e n :
  e ≠ NULL → h !! e = Some n →
  is_interior e h =
    Ok (negb (bool_decide (prev n = NULL)) && negb (bool_decide (next n = NULL)), h).
Proof.
  intros. unfold is_interior. rewrite decide_False by done.
  by erewrite bind_Ok by (by apply load_ok).
Qed.

Lemma is_tail_ok (h : heap) e n :
  e ≠ NULL → h !! e = Some n →
  is_tail e h = Ok (negb (bool_decide (prev n = NULL)) && bool_decide (next n = NULL), h).
Proof.
  intros. unfold is_tail. rewrite decide_False by done.
  by erewrite bind_Ok by (by apply load_ok).
Qed.

(** One access of a running list operation, on an element whose contents
    follow from the context. *)
Ltac hlookup :=
  first
    [ eassumption
    | rewrite lookup_insert_eq; reflexivity
    | rewrite lookup_insert_ne by done; hlookup
    | by simplify_map_eq ].
Ltac hstep :=
  first
    [ etransitivity;
        [ first [ eapply get_prev_ok; [by eauto | hlookup]
                | eapply get_next_ok; [by eauto | hlookup]
                | eapply set_prev_ok; [by eauto | hlookup]
                | eapply set_next_ok; [by eauto | hlookup] ]
        | cbn [prev next]; reflexivity ]
    | erewrite bind_Ok; [| first
        [ eapply get_prev_ok; [by eauto | hlookup]
        | eapply get_next_ok; [by eauto | hlookup]
        | eapply set_prev_ok; [by eauto | hlookup]
        | eapply set_next_ok; [by eauto | hlookup]
        | eapply is_head_ok; [by eauto | hlookup]
        | eapply is_interior_ok; [by eauto | hlookup]
        | eapply is_tail_ok; [by eauto | hlookup]
        | eapply load_ok; [by eauto | hlookup]
        | apply ASSERT_true; cbn; repeat case_bool_decide; by try done ] ] ];
  cbn [prev next].

(** ** The representation of a list

    [chain h ns]: the elements [ns], sentinels included, are linked in
    this order in the store. *)
Definition first_or (xs : list Z) (n : Z) : Z :=
  match xs with [] => n | x :: _ => x end.

Fixpoint last_or (p : Z) (xs : list Z) : Z :=
  match xs with [] => p | x :: xs => last_or x xs end.

Fixpoint lseg (h : heap) (p : Z) (xs : list Z) (n : Z) : Prop :=
  match xs with
  | [] => True
  | x :: xs' => h !! x = Some (ListElem p (first_or xs' n)) ∧ lseg h x xs' n
  end.

Definition chain (h : heap) (ns : list Z) : Prop :=
  lseg h NULL ns NULL ∧ NoDup ns ∧ NULL ∉ ns.

Definition is_list (h : heap) (l : list_t) (xs : list Z) : Prop :=
  chain h (head l :: xs ++ [tail l]).

#[global] Instance lseg_dec h p xs n : Decision (lseg h p xs n).
Proof. revert p. induction xs; intros p; cbn; apply _. Defined.
#[global] Instance is_list_dec h l xs : Decision (is_list h l xs).
Proof. unfold is_list, chain. apply _. Defined.

(** The store outside a set of elements is untouched. *)
Definition same_except (ns : list Z) (h h' : heap) : Prop :=
  ∀ a, a ∉ ns → h' !! a = h !! a.

Lemma last_or_app p xs ys : last_or p (xs ++ ys) = last_or (last_or p xs) ys.
Proof. revert p. induction xs; intros; cbn; auto. Qed.

Lemma first_or_app xs ys n : first_or (xs ++ ys) n = first_or xs (first_or ys n).
Proof. by destruct xs. Qed.

Lemma first_or_elem xs n : first_or xs n ∈ xs ++ [n].
Proof. destruct xs; cbn; set_solver. Qed.

Lemma last_or_elem p xs : last_or p xs ∈ p :: xs.
Proof. revert p. induction xs as [|x xs IH]; intros p; cbn; set_solver. Qed.

Lemma lseg_app h p xs ys n :
  lseg h p (xs ++ ys) n ↔ lseg h p xs (first_or ys n) ∧ lseg h (last_or p xs) ys n.
Proof.
  revert p. induction xs as [|x xs IH]; intros p; cbn; [tauto|].
  rewrite IH, first_or_app. tauto.
Qed.

Lemma lseg_frame h h' p xs n :
  (∀ a, a ∈ xs → h' !! a = h !! a) → lseg h p xs n → lseg h' p xs n.
Proof.
  revert p. induction xs as [|x xs IH]; intros p Hf; cbn; [done|].
  intros [H1 H2]. split; [rewrite Hf; [done|set_solver]|].
  apply IH; [set_solver|done].
Qed.

Lemma lseg_lookup h p xs x ys n :
  lseg h p (xs ++ x :: ys) n → h !! x = Some (ListElem (last_or p xs) (first_or ys n)).
Proof. rewrite lseg_app. cbn. tauto. Qed.

Lemma lseg_dom h p xs n x : lseg h p xs n → x ∈ xs → is_Some (h !! x).
Proof. intros H [ys [zs ->]]%list_elem_of_split. erewrite lseg_lookup by done. eauto. Qed.

Lemma chain_frame h h' ns : chain h ns → (∀ a, a ∈ ns → h' !! a = h !! a) → chain h' ns.
Proof. intros (H1 & H2 & H3) Hf. split_and!; eauto using lseg_frame. Qed.

Lemma chain_nonnull h ns x : chain h ns → x ∈ ns → x ≠ NULL.
Proof. intros (_ & _ & H) Hx ->. done. Qed.

Lemma same_except_trans ns h1 h2 h3 :
  same_except ns h1 h2 → same_except ns h2 h3 → same_except ns h1 h3.
Proof. intros H1 H2 a Ha. by rewrite H2, H1. Qed.

(** The bound of the loops covers every chain of the store. *)
Lemma chain_length h ns : chain h ns → (length ns ≤ size h)%nat.
Proof.
  intros (H1 & H2 & _). rewrite <- (size_list_to_set (C:=gset Z) ns) by done.
  rewrite <- size_dom. apply subseteq_size. intros x.
  rewrite elem_of_list_to_set, elem_of_dom. eauto using lseg_dom.
Qed.

(** ** Insertion and removal at the level of chains *)

(** The links around two neighbours, and the elements outside. *)
Lemma chain_pair h A p b B :
  chain h (A ++ p :: b :: B) →
  h !! p = Some (ListElem (last_or NULL A) b) ∧
  h !! b = Some (ListElem p (first_or B NULL)) ∧
  p ≠ NULL ∧ b ≠ NULL ∧ p ≠ b.
Proof.
  intros (H1 & H2 & H3). rewrite lseg_app in H1. cbn in H1.
  destruct H1 as (_ & Hp & Hb & _).
  apply NoDup_app in H2 as (_ & _ & [? ?]%NoDup_cons).
  rewrite elem_of_app, !elem_of_cons in *.
  split_and!; [done..|naive_solver|naive_solver|naive_solver].
Qed.

Lemma NoDup_outside (A C B : list Z) a x :
  NoDup (A ++ C ++ B) → x ∈ C → a ∈ A ∨ a ∈ B → a ≠ x.
Proof.
  intros (_ & H1 & (_ & H2 & _)%NoDup_app)%NoDup_app Hx [Ha|Ha] ->.
  - apply (H1 x Ha). apply elem_of_app. auto.
  - by apply (H2 x Hx).
Qed.

(** A chain is rebuilt from its unchanged ends and its new middle. *)
Lemma chain_middle h h' A C C' B :
  chain h (A ++ C ++ B) →
  NoDup (A ++ C' ++ B) → NULL ∉ C' →
  first_or (C ++ B) NULL = first_or (C' ++ B) NULL →
  last_or (last_or NULL A) C = last_or (last_or NULL A) C' →
  lseg h' (last_or NULL A) C' (first_or B NULL) →
  (∀ a, a ∈ A ∨ a ∈ B → h' !! a = h !! a) →
  chain h' (A ++ C' ++ B).
Proof.
  intros (H1 & _ & H3) Hnd Hnull Hf Hl Hm Hframe.
  rewrite !elem_of_app in H3. split_and!; [|done|rewrite !elem_of_app; tauto].
  rewrite !lseg_app in H1 |- *. destruct H1 as (HA & _ & HB).
  rewrite <- Hf, <- Hl. split_and!; [|done|].
  - eapply lseg_frame; [|done]. auto.
  - eapply lseg_frame; [|done]. auto.
Qed.

Lemma NoDup_perm (xs ys : list Z) : xs ≡ₚ ys → NoDup xs → NoDup ys.
Proof. by intros ->. Qed.

Lemma list_insert_chain h A p b B e :
  chain h (A ++ p :: b :: B) → e ∉ A ++ p :: b :: B → e ≠ NULL → is_Some (h !! e) →
  ∃ h', list_insert b e h = Ok ((), h') ∧
        chain h' (A ++ p :: e :: b :: B) ∧ same_except [p; e; b] h h'.
Proof.
  intros Hc He Hnull [old Hold].
  destruct (chain_pair _ _ _ _ _ Hc) as (Hp & Hb & Hpn & Hbn & Hpb).
  pose proof He as He'. rewrite elem_of_app, !elem_of_cons in He'.
  assert (e ≠ p ∧ e ≠ b) as [Hep Heb] by tauto.
  assert (NoDup (A ++ [p; b] ++ B)) as Hnd by apply Hc.
  eexists. split; [unfold list_insert; repeat hstep|]. split.
  - apply (chain_middle h _ A [p; b] [p; e; b] B); try done.
    + apply (NoDup_perm (e :: A ++ [p; b] ++ B)); [solve_Permutation|].
      by apply NoDup_cons.
    + rewrite !elem_of_cons, elem_of_nil. naive_solver.
    + cbn. split_and!; [hlookup..|done].
    + intros a Ha.
      assert (a ≠ p) by (eapply NoDup_outside; [done| |done]; left).
      assert (a ≠ b) by (eapply NoDup_outside; [done| |done]; right; left).
      assert (a ≠ e) by naive_solver. by rewrite !lookup_insert_ne by done.
  - intros a Ha. repeat (apply not_elem_of_cons in Ha as [? Ha]).
    by rewrite !lookup_insert_ne by done.
Qed.

Lemma list_remove_chain h A p e n B :
  chain h (A ++ p :: e :: n :: B) →
  ∃ h', list_remove e h = Ok (n, h') ∧
        chain h' (A ++ p :: n :: B) ∧ same_except [p; n] h h'.
Proof.
  intros Hc.
  destruct (chain_pair _ _ _ _ _ Hc) as (Hp & He & Hpn & Hen & Hpe). cbn in He.
  assert (chain h ((A ++ [p]) ++ e :: n :: B)) as Hc' by (by rewrite <- app_assoc).
  destruct (chain_pair _ _ _ _ _ Hc') as (_ & Hn & _ & Hnn & Hne).
  assert (NoDup (A ++ [p; e; n] ++ B)) as Hnd by apply Hc.
  assert (p ≠ n).
  { apply NoDup_app in Hnd as (_ & _ & [Hd _]%NoDup_cons). intros ->.
    apply Hd. right. left. }
  eexists. split; [unfold list_remove; repeat hstep|]. split.
  - apply (chain_middle h _ A [p; e; n] [p; n] B); try done.
    + apply (NoDup_perm (A ++ [p; e; n] ++ B) (e :: A ++ [p; n] ++ B)) in Hnd;
        [by apply NoDup_cons in Hnd as [_ ?]|solve_Permutation].
    + rewrite !elem_of_cons, elem_of_nil. naive_solver.
    + cbn. split_and!; [hlookup..|done].
    + intros a Ha.
      assert (a ≠ p) by (eapply NoDup_outside; [done| |done]; left).
      assert (a ≠ n) by (eapply NoDup_outside; [done| |done]; right; right; left).
      by rewrite !lookup_insert_ne by done.
  - intros a Ha. repeat (apply not_elem_of_cons in Ha as [? Ha]).
    by rewrite !lookup_insert_ne by done.
Qed.

Lemma list_next_ok (h : heap) e n :
  e ≠ NULL → h !! e = Some n → next n ≠ NULL → list_next e h = Ok (next n, h).
Proof.
  intros ? ? Hn. unfold list_next. do 2 hstep.
  rewrite (bool_decide_false _ Hn), !andb_true_r.
  erewrite bind_Ok by (apply ASSERT_true; by case_bool_decide). by hstep.
Qed.

Lemma list_prev_ok (h : heap) e n :
  e ≠ NULL → h !! e = Some n → prev n ≠ NULL → list_prev e h = Ok (prev n, h).
Proof.
  intros ? ? Hn. unfold list_prev. do 2 hstep.
  rewrite (bool_decide_false _ Hn). cbn [negb andb].
  erewrite bind_Ok by (apply ASSERT_true; by case_bool_decide). by hstep.
Qed.

Lemma list_next_chain h A x y B :
  chain h (A ++ x :: y :: B) → list_next x h = Ok (y, h).
Proof.
  intros Hc. destruct (chain_pair _ _ _ _ _ Hc) as (Hx & Hy & ? & ? & ?).
  by apply (list_next_ok h x (ListElem (last_or NULL A) y)).
Qed.

Lemma list_prev_chain h A x y B :
  chain h (A ++ x :: y :: B) → list_prev y h = Ok (x, h).
Proof.
  intros Hc. destruct (chain_pair _ _ _ _ _ Hc) as (Hx & Hy & ? & ? & ?).
  by apply (list_prev_ok h y (ListElem x (first_or B NULL))).
Qed.

Lemma NoDup_app_neq (X Y : list Z) x y : NoDup (X ++ Y) → x ∈ X → y ∈ Y → x ≠ y.
Proof. intros (_ & H & _)%NoDup_app Hx Hy ->. by apply (H y). Qed.

(** A segment whose outer two links alone have changed. *)
Lemma lseg_relink h h' p x xs n p' n' :
  lseg h p (x :: xs) n → NoDup (x :: xs) →
  (∀ a nd, a ∈ x :: xs → h !! a = Some nd →
     h' !! a = Some (ListElem (if decide (a = x) then p' else prev nd)
                              (if decide (a = last_or x xs) then n' else next nd))) →
  lseg h' p' (x :: xs) n'.
Proof.
  revert p p' x. induction xs as [|y xs IH]; intros p p' x Hs Hnd Hh.
  - cbn in *. destruct Hs as [Hx _]. split; [|done].
    rewrite (Hh x _ ltac:(left) Hx). by rewrite !decide_True.
  - destruct Hs as [Hx Hs]. apply NoDup_cons in Hnd as [Hxn Hnd]. split.
    + rewrite (Hh x _ ltac:(left) Hx). rewrite decide_True by done.
      rewrite decide_False; [done|]. cbn.
      intros ->. pose proof (last_or_elem y xs). done.
    + apply (IH x x y); [done..|]. intros a nd Ha Hnd'.
      rewrite (Hh a nd ltac:(by right) Hnd'). cbn.
      rewrite decide_False by (intros ->; done).
      destruct (decide (a = y)) as [->|]; [|done].
      cbn in Hs. destruct Hs as [Hy _]. rewrite Hnd' in Hy. by simplify_eq.
Qed.

(** What [list_splice] does to the links, on any placement of the range
    [f..g] (which ends before [z], starts after [q]) and of [before]. *)
Lemma list_splice_links (h : heap) p b q f g z pp bn qp fn gp zn :
  p ≠ NULL → b ≠ NULL → q ≠ NULL → f ≠ NULL → g ≠ NULL → z ≠ NULL →
  p ≠ b → p ≠ q → p ≠ f → p ≠ g → p ≠ z → b ≠ f → b ≠ g → b ≠ z →
  q ≠ f → q ≠ g → q ≠ z → f ≠ z → g ≠ z →
  h !! p = Some (ListElem pp b) → h !! b = Some (ListElem p bn) →
  h !! q = Some (ListElem qp f) → h !! f = Some (ListElem q fn) →
  h !! g = Some (ListElem gp z) → h !! z = Some (ListElem g zn) →
  bn ≠ NULL → fn ≠ NULL → gp ≠ NULL →
  ∃ h', list_splice b f z h = Ok ((), h') ∧
    h' !! p = Some (ListElem pp f) ∧
    h' !! z = Some (ListElem q zn) ∧
    h' !! b = Some (ListElem g (if decide (b = q) then z else bn)) ∧
    h' !! q = Some (ListElem (if decide (q = b) then g else qp) z) ∧
    h' !! f = Some (ListElem p (if decide (f = g) then b else fn)) ∧
    h' !! g = Some (ListElem (if decide (g = f) then p else gp) b) ∧
    same_except [p; b; q; f; g; z] h h'.
Proof.
  intros. destruct (decide (b = q)) as [->|Hbq], (decide (f = g)) as [->|Hfg];
    simplify_eq;
    (eexists; split;
      [unfold list_splice; repeat hstep; rewrite decide_False by done;
       erewrite bind_Ok by (eapply list_prev_ok; [done|hlookup|done]); cbn [prev next];
       repeat hstep|]);
    rewrite ?decide_True by done; rewrite ?decide_False by done;
    (split_and!; [hlookup..|]);
    intros a Ha; repeat (apply not_elem_of_cons in Ha as [? Ha]);
    by rewrite !lookup_insert_ne by done.
Qed.

Lemma lseg_last h p x xs n :
  lseg h p (x :: xs) n →
  ∃ pp, pp ∈ p :: x :: xs ∧ h !! last_or x xs = Some (ListElem pp n).
Proof.
  revert p x. induction xs as [|y xs IH]; intros p x [Hx Hs].
  - exists p. split; [left|done].
  - destruct (IH _ _ Hs) as (pp & Hpp & ?). exists pp. split; [|done]. by right.
Qed.

Lemma lseg_relink_out (h h' : heap) p x xs n p' n' :
  lseg h p (x :: xs) n → NoDup (x :: xs) →
  (∃ m, h' !! x = Some (ListElem p' m) ∧
        (if decide (x = last_or x xs) then m = n' else m = first_or xs n)) →
  (∃ m, h' !! last_or x xs = Some (ListElem m n') ∧
        (if decide (last_or x xs = x) then m = p' else h !! last_or x xs = Some (ListElem m n))) →
  (∀ a, a ∈ x :: xs → a ≠ x → a ≠ last_or x xs → h' !! a = h !! a) →
  lseg h' p' (x :: xs) n'.
Proof.
  intros Hs Hnd (mx & Hx & Hmx) (ml & Hl & Hml) Hin.
  eapply lseg_relink; [done..|]. intros a nd Ha Hnd'.
  destruct (decide (a = x)) as [->|Hax].
  - rewrite Hx. destruct Hs as [Hs _]. rewrite Hnd' in Hs. simplify_eq. cbn.
    destruct (decide (x = last_or x xs)); by rewrite Hmx.
  - destruct (decide (a = last_or x xs)) as [->|Hal].
    + rewrite Hl. rewrite decide_False in Hml by done.
      rewrite Hnd' in Hml. by simplify_eq.
    + rewrite Hin, Hnd' by done. by destruct nd.
Qed.

(** The four parts of the range of a list that a splice involves. *)
Section Splice.
Context (h : heap) (A : list Z) (p b : Z) (Q : list Z) (f : Z) (R : list Z) (z : Z) (S : list Z).
Let q := last_or b Q.
Let g := last_or f R.
Let C := [p] ++ (b :: Q) ++ (f :: R) ++ [z].
Context (Hc : chain h (A ++ C ++ S)).

Lemma splice_neq :
  (∀ x, x ∈ b :: Q ∨ x ∈ f :: R ∨ x = z → p ≠ x) ∧
  (∀ x, x ∈ b :: Q → ∀ y, y ∈ f :: R ∨ y = z → x ≠ y) ∧
  (∀ x, x ∈ f :: R → x ≠ z) ∧ NoDup (b :: Q) ∧ NoDup (f :: R).
Proof.
  destruct Hc as (_ & (_ & _ & [Hnd _]%NoDup_app)%NoDup_app & _).
  pose proof Hnd as (_ & _ & Hnd1)%NoDup_app. pose proof Hnd1 as (? & _ & Hnd2)%NoDup_app.
  pose proof Hnd2 as (? & _ & _)%NoDup_app. split_and!; try done.
  - intros x Hx. eapply NoDup_app_neq; [exact Hnd|left|].
    by rewrite !elem_of_app, list_elem_of_singleton.
  - intros x Hx y Hy. eapply NoDup_app_neq; [exact Hnd1|done|].
    by rewrite elem_of_app, list_elem_of_singleton.
  - intros x Hx. eapply NoDup_app_neq; [exact Hnd2|done|left].
Qed.

Lemma splice_nonnull x : x = p ∨ x ∈ b :: Q ∨ x ∈ f :: R ∨ x = z → x ≠ NULL.
Proof.
  intros Hx. eapply chain_nonnull; [exact Hc|]. unfold C.
  rewrite !elem_of_app, !list_elem_of_singleton. tauto.
Qed.

Lemma splice_lseg :
  h !! p = Some (ListElem (last_or NULL A) b) ∧ lseg h p (b :: Q) f ∧
  lseg h q (f :: R) z ∧ h !! z = Some (ListElem g (first_or S NULL)).
Proof.
  destruct Hc as (Hl & _ & _). rewrite lseg_app in Hl. unfold C in Hl.
  rewrite !lseg_app in Hl. destruct Hl as (_ & ([? _] & HQ & HR & [? _]) & _). done.
Qed.

Lemma list_splice_run :
  ∃ h', list_splice b f z h = Ok ((), h') ∧ lseg h' p (f :: R) b ∧ lseg h' g (b :: Q) z ∧
        h' !! p = Some (ListElem (last_or NULL A) f) ∧
        h' !! z = Some (ListElem q (first_or S NULL)) ∧ same_except C h h'.
Proof.
  destruct splice_neq as (Npx & NQR & NRz & HndQ & HndR).
  destruct splice_lseg as (Hp & HQ & HR & Hz).
  assert (q ∈ b :: Q ∧ g ∈ f :: R) as [Hq Hg] by (split; apply last_or_elem).
  assert (b ∈ b :: Q ∧ f ∈ f :: R) as [Hb Hf] by (split; left).
  destruct (lseg_last _ _ _ _ _ HQ) as (qp & Hqp & Hq'). fold q in Hq'.
  destruct (lseg_last _ _ _ _ _ HR) as (gp & Hgp & Hg'). fold g in Hg'.
  destruct (list_splice_links h p b q f g z (last_or NULL A) (first_or Q f) qp (first_or R z)
              gp (first_or S NULL)) as (h' & Hrun & Hp1 & Hz1 & Hb1 & Hq1 & Hf1 & Hg1 & Hfr);
    eauto 6 using splice_nonnull; try (apply HQ || apply HR).
  { apply splice_nonnull. destruct Q; cbn; [auto|]. right. left. by right; left. }
  { apply splice_nonnull. destruct R; cbn; [auto|]. right. right. left. by right; left. }
  { apply splice_nonnull. apply elem_of_cons in Hgp as [->|]; auto. }
  exists h'. split_and!; try done.
  - eapply lseg_relink_out; [exact HR|done|..]; fold g.
    + eexists. split; [exact Hf1|]. by destruct (decide (f = g)).
    + eexists. split; [exact Hg1|]. by destruct (decide (g = f)).
    + intros a Ha Haf Hag. apply Hfr. rewrite !not_elem_of_cons.
      split_and!; eauto 6 using not_elem_of_nil, not_eq_sym.
  - eapply lseg_relink_out; [exact HQ|done|..]; fold q.
    + eexists. split; [exact Hb1|]. by destruct (decide (b = q)).
    + eexists. split; [exact Hq1|]. by destruct (decide (q = b)).
    + intros a Ha Haf Hag. apply Hfr. rewrite !not_elem_of_cons.
      split_and!; eauto 6 using not_elem_of_nil, not_eq_sym.
  - intros a Ha. apply Hfr. intros Hin. apply Ha. unfold C.
    rewrite !elem_of_app, !list_elem_of_singleton. rewrite !elem_of_cons, elem_of_nil in Hin.
    naive_solver.
Qed.

End Splice.

(** Moving the range [f :: R] of a list before an earlier element [b]. *)
Lemma list_splice_chain h A p b Q f R z S :
  chain h (A ++ p :: b :: Q ++ f :: R ++ z :: S) →
  ∃ h', list_splice b f z h = Ok ((), h') ∧
        chain h' (A ++ p :: f :: R ++ b :: Q ++ z :: S) ∧
        same_except (p :: b :: Q ++ f :: R ++ [z]) h h'.
Proof.
  intros Hc.
  assert (chain h (A ++ ([p] ++ (b :: Q) ++ (f :: R) ++ [z]) ++ S)) as Hc'
    by (cbn; rewrite <- !app_assoc; cbn; by rewrite <- !app_assoc).
  destruct (list_splice_run _ _ _ _ _ _ _ _ _ Hc') as (h' & Hrun & HR & HQ & Hp & Hz & Hfr).
  exists h'. split_and!; [done| |done].
  replace (A ++ p :: f :: R ++ b :: Q ++ z :: S)
    with (A ++ ([p] ++ (f :: R) ++ (b :: Q) ++ [z]) ++ S)
    by (cbn; rewrite <- !app_assoc; cbn; by rewrite <- !app_assoc).
  eapply chain_middle; [exact Hc'|..]; try done.
  - eapply NoDup_perm; [|apply Hc']. solve_Permutation.
  - pose proof (splice_nonnull _ _ _ _ _ _ _ _ _ Hc' NULL) as Hn.
    rewrite !elem_of_app, !list_elem_of_singleton. intros H. by apply Hn; [tauto|].
  - by rewrite !last_or_app.
  - rewrite !lseg_app. do 3 (split; [done|]). done.
  - intros a Ha. apply Hfr. intros Hin. eapply NoDup_outside; [apply Hc'|exact Hin|exact Ha|done].
Qed.

End KList.
