(* ===== verification/KListSpec.v ===== *)
(** * Functional correctness of the kernel lists

    Each operation of [KList] on a well-formed list returns (it neither
    panics, nor follows a wild pointer, nor exhausts the bound of its loop)
    and implements the list operation named in its theorem.  The frame
    condition [same_except] says which elements of the store it may touch. *)

From S2P Require Import Prelude KList.
Import KList.

Module KListSpec.

(** ** Shapes *)

Lemma split_last x (xs : list Z) : ∃ A, x :: xs = A ++ [last_or x xs].
Proof.
  revert x. induction xs as [|y xs IH]; intros x; [by exists []|].
  destruct (IH y) as [A HA]. exists (x :: A). cbn. by rewrite HA.
Qed.

Lemma split_first (ys : list Z) t : ∃ B, ys ++ [t] = first_or ys t :: B.
Proof. destruct ys as [|y ys]; [by exists []|by exists (ys ++ [t])]. Qed.

(** The neighbours at any position of a list. *)
Lemma is_list_split l xs ys :
  ∃ A B, head l :: (xs ++ ys) ++ [tail l] =
           A ++ last_or (head l) xs :: first_or ys (tail l) :: B ∧
         head l :: xs = A ++ [last_or (head l) xs] ∧
         ys ++ [tail l] = first_or ys (tail l) :: B.
Proof.
  destruct (split_last (head l) xs) as [A HA], (split_first ys (tail l)) as [B HB].
  exists A, B. split_and!; [|done..].
  change (head l :: (xs ++ ys) ++ [tail l]) with ((head l :: xs ++ ys) ++ [tail l]).
  rewrite app_comm_cons, HA, <- !app_assoc, HB. done.
Qed.

Lemma is_list_begin h l xs :
  is_list h l xs → list_begin l h = Ok (first_or xs (tail l), h).
Proof.
  intros Hl. destruct (split_first xs (tail l)) as [B HB].
  unfold is_list in Hl. rewrite HB in Hl.
  destruct (chain_pair h [] (head l) (first_or xs (tail l)) B Hl) as (H1 & _ & ? & _).
  unfold list_begin. by rewrite (get_next_ok _ _ _ H H1).
Qed.

Lemma is_list_rbegin h l xs :
  is_list h l xs → list_rbegin l h = Ok (last_or (head l) xs, h).
Proof.
  intros Hl. destruct (is_list_split l xs []) as (A & B & E & _ & EB).
  cbn in EB. injection EB as <-. unfold is_list in Hl. rewrite app_nil_r in E.
  rewrite E in Hl. destruct (chain_pair _ _ _ _ _ Hl) as (_ & H2 & _ & ? & _).
  unfold list_rbegin. by apply (get_prev_ok h (tail l) _ H H2).
Qed.

Lemma is_list_next h l xs x ys :
  is_list h l (xs ++ x :: ys) → list_next x h = Ok (first_or ys (tail l), h).
Proof.
  intros Hl. destruct (split_first ys (tail l)) as [B HB].
  apply (list_next_chain h (head l :: xs) x (first_or ys (tail l)) B).
  unfold is_list in Hl. rewrite <- app_assoc in Hl. cbn in *. by rewrite HB in Hl.
Qed.

Lemma is_list_lookup h l xs x ys :
  is_list h l (xs ++ x :: ys) →
  h !! x = Some (ListElem (last_or (head l) xs) (first_or ys (tail l))).
Proof.
  intros (Hs & _). rewrite <- app_assoc in Hs.
  apply (lseg_lookup h NULL (head l :: xs) x (ys ++ [tail l])) in Hs.
  by rewrite first_or_app in Hs.
Qed.

Lemma is_list_fuel h l xs : is_list h l xs → (length xs + 2 ≤ size h)%nat.
Proof. intros H%chain_length. cbn in H. rewrite length_app in H. cbn in H. lia. Qed.

Lemma is_list_elem h l xs x :
  is_list h l xs → x ∈ xs → x ≠ NULL ∧ x ≠ head l ∧ x ≠ tail l ∧ is_Some (h !! x).
Proof.
  intros Hl Hx. pose proof Hl as (Hs & Hnd & Hnull). unfold is_list in Hl.
  apply NoDup_cons in Hnd as [Hh Hnd]. rewrite elem_of_app in Hh. split_and!.
  - eapply chain_nonnull; [exact Hl|]. right. apply elem_of_app. by left.
  - intros ->. tauto.
  - eapply (NoDup_app_neq xs [tail l]); [done..|left].
  - eapply lseg_dom; [exact Hs|]. right. apply elem_of_app. by left.
Qed.

(** ** Initialisation, insertion and removal *)

(** [list_init] makes an empty list of any two allocated sentinels. *)
Lemma list_init_spec (h : heap) l :
  head l ≠ tail l → head l ≠ NULL → tail l ≠ NULL →
  is_Some (h !! head l) → is_Some (h !! tail l) →
  ∃ h', list_init l h = Ok ((), h') ∧ is_list h' l [] ∧ same_except [head l; tail l] h h'.
Proof.
  intros ? ? ? [nh Hh] [nt Ht]. eexists.
  split; [unfold list_init; repeat hstep|]. split.
  - split_and!; cbn; [split_and!; [hlookup..|done]| |].
    + rewrite !NoDup_cons, list_elem_of_singleton. auto using NoDup_nil_2, not_elem_of_nil.
    + rewrite !not_elem_of_cons. auto using not_elem_of_nil.
  - intros a Ha. repeat (apply not_elem_of_cons in Ha as [? Ha]).
    by rewrite !lookup_insert_ne by done.
Qed.

Lemma list_insert_spec h l xs ys e :
  is_list h l (xs ++ ys) → e ∉ head l :: tail l :: xs ++ ys → e ≠ NULL → is_Some (h !! e) →
  ∃ h', list_insert (first_or ys (tail l)) e h = Ok ((), h') ∧
        is_list h' l (xs ++ e :: ys) ∧ same_except (e :: head l :: tail l :: xs ++ ys) h h'.
Proof.
  intros Hl He Hnull Hdom. destruct (is_list_split l xs ys) as (A & B & E & EA & EB).
  unfold is_list in Hl. rewrite E in Hl.
  destruct (list_insert_chain h A (last_or (head l) xs) (first_or ys (tail l)) B e)
    as (h' & Hrun & Hc & Hfr); [done| |done|done|].
  { rewrite <- E. rewrite elem_of_cons, !elem_of_app, list_elem_of_singleton.
    rewrite !elem_of_cons, elem_of_app in He. tauto. }
  exists h'. split_and!; [done| |].
  - unfold is_list.
    replace (head l :: (xs ++ e :: ys) ++ [tail l])
      with (A ++ last_or (head l) xs :: e :: first_or ys (tail l) :: B); [done|].
    rewrite <- EB, <- app_assoc, (app_comm_cons xs _ (head l)), EA, <- app_assoc. done.
  - intros a Ha. apply Hfr. rewrite !not_elem_of_cons, elem_of_app in *.
    pose proof (last_or_elem (head l) xs) as H1. pose proof (first_or_elem ys (tail l)) as H2.
    rewrite elem_of_cons in H1. rewrite elem_of_app, list_elem_of_singleton in H2.
    split_and!; [..|apply not_elem_of_nil]; intros ->; tauto.
Qed.

Lemma list_remove_spec h l xs e ys :
  is_list h l (xs ++ e :: ys) →
  ∃ h', list_remove e h = Ok (first_or ys (tail l), h') ∧
        is_list h' l (xs ++ ys) ∧ same_except (head l :: tail l :: xs ++ ys) h h'.
Proof.
  intros Hl. destruct (is_list_split l xs ys) as (A & B & E & EA & EB).
  unfold is_list in *. rewrite <- app_assoc, (app_comm_cons xs _ (head l)), EA in Hl. cbn in Hl.
  rewrite EB, <- app_assoc in Hl.
  destruct (list_remove_chain _ _ _ _ _ _ Hl) as (h' & Hrun & Hc & Hfr).
  exists h'. split_and!; [done| |].
  - by rewrite E.
  - intros a Ha. apply Hfr. rewrite !not_elem_of_cons, elem_of_app in *.
    pose proof (last_or_elem (head l) xs) as H1. pose proof (first_or_elem ys (tail l)) as H2.
    rewrite elem_of_cons in H1. rewrite elem_of_app, list_elem_of_singleton in H2.
    split_and!; [..|apply not_elem_of_nil]; intros ->; tauto.
Qed.

Lemma list_empty_spec h l xs :
  is_list h l xs → list_empty l h = Ok (bool_decide (xs = []), h).
Proof.
  intros Hl. unfold list_empty. erewrite bind_Ok by (by apply is_list_begin).
  assert (bool_decide (first_or xs (tail l) = tail l) = bool_decide (xs = [])) as <-; [|done].
  apply bool_decide_ext. destruct xs as [|x xs]; cbn; [done|].
  destruct (is_list_elem h l (x :: xs) x) as (? & ? & ? & ?); [done|left|]. naive_solver.
Qed.

Lemma list_push_front_spec h l xs e :
  is_list h l xs → e ∉ head l :: tail l :: xs → e ≠ NULL → is_Some (h !! e) →
  ∃ h', list_push_front l e h = Ok ((), h') ∧ is_list h' l (e :: xs) ∧
        same_except (e :: head l :: tail l :: xs) h h'.
Proof.
  intros Hl He Hn Hd. unfold list_push_front.
  erewrite bind_Ok by (by apply is_list_begin). by apply (list_insert_spec h l [] xs e).
Qed.

Lemma list_push_back_spec h l xs e :
  is_list h l xs → e ∉ head l :: tail l :: xs → e ≠ NULL → is_Some (h !! e) →
  ∃ h', list_push_back l e h = Ok ((), h') ∧ is_list h' l (xs ++ [e]) ∧
        same_except (e :: head l :: tail l :: xs) h h'.
Proof.
  intros Hl He Hn Hd. unfold list_push_back. cbn.
  pose proof (list_insert_spec h l xs [] e) as H. rewrite app_nil_r in H. by apply H.
Qed.

Lemma list_pop_front_spec h l x xs :
  is_list h l (x :: xs) →
  ∃ h', list_pop_front l h = Ok (x, h') ∧ is_list h' l xs ∧
        same_except (head l :: tail l :: xs) h h'.
Proof.
  intros Hl. destruct (list_remove_spec h l [] x xs Hl) as (h' & Hr & Hl' & Hf).
  exists h'. split_and!; [|done..]. unfold list_pop_front, list_front.
  erewrite bind_Ok; [by erewrite bind_Ok by done|].
  erewrite bind_Ok by (by apply list_empty_spec).
  erewrite bind_Ok by (by apply ASSERT_true). by apply is_list_begin in Hl.
Qed.

Lemma list_pop_back_spec h l xs x :
  is_list h l (xs ++ [x]) →
  ∃ h', list_pop_back l h = Ok (x, h') ∧ is_list h' l xs ∧
        same_except (head l :: tail l :: xs) h h'.
Proof.
  intros Hl. destruct (list_remove_spec h l xs x [] Hl) as (h' & Hr & Hl' & Hf).
  rewrite app_nil_r in *. exists h'. split_and!; [|done..]. unfold list_pop_back, list_back.
  erewrite bind_Ok; [by erewrite bind_Ok by done|].
  erewrite bind_Ok by (by apply list_empty_spec).
  erewrite bind_Ok by (apply ASSERT_true; by destruct xs).
  apply is_list_rbegin in Hl. by rewrite last_or_app in Hl.
Qed.

(** ** Traversals *)

Lemma first_or_tail h l xs ys :
  is_list h l (xs ++ ys) → first_or ys (tail l) = tail l → ys = [].
Proof.
  intros Hl. destruct ys as [|y ys]; [done|]. cbn. intros ->.
  destruct (is_list_elem h l (xs ++ tail l :: ys) (tail l)) as (_ & _ & H & _); try done.
  apply elem_of_app. right. left.
Qed.

(** One step of a forward traversal over the rest [ys] of a list. *)
Lemma traverse_step h l xs ys :
  is_list h l (xs ++ ys) →
  (ys = [] ∧ first_or ys (tail l) = tail l) ∨
  (∃ y ys', ys = y :: ys' ∧ first_or ys (tail l) = y ∧ y ≠ tail l ∧
            list_next y h = Ok (first_or ys' (tail l), h) ∧ is_list h l ((xs ++ [y]) ++ ys')).
Proof.
  intros Hl. destruct ys as [|y ys]; [by left|right]. exists y, ys.
  split_and!; [done..| | |].
  - intros ->. by apply (first_or_tail h l xs (tail l :: ys)) in Hl.
  - by eapply is_list_next.
  - by rewrite <- app_assoc.
Qed.

Lemma list_size_loop_spec fuel h l xs ys cnt :
  is_list h l (xs ++ ys) → (length ys < fuel)%nat →
  list_size_loop fuel l (first_or ys (tail l)) cnt h = Ok (cnt + Z.of_nat (length ys), h).
Proof.
  revert xs ys cnt. induction fuel as [|fuel IH]; intros xs ys cnt Hl Hf; [lia|]. cbn.
  destruct (traverse_step _ _ _ _ Hl) as [[-> E]|(y & ys' & -> & E & Hy & Hn & Hl')];
    rewrite E; unfold list_end.
  - erewrite bind_Ok by done. rewrite decide_True by done. cbn. by rewrite Z.add_0_r.
  - erewrite bind_Ok by done. rewrite decide_False by done.
    erewrite bind_Ok by done. cbn in Hf. rewrite (IH (xs ++ [y])) by (done || lia).
    do 2 f_equal. cbn [length]. lia.
Qed.

Lemma list_size_spec h l xs :
  is_list h l xs → list_size l h = Ok (Z.of_nat (length xs), h).
Proof.
  intros Hl. unfold list_size. erewrite bind_Ok by done.
  erewrite bind_Ok by (by apply is_list_begin).
  apply (list_size_loop_spec _ _ _ [] xs); [done|].
  apply is_list_fuel in Hl. unfold loop_bound. lia.
Qed.

(** *** Ordered insertion *)

Fixpoint insert_ordered (less : Z → Z → bool) (e : Z) (xs : list Z) : list Z :=
  match xs with
  | [] => [e]
  | x :: xs' => if less e x then e :: x :: xs' else x :: insert_ordered less e xs'
  end.

Lemma list_insert_ordered_loop_spec less fuel h l e xs ys :
  is_list h l (xs ++ ys) → (length ys < fuel)%nat →
  ∃ a c, ys = a ++ c ∧ insert_ordered less e ys = a ++ e :: c ∧
         list_insert_ordered_loop less fuel l e (first_or ys (tail l)) h =
           Ok (first_or c (tail l), h).
Proof.
  revert xs ys. induction fuel as [|fuel IH]; intros xs ys Hl Hf; [lia|]. cbn.
  destruct (traverse_step _ _ _ _ Hl) as [[-> E]|(y & ys' & -> & E & Hy & Hn & Hl')];
    rewrite E; unfold list_end; erewrite bind_Ok by done.
  - rewrite decide_True by done. by exists [], [].
  - rewrite decide_False by done. cbn. destruct (less e y).
    + by exists [], (y :: ys').
    + erewrite bind_Ok by done. cbn in Hf.
      destruct (IH _ _ Hl' ltac:(lia)) as (a & c & -> & Ha & Hr).
      exists (y :: a), c. cbn. by rewrite Ha.
Qed.

Lemma list_insert_ordered_spec less h l xs e :
  is_list h l xs → e ∉ head l :: tail l :: xs → e ≠ NULL → is_Some (h !! e) →
  ∃ h', list_insert_ordered less l e h = Ok ((), h') ∧
        is_list h' l (insert_ordered less e xs) ∧
        same_except (e :: head l :: tail l :: xs) h h'.
Proof.
  intros Hl He Hn Hd. unfold list_insert_ordered. erewrite bind_Ok by done.
  erewrite bind_Ok by (apply ASSERT_true; by case_bool_decide).
  erewrite bind_Ok by (by apply is_list_begin).
  destruct (list_insert_ordered_loop_spec less (loop_bound h) h l e [] xs)
    as (a & c & -> & -> & Hr); [done| |].
  { apply is_list_fuel in Hl. unfold loop_bound. lia. }
  erewrite bind_Ok by done. by apply list_insert_spec.
Qed.

(** *** Extremes *)

Fixpoint max_of (less : Z → Z → bool) (m : Z) (xs : list Z) : Z :=
  match xs with [] => m | x :: xs => max_of less (if less m x then x else m) xs end.
Fixpoint min_of (less : Z → Z → bool) (m : Z) (xs : list Z) : Z :=
  match xs with [] => m | x :: xs => min_of less (if less x m then x else m) xs end.

Lemma list_max_loop_spec less fuel h l m xs ys :
  is_list h l (xs ++ ys) → (length ys < fuel)%nat →
  list_max_loop less fuel l m (first_or ys (tail l)) h = Ok (max_of less m ys, h).
Proof.
  revert m xs ys. induction fuel as [|fuel IH]; intros m xs ys Hl Hf; [lia|]. cbn.
  destruct (traverse_step _ _ _ _ Hl) as [[-> E]|(y & ys' & -> & E & Hy & Hn & Hl')];
    rewrite E; unfold list_end; erewrite bind_Ok by done.
  - by rewrite decide_True.
  - rewrite decide_False by done. erewrite bind_Ok by done. cbn in Hf.
    by rewrite (IH _ (xs ++ [y])) by (done || lia).
Qed.

Lemma list_min_loop_spec less fuel h l m xs ys :
  is_list h l (xs ++ ys) → (length ys < fuel)%nat →
  list_min_loop less fuel l m (first_or ys (tail l)) h = Ok (min_of less m ys, h).
Proof.
  revert m xs ys. induction fuel as [|fuel IH]; intros m xs ys Hl Hf; [lia|]. cbn.
  destruct (traverse_step _ _ _ _ Hl) as [[-> E]|(y & ys' & -> & E & Hy & Hn & Hl')];
    rewrite E; unfold list_end; erewrite bind_Ok by done.
  - by rewrite decide_True.
  - rewrite decide_False by done. erewrite bind_Ok by done. cbn in Hf.
    by rewrite (IH _ (xs ++ [y])) by (done || lia).
Qed.

Lemma list_max_spec less h l xs :
  is_list h l xs →
  list_max less l h = Ok (match xs with [] => tail l | x :: xs => max_of less x xs end, h).
Proof.
  intros Hl. unfold list_max, list_end. erewrite bind_Ok by done.
  erewrite bind_Ok by (by apply is_list_begin). erewrite bind_Ok by done.
  pose proof (is_list_fuel _ _ _ Hl) as Hf.
  destruct (traverse_step h l [] xs Hl) as [[-> E]|(y & ys & -> & E & Hy & Hn & Hl')]; rewrite E.
  - by rewrite decide_True.
  - rewrite decide_False by done. erewrite bind_Ok by done. cbn in Hf.
    rewrite (list_max_loop_spec _ _ _ _ _ [y]); [done..|unfold loop_bound; lia].
Qed.

Lemma list_min_spec less h l xs :
  is_list h l xs →
  list_min less l h = Ok (match xs with [] => tail l | x :: xs => min_of less x xs end, h).
Proof.
  intros Hl. unfold list_min, list_end. erewrite bind_Ok by done.
  erewrite bind_Ok by (by apply is_list_begin). erewrite bind_Ok by done.
  pose proof (is_list_fuel _ _ _ Hl) as Hf.
  destruct (traverse_step h l [] xs Hl) as [[-> E]|(y & ys & -> & E & Hy & Hn & Hl')]; rewrite E.
  - by rewrite decide_True.
  - rewrite decide_False by done. erewrite bind_Ok by done. cbn in Hf.
    rewrite (list_min_loop_spec _ _ _ _ _ [y]); [done..|unfold loop_bound; lia].
Qed.

(** *** Reversal *)

(** [h'] is [h] with the two links of the elements of [xs] exchanged. *)
Definition swapped (xs : list Z) (h h' : heap) : Prop :=
  (∀ a, a ∉ xs → h' !! a = h !! a) ∧
  (∀ a n, a ∈ xs → h !! a = Some n → h' !! a = Some (ListElem (next n) (prev n))).

Lemma list_reverse_loop_spec fuel h h1 l xs ys :
  is_list h l (xs ++ ys) → swapped xs h h1 → (length ys < fuel)%nat →
  ∃ h2, list_reverse_loop fuel l (first_or ys (tail l)) h1 = Ok ((), h2) ∧
        swapped (xs ++ ys) h h2.
Proof.
  revert h1 xs ys. induction fuel as [|fuel IH]; intros h1 xs ys Hl [Hs1 Hs2] Hf; [lia|]. cbn.
  destruct (traverse_step _ _ _ _ Hl) as [[-> E]|(y & ys' & -> & E & Hy & Hn & Hl')];
    rewrite E; unfold list_end; erewrite bind_Ok by done.
  - rewrite decide_True by done. rewrite app_nil_r. exists h1. done.
  - rewrite decide_False by done.
    destruct (is_list_elem _ _ _ y Hl) as (Hnull & _ & _ & _);
      [apply elem_of_app; right; left|].
    pose proof (is_list_lookup _ _ _ _ _ Hl) as Hny.
    assert (y ∉ xs) as Hyx.
    { destruct Hl as (_ & [_ [Hnd _]%NoDup_app]%NoDup_cons & _).
      apply NoDup_app in Hnd as (_ & Hnd & _). intros Hx. apply (Hnd y Hx). left. }
    erewrite bind_Ok by (apply load_ok; [done|rewrite Hs1; [exact Hny|done]]).
    erewrite bind_Ok by done.
    erewrite bind_Ok by (eapply get_prev_ok; [done|by rewrite lookup_insert_eq]).
    cbn [prev next]. replace (xs ++ y :: ys') with ((xs ++ [y]) ++ ys')
      by (by rewrite <- app_assoc).
    apply IH; [done| |cbn in Hf; lia]. split.
    + intros a Ha. rewrite elem_of_app, list_elem_of_singleton in Ha.
      rewrite lookup_insert_ne by naive_solver. apply Hs1. tauto.
    + intros a na Ha Hna. rewrite elem_of_app, list_elem_of_singleton in Ha.
      destruct (decide (a = y)) as [->|Hay].
      * rewrite lookup_insert_eq. rewrite Hny in Hna. by simplify_eq.
      * rewrite lookup_insert_ne by done. apply Hs2; [tauto|done].
Qed.

Lemma lseg_swapped xs h h' p n :
  (∀ a nd, a ∈ xs → h !! a = Some nd → h' !! a = Some (ListElem (next nd) (prev nd))) →
  lseg h p xs n → lseg h' n (reverse xs) p.
Proof.
  revert p. induction xs as [|x xs IH]; intros p Hsw Hs; [done|]. destruct Hs as [Hx Hs].
  rewrite reverse_cons, lseg_app. cbn. split.
  - apply IH; [|done]. intros. apply Hsw; [by right|done].
  - split; [|done]. rewrite (Hsw x _ ltac:(left) Hx). cbn. do 2 f_equal.
    destruct xs as [|y xs]; [done|]. by rewrite reverse_cons, last_or_app.
Qed.

Lemma last_or_first x (xs : list Z) : ∃ A, x :: xs = A ++ [last_or x xs] ∧
  reverse (x :: xs) = last_or x xs :: reverse A ∧ last_or (last_or x xs) (reverse A) = x.
Proof.
  destruct (split_last x xs) as [A HA]. exists A. split; [done|].
  rewrite HA, reverse_snoc. split; [done|].
  destruct A as [|a A]; cbn in HA; simplify_eq; [done|].
  rewrite reverse_cons, last_or_app. done.
Qed.

Lemma list_reverse_ends_spec (h : heap) l x z hp tn nx pz :
  head l ≠ NULL → tail l ≠ NULL → x ≠ NULL → z ≠ NULL → head l ≠ tail l →
  x ≠ head l → x ≠ tail l → z ≠ head l → z ≠ tail l →
  h !! head l = Some (ListElem hp x) → h !! tail l = Some (ListElem z tn) →
  h !! x = Some (ListElem nx (head l)) → h !! z = Some (ListElem (tail l) pz) →
  ∃ h', list_reverse_ends l h = Ok ((), h') ∧
    h' !! head l = Some (ListElem hp z) ∧ h' !! tail l = Some (ListElem x tn) ∧
    h' !! z = Some (ListElem (head l) (if decide (z = x) then tail l else pz)) ∧
    h' !! x = Some (ListElem (if decide (x = z) then head l else nx) (tail l)) ∧
    same_except [head l; tail l; x; z] h h'.
Proof.
  intros. destruct (decide (z = x)) as [->|]; simplify_eq;
    (eexists; split; [unfold list_reverse_ends; repeat hstep|]);
    rewrite ?decide_True by done; rewrite ?decide_False by done;
    (split_and!; [hlookup..|]);
    intros a Ha; repeat (apply not_elem_of_cons in Ha as [? Ha]);
    by rewrite !lookup_insert_ne by done.
Qed.

Lemma is_list_ends h l xs :
  is_list h l xs →
  h !! head l = Some (ListElem NULL (first_or xs (tail l))) ∧
  h !! tail l = Some (ListElem (last_or (head l) xs) NULL) ∧
  lseg h (head l) xs (tail l) ∧ head l ≠ NULL ∧ tail l ≠ NULL ∧ head l ≠ tail l.
Proof.
  intros Hl. pose proof Hl as ((Hh & Hs) & Hnd & Hn). rewrite lseg_app in Hs.
  destruct Hs as [Hs [Ht _]]. rewrite first_or_app in Hh. split_and!; try done.
  - eapply chain_nonnull; [exact Hl|left].
  - eapply chain_nonnull; [exact Hl|]. right. apply elem_of_app. right. left.
  - apply NoDup_cons in Hnd as [Hnd _]. intros E. apply Hnd. rewrite E.
    apply elem_of_app. right. left.
Qed.

Lemma is_list_NoDup h l xs : is_list h l xs → NoDup xs.
Proof. by intros (_ & [_ [? _]%NoDup_app]%NoDup_cons & _). Qed.

Lemma is_list_intro h l xs :
  h !! head l = Some (ListElem NULL (first_or xs (tail l))) →
  h !! tail l = Some (ListElem (last_or (head l) xs) NULL) →
  lseg h (head l) xs (tail l) →
  NoDup (head l :: xs ++ [tail l]) → NULL ∉ head l :: xs ++ [tail l] → is_list h l xs.
Proof.
  intros Hh Ht Hs Hnd Hn. split_and!; [|done|done]. cbn.
  rewrite lseg_app, first_or_app. cbn. done.
Qed.

Lemma list_reverse_spec h l xs :
  is_list h l xs →
  ∃ h', list_reverse l h = Ok ((), h') ∧ is_list h' l (reverse xs) ∧
        same_except (head l :: tail l :: xs) h h'.
Proof.
  intros Hl. unfold list_reverse. erewrite bind_Ok by (by apply list_empty_spec).
  destruct xs as [|x xs]; [by exists h|].
  rewrite bool_decide_false by done.
  erewrite bind_Ok by done. erewrite bind_Ok by (by apply is_list_begin).
  destruct (list_reverse_loop_spec (loop_bound h) h h l [] (x :: xs)) as (h1 & Hrun & Hs1 & Hs2).
  { done. } { split; [done|]. intros a n Ha. by apply not_elem_of_nil in Ha. }
  { apply is_list_fuel in Hl. unfold loop_bound. lia. }
  erewrite bind_Ok by done. cbn [app] in *.
  destruct (is_list_ends _ _ _ Hl) as (Hh & Ht & Hs & ? & ? & ?).
  destruct (last_or_first x xs) as (A & EA & ER & EL).
  set (z := last_or x xs) in *. cbn in Ht. fold z in Ht.
  assert (x ∈ x :: xs ∧ z ∈ x :: xs) as [Hx Hz] by (split; [left|apply last_or_elem]).
  destruct (is_list_elem _ _ _ _ Hl Hx) as (? & ? & ? & _).
  destruct (is_list_elem _ _ _ _ Hl Hz) as (? & ? & ? & _).
  pose proof (lseg_swapped _ _ _ _ _ Hs2 Hs) as Hr. rewrite ER in Hr.
  destruct (lseg_last _ _ _ _ _ Hr) as (nx & _ & Hx1). rewrite EL in Hx1.
  pose proof (proj1 Hr) as Hz1.
  assert (head l ∉ x :: xs ∧ tail l ∉ x :: xs) as [Hhx Htx]
    by (split; intros Hin; by destruct (is_list_elem _ _ _ _ Hl Hin) as (? & ? & ? & _)).
  destruct (list_reverse_ends_spec h1 l x z NULL NULL nx (first_or (reverse A) (head l)))
    as (h2 & Hrun2 & Hh2 & Ht2 & Hz2 & Hx2 & Hf2); try done; [by rewrite Hs1..|].
  exists h2. split_and!; [done| |].
  - apply is_list_intro; rewrite ?ER; try done.
    + cbn. by rewrite EL.
    + eapply lseg_relink_out; [exact Hr|rewrite <- ER, reverse_Permutation; by eapply is_list_NoDup|..];
        rewrite EL.
      * eexists. split; [exact Hz2|]. by destruct (decide (z = x)).
      * eexists. split; [exact Hx2|]. by destruct (decide (x = z)).
      * intros a Ha ? ?. apply Hf2. rewrite <- ER, elem_of_reverse in Ha.
        destruct (is_list_elem _ _ _ _ Hl Ha) as (? & ? & ? & _).
        rewrite !not_elem_of_cons. auto using not_elem_of_nil.
    + rewrite <- ER. eapply NoDup_perm; [|apply Hl]. by rewrite reverse_Permutation.
    + rewrite <- ER. intros Hin. destruct Hl as (_ & _ & []).
      by rewrite elem_of_cons, elem_of_app, elem_of_reverse, <- elem_of_app, <- elem_of_cons in Hin.
  - intros a Ha. rewrite !not_elem_of_cons in Ha.
    rewrite Hf2, Hs1; [done|rewrite not_elem_of_cons; tauto|].
    rewrite !not_elem_of_cons. split_and!; [tauto..| |apply not_elem_of_nil].
    intros ->. apply elem_of_cons in Hz. tauto.
Qed.

End KListSpec.
