(* ===== verification/KListSort.v ===== *)
(** * [list_sort] sorts (lib/kernel/list.c)

    The natural merge sort of the kernel lists: its passes terminate, its
    internal assertions hold, and the result is a stable sorted permutation
    of the list, for every comparison that is a strict weak order. *)

From S2P Require Import Prelude KList KListSpec.
Import KList KListSpec.

Module KListSort.

(** What [list_sort] expects of its comparison. *)
Class LessOrder (less : Z → Z → bool) : Prop := {
  less_asym : ∀ x y, less x y = true → less y x = false;
  less_negtrans : ∀ x y z, less y x = false → less z y = false → less z x = false;
}.

Section Sort.
Context (less : Z → Z → bool).

(** [x] may stand before [y]. *)
Definition leq (x y : Z) : Prop := less y x = false.
#[global] Instance leq_dec x y : Decision (leq x y).
Proof. unfold leq. apply _. Defined.

(** ** Lists: runs and merging *)

Fixpoint run_from (x : Z) (xs : list Z) : list Z * list Z :=
  match xs with
  | [] => ([], [])
  | y :: ys => if less y x then ([], y :: ys)
               else let '(r, rest) := run_from y ys in (y :: r, rest)
  end.

Fixpoint descents (x : Z) (xs : list Z) : nat :=
  match xs with
  | [] => 0
  | y :: ys => (if less y x then 1 else 0) + descents y ys
  end.

(** The number of maximal runs of a list. *)
Definition nruns (xs : list Z) : nat :=
  match xs with [] => 0 | x :: xs => S (descents x xs) end.

Lemma run_from_app x xs r rest : run_from x xs = (r, rest) → xs = r ++ rest.
Proof.
  revert x r rest. induction xs as [|y ys IH]; intros x r rest; cbn; [by intros [= <- <-]|].
  destruct (less y x); [by intros [= <- <-]|].
  destruct (run_from y ys) as [r' rest'] eqn:E. intros [= <- <-].
  by rewrite (IH _ _ _ E).
Qed.

Lemma run_from_sorted x xs r rest : run_from x xs = (r, rest) → Sorted leq (x :: r).
Proof.
  revert x r rest. induction xs as [|y ys IH]; intros x r rest; cbn; [intros [= <- <-]; repeat constructor|].
  destruct (less y x) eqn:Hyx; [intros [= <- <-]; repeat constructor|].
  destruct (run_from y ys) as [r' rest'] eqn:E. intros [= <- <-].
  constructor; [by eapply IH|]. by constructor.
Qed.

Lemma run_from_descents x xs r rest :
  run_from x xs = (r, rest) → descents x xs = nruns rest.
Proof.
  revert x r rest. induction xs as [|y ys IH]; intros x r rest; cbn; [by intros [= <- <-]|].
  destruct (less y x); [by intros [= <- <-]|].
  destruct (run_from y ys) as [r' rest'] eqn:E. intros [= <- <-]. by eapply IH.
Qed.

Lemma nruns_length xs : (nruns xs ≤ length xs)%nat.
Proof.
  destruct xs as [|x xs]; [done|]. cbn. apply le_n_S. revert x.
  induction xs as [|y ys IH]; intros x; cbn; [done|]. specialize (IH y).
  destruct (less y x); lia.
Qed.

Lemma nruns_app xs ys : (nruns (xs ++ ys) ≤ nruns xs + nruns ys)%nat.
Proof.
  destruct xs as [|x xs]; [done|]. cbn. revert x.
  induction xs as [|y xs IH]; intros x; cbn.
  - destruct ys as [|y ys]; cbn; [lia|]. destruct (less y x); lia.
  - specialize (IH y). destruct (less y x); lia.
Qed.

Lemma nruns_sorted xs : Sorted leq xs → (nruns xs ≤ 1)%nat.
Proof.
  destruct xs as [|x xs]; cbn; [lia|]. revert x.
  induction xs as [|y ys IH]; intros x Hs; cbn; [done|].
  inversion Hs as [|? ? Hs' Hh]; subst. inversion Hh as [|? ? Hyx]; subst.
  unfold leq in Hyx. rewrite Hyx. by apply IH.
Qed.

Lemma nruns_concat outs :
  Forall (Sorted leq) outs → (nruns (concat outs) ≤ length outs)%nat.
Proof.
  induction 1 as [|o outs Ho _ IH]; cbn; [done|].
  pose proof (nruns_app o (concat outs)). pose proof (nruns_sorted o Ho). lia.
Qed.

(** *** Stability *)

Definition equivalent (x y : Z) : Prop := less x y = false ∧ less y x = false.
#[global] Instance equivalent_dec x y : Decision (equivalent x y).
Proof. unfold equivalent. apply _. Defined.

(** Equivalent elements keep their order. *)
Definition stable (xs ys : list Z) : Prop :=
  ∀ x, filter (equivalent x) xs = filter (equivalent x) ys.

Lemma stable_refl xs : stable xs xs.
Proof. done. Qed.
Lemma stable_trans xs ys zs : stable xs ys → stable ys zs → stable xs zs.
Proof. intros H1 H2 x. by rewrite H1. Qed.
Lemma stable_app xs ys xs' ys' :
  stable xs xs' → stable ys ys' → stable (xs ++ ys) (xs' ++ ys').
Proof. intros H1 H2 x. by rewrite !filter_app, H1, H2. Qed.

Context `{!LessOrder less}.

Lemma leq_trans x y z : leq x y → leq y z → leq x z.
Proof. apply less_negtrans. Qed.
#[global] Instance leq_transitive : Transitive leq.
Proof. intros x y z. apply leq_trans. Qed.
#[global] Instance leq_total : Total leq.
Proof.
  intros x y. unfold leq. destruct (less y x) eqn:E; [right|by left].
  by apply less_asym.
Qed.

Lemma filter_nil_all (x : Z) ys :
  (∀ y, y ∈ ys → ¬ equivalent x y) → filter (equivalent x) ys = [].
Proof.
  induction ys as [|y ys IH]; intros H; [done|].
  rewrite filter_cons_False by (apply H; left). apply IH. intros. apply H. by right.
Qed.

Lemma merge_stable xs ys :
  Sorted leq xs → Sorted leq ys → stable (xs ++ ys) (list_merge leq xs ys).
Proof.
  intros Hxs _. apply (Sorted_StronglySorted leq) in Hxs.
  revert ys. induction xs as [|a xs IHx]; intros ys; [destruct ys; apply stable_refl|].
  apply StronglySorted_inv in Hxs as [Hxs Ha].
  induction ys as [|b ys IHy]; [rewrite app_nil_r; apply stable_refl|].
  rewrite list_merge_cons. case_decide as Hab.
  - change ((a :: xs) ++ b :: ys) with ([a] ++ (xs ++ b :: ys)).
    apply (stable_app [a] _ [a]); [apply stable_refl|]. by apply IHx.
  - intros x. specialize (IHy x). destruct (decide (equivalent x b)) as [Hxb|Hxb].
    + rewrite filter_app, !(filter_cons_True _ b) by done. rewrite <- IHy, filter_app.
      rewrite filter_nil_all; [done|]. intros y Hy [Hxy Hyx]. destruct Hxb as [Hxb Hbx].
      assert (leq a y) as Hay.
      { apply elem_of_cons in Hy as [->|Hy]; [|by rewrite Forall_forall in Ha; apply Ha].
        by destruct (total leq a a). }
      apply Hab. apply (leq_trans _ y); [done|]. apply (leq_trans _ x); done.
    + rewrite filter_app, !(filter_cons_False _ b) by done. by rewrite <- IHy, filter_app.
Qed.

(** ** The store: comparisons, runs, merging *)

Lemma range_neq h l P x Q Y :
  is_list h l (P ++ x :: Q ++ Y) → x ≠ first_or Y (tail l).
Proof.
  intros (_ & Hnd & _). rewrite <- app_assoc in Hnd. cbn in Hnd.
  apply NoDup_cons in Hnd as [_ (_ & _ & [Hx _]%NoDup_cons)%NoDup_app].
  intros ->. apply Hx. rewrite <- app_assoc, elem_of_app. right. apply first_or_elem.
Qed.

Lemma is_list_prev h l P x Y :
  is_list h l (P ++ x :: Y) → list_prev (first_or Y (tail l)) h = Ok (x, h).
Proof.
  intros Hl. destruct (split_first Y (tail l)) as [B HB].
  apply (list_prev_chain h (head l :: P) x (first_or Y (tail l)) B).
  unfold is_list in Hl. rewrite <- app_assoc in Hl. cbn in *. by rewrite HB in Hl.
Qed.

Lemma is_sorted_loop_spec fuel h l P x X Y :
  is_list h l (P ++ x :: X ++ Y) → Sorted leq (x :: X) → (length X < fuel)%nat →
  is_sorted_loop less fuel x (first_or Y (tail l)) h = Ok (true, h).
Proof.
  revert P x X. induction fuel as [|fuel IH]; intros P x X Hl Hs Hf; [lia|]. cbn.
  erewrite bind_Ok by (by eapply is_list_next). rewrite first_or_app.
  destruct X as [|y X]; [by rewrite decide_True|].
  change (first_or (y :: X) _) with y.
  assert (is_list h l ((P ++ [x]) ++ y :: X ++ Y)) as Hl' by (by rewrite <- app_assoc).
  rewrite decide_False by (by eapply range_neq).
  erewrite bind_Ok; [|exact (is_list_prev _ _ _ _ _ Hl)].
  inversion Hs as [|? ? Hs' Hh]; subst. inversion Hh as [|? ? Hyx]; subst.
  unfold leq in Hyx. rewrite Hyx. eapply IH; [done..|cbn in Hf; lia].
Qed.

Lemma is_sorted_spec h l P X Y :
  is_list h l (P ++ X ++ Y) → Sorted leq X →
  is_sorted less (first_or (X ++ Y) (tail l)) (first_or Y (tail l)) h = Ok (true, h).
Proof.
  intros Hl Hs. unfold is_sorted. erewrite bind_Ok by done.
  destruct X as [|x X]; [by rewrite decide_True|]. change (first_or ((x :: X) ++ Y) _) with x.
  rewrite decide_False by (by eapply range_neq).
  eapply is_sorted_loop_spec; [done..|]. apply is_list_fuel in Hl.
  rewrite !length_app in Hl. cbn in Hl. unfold loop_bound. lia.
Qed.

Lemma find_end_of_run_loop_spec fuel h l P x xs r rest :
  is_list h l (P ++ x :: xs) → run_from x xs = (r, rest) → (length xs < fuel)%nat →
  find_end_of_run_loop less fuel x (tail l) h = Ok (first_or rest (tail l), h).
Proof.
  revert P x xs r rest. induction fuel as [|fuel IH]; intros P x xs r rest Hl Hr Hf; [lia|]. cbn.
  erewrite bind_Ok by (by eapply is_list_next).
  destruct xs as [|y ys]; cbn in Hr; [simplify_eq; by rewrite decide_True|].
  change (first_or (y :: ys) _) with y.
  assert (is_list h l ((P ++ [x]) ++ y :: ys ++ [])) as Hl'
    by (by rewrite app_nil_r, <- app_assoc).
  rewrite decide_False by (by apply (range_neq h l (P ++ [x]) y ys [])).
  erewrite bind_Ok; [|exact (is_list_prev _ _ _ _ _ Hl)].
  destruct (less y x); [by simplify_eq|]. destruct (run_from y ys) as [r' rest'] eqn:E.
  simplify_eq. rewrite app_nil_r in Hl'. eapply IH; [done..|cbn in Hf; lia].
Qed.

Lemma find_end_of_run_spec h l P x xs r rest :
  is_list h l (P ++ x :: xs) → run_from x xs = (r, rest) →
  find_end_of_run less x (tail l) h = Ok (first_or rest (tail l), h).
Proof.
  intros Hl Hr. destruct (is_list_ends _ _ _ Hl) as (_ & _ & _ & _ & Ht & _).
  destruct (is_list_elem _ _ _ x Hl) as (Hx & _ & Hxt & _); [apply elem_of_app; right; left|].
  unfold find_end_of_run. erewrite bind_Ok by done.
  do 3 erewrite bind_Ok by (apply ASSERT_true; by case_bool_decide).
  eapply find_end_of_run_loop_spec; [done..|]. apply is_list_fuel in Hl.
  rewrite length_app in Hl. cbn in Hl. unfold loop_bound. lia.
Qed.

Lemma list_splice_spec h l P a Q f Y :
  is_list h l (P ++ a :: Q ++ f :: Y) →
  ∃ h', list_splice a f (first_or Y (tail l)) h = Ok ((), h') ∧
        is_list h' l (P ++ f :: a :: Q ++ Y) ∧
        same_except (head l :: tail l :: P ++ a :: Q ++ f :: Y) h h'.
Proof.
  intros Hl. destruct (split_last (head l) P) as [A HA], (split_first Y (tail l)) as [B HB].
  set (p := last_or (head l) P) in *. set (z := first_or Y (tail l)) in *.
  assert (chain h (A ++ p :: a :: Q ++ f :: [] ++ z :: B)) as Hc.
  { unfold is_list in Hl. rewrite <- app_assoc, app_comm_cons, HA, <- app_assoc in Hl.
    cbn in Hl. by rewrite <- app_assoc in Hl; cbn in Hl; rewrite HB in Hl. }
  destruct (list_splice_chain _ _ _ _ _ _ _ _ _ Hc) as (h' & Hrun & Hc' & Hf).
  exists h'. split_and!; [done| |].
  - unfold is_list. cbn in Hc'. rewrite <- app_assoc, app_comm_cons, HA, <- app_assoc. cbn.
    by rewrite <- app_assoc, HB.
  - intros b Hb. apply Hf. intros Hin. apply Hb.
    assert (p ∈ head l :: P) as Hp by apply last_or_elem.
    assert (z ∈ Y ++ [tail l]) as Hz by apply first_or_elem.
    clear -Hin Hp Hz. set_solver.
Qed.

(** *** Merging two neighbouring runs *)

Lemma same_except_mono ns ms h h' :
  (∀ a, a ∈ ns → a ∈ ms) → same_except ns h h' → same_except ms h h'.
Proof. intros Hs H a Ha. apply H. auto. Qed.

Lemma inplace_merge_loop_spec fuel h l P A B Y :
  is_list h l (P ++ A ++ B ++ Y) → (length A + length B < fuel)%nat →
  ∃ h', inplace_merge_loop less fuel (first_or (A ++ B ++ Y) (tail l))
          (first_or (B ++ Y) (tail l)) (first_or Y (tail l)) h = Ok ((), h') ∧
        is_list h' l (P ++ list_merge leq A B ++ Y) ∧
        same_except (head l :: tail l :: P ++ A ++ B ++ Y) h h'.
Proof.
  revert h P A B. induction fuel as [|fuel IH]; intros h P A B Hl Hf; [lia|]. cbn.
  destruct A as [|a A]; [rewrite decide_True by done; exists h; by destruct B|].
  rewrite decide_False by (by eapply range_neq).
  destruct B as [|b B]; [rewrite decide_True by done; by exists h|].
  change (first_or ((a :: A) ++ _) _) with a. change (first_or ((b :: B) ++ _) _) with b.
  assert (is_list h l ((P ++ a :: A) ++ b :: B ++ Y)) as HlB by (by rewrite <- app_assoc).
  rewrite decide_False by (by eapply range_neq). rewrite list_merge_cons.
  cbn in Hf. destruct (less b a) eqn:Hba; cbn.
  - rewrite decide_False by (unfold leq; by rewrite Hba).
    erewrite bind_Ok by (exact (is_list_next _ _ _ _ _ HlB)).
    erewrite bind_Ok by (exact (is_list_prev _ _ _ _ _ HlB)).
    destruct (list_splice_spec _ _ _ _ _ _ _ Hl) as (h1 & Hrun & Hl1 & Hs1).
    erewrite bind_Ok by done.
    destruct (IH h1 (P ++ [b]) (a :: A) B) as (h2 & Hr & Hl2 & Hs2);
      [by rewrite <- app_assoc|cbn; lia|].
    exists h2. split_and!; [done|by rewrite <- app_assoc in Hl2|].
    eapply same_except_trans; [exact Hs1|]. eapply same_except_mono; [|exact Hs2].
    clear. set_solver.
  - rewrite decide_True by done.
    erewrite bind_Ok by (exact (is_list_next _ _ _ _ _ Hl)).
    destruct (IH h (P ++ [a]) A (b :: B)) as (h2 & Hr & Hl2 & Hs2);
      [by rewrite <- app_assoc|cbn; lia|].
    exists h2. split_and!; [done|by rewrite <- app_assoc in Hl2|].
    by rewrite <- app_assoc in Hs2.
Qed.

Lemma first_or_nonnull h l P Y : is_list h l (P ++ Y) → first_or Y (tail l) ≠ NULL.
Proof.
  intros Hl. eapply chain_nonnull; [exact Hl|]. rewrite <- app_assoc.
  apply elem_of_cons. right. apply elem_of_app. right. apply first_or_elem.
Qed.

Lemma inplace_merge_spec h l P A B Y :
  is_list h l (P ++ A ++ B ++ Y) → Sorted leq A → Sorted leq B →
  ∃ h', inplace_merge less (first_or (A ++ B ++ Y) (tail l))
          (first_or (B ++ Y) (tail l)) (first_or Y (tail l)) h = Ok ((), h') ∧
        is_list h' l (P ++ list_merge leq A B ++ Y) ∧
        same_except (head l :: tail l :: P ++ A ++ B ++ Y) h h'.
Proof.
  intros Hl HA HB. assert (is_list h l ((P ++ A) ++ B ++ Y)) as HlB by (by rewrite <- app_assoc).
  assert (is_list h l ((P ++ A ++ B) ++ Y)) as HlY by (by rewrite <- !app_assoc).
  pose proof (first_or_nonnull _ _ _ _ Hl). pose proof (first_or_nonnull _ _ _ _ HlB).
  pose proof (first_or_nonnull _ _ _ _ HlY).
  unfold inplace_merge. erewrite bind_Ok by done.
  do 3 erewrite bind_Ok by (apply ASSERT_true; by case_bool_decide).
  erewrite bind_Ok by (by eapply is_sorted_spec). erewrite bind_Ok by done.
  erewrite bind_Ok by (by eapply is_sorted_spec). erewrite bind_Ok by done.
  apply inplace_merge_loop_spec; [done|]. apply is_list_fuel in Hl.
  rewrite !length_app in Hl. unfold loop_bound. lia.
Qed.

(** *** One pass: pairs of runs are merged *)

(** What a pass over the part [X] of the list leaves: sorted output runs,
    at most half as many as there were runs. *)
Definition pass_result (X : list Z) (outs : list (list Z)) : Prop :=
  Forall (Sorted leq) outs ∧ concat outs ≡ₚ X ∧ stable X (concat outs) ∧
  (2 * length outs ≤ nruns X + 1)%nat.

Lemma pass_result_one x xs r :
  run_from x xs = (r, []) → pass_result (x :: xs) [x :: r].
Proof.
  intros Hr. pose proof (run_from_app _ _ _ _ Hr) as ->. rewrite app_nil_r in *.
  split_and!.
  - constructor; [by eapply run_from_sorted|constructor].
  - cbn. by rewrite app_nil_r.
  - cbn. rewrite app_nil_r. apply stable_refl.
  - cbn. lia.
Qed.

Lemma pass_result_merge x xs r y ys r2 rest outs :
  run_from x xs = (r, y :: ys) → run_from y ys = (r2, rest) → pass_result rest outs →
  pass_result (x :: xs) (list_merge leq (x :: r) (y :: r2) :: outs).
Proof.
  intros Hr Hr2 (Hs & Hp & Hst & Hn). pose proof (run_from_sorted _ _ _ _ Hr).
  pose proof (run_from_sorted _ _ _ _ Hr2).
  pose proof (run_from_descents _ _ _ _ Hr) as Hd. pose proof (run_from_descents _ _ _ _ Hr2) as Hd2.
  pose proof (run_from_app _ _ _ _ Hr) as ->. pose proof (run_from_app _ _ _ _ Hr2) as ->.
  assert (x :: r ++ y :: r2 ++ rest = ((x :: r) ++ y :: r2) ++ rest) as E
    by (by rewrite <- app_assoc).
  split_and!; cbn [concat].
  - constructor; [by apply (Sorted_list_merge leq)|done].
  - by rewrite E, merge_Permutation, Hp.
  - rewrite E. apply stable_app; [by apply merge_stable|done].
  - cbn in Hd |- *. rewrite Hd, Hd2. lia.
Qed.

Lemma list_sort_pass_spec fuel h l P X cnt :
  is_list h l (P ++ X) → (length X < fuel)%nat →
  ∃ h' outs, list_sort_pass less fuel l (first_or X (tail l)) cnt h =
               Ok (cnt + Z.of_nat (length outs), h') ∧
             is_list h' l (P ++ concat outs) ∧ pass_result X outs ∧
             same_except (head l :: tail l :: P ++ X) h h'.
Proof.
  revert h P X cnt. induction fuel as [|fuel IH]; intros h P X cnt Hl Hf; [lia|]. cbn.
  unfold list_end. erewrite bind_Ok by done. destruct X as [|x xs].
  { rewrite decide_True by done. exists h, []. rewrite Z.add_0_r.
    split; [done|]. split; [done|]. split; [|done].
    split_and!; [constructor|done|apply stable_refl|cbn; lia]. }
  change (first_or (x :: xs) _) with x.
  destruct (is_list_elem _ _ _ x Hl) as (_ & _ & Hxt & _); [apply elem_of_app; right; left|].
  rewrite decide_False by done. destruct (run_from x xs) as [r rest] eqn:Hr.
  erewrite bind_Ok by (by eapply find_end_of_run_spec).
  destruct rest as [|y ys].
  { rewrite decide_True by done. exists h, [x :: r]. cbn.
    pose proof (run_from_app _ _ _ _ Hr) as E. rewrite app_nil_r in E |- *. subst xs.
    split; [done|]. split; [done|]. split; [by apply pass_result_one|done]. }
  change (first_or (y :: ys) _) with y. pose proof (run_from_app _ _ _ _ Hr) as E.
  assert (is_list h l ((P ++ x :: r) ++ y :: ys)) as HlY by (by rewrite <- app_assoc; subst).
  destruct (is_list_elem _ _ _ y HlY) as (_ & _ & Hyt & _); [apply elem_of_app; right; left|].
  rewrite decide_False by done. destruct (run_from y ys) as [r2 rest] eqn:Hr2.
  erewrite bind_Ok by (by eapply find_end_of_run_spec).
  pose proof (run_from_app _ _ _ _ Hr2) as E2. subst ys xs.
  destruct (inplace_merge_spec h l P (x :: r) (y :: r2) rest) as (h1 & Hrun & Hl1 & Hs1);
    [done|by eapply run_from_sorted..|].
  erewrite bind_Ok by exact Hrun.
  destruct (IH h1 (P ++ list_merge leq (x :: r) (y :: r2)) rest (cnt + 1))
    as (h2 & outs & Hrun2 & Hl2 & Hp & Hs2).
  { by rewrite <- app_assoc. }
  { cbn in Hf. rewrite length_app in Hf. cbn in Hf. rewrite length_app in Hf. lia. }
  exists h2, (list_merge leq (x :: r) (y :: r2) :: outs). split; [|split; [|split]].
  - rewrite Hrun2. do 2 f_equal. cbn [length]. lia.
  - cbn [concat]. by rewrite <- app_assoc in Hl2.
  - by eapply pass_result_merge.
  - eapply same_except_trans; [exact Hs1|]. eapply same_except_mono; [|exact Hs2].
    intros b. rewrite (merge_Permutation leq (x :: r) (y :: r2)). clear. set_solver.
Qed.

(** *** The whole sort *)

Lemma list_sort_loop_spec fuel h l X :
  is_list h l X → (nruns X < fuel)%nat →
  ∃ h' X', list_sort_loop less fuel l h = Ok ((), h') ∧ is_list h' l X' ∧
           Sorted leq X' ∧ X' ≡ₚ X ∧ stable X X' ∧
           same_except (head l :: tail l :: X) h h'.
Proof.
  revert h X. induction fuel as [|fuel IH]; intros h X Hl Hf; [lia|]. cbn.
  erewrite bind_Ok by done. erewrite bind_Ok by (by apply is_list_begin).
  destruct (list_sort_pass_spec (loop_bound h) h l [] X 0) as (h1 & outs & Hrun & Hl1 & Hp & Hs1);
    [done|apply is_list_fuel in Hl; unfold loop_bound; lia|].
  erewrite bind_Ok by exact Hrun. destruct Hp as (Hso & Hpe & Hst & Hn). cbn in Hl1.
  case_decide as Hc.
  - pose proof (nruns_concat outs Hso).
    destruct (IH h1 (concat outs) Hl1) as (h2 & X' & Hr2 & Hl2 & Hso2 & Hp2 & Hst2 & Hs2); [lia|].
    exists h2, X'. split_and!; [done..|by rewrite Hp2|by eapply stable_trans|].
    eapply same_except_trans; [exact Hs1|]. eapply same_except_mono; [|exact Hs2].
    intros b. by rewrite Hpe.
  - exists h1, (concat outs). split_and!; try done.
    destruct outs as [|o [|o' outs]]; cbn in Hc |- *; [constructor| |lia].
    rewrite app_nil_r. by apply Forall_cons in Hso as [? _].
Qed.

Lemma list_sort_spec h l X :
  is_list h l X →
  ∃ h' X', list_sort less l h = Ok ((), h') ∧ is_list h' l X' ∧
           Sorted leq X' ∧ X' ≡ₚ X ∧ stable X X' ∧
           same_except (head l :: tail l :: X) h h'.
Proof.
  intros Hl. unfold list_sort, list_end. erewrite bind_Ok by done.
  destruct (list_sort_loop_spec (loop_bound h) h l X Hl)
    as (h1 & X' & Hrun & Hl1 & Hs & Hp & Hst & Hf).
  { pose proof (nruns_length X). apply is_list_fuel in Hl. unfold loop_bound. lia. }
  erewrite bind_Ok by done. erewrite bind_Ok by (by apply is_list_begin).
  erewrite bind_Ok by done.
  assert (is_list h1 l ([] ++ X' ++ [])) as Hl1' by (by rewrite app_nil_r).
  pose proof (is_sorted_spec _ _ _ _ _ Hl1' Hs) as Hi. rewrite app_nil_r in Hi.
  erewrite bind_Ok by exact Hi. exists h1, X'. by split_and!.
Qed.

End Sort.

End KListSort.
