(* ===== verification/KListRefine.v ===== *)
(** * The kernel lists implement functional lists (lib/kernel/list.c)

    The contract the other components rely on.  A store holds any number of
    lists over a pool of elements; a client moves the elements between them.
    [run_ops] runs the pointer code of list.c, [abs_ops] the same
    operations on functional lists; the first refines the second. *)

From S2P Require Import Prelude KList KListSpec KListSort.
Import KList KListSpec KListSort.

Module KListRefine.

Section Ops.
Context (less : Z → Z → bool).

(** The operations a client performs on one list. *)
Inductive list_op :=
| PushFront (e : Z) | PushBack (e : Z) | InsertOrdered (e : Z)
| PopFront | PopBack | Remove (e : Z)
| Reverse | Size | Empty | Max | Min.

(** *** The code *)

Definition run_op (l : list_t) (op : list_op) : M heap Z :=
  match op with
  | PushFront e => list_push_front l e;; mret 0
  | PushBack e => list_push_back l e;; mret 0
  | InsertOrdered e => list_insert_ordered less l e;; mret 0
  | PopFront => list_pop_front l
  | PopBack => list_pop_back l
  | Remove e => list_remove e
  | Reverse => list_reverse l;; mret 0
  | Size => list_size l
  | Empty => b ← list_empty l; mret (Z.b2z b)
  | Max => list_max less l
  | Min => list_min less l
  end.

(** *** The specification *)

(** The element an operation adds to its list. *)
Definition added (op : list_op) : option Z :=
  match op with PushFront e | PushBack e | InsertOrdered e => Some e | _ => None end.

(** [abs_op] fails where the code's precondition does: popping from an
    empty list, removing what is not there. *)
Definition abs_op (l : list_t) (op : list_op) (xs : list Z) : option (Z * list Z) :=
  match op with
  | PushFront e => Some (0, e :: xs)
  | PushBack e => Some (0, xs ++ [e])
  | InsertOrdered e => Some (0, insert_ordered less e xs)
  | PopFront => match xs with [] => None | x :: xs => Some (x, xs) end
  | PopBack => x ← last xs; Some (x, take (length xs - 1) xs)
  | Remove e => '(i, _) ← list_find (e =.) xs;
                Some (first_or (drop (S i) xs) (tail l), take i xs ++ drop (S i) xs)
  | Reverse => Some (0, reverse xs)
  | Size => Some (Z.of_nat (length xs), xs)
  | Empty => Some (Z.b2z (bool_decide (xs = [])), xs)
  | Max => Some (match xs with [] => tail l | x :: xs => max_of less x xs end, xs)
  | Min => Some (match xs with [] => tail l | x :: xs => min_of less x xs end, xs)
  end.

(** The addresses a list occupies. *)
Definition nodes (l : list_t) (xs : list Z) : list Z := head l :: tail l :: xs.

Lemma insert_ordered_perm e xs : insert_ordered less e xs ≡ₚ e :: xs.
Proof.
  induction xs as [|x xs IH]; cbn; [done|]. destruct (less e x); [done|].
  rewrite IH. apply perm_swap.
Qed.

Lemma run_op_spec h l xs op out xs' :
  is_list h l xs → abs_op l op xs = Some (out, xs') →
  (∀ e, added op = Some e → e ∉ nodes l xs ∧ e ≠ NULL ∧ is_Some (h !! e)) →
  ∃ h', run_op l op h = Ok (out, h') ∧ is_list h' l xs' ∧ same_except (nodes l xs') h h'.
Proof.
  intros Hl Ha Hadd. destruct op; cbn in *; simplify_eq;
    try (destruct (Hadd e) as (? & ? & ?); [done|]).
  - destruct (list_push_front_spec h l xs e) as (h' & Hr & Hl' & Hs); [done..|].
    exists h'. split_and!; [by erewrite bind_Ok by done|done|].
    eapply same_except_mono; [|done]. unfold nodes. clear. set_solver.
  - destruct (list_push_back_spec h l xs e) as (h' & Hr & Hl' & Hs); [done..|].
    exists h'. split_and!; [by erewrite bind_Ok by done|done|].
    eapply same_except_mono; [|done]. unfold nodes. clear. set_solver.
  - destruct (list_insert_ordered_spec less h l xs e) as (h' & Hr & Hl' & Hs); [done..|].
    exists h'. split_and!; [by erewrite bind_Ok by done|done|].
    eapply same_except_mono; [|done]. unfold nodes. intros a. rewrite insert_ordered_perm.
    clear. set_solver.
  - destruct xs as [|x xs]; simplify_eq. by apply list_pop_front_spec.
  - destruct xs as [|x xs _] using rev_ind; [done|]. rewrite last_snoc in Ha. cbn in Ha.
    simplify_eq. rewrite length_app, Nat.add_sub, take_app_length. by apply list_pop_back_spec.
  - destruct (list_find _ xs) as [[i ?]|] eqn:Hf; cbn in Ha; simplify_eq.
    apply list_find_Some in Hf as (Hi & <- & _).
    apply (list_remove_spec h l (take i xs) e (drop (S i) xs)). by rewrite take_drop_middle.
  - destruct (list_reverse_spec h l xs Hl) as (h' & Hr & Hl' & Hs).
    exists h'. split_and!; [by erewrite bind_Ok by done|done|].
    eapply same_except_mono; [|done]. unfold nodes. intros a. by rewrite reverse_Permutation.
  - exists h. split_and!; [by apply list_size_spec|done..].
  - exists h. split_and!; [by erewrite bind_Ok by (by apply list_empty_spec)|done..].
  - exists h. split_and!; [by apply list_max_spec|done..].
  - exists h. split_and!; [by apply list_min_spec|done..].
Qed.

(** *** Several lists in one store *)

Abbreviation lists := (list (list_t * list Z)).

(** [h] holds the lists [q], with separate elements, all of them and the
    free ones allocated from the pool [U]. *)
Record rep (U : gset Z) (h : heap) (q : lists) : Prop := {
  rep_list i l xs : q !! i = Some (l, xs) → is_list h l xs;
  rep_sep i j l xs l' ys a : i ≠ j → q !! i = Some (l, xs) → q !! j = Some (l', ys) →
    a ∈ nodes l xs → a ∉ nodes l' ys;
  rep_pool a : a ∈ U → a ≠ NULL ∧ is_Some (h !! a);
}.

(** The same by evaluation. *)
Lemma rep_intro U h q :
  Forall (λ '(l, xs), is_list h l xs) q →
  NoDup (q ≫= λ '(l, xs), nodes l xs) →
  set_Forall (λ a, a ≠ NULL ∧ is_Some (h !! a)) U → rep U h q.
Proof.
  intros Hl Hnd HU. rewrite Forall_lookup in Hl. split; [by intros i l xs ?%Hl| |by apply HU].
  clear Hl HU. induction q as [|[m zs] q IH]; intros i j l xs l' ys a; [done|].
  rewrite bind_cons in Hnd. apply NoDup_app in Hnd as (_ & Hd & Hnd).
  assert (∀ k l' ys a, q !! k = Some (l', ys) → a ∈ nodes l' ys →
            a ∈ (q ≫= λ '(l, xs), nodes l xs)) as Hin.
  { intros k ? ? ? Hk ?. apply list_elem_of_bind. eexists (_, _). split; [done|].
    by eapply list_elem_of_lookup_2. }
  destruct i as [|i], j as [|j]; cbn; intros Hij.
  - done.
  - intros [= <- <-] Hj Ha Ha'. by eapply Hd, Hin.
  - intros Hi [= <- <-] Ha Ha'. by eapply Hd, Hin.
  - apply IH; [done|congruence].
Qed.

Definition free_in (q : lists) (e : Z) : bool :=
  bool_decide (Forall (λ '(l, xs), e ∉ nodes l xs) q).

(** An element may be added when it is free. *)
Definition may_add (U : gset Z) (q : lists) (op : list_op) : bool :=
  match added op with
  | Some e => bool_decide (e ∈ U) && free_in q e
  | None => true
  end.

Fixpoint run_ops (ls : list list_t) (ops : list (nat * list_op)) : M heap (list Z) :=
  match ops with
  | [] => mret []
  | (i, op) :: ops =>
      l ← lift (ls !! i) Undef;
      o ← run_op l op; os ← run_ops ls ops; mret (o :: os)
  end.

Fixpoint abs_ops (U : gset Z) (ops : list (nat * list_op)) (q : lists) : option (list Z * lists) :=
  match ops with
  | [] => Some ([], q)
  | (i, op) :: ops =>
      '(l, xs) ← q !! i;
      if may_add U q op then
        '(o, xs') ← abs_op l op xs;
        '(os, q') ← abs_ops U ops (<[i := (l, xs')]> q);
        Some (o :: os, q')
      else None
  end.

Lemma abs_op_nodes l op xs out xs' a :
  abs_op l op xs = Some (out, xs') → a ∈ xs' → a ∈ xs ∨ added op = Some a.
Proof.
  destruct op; cbn; intros Ha Hin; simplify_eq.
  - set_solver.
  - set_solver.
  - rewrite insert_ordered_perm in Hin. set_solver.
  - destruct xs; simplify_eq. set_solver.
  - destruct (last xs); cbn in Ha; simplify_eq. left. by eapply subseteq_take.
  - destruct (list_find _ xs) as [[i ?]|]; cbn in Ha; simplify_eq. left.
    apply elem_of_app in Hin as [?|?]; [by eapply subseteq_take|by eapply subseteq_drop].
  - rewrite elem_of_reverse in Hin. auto.
  - auto.
  - auto.
  - auto.
  - auto.
Qed.

Lemma rep_step U h q i l xs op out xs' :
  rep U h q → q !! i = Some (l, xs) → may_add U q op = true →
  abs_op l op xs = Some (out, xs') →
  ∃ h', run_op l op h = Ok (out, h') ∧ rep U h' (<[i := (l, xs')]> q).
Proof.
  intros [Hl Hsep Hpool] Hi Hadd Ha.
  assert (∀ e, added op = Some e → e ∈ U ∧ Forall (λ '(l, xs), e ∉ nodes l xs) q) as Hfree.
  { intros e He. unfold may_add in Hadd. rewrite He in Hadd.
    apply andb_prop in Hadd as [?%bool_decide_eq_true ?%bool_decide_eq_true]. done. }
  destruct (run_op_spec h l xs op out xs') as (h' & Hr & Hl' & Hs); [eauto|done| |].
  { intros e [He Hq]%Hfree. rewrite Forall_lookup in Hq. specialize (Hq _ _ Hi).
    destruct (Hpool e He). done. }
  assert (∀ j m ys a, j ≠ i → q !! j = Some (m, ys) → a ∈ nodes m ys → a ∉ nodes l xs') as Hd.
  { intros j m ys a Hji Hj Hin Hin'. unfold nodes in Hin'. rewrite !elem_of_cons in Hin'.
    assert (a ∉ nodes l xs) as Hn by (by eapply Hsep). unfold nodes in Hn.
    rewrite !not_elem_of_cons in Hn. destruct Hin' as [?|[?|Hin']]; [tauto..|].
    destruct (abs_op_nodes _ _ _ _ _ _ Ha Hin') as [?|He]; [tauto|].
    destruct (Hfree _ He) as [_ Hq]. rewrite Forall_lookup in Hq. by apply (Hq _ _ Hj). }
  exists h'. split; [done|]. assert (i < length q)%nat as Hlt by (by eapply lookup_lt_Some). split.
  - intros j m ys. destruct (decide (i = j)) as [<-|Hij].
    + rewrite list_lookup_insert_eq by done. by intros [= <- <-].
    + rewrite list_lookup_insert_ne by done. intros Hj. apply (chain_frame h); [by eapply Hl|].
      intros a Hin. apply Hs. eapply Hd; [by apply not_eq_sym|done|].
      unfold nodes. clear -Hin. set_solver.
  - intros j k m ys m' zs a Hjk. destruct (decide (i = j)) as [<-|Hij].
    + rewrite list_lookup_insert_eq, list_lookup_insert_ne by done. intros [= <- <-] Hk H1 H2.
      eapply Hd; [by apply not_eq_sym|exact Hk|exact H2|exact H1].
    + rewrite (list_lookup_insert_ne q i j) by done. intros Hj. destruct (decide (i = k)) as [<-|].
      * rewrite list_lookup_insert_eq by done. intros [= <- <-]. by eapply Hd.
      * rewrite list_lookup_insert_ne by done. intros Hk. by apply (Hsep j k m ys m' zs a).
  - intros a Ha'. destruct (Hpool a Ha') as [Hn Hdom]. split; [done|].
    destruct (decide (a ∈ nodes l xs')) as [Hin|Hin]; [|by rewrite Hs].
    destruct Hl' as (Hseg & _). eapply lseg_dom; [exact Hseg|].
    unfold nodes in Hin. clear -Hin. set_solver.
Qed.

End Ops.

(** C4: every sequence of list.c operations on any number of lists that share
    one store runs to completion, without a failed assertion or a bad access,
    and returns what the same operations return on functional lists; the store
    then represents the resulting functional lists, and the lists stay separate.
    A client must only add elements that are in no list and pop from lists that
    are not empty. *)
Theorem list_ops_refine less U ops h q outs q' :
  rep U h q → abs_ops less U ops q = Some (outs, q') →
  ∃ h', run_ops less q.*1 ops h = Ok (outs, h') ∧ rep U h' q'.
Proof.
  revert h q outs. induction ops as [|[i op] ops IH]; intros h q outs Hrep Ha; cbn in Ha.
  { simplify_eq. by exists h. }
  destruct (q !! i) as [[l xs]|] eqn:Hi; cbn in Ha; [|done].
  destruct (may_add U q op) eqn:Hadd; [|done].
  destruct (abs_op less l op xs) as [[o xs']|] eqn:Ho; cbn in Ha; [|done].
  destruct (abs_ops _ _ _ _) as [[os q1]|] eqn:Hos; cbn in Ha; simplify_eq.
  destruct (rep_step _ _ _ _ _ _ _ _ _ _ Hrep Hi Hadd Ho) as (h1 & Hr & Hrep1).
  destruct (IH _ _ _ Hrep1 Hos) as (h2 & Hr2 & Hrep2). exists h2. split; [|done].
  assert ((<[i:=(l, xs')]> q).*1 = q.*1) as E.
  { rewrite list_fmap_insert. apply list_insert_id. by rewrite list_lookup_fmap, Hi. }
  rewrite E in Hr2. cbn. erewrite bind_Ok by (by rewrite list_lookup_fmap, Hi).
  erewrite bind_Ok by done. by erewrite bind_Ok by done.
Qed.

(** A store with two empty lists and three free elements. *)
Definition demo_lists : list (list_t * list Z) := [(List_t 1 2, []); (List_t 3 4, [])].
Definition demo_pool : gset Z := {[10; 11; 12]}.
Definition demo_heap : heap :=
  list_to_map [(1, ListElem NULL 2); (2, ListElem 1 NULL); (3, ListElem NULL 4);
               (4, ListElem 3 NULL); (10, ListElem 0 0); (11, ListElem 7 0);
               (12, ListElem 0 9)].

Lemma list_ops_refine_witness :
  ∃ h', run_ops (λ x y, bool_decide (x < y)) [List_t 1 2; List_t 3 4]
          [(0%nat, PushBack 11); (0%nat, InsertOrdered 10); (0%nat, PushBack 12);
           (0%nat, PopFront); (1%nat, PushFront 10); (0%nat, Reverse);
           (0%nat, Size); (0%nat, PopBack); (0%nat, Remove 12)] demo_heap =
          Ok ([0; 0; 0; 10; 0; 0; 2; 11; 2], h') ∧
        rep demo_pool h' [(List_t 1 2, []); (List_t 3 4, [10])].
Proof.
  apply (list_ops_refine _ demo_pool _ demo_heap demo_lists); [|by vm_compute].
  apply rep_intro; apply (bool_decide_unpack _); vm_compute; exact I.
Defined.

(** ** Order *)

Section Order.
Context (less : Z → Z → bool) `{!LessOrder less}.

Lemma insert_ordered_HdRel x e xs :
  leq less x e → HdRel (leq less) x xs → HdRel (leq less) x (insert_ordered less e xs).
Proof. intros. destruct xs as [|y ys]; cbn; [by constructor|]. destruct (less e y); by constructor; inv H0. Qed.

Lemma insert_ordered_sorted e xs :
  Sorted (leq less) xs → Sorted (leq less) (insert_ordered less e xs).
Proof.
  induction 1 as [|x xs Hs IH Hh]; cbn; [repeat constructor|].
  destruct (less e x) eqn:Hex.
  - constructor; [by constructor|]. constructor. by apply less_asym.
  - constructor; [done|]. by apply insert_ordered_HdRel.
Qed.

(** A new element stands behind those equivalent to it. *)
Lemma insert_ordered_stable e xs :
  Sorted (leq less) xs → stable less (xs ++ [e]) (insert_ordered less e xs).
Proof.
  induction xs as [|x xs IH]; intros Hs z; [done|].
  cbn [insert_ordered app]. destruct (less e x) eqn:Hex.
  - apply (Sorted_StronglySorted (leq less)) in Hs.
    change (e :: x :: xs) with ([e] ++ x :: xs). change (x :: xs ++ [e]) with ((x :: xs) ++ [e]).
    rewrite !filter_app. destruct (decide (equivalent less z e)) as [[Hze Hez]|Hne].
    + rewrite (filter_nil_all less z (x :: xs)); [by rewrite app_nil_r|]. intros y Hy [Hzy Hyz].
      apply StronglySorted_inv in Hs as [_ Ha]. rewrite Forall_forall in Ha.
      assert (leq less x y) as Hxy.
      { apply elem_of_cons in Hy as [->|Hy]; [|by apply Ha]. by destruct (leq_total less x x). }
      assert (leq less x e) as Hxe by (by apply (less_negtrans x y e); [|apply (less_negtrans y z e)]).
      unfold leq in Hxe. congruence.
    + rewrite (filter_cons_False _ e) by done. by rewrite app_nil_r.
  - inv Hs. rewrite !filter_cons. specialize (IH H1 z). by rewrite IH.
Qed.

End Order.

(** The facts of an ordered list after an insertion. *)
Definition ordered_insertion (less : Z → Z → bool) (e : Z) (xs xs' : list Z) : Prop :=
  Sorted (leq less) xs' ∧ xs' ≡ₚ e :: xs ∧ stable less (xs ++ [e]) xs'.

(** On a list in ascending order, [list_insert_ordered] returns and the
    list holds the same elements and the new one, again in ascending order,
    with the new element behind every element equivalent to it (threads of one
    priority queue first-in first-out); the rest of the store is untouched. *)
Theorem list_insert_ordered_ordered less `{!LessOrder less} h l xs e :
  is_list h l xs → Sorted (leq less) xs →
  e ∉ nodes l xs → e ≠ NULL → is_Some (h !! e) →
  ∃ h' xs', list_insert_ordered less l e h = Ok ((), h') ∧ is_list h' l xs' ∧
            ordered_insertion less e xs xs' ∧ same_except (e :: nodes l xs) h h'.
Proof.
  intros Hl Hs He Hn Hd.
  destruct (list_insert_ordered_spec less h l xs e) as (h' & Hr & Hl' & Hf); [done..|].
  exists h', (insert_ordered less e xs). split_and!; [done|done| |done].
  split_and!.
  - by apply insert_ordered_sorted.
  - apply insert_ordered_perm.
  - by apply insert_ordered_stable.
Qed.

(** C11: [list_sort] returns for every well-formed list, none of its internal
    assertions fails, and the list then holds the same elements in ascending
    order, with equivalent elements in their old order; the rest of the store
    is untouched. *)
Theorem list_sort_correct less `{!LessOrder less} h l xs :
  is_list h l xs →
  ∃ h' xs', list_sort less l h = Ok ((), h') ∧ is_list h' l xs' ∧
            Sorted (leq less) xs' ∧ xs' ≡ₚ xs ∧ stable less xs xs' ∧
            same_except (nodes l xs) h h'.
Proof. apply list_sort_spec; apply _. Qed.

(** A comparison by a key with ties: the tens of the address. *)
Definition tens_less (x y : Z) : bool := bool_decide (x / 10 < y / 10).
#[global] Instance tens_less_order : LessOrder tens_less.
Proof.
  unfold tens_less. split; intros; repeat case_bool_decide; try done; lia.
Qed.

Definition demo_sort_heap : heap :=
  list_to_map [(1, ListElem NULL 31); (31, ListElem 1 12); (12, ListElem 31 22);
               (22, ListElem 12 11); (11, ListElem 22 21); (21, ListElem 11 2);
               (2, ListElem 21 NULL); (15, ListElem 0 0)].

Lemma list_sort_correct_witness :
  ∃ h' xs', list_sort tens_less (List_t 1 2) demo_sort_heap = Ok ((), h') ∧
    is_list h' (List_t 1 2) xs' ∧
    Sorted (leq tens_less) xs' ∧ xs' ≡ₚ [31; 12; 22; 11; 21] ∧
    stable tens_less [31; 12; 22; 11; 21] xs' ∧
    same_except (nodes (List_t 1 2) [31; 12; 22; 11; 21]) demo_sort_heap h'.
Proof.
  apply (list_sort_correct tens_less). apply (bool_decide_unpack _). vm_compute. exact I.
Defined.

Definition demo_ordered_heap : heap :=
  list_to_map [(1, ListElem NULL 12); (12, ListElem 1 31); (31, ListElem 12 2);
               (2, ListElem 31 NULL); (15, ListElem 0 0)].

Lemma list_insert_ordered_ordered_witness :
  ∃ h' xs', list_insert_ordered tens_less (List_t 1 2) 15 demo_ordered_heap = Ok ((), h') ∧
    is_list h' (List_t 1 2) xs' ∧ ordered_insertion tens_less 15 [12; 31] xs' ∧
    same_except (15 :: nodes (List_t 1 2) [12; 31]) demo_ordered_heap h'.
Proof.
  apply (list_insert_ordered_ordered tens_less).
  - apply (bool_decide_unpack _). vm_compute. exact I.
  - repeat constructor.
  - apply (bool_decide_unpack _). vm_compute. exact I.
  - done.
  - by eexists.
Defined.

End KListRefine.
