(* ===== verification/Bitmap.v ===== *)
(** * Bitmaps (lib/kernel/bitmap.c)

    A bitmap is an array of 32-bit words, as in the code; sizes are 32-bit
    [size_t] values and their sums wrap.  The theorems state what each
    operation does to the array of bits it stands for; the allocators of
    pages (threads/palloc.c), of descriptors (threads/malloc.c) and of
    sectors (filesys/free-map.c) rest on [bitmap_scan_and_flip]. *)

From S2P Require Import Prelude.

Module Bitmap.

Definition ELEM_BITS : Z := 32.
Definition BITMAP_ERROR : Z := 2 ^ 32 - 1.

(** [struct bitmap]. *)
Record bitmap := Bitmap_ { bit_cnt : Z; bits : list Z }.

Definition elem_idx (bit_idx : Z) : Z := bit_idx / ELEM_BITS.
Definition bit_mask (bit_idx : Z) : Z := Z.shiftl 1 (bit_idx mod ELEM_BITS).
Definition elem_cnt (bit_cnt : Z) : Z := u32 (bit_cnt + ELEM_BITS - 1) / ELEM_BITS.
Definition byte_cnt (bit_cnt : Z) : Z := u32 (4 * elem_cnt bit_cnt).
Definition last_mask (b : bitmap) : Z :=
  let last_bits := bit_cnt b mod ELEM_BITS in
  if decide (last_bits = 0) then 2 ^ 32 - 1 else Z.shiftl 1 last_bits - 1.

(** [b->bits[idx]]; an index outside the array is undefined. *)
Definition load_elem (idx : Z) : M bitmap Z :=
  b ← get; lift (bits b !! Z.to_nat idx) Undef.
Definition store_elem (idx w : Z) : M bitmap unit :=
  load_elem idx;; modify (λ b, Bitmap_ (bit_cnt b) (<[Z.to_nat idx := w]> (bits b))).

Definition bitmap_size : M bitmap Z := gets bit_cnt.

Definition bitmap_mark (bit_idx : Z) : M bitmap unit :=
  w ← load_elem (elem_idx bit_idx);
  store_elem (elem_idx bit_idx) (Z.lor w (bit_mask bit_idx)).

Definition bitmap_reset (bit_idx : Z) : M bitmap unit :=
  w ← load_elem (elem_idx bit_idx);
  store_elem (elem_idx bit_idx) (Z.land w (u32 (Z.lnot (bit_mask bit_idx)))).

Definition bitmap_flip (bit_idx : Z) : M bitmap unit :=
  w ← load_elem (elem_idx bit_idx);
  store_elem (elem_idx bit_idx) (Z.lxor w (bit_mask bit_idx)).

Definition bitmap_set (idx : Z) (value : bool) : M bitmap unit :=
  b ← get; ASSERT (bool_decide (idx < bit_cnt b));;
  if value then bitmap_mark idx else bitmap_reset idx.

Definition bitmap_test (idx : Z) : M bitmap bool :=
  b ← get; ASSERT (bool_decide (idx < bit_cnt b));;
  w ← load_elem (elem_idx idx);
  mret (negb (bool_decide (Z.land w (bit_mask idx) = 0))).

(** [for (i = 0; i < cnt; i++) bitmap_set (b, start + i, value);] from
    [idx = start + i] with [n] iterations left. *)
Fixpoint bitmap_set_loop (n : nat) (idx : Z) (value : bool) : M bitmap unit :=
  match n with
  | O => mret ()
  | S n => bitmap_set idx value;; bitmap_set_loop n (u32 (idx + 1)) value
  end.

Definition bitmap_set_multiple (start cnt : Z) (value : bool) : M bitmap unit :=
  b ← get;
  ASSERT (bool_decide (start ≤ bit_cnt b));;
  ASSERT (bool_decide (u32 (start + cnt) ≤ bit_cnt b));;
  bitmap_set_loop (Z.to_nat cnt) start value.

Definition bitmap_set_all (value : bool) : M bitmap unit :=
  n ← bitmap_size; bitmap_set_multiple 0 n value.

Fixpoint bitmap_count_loop (n : nat) (idx : Z) (value : bool) (value_cnt : Z) : M bitmap Z :=
  match n with
  | O => mret value_cnt
  | S n =>
      t ← bitmap_test idx;
      bitmap_count_loop n (u32 (idx + 1)) value
        (if eqb t value then u32 (value_cnt + 1) else value_cnt)
  end.

Definition bitmap_count (start cnt : Z) (value : bool) : M bitmap Z :=
  b ← get;
  ASSERT (bool_decide (start ≤ bit_cnt b));;
  ASSERT (bool_decide (u32 (start + cnt) ≤ bit_cnt b));;
  bitmap_count_loop (Z.to_nat cnt) start value 0.

Fixpoint bitmap_contains_loop (n : nat) (idx : Z) (value : bool) : M bitmap bool :=
  match n with
  | O => mret false
  | S n =>
      t ← bitmap_test idx;
      if eqb t value then mret true else bitmap_contains_loop n (u32 (idx + 1)) value
  end.

Definition bitmap_contains (start cnt : Z) (value : bool) : M bitmap bool :=
  b ← get;
  ASSERT (bool_decide (start ≤ bit_cnt b));;
  ASSERT (bool_decide (u32 (start + cnt) ≤ bit_cnt b));;
  bitmap_contains_loop (Z.to_nat cnt) start value.

Definition bitmap_any (start cnt : Z) : M bitmap bool := bitmap_contains start cnt true.
Definition bitmap_none (start cnt : Z) : M bitmap bool :=
  c ← bitmap_contains start cnt true; mret (negb c).
Definition bitmap_all (start cnt : Z) : M bitmap bool :=
  c ← bitmap_contains start cnt false; mret (negb c).

(** [for (i = start; i <= last; i++)], with [n = last + 1 - i] iterations
    left. *)
Fixpoint bitmap_scan_loop (n : nat) (i cnt : Z) (value : bool) : M bitmap Z :=
  match n with
  | O => mret BITMAP_ERROR
  | S n =>
      c ← bitmap_contains i cnt (negb value);
      if negb c then mret i else bitmap_scan_loop n (i + 1) cnt value
  end.

Definition bitmap_scan (start cnt : Z) (value : bool) : M bitmap Z :=
  b ← get;
  ASSERT (bool_decide (start ≤ bit_cnt b));;
  if decide (cnt ≤ bit_cnt b)
  then bitmap_scan_loop (Z.to_nat (bit_cnt b - cnt + 1 - start)) start cnt value
  else mret BITMAP_ERROR.

Definition bitmap_scan_and_flip (start cnt : Z) (value : bool) : M bitmap Z :=
  idx ← bitmap_scan start cnt value;
  whenM (negb (bool_decide (idx = BITMAP_ERROR))) (bitmap_set_multiple idx cnt (negb value));;
  mret idx.

(** [bitmap_create]: [block] is what [malloc (sizeof *b)] returned,
    [storage] the contents of the block [malloc (byte_cnt (bit_cnt))]
    returned; [None] is a null pointer. *)
Definition bitmap_create (block : option unit) (storage : option (list Z)) (bit_cnt : Z)
    : res (option bitmap) :=
  match block with
  | None => Ok None
  | Some _ =>
      if decide (storage = None ∧ bit_cnt ≠ 0) then Ok None else
      match bitmap_set_all false (Bitmap_ bit_cnt (default [] storage)) with
      | Ok (_, b) => Ok (Some b)
      | Err e => Err e
      end
  end.

(** [sizeof (struct bitmap)] is 8: a size and a pointer. *)
Definition bitmap_buf_size (bit_cnt : Z) : Z := u32 (8 + byte_cnt bit_cnt).

(** [bitmap_create_in_buf]: [storage] is the part of the block after the
    structure. *)
Definition bitmap_create_in_buf (bit_cnt : Z) (storage : list Z) (block_size : Z) : res bitmap :=
  if decide (bitmap_buf_size bit_cnt ≤ block_size) then
    match bitmap_set_all false (Bitmap_ bit_cnt storage) with
    | Ok (_, b) => Ok b
    | Err e => Err e
    end
  else Err Panic.

Definition bitmap_file_size (b : bitmap) : Z := byte_cnt (bit_cnt b).

(** ** The array of bits *)

Definition bit (b : bitmap) (i : Z) : bool :=
  match bits b !! Z.to_nat (i / 32) with
  | Some w => Z.testbit w (i mod 32)
  | None => false
  end.

(** The array has room for the bits, its words have 32 bits, and rounding
    the size up does not wrap. *)
Record wf (b : bitmap) : Prop := {
  wf_cnt : 0 ≤ bit_cnt b ≤ 2 ^ 32 - 32;
  wf_len : bit_cnt b ≤ 32 * Z.of_nat (length (bits b));
  wf_words : Forall (in_u 32) (bits b);
}.

(** Bits [start] to [start + cnt - 1] of [b'] are [v], the others as in [b]. *)
Record updated (b b' : bitmap) (start cnt : Z) (v : bool) : Prop := {
  updated_wf : wf b';
  updated_cnt : bit_cnt b' = bit_cnt b;
  updated_len : length (bits b') = length (bits b);
  updated_bit i : 0 ≤ i → bit b' i = if decide (start ≤ i < start + cnt) then v else bit b i;
}.

Lemma updated_refl b start v : wf b → updated b b start 0 v.
Proof. intros. split; [done..|]. intros i Hi. by rewrite decide_False by lia. Qed.

Lemma updated_snoc b b1 b2 start cnt v :
  0 ≤ cnt → updated b b1 start 1 v → updated b1 b2 (start + 1) cnt v →
  updated b b2 start (1 + cnt) v.
Proof.
  intros ? [? E1 L1 H1] [? E2 L2 H2]. split; [done|congruence|congruence|].
  intros i Hi. rewrite H2, H1 by done. repeat case_decide; (done || lia).
Qed.

Lemma in_u_bits w : 0 ≤ w → (∀ k, 32 ≤ k → Z.testbit w k = false) → in_u 32 w.
Proof. intros ? ?. split; [done|]. by apply Z.bounded_iff_bits_nonneg. Qed.

Lemma in_u_testbit w k : in_u 32 w → 32 ≤ k → Z.testbit w k = false.
Proof. intros [? Hw]. rewrite Z.bounded_iff_bits_nonneg in Hw by lia. auto. Qed.

Lemma bit_mask_spec i k :
  0 ≤ k → Z.testbit (bit_mask i) k = bool_decide (k = i mod 32).
Proof.
  intros Hk. unfold bit_mask, ELEM_BITS. rewrite Z.shiftl_1_l, Z.pow2_bits_eqb by (apply Z.mod_pos_bound; lia).
  case_bool_decide; [subst; apply Z.eqb_refl|]. apply Z.eqb_neq. lia.
Qed.

Lemma bit_mask_range i : in_u 32 (bit_mask i).
Proof.
  pose proof (Z.mod_pos_bound i 32). unfold bit_mask, ELEM_BITS. rewrite Z.shiftl_1_l.
  split; [apply Z.pow_nonneg; lia|]. apply Z.pow_lt_mono_r; lia.
Qed.

Lemma load_elem_ok b i :
  wf b → 0 ≤ i < bit_cnt b →
  ∃ w, load_elem (elem_idx i) b = Ok (w, b) ∧ bits b !! Z.to_nat (i / 32) = Some w ∧ in_u 32 w.
Proof.
  intros [_ Hlen Hw] Hi. unfold load_elem, elem_idx, ELEM_BITS.
  destruct (bits b !! Z.to_nat (i / 32)) as [w|] eqn:E.
  - exists w. split_and!; [erewrite bind_Ok by done; by rewrite E|done|].
    by eapply Forall_lookup_1 in Hw.
  - apply lookup_ge_None in E. exfalso. pose proof (Z.div_mod i 32). pose proof (Z.mod_pos_bound i 32).
    lia.
Qed.

(** Replacing the word of bit [i] by one that differs in that bit only. *)
Lemma store_elem_spec b i w w' v :
  wf b → 0 ≤ i < bit_cnt b → bits b !! Z.to_nat (i / 32) = Some w → in_u 32 w' →
  (∀ k, 0 ≤ k < 32 → Z.testbit w' k = if decide (k = i mod 32) then v else Z.testbit w k) →
  ∃ b', store_elem (elem_idx i) w' b = Ok ((), b') ∧ updated b b' i 1 v.
Proof.
  intros Hwf Hi Hw Hr Hb. destruct (load_elem_ok b i) as (w0 & Hl & ? & _); [done..|].
  eexists. split; [unfold store_elem; by erewrite bind_Ok by done|].
  unfold elem_idx, ELEM_BITS. destruct Hwf as [Hc Hlen Hwo].
  assert (Z.to_nat (i / 32) < length (bits b))%nat as Hlt by (by eapply lookup_lt_Some).
  split; cbn.
  - split; cbn; [done|by rewrite length_insert|]. by apply Forall_insert.
  - done.
  - apply length_insert.
  - intros j Hj. unfold bit. cbn. pose proof (Z.mod_pos_bound j 32). pose proof (Z.mod_pos_bound i 32).
    pose proof (Z.div_mod j 32). pose proof (Z.div_mod i 32).
    destruct (decide (j / 32 = i / 32)) as [E|E].
    + rewrite E, list_lookup_insert_eq by done. rewrite Hb, Hw by lia.
      destruct (decide (j mod 32 = i mod 32)) as [E'|E']; repeat case_decide; (done || lia).
    + rewrite list_lookup_insert_ne; [by rewrite decide_False by lia|].
      intros E2. apply E. apply Z2Nat.inj in E2; [lia|apply Z.div_pos; lia..].
Qed.

Lemma bitmap_mark_spec b i :
  wf b → 0 ≤ i < bit_cnt b →
  ∃ b', bitmap_mark i b = Ok ((), b') ∧ updated b b' i 1 true.
Proof.
  intros Hwf Hi. destruct (load_elem_ok b i) as (w & Hl & Hw & Hr); [done..|].
  pose proof (bit_mask_range i) as Hm. unfold bitmap_mark. erewrite bind_Ok by done.
  eapply store_elem_spec; [done..| |].
  - apply in_u_bits; [apply Z.lor_nonneg; split; [apply Hr|apply Hm]|].
    intros k Hk. by rewrite Z.lor_spec, !in_u_testbit.
  - intros k Hk. rewrite Z.lor_spec, bit_mask_spec by lia.
    case_decide; [rewrite bool_decide_true by done|rewrite bool_decide_false by done];
      [apply orb_true_r|apply orb_false_r].
Qed.

Lemma bitmap_reset_spec b i :
  wf b → 0 ≤ i < bit_cnt b →
  ∃ b', bitmap_reset i b = Ok ((), b') ∧ updated b b' i 1 false.
Proof.
  intros Hwf Hi. destruct (load_elem_ok b i) as (w & Hl & Hw & Hr); [done..|].
  unfold bitmap_reset. erewrite bind_Ok by done.
  eapply store_elem_spec; [done..| |].
  - apply in_u_bits; [apply Z.land_nonneg; left; apply Hr|].
    intros k Hk. by rewrite Z.land_spec, in_u_testbit.
  - intros k Hk. unfold wrapu. rewrite Z.land_spec, Z.mod_pow2_bits_low by lia.
    rewrite Z.lnot_spec, bit_mask_spec by lia.
    case_decide; [rewrite bool_decide_true by done|rewrite bool_decide_false by done];
      [apply andb_false_r|apply andb_true_r].
Qed.

Lemma bitmap_flip_spec b i :
  wf b → 0 ≤ i < bit_cnt b →
  ∃ b', bitmap_flip i b = Ok ((), b') ∧ updated b b' i 1 (negb (bit b i)).
Proof.
  intros Hwf Hi. destruct (load_elem_ok b i) as (w & Hl & Hw & Hr); [done..|].
  pose proof (bit_mask_range i) as Hm. unfold bitmap_flip. erewrite bind_Ok by done.
  eapply store_elem_spec; [done..| |].
  - apply in_u_bits; [apply Z.lxor_nonneg; split; intros; [apply Hm|apply Hr]|].
    intros k Hk. by rewrite Z.lxor_spec, !in_u_testbit.
  - intros k Hk. rewrite Z.lxor_spec, bit_mask_spec by lia. unfold bit. rewrite Hw.
    case_decide; [rewrite bool_decide_true by done|rewrite bool_decide_false by done];
      [subst; apply xorb_true_r|apply xorb_false_r].
Qed.

Lemma bitmap_set_spec b i v :
  wf b → 0 ≤ i < bit_cnt b → ∃ b', bitmap_set i v b = Ok ((), b') ∧ updated b b' i 1 v.
Proof.
  intros Hwf Hi. unfold bitmap_set. erewrite bind_Ok by done.
  erewrite bind_Ok by (apply ASSERT_true, bool_decide_true; lia).
  destruct v; auto using bitmap_mark_spec, bitmap_reset_spec.
Qed.

Lemma land_pow2_zero w n : 0 ≤ n → bool_decide (Z.land w (2 ^ n) = 0) = negb (Z.testbit w n).
Proof.
  intros Hn. destruct (Z.testbit w n) eqn:E; cbn.
  - apply bool_decide_false. intros H0. apply (f_equal (λ z, Z.testbit z n)) in H0.
    rewrite Z.land_spec, Z.bits_0, E, Z.pow2_bits_true in H0 by done. done.
  - apply bool_decide_true. apply Z.bits_inj'. intros k Hk.
    rewrite Z.land_spec, Z.bits_0, Z.pow2_bits_eqb by done.
    destruct (Z.eqb_spec n k) as [<-|]; [by rewrite E|apply andb_false_r].
Qed.

Lemma bitmap_test_spec b i :
  wf b → 0 ≤ i < bit_cnt b → bitmap_test i b = Ok (bit b i, b).
Proof.
  intros Hwf Hi. destruct (load_elem_ok b i) as (w & Hl & Hw & Hr); [done..|].
  unfold bitmap_test. erewrite bind_Ok by done.
  erewrite bind_Ok by (apply ASSERT_true, bool_decide_true; lia).
  erewrite bind_Ok by done. unfold bit_mask, ELEM_BITS, bit. rewrite Hw, Z.shiftl_1_l.
  rewrite land_pow2_zero by (apply Z.mod_pos_bound; lia). by rewrite negb_involutive.
Qed.

(** ** Ranges of bits *)

Lemma bitmap_set_loop_spec n b idx v :
  wf b → 0 ≤ idx → idx + Z.of_nat n ≤ bit_cnt b →
  ∃ b', bitmap_set_loop n idx v b = Ok ((), b') ∧ updated b b' idx (Z.of_nat n) v.
Proof.
  revert b idx. induction n as [|n IH]; intros b idx Hwf Hi Hn; cbn [bitmap_set_loop].
  { exists b. split; [done|]. by apply updated_refl. }
  destruct (bitmap_set_spec b idx v) as (b1 & Hr1 & Hu1); [done|lia|].
  erewrite bind_Ok by done. pose proof (wf_cnt _ Hwf). pose proof (updated_cnt _ _ _ _ _ Hu1).
  rewrite wrapu_id by (unfold in_u; lia).
  destruct (IH b1 (idx + 1)) as (b2 & Hr2 & Hu2); [by eapply updated_wf|lia..|].
  exists b2. split; [done|]. rewrite Nat2Z.inj_succ, <- Z.add_1_l. eapply updated_snoc; [lia|done..].
Qed.

(** The two assertions on a range that lies in the bitmap. *)
Lemma range_asserts {A} (k : M bitmap A) b start cnt :
  wf b → 0 ≤ start → 0 ≤ cnt → start + cnt ≤ bit_cnt b →
  (b ← get; ASSERT (bool_decide (start ≤ bit_cnt b));;
   ASSERT (bool_decide (u32 (start + cnt) ≤ bit_cnt b));; k) b = k b.
Proof.
  intros Hwf ? ? ?. pose proof (wf_cnt _ Hwf). erewrite bind_Ok by done.
  erewrite bind_Ok by (apply ASSERT_true, bool_decide_true; lia).
  rewrite wrapu_id by (unfold in_u; lia).
  by erewrite bind_Ok by (apply ASSERT_true, bool_decide_true; lia).
Qed.

Lemma bitmap_set_multiple_spec b start cnt v :
  wf b → 0 ≤ start → 0 ≤ cnt → start + cnt ≤ bit_cnt b →
  ∃ b', bitmap_set_multiple start cnt v b = Ok ((), b') ∧ updated b b' start cnt v.
Proof.
  intros. unfold bitmap_set_multiple. rewrite range_asserts by done.
  destruct (bitmap_set_loop_spec (Z.to_nat cnt) b start v) as (b' & Hr & Hu); [done|lia|lia|].
  exists b'. rewrite Z2Nat.id in Hu by lia. done.
Qed.

(** All bits of a range have the value [v]. *)
Definition all_bits (b : bitmap) (start cnt : Z) (v : bool) : Prop :=
  ∀ i, start ≤ i < start + cnt → bit b i = v.

Lemma bitmap_contains_loop_spec n b idx v :
  wf b → 0 ≤ idx → idx + Z.of_nat n ≤ bit_cnt b →
  ∃ r, bitmap_contains_loop n idx v b = Ok (r, b) ∧
       (r = false ↔ all_bits b idx (Z.of_nat n) (negb v)).
Proof.
  revert idx. induction n as [|n IH]; intros idx Hwf Hi Hn; cbn [bitmap_contains_loop].
  { exists false. split; [done|]. split; [|done]. intros _ i. lia. }
  erewrite bind_Ok by (apply bitmap_test_spec; [done|lia]). pose proof (wf_cnt _ Hwf).
  destruct (eqb (bit b idx) v) eqn:E.
  - exists true. split; [done|]. split; [done|]. intros Ha. apply eqb_prop in E.
    specialize (Ha idx ltac:(lia)). rewrite E in Ha. by destruct v.
  - rewrite wrapu_id by (unfold in_u; lia). apply eqb_false_iff in E.
    destruct (IH (idx + 1)) as (r & Hr & Hiff); [done|lia..|]. exists r. split; [done|].
    rewrite Hiff. split.
    + intros Ha i Hlt. destruct (decide (i = idx)) as [->|]; [by destruct (bit b idx), v|].
      apply Ha. lia.
    + intros Ha i Hlt. apply Ha. lia.
Qed.

Lemma bitmap_contains_spec b start cnt v :
  wf b → 0 ≤ start → 0 ≤ cnt → start + cnt ≤ bit_cnt b →
  ∃ r, bitmap_contains start cnt v b = Ok (r, b) ∧ (r = false ↔ all_bits b start cnt (negb v)).
Proof.
  intros. unfold bitmap_contains. rewrite range_asserts by done.
  destruct (bitmap_contains_loop_spec (Z.to_nat cnt) b start v) as (r & Hr & Hiff); [done|lia|lia|].
  exists r. rewrite Z2Nat.id in Hiff by lia. done.
Qed.

(** The number of bits with value [v] among [n] bits from [idx]. *)
Fixpoint count_bits (b : bitmap) (idx : Z) (n : nat) (v : bool) : Z :=
  match n with
  | O => 0
  | S n => (if eqb (bit b idx) v then 1 else 0) + count_bits b (idx + 1) n v
  end.

Lemma count_bits_range b idx n v : 0 ≤ count_bits b idx n v ≤ Z.of_nat n.
Proof.
  revert idx. induction n as [|n IH]; intros idx; cbn [count_bits]; [lia|].
  specialize (IH (idx + 1)). destruct (eqb _ _); lia.
Qed.

Lemma bitmap_count_loop_spec n b idx v c :
  wf b → 0 ≤ idx → idx + Z.of_nat n ≤ bit_cnt b → 0 ≤ c → c + Z.of_nat n < 2 ^ 32 →
  bitmap_count_loop n idx v c b = Ok (c + count_bits b idx n v, b).
Proof.
  revert idx c. induction n as [|n IH]; intros idx c Hwf Hi Hn Hc Hc'; cbn [bitmap_count_loop count_bits].
  { by rewrite Z.add_0_r. }
  erewrite bind_Ok by (apply bitmap_test_spec; [done|lia]). pose proof (wf_cnt _ Hwf).
  rewrite !wrapu_id by (unfold in_u; lia).
  destruct (eqb (bit b idx) v); (rewrite IH by (done || lia)); do 2 f_equal; lia.
Qed.

Lemma bitmap_count_spec b start cnt v :
  wf b → 0 ≤ start → 0 ≤ cnt → start + cnt ≤ bit_cnt b →
  bitmap_count start cnt v b = Ok (count_bits b start (Z.to_nat cnt) v, b).
Proof.
  intros Hwf ? ? ?. pose proof (wf_cnt _ Hwf). unfold bitmap_count. rewrite range_asserts by done.
  rewrite bitmap_count_loop_spec by (done || lia). done.
Qed.

(** ** First fit *)

(** [i] starts the first group of [cnt] bits with value [v] at or after
    [start]. *)
Record first_fit (b : bitmap) (start cnt : Z) (v : bool) (i : Z) : Prop := {
  fit_range : start ≤ i ∧ i + cnt ≤ bit_cnt b;
  fit_bits : all_bits b i cnt v;
  fit_first j : start ≤ j < i → ¬ all_bits b j cnt v;
}.

Definition no_fit (b : bitmap) (start cnt : Z) (v : bool) : Prop :=
  ∀ j, start ≤ j → j + cnt ≤ bit_cnt b → ¬ all_bits b j cnt v.

Lemma bitmap_scan_loop_spec n b start i cnt v :
  wf b → 0 ≤ start ≤ i → 0 ≤ cnt → i + Z.of_nat n = Z.max i (bit_cnt b - cnt + 1) →
  (∀ j, start ≤ j < i → ¬ all_bits b j cnt v) →
  ∃ r, bitmap_scan_loop n i cnt v b = Ok (r, b) ∧
       (first_fit b start cnt v r ∨ r = BITMAP_ERROR ∧ no_fit b start cnt v).
Proof.
  revert i. induction n as [|n IH]; intros i Hwf Hi Hc Hn Hno; cbn [bitmap_scan_loop].
  { exists BITMAP_ERROR. split; [done|]. right. split; [done|]. intros j ? ?. apply Hno. lia. }
  destruct (bitmap_contains_spec b i cnt (negb v)) as (r & Hr & Hiff); [done|lia..|].
  rewrite negb_involutive in Hiff. erewrite bind_Ok by done. destruct r; cbn.
  - apply IH; [done|lia..|]. intros j Hj Ha. destruct (decide (j = i)) as [->|].
    + by apply Hiff in Ha.
    + apply (Hno j); [lia|done].
  - exists i. split; [done|]. left. split; [lia|by apply Hiff|done].
Qed.

Lemma bitmap_scan_spec b start cnt v :
  wf b → 0 ≤ start ≤ bit_cnt b → 0 ≤ cnt →
  ∃ r, bitmap_scan start cnt v b = Ok (r, b) ∧
       (first_fit b start cnt v r ∨ r = BITMAP_ERROR ∧ no_fit b start cnt v).
Proof.
  intros Hwf Hs Hc. unfold bitmap_scan. erewrite bind_Ok by done.
  erewrite bind_Ok by (apply ASSERT_true, bool_decide_true; lia). case_decide.
  - apply (bitmap_scan_loop_spec _ b start start); [done|lia..].
  - exists BITMAP_ERROR. split; [done|]. right. split; [done|]. intros j ? ?. lia.
Qed.

Lemma first_fit_not_error b start cnt v r :
  wf b → 0 ≤ cnt → first_fit b start cnt v r → r ≠ BITMAP_ERROR.
Proof. intros Hwf ? [? _ _]. pose proof (wf_cnt _ Hwf). unfold BITMAP_ERROR. lia. Qed.

(** What an allocation of [cnt] bits of value [v] does. *)
Definition scan_and_flip_post (b : bitmap) (start cnt : Z) (v : bool) (r : Z) (b' : bitmap) : Prop :=
  (first_fit b start cnt v r ∧ updated b b' r cnt (negb v)) ∨
  (r = BITMAP_ERROR ∧ no_fit b start cnt v ∧ b' = b).

Lemma bitmap_scan_and_flip_spec b start cnt v :
  wf b → 0 ≤ start ≤ bit_cnt b → 0 ≤ cnt →
  ∃ r b', bitmap_scan_and_flip start cnt v b = Ok (r, b') ∧ scan_and_flip_post b start cnt v r b'.
Proof.
  intros Hwf Hs Hc. unfold bitmap_scan_and_flip.
  destruct (bitmap_scan_spec b start cnt v) as (r & Hr & [Hf|[-> Hno]]); [done..| |];
    erewrite bind_Ok by done.
  - rewrite bool_decide_false by (by eapply first_fit_not_error). cbn.
    destruct (bitmap_set_multiple_spec b r cnt (negb v)) as (b' & Hr' & Hu);
      [done|destruct Hf; lia..|].
    erewrite bind_Ok by done. exists r, b'. split; [done|]. by left.
  - exists BITMAP_ERROR, b. split; [done|]. by right.
Qed.

Lemma bitmap_set_all_spec b v :
  wf b → ∃ b', bitmap_set_all v b = Ok ((), b') ∧ updated b b' 0 (bit_cnt b) v.
Proof.
  intros Hwf. pose proof (wf_cnt _ Hwf). unfold bitmap_set_all. erewrite bind_Ok by done.
  apply bitmap_set_multiple_spec; [done|lia..].
Qed.

Lemma elem_cnt_spec n :
  0 ≤ n ≤ 2 ^ 32 - 32 → 32 * (elem_cnt n - 1) < n ≤ 32 * elem_cnt n.
Proof.
  intros. unfold elem_cnt, ELEM_BITS. rewrite wrapu_id by (unfold in_u; lia).
  Z.to_euclidean_division_equations. lia.
Qed.

(** ** Ranges that leave the bitmap *)

Lemma bitmap_set_loop_panic n b idx v :
  wf b → 0 ≤ idx ≤ bit_cnt b → bit_cnt b < idx + Z.of_nat n →
  bitmap_set_loop n idx v b = Err Panic.
Proof.
  revert b idx. induction n as [|n IH]; intros b idx Hwf Hi Hn; [lia|]. cbn [bitmap_set_loop].
  destruct (decide (idx < bit_cnt b)).
  - destruct (bitmap_set_spec b idx v) as (b1 & Hr1 & Hu1); [done|lia|].
    erewrite bind_Ok by done. pose proof (wf_cnt _ Hwf). pose proof (updated_cnt _ _ _ _ _ Hu1).
    rewrite wrapu_id by (unfold in_u; lia). apply IH; [by eapply updated_wf|lia..].
  - apply bind_Err. unfold bitmap_set. erewrite bind_Ok by done. apply bind_Err.
    by rewrite bool_decide_false by lia.
Qed.

(** ** Properties *)

(** [bitmap_set_multiple] on any start and count of 32 bits, on any
    well-formed bitmap: when the range lies in the bitmap it sets exactly the bits of the
    range, and otherwise it stops with an assertion failure, also when the sum of
    start and count wraps around; it never touches memory outside the array. *)
Theorem bitmap_set_multiple_bounds b start cnt v :
  wf b → in_u 32 start → in_u 32 cnt →
  (start + cnt ≤ bit_cnt b ∧
   ∃ b', bitmap_set_multiple start cnt v b = Ok ((), b') ∧ updated b b' start cnt v) ∨
  (bit_cnt b < start + cnt ∧ bitmap_set_multiple start cnt v b = Err Panic).
Proof.
  intros Hwf [? ?] [? ?]. destruct (decide (start + cnt ≤ bit_cnt b)); [left|right].
  - split; [done|]. by apply bitmap_set_multiple_spec.
  - split; [lia|]. unfold bitmap_set_multiple. erewrite bind_Ok by done.
    destruct (decide (start ≤ bit_cnt b)).
    + erewrite bind_Ok by (by apply ASSERT_true, bool_decide_true).
      destruct (bool_decide (u32 _ ≤ _)); [|by apply bind_Err].
      erewrite bind_Ok by done. apply bitmap_set_loop_panic; [done|lia..].
    + apply bind_Err. by rewrite bool_decide_false.
Qed.

Definition demo_bitmap : bitmap := Bitmap_ 40 [0xF0; 0x1].

Lemma demo_bitmap_wf : wf demo_bitmap.
Proof. split; cbn; [lia..|]. apply (bool_decide_unpack _). vm_compute. exact I. Defined.

Lemma bitmap_set_multiple_bounds_witness :
  (2 ^ 32 - 8 + 40 ≤ bit_cnt demo_bitmap ∧
   ∃ b', bitmap_set_multiple (2 ^ 32 - 8) 40 true demo_bitmap = Ok ((), b') ∧
         updated demo_bitmap b' (2 ^ 32 - 8) 40 true) ∨
  (bit_cnt demo_bitmap < 2 ^ 32 - 8 + 40 ∧
   bitmap_set_multiple (2 ^ 32 - 8) 40 true demo_bitmap = Err Panic).
Proof.
  apply bitmap_set_multiple_bounds; [apply demo_bitmap_wf|split; vm_compute; congruence..].
Defined.

(** [bitmap_scan_and_flip] returns the start of the first group of [cnt]
    consecutive bits with the value sought, at or after [start], and flips exactly those
    bits; when there is no such group it returns [BITMAP_ERROR] and changes nothing. *)
Theorem bitmap_scan_and_flip_first_fit b start cnt v :
  wf b → 0 ≤ start ≤ bit_cnt b → 0 ≤ cnt →
  ∃ r b', bitmap_scan_and_flip start cnt v b = Ok (r, b') ∧ scan_and_flip_post b start cnt v r b'.
Proof. apply bitmap_scan_and_flip_spec. Qed.

Lemma bitmap_scan_and_flip_first_fit_witness :
  ∃ r b', bitmap_scan_and_flip 0 5 false demo_bitmap = Ok (r, b') ∧
          scan_and_flip_post demo_bitmap 0 5 false r b'.
Proof.
  apply bitmap_scan_and_flip_first_fit; [apply demo_bitmap_wf|split; vm_compute; congruence|].
  vm_compute. congruence.
Defined.

(** The run of the example: bits 4 to 7 and 32 are set, so five free bits
    start at 8. *)
Example scan_and_flip_demo :
  bitmap_scan_and_flip 0 5 false demo_bitmap = Ok (8, Bitmap_ 40 [0x1FF0; 0x1]).
Proof. reflexivity. Qed.

End Bitmap.
