(* ===== verification/Arith.v ===== *)
(** * 64-bit division on a 32-bit machine (lib/arithmetic.c)

    The routines GCC calls for [long long] division and remainder, built on
    the 32-bit [divl] instruction.  A divide error (#DE) is [None]. *)

From S2P Require Import Prelude.

Module Arith.

(** [divl]: a 64-bit dividend, a 32-bit divisor and a 32-bit quotient; the
    instruction traps when the quotient does not fit. *)
Definition divl (n d : Z) : option Z :=
  if decide (d = 0 ∨ 2 ^ 32 ≤ n / d) then None else Some (n / d).

(** One step of [nlz]: [if (x <= lim) { n += k; x <<= k; }]. *)
Definition nlz_step (lim k : Z) (p : Z * Z) : Z * Z :=
  let '(n, x) := p in if decide (x ≤ lim) then (n + k, u32 (Z.shiftl x k)) else (n, x).

Definition nlz (x : Z) : Z :=
  let '(n, x) := nlz_step 0x3FFFFFFF 2 (nlz_step 0x0FFFFFFF 4
                   (nlz_step 0x00FFFFFF 8 (nlz_step 0x0000FFFF 16 (0, x)))) in
  if decide (x ≤ 0x7FFFFFFF) then n + 1 else n.

Definition udiv64 (n d : Z) : option Z :=
  if decide (Z.shiftr d 32 = 0) then
    let b := 2 ^ 32 in
    let n1 := u32 (Z.shiftr n 32) in
    let n0 := u32 n in
    let d0 := u32 d in
    if decide (d0 = 0) then None else
    q ← divl (u64 (b * (n1 mod d0) + n0)) d0;
    Some (u64 (q + b * (n1 / d0)))
  else if decide (n < d) then Some 0
  else
    let d1 := u32 (Z.shiftr d 32) in
    let s := nlz d1 in
    q0 ← divl (Z.shiftr n 1) (u32 (Z.shiftr (u64 (Z.shiftl d s)) 32));
    let q := Z.shiftr q0 (31 - s) in
    Some (if decide (u64 (n - u64 ((u64 (q - 1)) * d)) < d) then u64 (q - 1) else q).

(** The remainder is returned as a [uint32_t]. *)
Definition umod64 (n d : Z) : option Z := q ← udiv64 n d; Some (u32 (n - d * q)).

Definition sdiv64 (n d : Z) : option Z :=
  let n_abs := if decide (0 ≤ n) then u64 n else u64 (- u64 n) in
  let d_abs := if decide (0 ≤ d) then u64 d else u64 (- u64 d) in
  q_abs ← udiv64 n_abs d_abs;
  Some (if eqb (bool_decide (n < 0)) (bool_decide (d < 0)) then i64 q_abs else i64 (- i64 q_abs)).

(** The remainder is returned as an [int32_t]. *)
Definition smod64 (n d : Z) : option Z := q ← sdiv64 n d; Some (i32 (n - d * q)).

Definition divdi3 (n d : Z) : option Z := sdiv64 n d.
Definition moddi3 (n d : Z) : option Z := smod64 n d.
Definition udivdi3 (n d : Z) : option Z := udiv64 n d.
Definition umoddi3 (n d : Z) : option Z := umod64 n d.

(** ** Leading zeros *)

(** [x0] shifted by [n] is [x], and [x0] has at least [n] leading zeros. *)
Lemma nlz_step_spec lim k n x x0 :
  0 ≤ k → lim + 1 = 2 ^ (32 - k) → k ≤ 32 → 0 ≤ n → 0 < x < 2 ^ 32 → x = x0 * 2 ^ n →
  ∃ n' x', nlz_step lim k (n, x) = (n', x') ∧ n ≤ n' ≤ n + k ∧ 0 < x' < 2 ^ 32 ∧
           x' = x0 * 2 ^ n' ∧ (lim < x' ∨ x' = x * 2 ^ k).
Proof.
  intros Hk Hlim Hk' Hn Hx Hx0. unfold nlz_step. case_decide.
  - assert (0 < x * 2 ^ k < 2 ^ 32) as Hr.
    { assert (0 < 2 ^ k) by (apply Z.pow_pos_nonneg; lia). split; [nia|].
      replace (2 ^ 32) with (2 ^ (32 - k) * 2 ^ k) by (rewrite <- Z.pow_add_r by lia; f_equal; lia). nia. }
    exists (n + k), (x * 2 ^ k). rewrite Z.shiftl_mul_pow2, wrapu_id by (done || unfold in_u; lia).
    split_and!; try (done || lia). subst. rewrite Z.pow_add_r by lia. lia.
  - exists n, x. split_and!; try (done || lia).
Qed.

Lemma nlz_spec x :
  0 < x < 2 ^ 32 → 0 ≤ nlz x ≤ 31 ∧ 2 ^ 31 ≤ x * 2 ^ nlz x < 2 ^ 32.
Proof.
  intros Hx. unfold nlz.
  destruct (nlz_step_spec 0x0000FFFF 16 0 x x) as (n1 & x1 & -> & B1 & C1 & E1 & D1); [lia..|].
  destruct (nlz_step_spec 0x00FFFFFF 8 n1 x1 x) as (n2 & x2 & -> & B2 & C2 & E2 & D2); [lia..|].
  destruct (nlz_step_spec 0x0FFFFFFF 4 n2 x2 x) as (n3 & x3 & -> & B3 & C3 & E3 & D3); [lia..|].
  destruct (nlz_step_spec 0x3FFFFFFF 2 n3 x3 x) as (n4 & x4 & -> & B4 & C4 & E4 & D4); [lia..|].
  case_decide.
  - split; [lia|]. rewrite Z.pow_add_r by lia. change (2 ^ 1) with 2. lia.
  - split; [lia|]. lia.
Qed.

(** ** Unsigned division *)

Lemma divl_ok n d : 0 < d → 0 ≤ n < d * 2 ^ 32 → divl n d = Some (n / d).
Proof.
  intros Hd Hn. unfold divl. rewrite decide_False; [done|]. intros [?|?]; [lia|].
  assert (n / d < 2 ^ 32) by (apply Z.div_lt_upper_bound; lia). lia.
Qed.

Lemma in_u64_div n d : in_u 64 n → 0 < d → in_u 64 (n / d).
Proof.
  intros [? ?] Hd. split; [by apply Z.div_pos|]. apply Z.div_lt_upper_bound; nia.
Qed.

(** The divisor fits in 32 bits: schoolbook division in base [2^32]. *)
Lemma udiv64_small n d : in_u 64 n → 0 < d < 2 ^ 32 → udiv64 n d = Some (n / d).
Proof.
  intros Hn Hd. pose proof (in_u64_div n d Hn ltac:(lia)) as Hq. unfold udiv64.
  rewrite decide_True by (rewrite Z.shiftr_div_pow2, Z.div_small; lia).
  rewrite Z.shiftr_div_pow2 by lia. unfold in_u in Hn.
  assert (0 ≤ n / 2 ^ 32 < 2 ^ 32) by (split; [apply Z.div_pos; lia|apply Z.div_lt_upper_bound; lia]).
  rewrite (wrapu_id 32 (n / 2 ^ 32)), (wrapu_id 32 d) by (unfold in_u; lia).
  rewrite decide_False by lia. set (n1 := n / 2 ^ 32) in *. change (u32 n) with (n mod 2 ^ 32). set (n0 := n mod 2 ^ 32).
  assert (0 ≤ n0 < 2 ^ 32) by (apply Z.mod_pos_bound; lia).
  assert (n = 2 ^ 32 * n1 + n0) as En by (apply Z.div_mod; lia).
  assert (0 ≤ n1 mod d < d) by (apply Z.mod_pos_bound; lia).
  assert (n1 = d * (n1 / d) + n1 mod d) as E1 by (apply Z.div_mod; lia).
  rewrite wrapu_id by (unfold in_u; nia). rewrite divl_ok by nia. cbn [mbind option_bind].
  assert ((2 ^ 32 * (n1 mod d) + n0) / d + 2 ^ 32 * (n1 / d) = n / d) as E.
  { rewrite <- Z.div_add by lia. f_equal. lia. }
  by rewrite E, wrapu_id.
Qed.

(** The divisor has more than 32 bits: the quotient by its 32 leading bits
    exceeds the true quotient by at most one. *)
Lemma quotient_estimate n d t :
  0 ≤ n < 2 ^ 64 → 2 ≤ t → 2 ^ 31 * t ≤ d → d <= n →
  n / d ≤ n / (d / t * t) ≤ n / d + 1.
Proof.
  intros Hn Ht Hd Hdn. set (q := n / d). set (D := d / t * t).
  assert (d = D + d mod t ∧ 0 ≤ d mod t < t) as [Ed He].
  { split; [unfold D; rewrite (Z.div_mod d t) at 1 by lia; ring|apply Z.mod_pos_bound; lia]. }
  assert (2 ^ 31 * t ≤ D) as HD.
  { unfold D. apply Z.mul_le_mono_nonneg_r; [lia|]. apply Z.div_le_lower_bound; lia. }
  split; [apply Z.div_le_compat_l; lia|].
  assert (0 ≤ q) by (apply Z.div_pos; lia).
  assert (n < d * (q + 1)) as Hq.
  { unfold q. pose proof (Z.mul_succ_div_gt n d). lia. }
  apply Z.lt_succ_r, Z.div_lt_upper_bound; [lia|].
  destruct (decide (n < D * Z.succ (q + 1))) as [|Hge]; [done|exfalso].
  assert ((q + 2) * t < 2 ^ 33) as H1 by nia.
  assert (D < (q + 1) * (t - 1)) as H2 by nia.
  assert (2 ^ 31 * t * t < 2 ^ 33 * (t - 1)) as H3 by nia. nia.
Qed.

Lemma udiv64_large n d : in_u 64 n → in_u 64 d → 2 ^ 32 ≤ d → udiv64 n d = Some (n / d).
Proof.
  intros [Hn0 Hn] [_ Hd64] Hd. unfold udiv64. rewrite Z.shiftr_div_pow2 by lia.
  assert (1 ≤ d / 2 ^ 32 < 2 ^ 32) as Hd1
    by (split; [apply Z.div_le_lower_bound; lia|apply Z.div_lt_upper_bound; lia]).
  rewrite decide_False by lia. case_decide as Hnd; [by rewrite Z.div_small|].
  rewrite (wrapu_id 32 (d / 2 ^ 32)) by (unfold in_u; lia).
  destruct (nlz_spec (d / 2 ^ 32)) as [Hs Hsh]; [lia|]. set (s := nlz (d / 2 ^ 32)) in *.
  set (t := 2 ^ (32 - s)).
  assert (2 ^ s * t = 2 ^ 32) as Est by (unfold t; rewrite <- Z.pow_add_r by lia; f_equal; lia).
  assert (0 < 2 ^ s) by (apply Z.pow_pos_nonneg; lia).
  assert (2 ≤ t) as Ht by (change 2 with (2 ^ 1); apply Z.pow_le_mono_r; lia).
  assert (2 ^ 31 * t ≤ d < 2 ^ 32 * t) as Hdt.
  { pose proof (Z.div_mod d (2 ^ 32)). pose proof (Z.mod_pos_bound d (2 ^ 32)). nia. }
  assert (2 ^ 31 ≤ d / t < 2 ^ 32) as Hv
    by (split; [apply Z.div_le_lower_bound; lia|apply Z.div_lt_upper_bound; lia]).
  rewrite Z.shiftl_mul_pow2, (wrapu_id 64 (d * 2 ^ s)) by (unfold in_u; nia || lia).
  rewrite !Z.shiftr_div_pow2 by lia.
  assert (d * 2 ^ s / 2 ^ 32 = d / t) as ->.
  { rewrite <- Est, (Z.mul_comm (2 ^ s)). by apply Z.div_mul_cancel_r; lia. }
  rewrite (wrapu_id 32 (d / t)) by (unfold in_u; lia). change (2 ^ 1) with 2.
  assert (0 ≤ n / 2 < 2 ^ 63) by (split; [apply Z.div_pos; lia|apply Z.div_lt_upper_bound; lia]).
  rewrite divl_ok by nia. cbn [mbind option_bind]. rewrite Z.shiftr_div_pow2 by lia.
  assert (n / 2 / (d / t) / 2 ^ (31 - s) = n / (d / t * t)) as ->.
  { rewrite !Z.div_div by (try apply Z.pow_pos_nonneg; nia || lia). f_equal. unfold t.
    replace (32 - s) with (Z.succ (31 - s)) by lia. rewrite Z.pow_succ_r by lia. ring. }
  pose proof (quotient_estimate n d t ltac:(lia) ltac:(lia) ltac:(lia) ltac:(lia)) as Hq.
  set (q := n / (d / t * t)) in *. assert (1 ≤ n / d) by (apply Z.div_le_lower_bound; lia).
  assert (d * (n / d) ≤ n < d * (n / d) + d) by
    (pose proof (Z.mul_div_le n d); pose proof (Z.mul_succ_div_gt n d); lia).
  assert (n / d < 2 ^ 64) by (apply Z.div_lt_upper_bound; nia).
  rewrite (wrapu_id 64 (q - 1)) by (unfold in_u; lia).
  rewrite (wrapu_id 64 ((q - 1) * d)), wrapu_id by (unfold in_u; nia).
  f_equal. case_decide; nia.
Qed.

Lemma udiv64_ok n d : in_u 64 n → in_u 64 d → d ≠ 0 → udiv64 n d = Some (n / d).
Proof.
  intros Hn Hd H0. destruct (decide (d < 2 ^ 32)).
  - apply udiv64_small; [done|]. destruct Hd. lia.
  - apply udiv64_large; [done..|lia].
Qed.

(** ** Signed division *)

Lemma abs64 z : in_s 64 z → (if decide (0 ≤ z) then u64 z else u64 (- u64 z)) = Z.abs z.
Proof.
  unfold in_s. intros Hz. case_decide.
  - rewrite wrapu_id by (unfold in_u; lia). lia.
  - unfold wrapu. rewrite Z.mod_opp_l_nz, Zmod_mod by (rewrite ?Zmod_mod; Z.to_euclidean_division_equations; lia).
    rewrite <- (Z_mod_plus_full z 1), Z.mod_small by lia. lia.
Qed.

Lemma quot_abs n d :
  d ≠ 0 → Z.quot n d = if eqb (bool_decide (n < 0)) (bool_decide (d < 0))
                       then Z.abs n / Z.abs d else - (Z.abs n / Z.abs d).
Proof.
  intros Hd. rewrite <- Z.quot_div_nonneg by lia.
  destruct (bool_decide_reflect (n < 0)), (bool_decide_reflect (d < 0)); cbn;
    rewrite ?(Z.abs_neq n), ?(Z.abs_neq d), ?(Z.abs_eq n), ?(Z.abs_eq d) by lia;
    rewrite ?Z.quot_opp_l, ?Z.quot_opp_r by lia; lia.
Qed.

Lemma sdiv64_ok n d :
  in_s 64 n → in_s 64 d → d ≠ 0 → (n ≠ - 2 ^ 63 ∨ d ≠ -1) → sdiv64 n d = Some (Z.quot n d).
Proof.
  intros Hn Hd H0 Hov. unfold sdiv64. rewrite !abs64 by done. unfold in_s in *.
  rewrite udiv64_ok by (unfold in_u; lia). cbn [mbind option_bind]. rewrite quot_abs by done.
  assert (0 ≤ Z.abs n / Z.abs d ≤ Z.abs n) by
    (split; [apply Z.div_pos; lia|apply Z.div_le_upper_bound; nia]).
  f_equal. destruct (eqb _ _) eqn:E.
  - apply wraps_id; [lia|]. unfold in_s.
    assert (Z.abs n / Z.abs d ≠ 2 ^ 63); [|lia]. intros Hq.
    assert (Z.abs n = 2 ^ 63) by lia. assert (Z.abs d = 1).
    { destruct (decide (Z.abs d = 1)); [done|].
      assert (Z.abs n / Z.abs d < 2 ^ 63) by (apply Z.div_lt_upper_bound; nia). lia. }
    repeat case_bool_decide; try done; lia.
  - destruct (decide (Z.abs n / Z.abs d = 2 ^ 63)) as [->|]; [done|].
    rewrite (wraps_id 64 (Z.abs n / Z.abs d)), wraps_id by (unfold in_s; lia). done.
Qed.

(** ** Properties *)

(** The 64-bit division routines return the quotient: for all 64-bit
    operands with a nonzero divisor no [divl] traps, [__udivdi3] is the floor of the
    quotient and [__divdi3] the quotient rounded toward zero, except where it does not
    fit (the least number divided by -1). *)
Theorem division_correct n d :
  d ≠ 0 →
  (in_u 64 n → in_u 64 d → udivdi3 n d = Some (n / d)) ∧
  (in_s 64 n → in_s 64 d → (n ≠ - 2 ^ 63 ∨ d ≠ -1) → divdi3 n d = Some (Z.quot n d)).
Proof. intros Hd. split; intros; [by apply udiv64_ok|by apply sdiv64_ok]. Qed.

Lemma division_correct_witness :
  (in_u 64 (2 ^ 64 - 1) → in_u 64 (2 ^ 33 + 7) →
   udivdi3 (2 ^ 64 - 1) (2 ^ 33 + 7) = Some ((2 ^ 64 - 1) / (2 ^ 33 + 7))) ∧
  (in_s 64 (2 ^ 64 - 1) → in_s 64 (2 ^ 33 + 7) → (2 ^ 64 - 1 ≠ - 2 ^ 63 ∨ 2 ^ 33 + 7 ≠ -1) →
   divdi3 (2 ^ 64 - 1) (2 ^ 33 + 7) = Some (Z.quot (2 ^ 64 - 1) (2 ^ 33 + 7))).
Proof. apply division_correct. discriminate. Defined.

(** The remainder routines are right for divisors of at most 32 bits
    (unsigned) or 31 bits and a sign (signed). *)
Theorem remainder_correct n d :
  d ≠ 0 →
  (in_u 64 n → 0 ≤ d ≤ 2 ^ 32 → umoddi3 n d = Some (n mod d)) ∧
  (in_s 64 n → - 2 ^ 31 ≤ d ≤ 2 ^ 31 → (n ≠ - 2 ^ 63 ∨ d ≠ -1) → moddi3 n d = Some (Z.rem n d)).
Proof.
  intros H0. split.
  - intros Hn Hd. unfold umoddi3, umod64. rewrite udiv64_ok by (done || unfold in_u; lia). cbn.
    f_equal. rewrite <- Z.mod_eq by done. apply wrapu_id. unfold in_u.
    pose proof (Z.mod_pos_bound n d). lia.
  - intros Hn Hd Hov. unfold moddi3, smod64. rewrite sdiv64_ok by (done || unfold in_s; lia). cbn.
    f_equal. replace (n - d * (n ÷ d)) with (Z.rem n d) by (pose proof (Z.quot_rem' n d); lia).
    apply wraps_id; [lia|]. unfold in_s. pose proof (Z.rem_bound_abs n d). lia.
Qed.

Lemma remainder_correct_witness :
  (in_u 64 (2 ^ 40 + 3) → 0 ≤ 10 ≤ 2 ^ 32 → umoddi3 (2 ^ 40 + 3) 10 = Some ((2 ^ 40 + 3) mod 10)) ∧
  (in_s 64 (2 ^ 40 + 3) → - 2 ^ 31 ≤ 10 ≤ 2 ^ 31 → (2 ^ 40 + 3 ≠ - 2 ^ 63 ∨ 10 ≠ -1) →
   moddi3 (2 ^ 40 + 3) 10 = Some (Z.rem (2 ^ 40 + 3) 10)).
Proof. apply remainder_correct. discriminate. Defined.

(** For a larger divisor the remainder loses its upper half, since
    [umod64] returns a [uint32_t] and [smod64] an [int32_t]. *)
Theorem remainder_truncated :
  umoddi3 (2 ^ 32) (2 ^ 33) = Some 0 ∧ 2 ^ 32 mod 2 ^ 33 = 2 ^ 32 ∧
  moddi3 (2 ^ 32) (2 ^ 33) = Some 0 ∧ Z.rem (2 ^ 32) (2 ^ 33) = 2 ^ 32.
Proof. by vm_compute. Qed.

End Arith.
