(* ===== verification/FixedPoint.v ===== *)
(** * Fixed-point numbers (threads/fixed-point.h)

    Numbers with 16 fractional bits in a 32-bit [int].
    Signed overflow of an [int] expression is undefined ([Undef]); the
    conversion of a [long long] result to [int] wraps. *)

From S2P Require Import Prelude.

Module FixedPoint.

Definition FIX_P : Z := 16.
Definition FIX_Q : Z := 16.
Definition FIX_F : Z := Z.shiftl 1 FIX_Q.
Definition FIX_MAX_INT : Z := Z.shiftl 1 FIX_P - 1.
Definition FIX_MIN_INT : Z := - FIX_MAX_INT.

(** [fixed_point_t]. *)
Record fixed_point_t := mk_fix { f : Z }.

(** The value of an [int] expression. *)
Definition int (z : Z) : res Z := if decide (in_s 32 z) then Ok z else Err Undef.

Definition rbind {A B} (r : res A) (k : A → res B) : res B :=
  match r with Ok a => k a | Err e => Err e end.
Definition rassert (b : bool) : res unit := if b then Ok () else Err Panic.

Definition fix_int (n : Z) : res fixed_point_t :=
  rbind (rassert (bool_decide (FIX_MIN_INT ≤ n) && bool_decide (n ≤ FIX_MAX_INT))) (λ _,
  rbind (int (n * FIX_F)) (λ x, Ok (mk_fix x))).

Definition fix_frac (n d : Z) : res fixed_point_t :=
  rbind (rassert (negb (bool_decide (d = 0)))) (λ _,
  rbind (int (Z.quot n d)) (λ q,
  rbind (rassert (bool_decide (FIX_MIN_INT ≤ q) && bool_decide (q ≤ FIX_MAX_INT))) (λ _,
  Ok (mk_fix (i32 (Z.quot (n * FIX_F) d)))))).

Definition fix_round (x : fixed_point_t) : res Z :=
  rbind (int (f x + Z.quot FIX_F 2)) (λ s, Ok (Z.quot s FIX_F)).

Definition fix_trunc (x : fixed_point_t) : Z := Z.quot (f x) FIX_F.

Definition fix_add (x y : fixed_point_t) : res fixed_point_t :=
  rbind (int (f x + f y)) (λ s, Ok (mk_fix s)).

Definition fix_sub (x y : fixed_point_t) : res fixed_point_t :=
  rbind (int (f x - f y)) (λ s, Ok (mk_fix s)).

Definition fix_mul (x y : fixed_point_t) : fixed_point_t :=
  mk_fix (i32 (Z.quot (f x * f y) FIX_F)).

Definition fix_scale (x : fixed_point_t) (n : Z) : res fixed_point_t :=
  rbind (rassert (bool_decide (0 ≤ n))) (λ _, rbind (int (f x * n)) (λ s, Ok (mk_fix s))).

Definition fix_div (x y : fixed_point_t) : res fixed_point_t :=
  if decide (f y = 0) then Err Undef else Ok (mk_fix (i32 (Z.quot (f x * FIX_F) (f y)))).

Definition fix_unscale (x : fixed_point_t) (n : Z) : res fixed_point_t :=
  rbind (rassert (bool_decide (0 < n))) (λ _, Ok (mk_fix (Z.quot (f x) n))).

Definition fix_inv (x : fixed_point_t) : res fixed_point_t :=
  rbind (fix_int 1) (λ one, fix_div one x).

Definition fix_compare (x y : fixed_point_t) : Z :=
  if decide (f x < f y) then -1 else Z.b2z (bool_decide (f y < f x)).

(** ** Properties *)

(** [fix_round] returns the nearest integer, halves upward, for a
    nonnegative number that is not within one half of the largest; for a negative number it does
    not: -3/4 becomes 0. *)
Theorem fix_round_nearest :
  (∀ x, 0 ≤ f x < 2 ^ 31 - 2 ^ 15 →
     ∃ r, fix_round x = Ok r ∧ 2 * f x - FIX_F < 2 * (r * FIX_F) ≤ 2 * f x + FIX_F) ∧
  fix_round (mk_fix (- 3 * 2 ^ 14)) = Ok 0.
Proof.
  split; [|reflexivity]. intros [x] Hx. cbn in Hx |- *. unfold fix_round, int. cbn [f].
  change (FIX_F ÷ 2) with 32768. change FIX_F with 65536.
  rewrite decide_True by (unfold in_s; lia). eexists. split; [reflexivity|].
  rewrite Z.quot_div_nonneg by lia.
  Z.to_euclidean_division_equations. lia.
Qed.

(** the product and the quotient of two fixed-point numbers are exact
    up to one unit in the last place, whenever the exact value fits; and [fix_int] of an
    integer its assertion admits overflows from 32768 on. *)
Theorem fix_mul_div_error x y :
  (in_s 32 (Z.quot (f x * f y) FIX_F) →
     Z.abs (f (fix_mul x y) * FIX_F - f x * f y) < FIX_F) ∧
  (f y ≠ 0 → in_s 32 (Z.quot (f x * FIX_F) (f y)) →
     ∃ z, fix_div x y = Ok z ∧ Z.abs (f z * f y - f x * FIX_F) < Z.abs (f y)) ∧
  fix_int 32768 = Err Undef.
Proof.
  split_and!; [| |reflexivity].
  - intros Hr. unfold fix_mul. cbn [f]. rewrite wraps_id by (done || lia).
    pose proof (Z.quot_rem' (f x * f y) FIX_F). pose proof (Z.rem_bound_abs (f x * f y) FIX_F).
    change FIX_F with 65536 in *. lia.
  - intros H0 Hr. unfold fix_div. rewrite decide_False by done. eexists. split; [reflexivity|].
    cbn [f]. rewrite wraps_id by (done || lia).
    pose proof (Z.quot_rem' (f x * FIX_F) (f y)). pose proof (Z.rem_bound_abs (f x * FIX_F) (f y)).
    lia.
Qed.

End FixedPoint.
