(* ===== verification/Kernel.v ===== *)
(** * State of the scheduler (threads/thread.h, threads/synch.h)

    The data of thread.c, synch.c and timer.c: thread control blocks,
    semaphores, locks, condition variables, the run queue, the sleep list
    and the CPU's interrupt flag.  A thread is named by the address of its
    page; so are locks, semaphores and conditions.

    The queues of threads are functional lists of threads: that the
    [struct list] code implements them is what [KListRefine] shows, under
    the condition that an element enters a list only when it is in none.
    That condition is kept here: putting an element into a second list, or
    removing one that is in no list, is undefined behaviour ([Undef]).

    C code that sleeps in the middle of a function is cut at [schedule]:
    what the function still has to do is a [frame] on the sleeping thread's
    [kstack], the part of its kernel stack that matters here. *)

From S2P Require Import Prelude KListSpec.

Module Kernel.

(** ** Data *)

(** [enum thread_status]. *)
Inductive thread_status :=
  THREAD_RUNNING | THREAD_READY | THREAD_BLOCKED | THREAD_DYING | THREAD_ZOMBIE.
#[global] Instance thread_status_eq_dec : EqDecision thread_status.
Proof. solve_decision. Defined.

(** [enum sched_policy]. *)
Inductive sched_policy := SCHED_FIFO | SCHED_PRIO | SCHED_FAIR | SCHED_MLFQS.
#[global] Instance sched_policy_eq_dec : EqDecision sched_policy.
Proof. solve_decision. Defined.

Definition TID_ERROR : Z := -1.
Definition PRI_MIN : Z := 0.
Definition PRI_DEFAULT : Z := 31.
Definition PRI_MAX : Z := 63.
Definition TIME_SLICE : Z := 4.

(** A semaphore is one of its own or the one inside a lock. *)
Inductive sema_ref := SemaFree (s : Z) | SemaLock (l : Z).
#[global] Instance sema_ref_eq_dec : EqDecision sema_ref.
Proof. solve_decision. Defined.
#[global] Instance sema_ref_countable : Countable sema_ref.
Proof.
  refine (inj_countable' (λ r, match r with SemaFree s => inl s | SemaLock l => inr l end)
            (λ x, match x with inl s => SemaFree s | inr l => SemaLock l end) _).
  by intros [].
Defined.

(** The lists a thread's [elem] can be in: the values of [t->queue]. *)
Inductive queue_ref := Qready | Qsleep | Qsema (r : sema_ref) | Qcond (c : Z).
#[global] Instance queue_ref_eq_dec : EqDecision queue_ref.
Proof. solve_decision. Defined.

(** [enum intr_level]. *)
Inductive intr_level := INTR_OFF | INTR_ON.
#[global] Instance intr_level_eq_dec : EqDecision intr_level.
Proof. solve_decision. Defined.

(** The function of a new thread: [idle], or a client of the kernel. *)
Inductive thread_func := FnIdle (idle_started : Z) | FnClient.

(** What remains to be done on a kernel stack. *)
Inductive frame :=
| F_set_level (old : intr_level)                 (* intr_set_level (old_level) *)
| F_iret                                         (* return from the interrupt *)
| F_sema_down (r : sema_ref) (old : intr_level)  (* back in the loop of sema_down *)
| F_lock_wait (l : Z) (old : intr_level)         (* the same, called by lock_acquire *)
| F_sema_up (r : sema_ref)                       (* call sema_up *)
| F_wake_check (t : Z)                           (* the test of t->e_pri after a wake-up *)
| F_lock_acquire (l : Z)                         (* call lock_acquire *)
| F_lock_release (l : Z)                         (* call lock_release *)
| F_cond_block (c : Z)                           (* cond_wait: go to sleep *)
| F_sleep                                        (* timer_sleep: go to sleep *)
| F_rw_wait (w : Z) (reader : bool)              (* rw_lock_acquire: after cond_wait *)
| F_rw_enter (w : Z) (reader : bool)             (* rw_lock_acquire: the loop test *)
| F_rw_leave (w : Z) (reader : bool)             (* rw_lock_release: with the guard held *)
| F_cond_signal (c l : Z)                        (* call cond_signal *)
| F_cond_broadcast (c l : Z)                     (* call cond_broadcast *)
| F_set_tid (t pri : Z)                          (* allocate_tid: with tid_lock held *)
| F_create_tail (t pri tid : Z)                  (* thread_create: after allocate_tid *)
| F_create_check (pri tid : Z)                   (* thread_create: yield if preempted *)
| F_init_tid (t : Z)                             (* thread_init: allocate_tid *)
| F_start_tail (sema : Z)                        (* thread_start: after thread_create *)
| F_kernel_thread (f : thread_func)              (* kernel_thread: first run *)
| F_idle                                         (* idle: the loop *)
| F_idle_hlt.                                    (* idle: sti; hlt *)

(** [struct thread], without its name, stack pointer, magic number and the
    members of the process code.  [eax] is the value the last kernel call
    of the thread returned. *)
Record thread := Thread {
  tid : Z;
  status : thread_status;
  wake_up : Z;
  donated_for : option Z;
  lock_queue : list Z;
  b_pri : Z;
  e_pri : Z;
  queue : option queue_ref;
  pcb : option Z;
  kstack : list frame;
  eax : Z;
}.

(** [struct semaphore]. *)
Record semaphore := Semaphore { value : Z; waiters : list Z }.

(** [struct lock]; its semaphore is the one named [SemaLock l]. *)
Record lock := Lock { holder : option Z; state : Z; pri : Z }.

(** [struct rw_lock]; [rw_guard], [rw_read] and [rw_write] name its members. *)
Record rw_lock := RwLock {
  rw_guard : Z; rw_read : Z; rw_write : Z;
  AR : Z; WR : Z; AW : Z; WW : Z;
}.

(** The static variables of thread.c, timer.c and interrupt.c. *)
Record kstate := KState {
  threads : gmap Z thread;
  semas : gmap sema_ref semaphore;
  locks : gmap Z lock;
  conds : gmap Z (list Z);
  rw_locks : gmap Z rw_lock;
  ready_list : list Z;
  all_list : list Z;
  timer_sleep_list : list Z;
  idle_thread : option Z;
  initial_thread : Z;
  cur : Z;                      (* running_thread () *)
  level : intr_level;           (* the interrupt flag *)
  in_external_intr : bool;
  yield_on_return : bool;
  ticks : Z;
  thread_ticks : Z;
  idle_ticks : Z; kernel_ticks : Z; user_ticks : Z;
  next_tid : Z;
  active_sched_policy : sched_policy;
}.

(** ** Updates *)

Definition set_tid x t := Thread x (status t) (wake_up t) (donated_for t) (lock_queue t)
    (b_pri t) (e_pri t) (queue t) (pcb t) (kstack t) (eax t).
Definition set_status x t := Thread (tid t) x (wake_up t) (donated_for t) (lock_queue t)
    (b_pri t) (e_pri t) (queue t) (pcb t) (kstack t) (eax t).
Definition set_wake_up x t := Thread (tid t) (status t) x (donated_for t) (lock_queue t)
    (b_pri t) (e_pri t) (queue t) (pcb t) (kstack t) (eax t).
Definition set_donated_for x t := Thread (tid t) (status t) (wake_up t) x (lock_queue t)
    (b_pri t) (e_pri t) (queue t) (pcb t) (kstack t) (eax t).
Definition set_lock_queue x t := Thread (tid t) (status t) (wake_up t) (donated_for t) x
    (b_pri t) (e_pri t) (queue t) (pcb t) (kstack t) (eax t).
Definition set_b_pri x t := Thread (tid t) (status t) (wake_up t) (donated_for t) (lock_queue t)
    x (e_pri t) (queue t) (pcb t) (kstack t) (eax t).
Definition set_e_pri x t := Thread (tid t) (status t) (wake_up t) (donated_for t) (lock_queue t)
    (b_pri t) x (queue t) (pcb t) (kstack t) (eax t).
Definition set_queue x t := Thread (tid t) (status t) (wake_up t) (donated_for t) (lock_queue t)
    (b_pri t) (e_pri t) x (pcb t) (kstack t) (eax t).
Definition set_pcb x t := Thread (tid t) (status t) (wake_up t) (donated_for t) (lock_queue t)
    (b_pri t) (e_pri t) (queue t) x (kstack t) (eax t).
Definition set_kstack x t := Thread (tid t) (status t) (wake_up t) (donated_for t)
    (lock_queue t) (b_pri t) (e_pri t) (queue t) (pcb t) x (eax t).
Definition set_eax x t := Thread (tid t) (status t) (wake_up t) (donated_for t) (lock_queue t)
    (b_pri t) (e_pri t) (queue t) (pcb t) (kstack t) x.

Definition with_threads x s := KState x (semas s) (locks s) (conds s) (rw_locks s)
    (ready_list s) (all_list s) (timer_sleep_list s) (idle_thread s) (initial_thread s) (cur s)
    (level s) (in_external_intr s) (yield_on_return s) (ticks s) (thread_ticks s) (idle_ticks s)
    (kernel_ticks s) (user_ticks s) (next_tid s) (active_sched_policy s).
Definition with_semas x s := KState (threads s) x (locks s) (conds s) (rw_locks s)
    (ready_list s) (all_list s) (timer_sleep_list s) (idle_thread s) (initial_thread s) (cur s)
    (level s) (in_external_intr s) (yield_on_return s) (ticks s) (thread_ticks s) (idle_ticks s)
    (kernel_ticks s) (user_ticks s) (next_tid s) (active_sched_policy s).
Definition with_locks x s := KState (threads s) (semas s) x (conds s) (rw_locks s)
    (ready_list s) (all_list s) (timer_sleep_list s) (idle_thread s) (initial_thread s) (cur s)
    (level s) (in_external_intr s) (yield_on_return s) (ticks s) (thread_ticks s) (idle_ticks s)
    (kernel_ticks s) (user_ticks s) (next_tid s) (active_sched_policy s).
Definition with_conds x s := KState (threads s) (semas s) (locks s) x (rw_locks s)
    (ready_list s) (all_list s) (timer_sleep_list s) (idle_thread s) (initial_thread s) (cur s)
    (level s) (in_external_intr s) (yield_on_return s) (ticks s) (thread_ticks s) (idle_ticks s)
    (kernel_ticks s) (user_ticks s) (next_tid s) (active_sched_policy s).
Definition with_rw_locks x s := KState (threads s) (semas s) (locks s) (conds s) x
    (ready_list s) (all_list s) (timer_sleep_list s) (idle_thread s) (initial_thread s) (cur s)
    (level s) (in_external_intr s) (yield_on_return s) (ticks s) (thread_ticks s) (idle_ticks s)
    (kernel_ticks s) (user_ticks s) (next_tid s) (active_sched_policy s).
Definition with_ready_list x s := KState (threads s) (semas s) (locks s) (conds s) (rw_locks s)
    x (all_list s) (timer_sleep_list s) (idle_thread s) (initial_thread s) (cur s) (level s)
    (in_external_intr s) (yield_on_return s) (ticks s) (thread_ticks s) (idle_ticks s)
    (kernel_ticks s) (user_ticks s) (next_tid s) (active_sched_policy s).
Definition with_all_list x s := KState (threads s) (semas s) (locks s) (conds s) (rw_locks s)
    (ready_list s) x (timer_sleep_list s) (idle_thread s) (initial_thread s) (cur s) (level s)
    (in_external_intr s) (yield_on_return s) (ticks s) (thread_ticks s) (idle_ticks s)
    (kernel_ticks s) (user_ticks s) (next_tid s) (active_sched_policy s).
Definition with_sleep_list x s := KState (threads s) (semas s) (locks s) (conds s) (rw_locks s)
    (ready_list s) (all_list s) x (idle_thread s) (initial_thread s) (cur s) (level s)
    (in_external_intr s) (yield_on_return s) (ticks s) (thread_ticks s) (idle_ticks s)
    (kernel_ticks s) (user_ticks s) (next_tid s) (active_sched_policy s).
Definition with_idle_thread x s := KState (threads s) (semas s) (locks s) (conds s) (rw_locks s)
    (ready_list s) (all_list s) (timer_sleep_list s) x (initial_thread s) (cur s) (level s)
    (in_external_intr s) (yield_on_return s) (ticks s) (thread_ticks s) (idle_ticks s)
    (kernel_ticks s) (user_ticks s) (next_tid s) (active_sched_policy s).
Definition with_initial_thread x s := KState (threads s) (semas s) (locks s) (conds s) (rw_locks s)
    (ready_list s) (all_list s) (timer_sleep_list s) (idle_thread s) x (cur s) (level s)
    (in_external_intr s) (yield_on_return s) (ticks s) (thread_ticks s) (idle_ticks s)
    (kernel_ticks s) (user_ticks s) (next_tid s) (active_sched_policy s).
Definition with_cur x s := KState (threads s) (semas s) (locks s) (conds s) (rw_locks s)
    (ready_list s) (all_list s) (timer_sleep_list s) (idle_thread s) (initial_thread s) x
    (level s) (in_external_intr s) (yield_on_return s) (ticks s) (thread_ticks s) (idle_ticks s)
    (kernel_ticks s) (user_ticks s) (next_tid s) (active_sched_policy s).
Definition with_level x s := KState (threads s) (semas s) (locks s) (conds s) (rw_locks s)
    (ready_list s) (all_list s) (timer_sleep_list s) (idle_thread s) (initial_thread s) (cur s)
    x (in_external_intr s) (yield_on_return s) (ticks s) (thread_ticks s) (idle_ticks s)
    (kernel_ticks s) (user_ticks s) (next_tid s) (active_sched_policy s).
Definition with_in_external_intr x s := KState (threads s) (semas s) (locks s) (conds s)
    (rw_locks s) (ready_list s) (all_list s) (timer_sleep_list s) (idle_thread s)
    (initial_thread s) (cur s) (level s) x (yield_on_return s) (ticks s) (thread_ticks s)
    (idle_ticks s) (kernel_ticks s) (user_ticks s) (next_tid s) (active_sched_policy s).
Definition with_yield_on_return x s := KState (threads s) (semas s) (locks s) (conds s)
    (rw_locks s) (ready_list s) (all_list s) (timer_sleep_list s) (idle_thread s)
    (initial_thread s) (cur s) (level s) (in_external_intr s) x (ticks s) (thread_ticks s)
    (idle_ticks s) (kernel_ticks s) (user_ticks s) (next_tid s) (active_sched_policy s).
Definition with_ticks x s := KState (threads s) (semas s) (locks s) (conds s) (rw_locks s)
    (ready_list s) (all_list s) (timer_sleep_list s) (idle_thread s) (initial_thread s) (cur s)
    (level s) (in_external_intr s) (yield_on_return s) x (thread_ticks s) (idle_ticks s)
    (kernel_ticks s) (user_ticks s) (next_tid s) (active_sched_policy s).
Definition with_thread_ticks x s := KState (threads s) (semas s) (locks s) (conds s)
    (rw_locks s) (ready_list s) (all_list s) (timer_sleep_list s) (idle_thread s)
    (initial_thread s) (cur s) (level s) (in_external_intr s) (yield_on_return s) (ticks s) x
    (idle_ticks s) (kernel_ticks s) (user_ticks s) (next_tid s) (active_sched_policy s).
Definition with_next_tid x s := KState (threads s) (semas s) (locks s) (conds s) (rw_locks s)
    (ready_list s) (all_list s) (timer_sleep_list s) (idle_thread s) (initial_thread s) (cur s)
    (level s) (in_external_intr s) (yield_on_return s) (ticks s) (thread_ticks s) (idle_ticks s)
    (kernel_ticks s) (user_ticks s) x (active_sched_policy s).
Definition with_stats i k u s := KState (threads s) (semas s) (locks s) (conds s) (rw_locks s)
    (ready_list s) (all_list s) (timer_sleep_list s) (idle_thread s) (initial_thread s) (cur s)
    (level s) (in_external_intr s) (yield_on_return s) (ticks s) (thread_ticks s) i k u
    (next_tid s) (active_sched_policy s).

Abbreviation K := (M kstate).

(** ** Access *)

(** Following a pointer to a thread; one that was freed is undefined. *)
Definition get_thread (t : Z) : K thread := λ s, lift (threads s !! t) Undef s.
Definition upd_thread (t : Z) (g : thread → thread) : K unit :=
  th ← get_thread t; modify (λ s, with_threads (<[t := g th]> (threads s)) s).
Definition get_sema (r : sema_ref) : K semaphore := λ s, lift (semas s !! r) Undef s.
Definition put_sema (r : sema_ref) (x : semaphore) : K unit :=
  modify (λ s, with_semas (<[r := x]> (semas s)) s).
Definition get_lock (l : Z) : K lock := λ s, lift (locks s !! l) Undef s.
Definition put_lock (l : Z) (x : lock) : K unit :=
  modify (λ s, with_locks (<[l := x]> (locks s)) s).
Definition get_rw (w : Z) : K rw_lock := λ s, lift (rw_locks s !! w) Undef s.
Definition put_rw (w : Z) (x : rw_lock) : K unit :=
  modify (λ s, with_rw_locks (<[w := x]> (rw_locks s)) s).

(** ** Queues of threads *)

Definition qlist (s : kstate) (q : queue_ref) : list Z :=
  match q with
  | Qready => ready_list s
  | Qsleep => timer_sleep_list s
  | Qsema r => from_option waiters [] (semas s !! r)
  | Qcond c => default [] (conds s !! c)
  end.

Definition with_qlist (q : queue_ref) (xs : list Z) (s : kstate) : kstate :=
  match q with
  | Qready => with_ready_list xs s
  | Qsleep => with_sleep_list xs s
  | Qsema r => with_semas (alter (λ x, Semaphore (value x) xs) r (semas s)) s
  | Qcond c => with_conds (alter (λ _, xs) c (conds s)) s
  end.

Definition all_queues (s : kstate) : list queue_ref :=
  Qready :: Qsleep :: (Qsema <$> (map_to_list (semas s)).*1) ++ (Qcond <$> (map_to_list (conds s)).*1).

(** The list that [&t->elem] is in. *)
Definition elem_in (s : kstate) (t : Z) : option queue_ref :=
  snd <$> list_find (λ q, t ∈ qlist s q) (all_queues s).

(** The address of a queue is that of an existing object. *)
Definition queue_exists (s : kstate) (q : queue_ref) : bool := bool_decide (q ∈ all_queues s).

(** [list_push_back (q, &t->elem)] and [list_insert_ordered (q, &t->elem, less)]. *)
Definition elem_insert (f : list Z → list Z) (q : queue_ref) (t : Z) : K unit :=
  get_thread t;;
  s ← get;
  if queue_exists s q && bool_decide (elem_in s t = None)
  then put (with_qlist q (f (qlist s q)) s) else fail Undef.
Definition elem_push_back (q : queue_ref) (t : Z) : K unit := elem_insert (.++ [t]) q t.
Definition elem_insert_ordered (less : kstate → Z → Z → bool) (q : queue_ref) (t : Z) : K unit :=
  s ← get; elem_insert (KListSpec.insert_ordered (less s) t) q t.

(** [list_remove (&t->elem)]. *)
Definition elem_remove (t : Z) : K unit :=
  get_thread t;;
  s ← get;
  match elem_in s t with
  | Some q => put (with_qlist q (filter (.≠ t) (qlist s q)) s)
  | None => fail Undef
  end.

(** [list_pop_front (q)]: [None] when the list is empty. *)
Definition elem_pop_front (q : queue_ref) : K (option Z) :=
  s ← get;
  match qlist s q with
  | [] => mret None
  | t :: ts => put (with_qlist q ts s);; mret (Some t)
  end.

(** Priority of a thread as the comparisons of thread.c see it. *)
Definition pri_of (s : kstate) (t : Z) : Z := from_option e_pri PRI_MIN (threads s !! t).

(** [grater_thread_pri], through [thread_before]. *)
Definition thread_before (s : kstate) (a b : Z) : bool := bool_decide (pri_of s b < pri_of s a).

(** ** The interrupt flag (threads/interrupt.c) *)

Definition intr_get_level : K intr_level := gets level.
Definition intr_context : K bool := gets in_external_intr.
Definition intr_disable : K intr_level :=
  old ← intr_get_level; modify (with_level INTR_OFF);; mret old.
Definition intr_enable : K intr_level :=
  old ← intr_get_level;
  c ← intr_context; ASSERT (negb c);;
  modify (with_level INTR_ON);; mret old.
Definition intr_set_level (l : intr_level) : K intr_level :=
  match l with INTR_ON => intr_enable | INTR_OFF => intr_disable end.
Definition intr_yield_on_return : K unit :=
  c ← intr_context; ASSERT c;; modify (with_yield_on_return true).

(** Leaving work for later on the kernel stack of [t]. *)
Definition push_frames (t : Z) (fs : list frame) : K unit :=
  upd_thread t (λ th, set_kstack (fs ++ kstack th) th).

End Kernel.
