(* ===== verification/Thread.v ===== *)
(** * Threads (threads/thread.c)

    The operations of thread.c on the scheduler's state.  A function that
    calls [schedule] pushes what it has left to do on the caller's kernel
    stack first; [schedule] then makes another thread the running one. *)

From S2P Require Import Prelude KListSpec Kernel.
Import Kernel.

Module Thread.

Definition is_thread (t : option Z) : K bool :=
  match t with
  | None => mret false
  | Some t => s ← get; mret (bool_decide (is_Some (threads s !! t)))
  end.

Definition running_thread : K Z := gets cur.

Definition thread_current : K Z :=
  t ← running_thread;
  b ← is_thread (Some t); ASSERT b;;
  th ← get_thread t; ASSERT (bool_decide (status th = THREAD_RUNNING));;
  mret t.

Definition thread_tid : K Z := t ← thread_current; th ← get_thread t; mret (tid th).

(** *** Scheduling *)

(** [thread_schedule_fifo] and [thread_schedule_prio] have one body. *)
Definition thread_schedule_fifo : K (option Z) :=
  n ← elem_pop_front Qready;
  match n with Some t => mret (Some t) | None => gets idle_thread end.
Definition thread_schedule_prio : K (option Z) :=
  n ← elem_pop_front Qready;
  match n with Some t => mret (Some t) | None => gets idle_thread end.
Definition thread_schedule_fair : K (option Z) := PANIC.
Definition thread_schedule_mlfqs : K (option Z) := PANIC.

Definition next_thread_to_run : K (option Z) :=
  p ← gets active_sched_policy;
  match p with
  | SCHED_FIFO => thread_schedule_fifo
  | SCHED_PRIO => thread_schedule_prio
  | SCHED_FAIR => thread_schedule_fair
  | SCHED_MLFQS => thread_schedule_mlfqs
  end.

(** [palloc_free_page (prev)]: the thread is gone. *)
Definition free_thread (t : Z) : K unit := modify (λ s, with_threads (delete t (threads s)) s).

Definition thread_switch_tail (prev : option Z) : K unit :=
  c ← running_thread;
  l ← intr_get_level; ASSERT (bool_decide (l = INTR_OFF));;
  upd_thread c (set_status THREAD_RUNNING);;
  modify (with_thread_ticks 0);;
  match prev with
  | None => mret ()
  | Some p =>
      th ← get_thread p;
      s ← get;
      if bool_decide (status th = THREAD_DYING) && negb (bool_decide (p = initial_thread s))
      then ASSERT (negb (bool_decide (p = c)));; free_thread p
      else mret ()
  end.

(** [switch_threads (cur, next)] changes the stack, hence the running
    thread. *)
Definition schedule : K unit :=
  c ← running_thread;
  next ← next_thread_to_run;
  l ← intr_get_level; ASSERT (bool_decide (l = INTR_OFF));;
  th ← get_thread c; ASSERT (negb (bool_decide (status th = THREAD_RUNNING)));;
  b ← is_thread next; ASSERT b;;
  match next with
  | None => PANIC
  | Some n =>
      if decide (c = n) then thread_switch_tail None
      else modify (with_cur n);; thread_switch_tail (Some c)
  end.

Definition thread_block : K unit :=
  c ← intr_context; ASSERT (negb c);;
  l ← intr_get_level; ASSERT (bool_decide (l = INTR_OFF));;
  t ← thread_current;
  upd_thread t (set_status THREAD_BLOCKED);;
  schedule.

(** [list_remove (&t->allelem)]. *)
Definition all_remove (t : Z) : K unit :=
  s ← get;
  if bool_decide (t ∈ all_list s) then put (with_all_list (filter (.≠ t) (all_list s)) s)
  else fail Undef.

Definition thread_zombie (t : Z) : K unit :=
  c ← intr_context; ASSERT (negb c);;
  l ← intr_get_level; ASSERT (bool_decide (l = INTR_OFF));;
  all_remove t;;
  upd_thread t (set_status THREAD_ZOMBIE);;
  schedule.

Definition thread_enqueue (t : Z) : K unit :=
  l ← intr_get_level; ASSERT (bool_decide (l = INTR_OFF));;
  b ← is_thread (Some t); ASSERT b;;
  upd_thread t (set_queue (Some Qready));;
  p ← gets active_sched_policy;
  match p with
  | SCHED_FIFO => elem_push_back Qready t
  | SCHED_PRIO => elem_insert_ordered thread_before Qready t
  | _ => PANIC
  end.

Definition thread_unblock (t : Z) : K unit :=
  b ← is_thread (Some t); ASSERT b;;
  old ← intr_disable;
  th ← get_thread t; ASSERT (bool_decide (status th = THREAD_BLOCKED));;
  thread_enqueue t;;
  upd_thread t (set_status THREAD_READY);;
  intr_set_level old;; mret ().

Definition thread_exit : K unit :=
  c ← intr_context; ASSERT (negb c);;
  intr_disable;;
  t ← thread_current;
  all_remove t;;
  upd_thread t (set_status THREAD_DYING);;
  schedule.

(** What follows [schedule] in [thread_yield] is the frame
    [F_set_level old_level]. *)
Definition thread_yield : K unit :=
  t ← thread_current;
  c ← intr_context; ASSERT (negb c);;
  old ← intr_disable;
  s ← get;
  (if bool_decide (idle_thread s = Some t) then mret () else thread_enqueue t);;
  upd_thread t (set_status THREAD_READY);;
  push_frames t [F_set_level old];;
  schedule.

Definition thread_get_priority : K Z :=
  old ← intr_disable;
  t ← thread_current; th ← get_thread t;
  intr_set_level old;; mret (e_pri th).

(** [b_pri] and [e_pri] are [int8_t]; the argument is not checked. *)
Definition thread_set_priority (new_priority : Z) : K unit :=
  t ← thread_current; th ← get_thread t;
  if decide (new_priority = b_pri th) then mret () else
  old ← intr_disable;
  th ← get_thread t;
  (if decide (e_pri th < new_priority) then upd_thread t (set_e_pri (i8 new_priority))
   else if decide (lock_queue th = []) then upd_thread t (set_e_pri (i8 new_priority))
   else mret ());;
  upd_thread t (set_b_pri (i8 new_priority));;
  intr_set_level old;;
  if bool_decide (¬ e_pri th < new_priority) && bool_decide (lock_queue th = [])
  then thread_yield else mret ().

(** *** Ticks *)

Definition thread_tick : K unit :=
  t ← thread_current; th ← get_thread t;
  s ← get;
  (if bool_decide (idle_thread s = Some t)
   then modify (λ s, with_stats (idle_ticks s + 1) (kernel_ticks s) (user_ticks s) s)
   else if bool_decide (pcb th ≠ None)
   then modify (λ s, with_stats (idle_ticks s) (kernel_ticks s) (user_ticks s + 1) s)
   else modify (λ s, with_stats (idle_ticks s) (kernel_ticks s + 1) (user_ticks s) s));;
  modify (λ s, with_thread_ticks (u32 (thread_ticks s + 1)) s);;
  s ← get;
  if decide (TIME_SLICE ≤ thread_ticks s) then intr_yield_on_return else mret ().

(** *** Creation *)

(** The page of a new thread is zeroed ([memset]).  [ks] is the initial
    contents of its kernel stack. *)
Definition init_thread (t priority : Z) (ks : list frame) : K unit :=
  ASSERT (bool_decide (PRI_MIN ≤ priority) && bool_decide (priority ≤ PRI_MAX));;
  modify (λ s, with_threads
    (<[t := Thread 0 THREAD_BLOCKED 0 None [] (i8 priority) (i8 priority) None None ks 0]>
       (threads s)) s);;
  old ← intr_disable;
  modify (λ s, with_all_list (all_list s ++ [t]) s);;
  intr_set_level old;; mret ().

(** [tid_lock] of thread.c. *)
Definition tid_lock : Z := 0.

(** The value a kernel call returns. *)
Definition return_value (v : Z) : K unit := t ← running_thread; upd_thread t (set_eax v).

(** [thread_create]: [page] is the result of [palloc_get_page]; what
    follows [allocate_tid]'s [lock_acquire] is left on the stack. *)
Definition thread_create (page : option Z) (priority : Z) (f : thread_func) : K unit :=
  match page with
  | None => return_value TID_ERROR
  | Some t =>
      init_thread t priority [F_kernel_thread f];;
      c ← running_thread;
      push_frames c [F_lock_acquire tid_lock; F_set_tid t priority]
  end.

(** [tid = next_tid++] of [allocate_tid], with the lock held. *)
Definition next_tid_value : K Z :=
  s ← get; modify (λ s, with_next_tid (i32 (next_tid s + 1)) s);; mret (next_tid s).

(** The rest of [allocate_tid], and [t->tid = tid] in [thread_create]. *)
Definition create_set_tid (t priority : Z) : K unit :=
  n ← next_tid_value;
  upd_thread t (set_tid n);;
  c ← running_thread; push_frames c [F_lock_release tid_lock; F_create_tail t priority n].

(** The end of [thread_create]. *)
Definition thread_create_tail (t priority n : Z) : K unit :=
  thread_unblock t;;
  c ← running_thread; push_frames c [F_create_check priority n].
Definition thread_create_check (priority n : Z) : K unit :=
  return_value n;;
  p ← thread_get_priority;
  if decide (p < priority) then thread_yield else mret ().

(** [kernel_thread]; a client returns from its function by [thread_exit]. *)
Definition kernel_thread (f : thread_func) : K unit :=
  intr_enable;;
  match f with
  | FnClient => mret ()
  | FnIdle idle_started =>
      t ← thread_current;
      modify (with_idle_thread (Some t));;
      push_frames t [F_sema_up (SemaFree idle_started); F_idle]
  end.

(** One round of the loop of [idle]. *)
Definition idle_loop : K unit :=
  t ← running_thread;
  intr_disable;;
  push_frames t [F_idle_hlt];;
  thread_block.
Definition idle_hlt : K unit :=
  modify (with_level INTR_ON);;
  t ← running_thread; push_frames t [F_idle].

End Thread.
