(* ===== verification/Synch.v ===== *)
(** * Synchronisation (threads/synch.c)

    Semaphores, locks with priority donation, condition variables and
    readers-writers locks on the scheduler's state. *)

From S2P Require Import Prelude KListSpec Kernel Thread.
Import Kernel Thread.

Module Synch.

(** ** Semaphores *)

Definition sema_init (r : sema_ref) (v : Z) : K unit := put_sema r (Semaphore v []).

(** The loop of [sema_down], with interrupts off: [again] is the frame that
    comes back to it when the thread wakes up, [rest] what follows. *)
Definition sema_down_loop (r : sema_ref) (again : frame) (rest : K unit) : K unit :=
  x ← get_sema r;
  if decide (value x = 0) then
    t ← thread_current;
    elem_insert_ordered thread_before (Qsema r) t;;
    upd_thread t (set_queue (Some (Qsema r)));;
    push_frames t [again];;
    thread_block
  else
    put_sema r (Semaphore (value x - 1) (waiters x));;
    rest.

(** [sema_down] from the loop on. *)
Definition sema_down_resume (r : sema_ref) (old : intr_level) : K unit :=
  sema_down_loop r (F_sema_down r old) (intr_set_level old;; mret ()).

Definition sema_down (r : sema_ref) : K unit :=
  c ← intr_context; ASSERT (negb c);;
  old ← intr_disable;
  sema_down_resume r old.

Definition sema_try_down (r : sema_ref) : K bool :=
  old ← intr_disable;
  x ← get_sema r;
  success ← (if decide (0 < value x)
             then put_sema r (Semaphore (value x - 1) (waiters x));; mret true
             else mret false);
  intr_set_level old;; mret success.

(** The test of a woken thread's priority, after which [sema_up] and
    [cond_signal] yield, runs with interrupts restored: it is a frame of
    its own. *)
Definition wake_check (t : Z) : K unit :=
  th ← get_thread t;
  p ← thread_get_priority;
  if decide (p < e_pri th) then thread_yield else mret ().

Definition push_wake_check (t : option Z) : K unit :=
  c ← intr_context;
  match t with
  | Some t => if (c : bool) then mret ()
              else me ← running_thread; push_frames me [F_wake_check t]
  | None => mret ()
  end.

Definition sema_up (r : sema_ref) : K unit :=
  old ← intr_disable;
  get_sema r;;
  t ← elem_pop_front (Qsema r);
  match t with Some t => thread_unblock t | None => mret () end;;
  x ← get_sema r;
  put_sema r (Semaphore (u32 (value x + 1)) (waiters x));;
  intr_set_level old;;
  push_wake_check t.

(** ** Locks *)

Definition lock_init (l : Z) : K unit :=
  put_lock l (Lock None 1 0);; sema_init (SemaLock l) 1.

Definition lock_held_by_current_thread (l : Z) : K bool :=
  k ← get_lock l; t ← thread_current; mret (bool_decide (holder k = Some t)).

(** [lock_before]; a lock with the same priority goes in front. *)
Definition lock_pri (s : kstate) (l : Z) : Z := from_option pri 0 (locks s !! l).
Definition lock_before (s : kstate) (a b : Z) : bool := bool_decide (lock_pri s b ≤ lock_pri s a).

(** The thread in whose [lock_queue] the lock's element is. *)
Definition lock_elem_in (s : kstate) (l : Z) : option Z :=
  (λ p : nat * (Z * thread), p.2.1) <$>
    list_find (λ p : Z * thread, l ∈ lock_queue p.2) (map_to_list (threads s)).

(** [list_remove (&lock->elem)]. *)
Definition lock_elem_remove (l : Z) : K unit :=
  s ← get;
  match lock_elem_in s l with
  | Some t => upd_thread t (λ th, set_lock_queue (filter (.≠ l) (lock_queue th)) th)
  | None => fail Undef
  end.

(** [list_insert_ordered (&t->lock_queue, &lock->elem, &lock_before, NULL)]. *)
Definition lock_elem_insert (t l : Z) : K unit :=
  s ← get;
  if decide (lock_elem_in s l = None)
  then upd_thread t (λ th, set_lock_queue
         (KListSpec.insert_ordered (lock_before s) l (lock_queue th)) th)
  else fail Undef.

(** The loop of [donate_pri_acquire]; its bound is the number of threads,
    since each round raises the priority of another thread. *)
Fixpoint donate_loop (fuel : nat) (l : Z) (donor : Z) (donee : option Z) : K unit :=
  match fuel with
  | O => fail NoFuel
  | S fuel =>
      match donee with
      | None => PANIC
      | Some donee =>
          k ← get_lock l; dr ← get_thread donor;
          if decide (e_pri dr ≤ pri k) then mret () else
          put_lock l (Lock (holder k) (state k) (e_pri dr));;
          lock_elem_remove l;;
          lock_elem_insert donee l;;
          de ← get_thread donee;
          if decide (e_pri dr ≤ e_pri de) then mret () else
          upd_thread donee (set_e_pri (e_pri dr));;
          match queue de with
          | Some q => elem_remove donee;; elem_insert_ordered thread_before q donee
          | None => mret ()
          end;;
          match donated_for de with
          | None => mret ()
          | Some l' => k' ← get_lock l'; donate_loop fuel l' donee (holder k')
          end
      end
  end.

Definition donate_pri_acquire (self l : Z) : K unit :=
  k ← get_lock l;
  s ← get; donate_loop (S (size (threads s))) l self (holder k).

(** [lock_acquire] after its [sema_down]. *)
Definition lock_acquire_tail (l : Z) (old : intr_level) : K unit :=
  t ← running_thread;
  k ← get_lock l; th ← get_thread t;
  put_lock l (Lock (Some t) (state k) (e_pri th));;
  upd_thread t (set_donated_for None);;
  lock_elem_insert t l;;
  intr_set_level old;; mret ().

Definition lock_wait (l : Z) (old : intr_level) : K unit :=
  sema_down_loop (SemaLock l) (F_lock_wait l old) (lock_acquire_tail l old).

Definition lock_acquire (l : Z) : K unit :=
  c ← intr_context; ASSERT (negb c);;
  h ← lock_held_by_current_thread l; ASSERT (negb h);;
  t ← thread_current;
  old ← intr_disable;
  k ← get_lock l;
  put_lock l (Lock (holder k) (i8 (state k - 1)) (pri k));;
  upd_thread t (set_donated_for (Some l));;
  (if bool_decide (i8 (state k - 1) < 0) && negb (bool_decide (holder k = None))
   then donate_pri_acquire t l else mret ());;
  lock_wait l old.

Definition lock_try_acquire (l : Z) : K bool :=
  h ← lock_held_by_current_thread l; ASSERT (negb h);;
  t ← thread_current;
  old ← intr_disable;
  success ← sema_try_down (SemaLock l);
  (if (success : bool) then
     k ← get_lock l; th ← get_thread t;
     put_lock l (Lock (Some t) (i8 (state k - 1)) (e_pri th));;
     lock_elem_insert t l
   else mret ());;
  intr_set_level old;; mret success.

(** [lock_release] up to its call of [sema_up]. *)
Definition lock_release (l : Z) : K unit :=
  h ← lock_held_by_current_thread l; ASSERT h;;
  t ← thread_current;
  old ← intr_disable;
  k ← get_lock l;
  put_lock l (Lock None (state k) 0);;
  lock_elem_remove l;;
  th ← get_thread t;
  s ← get;
  upd_thread t (set_e_pri (match lock_queue th with [] => b_pri th | l' :: _ => lock_pri s l' end));;
  k ← get_lock l;
  put_lock l (Lock (holder k) (i8 (state k + 1)) (pri k));;
  intr_set_level old;;
  push_frames t [F_sema_up (SemaLock l)].

(** ** Condition variables *)

Definition cond_init (c : Z) : K unit := modify (λ s, with_conds (<[c := []]> (conds s)) s).

(** The element enters [cond->waiters] before the lock is released and
    before the thread blocks. *)
Definition cond_wait (c l : Z) : K unit :=
  x ← intr_context; ASSERT (negb x);;
  h ← lock_held_by_current_thread l; ASSERT h;;
  t ← thread_current;
  elem_insert_ordered thread_before (Qcond c) t;;
  push_frames t [F_lock_release l; F_cond_block c; F_lock_acquire l].

Definition cond_block (c : Z) : K unit :=
  old ← intr_disable;
  t ← thread_current;
  upd_thread t (set_queue (Some (Qcond c)));;
  push_frames t [F_set_level old];;
  thread_block.

(** [list_sort] of the waiters: stable, by descending priority. *)
Definition sort_by (less : Z → Z → bool) (ts : list Z) : list Z :=
  foldl (λ acc t, KListSpec.insert_ordered less t acc) [] ts.

Definition cond_signal (c l : Z) : K unit :=
  x ← intr_context; ASSERT (negb x);;
  h ← lock_held_by_current_thread l; ASSERT h;;
  s ← get;
  if decide (qlist s (Qcond c) = []) then mret () else
  put (with_qlist (Qcond c) (sort_by (thread_before s) (qlist s (Qcond c))) s);;
  t ← elem_pop_front (Qcond c);
  match t with
  | Some t => upd_thread t (set_queue None);; thread_unblock t
  | None => mret ()
  end;;
  push_wake_check t.

(** The loop of [cond_broadcast] over at most [n] waiters. *)
Fixpoint cond_broadcast_loop (n : nat) (c : Z) (flag : bool) : K bool :=
  t ← elem_pop_front (Qcond c);
  match t, n with
  | None, _ => mret flag
  | Some _, O => fail NoFuel
  | Some t, S n =>
      upd_thread t (set_queue None);;
      thread_unblock t;;
      th ← get_thread t; p ← thread_get_priority;
      cond_broadcast_loop n c (flag || bool_decide (p < e_pri th))
  end.

Definition cond_broadcast (c l : Z) : K unit :=
  s ← get;
  flag ← cond_broadcast_loop (length (qlist s (Qcond c))) c false;
  if (flag : bool) then thread_yield else mret ().

(** ** Readers-writers locks *)

Definition rw_lock_init (w guard rd wr : Z) : K unit :=
  lock_init guard;; cond_init rd;; cond_init wr;;
  put_rw w (RwLock guard rd wr 0 0 0 0).

Definition rw_lock_acquire (w : Z) (reader : bool) : K unit :=
  x ← get_rw w; t ← running_thread;
  push_frames t [F_lock_acquire (rw_guard x); F_rw_enter w reader].

(** The test of the loop, with the guard held. *)
Definition rw_enter (w : Z) (reader : bool) : K unit :=
  x ← get_rw w; t ← running_thread;
  if reader then
    if decide (0 < i32 (AW x + WW x)) then
      put_rw w (RwLock (rw_guard x) (rw_read x) (rw_write x) (AR x) (i32 (WR x + 1)) (AW x) (WW x));;
      push_frames t [F_rw_wait w reader];;
      cond_wait (rw_read x) (rw_guard x)
    else
      put_rw w (RwLock (rw_guard x) (rw_read x) (rw_write x) (i32 (AR x + 1)) (WR x) (AW x) (WW x));;
      push_frames t [F_lock_release (rw_guard x)]
  else
    if decide (0 < i32 (AR x + AW x)) then
      put_rw w (RwLock (rw_guard x) (rw_read x) (rw_write x) (AR x) (WR x) (AW x) (i32 (WW x + 1)));;
      push_frames t [F_rw_wait w reader];;
      cond_wait (rw_write x) (rw_guard x)
    else
      put_rw w (RwLock (rw_guard x) (rw_read x) (rw_write x) (AR x) (WR x) (i32 (AW x + 1)) (WW x));;
      push_frames t [F_lock_release (rw_guard x)].

(** Back from [cond_wait]. *)
Definition rw_wait (w : Z) (reader : bool) : K unit :=
  x ← get_rw w; t ← running_thread;
  put_rw w (if reader
    then RwLock (rw_guard x) (rw_read x) (rw_write x) (AR x) (i32 (WR x - 1)) (AW x) (WW x)
    else RwLock (rw_guard x) (rw_read x) (rw_write x) (AR x) (WR x) (AW x) (i32 (WW x - 1)));;
  push_frames t [F_rw_enter w reader].

Definition rw_lock_release (w : Z) (reader : bool) : K unit :=
  x ← get_rw w; t ← running_thread;
  push_frames t [F_lock_acquire (rw_guard x); F_rw_leave w reader].

Definition rw_leave (w : Z) (reader : bool) : K unit :=
  x ← get_rw w; t ← running_thread;
  if reader then
    let ar := i32 (AR x - 1) in
    put_rw w (RwLock (rw_guard x) (rw_read x) (rw_write x) ar (WR x) (AW x) (WW x));;
    push_frames t
      ((if bool_decide (ar = 0) && bool_decide (0 < WW x)
        then [F_cond_signal (rw_write x) (rw_guard x)] else []) ++
       [F_lock_release (rw_guard x)])
  else
    put_rw w (RwLock (rw_guard x) (rw_read x) (rw_write x) (AR x) (WR x) (i32 (AW x - 1)) (WW x));;
    push_frames t
      ((if bool_decide (0 < WW x) then [F_cond_signal (rw_write x) (rw_guard x)]
        else if bool_decide (0 < WR x) then [F_cond_broadcast (rw_read x) (rw_guard x)] else []) ++
       [F_lock_release (rw_guard x)]).

(** ** thread.c: start-up, which uses locks and semaphores *)

(** [thread_init]; what follows [allocate_tid]'s [lock_acquire] is left on
    the stack. *)
Definition thread_init : K unit :=
  l ← intr_get_level; ASSERT (bool_decide (l = INTR_OFF));;
  lock_init tid_lock;;
  modify (λ s, with_all_list [] (with_ready_list [] s));;
  t ← running_thread;
  modify (with_initial_thread t);;
  init_thread t PRI_DEFAULT [];;
  upd_thread t (set_status THREAD_RUNNING);;
  push_frames t [F_lock_acquire tid_lock; F_init_tid t].

Definition init_set_tid (t : Z) : K unit :=
  n ← next_tid_value;
  upd_thread t (set_tid n);;
  push_frames t [F_lock_release tid_lock].

(** [thread_start]: [sema] is the address of [idle_started]. *)
Definition thread_start (sema : Z) (page : option Z) : K unit :=
  sema_init (SemaFree sema) 0;;
  t ← running_thread;
  push_frames t [F_start_tail sema];;
  thread_create page PRI_MIN (FnIdle sema).

Definition start_tail (sema : Z) : K unit :=
  intr_enable;; sema_down (SemaFree sema).

End Synch.
