(* ===== verification/Timer.v ===== *)
(** * The timer (devices/timer.c) and the interrupt path (threads/interrupt.c) *)

From S2P Require Import Prelude KListSpec Kernel Thread Synch.
Import Kernel Thread Synch.

Module Timer.

Definition TIMER_FREQ : Z := 100.

Definition timer_init : K unit := modify (with_sleep_list []).

Definition timer_ticks : K Z :=
  old ← intr_disable; t ← gets ticks; intr_set_level old;; mret t.

Definition timer_elapsed (then_ : Z) : K Z := t ← timer_ticks; mret (i64 (t - then_)).

(** [less_sleep], through [wake_up_before]: a thread that wakes up at the
    same time goes in front. *)
Definition wake_up_of (s : kstate) (t : Z) : Z := from_option wake_up 0 (threads s !! t).
Definition wake_up_before (s : kstate) (a b : Z) : bool :=
  bool_decide (wake_up_of s a ≤ wake_up_of s b).

(** Until it disables them, [timer_sleep] runs with interrupts on: the clock
    may go on between the two parts. *)
Definition timer_sleep (n : Z) : K unit :=
  start ← timer_ticks;
  l ← intr_get_level; ASSERT (bool_decide (l = INTR_ON));;
  t ← thread_current;
  upd_thread t (set_wake_up (i64 (start + n)));;
  push_frames t [F_sleep].
Definition sleep_block : K unit :=
  t ← running_thread;
  old ← intr_disable;
  elem_insert_ordered wake_up_before Qsleep t;;
  upd_thread t (set_queue (Some Qsleep));;
  push_frames t [F_set_level old];;
  thread_block.

(** A delay of less than a tick is a busy-wait loop, which leaves the state
    alone. *)
Definition real_time_sleep (num denom : Z) : K unit :=
  let n := Z.quot (i64 (num * TIMER_FREQ)) denom in
  l ← intr_get_level; ASSERT (bool_decide (l = INTR_ON));;
  if decide (0 < n) then timer_sleep n else ASSERT (bool_decide (Z.rem denom 1000 = 0)).

Definition timer_msleep (ms : Z) : K unit := real_time_sleep ms 1000.
Definition timer_usleep (us : Z) : K unit := real_time_sleep us 1000000.
Definition timer_nsleep (ns : Z) : K unit := real_time_sleep ns 1000000000.

(** The loop of [timer_interrupt] that wakes up the sleepers whose time has
    come, over at most [n] of them. *)
Fixpoint wake_loop (n : nat) : K unit :=
  s ← get;
  match timer_sleep_list s, n with
  | [], _ => mret ()
  | _ :: _, O => fail NoFuel
  | t :: _, S n =>
      th ← get_thread t;
      now ← timer_ticks;
      if decide (wake_up th ≤ now) then
        elem_pop_front Qsleep;; thread_unblock t;; wake_loop n
      else mret ()
  end.

Definition timer_interrupt : K unit :=
  modify (λ s, with_ticks (i64 (ticks s + 1)) s);;
  s ← get; wake_loop (length (timer_sleep_list s));;
  thread_tick.

(** [intr_handler] for the timer's interrupt.  The CPU clears the interrupt
    flag; the return from the interrupt sets it again. *)
Definition intr_handler_timer : K unit :=
  modify (with_level INTR_OFF);;
  c ← intr_context; ASSERT (negb c);;
  modify (with_in_external_intr true);; modify (with_yield_on_return false);;
  timer_interrupt;;
  l ← intr_get_level; ASSERT (bool_decide (l = INTR_OFF));;
  c ← intr_context; ASSERT c;;
  modify (with_in_external_intr false);;
  t ← running_thread; push_frames t [F_iret];;
  y ← gets yield_on_return;
  if (y : bool) then thread_yield else mret ().

Definition iret : K unit := modify (with_level INTR_ON).

End Timer.
