(* ===== verification/Machine.v ===== *)
(** * The kernel as a transition system

    The running thread continues with the work on its kernel stack, or, in
    its own code, calls the kernel; a timer interrupt may arrive whenever
    interrupts are on.  Code between two frames runs without interruption:
    most of it does so with interrupts off; where it runs with interrupts
    on (insertion into a condition's list, the loop of [cond_broadcast])
    the model is coarser than the machine. *)

From S2P Require Import Prelude Kernel Thread Synch Timer.
Import Kernel Thread Synch Timer.

Module Machine.

(** Running what is on the stack. *)
Definition exec_frame (f : frame) : K unit :=
  match f with
  | F_set_level old => intr_set_level old;; mret ()
  | F_iret => iret
  | F_sema_down r old => sema_down_resume r old
  | F_lock_wait l old => lock_wait l old
  | F_sema_up r => sema_up r
  | F_wake_check t => wake_check t
  | F_lock_acquire l => lock_acquire l
  | F_lock_release l => lock_release l
  | F_cond_block c => cond_block c
  | F_sleep => sleep_block
  | F_rw_wait w reader => rw_wait w reader
  | F_rw_enter w reader => rw_enter w reader
  | F_rw_leave w reader => rw_leave w reader
  | F_cond_signal c l => cond_signal c l
  | F_cond_broadcast c l => cond_broadcast c l
  | F_set_tid t pri => create_set_tid t pri
  | F_create_tail t pri n => thread_create_tail t pri n
  | F_create_check pri n => thread_create_check pri n
  | F_init_tid t => init_set_tid t
  | F_start_tail sema => start_tail sema
  | F_kernel_thread f => kernel_thread f
  | F_idle => idle_loop
  | F_idle_hlt => idle_hlt
  end.

(** The calls a thread can make. *)
Inductive call :=
| SemaDown (s : Z) | SemaTryDown (s : Z) | SemaUp (s : Z)
| LockAcquire (l : Z) | LockTryAcquire (l : Z) | LockRelease (l : Z)
| CondWait (c l : Z) | CondSignal (c l : Z) | CondBroadcast (c l : Z)
| RwAcquire (w : Z) (reader : bool) | RwRelease (w : Z) (reader : bool)
| SemaInit (s v : Z) | LockInit (l : Z) | CondInit (c : Z) | RwInit (w guard rd wr : Z)
| Sleep (n : Z) | Yield | SetPriority (p : Z)
| Create (page : option Z) (p : Z) | Exit.

Definition exec_call (c : call) : K unit :=
  match c with
  | SemaDown s => sema_down (SemaFree s)
  | SemaTryDown s => b ← sema_try_down (SemaFree s); return_value (Z.b2z b)
  | SemaUp s => sema_up (SemaFree s)
  | LockAcquire l => lock_acquire l
  | LockTryAcquire l => b ← lock_try_acquire l; return_value (Z.b2z b)
  | LockRelease l => lock_release l
  | CondWait c l => cond_wait c l
  | CondSignal c l => cond_signal c l
  | CondBroadcast c l => cond_broadcast c l
  | RwAcquire w r => rw_lock_acquire w r
  | RwRelease w r => rw_lock_release w r
  | SemaInit s v => sema_init (SemaFree s) v
  | LockInit l => lock_init l
  | CondInit c => cond_init c
  | RwInit w guard rd wr => rw_lock_init w guard rd wr
  | Sleep n => timer_sleep n
  | Yield => thread_yield
  | SetPriority p => thread_set_priority p
  | Create page p => thread_create page p FnClient
  | Exit => thread_exit
  end.

Inductive event := EvRun | EvCall (c : call) | EvTick.

(** The frame on top of the running thread's stack. *)
Definition pop_frame : K (option frame) :=
  t ← running_thread; th ← get_thread t;
  match kstack th with
  | [] => mret None
  | f :: fs => upd_thread t (set_kstack fs);; mret (Some f)
  end.

Definition stack_of (s : kstate) (t : Z) : list frame := from_option kstack [] (threads s !! t).

(** When an event can occur. *)
Definition enabled (e : event) (s : kstate) : bool :=
  match e with
  | EvRun => negb (bool_decide (length (stack_of s (cur s)) = 0%nat))
  | EvCall _ => bool_decide (length (stack_of s (cur s)) = 0%nat)
  | EvTick => bool_decide (level s = INTR_ON)
  end.

Definition exec_event (e : event) : K unit :=
  match e with
  | EvRun => f ← pop_frame; match f with Some f => exec_frame f | None => mret () end
  | EvCall c => exec_call c
  | EvTick => intr_handler_timer
  end.

(** A run along a list of events. *)
Fixpoint run (es : list event) : K unit :=
  match es with
  | [] => mret ()
  | e :: es => exec_event e;; run es
  end.

(** The running thread continues until its stack is empty. *)
Fixpoint settle (n : nat) : K unit :=
  match n with
  | O => mret ()
  | S n => s ← get;
           if enabled EvRun s then exec_event EvRun;; settle n else mret ()
  end.

(** ** Start-up *)

(** The state in which [main] of init.c starts, on the page [t]. *)
Definition reset_state (t : Z) (policy : sched_policy) : kstate :=
  KState ∅ ∅ ∅ ∅ ∅ [] [] [] None 0 t INTR_OFF false false 0 0 0 0 0 1 policy.

(** [main]'s calls [thread_init], [timer_init] and [thread_start], the last
    with the page of the idle thread and the address of [idle_started]. *)
Definition boot (idle_page idle_started : Z) : K unit :=
  thread_init;; settle 20;;
  timer_init;;
  thread_start idle_started (Some idle_page);; settle 40.

End Machine.
