(* ===== verification/SchedInv.v ===== *)
(** * The invariant of the scheduler

    [wf] says that the queues of threads, the states of the threads, the
    owners of the locks and the kernel stacks fit together.  It holds of
    every state reached with semaphores, locks, sleeping, creation and exit
    of threads ([Machine]); condition variables are left out, because
    [cond_wait] breaks it (see [SchedProps]). *)

From S2P Require Import Prelude KList KListSpec KListSort KListRefine Kernel Thread Synch Timer Machine.
Import Kernel Thread Synch Timer Machine.

Module SchedInv.

(** ** Frames *)

(** The thread whose creation a frame continues. *)
Definition creates (f : frame) : option Z :=
  match f with F_set_tid t _ | F_create_tail t _ _ => Some t | _ => None end.

(** The lock whose release a frame completes. *)
Definition releases (f : frame) : option Z :=
  match f with F_sema_up (SemaLock l) => Some l | _ => None end.

(** What the frames of all kernel stacks say. *)
Definition frames_of (g : frame → option Z) (ths : gmap Z thread) : list Z :=
  map_to_list ths ≫= λ p, omap g (kstack p.2).

(** The objects a frame of thread [t] names exist; only the idle thread
    runs [idle]. *)
Definition frame_ok (s : kstate) (t : Z) (f : frame) : Prop :=
  match f with
  | F_set_level _ | F_iret | F_wake_check _ | F_create_check _ _ | F_sleep => True
  | F_idle | F_idle_hlt => idle_thread s = Some t
  | F_sema_down (SemaFree n) _ => is_Some (semas s !! SemaFree n)
  | F_sema_up r => is_Some (semas s !! r)
  | F_lock_wait l _ | F_lock_acquire l | F_lock_release l => is_Some (locks s !! l)
  | F_set_tid _ _ | F_create_tail _ _ _ => True
  | F_kernel_thread f => f = FnClient
  | _ => False
  end.

(** The stack of the idle thread: nothing on it takes a lock. *)
Definition lock_free (f : frame) : Prop :=
  match f with F_set_level _ | F_iret | F_wake_check _ => True | _ => False end.
Definition idle_stack (ks : list frame) : Prop :=
  ∃ fs f, ks = fs ++ [f] ∧ Forall lock_free fs ∧ (f = F_idle ∨ f = F_idle_hlt).

(** Run with the interrupt flag at [lvl], the frames find the flag as they
    need it and leave it on. *)
Fixpoint resumes (lvl : intr_level) (ks : list frame) : Prop :=
  match ks with
  | [] => lvl = INTR_ON
  | F_set_level o :: ks => resumes o ks
  | F_iret :: ks | F_kernel_thread _ :: ks => resumes INTR_ON ks
  | F_sema_down _ o :: ks | F_lock_wait _ o :: ks => lvl = INTR_OFF ∧ resumes o ks
  | F_idle :: ks | F_idle_hlt :: ks => True
  | _ :: ks => resumes lvl ks
  end.

(** ** Threads *)

(** Where a thread is, by its status. *)
Definition thread_ok (s : kstate) (t : Z) (th : thread) : Prop :=
  match status th with
  | THREAD_RUNNING => t = cur s
  | THREAD_READY => t ∈ ready_list s ∨ idle_thread s = Some t
  | THREAD_BLOCKED => (∃ q, queue th = Some q ∧ t ∈ qlist s q) ∨ lock_queue th = []
  | THREAD_DYING | THREAD_ZOMBIE => lock_queue th = [] ∧ kstack th = []
  end.

Definition queue_status (q : queue_ref) : thread_status :=
  match q with Qready => THREAD_READY | _ => THREAD_BLOCKED end.

Definition alive (th : thread) : Prop := status th ≠ THREAD_DYING ∧ status th ≠ THREAD_ZOMBIE.

(** A thread whose creation is not complete. *)
Definition nascent (s : kstate) (t : Z) : Prop :=
  ∃ th, threads s !! t = Some th ∧ status th = THREAD_BLOCKED ∧ queue th = None.

(** Higher priorities first. *)
Definition pri_order (s : kstate) (a b : Z) : Prop := pri_of s b ≤ pri_of s a.
Definition in_order (s : kstate) (q : queue_ref) : Prop :=
  match q with
  | Qready => active_sched_policy s = SCHED_PRIO → Sorted (pri_order s) (ready_list s)
  | Qsema r => Sorted (pri_order s) (qlist s q)
  | _ => True
  end.

(** ** Locks *)

(** A lock's semaphore is binary; while it is 1, or a thread holds the
    lock, nobody is about to raise it. *)
Definition lock_ok (s : kstate) (l : Z) (k : lock) : Prop :=
  ∃ x, semas s !! SemaLock l = Some x ∧ (value x = 0 ∨ value x = 1) ∧
       (value x = 1 → holder k = None ∧ l ∉ frames_of releases (threads s)) ∧
       (holder k ≠ None → l ∉ frames_of releases (threads s)).

Record wf (s : kstate) : Prop := {
  wf_nodup q : NoDup (qlist s q);
  wf_listed q t : t ∈ qlist s q →
    ∃ th, threads s !! t = Some th ∧ queue th = Some q ∧ status th = queue_status q;
  wf_conds c : qlist s (Qcond c) = [];
  wf_order q : in_order s q;
  wf_thread t th : threads s !! t = Some th → thread_ok s t th;
  wf_cur : is_Some (threads s !! cur s);
  wf_holds t th l : threads s !! t = Some th →
    l ∈ lock_queue th → ∃ k, locks s !! l = Some k ∧ holder k = Some t;
  wf_held l k t : locks s !! l = Some k → holder k = Some t →
    ∃ th, threads s !! t = Some th ∧ l ∈ lock_queue th;
  wf_lockq t th : threads s !! t = Some th → NoDup (lock_queue th);
  wf_lock l k : locks s !! l = Some k → lock_ok s l k;
  wf_releases : NoDup (frames_of releases (threads s)) ∧
    (∀ l, l ∈ frames_of releases (threads s) → is_Some (locks s !! l));
  wf_donated t th l : threads s !! t = Some th → donated_for th = Some l → is_Some (locks s !! l);
  wf_frames t th : threads s !! t = Some th → Forall (frame_ok s t) (kstack th);
  wf_resumes t th : threads s !! t = Some th → alive th → t ≠ cur s →
    resumes INTR_OFF (kstack th);
  wf_creates : NoDup (frames_of creates (threads s)) ∧
    (∀ t, t ∈ frames_of creates (threads s) → nascent s t);
  wf_idle : ∃ i th, idle_thread s = Some i ∧ threads s !! i = Some th ∧ lock_queue th = [] ∧
    (i ≠ cur s → idle_stack (kstack th)) ∧ alive th ∧ queue th ≠ None ∧ ∀ q, i ∉ qlist s q;
  wf_all : NoDup (all_list s) ∧
    (∀ t, t ∈ all_list s ↔ ∃ th, threads s !! t = Some th ∧ alive th);
  wf_policy : active_sched_policy s = SCHED_FIFO ∨ active_sched_policy s = SCHED_PRIO;
  wf_tid_lock : is_Some (locks s !! tid_lock);
}.

(** The running thread has status [THREAD_RUNNING]. *)
Definition running (s : kstate) : Prop :=
  ∃ th, threads s !! cur s = Some th ∧ status th = THREAD_RUNNING.

(** Between two events, moreover, no interrupt is being handled, and the
    running thread's stack goes with the interrupt flag. *)
Definition kernel_ok (s : kstate) : Prop :=
  wf s ∧ running s ∧ in_external_intr s = false ∧ resumes (level s) (stack_of s (cur s)) ∧
  (idle_thread s = Some (cur s) → idle_stack (stack_of s (cur s))).

(** ** Frames of all stacks, under updates of the map of threads *)

Lemma frames_of_insert g ths t th :
  ∃ rest, (∀ th', frames_of g (<[t := th']> ths) ≡ₚ omap g (kstack th') ++ rest) ∧
          (ths !! t = Some th → frames_of g ths ≡ₚ omap g (kstack th) ++ rest) ∧
          (ths !! t = None → frames_of g ths = frames_of g ths ∧ frames_of g ths ≡ₚ rest) ∧
          frames_of g (delete t ths) ≡ₚ rest.
Proof.
  exists (frames_of g (delete t ths)).
  assert (∀ th', frames_of g (<[t:=th']> ths) ≡ₚ omap g (kstack th') ++ frames_of g (delete t ths)) as H.
  { intros th'. unfold frames_of. rewrite <- insert_delete_eq.
    rewrite map_to_list_insert by (by rewrite lookup_delete_eq). done. }
  split_and!; [done| | |done].
  - intros Ht. by rewrite <- (insert_id ths t th) at 1.
  - intros Ht. by rewrite delete_id.
Qed.

Lemma frames_of_same g ths t th th' :
  ths !! t = Some th → omap g (kstack th') = omap g (kstack th) →
  frames_of g (<[t := th']> ths) ≡ₚ frames_of g ths.
Proof.
  intros Ht E. destruct (frames_of_insert g ths t th) as (rest & H1 & H2 & _).
  rewrite H1, H2 by done. by rewrite E.
Qed.

Lemma elem_of_frames_of g ths x :
  x ∈ frames_of g ths ↔ ∃ t th, ths !! t = Some th ∧ x ∈ omap g (kstack th).
Proof.
  unfold frames_of. rewrite list_elem_of_bind. split.
  - intros ([t th] & Hx & Hin). apply elem_of_map_to_list in Hin. eauto.
  - intros (t & th & Ht & Hx). exists (t, th). by rewrite elem_of_map_to_list.
Qed.

(** ** Queues *)

Lemma qlist_exists s q t : t ∈ qlist s q → q ∈ all_queues s.
Proof.
  unfold all_queues. destruct q as [| |r|c]; cbn; intros Hin; rewrite !elem_of_cons; [auto..| |]; do 2 right;
    apply elem_of_app; [left|right]; apply list_elem_of_fmap.
  - destruct (semas s !! r) eqn:E; cbn in Hin; [|by apply not_elem_of_nil in Hin].
    exists r. split; [done|]. apply list_elem_of_fmap. exists (r, s0). by rewrite elem_of_map_to_list.
  - destruct (conds s !! c) eqn:E; cbn in Hin; [|by apply not_elem_of_nil in Hin].
    exists c. split; [done|]. apply list_elem_of_fmap. exists (c, l). by rewrite elem_of_map_to_list.
Qed.

Lemma elem_in_None s t : (∀ q, t ∉ qlist s q) → elem_in s t = None.
Proof.
  intros H. unfold elem_in. destruct (list_find _ _) as [[i q]|] eqn:E; [|done].
  apply list_find_Some in E as (_ & E & _). by apply H in E.
Qed.

Lemma elem_in_Some s t q :
  t ∈ qlist s q → (∀ q', t ∈ qlist s q' → q' = q) → elem_in s t = Some q.
Proof.
  intros Hin Hu. unfold elem_in. destruct (list_find _ _) as [[i q']|] eqn:E.
  - apply list_find_Some in E as (_ & E & _). cbn. f_equal. auto.
  - apply list_find_None in E. rewrite Forall_forall in E. destruct (E q); [|done].
    by eapply qlist_exists.
Qed.

Lemma wf_elem_in s t q : wf s → t ∈ qlist s q → elem_in s t = Some q.
Proof.
  intros Hwf Hin. apply elem_in_Some; [done|]. intros q' Hin'.
  destruct (wf_listed _ Hwf _ _ Hin) as (th & Ht & Hq & _).
  destruct (wf_listed _ Hwf _ _ Hin') as (th' & Ht' & Hq' & _). congruence.
Qed.

(** A running thread is in no queue. *)
Lemma wf_running_unlisted s t th q :
  wf s → threads s !! t = Some th → status th = THREAD_RUNNING → t ∉ qlist s q.
Proof.
  intros Hwf Ht Hs Hin. destruct (wf_listed _ Hwf _ _ Hin) as (th' & Ht' & _ & Hst).
  rewrite Ht in Ht'. simplify_eq. destruct q; cbn in *; congruence.
Qed.

Lemma sema_exists s r : is_Some (semas s !! r) → queue_exists s (Qsema r) = true.
Proof.
  intros [x Hx]. apply bool_decide_true. unfold all_queues. rewrite !elem_of_cons. do 2 right.
  apply elem_of_app. left. apply list_elem_of_fmap. exists r. split; [done|].
  apply list_elem_of_fmap. exists (r, x). by rewrite elem_of_map_to_list.
Qed.

Lemma ready_exists s : queue_exists s Qready = true.
Proof. apply bool_decide_true. left. Qed.
Lemma sleep_exists s : queue_exists s Qsleep = true.
Proof. apply bool_decide_true. right. left. Qed.

(** The priority order is a strict weak order, so ordered insertion keeps
    a queue in order. *)
#[global] Instance thread_before_order s : KListSort.LessOrder (thread_before s).
Proof. unfold thread_before. split; intros; repeat case_bool_decide; try done; lia. Qed.

Lemma leq_pri_order s a b : KListSort.leq (thread_before s) a b ↔ pri_order s a b.
Proof. unfold KListSort.leq, thread_before, pri_order. rewrite bool_decide_eq_false. lia. Qed.

Lemma insert_in_order s t xs :
  Sorted (pri_order s) xs →
  Sorted (pri_order s) (KListSpec.insert_ordered (thread_before s) t xs).
Proof.
  intros H. eapply Sorted_mono; [intros a b _ _; apply leq_pri_order|].
  apply KListRefine.insert_ordered_sorted; [apply _|].
  eapply Sorted_mono; [intros a b _ _; apply leq_pri_order|done].
Qed.

(** ** A thread changes, or moves between queues *)

(** What does not change when one thread moves. *)
Record same_rest (s s' : kstate) : Prop := {
  same_locks : locks s' = locks s;
  same_idle : idle_thread s' = idle_thread s;
  same_all : all_list s' = all_list s;
  same_policy : active_sched_policy s' = active_sched_policy s;
  same_cur : cur s' = cur s;
  same_values r x : semas s !! r = Some x → ∃ x', semas s' !! r = Some x' ∧ value x' = value x;
}.

(** The new state of a thread's stack and its pending work. *)
Record stack_ok (s : kstate) (t : Z) (th th' : thread) : Prop := {
  stack_frames : Forall (frame_ok s t) (kstack th');
  stack_creates : omap creates (kstack th') ⊆+ omap creates (kstack th);
  stack_releases : omap releases (kstack th') ⊆+ omap releases (kstack th);
  stack_idle : idle_thread s = Some t → t ≠ cur s → idle_stack (kstack th');
  stack_resumes : alive th' → t ≠ cur s → resumes INTR_OFF (kstack th');
}.

Lemma frame_ok_mono s s' t f :
  (∀ r, is_Some (semas s !! r) → is_Some (semas s' !! r)) →
  (∀ l, is_Some (locks s !! l) → is_Some (locks s' !! l)) →
  idle_thread s' = idle_thread s → frame_ok s t f → frame_ok s' t f.
Proof.
  intros Hs Hl Hi. destruct f; cbn; rewrite ?Hi; auto.
  match goal with |- context [match ?r with _ => _ end] => destruct r; auto end.
Qed.

Lemma frame_ok_same s s' t f : same_rest s s' → frame_ok s t f → frame_ok s' t f.
Proof.
  intros [El Ei _ _ _ Hv]. apply frame_ok_mono; [|by rewrite El|done].
  intros r [x Hx]. destruct (Hv r x Hx) as (x' & ? & _). eauto.
Qed.

Lemma frames_of_submseteq g ths t th th' :
  ths !! t = Some th → omap g (kstack th') ⊆+ omap g (kstack th) →
  frames_of g (<[t := th']> ths) ⊆+ frames_of g ths.
Proof.
  intros Ht Hs. destruct (frames_of_insert g ths t th) as (rest & H1 & H2 & _).
  rewrite H1, H2 by done. by apply submseteq_skips_r.
Qed.

Lemma NoDup_submseteq (xs ys : list Z) : xs ⊆+ ys → NoDup ys → NoDup xs.
Proof.
  intros (zs & Hp)%submseteq_Permutation. rewrite Hp. by intros (? & _ & _)%NoDup_app.
Qed.

Lemma wf_move s s' t th th' :
  wf s → threads s !! t = Some th → threads s' = <[t := th']> (threads s) → same_rest s s' →
  (∀ q u, u ≠ t → u ∈ qlist s' q ↔ u ∈ qlist s q) →
  (∀ q, NoDup (qlist s' q)) → (∀ q, in_order s' q) →
  (∀ q, t ∈ qlist s' q → queue th' = Some q ∧ status th' = queue_status q ∧ ∀ c, q ≠ Qcond c) →
  thread_ok s' t th' → lock_queue th' ≡ₚ lock_queue th → alive th' → alive th →
  (∀ l, donated_for th' = Some l → is_Some (locks s !! l)) →
  stack_ok s t th th' →
  (t ∈ frames_of creates (threads s') → status th' = THREAD_BLOCKED ∧ queue th' = None) →
  (idle_thread s = Some t → queue th' ≠ None ∧ ∀ q, t ∉ qlist s' q) →
  wf s'.
Proof.
  intros Hwf Ht Eth Hsame Hmem Hnd Hord Hlist Hok Hlq Hal' Hal Hdon Hst Hnas Hidle.
  pose proof Hsame as [El Ei Ea Ep Ec Hv]. destruct Hst as [Hfr Hcr Hre Hid Hres].
  assert (∀ u, u ≠ t → threads s' !! u = threads s !! u) as Hu
    by (intros u Hu; by rewrite Eth, lookup_insert_ne).
  assert (threads s' !! t = Some th') as Ht' by (by rewrite Eth, lookup_insert_eq).
  assert (frames_of creates (threads s') ⊆+ frames_of creates (threads s)) as Hc
    by (rewrite Eth; by eapply frames_of_submseteq).
  assert (frames_of releases (threads s') ⊆+ frames_of releases (threads s)) as Hr
    by (rewrite Eth; by eapply frames_of_submseteq).
  split.
  - done.
  - intros q u Hin. destruct (decide (u = t)) as [->|Hne].
    + destruct (Hlist q Hin) as (? & ? & _). eauto.
    + rewrite Hu by done. apply (wf_listed _ Hwf). by apply Hmem.
  - intros c. apply list_nil_of. intros u Hin. destruct (decide (u = t)) as [->|Hne].
    + destruct (Hlist _ Hin) as (_ & _ & H). by apply (H c).
    + apply Hmem in Hin; [|done]. rewrite (wf_conds _ Hwf) in Hin. by apply not_elem_of_nil in Hin.
  - done.
  - intros u thu Hthu. destruct (decide (u = t)) as [->|Hne]; [by simplify_eq|].
    rewrite Hu in Hthu by done. pose proof (wf_thread _ Hwf _ _ Hthu) as H.
    unfold thread_ok in *. rewrite Ec, Ei. destruct (status thu); try done.
    + destruct H as [H|H]; [left|by right]. by apply (Hmem Qready).
    + destruct H as [(q & Hq & H)|H]; [left|by right]. exists q. split; [done|]. by apply Hmem.
  - rewrite Ec, Eth. apply lookup_insert_is_Some'. right. apply (wf_cur _ Hwf).
  - intros u thu l Hthu Hl. rewrite El. destruct (decide (u = t)) as [->|Hne].
    + simplify_eq. rewrite Hlq in Hl. by eapply wf_holds.
    + rewrite Hu in Hthu by done. by eapply wf_holds.
  - intros l k u Hk Hh. rewrite El in Hk. destruct (wf_held _ Hwf _ _ _ Hk Hh) as (thu & Hthu & Hin).
    destruct (decide (u = t)) as [->|Hne].
    + exists th'. split; [done|]. rewrite Hlq. by simplify_eq.
    + exists thu. by rewrite Hu.
  - intros u thu Hthu. destruct (decide (u = t)) as [->|Hne].
    + simplify_eq. rewrite Hlq. by eapply wf_lockq.
    + rewrite Hu in Hthu by done. by eapply wf_lockq.
  - intros l k Hk. rewrite El in Hk. destruct (wf_lock _ Hwf _ _ Hk) as (x & Hx & Hv01 & H1 & H2).
    destruct (Hv _ _ Hx) as (x' & Hx' & Ev). exists x'. rewrite Ev. split_and!; [done..| |].
    + intros E. destruct (H1 E) as [? Hn]. split; [done|]. intros Hin. apply Hn.
      by eapply elem_of_submseteq.
    + intros E Hin. apply (H2 E). by eapply elem_of_submseteq.
  - rewrite El. destruct (wf_releases _ Hwf) as [H1 H2]. split.
    + by eapply NoDup_submseteq.
    + intros l Hl. apply H2. by eapply elem_of_submseteq.
  - intros u thu l Hthu Hd. rewrite El. destruct (decide (u = t)) as [->|Hne].
    + simplify_eq. auto.
    + rewrite Hu in Hthu by done. by eapply wf_donated.
  - intros u thu Hthu. destruct (decide (u = t)) as [->|Hne].
    + simplify_eq. eapply Forall_impl; [exact Hfr|]. intros f. by apply frame_ok_same.
    + rewrite Hu in Hthu by done. eapply Forall_impl; [by eapply wf_frames|].
      intros f. by apply frame_ok_same.
  - intros u thu Hthu Ha Hne'. rewrite Ec in Hne'. destruct (decide (u = t)) as [->|Hne].
    + simplify_eq. auto.
    + rewrite Hu in Hthu by done. by eapply wf_resumes.
  - destruct (wf_creates _ Hwf) as [H1 H2]. split; [by eapply NoDup_submseteq|].
    intros u Hin. destruct (decide (u = t)) as [->|Hne].
    + destruct (Hnas Hin). by exists th'.
    + destruct (H2 u) as (thu & ? & ?); [by eapply elem_of_submseteq|]. exists thu. by rewrite Hu.
  - destruct (wf_idle _ Hwf) as (i & thi & Hi & Hthi & Hl & Hs & Ha & Hq & Hnl). exists i. rewrite Ei.
    destruct (decide (i = t)) as [->|Hne].
    + exists th'. simplify_eq. destruct (Hidle Hi). rewrite Hl in Hlq. apply Permutation_nil_r in Hlq.
      rewrite Ec. split_and!; try done; auto.
    + exists thi. rewrite Hu, Ec by done. split_and!; try done. intros q. rewrite Hmem by done. apply Hnl.
  - rewrite Ea. destruct (wf_all _ Hwf) as [H1 H2]. split; [done|]. intros u. rewrite H2.
    destruct (decide (u = t)) as [->|Hne]; [|by rewrite Hu].
    rewrite Ht, Ht'. split; intros (? & ? & ?); simplify_eq; eauto.
  - rewrite Ep. apply (wf_policy _ Hwf).
  - rewrite El. apply (wf_tid_lock _ Hwf).
Qed.

(** *** Placing a thread in a queue *)

Lemma filter_ne_id (t : Z) (xs : list Z) : t ∉ xs → filter (.≠ t) xs = xs.
Proof.
  induction xs as [|x xs IH]; intros Hn; [done|]. apply not_elem_of_cons in Hn as [? Hn].
  rewrite filter_cons_True by congruence. by rewrite IH.
Qed.

Lemma filter_ne_head (t : Z) (ts : list Z) : t ∉ ts → filter (.≠ t) (t :: ts) = ts.
Proof. intros. rewrite filter_cons_False by auto. by apply filter_ne_id. Qed.

Lemma Sorted_filter (R : Z → Z → Prop) (P : Z → Prop) `{!∀ x, Decision (P x)} (xs : list Z) :
  Transitive R → Sorted R xs → Sorted R (filter P xs).
Proof.
  intros Htr Hs%Sorted_StronglySorted; [|done].
  apply StronglySorted_Sorted. induction Hs as [|x xs Hs IH Hf]; [constructor|].
  rewrite filter_cons. case_decide; [|done]. constructor; [done|].
  rewrite Forall_forall in Hf |- *. intros y [_ Hy]%list_elem_of_filter. auto.
Qed.

#[global] Instance pri_order_trans s : Transitive (pri_order s).
Proof. intros a b c. unfold pri_order. lia. Qed.

Lemma pri_of_ne s s' t th' u :
  threads s' = <[t := th']> (threads s) → u ≠ t → pri_of s' u = pri_of s u.
Proof. intros E Hu. unfold pri_of. by rewrite E, lookup_insert_ne. Qed.

Lemma in_order_filter s s' t th' q :
  threads s' = <[t := th']> (threads s) → active_sched_policy s' = active_sched_policy s →
  qlist s' q = filter (.≠ t) (qlist s q) → in_order s q → in_order s' q.
Proof.
  intros E Ep Eq H. destruct q as [| |r|c]; cbn in *; try done.
  - rewrite Ep. intros Hp. rewrite Eq. eapply Sorted_mono.
    2:{ apply Sorted_filter; [apply pri_order_trans|exact (H Hp)]. }
    intros a b [Ha _]%list_elem_of_filter [Hb _]%list_elem_of_filter. unfold pri_order.
    by rewrite !(pri_of_ne s s' t th').
  - rewrite Eq. eapply Sorted_mono.
    2:{ apply Sorted_filter; [apply pri_order_trans|exact H]. }
    intros a b [Ha _]%list_elem_of_filter [Hb _]%list_elem_of_filter. unfold pri_order.
    by rewrite !(pri_of_ne s s' t th').
Qed.

Lemma wf_place s s' q t th th' :
  wf s → threads s !! t = Some th → threads s' = <[t := th']> (threads s) → same_rest s s' →
  (∀ q', q' ≠ q → qlist s' q' = filter (.≠ t) (qlist s q')) →
  qlist s' q ≡ₚ t :: filter (.≠ t) (qlist s q) → in_order s' q → (∀ c, q ≠ Qcond c) →
  queue th' = Some q → status th' = queue_status q →
  lock_queue th' ≡ₚ lock_queue th → alive th →
  (∀ l, donated_for th' = Some l → is_Some (locks s !! l)) →
  stack_ok s t th th' → t ∉ frames_of creates (threads s') → idle_thread s ≠ Some t → wf s'.
Proof.
  intros Hwf Ht Eth Hsame Hother Hq Hord Hc Hqu Hst Hlq Hal Hdon Hstack Hnas Hni.
  eapply (wf_move s s' t th th'); try done.
  - intros q' u Hu. destruct (decide (q' = q)) as [->|Hne].
    + rewrite Hq, elem_of_cons, list_elem_of_filter. naive_solver.
    + rewrite Hother, list_elem_of_filter by done. naive_solver.
  - intros q'. destruct (decide (q' = q)) as [->|Hne].
    + rewrite Hq. apply NoDup_cons. split; [rewrite list_elem_of_filter; naive_solver|].
      apply NoDup_filter, (wf_nodup _ Hwf).
    + rewrite Hother by done. apply NoDup_filter, (wf_nodup _ Hwf).
  - intros q'. destruct (decide (q' = q)) as [->|Hne]; [done|].
    eapply in_order_filter; [done|by apply same_policy|by apply Hother|apply (wf_order _ Hwf)].
  - intros q' Hin. destruct (decide (q' = q)) as [->|Hne]; [done|].
    rewrite Hother, list_elem_of_filter in Hin by done. naive_solver.
  - unfold thread_ok. rewrite Hst. assert (t ∈ qlist s' q) by (rewrite Hq; left).
    destruct q; cbn; [by left|left; eauto..].
  - unfold alive. rewrite Hst. by destruct q.
Qed.

(** A thread whose stack stays as it is. *)
Lemma stack_ok_same s t th th' :
  wf s → threads s !! t = Some th → kstack th' = kstack th → (alive th' → alive th) →
  stack_ok s t th th'.
Proof.
  intros Hwf Ht E Ha. split; rewrite E; try done.
  - by eapply wf_frames.
  - intros Hi Hne. destruct (wf_idle _ Hwf) as (i & thi & ? & ? & _ & ? & _). simplify_eq. auto.
  - intros. eapply wf_resumes; eauto.
Qed.

(** ** Switching to another thread *)

Lemma wf_idle_unlisted s t q : wf s → t ∈ qlist s q → idle_thread s ≠ Some t.
Proof.
  intros Hwf Hin Hi. destruct (wf_idle _ Hwf) as (i & th & Hi' & _ & _ & _ & _ & _ & Hn).
  rewrite Hi in Hi'. simplify_eq. by apply (Hn q).
Qed.

(** A thread whose queue is set is not being created. *)
Lemma wf_not_nascent s t th q :
  wf s → threads s !! t = Some th → queue th = Some q → t ∉ frames_of creates (threads s).
Proof.
  intros Hwf Ht Hq Hin. destruct (wf_creates _ Hwf) as [_ H].
  destruct (H _ Hin) as (th' & ? & _ & ?). congruence.
Qed.

Lemma lock_ok_mono s s' l k :
  semas s' !! SemaLock l = semas s !! SemaLock l →
  (l ∈ frames_of releases (threads s') → l ∈ frames_of releases (threads s)) →
  lock_ok s l k → lock_ok s' l k.
Proof.
  intros E H (x & Hx & Hv & H1 & H2). exists x. rewrite E. split_and!; [done..| |]; naive_solver.
Qed.

(** [n], ready or idle, becomes the running thread. *)
Lemma wf_dispatch s s' n th c thc :
  wf s → cur s = c → threads s !! c = Some thc → status thc ≠ THREAD_RUNNING →
  (alive thc → resumes INTR_OFF (kstack thc)) →
  (idle_thread s = Some c → idle_stack (kstack thc)) →
  threads s !! n = Some th → (n ∈ ready_list s ∨ idle_thread s = Some n) →
  threads s' = <[n := set_status THREAD_RUNNING th]> (threads s) → cur s' = n →
  ready_list s' = filter (.≠ n) (ready_list s) →
  semas s' = semas s → locks s' = locks s → conds s' = conds s →
  timer_sleep_list s' = timer_sleep_list s → all_list s' = all_list s →
  idle_thread s' = idle_thread s → active_sched_policy s' = active_sched_policy s →
  wf s'.
Proof.
  intros Hwf Ec Hc Hnr Hres Hci Hn Hsrc Eth Ec' Er Es El Eco Esl Ea Ei Ep.
  assert (∀ u, u ≠ n → threads s' !! u = threads s !! u) as Hu
    by (intros u Hu; by rewrite Eth, lookup_insert_ne).
  assert (threads s' !! n = Some (set_status THREAD_RUNNING th)) as Hn'
    by (by rewrite Eth, lookup_insert_eq).
  assert (∀ g, frames_of g (threads s') ≡ₚ frames_of g (threads s)) as Hfr
    by (intros g; rewrite Eth; by apply (frames_of_same g _ _ th)).
  assert (∀ q, qlist s' q = filter (.≠ n) (qlist s q)) as Hq.
  { intros q. destruct q as [| |r|c0]; cbn; rewrite ?Er, ?Es, ?Eco, ?Esl; [done|symmetry..];
      apply filter_ne_id; intros Hin.
    - destruct Hsrc as [Hin'|Hi].
      + destruct (wf_listed _ Hwf Qready n Hin') as (? & ? & ? & _).
        destruct (wf_listed _ Hwf Qsleep n Hin) as (? & ? & ? & _). congruence.
      + by apply (wf_idle_unlisted s n Qsleep).
    - destruct Hsrc as [Hin'|Hi].
      + destruct (wf_listed _ Hwf Qready n Hin') as (? & ? & ? & _).
        destruct (wf_listed _ Hwf (Qsema r) n Hin) as (? & ? & ? & _). congruence.
      + by apply (wf_idle_unlisted s n (Qsema r)).
    - change (n ∈ qlist s (Qcond c0)) in Hin. rewrite (wf_conds _ Hwf) in Hin.
      by apply not_elem_of_nil in Hin. }
  assert (alive th) as Hal.
  { destruct Hsrc as [Hin|Hi].
    - destruct (wf_listed _ Hwf Qready n Hin) as (? & ? & _ & Hs). simplify_eq. unfold alive.
      rewrite Hs. done.
    - destruct (wf_idle _ Hwf) as (? & ? & ? & ? & _ & _ & ? & _). by simplify_eq. }
  split.
  - intros q. rewrite Hq. apply NoDup_filter, (wf_nodup _ Hwf).
  - intros q u. rewrite Hq, list_elem_of_filter. intros [Hne Hin]. rewrite Hu by done.
    by apply (wf_listed _ Hwf).
  - intros c0. by rewrite Hq, (wf_conds _ Hwf).
  - intros q. eapply in_order_filter; [done|done|apply Hq|apply (wf_order _ Hwf)].
  - intros u thu Hthu. destruct (decide (u = n)) as [->|Hne]; [by simplify_eq|].
    rewrite Hu in Hthu by done. pose proof (wf_thread _ Hwf _ _ Hthu) as H.
    unfold thread_ok in *. rewrite Ei. destruct (status thu) eqn:Est; try done.
    + subst u. rewrite Ec in Hthu. simplify_eq.
    + destruct H as [H|H]; [left|by right]. rewrite Er. by apply list_elem_of_filter.
    + destruct H as [(q & Hq' & H)|H]; [left|by right]. exists q. split; [done|].
      rewrite Hq. by apply list_elem_of_filter.
  - rewrite Ec', Hn'. eauto.
  - intros u thu l Hthu Hl. rewrite El. destruct (decide (u = n)) as [->|Hne].
    + simplify_eq. by apply (wf_holds _ Hwf _ _ _ Hn).
    + rewrite Hu in Hthu by done. by eapply wf_holds.
  - intros l k u Hk Hh. rewrite El in Hk. destruct (wf_held _ Hwf _ _ _ Hk Hh) as (thu & Hthu & Hin).
    destruct (decide (u = n)) as [->|Hne].
    + eexists. split; [done|]. by simplify_eq.
    + exists thu. by rewrite Hu.
  - intros u thu Hthu. destruct (decide (u = n)) as [->|Hne].
    + simplify_eq. by apply (wf_lockq _ Hwf _ _ Hn).
    + rewrite Hu in Hthu by done. by eapply wf_lockq.
  - intros l k Hk. rewrite El in Hk. apply (lock_ok_mono s); [by rewrite Es|by rewrite Hfr|].
    apply (wf_lock _ Hwf _ _ Hk).
  - rewrite El, Hfr. destruct (wf_releases _ Hwf) as [? H]. split; [done|]. intros l. rewrite Hfr. apply H.
  - intros u thu l Hthu Hd. rewrite El. destruct (decide (u = n)) as [->|Hne].
    + simplify_eq. by apply (wf_donated _ Hwf _ _ _ Hn).
    + rewrite Hu in Hthu by done. by eapply wf_donated.
  - intros u thu Hthu. assert (∀ t f, frame_ok s t f → frame_ok s' t f) as Hf
      by (intros u' f; apply frame_ok_mono; [by rewrite Es|by rewrite El|by rewrite ?Ei]).
    destruct (decide (u = n)) as [->|Hne].
    + simplify_eq. eapply Forall_impl; [by apply (wf_frames _ Hwf _ _ Hn)|intros f; apply Hf].
    + rewrite Hu in Hthu by done. eapply Forall_impl; [by eapply wf_frames|intros f; apply Hf].
  - intros u thu Hthu Ha Hne. rewrite Ec' in Hne. rewrite Hu in Hthu by done.
    destruct (decide (u = c)) as [->|]; [simplify_eq; auto|].
    apply (wf_resumes _ Hwf _ _ Hthu Ha). congruence.
  - rewrite Hfr. destruct (wf_creates _ Hwf) as [? H]. split; [done|]. intros u. rewrite Hfr.
    intros Hin. destruct (H _ Hin) as (thu & Hthu & Hst & Hqu). exists thu. rewrite Hu; [done|].
    intros ->. assert (thu = th) as -> by congruence. destruct Hsrc as [Hin'|Hi].
    + destruct (wf_listed _ Hwf Qready n Hin') as (? & ? & ? & _). congruence.
    + destruct (wf_idle _ Hwf) as (? & ? & ? & ? & _ & _ & _ & ? & _). congruence.
  - destruct (wf_idle _ Hwf) as (i & thi & Hi & Hthi & Hl & Hs & Ha & Hqn & Hnl). exists i. rewrite Ei.
    assert (∀ q, i ∉ qlist s' q) by (intros q; rewrite Hq, list_elem_of_filter; intros [_ ?]; by apply (Hnl q)).
    destruct (decide (i = n)) as [->|Hne].
    + assert (thi = th) as -> by congruence. eexists. split; [done|]. split; [exact Hn'|]. done.
    + exists thi. rewrite Hu by done. split_and!; try done. intros _.
      destruct (decide (i = c)) as [->|]; [simplify_eq; auto|]. apply Hs. congruence.
  - rewrite Ea. destruct (wf_all _ Hwf) as [? H]. split; [done|]. intros u. rewrite H.
    destruct (decide (u = n)) as [->|Hne]; [|by rewrite Hu].
    rewrite Hn, Hn'. split; intros (? & ? & ?); simplify_eq; eauto. eexists. split; [done|]. done.
  - rewrite Ep. apply (wf_policy _ Hwf).
  - rewrite El. apply (wf_tid_lock _ Hwf).
Qed.

(** A thread that has exited is freed. *)
Lemma wf_free s t th :
  wf s → threads s !! t = Some th → status th = THREAD_DYING → t ≠ cur s →
  wf (with_threads (delete t (threads s)) s).
Proof.
  intros Hwf Ht Hst Hc. set (s' := with_threads _ s).
  assert (∀ u, u ≠ t → threads s' !! u = threads s !! u) as Hu
    by (intros u Hu; cbn; by rewrite lookup_delete_ne).
  assert (threads s' !! t = None) as Ht' by (cbn; by rewrite lookup_delete_eq).
  pose proof (wf_thread _ Hwf _ _ Ht) as Hok. unfold thread_ok in Hok. rewrite Hst in Hok.
  destruct Hok as [Hlq Hks].
  assert (∀ g, frames_of g (threads s') ≡ₚ frames_of g (threads s)) as Hfr.
  { intros g. destruct (frames_of_insert g (threads s) t th) as (rest & _ & H2 & _ & H4).
    rewrite H2 by done. cbn. by rewrite H4, Hks. }
  assert (∀ u thu, threads s' !! u = Some thu → u ≠ t ∧ threads s !! u = Some thu) as Hinv.
  { intros u thu E. destruct (decide (u = t)) as [->|]; [congruence|]. by rewrite Hu in E. }
  split.
  - apply (wf_nodup _ Hwf).
  - intros q u Hin. destruct (wf_listed _ Hwf q u Hin) as (thu & Hthu & ? & Hs).
    exists thu. split; [|done]. rewrite Hu; [done|]. intros ->. simplify_eq.
    destruct q; cbn in *; congruence.
  - apply (wf_conds _ Hwf).
  - intros q. pose proof (wf_order _ Hwf q) as H. pose proof (wf_listed _ Hwf q) as Hl.
    assert (∀ a b, a ∈ qlist s q → b ∈ qlist s q → pri_order s a b → pri_order s' a b) as Hm.
    { intros a b Ha Hb. unfold pri_order, pri_of.
      destruct (Hl a Ha) as (tha & Htha & _ & Hsa). destruct (Hl b Hb) as (thb & Hthb & _ & Hsb).
      rewrite !Hu; [done| |]; intros ->; simplify_eq; destruct q; cbn in *; congruence. }
    destruct q; cbn in *; try done.
    + intros Hp. eapply Sorted_mono; [exact Hm|]. by apply H.
    + eapply Sorted_mono; [exact Hm|]. exact H.
  - intros u thu [_ Hthu]%Hinv. apply (wf_thread _ Hwf _ _ Hthu).
  - cbn. rewrite lookup_delete_ne by done. apply (wf_cur _ Hwf).
  - intros u thu l [_ Hthu]%Hinv. apply (wf_holds _ Hwf _ _ _ Hthu).
  - intros l k u Hk Hh. destruct (wf_held _ Hwf _ _ _ Hk Hh) as (thu & Hthu & Hin).
    exists thu. split; [|done]. rewrite Hu; [done|]. intros ->. simplify_eq. rewrite Hlq in Hin.
    by apply not_elem_of_nil in Hin.
  - intros u thu [_ Hthu]%Hinv. apply (wf_lockq _ Hwf _ _ Hthu).
  - intros l k Hk. apply (lock_ok_mono s); [done|by rewrite Hfr|]. apply (wf_lock _ Hwf _ _ Hk).
  - rewrite Hfr. destruct (wf_releases _ Hwf) as [? H]. split; [done|]. intros l. rewrite Hfr. apply H.
  - intros u thu l [_ Hthu]%Hinv. apply (wf_donated _ Hwf _ _ _ Hthu).
  - intros u thu [_ Hthu]%Hinv. apply (wf_frames _ Hwf _ _ Hthu).
  - intros u thu [_ Hthu]%Hinv. apply (wf_resumes _ Hwf _ _ Hthu).
  - rewrite Hfr. destruct (wf_creates _ Hwf) as [? H]. split; [done|]. intros u. rewrite Hfr.
    intros Hin. destruct (H _ Hin) as (thu & Hthu & Hs & Hqu). exists thu. rewrite Hu; [done|].
    intros ->. congruence.
  - destruct (wf_idle _ Hwf) as (i & thi & Hi & Hthi & Hl & Hs & Ha & Hqn & Hnl). exists i, thi.
    split; [done|]. split; [|done]. rewrite Hu; [done|]. intros ->. simplify_eq. by destruct Ha.
  - destruct (wf_all _ Hwf) as [? H]. split; [done|]. intros u. change (all_list s') with (all_list s).
    rewrite H. split.
    + intros (thu & Hthu & Ha). exists thu. split; [|done]. rewrite Hu; [done|]. intros ->.
      simplify_eq. by destruct Ha.
    + intros (thu & [_ Hthu]%Hinv & Ha). eauto.
  - apply (wf_policy _ Hwf).
  - apply (wf_tid_lock _ Hwf).
Qed.

End SchedInv.
