(* ===== verification/SchedOps.v ===== *)
(** * The scheduler's operations keep its invariant

    Each operation of thread.c, synch.c and timer.c is run symbolically
    ([wp]) on a state that satisfies [SchedInv.wf]. *)

From S2P Require Import Prelude KListSpec KListSort KListRefine Kernel Thread Synch Timer Machine SchedInv.
Import Kernel Thread Synch Timer Machine SchedInv.

Module SchedOps.

#[local] Arguments in_order : simpl never.

(** ** Running kernel code: [m] ends in a state satisfying [Q], or stops at
    an assertion where [pan] allows it; it neither runs into undefined
    behaviour nor out of a loop bound. *)
Definition wp {A} (pan : bool) (m : K A) (Q : A → kstate → Prop) (s : kstate) : Prop :=
  match m s with
  | Ok (a, s') => Q a s'
  | Err Panic => pan = true
  | Err _ => False
  end.

Section Wp.
Context (pan : bool).

Lemma wp_ret {A} (a : A) (Q : A → kstate → Prop) s : Q a s → wp pan (mret a) Q s.
Proof. done. Qed.

Lemma wp_bind {A B} (m : K A) (f : A → K B) (Q : B → kstate → Prop) s :
  wp pan m (λ a, wp pan (f a) Q) s → wp pan (m ≫= f) Q s.
Proof. unfold wp, mbind, M_bind. destruct (m s) as [[a s']|[]]; done. Qed.

Lemma wp_mono {A} (m : K A) (P Q : A → kstate → Prop) s :
  wp pan m P s → (∀ a s', P a s' → Q a s') → wp pan m Q s.
Proof. unfold wp. destruct (m s) as [[a s']|[]]; auto. Qed.

Lemma wp_Ok {A} (m : K A) (Q : A → kstate → Prop) s a s' : m s = Ok (a, s') → Q a s' → wp pan m Q s.
Proof. unfold wp. by intros ->. Qed.

Lemma wp_ASSERT b (Q : unit → kstate → Prop) s : b = true → Q () s → wp pan (ASSERT b) Q s.
Proof. by intros ->. Qed.

Lemma wp_get (Q : kstate → kstate → Prop) s : Q s s → wp pan get Q s.
Proof. done. Qed.
Lemma wp_gets {A} (f : kstate → A) (Q : A → kstate → Prop) s : Q (f s) s → wp pan (gets f) Q s.
Proof. done. Qed.
Lemma wp_modify f (Q : unit → kstate → Prop) s : Q () (f s) → wp pan (modify f) Q s.
Proof. done. Qed.
Lemma wp_put s' (Q : unit → kstate → Prop) s : Q () s' → wp pan (put s') Q s.
Proof. done. Qed.

Lemma wp_get_thread t th (Q : thread → kstate → Prop) s :
  threads s !! t = Some th → Q th s → wp pan (get_thread t) Q s.
Proof. intros E ?. unfold wp, get_thread. by rewrite E. Qed.
Lemma wp_get_sema r x (Q : semaphore → kstate → Prop) s :
  semas s !! r = Some x → Q x s → wp pan (get_sema r) Q s.
Proof. intros E ?. unfold wp, get_sema. by rewrite E. Qed.
Lemma wp_get_lock l k (Q : lock → kstate → Prop) s :
  locks s !! l = Some k → Q k s → wp pan (get_lock l) Q s.
Proof. intros E ?. unfold wp, get_lock. by rewrite E. Qed.
Lemma wp_upd_thread t g th (Q : unit → kstate → Prop) s :
  threads s !! t = Some th → Q () (with_threads (<[t := g th]> (threads s)) s) →
  wp pan (upd_thread t g) Q s.
Proof. intros E ?. apply wp_bind. by eapply wp_get_thread. Qed.

End Wp.

(** ** Canonical states *)

Definition set_thread (t : Z) (th : thread) (s : kstate) : kstate :=
  with_threads (<[t := th]> (threads s)) s.

Lemma insert_ordered_ext (f g : Z → Z → bool) t xs :
  (∀ a b, f a b = g a b) → KListSpec.insert_ordered f t xs = KListSpec.insert_ordered g t xs.
Proof. intros H. induction xs as [|x xs IH]; cbn; [done|]. by rewrite H, IH. Qed.

Lemma qlist_with_eq s q xs : queue_exists s q = true → qlist (with_qlist q xs s) q = xs.
Proof.
  intros He%bool_decide_eq_true. destruct q as [| |r|c]; cbn; [done..| |].
  - rewrite lookup_alter_eq. unfold all_queues in He. rewrite !elem_of_cons, elem_of_app in He.
    destruct He as [?|[?|[H|H]]]; [done..| |]; apply list_elem_of_fmap in H as (? & ? & H); simplify_eq.
    apply list_elem_of_fmap in H as ([? y] & ? & H). apply elem_of_map_to_list in H. cbn in *.
    simplify_eq. by rewrite H.
  - rewrite lookup_alter_eq. unfold all_queues in He. rewrite !elem_of_cons, elem_of_app in He.
    destruct He as [?|[?|[H|H]]]; [done..| |]; apply list_elem_of_fmap in H as (? & ? & H); simplify_eq.
    apply list_elem_of_fmap in H as ([? y] & ? & H). apply elem_of_map_to_list in H. cbn in *.
    simplify_eq. by rewrite H.
Qed.

Lemma qlist_with_ne s q q' xs : q' ≠ q → qlist (with_qlist q xs s) q' = qlist s q'.
Proof.
  intros Hne. destruct q as [| |r|c], q' as [| |r'|c']; cbn; try done;
    rewrite lookup_alter_ne by congruence; done.
Qed.

Lemma threads_with_qlist q xs s : threads (with_qlist q xs s) = threads s.
Proof. by destruct q. Qed.

Lemma same_rest_qlist q xs s : same_rest s (with_qlist q xs s).
Proof.
  split; try (by destruct q). intros r x Hx. destruct q as [| |r'|c]; cbn; eauto.
  destruct (decide (r = r')) as [->|Hne].
  - rewrite lookup_alter_eq, Hx. eauto.
  - rewrite lookup_alter_ne by done. eauto.
Qed.

Lemma same_rest_thread t th s : same_rest s (set_thread t th s).
Proof. split; try done. eauto. Qed.

Lemma same_rest_trans s1 s2 s3 : same_rest s1 s2 → same_rest s2 s3 → same_rest s1 s3.
Proof.
  intros [? ? ? ? ? H1] [? ? ? ? ? H2]. split; try congruence. intros r x Hx.
  destruct (H1 r x Hx) as (x1 & Hx1 & E1). destruct (H2 r x1 Hx1) as (x2 & Hx2 & E2).
  exists x2. split; [done|congruence].
Qed.

Lemma kstate_eq s s' :
  threads s = threads s' → semas s = semas s' → locks s = locks s' → conds s = conds s' →
  rw_locks s = rw_locks s' → ready_list s = ready_list s' → all_list s = all_list s' →
  timer_sleep_list s = timer_sleep_list s' → idle_thread s = idle_thread s' →
  initial_thread s = initial_thread s' → cur s = cur s' → level s = level s' →
  in_external_intr s = in_external_intr s' → yield_on_return s = yield_on_return s' →
  ticks s = ticks s' → thread_ticks s = thread_ticks s' → idle_ticks s = idle_ticks s' →
  kernel_ticks s = kernel_ticks s' → user_ticks s = user_ticks s' → next_tid s = next_tid s' →
  active_sched_policy s = active_sched_policy s' → s = s'.
Proof. destruct s, s'. cbn. intros. subst. reflexivity. Qed.

(** The invariant sees only part of the state. *)
Definition view (s : kstate) :=
  (threads s, semas s, locks s, conds s, ready_list s, timer_sleep_list s, all_list s,
   idle_thread s, cur s, active_sched_policy s).

Lemma wf_ext s s' : view s' = view s → wf s → wf s'.
Proof.
  destruct s, s'. unfold view. cbn. intros [=] [? ? ? ? ? ? ? ? ? ? ? ? ? ? ? ? ? ? ?].
  simplify_eq. split; assumption.
Qed.

(** Where the run queue takes a thread. *)
Definition ready_insert (s : kstate) (t : Z) : list Z :=
  match active_sched_policy s with
  | SCHED_PRIO => KListSpec.insert_ordered (thread_before s) t (ready_list s)
  | _ => ready_list s ++ [t]
  end.

Lemma ready_insert_perm s t : ready_insert s t ≡ₚ t :: ready_list s.
Proof.
  unfold ready_insert. destruct (active_sched_policy s);
    try apply KListRefine.insert_ordered_perm; symmetry; apply Permutation_cons_append.
Qed.

(** A thread in the run queue. *)
Definition enqueued (t : Z) (th : thread) (s : kstate) : kstate :=
  with_qlist Qready (ready_insert s t)
    (set_thread t (set_status THREAD_READY (set_queue (Some Qready) th)) s).

Lemma thread_before_same_pri s s' a b :
  (∀ u, pri_of s' u = pri_of s u) → thread_before s' a b = thread_before s a b.
Proof. intros H. unfold thread_before. by rewrite !H. Qed.

Lemma pri_of_insert s s' t th th' u :
  threads s !! t = Some th → threads s' = <[t := th']> (threads s) → e_pri th' = e_pri th →
  pri_of s' u = pri_of s u.
Proof.
  intros Ht E Ee. unfold pri_of. rewrite E. destruct (decide (u = t)) as [->|].
  - rewrite lookup_insert_eq, Ht. cbn. done.
  - by rewrite lookup_insert_ne.
Qed.

(** Ordered insertion keeps the order of a queue. *)
Lemma in_order_insert s s' q t th th' :
  threads s !! t = Some th → threads s' = <[t := th']> (threads s) → e_pri th' = e_pri th →
  active_sched_policy s' = active_sched_policy s → in_order s q →
  match q with
  | Qready => ready_list s' = ready_insert s t
  | Qsema _ => qlist s' q = KListSpec.insert_ordered (thread_before s) t (qlist s q)
  | _ => True
  end → in_order s' q.
Proof.
  intros Ht Eth Ee Ep Ho Hq.
  assert (∀ xs, Sorted (pri_order s) xs →
            Sorted (pri_order s') (KListSpec.insert_ordered (thread_before s) t xs)) as Hs.
  { intros xs Hxs. eapply Sorted_mono; [|by apply insert_in_order]. intros a b _ _. unfold pri_order.
    by rewrite !(pri_of_insert s s' t th th'). }
  destruct q as [| |r|c]; unfold in_order in *; cbn in *; try done.
  - rewrite Ep. intros Hp. rewrite Hq. unfold ready_insert. rewrite Hp. auto.
  - rewrite Hq. auto.
Qed.

Lemma elem_in_set_thread s t th u : elem_in (set_thread t th s) u = elem_in s u.
Proof. done. Qed.

Lemma thread_enqueue_run s t th :
  threads s !! t = Some th → level s = INTR_OFF → elem_in s t = None →
  (active_sched_policy s = SCHED_FIFO ∨ active_sched_policy s = SCHED_PRIO) →
  thread_enqueue t s =
    Ok ((), with_qlist Qready (ready_insert s t) (set_thread t (set_queue (Some Qready) th) s)).
Proof.
  intros Ht Hl He Hp. unfold thread_enqueue. erewrite bind_Ok by done.
  erewrite bind_Ok by (apply ASSERT_true; by apply bool_decide_true).
  erewrite bind_Ok by done.
  erewrite bind_Ok by (apply ASSERT_true, bool_decide_true; eauto).
  unfold upd_thread. erewrite bind_Ok; [|erewrite bind_Ok; [done|unfold get_thread; by rewrite Ht]].
  erewrite bind_Ok by done. fold (set_thread t (set_queue (Some Qready) th) s).
  set (s1 := set_thread _ _ s). cbn [active_sched_policy with_threads s1 set_thread].
  assert (get_thread t s1 = Ok (set_queue (Some Qready) th, s1)) as Hg.
  { unfold get_thread, s1, set_thread. cbn. by rewrite lookup_insert_eq. }
  assert (queue_exists s1 Qready && bool_decide (elem_in s1 t = None) = true) as Hb.
  { rewrite ready_exists. cbn. apply bool_decide_true. done. }
  unfold ready_insert. destruct Hp as [-> | ->].
  - unfold elem_push_back, elem_insert. erewrite bind_Ok by exact Hg. erewrite bind_Ok by done.
    by rewrite Hb.
  - unfold elem_insert_ordered. erewrite bind_Ok by done. unfold elem_insert.
    erewrite bind_Ok by exact Hg. erewrite bind_Ok by done. rewrite Hb.
    unfold put. do 3 f_equal. apply insert_ordered_ext. intros a b. apply thread_before_same_pri.
    intros u. by eapply (pri_of_insert s _ t th).
Qed.

(** The interrupt flag after [intr_set_level]. *)
Lemma intr_set_level_run old s :
  (old = INTR_ON → in_external_intr s = false) →
  intr_set_level old s = Ok (level s, with_level old s).
Proof.
  intros H. destruct old; [done|]. cbn. unfold intr_enable, intr_get_level, intr_context.
  erewrite bind_Ok by done. erewrite bind_Ok by done. rewrite H by done. done.
Qed.

Lemma thread_unblock_run s t th :
  threads s !! t = Some th → status th = THREAD_BLOCKED → elem_in s t = None →
  (active_sched_policy s = SCHED_FIFO ∨ active_sched_policy s = SCHED_PRIO) →
  (level s = INTR_ON → in_external_intr s = false) →
  thread_unblock t s = Ok ((), enqueued t th s).
Proof.
  intros Ht Hst He Hp Hi. unfold thread_unblock. erewrite bind_Ok by done.
  erewrite bind_Ok by (apply ASSERT_true, bool_decide_true; eauto).
  unfold intr_disable. erewrite bind_Ok by done. set (s1 := with_level INTR_OFF s).
  erewrite bind_Ok; [|unfold get_thread; cbn; by rewrite Ht].
  erewrite bind_Ok by (by apply ASSERT_true, bool_decide_true).
  erewrite bind_Ok; [|by apply (thread_enqueue_run s1 t th)].
  set (s2 := with_qlist _ _ _).
  assert (threads s2 !! t = Some (set_queue (Some Qready) th)) as Ht2.
  { unfold s2. cbn. by rewrite lookup_insert_eq. }
  unfold upd_thread. erewrite bind_Ok; [|erewrite bind_Ok; [done|unfold get_thread; by rewrite Ht2]].
  erewrite bind_Ok; [|by apply intr_set_level_run].
  unfold mret, M_ret. do 2 f_equal. apply kstate_eq; try reflexivity. apply insert_insert_eq.
Qed.

(** ** schedule *)

(** The scheduler takes the first ready thread, or the idle thread. *)
Lemma next_thread_run s :
  wf s →
  ∃ n th, next_thread_to_run s = Ok (Some n, with_ready_list (filter (.≠ n) (ready_list s)) s) ∧
          threads s !! n = Some th ∧ (head (ready_list s) = Some n ∨
          ready_list s = [] ∧ idle_thread s = Some n).
Proof.
  intros Hwf. assert (next_thread_to_run s = thread_schedule_fifo s) as ->.
  { unfold next_thread_to_run. erewrite bind_Ok by done. destruct (wf_policy _ Hwf) as [E|E]; by rewrite E. }
  unfold thread_schedule_fifo, elem_pop_front. destruct (ready_list s) as [|n ts] eqn:Er.
  - destruct (wf_idle _ Hwf) as (i & th & Hi & Hth & _). exists i, th. split_and!; [|done|by right].
    erewrite bind_Ok; [|erewrite bind_Ok by done; cbn; rewrite Er; done].
    unfold gets. rewrite Hi. do 2 f_equal. destruct s. cbn in *. by subst.
  - destruct (wf_listed _ Hwf Qready n) as (th & Hth & _); [cbn; rewrite Er; left|].
    exists n, th. split_and!; [|done|by left].
    pose proof (wf_nodup _ Hwf Qready) as Hnd. cbn in Hnd. rewrite Er in Hnd.
    apply NoDup_cons in Hnd as [Hn _]. rewrite filter_ne_head by done.
    erewrite bind_Ok; [|erewrite bind_Ok by done; cbn; rewrite Er; reflexivity]. reflexivity.
Qed.

Lemma upd_thread_run t g th s :
  threads s !! t = Some th → upd_thread t g s = Ok ((), set_thread t (g th) s).
Proof. intros Ht. unfold upd_thread. erewrite bind_Ok; [done|]. unfold get_thread. by rewrite Ht. Qed.

Lemma wp_switch_tail_none pan s th (Q : unit → kstate → Prop) :
  threads s !! cur s = Some th → level s = INTR_OFF →
  Q () (with_thread_ticks 0 (set_thread (cur s) (set_status THREAD_RUNNING th) s)) →
  wp pan (thread_switch_tail None) Q s.
Proof.
  intros Ht Hl HQ. unfold thread_switch_tail. apply wp_bind, wp_gets. apply wp_bind, wp_gets.
  apply wp_bind, wp_ASSERT; [by apply bool_decide_true|].
  apply wp_bind. eapply wp_upd_thread; [done|]. by apply wp_bind, wp_modify.
Qed.

(** What a thread has arranged when it calls [schedule]. *)
Record at_schedule (s : kstate) (th : thread) : Prop := {
  as_wf : wf s;
  as_thread : threads s !! cur s = Some th;
  as_status : status th ≠ THREAD_RUNNING;
  as_resumes : alive th → resumes INTR_OFF (kstack th);
  as_idle : idle_thread s = Some (cur s) → idle_stack (kstack th);
  as_level : level s = INTR_OFF;
  as_intr : in_external_intr s = false;
}.

(** The state in which thread [n] goes on. *)
Definition switched (s : kstate) (n : Z) (thn : thread) : kstate :=
  with_thread_ticks 0 (set_thread n (set_status THREAD_RUNNING thn)
    (with_cur n (with_ready_list (filter (.≠ n) (ready_list s)) s))).

(** [schedule] from [s] ends in [s']: the first ready thread [n] goes on, or
    the idle thread if there is none; a dying thread is freed. *)
Record dispatched (s : kstate) (th : thread) (n : Z) (thn : thread) (s' : kstate) : Prop := {
  disp_next : head (ready_list s) = Some n ∨ ready_list s = [] ∧ idle_thread s = Some n;
  disp_thread : threads s !! n = Some thn;
  disp_state : s' = switched s n thn ∨
    status th = THREAD_DYING ∧ n ≠ cur s ∧
    s' = with_threads (delete (cur s) (threads (switched s n thn))) (switched s n thn);
}.

Lemma wp_schedule_run pan s th (Q : unit → kstate → Prop) :
  at_schedule s th → (∀ n thn s', dispatched s th n thn s' → Q () s') → wp pan schedule Q s.
Proof.
  intros [Hwf Hc Hnr _ _ Hl _] HQ. unfold schedule. apply wp_bind, wp_gets.
  destruct (next_thread_run s Hwf) as (n & thn & Hrun & Hn & Hsrc).
  apply wp_bind. eapply wp_Ok; [exact Hrun|]. set (s1 := with_ready_list _ s).
  apply wp_bind, wp_gets, wp_bind, wp_ASSERT; [by apply bool_decide_true|].
  apply wp_bind. eapply wp_get_thread; [exact Hc|].
  apply wp_bind, wp_ASSERT; [by rewrite bool_decide_false|].
  apply wp_bind. eapply wp_Ok; [done|]. apply wp_bind, wp_ASSERT; [apply bool_decide_true; cbn; eauto|].
  assert (Q () (switched s n thn)) as HQ1.
  { apply (HQ n thn). split; [done|done|by left]. }
  case_decide as Hcn.
  - subst n. assert (thn = th) as -> by congruence. by apply (wp_switch_tail_none _ _ th).
  - apply wp_bind, wp_modify. set (s2 := with_cur n s1).
    unfold thread_switch_tail. apply wp_bind, wp_gets, wp_bind, wp_gets.
    apply wp_bind, wp_ASSERT; [by apply bool_decide_true|].
    apply wp_bind. eapply wp_upd_thread; [exact Hn|]. apply wp_bind, wp_modify.
    change (with_thread_ticks _ _) with (switched s n thn).
    apply wp_bind. eapply (wp_get_thread _ _ th); [cbn; by rewrite lookup_insert_ne|].
    apply wp_bind, wp_get. destruct (bool_decide (status th = THREAD_DYING)) eqn:Ed; [|done].
    apply bool_decide_eq_true in Ed. cbn [andb]. destruct (negb _); [|done].
    apply wp_bind, wp_ASSERT; [by rewrite bool_decide_false|]. apply wp_modify.
    apply (HQ n thn). split; [done|done|right; by split_and!].
Qed.

(** The thread that goes on was ready, or is the idle thread. *)
Lemma disp_source s th n thn s' :
  wf s → dispatched s th n thn s' → (n ∈ ready_list s ∨ idle_thread s = Some n) ∧ alive thn.
Proof.
  intros Hwf [Hsrc Hn _].
  assert (n ∈ ready_list s ∨ idle_thread s = Some n) as Hsrc'.
  { destruct Hsrc as [Hh|[_ ?]]; [left|by right]. destruct (ready_list s); cbn in Hh; simplify_eq. left. }
  split; [done|]. destruct Hsrc' as [Hin|Hin].
  - destruct (wf_listed _ Hwf Qready n Hin) as (? & ? & _ & Hs). simplify_eq. unfold alive. by rewrite Hs.
  - destruct (wf_idle _ Hwf) as (? & ? & ? & ? & _ & _ & ? & _). by simplify_eq.
Qed.

Lemma dispatched_ok s th n thn s' : at_schedule s th → dispatched s th n thn s' → kernel_ok s'.
Proof.
  intros [Hwf Hc Hnr Hres Hci Hl Hi] Hd. destruct (disp_source _ _ _ _ _ Hwf Hd) as [Hsrc Hal].
  destruct Hd as [_ Hn Hs'].
  assert (wf (switched s n thn)) as Hw.
  { eapply wf_ext; [|eapply (wf_dispatch s
      (with_cur n (set_thread n (set_status THREAD_RUNNING thn)
         (with_ready_list (filter (.≠ n) (ready_list s)) s))) n thn (cur s) th)]; done. }
  assert (resumes INTR_OFF (kstack thn)) as Hrn.
  { destruct (decide (n = cur s)) as [->|Hne].
    - assert (thn = th) as -> by congruence. auto.
    - by apply (wf_resumes _ Hwf _ _ Hn Hal). }
  assert (idle_thread s = Some n → idle_stack (kstack thn)) as Hin.
  { intros Hin. destruct (decide (n = cur s)) as [->|Hne].
    - assert (thn = th) as -> by congruence. auto.
    - destruct (wf_idle _ Hwf) as (? & ? & ? & ? & _ & H & _). simplify_eq. by apply H. }
  destruct Hs' as [->|(Ed & Hne & ->)]; unfold kernel_ok, running, stack_of; cbn.
  - rewrite lookup_insert_eq. cbn. rewrite Hl. split_and!; try done. by eexists.
  - rewrite lookup_delete_ne, lookup_insert_eq by done. cbn. rewrite Hl. split_and!; try done; [|by eexists].
    eapply (wf_free (switched s n thn)); try done. cbn. by rewrite lookup_insert_ne.
Qed.

Lemma wp_schedule pan s th :
  wf s → threads s !! cur s = Some th → status th ≠ THREAD_RUNNING →
  (alive th → resumes INTR_OFF (kstack th)) →
  (idle_thread s = Some (cur s) → idle_stack (kstack th)) →
  level s = INTR_OFF → in_external_intr s = false →
  wp pan schedule (λ _, kernel_ok) s.
Proof.
  intros. eapply (wp_schedule_run _ _ th); [by split|]. intros n thn s'. by apply dispatched_ok.
Qed.

(** ** The running thread gives up the CPU *)

Lemma thread_current_run s : running s → thread_current s = Ok (cur s, s).
Proof.
  intros (th & Ht & Hst). unfold thread_current. erewrite bind_Ok by done.
  erewrite bind_Ok by done. erewrite bind_Ok by (apply ASSERT_true, bool_decide_true; eauto).
  erewrite bind_Ok; [|unfold get_thread; by rewrite Ht].
  by erewrite bind_Ok by (by apply ASSERT_true, bool_decide_true).
Qed.

Lemma running_unlisted s : wf s → running s → elem_in s (cur s) = None.
Proof.
  intros Hwf (th & Ht & Hst). apply elem_in_None. intros q. by eapply wf_running_unlisted.
Qed.

Lemma running_not_nascent s : wf s → running s → cur s ∉ frames_of creates (threads s).
Proof.
  intros Hwf (th & Ht & Hst) Hin. destruct (wf_creates _ Hwf) as [_ H].
  destruct (H _ Hin) as (th' & ? & ? & _). congruence.
Qed.

Lemma running_filter s t th q :
  wf s → threads s !! t = Some th → status th = THREAD_RUNNING →
  filter (.≠ t) (qlist s q) = qlist s q.
Proof. intros Hwf Ht Hst. apply filter_ne_id. by eapply wf_running_unlisted. Qed.

(** Pushing frames that stand for no unfinished creation or release. *)
Definition plain (f : frame) : Prop := creates f = None ∧ releases f = None.

Lemma idle_stack_push fs ks : Forall lock_free fs → idle_stack ks → idle_stack (fs ++ ks).
Proof.
  intros Hf (gs & g & -> & Hgs & Hg). exists (fs ++ gs), g. rewrite app_assoc. split_and!; [done| |done].
  by apply Forall_app.
Qed.

Lemma stack_ok_push s t th th' fs :
  wf s → threads s !! t = Some th → kstack th' = fs ++ kstack th →
  Forall (frame_ok s t) fs → Forall plain fs →
  (idle_thread s = Some t → Forall lock_free fs) →
  (alive th' → t ≠ cur s → resumes INTR_OFF (fs ++ kstack th)) → stack_ok s t th th'.
Proof.
  intros Hwf Ht E Hfr Hpl Hid Hres. split; rewrite E.
  - apply Forall_app. split; [done|]. by eapply wf_frames.
  - rewrite omap_app. assert (omap creates fs = []) as ->; [|done].
    clear -Hpl. induction Hpl as [|f fs [Hc _] _ IH]; [done|]. cbn. by rewrite Hc.
  - rewrite omap_app. assert (omap releases fs = []) as ->; [|done].
    clear -Hpl. induction Hpl as [|f fs [_ Hr] _ IH]; [done|]. cbn. by rewrite Hr.
  - intros Hi Hne. destruct (wf_idle _ Hwf) as (i & thi & ? & ? & _ & H & _).
    simplify_eq. apply idle_stack_push; auto.
  - done.
Qed.

Lemma push_frames_run t fs th s :
  threads s !! t = Some th →
  push_frames t fs s = Ok ((), set_thread t (set_kstack (fs ++ kstack th) th) s).
Proof. intros Ht. unfold push_frames. by erewrite upd_thread_run. Qed.

Lemma stack_of_eq s t th : threads s !! t = Some th → stack_of s t = kstack th.
Proof. intros Ht. unfold stack_of. by rewrite Ht. Qed.

Lemma alive_status th : status th ≠ THREAD_DYING → status th ≠ THREAD_ZOMBIE → alive th.
Proof. done. Qed.

Lemma running_alive th : status th = THREAD_RUNNING → alive th.
Proof. intros E. unfold alive. by rewrite E. Qed.

Lemma same_rest_level l s : same_rest s (with_level l s).
Proof. split; try done. eauto. Qed.

Lemma wp_yield_to pan s (Q : unit → kstate → Prop) :
  kernel_ok s →
  (∀ s1 th1, at_schedule s1 th1 → active_sched_policy s1 = active_sched_policy s →
     ready_list s1 = (if decide (idle_thread s = Some (cur s)) then ready_list s else ready_insert s (cur s)) →
     cur s1 = cur s → idle_thread s1 = idle_thread s → status th1 = THREAD_READY → wp pan schedule Q s1) →
  wp pan thread_yield Q s.
Proof.
  intros (Hwf & Hrun & Hi & Hres & Hids) HQ. pose proof Hrun as (th & Ht & Hst).
  rewrite (stack_of_eq _ _ _ Ht) in Hres, Hids. unfold thread_yield.
  apply wp_bind. eapply wp_Ok; [by apply thread_current_run|].
  apply wp_bind, wp_gets, wp_bind, wp_ASSERT; [by rewrite Hi|].
  apply wp_bind. eapply wp_Ok; [done|]. set (s1 := with_level INTR_OFF s).
  apply wp_bind, wp_get. set (t := cur s) in *.
  set (th' := set_kstack ([F_set_level (level s)] ++ kstack th)
                (set_status THREAD_READY (set_queue (Some Qready) th))).
  apply wp_bind. destruct (bool_decide (idle_thread s1 = Some t)) eqn:Eid.
  - apply bool_decide_eq_true in Eid. apply wp_ret.
    apply wp_bind. eapply wp_upd_thread; [exact Ht|].
    apply wp_bind. eapply wp_upd_thread; [cbn; apply lookup_insert_eq|].
    destruct (wf_idle _ Hwf) as (i & thi & Hii & Hthi & Hil & His & Hia & Hiq & Hin).
    assert (i = t) as -> by (cbn in Eid; congruence). assert (thi = th) as -> by congruence.
    set (th2 := set_kstack ([F_set_level (level s)] ++ kstack th) (set_status THREAD_READY th)).
    apply (HQ _ th2); [split|done|by rewrite decide_True|done..].
    + eapply (wf_move s _ t th th2); try done; cbn; rewrite ?insert_insert_eq; try done.
      * split; try done. eauto.
      * apply (wf_nodup _ Hwf).
      * intros q. eapply (in_order_filter s _ t th2); cbn; [by rewrite ?insert_insert_eq|done| |apply (wf_order _ Hwf)].
        rewrite (running_filter s t th) by done. by destruct q.
      * intros q Hq. by destruct (Hin q).
      * by right.
      * intros l. apply (wf_donated _ Hwf _ _ _ Ht).
      * eapply stack_ok_push; try done; repeat constructor.
      * rewrite (frames_of_same creates _ _ th) by done.
        intros H. by apply running_not_nascent in H.
    + cbn. by rewrite lookup_insert_eq.
    + done.
    + intros _. exact Hres.
    + intros _. apply (idle_stack_push [_]); [by repeat constructor|auto].
    + done.
    + done.
  - apply bool_decide_eq_false in Eid.
    eapply wp_Ok; [apply thread_enqueue_run; [exact Ht|done|exact (running_unlisted s Hwf Hrun)|apply (wf_policy _ Hwf)]|].
    apply wp_bind. eapply wp_upd_thread; [cbn; apply lookup_insert_eq|].
    apply wp_bind. eapply wp_upd_thread; [cbn; apply lookup_insert_eq|].
    apply (HQ _ th'); [split|done|by rewrite decide_False|done..].
    + eapply (wf_place s _ Qready t th th'); try done; cbn; rewrite ?insert_insert_eq; try done.
      * split; try done. eauto.
      * intros q' Hq'. rewrite (running_filter s t th) by done. by destruct q'.
      * pose proof (running_filter s t th Qready Hwf Ht Hst) as E. cbn in E. rewrite E.
        apply (ready_insert_perm s1).
      * eapply (in_order_insert s _ Qready t th th'); cbn; rewrite ?insert_insert_eq; try done.
        apply (wf_order _ Hwf).
      * by apply running_alive.
      * intros l. apply (wf_donated _ Hwf _ _ _ Ht).
      * eapply stack_ok_push; try done; repeat constructor.
      * rewrite (frames_of_same creates _ _ th) by done. by apply running_not_nascent.
    + cbn. by rewrite lookup_insert_eq.
    + done.
    + intros _. exact Hres.
    + done.
    + done.
    + done.
Qed.

Lemma wp_thread_yield pan s : kernel_ok s → wp pan thread_yield (λ _, kernel_ok) s.
Proof. intros Hok. apply wp_yield_to; [done|]. intros s1 th1 [] _ _ _ _ _. by eapply wp_schedule. Qed.

(** It has the highest priority of the threads that can run. *)
Lemma dispatched_highest s th n thn s' :
  at_schedule s th → dispatched s th n thn s' → active_sched_policy s = SCHED_PRIO →
  cur s' = n ∧ ∀ u, u ∈ ready_list s' → pri_of s' u ≤ pri_of s' n.
Proof.
  intros Has Hd Hp. pose proof (dispatched_ok _ _ _ _ _ Has Hd) as (Hwf' & _).
  destruct Has as [Hwf Hc _ _ _ _ _]. destruct Hd as [Hsrc Hn Hs'].
  assert (ready_list s' = filter (.≠ n) (ready_list s) ∧ cur s' = n ∧
    (∀ u, is_Some (threads s' !! u) → pri_of s' u = pri_of s u)) as (Er & Ec & Hpri).
  { destruct Hs' as [->|(_ & Hne & ->)]; (split; [done|split; [done|]]); intros u [thu Hu]; unfold pri_of; cbn in *.
    - destruct (decide (u = n)) as [->|Hu']; [by rewrite lookup_insert_eq, Hn|by rewrite lookup_insert_ne].
    - apply lookup_delete_Some in Hu as [Hu Hu2]. rewrite lookup_delete_ne by done.
      destruct (decide (u = n)) as [->|Hu']; [by rewrite lookup_insert_eq, Hn|by rewrite lookup_insert_ne]. }
  split; [done|]. intros u Hin. destruct (wf_listed _ Hwf' Qready u Hin) as (thu & Hthu & _).
  rewrite !Hpri by (eauto; rewrite <- Ec; apply (wf_cur _ Hwf')). rewrite Er in Hin.
  apply list_elem_of_filter in Hin as [Hne Hin]. pose proof (wf_order _ Hwf Qready Hp) as Hs.
  destruct Hsrc as [Hh|[E _]]; [|rewrite E in Hin; by apply not_elem_of_nil in Hin].
  destruct (ready_list s) as [|x xs]; [done|]. injection Hh as ->.
  apply Sorted_StronglySorted in Hs; [|apply pri_order_trans]. inversion Hs as [|? ? _ Hall]; subst.
  rewrite Forall_forall in Hall. apply elem_of_cons in Hin as [->|Hin]; [done|by apply Hall].
Qed.

(** ** Updates of one thread in its place *)

Lemma wf_update s t th th' :
  wf s → threads s !! t = Some th → status th' = status th → queue th' = queue th →
  lock_queue th' ≡ₚ lock_queue th → (e_pri th' = e_pri th ∨ ∀ q, t ∉ qlist s q) → alive th →
  (∀ l, donated_for th' = Some l → is_Some (locks s !! l)) →
  stack_ok s t th th' → wf (set_thread t th' s).
Proof.
  intros Hwf Ht Hs Hq Hl Hp Ha Hd Hst. eapply (wf_move s _ t th th'); try done.
  - apply same_rest_thread.
  - apply (wf_nodup _ Hwf).
  - intros q. destruct Hp as [Hp|Hp].
    + assert (∀ a b, pri_order s a b → pri_order (set_thread t th' s) a b) as Hm.
      { intros a b. unfold pri_order. by rewrite !(pri_of_insert s (set_thread t th' s) t th th'). }
      pose proof (wf_order _ Hwf q) as H. destruct q; unfold in_order in *; cbn in *; try done.
      * intros Hpo. eapply Sorted_mono; [|by apply H]. auto.
      * eapply Sorted_mono; [|exact H]. auto.
    + eapply (in_order_filter s _ t th'); [done|done| |apply (wf_order _ Hwf)].
      rewrite filter_ne_id by done. by destruct q.
  - intros q Hin. assert (t ∈ qlist s q) as Hin' by (by destruct q).
    destruct (wf_listed _ Hwf _ _ Hin') as (th0 & ? & ? & ?). simplify_eq.
    split_and!; [congruence|congruence|]. intros c ->. rewrite (wf_conds _ Hwf) in Hin'.
    by apply not_elem_of_nil in Hin'.
  - pose proof (wf_thread _ Hwf _ _ Ht) as Hok. unfold thread_ok in *. rewrite Hs, Hq.
    destruct (status th) eqn:E; [done|done| | |]; [|by destruct Ha..].
    destruct Hok as [(q & ? & ?)|Hn]; [left; exists q; by destruct q|right].
    rewrite Hn in Hl. by apply Permutation_nil_r in Hl.
  - unfold alive. by rewrite Hs.
  - intros Hin. rewrite Hs, Hq.
    assert (t ∈ frames_of creates (threads s)) as Hin'.
    { eapply elem_of_submseteq; [exact Hin|]. eapply frames_of_submseteq; [done|]. apply Hst. }
    destruct (wf_creates _ Hwf) as [_ H]. destruct (H _ Hin') as (th0 & ? & ?). by simplify_eq.
  - intros Hi. destruct (wf_idle _ Hwf) as (i & thi & ? & ? & _ & _ & _ & ? & Hn). simplify_eq.
    split; [by rewrite Hq|]. intros q. specialize (Hn q). by destruct q.
Qed.

(** Fields the invariant does not look at. *)
Lemma wf_quiet s t th th' :
  wf s → threads s !! t = Some th → status th' = status th → queue th' = queue th →
  lock_queue th' ≡ₚ lock_queue th → (e_pri th' = e_pri th ∨ ∀ q, t ∉ qlist s q) → alive th →
  (∀ l, donated_for th' = Some l → is_Some (locks s !! l)) → kstack th' = kstack th →
  wf (set_thread t th' s).
Proof.
  intros Hwf Ht Hs Hq Hl Hp Ha Hd Hk. eapply wf_update; try done. eapply stack_ok_same; [done..|].
  done.
Qed.

Lemma wf_push s t th fs :
  wf s → threads s !! t = Some th → alive th → Forall (frame_ok s t) fs → Forall plain fs →
  (idle_thread s = Some t → Forall lock_free fs) →
  (t ≠ cur s → resumes INTR_OFF (fs ++ kstack th)) →
  wf (set_thread t (set_kstack (fs ++ kstack th) th) s).
Proof.
  intros Hwf Ht Ha Hf Hp Hi Hr. eapply wf_update; try done; [by left| |].
  - intros l. apply (wf_donated _ Hwf _ _ _ Ht).
  - by eapply stack_ok_push.
Qed.

(** ** Sleeping in a queue *)

Lemma elem_insert_ordered_run less q t th s :
  threads s !! t = Some th → queue_exists s q = true → elem_in s t = None →
  elem_insert_ordered less q t s =
    Ok ((), with_qlist q (KListSpec.insert_ordered (less s) t (qlist s q)) s).
Proof.
  intros Ht He Hn. unfold elem_insert_ordered. erewrite bind_Ok by done. unfold elem_insert.
  erewrite bind_Ok; [|unfold get_thread; by rewrite Ht]. erewrite bind_Ok by done.
  by rewrite He, bool_decide_true.
Qed.

Lemma threads_upd t g th s : threads s !! t = Some th →
  threads (set_thread t (g th) s) = <[t := g th]> (threads s).
Proof. done. Qed.

Lemma wp_park pan s t th q less again :
  wf s → cur s = t → threads s !! t = Some th → status th = THREAD_RUNNING →
  in_external_intr s = false → level s = INTR_OFF →
  (q = Qsleep ∨ ∃ r, q = Qsema r ∧ is_Some (semas s !! r) ∧ less = thread_before) →
  idle_thread s ≠ Some t → frame_ok s t again → plain again →
  resumes INTR_OFF (again :: kstack th) →
  wp pan (elem_insert_ordered less q t;; upd_thread t (set_queue (Some q));;
          push_frames t [again];; thread_block) (λ _, kernel_ok) s.
Proof.
  intros Hwf Hc Ht Hst Hi Hl Hq Hid Hfr Hpl Hres.
  assert (running s) as Hrun by (exists th; by rewrite Hc).
  assert (queue_exists s q = true) as He.
  { destruct Hq as [->|(r & -> & ? & _)]; [apply sleep_exists|by apply sema_exists]. }
  assert (q ≠ Qready ∧ ∀ c, q ≠ Qcond c) as [Hq1 Hq2] by (destruct Hq as [->|(? & -> & _)]; done).
  apply wp_bind. eapply wp_Ok.
  { eapply elem_insert_ordered_run; [done..|]. rewrite <- Hc. by apply running_unlisted. }
  set (xs := KListSpec.insert_ordered _ _ _). set (s1 := with_qlist q xs s).
  assert (threads s1 !! t = Some th) as Ht1 by (unfold s1; by rewrite threads_with_qlist).
  apply wp_bind. eapply wp_upd_thread; [exact Ht1|].
  apply wp_bind. eapply wp_upd_thread; [cbn; apply lookup_insert_eq|].
  set (s3 := with_threads _ (with_threads _ s1)). set (th3 := set_kstack _ _) in s3.
  assert (threads s3 = <[t := th3]> (threads s)) as E3.
  { unfold s3. cbn. rewrite insert_insert_eq. unfold s1. by rewrite threads_with_qlist. }
  assert (∀ A (f : kstate → A), (∀ s xs, f (with_qlist q xs s) = f s) →
            (∀ x s, f (with_threads x s) = f s) → f s3 = f s) as Hf.
  { intros A f H1 H2. unfold s3. rewrite !H2. apply H1. }
  unfold thread_block. apply wp_bind, wp_gets. rewrite (Hf _ in_external_intr) by (done || by destruct q).
  apply wp_bind, wp_ASSERT; [by rewrite Hi|]. apply wp_bind, wp_gets.
  rewrite (Hf _ level) by (done || by destruct q).
  apply wp_bind, wp_ASSERT; [by apply bool_decide_true|].
  assert (cur s3 = t) as Hc3 by (rewrite (Hf _ cur); [done|by destruct q|done]).
  apply wp_bind. eapply wp_Ok.
  { apply thread_current_run. exists th3. rewrite Hc3, E3, lookup_insert_eq. done. }
  rewrite Hc3. apply wp_bind. eapply wp_upd_thread; [by rewrite E3, lookup_insert_eq|].
  set (th4 := set_status THREAD_BLOCKED th3).
  assert (same_rest s s3) as Hsame.
  { eapply same_rest_trans; [apply (same_rest_qlist q xs)|]. split; try done. eauto. }
  assert (threads (with_threads (<[t:=th4]> (threads s3)) s3) = <[t := th4]> (threads s)) as E4.
  { transitivity (<[t:=th4]> (threads s3)); [done|]. by rewrite E3, insert_insert_eq. }
  eapply (wp_schedule _ _ th4).
  - eapply (wf_place s _ q t th th4); try done.
    + eapply same_rest_trans; [exact Hsame|]. split; try done. eauto.
    + intros q' Hne. rewrite (running_filter s t th) by done.
      rewrite <- (qlist_with_ne s q q' xs Hne). by destruct q'.
    + rewrite (running_filter s t th) by done.
      assert (qlist (with_threads (<[t:=th4]> (threads s3)) s3) q = xs) as ->.
      { etransitivity; [|apply (qlist_with_eq s q xs He)]. by destruct q. }
      apply KListRefine.insert_ordered_perm.
    + eapply (in_order_insert s _ q t th th4); try done; [by destruct q|apply (wf_order _ Hwf)|].
      destruct Hq as [->|(r & -> & _ & ->)]; [done|]. apply (qlist_with_eq s _ xs He).
    + by destruct Hq as [->|(? & -> & _)].
    + by apply running_alive.
    + intros l. apply (wf_donated _ Hwf _ _ _ Ht).
    + eapply (stack_ok_push s t th th4 [again]); try done; by apply Forall_singleton.
    + rewrite E4, (frames_of_same creates _ _ th) by (done || cbn; by destruct Hpl as [-> _]).
      rewrite <- Hc. by apply running_not_nascent.
  - change (cur _) with (cur s3). rewrite Hc3, E4. apply lookup_insert_eq.
  - done.
  - intros _. exact Hres.
  - change (idle_thread s3 = Some (cur s3) → idle_stack (kstack th4)). rewrite Hc3.
    rewrite (Hf _ idle_thread) by (done || by destruct q). done.
  - change (level s3 = INTR_OFF). rewrite (Hf _ level) by (done || by destruct q). done.
  - change (in_external_intr s3 = false). rewrite (Hf _ in_external_intr) by (done || by destruct q). done.
Qed.

End SchedOps.
