(* ===== verification/SchedSync.v ===== *)
(** * Semaphores and locks keep the scheduler's invariant *)

From S2P Require Import Prelude KListSpec KListSort KListRefine Kernel Thread Synch Timer Machine SchedInv SchedOps.
Import Kernel Thread Synch Timer Machine SchedInv SchedOps.

Module SchedSync.

#[local] Arguments in_order : simpl never.

(** ** Waking a thread up *)

Lemma wf_wake s q t ts th :
  wf s → qlist s q = t :: ts → q ≠ Qready → threads s !! t = Some th →
  wf (enqueued t th (with_qlist q ts s)) ∧ elem_in (with_qlist q ts s) t = None ∧
  status th = THREAD_BLOCKED.
Proof.
  intros Hwf Hq Hne Ht. assert (t ∈ qlist s q) as Hin by (rewrite Hq; left).
  destruct (wf_listed _ Hwf _ _ Hin) as (th0 & ? & Hqu & Hst). simplify_eq.
  assert (status th = THREAD_BLOCKED) as Hb by (destruct q; done).
  assert (t ∉ ts) as Hts.
  { pose proof (wf_nodup _ Hwf q) as Hnd. rewrite Hq in Hnd. by apply NoDup_cons in Hnd as [? _]. }
  assert (queue_exists s q = true) as He by (apply bool_decide_true; by eapply qlist_exists).
  assert (∀ q', qlist (with_qlist q ts s) q' = filter (.≠ t) (qlist s q')) as Hf.
  { intros q'. destruct (decide (q' = q)) as [->|Hn].
    - by rewrite qlist_with_eq, Hq, filter_ne_head.
    - rewrite qlist_with_ne, filter_ne_id; [done| |done]. intros Hin'.
      destruct (wf_listed _ Hwf _ _ Hin') as (? & ? & ? & _). congruence. }
  set (s1 := with_qlist q ts s) in *.
  assert (threads s1 = threads s) as E1 by (unfold s1; apply threads_with_qlist).
  split_and!; [|apply elem_in_None; intros q'; rewrite Hf, list_elem_of_filter; naive_solver|done].
  assert (same_rest s s1) as Hsame by apply same_rest_qlist.
  set (th' := set_status THREAD_READY (set_queue (Some Qready) th)).
  eapply (wf_place s _ Qready t th th'); try done.
  - cbn. by rewrite E1.
  - eapply same_rest_trans; [exact Hsame|]. split; try done. eauto.
  - intros q' Hn. rewrite <- Hf. by destruct q'.
  - rewrite <- Hf. apply (ready_insert_perm s1).
  - eapply (in_order_insert s1 _ Qready t th th'); try done; [by rewrite E1|].
    destruct (decide (q = Qready)); [done|].
    eapply (in_order_filter s s1 t th); [|apply Hsame|apply Hf|apply (wf_order _ Hwf)].
    by rewrite E1, insert_id.
  - unfold alive. by rewrite Hb.
  - intros l. apply (wf_donated _ Hwf _ _ _ Ht).
  - apply stack_ok_same; try done. unfold alive. by rewrite Hb.
  - cbn. rewrite E1, (frames_of_same creates _ _ th) by done. by eapply wf_not_nascent.
  - by eapply wf_idle_unlisted.
Qed.

Lemma wf_enqueue s t th :
  wf s → threads s !! t = Some th → status th = THREAD_BLOCKED → (∀ q, t ∉ qlist s q) →
  t ∉ frames_of creates (threads s) → idle_thread s ≠ Some t → wf (enqueued t th s).
Proof.
  intros Hwf Ht Hb Hn Hc Hi. set (th' := set_status THREAD_READY (set_queue (Some Qready) th)).
  eapply (wf_place s _ Qready t th th'); try done.
  - split; try done. eauto.
  - intros q' Hne. rewrite filter_ne_id by done. by destruct q'.
  - rewrite filter_ne_id by done. apply (ready_insert_perm s).
  - eapply (in_order_insert s _ Qready t th th'); try done. apply (wf_order _ Hwf).
  - unfold alive. by rewrite Hb.
  - intros l. apply (wf_donated _ Hwf _ _ _ Ht).
  - apply stack_ok_same; try done. unfold alive. by rewrite Hb.
  - cbn. by rewrite (frames_of_same creates _ _ th).
Qed.

(** ** Values of semaphores, fields of locks *)

Lemma wf_sema_value s r x v :
  wf s → semas s !! r = Some x →
  (∀ l k, r = SemaLock l → locks s !! l = Some k →
     (v = 0 ∨ v = 1) ∧ (v = 1 → holder k = None ∧ l ∉ frames_of releases (threads s))) →
  wf (with_semas (<[r := Semaphore v (waiters x)]> (semas s)) s).
Proof.
  intros Hwf Hx Hl. set (s' := with_semas _ s).
  assert (∀ q, qlist s' q = qlist s q) as Hq.
  { intros [| |r'|c]; cbn; try done. destruct (decide (r' = r)) as [->|].
    - by rewrite lookup_insert_eq, Hx.
    - by rewrite lookup_insert_ne. }
  destruct Hwf as [H1 H2 H3 H4 H5 H6 H7 H8 H9 H10 H11 H12 H13 H14 H15 H16 H17 H18 H19].
  split; try done.
  - intros q. rewrite Hq. apply H1.
  - intros q t. rewrite Hq. apply H2.
  - intros q. specialize (H4 q). unfold in_order in *. destruct q; try done. rewrite Hq. exact H4.
  - intros t th Ht. specialize (H5 t th Ht). unfold thread_ok in *. destruct (status th); try done.
    destruct H5 as [(q & ? & ?)|?]; [left; exists q; by rewrite Hq|by right].
  - intros l k Hk. destruct (decide (r = SemaLock l)) as [->|Hne].
    + eexists. cbn. rewrite lookup_insert_eq. split; [done|]. cbn. destruct (Hl l k) as [Ha Hb]; [done..|].
      split_and!; [done..|]. destruct (H10 _ _ Hk) as (? & _ & _ & _ & ?). done.
    + apply (lock_ok_mono s); [cbn; by rewrite lookup_insert_ne|done|auto].
  - intros t th Ht. eapply Forall_impl; [by eapply H13|]. intros f.
    apply frame_ok_mono; [|done|done]. intros r'. cbn. rewrite lookup_insert_is_Some'. auto.
  - destruct H16 as (i & th & ? & ? & ? & ? & ? & ? & Hn). exists i, th. split_and!; try done.
    intros q. by rewrite Hq.
Qed.

Lemma wf_lock_fields s l k k' :
  wf s → locks s !! l = Some k → holder k' = holder k →
  wf (with_locks (<[l := k']> (locks s)) s).
Proof.
  intros Hwf Hk Hh. set (s' := with_locks _ s).
  assert (∀ m km, locks s !! m = Some km → ∃ km', locks s' !! m = Some km' ∧ holder km' = holder km) as H.
  { intros m km Hm. cbn. destruct (decide (m = l)) as [->|].
    - rewrite lookup_insert_eq. eexists. split; [done|]. congruence.
    - rewrite lookup_insert_ne by done. eauto. }
  assert (∀ m km', locks s' !! m = Some km' → ∃ km, locks s !! m = Some km ∧ holder km' = holder km) as H'.
  { intros m km Hm. cbn in Hm. destruct (decide (m = l)) as [->|].
    - rewrite lookup_insert_eq in Hm. simplify_eq. eauto.
    - rewrite lookup_insert_ne in Hm by done. eauto. }
  assert (∀ m, is_Some (locks s !! m) → is_Some (locks s' !! m)) as Hs.
  { intros m. cbn. rewrite lookup_insert_is_Some'. auto. }
  destruct Hwf as [H1 H2 H3 H4 H5 H6 H7 H8 H9 H10 H11 H12 H13 H14 H15 H16 H17 H18 H19].
  split; try done.
  - intros t th m Ht Hm. destruct (H7 _ _ _ Ht Hm) as (km & Hkm & E).
    destruct (H _ _ Hkm) as (km' & ? & E'). exists km'. split; [done|congruence].
  - intros m km t Hm E. destruct (H' _ _ Hm) as (km0 & Hm0 & E0). eapply H8; [done|congruence].
  - intros m km Hm. destruct (H' _ _ Hm) as (km0 & Hm0 & E0).
    destruct (H10 _ _ Hm0) as (x & ? & ? & ? & ?). exists x. rewrite E0. done.
  - destruct H11 as [? Hr]. split; [done|]. intros m Hm. by apply Hs, Hr.
  - intros t th m Ht Hm. apply Hs. by eapply H12.
  - intros t th Ht. eapply Forall_impl; [by eapply H13|]. intros f.
    by apply frame_ok_mono.
  - by apply Hs.
Qed.

(** ** Taking and giving back a lock *)

Lemma wf_lock_change s s' t th th' l k k' x v :
  wf s → cur s = t → threads s !! t = Some th → status th = THREAD_RUNNING →
  locks s !! l = Some k → semas s !! SemaLock l = Some x →
  threads s' = <[t := th']> (threads s) → locks s' = <[l := k']> (locks s) →
  semas s' = <[SemaLock l := Semaphore v (waiters x)]> (semas s) →
  conds s' = conds s → ready_list s' = ready_list s → timer_sleep_list s' = timer_sleep_list s →
  all_list s' = all_list s → idle_thread s' = idle_thread s → cur s' = cur s →
  active_sched_policy s' = active_sched_policy s →
  status th' = status th → queue th' = queue th → idle_thread s ≠ Some t →
  (∀ m, donated_for th' = Some m → is_Some (locks s !! m)) →
  (holder k = None ∨ holder k = Some t) → (holder k' = None ∨ holder k' = Some t) →
  (∀ m, m ∈ lock_queue th' ↔ m ≠ l ∧ m ∈ lock_queue th ∨ m = l ∧ holder k' = Some t) →
  NoDup (lock_queue th') → lock_ok s' l k' →
  (∀ m, m ∈ frames_of releases (threads s') → m = l ∨ m ∈ frames_of releases (threads s)) →
  NoDup (frames_of releases (threads s')) →
  Forall (frame_ok s t) (kstack th') → omap creates (kstack th') ⊆+ omap creates (kstack th) →
  wf s'.
Proof.
  intros Hwf Hc Ht Hst Hk Hx Eth El Es Eco Er Esl Ea Ei Ec Ep Hst' Hqu Hid Hdon Hhk Hhk' Hlq Hnd Hlo
    Hrel Hrnd Hfr Hcr.
  assert (∀ q, qlist s' q = qlist s q) as Hq.
  { intros [| |r'|c]; cbn; rewrite ?Es, ?Eco, ?Er, ?Esl; try done.
    destruct (decide (r' = SemaLock l)) as [->|].
    - by rewrite lookup_insert_eq, Hx.
    - by rewrite lookup_insert_ne. }
  assert (∀ u, u ≠ t → threads s' !! u = threads s !! u) as Hu
    by (intros u Hu; by rewrite Eth, lookup_insert_ne).
  assert (threads s' !! t = Some th') as Ht' by (by rewrite Eth, lookup_insert_eq).
  assert (∀ m, m ≠ l → locks s' !! m = locks s !! m) as Hm by (intros m ?; by rewrite El, lookup_insert_ne).
  assert (locks s' !! l = Some k') as Hk' by (by rewrite El, lookup_insert_eq).
  assert (∀ m, is_Some (locks s !! m) → is_Some (locks s' !! m)) as Hls
    by (intros m; rewrite El, lookup_insert_is_Some'; auto).
  assert (∀ r, is_Some (semas s !! r) → is_Some (semas s' !! r)) as Hss
    by (intros r; rewrite Es, lookup_insert_is_Some'; auto).
  assert (frames_of creates (threads s') ⊆+ frames_of creates (threads s)) as Hc'
    by (rewrite Eth; by eapply frames_of_submseteq).
  assert (∀ t f, frame_ok s t f → frame_ok s' t f) as Hf
    by (intros u f; by apply frame_ok_mono).
  assert (∀ q, t ∉ qlist s q) as Hun by (intros q; by eapply wf_running_unlisted).
  split.
  - intros q. rewrite Hq. apply (wf_nodup _ Hwf).
  - intros q u. rewrite Hq. intros Hin. rewrite Hu; [by apply (wf_listed _ Hwf)|].
    intros ->. by apply (Hun q).
  - intros c. rewrite Hq. apply (wf_conds _ Hwf).
  - intros q. eapply (in_order_filter s _ t th'); [done|done| |apply (wf_order _ Hwf)].
    by rewrite Hq, filter_ne_id.
  - intros u thu Hthu. destruct (decide (u = t)) as [->|Hne].
    + assert (thu = th') as -> by congruence. unfold thread_ok. rewrite Hst', Hst. congruence.
    + rewrite Hu in Hthu by done. pose proof (wf_thread _ Hwf _ _ Hthu) as H. unfold thread_ok in *.
      rewrite Ec, Ei, Er. destruct (status thu); try done.
      destruct H as [(q & ? & ?)|?]; [left; exists q; by rewrite Hq|by right].
  - rewrite Ec, Hc, Ht'. eauto.
  - intros u thu m Hthu Hin. destruct (decide (u = t)) as [->|Hne].
    + assert (thu = th') as -> by congruence. apply Hlq in Hin as [[Hne Hin]|[-> ?]]; [|by eauto].
      rewrite Hm by done. by eapply wf_holds.
    + rewrite Hu in Hthu by done. destruct (wf_holds _ Hwf _ _ _ Hthu Hin) as (km & Hkm & E).
      rewrite Hm; [eauto|]. intros ->. assert (km = k) as -> by congruence. naive_solver.
  - intros m km u Hkm E. destruct (decide (m = l)) as [->|Hne].
    + assert (km = k') as -> by congruence. assert (u = t) as -> by naive_solver. exists th'. split; [done|]. apply Hlq. by right.
    + rewrite Hm in Hkm by done. destruct (wf_held _ Hwf _ _ _ Hkm E) as (thu & Hthu & Hin).
      destruct (decide (u = t)) as [->|Hne'].
      * exists th'. split; [done|]. assert (thu = th) as -> by congruence. apply Hlq. by left.
      * exists thu. by rewrite Hu.
  - intros u thu Hthu. destruct (decide (u = t)) as [->|Hne].
    { by assert (thu = th') as -> by congruence. }
    rewrite Hu in Hthu by done. by eapply wf_lockq.
  - intros m km Hkm. destruct (decide (m = l)) as [->|Hne].
    { by assert (km = k') as -> by congruence. }
    rewrite Hm in Hkm by done. apply (lock_ok_mono s); [rewrite Es, lookup_insert_ne; congruence| |].
    + intros Hin. by destruct (Hrel _ Hin).
    + by apply (wf_lock _ Hwf).
  - split; [done|]. intros m Hin. apply Hls. destruct (Hrel _ Hin) as [->|Hin']; [eauto|].
    by apply (wf_releases _ Hwf).
  - intros u thu m Hthu Hd. apply Hls. destruct (decide (u = t)) as [->|Hne].
    + assert (thu = th') as -> by congruence. auto.
    + rewrite Hu in Hthu by done. by eapply wf_donated.
  - intros u thu Hthu. destruct (decide (u = t)) as [->|Hne].
    + assert (thu = th') as -> by congruence. eapply Forall_impl; [done|intros f; apply Hf].
    + rewrite Hu in Hthu by done. eapply Forall_impl; [by eapply wf_frames|intros f; apply Hf].
  - intros u thu Hthu Ha Hne. rewrite Ec, Hc in Hne. rewrite Hu in Hthu by done.
    apply (wf_resumes _ Hwf _ _ Hthu Ha). congruence.
  - destruct (wf_creates _ Hwf) as [H1 H2]. split; [by eapply NoDup_submseteq|].
    intros u Hin. destruct (H2 u) as (thu & Hthu & Hb & Hn); [by eapply elem_of_submseteq|].
    exists thu. rewrite Hu; [done|]. intros ->. congruence.
  - destruct (wf_idle _ Hwf) as (i & thi & Hi & Hthi & Hl & Hs & Ha & Hqn & Hnl). exists i, thi.
    rewrite Ei, Hu by congruence. rewrite Ec. split_and!; try done. intros q. by rewrite Hq.
  - rewrite Ea. destruct (wf_all _ Hwf) as [H1 H2]. split; [done|]. intros u. rewrite H2.
    destruct (decide (u = t)) as [->|Hne]; [|by rewrite Hu].
    assert (alive th) by (by apply running_alive).
    assert (alive th') by (apply running_alive; congruence).
    split; intros _; eauto.
  - rewrite Ep. apply (wf_policy _ Hwf).
  - by apply Hls, (wf_tid_lock _ Hwf).
Qed.

(** ** Semaphores *)

(** The running thread is as before, up to its stack. *)
Lemma kernel_ok_level s th lvl :
  wf s → threads s !! cur s = Some th → status th = THREAD_RUNNING → in_external_intr s = false →
  resumes lvl (kstack th) → (idle_thread s = Some (cur s) → idle_stack (kstack th)) →
  kernel_ok (with_level lvl s).
Proof.
  intros Hwf Ht Hst Hi Hr Hid. unfold kernel_ok, stack_of. cbn. rewrite Ht.
  split_and!; try done; [|by exists th]. eapply wf_ext; [|done]. done.
Qed.

Lemma wp_intr_set_level pan old (Q : intr_level → kstate → Prop) s :
  in_external_intr s = false → Q (level s) (with_level old s) → wp pan (intr_set_level old) Q s.
Proof. intros Hi HQ. eapply wp_Ok; [by apply intr_set_level_run|done]. Qed.

Lemma wp_push_frames pan t fs th (Q : unit → kstate → Prop) s :
  threads s !! t = Some th → Q () (set_thread t (set_kstack (fs ++ kstack th) th) s) →
  wp pan (push_frames t fs) Q s.
Proof. intros Ht HQ. eapply wp_Ok; [by apply push_frames_run|done]. Qed.

Lemma kernel_ok_push s th fs :
  kernel_ok s → threads s !! cur s = Some th → Forall (frame_ok s (cur s)) fs → Forall plain fs →
  (idle_thread s = Some (cur s) → Forall lock_free fs) → resumes (level s) (fs ++ kstack th) →
  kernel_ok (set_thread (cur s) (set_kstack (fs ++ kstack th) th) s).
Proof.
  intros (Hwf & (th0 & Ht0 & Hst) & Hi & _ & Hids) Ht Hf Hp Hid Hr. assert (th0 = th) as -> by congruence.
  rewrite (stack_of_eq _ _ _ Ht) in Hids. split_and!; [| |done|..].
  - eapply wf_push; try done. by apply running_alive.
  - eexists. split; [apply lookup_insert_eq|done].
  - unfold stack_of. cbn. rewrite lookup_insert_eq. exact Hr.
  - unfold stack_of. cbn. rewrite lookup_insert_eq. intros Hii. apply idle_stack_push; [by apply Hid|auto].
Qed.

Lemma wp_sema_up pan s r x :
  kernel_ok s → semas s !! r = Some x →
  (∀ l k, r = SemaLock l → locks s !! l = Some k →
     value x = 0 ∧ holder k = None ∧ l ∉ frames_of releases (threads s)) →
  wp pan (sema_up r) (λ _, kernel_ok) s.
Proof.
  intros (Hwf & (th & Ht & Hst) & Hi & Hres & Hids) Hx Hlk. rewrite (stack_of_eq _ _ _ Ht) in Hres, Hids.
  unfold sema_up. apply wp_bind. eapply wp_Ok; [done|]. set (s1 := with_level INTR_OFF s).
  apply wp_bind. eapply wp_get_sema; [exact Hx|].
  apply wp_bind. unfold elem_pop_front. apply wp_bind, wp_get.
  change (qlist s1 (Qsema r)) with (from_option waiters [] (semas s !! r)). rewrite Hx. cbn [from_option].
  destruct (waiters x) as [|w ws] eqn:Ew.
  - apply wp_ret. apply wp_bind, wp_ret, wp_bind. eapply wp_get_sema; [exact Hx|].
    apply wp_bind, wp_modify, wp_bind, wp_intr_set_level; [done|].
    unfold push_wake_check. apply wp_bind, wp_gets, wp_ret.
    apply (kernel_ok_level _ th); try done.
    rewrite Ew, <- Ew. eapply wf_ext; [|apply (wf_sema_value s r x (u32 (value x + 1)) Hwf Hx)]; [done|].
    intros l k -> Hk. destruct (Hlk l k) as (-> & ? & ?); [done..|]. split; [by right|done].
  - assert (qlist s (Qsema r) = w :: ws) as Eq by (cbn; by rewrite Hx).
    assert (w ∈ qlist s (Qsema r)) as Hin by (rewrite Eq; left).
    destruct (wf_listed _ Hwf _ _ Hin) as (thw & Hw & _ & Hbw).
    destruct (wf_wake s (Qsema r) w ws thw Hwf Eq) as (Hwf2 & Hun & _); [done..|].
    assert (w ≠ cur s) as Hwc by (intros ->; simplify_eq; cbn in Hbw; congruence).
    apply wp_bind, wp_put, wp_ret. set (s2 := with_qlist (Qsema r) ws s1).
    apply wp_bind. eapply wp_Ok.
    { apply (thread_unblock_run s2 w thw); [done|done|exact Hun|apply (wf_policy _ Hwf)|done]. }
    set (s3 := enqueued w thw s2).
    assert (wf s3) as Hwf3 by (eapply wf_ext; [|exact Hwf2]; done).
    assert (semas s3 !! r = Some (Semaphore (value x) ws)) as Hx3.
    { cbn. by rewrite lookup_alter_eq, Hx. }
    apply wp_bind. eapply wp_get_sema; [exact Hx3|].
    apply wp_bind, wp_modify, wp_bind, wp_intr_set_level; [done|].
    unfold push_wake_check. apply wp_bind, wp_gets. cbn [in_external_intr with_level with_semas].
    change (in_external_intr s3) with (in_external_intr s). rewrite Hi.
    apply wp_bind, wp_gets. set (s4 := with_level _ _).
    assert (threads s4 !! cur s = Some th) as Ht4.
    { cbn. by rewrite lookup_insert_ne. }
    eapply wp_push_frames; [exact Ht4|]. apply (kernel_ok_push s4 th [F_wake_check w]).
    + unfold kernel_ok. rewrite (stack_of_eq s4 (cur s4) th Ht4).
      split_and!; [|by exists th|done|done|done].
      eapply wf_ext; [|apply (wf_sema_value s3 r _ (u32 (value x + 1)) Hwf3 Hx3)]; [done|].
      intros l k -> Hk. destruct (Hlk l k) as (-> & ? & ?); [done..|]. split; [by right|].
      intros _. split; [done|]. cbn. rewrite (frames_of_same releases _ _ thw) by done. done.
    + done.
    + by repeat constructor.
    + by repeat constructor.
    + by repeat constructor.
    + exact Hres.
Qed.

(** The loop of [sema_down], for a thread that is not the idle one. *)
Lemma wp_sema_down_loop pan s r x th again rest (Q := λ _ : unit, kernel_ok) :
  wf s → threads s !! cur s = Some th → status th = THREAD_RUNNING → in_external_intr s = false →
  level s = INTR_OFF → semas s !! r = Some x → idle_thread s ≠ Some (cur s) →
  frame_ok s (cur s) again → plain again → resumes INTR_OFF (again :: kstack th) →
  (value x ≠ 0 →
   wp pan rest Q (with_semas (<[r := Semaphore (value x - 1) (waiters x)]> (semas s)) s)) →
  wp pan (sema_down_loop r again rest) Q s.
Proof.
  intros Hwf Ht Hst Hi Hl Hx Hid Hf Hp Hres HQ. unfold sema_down_loop.
  apply wp_bind. eapply wp_get_sema; [done|]. case_decide as Hv.
  - apply wp_bind. eapply wp_Ok; [apply thread_current_run; by exists th|].
    eapply (wp_park pan s (cur s) th); try done. right. exists r. split_and!; [done|eauto|done].
  - apply wp_bind, wp_modify. auto.
Qed.

Lemma wp_sema_down_resume pan s n x th old :
  wf s → threads s !! cur s = Some th → status th = THREAD_RUNNING → in_external_intr s = false →
  level s = INTR_OFF → semas s !! SemaFree n = Some x → idle_thread s ≠ Some (cur s) →
  resumes old (kstack th) →
  wp pan (sema_down_resume (SemaFree n) old) (λ _, kernel_ok) s.
Proof.
  intros Hwf Ht Hst Hi Hl Hx Hid Hres. eapply wp_sema_down_loop; try done; [by eexists|].
  intros _. apply wp_bind, wp_intr_set_level; [done|]. apply wp_ret.
  apply (kernel_ok_level _ th); try done.
  apply wf_sema_value; [done..|]. intros l k [=].
Qed.

End SchedSync.
