(* ===== verification/SchedLock.v ===== *)
(** * Locks and priority donation keep the scheduler's invariant *)

From S2P Require Import Prelude KListSpec KListSort KListRefine Kernel Thread Synch Timer Machine.
From S2P Require Import SchedInv SchedOps SchedSync.
Import Kernel Thread Synch Timer Machine SchedInv SchedOps SchedSync.

Module SchedLock.

#[local] Arguments in_order : simpl never.

(** ** The list a lock's element is in *)

Lemma lock_elem_in_None s l :
  (∀ t th, threads s !! t = Some th → l ∉ lock_queue th) → lock_elem_in s l = None.
Proof.
  intros H. unfold lock_elem_in. destruct (list_find _ _) as [[i [t th]]|] eqn:E; [|done].
  apply list_find_Some in E as (Hi & Hin & _). apply list_elem_of_lookup_2, elem_of_map_to_list in Hi.
  by destruct (H t th Hi).
Qed.

Lemma lock_elem_in_Some s l t th :
  threads s !! t = Some th → l ∈ lock_queue th →
  (∀ u thu, threads s !! u = Some thu → l ∈ lock_queue thu → u = t) → lock_elem_in s l = Some t.
Proof.
  intros Ht Hin Hu. unfold lock_elem_in. destruct (list_find _ _) as [[i [u thu]]|] eqn:E.
  - apply list_find_Some in E as (Hi & Hin' & _). apply list_elem_of_lookup_2, elem_of_map_to_list in Hi.
    cbn in *. f_equal. by eapply Hu.
  - apply list_find_None in E. rewrite Forall_forall in E. destruct (E (t, th)); [|done].
    by apply elem_of_map_to_list.
Qed.

Lemma wf_holder_unique s l k t u thu :
  wf s → locks s !! l = Some k → holder k = Some t →
  threads s !! u = Some thu → l ∈ lock_queue thu → u = t.
Proof.
  intros Hwf Hk Hh Hu Hin. destruct (wf_holds _ Hwf _ _ _ Hu Hin) as (k' & ? & ?). congruence.
Qed.

Lemma wf_free_lock s l k :
  wf s → locks s !! l = Some k → holder k = None → lock_elem_in s l = None.
Proof.
  intros Hwf Hk Hh. apply lock_elem_in_None. intros t th Ht Hin.
  destruct (wf_holds _ Hwf _ _ _ Ht Hin) as (k' & ? & ?). congruence.
Qed.

(** ** Acquiring *)

(** The running thread takes a free lock. *)
Lemma wf_take s s' th th' l k k' x :
  wf s → threads s !! cur s = Some th → status th = THREAD_RUNNING →
  locks s !! l = Some k → semas s !! SemaLock l = Some x → value x ≠ 0 →
  idle_thread s ≠ Some (cur s) →
  threads s' = <[cur s := th']> (threads s) → locks s' = <[l := k']> (locks s) →
  semas s' = <[SemaLock l := Semaphore (value x - 1) (waiters x)]> (semas s) →
  conds s' = conds s → ready_list s' = ready_list s → timer_sleep_list s' = timer_sleep_list s →
  all_list s' = all_list s → idle_thread s' = idle_thread s → cur s' = cur s →
  active_sched_policy s' = active_sched_policy s →
  status th' = status th → queue th' = queue th → kstack th' = kstack th →
  (∀ m, donated_for th' = Some m → is_Some (locks s !! m)) →
  holder k' = Some (cur s) → lock_queue th' ≡ₚ l :: lock_queue th → wf s'.
Proof.
  intros Hwf Ht Hst Hk Hx Hv Hid Eth El Es Eco Er Esl Ea Ei Ec Ep Hst' Hqu Hks Hdon Hh' Hlq.
  destruct (wf_lock _ Hwf _ _ Hk) as (x' & Hx' & Hv01 & H1 & _).
  assert (x' = x) as -> by congruence. assert (value x = 1) as Ev by lia. destruct (H1 Ev) as [Hh Hnr].
  assert (l ∉ lock_queue th) as Hnl.
  { intros Hin. destruct (wf_holds _ Hwf _ _ _ Ht Hin) as (? & ? & ?). congruence. }
  assert (∀ g, frames_of g (threads s') ≡ₚ frames_of g (threads s)) as Hfr.
  { intros g. rewrite Eth. apply (frames_of_same g _ _ th); [done|]. by rewrite Hks. }
  rewrite Ev in Es.
  eapply (wf_lock_change s s' (cur s) th th' l k k' x 0); try done.
  - by left.
  - by right.
  - intros m. rewrite Hlq, elem_of_cons. naive_solver.
  - rewrite Hlq. apply NoDup_cons. split; [done|]. apply (wf_lockq _ Hwf _ _ Ht).
  - exists (Semaphore 0 (waiters x)). rewrite Es, lookup_insert_eq. split_and!; [done|by left|done|].
    by rewrite Hfr.
  - intros m. rewrite Hfr. auto.
  - rewrite Hfr. apply (wf_releases _ Hwf).
  - rewrite Hks. apply (wf_frames _ Hwf _ _ Ht).
  - by rewrite Hks.
Qed.

(** A free lock's element is in no list. *)
Lemma take_unlisted s s' th th' l k :
  wf s → threads s !! cur s = Some th → locks s !! l = Some k → holder k = None →
  threads s' = <[cur s := th']> (threads s) → lock_queue th' = lock_queue th →
  lock_elem_in s' l = None.
Proof.
  intros Hwf Ht Hk Hh E Elq. apply lock_elem_in_None. intros u thu. rewrite E.
  assert (∀ u thu, threads s !! u = Some thu → l ∉ lock_queue thu) as Hn.
  { intros v thv Hv Hin. destruct (wf_holds _ Hwf _ _ _ Hv Hin) as (? & ? & ?). congruence. }
  destruct (decide (u = cur s)) as [->|].
  - rewrite lookup_insert_eq. intros [= <-]. rewrite Elq. by eapply Hn.
  - rewrite lookup_insert_ne by done. apply Hn.
Qed.

Lemma wp_lock_elem_insert pan t l th (Q : unit → kstate → Prop) s :
  lock_elem_in s l = None → threads s !! t = Some th →
  (∀ lq, lq ≡ₚ l :: lock_queue th → Q () (set_thread t (set_lock_queue lq th) s)) →
  wp pan (lock_elem_insert t l) Q s.
Proof.
  intros Hn Ht HQ. unfold lock_elem_insert. apply wp_bind, wp_get. rewrite decide_True by done.
  eapply wp_upd_thread; [done|]. apply HQ, KListRefine.insert_ordered_perm.
Qed.

Lemma wf_free_value s l k x :
  wf s → locks s !! l = Some k → semas s !! SemaLock l = Some x → value x ≠ 0 → holder k = None.
Proof.
  intros Hwf Hk Hx Hv. destruct (wf_lock _ Hwf _ _ Hk) as (x' & Hx' & Hv01 & H1 & _).
  assert (x' = x) as -> by congruence. apply H1. lia.
Qed.

Lemma wp_lock_acquire_tail pan s l k x th old :
  wf s → threads s !! cur s = Some th → status th = THREAD_RUNNING → in_external_intr s = false →
  locks s !! l = Some k → semas s !! SemaLock l = Some x → value x ≠ 0 →
  idle_thread s ≠ Some (cur s) → resumes old (kstack th) →
  wp pan (lock_acquire_tail l old) (λ _, kernel_ok)
     (with_semas (<[SemaLock l := Semaphore (value x - 1) (waiters x)]> (semas s)) s).
Proof.
  intros Hwf Ht Hst Hi Hk Hx Hv Hid Hres. pose proof (wf_free_value _ _ _ _ Hwf Hk Hx Hv) as Hh.
  unfold lock_acquire_tail. apply wp_bind, wp_gets. cbn [cur with_semas].
  apply wp_bind. eapply wp_get_lock; [exact Hk|]. apply wp_bind. eapply wp_get_thread; [exact Ht|].
  apply wp_bind, wp_modify. apply wp_bind. eapply wp_upd_thread; [exact Ht|].
  apply wp_bind. eapply wp_lock_elem_insert; [|cbn; apply lookup_insert_eq|].
  { by apply (take_unlisted s _ th (set_donated_for None th) l k). }
  intros lq Hlq. apply wp_bind, wp_intr_set_level; [done|]. apply wp_ret.
  eapply (kernel_ok_level _ (set_lock_queue lq (set_donated_for None th))); try done.
  - eapply (wf_take s _ th (set_lock_queue lq (set_donated_for None th)) l k _ x); try done.
    cbn. by rewrite insert_insert_eq.
  - cbn. by rewrite lookup_insert_eq.
Qed.

Lemma wp_lock_wait pan s l k th old :
  wf s → threads s !! cur s = Some th → status th = THREAD_RUNNING → in_external_intr s = false →
  level s = INTR_OFF → locks s !! l = Some k → idle_thread s ≠ Some (cur s) →
  resumes old (kstack th) → wp pan (lock_wait l old) (λ _, kernel_ok) s.
Proof.
  intros Hwf Ht Hst Hi Hl Hk Hid Hres. destruct (wf_lock _ Hwf _ _ Hk) as (x & Hx & _).
  eapply wp_sema_down_loop; try done; [by eexists|]. intros Hv. by eapply wp_lock_acquire_tail.
Qed.

(** ** Donation *)

(** Threads with a priority below [p]: the measure of the donation loop. *)
Definition below (p : Z) (ths : gmap Z thread) : nat :=
  length (filter (λ q : Z * thread, e_pri q.2 < p) (map_to_list ths)).

Lemma below_insert p (ths : gmap Z thread) t th th' :
  ths !! t = Some th →
  (below p (<[t := th']> ths) + (if decide (e_pri th < p)%Z then 1 else 0) =
   below p ths + (if decide (e_pri th' < p)%Z then 1 else 0))%nat.
Proof.
  intros Ht. unfold below.
  assert (∀ y, map_to_list (<[t:=y]> ths) ≡ₚ (t, y) :: map_to_list (delete t ths)) as H.
  { intros y. rewrite <- insert_delete_eq. by rewrite map_to_list_insert by (by rewrite lookup_delete_eq). }
  rewrite (H th'). rewrite <- (insert_id ths t th Ht) at 2. rewrite (H th), !filter_cons. cbn.
  repeat case_decide; cbn; lia.
Qed.

(** A lock somebody waits for has a holder.  [lock_release] breaks this
    until the thread it wakes up has run. *)
Definition owned (s : kstate) : Prop :=
  ∀ t th l k, threads s !! t = Some th → donated_for th = Some l → locks s !! l = Some k →
    holder k ≠ None.

(** Donation of the priority [p] for the lock [l] goes along a chain: to the
    holder of [l], to the holder of the lock that this thread waits for, and so
    on, as long as locks and holders have a lower priority. *)
Inductive donation_chain (s : kstate) (p : Z) : Z → Z → Prop :=
| chain_here l k d : locks s !! l = Some k → holder k = Some d → pri k < p → donation_chain s p l d
| chain_next l k d th l' d' :
    locks s !! l = Some k → holder k = Some d → pri k < p →
    threads s !! d = Some th → e_pri th < p → donated_for th = Some l' →
    donation_chain s p l' d' → donation_chain s p l d'.

(** The chain leads to a lock that nobody holds. *)
Inductive chain_broken (s : kstate) (p : Z) : Z → Prop :=
| broken_here l k : locks s !! l = Some k → holder k = None → chain_broken s p l
| broken_next l k d th l' :
    locks s !! l = Some k → holder k = Some d → pri k < p →
    threads s !! d = Some th → e_pri th < p → donated_for th = Some l' →
    chain_broken s p l' → chain_broken s p l.

(** What donation does to priorities: those along the chain are at least [p]
    afterwards, the others stay, and none is raised further than [p]. *)
Record chain_raised (s s' : kstate) (p l : Z) : Prop := {
  raised_bounds u : pri_of s u ≤ pri_of s' u ≤ Z.max p (pri_of s u);
  raised_chain u : donation_chain s p l u → p ≤ pri_of s' u;
  raised_others u : ¬ donation_chain s p l u → pri_of s' u = pri_of s u;
}.

Lemma owned_chain s p l k :
  owned s → locks s !! l = Some k → holder k ≠ None → ¬ chain_broken s p l.
Proof.
  intros Ho Hk Hh Hb. revert k Hk Hh. induction Hb as [l k0 Hk0 Hn|l k0 d th l' Hk0 Hd _ Ht _ Hw Hb IH]; intros k Hk Hh; [congruence|].
  inversion Hb; subst; by eapply IH; eauto.
Qed.

Lemma chain_unbroken s p l k d th :
  locks s !! l = Some k → holder k = Some d → threads s !! d = Some th → donated_for th = None → ¬ chain_broken s p l.
Proof. intros Hk Hd Ht Hw. inversion 1; simplify_eq. Qed.
Lemma chain_none s p l : (∀ u, ¬ donation_chain s p l u) → chain_raised s s p l.
Proof. intros H. split; [intros; lia|by intros u ?%H|done]. Qed.
(** The chain ends with the holder of the lock. *)
Lemma chain_end s s' p l k d :
  locks s !! l = Some k → holder k = Some d → pri k < p →
  (∀ th l', threads s !! d = Some th → e_pri th < p → donated_for th = Some l' → False) →
  (∀ u, pri_of s' u = if decide (u = d) then Z.max p (pri_of s d) else pri_of s u) →
  chain_raised s s' p l ∧ ¬ chain_broken s p l.
Proof.
  intros Hk Hh Hp Hend Hpri. split; [split|inversion 1; simplify_eq; eauto].
  - intros u. rewrite Hpri. case_decide; [subst|]; lia.
  - intros u Hu. assert (u = d) as ->; [|rewrite Hpri, decide_True by done; lia]. inversion Hu; simplify_eq; [done|]. exfalso. eauto.
  - intros u Hu. rewrite Hpri, decide_False; [done|]. intros ->. apply Hu. by eapply chain_here.
Qed.

(** The state after one round along the chain. *)
Record round (s s' : kstate) (p l d : Z) (k : lock) (th : thread) (l' : Z) : Prop := {
  rd_lock : locks s !! l = Some k; rd_holder : holder k = Some d; rd_pri : pri k < p;
  rd_thread : threads s !! d = Some th; rd_e_pri : e_pri th < p; rd_waits : donated_for th = Some l';
  rd_lock' : locks s' !! l = Some (Lock (holder k) (state k) p);
  rd_locks m : m ≠ l → locks s' !! m = locks s !! m;
  rd_thread' : ∃ th', threads s' !! d = Some th' ∧ e_pri th' = p ∧ donated_for th' = Some l';
  rd_threads u : u ≠ d → threads s' !! u = threads s !! u;
}.

Section Round.
Context (s s' : kstate) (p l d : Z) (k : lock) (th : thread) (l' : Z) (R : round s s' p l d k th l').

Lemma round_pri u : pri_of s' u = if decide (u = d) then p else pri_of s u.
Proof.
  unfold pri_of. case_decide as Hu; [subst u|by rewrite (rd_threads _ _ _ _ _ _ _ _ R)].
  destruct (rd_thread' _ _ _ _ _ _ _ _ R) as (th' & -> & Hp & _). exact Hp.
Qed.
(** A link of the chain that is still there, or one of the round. *)
Lemma round_link x kx e te y :
  locks s !! x = Some kx → holder kx = Some e → threads s !! e = Some te → donated_for te = Some y →
  (e = d ∧ y = l') ∨ (x ≠ l ∧ e ≠ d).
Proof.
  intros Hx He Ht Hy. destruct R as [R1 R2 _ R4 _ R6 _ _ _ _]. destruct (decide (e = d)) as [->|Hd]; [left; split; congruence|].
  right. split; [|done]. intros ->. congruence.
Qed.
Lemma chain_after x u : donation_chain s p x u → u = d ∨ donation_chain s' p x u ∨ donation_chain s' p l' u.
Proof.
  pose proof (rd_locks _ _ _ _ _ _ _ _ R) as HL. pose proof (rd_threads _ _ _ _ _ _ _ _ R) as HT.
  induction 1 as [x kx e Hx He Hp|x kx e te y u Hx He Hp Ht Hlt Hy _ IH].
  - destruct (decide (x = l)) as [->|Hxl]; [left; pose proof (rd_lock _ _ _ _ _ _ _ _ R); pose proof (rd_holder _ _ _ _ _ _ _ _ R); congruence|].
    right; left. apply (chain_here _ _ x kx); [by rewrite HL|done|done].
  - destruct (round_link x kx e te y Hx He Ht Hy) as [[-> ->]|[Hxl Hed]]; [tauto|]. destruct IH as [|[IH|]]; [tauto| |tauto].
    right; left. apply (chain_next _ _ x kx e te y); [by rewrite HL|done|done|by rewrite HT|done|done|done].
Qed.
Lemma broken_after x : chain_broken s p x → chain_broken s' p x ∨ chain_broken s' p l'.
Proof.
  pose proof (rd_locks _ _ _ _ _ _ _ _ R) as HL. pose proof (rd_threads _ _ _ _ _ _ _ _ R) as HT.
  induction 1 as [x kx Hx He|x kx e te y Hx He Hp Ht Hlt Hy _ IH].
  - left. eapply broken_here; [rewrite HL; [done|]|done]. intros ->. pose proof (rd_lock _ _ _ _ _ _ _ _ R). pose proof (rd_holder _ _ _ _ _ _ _ _ R). congruence.
  - destruct (round_link x kx e te y Hx He Ht Hy) as [[-> ->]|[Hxl Hed]]; [tauto|]. destruct IH as [IH|]; [|tauto].
    left. apply (broken_next _ _ x kx e te y); [by rewrite HL|done|done|by rewrite HT|done|done|done].
Qed.
(** A lock of a lower priority, and a thread of one, are the same before. *)
Lemma round_lock x kx : locks s' !! x = Some kx → pri kx < p → locks s !! x = Some kx.
Proof.
  intros Hx Hp. destruct (decide (x = l)) as [->|Hxl]; [|by rewrite <- (rd_locks _ _ _ _ _ _ _ _ R)].
  rewrite (rd_lock' _ _ _ _ _ _ _ _ R) in Hx. injection Hx as <-. cbn in Hp. lia.
Qed.
Lemma round_thread e te : threads s' !! e = Some te → e_pri te < p → threads s !! e = Some te.
Proof.
  intros He Hp. destruct (decide (e = d)) as [->|Hed]; [|by rewrite <- (rd_threads _ _ _ _ _ _ _ _ R)].
  destruct (rd_thread' _ _ _ _ _ _ _ _ R) as (th' & Ht & Hp' & _). simplify_eq. lia.
Qed.
Lemma chain_before x u : donation_chain s' p x u → donation_chain s p x u.
Proof.
  induction 1 as [x kx e Hx He Hp|x kx e te y u Hx He Hp Ht Hlt Hy _ IH].
  - apply (chain_here _ _ x kx); [by apply round_lock|done|done].
  - apply (chain_next _ _ x kx e te y); [by apply round_lock|done|done|by apply round_thread|done|done|done].
Qed.
Lemma broken_before x : chain_broken s' p x → chain_broken s p x.
Proof.
  induction 1 as [x kx Hx He|x kx e te y Hx He Hp Ht Hlt Hy _ IH].
  - destruct (decide (x = l)) as [->|Hxl].
    + rewrite (rd_lock' _ _ _ _ _ _ _ _ R) in Hx. injection Hx as <-. cbn in He. pose proof (rd_holder _ _ _ _ _ _ _ _ R). congruence.
    + eapply broken_here; [by rewrite <- (rd_locks _ _ _ _ _ _ _ _ R)|done].
  - apply (broken_next _ _ x kx e te y); [by apply round_lock|done|done|by apply round_thread|done|done|done].
Qed.
(** The rest of the chain is the chain of the lock that the holder waits for. *)
Lemma round_raised s2 : chain_raised s' s2 p l' → chain_raised s s2 p l.
Proof.
  intros [Hb Hc Ho]. pose proof R as [R1 R2 R3 R4 R5 R6 _ _ _ _].
  assert (pri_of s d < p) as Hd by (unfold pri_of; by rewrite R4). pose proof round_pri as Hp.
  assert (donation_chain s p l d) as Hhere by (by eapply chain_here).
  split.
  - intros u. specialize (Hb u). rewrite Hp in Hb. case_decide; [subst|done]. lia.
  - intros u Hu. assert (u = d ∨ donation_chain s' p l' u) as [->|Hu'].
    { inversion Hu as [? ? ? E1 E2|? ? ? ? ? ? E1 E2 E3 E4 E5 E6 E7]; simplify_eq; [by left|]. destruct (chain_after _ _ E7); tauto. }
    + specialize (Hb d). rewrite Hp, decide_True in Hb by done. lia.
    + by apply Hc.
  - intros u Hu. rewrite Ho, Hp; [rewrite decide_False; [done|]|].
    + by intros ->.
    + intros Hc'. apply Hu. by eapply chain_next, chain_before.
Qed.
End Round.

(** The running thread, and what the code after the loop needs. *)
Record donate_inv (s s' : kstate) (th : thread) : Prop := {
  donate_wf : wf s';
  donate_cur : cur s' = cur s;
  donate_level : level s' = level s;
  donate_intr : in_external_intr s' = in_external_intr s;
  donate_idle : idle_thread s' = idle_thread s;
  donate_self : ∃ th', threads s' !! cur s = Some th' ∧ status th' = status th ∧
    kstack th' = kstack th ∧ e_pri th' = e_pri th;
  donate_locks m : is_Some (locks s !! m) → is_Some (locks s' !! m);
  donate_owned : owned s → owned s';
  donate_mono u : pri_of s u ≤ pri_of s' u;
}.

Lemma donate_inv_trans s1 s2 s3 th :
  donate_inv s1 s2 th →
  (∀ th2, threads s2 !! cur s2 = Some th2 → status th2 = status th → kstack th2 = kstack th →
     e_pri th2 = e_pri th → donate_inv s2 s3 th2) → donate_inv s1 s3 th.
Proof.
  intros [? Hc ? ? ? (th2 & Ht2 & Hs2 & Hk2 & He2) Hl Ho Hm] H. rewrite <- Hc in Ht2.
  destruct (H th2) as [? Hc3 ? ? ? (th3 & Ht3 & ? & ? & ?) Hl3 Ho3 Hm3]; [done..|].
  split; try congruence; auto; [|intros u; specialize (Hm u); specialize (Hm3 u); lia]. exists th3. rewrite <- Hc. split_and!; [done|congruence..].
Qed.

(** Who waits for which lock, and who holds it, stays as it is. *)
Lemma owned_same s s' t th th' :
  owned s → threads s !! t = Some th → donated_for th' = donated_for th →
  threads s' = <[t := th']> (threads s) → locks s' = locks s → owned s'.
Proof.
  intros Ho Ht Hd Eth El u thu l k Hu Hl Hk. rewrite El in Hk. rewrite Eth in Hu.
  destruct (decide (u = t)) as [->|Hne].
  - rewrite lookup_insert_eq in Hu. injection Hu as <-. rewrite Hd in Hl. by eapply (Ho t).
  - rewrite lookup_insert_ne in Hu by done. by eapply (Ho u).
Qed.

(** Moving a lock within its holder's queue. *)
Lemma relock_run s l k d de :
  wf s → locks s !! l = Some k → holder k = Some d → threads s !! d = Some de →
  ∃ lq, (lock_elem_remove l;; lock_elem_insert d l) s =
          Ok ((), set_thread d (set_lock_queue lq de) s) ∧ lq ≡ₚ lock_queue de.
Proof.
  intros Hwf Hk Hh Hd. destruct (wf_held _ Hwf _ _ _ Hk Hh) as (de' & ? & Hin). simplify_eq.
  set (lq1 := filter (.≠ l) (lock_queue de)).
  set (s1 := set_thread d (set_lock_queue lq1 de) s).
  exists (KListSpec.insert_ordered (lock_before s1) l lq1). split.
  - erewrite bind_Ok; [|unfold lock_elem_remove; erewrite bind_Ok by done;
      rewrite (lock_elem_in_Some s l d de) by (done || intros; by eapply wf_holder_unique);
      by apply (upd_thread_run d _ de)].
    fold lq1. fold s1. unfold lock_elem_insert. erewrite bind_Ok by done.
    assert (lock_elem_in s1 l = None) as Hn.
    { apply lock_elem_in_None. intros u thu. cbn. destruct (decide (u = d)) as [->|].
      - rewrite lookup_insert_eq. intros [= <-]. cbn. unfold lq1. rewrite list_elem_of_filter. naive_solver.
      - rewrite lookup_insert_ne by done. intros Hu Hin'.
        by assert (u = d) by (by eapply wf_holder_unique). }
    rewrite decide_True by done.
    erewrite (upd_thread_run d _ (set_lock_queue lq1 de)) by (cbn; apply lookup_insert_eq).
    do 2 f_equal. apply kstate_eq; try reflexivity. cbn. apply insert_insert_eq.
  - rewrite KListRefine.insert_ordered_perm. pose proof (wf_lockq _ Hwf _ _ Hd) as Hnd.
    apply list_elem_of_split in Hin as (a & b & E). unfold lq1. rewrite E in Hnd |- *.
    apply NoDup_app in Hnd as (_ & Hna & [Hnb _]%NoDup_cons).
    rewrite filter_app, filter_ne_id by (intros H; apply (Hna _ H); left).
    rewrite filter_ne_head by done. apply Permutation_middle.
Qed.

(** A holder other than the running thread is in the queue its [queue]
    member names. *)
Lemma wf_holder_listed s l k d de :
  wf s → running s → locks s !! l = Some k → holder k = Some d → threads s !! d = Some de →
  d ≠ cur s → ∃ q, queue de = Some q ∧ d ∈ qlist s q ∧ status de = queue_status q.
Proof.
  intros Hwf _ Hk Hh Hd Hne. destruct (wf_held _ Hwf _ _ _ Hk Hh) as (de' & ? & Hin). simplify_eq.
  assert (lock_queue de ≠ []) as Hlq by (intros E; rewrite E in Hin; by apply not_elem_of_nil in Hin).
  assert (∀ q, d ∈ qlist s q → queue de = Some q ∧ status de = queue_status q) as Hl.
  { intros q Hq. destruct (wf_listed _ Hwf _ _ Hq) as (? & ? & ? & ?). by simplify_eq. }
  pose proof (wf_thread _ Hwf _ _ Hd) as Hok. unfold thread_ok in Hok. destruct (status de) eqn:Hst.
  - done.
  - destruct Hok as [Hr|Hr].
    + exists Qready. destruct (Hl Qready Hr). done.
    + destruct (wf_idle _ Hwf) as (? & ? & ? & ? & ? & _). congruence.
  - destruct Hok as [(q & Hq & Hin')|?]; [|done]. exists q. destruct (Hl q Hin'). done.
  - by destruct Hok.
  - by destruct Hok.
Qed.

Lemma alter_twice `{Countable X} {A} (f g h : A → A) i (m : gmap X A) :
  (∀ x, f (g x) = h x) → alter f i (alter g i m) = alter h i m.
Proof.
  intros Hf. apply map_eq. intros j. destruct (decide (i = j)) as [->|].
  - rewrite !lookup_alter_eq. destruct (m !! j); cbn; by rewrite ?Hf.
  - by rewrite !lookup_alter_ne.
Qed.

(** Raising a queued thread's priority and moving it in its queue. *)
Definition raised (q : queue_ref) (d p : Z) (de : thread) (s : kstate) : kstate :=
  let s1 := set_thread d (set_e_pri p de) s in
  with_qlist q (KListSpec.insert_ordered (thread_before s1) d (filter (.≠ d) (qlist s q))) s1.

Lemma requeue_run s q d p de :
  wf s → threads s !! d = Some de → d ∈ qlist s q →
  (elem_remove d;; elem_insert_ordered thread_before q d) (set_thread d (set_e_pri p de) s) =
    Ok ((), raised q d p de s).
Proof.
  intros Hwf Hd Hin. set (s1 := set_thread d (set_e_pri p de) s).
  assert (queue_exists s q = true) as He by (apply bool_decide_true; by eapply qlist_exists).
  assert (get_thread d s1 = Ok (set_e_pri p de, s1)) as Hg
    by (unfold get_thread; cbn; by rewrite lookup_insert_eq).
  assert (elem_in s1 d = Some q) as Hei by exact (wf_elem_in s d q Hwf Hin).
  set (s2 := with_qlist q (filter (.≠ d) (qlist s1 q)) s1).
  assert (elem_remove d s1 = Ok ((), s2)) as Hr.
  { unfold elem_remove. erewrite bind_Ok by exact Hg. erewrite bind_Ok by done. by rewrite Hei. }
  erewrite bind_Ok by exact Hr.
  assert (threads s2 !! d = Some (set_e_pri p de)) as Hd2.
  { unfold s2. rewrite threads_with_qlist. cbn. by rewrite lookup_insert_eq. }
  assert (queue_exists s2 q = true) as He2.
  { destruct q as [| |r|c]; [apply ready_exists|apply sleep_exists|apply sema_exists|].
    - destruct (semas s !! r) eqn:E.
      + unfold s2. cbn. rewrite lookup_alter_eq, E. by eexists.
      + cbn in Hin. rewrite E in Hin. by apply not_elem_of_nil in Hin.
    - rewrite (wf_conds _ Hwf) in Hin. by apply not_elem_of_nil in Hin. }
  erewrite elem_insert_ordered_run; [|exact Hd2|exact He2|].
  - do 2 f_equal. unfold s2, raised. fold s1. rewrite qlist_with_eq by exact He.
    assert (∀ a b, thread_before (with_qlist q (filter (.≠ d) (qlist s1 q)) s1) a b = thread_before s1 a b)
      as Hb by (intros a b; apply thread_before_same_pri; intros u; unfold pri_of; by rewrite threads_with_qlist).
    rewrite (insert_ordered_ext _ _ d _ Hb).
    destruct q as [| |r|c]; try reflexivity.
    + apply kstate_eq; try reflexivity. by apply alter_twice.
    + apply kstate_eq; try reflexivity. by apply alter_twice.
  - apply elem_in_None. intros q'. unfold s2. destruct (decide (q' = q)) as [->|Hne].
    + rewrite qlist_with_eq by exact He. rewrite list_elem_of_filter. naive_solver.
    + rewrite qlist_with_ne by done. intros Hin'. assert (d ∈ qlist s q') as Hin2 by (by destruct q').
      destruct (wf_listed _ Hwf _ _ Hin) as (? & ? & ? & _).
      destruct (wf_listed _ Hwf _ _ Hin2) as (? & ? & ? & _). congruence.
Qed.

Lemma wf_raised s q d p de :
  wf s → threads s !! d = Some de → d ∈ qlist s q → wf (raised q d p de s).
Proof.
  intros Hwf Hd Hin. destruct (wf_listed _ Hwf _ _ Hin) as (? & ? & Hqu & Hst). simplify_eq.
  assert (queue_exists s q = true) as He by (apply bool_decide_true; by eapply qlist_exists).
  unfold raised. set (s1 := set_thread d (set_e_pri p de) s). set (xs := KListSpec.insert_ordered _ _ _).
  assert (alive de) as Ha by (unfold alive; rewrite Hst; by destruct q).
  assert (∀ q', qlist s1 q' = qlist s q') as E1 by (intros q'; by destruct q').
  assert (qlist (with_qlist q xs s1) q = xs) as Eq by (by apply qlist_with_eq).
  assert (threads (with_qlist q xs s1) = <[d := set_e_pri p de]> (threads s)) as Eth
    by apply threads_with_qlist.
  eapply (wf_place s _ q d de (set_e_pri p de)); try done.
  - eapply same_rest_trans; [apply same_rest_thread|apply same_rest_qlist].
  - intros q' Hne. rewrite qlist_with_ne, E1, filter_ne_id; [done| |done]. intros Hin'.
    destruct (wf_listed _ Hwf _ _ Hin') as (? & ? & ? & _). congruence.
  - rewrite Eq. apply KListRefine.insert_ordered_perm.
  - assert (∀ ys, Sorted (pri_order s) ys →
      Sorted (pri_order (with_qlist q xs s1))
        (KListSpec.insert_ordered (thread_before s1) d (filter (.≠ d) ys))) as Hs.
    { intros ys Hys. apply (Sorted_mono (pri_order s1)).
      { intros a b _ _. unfold pri_order, pri_of. by rewrite threads_with_qlist. }
      apply insert_in_order. eapply Sorted_mono.
      2:{ apply Sorted_filter; [apply pri_order_trans|exact Hys]. }
      intros a b [Ha' _]%list_elem_of_filter [Hb' _]%list_elem_of_filter. unfold pri_order.
      by rewrite !(pri_of_ne s s1 d (set_e_pri p de)). }
    pose proof (wf_order _ Hwf q) as Ho. unfold in_order in *. destruct q as [| |r|c]; try done.
    + intros Hp. apply Hs. by apply Ho.
    + rewrite Eq. by apply Hs.
  - intros c ->. rewrite (wf_conds _ Hwf) in Hin. by apply not_elem_of_nil in Hin.
  - intros l. apply (wf_donated _ Hwf _ _ _ Hd).
  - by apply stack_ok_same.
  - rewrite Eth, (frames_of_same creates _ _ de) by done. by eapply wf_not_nascent.
  - by eapply wf_idle_unlisted.
Qed.

(** [donate_inv] for the three updates of a round. *)
Lemma donate_inv_lock s l k k' th :
  wf s → threads s !! cur s = Some th → locks s !! l = Some k → holder k' = holder k →
  donate_inv s (with_locks (<[l := k']> (locks s)) s) th.
Proof.
  intros Hwf Ht Hk Hh. split; try done; [by eapply wf_lock_fields|by exists th|..].
  - intros m. cbn. rewrite lookup_insert_is_Some'. auto.
  - intros Ho u thu m km Hu Hm. cbn. destruct (decide (m = l)) as [->|Hne].
    + rewrite lookup_insert_eq. intros [= <-]. rewrite Hh. by eapply (Ho u).
    + rewrite lookup_insert_ne by done. by eapply (Ho u).
Qed.

Lemma donate_inv_relock s d de lq th :
  wf s → threads s !! cur s = Some th → status th = THREAD_RUNNING →
  threads s !! d = Some de → lq ≡ₚ lock_queue de → alive de →
  donate_inv s (set_thread d (set_lock_queue lq de) s) th.
Proof.
  intros Hwf Ht Hst Hd Hlq Ha. split; try done.
  - eapply wf_quiet; try done; [by left|]. intros l. apply (wf_donated _ Hwf _ _ _ Hd).
  - cbn. destruct (decide (d = cur s)) as [->|].
    + simplify_eq. rewrite lookup_insert_eq. eexists. split; [done|]. done.
    + rewrite lookup_insert_ne by done. by exists th.
  - intros Ho. by eapply (owned_same s _ d de (set_lock_queue lq de)).
  - intros u. by rewrite (pri_of_insert s (set_thread d (set_lock_queue lq de) s) d de (set_lock_queue lq de)).
Qed.

Lemma donate_inv_raised s q d p de th :
  wf s → threads s !! cur s = Some th → threads s !! d = Some de → d ∈ qlist s q → d ≠ cur s →
  e_pri de ≤ p → donate_inv s (raised q d p de s) th.
Proof.
  intros Hwf Ht Hd Hin Hne Hp. unfold raised. set (s1 := set_thread d (set_e_pri p de) s).
  split; try (by destruct q).
  - by apply wf_raised.
  - exists th. rewrite threads_with_qlist. cbn. by rewrite lookup_insert_ne.
  - intros Ho. eapply (owned_same s _ d de (set_e_pri p de)); try done; [apply threads_with_qlist|by destruct q].
  - intros u. unfold pri_of. rewrite threads_with_qlist. cbn. destruct (decide (u = d)) as [->|Hu].
    + rewrite lookup_insert_eq, Hd. done.
    + by rewrite lookup_insert_ne.
Qed.

Lemma donate_loop_spec pan fuel s l k donor dr donee th :
  wf s → threads s !! cur s = Some th → status th = THREAD_RUNNING →
  locks s !! l = Some k → holder k = donee → threads s !! donor = Some dr → e_pri dr = e_pri th →
  (below (e_pri th) (threads s) < fuel)%nat →
  pan = true ∨ ¬ chain_broken s (e_pri th) l →
  wp pan (donate_loop fuel l donor donee)
     (λ _ s', donate_inv s s' th ∧ chain_raised s s' (e_pri th) l ∧ ¬ chain_broken s (e_pri th) l) s.
Proof.
  revert s l k donor dr donee th. induction fuel as [|fuel IH];
    intros s l k donor dr donee th Hwf Ht Hst Hk Hh Hdr Hp Hm Hpan; [lia|]. cbn [donate_loop].
  destruct donee as [d|]; [|destruct Hpan as [->|Hb]; [done|by destruct Hb; eapply broken_here]].
  assert (donate_inv s s th) as Hrefl by (split; try done; by exists th).
  apply wp_bind. eapply wp_get_lock; [done|]. apply wp_bind. eapply wp_get_thread; [done|].
  case_decide as Hpri.
  { apply wp_ret. split; [done|]. split; [apply chain_none; intros u|]; inversion 1; simplify_eq; lia. } apply wp_bind, wp_modify.
  set (Q := λ (_ : unit) s', _).
  set (s1 := with_locks _ s). set (k1 := Lock (holder k) (state k) (e_pri dr)) in s1.
  assert (donate_inv s s1 th) as Hi1 by (by eapply donate_inv_lock).
  assert (locks s1 !! l = Some k1) as Hk1 by apply lookup_insert_eq.
  pose proof (donate_wf _ _ _ Hi1) as Hwf1.
  destruct (wf_held _ Hwf1 _ _ _ Hk1 Hh) as (de & Hd & Hin).
  assert (alive de) as Hade.
  { pose proof (wf_thread _ Hwf1 _ _ Hd) as Hok. unfold thread_ok, alive in *.
    destruct (status de); try done; destruct Hok as [E _]; rewrite E in Hin; by apply not_elem_of_nil in Hin. }
  destruct (relock_run s1 l k1 d de Hwf1 Hk1 Hh Hd) as (lq & Hrun & Hlq).
  set (s2 := set_thread d (set_lock_queue lq de) s1) in Hrun.
  set (de2 := set_lock_queue lq de) in *.
  assert (donate_inv s1 s2 th) as Hi12 by (by apply donate_inv_relock).
  assert (donate_inv s s2 th) as Hi2.
  { eapply donate_inv_trans; [exact Hi1|]. intros th1 Ht1 _ _ _. change (cur s1) with (cur s) in Ht1.
    change (threads s1) with (threads s) in Ht1. by simplify_eq. }
  pose proof (donate_wf _ _ _ Hi2) as Hwf2.
  assert (threads s2 !! d = Some de2) as Hd2 by apply lookup_insert_eq.
  match goal with |- wp _ (_ ≫= λ _, ?a ≫= ?b) _ _ =>
    change (wp pan (lock_elem_remove l ≫= λ _, a ≫= b) Q s1) end.
  assert (∀ (rest : K unit), wp pan rest Q s2 →
    wp pan (lock_elem_remove l;; lock_elem_insert d l;; rest) Q s1) as Hseq.
  { intros rest Hr. unfold wp in *. unfold mbind, M_bind in Hrun |- *.
    destruct (lock_elem_remove l s1) as [[[] s']|]; [|done]. by rewrite Hrun. }
  apply Hseq. apply wp_bind. eapply wp_get_thread; [exact Hd2|].
  case_decide as Hle.
  { apply wp_ret. cbn in Hle. split; [done|]. rewrite Hp in *. apply (chain_end s s2 (e_pri th) l k d); try done; [lia| |].
    - change (threads s1) with (threads s) in Hd. intros th0 l0 Hth0 Hlt _. simplify_eq. lia.
    - intros u. unfold pri_of. cbn. change (threads s1) with (threads s) in *. case_decide as Hu.
      + subst u. rewrite lookup_insert_eq, Hd. cbn. lia.
      + by rewrite lookup_insert_ne. }
  assert (d ≠ cur s) as Hdc.
  { intros ->. change (threads s1) with (threads s) in Hd. simplify_eq. cbn in Hle. lia. }
  destruct (wf_holder_listed s2 l k1 d de2 Hwf2) as (q & Hqu & Hq & Hsq); [|done..| |].
  { destruct Hi2 as [_ Ec _ _ _ (th' & ? & ? & _) _ _ _]. exists th'. rewrite Ec. split; [done|congruence]. }
  { by rewrite (donate_cur _ _ _ Hi2). }
  apply wp_bind. eapply wp_upd_thread; [exact Hd2|].
  change (with_threads _ s2) with (set_thread d (set_e_pri (e_pri dr) de2) s2).
  apply wp_bind. rewrite Hqu. eapply wp_Ok; [by apply requeue_run|].
  set (s3 := raised q d (e_pri dr) de2 s2).
  assert (donate_inv s s3 th) as Hi3.
  { eapply donate_inv_trans; [exact Hi2|]. intros th2 Ht2 _ _ _. apply donate_inv_raised; try done. lia. }
  assert (pri_of s3 d = e_pri dr) as Hp3.
  { unfold s3, raised, pri_of. rewrite threads_with_qlist. cbn. by rewrite lookup_insert_eq. }
  assert (threads s3 = <[d := set_e_pri (e_pri dr) de2]> (threads s2)) as Eth3
    by apply threads_with_qlist.
  assert (locks s3 = <[l := k1]> (locks s)) as El3 by (unfold s3, raised; by destruct q).
  assert (∀ u, u ≠ d → threads s3 !! u = threads s !! u) as Eth3_ne.
  { intros u Hu. rewrite Eth3, lookup_insert_ne by done. cbn. by rewrite lookup_insert_ne. }
  change (threads s1) with (threads s) in Hd. cbn in Hle.
  destruct (donated_for de2) as [l'|] eqn:Hdon.
  2:{ apply wp_ret. split; [done|]. rewrite Hp in *. apply (chain_end s s3 (e_pri th) l k d); try done; [lia| |].
      - intros th0 l0 Hth0 _ Hl0. simplify_eq. cbn in Hdon. congruence.
      - intros u. case_decide as Hu; [subst u; rewrite Hp3; unfold pri_of; rewrite Hd; cbn; lia|].
        unfold pri_of. by rewrite Eth3_ne. }
  assert (is_Some (locks s3 !! l')) as [k3 Hk3].
  { assert (is_Some (locks s2 !! l')) as H by (by eapply (wf_donated _ Hwf2)).
    unfold s3, raised. by destruct q. }
  assert (round s s3 (e_pri th) l d k de l') as HR.
  { constructor.
    - done.
    - done.
    - lia.
    - done.
    - lia.
    - done.
    - rewrite El3, lookup_insert_eq. unfold k1. by rewrite Hp.
    - intros m Hm'. by rewrite El3, lookup_insert_ne.
    - eexists. split; [by rewrite Eth3, lookup_insert_eq|]. by rewrite <- Hp.
    - done. }
  apply wp_bind. eapply wp_get_lock; [exact Hk3|].
  destruct Hi3 as [Hwf3 Ec3 Elv3 Ein3 Eid3 (th3 & Ht3 & Hst3 & Hks3 & He3) Hls3 Ho3 Hm3].
  eapply wp_mono.
  - eapply (IH s3 l' k3 d (set_e_pri (e_pri dr) de2) (holder k3) th3); try done.
    + by rewrite Ec3.
    + congruence.
    + by rewrite Eth3, lookup_insert_eq.
    + cbn. congruence.
    + rewrite He3, Eth3. pose proof (below_insert (e_pri th) (threads s2) d de2 (set_e_pri (e_pri dr) de2) Hd2) as H1.
      pose proof (below_insert (e_pri th) (threads s1) d de de2 Hd) as H2.
      change (threads s2) with (<[d := de2]> (threads s1)) in H1 |- *.
      change (threads s1) with (threads s) in *. cbn in H1, H2.
      rewrite (decide_True (P := e_pri de < e_pri th)) in H1 by lia.
      rewrite decide_False in H1 by lia. lia.
    + destruct Hpan as [?|Hb]; [by left|right]. rewrite He3. intros Hb3. apply Hb.
      pose proof HR as [R1 R2 R3 R4 R5 R6 _ _ _ _]. apply (broken_next _ _ l k d de l'); try done. by eapply broken_before.
  - intros ? s' (Hi & Hra & Hnb). rewrite He3 in *. split; [|split].
    + eapply donate_inv_trans; [split; try done; by exists th3|].
      intros th4 Ht4 _ _ _. rewrite Ec3 in Ht4. by simplify_eq.
    + by eapply round_raised.
    + intros Hb. apply Hnb. pose proof (rd_waits _ _ _ _ _ _ _ _ HR). inversion Hb as [? ? E1 E2|? ? ? ? ? E1 E2 E3 E4 E5 E6 E7]; simplify_eq.
      by destruct (broken_after _ _ _ _ _ _ _ _ HR _ E7).
Qed.

(** ** The operations on locks *)

Lemma below_size p (ths : gmap Z thread) : (below p ths ≤ size ths)%nat.
Proof. unfold below. rewrite <- length_map_to_list. apply length_filter. Qed.

Lemma wp_ASSERT_panic pan b (Q : unit → kstate → Prop) s :
  pan = true ∨ b = true → (b = true → Q () s) → wp pan (ASSERT b) Q s.
Proof. intros Hp H. destruct b; [by apply wp_ret, H|by destruct Hp]. Qed.

Lemma lock_held_run s l k :
  running s → locks s !! l = Some k →
  lock_held_by_current_thread l s = Ok (bool_decide (holder k = Some (cur s)), s).
Proof.
  intros Hr Hk. unfold lock_held_by_current_thread. erewrite bind_Ok; [|unfold get_lock; by rewrite Hk].
  by erewrite bind_Ok by (by apply thread_current_run).
Qed.

Lemma wp_lock_acquire pan s l k :
  kernel_ok s → locks s !! l = Some k → idle_thread s ≠ Some (cur s) →
  pan = true ∨ (holder k ≠ Some (cur s) ∧ owned s) →
  wp pan (lock_acquire l) (λ _, kernel_ok) s.
Proof.
  intros (Hwf & Hrun & Hi & Hres & _) Hk Hid Hpan. pose proof Hrun as (th & Ht & Hst).
  rewrite (stack_of_eq _ _ _ Ht) in Hres. unfold lock_acquire.
  apply wp_bind, wp_gets, wp_bind, wp_ASSERT; [by rewrite Hi|].
  apply wp_bind. eapply wp_Ok; [by apply lock_held_run|]. apply wp_bind, wp_ASSERT_panic.
  { destruct Hpan as [?|[? _]]; [by left|right]. by rewrite bool_decide_false. }
  intros _.
  apply wp_bind. eapply wp_Ok; [by apply thread_current_run|].
  apply wp_bind. eapply wp_Ok; [done|]. set (s1 := with_level INTR_OFF s).
  apply wp_bind. eapply wp_get_lock; [exact Hk|]. apply wp_bind, wp_modify. set (s2 := with_locks _ s1).
  set (k2 := Lock _ _ _) in s2.
  assert (wf s2) as Hwf2.
  { eapply wf_ext; [|apply (wf_lock_fields s l k k2 Hwf Hk)]; done. }
  apply wp_bind. eapply wp_upd_thread; [exact Ht|].
  set (th2 := set_donated_for (Some l) th). change (with_threads _ s2) with (set_thread (cur s) th2 s2).
  set (s3 := set_thread (cur s) th2 s2).
  assert (wf s3) as Hwf3.
  { eapply (wf_quiet s2 (cur s) th th2); try done; [by left|by apply running_alive|].
    intros m [= <-]. cbn. rewrite lookup_insert_eq. by eexists. }
  assert (threads s3 !! cur s = Some th2) as Ht3 by apply lookup_insert_eq.
  assert (locks s3 !! l = Some k2) as Hk3 by apply lookup_insert_eq.
  assert (∀ s', donate_inv s3 s' th2 → wp pan (lock_wait l (level s)) (λ _, kernel_ok) s') as Hrest.
  { intros s' [Hwf' Ec El Ein Eid (th' & Ht' & Hst' & Hks' & _) Hls _ _].
    destruct (Hls l) as [k' Hk']; [eauto|].
    eapply (wp_lock_wait pan s' l k' th'); try done.
    - by rewrite Ec.
    - by rewrite Hst'.
    - by rewrite Ein.
    - by rewrite Eid, Ec.
    - by rewrite Hks'. }
  assert (donate_inv s3 s3 th2) as Hrefl by (split; try done; by exists th2).
  apply wp_bind. destruct (_ && _) eqn:Eb.
  - unfold donate_pri_acquire. apply wp_bind. eapply wp_get_lock; [exact Hk3|].
    apply wp_bind, wp_get. eapply wp_mono.
    + apply andb_prop in Eb as [_ Eh]. rewrite negb_true_iff, bool_decide_eq_false in Eh.
      eapply (donate_loop_spec _ _ s3 l k2 (cur s) th2); try done.
      * pose proof (below_size (e_pri th2) (threads s3)). lia.
      * destruct Hpan as [?|[_ Ho]]; [by left|right]. apply (owned_chain _ _ _ k2); [|done|done].
        intros u thu m km Hu Hm. cbn in Hu |- *. destruct (decide (m = l)) as [->|Hne].
        -- rewrite lookup_insert_eq. by intros [= <-].
        -- rewrite lookup_insert_ne by done. destruct (decide (u = cur s)) as [->|Hnu].
           ++ rewrite lookup_insert_eq in Hu. injection Hu as <-. cbn in Hm. congruence.
           ++ rewrite lookup_insert_ne in Hu by done. by eapply (Ho u).
    + cbn. intros _ s' [Hd _]. by apply Hrest.
  - apply wp_ret. by apply Hrest.
Qed.

Lemma wp_lock_try_acquire pan s l k :
  kernel_ok s → locks s !! l = Some k → idle_thread s ≠ Some (cur s) →
  pan = true ∨ holder k ≠ Some (cur s) →
  wp pan (lock_try_acquire l) (λ _, kernel_ok) s.
Proof.
  intros (Hwf & Hrun & Hi & Hres & _) Hk Hid Hpan. pose proof Hrun as (th & Ht & Hst).
  destruct (wf_lock _ Hwf _ _ Hk) as (x & Hx & _).
  rewrite (stack_of_eq _ _ _ Ht) in Hres. unfold lock_try_acquire.
  apply wp_bind. eapply wp_Ok; [by apply lock_held_run|]. apply wp_bind, wp_ASSERT_panic.
  { destruct Hpan as [?|?]; [by left|right]. by rewrite bool_decide_false. }
  intros _.
  apply wp_bind. eapply wp_Ok; [by apply thread_current_run|].
  apply wp_bind. eapply wp_Ok; [done|]. set (s1 := with_level INTR_OFF s).
  apply wp_bind. unfold sema_try_down. apply wp_bind. eapply wp_Ok; [done|].
  apply wp_bind. eapply wp_get_sema; [exact Hx|]. apply wp_bind. case_decide as Hv.
  - apply wp_bind, wp_modify, wp_ret, wp_bind. eapply wp_Ok; [done|]. apply wp_ret.
    pose proof (wf_free_value _ _ _ _ Hwf Hk Hx ltac:(lia)) as Hh.
    apply wp_bind, wp_bind. eapply wp_get_lock; [exact Hk|]. apply wp_bind. eapply wp_get_thread; [exact Ht|].
    apply wp_bind, wp_modify.
    eapply (wp_lock_elem_insert _ (cur s) l th); [by eapply (wf_free_lock s)|exact Ht|].
    intros lq Hlq. apply wp_bind, wp_intr_set_level; [done|]. apply wp_ret.
    eapply (kernel_ok_level _ (set_lock_queue lq th)); try done.
    + eapply (wf_take s _ th (set_lock_queue lq th) l k _ x); try done; [lia|].
      intros m. apply (wf_donated _ Hwf _ _ _ Ht).
    + cbn. by rewrite lookup_insert_eq.
  - apply wp_ret, wp_bind. eapply wp_Ok; [done|]. apply wp_ret, wp_bind, wp_ret.
    apply wp_bind, wp_intr_set_level; [done|]. apply wp_ret. apply (kernel_ok_level _ th); try done. eapply wf_ext; [|exact Hwf]. done.
Qed.

Lemma wp_lock_release pan s l k :
  kernel_ok s → locks s !! l = Some k → idle_thread s ≠ Some (cur s) →
  pan = true ∨ holder k = Some (cur s) →
  wp pan (lock_release l) (λ _, kernel_ok) s.
Proof.
  intros (Hwf & Hrun & Hi & Hres & _) Hk Hid Hpan. pose proof Hrun as (th & Ht & Hst).
  destruct (wf_lock _ Hwf _ _ Hk) as (x & Hx & Hv01 & H1 & H2).
  rewrite (stack_of_eq _ _ _ Ht) in Hres. unfold lock_release.
  apply wp_bind. eapply wp_Ok; [by apply lock_held_run|]. apply wp_bind, wp_ASSERT_panic.
  { destruct Hpan as [?|?]; [by left|right]. by apply bool_decide_true. }
  intros Hh%bool_decide_eq_true.
  apply wp_bind. eapply wp_Ok; [by apply thread_current_run|].
  apply wp_bind. eapply wp_Ok; [done|]. set (s1 := with_level INTR_OFF s).
  apply wp_bind. eapply wp_get_lock; [exact Hk|]. apply wp_bind, wp_modify. set (s2 := with_locks _ s1).
  destruct (wf_held _ Hwf _ _ _ Hk Hh) as (th0 & ? & Hin). simplify_eq.
  assert (lock_elem_in s2 l = Some (cur s)) as Hel.
  { apply (lock_elem_in_Some s l (cur s) th); [done..|]. intros. by eapply wf_holder_unique. }
  apply wp_bind. unfold lock_elem_remove. apply wp_bind, wp_get. rewrite Hel.
  eapply wp_upd_thread; [exact Ht|]. set (th3 := set_lock_queue _ th). set (s3 := with_threads _ s2).
  apply wp_bind. eapply (wp_get_thread _ (cur s) th3); [apply lookup_insert_eq|]. apply wp_bind, wp_get.
  apply wp_bind. eapply wp_upd_thread; [apply lookup_insert_eq|]. set (p := match _ with [] => _ | _ => _ end).
  apply wp_bind. eapply wp_get_lock; [apply lookup_insert_eq|]. apply wp_bind, wp_modify.
  apply wp_bind, wp_intr_set_level; [done|].
  eapply wp_push_frames; [cbn; apply lookup_insert_eq|]. set (th' := set_kstack _ _).
  assert (l ∉ frames_of releases (threads s)) as Hnr by (apply H2; congruence).
  assert (value x = 0) as Hv0 by (destruct Hv01 as [?|E1]; [done|destruct (H1 E1); congruence]).
  match goal with |- kernel_ok ?s' => set (s9 := s') end.
  assert (threads s9 = <[cur s := th']> (threads s)) as E9.
  { unfold s9. cbn. by rewrite !insert_insert_eq. }
  assert (frames_of releases (threads s9) ≡ₚ l :: frames_of releases (threads s)) as Hfr.
  { destruct (frames_of_insert releases (threads s) (cur s) th) as (rest & Ha & Hb & _).
    rewrite E9, Ha, (Hb Ht). done. }
  split_and!.
  - eapply (wf_lock_change s s9 (cur s) th th' l k _ x (value x)); try done.
    + cbn. by rewrite insert_insert_eq.
    + cbn. symmetry. apply insert_id. rewrite Hx. by destruct x.
    + intros m. apply (wf_donated _ Hwf _ _ _ Ht).
    + by right.
    + by left.
    + intros m. cbn. rewrite list_elem_of_filter. naive_solver.
    + cbn. apply NoDup_filter, (wf_lockq _ Hwf _ _ Ht).
    + exists x. split_and!; [done|by left|by rewrite Hv0|done].
    + intros m. rewrite Hfr, elem_of_cons. done.
    + rewrite Hfr. apply NoDup_cons. split; [done|]. apply (wf_releases _ Hwf).
    + constructor; [by eexists|]. apply (wf_frames _ Hwf _ _ Ht).
  - exists th'. rewrite E9. split; [apply lookup_insert_eq|done].
  - done.
  - unfold stack_of. rewrite E9. change (cur s9) with (cur s). rewrite lookup_insert_eq. exact Hres.
  - done.
Qed.

End SchedLock.
