(* ===== verification/SchedStep.v ===== *)
(** * Every event keeps the scheduler's invariant *)

From S2P Require Import Prelude KListSpec KListSort KListRefine Kernel Thread Synch Timer Machine.
From S2P Require Import SchedInv SchedOps SchedSync SchedLock.
Import Kernel Thread Synch Timer Machine SchedInv SchedOps SchedSync SchedLock.

Module SchedStep.

#[local] Arguments in_order : simpl never.

(** ** The stack of the idle thread *)

Lemma idle_stack_head f fs :
  idle_stack (f :: fs) → lock_free f ∨ f = F_idle ∨ f = F_idle_hlt.
Proof.
  intros (gs & g & E & Hgs & Hg). destruct gs as [|g' gs]; cbn in E; simplify_eq; [by right|].
  left. by apply Forall_cons in Hgs as [? _].
Qed.

Lemma idle_stack_tail f fs :
  idle_stack (f :: fs) → f ≠ F_idle → f ≠ F_idle_hlt → idle_stack fs.
Proof.
  intros (gs & g & E & Hgs & Hg) H1 H2. destruct gs as [|g' gs]; cbn in E; simplify_eq; [naive_solver|].
  exists gs, g. split_and!; [done| |done]. by apply Forall_cons in Hgs as [_ ?].
Qed.

Lemma idle_stack_nil : ¬ idle_stack [].
Proof. intros (gs & g & E & _). by destruct gs. Qed.

(** ** Only the stack of the running thread changes *)

Lemma wf_set_stack s th ks :
  wf s → threads s !! cur s = Some th → status th = THREAD_RUNNING → Forall (frame_ok s (cur s)) ks →
  let s' := set_thread (cur s) (set_kstack ks th) s in
  NoDup (frames_of creates (threads s')) →
  (∀ t, t ∈ frames_of creates (threads s') → nascent s t) →
  omap releases ks ⊆+ omap releases (kstack th) → wf s'.
Proof.
  intros Hwf Ht Hst Hfr s' Hnd Hnas Hrel. set (c := cur s) in *. set (th' := set_kstack ks th) in *.
  assert (∀ u, u ≠ c → threads s' !! u = threads s !! u) as Hu
    by (intros u Hu; cbn; by rewrite lookup_insert_ne).
  assert (threads s' !! c = Some th') as Ht' by apply lookup_insert_eq.
  assert (∀ u thu', threads s' !! u = Some thu' →
    ∃ thu, threads s !! u = Some thu ∧ status thu' = status thu ∧ queue thu' = queue thu ∧
           lock_queue thu' = lock_queue thu ∧ donated_for thu' = donated_for thu ∧
           e_pri thu' = e_pri thu) as Hback.
  { intros u thu' E. destruct (decide (u = c)) as [->|Hne].
    - rewrite Ht' in E. injection E as <-. by exists th.
    - rewrite Hu in E by done. by exists thu'. }
  assert (∀ u thu, threads s !! u = Some thu →
    ∃ thu', threads s' !! u = Some thu' ∧ status thu' = status thu ∧ queue thu' = queue thu ∧
           lock_queue thu' = lock_queue thu) as Hfwd.
  { intros u thu E. destruct (decide (u = c)) as [->|Hne].
    - rewrite Ht in E. injection E as <-. by exists th'.
    - exists thu. by rewrite Hu. }
  assert (frames_of releases (threads s') ⊆+ frames_of releases (threads s)) as Hr
    by (by eapply frames_of_submseteq).
  split; try (by apply Hwf).
  - intros q t Hin. destruct (wf_listed _ Hwf q t) as (thu & Hthu & ? & ?); [by destruct q|].
    destruct (Hfwd _ _ Hthu) as (thu' & ? & ? & ? & _). exists thu'. split_and!; congruence.
  - intros q. assert (∀ a b, pri_order s a b → pri_order s' a b) as Hm.
    { intros a b. unfold pri_order. by rewrite !(pri_of_insert s s' c th th'). }
    pose proof (wf_order _ Hwf q) as H. destruct q; unfold in_order in *; try done.
    + intros Hp. eapply Sorted_mono; [|by apply H]. auto.
    + eapply Sorted_mono; [|exact H]. auto.
  - intros u thu' E. destruct (Hback _ _ E) as (thu & Hthu & E1 & E2 & E3 & _).
    pose proof (wf_thread _ Hwf _ _ Hthu) as H. unfold thread_ok in *. rewrite E1, E2, E3.
    destruct (status thu) eqn:Es; try done.
    + destruct (decide (u = c)) as [->|Hne]; [congruence|]. rewrite Hu in E by done. by simplify_eq.
    + destruct (decide (u = c)) as [->|Hne]; [congruence|]. rewrite Hu in E by done. by simplify_eq.
  - cbn. fold c. rewrite lookup_insert_eq. eauto.
  - intros u thu' l E Hl. destruct (Hback _ _ E) as (thu & Hthu & _ & _ & E3 & _). rewrite E3 in Hl.
    exact (wf_holds _ Hwf _ _ _ Hthu Hl).
  - intros l k u Hk Hh. destruct (wf_held _ Hwf _ _ _ Hk Hh) as (thu & Hthu & Hin).
    destruct (Hfwd _ _ Hthu) as (thu' & ? & _ & _ & E3). exists thu'. by rewrite E3.
  - intros u thu' E. destruct (Hback _ _ E) as (thu & Hthu & _ & _ & E3 & _). rewrite E3.
    by eapply wf_lockq.
  - intros l k Hk. apply (lock_ok_mono s); [done| |by apply (wf_lock _ Hwf)].
    intros Hin. by eapply elem_of_submseteq.
  - destruct (wf_releases _ Hwf) as [H1 H2]. split; [by eapply NoDup_submseteq|].
    intros l Hl. apply H2. by eapply elem_of_submseteq.
  - intros u thu' l E Hd. destruct (Hback _ _ E) as (thu & Hthu & _ & _ & _ & E4 & _).
    rewrite E4 in Hd. by eapply (wf_donated _ Hwf).
  - intros u thu' E. destruct (decide (u = c)) as [->|Hne].
    + rewrite Ht' in E. injection E as <-. done.
    + rewrite Hu in E by done. apply (wf_frames _ Hwf _ _ E).
  - intros u thu' E Ha Hne. rewrite Hu in E by done. by apply (wf_resumes _ Hwf _ _ E).
  - split; [done|]. intros t Hin. destruct (Hnas _ Hin) as (thu & Hthu & ? & ?).
    destruct (Hfwd _ _ Hthu) as (thu' & ? & ? & ? & _). exists thu'. split_and!; congruence.
  - destruct (wf_idle _ Hwf) as (i & thi & Hi & Hthi & Hl & Hs & Ha & Hqn & Hnl). exists i.
    destruct (Hfwd _ _ Hthi) as (thi' & Hthi' & E1 & E2 & E3). exists thi'.
    split_and!; try done; [congruence| |unfold alive; by rewrite E1|congruence].
    intros Hne. cbn in Hne. rewrite Hu in Hthi' by done. simplify_eq. by apply Hs.
  - destruct (wf_all _ Hwf) as [H1 H2]. split; [done|]. intros u. change (all_list s') with (all_list s).
    rewrite H2. split.
    + intros (thu & Hthu & Ha). destruct (Hfwd _ _ Hthu) as (thu' & ? & E1 & _). exists thu'.
      split; [done|]. unfold alive. by rewrite E1.
    + intros (thu' & E & Ha). destruct (Hback _ _ E) as (thu & Hthu & E1 & _). exists thu.
      split; [done|]. unfold alive. by rewrite <- E1.
  - apply (wf_tid_lock _ Hwf).
Qed.

(** *** Popping a frame *)

(** The state with the top frame taken off. *)
Definition popped (s : kstate) (th : thread) (fs : list frame) : kstate :=
  set_thread (cur s) (set_kstack fs th) s.

Lemma frames_of_pop g s th f fs :
  threads s !! cur s = Some th → kstack th = f :: fs →
  frames_of g (threads s) ≡ₚ (match g f with Some x => [x] | None => [] end) ++
    frames_of g (threads (popped s th fs)).
Proof.
  intros Ht Hk. destruct (frames_of_insert g (threads s) (cur s) th) as (rest & H1 & H2 & _).
  cbn. rewrite (H2 Ht), Hk, H1. cbn. by destruct (g f).
Qed.

Lemma wf_popped s th f fs :
  kernel_ok s → threads s !! cur s = Some th → kstack th = f :: fs → wf (popped s th fs).
Proof.
  intros (Hwf & (th0 & Ht0 & Hst) & _) Ht Hk. assert (th0 = th) as -> by congruence.
  pose proof (frames_of_pop creates s th f fs Ht Hk) as Hc.
  destruct (wf_creates _ Hwf) as [Hnd Hnas]. rewrite Hc in Hnd. apply NoDup_app in Hnd as (_ & _ & Hnd).
  apply wf_set_stack; try done.
  - pose proof (wf_frames _ Hwf _ _ Ht) as H. rewrite Hk in H. by apply Forall_cons in H as [_ ?].
  - intros t Hin. apply Hnas. rewrite Hc. apply elem_of_app. by right.
  - rewrite Hk. cbn. destruct (releases f); [by apply submseteq_cons|done].
Qed.

(** The facts a frame's code can use. *)
Record at_frame (s : kstate) (th : thread) (f : frame) (fs : list frame) (s1 : kstate) : Prop := {
  af_wf : wf s1;
  af_thread : threads s1 !! cur s1 = Some (set_kstack fs th);
  af_status : status th = THREAD_RUNNING;
  af_intr : in_external_intr s1 = false;
  af_level : level s1 = level s;
  af_resumes : resumes (level s) (f :: fs);
  af_frame : frame_ok s1 (cur s1) f;
  af_creates t : creates f = Some t → nascent s1 t ∧ t ∉ frames_of creates (threads s1);
  af_releases l : releases f = Some l →
    l ∉ frames_of releases (threads s1) ∧
    ∃ k x, locks s1 !! l = Some k ∧ semas s1 !! SemaLock l = Some x ∧ value x = 0 ∧ holder k = None;
  af_idle : idle_thread s1 = Some (cur s1) → idle_stack (f :: fs);
}.

Lemma at_frame_intro s th f fs :
  kernel_ok s → threads s !! cur s = Some th → kstack th = f :: fs →
  at_frame s th f fs (popped s th fs).
Proof.
  intros Hok Ht Hk. pose proof Hok as (Hwf & (th0 & Ht0 & Hst) & Hi & Hres & Hid).
  assert (th0 = th) as -> by congruence. rewrite (stack_of_eq _ _ _ Ht), Hk in Hres, Hid.
  pose proof (wf_frames _ Hwf _ _ Ht) as Hfr. rewrite Hk in Hfr. apply Forall_cons in Hfr as [Hfr _].
  split; try done.
  - by eapply wf_popped.
  - apply lookup_insert_eq.
  - intros t Hc. pose proof (frames_of_pop creates s th f fs Ht Hk) as Hp. rewrite Hc in Hp.
    destruct (wf_creates _ Hwf) as [Hnd Hnas]. rewrite Hp in Hnd.
    apply NoDup_app in Hnd as (_ & Hn & _). split; [|apply Hn; left].
    destruct (Hnas t) as (tht & Htt & Hb & Hq); [rewrite Hp; left|]. exists tht.
    cbn. rewrite lookup_insert_ne; [done|]. intros <-. congruence.
  - intros l Hr. pose proof (frames_of_pop releases s th f fs Ht Hk) as Hp. rewrite Hr in Hp.
    destruct (wf_releases _ Hwf) as [Hnd Hex]. rewrite Hp in Hnd.
    apply NoDup_app in Hnd as (_ & Hn & _). split; [apply Hn; left|].
    assert (l ∈ frames_of releases (threads s)) as Hin by (rewrite Hp; left).
    destruct (Hex l Hin) as [k Hlk]. destruct (wf_lock _ Hwf _ _ Hlk) as (x & Hx & Hv & H1 & H2).
    exists k, x. split_and!; try done.
    + destruct Hv as [?|E]; [done|]. by destruct (H1 E).
    + destruct (holder k) eqn:E; [|done]. by destruct (H2 ltac:(done)).
Qed.

(** A frame that keeps the level and is not the idle thread's last one
    leaves a state at rest. *)
Lemma at_frame_ok s th f fs s1 :
  at_frame s th f fs s1 → resumes (level s) fs → f ≠ F_idle → f ≠ F_idle_hlt → kernel_ok s1.
Proof.
  intros [Hwf Ht Hst Hi Hl _ _ _ _ Hid] Hr H1 H2. unfold kernel_ok. rewrite (stack_of_eq _ _ _ Ht).
  split_and!; [done|by eexists|done|by rewrite Hl|]. intros Hii. eapply idle_stack_tail; eauto.
Qed.

Lemma at_frame_not_idle s th f fs s1 :
  at_frame s th f fs s1 → ¬ lock_free f → f ≠ F_idle → f ≠ F_idle_hlt →
  idle_thread s1 ≠ Some (cur s1).
Proof.
  intros [_ _ _ _ _ _ _ _ _ Hid] Hf H1 H2 Hi. destruct (idle_stack_head f fs (Hid Hi)) as [?|[?|?]]; done.
Qed.

End SchedStep.
