(* ===== verification/SchedEvents.v ===== *)
(** * The calls, the frames and the timer interrupt, one by one *)

From S2P Require Import Prelude KListSpec KListSort KListRefine Kernel Thread Synch Timer Machine.
From S2P Require Import SchedInv SchedOps SchedSync SchedLock SchedStep.
Import Kernel Thread Synch Timer Machine SchedInv SchedOps SchedSync SchedLock SchedStep.

Module SchedEvents.

#[local] Arguments in_order : simpl never.

(** ** Calls *)

Lemma wp_sema_down pan s n x :
  kernel_ok s → semas s !! SemaFree n = Some x → idle_thread s ≠ Some (cur s) →
  wp pan (sema_down (SemaFree n)) (λ _, kernel_ok) s.
Proof.
  intros (Hwf & (th & Ht & Hst) & Hi & Hres & _) Hx Hid. rewrite (stack_of_eq _ _ _ Ht) in Hres.
  unfold sema_down. apply wp_bind, wp_gets, wp_bind, wp_ASSERT; [by rewrite Hi|].
  apply wp_bind. eapply wp_Ok; [done|].
  eapply (wp_sema_down_resume pan (with_level INTR_OFF s)); try done. eapply wf_ext; [|exact Hwf]. done.
Qed.

(** New objects. *)
Lemma wf_new_sema s r v :
  wf s → semas s !! r = None → (∀ l, r = SemaLock l → locks s !! l = None) →
  wf (with_semas (<[r := Semaphore v []]> (semas s)) s).
Proof.
  intros Hwf Hr Hl. set (s' := with_semas _ s).
  assert (∀ q, qlist s' q = qlist s q) as Hq.
  { intros [| |r'|c]; cbn; try done. destruct (decide (r' = r)) as [->|].
    - by rewrite lookup_insert_eq, Hr.
    - by rewrite lookup_insert_ne. }
  destruct Hwf as [H1 H2 H3 H4 H5 H6 H7 H8 H9 H10 H11 H12 H13 H14 H15 H16 H17 H18 H19].
  split; try done.
  - intros q. rewrite Hq. apply H1.
  - intros q t. rewrite Hq. apply H2.
  - intros q. specialize (H4 q). unfold in_order in *. destruct q; try done. rewrite Hq. exact H4.
  - intros t th Ht. specialize (H5 t th Ht). unfold thread_ok in *. destruct (status th); try done.
    destruct H5 as [(q & ? & ?)|?]; [left; exists q; by rewrite Hq|by right].
  - intros l k Hk. apply (lock_ok_mono s); [|done|auto]. cbn. rewrite lookup_insert_ne; [done|].
    intros ->. by rewrite Hl in Hk.
  - intros t th Ht. eapply Forall_impl; [by eapply H13|]. intros f.
    apply frame_ok_mono; [|done|done]. intros r'. cbn. rewrite lookup_insert_is_Some'. auto.
  - destruct H16 as (i & th & ? & ? & ? & ? & ? & ? & Hn). exists i, th. split_and!; try done.
    intros q. by rewrite Hq.
Qed.

Lemma wf_new_lock s l v p x :
  wf s → locks s !! l = None → semas s !! SemaLock l = Some x → value x = 1 →
  wf (with_locks (<[l := Lock None v p]> (locks s)) s).
Proof.
  intros Hwf Hl Hx Hv. set (s' := with_locks _ s).
  assert (∀ m k, locks s !! m = Some k → locks s' !! m = Some k) as Hm
    by (intros m k Hk; cbn; rewrite lookup_insert_ne by congruence; done).
  assert (∀ m, is_Some (locks s !! m) → is_Some (locks s' !! m)) as Hs by (intros m []; eauto).
  destruct Hwf as [H1 H2 H3 H4 H5 H6 H7 H8 H9 H10 H11 H12 H13 H14 H15 H16 H17 H18 H19].
  split; try done.
  - intros t th m Ht Hin. destruct (H7 _ _ _ Ht Hin) as (k & ? & ?). eauto.
  - intros m k t Hk Hh. cbn in Hk. apply lookup_insert_Some in Hk as [[<- <-]|[_ Hk]]; [done|eauto].
  - intros m k Hk. cbn in Hk. apply lookup_insert_Some in Hk as [[<- <-]|[_ Hk]]; [|by apply (H10 m)].
    exists x. split_and!; [done|by right| |done]. intros _. split; [done|]. intros Hin.
    destruct H11 as [_ H]. destruct (H _ Hin). congruence.
  - destruct H11 as [? H]. split; [done|]. intros m Hin. by apply Hs, H.
  - intros t th m Ht Hd. by apply Hs, (H12 t th).
  - intros t th Ht. eapply Forall_impl; [by eapply H13|]. intros f. by apply frame_ok_mono.
  - by apply Hs.
Qed.

Lemma kernel_ok_objects s sm lk :
  kernel_ok s → wf (with_locks lk (with_semas sm s)) → kernel_ok (with_locks lk (with_semas sm s)).
Proof. intros (_ & ? & ? & ? & ?) Hwf. by split. Qed.

Lemma wp_sema_init pan s n v :
  kernel_ok s → semas s !! SemaFree n = None →
  wp pan (sema_init (SemaFree n) v) (λ _, kernel_ok) s.
Proof.
  intros Hok Hn. apply wp_modify. apply (kernel_ok_objects s _ (locks s) Hok).
  eapply wf_ext; [|apply (wf_new_sema s (SemaFree n) v)]; [done|apply Hok|done|by intros l [=]].
Qed.

Lemma wp_lock_init pan s l :
  kernel_ok s → locks s !! l = None → semas s !! SemaLock l = None →
  wp pan (lock_init l) (λ _, kernel_ok) s.
Proof.
  intros Hok Hl Hs. apply wp_bind, wp_modify, wp_modify.
  apply (kernel_ok_objects s _ _ Hok).
  eapply wf_ext; [|eapply (wf_new_lock (with_semas (<[SemaLock l := Semaphore 1 []]> (semas s)) s) l)].
  - done.
  - apply wf_new_sema; [apply Hok|done|]. by intros m [= <-].
  - done.
  - cbn. apply lookup_insert_eq.
  - done.
Qed.

(** [thread_get_priority] leaves the state alone. *)
Lemma thread_get_priority_run s th :
  threads s !! cur s = Some th → status th = THREAD_RUNNING → in_external_intr s = false →
  thread_get_priority s = Ok (e_pri th, s).
Proof.
  intros Ht Hst Hi. unfold thread_get_priority. erewrite bind_Ok by done.
  erewrite bind_Ok; [|apply (thread_current_run (with_level INTR_OFF s)); by exists th].
  erewrite bind_Ok; [|unfold get_thread; cbn; by rewrite Ht].
  erewrite bind_Ok; [|by apply intr_set_level_run]. unfold mret, M_ret. do 2 f_equal.
  by apply kstate_eq.
Qed.

Lemma wp_wake_check pan s t th :
  kernel_ok s → threads s !! t = Some th → wp pan (wake_check t) (λ _, kernel_ok) s.
Proof.
  intros Hok Hth. pose proof Hok as (_ & (thc & Ht & Hst) & Hi & _).
  unfold wake_check. apply wp_bind. eapply wp_get_thread; [done|].
  apply wp_bind. eapply wp_Ok; [by eapply thread_get_priority_run|].
  case_decide; [by apply wp_thread_yield|by apply wp_ret].
Qed.

(** The running thread's own fields. *)
Lemma kernel_ok_quiet s th th' :
  kernel_ok s → threads s !! cur s = Some th → status th' = status th → queue th' = queue th →
  lock_queue th' = lock_queue th → donated_for th' = donated_for th → kstack th' = kstack th →
  kernel_ok (set_thread (cur s) th' s).
Proof.
  intros (Hwf & (th0 & Ht0 & Hst) & Hi & Hres & Hid) Ht E1 E2 E3 E4 E5.
  assert (th0 = th) as -> by congruence. rewrite (stack_of_eq _ _ _ Ht) in Hres, Hid.
  unfold kernel_ok, stack_of. cbn. rewrite lookup_insert_eq. cbn. rewrite E5. split_and!; try done.
  - eapply wf_quiet; try done; [by rewrite E3|right|by apply running_alive|].
    + intros q. by eapply wf_running_unlisted.
    + intros l. rewrite E4. apply (wf_donated _ Hwf _ _ _ Ht).
  - exists th'. split; [apply lookup_insert_eq|congruence].
Qed.

Lemma wp_return_value pan s v :
  kernel_ok s → wp pan (return_value v) (λ _, kernel_ok) s.
Proof.
  intros Hok. pose proof Hok as (_ & (th & Ht & Hst) & _). unfold return_value. apply wp_bind, wp_gets.
  eapply wp_upd_thread; [exact Ht|]. by eapply (kernel_ok_quiet s th).
Qed.

Lemma wp_sema_try_down pan s n x :
  kernel_ok s → semas s !! SemaFree n = Some x →
  wp pan (sema_try_down (SemaFree n)) (λ _, kernel_ok) s.
Proof.
  intros (Hwf & (th & Ht & Hst) & Hi & Hres & Hid) Hx. rewrite (stack_of_eq _ _ _ Ht) in Hres, Hid.
  unfold sema_try_down. apply wp_bind. eapply wp_Ok; [done|]. set (s1 := with_level INTR_OFF s).
  apply wp_bind. eapply wp_get_sema; [exact Hx|]. apply wp_bind. case_decide.
  - apply wp_bind, wp_modify, wp_ret, wp_bind, wp_intr_set_level; [done|]. apply wp_ret.
    apply (kernel_ok_level _ th); try done.
    eapply wf_ext; [|apply (wf_sema_value s (SemaFree n) x (value x - 1) Hwf Hx)]; [done|]. by intros l k [=].
  - apply wp_ret, wp_bind, wp_intr_set_level; [done|]. apply wp_ret.
    apply (kernel_ok_level _ th); try done. eapply wf_ext; [|exact Hwf]. done.
Qed.

Lemma level_restored s : with_level (level s) (with_level INTR_OFF s) = s.
Proof. by apply kstate_eq. Qed.

Lemma wp_timer_sleep pan s n :
  kernel_ok s → stack_of s (cur s) = [] → wp pan (timer_sleep n) (λ _, kernel_ok) s.
Proof.
  intros Hok Hks. pose proof Hok as (Hwf & (th & Ht & Hst) & Hi & Hres & Hid). rewrite (stack_of_eq _ _ _ Ht) in *.
  assert (idle_thread s ≠ Some (cur s)) as Hni.
  { intros E. rewrite Hks in Hid. by destruct (idle_stack_nil (Hid E)). }
  assert (level s = INTR_ON) as Hl by (by rewrite Hks in Hres).
  unfold timer_sleep. apply wp_bind. unfold timer_ticks. apply wp_bind. eapply wp_Ok; [done|].
  apply wp_bind, wp_gets, wp_bind, wp_intr_set_level; [done|]. rewrite level_restored. apply wp_ret.
  apply wp_bind, wp_gets, wp_bind, wp_ASSERT; [by apply bool_decide_true|].
  apply wp_bind. eapply wp_Ok; [apply thread_current_run; by exists th|].
  apply wp_bind. eapply wp_upd_thread; [exact Ht|]. set (th2 := set_wake_up _ th). set (s2 := with_threads _ s).
  assert (kernel_ok s2) as Hok2 by (by apply (kernel_ok_quiet s th th2)).
  eapply wp_push_frames; [cbn; apply lookup_insert_eq|]. apply (kernel_ok_push s2 th2 [F_sleep]); try done; try apply lookup_insert_eq; by repeat constructor.
Qed.
Lemma wp_sleep_block pan s :
  kernel_ok s → idle_thread s ≠ Some (cur s) → wp pan sleep_block (λ _, kernel_ok) s.
Proof.
  intros (Hwf & (th & Ht & Hst) & Hi & Hres & _) Hni. rewrite (stack_of_eq _ _ _ Ht) in *.
  unfold sleep_block. apply wp_bind, wp_gets, wp_bind. eapply wp_Ok; [done|]. set (s1 := with_level INTR_OFF s).
  eapply (wp_park pan s1 (cur s) th Qsleep wake_up_before (F_set_level (level s))); try done.
  - by eapply (wf_ext s).
  - by left.
Qed.

Lemma wp_set_priority pan s p :
  kernel_ok s → wp pan (thread_set_priority p) (λ _, kernel_ok) s.
Proof.
  intros Hok. pose proof Hok as (Hwf & (th & Ht & Hst) & Hi & Hres & Hid).
  rewrite (stack_of_eq _ _ _ Ht) in Hres, Hid.
  unfold thread_set_priority. apply wp_bind. eapply wp_Ok; [apply thread_current_run; by exists th|].
  apply wp_bind. eapply wp_get_thread; [exact Ht|]. case_decide; [by apply wp_ret|].
  apply wp_bind. eapply wp_Ok; [done|]. set (s1 := with_level INTR_OFF s).
  apply wp_bind. eapply wp_get_thread; [exact Ht|].
  assert (∀ th2, status th2 = status th → queue th2 = queue th → lock_queue th2 = lock_queue th →
    donated_for th2 = donated_for th → kstack th2 = kstack th → ∀ b : bool,
    wp pan (upd_thread (cur s) (set_b_pri (i8 p));; intr_set_level (level s);;
            if b then thread_yield else mret ()) (λ _, kernel_ok) (set_thread (cur s) th2 s1)) as Hk.
  { intros th2 E1 E2 E3 E4 E5 b. apply wp_bind. eapply wp_upd_thread; [cbn; apply lookup_insert_eq|].
    apply wp_bind, wp_intr_set_level; [done|]. set (s2 := with_level _ _).
    assert (kernel_ok s2) as Hok2.
    { assert (s2 = set_thread (cur s) (set_b_pri (i8 p) th2) s) as ->.
      { apply kstate_eq; try reflexivity. cbn. by rewrite insert_insert_eq. }
      by eapply (kernel_ok_quiet s th). }
    destruct b; [by apply wp_thread_yield|by apply wp_ret]. }
  apply wp_bind. case_decide; [|case_decide].
  - eapply wp_upd_thread; [exact Ht|]. by apply Hk.
  - eapply wp_upd_thread; [exact Ht|]. by apply Hk.
  - apply wp_ret. assert (s1 = set_thread (cur s) th s1) as ->.
    { apply kstate_eq; try reflexivity. cbn. by rewrite insert_id. }
    by apply Hk.
Qed.

(** ** Creation and exit *)

(** A new thread, not yet known to anybody. *)
Lemma wf_new s t th :
  wf s → threads s !! t = None → status th = THREAD_BLOCKED → lock_queue th = [] →
  queue th = None → donated_for th = None → kstack th = [F_kernel_thread FnClient] →
  wf (with_all_list (all_list s ++ [t]) (set_thread t th s)).
Proof.
  intros Hwf Ht Hst Hlq Hq Hd Hks. set (s' := with_all_list _ _).
  assert (∀ u, u ≠ t → threads s' !! u = threads s !! u) as Hu
    by (intros u Hu; cbn; by rewrite lookup_insert_ne).
  assert (threads s' !! t = Some th) as Ht' by apply lookup_insert_eq.
  assert (∀ u thu, threads s !! u = Some thu → u ≠ t) as Hne by congruence.
  assert (∀ g, g (F_kernel_thread FnClient) = None → frames_of g (threads s') ≡ₚ frames_of g (threads s)) as Hfr.
  { intros g Hg. destruct (frames_of_insert g (threads s) t th) as (rest & H1 & _ & H3 & _).
    destruct (H3 Ht) as [_ ->]. cbn. rewrite H1, Hks. cbn. by rewrite Hg. }
  assert (t ≠ cur s) as Htc by (destruct (wf_cur _ Hwf); congruence).
  split.
  - apply (wf_nodup _ Hwf).
  - intros q u Hin. destruct (wf_listed _ Hwf q u Hin) as (thu & Hthu & ?). exists thu.
    rewrite Hu by eauto. done.
  - apply (wf_conds _ Hwf).
  - intros q. pose proof (wf_listed _ Hwf q) as Hl. pose proof (wf_order _ Hwf q) as H.
    assert (∀ a b, a ∈ qlist s q → b ∈ qlist s q → pri_order s a b → pri_order s' a b) as Hm.
    { intros a b Ha Hb. destruct (Hl a Ha) as (? & ? & _). destruct (Hl b Hb) as (? & ? & _).
      unfold pri_order. by rewrite !(pri_of_ne s s' t th) by eauto. }
    destruct q; unfold in_order in *; try done.
    + intros Hp. eapply Sorted_mono; [exact Hm|]. by apply H.
    + eapply Sorted_mono; [exact Hm|]. exact H.
  - intros u thu Hthu. destruct (decide (u = t)) as [->|Hn].
    + simplify_eq. unfold thread_ok. rewrite Hst. by right.
    + rewrite Hu in Hthu by done. apply (wf_thread _ Hwf _ _ Hthu).
  - cbn. rewrite lookup_insert_ne by done. apply (wf_cur _ Hwf).
  - intros u thu l Hthu Hl. destruct (decide (u = t)) as [->|Hn].
    + simplify_eq. rewrite Hlq in Hl. by apply not_elem_of_nil in Hl.
    + rewrite Hu in Hthu by done. apply (wf_holds _ Hwf _ _ _ Hthu Hl).
  - intros l k u Hk Hh. destruct (wf_held _ Hwf _ _ _ Hk Hh) as (thu & Hthu & Hin). exists thu.
    by rewrite Hu by eauto.
  - intros u thu Hthu. destruct (decide (u = t)) as [->|Hn].
    + simplify_eq. rewrite Hlq. constructor.
    + rewrite Hu in Hthu by done. apply (wf_lockq _ Hwf _ _ Hthu).
  - intros l k Hk. apply (lock_ok_mono s); [done|by rewrite Hfr|by apply (wf_lock _ Hwf)].
  - rewrite Hfr by done. destruct (wf_releases _ Hwf) as [? H]. split; [done|]. intros l.
    rewrite Hfr by done. apply H.
  - intros u thu l Hthu Hd'. destruct (decide (u = t)) as [->|Hn]; [congruence|].
    rewrite Hu in Hthu by done. apply (wf_donated _ Hwf _ _ _ Hthu Hd').
  - intros u thu Hthu. destruct (decide (u = t)) as [->|Hn].
    + simplify_eq. rewrite Hks. by repeat constructor.
    + rewrite Hu in Hthu by done. apply (wf_frames _ Hwf _ _ Hthu).
  - intros u thu Hthu Ha Hn. destruct (decide (u = t)) as [->|Hn'].
    + simplify_eq. by rewrite Hks.
    + rewrite Hu in Hthu by done. by apply (wf_resumes _ Hwf _ _ Hthu Ha).
  - rewrite Hfr by done. destruct (wf_creates _ Hwf) as [? H]. split; [done|]. intros u.
    rewrite Hfr by done. intros Hin. destruct (H _ Hin) as (thu & Hthu & ?). exists thu.
    by rewrite Hu by eauto.
  - destruct (wf_idle _ Hwf) as (i & thi & Hi & Hthi & ?). exists i, thi. rewrite Hu by eauto. done.
  - destruct (wf_all _ Hwf) as [H1 H2]. cbn [all_list s' with_all_list]. split.
    + apply NoDup_app. split_and!; [done| |by apply NoDup_singleton]. intros u Hin.
      rewrite list_elem_of_singleton. intros ->. apply H2 in Hin as (? & ? & _). congruence.
    + intros u. rewrite elem_of_app, list_elem_of_singleton, H2. split.
      * intros [(thu & Hthu & Ha)| ->].
        -- exists thu. by rewrite Hu by eauto.
        -- exists th. split; [done|]. unfold alive. by rewrite Hst.
      * intros (thu & Hthu & Ha). destruct (decide (u = t)) as [->|Hn]; [by right|left].
        rewrite Hu in Hthu by done. eauto.
  - apply (wf_policy _ Hwf).
  - apply (wf_tid_lock _ Hwf).
Qed.

(** Frames that continue a thread's creation. *)
Lemma kernel_ok_push_create s th t fs :
  kernel_ok s → threads s !! cur s = Some th → Forall (frame_ok s (cur s)) fs →
  omap creates fs = [t] → omap releases fs = [] → nascent s t →
  t ∉ frames_of creates (threads s) → idle_thread s ≠ Some (cur s) →
  resumes (level s) (fs ++ kstack th) →
  kernel_ok (set_thread (cur s) (set_kstack (fs ++ kstack th) th) s).
Proof.
  intros (Hwf & (th0 & Ht0 & Hst) & Hi & _ & _) Ht Hf Hc Hr Hn Hnc Hid Hres.
  assert (th0 = th) as -> by congruence.
  assert (frames_of creates (<[cur s := set_kstack (fs ++ kstack th) th]> (threads s)) ≡ₚ
          t :: frames_of creates (threads s)) as Hfr.
  { destruct (frames_of_insert creates (threads s) (cur s) th) as (rest & H1 & H2 & _).
    rewrite H1, (H2 Ht). cbn [kstack set_kstack]. by rewrite omap_app, Hc. }
  destruct (wf_creates _ Hwf) as [Hnd Hnas].
  unfold kernel_ok, stack_of. cbn. rewrite lookup_insert_eq. split_and!; try done.
  - apply wf_set_stack; try done.
    + apply Forall_app. split; [done|]. apply (wf_frames _ Hwf _ _ Ht).
    + rewrite Hfr. by apply NoDup_cons.
    + intros u. rewrite Hfr, elem_of_cons. intros [->|?]; auto.
    + by rewrite omap_app, Hr.
  - eexists. split; [apply lookup_insert_eq|done].
Qed.

Lemma wp_thread_create pan s page p :
  kernel_ok s → idle_thread s ≠ Some (cur s) →
  match page with Some t => threads s !! t = None ∧ 0 ≤ p ≤ 63 | None => True end →
  wp pan (thread_create page p FnClient) (λ _, kernel_ok) s.
Proof.
  intros Hok Hid Hpage. destruct page as [t|]; [|by apply wp_return_value].
  destruct Hpage as [Hnew Hp]. pose proof Hok as (Hwf & (th & Ht & Hst) & Hi & Hres & _).
  rewrite (stack_of_eq _ _ _ Ht) in Hres. assert (t ≠ cur s) as Htc by congruence.
  unfold thread_create. apply wp_bind. unfold init_thread.
  apply wp_bind, wp_ASSERT; [apply andb_true_intro; split; apply bool_decide_true; unfold PRI_MIN, PRI_MAX; lia|].
  apply wp_bind, wp_modify. set (new := Thread _ _ _ _ _ _ _ _ _ _ _). apply wp_bind. eapply wp_Ok; [done|].
  apply wp_bind, wp_modify, wp_bind, wp_intr_set_level; [done|]. apply wp_ret.
  set (s1 := with_level _ _). assert (s1 = with_all_list (all_list s ++ [t]) (set_thread t new s)) as E1.
  { by apply kstate_eq. }
  rewrite E1. clear E1 s1. set (s1 := with_all_list _ _).
  assert (wf s1) as Hwf1 by (by apply wf_new).
  assert (threads s1 !! cur s1 = Some th) as Ht1 by (cbn; by rewrite lookup_insert_ne).
  apply wp_bind, wp_gets. eapply wp_push_frames; [exact Ht1|].
  eapply (kernel_ok_push_create s1 th t); try done.
  - unfold kernel_ok. rewrite (stack_of_eq _ _ _ Ht1). split_and!; [done|by exists th|done|done|done].
  - constructor; [apply (wf_tid_lock _ Hwf1)|]. by repeat constructor.
  - exists new. split_and!; [apply lookup_insert_eq|done|done].
  - intros Hin. destruct (frames_of_insert creates (threads s) t new) as (rest & H1 & _ & H3 & _).
    destruct (H3 Hnew) as [_ Hr]. cbn in Hin. rewrite H1 in Hin. cbn in Hin. rewrite <- Hr in Hin.
    destruct (wf_creates _ Hwf) as [_ H]. destruct (H _ Hin) as (? & ? & _). congruence.
Qed.

Lemma wp_create_set_tid pan s t p :
  kernel_ok s → nascent s t → t ∉ frames_of creates (threads s) → idle_thread s ≠ Some (cur s) →
  wp pan (create_set_tid t p) (λ _, kernel_ok) s.
Proof.
  intros (Hwf & (th & Ht & Hst) & Hi & Hres & _) (tht & Htt & Hb & Hq) Hnc Hid.
  rewrite (stack_of_eq _ _ _ Ht) in Hres. assert (t ≠ cur s) as Htc by congruence.
  unfold create_set_tid, next_tid_value. apply wp_bind, wp_bind, wp_get, wp_bind, wp_modify, wp_ret.
  set (s1 := with_next_tid _ s). set (n := next_tid s).
  apply wp_bind. eapply wp_upd_thread; [exact Htt|]. set (s2 := with_threads _ s1).
  assert (alive tht) as Ha by (unfold alive; by rewrite Hb).
  assert (wf s2) as Hwf2.
  { eapply (wf_ext (set_thread t (set_tid n tht) s)); [done|]. eapply wf_quiet; try done; [by left|].
    intros l. apply (wf_donated _ Hwf _ _ _ Htt). }
  assert (threads s2 !! cur s2 = Some th) as Ht2 by (cbn; by rewrite lookup_insert_ne).
  apply wp_bind, wp_gets. eapply wp_push_frames; [exact Ht2|].
  eapply (kernel_ok_push_create s2 th t); try done.
  - unfold kernel_ok. rewrite (stack_of_eq _ _ _ Ht2). split_and!; [done|by exists th|done|done|done].
  - constructor; [apply (wf_tid_lock _ Hwf2)|]. by repeat constructor.
  - exists (set_tid n tht). split_and!; [apply lookup_insert_eq|done|done].
  - cbn. by rewrite (frames_of_same creates _ _ tht).
Qed.

Lemma nascent_unlisted s t q : wf s → nascent s t → t ∉ qlist s q.
Proof.
  intros Hwf (th & Ht & _ & Hq) Hin. destruct (wf_listed _ Hwf _ _ Hin) as (? & ? & ? & _). congruence.
Qed.

Lemma nascent_not_idle s t : wf s → nascent s t → idle_thread s ≠ Some t.
Proof.
  intros Hwf (th & Ht & _ & Hq) Hi. destruct (wf_idle _ Hwf) as (? & ? & ? & ? & _ & _ & _ & ? & _).
  congruence.
Qed.

Lemma wp_create_tail pan s t p n :
  kernel_ok s → nascent s t → t ∉ frames_of creates (threads s) → idle_thread s ≠ Some (cur s) →
  wp pan (thread_create_tail t p n) (λ _, kernel_ok) s.
Proof.
  intros (Hwf & (th & Ht & Hst) & Hi & Hres & Hid) Hn Hnc Hni. pose proof Hn as (tht & Htt & Hb & Hq).
  rewrite (stack_of_eq _ _ _ Ht) in Hres, Hid. assert (t ≠ cur s) as Htc by congruence.
  unfold thread_create_tail. apply wp_bind. eapply wp_Ok.
  { apply (thread_unblock_run s t tht); [done|done| |apply (wf_policy _ Hwf)|done].
    apply elem_in_None. intros q. by apply nascent_unlisted. }
  set (s1 := enqueued t tht s).
  assert (wf s1) as Hwf1.
  { apply wf_enqueue; try done; [intros q; by apply nascent_unlisted|by apply nascent_not_idle]. }
  assert (threads s1 !! cur s1 = Some th) as Ht1 by (cbn; by rewrite lookup_insert_ne).
  apply wp_bind, wp_gets. eapply wp_push_frames; [exact Ht1|].
  apply (kernel_ok_push s1 th [F_create_check p n]); try done; try by repeat constructor.
  unfold kernel_ok. rewrite (stack_of_eq _ _ _ Ht1). split_and!; [done|by exists th|done|done|done].
Qed.

Lemma wp_create_check pan s p n :
  kernel_ok s → wp pan (thread_create_check p n) (λ _, kernel_ok) s.
Proof.
  intros Hok. unfold thread_create_check. apply wp_bind.
  eapply wp_mono; [by apply wp_return_value|]. intros ? s1 Hok1. cbn in Hok1.
  pose proof Hok1 as (_ & (th & Ht & Hst) & Hi & _).
  apply wp_bind. eapply wp_Ok; [by eapply thread_get_priority_run|].
  case_decide; [by apply wp_thread_yield|by apply wp_ret].
Qed.

Lemma wf_exit s th :
  wf s → threads s !! cur s = Some th → status th = THREAD_RUNNING → kstack th = [] →
  lock_queue th = [] → idle_thread s ≠ Some (cur s) →
  wf (with_threads (<[cur s := set_status THREAD_DYING th]> (threads s))
        (with_all_list (filter (.≠ cur s) (all_list s)) s)).
Proof.
  intros Hwf Ht Hst Hks Hlq Hid. set (c := cur s) in *. set (th' := set_status THREAD_DYING th).
  set (s' := with_threads _ _).
  assert (∀ u, u ≠ c → threads s' !! u = threads s !! u) as Hu
    by (intros u Hu; cbn; by rewrite lookup_insert_ne).
  assert (threads s' !! c = Some th') as Ht' by apply lookup_insert_eq.
  assert (∀ g, frames_of g (threads s') ≡ₚ frames_of g (threads s)) as Hfr
    by (intros g; by apply (frames_of_same g _ _ th)).
  assert (∀ q, c ∉ qlist s q) as Hun by (intros q; by eapply wf_running_unlisted).
  split; try (by apply Hwf).
  - intros q u Hin. rewrite Hu; [by apply (wf_listed _ Hwf)|]. intros ->. by apply (Hun q).
  - intros q. eapply (in_order_filter s _ c th'); [done|done| |apply (wf_order _ Hwf)].
    rewrite filter_ne_id by done. by destruct q.
  - intros u thu Hthu. destruct (decide (u = c)) as [->|Hn].
    + rewrite Ht' in Hthu. injection Hthu as <-. done.
    + rewrite Hu in Hthu by done. apply (wf_thread _ Hwf _ _ Hthu).
  - cbn. fold c. rewrite lookup_insert_eq. eauto.
  - intros u thu l Hthu Hl. destruct (decide (u = c)) as [->|Hn].
    + rewrite Ht' in Hthu. injection Hthu as <-. cbn in Hl. rewrite Hlq in Hl. by apply not_elem_of_nil in Hl.
    + rewrite Hu in Hthu by done. apply (wf_holds _ Hwf _ _ _ Hthu Hl).
  - intros l k u Hk Hh. destruct (wf_held _ Hwf _ _ _ Hk Hh) as (thu & Hthu & Hin). exists thu.
    rewrite Hu; [done|]. intros ->. assert (thu = th) as -> by congruence. rewrite Hlq in Hin.
    by apply not_elem_of_nil in Hin.
  - intros u thu Hthu. destruct (decide (u = c)) as [->|Hn].
    + rewrite Ht' in Hthu. injection Hthu as <-. cbn. rewrite Hlq. constructor.
    + rewrite Hu in Hthu by done. apply (wf_lockq _ Hwf _ _ Hthu).
  - intros l k Hk. apply (lock_ok_mono s); [done|by rewrite Hfr|by apply (wf_lock _ Hwf)].
  - rewrite Hfr. destruct (wf_releases _ Hwf) as [? H]. split; [done|]. intros l. rewrite Hfr. apply H.
  - intros u thu l Hthu Hd. destruct (decide (u = c)) as [->|Hn].
    + rewrite Ht' in Hthu. injection Hthu as <-. apply (wf_donated _ Hwf _ _ _ Ht Hd).
    + rewrite Hu in Hthu by done. apply (wf_donated _ Hwf _ _ _ Hthu Hd).
  - intros u thu Hthu. destruct (decide (u = c)) as [->|Hn].
    + rewrite Ht' in Hthu. injection Hthu as <-. cbn. rewrite Hks. constructor.
    + rewrite Hu in Hthu by done. apply (wf_frames _ Hwf _ _ Hthu).
  - intros u thu Hthu Ha Hn. rewrite Hu in Hthu by done. by apply (wf_resumes _ Hwf _ _ Hthu Ha).
  - rewrite Hfr. destruct (wf_creates _ Hwf) as [? H]. split; [done|]. intros u. rewrite Hfr.
    intros Hin. destruct (H _ Hin) as (thu & Hthu & ? & ?). exists thu. rewrite Hu; [done|].
    intros ->. congruence.
  - destruct (wf_idle _ Hwf) as (i & thi & Hi & Hthi & ?). exists i, thi.
    rewrite Hu by congruence. done.
  - destruct (wf_all _ Hwf) as [H1 H2]. cbn [all_list s' with_threads with_all_list].
    split; [by apply NoDup_filter|]. intros u. rewrite list_elem_of_filter, H2. split.
    + intros [Hn (thu & Hthu & Ha)]. exists thu. by rewrite Hu.
    + intros (thu & Hthu & Ha). destruct (decide (u = c)) as [->|Hn].
      * rewrite Ht' in Hthu. injection Hthu as <-. by destruct Ha.
      * rewrite Hu in Hthu by done. split; [done|]. eauto.
  - apply (wf_tid_lock _ Hwf).
Qed.

Lemma wp_thread_exit pan s :
  kernel_ok s → stack_of s (cur s) = [] →
  (∀ th, threads s !! cur s = Some th → lock_queue th = []) →
  wp pan thread_exit (λ _, kernel_ok) s.
Proof.
  intros (Hwf & (th & Ht & Hst) & Hi & Hres & Hid) Hks Hlq. rewrite (stack_of_eq _ _ _ Ht) in *.
  assert (idle_thread s ≠ Some (cur s)) as Hni.
  { intros E. rewrite Hks in Hid. by destruct (idle_stack_nil (Hid E)). }
  unfold thread_exit. apply wp_bind, wp_gets, wp_bind, wp_ASSERT; [by rewrite Hi|].
  apply wp_bind. eapply wp_Ok; [done|]. set (s1 := with_level INTR_OFF s).
  apply wp_bind. eapply wp_Ok; [apply (thread_current_run s1); by exists th|].
  apply wp_bind. unfold all_remove. apply wp_bind, wp_get.
  assert (cur s ∈ all_list s) as Hall.
  { apply (wf_all _ Hwf). exists th. split; [done|]. by apply running_alive. }
  rewrite bool_decide_true by exact Hall. apply wp_put.
  apply wp_bind. eapply wp_upd_thread; [exact Ht|].
  eapply (wp_schedule _ _ (set_status THREAD_DYING th)); try done.
  - eapply wf_ext; [|apply (wf_exit s th); try done; auto]. done.
  - cbn. apply lookup_insert_eq.
  - by intros [? _].
Qed.

(** ** The idle thread *)

Lemma wp_idle_loop pan s th :
  wf s → threads s !! cur s = Some th → status th = THREAD_RUNNING → kstack th = [] →
  in_external_intr s = false → idle_thread s = Some (cur s) →
  wp pan idle_loop (λ _, kernel_ok) s.
Proof.
  intros Hwf Ht Hst Hks Hi Hid. unfold idle_loop. apply wp_bind, wp_gets.
  apply wp_bind. eapply wp_Ok; [done|]. set (s1 := with_level INTR_OFF s).
  apply wp_bind. eapply (wp_push_frames _ (cur s)); [exact Ht|]. set (th2 := set_kstack _ th).
  set (s2 := set_thread (cur s) th2 s1). unfold thread_block.
  apply wp_bind, wp_gets, wp_bind, wp_ASSERT; [cbn; by rewrite Hi|]. apply wp_bind, wp_gets, wp_bind, wp_ASSERT; [done|].
  apply wp_bind. eapply wp_Ok; [apply (thread_current_run s2); exists th2; split; [apply lookup_insert_eq|done]|].
  apply wp_bind. eapply wp_upd_thread; [apply lookup_insert_eq|]. set (th3 := set_status THREAD_BLOCKED th2).
  set (s3 := with_threads _ s2).
  assert (threads s3 = <[cur s := th3]> (threads s)) as E3 by (cbn; by rewrite insert_insert_eq).
  assert (idle_stack (kstack th3)) as His.
  { exists [], F_idle_hlt. cbn. rewrite Hks. split_and!; [done|constructor|by right]. }
  destruct (wf_idle _ Hwf) as (i & thi & Hii & Hthi & Hl & _ & _ & Hq & Hnl).
  assert (i = cur s) as -> by congruence. assert (thi = th) as -> by congruence.
  eapply (wp_schedule _ _ th3); try done.
  - eapply (wf_move s s3 (cur s) th th3); try done.
    + split; try done. eauto.
    + apply (wf_nodup _ Hwf).
    + intros q. eapply (in_order_filter s _ (cur s) th3); [done|done| |apply (wf_order _ Hwf)].
      rewrite filter_ne_id by done. by destruct q.
    + intros q Hin. destruct (Hnl q). by destruct q.
    + by right.
    + by apply running_alive.
    + intros l. apply (wf_donated _ Hwf _ _ _ Ht).
    + split; try done; cbn; rewrite Hks; by repeat constructor.
    + rewrite E3, (frames_of_same creates _ _ th) by (done || cbn; by rewrite Hks).
      intros Hin. by destruct (running_not_nascent s Hwf ltac:(by exists th)).
  - rewrite E3. apply lookup_insert_eq.
Qed.

Lemma wp_idle_hlt pan s th :
  wf s → threads s !! cur s = Some th → status th = THREAD_RUNNING → kstack th = [] →
  in_external_intr s = false → idle_thread s = Some (cur s) →
  wp pan idle_hlt (λ _, kernel_ok) s.
Proof.
  intros Hwf Ht Hst Hks Hi Hid. unfold idle_hlt. apply wp_bind, wp_modify.
  apply wp_bind, wp_gets. eapply wp_push_frames; [exact Ht|]. set (th2 := set_kstack _ th).
  set (s2 := set_thread _ _ _).
  assert (idle_stack (kstack th2)) as His.
  { exists [], F_idle. cbn. rewrite Hks. split_and!; [done|constructor|by left]. }
  unfold kernel_ok, stack_of. cbn. rewrite lookup_insert_eq. split_and!; try done.
  - eapply (wf_ext (set_thread (cur s) th2 s)); [done|]. eapply wf_update; try done.
    + by left.
    + by apply running_alive.
    + intros l. apply (wf_donated _ Hwf _ _ _ Ht).
    + split; try done; cbn; rewrite Hks; by repeat constructor.
  - eexists. split; [apply lookup_insert_eq|done].
Qed.

End SchedEvents.
