(* ===== verification/SchedTick.v ===== *)
(** * The timer interrupt *)

From S2P Require Import Prelude KListSpec KListSort KListRefine Kernel Thread Synch Timer Machine.
From S2P Require Import SchedInv SchedOps SchedSync SchedLock SchedStep SchedEvents.
Import Kernel Thread Synch Timer Machine SchedInv SchedOps SchedSync SchedLock SchedStep SchedEvents.

Module SchedTick.

#[local] Arguments in_order : simpl never.

(** ** The loop that wakes sleepers up *)

(** A sleeper's time has come. *)
Definition due (s : kstate) (t : Z) : Prop := wake_up_of s t ≤ ticks s.

(** From [s] to [s'] the threads [ts] went from the sleep list to the run
    queue; nothing else changed. *)
Record woke (s s' : kstate) (ts rest : list Z) : Prop := {
  woke_sleep : timer_sleep_list s' = rest;
  woke_threads u : threads s' !! u =
    if decide (u ∈ ts) then set_status THREAD_READY ∘ set_queue (Some Qready) <$> threads s !! u
    else threads s !! u;
  woke_ready : ready_list s' ≡ₚ ts ++ ready_list s;
  woke_level : level s' = level s;
  woke_intr : in_external_intr s' = in_external_intr s;
  woke_cur : cur s' = cur s;
  woke_idle : idle_thread s' = idle_thread s;
  woke_ticks : ticks s' = ticks s;
}.

Lemma woke_refl s : woke s s [] (timer_sleep_list s).
Proof. by split. Qed.

Lemma woke_due s s' ts rest t : woke s s' ts rest → due s' t ↔ due s t.
Proof.
  intros H. unfold due, wake_up_of. rewrite (woke_ticks _ _ _ _ H), (woke_threads _ _ _ _ H).
  case_decide; [|done]. by destruct (threads s !! t).
Qed.

Lemma woke_trans s1 s2 s3 t ts rest1 rest2 :
  woke s1 s2 [t] rest1 → woke s2 s3 ts rest2 → t ∉ ts → woke s1 s3 (t :: ts) rest2.
Proof.
  intros [A1 A2 A3 A4 A5 A6 A7 A8] [B1 B2 B3 B4 B5 B6 B7 B8] Hn. split; try congruence.
  - intros u. rewrite B2, A2. destruct (decide (u = t)) as [->|Hne].
    + rewrite (decide_False (P := t ∈ ts)), !decide_True by (done || left). done.
    + rewrite (decide_False (P := u ∈ [t])) by (rewrite list_elem_of_singleton; done).
      apply decide_ext. rewrite elem_of_cons. naive_solver.
  - rewrite B3, A3. cbn. by rewrite Permutation_middle.
Qed.

(** One round of the loop. *)
Lemma woke_one s t ts th :
  wf s → timer_sleep_list s = t :: ts → threads s !! t = Some th →
  wf (enqueued t th (with_qlist Qsleep ts s)) ∧
  woke s (enqueued t th (with_qlist Qsleep ts s)) [t] ts.
Proof.
  intros Hwf Hs Ht. destruct (wf_wake s Qsleep t ts th Hwf Hs) as (Hwf2 & _ & _); [done..|].
  split; [done|]. split; try done.
  - intros u. cbn. destruct (decide (u = t)) as [->|Hne].
    + rewrite lookup_insert_eq, decide_True by left. by rewrite Ht.
    + rewrite lookup_insert_ne, decide_False; [done| |done]. by rewrite list_elem_of_singleton.
  - apply (ready_insert_perm (with_sleep_list ts s)).
Qed.

Lemma wake_loop_run n s :
  wf s → level s = INTR_OFF → (length (timer_sleep_list s) ≤ n)%nat →
  ∃ ts rest s', wake_loop n s = Ok ((), s') ∧ wf s' ∧ timer_sleep_list s = ts ++ rest ∧
    woke s s' ts rest ∧ Forall (due s) ts ∧ (∀ t, head rest = Some t → ¬ due s t).
Proof.
  revert s. induction n as [|n IH]; intros s Hwf Hl Hn; cbn [wake_loop]; erewrite bind_Ok by done;
    destruct (timer_sleep_list s) as [|t ts] eqn:Es.
  - exists [], [], s. split_and!; try done.
  - cbn in Hn. lia.
  - exists [], [], s. split_and!; try done.
  - destruct (wf_listed _ Hwf Qsleep t) as (th & Ht & _ & Hst); [cbn; rewrite Es; left|].
    erewrite bind_Ok; [|unfold get_thread; by rewrite Ht].
    assert (timer_ticks s = Ok (ticks s, s)) as Htk.
    { unfold timer_ticks. erewrite bind_Ok by done. erewrite bind_Ok by done. rewrite Hl.
      erewrite bind_Ok by done. unfold mret, M_ret. do 2 f_equal. by apply kstate_eq. }
    erewrite bind_Ok by exact Htk.
    assert (due s t ↔ wake_up th ≤ ticks s) as Hdue by (unfold due, wake_up_of; by rewrite Ht).
    case_decide as Hd.
    2:{ exists [], (t :: ts), s. split_and!; try done.
        intros ? [= <-]. tauto. }
    destruct (woke_one s t ts th Hwf Es Ht) as [Hwf2 Hw].
    destruct (wf_wake s Qsleep t ts th Hwf Es) as (_ & Hun & _); [done..|].
    erewrite bind_Ok; [|unfold elem_pop_front; erewrite bind_Ok by done; cbn [qlist]; rewrite Es;
      by erewrite bind_Ok by done].
    erewrite bind_Ok.
    2:{ apply (thread_unblock_run _ t th); [done|done|exact Hun|apply (wf_policy _ Hwf)|].
        cbn. by rewrite Hl. }
    destruct (IH (enqueued t th (with_qlist Qsleep ts s)) Hwf2) as (ts2 & rest & s' & H1 & H2 & H3 & H4 & H5 & H6);
      [done|cbn in *; lia|]. cbn in H3. exists (t :: ts2), rest, s'. split_and!; try done.
    + cbn. by rewrite H3.
    + eapply woke_trans; [exact Hw|exact H4|]. pose proof (wf_nodup _ Hwf Qsleep) as Hnd. cbn in Hnd.
      rewrite Es, H3 in Hnd. apply NoDup_cons in Hnd as [Hnd _]. intros Hin. apply Hnd, elem_of_app. by left.
    + constructor; [tauto|]. eapply Forall_impl; [exact H5|]. intros u. by apply (woke_due _ _ _ _ _ Hw).
    + intros u Hu. rewrite <- (woke_due _ _ _ _ _ Hw). by apply H6.
Qed.

(** ** The handler *)

Lemma thread_tick_run s :
  running s → in_external_intr s = true →
  ∃ s', thread_tick s = Ok ((), s') ∧ view s' = view s ∧ level s' = level s ∧
        in_external_intr s' = true ∧ cur s' = cur s ∧ ticks s' = ticks s.
Proof.
  intros Hr Hi. pose proof Hr as (th & Ht & _). unfold thread_tick.
  erewrite bind_Ok by (by apply thread_current_run).
  erewrite bind_Ok; [|unfold get_thread; by rewrite Ht]. erewrite bind_Ok by done.
  set (m := if bool_decide _ then _ else _).
  assert (∃ i k u, m s = Ok ((), with_stats i k u s)) as (i & k & u & Em).
  { unfold m. repeat case_bool_decide; do 3 eexists; done. }
  erewrite bind_Ok by exact Em. erewrite bind_Ok by done. erewrite bind_Ok by done.
  case_decide; [|by eexists]. unfold intr_yield_on_return. erewrite bind_Ok by done.
  erewrite bind_Ok; [|apply ASSERT_true; exact Hi]. by eexists.
Qed.

Lemma wp_tick pan s :
  kernel_ok s → level s = INTR_ON → wp pan intr_handler_timer (λ _, kernel_ok) s.
Proof.
  intros (Hwf & (th & Ht & Hst) & Hi & Hres & Hid) Hl. rewrite (stack_of_eq _ _ _ Ht) in Hres, Hid.
  unfold intr_handler_timer, timer_interrupt.
  apply wp_bind, wp_modify, wp_bind, wp_gets, wp_bind, wp_ASSERT; [cbn; by rewrite Hi|].
  apply wp_bind, wp_modify, wp_bind, wp_modify, wp_bind, wp_bind, wp_modify, wp_bind, wp_get.
  set (s1 := with_ticks _ _). assert (wf s1) as Hwf1 by (eapply wf_ext; [|exact Hwf]; done).
  destruct (wake_loop_run (length (timer_sleep_list s1)) s1 Hwf1) as
    (ts & rest & s2 & Hrun & Hwf2 & Hs & [_ Hth _ El Ein Ec Eid _] & _); [done..|].
  apply wp_bind. eapply wp_Ok; [exact Hrun|].
  assert (threads s2 !! cur s2 = Some th) as Ht2.
  { rewrite Ec, Hth, decide_False; [done|]. intros Hin.
    eapply (wf_running_unlisted s1 (cur s1) th Qsleep); [done|done|done|].
    cbn [qlist]. rewrite Hs. apply elem_of_app. by left. }
  destruct (thread_tick_run s2) as (s3 & Hrun3 & Ev & El3 & Ein3 & Ec3 & _); [by exists th|done|].
  eapply wp_Ok; [exact Hrun3|]. apply wp_bind, wp_gets, wp_bind, wp_ASSERT.
  { apply bool_decide_true. by rewrite El3, El. }
  apply wp_bind, wp_gets, wp_bind, wp_ASSERT; [done|]. apply wp_bind, wp_modify, wp_bind, wp_gets.
  set (s4 := with_in_external_intr false s3).
  assert (wf s4) as Hwf4 by (eapply wf_ext; [|exact Hwf2]; exact Ev).
  assert (threads s4 !! cur s4 = Some th) as Ht4.
  { cbn. rewrite Ec3. injection Ev as Et _. by rewrite Et. }
  assert (idle_thread s4 = idle_thread s) as Eid4
    by (change (idle_thread s3 = idle_thread s1); unfold view in Ev; congruence).
  assert (cur s4 = cur s) as Ec4 by (change (cur s3 = cur s1); congruence).
  apply wp_bind. eapply wp_push_frames; [exact Ht4|]. set (th5 := set_kstack _ th).
  set (s5 := set_thread _ _ _). apply wp_bind, wp_gets.
  assert (kernel_ok s5) as Hok5.
  { unfold kernel_ok. rewrite (stack_of_eq s5 _ th5) by apply lookup_insert_eq. split_and!; [| |done|..].
    - eapply (wf_push s4 (cur s4) th [F_iret]); try done; [by apply running_alive|by repeat constructor..].
    - exists th5. split; [apply lookup_insert_eq|done].
    - cbn. by rewrite <- Hl.
    - intros E. apply (idle_stack_push [F_iret]); [by repeat constructor|]. apply Hid.
      change (idle_thread s4 = Some (cur s4)) in E. congruence. }
  destruct (yield_on_return _); [by apply wp_thread_yield|by apply wp_ret].
Qed.

(** ** Frames that only change the interrupt flag *)

Lemma wp_set_level_frame pan s th old fs s1 :
  at_frame s th (F_set_level old) fs s1 → wp pan (intr_set_level old;; mret ()) (λ _, kernel_ok) s1.
Proof.
  intros [Hwf Ht Hst Hi _ Hres _ _ _ Hid]. apply wp_bind, wp_intr_set_level; [done|]. apply wp_ret.
  apply (kernel_ok_level _ (set_kstack fs th)); try done. intros E. by eapply idle_stack_tail; [apply Hid|..].
Qed.

Lemma wp_iret_frame pan s th fs s1 :
  at_frame s th F_iret fs s1 → wp pan iret (λ _, kernel_ok) s1.
Proof.
  intros [Hwf Ht Hst Hi _ Hres _ _ _ Hid]. apply wp_modify.
  apply (kernel_ok_level _ (set_kstack fs th)); try done. intros E. by eapply idle_stack_tail; [apply Hid|..].
Qed.

Lemma wp_kernel_thread_frame pan s th fs s1 :
  at_frame s th (F_kernel_thread FnClient) fs s1 →
  wp pan (kernel_thread FnClient) (λ _, kernel_ok) s1.
Proof.
  intros [Hwf Ht Hst Hi _ Hres _ _ _ Hid]. unfold kernel_thread. apply wp_bind.
  eapply wp_Ok; [by apply (intr_set_level_run INTR_ON)|]. apply wp_ret.
  apply (kernel_ok_level _ (set_kstack fs th)); try done. intros E. by eapply idle_stack_tail; [apply Hid|..].
Qed.

End SchedTick.
