(* ===== verification/SchedMain.v ===== *)
(** * Every event keeps the scheduler's invariant *)

From S2P Require Import Prelude KListSpec KListSort KListRefine Kernel Thread Synch Timer Machine.
From S2P Require Import SchedInv SchedOps SchedSync SchedLock SchedStep SchedEvents SchedTick.
Import Kernel Thread Synch Timer Machine SchedInv SchedOps SchedSync SchedLock SchedStep SchedEvents SchedTick.

Module SchedMain.

#[local] Arguments in_order : simpl never.

(** ** What the kernel asks of its clients *)

(** The objects named in a call exist, or are new where the call
    initialises them; a new thread gets an unused page and
    a priority in range; a thread gives its locks back before it exits.
    Condition variables are left out.  The last clause is one the kernel
    does not ensure by itself: the thread [sema_up] has just woken up is
    still there when [sema_up] compares its priority. *)
Definition obeys (s : kstate) (e : event) : Prop :=
  match e with
  | EvCall (SemaDown n | SemaTryDown n | SemaUp n) => is_Some (semas s !! SemaFree n)
  | EvCall (SemaInit n _) => semas s !! SemaFree n = None
  | EvCall (LockInit l) => locks s !! l = None ∧ semas s !! SemaLock l = None
  | EvCall (LockAcquire l | LockTryAcquire l | LockRelease l) => is_Some (locks s !! l)
  | EvCall (CondWait _ _ | CondSignal _ _ | CondBroadcast _ _ | RwAcquire _ _ | RwRelease _ _
           | CondInit _ | RwInit _ _ _ _) => False
  | EvCall (Sleep _ | Yield | SetPriority _) => True
  | EvCall (Create page p) =>
      match page with Some t => threads s !! t = None ∧ 0 ≤ p ≤ 63 | None => True end
  | EvCall Exit => from_option lock_queue [] (threads s !! cur s) = []
  | EvRun => match stack_of s (cur s) with F_wake_check t :: _ => is_Some (threads s !! t) | _ => True end
  | EvTick => True
  end.

(** The assertions of synch.c hold: a lock is acquired by a thread that
    does not hold it and released by the one that does.  Donation moreover
    needs a holder for every lock that is waited for. *)
Definition holds (s : kstate) (l : Z) : Prop := (locks s !! l) ≫= holder = Some (cur s).
Definition acquires (e : event) (s : kstate) : option Z :=
  match e with
  | EvCall (LockAcquire l) => Some l
  | EvRun => match stack_of s (cur s) with F_lock_acquire l :: _ => Some l | _ => None end
  | _ => None
  end.
Definition careful (s : kstate) (e : event) : Prop :=
  (∀ l, acquires e s = Some l → ¬ holds s l ∧ owned s) ∧
  match e with
  | EvCall (LockTryAcquire l) => ¬ holds s l
  | EvCall (LockRelease l) => holds s l
  | EvRun => match stack_of s (cur s) with F_lock_release l :: _ => holds s l | _ => True end
  | _ => True
  end.

(** ** Calls *)

Lemma holds_lock s l k : locks s !! l = Some k → holds s l ↔ holder k = Some (cur s).
Proof. intros Hk. unfold holds. by rewrite Hk. Qed.

Lemma empty_stack_not_idle s :
  kernel_ok s → stack_of s (cur s) = [] → idle_thread s ≠ Some (cur s).
Proof. intros (_ & _ & _ & _ & Hid) E Hi. rewrite E in Hid. by destruct (idle_stack_nil (Hid Hi)). Qed.

Lemma wp_returning pan (m : K bool) s :
  wp pan m (λ _, kernel_ok) s → wp pan (b ← m; return_value (Z.b2z b)) (λ _, kernel_ok) s.
Proof. intros H. apply wp_bind. eapply wp_mono; [exact H|]. intros b s' Hok. by apply wp_return_value. Qed.

Lemma wp_call pan s c :
  kernel_ok s → stack_of s (cur s) = [] → obeys s (EvCall c) →
  pan = true ∨ careful s (EvCall c) → wp pan (exec_call c) (λ _, kernel_ok) s.
Proof.
  intros Hok Hks Hob Hc. pose proof (empty_stack_not_idle s Hok Hks) as Hni.
  destruct c as [n|n|n|l|l|l|c l|c l|c l|w r|w r|n v|l|c|w g rd wr|n| |p|page p| ]; cbn [exec_call]; cbn in Hob; try done.
  - destruct Hob as [x Hx]. by eapply wp_sema_down.
  - destruct Hob as [x Hx]. apply wp_returning. by eapply wp_sema_try_down.
  - destruct Hob as [x Hx]. by eapply wp_sema_up.
  - destruct Hob as [k Hk]. eapply wp_lock_acquire; try done.
    destruct Hc as [?|[Hc _]]; [by left|right]. destruct (Hc l eq_refl). by rewrite <- (holds_lock s l k).
  - destruct Hob as [k Hk]. apply wp_returning. eapply wp_lock_try_acquire; try done.
    destruct Hc as [?|[_ Hc]]; [by left|right]. by rewrite <- (holds_lock s l k).
  - destruct Hob as [k Hk]. eapply wp_lock_release; try done.
    destruct Hc as [?|[_ Hc]]; [by left|right]. by rewrite <- (holds_lock s l k).
  - by apply wp_sema_init.
  - destruct Hob. by apply wp_lock_init.
  - by apply wp_timer_sleep.
  - by apply wp_thread_yield.
  - by apply wp_set_priority.
  - by apply wp_thread_create.
  - apply wp_thread_exit; try done. intros th Ht. by rewrite Ht in Hob.
Qed.

(** ** Frames *)

(** A frame that the idle thread never has. *)
Ltac not_idle H := apply H; [by intros []|done|done].

Lemma idle_last f fs : idle_stack (f :: fs) → f = F_idle ∨ f = F_idle_hlt → fs = [].
Proof.
  intros (gs & g & E & Hgs & _) Hf. destruct gs as [|g' gs]; cbn in E; [by simplify_eq|].
  injection E as <- _. apply Forall_cons in Hgs as [H _]. by destruct Hf as [->| ->].
Qed.

Lemma wp_frame pan s th f fs s1 :
  kernel_ok s → threads s !! cur s = Some th → kstack th = f :: fs → s1 = popped s th fs →
  obeys s EvRun → pan = true ∨ careful s EvRun → wp pan (exec_frame f) (λ _, kernel_ok) s1.
Proof.
  intros Hok Ht Hk -> Hob Hc. pose proof (at_frame_intro s th f fs Hok Ht Hk) as Hat.
  set (s1 := popped s th fs) in *. unfold obeys, careful, acquires in *.
  rewrite (stack_of_eq _ _ _ Ht), Hk in Hob, Hc.
  assert (∀ l, holds s l ↔ holds s1 l) as Hh by done.
  assert (¬ lock_free f → f ≠ F_idle → f ≠ F_idle_hlt → idle_thread s1 ≠ Some (cur s1)) as Hni
    by (intros; by eapply at_frame_not_idle).
  assert (resumes (level s) fs → f ≠ F_idle → f ≠ F_idle_hlt → kernel_ok s1) as Hok1
    by (intros; by eapply at_frame_ok).
  pose proof Hat as [Hwf Ht1 Hst Hi Hl Hres Hf Hcr Hrel Hid].
  destruct f as [o| |r o|l o|r|t|l|l|c| |w b|w b|w b|c l|c l|t p|t p n|p n|t|m|fn| | ];
    cbn [exec_frame frame_ok] in *; try done.
  - by eapply wp_set_level_frame.
  - by eapply wp_iret_frame.
  - destruct Hres as [Hoff Hres]. destruct r as [n|l]; [|done]. destruct Hf as [x Hx].
    eapply (wp_sema_down_resume pan s1 n x (set_kstack fs th)); try done; by not_idle Hni.
  - destruct Hres as [Hoff Hres]. destruct Hf as [k Hlk].
    eapply (wp_lock_wait pan s1 l k (set_kstack fs th)); try done; by not_idle Hni.
  - destruct Hf as [x Hx]. eapply wp_sema_up; [by apply Hok1|exact Hx|].
    intros l k -> Hlk. destruct (Hrel l eq_refl) as (Hn & k' & x' & ? & ? & ? & ?).
    assert (k' = k) as -> by congruence. assert (x' = x) as -> by congruence. done.
  - destruct Hob as [thw Hw]. assert (is_Some (threads s1 !! t)) as [thw' Hw'].
    { apply lookup_insert_is_Some'. right. eauto. }
    eapply wp_wake_check; [by apply Hok1|exact Hw'].
  - destruct Hf as [k Hlk]. eapply wp_lock_acquire; [by apply Hok1|done|by not_idle Hni|].
    destruct Hc as [?|[Hc _]]; [by left|right]. destruct (Hc l eq_refl) as [Hn Ho].
    rewrite <- (holds_lock s1 l k) by done. split; [done|]. eapply (owned_same s s1 (cur s) th (set_kstack fs th)); done.
  - destruct Hf as [k Hlk]. eapply wp_lock_release; [by apply Hok1|done|by not_idle Hni|].
    destruct Hc as [?|[_ Hc]]; [by left|right]. by rewrite <- (holds_lock s1 l k).
  - apply wp_sleep_block; [by apply Hok1|by not_idle Hni].
  - destruct (Hcr t eq_refl). apply wp_create_set_tid; [by apply Hok1|done..|by not_idle Hni].
  - destruct (Hcr t eq_refl). apply wp_create_tail; [by apply Hok1|done..|by not_idle Hni].
  - apply wp_create_check. by apply Hok1.
  - subst fn. by eapply wp_kernel_thread_frame.
  - assert (fs = []) as ->. { by apply (idle_last F_idle fs); [apply Hid|left]. }
    by eapply (wp_idle_loop pan s1 (set_kstack [] th)).
  - assert (fs = []) as ->. { by apply (idle_last F_idle_hlt fs); [apply Hid|right]. }
    by eapply (wp_idle_hlt pan s1 (set_kstack [] th)).
Qed.

(** ** Events *)

Lemma wp_event pan s e :
  kernel_ok s → enabled e s = true → obeys s e → pan = true ∨ careful s e →
  wp pan (exec_event e) (λ _, kernel_ok) s.
Proof.
  intros Hok He Hob Hc. pose proof Hok as (_ & (th & Ht & _) & _).
  destruct e as [|c|]; cbn [exec_event].
  - unfold pop_frame. apply wp_bind, wp_bind, wp_gets, wp_bind. eapply wp_get_thread; [exact Ht|].
    cbn in He. rewrite (stack_of_eq _ _ _ Ht) in He. destruct (kstack th) as [|f fs] eqn:Hk; [done|].
    apply wp_bind. eapply wp_upd_thread; [exact Ht|]. apply wp_ret. by eapply (wp_frame pan s th f fs).
  - apply wp_call; try done. cbn in He. apply bool_decide_eq_true, length_zero_iff_nil in He. done.
  - apply wp_tick; [done|]. by apply bool_decide_eq_true in He.
Qed.

(** Along a sequence of events: each can occur when its turn comes, and the
    client keeps to the rules. *)
Fixpoint obeyed (es : list event) (s : kstate) : Prop :=
  match es with
  | [] => True
  | e :: es => enabled e s = true ∧ obeys s e ∧
               match exec_event e s with Ok (_, s') => obeyed es s' | Err _ => True end
  end.

Lemma run_ok es s :
  kernel_ok s → obeyed es s →
  match run es s with Ok (_, s') => kernel_ok s' | Err f => f = Panic end.
Proof.
  revert s. induction es as [|e es IH]; intros s Hok Hob; [done|]. destruct Hob as (He & Ho & Hr).
  pose proof (wp_event true s e Hok He Ho ltac:(by left)) as H. unfold wp in H. cbn [run].
  unfold mbind, M_bind. destruct (exec_event e s) as [[[] s']|[]]; [|done..]. by apply IH.
Qed.

End SchedMain.
