(* ===== verification/SchedBoot.v ===== *)
(** * The kernel boots into a state that satisfies the invariant *)

From S2P Require Import Prelude KListSpec Kernel Thread Synch Timer Machine.
From S2P Require Import SchedInv SchedOps SchedMain.
Import Kernel Thread Synch Timer Machine SchedInv SchedOps SchedMain.

Module SchedBoot.

(** After start-up: the initial thread [t] runs, the idle thread [i] has
    registered itself and yielded. *)
Definition booted (t i sema : Z) (policy : sched_policy) : kstate :=
  KState
    (<[t := Thread 1 THREAD_RUNNING 0 None [] 31 31 (Some Qready) None [] 2]>
    (<[i := Thread 2 THREAD_READY 0 None [] 0 0 (Some Qready) None [F_set_level INTR_ON; F_idle] 0]> ∅))
    (<[SemaFree sema := Semaphore 0 []]> (<[SemaLock tid_lock := Semaphore 1 []]> ∅))
    (<[tid_lock := Lock None 1 0]> ∅) ∅ ∅ [] [t; i] [] (Some i) t t INTR_ON false false 0 0 0 0 0 3 policy.

Section Booted.
Context (t i sema : Z) (policy : sched_policy).
Hypothesis (Hti : t ≠ i) (Hpol : policy = SCHED_FIFO ∨ policy = SCHED_PRIO).
Notation s := (booted t i sema policy).

Lemma booted_threads u th :
  threads s !! u = Some th →
  u = t ∧ th = Thread 1 THREAD_RUNNING 0 None [] 31 31 (Some Qready) None [] 2 ∨
  u = i ∧ th = Thread 2 THREAD_READY 0 None [] 0 0 (Some Qready) None [F_set_level INTR_ON; F_idle] 0.
Proof. cbn. rewrite !lookup_insert_Some, lookup_empty. naive_solver. Qed.

Lemma booted_locks l k : locks s !! l = Some k → l = tid_lock ∧ k = Lock None 1 0.
Proof. cbn. rewrite lookup_insert_Some, lookup_empty. naive_solver. Qed.

Lemma booted_queues q : qlist s q = [].
Proof.
  destruct q as [| |r|c]; try done. cbn. destruct (<[_ := _]> _ !! r) as [x|] eqn:E; [|done].
  rewrite !lookup_insert_Some, lookup_empty in E. naive_solver.
Qed.

Lemma booted_frames g : g (F_set_level INTR_ON) = None → g F_idle = None → frames_of g (threads s) = [].
Proof.
  intros H1 H2. apply list_nil_of. intros x. rewrite elem_of_frames_of. intros (u & th & Hu & Hx).
  destruct (booted_threads u th Hu) as [[_ ->]|[_ ->]]; cbn in Hx; rewrite ?H1, ?H2 in Hx; by apply not_elem_of_nil in Hx.
Qed.

Lemma booted_wf : wf s.
Proof.
  split.
  - intros q. rewrite booted_queues. constructor.
  - intros q u. rewrite booted_queues. by intros ?%not_elem_of_nil.
  - intros c. apply booted_queues.
  - intros q. unfold in_order. destruct q; rewrite ?booted_queues; try done; constructor.
  - intros u th [[-> ->]|[-> ->]]%booted_threads; unfold thread_ok; cbn; auto.
  - cbn. rewrite lookup_insert_eq. eauto.
  - intros u th l [[-> ->]|[-> ->]]%booted_threads; by intros ?%not_elem_of_nil.
  - intros l k u [-> ->]%booted_locks. done.
  - intros u th [[-> ->]|[-> ->]]%booted_threads; constructor.
  - intros l k [-> ->]%booted_locks. exists (Semaphore 1 []).
    rewrite booted_frames by done. split_and!; try done; [by right|]. intros _. split; [done|apply not_elem_of_nil].
  - rewrite booted_frames by done. split; [constructor|]. by intros l ?%not_elem_of_nil.
  - intros u th l [[-> ->]|[-> ->]]%booted_threads; done.
  - intros u th [[-> ->]|[-> ->]]%booted_threads; by repeat constructor.
  - intros u th [[-> ->]|[-> ->]]%booted_threads; done.
  - rewrite booted_frames by done. split; [constructor|]. by intros l ?%not_elem_of_nil.
  - exists i, (Thread 2 THREAD_READY 0 None [] 0 0 (Some Qready) None [F_set_level INTR_ON; F_idle] 0).
    cbn. rewrite lookup_insert_ne, lookup_insert_eq by done. split_and!; try done.
    + intros _. exists [F_set_level INTR_ON], F_idle. split_and!; [done|by repeat constructor|by left].
    + intros q. rewrite booted_queues. apply not_elem_of_nil.
  - cbn. split.
    + apply NoDup_cons. rewrite list_elem_of_singleton. split; [done|apply NoDup_singleton].
    + intros u. rewrite elem_of_cons, list_elem_of_singleton. split.
      * intros [->| ->]; [rewrite lookup_insert_eq|rewrite lookup_insert_ne, lookup_insert_eq by done]; by eexists.
      * intros (th & [[-> _]|[-> _]]%booted_threads & _); auto.
  - done.
  - by eexists.
Qed.

Lemma booted_ok : kernel_ok s.
Proof.
  unfold kernel_ok, running, stack_of. cbn. rewrite lookup_insert_eq. split_and!; try done.
  - apply booted_wf.
  - by eexists.
  - intros [= E]. congruence.
Qed.

End Booted.

End SchedBoot.
