(* ===== verification/SchedProps.v ===== *)
(** * What the scheduler guarantees, and where it does not

    The theorems about threads, semaphores, locks and the timer, for every
    sequence of events from a booted kernel, and runs that show what the
    code gets wrong. *)

From S2P Require Import Prelude KListSpec KListSort KListRefine Kernel Thread Synch Timer Machine.
From S2P Require Import SchedInv SchedOps SchedSync SchedLock SchedStep SchedEvents SchedTick SchedMain SchedBoot.
Import Kernel Thread Synch Timer Machine.
Import SchedInv SchedOps SchedSync SchedLock SchedStep SchedEvents SchedTick SchedMain SchedBoot.

Module SchedProps.

#[local] Arguments in_order : simpl never.

(** ** Runs from a booted kernel *)

#[global] Instance obeys_dec s e : Decision (obeys s e).
Proof.
  destruct e as [|c|]; cbn [obeys]; [|destruct c as [n|n|n|l|l|l|c l|c l|c l|w r|w r|n v|l|c|w g rd wr|n| |p|[t|] p| ]|];
    try apply _.
  destruct (stack_of s (cur s)) as [|f fs]; [apply _|]. destruct f; apply _.
Defined.

#[global] Instance obeyed_dec es : ∀ s, Decision (obeyed es s).
Proof.
  induction es as [|e es IH]; intros s; cbn [obeyed]; [apply _|].
  apply and_dec; [apply _|apply and_dec; [apply _|]].
  destruct (exec_event e s) as [[[] s']|f]; [apply IH|apply _].
Defined.

(** The kernel as it comes out of [boot], on pages 1 and 2. *)
Notation start := (booted 1 2 100 SCHED_PRIO).

Lemma start_ok : kernel_ok start.
Proof. apply booted_ok; [done|by right]. Qed.

Definition final (es : list event) : kstate :=
  match run es start with Ok (_, s) => s | Err _ => start end.

Lemma final_ok es :
  bool_decide (obeyed es start) = true → kernel_ok (final es).
Proof.
  intros Ho%bool_decide_eq_true. unfold final. pose proof (run_ok es start start_ok Ho) as H.
  destruct (run es start) as [[[] s]|]; [done|apply start_ok].
Qed.

(** C2: Whatever event comes next that keeps to the rules [obeys] (a call of
    the running thread on objects that exist, other than those on condition
    variables and readers-writers locks; the rest of a function that had
    been interrupted by a thread switch, except that of [sema_up] when the
    thread it woke up has been freed; a timer interrupt), the kernel handles
    it: it ends in a state that satisfies the invariant again, without
    undefined behaviour and without running out of a loop bound; an assertion
    fails only if the caller misused a lock or if donation meets a lock that
    is being handed over.  ([cond_wait_corrupts_lists] and
    [sema_up_reads_freed_thread] show why two of the rules are there.) *)
Theorem event_safe s e :
  kernel_ok s → enabled e s = true → obeys s e →
  match exec_event e s with
  | Ok (_, s') => kernel_ok s'
  | Err Panic => ¬ careful s e
  | Err _ => False
  end.
Proof.
  intros Hok He Ho. pose proof (wp_event true s e Hok He Ho ltac:(by left)) as H.
  unfold wp in H. destruct (exec_event e s) as [[[] s']|[]] eqn:E; try done.
  intros Hc. pose proof (wp_event false s e Hok He Ho ltac:(by right)) as H'.
  unfold wp in H'. by rewrite E in H'.
Qed.

Lemma event_safe_witness :
  match exec_event (EvCall (Sleep 5)) start with
  | Ok (_, s') => kernel_ok s'
  | Err Panic => ¬ careful start (EvCall (Sleep 5))
  | Err _ => False
  end.
Proof. apply (event_safe start (EvCall (Sleep 5))); [apply start_ok|reflexivity|exact I]. Defined.

(** C1: [boot] ends in [start], and no sequence of events from there that keeps
    to the rules [obeys] (semaphores and locks that exist, no condition
    variables and readers-writers locks, locks given back before a thread
    exits, no thread freed between its wake-up by [sema_up] and the
    comparison of its priority) leads to undefined behaviour or out of the
    invariant; it may stop at an assertion. *)
Theorem run_safe :
  boot 2 100 (reset_state 1 SCHED_PRIO) = Ok ((), start) ∧
  ∀ es, obeyed es start →
    match run es start with Ok (_, s) => kernel_ok s | Err f => f = Panic end.
Proof. split; [vm_compute; reflexivity|]. intros es. apply run_ok, start_ok. Qed.

(** C3: Locks exclude each other: two threads that have a lock in their
    lock queue are the same thread; it is the lock's holder, and the lock's
    semaphore is down. *)
Theorem lock_exclusive es s l t u tht thu :
  obeyed es start → run es start = Ok ((), s) →
  threads s !! t = Some tht → l ∈ lock_queue tht →
  threads s !! u = Some thu → l ∈ lock_queue thu →
  t = u ∧ ∃ k x, locks s !! l = Some k ∧ holder k = Some t ∧
                 semas s !! SemaLock l = Some x ∧ value x = 0.
Proof.
  intros Ho Hr Ht Hlt Hu Hlu. pose proof (run_ok es start start_ok Ho) as H. rewrite Hr in H.
  destruct H as (Hwf & _). destruct (wf_holds _ Hwf _ _ _ Ht Hlt) as (k & Hk & Hh).
  destruct (wf_holds _ Hwf _ _ _ Hu Hlu) as (k' & Hk' & Hh').
  split; [congruence|]. destruct (wf_lock _ Hwf _ _ Hk) as (x & Hx & Hv & H1 & _).
  exists k, x. split_and!; try done. destruct Hv as [?|E]; [done|]. destruct (H1 E). congruence.
Qed.

Definition hold_events : list event := [EvCall (LockInit 10); EvCall (LockAcquire 10)].

Lemma lock_exclusive_witness :
  (1 = 1)%Z ∧ ∃ k x, locks (final hold_events) !! 10 = Some k ∧ holder k = Some 1 ∧
                 semas (final hold_events) !! SemaLock 10 = Some x ∧ value x = 0.
Proof.
  apply (lock_exclusive hold_events (final hold_events) 10 1 1
    (Thread 1 THREAD_RUNNING 0 None [10] 31 31 (Some Qready) None [] 2)
    (Thread 1 THREAD_RUNNING 0 None [10] 31 31 (Some Qready) None [] 2)).
  - apply (bool_decide_unpack _). vm_compute. exact I.
  - vm_compute. reflexivity.
  - vm_compute. reflexivity.
  - left.
  - vm_compute. reflexivity.
  - left.
Defined.

(** ** Scheduling *)

(** C5: With the priority scheduler, after [thread_yield] no ready thread
    has a higher priority than the running one; the thread that yielded is
    ready, unless it runs on. *)
Theorem yield_runs_highest s :
  kernel_ok s → active_sched_policy s = SCHED_PRIO →
  ∃ s', thread_yield s = Ok ((), s') ∧ kernel_ok s' ∧
        ∀ u, u ∈ ready_list s' → pri_of s' u ≤ pri_of s' (cur s').
Proof.
  intros Hok Hp.
  assert (wp false thread_yield (λ _ s', kernel_ok s' ∧
    ∀ u, u ∈ ready_list s' → pri_of s' u ≤ pri_of s' (cur s')) s) as H.
  { apply wp_yield_to; [done|]. intros s1 th1 Has Hp1 _ _ _ _. eapply wp_schedule_run; [done|].
    intros n thn s' Hd. split; [by eapply dispatched_ok|].
    destruct (dispatched_highest _ _ _ _ _ Has Hd) as [-> ?]; [congruence|done]. }
  unfold wp in H. destruct (thread_yield s) as [[[] s']|[]]; [|done..]. eauto.
Qed.

Definition two_ready : list event := [EvCall (Create (Some 3) 20); EvRun; EvRun; EvRun; EvRun; EvRun; EvRun].

Lemma yield_runs_highest_witness :
  ready_list (final two_ready) = [3] ∧
  ∃ s', thread_yield (final two_ready) = Ok ((), s') ∧ kernel_ok s' ∧
        ∀ u, u ∈ ready_list s' → pri_of s' u ≤ pri_of s' (cur s').
Proof.
  split; [vm_compute; reflexivity|]. apply (yield_runs_highest (final two_ready)).
  - apply final_ok. vm_compute. reflexivity.
  - vm_compute. reflexivity.
Defined.

(** The first of the waiters is the one to wake up, and its priority is
    the highest. *)
Definition up_from (s : kstate) (n : Z) (x : semaphore) (s' : kstate) : Prop :=
  match waiters x with
  | [] => semas s' !! SemaFree n = Some (Semaphore (u32 (value x + 1)) []) ∧ ready_list s' = ready_list s
  | w :: ws =>
      semas s' !! SemaFree n = Some (Semaphore (u32 (value x + 1)) ws) ∧
      ready_list s' ≡ₚ w :: ready_list s ∧
      (status <$> threads s' !! w) = Some THREAD_READY ∧
      ∀ u, u ∈ ws → pri_of s u ≤ pri_of s w
  end.

Lemma waiters_highest s n x w ws :
  wf s → semas s !! SemaFree n = Some x → waiters x = w :: ws →
  ∀ u, u ∈ ws → pri_of s u ≤ pri_of s w.
Proof.
  intros Hwf Hx Ew u Hu. pose proof (wf_order _ Hwf (Qsema (SemaFree n))) as Hs.
  unfold in_order in Hs. cbn in Hs. rewrite Hx in Hs. cbn in Hs. rewrite Ew in Hs.
  apply Sorted_StronglySorted in Hs; [|apply pri_order_trans]. inversion Hs as [|? ? _ Hall]; subst.
  rewrite Forall_forall in Hall. by apply Hall.
Qed.

Lemma wp_sema_up_from pan s n x :
  kernel_ok s → semas s !! SemaFree n = Some x →
  wp pan (sema_up (SemaFree n)) (λ _, up_from s n x) s.
Proof.
  intros (Hwf & (th & Ht & Hst) & Hi & _) Hx. pose proof (waiters_highest s n x) as Hh.
  assert (qlist s (Qsema (SemaFree n)) = waiters x) as Eq by (cbn; by rewrite Hx).
  unfold sema_up. apply wp_bind. eapply wp_Ok; [done|]. set (s1 := with_level INTR_OFF s).
  apply wp_bind. eapply wp_get_sema; [exact Hx|]. apply wp_bind. unfold elem_pop_front.
  apply wp_bind, wp_get. change (qlist s1 _) with (qlist s (Qsema (SemaFree n))). rewrite Eq.
  unfold up_from. destruct (waiters x) as [|w ws] eqn:Ew.
  - apply wp_ret. apply wp_bind, wp_ret, wp_bind. eapply wp_get_sema; [exact Hx|].
    apply wp_bind, wp_modify, wp_bind, wp_intr_set_level; [done|].
    unfold push_wake_check. apply wp_bind, wp_gets, wp_ret. rewrite Ew. split; [apply lookup_insert_eq|done].
  - destruct (wf_listed _ Hwf (Qsema (SemaFree n)) w) as (thw & Hw & _ & Hbw); [rewrite Eq; left|].
    destruct (wf_wake s (Qsema (SemaFree n)) w ws thw Hwf Eq) as (_ & Hun & _); [done..|].
    assert (w ≠ cur s) as Hwc by (intros ->; simplify_eq; cbn in Hbw; congruence).
    apply wp_bind, wp_put, wp_ret. set (s2 := with_qlist (Qsema (SemaFree n)) ws s1).
    apply wp_bind. eapply wp_Ok.
    { apply (thread_unblock_run s2 w thw); [done|done|exact Hun|apply (wf_policy _ Hwf)|done]. }
    set (s3 := enqueued w thw s2).
    apply wp_bind. eapply (wp_get_sema _ _ (Semaphore (value x) ws)); [cbn; by rewrite lookup_alter_eq, Hx|].
    apply wp_bind, wp_modify, wp_bind, wp_intr_set_level; [done|].
    unfold push_wake_check. apply wp_bind, wp_gets. cbn [in_external_intr with_level with_semas].
    change (in_external_intr s3) with (in_external_intr s). rewrite Hi.
    apply wp_bind, wp_gets. eapply (wp_push_frames _ (cur s) _ th); [cbn; by rewrite lookup_insert_ne|].
    split_and!.
    + cbn. by rewrite lookup_insert_eq.
    + apply (ready_insert_perm s2).
    + cbn. by rewrite lookup_insert_ne, lookup_insert_eq.
    + by apply Hh.
Qed.

(** C8: [sema_up] raises the value by one and, if threads wait, makes one
    of the highest priority among them ready and leaves the others waiting. *)
Theorem sema_up_wakes_highest s n x :
  kernel_ok s → semas s !! SemaFree n = Some x →
  ∃ s', sema_up (SemaFree n) s = Ok ((), s') ∧ kernel_ok s' ∧ up_from s n x s'.
Proof.
  intros Hok Hx. pose proof (wp_sema_up false s (SemaFree n) x Hok Hx) as H.
  pose proof (wp_sema_up_from false s n x Hok Hx) as HP. unfold wp in H, HP.
  destruct (sema_up (SemaFree n) s) as [[[] s']|[]]; [|done..].
  exists s'. split_and!; [done| |done]. apply H. by intros l k [=].
Qed.

(** Two threads wait; the second has the higher priority. *)
Definition two_waiting : list event :=
  [EvCall (SemaInit 60 0); EvCall (Create (Some 3) 35); EvRun; EvRun; EvRun; EvRun; EvRun; EvRun; EvRun;
   EvCall (SemaDown 60); EvRun; EvCall (Create (Some 4) 40); EvRun; EvRun; EvRun; EvRun; EvRun; EvRun; EvRun;
   EvCall (SemaDown 60); EvRun].

Lemma sema_up_wakes_highest_witness :
  ∃ s', sema_up (SemaFree 60) (final two_waiting) = Ok ((), s') ∧ kernel_ok s' ∧
    up_from (final two_waiting) 60 (Semaphore 0 [4; 3]) s'.
Proof.
  apply (sema_up_wakes_highest (final two_waiting) 60).
  - apply final_ok. vm_compute. reflexivity.
  - vm_compute. reflexivity.
Defined.

(** ** Donation *)

(** C7: What donation does for a lock.  It goes along the chain of holders
    (the holder of the lock, the holder of the lock this thread waits for, and
    so on) as long as locks and holders have a lower priority than the running
    thread.  If the chain leads to a lock that nobody holds, as while a lock is
    handed over, the kernel panics; otherwise donation ends, every thread of
    the chain has at least the priority of the running thread, no priority is raised
    further than that, and nobody else's changes. *)
Theorem donation_raises_chain s l k :
  kernel_ok s → locks s !! l = Some k →
  (chain_broken s (pri_of s (cur s)) l → donate_pri_acquire (cur s) l s = Err Panic) ∧
  (¬ chain_broken s (pri_of s (cur s)) l →
     ∃ s', donate_pri_acquire (cur s) l s = Ok ((), s') ∧ wf s' ∧ chain_raised s s' (pri_of s (cur s)) l).
Proof.
  intros (Hwf & (th & Ht & Hst) & _) Hk.
  assert (pri_of s (cur s) = e_pri th) as Ep by (unfold pri_of; by rewrite Ht). rewrite Ep.
  assert (∀ pan, pan = true ∨ ¬ chain_broken s (e_pri th) l → wp pan (donate_pri_acquire (cur s) l)
    (λ _ s', donate_inv s s' th ∧ chain_raised s s' (e_pri th) l ∧ ¬ chain_broken s (e_pri th) l) s) as H.
  { intros pan Hpan. unfold donate_pri_acquire. apply wp_bind. eapply wp_get_lock; [exact Hk|]. apply wp_bind, wp_get.
    eapply donate_loop_spec; try done. pose proof (below_size (e_pri th) (threads s)). lia. }
  split; intros Hb.
  - specialize (H true ltac:(by left)). unfold wp in H. destruct (donate_pri_acquire (cur s) l s) as [[[] s']|[]]; try done. by destruct H as (_ & _ & []).
  - specialize (H false ltac:(by right)). unfold wp in H. destruct (donate_pri_acquire (cur s) l s) as [[[] s']|[]]; [|done..].
    destruct H as (Hd & Hr & _). exists s'. split; [done|]. split; [apply Hd|done].
Qed.

(** The initial thread holds a lock; a thread of priority 40 runs. *)
Definition contended : list event :=
  [EvCall (LockInit 10); EvCall (LockAcquire 10); EvCall (Create (Some 3) 40);
   EvRun; EvRun; EvRun; EvRun; EvRun; EvRun; EvRun].

(** The initial thread holds lock 10 and sleeps; thread 3 takes lock 11 and
    waits for lock 10; the initial thread releases lock 10, which thread 3
    has not taken again. *)
Definition handing_over : list event :=
  [EvCall (LockInit 10); EvCall (LockInit 11); EvCall (Create (Some 3) 20)] ++ replicate 6 EvRun ++
  [EvCall (LockAcquire 10); EvCall (Sleep 2); EvRun; EvRun; EvCall (LockAcquire 11); EvCall (LockAcquire 10);
   EvRun; EvTick; EvRun; EvTick; EvRun; EvTick; EvRun; EvTick; EvRun;
   EvCall (LockRelease 10); EvRun; EvRun].

Lemma donation_raises_chain_witness :
  (∃ s', donate_pri_acquire 3 10 (final contended) = Ok ((), s') ∧ pri_of (final contended) 1 = 31 ∧ 40 ≤ pri_of s' 1) ∧
  donate_pri_acquire 1 11 (final handing_over) = Err Panic.
Proof.
  split.
  - destruct (donation_raises_chain (final contended) 10 (Lock (Some 1) 0 31)) as [_ H];
      [apply final_ok; vm_compute; reflexivity|vm_compute; reflexivity|].
    destruct H as (s' & E & _ & Hr).
    + apply (chain_unbroken _ _ _ (Lock (Some 1) 0 31) 1 (default (Thread 0 THREAD_RUNNING 0 None [] 0 0 None None [] 0) (threads (final contended) !! 1)));
        vm_compute; reflexivity.
    + exists s'. split; [exact E|]. split; [vm_compute; reflexivity|]. apply (raised_chain _ _ _ _ Hr).
      by apply (chain_here _ _ _ (Lock (Some 1) 0 31)); vm_compute.
  - apply (donation_raises_chain (final handing_over) 11 (Lock (Some 3) 0 20)); [apply final_ok; vm_compute; reflexivity|vm_compute; reflexivity|].
    apply (broken_next _ _ _ (Lock (Some 3) 0 20) 3 (default (Thread 0 THREAD_RUNNING 0 None [] 0 0 None None [] 0) (threads (final handing_over) !! 3)) 10);
      [vm_compute; reflexivity..|].
    apply (broken_here _ _ _ (default (Lock None 0 0) (locks (final handing_over) !! 10))); vm_compute; reflexivity.
Defined.

(** ** The timer *)

Definition wake_order (s : kstate) (a b : Z) : Prop := wake_up_of s a ≤ wake_up_of s b.

Lemma sorted_head_le s t ts u :
  Sorted (wake_order s) (t :: ts) → u ∈ t :: ts → wake_up_of s t ≤ wake_up_of s u.
Proof.
  intros Hs Hu. apply Sorted_StronglySorted in Hs; [|intros a b c; unfold wake_order; lia].
  inversion Hs as [|? ? _ Hall]; subst. apply elem_of_cons in Hu as [->|Hu]; [done|].
  rewrite Forall_forall in Hall. by apply Hall.
Qed.

Lemma Sorted_suffix {A} (R : A → A → Prop) xs ys : Sorted R (xs ++ ys) → Sorted R ys.
Proof. induction xs as [|x xs IH]; [done|]. cbn. inversion 1; subst. auto. Qed.

(** C9: A timer interrupt counts one tick and makes a prefix of the sleep
    list ready: nobody wakes up early, and if the sleep list is in the
    order of the wake-up times, nobody whose time has come sleeps on. *)
Theorem timer_wakes_due s :
  wf s → running s → level s = INTR_OFF → in_external_intr s = true →
  ∃ s' ts rest, timer_interrupt s = Ok ((), s') ∧ wf s' ∧ ticks s' = i64 (ticks s + 1) ∧
    timer_sleep_list s = ts ++ rest ∧ timer_sleep_list s' = rest ∧
    (∀ t, t ∈ ts → wake_up_of s t ≤ ticks s' ∧ (status <$> threads s' !! t) = Some THREAD_READY) ∧
    (Sorted (wake_order s) (timer_sleep_list s) → ∀ t, t ∈ rest → ticks s' < wake_up_of s t).
Proof.
  intros Hwf (th & Ht & Hst) Hl Hi. set (s1 := with_ticks (i64 (ticks s + 1)) s).
  assert (wf s1) as Hwf1 by (eapply wf_ext; [|exact Hwf]; done).
  destruct (wake_loop_run (length (timer_sleep_list s1)) s1 Hwf1) as
    (ts & rest & s2 & Hrun & Hwf2 & Hs & [Hsl Hth _ _ Ein Ec _ Et] & Hdue & Hrest); [done..|].
  assert (threads s2 !! cur s2 = Some th) as Ht2.
  { rewrite Ec, Hth, decide_False; [done|]. intros Hin.
    eapply (wf_running_unlisted s1 (cur s1) th Qsleep); [done|done|done|].
    cbn [qlist]. rewrite Hs. apply elem_of_app. by left. }
  destruct (thread_tick_run s2) as (s3 & Hrun3 & Ev & _ & _ & _ & Et3); [by exists th|rewrite Ein; exact Hi|].
  assert (threads s3 = threads s2 ∧ timer_sleep_list s3 = timer_sleep_list s2) as [Eth3 Esl3].
  { unfold view in Ev. split; congruence. }
  exists s3, ts, rest. rewrite Et3, Et, Eth3, Esl3. split_and!; try done.
  - unfold timer_interrupt. erewrite bind_Ok by done. erewrite bind_Ok by done.
    by erewrite bind_Ok by exact Hrun.
  - eapply wf_ext; [exact Ev|exact Hwf2].
  - intros t Hin. rewrite Forall_forall in Hdue. split; [by apply Hdue|].
    destruct (wf_listed _ Hwf1 Qsleep t) as (tht & Htt & _); [cbn [qlist]; rewrite Hs; apply elem_of_app; by left|].
    rewrite Hth, decide_True by done. by rewrite Htt.
  - intros Hsort t Hin. change (timer_sleep_list s1) with (timer_sleep_list s) in Hs.
    rewrite Hs in Hsort. apply Sorted_suffix in Hsort.
    destruct rest as [|u us]; [by apply not_elem_of_nil in Hin|].
    pose proof (sorted_head_le s u us t Hsort Hin). specialize (Hrest u eq_refl).
    unfold due in Hrest. change (wake_up_of s1 u) with (wake_up_of s u) in Hrest. lia.
Qed.

(** In the handler of an interrupt. *)
Definition in_handler (s : kstate) : kstate := with_in_external_intr true (with_level INTR_OFF s).

Lemma in_handler_ok s :
  kernel_ok s → wf (in_handler s) ∧ running (in_handler s) ∧ level (in_handler s) = INTR_OFF ∧
    in_external_intr (in_handler s) = true.
Proof. intros (Hwf & Hr & _). split_and!; try done. eapply wf_ext; [|exact Hwf]. done. Qed.

(** The initial thread sleeps for one tick; the interrupt arrives. *)
Definition sleeping : kstate := in_handler (final [EvCall (Sleep 1); EvRun; EvRun]).

Lemma timer_wakes_due_witness :
  timer_sleep_list sleeping = [1] ∧
  ∃ s' ts rest, timer_interrupt sleeping = Ok ((), s') ∧ wf s' ∧ ticks s' = i64 (ticks sleeping + 1) ∧
    timer_sleep_list sleeping = ts ++ rest ∧ timer_sleep_list s' = rest ∧
    (∀ t, t ∈ ts → wake_up_of sleeping t ≤ ticks s' ∧ (status <$> threads s' !! t) = Some THREAD_READY) ∧
    (Sorted (wake_order sleeping) (timer_sleep_list sleeping) → ∀ t, t ∈ rest → ticks s' < wake_up_of sleeping t).
Proof.
  destruct (in_handler_ok (final [EvCall (Sleep 1); EvRun; EvRun])) as (Hwf & Hrun & Hl & Hi).
  - apply final_ok. vm_compute. reflexivity.
  - split; [vm_compute; reflexivity|]. exact (timer_wakes_due sleeping Hwf Hrun Hl Hi).
Defined.

(** ** Where the code goes wrong *)

(** Every event of the sequence can occur when its turn comes. *)
Fixpoint possible (es : list event) (s : kstate) : bool :=
  match es with
  | [] => true
  | e :: es => enabled e s && match exec_event e s with Ok (_, s') => possible es s' | Err _ => true end
  end.

Lemma cond_queue s c q : conds s !! c = Some q → Qcond c ∈ all_queues s.
Proof.
  intros Hc. unfold all_queues. do 2 right. apply elem_of_app. right. apply list_elem_of_fmap. exists c. split; [done|].
  apply list_elem_of_fmap. exists (c, q). split; [done|]. by apply elem_of_map_to_list.
Qed.
Lemma elem_listed s t q : q ∈ all_queues s → t ∈ qlist s q → elem_in s t ≠ None.
Proof.
  intros Hq Ht Hn. unfold elem_in in Hn. destruct (list_find _ _) eqn:E; [done|].
  apply list_find_None in E. rewrite Forall_forall in E. by apply (E q).
Qed.
(** Insertion of an element that is in a list already. *)
Lemma yield_listed s th :
  threads s !! cur s = Some th → status th = THREAD_RUNNING → in_external_intr s = false → idle_thread s ≠ Some (cur s) →
  active_sched_policy s = SCHED_FIFO ∨ active_sched_policy s = SCHED_PRIO → elem_in s (cur s) ≠ None → thread_yield s = Err Undef.
Proof.
  intros Ht Hst Hi Hid Hpol Hel. unfold thread_yield. erewrite bind_Ok by (apply thread_current_run; by exists th).
  erewrite bind_Ok by reflexivity. erewrite bind_Ok by (by rewrite Hi). erewrite bind_Ok by reflexivity. erewrite bind_Ok by reflexivity.
  cbn [idle_thread with_level]. rewrite bool_decide_false by done. apply bind_Err. unfold thread_enqueue.
  erewrite bind_Ok by reflexivity. erewrite bind_Ok by reflexivity. erewrite bind_Ok by reflexivity.
  erewrite bind_Ok by (apply ASSERT_true, bool_decide_true; eexists; exact Ht).
  erewrite bind_Ok by (unfold upd_thread; erewrite bind_Ok by (unfold get_thread; cbn; by rewrite Ht); reflexivity).
  set (s1 := with_threads _ _). erewrite bind_Ok by reflexivity.
  assert (elem_in s1 (cur s) ≠ None) as Hel1 by exact Hel.
  assert (∀ f, elem_insert f Qready (cur s) s1 = Err Undef) as Hin.
  { intros f. unfold elem_insert. erewrite bind_Ok by (unfold get_thread; cbn; by rewrite lookup_insert_eq). erewrite bind_Ok by reflexivity.
    rewrite (bool_decide_false _ Hel1), andb_false_r. reflexivity. }
  change (active_sched_policy s1) with (active_sched_policy s). destruct Hpol as [-> | ->]; [apply Hin|].
  unfold elem_insert_ordered. erewrite bind_Ok by reflexivity. apply Hin.
Qed.

(** C39: [cond_wait] puts the element of the running thread into the list of
    the condition while the thread runs on, with interrupts as they were:
    whenever the thread then yields before it blocks, at a timer
    interrupt or in [lock_release], [thread_yield] inserts the element, which
    is in the list of the condition, into the run queue, and both lists are
    corrupt. *)
Theorem cond_wait_corrupts_lists s c l k q th :
  threads s !! cur s = Some th → status th = THREAD_RUNNING → in_external_intr s = false → idle_thread s ≠ Some (cur s) →
  active_sched_policy s = SCHED_FIFO ∨ active_sched_policy s = SCHED_PRIO → elem_in s (cur s) = None →
  locks s !! l = Some k → holder k = Some (cur s) → conds s !! c = Some q →
  ∃ s1, cond_wait c l s = Ok ((), s1) ∧ cur s1 = cur s ∧ level s1 = level s ∧ (status <$> threads s1 !! cur s) = Some THREAD_RUNNING ∧
    cur s ∈ qlist s1 (Qcond c) ∧ thread_yield s1 = Err Undef.
Proof.
  intros Ht Hst Hi Hid Hpol Hel Hk Hh Hc. unfold cond_wait. erewrite bind_Ok by reflexivity. erewrite bind_Ok by (by rewrite Hi).
  erewrite bind_Ok by (apply lock_held_run; [by exists th|exact Hk]). erewrite bind_Ok by (apply ASSERT_true; by apply bool_decide_true).
  erewrite bind_Ok by (apply thread_current_run; by exists th).
  pose proof (cond_queue s c q Hc) as Hq.
  set (s0 := with_qlist (Qcond c) (KListSpec.insert_ordered (thread_before s) (cur s) (qlist s (Qcond c))) s).
  erewrite bind_Ok.
  2:{ unfold elem_insert_ordered. erewrite bind_Ok by reflexivity. unfold elem_insert. erewrite bind_Ok by (unfold get_thread; by rewrite Ht).
      erewrite bind_Ok by reflexivity. unfold queue_exists. rewrite !bool_decide_true by done. reflexivity. }
  fold s0. assert (cur s ∈ qlist s0 (Qcond c)) as Hin.
  { cbn. rewrite Hc, lookup_alter_eq, Hc. cbn. rewrite (KListRefine.insert_ordered_perm (thread_before s) (cur s) q). left. }
  set (th1 := set_kstack ([F_lock_release l; F_cond_block c; F_lock_acquire l] ++ kstack th) th).
  set (s1 := with_threads (<[cur s := th1]> (threads s0)) s0). exists s1.
  split; [unfold push_frames, upd_thread; by erewrite bind_Ok by (unfold get_thread; cbn; by rewrite Ht)|].
  assert (cur s ∈ qlist s1 (Qcond c)) as Hin1 by exact Hin.
  split; [done|]. split; [done|]. split; [cbn; by rewrite lookup_insert_eq, <- Hst|]. split; [done|].
  apply (yield_listed s1 th1); [apply lookup_insert_eq|done|done|done|done|].
  eapply elem_listed, Hin1. eapply cond_queue. cbn. by rewrite lookup_alter_eq, Hc.
Qed.

(** The initial thread holds the lock of a condition. *)
Definition cond_events : list event := [EvCall (LockInit 10); EvCall (CondInit 50); EvCall (LockAcquire 10)].

Lemma cond_wait_corrupts_lists_witness :
  possible cond_events start = true ∧
  ∃ s1, cond_wait 50 10 (final cond_events) = Ok ((), s1) ∧ 1 ∈ qlist s1 (Qcond 50) ∧ thread_yield s1 = Err Undef.
Proof.
  split; [vm_compute; reflexivity|].
  destruct (cond_wait_corrupts_lists (final cond_events) 50 10 (default (Lock None 0 0) (locks (final cond_events) !! 10)) []
    (default (Thread 0 THREAD_RUNNING 0 None [] 0 0 None None [] 0) (threads (final cond_events) !! 1))) as (s1 & E & _ & _ & _ & Hin & Hy);
    first [right; vm_compute; reflexivity|vm_compute; reflexivity|by vm_compute|idtac].
  exists s1. split; [exact E|]. split; [exact Hin|exact Hy].
Defined.

(** The initial thread wakes thread 3 up in [sema_up] and is preempted
    before it looks at the priority of thread 3, which exits. *)
Definition dangling_events : list event :=
  [EvCall (SemaInit 60 0); EvCall (Create (Some 3) 31)] ++ replicate 6 EvRun ++
  [EvCall Yield; EvRun; EvCall (SemaDown 60); EvRun; EvCall (SemaUp 60);
   EvTick; EvRun; EvTick; EvRun; EvTick; EvRun; EvTick; EvRun; EvCall Exit; EvRun; EvRun; EvRun].

(** [sema_up] reads the priority of the thread it woke up with
    interrupts on again; the thread can have exited and its page been
    freed. *)
Theorem sema_up_reads_freed_thread :
  possible dangling_events start = true ∧ run dangling_events start = Err Undef.
Proof. split; vm_compute; reflexivity. Qed.

(** The initial thread holds lock 10, for which thread 3 waits with
    priority 50; it takes lock 11 and releases lock 10. *)
Definition retaining : list event :=
  [EvCall (LockInit 10); EvCall (LockInit 11); EvCall (LockAcquire 10); EvCall (Create (Some 3) 50)] ++
  replicate 7 EvRun ++ [EvCall (LockAcquire 10); EvRun; EvCall (LockAcquire 11); EvCall (LockRelease 10); EvRun; EvRun].

(** The priority a thread got by donation stays with the locks it took
    in the meantime: it keeps running at priority 50, while the donor is
    ready and nobody waits for the lock it still holds. *)
Theorem donated_priority_retained :
  obeyed retaining start ∧
  match run retaining start with
  | Ok (_, s) => cur s = 1 ∧ (b_pri <$> threads s !! 1) = Some 31 ∧ pri_of s 1 = 50 ∧
                 (lock_queue <$> threads s !! 1) = Some [11] ∧ qlist s (Qsema (SemaLock 11)) = [] ∧
                 ready_list s = [3]
  | Err _ => False
  end.
Proof. split; [apply (bool_decide_unpack _); vm_compute; exact I|vm_compute; by split_and!]. Qed.

(** The initial thread holds lock 10 and sleeps for 100 ticks, thread 3 for
    5 ticks; thread 4 wakes up after 2 ticks and acquires lock 10. *)
Definition oversleeping : list event :=
  [EvCall (LockInit 10); EvCall (LockAcquire 10); EvCall (Create (Some 3) 20)] ++ replicate 6 EvRun ++
  [EvCall (Create (Some 4) 40)] ++ replicate 7 EvRun ++
  [EvCall (Sleep 2); EvRun; EvRun; EvCall (Sleep 100); EvRun; EvRun; EvCall (Sleep 5); EvRun; EvRun;
   EvTick; EvRun; EvTick; EvRun; EvTick; EvRun; EvTick; EvRun; EvCall (LockAcquire 10); EvRun; EvRun;
   EvTick; EvRun; EvTick; EvRun; EvTick; EvRun; EvTick; EvRun; EvRun; EvTick; EvRun; EvTick].

(** Donation to a sleeping thread moves it in the sleep list by its
    priority, in front of a thread that should wake up earlier: at tick 10
    thread 3, due at tick 5, is still asleep. *)
Theorem donation_delays_sleeper :
  obeyed oversleeping start ∧
  match run oversleeping start with
  | Ok (_, s) => ticks s = 10 ∧ wake_up_of s 3 = 5 ∧ timer_sleep_list s = [1; 3]
  | Err _ => False
  end.
Proof. split; [apply (bool_decide_unpack _); vm_compute; exact I|vm_compute; by split_and!]. Qed.

End SchedProps.
