(* ===== verification/SchedLive.v ===== *)
(** * Round robin

    With the FIFO scheduler a ready thread waits for as many turns as there are
    threads before it in the run queue, however long the turns are, if nothing
    but [thread_yield] takes threads out of the queue. *)

From S2P Require Import Prelude KListSpec Kernel Thread Synch Timer Machine.
From S2P Require Import SchedInv SchedOps SchedSync SchedLock SchedStep SchedEvents SchedTick SchedMain SchedBoot SchedProps.
Import Kernel Thread Synch Timer Machine.
Import SchedInv SchedOps SchedSync SchedLock SchedStep SchedEvents SchedTick SchedMain SchedBoot SchedProps.

Module SchedLive.

(** One call of [thread_yield]: the head of the run queue goes on, the caller
    goes to its end (the idle thread is not queued). *)
Lemma yield_fifo s t ts :
  kernel_ok s → active_sched_policy s = SCHED_FIFO → ready_list s = t :: ts →
  ∃ s', thread_yield s = Ok ((), s') ∧ kernel_ok s' ∧ active_sched_policy s' = SCHED_FIFO ∧ cur s' = t ∧
    ready_list s' = ts ++ (if decide (idle_thread s = Some (cur s)) then [] else [cur s]).
Proof.
  intros Hok Hp Hr.
  assert (wp false thread_yield (λ _ s', kernel_ok s' ∧ active_sched_policy s' = SCHED_FIFO ∧ cur s' = t ∧
    ready_list s' = ts ++ (if decide (idle_thread s = Some (cur s)) then [] else [cur s])) s) as H.
  { apply wp_yield_to; [done|]. intros s1 th1 Has Hp1 Hr1 Hc1 Hi1 Hst. eapply wp_schedule_run; [done|].
    intros n thn s' Hd. split; [by eapply dispatched_ok|]. destruct Hd as [Hn _ Hs']. pose proof (wf_nodup _ (as_wf _ _ Has) Qready) as Hnd.
    destruct Hs' as [->|(Hdy & _)]; [|congruence].
    change (active_sched_policy s1 = SCHED_FIFO ∧ n = t ∧ filter (.≠ n) (ready_list s1) = ts ++ (if decide (idle_thread s = Some (cur s)) then [] else [cur s])).
    cbn [qlist] in Hnd. unfold ready_insert in Hr1. rewrite Hr, Hp in Hr1.
    assert (ready_list s1 = t :: ts ++ (if decide (idle_thread s = Some (cur s)) then [] else [cur s])) as E
      by (rewrite Hr1; case_decide; [by rewrite app_nil_r|done]).
    rewrite E in Hn, Hnd |- *. destruct Hn as [[= ->]|[? _]]; [|done]. apply NoDup_cons in Hnd as [Hnt _].
    split; [congruence|]. split; [done|]. by rewrite (filter_ne_head n). }
  unfold wp in H. destruct (thread_yield s) as [[[] s']|[]]; [|done..]. eauto.
Qed.

(** The running thread runs on from [s] to [s']: it may have made other threads
    ready. *)
Record working (s s' : kstate) : Prop := {
  wk_ok : kernel_ok s';
  wk_cur : cur s' = cur s;
  wk_policy : active_sched_policy s' = active_sched_policy s;
  wk_ready : ready_list s `prefix_of` ready_list s';
}.

(** [n] turns: each ends with a call of [thread_yield]. *)
Inductive turns : nat → kstate → kstate → Prop :=
  | turns_now s : turns 0 s s
  | turns_next n s s1 s2 s3 : working s s1 → thread_yield s1 = Ok ((), s2) → turns n s2 s3 → turns (S n) s s3.

Lemma turn_returns s s1 t ts :
  active_sched_policy s = SCHED_FIFO → ready_list s = t :: ts → working s s1 → ∃ s2, thread_yield s1 = Ok ((), s2).
Proof.
  intros Hp Hr [W1 W2 W3 [new W4]]. destruct (yield_fifo s1 t (ts ++ new)) as (s2 & Hy & _); [done|congruence|by rewrite W4, Hr|]. eauto.
Qed.

Lemma turn_run s s1 s2 t ts :
  active_sched_policy s = SCHED_FIFO → ready_list s = t :: ts → working s s1 → thread_yield s1 = Ok ((), s2) →
  kernel_ok s2 ∧ active_sched_policy s2 = SCHED_FIFO ∧ cur s2 = t ∧ ts `prefix_of` ready_list s2.
Proof.
  intros Hp Hr [W1 W2 W3 [new W4]] Hy. destruct (yield_fifo s1 t (ts ++ new)) as (s2' & Hy' & A & B & C & D);
    [done|congruence|by rewrite W4, Hr|]. assert (s2' = s2) as -> by congruence. split; [done|]. split; [done|]. split; [done|].
  rewrite D, <- app_assoc. by apply prefix_app_r.
Qed.

(** C6: with the FIFO scheduler, a thread with [k] threads before it in the run
    queue runs after [k + 1] turns, where a turn ends with a call of
    [thread_yield] and the running thread may before that do anything that
    keeps the invariant and leaves the threads of the run queue in their places: it may make
    further threads ready, which go to the end ([working]).  Until then every
    such call of [thread_yield] returns.  (A donation to a ready thread does
    not leave it in its place, since [donate_pri_acquire] inserts it by
    priority.) *)
Theorem round_robin s k t :
  kernel_ok s → active_sched_policy s = SCHED_FIFO → ready_list s !! k = Some t →
  (∀ s', turns (S k) s s' → cur s' = t) ∧
  (∀ j s1 s2, (j ≤ k)%nat → turns j s s1 → working s1 s2 → ∃ s3, thread_yield s2 = Ok ((), s3)).
Proof.
  revert s. induction k as [|k IH]; intros s Hok Hp Hk.
  all: destruct (ready_list s) as [|u ts] eqn:Hr; [done|]; cbn in Hk; split.
  - injection Hk as ->. intros s' Ht. inversion Ht as [|? ? s1 s2 ? W Hy Ht']; subst. inversion Ht'; subst.
    by destruct (turn_run s s1 s' t ts Hp Hr W Hy) as (_ & _ & ? & _).
  - intros j s1 s2 Hj Ht W. assert (j = 0%nat) as -> by lia. inversion Ht; subst. by apply (turn_returns s1 s2 u ts).
  - intros s' Ht. inversion Ht as [|? ? s1 s2 ? W Hy Ht']; subst.
    destruct (turn_run s s1 s2 u ts Hp Hr W Hy) as (A & B & _ & D). eapply IH; [exact A|done| |exact Ht'].
    by eapply prefix_lookup_Some.
  - intros [|j] s1 s2 Hj Ht W; inversion Ht as [|? ? s4 s5 ? W' Hy Ht']; subst.
    + by apply (turn_returns s1 s2 u ts).
    + destruct (turn_run s s4 s5 u ts Hp Hr W' Hy) as (A & B & _ & D).
      eapply (proj2 (IH s5 A B ltac:(by eapply prefix_lookup_Some)) j s1 s2); [lia|done|done].
Qed.

(** Two threads are created with the FIFO scheduler; the first thread yields,
    returns to its caller in its next turn and yields again. *)
Notation start_fifo := (booted 1 2 100 SCHED_FIFO).
Definition fifo_run (es : list event) : kstate := match run es start_fifo with Ok (_, s) => s | Err _ => start_fifo end.

Lemma fifo_run_ok es : bool_decide (obeyed es start_fifo) = true → kernel_ok (fifo_run es).
Proof.
  intros Ho%bool_decide_eq_true. assert (kernel_ok start_fifo) as Hs by (apply booted_ok; [done|by left]).
  unfold fifo_run. pose proof (run_ok es start_fifo Hs Ho) as H. by destruct (run es start_fifo) as [[[] s]|].
Qed.

Definition create_two : list event :=
  [EvCall (Create (Some 3) 20); EvRun; EvRun; EvRun; EvRun; EvRun; EvRun;
   EvCall (Create (Some 4) 20); EvRun; EvRun; EvRun; EvRun; EvRun; EvRun].

Lemma round_robin_witness :
  ready_list (fifo_run create_two) = [3; 4] ∧ ∃ s', turns 2 (fifo_run create_two) s' ∧ cur s' = 4.
Proof.
  split; [vm_compute; reflexivity|].
  assert (kernel_ok (fifo_run create_two)) as H0 by (apply fifo_run_ok; vm_compute; reflexivity).
  assert (kernel_ok (fifo_run (create_two ++ [EvCall Yield; EvRun]))) as H1 by (apply fifo_run_ok; vm_compute; reflexivity).
  assert (turns 2 (fifo_run create_two) (fifo_run (create_two ++ [EvCall Yield; EvRun; EvCall Yield]))) as Ht.
  { apply (turns_next 1 _ (fifo_run create_two) (fifo_run (create_two ++ [EvCall Yield]))).
    - constructor; [exact H0|reflexivity|reflexivity|exists []; vm_compute; reflexivity].
    - vm_compute. reflexivity.
    - apply (turns_next 0 _ (fifo_run (create_two ++ [EvCall Yield; EvRun])) (fifo_run (create_two ++ [EvCall Yield; EvRun; EvCall Yield]))).
      + constructor; [exact H1|vm_compute; reflexivity|vm_compute; reflexivity|exists []; vm_compute; reflexivity].
      + vm_compute. reflexivity.
      + apply turns_now. }
  eexists. split; [exact Ht|]. apply (round_robin (fifo_run create_two) 1 4); [exact H0|vm_compute; reflexivity|vm_compute; reflexivity|exact Ht].
Defined.
End SchedLive.
