(* ===== verification/CMem.v ===== *)
(** * Byte memory

    The memory the C library functions work on: a finite map from addresses
    to bytes.  Reading or writing an address that is not mapped is
    undefined behaviour.  A loop that walks over memory visits an address
    once, so the number of mapped bytes bounds its rounds. *)

From S2P Require Import Prelude.

Module CMem.

Abbreviation mem := (gmap Z Z).
Abbreviation C := (M mem).

Definition NULL : Z := 0.

Definition load (p : Z) : C Z := λ m, lift (m !! p) Undef m.
Definition store (p v : Z) : C unit := λ m,
  match m !! p with
  | Some _ => Ok ((), <[p := u8 v]> m)
  | None => Err Undef
  end.

(** A loop gets one round per mapped byte, and one more. *)
Definition bounded {A} (loop : nat → C A) : C A := m ← get; loop (S (size m)).

(** ** Bytes in memory *)

(** The bytes [bs] are at [p]. *)
Definition bytes_at (m : mem) (p : Z) (bs : list Z) : Prop :=
  ∀ i b, bs !! i = Some b → m !! (p + Z.of_nat i) = Some b.

(** The string [s] is at [p], with its null terminator. *)
Definition str_at (m : mem) (p : Z) (s : list Z) : Prop :=
  bytes_at m p (s ++ [0]) ∧ Forall (λ b, b ≠ 0) s.

(** The addresses [p, p + n). *)
Definition in_range (p n a : Z) : Prop := p ≤ a < p + n.

Lemma bytes_at_nil m p : bytes_at m p [].
Proof. intros i b. by rewrite lookup_nil. Qed.

Lemma bytes_at_cons m p b bs :
  bytes_at m p (b :: bs) ↔ m !! p = Some b ∧ bytes_at m (p + 1) bs.
Proof.
  split.
  - intros H. split; [rewrite <- (Z.add_0_r p); by apply (H 0%nat)|].
    intros i c Hc. rewrite <- (H (S i) c Hc). f_equal. lia.
  - intros [H1 H2] [|i] c Hc; cbn in Hc.
    + simplify_eq. by rewrite Z.add_0_r.
    + rewrite <- (H2 i c Hc). f_equal. lia.
Qed.

Lemma bytes_at_app m p xs ys :
  bytes_at m p (xs ++ ys) ↔ bytes_at m p xs ∧ bytes_at m (p + Z.of_nat (length xs)) ys.
Proof.
  revert p. induction xs as [|x xs IH]; intros p; cbn [app length].
  - rewrite Z.add_0_r. split; [intros; split; [apply bytes_at_nil|done]|by intros [_ ?]].
  - rewrite !bytes_at_cons, IH. replace (p + 1 + Z.of_nat (length xs)) with (p + Z.of_nat (S (length xs))) by lia.
    tauto.
Qed.

Lemma bytes_at_ext m m' p bs :
  (∀ a, in_range p (Z.of_nat (length bs)) a → m' !! a = m !! a) → bytes_at m p bs → bytes_at m' p bs.
Proof.
  intros He H i b Hb. rewrite He; [by apply H|]. apply lookup_lt_Some in Hb. unfold in_range. lia.
Qed.

Lemma bytes_at_unique m p xs ys :
  bytes_at m p xs → bytes_at m p ys → length xs = length ys → xs = ys.
Proof.
  revert p ys. induction xs as [|x xs IH]; intros p [|y ys]; try done.
  rewrite !bytes_at_cons. intros [H1 H2] [H3 H4] [= Hl]. f_equal; [congruence|by eapply IH].
Qed.

(** Walking over bytes stays within the bound of [bounded]. *)
Lemma bytes_at_size m p bs : bytes_at m p bs → (length bs ≤ size m)%nat.
Proof.
  revert m p. induction bs as [|b bs IH]; intros m p; [cbn; lia|]. rewrite bytes_at_cons. intros [Hb Hbs].
  assert (bytes_at (delete p m) (p + 1) bs) as H%IH.
  { eapply bytes_at_ext; [|exact Hbs]. unfold in_range. intros a Ha. by rewrite lookup_delete_ne by lia. }
  rewrite (map_size_delete_Some p) in H by eauto. assert (size m ≠ 0)%nat.
  { intros E. apply map_size_empty_inv in E. subst. by rewrite lookup_empty in Hb. }
  cbn. lia.
Qed.

Lemma str_at_cons m p b s :
  str_at m p (b :: s) ↔ m !! p = Some b ∧ b ≠ 0 ∧ str_at m (p + 1) s.
Proof. unfold str_at. cbn [app]. rewrite bytes_at_cons, Forall_cons. tauto. Qed.

Lemma str_at_nil m p : str_at m p [] ↔ m !! p = Some 0.
Proof.
  unfold str_at. cbn. rewrite bytes_at_cons. split; [tauto|]. intros ?. split_and!; [done|apply bytes_at_nil|done].
Qed.

Lemma str_at_size m p s : str_at m p s → (length s < S (size m))%nat.
Proof. intros [H _]. apply bytes_at_size in H. rewrite length_app in H. cbn in H. lia. Qed.

Lemma str_at_drop m p s i :
  str_at m p s → (i ≤ length s)%nat → str_at m (p + Z.of_nat i) (drop i s).
Proof.
  revert p s. induction i as [|i IH]; intros p s Hs Hi; [by rewrite Z.add_0_r|].
  destruct s as [|b s]; cbn in Hi; [lia|]. apply str_at_cons in Hs as (_ & _ & Hs).
  replace (p + Z.of_nat (S i)) with (p + 1 + Z.of_nat i) by lia. apply IH; [done|lia].
Qed.

Lemma str_at_ext m m' p s :
  (∀ a, in_range p (Z.of_nat (length s) + 1) a → m' !! a = m !! a) → str_at m p s → str_at m' p s.
Proof.
  intros He [H1 H2]. split; [|done]. eapply bytes_at_ext; [|exact H1]. rewrite length_app. cbn.
  intros a Ha. apply He. unfold in_range in *. lia.
Qed.

Lemma str_at_unique m p s s' : str_at m p s → str_at m p s' → s = s'.
Proof.
  revert p s'. induction s as [|b s IH]; intros p [|b' s']; rewrite ?str_at_cons, ?str_at_nil; try naive_solver.
Qed.

(** ** Running the accesses *)

Lemma load_run m p b : m !! p = Some b → load p m = Ok (b, m).
Proof. intros H. unfold load. by rewrite H. Qed.

Lemma store_run m p v : is_Some (m !! p) → store p v m = Ok ((), <[p := u8 v]> m).
Proof. intros [b H]. unfold store. by rewrite H. Qed.

Lemma bounded_run {A} (loop : nat → C A) m : bounded loop m = loop (S (size m)) m.
Proof. done. Qed.

(** ** Memory with bytes written *)

Fixpoint write (p : Z) (bs : list Z) (m : mem) : mem :=
  match bs with [] => m | b :: bs => <[p := b]> (write (p + 1) bs m) end.

Lemma write_lookup_out p bs m a :
  ¬ in_range p (Z.of_nat (length bs)) a → write p bs m !! a = m !! a.
Proof.
  unfold in_range. revert p. induction bs as [|b bs IH]; intros p Ha; [done|]. cbn in *.
  rewrite lookup_insert_ne by lia. apply IH. lia.
Qed.

Lemma write_bytes_at p bs m : bytes_at (write p bs m) p bs.
Proof.
  revert p. induction bs as [|b bs IH]; intros p; [apply bytes_at_nil|]. apply bytes_at_cons. cbn.
  split; [apply lookup_insert_eq|]. eapply bytes_at_ext; [|apply IH]. unfold in_range. intros a Ha.
  by rewrite lookup_insert_ne by lia.
Qed.

Lemma write_app p xs ys m :
  write p (xs ++ ys) m = write p xs (write (p + Z.of_nat (length xs)) ys m).
Proof.
  revert p. induction xs as [|x xs IH]; intros p; cbn [app write length]; [by rewrite Z.add_0_r|].
  rewrite IH. do 3 f_equal. lia.
Qed.

(** The last byte first. *)
Lemma write_snoc p xs y m : write p (xs ++ [y]) m = write p xs (<[p + Z.of_nat (length xs) := y]> m).
Proof. by rewrite write_app. Qed.

Lemma write_insert p bs m a b :
  ¬ in_range p (Z.of_nat (length bs)) a → write p bs (<[a := b]> m) = <[a := b]> (write p bs m).
Proof.
  unfold in_range. revert p. induction bs as [|x xs IH]; intros p Ha; [done|]. cbn in *.
  rewrite IH by lia. apply insert_insert_ne. lia.
Qed.

(** The addresses [p, p + n) are mapped. *)
Definition mapped (m : mem) (p : Z) (n : nat) : Prop := ∀ a, in_range p (Z.of_nat n) a → is_Some (m !! a).

Lemma bytes_at_mapped m p bs : bytes_at m p bs → mapped m p (length bs).
Proof.
  unfold in_range. intros H a Ha. unfold in_range in Ha. destruct (lookup_lt_is_Some_2 bs (Z.to_nat (a - p))) as [b Hb]; [lia|].
  exists b. rewrite <- (H _ _ Hb). f_equal. lia.
Qed.

Lemma mapped_bytes m p n : mapped m p n → ∃ bs, length bs = n ∧ bytes_at m p bs.
Proof.
  revert p. induction n as [|n IH]; intros p Hm; [exists []; split; [done|apply bytes_at_nil]|].
  destruct (Hm p) as [b Hb]; [unfold in_range; lia|].
  destruct (IH (p + 1)) as (bs & Hl & Hbs).
  { intros a Ha. apply Hm. unfold in_range in *. lia. }
  exists (b :: bs). split; [cbn; lia|by apply bytes_at_cons].
Qed.

(** ** Memory that can be computed *)

Lemma bytes_at_check m p bs : bool_decide (((λ a, m !! a) <$> seqZ p (Z.of_nat (length bs))) = Some <$> bs) = true → bytes_at m p bs.
Proof.
  intros H%bool_decide_eq_true i b Hb. pose proof (f_equal (λ l, l !! i) H) as E. cbn in E. rewrite !list_lookup_fmap, Hb in E.
  rewrite lookup_seqZ_lt in E by (apply lookup_lt_Some in Hb; lia). cbn in E. by injection E.
Qed.
Lemma str_at_check m p s : bool_decide (((λ a, m !! a) <$> seqZ p (Z.of_nat (length (s ++ [0])))) = Some <$> (s ++ [0])) && forallb (λ b, negb (b =? 0)) s = true → str_at m p s.
Proof.
  intros [H1 H2]%andb_prop. split; [by apply bytes_at_check|]. apply Forall_forall. intros b Hb%list_elem_of_In. rewrite forallb_forall in H2.
  specialize (H2 b Hb). destruct (Z.eqb_spec b 0); [done|lia].
Qed.

End CMem.
