(* ===== verification/CString.v ===== *)
(** * Strings and memory blocks (lib/string.c)

    Every function of string.c on byte memory.  Pointers and sizes are
    integers; the objects passed to these functions do not wrap around the
    address space.  [strtok_r] takes and returns the value of [*save_ptr]. *)

From S2P Require Import Prelude CMem.
Import CMem.

Module CString.

(** ** Blocks *)

(** [while (size-- > 0) *dst++ = *src++] *)
Fixpoint copy_up (size : nat) (dst src : Z) : C unit :=
  match size with
  | O => mret ()
  | S size => b ← load src; store dst b;; copy_up size (dst + 1) (src + 1)
  end.

(** [while (size-- > 0) *--dst = *--src] *)
Fixpoint copy_down (size : nat) (dst src : Z) : C unit :=
  match size with
  | O => mret ()
  | S size => b ← load (src - 1); store (dst - 1) b;; copy_down size (dst - 1) (src - 1)
  end.

Definition ASSERT_block (p size : Z) : C unit :=
  ASSERT (bool_decide (p ≠ NULL) || bool_decide (size = 0)).

Definition memcpy (dst src size : Z) : C Z :=
  ASSERT_block dst size;; ASSERT_block src size;;
  copy_up (Z.to_nat size) dst src;;
  mret dst.

(** The function returns its local pointer [dst], which the first branch
    has moved. *)
Definition memmove (dst src size : Z) : C Z :=
  ASSERT_block dst size;; ASSERT_block src size;;
  if decide (dst < src) then
    copy_up (Z.to_nat size) dst src;; mret (dst + size)
  else
    copy_down (Z.to_nat size) (dst + size) (src + size);; mret (dst + size - size).

Fixpoint memcmp_loop (size : nat) (a b : Z) : C Z :=
  match size with
  | O => mret 0
  | S size =>
      x ← load a; y ← load b;
      if decide (x = y) then memcmp_loop size (a + 1) (b + 1)
      else mret (if decide (y < x) then 1 else -1)
  end.
Definition memcmp (a b size : Z) : C Z :=
  ASSERT_block a size;; ASSERT_block b size;; memcmp_loop (Z.to_nat size) a b.

Fixpoint memchr_loop (size : nat) (block ch : Z) : C Z :=
  match size with
  | O => mret NULL
  | S size =>
      x ← load block;
      if decide (x = ch) then mret block else memchr_loop size (block + 1) ch
  end.
Definition memchr (block ch size : Z) : C Z :=
  ASSERT_block block size;; memchr_loop (Z.to_nat size) block (u8 ch).

Fixpoint memset_loop (size : nat) (dst value : Z) : C unit :=
  match size with
  | O => mret ()
  | S size => store dst value;; memset_loop size (dst + 1) value
  end.
Definition memset (dst value size : Z) : C Z :=
  ASSERT_block dst size;; memset_loop (Z.to_nat size) dst value;; mret dst.

(** ** Strings *)

Definition ASSERT_ptr (p : Z) : C unit := ASSERT (bool_decide (p ≠ NULL)).

Fixpoint strcmp_loop (fuel : nat) (a b : Z) : C Z :=
  match fuel with
  | O => fail NoFuel
  | S fuel =>
      x ← load a; y ← load b;
      if decide (x ≠ 0 ∧ x = y) then strcmp_loop fuel (a + 1) (b + 1)
      else mret (if decide (x < y) then -1 else Z.b2z (bool_decide (y < x)))
  end.
Definition strcmp (a b : Z) : C Z :=
  ASSERT_ptr a;; ASSERT_ptr b;; bounded (λ n, strcmp_loop n a b).

Fixpoint strchr_loop (fuel : nat) (string c : Z) : C Z :=
  match fuel with
  | O => fail NoFuel
  | S fuel =>
      x ← load string;
      if decide (x = c) then mret string
      else if decide (x = 0) then mret NULL
      else strchr_loop fuel (string + 1) c
  end.
Definition strchr (string c : Z) : C Z :=
  ASSERT_ptr string;; bounded (λ n, strchr_loop n string (u8 c)).

(** The loops of [strcspn] and [strspn] differ in the test. *)
Fixpoint span_loop (fuel : nat) (string set length : Z) (stop : Z → bool) : C Z :=
  match fuel with
  | O => fail NoFuel
  | S fuel =>
      x ← load (string + length);
      if decide (x = 0) then mret length else
      r ← strchr set x;
      if stop r then mret length else span_loop fuel string set (length + 1) stop
  end.
Definition strcspn (string stop : Z) : C Z :=
  bounded (λ n, span_loop n string stop 0 (λ r, bool_decide (r ≠ NULL))).
Definition strspn (string skip : Z) : C Z :=
  bounded (λ n, span_loop n string skip 0 (λ r, bool_decide (r = NULL))).

Fixpoint strpbrk_loop (fuel : nat) (string stop : Z) : C Z :=
  match fuel with
  | O => fail NoFuel
  | S fuel =>
      x ← load string;
      if decide (x = 0) then mret NULL else
      r ← strchr stop x;
      if decide (r ≠ NULL) then mret string else strpbrk_loop fuel (string + 1) stop
  end.
Definition strpbrk (string stop : Z) : C Z := bounded (λ n, strpbrk_loop n string stop).

Fixpoint strrchr_loop (fuel : nat) (string c p : Z) : C Z :=
  match fuel with
  | O => fail NoFuel
  | S fuel =>
      x ← load string;
      if decide (x = 0) then mret p
      else strrchr_loop fuel (string + 1) c (if decide (x = c) then string else p)
  end.
Definition strrchr (string c : Z) : C Z := bounded (λ n, strrchr_loop n string (u8 c) NULL).

Fixpoint strlen_loop (fuel : nat) (p : Z) : C Z :=
  match fuel with
  | O => fail NoFuel
  | S fuel => x ← load p; if decide (x = 0) then mret p else strlen_loop fuel (p + 1)
  end.
Definition strlen (string : Z) : C Z :=
  ASSERT_ptr string;; p ← bounded (λ n, strlen_loop n string); mret (p - string).

(** The character is read before the length is tested. *)
Fixpoint strnlen_loop (fuel : nat) (string maxlen length : Z) : C Z :=
  match fuel with
  | O => fail NoFuel
  | S fuel =>
      x ← load (string + length);
      if decide (x ≠ 0 ∧ length < maxlen) then strnlen_loop fuel string maxlen (length + 1)
      else mret length
  end.
Definition strnlen (string maxlen : Z) : C Z := bounded (λ n, strnlen_loop n string maxlen 0).

(** [for (i = 0; i <= haystack_len - needle_len; i++)], with [n] rounds
    left. *)
Fixpoint strstr_loop (n : nat) (haystack needle needle_len i : Z) : C Z :=
  match n with
  | O => mret NULL
  | S n =>
      r ← memcmp (haystack + i) needle needle_len;
      if decide (r = 0) then mret (haystack + i) else strstr_loop n haystack needle needle_len (i + 1)
  end.
Definition strstr (haystack needle : Z) : C Z :=
  haystack_len ← strlen haystack;
  needle_len ← strlen needle;
  if decide (needle_len ≤ haystack_len)
  then strstr_loop (Z.to_nat (haystack_len - needle_len + 1)) haystack needle needle_len 0
  else mret NULL.

(** Skipping delimiters: [false] at the end of the string. *)
Fixpoint skip_delimiters (fuel : nat) (s delimiters : Z) : C (Z * bool) :=
  match fuel with
  | O => fail NoFuel
  | S fuel =>
      x ← load s;
      r ← strchr delimiters x;
      if decide (r = NULL) then mret (s, true)
      else if decide (x = 0) then mret (s, false)
      else skip_delimiters fuel (s + 1) delimiters
  end.
Fixpoint skip_token (fuel : nat) (s delimiters : Z) : C Z :=
  match fuel with
  | O => fail NoFuel
  | S fuel =>
      x ← load s;
      r ← strchr delimiters x;
      if decide (r = NULL) then skip_token fuel (s + 1) delimiters else mret s
  end.

(** The token and the new [*save_ptr]. *)
Definition strtok_r (s delimiters save : Z) : C (Z * Z) :=
  ASSERT_ptr delimiters;;
  let s := if decide (s = NULL) then save else s in
  ASSERT_ptr s;;
  p ← bounded (λ n, skip_delimiters n s delimiters);
  if negb p.2 then mret (NULL, p.1) else
  let token := p.1 in
  s ← bounded (λ n, skip_token n token delimiters);
  x ← load s;
  if decide (x ≠ 0) then store s 0;; mret (token, s + 1) else mret (token, s).

Definition strlcpy (dst src size : Z) : C Z :=
  ASSERT_ptr dst;; ASSERT_ptr src;;
  src_len ← strlen src;
  (if decide (0 < size) then
     let dst_len := if decide (src_len < size - 1) then src_len else size - 1 in
     memcpy dst src dst_len;; store (dst + dst_len) 0
   else mret ());;
  mret src_len.

Definition strlcat (dst src size : Z) : C Z :=
  ASSERT_ptr dst;; ASSERT_ptr src;;
  src_len ← strlen src;
  dst_len ← strlen dst;
  (if decide (0 < size ∧ dst_len < size) then
     let copy_cnt := if decide (src_len < size - dst_len - 1) then src_len else size - dst_len - 1 in
     memcpy (dst + dst_len) src copy_cnt;; store (dst + dst_len + copy_cnt) 0
   else mret ());;
  mret (u32 (src_len + dst_len)).

End CString.
