(* ===== verification/CStringSpec.v ===== *)
(** * The functions of string.c against functions on lists *)

From S2P Require Import Prelude CMem CString.
Import CMem CString.

Module CStringSpec.

(** ** Copying *)

Lemma copy_up_run bs m dst src :
  bytes_at m src bs → mapped m dst (length bs) → Forall (in_u 8) bs →
  dst ≤ src ∨ src + Z.of_nat (length bs) ≤ dst →
  copy_up (length bs) dst src m = Ok ((), write dst bs m).
Proof.
  revert m dst src. induction bs as [|b bs IH]; intros m dst src Hb Hm Hu Hd; [done|].
  apply bytes_at_cons in Hb as [Hb Hbs]. apply Forall_cons in Hu as [Hub Hu]. cbn [length copy_up] in *.
  erewrite bind_Ok by (by apply load_run).
  erewrite bind_Ok by (apply store_run, Hm; unfold in_range; lia). rewrite wrapu_id by done.
  rewrite IH.
  - cbn [write]. rewrite write_insert by (unfold in_range; lia). done.
  - eapply bytes_at_ext; [|exact Hbs]. unfold in_range. intros a Ha. by rewrite lookup_insert_ne by lia.
  - intros a Ha. apply lookup_insert_is_Some'. right. apply Hm. unfold in_range in *. lia.
  - done.
  - lia.
Qed.

Lemma copy_down_run bs m dst src :
  bytes_at m src bs → mapped m dst (length bs) → Forall (in_u 8) bs → src ≤ dst →
  copy_down (length bs) (dst + Z.of_nat (length bs)) (src + Z.of_nat (length bs)) m = Ok ((), write dst bs m).
Proof.
  revert m. induction bs as [|b bs IH] using rev_ind; intros m Hb Hm Hu Hd; [done|].
  apply bytes_at_app in Hb as [Hbs [Hb _]%bytes_at_cons]. apply Forall_app in Hu as [Hu [Hub _]%Forall_cons].
  rewrite length_app in *. cbn [length] in *. rewrite Nat.add_1_r in *. cbn [copy_down].
  replace (src + Z.of_nat (S (length bs)) - 1) with (src + Z.of_nat (length bs)) by lia.
  replace (dst + Z.of_nat (S (length bs)) - 1) with (dst + Z.of_nat (length bs)) by lia.
  erewrite bind_Ok by (by apply load_run).
  erewrite bind_Ok by (apply store_run, Hm; unfold in_range; lia). rewrite wrapu_id by done.
  rewrite IH; [by rewrite write_snoc| | |done|done].
  - eapply bytes_at_ext; [|exact Hbs]. unfold in_range. intros a Ha. by rewrite lookup_insert_ne by lia.
  - intros a Ha. apply lookup_insert_is_Some'. right. apply Hm. unfold in_range in *. lia.
Qed.

Lemma ASSERT_block_run p n m : p ≠ NULL → ASSERT_block p n m = Ok ((), m).
Proof. intros Hp. apply ASSERT_true. by rewrite bool_decide_true. Qed.

Lemma ASSERT_ptr_run p m : p ≠ NULL → ASSERT_ptr p m = Ok ((), m).
Proof. intros Hp. apply ASSERT_true. by rewrite bool_decide_true. Qed.

Lemma memcpy_run bs m dst src :
  dst ≠ NULL → src ≠ NULL →
  bytes_at m src bs → mapped m dst (length bs) → Forall (in_u 8) bs →
  dst ≤ src ∨ src + Z.of_nat (length bs) ≤ dst →
  memcpy dst src (Z.of_nat (length bs)) m = Ok (dst, write dst bs m).
Proof.
  intros Hd0 Hs0 Hb Hm Hu Hd. unfold memcpy. erewrite bind_Ok by (by apply ASSERT_block_run).
  erewrite bind_Ok by (by apply ASSERT_block_run). rewrite Nat2Z.id.
  by erewrite bind_Ok by (by apply copy_up_run).
Qed.

Lemma memmove_run bs m dst src :
  dst ≠ NULL → src ≠ NULL → bytes_at m src bs → mapped m dst (length bs) → Forall (in_u 8) bs →
  memmove dst src (Z.of_nat (length bs)) m =
    Ok (if decide (dst < src) then dst + Z.of_nat (length bs) else dst, write dst bs m).
Proof.
  intros Hd0 Hs0 Hb Hm Hu. unfold memmove. erewrite bind_Ok by (by apply ASSERT_block_run).
  erewrite bind_Ok by (by apply ASSERT_block_run). rewrite Nat2Z.id. case_decide.
  - by erewrite bind_Ok by (apply copy_up_run; auto with lia).
  - erewrite bind_Ok by (apply copy_down_run; auto with lia). unfold mret, M_ret. do 2 f_equal. lia.
Qed.

(** [memmove] moves a block to its destination, also where the two
    overlap, and changes nothing else.  It returns the destination, unless
    this is before the source: then it returns the end of the destination. *)
Theorem memmove_moves m dst src bs :
  dst ≠ NULL → src ≠ NULL → bytes_at m src bs → mapped m dst (length bs) → Forall (in_u 8) bs →
  ∃ m', memmove dst src (Z.of_nat (length bs)) m =
          Ok (if decide (dst < src) then dst + Z.of_nat (length bs) else dst, m') ∧
        bytes_at m' dst bs ∧
        (∀ a, ¬ in_range dst (Z.of_nat (length bs)) a → m' !! a = m !! a).
Proof.
  intros Hd0 Hs0 Hb Hm Hu. exists (write dst bs m).
  split_and!; [by apply memmove_run|apply write_bytes_at|apply write_lookup_out].
Qed.

(** Three bytes at 10, moved by one to the right and by one to the left. *)
Definition block : mem := list_to_map [(9, 0); (10, 1); (11, 2); (12, 3); (13, 0)].

Lemma memmove_moves_witness :
  (∃ m', memmove 9 10 3 block = Ok (12, m') ∧ bytes_at m' 9 [1; 2; 3] ∧
         (∀ a, ¬ in_range 9 3 a → m' !! a = block !! a)) ∧
  (∃ m', memmove 11 10 3 block = Ok (11, m') ∧ bytes_at m' 11 [1; 2; 3] ∧
         (∀ a, ¬ in_range 11 3 a → m' !! a = block !! a)).
Proof.
  assert (bytes_at block 10 [1; 2; 3]) as Hb.
  { rewrite !bytes_at_cons. split_and!; [reflexivity..|apply bytes_at_nil]. }
  assert (Forall (in_u 8) [1; 2; 3]) as Hu by (repeat constructor; unfold in_u; lia).
  split; [apply (memmove_moves block 9 10 [1; 2; 3])|apply (memmove_moves block 11 10 [1; 2; 3])]; try done.
  - apply (bytes_at_mapped block 9 [0; 1; 2]). rewrite !bytes_at_cons.
    split_and!; [reflexivity..|apply bytes_at_nil].
  - apply (bytes_at_mapped block 11 [2; 3; 0]). rewrite !bytes_at_cons.
    split_and!; [reflexivity..|apply bytes_at_nil].
Defined.

(** ** Strings as lists *)

(** Comparison as unsigned characters; the end of a string is smallest. *)
Fixpoint compare (s t : list Z) : Z :=
  match s, t with
  | [], [] => 0
  | [], _ => -1
  | _, [] => 1
  | x :: s, y :: t => if decide (x = y) then compare s t else if decide (x < y) then -1 else 1
  end.

(** The pointer to the first element that satisfies [P]. *)
Definition first (P : Z → Prop) `{!∀ x, Decision (P x)} (p : Z) (s : list Z) : Z :=
  match list_find P s with Some (i, _) => p + Z.of_nat i | None => NULL end.

(** The length of the longest prefix that satisfies [P]. *)
Fixpoint span (P : Z → Prop) `{!∀ x, Decision (P x)} (s : list Z) : nat :=
  match s with x :: s => if decide (P x) then S (span P s) else O | [] => O end.

(** The pointer to the last occurrence of [c]. *)
Fixpoint last_of (c p : Z) (s : list Z) (r : Z) : Z :=
  match s with x :: s => last_of c (p + 1) s (if decide (x = c) then p else r) | [] => r end.

(** The first place of [needle] in [hay]. *)
Fixpoint find_sub (needle : list Z) (p : Z) (hay : list Z) : Z :=
  if decide (take (length needle) hay = needle) then p else
  match hay with [] => NULL | _ :: hay => find_sub needle (p + 1) hay end.

Lemma first_cons P `{!∀ x, Decision (P x)} p x s :
  first P p (x :: s) = if decide (P x) then p else first P (p + 1) s.
Proof.
  unfold first. cbn. case_decide; [lia|]. destruct (list_find P s) as [[i y]|]; cbn; [lia|done].
Qed.

Section Strings.
Context (m : mem).

Lemma strlen_loop_run n p s :
  str_at m p s → (length s < n)%nat → strlen_loop n p m = Ok (p + Z.of_nat (length s), m).
Proof.
  revert p s. induction n as [|n IH]; intros p s Hs Hn; [lia|]. cbn [strlen_loop].
  destruct s as [|b s].
  - apply str_at_nil in Hs. erewrite bind_Ok by (by apply load_run). rewrite decide_True by done.
    cbn. by rewrite Z.add_0_r.
  - apply str_at_cons in Hs as (Hb & Hb0 & Hs). erewrite bind_Ok by (by apply load_run).
    rewrite decide_False by done. cbn in Hn. rewrite (IH _ s) by (done || lia). do 2 f_equal. cbn. lia.
Qed.

Lemma strlen_run p s : p ≠ NULL → str_at m p s → strlen p m = Ok (Z.of_nat (length s), m).
Proof.
  intros Hp Hs. unfold strlen. erewrite bind_Ok by (by apply ASSERT_ptr_run).
  erewrite bind_Ok by (apply strlen_loop_run; [exact Hs|by eapply str_at_size]).
  unfold mret, M_ret. do 2 f_equal. lia.
Qed.

Lemma strcmp_loop_run n p q s t :
  str_at m p s → str_at m q t → Forall (in_u 8) s → Forall (in_u 8) t → (length s < n)%nat →
  strcmp_loop n p q m = Ok (compare s t, m).
Proof.
  revert p q s t. induction n as [|n IH]; intros p q s t Hs Ht Hus Hut Hn; [lia|]. cbn [strcmp_loop].
  destruct s as [|x s], t as [|y t]; rewrite ?str_at_nil, ?str_at_cons in *; cbn in Hn.
  - erewrite bind_Ok by (by apply load_run). erewrite bind_Ok by (by apply load_run).
    by rewrite decide_False by tauto.
  - destruct Ht as (Hy & Hy0 & _). apply Forall_cons in Hut as [Hu _]. unfold in_u in Hu.
    erewrite bind_Ok by (by apply load_run). erewrite bind_Ok by (by apply load_run).
    rewrite decide_False by tauto. by rewrite decide_True by lia.
  - destruct Hs as (Hx & Hx0 & _). apply Forall_cons in Hus as [Hu _]. unfold in_u in Hu.
    erewrite bind_Ok by (by apply load_run). erewrite bind_Ok by (by apply load_run).
    rewrite decide_False by naive_solver. rewrite decide_False by lia. by rewrite bool_decide_true by lia.
  - destruct Hs as (Hx & Hx0 & Hs), Ht as (Hy & Hy0 & Ht).
    apply Forall_cons in Hus as [_ Hus]. apply Forall_cons in Hut as [_ Hut].
    erewrite bind_Ok by (by apply load_run). erewrite bind_Ok by (by apply load_run). cbn [compare].
    destruct (decide (x = y)) as [->|Hne].
    + rewrite decide_True by done. apply IH; try done. lia.
    + rewrite decide_False by tauto. case_decide; [done|]. by rewrite bool_decide_true by lia.
Qed.

Lemma strchr_loop_run n p s c :
  str_at m p s → (length s < n)%nat → strchr_loop n p c m = Ok (first (λ x, x = c) p (s ++ [0]), m).
Proof.
  revert p s. induction n as [|n IH]; intros p s Hs Hn; [lia|]. cbn [strchr_loop].
  destruct s as [|b s].
  - apply str_at_nil in Hs. erewrite bind_Ok by (by apply load_run). cbn [app]. rewrite first_cons.
    case_decide; [done|]. by rewrite decide_True by done.
  - apply str_at_cons in Hs as (Hb & Hb0 & Hs). erewrite bind_Ok by (by apply load_run).
    cbn [app]. rewrite first_cons. case_decide; [done|]. rewrite decide_False by done.
    apply IH; [done|cbn in Hn; lia].
Qed.

Lemma strchr_run p s c :
  p ≠ NULL → str_at m p s → strchr p c m = Ok (first (λ x, x = u8 c) p (s ++ [0]), m).
Proof.
  intros Hp Hs. unfold strchr. erewrite bind_Ok by (by apply ASSERT_ptr_run).
  apply strchr_loop_run; [done|by eapply str_at_size].
Qed.

(** [strchr] used as a test of membership. *)
Lemma first_null p s c : 0 < p → first (λ x, x = c) p s = NULL ↔ c ∉ s.
Proof.
  intros Hp. unfold first. destruct (list_find _ s) as [[i y]|] eqn:E.
  - apply list_find_Some in E as (Hy & -> & _). split; [unfold NULL; lia|].
    intros Hn. destruct Hn. by eapply list_elem_of_lookup_2.
  - apply list_find_None in E. rewrite Forall_forall in E. split; [|done]. intros _ Hin. by apply (E c Hin).
Qed.

Lemma strchr_member p s c :
  0 < p → str_at m p s → in_u 8 c →
  ∃ r, strchr p c m = Ok (r, m) ∧ (r = NULL ↔ c ∉ s ++ [0]).
Proof.
  intros Hp Hs Hc. eexists. split; [apply strchr_run; [unfold NULL; lia|exact Hs]|].
  rewrite wrapu_id by done. by apply first_null.
Qed.

Lemma span_loop_run n p q s set length stop (P : Z → Prop) `{!∀ x, Decision (P x)} :
  str_at m (p + length) s → str_at m q set → 0 < q → Forall (in_u 8) s →
  (∀ r c, c ≠ 0 → (r = NULL ↔ c ∉ set ++ [0]) → stop r = true ↔ ¬ P c) →
  (List.length s < n)%nat →
  span_loop n p q length stop m = Ok (length + Z.of_nat (span P s), m).
Proof.
  revert s length. induction n as [|n IH]; intros s length Hs Hset Hq Hu Hstop Hn; [lia|]. cbn [span_loop].
  destruct s as [|b s]; rewrite ?str_at_nil, ?str_at_cons in Hs.
  - erewrite bind_Ok by (by apply load_run). rewrite decide_True by done. cbn. by rewrite Z.add_0_r.
  - destruct Hs as (Hb & Hb0 & Hs). apply Forall_cons in Hu as [Hub Hu].
    erewrite bind_Ok by (by apply load_run). rewrite decide_False by done.
    destruct (strchr_member q set b Hq Hset Hub) as (r & Hr & Hrn). erewrite bind_Ok by exact Hr.
    specialize (Hstop r b Hb0 Hrn) as Hst. cbn [span]. destruct (stop r).
    + rewrite decide_False by tauto. cbn. by rewrite Z.add_0_r.
    + rewrite decide_True by (destruct (decide (P b)); naive_solver). cbn in Hn.
      rewrite <- Z.add_assoc in Hs. rewrite (IH s) by (done || lia). do 2 f_equal. lia.
Qed.

Lemma strcspn_run p q s stop :
  0 < q → str_at m p s → str_at m q stop → Forall (in_u 8) s →
  strcspn p q m = Ok (Z.of_nat (span (λ x, x ∉ stop) s), m).
Proof.
  intros Hq Hs Ht Hu. unfold strcspn. rewrite bounded_run.
  rewrite (span_loop_run _ p q s stop 0 _ (λ x, x ∉ stop)); try done.
  - by rewrite Z.add_0_r.
  - intros r c Hc Hr. rewrite bool_decide_eq_true, Hr, elem_of_app, list_elem_of_singleton. tauto.
  - by eapply str_at_size.
Qed.

Lemma strspn_run p q s skip :
  0 < q → str_at m p s → str_at m q skip → Forall (in_u 8) s →
  strspn p q m = Ok (Z.of_nat (span (λ x, x ∈ skip) s), m).
Proof.
  intros Hq Hs Ht Hu. unfold strspn. rewrite bounded_run.
  rewrite (span_loop_run _ p q s skip 0 _ (λ x, x ∈ skip)); try done.
  - by rewrite Z.add_0_r.
  - intros r c Hc Hr. rewrite bool_decide_eq_true, Hr, elem_of_app, list_elem_of_singleton. tauto.
  - by eapply str_at_size.
Qed.

Lemma strpbrk_loop_run n p q s stop :
  0 < q → str_at m p s → str_at m q stop → Forall (in_u 8) s → (length s < n)%nat →
  strpbrk_loop n p q m = Ok (first (λ x, x ∈ stop) p s, m).
Proof.
  intros Hq. revert p s. induction n as [|n IH]; intros p s Hs Ht Hu Hn; [lia|]. cbn [strpbrk_loop].
  destruct s as [|b s]; rewrite ?str_at_nil, ?str_at_cons in Hs.
  - erewrite bind_Ok by (by apply load_run). by rewrite decide_True by done.
  - destruct Hs as (Hb & Hb0 & Hs). apply Forall_cons in Hu as [Hub Hu].
    erewrite bind_Ok by (by apply load_run). rewrite decide_False by done.
    destruct (strchr_member q stop b Hq Ht Hub) as (r & Hr & Hrn). erewrite bind_Ok by exact Hr.
    rewrite elem_of_app, list_elem_of_singleton in Hrn. rewrite first_cons. cbn in Hn.
    destruct (decide (b ∈ stop)).
    + rewrite decide_True by tauto. done.
    + rewrite decide_False by tauto. apply IH; try done. lia.
Qed.

Lemma strrchr_loop_run n p s c r :
  str_at m p s → (length s < n)%nat → strrchr_loop n p c r m = Ok (last_of c p s r, m).
Proof.
  revert p s r. induction n as [|n IH]; intros p s r Hs Hn; [lia|]. cbn [strrchr_loop].
  destruct s as [|b s]; rewrite ?str_at_nil, ?str_at_cons in Hs.
  - erewrite bind_Ok by (by apply load_run). by rewrite decide_True by done.
  - destruct Hs as (Hb & Hb0 & Hs). erewrite bind_Ok by (by apply load_run).
    rewrite decide_False by done. cbn in Hn. cbn [last_of]. apply IH; [done|lia].
Qed.

Lemma memcmp_loop_run s t p q :
  bytes_at m p s → bytes_at m q t → length s = length t →
  memcmp_loop (length s) p q m = Ok (compare s t, m).
Proof.
  revert t p q. induction s as [|x s IH]; intros [|y t] p q Hs Ht Hl; try done.
  apply bytes_at_cons in Hs as [Hx Hs]. apply bytes_at_cons in Ht as [Hy Ht]. cbn [length memcmp_loop compare].
  erewrite bind_Ok by (by apply load_run). erewrite bind_Ok by (by apply load_run).
  case_decide; [|repeat case_decide; done || lia]. apply IH; [done..|cbn in Hl; lia].
Qed.

Lemma compare_zero s t : compare s t = 0 ↔ s = t.
Proof.
  revert t. induction s as [|x s IH]; intros [|y t]; cbn; try done.
  repeat case_decide; simplify_eq; [rewrite IH|..]; naive_solver.
Qed.

Lemma memcmp_run p q s t n :
  p ≠ NULL → q ≠ NULL → bytes_at m p s → bytes_at m q t → length s = length t → n = Z.of_nat (length s) →
  memcmp p q n m = Ok (compare s t, m).
Proof.
  intros Hp Hq Hs Ht Hl ->. unfold memcmp. erewrite bind_Ok by (by apply ASSERT_block_run).
  erewrite bind_Ok by (by apply ASSERT_block_run). rewrite Nat2Z.id. by apply memcmp_loop_run.
Qed.

Lemma memchr_run p bs c :
  p ≠ NULL → bytes_at m p bs →
  memchr p c (Z.of_nat (length bs)) m = Ok (first (λ x, x = u8 c) p bs, m).
Proof.
  intros Hp Hb. unfold memchr. erewrite bind_Ok by (by apply ASSERT_block_run). rewrite Nat2Z.id. clear Hp.
  revert p Hb. induction bs as [|b bs IH]; intros p Hb; [done|]. apply bytes_at_cons in Hb as [Hb Hbs].
  cbn [length memchr_loop]. erewrite bind_Ok by (by apply load_run). rewrite first_cons.
  case_decide; [done|]. by apply IH.
Qed.

Lemma find_sub_short needle p hay : (length hay < length needle)%nat → find_sub needle p hay = NULL.
Proof.
  revert p. induction hay as [|x hay IH]; intros p Hl; cbn [find_sub].
  - rewrite decide_False; [done|]. intros E. apply (f_equal length) in E. rewrite length_take in E. cbn in *. lia.
  - rewrite decide_False; [apply IH; cbn in Hl; lia|]. intros E. apply (f_equal length) in E.
    rewrite length_take in E. cbn in *. lia.
Qed.

Lemma strstr_loop_run n p q i hay needle :
  0 < p → 0 < q → 0 ≤ i → str_at m (p + i) hay → str_at m q needle →
  n = (length hay + 1 - length needle)%nat →
  strstr_loop n p q (Z.of_nat (length needle)) i m = Ok (find_sub needle (p + i) hay, m).
Proof.
  intros Hp Hq. revert hay i. induction n as [|n IH]; intros hay i Hi Hh Hn En; cbn [strstr_loop].
  - by rewrite find_sub_short by lia.
  - assert (bytes_at m (p + i) (take (length needle) hay)) as Htk.
    { destruct Hh as [Hh _]. rewrite <- (take_drop (length needle) hay) in Hh at 1.
      rewrite <- app_assoc in Hh. by apply bytes_at_app in Hh as [? _]. }
    destruct Hn as [Hn1 Hn2]. apply bytes_at_app in Hn1 as [Hn1 Hn3].
    erewrite bind_Ok.
    2:{ apply (memcmp_run _ _ (take (length needle) hay) needle); try done; [unfold NULL; lia..| |];
        rewrite length_take; lia. }
    destruct hay as [|x hay]; cbn [find_sub].
    + destruct needle; [done|cbn in En; lia].
    + apply str_at_cons in Hh as (_ & _ & Hh). destruct (decide (compare _ _ = 0)) as [E|E].
      * apply compare_zero in E. by rewrite decide_True by done.
      * rewrite decide_False by (rewrite <- compare_zero; done). rewrite <- Z.add_assoc in Hh |- *.
        apply IH; [lia|done|by split; [apply bytes_at_app|]|cbn in En; lia].
Qed.

Lemma strstr_run p q hay needle :
  0 < p → 0 < q → str_at m p hay → str_at m q needle →
  strstr p q m = Ok (find_sub needle p hay, m).
Proof.
  intros Hp Hq Hh Hn. unfold strstr.
  erewrite bind_Ok by (apply strlen_run; [unfold NULL; lia|done]).
  erewrite bind_Ok by (apply strlen_run; [unfold NULL; lia|done]). case_decide.
  - rewrite (strstr_loop_run _ p q 0 hay needle); try done; [by rewrite Z.add_0_r|by rewrite Z.add_0_r|lia].
  - by rewrite find_sub_short by lia.
Qed.

End Strings.

(** On null-terminated strings the functions that compare and search
    return, without leaving the strings, what the functions on lists
    return: [strlen] the length, [strcmp] the lexicographic comparison as
    unsigned characters, [strchr] and [strrchr] the first and the last
    occurrence (the terminator counts for [strchr]), [strspn] and [strcspn]
    the longest prefix inside or outside a set, [strpbrk] the first member
    of a set and [strstr] the first occurrence of a substring. *)
Theorem string_searches m p q s t c :
  0 < p → 0 < q → str_at m p s → str_at m q t → Forall (in_u 8) s → Forall (in_u 8) t →
  strlen p m = Ok (Z.of_nat (length s), m) ∧
  strcmp p q m = Ok (compare s t, m) ∧
  strchr p c m = Ok (first (λ x, x = u8 c) p (s ++ [0]), m) ∧
  strrchr p c m = Ok (last_of (u8 c) p s NULL, m) ∧
  strspn p q m = Ok (Z.of_nat (span (λ x, x ∈ t) s), m) ∧
  strcspn p q m = Ok (Z.of_nat (span (λ x, x ∉ t) s), m) ∧
  strpbrk p q m = Ok (first (λ x, x ∈ t) p s, m) ∧
  strstr p q m = Ok (find_sub t p s, m).
Proof.
  intros Hp Hq Hs Ht Hus Hut. assert (p ≠ NULL ∧ q ≠ NULL) as [Hp0 Hq0] by (unfold NULL; lia).
  pose proof (str_at_size _ _ _ Hs). split_and!.
  - by apply strlen_run.
  - unfold strcmp. erewrite bind_Ok by (by apply ASSERT_ptr_run). erewrite bind_Ok by (by apply ASSERT_ptr_run).
    by apply strcmp_loop_run.
  - by apply strchr_run.
  - by apply strrchr_loop_run.
  - by apply strspn_run.
  - by apply strcspn_run.
  - by apply strpbrk_loop_run.
  - by apply strstr_run.
Qed.

(** Two strings, [s] = 1 2 3 2 at 10 and [t] = 3 2 at 20. *)
Definition two_strings : mem := list_to_map [(10, 1); (11, 2); (12, 3); (13, 2); (14, 0); (20, 3); (21, 2); (22, 0)].

Lemma string_searches_witness :
  strlen 10 two_strings = Ok (4, two_strings) ∧
  strcmp 10 20 two_strings = Ok (-1, two_strings) ∧
  strchr 10 2 two_strings = Ok (11, two_strings) ∧
  strrchr 10 2 two_strings = Ok (13, two_strings) ∧
  strspn 10 20 two_strings = Ok (0, two_strings) ∧
  strcspn 10 20 two_strings = Ok (1, two_strings) ∧
  strpbrk 10 20 two_strings = Ok (11, two_strings) ∧
  strstr 10 20 two_strings = Ok (12, two_strings).
Proof.
  apply (string_searches two_strings 10 20 [1; 2; 3; 2] [3; 2] 2); try done.
  - rewrite !str_at_cons, str_at_nil. split_and!; (reflexivity || lia).
  - rewrite !str_at_cons, str_at_nil. split_and!; (reflexivity || lia).
  - repeat constructor; unfold in_u; lia.
  - repeat constructor; unfold in_u; lia.
Defined.

End CStringSpec.
