(* ===== verification/CStringEdit.v ===== *)
(** * Bounded copies and tokens (lib/string.c) *)

From S2P Require Import Prelude CMem CString CStringSpec.
Import CMem CString CStringSpec.

Module CStringEdit.

(** ** [strlcpy] and [strlcat] *)

(** Two ranges of addresses have no address in common. *)
Definition apart (p n q k : Z) : Prop := p + n ≤ q ∨ q + k ≤ p.

(** [memcpy] of a prefix, and the terminator behind it: what both functions
    do. *)
Lemma copy_terminated m dst src s k size :
  dst ≠ NULL → src ≠ NULL → str_at m src s → Forall (in_u 8) s → (k ≤ length s)%nat →
  Z.of_nat k < size → (∀ a, in_range dst size a → is_Some (m !! a)) →
  apart dst size src (Z.of_nat (length s) + 1) →
  ∃ m', (memcpy dst src (Z.of_nat k);; store (dst + Z.of_nat k) 0) m = Ok ((), m') ∧
        str_at m' dst (take k s) ∧ (∀ a, ¬ in_range dst (Z.of_nat k + 1) a → m' !! a = m !! a).
Proof.
  intros Hd0 Hs0 [Hs Hnz] Hu Hk Hsz Hm Hap. set (bs := take k s).
  assert (length bs = k) as Hl by (unfold bs; rewrite length_take; lia).
  assert (bytes_at m src bs) as Hb.
  { rewrite <- (take_drop k s), <- app_assoc in Hs. by apply bytes_at_app in Hs as [? _]. }
  exists (<[dst + Z.of_nat k := 0]> (write dst bs m)). split_and!.
  - erewrite bind_Ok.
    2:{ rewrite <- Hl. apply memcpy_run; try done.
        - intros a Ha. apply Hm. unfold in_range in *. lia.
        - unfold bs. by apply Forall_take.
        - unfold apart in Hap. lia. }
    rewrite store_run; [done|]. rewrite write_lookup_out by (unfold in_range; lia).
    apply Hm. unfold in_range. lia.
  - split; [|by apply Forall_take]. apply bytes_at_app. rewrite Hl. split.
    + eapply bytes_at_ext; [|apply write_bytes_at]. intros a Ha. unfold in_range in Ha.
      by rewrite lookup_insert_ne by lia.
    + apply bytes_at_cons. split; [apply lookup_insert_eq|apply bytes_at_nil].
  - intros a Ha. unfold in_range in Ha. rewrite lookup_insert_ne by lia.
    apply write_lookup_out. unfold in_range. lia.
Qed.

Lemma strlcpy_run m dst src s size :
  0 < dst → 0 < src → 0 < size → str_at m src s → Forall (in_u 8) s →
  (∀ a, in_range dst size a → is_Some (m !! a)) →
  apart dst size src (Z.of_nat (length s) + 1) →
  ∃ m', strlcpy dst src size m = Ok (Z.of_nat (length s), m') ∧
     str_at m' dst (take (Z.to_nat (size - 1)) s) ∧
     (∀ a, ¬ in_range dst (Z.min (Z.of_nat (length s) + 1) size) a → m' !! a = m !! a).
Proof.
  intros Hd Hs0 Hsz Hs Hu Hm Hap. assert (dst ≠ NULL ∧ src ≠ NULL) as [Hdn Hsn] by (unfold NULL; lia).
  unfold strlcpy. erewrite bind_Ok by (by apply ASSERT_ptr_run). erewrite bind_Ok by (by apply ASSERT_ptr_run).
  erewrite bind_Ok by (by apply strlen_run). rewrite decide_True by lia.
  set (k := Nat.min (length s) (Z.to_nat (size - 1))).
  destruct (copy_terminated m dst src s k size) as (m' & Hrun & Hstr & Hout); try done; [unfold k; lia..|].
  exists m'. split_and!.
  - erewrite bind_Ok; [done|]. cbv zeta.
    assert ((if decide (Z.of_nat (length s) < size - 1) then Z.of_nat (length s) else size - 1) = Z.of_nat k) as ->
      by (unfold k; case_decide; lia). exact Hrun.
  - enough (take (Z.to_nat (size - 1)) s = take k s) as -> by done.
    unfold k. destruct (Nat.min_spec (length s) (Z.to_nat (size - 1))) as [[? ->]|[? ->]]; [|done].
    by rewrite !take_ge by lia.
  - intros a Ha. apply Hout. unfold in_range, k in *. lia.
Qed.

(** [strlcpy] and [strlcat] never write outside the [size] bytes of
    their destination, leave it null-terminated with as much of the source
    as fits, and return the length the result would have had.  A
    destination that has no terminator within [size] is left alone by
    [strlcat]. *)
Theorem strlcpy_strlcat_bounded m dst src s size :
  0 < dst → 0 < src → 0 < size → str_at m src s → Forall (in_u 8) s →
  (∀ a, in_range dst size a → is_Some (m !! a)) →
  apart dst size src (Z.of_nat (length s) + 1) →
  (∃ m', strlcpy dst src size m = Ok (Z.of_nat (length s), m') ∧
     str_at m' dst (take (Z.to_nat (size - 1)) s) ∧
     (∀ a, ¬ in_range dst size a → m' !! a = m !! a)) ∧
  (∀ d, str_at m dst d →
   ∃ m', strlcat dst src size m = Ok (u32 (Z.of_nat (length s) + Z.of_nat (length d)), m') ∧
     str_at m' dst (if decide (Z.of_nat (length d) < size)
                    then d ++ take (Z.to_nat (size - Z.of_nat (length d) - 1)) s else d) ∧
     (∀ a, ¬ in_range dst size a → m' !! a = m !! a)).
Proof.
  intros Hd Hs0 Hsz Hs Hu Hm Hap. assert (dst ≠ NULL ∧ src ≠ NULL) as [Hdn Hsn] by (unfold NULL; lia). split.
  - destruct (strlcpy_run m dst src s size) as (m' & H1 & H2 & H3); try done. exists m'. split_and!; [done|done|].
    intros a Ha. apply H3. unfold in_range in *. lia.
  - intros d Hd'. unfold strlcat. erewrite bind_Ok by (by apply ASSERT_ptr_run).
    erewrite bind_Ok by (by apply ASSERT_ptr_run). erewrite bind_Ok by (by apply strlen_run).
    erewrite bind_Ok by (by apply strlen_run). set (n := length d) in *.
    destruct (decide (Z.of_nat n < size)) as [Hn|Hn].
    2:{ exists m. rewrite decide_False by lia. done. }
    rewrite decide_True by lia.
    set (k := Nat.min (length s) (Z.to_nat (size - Z.of_nat n - 1))).
    destruct (copy_terminated m (dst + Z.of_nat n) src s k (size - Z.of_nat n)) as (m' & Hrun & Hstr & Hout);
      try done; [unfold NULL; lia|unfold k; lia..| | |].
    { intros a Ha. apply Hm. unfold in_range in *. lia. }
    { unfold apart in *. lia. }
    exists m'. split_and!.
    + erewrite bind_Ok; [done|]. cbv zeta.
      assert ((if decide (Z.of_nat (length s) < size - Z.of_nat n - 1) then Z.of_nat (length s)
               else size - Z.of_nat n - 1) = Z.of_nat k) as -> by (unfold k; case_decide; lia). exact Hrun.
    + enough (take (Z.to_nat (size - Z.of_nat n - 1)) s = take k s) as ->.
      { destruct Hd' as [Hb Hnz], Hstr as [Hb' Hnz']. split; [|by apply Forall_app]. rewrite <- app_assoc.
        apply bytes_at_app. split; [|done]. apply bytes_at_app in Hb as [Hb _].
        eapply bytes_at_ext; [|exact Hb]. intros a Ha. apply Hout. unfold in_range in *. lia. }
      unfold k. destruct (Nat.min_spec (length s) (Z.to_nat (size - Z.of_nat n - 1))) as [[? ->]|[? ->]]; [|done].
      by rewrite !take_ge by lia.
    + intros a Ha. apply Hout. unfold in_range, k in *. lia.
Qed.

(** Into eight bytes at 30: the string 1 2 3 2, and it again behind a copy. *)
Definition with_buffer : mem := list_to_map ([(10, 1); (11, 2); (12, 3); (13, 2); (14, 0)] ++
  ((λ i, (30 + i, 0)) <$> seqZ 0 8)).

Lemma strlcpy_strlcat_bounded_witness :
  (∃ m', strlcpy 30 10 4 with_buffer = Ok (4, m') ∧ str_at m' 30 [1; 2; 3] ∧
     (∀ a, ¬ in_range 30 4 a → m' !! a = with_buffer !! a)).
Proof.
  apply (strlcpy_strlcat_bounded with_buffer 30 10 [1; 2; 3; 2] 4); try lia.
  - rewrite !str_at_cons, str_at_nil. split_and!; (reflexivity || lia).
  - repeat constructor; unfold in_u; lia.
  - intros a [H1 H2]. assert (a = 30 ∨ a = 31 ∨ a = 32 ∨ a = 33) as [->|[->|[->| ->]]] by lia; by eexists.
  - right. cbn. lia.
Defined.

(** ** [strtok_r] *)

(** The tokens of [s]: the maximal runs of characters that are not in [d]. *)
Fixpoint tokens_from (d cur s : list Z) : list (list Z) :=
  match s with
  | [] => if decide (cur = []) then [] else [cur]
  | x :: s =>
      if decide (x ∈ d) then
        if decide (cur = []) then tokens_from d [] s else cur :: tokens_from d [] s
      else tokens_from d (cur ++ [x]) s
  end.
Definition tokens (d s : list Z) : list (list Z) := tokens_from d [] s.

(** The first token, and what is left. *)
Definition leading (d s : list Z) : nat := span (λ x, x ∈ d) s.
Definition token_len (d s : list Z) : nat := span (λ x, x ∉ d) s.

Lemma span_le P `{!∀ x, Decision (P x)} s : (span P s ≤ length s)%nat.
Proof. induction s as [|x s IH]; cbn; [lia|]. case_decide; lia. Qed.

Lemma span_stop P `{!∀ x, Decision (P x)} s x : s !! span P s = Some x → ¬ P x.
Proof. induction s as [|y s IH]; cbn; [done|]. case_decide; cbn; [auto|by intros [= ->]]. Qed.

Lemma span_take P `{!∀ x, Decision (P x)} s : Forall P (take (span P s) s).
Proof. induction s as [|y s IH]; cbn; [constructor|]. case_decide; [by constructor|constructor]. Qed.

Lemma tokens_from_app d cur s :
  cur ≠ [] →
  tokens_from d cur s = (cur ++ take (token_len d s) s) :: tokens d (drop (S (token_len d s)) s).
Proof.
  unfold token_len, tokens. revert cur. induction s as [|x s IH]; intros cur Hc; cbn [tokens_from span].
  - rewrite decide_False by done. cbn. by rewrite app_nil_r.
  - destruct (decide (x ∈ d)).
    + rewrite (decide_False (P := cur = [])), (decide_False (P := x ∉ d)) by naive_solver. cbn. by rewrite app_nil_r.
    + rewrite (decide_True (P := x ∉ d)) by done. rewrite IH by (by destruct cur). cbn.
      by rewrite <- app_assoc.
Qed.

Lemma tokens_step d s :
  tokens d s = match drop (leading d s) s with
               | [] => []
               | s' => take (token_len d s') s' :: tokens d (drop (S (token_len d s')) s')
               end.
Proof.
  unfold tokens, leading. induction s as [|x s IH]; [done|]. cbn [tokens_from span].
  destruct (decide (x ∈ d)); [rewrite decide_True by done; exact IH|]. cbn [drop].
  rewrite tokens_from_app by done. unfold token_len, tokens. cbn [span].
  by rewrite (decide_True (P := x ∉ d)) by done.
Qed.

Section Strtok.
Context (q : Z) (d : list Z).
Hypothesis Hq : 0 < q.

Lemma skip_delimiters_run m n p s :
  str_at m q d → str_at m p s → Forall (in_u 8) s → (length s < n)%nat →
  skip_delimiters n p q m =
    Ok ((p + Z.of_nat (leading d s), bool_decide (drop (leading d s) s ≠ [])), m).
Proof.
  intros Hd. revert p s. induction n as [|n IH]; intros p s Hs Hu Hn; [lia|]. cbn [skip_delimiters].
  unfold leading. destruct s as [|b s]; rewrite ?str_at_nil, ?str_at_cons in Hs.
  - erewrite bind_Ok by (by apply load_run).
    destruct (strchr_member m q d 0 Hq Hd) as (r & Hr & Hrn); [unfold in_u; lia|].
    erewrite bind_Ok by exact Hr. rewrite elem_of_app, list_elem_of_singleton in Hrn.
    rewrite decide_False, decide_True by naive_solver. cbn. by rewrite Z.add_0_r.
  - destruct Hs as (Hb & Hb0 & Hs). apply Forall_cons in Hu as [Hub Hu].
    erewrite bind_Ok by (by apply load_run).
    destruct (strchr_member m q d b Hq Hd Hub) as (r & Hr & Hrn).
    erewrite bind_Ok by exact Hr. rewrite elem_of_app, list_elem_of_singleton in Hrn. cbn [span].
    destruct (decide (b ∈ d)).
    + rewrite decide_False by naive_solver. rewrite decide_False by done. cbn in Hn.
      rewrite (IH _ s) by (done || lia). cbn [drop]. unfold leading. do 3 f_equal. lia.
    + rewrite decide_True by naive_solver. cbn. by rewrite Z.add_0_r.
Qed.

Lemma skip_token_run m n p s :
  str_at m q d → str_at m p s → Forall (in_u 8) s → (length s < n)%nat →
  skip_token n p q m = Ok (p + Z.of_nat (token_len d s), m).
Proof.
  intros Hd. revert p s. induction n as [|n IH]; intros p s Hs Hu Hn; [lia|]. cbn [skip_token].
  unfold token_len. destruct s as [|b s]; rewrite ?str_at_nil, ?str_at_cons in Hs.
  - erewrite bind_Ok by (by apply load_run).
    destruct (strchr_member m q d 0 Hq Hd) as (r & Hr & Hrn); [unfold in_u; lia|].
    erewrite bind_Ok by exact Hr. rewrite elem_of_app, list_elem_of_singleton in Hrn.
    rewrite decide_False by naive_solver. cbn. by rewrite Z.add_0_r.
  - destruct Hs as (Hb & Hb0 & Hs). apply Forall_cons in Hu as [Hub Hu].
    erewrite bind_Ok by (by apply load_run).
    destruct (strchr_member m q d b Hq Hd Hub) as (r & Hr & Hrn).
    erewrite bind_Ok by exact Hr. rewrite elem_of_app, list_elem_of_singleton in Hrn. cbn [span].
    destruct (decide (b ∈ d)) as [Hin|Hin].
    + rewrite decide_False by naive_solver. rewrite decide_False by naive_solver. cbn. by rewrite Z.add_0_r.
    + rewrite decide_True by naive_solver. rewrite decide_True by done. cbn in Hn.
      rewrite (IH _ s) by (done || lia). unfold token_len. do 2 f_equal. lia.
Qed.

(** Cutting a string off after [n] characters. *)
Lemma cut_string m p s n x :
  str_at m p s → s !! n = Some x →
  let m' := <[p + Z.of_nat n := 0]> m in
  str_at m' p (take n s) ∧ str_at m' (p + Z.of_nat n + 1) (drop (S n) s).
Proof.
  intros Hs Hx m'. pose proof (lookup_lt_Some _ _ _ Hx) as Hn. split.
  - destruct Hs as [Hb Hnz]. split; [|by apply Forall_take]. apply bytes_at_app.
    rewrite length_take. replace (n `min` length s)%nat with n by lia. split.
    + rewrite <- (take_drop n s), <- app_assoc in Hb. apply bytes_at_app in Hb as [Hb _].
      eapply bytes_at_ext; [|exact Hb]. rewrite length_take. unfold in_range. intros a Ha.
      unfold m'. by rewrite lookup_insert_ne by lia.
    + apply bytes_at_cons. split; [apply lookup_insert_eq|apply bytes_at_nil].
  - replace (p + Z.of_nat n + 1) with (p + Z.of_nat (S n)) by lia.
    eapply str_at_ext; [|apply str_at_drop; [exact Hs|lia]]. unfold in_range. intros a Ha.
    unfold m'. by rewrite lookup_insert_ne by lia.
Qed.

(** The call up to the search for the end of the token. *)
Lemma strtok_r_start m s p save str :
  (if decide (s = NULL) then save else s) = p → 0 < p →
  str_at m q d → str_at m p str → Forall (in_u 8) str →
  let token := p + Z.of_nat (leading d str) in
  strtok_r s q save m =
    (if negb (bool_decide (drop (leading d str) str ≠ [])) then mret (NULL, token) else
     s ← bounded (λ n, skip_token n token q); x ← load s;
     if decide (x ≠ 0) then store s 0;; mret (token, s + 1) else mret (token, s)) m.
Proof.
  intros Es Hp Hd Hs Hu token. unfold strtok_r.
  erewrite bind_Ok by (apply ASSERT_ptr_run; unfold NULL; lia). rewrite Es.
  erewrite bind_Ok by (apply ASSERT_ptr_run; unfold NULL; lia).
  by erewrite bind_Ok by (apply skip_delimiters_run; [done..|by eapply str_at_size]).
Qed.

(** One call that finds a token: it is cut off from the rest. *)
Lemma strtok_r_token m s p save str :
  (if decide (s = NULL) then save else s) = p → 0 < p →
  str_at m q d → str_at m p str → Forall (in_u 8) str →
  let str' := drop (leading d str) str in
  let token := p + Z.of_nat (leading d str) in
  let n := token_len d str' in
  str' ≠ [] →
  ∃ m' save', strtok_r s q save m = Ok ((token, save'), m') ∧
    str_at m' token (take n str') ∧ str_at m' save' (drop (S n) str') ∧
    token + Z.of_nat n ≤ save' ∧ save' + Z.of_nat (length (drop (S n) str')) = p + Z.of_nat (length str) ∧
    (∀ a, ¬ in_range token (Z.of_nat (length str')) a → m' !! a = m !! a).
Proof.
  intros Es Hp Hd Hs Hu str' token n Hne.
  rewrite (strtok_r_start m s p save str Es Hp Hd Hs Hu). fold str' token.
  pose proof (span_le (λ x, x ∈ d) str) as Hle. fold (leading d str) in Hle.
  pose proof (span_le (λ x, x ∉ d) str') as Hln. fold (token_len d str') in Hln. fold n in Hln.
  assert (str_at m token str') as Hs' by (by apply str_at_drop).
  assert (Forall (in_u 8) str') as Hu' by (by apply Forall_drop).
  assert (length str' = length str - leading d str)%nat as Hlen by apply length_drop.
  rewrite bool_decide_true by done. cbn [negb].
  erewrite bind_Ok by (apply skip_token_run; [done..|by eapply str_at_size]). fold n.
  destruct (str' !! n) as [x|] eqn:Ex.
  - assert (m !! (token + Z.of_nat n) = Some x ∧ x ≠ 0) as [Hx Hx0].
    { destruct Hs' as [Hb Hnz]. split; [apply Hb; by apply lookup_app_l_Some|by eapply Forall_lookup_1 in Hnz]. }
    pose proof (lookup_lt_Some _ _ _ Ex).
    erewrite bind_Ok by (by apply load_run). rewrite decide_True by done.
    erewrite bind_Ok by (apply store_run; eauto). destruct (cut_string m token str' n x Hs' Ex) as [H1 H2].
    eexists _, _. split_and!; [done|done|done|lia|rewrite length_drop; lia|].
    intros a Ha. unfold in_range in Ha. by rewrite lookup_insert_ne by lia.
  - apply lookup_ge_None in Ex. assert (n = length str') as En by lia.
    assert (m !! (token + Z.of_nat n) = Some 0) as Hx.
    { destruct Hs' as [Hb _]. rewrite En. apply bytes_at_app in Hb as [_ Hb]. by apply bytes_at_cons in Hb as [? _]. }
    erewrite bind_Ok by (by apply load_run). rewrite decide_False by tauto.
    eexists _, _. rewrite take_ge, drop_ge by lia. split_and!; [done|done|by apply str_at_nil|lia|cbn; lia|done].
Qed.

(** The loop of the function's comment: all tokens of a string. *)
Fixpoint tokenize (fuel : nat) (s save : Z) : C (list Z) :=
  match fuel with
  | O => fail NoFuel
  | S fuel =>
      r ← strtok_r s q save;
      if decide (r.1 = NULL) then mret [] else ts ← tokenize fuel NULL r.2; mret (r.1 :: ts)
  end.

Lemma tokenize_run n m s save p str :
  (if decide (s = NULL) then save else s) = p → 0 < p →
  str_at m q d → str_at m p str → Forall (in_u 8) str →
  apart p (Z.of_nat (length str) + 1) q (Z.of_nat (length d) + 1) → (length str < n)%nat →
  ∃ m' ts, tokenize n s save m = Ok (ts, m') ∧ Forall2 (str_at m') ts (tokens d str) ∧
    (∀ a, ¬ in_range p (Z.of_nat (length str)) a → m' !! a = m !! a).
Proof.
  revert m s save p str. induction n as [|n IH]; intros m s save p str Es Hp Hd Hs Hu Hap Hn; [lia|].
  cbn [tokenize]. pose proof (span_le (λ x, x ∈ d) str) as Hle. fold (leading d str) in Hle.
  rewrite tokens_step. destruct (drop (leading d str) str) as [|b str''] eqn:E.
  - erewrite bind_Ok.
    2:{ rewrite (strtok_r_start m s p save str Es Hp Hd Hs Hu). rewrite E. done. }
    rewrite decide_True by done. eexists _, _. split_and!; [done|constructor|done].
  - destruct (strtok_r_token m s p save str Es Hp Hd Hs Hu) as (m1 & save1 & Hrun & Ht & Hr & Hge & Hlen & Hout);
      [by rewrite E|]. pose proof (length_drop str (leading d str)) as Hl'.
    assert (Forall (in_u 8) (drop (leading d str) str)) as Hu' by (by apply Forall_drop). rewrite E in *. clear E.
    set (str' := b :: str'') in *. set (token := p + Z.of_nat (leading d str)) in *.
    set (k := token_len d str') in *. set (rest := drop (S k) str') in *.
    assert (length rest = length str' - S k)%nat as Hlr by apply length_drop.
    assert (0 < length str')%nat as Hpos by (cbn; lia).
    assert (k ≤ length str')%nat as Hk by apply span_le.
    erewrite bind_Ok by exact Hrun. cbn [fst snd]. rewrite decide_False by (unfold NULL; lia).
    destruct (IH m1 NULL save1 save1 rest) as (m2 & ts & Hrun2 & Hts & Hout2).
    + by rewrite decide_True.
    + lia.
    + eapply str_at_ext; [|exact Hd]. unfold apart, in_range in *. intros a Ha. apply Hout. unfold in_range. lia.
    + done.
    + by apply Forall_drop.
    + unfold apart in *. lia.
    + lia.
    + erewrite bind_Ok by exact Hrun2. eexists _, _. split_and!; [done| |].
      * constructor; [|done]. eapply str_at_ext; [|exact Ht]. rewrite length_take. unfold in_range.
        intros a Ha. apply Hout2. unfold in_range. lia.
      * intros a Ha. unfold in_range in Ha. rewrite Hout2, Hout; [done|unfold in_range; lia..].
Qed.

End Strtok.

(** C37: Calling [strtok_r] until it returns a null pointer yields the
    tokens of the string, the maximal runs of characters that are not
    delimiters, each as a null-terminated string in place; the bytes around
    the string stay as they are. *)
Theorem strtok_r_tokens m p q s d :
  0 < p → 0 < q → str_at m p s → str_at m q d → Forall (in_u 8) s →
  apart p (Z.of_nat (length s) + 1) q (Z.of_nat (length d) + 1) →
  ∃ m' ts, tokenize q (S (length s)) p NULL m = Ok (ts, m') ∧ Forall2 (str_at m') ts (tokens d s) ∧
    (∀ a, ¬ in_range p (Z.of_nat (length s)) a → m' !! a = m !! a).
Proof.
  intros Hp Hq Hs Hd Hu Hap. apply (tokenize_run q d Hq _ m p NULL p s); try done; [|lia].
  rewrite decide_False; [done|unfold NULL; lia].
Qed.

(** The string 9 1 2 9 9 3, with 9 as delimiter. *)
Definition spaced : mem := list_to_map
  [(10, 9); (11, 1); (12, 2); (13, 9); (14, 9); (15, 3); (16, 0); (20, 9); (21, 0)].

Lemma strtok_r_tokens_witness :
  tokens [9] [9; 1; 2; 9; 9; 3] = [[1; 2]; [3]] ∧
  ∃ m' ts, tokenize 20 7 10 NULL spaced = Ok (ts, m') ∧
    Forall2 (str_at m') ts (tokens [9] [9; 1; 2; 9; 9; 3]) ∧
    (∀ a, ¬ in_range 10 6 a → m' !! a = spaced !! a).
Proof.
  split; [reflexivity|]. apply (strtok_r_tokens spaced 10 20 [9; 1; 2; 9; 9; 3] [9]); try lia.
  - rewrite !str_at_cons, str_at_nil. split_and!; (reflexivity || lia).
  - rewrite !str_at_cons, str_at_nil. split_and!; (reflexivity || lia).
  - repeat constructor; unfold in_u; lia.
  - left. cbn. lia.
Defined.

End CStringEdit.
