(* ===== verification/StdLib.v ===== *)
(** * Conversion, sorting and searching (lib/stdlib.c, lib/ctype.h)

    The array functions work on byte memory; the comparison function is a
    parameter, a computation on two addresses.  A signed overflow in
    [atoi] is undefined behaviour. *)

From S2P Require Import Prelude CMem.
Import CMem.

Module StdLib.

(** ** Character classes *)

Definition between (a b c : Z) : bool := bool_decide (a ≤ c) && bool_decide (c ≤ b).
Definition islower (c : Z) : bool := between 97 122 c.
Definition isupper (c : Z) : bool := between 65 90 c.
Definition isalpha (c : Z) : bool := islower c || isupper c.
Definition isdigit (c : Z) : bool := between 48 57 c.
Definition isalnum (c : Z) : bool := isalpha c || isdigit c.
Definition isxdigit (c : Z) : bool := isdigit c || between 97 102 c || between 65 70 c.
Definition isspace (c : Z) : bool := bool_decide (c ∈ [32; 12; 10; 13; 9; 11]).
Definition isblank (c : Z) : bool := bool_decide (c ∈ [32; 9]).
Definition isgraph (c : Z) : bool := between 33 126 c.
Definition isprint (c : Z) : bool := between 32 126 c.
Definition iscntrl (c : Z) : bool := between 0 31 c || bool_decide (c = 127).
Definition isascii (c : Z) : bool := between 0 127 c.
Definition ispunct (c : Z) : bool := isprint c && negb (isalnum c) && negb (isspace c).
Definition tolower (c : Z) : Z := if isupper c then c - 65 + 97 else c.
Definition toupper (c : Z) : Z := if islower c then c - 97 + 65 else c.

(** ** [atoi] *)

(** An [int] expression: its value must be in range. *)
Definition int_value (z : Z) : C Z := if decide (in_s 32 z) then mret z else fail Undef.

Fixpoint skip_space (fuel : nat) (s : Z) : C Z :=
  match fuel with
  | O => fail NoFuel
  | S fuel => c ← load s; if isspace c then skip_space fuel (s + 1) else mret s
  end.

(** The loop over the digits; the value is built up negative. *)
Fixpoint parse_digits (fuel : nat) (s value : Z) : C Z :=
  match fuel with
  | O => fail NoFuel
  | S fuel =>
      c ← load s;
      if isdigit c then
        ten ← int_value (value * 10);
        value ← int_value (ten - (c - 48));
        parse_digits fuel (s + 1) value
      else mret value
  end.

Definition atoi (s : Z) : C Z :=
  ASSERT (bool_decide (s ≠ NULL));;
  s ← bounded (λ n, skip_space n s);
  c ← load s;
  let negative := bool_decide (c = 45) in
  let s := if decide (c = 43 ∨ c = 45) then s + 1 else s in
  value ← bounded (λ n, parse_digits n s 0);
  if (negative : bool) then mret value else int_value (- value).

(** ** Sorting and searching *)

Section Arrays.
Context (compare : Z → Z → C Z).

(** [for (i = 0; i < size; i++)], with [n] rounds left. *)
Fixpoint swap_loop (n : nat) (a b i : Z) : C unit :=
  match n with
  | O => mret ()
  | S n =>
      t ← load (a + i); x ← load (b + i);
      store (a + i) x;; store (b + i) t;; swap_loop n a b (i + 1)
  end.
Definition do_swap (array a_idx b_idx size : Z) : C unit :=
  swap_loop (Z.to_nat size) (array + (a_idx - 1) * size) (array + (b_idx - 1) * size) 0.

Definition do_compare (array a_idx b_idx size : Z) : C Z :=
  compare (array + (a_idx - 1) * size) (array + (b_idx - 1) * size).

(** The larger of [max] and the child [child], if there is one. *)
Definition pick (array cnt size child max : Z) : C Z :=
  if decide (child ≤ cnt) then
    r ← do_compare array child max size; mret (if decide (0 < r) then child else max)
  else mret max.

Fixpoint heapify_loop (fuel : nat) (array i cnt size : Z) : C unit :=
  match fuel with
  | O => fail NoFuel
  | S fuel =>
      let left := u32 (2 * i) in
      let right := u32 (2 * i + 1) in
      max ← pick array cnt size left i;
      max ← pick array cnt size right max;
      if decide (max = i) then mret ()
      else do_swap array i max size;; heapify_loop fuel array max cnt size
  end.
(** The index at least doubles in every round. *)
Definition heapify (array i cnt size : Z) : C unit :=
  heapify_loop (S (Z.to_nat cnt)) array i cnt size.

(** [for (i = cnt / 2; i > 0; i--)] *)
Fixpoint build_loop (i : nat) (array cnt size : Z) : C unit :=
  match i with
  | O => mret ()
  | S i' => heapify array (Z.of_nat i) cnt size;; build_loop i' array cnt size
  end.
(** [for (i = cnt; i > 1; i--)] *)
Fixpoint sort_loop (i : nat) (array size : Z) : C unit :=
  match i with
  | O | S O => mret ()
  | S i' =>
      do_swap array 1 (Z.of_nat i) size;;
      heapify array 1 (Z.of_nat i - 1) size;; sort_loop i' array size
  end.
Definition sort (array cnt size : Z) : C unit :=
  ASSERT (bool_decide (array ≠ NULL) || bool_decide (cnt = 0));;
  ASSERT (bool_decide (0 < size));;
  build_loop (Z.to_nat (cnt / 2)) array cnt size;;
  sort_loop (Z.to_nat cnt) array size.

Fixpoint search_loop (fuel : nat) (key first last size : Z) : C Z :=
  match fuel with
  | O => fail NoFuel
  | S fuel =>
      if decide (first < last) then
        let range := (last - first) / size in
        let middle := first + range / 2 * size in
        cmp ← compare key middle;
        if decide (cmp < 0) then search_loop fuel key first middle size
        else if decide (0 < cmp) then search_loop fuel key (middle + size) last size
        else mret middle
      else mret NULL
  end.
(** The range loses an element in every round. *)
Definition binary_search (key array cnt size : Z) : C Z :=
  search_loop (S (Z.to_nat cnt)) key array (array + size * cnt) size.

End Arrays.

(** [compare_thunk] calls the function it is given. *)
Definition compare_thunk (a b : Z) (compare : Z → Z → C Z) : C Z := compare a b.
Definition qsort (array cnt size : Z) (compare : Z → Z → C Z) : C unit :=
  sort (λ a b, compare_thunk a b compare) array cnt size.
Definition bsearch (key array cnt size : Z) (compare : Z → Z → C Z) : C Z :=
  binary_search (λ a b, compare_thunk a b compare) key array cnt size.

End StdLib.
