(* ===== verification/StdLibSort.v ===== *)
(** * Heap sort sorts, binary search finds (lib/stdlib.c) *)

From S2P Require Import Prelude CMem StdLib.
Import CMem StdLib.

Module StdLibSort.

(** ** Arrays of elements *)

(** The elements [es], [size] bytes each, are at [array]. *)
Definition array_at (size : Z) (m : mem) (array : Z) (es : list (list Z)) : Prop :=
  ∀ i e, es !! i = Some e → bytes_at m (array + Z.of_nat i * size) e ∧ Z.of_nat (length e) = size ∧
                            Forall (in_u 8) e.

(** Elements by their 1-based index. *)
Definition elt (es : list (list Z)) (i : Z) : list Z := es !!! Z.to_nat (i - 1).
Definition valid (es : list (list Z)) (i : Z) : Prop := 1 ≤ i ≤ Z.of_nat (length es).

Definition exchange (es : list (list Z)) (a b : Z) : list (list Z) :=
  <[Z.to_nat (a - 1) := elt es b]> (<[Z.to_nat (b - 1) := elt es a]> es).

Lemma elt_lookup es i : valid es i → es !! Z.to_nat (i - 1) = Some (elt es i).
Proof. unfold valid, elt. intros H. apply list_lookup_lookup_total_lt. lia. Qed.

Lemma exchange_valid es a b i : valid (exchange es a b) i ↔ valid es i.
Proof. unfold valid, exchange. by rewrite !length_insert. Qed.

Lemma exchange_length es a b : length (exchange es a b) = length es.
Proof. unfold exchange. by rewrite !length_insert. Qed.

Lemma elt_exchange es a b i :
  valid es a → valid es b → valid es i →
  elt (exchange es a b) i = if decide (i = a) then elt es b else if decide (i = b) then elt es a else elt es i.
Proof.
  unfold valid, elt, exchange. intros Ha Hb Hi. repeat case_decide; subst.
  - by rewrite list_lookup_total_insert_eq by (rewrite length_insert; lia).
  - rewrite list_lookup_total_insert_ne by lia. by rewrite list_lookup_total_insert_eq by lia.
  - rewrite !list_lookup_total_insert_ne by lia. done.
Qed.

Lemma exchange_perm es a b : valid es a → valid es b → exchange es a b ≡ₚ es.
Proof. intros Ha Hb. apply Permutation_insert_swap; by apply elt_lookup. Qed.

(** ** Swapping in memory *)

Lemma swap_loop_run xs ys m a b i :
  bytes_at m (a + i) xs → bytes_at m (b + i) ys → length xs = length ys →
  Forall (in_u 8) xs → Forall (in_u 8) ys →
  a + i + Z.of_nat (length xs) ≤ b + i ∨ b + i + Z.of_nat (length xs) ≤ a + i →
  swap_loop (length xs) a b i m = Ok ((), write (a + i) ys (write (b + i) xs m)).
Proof.
  revert ys m i. induction xs as [|x xs IH]; intros [|y ys] m i Hx Hy Hl Hux Huy Hap; try done.
  apply bytes_at_cons in Hx as [Hx Hxs]. apply bytes_at_cons in Hy as [Hy Hys].
  apply Forall_cons in Hux as [Hux Huxs]. apply Forall_cons in Huy as [Huy Huys]. cbn [length swap_loop] in *.
  erewrite bind_Ok by (by apply load_run). erewrite bind_Ok by (by apply load_run).
  erewrite bind_Ok by (apply store_run; eauto). rewrite (wrapu_id _ y) by done.
  erewrite bind_Ok by (apply store_run, lookup_insert_is_Some'; eauto). rewrite (wrapu_id _ x) by done.
  rewrite <- !Z.add_assoc in Hxs, Hys. rewrite (IH ys); try done.
  - cbn [write]. rewrite !Z.add_assoc. do 2 f_equal.
    rewrite (write_insert (b + i + 1)) by (unfold in_range; lia).
    rewrite (write_insert (a + i + 1)) by (unfold in_range; lia).
    rewrite (write_insert (b + i + 1)) by (unfold in_range; lia).
    rewrite !(write_insert (a + i + 1)) by (unfold in_range; lia).
    apply insert_insert_ne. lia.
  - eapply bytes_at_ext; [|exact Hxs]. unfold in_range. intros c Hc. by rewrite !lookup_insert_ne by lia.
  - eapply bytes_at_ext; [|exact Hys]. unfold in_range. intros c Hc. by rewrite !lookup_insert_ne by lia.
  - lia.
  - lia.
Qed.

(** Bytes outside the array do not change. *)
Definition frame (size : Z) (array : Z) (n : nat) (m m' : mem) : Prop :=
  ∀ a, ¬ in_range array (Z.of_nat n * size) a → m' !! a = m !! a.

Lemma do_swap_run size m array es a b :
  0 < size → array_at size m array es → valid es a → valid es b → a ≠ b →
  ∃ m', do_swap array a b size m = Ok ((), m') ∧ array_at size m' array (exchange es a b) ∧
        frame size array (length es) m m'.
Proof.
  intros Hsz Hes Ha Hb Hab. pose proof (elt_lookup es a Ha) as Ea. pose proof (elt_lookup es b Hb) as Eb.
  destruct (Hes _ _ Ea) as (Hxa & Hla & Hua), (Hes _ _ Eb) as (Hxb & Hlb & Hub). unfold valid in *.
  rewrite Z2Nat.id in Hxa, Hxb by lia. set (pa := array + (a - 1) * size) in *. set (pb := array + (b - 1) * size) in *.
  assert (pa + size ≤ pb ∨ pb + size ≤ pa) as Hap by (unfold pa, pb; nia).
  set (xs := elt es a) in *. set (ys := elt es b) in *.
  exists (write pa ys (write pb xs m)). split_and!.
  - unfold do_swap. fold pa pb. rewrite <- Hla, Nat2Z.id.
    pose proof (swap_loop_run xs ys m pa pb 0) as H. rewrite !Z.add_0_r in H. apply H; try done; lia.
  - intros j e Hj. unfold exchange in Hj.
    assert (j < length es)%nat as Hlt by (apply lookup_lt_Some in Hj; by rewrite !length_insert in Hj).
    destruct (decide (j = Z.to_nat (a - 1))) as [->|Hja].
    { rewrite list_lookup_insert_eq in Hj by (rewrite length_insert; lia). injection Hj as <-.
      rewrite Z2Nat.id by lia. split_and!; [apply write_bytes_at|done|done]. }
    rewrite list_lookup_insert_ne in Hj by done. destruct (decide (j = Z.to_nat (b - 1))) as [->|Hjb].
    { rewrite list_lookup_insert_eq in Hj by lia. injection Hj as <-.
      rewrite Z2Nat.id by lia. split_and!; [|done|done]. eapply bytes_at_ext; [|apply write_bytes_at].
      intros c Hc. apply write_lookup_out. fold pb xs in Hc. unfold in_range in *. lia. }
    rewrite list_lookup_insert_ne in Hj by done. destruct (Hes _ _ Hj) as (H1 & H2 & H3). split_and!; [|done|done].
    eapply bytes_at_ext; [|exact H1]. unfold in_range. intros c Hc.
    assert (Z.of_nat j ≠ a - 1 ∧ Z.of_nat j ≠ b - 1) as [? ?] by lia.
    rewrite !write_lookup_out; [done|unfold in_range, pb in *; nia|unfold in_range, pa in *; nia].
  - intros c Hc. unfold in_range in Hc. rewrite !write_lookup_out; [done|unfold in_range, pb in *; nia|unfold in_range, pa in *; nia].
Qed.

(** ** Comparison *)

(** A [strcmp]-type function: a total preorder. *)
Class CompareOrder (cmp : list Z → list Z → Z) : Prop := {
  cmp_total x y : 0 < cmp x y → cmp y x ≤ 0;
  cmp_trans x y z : cmp x y ≤ 0 → cmp y z ≤ 0 → cmp x z ≤ 0;
}.

Section Sort.
Context (compare : Z → Z → C Z) (cmp : list Z → list Z → Z) (size : Z).
Context `{!CompareOrder cmp}.
Hypothesis Hsize : 0 < size.

(** The comparison function reads two elements and changes nothing. *)
Hypothesis Hcompare : ∀ m p q x y, bytes_at m p x → bytes_at m q y →
  Z.of_nat (length x) = size → Z.of_nat (length y) = size → compare p q m = Ok (cmp x y, m).

Notation le x y := (cmp x y ≤ 0).

Lemma le_refl x : le x x.
Proof. destruct (Z.le_gt_cases (cmp x x) 0) as [?|H]; [done|]. apply cmp_total in H. lia. Qed.

Lemma do_compare_run m array es a b :
  array_at size m array es → valid es a → valid es b →
  do_compare compare array a b size m = Ok (cmp (elt es a) (elt es b), m).
Proof.
  intros Hes Ha Hb. destruct (Hes _ _ (elt_lookup es a Ha)) as (H1 & H2 & _).
  destruct (Hes _ _ (elt_lookup es b Hb)) as (H3 & H4 & _). unfold valid in *.
  rewrite Z2Nat.id in H1, H3 by lia. by apply Hcompare.
Qed.

(** ** Heaps *)

(** [c] is a child of [i]. *)
Definition child (i c : Z) : Prop := c = 2 * i ∨ c = 2 * i + 1.

(** Among the first [cnt] elements, those from [k] on, except [h], are not
    smaller than their children; nor is the parent of [h] smaller than the
    children of [h]. *)
Record sifting (es : list (list Z)) (k h cnt : Z) : Prop := {
  sift_heap i c : k ≤ i → i ≠ h → child i c → c ≤ cnt → le (elt es c) (elt es i);
  sift_hole i c : k ≤ i → child i h → child h c → c ≤ cnt → le (elt es c) (elt es i);
}.

Definition heap (es : list (list Z)) (k cnt : Z) : Prop :=
  ∀ i c, k ≤ i → child i c → c ≤ cnt → le (elt es c) (elt es i).

Lemma pick_run m array es cnt c max :
  array_at size m array es → 0 < c → cnt ≤ Z.of_nat (length es) → valid es max →
  ∃ r, pick compare array cnt size c max m = Ok (r, m) ∧ (r = max ∨ r = c ∧ c ≤ cnt) ∧
       le (elt es max) (elt es r) ∧ (c ≤ cnt → le (elt es c) (elt es r)).
Proof.
  intros Hes Hc Hcnt Hmax. unfold pick. case_decide as Hle.
  - erewrite bind_Ok by (apply (do_compare_run m array es); [done|unfold valid; lia|done]).
    eexists. split; [done|]. case_decide as Hr.
    + split_and!; [auto|by apply cmp_total|intros _; apply le_refl].
    + split_and!; [auto|apply le_refl|lia].
  - exists max. split_and!; [done|auto|apply le_refl|done].
Qed.

(** What sifting down does to an array. *)
Record sifted (es es' : list (list Z)) (k cnt : Z) : Prop := {
  sifted_heap : heap es' k cnt;
  sifted_perm : es' ≡ₚ es;
  sifted_rest j : cnt < j → valid es j → elt es' j = elt es j;
  sifted_all (P : list Z → Prop) :
    (∀ j, 1 ≤ j ≤ cnt → P (elt es j)) → ∀ j, 1 ≤ j ≤ cnt → P (elt es' j);
}.

Lemma exchange_sifting es k h x cnt :
  1 ≤ k ≤ h → cnt ≤ Z.of_nat (length es) → child h x → x ≤ cnt →
  le (elt es h) (elt es x) → (∀ c, child h c → c ≤ cnt → le (elt es c) (elt es x)) →
  sifting es k h cnt → sifting (exchange es h x) k x cnt.
Proof.
  intros Hk Hcnt Hx Hxc Hhx Hmax [Hh Hp]. unfold child in *.
  assert (∀ j, 1 ≤ j ≤ cnt → elt (exchange es h x) j =
    if decide (j = h) then elt es x else if decide (j = x) then elt es h else elt es j) as He.
  { intros j Hj. apply elt_exchange; unfold valid; lia. }
  split; unfold child.
  - intros i c Hi Hix Hc Hcc. rewrite !He by lia.
    destruct (decide (i = h)) as [->|Hih].
    + rewrite (decide_False (P := c = h)) by lia. case_decide; [done|]. by apply Hmax.
    + rewrite (decide_False (P := i = x)) by done. destruct (decide (c = h)) as [->|Hch].
      * by apply Hp.
      * rewrite decide_False by lia. by apply Hh.
  - intros i c Hi Hix Hc Hcc. assert (i = h) as -> by lia. rewrite !He by lia.
    rewrite (decide_False (P := c = h)), (decide_False (P := c = x)), decide_True by lia.
    apply Hh; auto with lia.
Qed.

Lemma heapify_loop_run n m array es k h cnt :
  array_at size m array es → 1 ≤ k ≤ h → h ≤ cnt ≤ Z.of_nat (length es) → cnt < 2 ^ 31 →
  sifting es k h cnt → (Z.to_nat (cnt - h) < n)%nat →
  ∃ m' es', heapify_loop compare n array h cnt size m = Ok ((), m') ∧ array_at size m' array es' ∧
            sifted es es' k cnt ∧ frame size array (length es) m m'.
Proof.
  revert m es h. induction n as [|n IH]; intros m es h Hes Hk Hh Hc Hs Hn; [lia|]. cbn [heapify_loop].
  rewrite !wrapu_id by (unfold in_u; lia).
  destruct (pick_run m array es cnt (2 * h) h) as (x1 & E1 & Hx1 & Hm1 & Hl1); [done|lia|lia|unfold valid; lia|].
  erewrite bind_Ok by exact E1.
  destruct (pick_run m array es cnt (2 * h + 1) x1) as (x & E2 & Hx & Hm2 & Hl2);
    [done|lia|lia|unfold valid; lia|]. erewrite bind_Ok by exact E2.
  assert (∀ c, child h c → c ≤ cnt → le (elt es c) (elt es x)) as Hmax.
  { intros c [->| ->] Hcc; [eapply cmp_trans; [by apply Hl1|done]|by apply Hl2]. }
  assert (le (elt es h) (elt es x)) as Hhx by (by eapply cmp_trans).
  case_decide as Hxh.
  - subst x. exists m, es. split_and!; try done. split; try done.
    intros i c Hi Hic Hcc. destruct (decide (i = h)) as [->|]; [by apply Hmax|by apply (sift_heap _ _ _ _ Hs)].
  - assert (child h x ∧ x ≤ cnt) as [Hcx Hxc] by (unfold child; lia).
    assert (valid es h ∧ valid es x) as [Hvh Hvx] by (unfold valid, child in *; lia).
    destruct (do_swap_run size m array es h x) as (m1 & E3 & Hes1 & Hf1); try done.
    erewrite bind_Ok by exact E3.
    destruct (IH m1 (exchange es h x) x) as (m2 & es2 & E4 & Hes2 & [Hh2 Hp2 Hr2 Ha2] & Hf2); try done.
    + unfold child in *. lia.
    + rewrite exchange_length. lia.
    + apply exchange_sifting; try done. lia.
    + unfold child in *. lia.
    + exists m2, es2. rewrite exchange_length in Hf2. split_and!; [done|done| |].
      * split; [done| | |].
        -- by rewrite Hp2, exchange_perm.
        -- intros j Hj Hv. rewrite Hr2 by (done || by apply exchange_valid). rewrite elt_exchange by done.
           rewrite !decide_False by lia. done.
        -- intros P HP. apply Ha2. intros j Hj. rewrite elt_exchange by (done || unfold valid; lia).
           repeat case_decide; apply HP; unfold valid, child in *; lia.
      * intros a Ha. by rewrite Hf2, Hf1.
Qed.

Lemma heapify_run m array es k h cnt :
  array_at size m array es → 1 ≤ k ≤ h → h ≤ cnt ≤ Z.of_nat (length es) → cnt < 2 ^ 31 →
  sifting es k h cnt →
  ∃ m' es', heapify compare array h cnt size m = Ok ((), m') ∧ array_at size m' array es' ∧
            sifted es es' k cnt ∧ frame size array (length es) m m'.
Proof. intros. apply heapify_loop_run; try done. lia. Qed.

(** Building the heap from the bottom up. *)
Lemma build_loop_run i m array es :
  let cnt := Z.of_nat (length es) in
  array_at size m array es → Z.of_nat i ≤ cnt / 2 → cnt < 2 ^ 31 → heap es (Z.of_nat i + 1) cnt →
  ∃ m' es', build_loop compare i array cnt size m = Ok ((), m') ∧ array_at size m' array es' ∧
            heap es' 1 cnt ∧ es' ≡ₚ es ∧ frame size array (length es) m m'.
Proof.
  intros cnt. subst cnt. revert m es. induction i as [|i IH]; intros m es Hes Hi Hc Hh; cbn [build_loop].
  - exists m, es. by split_and!.
  - assert (Z.of_nat (S i) ≤ Z.of_nat (length es)) as Hle by (Z.to_euclidean_division_equations; lia).
    destruct (heapify_run m array es (Z.of_nat (S i)) (Z.of_nat (S i)) (Z.of_nat (length es)))
      as (m1 & es1 & E1 & Hes1 & [Hh1 Hp1 _ _] & Hf1); try done; [lia| |].
    { split; intros j c Hj; [intros Hne ? ?; apply Hh; try done; lia|unfold child; lia]. }
    erewrite bind_Ok by exact E1. pose proof (Permutation_length Hp1) as Hl. rewrite <- Hl.
    destruct (IH m1 es1) as (m2 & es2 & E2 & Hes2 & Hh2 & Hp2 & Hf2); try done; try (Z.to_euclidean_division_equations; lia).
    { intros j c Hj. rewrite Hl. apply Hh1. lia. }
    exists m2, es2. split_and!; try done; [by rewrite Hp2|]. rewrite Hl in Hf2 |- *. intros a Ha. by rewrite Hf2, Hf1.
Qed.

(** The root of a heap is the largest element. *)
Lemma heap_root es cnt j : heap es 1 cnt → 1 ≤ j ≤ cnt → le (elt es j) (elt es 1).
Proof.
  intros Hh. induction (Z.lt_wf 0 j) as [j _ IH]. intros Hj.
  destruct (decide (j = 1)) as [->|Hne]; [apply le_refl|].
  eapply cmp_trans; [|apply (IH (j / 2)); [|]; Z.to_euclidean_division_equations; lia].
  apply Hh; [..|lia]; unfold child; Z.to_euclidean_division_equations; lia.
Qed.

(** The elements from [i + 1] on are in their place. *)
Record placed (es : list (list Z)) (i : Z) : Prop := {
  placed_order a b : i < a < b → b ≤ Z.of_nat (length es) → le (elt es a) (elt es b);
  placed_above a b : 1 ≤ a ≤ i → i < b ≤ Z.of_nat (length es) → le (elt es a) (elt es b);
}.

(** One round: the largest element goes behind the heap, and the heap is
    restored. *)
Lemma sort_round es es' i :
  1 < i ≤ Z.of_nat (length es) → heap es 1 i → placed es i →
  sifted (exchange es 1 i) es' 1 (i - 1) → placed es' (i - 1).
Proof.
  intros Hi Hh [Ho Hab] [_ Hp Hr Hall]. pose proof (Permutation_length Hp) as Hl. rewrite exchange_length in Hl.
  assert (∀ j, i - 1 < j ≤ Z.of_nat (length es) → elt es' j = if decide (j = i) then elt es 1 else elt es j) as He.
  { intros j Hj. rewrite Hr by (lia || apply exchange_valid; unfold valid; lia).
    rewrite elt_exchange by (unfold valid; lia). rewrite decide_False by lia. done. }
  assert (∀ j, 1 ≤ j ≤ i - 1 → le (elt es' j) (elt es 1) ∧
    ∀ b, i < b ≤ Z.of_nat (length es) → le (elt es' j) (elt es b)) as Hle.
  { apply (Hall (λ e, le e (elt es 1) ∧ ∀ b, i < b ≤ Z.of_nat (length es) → le e (elt es b))). intros j Hj. rewrite elt_exchange by (unfold valid; lia).
    assert (∀ x, 1 ≤ x ≤ i → le (elt es x) (elt es 1) ∧
      ∀ b, i < b ≤ Z.of_nat (length es) → le (elt es x) (elt es b)) as Hx.
    { intros x Hx. split; [by apply (heap_root es i)|]. intros b Hb. apply Hab; lia. }
    repeat case_decide; apply Hx; lia. }
  split; rewrite Hl.
  - intros a b Ha Hb. rewrite !He by lia. rewrite (decide_False (P := b = i)) by lia.
    case_decide; [apply Hab; lia|apply Ho; lia].
  - intros a b Ha Hb. rewrite (He b) by lia. destruct (Hle a) as [H1 H2]; [lia|]. case_decide; [done|apply H2; lia].
Qed.

Lemma sort_loop_run i m array es :
  array_at size m array es → Z.of_nat i ≤ Z.of_nat (length es) < 2 ^ 31 →
  heap es 1 (Z.of_nat i) → placed es (Z.of_nat i) →
  ∃ m' es', sort_loop compare i array size m = Ok ((), m') ∧ array_at size m' array es' ∧
            placed es' (Z.min 1 (Z.of_nat i)) ∧ es' ≡ₚ es ∧ frame size array (length es) m m'.
Proof.
  revert m es. induction i as [|[|i] IH]; intros m es Hes Hi Hh Hp.
  - exists m, es. by split_and!.
  - exists m, es. by split_and!.
  - set (n := Z.of_nat (S (S i))) in *.
    change (sort_loop compare (S (S i)) array size) with
      (do_swap array 1 n size;; heapify compare array 1 (n - 1) size;; sort_loop compare (S i) array size).
    destruct (do_swap_run size m array es 1 n) as (m1 & E1 & Hes1 & Hf1); try done; [unfold valid; lia..|lia|].
    erewrite bind_Ok by exact E1.
    destruct (heapify_run m1 array (exchange es 1 n) 1 1 (n - 1)) as (m2 & es2 & E2 & Hes2 & Hs2 & Hf2);
      try done; [rewrite exchange_length; lia|lia| |].
    { split; [|unfold child; lia]. intros j c Hj Hj1 Hc Hcn. unfold child in Hc.
      rewrite !elt_exchange by (unfold valid; lia).
      rewrite !(decide_False (P := c = _)), !(decide_False (P := j = _)) by lia. apply Hh; unfold child; lia. }
    erewrite bind_Ok by exact E2. pose proof Hs2 as [Hh2 Hp2 _ _].
    assert (length es2 = length es) as Hl by (rewrite (Permutation_length Hp2); apply exchange_length).
    replace (n - 1) with (Z.of_nat (S i)) in * by lia.
    destruct (IH m2 es2) as (m3 & es3 & E3 & Hes3 & Hpl3 & Hp3 & Hf3); try done; [lia| |].
    { replace (Z.of_nat (S i)) with (n - 1) in * by lia. eapply sort_round; try done. lia. }
    exists m3, es3. split_and!; try done.
    + by replace (Z.min 1 n) with (Z.min 1 (Z.of_nat (S i))) by lia.
    + rewrite Hp3, Hp2. apply exchange_perm; unfold valid; lia.
    + rewrite exchange_length in Hf2. rewrite Hl in Hf3. intros a Ha. by rewrite Hf3, Hf2, Hf1.
Qed.

Lemma sort_run m array es :
  array_at size m array es → array ≠ NULL → Z.of_nat (length es) < 2 ^ 31 →
  ∃ m' es', sort compare array (Z.of_nat (length es)) size m = Ok ((), m') ∧ array_at size m' array es' ∧
    es' ≡ₚ es ∧ Sorted (λ x y, le x y) es' ∧ frame size array (length es) m m'.
Proof.
  intros Hes Ha Hc. unfold sort. erewrite bind_Ok by (apply ASSERT_true; by rewrite bool_decide_true).
  erewrite bind_Ok by (apply ASSERT_true; by rewrite bool_decide_true).
  destruct (build_loop_run (Z.to_nat (Z.of_nat (length es) / 2)) m array es)
    as (m1 & es1 & E1 & Hes1 & Hh1 & Hp1 & Hf1); try done.
  { rewrite Z2Nat.id by (apply Z.div_pos; lia). lia. }
  { intros i c Hi Hic Hcc. unfold child in Hic. rewrite Z2Nat.id in Hi by (apply Z.div_pos; lia).
    Z.to_euclidean_division_equations. lia. }
  erewrite bind_Ok by exact E1. rewrite Nat2Z.id. pose proof (Permutation_length Hp1) as Hl.
  destruct (sort_loop_run (length es) m1 array es1) as (m2 & es2 & E2 & Hes2 & [Ho Hab] & Hp2 & Hf2);
    [done|lia|done|split; lia|].
  exists m2, es2. assert (length es2 = length es) as Hl2 by (rewrite (Permutation_length Hp2); done).
  split_and!; [done|done|by rewrite Hp2| |].
  - apply StronglySorted_Sorted.
    assert (∀ i j x y, (i < j)%nat → es2 !! i = Some x → es2 !! j = Some y → le x y) as H.
    { intros i j x y Hij Hx Hy. pose proof (lookup_lt_Some _ _ _ Hy).
      assert (∀ k z, es2 !! k = Some z → elt es2 (Z.of_nat k + 1) = z) as He.
      { intros k z Hz. unfold elt. replace (Z.to_nat (Z.of_nat k + 1 - 1)) with k by lia. by apply list_lookup_total_correct. }
      rewrite <- (He i x Hx), <- (He j y Hy).
      destruct (decide (i = 0%nat)) as [->|]; [apply Hab; lia|apply Ho; lia]. }
    clear - H. induction es2 as [|x es2 IH]; constructor.
    + apply IH. intros i j a b Hij Ha Hb. by apply (H (S i) (S j)); [lia|..].
    + apply Forall_forall. intros y [j Hy]%list_elem_of_lookup_1. by apply (H 0%nat (S j)); [lia|..].
  - rewrite Hl in Hf2. intros a Hfa. by rewrite Hf2, Hf1.
Qed.

(** [sort] (heap sort) terminates and leaves a sorted permutation of
    the elements, for every [strcmp]-type comparison function; bytes outside
    the array stay as they are. *)
Theorem sort_sorts m array es :
  array_at size m array es → array ≠ NULL → Z.of_nat (length es) < 2 ^ 31 →
  ∃ m' es', sort compare array (Z.of_nat (length es)) size m = Ok ((), m') ∧ array_at size m' array es' ∧
    es' ≡ₚ es ∧ Sorted (λ x y, le x y) es' ∧ frame size array (length es) m m'.
Proof. exact (sort_run m array es). Qed.

(** ** Binary search *)

(** The sign of the comparison of the key with an element falls along the
    array. *)
Definition falling (ck : list Z → Z) (es : list (list Z)) : Prop :=
  ∀ i j x y, (i < j)%nat → es !! i = Some x → es !! j = Some y →
    (ck x < 0 → ck y < 0) ∧ (0 < ck y → 0 < ck x).

Lemma search_loop_run n m key array es ck f l :
  array_at size m array es → falling ck es →
  (∀ q x, bytes_at m q x → Z.of_nat (length x) = size → compare key q m = Ok (ck x, m)) →
  0 ≤ f ≤ l → l ≤ Z.of_nat (length es) →
  (∀ i x, es !! i = Some x → Z.of_nat i < f → 0 < ck x) →
  (∀ i x, es !! i = Some x → l ≤ Z.of_nat i → ck x < 0) → (Z.to_nat (l - f) < n)%nat →
  ∃ r, search_loop compare n key (array + f * size) (array + l * size) size m = Ok (r, m) ∧
       ((r = NULL ∧ ∀ i x, es !! i = Some x → ck x ≠ 0) ∨
        ∃ i x, es !! i = Some x ∧ ck x = 0 ∧ r = array + Z.of_nat i * size).
Proof.
  intros Hes Hfall Hkey. revert f l. induction n as [|n IH]; intros f l Hfl Hl Hlo Hhi Hn; [lia|].
  cbn [search_loop]. case_decide as Hlt.
  2:{ exists NULL. split; [done|left]. split; [done|]. intros i x Hx Hz.
      assert (f = l) as -> by nia. destruct (Z.lt_ge_cases (Z.of_nat i) l) as [H|H].
      - specialize (Hlo i x Hx H). lia.
      - specialize (Hhi i x Hx H). lia. }
  assert (f < l) as Hfl' by nia.
  replace ((array + l * size - (array + f * size)) / size) with (l - f)
    by (replace (array + l * size - (array + f * size)) with ((l - f) * size) by lia; by rewrite Z.div_mul by lia).
  set (d := f + (l - f) / 2). assert (f ≤ d < l) as Hd by (unfold d; Z.to_euclidean_division_equations; lia).
  replace (array + f * size + (l - f) / 2 * size) with (array + d * size) by (unfold d; lia).
  destruct (lookup_lt_is_Some_2 es (Z.to_nat d)) as [e He]; [lia|].
  destruct (Hes _ _ He) as (Hb & Hle & _). rewrite Z2Nat.id in Hb by lia.
  erewrite bind_Ok by (by apply Hkey). case_decide as Hneg; [|case_decide as Hpos].
  - apply IH; [lia|lia|done| |lia]. intros i x Hx Hi. destruct (decide (i = Z.to_nat d)) as [->|Hne].
    + congruence.
    + destruct (Hfall (Z.to_nat d) i e x) as [H _]; [lia|done..|auto].
  - replace (array + d * size + size) with (array + (d + 1) * size) by lia.
    apply IH; [lia|lia| |done|lia]. intros i x Hx Hi. destruct (decide (i = Z.to_nat d)) as [->|Hne].
    + congruence.
    + destruct (Hfall i (Z.to_nat d) x e) as [_ H]; [lia|done..|auto].
  - exists (array + d * size). split; [done|right]. exists (Z.to_nat d), e.
    split_and!; [done|lia|]. by rewrite Z2Nat.id by lia.
Qed.

(** [binary_search] terminates and returns the address of an element
    that matches the key, or a null pointer if there is none. *)
Theorem binary_search_finds m key array es ck :
  array_at size m array es → falling ck es →
  (∀ q x, bytes_at m q x → Z.of_nat (length x) = size → compare key q m = Ok (ck x, m)) →
  ∃ r, binary_search compare key array (Z.of_nat (length es)) size m = Ok (r, m) ∧
       ((r = NULL ∧ ∀ i x, es !! i = Some x → ck x ≠ 0) ∨
        ∃ i x, es !! i = Some x ∧ ck x = 0 ∧ r = array + Z.of_nat i * size).
Proof.
  intros Hes Hf Hk. unfold binary_search. rewrite (Z.mul_comm size), Nat2Z.id.
  pose proof (search_loop_run (S (length es)) m key array es ck 0 (Z.of_nat (length es))) as H.
  rewrite Z.mul_0_l, Z.add_0_r in H. apply H; try done; try lia.
  intros i x Hx%lookup_lt_Some. lia.
Qed.

End Sort.

(** ** Arrays of bytes *)

Definition byte_cmp (x y : list Z) : Z := default 0 (head x) - default 0 (head y).
Definition byte_compare (p q : Z) : C Z := x ← load p; y ← load q; mret (x - y).

#[global] Instance byte_cmp_order : CompareOrder byte_cmp.
Proof. split; unfold byte_cmp; intros; lia. Qed.

Lemma byte_compare_run m p q x y :
  bytes_at m p x → bytes_at m q y → Z.of_nat (length x) = 1 → Z.of_nat (length y) = 1 →
  byte_compare p q m = Ok (byte_cmp x y, m).
Proof.
  intros Hx Hy Hlx Hly. destruct x as [|a [|? ?]], y as [|b [|? ?]]; cbn in *; try lia.
  apply bytes_at_cons in Hx as [Hx _]. apply bytes_at_cons in Hy as [Hy _]. unfold byte_compare.
  erewrite bind_Ok by (by apply load_run). by erewrite bind_Ok by (by apply load_run).
Qed.

Definition three_bytes : mem := list_to_map [(50, 7); (51, 3); (52, 5)].

Lemma three_bytes_at : array_at 1 three_bytes 50 [[7]; [3]; [5]].
Proof.
  intros i e. do 3 (destruct i as [|i]; [intros [= <-]; split_and!;
    [apply bytes_at_cons; split; [reflexivity|apply bytes_at_nil]|reflexivity|repeat constructor; unfold in_u; lia]|]).
  done.
Qed.

Lemma sort_sorts_witness :
  ∃ m' es', sort byte_compare 50 3 1 three_bytes = Ok ((), m') ∧ array_at 1 m' 50 es' ∧
    es' ≡ₚ [[7]; [3]; [5]] ∧ Sorted (λ x y, byte_cmp x y ≤ 0) es' ∧ frame 1 50 3 three_bytes m'.
Proof.
  apply (sort_sorts byte_compare byte_cmp 1 ltac:(lia) byte_compare_run three_bytes 50 [[7]; [3]; [5]]).
  - apply three_bytes_at.
  - discriminate.
  - cbn. lia.
Defined.

Definition sorted_bytes : mem := list_to_map [(50, 3); (51, 5); (52, 7); (60, 5)].

Lemma binary_search_finds_witness :
  ∃ r, binary_search byte_compare 60 50 3 1 sorted_bytes = Ok (r, sorted_bytes) ∧
       ((r = NULL ∧ ∀ i x, [[3]; [5]; [7]] !! i = Some x → byte_cmp [5] x ≠ 0) ∨
        ∃ i x, [[3]; [5]; [7]] !! i = Some x ∧ byte_cmp [5] x = 0 ∧ r = 50 + Z.of_nat i * 1).
Proof.
  apply (binary_search_finds byte_compare 1 ltac:(lia) sorted_bytes 60 50 [[3]; [5]; [7]] (byte_cmp [5])).
  - intros i e. do 3 (destruct i as [|i]; [intros [= <-]; split_and!;
      [apply bytes_at_cons; split; [reflexivity|apply bytes_at_nil]|reflexivity|repeat constructor; unfold in_u; lia]|]).
    done.
  - intros i j x y Hij Hx Hy. do 3 (destruct i as [|i]; [do 3 (destruct j as [|j];
      [try lia; cbn in Hx, Hy; simplify_eq; unfold byte_cmp; cbn; lia|]); done|]). done.
  - intros q x Hq Hl. apply byte_compare_run; [|done|done|done].
    apply bytes_at_cons. split; [reflexivity|apply bytes_at_nil].
Defined.

End StdLibSort.
