(* ===== verification/Stdio.v ===== *)
(** * Formatted output (lib/stdio.c)

    [__vprintf] and what it is made of, for an arbitrary [output] function.
    A format is the list of its characters; going past its terminator is
    undefined behaviour.  The arguments are the words on the stack, 32 bits
    each: a 64-bit argument takes two of them.  Strings passed to [%s] are
    in memory.  The arithmetic on [double] is done by the processor's
    floating-point unit, which is the parameter [fpu].  Overflow of an [int]
    is undefined behaviour. *)

From Stdlib Require Import String Ascii.
From S2P Require Import Prelude CMem StdLib.
Import CMem StdLib.

Module Stdio.

(** The characters of a literal. *)
Definition chars (s : string) : list Z := (λ a, Z.of_N (N_of_ascii a)) <$> list_ascii_of_string s.
Arguments chars s%_string.

(** ** Conversions *)

Definition MINUS : Z := 1.
Definition PLUS : Z := 2.
Definition SPACE : Z := 4.
Definition POUND : Z := 8.
Definition ZERO : Z := 16.
Definition GROUP : Z := 32.

Inductive conv_type := CHAR | SHORT | INT | INTMAX | LONG | LONGLONG | PTRDIFFT | SIZET.

Record printf_conversion := Conv { flags : Z; width : Z; precision : Z; ctype : conv_type }.

Record integer_base := Base { base : Z; digits : list Z; base_xc : Z; group : Z }.

Definition base_d : integer_base := Base 10 (chars "0123456789") 0 3.
Definition base_o : integer_base := Base 8 (chars "01234567") 0 3.
Definition base_x : integer_base := Base 16 (chars "0123456789abcdef") 120 4.
Definition base_X : integer_base := Base 16 (chars "0123456789ABCDEF") 88 4.

Definition has (f flag : Z) : bool := bool_decide (Z.land f flag ≠ 0).

Section Output.
Context {A : Type}.
(** Memory, and the auxiliary data of [output]. *)
Abbreviation P := (M (mem * A)).
Context (output : Z → P unit).
(** What the floating-point unit makes of the bits of a [double] [d] and a
    factor [p]: [(int) d], [(int) ((d - (int) d) * p)] and [d < 0]; nothing
    if one of them does not fit an [int]. *)
Context (fpu : Z → Z → option (Z * Z * bool)).

Definition int (z : Z) : P Z := if decide (in_s 32 z) then mret z else fail Undef.
Definition read (p : Z) : P Z := λ s, lift (s.1 !! p) Undef s.

(** The current character of a format, and the rest of it. *)
Definition peek (fmt : list Z) : Z := default 0 (head fmt).
Definition next (fmt : list Z) : P (list Z) :=
  match fmt with [] => fail Undef | _ :: fmt => mret fmt end.

(** [va_arg]: a word, or two. *)
Definition arg (args : list Z) : P (Z * list Z) :=
  match args with [] => fail Undef | w :: args => mret (u32 w, args) end.
Definition arg64 (args : list Z) : P (Z * list Z) :=
  lo ← arg args; hi ← arg lo.2; mret (lo.1 + hi.1 * 2 ^ 32, hi.2).

(** ** Parsing a conversion *)

Definition flag_of (c : Z) : option Z :=
  if decide (c = 45) then Some MINUS else if decide (c = 43) then Some PLUS
  else if decide (c = 32) then Some SPACE else if decide (c = 35) then Some POUND
  else if decide (c = 48) then Some ZERO else if decide (c = 39) then Some GROUP else None.

Fixpoint parse_flags (fmt : list Z) (f : Z) : list Z * Z :=
  match fmt with
  | c :: fmt' => match flag_of c with Some b => parse_flags fmt' (Z.lor f b) | None => (fmt, f) end
  | [] => (fmt, f)
  end.

(** A run of digits, as an [int]. *)
Fixpoint parse_number (fmt : list Z) (n : Z) : P (Z * list Z) :=
  match fmt with
  | c :: fmt' =>
      if isdigit c then
        ten ← int (n * 10); sum ← int (ten + c); n ← int (sum - 48); parse_number fmt' n
      else mret (n, fmt)
  | [] => mret (n, fmt)
  end.

(** A number, or the next argument for an asterisk. *)
Definition parse_field (fmt args : list Z) : P (Z * list Z * list Z) :=
  if decide (peek fmt = 42) then
    fmt ← next fmt; w ← arg args; mret (i32 w.1, fmt, w.2)
  else n ← parse_number fmt 0; mret (n.1, n.2, args).

Definition parse_type (fmt : list Z) : conv_type * list Z :=
  match fmt with
  | 104 :: 104 :: fmt => (CHAR, fmt)
  | 104 :: fmt => (SHORT, fmt)
  | 106 :: fmt => (INTMAX, fmt)
  | 108 :: 108 :: fmt => (LONGLONG, fmt)
  | 108 :: fmt => (LONG, fmt)
  | 116 :: fmt => (PTRDIFFT, fmt)
  | 122 :: fmt => (SIZET, fmt)
  | _ => (INT, fmt)
  end.

Definition parse_conversion (fmt args : list Z) : P (printf_conversion * list Z * list Z) :=
  let '(fmt, f) := parse_flags fmt 0 in
  let f := if has f MINUS then Z.ldiff f ZERO else f in
  let f := if has f PLUS then Z.ldiff f SPACE else f in
  '(w, fmt, args) ← parse_field fmt args;
  '(w, f) ← (if decide (w < 0) then w ← int (- w); mret (w, Z.lor f MINUS) else mret (w, f));
  '(p, fmt, args) ←
    (if decide (peek fmt = 46) then
       fmt ← next fmt; '(p, fmt, args) ← parse_field fmt args;
       mret (if decide (p < 0) then -1 else p, fmt, args)
     else mret (-1, fmt, args));
  let f := if decide (0 ≤ p) then Z.ldiff f ZERO else f in
  let '(t, fmt) := parse_type fmt in
  mret (Conv f w p t, fmt, args).

(** ** Output *)

Fixpoint output_dup (ch : Z) (cnt : nat) : P unit :=
  match cnt with O => mret () | S cnt => output ch;; output_dup ch cnt end.

Definition BUF_SIZE : nat := 64.
(** [*cp++ = ch] in [buf]. *)
Definition push (buf : list Z) (ch : Z) : P (list Z) :=
  if decide (length buf < BUF_SIZE)%nat then mret (buf ++ [ch]) else fail Undef.

Fixpoint digit_loop (fuel : nat) (b : integer_base) (grouped : bool) (value digit_cnt : Z) (buf : list Z) : P (list Z) :=
  match fuel with
  | O => fail NoFuel
  | S fuel =>
      if decide (0 < value) then
        buf ← (if grouped && bool_decide (0 < digit_cnt) && bool_decide (digit_cnt mod group b = 0)
               then push buf 44 else mret buf);
        d ← lift (digits b !! Z.to_nat (value mod base b)) Undef;
        buf ← push buf d;
        digit_loop fuel b grouped (value / base b) (digit_cnt + 1) buf
      else mret buf
  end.

Fixpoint zero_loop (fuel : nat) (precision : Z) (buf : list Z) : P (list Z) :=
  match fuel with
  | O => fail NoFuel
  | S fuel =>
      if decide (Z.of_nat (length buf) < precision ∧ (length buf < BUF_SIZE - 1)%nat)
      then buf ← push buf 48; zero_loop fuel precision buf
      else mret buf
  end.

Fixpoint output_all (cs : list Z) : P unit :=
  match cs with [] => mret () | c :: cs => output c;; output_all cs end.

Definition format_integer (value : Z) (is_signed negative : bool) (b : integer_base) (c : printf_conversion) : P unit :=
  let sign :=
    if is_signed then
      if has (flags c) PLUS then if negative then 45 else 43
      else if has (flags c) SPACE then if negative then 45 else 32
      else if negative then 45 else 0
    else 0 in
  let x := if has (flags c) POUND && bool_decide (value ≠ 0) then base_xc b else 0 in
  (* at most one digit per bit of the value *)
  buf ← digit_loop 65 b (has (flags c) GROUP) value 0 [];
  let prec := if decide (precision c < 0) then 1 else precision c in
  buf ← zero_loop (S BUF_SIZE) prec buf;
  buf ← (if has (flags c) POUND && bool_decide (base b = 8) && negb (bool_decide (last buf = Some 48))
         then push buf 48 else mret buf);
  pad ← int (width c - Z.of_nat (length buf) - (if decide (x ≠ 0) then 2 else 0) - (if decide (sign ≠ 0) then 1 else 0));
  let pad_cnt := Z.to_nat pad in
  (if has (flags c) (Z.lor MINUS ZERO) then mret () else output_dup 32 pad_cnt);;
  (if decide (sign ≠ 0) then output sign else mret ());;
  (if decide (x ≠ 0) then output 48;; output x else mret ());;
  (if has (flags c) ZERO then output_dup 48 pad_cnt else mret ());;
  output_all (reverse buf);;
  (if has (flags c) MINUS then output_dup 32 pad_cnt else mret ()).

(** [string] is the access to the characters of a string. *)
Fixpoint string_loop (n : nat) (string : Z → P Z) (i : Z) : P unit :=
  match n with O => mret () | S n => c ← string i; output c;; string_loop n string (i + 1) end.

Definition format_string (string : Z → P Z) (length : Z) (c : printf_conversion) : P unit :=
  let pad := Z.to_nat (width c - length) in
  (if decide (length < width c ∧ has (flags c) MINUS = false) then output_dup 32 pad else mret ());;
  string_loop (Z.to_nat length) string 0;;
  (if decide (length < width c ∧ has (flags c) MINUS = true) then output_dup 32 pad else mret ()).

(** [strnlen], on a string given by its access. *)
Fixpoint strnlen_loop (fuel : nat) (string : Z → P Z) (maxlen length : Z) : P Z :=
  match fuel with
  | O => fail NoFuel
  | S fuel =>
      x ← string length;
      if decide (x ≠ 0 ∧ length < maxlen) then strnlen_loop fuel string maxlen (length + 1) else mret length
  end.

Definition null_string (i : Z) : P Z := lift ((chars "(null)" ++ [0]) !! Z.to_nat i) Undef.

Definition format_str (s : Z) (c : printf_conversion) : P unit :=
  let string := if decide (s = NULL) then null_string else λ i, read (s + i) in
  m ← gets fst;
  n ← strnlen_loop (8 + size (m : mem)) string (u32 (precision c)) 0;
  n ← int n;
  format_string string n c.

(** ** [__vprintf] *)

Definition signed_arg (t : conv_type) (args : list Z) : P (Z * list Z) :=
  match t with
  | CHAR => w ← arg args; mret (i8 w.1, w.2)
  | SHORT => w ← arg args; mret (wraps 16 w.1, w.2)
  | INT | LONG | PTRDIFFT => w ← arg args; mret (i32 w.1, w.2)
  | INTMAX | LONGLONG => w ← arg64 args; mret (i64 w.1, w.2)
  | SIZET => w ← arg args; mret (if decide (2 ^ 32 / 2 - 1 < w.1) then w.1 - (2 ^ 32 - 1) - 1 else w.1, w.2)
  end.

Definition unsigned_arg (t : conv_type) (args : list Z) : P (Z * list Z) :=
  match t with
  | CHAR => w ← arg args; mret (u8 w.1, w.2)
  | SHORT => w ← arg args; mret (u16 w.1, w.2)
  | INT | LONG | SIZET => arg args
  | INTMAX | LONGLONG => arg64 args
  | PTRDIFFT => w ← arg args; mret (Z.land (u64 (i32 w.1)) (2 ^ 32 - 1), w.2)
  end.

(** The absolute value, computed as an [intmax_t]. *)
Definition abs64 (value : Z) : P Z :=
  if decide (value < 0) then if decide (in_s 64 (- value)) then mret (- value) else fail Undef
  else mret value.

Definition DEFAULT_FLOAT_PRECISION : Z := 6.
Definition MAX_FLOAT_PRECISION : Z := 9.
Definition powers : list Z :=
  [0; 10; 100; 1000; 10000; 100000; 1000000; 10000000; 100000000; 1000000000; 0; 0; 0; 0; 0; 0].

(** The conversion of a [double]. *)
Definition format_float (d : Z) (c : printf_conversion) : P unit :=
  let p := if decide (precision c < 0) then DEFAULT_FLOAT_PRECISION else precision c in
  let p := if decide (p > MAX_FLOAT_PRECISION) then MAX_FLOAT_PRECISION else p in
  factor ← lift (powers !! Z.to_nat p) Undef;
  '(first, rest, negative) ← lift (fpu d factor) Undef;
  a ← (if decide (first < 0) then int (- first) else mret first);
  format_integer (u64 a) true negative base_d (Conv (flags c) (width c) (-1) (ctype c));;
  output 46;;
  r ← (if decide (rest < 0) then int (- rest) else mret rest);
  format_integer (u64 r) false false base_d (Conv (flags c) (width c) (if decide (p = 0) then 1 else p) (ctype c)).

(** One conversion, after its flags; [nested] is [__printf] with one
    argument. *)
Definition convert (nested : list Z → Z → P unit) (ch : Z) (c : printf_conversion) (args : list Z) : P (list Z) :=
  if decide (ch ∈ chars "di") then
    '(value, args) ← signed_arg (ctype c) args;
    a ← abs64 value;
    format_integer a true (bool_decide (value < 0)) base_d c;; mret args
  else if decide (ch ∈ chars "ouxX") then
    '(value, args) ← unsigned_arg (ctype c) args;
    let b := if decide (ch ∈ chars "o") then base_o else if decide (ch ∈ chars "u") then base_d
             else if decide (ch ∈ chars "x") then base_x else base_X in
    format_integer value false false b c;; mret args
  else if decide (ch ∈ chars "c") then
    '(w, args) ← arg args; format_string (λ _, mret (u8 w)) 1 c;; mret args
  else if decide (ch ∈ chars "s") then
    '(s, args) ← arg args; format_str s c;; mret args
  else if decide (ch ∈ chars "p") then
    '(p, args) ← arg args;
    format_integer p false false base_x (Conv POUND (width c) (precision c) (ctype c));; mret args
  else if decide (ch ∈ chars "f") then
    '(d, args) ← arg64 args; format_float d c;; mret args
  else if decide (ch ∈ chars "eEgGn") then nested (chars "<<no %%%c in kernel>>") ch;; mret args
  else nested (chars "<<no %%%c conversion>>") ch;; mret args.

(** One round per character or conversion; the nested call of [__printf]
    has a format of 22 characters, which makes no further such call. *)
Fixpoint vprintf_loop (fuel : nat) (fmt args : list Z) : P unit :=
  match fuel with
  | O => fail NoFuel
  | S fuel =>
      match fmt with
      | [] => mret ()
      | ch :: fmt =>
          if decide (ch ≠ 37) then output ch;; vprintf_loop fuel fmt args
          else if decide (peek fmt = 37) then
            output 37;; fmt ← next fmt; vprintf_loop fuel fmt args
          else
            '(c, fmt, args) ← parse_conversion fmt args;
            args ← convert (λ f ch, vprintf_loop fuel f [ch]) (peek fmt) c args;
            fmt ← next fmt;
            vprintf_loop fuel fmt args
      end
  end.
Definition __vprintf (fmt args : list Z) : P unit := vprintf_loop (length fmt + 32) fmt args.

(** [__printf]: the arguments follow the format on the stack. *)
Definition __printf (fmt args : list Z) : P unit := __vprintf fmt args.

(** *** [hex_dump], with [printf] to this output *)

(** [n] times [printf (s)]. *)
Fixpoint print_times (n : nat) (s : list Z) : P unit :=
  match n with O => mret () | S n => __printf s [];; print_times n s end.

Fixpoint hex_loop (n : nat) (buf start i : Z) : P unit :=
  match n with
  | O => mret ()
  | S n =>
      b ← read (buf + (i - start));
      __printf (chars "%02hhx%c") [b; if decide (i = 16 / 2 - 1) then 45 else 32];;
      hex_loop n buf start (i + 1)
  end.

Fixpoint ascii_loop (n : nat) (buf start i : Z) : P unit :=
  match n with
  | O => mret ()
  | S n =>
      b ← read (buf + (i - start));
      __printf (chars "%c") [if isprint b then b else 46];; ascii_loop n buf start (i + 1)
  end.

(** One line, of [n] bytes. *)
Definition hex_line (ofs buf n : Z) (ascii : bool) : P unit :=
  let start := ofs mod 16 in
  let last := start + n in
  __printf (chars "%08jx  ") [ROUND_DOWN ofs 16; 0];;
  print_times (Z.to_nat start) (chars "   ");;
  hex_loop (Z.to_nat n) buf start start;;
  (if ascii then
     print_times (Z.to_nat (16 - last)) (chars "   ");;
     __printf (chars "|") [];;
     print_times (Z.to_nat start) (chars " ");;
     ascii_loop (Z.to_nat n) buf start start;;
     print_times (Z.to_nat (16 - last)) (chars " ");;
     __printf (chars "|") []
   else mret ());;
  __printf [10] [].

Fixpoint hex_dump_loop (fuel : nat) (ofs buf size : Z) (ascii : bool) : P unit :=
  match fuel with
  | O => fail NoFuel
  | S fuel =>
      if decide (0 < size) then
        let start := ofs mod 16 in
        let n := if decide (size < 16 - start) then size else 16 - start in
        hex_line ofs buf n ascii;;
        hex_dump_loop fuel (u32 (ofs + n)) (buf + n) (size - n) ascii
      else mret ()
  end.
Definition hex_dump (ofs buf size : Z) (ascii : bool) : P unit :=
  hex_dump_loop (S (Z.to_nat size)) ofs buf size ascii.

End Output.

(** ** Output to a buffer *)

Record vsnprintf_aux := Aux { aux_p : Z; aux_length : Z; aux_max_length : Z }.

(** [if (aux->length++ < aux->max_length) *aux->p++ = ch] *)
Definition vsnprintf_helper (ch : Z) : M (mem * vsnprintf_aux) unit :=
  a ← gets snd;
  n ← int (aux_length a + 1);
  if decide (aux_length a < aux_max_length a) then
    m ← gets fst;
    match store (aux_p a) ch m with
    | Ok (_, m) => put (m, Aux (aux_p a + 1) n (aux_max_length a))
    | Err e => fail e
    end
  else modify (λ s, (s.1, Aux (aux_p a) n (aux_max_length a))).

Section Buffer.
Context (fpu : Z → Z → option (Z * Z * bool)).

Definition vsnprintf (buffer buf_size : Z) (fmt args : list Z) : C Z := λ m,
  match __vprintf vsnprintf_helper fpu fmt args
          (m, Aux buffer 0 (if decide (0 < buf_size) then i32 (buf_size - 1) else 0)) with
  | Ok (_, (m, a)) =>
      ((if decide (0 < buf_size) then store (aux_p a) 0 else mret ());; mret (aux_length a)) m
  | Err e => Err e
  end.

Definition snprintf (buffer buf_size : Z) (fmt args : list Z) : C Z := vsnprintf buffer buf_size fmt args.
End Buffer.

(** Output that is collected, as on a console. *)
Definition collect (ch : Z) : M (mem * list Z) unit := modify (λ s, (s.1, s.2 ++ [ch])).

End Stdio.
