(* ===== verification/StdioSpec.v ===== *)
(** * Formatted output: theorems

    [vsnprintf] computes what printing to a console computes, cut to the
    buffer; the digits of [format_integer] fit its buffer; [atoi] reads back
    what [snprintf] wrote. *)

From Stdlib Require Import String Ascii.
From S2P Require Import Prelude CMem StdLib Stdio.
Import CMem StdLib Stdio.

Module StdioSpec.

(** ** Output to a buffer against output to a console *)

Section Simulation.
Context (fpu : Z → Z → option (Z * Z * bool)).
(** The memory, the same without the buffer, the buffer and how many
    characters it takes. *)
Context (m0 ms : mem) (b : Z) (max : nat).
Hypothesis ms_sub : ms ⊆ m0.
Hypothesis ms_out : ∀ a, in_range b (Z.of_nat max) a → ms !! a = None.
Hypothesis b_mapped : mapped m0 b max.

(** The state of output to the buffer after a text. *)
Definition St (t : list Z) : mem * vsnprintf_aux :=
  (write b (u8 <$> take max t) m0,
   Aux (b + Z.of_nat (length (take max t))) (Z.of_nat (length t)) (Z.of_nat max)).

(** Text is only added, and as long as its length fits an [int] the second
    computation follows the first. *)
Definition sim {X} (f1 : M (mem * list Z) X) (f2 : M (mem * vsnprintf_aux) X) : Prop :=
  ∀ t x s1, f1 (ms, t) = Ok (x, s1) → ∃ t', s1 = (ms, t ++ t') ∧
    (in_s 32 (Z.of_nat (length (t ++ t'))) → f2 (St t) = Ok (x, St (t ++ t'))).

Lemma sim_ret {X} (x : X) : sim (mret x) (mret x).
Proof. intros t y s1 [= <- <-]. exists []. by rewrite app_nil_r. Qed.

Lemma sim_fail {X} e (f2 : M (mem * vsnprintf_aux) X) : sim (fail e) f2.
Proof. by intros t y s1 [=]. Qed.

Lemma sim_bind {X Y} (f1 : M _ X) (f2 : M _ X) (g1 : X → M _ Y) (g2 : X → M _ Y) :
  sim f1 f2 → (∀ x, sim (g1 x) (g2 x)) → sim (f1 ≫= g1) (f2 ≫= g2).
Proof.
  intros Hf Hg t y s1 (x & s & Hx & Hy)%bind_Ok_inv.
  destruct (Hf _ _ _ Hx) as (t1 & -> & H1). destruct (Hg _ _ _ _ Hy) as (t2 & -> & H2).
  exists (t1 ++ t2). rewrite app_assoc. split; [done|]. intros Hl. rewrite (bind_Ok _ _ _ x (St (t ++ t1))).
  - by apply H2.
  - apply H1. unfold in_s in *. rewrite !length_app in *. lia.
Qed.

(** Two loops that read memory have more rounds in the larger memory. *)
Lemma sim_gets {X} (g1 g2 : mem → M _ X) :
  (∀ m2, ms ⊆ m2 → sim (g1 ms) (g2 m2)) → sim (gets fst ≫= g1) (gets fst ≫= g2).
Proof.
  intros H t x s1 Hx. change (g1 ms (ms, t) = Ok (x, s1)) in Hx.
  destruct (H (St t).1) with t x s1 as (t' & -> & H'); [|done|by exists t'].
  apply map_subseteq_spec. intros a v Ha. cbn. rewrite write_lookup_out; [by eapply lookup_weaken|].
  rewrite length_fmap, length_take. intros Hr. rewrite ms_out in Ha; [done|]. unfold in_range in *. lia.
Qed.

Lemma sim_output ch : sim (collect ch) (vsnprintf_helper ch).
Proof.
  intros t x s1 [= <- <-]. exists [ch]. split; [done|]. intros Hl. rewrite length_app in Hl. cbn in Hl.
  unfold vsnprintf_helper, gets, int, mbind, M_bind, St. cbn. rewrite length_app. cbn.
  rewrite decide_True by (unfold in_s in *; lia). cbn.
  case_decide as Hm.
  - rewrite (take_ge t), (take_ge (t ++ [ch])) by (rewrite ?length_app; cbn; lia).
    cbn [fst]. rewrite store_run.
    2:{ destruct (b_mapped (b + Z.of_nat (length t))) as [v Hv]; [unfold in_range; lia|]. exists v.
        rewrite write_lookup_out; [done|]. rewrite length_fmap. unfold in_range. lia. }
    unfold put. rewrite fmap_app; cbn [fmap list_fmap]; rewrite write_snoc, write_insert, length_app, length_fmap by (rewrite length_fmap; unfold in_range; lia).
    cbn [length]. rewrite !Nat2Z.inj_add, Z.add_assoc. done.
  - unfold modify. rewrite take_app_le by lia. rewrite Nat2Z.inj_add. done.
Qed.

Lemma sim_lift {X} (o : option X) e : sim (lift o e) (lift o e).
Proof. destruct o; [apply sim_ret|apply sim_fail]. Qed.

Lemma sim_read p : sim (read p) (read p).
Proof.
  intros t x s1 Hx. unfold read in *. cbn in Hx.
  destruct (ms !! p) as [v|] eqn:Hp; [|done]. injection Hx as <- <-. exists []. rewrite app_nil_r.
  split; [done|]. intros _. cbn. rewrite write_lookup_out, (lookup_weaken _ _ _ _ Hp ms_sub); [done|].
  rewrite length_fmap, length_take. intros Hr. rewrite ms_out in Hp; [done|]. unfold in_range in *. lia.
Qed.

Lemma sim_int z : sim (int z) (int z).
Proof. unfold int. case_decide; [apply sim_ret|apply sim_fail]. Qed.

#[local] Hint Resolve sim_ret sim_fail sim_lift sim_read sim_int sim_output : sim.

(** Follow the structure of the code. *)
Ltac sim :=
  repeat first
    [ solve [eauto with sim]
    | apply sim_bind; [|intros ?]
    | match goal with |- sim (match ?x with _ => _ end) _ => destruct x end ].

Lemma sim_next f : sim (next f) (next f).
Proof. unfold next. sim. Qed.
Lemma sim_arg a : sim (arg a) (arg a).
Proof. unfold arg. sim. Qed.
#[local] Hint Resolve sim_next sim_arg : sim.
Lemma sim_arg64 a : sim (arg64 a) (arg64 a).
Proof. unfold arg64. sim. Qed.
#[local] Hint Resolve sim_arg64 : sim.

Lemma sim_parse_number f n : sim (parse_number f n) (parse_number f n).
Proof. revert n. induction f as [|c f IH]; intros n; cbn [parse_number]; sim. Qed.
#[local] Hint Resolve sim_parse_number : sim.

Lemma sim_parse_field f a : sim (parse_field f a) (parse_field f a).
Proof. unfold parse_field. sim. Qed.
#[local] Hint Resolve sim_parse_field : sim.

Lemma sim_parse_conversion f a : sim (parse_conversion f a) (parse_conversion f a).
Proof. unfold parse_conversion. destruct (parse_flags f 0). sim. Qed.
#[local] Hint Resolve sim_parse_conversion : sim.

Lemma sim_output_dup ch n : sim (output_dup collect ch n) (output_dup vsnprintf_helper ch n).
Proof. induction n as [|n IH]; cbn [output_dup]; sim. Qed.
Lemma sim_output_all cs : sim (output_all collect cs) (output_all vsnprintf_helper cs).
Proof. induction cs as [|c cs IH]; cbn [output_all]; sim. Qed.
Lemma sim_push buf c : sim (push buf c) (push buf c).
Proof. unfold push. sim. Qed.
#[local] Hint Resolve sim_output_dup sim_output_all sim_push : sim.

Lemma sim_digit_loop n bs g v c buf : sim (digit_loop n bs g v c buf) (digit_loop n bs g v c buf).
Proof. revert v c buf. induction n as [|n IH]; intros v c buf; cbn [digit_loop]; sim. Qed.
Lemma sim_zero_loop n p buf : sim (zero_loop n p buf) (zero_loop n p buf).
Proof. revert buf. induction n as [|n IH]; intros buf; cbn [zero_loop]; sim. Qed.
#[local] Hint Resolve sim_digit_loop sim_zero_loop : sim.

Lemma sim_format_integer v sg ng bs c :
  sim (format_integer collect v sg ng bs c) (format_integer vsnprintf_helper v sg ng bs c).
Proof. unfold format_integer. cbv zeta. sim. Qed.
#[local] Hint Resolve sim_format_integer : sim.

Lemma sim_string_loop n str1 str2 i :
  (∀ i, sim (str1 i) (str2 i)) → sim (string_loop collect n str1 i) (string_loop vsnprintf_helper n str2 i).
Proof. intros Hs. revert i. induction n as [|n IH]; intros i; cbn [string_loop]; sim. Qed.
#[local] Hint Resolve sim_string_loop : sim.

Lemma sim_format_string str1 str2 n c :
  (∀ i, sim (str1 i) (str2 i)) → sim (format_string collect str1 n c) (format_string vsnprintf_helper str2 n c).
Proof. intros Hs. unfold format_string. cbv zeta. sim. Qed.
#[local] Hint Resolve sim_format_string : sim.

Lemma sim_strnlen_loop n n' str1 str2 mx l :
  (∀ i, sim (str1 i) (str2 i)) → (n ≤ n')%nat → sim (strnlen_loop n str1 mx l) (strnlen_loop n' str2 mx l).
Proof.
  intros Hs. revert n' l. induction n as [|n IH]; intros n' l Hn; cbn [strnlen_loop]; [sim|].
  destruct n' as [|n']; [lia|]. cbn [strnlen_loop]. apply sim_bind; [done|]. intros x.
  case_decide; [apply IH; lia|sim].
Qed.

Lemma sim_null_string i : sim (null_string i) (null_string i).
Proof. unfold null_string. sim. Qed.
#[local] Hint Resolve sim_null_string : sim.

Lemma sim_format_str s c : sim (format_str collect s c) (format_str vsnprintf_helper s c).
Proof.
  unfold format_str. cbv zeta. apply sim_gets. intros m2 Hm.
  assert (size ms ≤ size m2)%nat by by apply map_subseteq_size.
  case_decide; (apply sim_bind; [apply sim_strnlen_loop; [auto with sim|lia]|]); intros x; sim.
Qed.
#[local] Hint Resolve sim_format_str : sim.

Lemma sim_format_float d c : sim (format_float collect fpu d c) (format_float vsnprintf_helper fpu d c).
Proof. unfold format_float. cbv zeta. sim. Qed.
#[local] Hint Resolve sim_format_float : sim.

Lemma sim_signed_arg ty a : sim (signed_arg ty a) (signed_arg ty a).
Proof. destruct ty; cbn [signed_arg]; sim. Qed.
Lemma sim_unsigned_arg ty a : sim (unsigned_arg ty a) (unsigned_arg ty a).
Proof. destruct ty; cbn [unsigned_arg]; sim. Qed.
Lemma sim_abs64 v : sim (abs64 v) (abs64 v).
Proof. unfold abs64. sim. Qed.
#[local] Hint Resolve sim_signed_arg sim_unsigned_arg sim_abs64 : sim.

Lemma sim_convert n1 n2 ch c a :
  (∀ f ch, sim (n1 f ch) (n2 f ch)) → sim (convert collect fpu n1 ch c a) (convert vsnprintf_helper fpu n2 ch c a).
Proof. intros Hn. unfold convert. cbv zeta. sim. Qed.

Lemma sim_vprintf_loop n f a : sim (vprintf_loop collect fpu n f a) (vprintf_loop vsnprintf_helper fpu n f a).
Proof.
  revert f a. induction n as [|n IH]; intros f a; cbn [vprintf_loop]; [sim|].
  destruct f as [|ch f]; [sim|]. case_decide; [sim|]. case_decide; [sim|].
  apply sim_bind; [auto with sim|]. intros [[c f'] a']. apply sim_bind; [by apply sim_convert|]. intros a''. sim.
Qed.

Lemma sim_vprintf f a : sim (__vprintf collect fpu f a) (__vprintf vsnprintf_helper fpu f a).
Proof. apply sim_vprintf_loop. Qed.
End Simulation.

(** ** Integers *)

(** The digits of a number, the least significant first, and the number
    they stand for. *)
Fixpoint digits_of (fuel : nat) (b value : Z) : list Z :=
  match fuel with
  | O => []
  | S fuel => if decide (0 < value) then value mod b :: digits_of fuel b (value / b) else []
  end.
Definition number_of (b : Z) (ds : list Z) : Z := foldr (λ d n, d + b * n) 0 ds.

(** The characters of digits, with a comma before each group but the first. *)
Fixpoint grouped (b : integer_base) (group_flag : bool) (cnt : Z) (ds : list Z) : list Z :=
  match ds with
  | [] => []
  | d :: ds =>
      (if group_flag && bool_decide (0 < cnt) && bool_decide (cnt mod group b = 0) then [44] else [])
        ++ default 0 (digits b !! Z.to_nat d) :: grouped b group_flag (cnt + 1) ds
  end.

Definition known_base (b : integer_base) : Prop := b ∈ [base_d; base_o; base_x; base_X].

Lemma known_base_range b : known_base b → 8 ≤ base b ≤ 16 ∧ Z.of_nat (length (digits b)) = base b.
Proof. unfold known_base. rewrite !elem_of_cons, elem_of_nil. intros [->|[->|[->|[->|[]]]]]; done. Qed.

Lemma digits_of_range n b v : 0 < b → Forall (λ d, 0 ≤ d < b) (digits_of n b v).
Proof.
  intros Hb. revert v. induction n as [|n IH]; intros v; cbn; [done|]. case_decide; [|done].
  constructor; [by apply Z.mod_pos_bound|apply IH].
Qed.

Lemma digits_of_number n b v : 1 < b → 0 ≤ v < b ^ Z.of_nat n → number_of b (digits_of n b v) = v.
Proof.
  intros Hb. revert v. induction n as [|n IH]; intros v Hv; [cbn in *; lia|].
  rewrite Nat2Z.inj_succ, Z.pow_succ_r in Hv by lia.
  cbn. case_decide; cbn; [|lia]. fold (number_of b (digits_of n b (v / b))). rewrite IH.
  - rewrite (Z.div_mod v b) at 3 by lia. lia.
  - split; [apply Z.div_pos; lia|]. apply Z.div_lt_upper_bound; lia.
Qed.

Lemma digits_of_length n n' b v :
  1 < b → 0 ≤ v < b ^ Z.of_nat n' → (length (digits_of n b v) ≤ n')%nat.
Proof.
  intros Hb. revert n' v. induction n as [|n IH]; intros n' v Hv; [cbn; lia|]. cbn. case_decide; [|cbn; lia].
  destruct n' as [|n']; [cbn in Hv; lia|]. rewrite Nat2Z.inj_succ, Z.pow_succ_r in Hv by lia.
  cbn. apply le_n_S, IH. split; [apply Z.div_pos; lia|]. apply Z.div_lt_upper_bound; lia.
Qed.

Lemma grouped_length b g c ds : (length (grouped b g c ds) ≤ 2 * length ds)%nat.
Proof.
  revert c. induction ds as [|d ds IH]; intros c; cbn [grouped length]; [lia|].
  rewrite length_app. specialize (IH (c + 1)). destruct (_ && _); cbn; lia.
Qed.

Section Integers.
Context {A : Type}.
Abbreviation P := (M (mem * A)).

Lemma push_run buf ch (s : mem * A) : (length buf < BUF_SIZE)%nat → push buf ch s = Ok (buf ++ [ch], s).
Proof. intros H. unfold push. by rewrite decide_True. Qed.

Lemma digit_loop_run n b g v c buf (s : mem * A) :
  known_base b → 0 ≤ v < base b ^ Z.of_nat n →
  (length buf + 2 * length (digits_of n (base b) v) ≤ BUF_SIZE)%nat →
  digit_loop (S n) b g v c buf s = Ok (buf ++ grouped b g c (digits_of n (base b) v), s).
Proof.
  intros Hb. pose proof (known_base_range b Hb) as [Hr Hd].
  revert v c buf. induction n as [|n IH]; intros v c buf Hv Hl.
  { cbn in Hv. assert (v = 0) as -> by lia. cbn. by rewrite app_nil_r. }
  rewrite Nat2Z.inj_succ, Z.pow_succ_r in Hv by lia.
  assert (0 ≤ v / base b < base b ^ Z.of_nat n) as Hv'.
  { split; [apply Z.div_pos; lia|apply Z.div_lt_upper_bound; lia]. }
  cbn [digits_of] in Hl |- *. remember (S n) as k. cbn [digit_loop]. case_decide; [|by rewrite app_nil_r].
  cbn [length grouped] in *.
  destruct (lookup_lt_is_Some_2 (digits b) (Z.to_nat (v mod base b))) as [ch Hch].
  { pose proof (Z.mod_pos_bound v (base b)). lia. }
  set (comma := _ && _).
  rewrite (bind_Ok _ _ _ (buf ++ (if comma then [44] else [])) s).
  2:{ destruct comma; [apply push_run; lia|by rewrite app_nil_r]. }
  rewrite Hch. cbn [lift default]. rewrite (bind_Ok _ _ _ ch s) by done.
  rewrite (bind_Ok _ _ _ _ s) by (apply push_run; rewrite length_app; destruct comma; cbn; lia).
  subst k. rewrite IH; [|done|].
  - rewrite <- !app_assoc. done.
  - rewrite !length_app. destruct comma; cbn; lia.
Qed.

(** The digits and the zeros that fill them up to a precision. *)
Lemma zero_loop_run n p buf (s : mem * A) :
  (length buf ≤ 63)%nat → (63 - length buf < n)%nat →
  zero_loop n p buf s = Ok (buf ++ replicate (Z.to_nat p `min` 63 - length buf) 48, s).
Proof.
  revert buf. induction n as [|n IH]; intros buf Hb Hn; [lia|]. cbn [zero_loop]. case_decide as Hd.
  - rewrite (bind_Ok _ _ _ _ s) by (apply push_run; unfold BUF_SIZE in *; lia).
    rewrite IH by (rewrite length_app; unfold BUF_SIZE in *; cbn in *; lia).
    rewrite <- app_assoc, length_app. cbn [length app].
    unfold BUF_SIZE in *. replace (Z.to_nat p `min` 63 - length buf)%nat with (S (Z.to_nat p `min` 63 - (length buf + 1)))%nat by lia.
    done.
  - unfold BUF_SIZE in *. replace (Z.to_nat p `min` 63 - length buf)%nat with 0%nat by lia. by rewrite app_nil_r.
Qed.
End Integers.

Lemma collect_run ch m t : collect ch (m, t) = Ok ((), (m, t ++ [ch])).
Proof. done. Qed.

Lemma output_dup_collect ch n m t : output_dup collect ch n (m, t) = Ok ((), (m, t ++ replicate n ch)).
Proof.
  revert t. induction n as [|n IH]; intros t; [by cbn; rewrite app_nil_r|].
  cbn [output_dup replicate]. rewrite (bind_Ok _ _ _ _ _ (collect_run ch m t)), IH, <- app_assoc. done.
Qed.

Lemma output_all_collect cs m t : output_all collect cs (m, t) = Ok ((), (m, t ++ cs)).
Proof.
  revert t. induction cs as [|c cs IH]; intros t; [by cbn; rewrite app_nil_r|].
  cbn [output_all]. rewrite (bind_Ok _ _ _ _ _ (collect_run c m t)), IH, <- app_assoc. done.
Qed.

(** The parts of a converted integer. *)
Definition sign_text (is_signed negative : bool) (f : Z) : list Z :=
  if is_signed then
    if negative then [45] else if has f PLUS then [43] else if has f SPACE then [32] else []
  else [].
Definition prefix_text (b : integer_base) (f value : Z) : list Z :=
  if has f POUND && bool_decide (value ≠ 0) && bool_decide (base_xc b ≠ 0) then [48; base_xc b] else [].
Definition body_text (b : integer_base) (f prec : Z) (ds : list Z) : list Z :=
  let g := grouped b (has f GROUP) 0 ds in
  let z := g ++ replicate (Z.to_nat (if decide (prec < 0) then 1 else prec) `min` 63 - length g) 48 in
  reverse (if has f POUND && bool_decide (base b = 8) && negb (bool_decide (last z = Some 48)) then z ++ [48] else z).

(** Their layout in a field. *)
Definition layout (f width : Z) (sign prefix body : list Z) : list Z :=
  let pad := Z.to_nat (width - Z.of_nat (length body) - Z.of_nat (length prefix) - Z.of_nat (length sign)) in
  (if has f (Z.lor MINUS ZERO) then [] else replicate pad 32) ++ sign ++ prefix ++
  (if has f ZERO then replicate pad 48 else []) ++ body ++ (if has f MINUS then replicate pad 32 else []).

Lemma body_text_length b f prec ds :
  (length ds ≤ 22)%nat → (length (body_text b f prec ds) ≤ 64)%nat.
Proof.
  intros Hd. unfold body_text. set (g := grouped _ _ _ _). assert (length g ≤ 44)%nat.
  { pose proof (grouped_length b (has f GROUP) 0 ds). unfold g. lia. }
  rewrite length_reverse. destruct (_ && _); rewrite !length_app, length_replicate; cbn [length]; lia.
Qed.

(** The sign and the prefix as characters, 0 for none. *)
Definition sign_char (is_signed negative : bool) (f : Z) : Z :=
  if is_signed then
    if has f PLUS then if negative then 45 else 43
    else if has f SPACE then if negative then 45 else 32
    else if negative then 45 else 0
  else 0.

Lemma sign_char_text sg ng f :
  (if decide (sign_char sg ng f ≠ 0) then [sign_char sg ng f] else []) = sign_text sg ng f.
Proof. unfold sign_char, sign_text. by destruct sg, ng, (has f PLUS), (has f SPACE). Qed.

Lemma prefix_char_text b f v (x := if has f POUND && bool_decide (v ≠ 0) then base_xc b else 0) :
  (if decide (x ≠ 0) then [48; x] else []) = prefix_text b f v.
Proof.
  subst x. unfold prefix_text. destruct (has f POUND && bool_decide (v ≠ 0)); cbn [andb]; [|done].
  case_decide as H; [by rewrite (bool_decide_true _ H)|by rewrite H].
Qed.

(** A step that outputs a text when a condition holds. *)
Lemma out_step {X} (c : Prop) `{Decision c} (f : M (mem * list Z) unit) (g : M (mem * list Z) X) x m t :
  f (m, t) = Ok ((), (m, t ++ x)) →
  ((if decide c then f else mret ());; g) (m, t) = g (m, t ++ if decide c then x else []).
Proof. intros Hf. case_decide; [by rewrite (bind_Ok _ _ _ _ _ Hf)|]. by rewrite app_nil_r. Qed.

Lemma out_step_b {X} (c : bool) (f : M (mem * list Z) unit) (g : M (mem * list Z) X) x m t :
  f (m, t) = Ok ((), (m, t ++ x)) →
  ((if c then f else mret ());; g) (m, t) = g (m, t ++ if c then x else []).
Proof. intros Hf. destruct c; [by rewrite (bind_Ok _ _ _ _ _ Hf)|]. by rewrite app_nil_r. Qed.

(** What [format_integer] outputs, from its parts. *)
Lemma output_parts f sg x pad buf m t :
  ((if has f (Z.lor MINUS ZERO) then mret () else output_dup collect 32 pad);;
   (if decide (sg ≠ 0) then collect sg else mret ());;
   (if decide (x ≠ 0) then collect 48;; collect x else mret ());;
   (if has f ZERO then output_dup collect 48 pad else mret ());;
   output_all collect buf;;
   (if has f MINUS then output_dup collect 32 pad else mret ())) (m, t) =
  Ok ((), (m, t ++ (if has f (Z.lor MINUS ZERO) then [] else replicate pad 32) ++
     (if decide (sg ≠ 0) then [sg] else []) ++ (if decide (x ≠ 0) then [48; x] else []) ++
     (if has f ZERO then replicate pad 48 else []) ++ buf ++ (if has f MINUS then replicate pad 32 else []))).
Proof.
  rewrite (bind_Ok _ _ _ () (m, t ++ if has f (Z.lor MINUS ZERO) then [] else replicate pad 32)).
  2:{ destruct (has f (Z.lor MINUS ZERO)); [by rewrite app_nil_r|apply output_dup_collect]. }
  rewrite (out_step _ _ _ [sg]) by done.
  rewrite (out_step _ _ _ [48; x]).
  2:{ rewrite (bind_Ok _ _ _ _ _ (collect_run 48 _ _)), collect_run, <- !app_assoc. done. }
  rewrite (out_step_b _ _ _ _ _ _ (output_dup_collect 48 pad _ _)).
  rewrite (bind_Ok _ _ _ _ _ (output_all_collect buf _ _)), <- !app_assoc.
  destruct (has f MINUS); [by rewrite output_dup_collect, <- !app_assoc|by rewrite app_nil_r].
Qed.

Lemma pow_ge_64 b : 8 ≤ b → 2 ^ 64 ≤ b ^ Z.of_nat 22.
Proof. intros Hb. etrans; [|apply (Z.pow_le_mono_l 8); lia]. vm_compute. discriminate. Qed.

(** The digits of a 64-bit value. *)
Lemma digits_64 b v (ds := digits_of 64 (base b) v) :
  known_base b → in_u 64 v →
  number_of (base b) ds = v ∧ Forall (λ d, 0 ≤ d < base b) ds ∧ (length ds ≤ 22)%nat ∧ v < base b ^ Z.of_nat 64.
Proof.
  intros Hb Hv. pose proof (known_base_range b Hb) as [Hr Hd]. pose proof (pow_ge_64 (base b) ltac:(lia)).
  unfold in_u in Hv. pose proof (Z.pow_le_mono_r (base b) (Z.of_nat 22) (Z.of_nat 64)).
  split_and!; [apply digits_of_number; lia|apply digits_of_range; lia|apply digits_of_length; lia|lia].
Qed.

(** What [format_integer] prints, see [format_integer_prints]. *)
Lemma format_integer_run value is_signed negative b c m t :
  known_base b → in_u 64 value → 0 ≤ width c → in_s 32 (width c) →
  let ds := digits_of 64 (base b) value in
  number_of (base b) ds = value ∧
  Forall (λ d, 0 ≤ d < base b) ds ∧
  format_integer collect value is_signed negative b c (m, t) =
    Ok ((), (m, t ++ layout (flags c) (width c) (sign_text is_signed negative (flags c))
                       (prefix_text b (flags c) value) (body_text b (flags c) (precision c) ds))).
Proof.
  intros Hb Hv Hw Hw' ds. destruct (digits_64 b value Hb Hv) as (Hn & Hf & Hl & Hp). do 2 (split; [done|]).
  unfold in_u in Hv. unfold format_integer. cbv zeta. set (f := flags c).
  rewrite (bind_Ok _ _ _ _ _ (digit_loop_run 64 b (has f GROUP) value 0 [] (m, t) Hb ltac:(lia)
    ltac:(cbn [length]; unfold BUF_SIZE; lia))).
  fold ds in Hl |- *. cbn [app]. pose proof (body_text_length b f (precision c) ds Hl) as Hlen.
  pose proof (grouped_length b (has f GROUP) 0 ds) as Hg. unfold body_text in *.
  set (g := grouped b (has f GROUP) 0 ds) in *.
  rewrite (bind_Ok _ _ _ _ _ (zero_loop_run (S BUF_SIZE) _ g (m, t) ltac:(lia) ltac:(unfold BUF_SIZE; lia))).
  set (z := g ++ replicate _ _) in *. set (oct := _ && _ && negb _) in *.
  rewrite (bind_Ok _ _ _ (if oct then z ++ [48] else z) (m, t)).
  2:{ destruct oct; [apply push_run|done]. unfold BUF_SIZE. subst z. rewrite length_app, length_replicate. lia. }
  set (buf := if oct then z ++ [48] else z) in *. rewrite length_reverse in Hlen.
  fold (sign_char is_signed negative f). unfold layout. rewrite <- sign_char_text, <- prefix_char_text, length_reverse.
  set (sg := sign_char is_signed negative f). set (x := if has f POUND && _ then base_xc b else 0).
  rewrite (bind_Ok _ _ _ (width c - Z.of_nat (length buf) - Z.of_nat (length (if decide (x ≠ 0) then [48; x] else []))
             - Z.of_nat (length (if decide (sg ≠ 0) then [sg] else []))) (m, t)); [by rewrite output_parts|].
  unfold int. rewrite decide_True; [by repeat case_decide|].
  unfold in_s in *. repeat case_decide; lia.
Qed.

(** [format_integer] prints the digits of any 64-bit value in each of the
    four bases, with every combination of flags, width and precision: the 64
    bytes of its buffer are enough, the digits it prints are those of the
    value, and the text is the sign, the prefix and the digits, padded to
    the width. *)
Theorem format_integer_prints value is_signed negative b c m t :
  known_base b → in_u 64 value → 0 ≤ width c → in_s 32 (width c) →
  let ds := digits_of 64 (base b) value in
  number_of (base b) ds = value ∧
  Forall (λ d, 0 ≤ d < base b) ds ∧
  format_integer collect value is_signed negative b c (m, t) =
    Ok ((), (m, t ++ layout (flags c) (width c) (sign_text is_signed negative (flags c))
                       (prefix_text b (flags c) value) (body_text b (flags c) (precision c) ds))).
Proof. apply format_integer_run. Qed.
Lemma format_integer_prints_witness :
  known_base base_o ∧ in_u 64 (2 ^ 64 - 1) ∧
  format_integer collect (2 ^ 64 - 1) false false base_o (Conv (POUND + GROUP) 32 70 INTMAX) (∅, []) =
    Ok ((), (∅, chars "00000000000000000000000000000000001,777,777,777,777,777,777,777")).
Proof.
  split; [set_solver|]. split; [split; by vm_compute|].
  destruct (format_integer_prints (2 ^ 64 - 1) false false base_o (Conv (POUND + GROUP) 32 70 INTMAX) ∅ [])
    as (_ & _ & H); [set_solver|split; by vm_compute|done|split; by vm_compute|].
  rewrite H. vm_compute. reflexivity.
Defined.

(** A field whose width argument is negative is padded twice when the flag
    for zeros is given as well: [printf ("%0*d|", -3, 7)]. *)
Lemma zero_and_minus fpu :
  __vprintf collect fpu (chars "%0*d|") [2 ^ 32 - 3; 7] (∅, []) = Ok ((), (∅, chars "007  |")).
Proof. by vm_compute. Qed.

(** A format that ends within a conversion is read past its terminator. *)
Lemma lone_percent fpu : __vprintf collect fpu (chars "5%") [] (∅, []) = Err Undef.
Proof. by vm_compute. Qed.

(** ** [vsnprintf] *)

(** What [vsnprintf] does, see [vsnprintf_prints]. *)
Lemma vsnprintf_run fpu m ms ms' buffer (size : nat) fmt args text :
  mapped m buffer size → ms ⊆ m → (∀ a, in_range buffer (Z.of_nat size) a → ms !! a = None) →
  Z.of_nat size ≤ 2 ^ 31 →
  __vprintf collect fpu fmt args (ms, []) = Ok ((), (ms', text)) →
  in_s 32 (Z.of_nat (length text)) →
  vsnprintf fpu buffer (Z.of_nat size) fmt args m =
    Ok (Z.of_nat (length text),
        if decide (size = 0%nat) then m else write buffer ((u8 <$> take (size - 1) text) ++ [0]) m).
Proof.
  intros Hm Hs Ho Hsz Ht Hl. set (max := (size - 1)%nat).
  destruct (sim_vprintf fpu m ms buffer max Hs) with fmt args ([] : list Z) () (ms', text) as (t' & [= _ <-] & H).
  { intros a Ha. apply Ho. unfold in_range in *. lia. }
  { intros a Ha. apply Hm. unfold in_range in *. lia. }
  { done. }
  specialize (H Hl). unfold vsnprintf.
  assert ((if decide (0 < Z.of_nat size) then i32 (Z.of_nat size - 1) else 0) = Z.of_nat max) as Hmax.
  { case_decide; [rewrite wraps_id; [lia..|unfold in_s; lia]|lia]. }
  rewrite Hmax. unfold St in H at 1. rewrite take_nil in H. cbn [length app fmap list_fmap write] in H.
  rewrite Z.add_0_r in H. change (Z.of_nat 0) with 0 in H. rewrite H. cbn [St app aux_p aux_length].
  case_decide as H1; case_decide as H2; try lia; [|by subst size; rewrite take_0].
  assert (length (take max text) ≤ max)%nat by (rewrite length_take; lia).
  assert (¬ in_range buffer (Z.of_nat (length (u8 <$> take max text))) (buffer + Z.of_nat (length (take max text)))) as Hr.
  { rewrite length_fmap. unfold in_range. lia. }
  rewrite (bind_Ok _ _ _ () (<[buffer + Z.of_nat (length (take max text)) := 0]> (write buffer (u8 <$> take max text) m))).
  - rewrite write_snoc, (length_fmap u8), write_insert by exact Hr. done.
  - rewrite store_run; [done|]. rewrite write_lookup_out by done. apply Hm. unfold in_range. lia.
Qed.

(** C32: [vsnprintf] writes to its buffer what printing the same format and
    arguments to a console prints, cut to one character less than the
    buffer's size and followed by a null terminator; it touches nothing else
    and returns the length of the whole text.  The arguments' strings must
    not be in the buffer. *)
Theorem vsnprintf_prints fpu m ms ms' buffer (size : nat) fmt args text :
  mapped m buffer size → ms ⊆ m → (∀ a, in_range buffer (Z.of_nat size) a → ms !! a = None) →
  Z.of_nat size ≤ 2 ^ 31 →
  __vprintf collect fpu fmt args (ms, []) = Ok ((), (ms', text)) →
  in_s 32 (Z.of_nat (length text)) →
  vsnprintf fpu buffer (Z.of_nat size) fmt args m =
    Ok (Z.of_nat (length text),
        if decide (size = 0%nat) then m else write buffer ((u8 <$> take (size - 1) text) ++ [0]) m).
Proof. apply vsnprintf_run. Qed.

(** A memory that holds the string "hi" at 100 and a buffer of 12 bytes at
    200. *)
Definition demo_strings : mem := write 100 (chars "hi" ++ [0]) ∅.
Definition demo_mem : mem := write 200 (replicate 12 255) demo_strings.

Lemma vsnprintf_prints_witness :
  mapped demo_mem 200 12 ∧
  __vprintf collect (λ _ _, None) (chars "%s: %-5d|%#x %%") [100; 2 ^ 32 - 42; 255] (demo_strings, []) =
    Ok ((), (demo_strings, chars "hi: -42  |0xff %")) ∧
  vsnprintf (λ _ _, None) 200 12 (chars "%s: %-5d|%#x %%") [100; 2 ^ 32 - 42; 255] demo_mem =
    Ok (16, write 200 (chars "hi: -42  |0" ++ [0]) demo_mem).
Proof.
  assert (mapped demo_mem 200 12) as Hm.
  { unfold demo_mem. apply (bytes_at_mapped _ _ (replicate 12 255)), write_bytes_at. }
  assert (__vprintf collect (λ _ _, None) (chars "%s: %-5d|%#x %%") [100; 2 ^ 32 - 42; 255] (demo_strings, []) =
    Ok ((), (demo_strings, chars "hi: -42  |0xff %"))) as Hv by by vm_compute.
  split; [exact Hm|]. split; [exact Hv|].
  rewrite (vsnprintf_prints (λ _ _, None) demo_mem demo_strings demo_strings 200 12 _ _ (chars "hi: -42  |0xff %"));
    [by vm_compute|exact Hm|by apply (bool_decide_unpack _); vm_compute| |done|exact Hv|split; by vm_compute].
  intros a Ha. unfold demo_strings. rewrite write_lookup_out; [done|]. unfold in_range in *. cbn. lia.
Defined.

(** ** Printing and reading back *)

(** The loop of [atoi] on digits, the most significant first. *)
Lemma parse_digits_run n p acc ds m :
  str_at m p ((λ d, d + 48) <$> ds) → Forall (λ d, 0 ≤ d < 10) ds → (length ds < n)%nat →
  acc ≤ 0 → - 2 ^ 31 ≤ foldl (λ a d, a * 10 - d) acc ds →
  parse_digits n p acc m = Ok (foldl (λ a d, a * 10 - d) acc ds, m).
Proof.
  revert n p acc. induction ds as [|d ds IH]; intros [|n] p acc Hs Hd Hn Ha Hl; cbn in Hn; try lia.
  - apply str_at_nil in Hs. cbn. by rewrite (bind_Ok _ _ _ _ _ (load_run _ _ _ Hs)).
  - cbn [fmap list_fmap] in Hs. apply str_at_cons in Hs as (Hc & _ & Hs). apply Forall_cons in Hd as [Hd Hds].
    assert (∀ a, a ≤ 0 → foldl (λ a d, a * 10 - d) a ds ≤ a) as Hmono.
    { clear -Hds. induction Hds as [|x xs Hx Hxs IHxs]; intros a Ha; cbn; [done|]. rewrite IHxs; lia. }
    cbn [foldl] in *. specialize (Hmono (acc * 10 - d) ltac:(lia)).
    cbn [parse_digits]. rewrite (bind_Ok _ _ _ _ _ (load_run _ _ _ Hc)).
    unfold isdigit, between. rewrite !bool_decide_true by lia. cbn [andb].
    unfold int_value. rewrite decide_True by (unfold in_s; lia).
    rewrite (bind_Ok _ _ _ (acc * 10) m) by done.
    replace (d + 48 - 48) with d by lia. rewrite decide_True by (unfold in_s; lia).
    rewrite (bind_Ok _ _ _ (acc * 10 - d) m) by done. apply IH; [done..|lia|lia|done].
Qed.

Lemma foldl_number ds : foldl (λ a d, a * 10 - d) 0 (reverse ds) = - number_of 10 ds.
Proof.
  induction ds as [|d ds IH]; [done|]. rewrite reverse_cons, foldl_app, IH. cbn. fold (number_of 10 ds). lia.
Qed.

(** What ["%d"] is. *)
Lemma vprintf_d fpu w m :
  __vprintf collect fpu (chars "%d") [w] (m, []) =
    (a ← abs64 (i32 (u32 w)); format_integer collect a true (bool_decide (i32 (u32 w) < 0)) base_d (Conv 0 0 (-1) INT))
      (m, []).
Proof.
  unfold __vprintf. change (chars "%d") with [37; 100].
  change (length [37; 100]%Z + 32)%nat with (S (S 32)). generalize 32%nat as n. intros n.
  remember (S n) as n'. cbn [vprintf_loop].
  rewrite decide_False by lia. rewrite decide_False by done.
  rewrite (bind_Ok _ _ _ (Conv 0 0 (-1) INT, [100], [w]) (m, [])) by done. cbn iota.
  change (peek [100]) with 100. unfold convert. rewrite decide_True by (apply (bool_decide_unpack _); by vm_compute).
  cbn [ctype signed_arg arg]. unfold mbind, M_bind, mret, M_ret. cbn iota beta zeta. cbn [fst snd].
  destruct (abs64 (i32 (u32 w)) (m, [])) as [[a s]|]; [|done].
  destruct (format_integer collect a true _ base_d _ s) as [[[] s']|]; [|done]. by subst n'.
Qed.

Lemma grouped_decimal c ds :
  Forall (λ d, 0 ≤ d < 10) ds → grouped base_d false c ds = (λ d, d + 48) <$> ds.
Proof.
  intros H. revert c. induction H as [|d ds Hd _ IH]; intros c; [done|]. cbn [grouped andb app fmap list_fmap].
  rewrite IH. f_equal. 
  assert (d = 0 ∨ d = 1 ∨ d = 2 ∨ d = 3 ∨ d = 4 ∨ d = 5 ∨ d = 6 ∨ d = 7 ∨ d = 8 ∨ d = 9) as Hd' by lia. clear -Hd'.
  naive_solver.
Qed.

Lemma number_of_zeros b ds n : number_of b (ds ++ replicate n 0) = number_of b ds.
Proof.
  unfold number_of. rewrite foldr_app. f_equal. induction n as [|n IH]; cbn; [done|]. rewrite IH. lia.
Qed.

Lemma layout_plain sign body : layout 0 0 sign [] body = sign ++ body.
Proof.
  unfold layout. replace (Z.to_nat _) with 0%nat by lia. cbn [app replicate].
  change (has 0 MINUS) with false. change (has 0 ZERO) with false. by destruct (has 0 _); cbn; rewrite app_nil_r.
Qed.

Lemma body_text_d ds :
  Forall (λ d, 0 ≤ d < 10) ds →
  body_text base_d 0 (-1) ds = (λ d, d + 48) <$> reverse (ds ++ replicate (1 - length ds) 0).
Proof.
  intros H. unfold body_text. change (has 0 GROUP) with false. change (has 0 POUND) with false. cbn [andb].
  rewrite grouped_decimal, length_fmap, fmap_reverse, fmap_app, fmap_replicate by done. done.
Qed.

(** The text of ["%d"]: a sign and at most ten digits. *)
Lemma print_d fpu m v :
  in_s 32 v → ∃ ds, number_of 10 ds = Z.abs v ∧ Forall (λ d, 0 ≤ d < 10) ds ∧ ds ≠ [] ∧ (length ds ≤ 10)%nat ∧
    __vprintf collect fpu (chars "%d") [u32 v] (m, []) =
      Ok ((), (m, (if decide (v < 0) then [45] else []) ++ ((λ d, d + 48) <$> reverse ds))).
Proof.
  intros Hv. assert (i32 (u32 (u32 v)) = v) as Hi.
  { unfold wrapu, wraps, in_s in *. rewrite Zmod_mod, Zplus_mod_idemp_l, Z.mod_small; lia. }
  rewrite vprintf_d, Hi. unfold in_s in Hv.
  rewrite (bind_Ok _ _ _ (Z.abs v) (m, [])).
  2:{ unfold abs64. case_decide; [rewrite decide_True by (unfold in_s; lia)|]; by rewrite ?Z.abs_neq, ?Z.abs_eq by lia. }
  destruct (format_integer_run (Z.abs v) true (bool_decide (v < 0)) base_d (Conv 0 0 (-1) INT) m [])
    as (Hn & Hf & ->); [unfold known_base; left|unfold in_u; lia|done|split; by vm_compute|].
  cbn [base base_d] in *. set (ds := digits_of 64 10 (Z.abs v)) in *.
  assert (length ds ≤ 10)%nat by (apply digits_of_length; lia).
  exists (ds ++ replicate (1 - length ds) 0). rewrite number_of_zeros. split; [done|]. split.
  { apply Forall_app. split; [done|]. by apply Forall_replicate. }
  split; [by destruct ds|]. split; [rewrite length_app, length_replicate; lia|].
  cbn [flags width precision app]. change (prefix_text base_d 0 (Z.abs v)) with ([] : list Z).
  rewrite layout_plain, body_text_d by done. unfold sign_text.
  change (has 0 PLUS) with false. change (has 0 SPACE) with false.
  by case_decide; [rewrite bool_decide_true|rewrite bool_decide_false].
Qed.

Lemma skip_space_none n p c m : m !! p = Some c → isspace c = false → skip_space (S n) p m = Ok (p, m).
Proof. intros Hp Hc. cbn [skip_space]. rewrite (bind_Ok _ _ _ _ _ (load_run _ _ _ Hp)). by rewrite Hc. Qed.

Lemma digit_not_space d : 0 ≤ d < 10 → isspace (d + 48) = false.
Proof. intros Hd. unfold isspace. rewrite bool_decide_false; [done|]. rewrite !elem_of_cons, elem_of_nil. lia. Qed.

Lemma foldl_digits_le ds a : Forall (λ d, 0 ≤ d < 10) ds → a ≤ 0 → foldl (λ a d, a * 10 - d) a ds ≤ a.
Proof. intros H. revert a. induction H as [|x xs Hx Hxs IH]; intros a Ha; cbn; [done|]. rewrite IH; lia. Qed.

(** [atoi] on a sign and digits. *)
Lemma atoi_digits m p (neg : bool) ds (n := foldl (λ a d, a * 10 - d) 0 ds) :
  p ≠ NULL → str_at m p ((if neg then [45] else []) ++ ((λ d, d + 48) <$> ds)) →
  Forall (λ d, 0 ≤ d < 10) ds → ds ≠ [] → - 2 ^ 31 ≤ n → (neg = false → - 2 ^ 31 < n) →
  atoi p m = Ok (if neg then n else - n, m).
Proof.
  intros Hp Hs Hd Hne Hn Hn'. pose proof (foldl_digits_le ds 0 Hd ltac:(lia)) as Hle. fold n in Hle.
  destruct ds as [|d ds]; [done|]. unfold atoi. rewrite (bind_Ok _ _ _ _ _ (ASSERT_true _ _ (bool_decide_eq_true_2 _ Hp))).
  pose proof (str_at_size _ _ _ Hs) as Hsz. rewrite length_app, length_fmap in Hsz.
  apply Forall_cons in Hd as Hd'. destruct Hd' as [Hd0 _].
  destruct neg; cbn [app fmap list_fmap] in Hs.
  - apply str_at_cons in Hs as (Hc & _ & Hs).
    rewrite (bind_Ok _ _ _ p m) by (rewrite bounded_run; by eapply skip_space_none).
    rewrite (bind_Ok _ _ _ _ _ (load_run _ _ _ Hc)). cbn iota zeta beta. rewrite bool_decide_true, decide_True by auto.
    rewrite (bind_Ok _ _ _ n m); [done|]. rewrite bounded_run. apply parse_digits_run; [done..|cbn in *; lia|done|done].
  - pose proof Hs as (Hc & _ & _)%str_at_cons.
    rewrite (bind_Ok _ _ _ p m) by (rewrite bounded_run; eapply skip_space_none; [exact Hc|by apply digit_not_space]).
    rewrite (bind_Ok _ _ _ _ _ (load_run _ _ _ Hc)). cbn iota zeta beta. rewrite bool_decide_false, decide_False by lia.
    rewrite (bind_Ok _ _ _ n m).
    + specialize (Hn' eq_refl). unfold int_value. rewrite decide_True; [done|]. unfold in_s. lia.
    + rewrite bounded_run. apply parse_digits_run; [done..|cbn in *; lia|done|done].
Qed.

(** [atoi] reads back the number [snprintf] printed with ["%d"]: for every
    [int], the negative extreme included, in a buffer of at least 12 bytes. *)
Theorem snprintf_atoi fpu m buffer (size : nat) v :
  mapped m buffer size → buffer ≠ NULL → (12 ≤ size)%nat → Z.of_nat size ≤ 2 ^ 31 → in_s 32 v →
  ∃ n m', snprintf fpu buffer (Z.of_nat size) (chars "%d") [u32 v] m = Ok (n, m') ∧ atoi buffer m' = Ok (v, m').
Proof.
  intros Hm Hb Hs Hs' Hv. destruct (print_d fpu ∅ v Hv) as (ds & Hn & Hd & Hne & Hl & Hp).
  assert (Forall (λ d, 0 ≤ d < 10) (reverse ds)) as Hrd by by apply Forall_reverse.
  set (text := _ ++ _) in Hp.
  assert (length text ≤ 11)%nat as Ht.
  { unfold text. rewrite length_app, length_fmap, length_reverse. case_decide; cbn; lia. }
  exists (Z.of_nat (length text)), (write buffer ((u8 <$> take (size - 1) text) ++ [0]) m). split.
  { unfold snprintf. rewrite (vsnprintf_run fpu m ∅ ∅ buffer size _ _ text Hm).
    - by rewrite decide_False by lia.
    - apply map_empty_subseteq.
    - intros a _. apply lookup_empty.
    - exact Hs'.
    - exact Hp.
    - unfold in_s. lia. }
  assert (Forall (λ c, 0 < c < 256) text) as Hc.
  { unfold text. apply Forall_app. split; [case_decide; repeat constructor|].
    apply Forall_fmap. eapply Forall_impl; [exact Hrd|]. cbn. lia. }
  assert (u8 <$> text = text) as Hu8.
  { transitivity (id <$> text); [|by rewrite list_fmap_id]. apply list_fmap_ext. intros i c Hi.
    apply wrapu_id. rewrite Forall_lookup in Hc. destruct (Hc _ _ Hi). unfold in_u, id. change (2 ^ 8) with 256. lia. }
  rewrite take_ge, Hu8 by lia. pose proof (foldl_number ds) as Hf. rewrite Hn in Hf. unfold in_s in Hv.
  rewrite (atoi_digits _ _ (bool_decide (v < 0)) (reverse ds)).
  - rewrite Hf. case_bool_decide; do 2 f_equal; lia.
  - done.
  - replace ((if bool_decide (v < 0) then [45] else []) ++ _) with text.
    + split; [apply write_bytes_at|]. eapply Forall_impl; [exact Hc|]. cbn. lia.
    + unfold text. case_decide; [by rewrite bool_decide_true|by rewrite bool_decide_false].
  - done.
  - intros E. apply Hne. by rewrite <- (reverse_involutive ds), E.
  - lia.
  - intros ?%bool_decide_eq_false. lia.
Qed.

Lemma snprintf_atoi_witness :
  in_s 32 (- 2 ^ 31) ∧
  ∃ n m', snprintf (λ _ _, None) 200 12 (chars "%d") [u32 (- 2 ^ 31)] demo_mem = Ok (n, m') ∧ atoi 200 m' = Ok (- 2 ^ 31, m').
Proof.
  split; [split; by vm_compute|]. apply (snprintf_atoi (λ _ _, None) demo_mem 200 12 (- 2 ^ 31)).
  - unfold demo_mem. apply (bytes_at_mapped _ _ (replicate 12 255)), write_bytes_at.
  - done.
  - lia.
  - by vm_compute.
  - split; by vm_compute.
Defined.

End StdioSpec.
