(* ===== verification/Hash.v ===== *)
(** * Hash tables (lib/kernel/hash.c, hash.h)

    A bucket is the sequence of the addresses of its elements: the list
    operations on it are those of list.c on a well-formed list.  [hash] and
    [less] are the client's functions with their auxiliary argument
    supplied; [malloc] says whether an allocation of a size succeeds. *)

From S2P Require Import Prelude CMem.
Import CMem.

Module Hash.

(** [struct hash], without the client's functions. *)
Record hash_t := Hash_t { elem_cnt : Z; bucket_cnt : Z; buckets : list (list Z) }.

(** Where an iterator stands: at the head of its bucket's list, at an
    element, or at the end of the table. *)
Inductive position := AtHead | AtElem (e : Z) | AtEnd.
Record hash_iterator := HashIterator { it_bucket : nat; it_elem : position }.

Abbreviation T := (M hash_t).

Definition size_t (z : Z) : Z := u32 z.

(** [sizeof (struct list)]: two elements of two pointers. *)
Definition sizeof_list : Z := 16.

Definition turn_off_least_1bit (x : Z) : Z := Z.land x (size_t (x - 1)).
Definition is_power_of_2 (x : Z) : bool := bool_decide (x ≠ 0) && bool_decide (turn_off_least_1bit x = 0).

Definition MIN_ELEMS_PER_BUCKET : Z := 1.
Definition BEST_ELEMS_PER_BUCKET : Z := 2.
Definition MAX_ELEMS_PER_BUCKET : Z := 4.

(** [while (!is_power_of_2 (n)) n = turn_off_least_1bit (n)]: a round per bit. *)
Fixpoint power_loop (fuel : nat) (n : Z) : T Z :=
  match fuel with
  | O => fail NoFuel
  | S fuel => if is_power_of_2 n then mret n else power_loop fuel (turn_off_least_1bit n)
  end.

Section Table.
Context (hash : Z → Z) (less : Z → Z → bool).

(** The index of the bucket of [e] among [cnt] buckets. *)
Definition bucket_idx (cnt e : Z) : nat := Z.to_nat (Z.land (u32 (hash e)) (size_t (cnt - 1))).

Definition find_bucket (e : Z) : T nat := h ← get; mret (bucket_idx (bucket_cnt h) e).

Definition equal (hi e : Z) : bool := negb (less hi e) && negb (less e hi).

Fixpoint find_elem_loop (bucket : list Z) (e : Z) : option Z :=
  match bucket with
  | [] => None
  | hi :: bucket => if equal hi e then Some hi else find_elem_loop bucket e
  end.
Definition find_elem (bucket : nat) (e : Z) : T (option Z) :=
  h ← get; b ← lift (buckets h !! bucket) Undef; mret (find_elem_loop b e).

(** [h->elem_cnt++] and [list_push_front]. *)
Definition insert_elem (bucket : nat) (e : Z) : T unit :=
  h ← get; b ← lift (buckets h !! bucket) Undef;
  put (Hash_t (size_t (elem_cnt h + 1)) (bucket_cnt h) (<[bucket := e :: b]> (buckets h))).

(** [list_remove] takes [e] out of the list it is in. *)
Definition list_remove (e : Z) (bs : list (list Z)) : list (list Z) := filter (λ x, x ≠ e) <$> bs.

Definition remove_elem (e : Z) : T unit :=
  h ← get;
  if decide (e ∈ concat (buckets h)) then
    put (Hash_t (size_t (elem_cnt h - 1)) (bucket_cnt h) (list_remove e (buckets h)))
  else fail Undef.

(** Move the elements of an old bucket, front to back, to the fronts of the
    new ones. *)
Fixpoint move_bucket (cnt : Z) (old : list Z) (bs : list (list Z)) : option (list (list Z)) :=
  match old with
  | [] => Some bs
  | e :: old =>
      b ← bs !! bucket_idx cnt e;
      move_bucket cnt old (<[bucket_idx cnt e := e :: b]> bs)
  end.
Fixpoint move_loop (cnt : Z) (olds bs : list (list Z)) : option (list (list Z)) :=
  match olds with
  | [] => Some bs
  | old :: olds => bs ← move_bucket cnt old bs; move_loop cnt olds bs
  end.

Definition rehash (malloc : Z → bool) : T unit :=
  h ← get;
  let n := elem_cnt h / BEST_ELEMS_PER_BUCKET in
  let n := if decide (n < 4) then 4 else n in
  n ← power_loop 33 n;
  if decide (n = bucket_cnt h) then mret ()
  else if malloc (size_t (sizeof_list * n)) then
    (* the new array holds n lists *)
    if decide (sizeof_list * n ≠ size_t (sizeof_list * n)) then fail Undef else
    bs ← lift (move_loop n (buckets h) (replicate (Z.to_nat n) [])) Undef;
    put (Hash_t (elem_cnt h) n bs)
  else mret ().

Definition hash_insert (malloc : Z → bool) (new : Z) : T (option Z) :=
  bucket ← find_bucket new;
  old ← find_elem bucket new;
  (match old with None => insert_elem bucket new | Some _ => mret () end);;
  rehash malloc;;
  mret old.

Definition hash_replace (malloc : Z → bool) (new : Z) : T (option Z) :=
  bucket ← find_bucket new;
  old ← find_elem bucket new;
  (match old with Some old => remove_elem old | None => mret () end);;
  insert_elem bucket new;;
  rehash malloc;;
  mret old.

Definition hash_find (e : Z) : T (option Z) :=
  bucket ← find_bucket e; find_elem bucket e.

Definition hash_delete (malloc : Z → bool) (e : Z) : T (option Z) :=
  bucket ← find_bucket e;
  found ← find_elem bucket e;
  (match found with Some found => remove_elem found;; rehash malloc | None => mret () end);;
  mret found.

Definition hash_size : T Z := gets elem_cnt.
Definition hash_empty : T bool := gets (λ h, bool_decide (elem_cnt h = 0)).

(** *** Whole tables *)

(** A client's action works on a state of its own. *)
Fixpoint each {A} (action : Z → M A unit) (es : list Z) : M A unit :=
  match es with [] => mret () | e :: es => action e;; each action es end.

Definition hash_apply {A} (action : Z → M A unit) (h : hash_t) : M A unit := each action (concat (buckets h)).

Definition hash_clear {A} (destructor : option (Z → M A unit)) (h : hash_t) : M A hash_t :=
  (match destructor with Some d => each d (concat (buckets h)) | None => mret () end);;
  mret (Hash_t 0 (bucket_cnt h) (replicate (length (buckets h)) [])).

(** The table, if its buckets could be allocated. *)
Definition hash_init (malloc : Z → bool) : option hash_t :=
  if malloc (size_t (sizeof_list * 4)) then Some (Hash_t 0 4 (replicate 4 [])) else None.

Definition hash_destroy {A} (destructor : option (Z → M A unit)) (h : hash_t) : M A unit :=
  match destructor with Some d => hash_clear (Some d) h;; mret () | None => mret () end.

(** *** Iteration *)

Definition hash_first : hash_iterator := HashIterator 0 AtHead.

(** [list_next]: the element behind, or the end of the list. *)
Fixpoint next_in (e : Z) (bucket : list Z) : option (option Z) :=
  match bucket with
  | [] => None
  | x :: bucket => if decide (x = e) then Some (head bucket) else next_in e bucket
  end.

(** [while (i->elem == list_end (i->bucket))], over the buckets behind. *)
Fixpoint next_bucket (i : nat) (rest : list (list Z)) : hash_iterator :=
  match rest with
  | [] => HashIterator i AtEnd
  | [] :: rest => next_bucket (S i) rest
  | (e :: _) :: _ => HashIterator i (AtElem e)
  end.

Definition hash_next (h : hash_t) (i : hash_iterator) : option hash_iterator :=
  b ← buckets h !! it_bucket i;
  n ← (match it_elem i with AtHead => Some (head b) | AtElem e => next_in e b | AtEnd => None end);
  Some (match n with
        | Some e => HashIterator (it_bucket i) (AtElem e)
        | None => next_bucket (S (it_bucket i)) (drop (S (it_bucket i)) (buckets h))
        end).

Definition hash_cur (i : hash_iterator) : option Z :=
  match it_elem i with AtElem e => Some e | _ => None end.
End Table.

(** ** Hash functions *)

Definition FNV_32_PRIME : Z := 16777619.
Definition FNV_32_BASIS : Z := 2166136261.

Definition fnv_step (hash byte : Z) : Z := Z.lxor (u32 (hash * FNV_32_PRIME)) byte.

Fixpoint hash_bytes_loop (size : nat) (buf hash : Z) : C Z :=
  match size with
  | O => mret hash
  | S size => b ← load buf; hash_bytes_loop size (buf + 1) (fnv_step hash b)
  end.
Definition hash_bytes (buf size : Z) : C Z :=
  ASSERT (bool_decide (buf ≠ NULL));;
  hash_bytes_loop (Z.to_nat size) buf FNV_32_BASIS.

Fixpoint hash_string_loop (fuel : nat) (s hash : Z) : C Z :=
  match fuel with
  | O => fail NoFuel
  | S fuel => b ← load s; if decide (b ≠ 0) then hash_string_loop fuel (s + 1) (fnv_step hash b) else mret hash
  end.
Definition hash_string (s : Z) : C Z :=
  ASSERT (bool_decide (s ≠ NULL));;
  bounded (λ n, hash_string_loop n s FNV_32_BASIS).

(** The four bytes of an [int], which is a local variable. *)
Definition int_bytes (i : Z) : list Z := [u8 i; u8 (i / 2 ^ 8); u8 (i / 2 ^ 16); u8 (i / 2 ^ 24)].
Definition hash_int (i : Z) : Z := foldl fnv_step FNV_32_BASIS (int_bytes i).

End Hash.
