(* ===== verification/HashSpec.v ===== *)
(** * Hash tables: refinement

    A well-formed table stands for the set of its elements, no two of them
    equal for the client's comparison.  Every sequence of operations
    computes what the operations on that set compute, whether or not the
    allocations of new buckets succeed. *)

From S2P Require Import Prelude KListSort KListRefine Hash.
Import KListSort KListRefine Hash.

Module HashSpec.

(** ** Powers of two *)

Lemma land_pred_pow2 k : 0 ≤ k → Z.land (2 ^ k) (2 ^ k - 1) = 0.
Proof.
  intros Hk. replace (2 ^ k - 1) with (Z.ones k) by (rewrite Z.ones_equiv; lia).
  rewrite Z.land_ones by done. apply Z.mod_same. pose proof (Z.pow_pos_nonneg 2 k). lia.
Qed.

(** The lowest [j] bits are off. *)
Definition low_off (j n : Z) : Prop := ∀ i, 0 ≤ i < j → Z.testbit n i = false.

Lemma low_off_multiple j n : 0 ≤ j → low_off j n → n = 2 ^ j * (n / 2 ^ j).
Proof.
  intros Hj H. rewrite (Z.div_mod n (2 ^ j)) at 1 by (apply Z.pow_nonzero; lia).
  cut (n mod 2 ^ j = 0); [lia|]. apply Z.bits_inj_0. intros i.
  destruct (decide (i < 0)); [by apply Z.testbit_neg_r|].
  destruct (decide (i < j)); [rewrite Z.mod_pow2_bits_low by lia; apply H; lia|apply Z.mod_pow2_bits_high; lia].
Qed.

Lemma low_off_step j n : 0 ≤ j → low_off j n → low_off (j + 1) (Z.land n (n - 1)).
Proof.
  intros Hj H i Hi. rewrite Z.land_spec. destruct (decide (i < j)); [by rewrite H by lia|].
  assert (i = j) as -> by lia. destruct (Z.testbit n j) eqn:Hn; [|done]. cbn.
  pose proof (low_off_multiple j n Hj H) as E. rewrite Z.testbit_odd, Z.shiftr_div_pow2 in Hn |- * by done.
  assert (0 < 2 ^ j) by (apply Z.pow_pos_nonneg; lia).
  replace ((n - 1) / 2 ^ j) with (n / 2 ^ j - 1).
  - rewrite Z.odd_sub, Hn. done.
  - apply (Z.div_unique_pos _ _ _ (2 ^ j - 1)); lia.
Qed.

Lemma land_pred_log k n : 0 ≤ k → 2 ^ k < n < 2 ^ (k + 1) → 2 ^ k ≤ Z.land n (n - 1) < 2 ^ (k + 1).
Proof.
  intros Hk Hn. assert (0 < 2 ^ k) by (apply Z.pow_pos_nonneg; lia).
  assert (∀ x, 2 ^ k ≤ x < 2 ^ (k + 1) → Z.testbit x k = true) as Hb.
  { intros x Hx. rewrite <- (Z.log2_unique x k); [|lia|by rewrite <- Z.add_1_r]. apply Z.bit_log2. lia. }
  assert (Z.testbit (Z.land n (n - 1)) k = true) as Ht by (rewrite Z.land_spec, !Hb; [done|lia..]).
  assert (0 ≤ Z.land n (n - 1)) by (apply Z.land_nonneg; lia). split.
  - destruct (Z.le_gt_cases (2 ^ k) (Z.land n (n - 1))) as [|Hlt]; [done|].
    destruct (decide (Z.land n (n - 1) = 0)) as [E|]; [by rewrite E, Z.bits_0 in Ht|].
    rewrite Z.bits_above_log2 in Ht; [done|done|]. apply Z.log2_lt_pow2; lia.
  - destruct (decide (Z.land n (n - 1) = 0)); [lia|].
    apply Z.log2_lt_pow2; [lia|]. pose proof (Z.log2_land n (n - 1)).
    assert (Z.log2 n < k + 1) by (apply Z.log2_lt_pow2; lia). lia.
Qed.

Lemma pow2_unique_low k n : 0 ≤ k → 2 ^ k ≤ n < 2 ^ (k + 1) → low_off k n → n = 2 ^ k.
Proof.
  intros Hk Hn H. pose proof (low_off_multiple k n Hk H) as E. rewrite Z.pow_add_r in Hn by lia.
  assert (0 < 2 ^ k) by (apply Z.pow_pos_nonneg; lia). set (q := n / 2 ^ k) in *.
  assert (0 < q < 2) by nia. assert (q = 1) as Hq by lia. rewrite Hq in E. lia.
Qed.

(** The loop of [rehash] ends with the largest power of two that is not
    larger. *)
Lemma power_loop_run n fuel k j h :
  0 ≤ j ≤ k → k < 32 → (Z.to_nat (k - j) < fuel)%nat → 2 ^ k ≤ n < 2 ^ (k + 1) → low_off j n →
  power_loop fuel n h = Ok (2 ^ k, h).
Proof.
  revert n j. induction fuel as [|fuel IH]; intros n j Hj Hk Hf Hn Hl; [lia|]. cbn [power_loop].
  assert (0 < 2 ^ k) by (apply Z.pow_pos_nonneg; lia).
  assert (2 ^ (k + 1) ≤ 2 ^ 32) by (apply Z.pow_le_mono_r; lia).
  unfold is_power_of_2, turn_off_least_1bit, size_t. rewrite wrapu_id by (unfold in_u; lia).
  rewrite bool_decide_true by lia. cbn [andb].
  destruct (decide (n = 2 ^ k)) as [->|Hne].
  - rewrite land_pred_pow2 by lia. done.
  - pose proof (land_pred_log k n ltac:(lia) ltac:(lia)).
    rewrite bool_decide_false by lia.
    assert (j ≠ k) by (intros E; rewrite E in Hl; apply Hne, (pow2_unique_low k n); [lia|lia|exact Hl]).
    apply (IH _ (j + 1)); [lia..|apply low_off_step; [lia|done]].
Qed.

(** ** Buckets *)

Lemma concat_insert {A} (bs : list (list A)) i b x :
  bs !! i = Some b → concat (<[i := x :: b]> bs) ≡ₚ x :: concat bs.
Proof.
  intros Hb. assert (concat bs = concat (take i bs) ++ b ++ concat (drop (S i) bs)) as ->.
  { rewrite <- (take_drop_middle bs i b Hb) at 1. by rewrite concat_app. }
  rewrite insert_take_drop by (eapply lookup_lt_Some; exact Hb). rewrite concat_app. cbn.
  symmetry. apply Permutation_middle.
Qed.

Lemma elem_of_concat {A} (bs : list (list A)) x : x ∈ concat bs ↔ ∃ i b, bs !! i = Some b ∧ x ∈ b.
Proof.
  rewrite list_elem_of_In, in_concat. setoid_rewrite <- list_elem_of_In. split.
  - intros (b & Hb & Hx). apply list_elem_of_lookup in Hb as [i Hi]. eauto.
  - intros (i & b & Hi & Hx). exists b. split; [by eapply list_elem_of_lookup_2|done].
Qed.

Lemma concat_remove e bs : concat (list_remove e bs) = filter (λ x, x ≠ e) (concat bs).
Proof. induction bs as [|b bs IH]; [done|]. cbn. rewrite filter_app. f_equal. exact IH. Qed.

Section Table.
Context (hash : Z → Z) (less : Z → Z → bool).

(** Every element is in the bucket its hash value names. *)
Definition placed (cnt : Z) (bs : list (list Z)) : Prop :=
  ∀ i b e, bs !! i = Some b → e ∈ b → bucket_idx hash cnt e = i.

Lemma bucket_idx_lt k e : 0 ≤ k < 32 → (bucket_idx hash (2 ^ k) e < Z.to_nat (2 ^ k))%nat.
Proof.
  intros Hk. unfold bucket_idx, size_t. assert (0 < 2 ^ k) by (apply Z.pow_pos_nonneg; lia).
  assert (2 ^ k < 2 ^ 32) by (apply Z.pow_lt_mono_r; lia).
  rewrite (wrapu_id 32 (2 ^ k - 1)) by (unfold in_u; lia).
  replace (2 ^ k - 1) with (Z.ones k) by (rewrite Z.ones_equiv; lia).
  rewrite Z.land_ones by lia. pose proof (Z.mod_pos_bound (u32 (hash e)) (2 ^ k)). lia.
Qed.

Lemma placed_insert cnt bs b e :
  bs !! bucket_idx hash cnt e = Some b → placed cnt bs → placed cnt (<[bucket_idx hash cnt e := e :: b]> bs).
Proof.
  intros Hb Hp i b' x. destruct (decide (i = bucket_idx hash cnt e)) as [->|Hi].
  - rewrite list_lookup_insert_eq by (by eapply lookup_lt_Some). intros [= <-] [->|Hx]%elem_of_cons; [done|]. by eapply Hp.
  - rewrite list_lookup_insert_ne by done. apply Hp.
Qed.

Lemma placed_remove cnt e bs : placed cnt bs → placed cnt (list_remove e bs).
Proof.
  intros Hp i b x. unfold list_remove. rewrite list_lookup_fmap. intros (b' & Hb & ->)%fmap_Some Hx.
  apply list_elem_of_filter in Hx as [_ Hx]. by eapply Hp.
Qed.

Lemma placed_empty cnt n : placed cnt (replicate n []).
Proof. intros i b e Hb. apply lookup_replicate in Hb as [-> _]. by intros ?%elem_of_nil. Qed.

Lemma concat_empty {A} n : concat (replicate n ([] : list A)) = [].
Proof. by induction n. Qed.

Lemma move_bucket_run k old bs :
  0 ≤ k < 32 → length bs = Z.to_nat (2 ^ k) → placed (2 ^ k) bs →
  ∃ bs', move_bucket hash (2 ^ k) old bs = Some bs' ∧ length bs' = length bs ∧
         placed (2 ^ k) bs' ∧ concat bs' ≡ₚ old ++ concat bs.
Proof.
  intros Hk. revert bs. induction old as [|e old IH]; intros bs Hl Hp; cbn [move_bucket]; [by exists bs|].
  destruct (lookup_lt_is_Some_2 bs (bucket_idx hash (2 ^ k) e)) as [b Hb].
  { rewrite Hl. by apply bucket_idx_lt. }
  rewrite Hb. cbn.
  destruct (IH (<[bucket_idx hash (2 ^ k) e := e :: b]> bs)) as (bs' & H1 & H2 & H3 & H4).
  - by rewrite length_insert.
  - by apply placed_insert.
  - exists bs'. rewrite length_insert in H2. split_and!; [done..|]. rewrite H4, concat_insert by done.
    by rewrite <- Permutation_middle.
Qed.

Lemma move_loop_run k olds bs :
  0 ≤ k < 32 → length bs = Z.to_nat (2 ^ k) → placed (2 ^ k) bs →
  ∃ bs', move_loop hash (2 ^ k) olds bs = Some bs' ∧ length bs' = length bs ∧
         placed (2 ^ k) bs' ∧ concat bs' ≡ₚ concat olds ++ concat bs.
Proof.
  intros Hk. revert bs. induction olds as [|old olds IH]; intros bs Hl Hp; cbn [move_loop]; [by exists bs|].
  destruct (move_bucket_run k old bs Hk Hl Hp) as (b1 & H1 & L1 & P1 & E1). rewrite H1. cbn.
  destruct (IH b1) as (b2 & H2 & L2 & P2 & E2); [congruence|done|].
  exists b2. split_and!; [done|congruence|done|]. rewrite E2, E1. rewrite !app_assoc.
  by rewrite (Permutation_app_comm (concat olds) old).
Qed.

(** ** Well-formed tables *)

Context `{!LessOrder less}.
(** Equal elements have equal hash values. *)
Hypothesis hash_compat : ∀ x y, equal less x y = true → hash x = hash y.

Lemma equal_sym x y : equal less x y = true → equal less y x = true.
Proof. unfold equal. rewrite !andb_true_iff. tauto. Qed.
Lemma equal_trans x y z : equal less x y = true → equal less y z = true → equal less x z = true.
Proof.
  unfold equal. rewrite !andb_true_iff, !negb_true_iff. intros [H1 H2] [H3 H4].
  split; eapply less_negtrans; eauto.
Qed.
Lemma equal_refl x : equal less x x = true.
Proof.
  unfold equal. destruct (less x x) eqn:H; [|done]. pose proof (less_asym _ _ H). congruence.
Qed.

(** The elements of a table, as many as a size of type [size_t] for the array of
    buckets allows. *)
Definition max_elems : Z := 2 ^ 28.

Record table (X : gset Z) (h : hash_t) : Prop := {
  t_pow : ∃ k, 2 ≤ k < 28 ∧ bucket_cnt h = 2 ^ k;
  t_len : length (buckets h) = Z.to_nat (bucket_cnt h);
  t_placed : placed (bucket_cnt h) (buckets h);
  t_nodup : NoDup (concat (buckets h));
  t_elems : ∀ e, e ∈ concat (buckets h) ↔ e ∈ X;
  t_cnt : elem_cnt h = Z.of_nat (size X);
  t_max : Z.of_nat (size X) < max_elems;
  t_distinct : ∀ x y, x ∈ X → y ∈ X → equal less x y = true → x = y;
}.

(** The element equal to [e], if there is one. *)
Definition found (X : gset Z) (e : Z) (r : option Z) : Prop :=
  match r with
  | Some x => x ∈ X ∧ equal less x e = true
  | None => ∀ x, x ∈ X → equal less x e = false
  end.

Lemma found_unique X e r r' :
  (∀ x y, x ∈ X → y ∈ X → equal less x y = true → x = y) → found X e r → found X e r' → r = r'.
Proof.
  intros Hd. destruct r as [x|], r' as [y|]; cbn; [|naive_solver congruence..].
  intros [Hx Ex] [Hy Ey]. f_equal. apply Hd; [done..|]. eapply equal_trans; [done|by apply equal_sym].
Qed.

Lemma table_bucket X h e :
  table X h → ∃ b, buckets h !! bucket_idx hash (bucket_cnt h) e = Some b.
Proof.
  intros Ht. destruct (t_pow _ _ Ht) as (k & Hk & E). apply lookup_lt_is_Some_2. rewrite (t_len _ _ Ht), E.
  apply bucket_idx_lt. lia.
Qed.

Lemma find_elem_loop_found b e :
  match find_elem_loop less b e with
  | Some x => x ∈ b ∧ equal less x e = true
  | None => ∀ x, x ∈ b → equal less x e = false
  end.
Proof.
  induction b as [|y b IH]; cbn; [by intros ? ?%elem_of_nil|].
  destruct (equal less y e) eqn:Ey; [by split; [left|]|].
  destruct (find_elem_loop less b e); [destruct IH; by split; [right|]|].
  intros x [->|Hx]%elem_of_cons; [done|auto].
Qed.

(** The search for an element: in its bucket only. *)
Lemma search_run X h e :
  table X h → ∃ r, found X e r ∧
    find_bucket hash e h = Ok (bucket_idx hash (bucket_cnt h) e, h) ∧
    find_elem less (bucket_idx hash (bucket_cnt h) e) e h = Ok (r, h).
Proof.
  intros Ht. destruct (table_bucket X h e Ht) as [b Hb]. exists (find_elem_loop less b e).
  split; [|split; [done|]].
  - pose proof (find_elem_loop_found b e) as Hf. destruct (find_elem_loop less b e) as [x|]; cbn.
    + destruct Hf as [Hx Ex]. split; [|done]. apply (t_elems _ _ Ht), elem_of_concat. eauto.
    + intros x Hx. destruct (equal less x e) eqn:Ex; [|done]. rewrite <- (Hf x); [done|].
      apply (t_elems _ _ Ht), elem_of_concat in Hx as (i & b' & Hi & Hx).
      pose proof (t_placed _ _ Ht _ _ _ Hi Hx) as E. unfold bucket_idx in *. rewrite (hash_compat _ _ Ex) in E.
      congruence.
  - unfold find_elem, get, mbind, M_bind, lift. by rewrite Hb.
Qed.

Lemma insert_run X h e :
  table X h → (∀ x, x ∈ X → equal less x e = false) → Z.of_nat (size X) + 1 < max_elems →
  ∃ h', insert_elem (bucket_idx hash (bucket_cnt h) e) e h = Ok ((), h') ∧ table ({[e]} ∪ X) h'.
Proof.
  intros Ht Hn Hm. destruct (table_bucket X h e Ht) as [b Hb].
  unfold insert_elem, get, mbind, M_bind, lift. rewrite Hb. cbn. eexists. split; [done|].
  assert (e ∉ X) as He by (intros Hx; specialize (Hn e Hx); by rewrite equal_refl in Hn).
  assert (size ({[e]} ∪ X) = S (size X)) as Hs by (rewrite size_union, size_singleton; set_solver).
  pose proof (concat_insert _ _ _ e Hb) as Hp.
  constructor; cbn.
  - apply (t_pow _ _ Ht).
  - rewrite length_insert. apply (t_len _ _ Ht).
  - apply placed_insert; [done|apply (t_placed _ _ Ht)].
  - rewrite Hp. constructor; [by rewrite (t_elems _ _ Ht)|apply (t_nodup _ _ Ht)].
  - intros x. rewrite Hp, elem_of_cons, (t_elems _ _ Ht). set_solver.
  - rewrite Hs, (t_cnt _ _ Ht). unfold size_t. rewrite wrapu_id; [lia|]. unfold in_u, max_elems in *. lia.
  - rewrite Hs. lia.
  - intros x y Hx Hy Exy. apply elem_of_union in Hx as [->%elem_of_singleton|Hx], Hy as [->%elem_of_singleton|Hy].
    + done.
    + apply equal_sym in Exy. by rewrite Hn in Exy.
    + by rewrite Hn in Exy.
    + by apply (t_distinct _ _ Ht).
Qed.

Lemma remove_run X h e :
  table X h → e ∈ X → ∃ h', remove_elem e h = Ok ((), h') ∧ bucket_cnt h' = bucket_cnt h ∧ table (X ∖ {[e]}) h'.
Proof.
  intros Ht He. unfold remove_elem, get, mbind, M_bind. rewrite decide_True by (by apply (t_elems _ _ Ht)).
  eexists. split; [done|]. split; [done|].
  assert (size (X ∖ {[e]}) = size X - 1)%nat as Hs by (rewrite size_difference, size_singleton; set_solver).
  assert (size X ≠ 0%nat) by (intros E; apply size_empty_inv in E; set_solver).
  pose proof (t_max _ _ Ht).
  constructor; cbn.
  - apply (t_pow _ _ Ht).
  - unfold list_remove. rewrite length_fmap. apply (t_len _ _ Ht).
  - apply placed_remove, (t_placed _ _ Ht).
  - rewrite concat_remove. apply NoDup_filter, (t_nodup _ _ Ht).
  - intros x. rewrite concat_remove, list_elem_of_filter, (t_elems _ _ Ht). set_solver.
  - rewrite Hs, (t_cnt _ _ Ht). unfold size_t. rewrite wrapu_id; [lia|]. unfold in_u, max_elems in *. lia.
  - lia.
  - intros x y Hx Hy. apply (t_distinct _ _ Ht); set_solver.
Qed.

(** [rehash] keeps the elements. *)
Lemma rehash_run X h malloc : table X h → ∃ h', rehash hash malloc h = Ok ((), h') ∧ table X h'.
Proof.
  intros Ht. pose proof (t_max _ _ Ht) as Hm. unfold rehash, get.
  rewrite (bind_Ok _ _ _ h h) by done. cbv zeta. set (n := if decide _ then 4 else _).
  assert (4 ≤ n < 2 ^ 28) as Hn.
  { subst n. rewrite (t_cnt _ _ Ht). unfold BEST_ELEMS_PER_BUCKET, max_elems in *. case_decide; [lia|].
    split; [lia|]. apply Z.div_lt_upper_bound; lia. }
  pose proof (Z.log2_spec n ltac:(lia)) as Hlog. set (k := Z.log2 n) in *. rewrite <- Z.add_1_r in Hlog.
  assert (2 ≤ k) by (apply Z.log2_le_pow2; lia). assert (k < 28) by (apply Z.log2_lt_pow2; lia).
  rewrite (bind_Ok _ _ _ (2 ^ k) h).
  2:{ apply (power_loop_run _ _ k 0); [lia..|]. intros i Hi. lia. }
  case_decide as Hc; [by exists h|]. destruct (malloc _); [|by exists h].
  assert (2 ^ k ≤ 2 ^ 27) by (apply Z.pow_le_mono_r; lia). assert (0 < 2 ^ k) by (apply Z.pow_pos_nonneg; lia).
  rewrite decide_False.
  2:{ unfold sizeof_list, size_t. rewrite wrapu_id; [lia|]. unfold in_u. lia. }
  destruct (move_loop_run k (buckets h) (replicate (Z.to_nat (2 ^ k)) [])) as (bs & Hb & Hl & Hp & He);
    [lia|by rewrite length_replicate|apply placed_empty|].
  rewrite concat_empty, app_nil_r in He. rewrite length_replicate in Hl.
  unfold lift. rewrite Hb. eexists. split; [done|].
  constructor; cbn; try apply Ht.
  - eauto.
  - done.
  - done.
  - rewrite He. apply (t_nodup _ _ Ht).
  - intros e. rewrite He. apply (t_elems _ _ Ht).
Qed.

(** ** Operations on sets *)

Inductive hash_op := Insert (e : Z) | Replace (e : Z) | Find (e : Z) | Delete (e : Z).

Definition run_op (malloc : Z → bool) (op : hash_op) : T (option Z) :=
  match op with
  | Insert e => hash_insert hash less malloc e
  | Replace e => hash_replace hash less malloc e
  | Find e => hash_find hash less e
  | Delete e => hash_delete hash less malloc e
  end.

(** The element of [X] equal to [e]. *)
Definition look (X : gset Z) (e : Z) : option Z := find_elem_loop less (elements X) e.

Definition abs_op (op : hash_op) (X : gset Z) : option Z * gset Z :=
  match op with
  | Insert e => (look X e, if look X e is Some _ then X else {[e]} ∪ X)
  | Replace e => (look X e, {[e]} ∪ (if look X e is Some x then X ∖ {[x]} else X))
  | Find e => (look X e, X)
  | Delete e => (look X e, if look X e is Some x then X ∖ {[x]} else X)
  end.

Lemma look_found X e : found X e (look X e).
Proof.
  pose proof (find_elem_loop_found (elements X) e) as H. unfold look.
  destruct (find_elem_loop less (elements X) e); cbn; [by rewrite <- (elem_of_elements X)|].
  intros x Hx. apply H. by apply elem_of_elements.
Qed.

Lemma search_look X h e :
  table X h → find_bucket hash e h = Ok (bucket_idx hash (bucket_cnt h) e, h) ∧
    find_elem less (bucket_idx hash (bucket_cnt h) e) e h = Ok (look X e, h).
Proof.
  intros Ht. destruct (search_run X h e Ht) as (r & Hr & H1 & H2). split; [done|].
  by rewrite <- (found_unique X e r (look X e) (t_distinct _ _ Ht) Hr (look_found X e)).
Qed.

Lemma removed_found X x e :
  (∀ x y, x ∈ X → y ∈ X → equal less x y = true → x = y) → found X e (Some x) →
  ∀ y, y ∈ X ∖ {[x]} → equal less y e = false.
Proof.
  intros Hd [Hx Ex] y Hy. destruct (equal less y e) eqn:Ey; [|done].
  assert (y = x) by (apply Hd; [set_solver..|]; eapply equal_trans; [done|by apply equal_sym]). set_solver.
Qed.

Lemma rehash_ret {A} (r : A) X h malloc :
  table X h → ∃ h', (rehash hash malloc;; mret r) h = Ok (r, h') ∧ table X h'.
Proof.
  intros Ht. destruct (rehash_run X h malloc Ht) as (h' & Hr & Ht'). exists h'. by rewrite (bind_Ok _ _ _ _ _ Hr).
Qed.

Lemma run_op_refines malloc op X h :
  table X h → Z.of_nat (size X) + 1 < max_elems →
  ∃ h', run_op malloc op h = Ok ((abs_op op X).1, h') ∧ table (abs_op op X).2 h'.
Proof.
  intros Ht Hm. pose proof (t_distinct _ _ Ht) as Hd.
  destruct op as [e|e|e|e]; cbn [run_op abs_op fst snd]; destruct (search_look X h e Ht) as [H1 H2];
    pose proof (look_found X e) as Hf;
    unfold hash_insert, hash_replace, hash_find, hash_delete;
    rewrite (bind_Ok _ _ _ _ _ H1), ?(bind_Ok _ _ _ _ _ H2); [| |by exists h|];
    destruct (look X e) as [x|] eqn:Hx.
  - rewrite (bind_Ok _ _ _ () h) by done. by apply rehash_ret.
  - destruct (insert_run X h e Ht Hf Hm) as (h1 & Hi & Ht1). rewrite (bind_Ok _ _ _ _ _ Hi). by apply rehash_ret.
  - destruct (remove_run X h x Ht) as (h1 & Hr & Hc & Ht1); [apply Hf|]. rewrite (bind_Ok _ _ _ _ _ Hr), <- Hc.
    destruct (insert_run _ h1 e Ht1) as (h2 & Hi & Ht2); [by apply removed_found| |].
    { pose proof (subseteq_size (X ∖ {[x]}) X ltac:(set_solver)). lia. }
    rewrite (bind_Ok _ _ _ _ _ Hi). by apply rehash_ret.
  - rewrite (bind_Ok _ _ _ () h) by done.
    destruct (insert_run X h e Ht Hf Hm) as (h1 & Hi & Ht1). rewrite (bind_Ok _ _ _ _ _ Hi). by apply rehash_ret.
  - destruct (remove_run X h x Ht) as (h1 & Hr & Hc & Ht1); [apply Hf|].
    destruct (rehash_run _ h1 malloc Ht1) as (h2 & Hh & Ht2).
    rewrite (bind_Ok _ _ _ () h2); [by exists h2|]. by rewrite (bind_Ok _ _ _ _ _ Hr).
  - by exists h.
Qed.

(** Sequences of operations, each with its own outcome of the allocation. *)
Fixpoint run_ops (ops : list ((Z → bool) * hash_op)) : T (list (option Z)) :=
  match ops with
  | [] => mret []
  | (malloc, op) :: ops => r ← run_op malloc op; rs ← run_ops ops; mret (r :: rs)
  end.
Fixpoint abs_ops (ops : list ((Z → bool) * hash_op)) (X : gset Z) : list (option Z) * gset Z :=
  match ops with
  | [] => ([], X)
  | (_, op) :: ops => let '(r, X) := abs_op op X in let '(rs, X) := abs_ops ops X in (r :: rs, X)
  end.

Lemma abs_op_size op X : (size (abs_op op X).2 ≤ S (size X))%nat.
Proof.
  assert (∀ e (Y : gset Z), Y ⊆ X → size ({[e]} ∪ Y) ≤ S (size X))%nat as H1.
  { intros e Y HY. pose proof (subseteq_size _ _ HY). pose proof (size_union_alt ({[e]} : gset Z) Y) as E.
    rewrite size_singleton in E. pose proof (subseteq_size (Y ∖ {[e]}) Y ltac:(set_solver)). lia. }
  assert (∀ x, size (X ∖ {[x]}) ≤ S (size X))%nat as H2.
  { intros x. pose proof (subseteq_size (X ∖ {[x]}) X ltac:(set_solver)). lia. }
  destruct op as [e|e|e|e]; cbn; try (destruct (look X e)); try (apply H1; set_solver); auto with arith.
Qed.

Lemma run_ops_refine ops X h :
  table X h → Z.of_nat (size X + length ops) < max_elems →
  ∃ h', run_ops ops h = Ok ((abs_ops ops X).1, h') ∧ table (abs_ops ops X).2 h'.
Proof.
  revert X h. induction ops as [|[malloc op] ops IH]; intros X h Ht Hm; cbn [run_ops abs_ops]; [by exists h|].
  cbn in Hm. destruct (run_op_refines malloc op X h Ht) as (h1 & Hr & Ht1); [lia|].
  pose proof (abs_op_size op X). destruct (abs_op op X) as [r X1]. cbn [fst snd] in *.
  destruct (IH X1 h1 Ht1) as (h2 & Hr2 & Ht2); [lia|]. destruct (abs_ops ops X1) as [rs X2]. cbn [fst snd] in *.
  exists h2. by rewrite (bind_Ok _ _ _ _ _ Hr), (bind_Ok _ _ _ _ _ Hr2).
Qed.

(** ** Iteration *)

(** [n] steps of an iteration: the elements it meets. *)
Fixpoint iterate (n : nat) (h : hash_t) (i : hash_iterator) : option (list (option Z)) :=
  match n with
  | O => Some []
  | S n => i ← hash_next h i; rest ← iterate n h i; Some (hash_cur i :: rest)
  end.

Lemma next_in_middle e pre post : e ∉ pre → next_in e (pre ++ e :: post) = Some (head post).
Proof.
  induction pre as [|x pre IH]; cbn; intros He; [by rewrite decide_True|].
  apply not_elem_of_cons in He as [Hx He]. rewrite decide_False by congruence. auto.
Qed.

(** The search for the next bucket that is not empty. *)
Lemma next_bucket_spec bs i :
  match concat (drop i bs) with
  | [] => it_elem (next_bucket i (drop i bs)) = AtEnd
  | e :: es => ∃ j post, next_bucket i (drop i bs) = HashIterator j (AtElem e) ∧ bs !! j = Some (e :: post) ∧
                         es = post ++ concat (drop (S j) bs)
  end.
Proof.
  remember (drop i bs) as rest eqn:Hr. revert i Hr. induction rest as [|b rest IH]; intros i Hr; [done|].
  assert (bs !! i = Some b) as Hb by (by rewrite <- (Nat.add_0_r i), <- lookup_drop, <- Hr).
  assert (rest = drop (S i) bs) as Hr' by (by rewrite <- Nat.add_1_r, <- drop_drop, <- Hr).
  cbn [concat]. destruct b as [|e post]; cbn [app next_bucket]; [by apply IH|].
  exists i, post. by rewrite <- Hr'.
Qed.

(** The elements that are still to come. *)
Definition remaining (h : hash_t) (it : hash_iterator) (es : list Z) : Prop :=
  match it with
  | HashIterator i (AtElem e) =>
      ∃ pre post, buckets h !! i = Some (pre ++ e :: post) ∧ es = post ++ concat (drop (S i) (buckets h))
  | HashIterator i AtHead => ∃ b, buckets h !! i = Some b ∧ es = b ++ concat (drop (S i) (buckets h))
  | HashIterator _ AtEnd => False
  end.

Lemma bucket_NoDup h i b : NoDup (concat (buckets h)) → buckets h !! i = Some b → NoDup b.
Proof.
  intros Hnd Hb. rewrite <- (take_drop_middle _ _ _ Hb), concat_app in Hnd. cbn in Hnd.
  by apply NoDup_app in Hnd as (_ & _ & (? & _ & _)%NoDup_app).
Qed.

(** One step: the first of the remaining elements, or the end. *)
Lemma hash_next_run h it es :
  NoDup (concat (buckets h)) → remaining h it es →
  ∃ it', hash_next h it = Some it' ∧ hash_cur it' = head es ∧
         match es with [] => True | _ :: es => remaining h it' es end.
Proof.
  intros Hnd Hr. destruct it as [i pos].
  assert (∃ b post, buckets h !! i = Some b ∧ es = post ++ concat (drop (S i) (buckets h)) ∧ suffix post b ∧
    hash_next h (HashIterator i pos) =
      Some (match head post with Some e => HashIterator i (AtElem e) | None => next_bucket (S i) (drop (S i) (buckets h)) end))
    as (b & post & Hb & -> & [pre ->] & ->).
  { destruct pos as [|e|]; cbn in Hr; [| |done].
    - destruct Hr as (b & Hb & ->). exists b, b. split_and!; [done..|]. unfold hash_next. cbn. by rewrite Hb.
    - destruct Hr as (pre & post & Hb & ->). exists (pre ++ e :: post), post. split_and!; [done..| |].
      + exists (pre ++ [e]). by rewrite <- app_assoc.
      + unfold hash_next. cbn. rewrite Hb. cbn. rewrite next_in_middle; [done|].
        pose proof (bucket_NoDup h i _ Hnd Hb) as Hd. apply NoDup_app in Hd as (_ & Hd & _).
        intros He. apply (Hd e He). left. }
  eexists. split; [done|]. destruct post as [|x post]; cbn [head app].
  - pose proof (next_bucket_spec (buckets h) (S i)) as Hn.
    destruct (concat (drop (S i) (buckets h))) as [|x es].
    + by destruct (next_bucket _ _); cbn in *; subst.
    + destruct Hn as (j & post & -> & Hj & ->). split; [done|]. cbn. by exists [], post.
  - split; [done|]. cbn. by exists pre, post.
Qed.

Lemma iterate_run h it es :
  NoDup (concat (buckets h)) → remaining h it es →
  iterate (S (length es)) h it = Some ((Some <$> es) ++ [None]).
Proof.
  intros Hnd. revert it. induction es as [|e es IH]; intros it Hr.
  - destruct (hash_next_run h it [] Hnd Hr) as (it' & H1 & H2 & _). cbn. rewrite H1. cbn. by rewrite H2.
  - destruct (hash_next_run h it (e :: es) Hnd Hr) as (it' & H1 & H2 & H3). cbn [length].
    remember (S (length es)) as n. cbn. rewrite H1. cbn. subst n. rewrite (IH _ H3), H2. done.
Qed.

Lemma table_init : table ∅ (Hash_t 0 4 (replicate 4 [])).
Proof.
  constructor; cbn [bucket_cnt buckets elem_cnt].
  - by exists 2.
  - done.
  - apply placed_empty.
  - constructor.
  - intros e. split; [by intros ?%elem_of_nil|by intros ?%not_elem_of_empty].
  - done.
  - done.
  - by intros x y ?%not_elem_of_empty.
Qed.
End Table.

(** ** The claims *)

(** C10: Starting from a fresh table, every sequence of insertions,
    replacements, searches and deletions returns what it returns on a set of
    elements that are pairwise unequal for the client's comparison, whether
    or not the allocations for new buckets succeed; [elem_cnt] is the number
    of elements, the number of buckets stays a power of two, and an
    iteration of the resulting table meets each element of the set once and
    then returns a null pointer. *)
Theorem hash_ops_refine hash less `{!LessOrder less} malloc0 ops h :
  (∀ x y, equal less x y = true → hash x = hash y) →
  Z.of_nat (length ops) < max_elems →
  hash_init malloc0 = Some h →
  ∃ h' es, run_ops hash less ops h = Ok ((abs_ops less ops ∅).1, h') ∧
    (∀ e, e ∈ es ↔ e ∈ (abs_ops less ops ∅).2) ∧ NoDup es ∧
    elem_cnt h' = Z.of_nat (length es) ∧ is_power_of_2 (bucket_cnt h') = true ∧
    iterate (S (length es)) h' hash_first = Some ((Some <$> es) ++ [None]).
Proof.
  intros Hc Hn Hi. unfold hash_init in Hi. destruct (malloc0 _); [|done]. injection Hi as <-.
  destruct (run_ops_refine hash less Hc ops ∅ _ (table_init hash less)) as (h' & Hr & Ht); [by rewrite size_empty|].
  exists h', (concat (buckets h')). split_and!; [done|apply Ht|apply Ht| | |].
  - rewrite (t_cnt _ _ _ _ Ht). f_equal. rewrite <- (size_list_to_set (C := gset Z)) by apply Ht.
    f_equal. apply set_eq. intros x. rewrite elem_of_list_to_set. symmetry. apply Ht.
  - destruct (t_pow _ _ _ _ Ht) as (k & Hk & ->). unfold is_power_of_2, turn_off_least_1bit, size_t.
    assert (0 < 2 ^ k) by (apply Z.pow_pos_nonneg; lia). assert (2 ^ k < 2 ^ 32) by (apply Z.pow_lt_mono_r; lia).
    rewrite wrapu_id by (unfold in_u; lia). by rewrite land_pred_pow2, bool_decide_true by lia.
  - apply iterate_run; [apply Ht|]. destruct (buckets h') as [|b bs] eqn:Hb.
    + pose proof (t_len _ _ _ _ Ht) as Hl. rewrite Hb in Hl. destruct (t_pow _ _ _ _ Ht) as (k & Hk & Ek).
      assert (0 < 2 ^ k) by (apply Z.pow_pos_nonneg; lia). cbn in Hl. lia.
    + cbn. rewrite Hb. cbn. by exists b.
Qed.

(** Elements that are equal when their tens are; twenty insertions, one of
    them of an equal element and one without memory for more buckets. *)
Definition demo_hash (x : Z) : Z := x / 10.
Definition demo_ops : list ((Z → bool) * hash_op) :=
  ((λ i, ((λ _, negb (bool_decide (i = 17))), Insert (10 * i))) <$> seqZ 1 19)
    ++ [(λ _, true, Insert 75); (λ _, true, Replace 31); (λ _, true, Delete 102); (λ _, false, Find 39); (λ _, true, Find 100)].

Lemma hash_ops_refine_witness :
  ∃ h h' es, hash_init (λ _, true) = Some h ∧
    run_ops demo_hash tens_less demo_ops h = Ok (replicate 19 None ++ [Some 70; Some 30; Some 100; Some 31; None], h') ∧
    elem_cnt h' = Z.of_nat (length es) ∧ iterate (S (length es)) h' hash_first = Some ((Some <$> es) ++ [None]).
Proof.
  destruct (hash_ops_refine demo_hash tens_less (λ _, true) demo_ops (Hash_t 0 4 (replicate 4 [])))
    as (h' & es & H & _ & _ & H1 & _ & H2).
  - intros x y. unfold equal, tens_less, demo_hash. rewrite andb_true_iff, !negb_true_iff, !bool_decide_eq_false. lia.
  - by vm_compute.
  - done.
  - exists (Hash_t 0 4 (replicate 4 [])), h', es. rewrite H. split_and!; [done| |exact H1|exact H2].
    do 2 f_equal; vm_compute; reflexivity.
Defined.
End HashSpec.
