(* ===== verification/Palloc.v ===== *)
(** * Pages of memory (threads/vaddr.h, threads/palloc.c)

    Physical memory is a map from the kernel virtual address of a page frame
    to its 1024 words; the frames the machine does not have are not in it.
    Each pool keeps a bitmap of its pages.  The pool's lock makes the calls
    of [bitmap_scan_and_flip] exclusive, so that a call is one step here. *)

From S2P Require Import Prelude Bitmap.
Import Bitmap.

Module Palloc.

(** ** Addresses (vaddr.h) *)

Definition PGBITS : Z := 12.
Definition PGSIZE : Z := 4096.
Definition BITMASK (shift cnt : Z) : Z := u32 (Z.shiftl (Z.shiftl 1 cnt - 1) shift).
Definition PGMASK : Z := BITMASK 0 PGBITS.
Definition PHYS_BASE : Z := 0xc0000000.

Definition pg_ofs (va : Z) : Z := Z.land va PGMASK.
Definition pg_no (va : Z) : Z := Z.shiftr va PGBITS.
Definition pg_round_up (va : Z) : Z := Z.land (u32 (va + PGSIZE - 1)) (u32 (Z.lnot PGMASK)).
Definition pg_round_down (va : Z) : Z := Z.land va (u32 (Z.lnot PGMASK)).
Definition is_user_vaddr (va : Z) : bool := bool_decide (va < PHYS_BASE).
Definition is_kernel_vaddr (va : Z) : bool := bool_decide (PHYS_BASE ≤ va).

(** ** State *)

(** [struct pool], without its lock. *)
Record pool := Pool { used_map : bitmap; base : Z }.

Record ram := Ram {
  frames : gmap Z (list Z);
  kernel_pool : pool;
  user_pool : pool;
  init_ram_pages : Z;
  init_page_dir : Z;
  (** the page directory base register *)
  cr3 : Z;
}.

Definition set_frames (f : gmap Z (list Z)) (r : ram) : ram :=
  Ram f (kernel_pool r) (user_pool r) (init_ram_pages r) (init_page_dir r) (cr3 r).
Definition set_kernel_pool (p : pool) (r : ram) : ram :=
  Ram (frames r) p (user_pool r) (init_ram_pages r) (init_page_dir r) (cr3 r).
Definition set_user_pool (p : pool) (r : ram) : ram :=
  Ram (frames r) (kernel_pool r) p (init_ram_pages r) (init_page_dir r) (cr3 r).

Abbreviation V := (M ram).

Definition ptov (paddr : Z) : V Z :=
  ASSERT (bool_decide (paddr < PHYS_BASE));; mret (u32 (paddr + PHYS_BASE)).
Definition vtop (vaddr : Z) : V Z :=
  ASSERT (is_kernel_vaddr vaddr);; mret (vaddr - PHYS_BASE).

(** Words of memory: an address that is not of an existing frame, or not of
    a word, is undefined. *)
Definition load_word (a : Z) : V Z :=
  r ← get;
  if decide (a mod 4 = 0) then
    f ← lift (frames r !! pg_round_down a) Undef; lift (f !! Z.to_nat (pg_ofs a / 4)) Undef
  else fail Undef.
Definition store_word (a w : Z) : V unit :=
  load_word a;;
  modify (λ r, set_frames (alter (<[Z.to_nat (pg_ofs a / 4) := w]>) (pg_round_down a) (frames r)) r).

(** [memset] on whole pages: the byte repeated in each word. *)
Definition word_of_byte (b : Z) : Z := b * 0x01010101.
Fixpoint memset_pages (n : nat) (p b : Z) : V unit :=
  match n with
  | O => mret ()
  | S n =>
      r ← get; lift (frames r !! p) Undef;;
      put (set_frames (<[p := replicate 1024 (word_of_byte b)]> (frames r)) r);;
      memset_pages n (p + PGSIZE) b
  end.

(** ** The allocator (palloc.c) *)

Definition PAL_ASSERT : Z := 1.
Definition PAL_ZERO : Z := 2.
Definition PAL_USER : Z := 4.
Definition flag (flags f : Z) : bool := bool_decide (Z.land flags f ≠ 0).

(** A pool by its name: [false] is the kernel's. *)
Definition the_pool (user : bool) (r : ram) : pool := if user then user_pool r else kernel_pool r.
Definition set_pool (user : bool) (p : pool) (r : ram) : ram :=
  if user then set_user_pool p r else set_kernel_pool p r.

(** An operation on the bitmap of a pool. *)
Definition with_map {A} (user : bool) (f : M bitmap A) : V A := λ r,
  match f (used_map (the_pool user r)) with
  | Ok (a, b) => Ok (a, set_pool user (Pool b (base (the_pool user r))) r)
  | Err e => Err e
  end.

(** The words of [n] frames from [p]. *)
Fixpoint words_at (f : gmap Z (list Z)) (p : Z) (n : nat) : option (list Z) :=
  match n with
  | O => Some []
  | S n => ws ← f !! p; rest ← words_at f (p + PGSIZE) n; Some (ws ++ rest)
  end.

(** The bitmap is placed at the start of the pool, behind its structure of
    two words. *)
Definition init_pool (user : bool) (base page_cnt : Z) : V unit :=
  let bm_pages := u32 (bitmap_buf_size page_cnt + PGSIZE - 1) / PGSIZE in
  if decide (bm_pages > page_cnt) then PANIC else
  let page_cnt := page_cnt - bm_pages in
  r ← get;
  ws ← lift (words_at (frames r) base (Z.to_nat bm_pages)) Undef;
  match bitmap_create_in_buf page_cnt (drop 2 ws) (u32 (bm_pages * PGSIZE)) with
  | Ok b => put (set_pool user (Pool b (u32 (base + bm_pages * PGSIZE))) r)
  | Err e => fail e
  end.

Definition palloc_init (user_page_limit : Z) : V unit :=
  free_start ← ptov (1024 * 1024);
  n ← gets init_ram_pages;
  free_end ← ptov (u32 (n * PGSIZE));
  let free_pages := (free_end - free_start) / PGSIZE in
  let user_pages := free_pages / 2 in
  let user_pages := if decide (user_pages > user_page_limit) then user_page_limit else user_pages in
  let kernel_pages := free_pages - user_pages in
  init_pool false free_start kernel_pages;;
  init_pool true (u32 (free_start + kernel_pages * PGSIZE)) user_pages.

Definition page_from_pool (user : bool) (page : Z) (r : ram) : bool :=
  let start_page := pg_no (base (the_pool user r)) in
  let end_page := u32 (start_page + bit_cnt (used_map (the_pool user r))) in
  bool_decide (start_page ≤ pg_no page) && bool_decide (pg_no page < end_page).

Definition palloc_get_multiple (flags page_cnt : Z) : V Z :=
  let user := flag flags PAL_USER in
  if decide (page_cnt = 0) then mret 0 else
  page_idx ← with_map user (bitmap_scan_and_flip 0 page_cnt false);
  r ← get;
  let pages := if decide (page_idx ≠ BITMAP_ERROR) then u32 (base (the_pool user r) + u32 (PGSIZE * page_idx)) else 0 in
  (if decide (pages ≠ 0) then
     if flag flags PAL_ZERO then memset_pages (Z.to_nat (u32 (PGSIZE * page_cnt) / PGSIZE)) pages 0 else mret ()
   else if flag flags PAL_ASSERT then PANIC else mret ());;
  mret pages.

Definition palloc_get_page (flags : Z) : V Z := palloc_get_multiple flags 1.

Definition palloc_free_multiple (pages page_cnt : Z) : V unit :=
  ASSERT (bool_decide (pg_ofs pages = 0));;
  if decide (pages = 0 ∨ page_cnt = 0) then mret () else
  r ← get;
  user ← (if page_from_pool false pages r then mret false
          else if page_from_pool true pages r then mret true else PANIC);
  let page_idx := u32 (pg_no pages - pg_no (base (the_pool user r))) in
  memset_pages (Z.to_nat (u32 (PGSIZE * page_cnt) / PGSIZE)) pages 0xcc;;
  all ← with_map user (bitmap_all page_idx page_cnt);
  ASSERT all;;
  with_map user (bitmap_set_multiple page_idx page_cnt false).

Definition palloc_free_page (page : Z) : V unit := palloc_free_multiple page 1.

End Palloc.
