(* ===== verification/PallocSpec.v ===== *)
(** * The page allocator: theorems

    A group of pages that is handed out was free, is contiguous and of the
    right pool; a group that is freed must have been handed out. *)

From S2P Require Import Prelude Bitmap Palloc.
Import Bitmap Palloc.

Module PallocSpec.

(** ** Addresses *)

Lemma pg_ofs_mod va : pg_ofs va = va mod PGSIZE.
Proof. unfold pg_ofs. change PGMASK with (Z.ones 12). by rewrite Z.land_ones. Qed.

Lemma pg_no_div va : pg_no va = va / PGSIZE.
Proof. unfold pg_no, PGBITS. by rewrite Z.shiftr_div_pow2. Qed.

Lemma pg_round_down_div va : in_u 32 va → pg_round_down va = va / PGSIZE * PGSIZE.
Proof.
  intros Hva. unfold pg_round_down. apply Z.bits_inj'. intros n Hn.
  change (u32 (Z.lnot PGMASK)) with (Z.shiftl (Z.ones 20) 12). change PGSIZE with (2 ^ 12).
  rewrite <- Z.shiftl_mul_pow2, <- Z.shiftr_div_pow2 by lia.
  rewrite Z.land_spec, !Z.shiftl_spec by done. destruct (decide (n < 12)).
  - rewrite !(Z.testbit_neg_r _ (n - 12)) by lia. apply andb_false_r.
  - rewrite Z.shiftr_spec by lia. replace (n - 12 + 12) with n by lia.
    destruct (decide (n < 32)); [rewrite Z.ones_spec_low by lia; apply andb_true_r|].
    by rewrite (in_u_testbit va n Hva) by lia.
Qed.

(** ** Well-formed memory *)

Definition frame_ok (f : list Z) : Prop := length f = 1024%nat ∧ Forall (in_u 32) f.

Record pool_wf (r : ram) (user : bool) : Prop := {
  pool_map : wf (used_map (the_pool user r));
  pool_base : base (the_pool user r) mod PGSIZE = 0 ∧ PHYS_BASE < base (the_pool user r);
  pool_end : base (the_pool user r) + bit_cnt (used_map (the_pool user r)) * PGSIZE ≤ 2 ^ 32;
  pool_frames : ∀ i, 0 ≤ i < bit_cnt (used_map (the_pool user r)) →
    is_Some (frames r !! (base (the_pool user r) + i * PGSIZE));
}.

Record ram_wf (r : ram) : Prop := {
  ram_kernel : pool_wf r false;
  ram_user : pool_wf r true;
  ram_disjoint : base (kernel_pool r) + bit_cnt (used_map (kernel_pool r)) * PGSIZE ≤ base (user_pool r);
  ram_frames : ∀ p f, frames r !! p = Some f → frame_ok f;
}.

Lemma ram_pool r user : ram_wf r → pool_wf r user.
Proof. intros []. by destruct user. Qed.

(** The page at [p] is in use. *)
Definition allocated (r : ram) (p : Z) : Prop :=
  ∃ user i, 0 ≤ i < bit_cnt (used_map (the_pool user r)) ∧
    p = base (the_pool user r) + i * PGSIZE ∧ bit (used_map (the_pool user r)) i = true.

(** [q] is one of the [n] pages from [p]. *)
Definition page_in (p n q : Z) : Prop := ∃ k, 0 ≤ k < n ∧ q = p + k * PGSIZE.

#[global] Instance page_in_dec p n q : Decision (page_in p n q).
Proof.
  refine (cast_if (decide ((q - p) mod PGSIZE = 0 ∧ 0 ≤ (q - p) / PGSIZE < n))); unfold page_in.
  - abstract (exists ((q - p) / PGSIZE); pose proof (Z.div_mod (q - p) PGSIZE); unfold PGSIZE in *; lia).
  - abstract (intros (k & Hk & ->); replace (p + k * PGSIZE - p) with (k * PGSIZE) in * by lia;
      rewrite Z.mod_mul, Z.div_mul in * by done; lia).
Defined.

(** The [n] pages from [p] belong to a pool. *)
Definition in_pool (r : ram) (user : bool) (p n : Z) : Prop :=
  ∃ i, 0 ≤ i ∧ i + n ≤ bit_cnt (used_map (the_pool user r)) ∧ p = base (the_pool user r) + i * PGSIZE.

(** ** Filling pages *)

Lemma memset_pages_run n p b r :
  (∀ k, 0 ≤ k < Z.of_nat n → is_Some (frames r !! (p + k * PGSIZE))) →
  ∃ f, memset_pages n p b r = Ok ((), set_frames f r) ∧
    (∀ q, page_in p (Z.of_nat n) q → f !! q = Some (replicate 1024 (word_of_byte b))) ∧
    (∀ q, ¬ page_in p (Z.of_nat n) q → f !! q = frames r !! q).
Proof.
  revert p r. induction n as [|n IH]; intros p r Hf; cbn [memset_pages].
  { exists (frames r). split; [by destruct r|]. split; [|done]. intros q (k & Hk & _). lia. }
  destruct (Hf 0) as [f0 Hf0]; [lia|]. rewrite Z.mul_0_l, Z.add_0_r in Hf0.
  unfold get, mbind, M_bind, lift. rewrite Hf0. cbn.
  set (r1 := set_frames _ r). destruct (IH (p + PGSIZE) r1) as (f & Hr & H1 & H2).
  { intros k Hk. subst r1. cbn. rewrite lookup_insert_ne by (unfold PGSIZE; lia).
    destruct (Hf (k + 1)) as [x Hx]; [lia|]. exists x. rewrite <- Hx. f_equal. unfold PGSIZE. lia. }
  exists f. split; [exact Hr|].
  assert (∀ q, page_in p (Z.of_nat (S n)) q ↔ q = p ∨ page_in (p + PGSIZE) (Z.of_nat n) q) as Hs.
  { intros q. split.
    - intros (k & Hk & ->). destruct (decide (k = 0)) as [->|]; [left; lia|]. right. exists (k - 1). lia.
    - intros [->|(k & Hk & ->)]; [exists 0; lia|exists (k + 1); lia]. }
  assert (¬ page_in (p + PGSIZE) (Z.of_nat n) p) as Hp by (intros (k & Hk & E); unfold PGSIZE in E; lia).
  split; intros q Hq; rewrite Hs in Hq.
  - destruct Hq as [->|Hq]; [|by apply H1]. rewrite H2 by done. subst r1. cbn. apply lookup_insert_eq.
  - rewrite H2 by tauto. subst r1. cbn. rewrite lookup_insert_ne; [done|]. intros <-. tauto.
Qed.

Lemma fill_ok w : in_u 32 w → frame_ok (replicate 1024 w).
Proof. intros Hw. split; [by rewrite length_replicate|]. by apply Forall_replicate. Qed.

Lemma replicate_frame_ok b : 0 ≤ b < 256 → frame_ok (replicate 1024 (word_of_byte b)).
Proof. intros Hb. apply fill_ok. unfold in_u, word_of_byte. lia. Qed.

(** What filling a group of pages leaves. *)
Lemma memset_pool_run r user p n b :
  ram_wf r → in_pool r user p n → 0 ≤ n → 0 ≤ b < 256 →
  ∃ f, memset_pages (Z.to_nat n) p b r = Ok ((), set_frames f r) ∧ ram_wf (set_frames f r) ∧
    (∀ q, page_in p n q → f !! q = Some (replicate 1024 (word_of_byte b))) ∧
    (∀ q, ¬ page_in p n q → f !! q = frames r !! q).
Proof.
  intros Hwf (i & Hi & Hin & ->) Hn Hb. pose proof (ram_pool r user Hwf) as Hp.
  destruct (memset_pages_run (Z.to_nat n) (base (the_pool user r) + i * PGSIZE) b r) as (f & Hr & H1 & H2).
  { rewrite Z2Nat.id by done. intros k Hk. rewrite <- Z.add_assoc, <- Z.mul_add_distr_r.
    apply (pool_frames _ _ Hp). lia. }
  rewrite Z2Nat.id in H1, H2 by done. exists f. split; [done|]. split; [|done].
  assert (∀ q, is_Some (frames r !! q) → is_Some (f !! q)) as Hmono.
  { intros q Hq. destruct (decide (page_in (base (the_pool user r) + i * PGSIZE) n q)); [rewrite H1|rewrite H2]; done. }
  destruct Hwf as [[K1 K2 K3 K4] [U1 U2 U3 U4] Hd Hf]. constructor.
  - constructor; cbn in *; auto.
  - constructor; cbn in *; auto.
  - done.
  - cbn. intros q fr Hq. destruct (decide (page_in (base (the_pool user r) + i * PGSIZE) n q)).
    + rewrite H1 in Hq by done. injection Hq as <-. by apply replicate_frame_ok.
    + rewrite H2 in Hq by done. by eapply Hf.
Qed.

(** ** Marking pages *)

Definition with_pool (r : ram) (user : bool) (b : bitmap) : ram := set_pool user (Pool b (base (the_pool user r))) r.

Lemma the_pool_same r user b : the_pool user (with_pool r user b) = Pool b (base (the_pool user r)).
Proof. by destruct user. Qed.
Lemma the_pool_other r user b : the_pool (negb user) (with_pool r user b) = the_pool (negb user) r.
Proof. by destruct user. Qed.
Lemma with_pool_frames r user b : frames (with_pool r user b) = frames r.
Proof. by destruct user. Qed.
#[local] Hint Rewrite the_pool_same the_pool_other with_pool_frames : pool.

Lemma with_pool_wf r user b' :
  ram_wf r → wf b' → bit_cnt b' = bit_cnt (used_map (the_pool user r)) → ram_wf (with_pool r user b').
Proof.
  intros [[K1 K2 K3 K4] [U1 U2 U3 U4] Hd Hf] Hb Hc.
  destruct user; cbn in *; (constructor; [| |cbn; rewrite ?Hc; done|exact Hf]); constructor; cbn in *; rewrite ?Hc; done.
Qed.

(** The pools have no page in common. *)
Lemma pools_disjoint r user user' i j :
  ram_wf r → 0 ≤ i < bit_cnt (used_map (the_pool user r)) → 0 ≤ j < bit_cnt (used_map (the_pool user' r)) →
  base (the_pool user r) + i * PGSIZE = base (the_pool user' r) + j * PGSIZE → user = user' ∧ i = j.
Proof.
  intros Hwf Hi Hj E. pose proof (ram_disjoint _ Hwf). unfold PGSIZE in *.
  destruct user, user'; cbn in *; [|exfalso; lia..|]; (split; [done|lia]).
Qed.

(** A group of pages gets a new state. *)
Lemma allocated_updated r user b' i n v :
  ram_wf r → 0 ≤ i → 0 ≤ n → i + n ≤ bit_cnt (used_map (the_pool user r)) →
  updated (used_map (the_pool user r)) b' i n v →
  ∀ q, allocated (with_pool r user b') q ↔
    if decide (page_in (base (the_pool user r) + i * PGSIZE) n q) then v = true else allocated r q.
Proof.
  intros Hwf Hi Hn Hin [_ Hc _ Hu] q. unfold allocated.
  assert (∀ user' j, 0 ≤ j < bit_cnt (used_map (the_pool user' r)) →
    page_in (base (the_pool user r) + i * PGSIZE) n (base (the_pool user' r) + j * PGSIZE) → user' = user ∧ i ≤ j < i + n) as Hpg.
  { intros user' j Hj (k & Hk & E). rewrite <- Z.add_assoc, <- Z.mul_add_distr_r in E.
    apply pools_disjoint in E as [-> ->]; [|done|done|lia]. split; [done|lia]. }
  case_decide as Hq; split.
  - intros (user' & j & Hj & -> & Hb). destruct (decide (user' = user)) as [->|Hne].
    + rewrite the_pool_same in *. cbn in *. rewrite Hc in Hj. apply Hpg in Hq as [_ Hq]; [|done].
      rewrite Hu, decide_True in Hb by lia. by destruct v.
    + replace user' with (negb user) in * by (by destruct user, user'). rewrite the_pool_other in *.
      apply Hpg in Hq as [Hq _]; [by destruct user|done].
  - intros ->. destruct Hq as (k & Hk & ->). exists user, (i + k). rewrite the_pool_same. cbn.
    split; [lia|]. split; [lia|]. rewrite Hu, decide_True by lia. done.
  - intros (user' & j & Hj & -> & Hb). destruct (decide (user' = user)) as [->|Hne].
    + rewrite the_pool_same in *. cbn in *. exists user, j. rewrite Hc in Hj. rewrite Hu in Hb by lia.
      split; [lia|]. split; [done|]. case_decide; [|done]. destruct Hq. exists (j - i). lia.
    + replace user' with (negb user) in * by (by destruct user, user'). rewrite the_pool_other in *. by exists (negb user), j.
  - intros (user' & j & Hj & -> & Hb). exists user', j. destruct (decide (user' = user)) as [->|Hne].
    + rewrite the_pool_same. cbn. rewrite Hc, Hu by lia. split; [lia|]. split; [done|].
      case_decide; [|done]. destruct Hq. exists (j - i). lia.
    + replace user' with (negb user) in * by (by destruct user, user'). rewrite the_pool_other. done.
Qed.

(** Filling pages does not change what is in use. *)
Lemma allocated_frames r f q : allocated (set_frames f r) q ↔ allocated r q.
Proof. unfold allocated. split; intros (user & i & H); exists user, i; by destruct user. Qed.

(** No group of [n] pages of a pool is free. *)
Definition no_room (r : ram) (user : bool) (n : Z) : Prop :=
  ∀ p, in_pool r user p n → ¬ ∀ q, page_in p n q → ¬ allocated r q.

(** ** Obtaining pages *)

(** The pools have the same places. *)
Definition same_pools (r r' : ram) : Prop :=
  ∀ user, base (the_pool user r') = base (the_pool user r) ∧ bit_cnt (used_map (the_pool user r')) = bit_cnt (used_map (the_pool user r)).

Lemma same_pools_in r r' user p n : same_pools r r' → in_pool r user p n → in_pool r' user p n.
Proof. intros H (i & H1 & H2 & ->). destruct (H user) as [E1 E2]. exists i. rewrite E1, E2. done. Qed.

Lemma same_pools_with r user b : bit_cnt b = bit_cnt (used_map (the_pool user r)) → same_pools r (with_pool r user b).
Proof. intros E u. by destruct user, u. Qed.

(** The [n] pages from [p] were free and are handed out. *)
Record handed_out (r r' : ram) (user zero : bool) (p n : Z) : Prop := {
  ho_null : p ≠ 0;
  ho_pool : in_pool r user p n;
  ho_free : ∀ q, page_in p n q → ¬ allocated r q;
  ho_used : ∀ q, allocated r' q ↔ allocated r q ∨ page_in p n q;
  ho_frames : ∀ q, frames r' !! q =
    if decide (zero = true ∧ page_in p n q) then Some (replicate 1024 0) else frames r !! q;
  ho_wf : ram_wf r';
  ho_same : init_page_dir r' = init_page_dir r ∧ init_ram_pages r' = init_ram_pages r ∧ cr3 r' = cr3 r;
  ho_pools : same_pools r r';
}.

Lemma pool_bound r user : ram_wf r → bit_cnt (used_map (the_pool user r)) ≤ 2 ^ 18.
Proof.
  intros Hwf. pose proof (ram_pool r user Hwf) as Hp. pose proof (pool_base _ _ Hp). pose proof (pool_end _ _ Hp).
  unfold PHYS_BASE, PGSIZE in *. lia.
Qed.

Lemma with_map_run {A} r user (f : M bitmap A) a b :
  f (used_map (the_pool user r)) = Ok (a, b) → with_map user f r = Ok (a, with_pool r user b).
Proof. intros H. unfold with_map. by rewrite H. Qed.

Lemma with_map_err {A} r user (f : M bitmap A) e :
  f (used_map (the_pool user r)) = Err e → with_map user f r = Err e.
Proof. intros H. unfold with_map. by rewrite H. Qed.

Lemma no_fit_no_room r user n :
  ram_wf r → 0 < n → no_fit (used_map (the_pool user r)) 0 n false → no_room r user n.
Proof.
  intros Hwf Hn Hno p (i & Hi & Hin & ->) Hfree. apply (Hno i); [done..|]. intros j Hj.
  destruct (bit (used_map (the_pool user r)) j) eqn:Hb; [|done].
  destruct (Hfree (base (the_pool user r) + j * PGSIZE)).
  - exists (j - i). lia.
  - exists user, j. split; [lia|done].
Qed.

Lemma fit_free r user n i :
  ram_wf r → first_fit (used_map (the_pool user r)) 0 n false i →
  ∀ q, page_in (base (the_pool user r) + i * PGSIZE) n q → ¬ allocated r q.
Proof.
  intros Hwf [Hr Hb _] q (k & Hk & ->) (user' & j & Hj & E & Hbit).
  rewrite <- Z.add_assoc, <- Z.mul_add_distr_r in E. apply pools_disjoint in E as [<- <-]; [|done|lia|done].
  rewrite Hb in Hbit by lia. done.
Qed.

Lemma palloc_get_run r flags n (user := flag flags PAL_USER) :
  ram_wf r → 0 < n < 2 ^ 32 →
  (∃ p r', palloc_get_multiple flags n r = Ok (p, r') ∧ handed_out r r' user (flag flags PAL_ZERO) p n) ∨
  (no_room r user n ∧
   palloc_get_multiple flags n r = if flag flags PAL_ASSERT then Err Panic else Ok (0, r)).
Proof.
  intros Hwf Hn. unfold palloc_get_multiple. fold user. rewrite decide_False by lia.
  pose proof (ram_pool r user Hwf) as Hp. pose proof (pool_bound r user Hwf) as Hbound.
  destruct (bitmap_scan_and_flip_spec (used_map (the_pool user r)) 0 n false) as (i & b & Hs & Hpost);
    [apply Hp|pose proof (wf_cnt _ (pool_map _ _ Hp)); lia|lia|].
  rewrite (bind_Ok _ _ _ _ _ (with_map_run r user _ _ _ Hs)). rewrite (bind_Ok _ _ _ (with_pool r user b) (with_pool r user b)) by done.
  cbv zeta. rewrite the_pool_same. cbn [base].
  destruct Hpost as [[Hfit Hu]|(-> & Hno & ->)].
  - left. pose proof (first_fit_not_error _ _ _ _ _ (pool_map _ _ Hp) (Z.lt_le_incl _ _ (proj1 Hn)) Hfit) as Hne.
    destruct (fit_range _ _ _ _ _ Hfit) as [Hi Hin]. pose proof (pool_base _ _ Hp) as [_ Hb]. pose proof (pool_end _ _ Hp) as He.
    set (p := base (the_pool user r) + i * PGSIZE). rewrite decide_True by done.
    assert (u32 (base (the_pool user r) + u32 (PGSIZE * i)) = p) as ->.
    { unfold p, PHYS_BASE, PGSIZE in *. rewrite (wrapu_id 32 (4096 * i)) by (unfold in_u; lia).
      rewrite wrapu_id by (unfold in_u; lia). lia. }
    assert (p ≠ 0) as Hp0 by (unfold p, PHYS_BASE, PGSIZE in *; lia). rewrite decide_True by done.
    assert (ram_wf (with_pool r user b)) as Hwf1 by (apply with_pool_wf; [done|apply Hu..]).
    assert (in_pool r user p n) as Hpool by (by exists i).
    pose proof (allocated_updated r user b i n true Hwf Hi ltac:(lia) Hin Hu) as Hal. fold p in Hal.
    assert (∀ q, (if decide (page_in p n q) then true = true else allocated r q) ↔ allocated r q ∨ page_in p n q) as Hif
      by (intros q; case_decide; tauto).
    destruct (flag flags PAL_ZERO) eqn:Hz.
    + replace (u32 (PGSIZE * n) / PGSIZE) with n.
      2:{ rewrite wrapu_id by (unfold in_u, PGSIZE in *; lia). rewrite Z.mul_comm, Z.div_mul; done. }
      destruct (memset_pool_run (with_pool r user b) user p n 0 Hwf1) as (f & Hm & Hwf2 & H1 & H2); [|lia|lia|].
      { exists i. rewrite the_pool_same. cbn. rewrite (updated_cnt _ _ _ _ _ Hu). done. }
      rewrite (bind_Ok _ _ _ _ _ Hm). exists p, (set_frames f (with_pool r user b)). split; [done|].
      constructor; [done|done|by apply fit_free| | |done|by destruct user|exact (same_pools_with r user b (updated_cnt _ _ _ _ _ Hu))].
      * intros q. by rewrite allocated_frames, Hal.
      * intros q. cbn. rewrite with_pool_frames in H2. case_decide as Hd; [by rewrite H1 by tauto|by rewrite H2 by tauto].
    + rewrite (bind_Ok _ _ _ () (with_pool r user b)) by done. exists p, (with_pool r user b). split; [done|].
      constructor; [done|done|by apply fit_free| | |done|by destruct user|exact (same_pools_with r user b (updated_cnt _ _ _ _ _ Hu))].
      * intros q. by rewrite Hal.
      * intros q. by rewrite with_pool_frames, decide_False by naive_solver.
  - right. split; [apply no_fit_no_room; [done|lia|done]|].
    assert (with_pool r user (used_map (the_pool user r)) = r) as -> by (by destruct user, r as [? [] []]).
    rewrite decide_False by (intros []; done). rewrite decide_False by (intros []; done).
    by destruct (flag flags PAL_ASSERT).
Qed.

(** ** Giving pages back *)

Record given_back (r r' : ram) (p n : Z) : Prop := {
  gb_used : ∀ q, allocated r' q ↔ allocated r q ∧ ¬ page_in p n q;
  gb_frames : ∀ q, frames r' !! q =
    if decide (page_in p n q) then Some (replicate 1024 (word_of_byte 0xcc)) else frames r !! q;
  gb_wf : ram_wf r';
  gb_same : init_page_dir r' = init_page_dir r ∧ init_ram_pages r' = init_ram_pages r ∧ cr3 r' = cr3 r;
  gb_pools : same_pools r r';
}.

(** A page of a pool has its number there. *)
Lemma pool_page_no r user i :
  ram_wf r → 0 ≤ i → pg_no (base (the_pool user r) + i * PGSIZE) = pg_no (base (the_pool user r)) + i.
Proof. intros Hwf Hi. rewrite !pg_no_div, Z.div_add by done. done. Qed.

Lemma page_from_pool_spec r user user' i :
  ram_wf r → 0 ≤ i < bit_cnt (used_map (the_pool user r)) →
  page_from_pool user' (base (the_pool user r) + i * PGSIZE) r = bool_decide (user' = user).
Proof.
  intros Hwf Hi. unfold page_from_pool. rewrite pool_page_no by (done || lia). rewrite !pg_no_div.
  pose proof (pool_base _ _ (ram_pool r user' Hwf)) as [Hb' _]. pose proof (pool_base _ _ (ram_pool r user Hwf)) as [Hb Hb0].
  pose proof (pool_base _ _ (ram_pool r user' Hwf)) as [_ Hb1].
  pose proof (pool_end _ _ (ram_pool r user' Hwf)) as He'. pose proof (ram_disjoint _ Hwf) as Hd.
  pose proof (pool_bound r user' Hwf). pose proof (wf_cnt _ (pool_map _ _ (ram_pool r user' Hwf))).
  pose proof (Z.div_mod (base (the_pool user r)) PGSIZE). pose proof (Z.div_mod (base (the_pool user' r)) PGSIZE).
  unfold PGSIZE, PHYS_BASE in *. rewrite wrapu_id by (unfold in_u; lia).
  apply Bool.eq_iff_eq_true. rewrite andb_true_iff, !bool_decide_eq_true.
  destruct user, user'; cbn in *; (split; [intros [? ?]; (done || exfalso; lia)|intros ?; (done || lia)]).
Qed.

(** The part of [palloc_free_multiple] in front of its assertion. *)
Lemma palloc_free_pool r user i n :
  ram_wf r → 0 ≤ i < bit_cnt (used_map (the_pool user r)) → 0 < n ≤ 2 ^ 18 →
  palloc_free_multiple (base (the_pool user r) + i * PGSIZE) n r =
    (memset_pages (Z.to_nat n) (base (the_pool user r) + i * PGSIZE) 0xcc;;
     all ← with_map user (bitmap_all i n); ASSERT all;; with_map user (bitmap_set_multiple i n false)) r.
Proof.
  intros Hwf Hi Hn. pose proof (pool_base _ _ (ram_pool r user Hwf)) as [Hb Hb0]. pose proof (pool_bound r user Hwf).
  unfold palloc_free_multiple. set (p := base (the_pool user r) + i * PGSIZE).
  assert (pg_ofs p = 0) as Ho by (unfold p; rewrite pg_ofs_mod, Z.mod_add; done).
  rewrite (bind_Ok _ _ _ () r) by (by rewrite Ho).
  rewrite decide_False by (unfold p, PHYS_BASE, PGSIZE in *; lia).
  rewrite (bind_Ok _ _ _ r r) by done.
  rewrite (bind_Ok _ _ _ user r).
  2:{ unfold p. rewrite !page_from_pool_spec by done. by destruct user. }
  cbv zeta. unfold p. rewrite pool_page_no by (done || lia).
  replace (u32 (pg_no (base (the_pool user r)) + i - pg_no (base (the_pool user r)))) with i.
  2:{ rewrite Z.add_simpl_l, wrapu_id; [done|unfold in_u; lia]. }
  replace (u32 (PGSIZE * n) / PGSIZE) with n.
  2:{ rewrite wrapu_id by (unfold in_u, PGSIZE; lia). rewrite Z.mul_comm, Z.div_mul; done. }
  done.
Qed.

Lemma palloc_free_run r user p n :
  ram_wf r → in_pool r user p n → 0 < n → (∀ q, page_in p n q → allocated r q) →
  ∃ r', palloc_free_multiple p n r = Ok ((), r') ∧ given_back r r' p n.
Proof.
  intros Hwf Hp Hn Hall. pose proof (pool_bound r user Hwf). pose proof Hp as (i & Hi & Hin & ->).
  set (p := base (the_pool user r) + i * PGSIZE) in *.
  unfold p. rewrite palloc_free_pool by (done || lia). fold p.
  destruct (memset_pool_run r user p n 0xcc Hwf Hp) as (f & Hm & Hwf1 & H1 & H2); [lia..|].
  rewrite (bind_Ok _ _ _ _ _ Hm). set (r1 := set_frames f r).
  assert (the_pool user r1 = the_pool user r) as Ep by (by destruct user).
  pose proof (pool_map _ _ (ram_pool r user Hwf)) as Hw.
  destruct (bitmap_contains_spec (used_map (the_pool user r)) i n false) as (c & Hc & Hiff); [done|lia..|].
  assert (c = false) as ->.
  { apply Hiff. intros j Hj. destruct (Hall (base (the_pool user r) + j * PGSIZE)) as (u & k & Hk & E & Hb).
    - exists (j - i). unfold p. lia.
    - apply pools_disjoint in E as [<- <-]; [done|done|lia|done]. }
  rewrite (bind_Ok _ _ _ true (with_pool r1 user (used_map (the_pool user r)))).
  2:{ apply with_map_run. rewrite Ep. unfold bitmap_all. by rewrite (bind_Ok _ _ _ _ _ Hc). }
  assert (with_pool r1 user (used_map (the_pool user r)) = r1) as -> by (subst r1; by destruct user, r as [? [] []]).
  cbn [ASSERT]. rewrite (bind_Ok _ _ _ () r1) by done.
  destruct (bitmap_set_multiple_spec (used_map (the_pool user r)) i n false) as (b & Hs & Hu); [done|lia..|].
  exists (with_pool r1 user b). split; [apply with_map_run; by rewrite Ep|].
  pose proof (allocated_updated r1 user b i n false Hwf1 Hi ltac:(lia)) as Hal. rewrite Ep in Hal. fold p in Hal.
  constructor.
  - intros q. rewrite Hal by done. pose proof (allocated_frames r f q) as Hfr. fold r1 in Hfr. case_decide; [|tauto].
    split; [done|tauto].
  - intros q. rewrite with_pool_frames. subst r1. cbn. case_decide; [by apply H1|by apply H2].
  - apply with_pool_wf; [done|apply Hu|]. rewrite Ep. apply Hu.
  - by destruct user.
  - apply (same_pools_with r1 user b). rewrite Ep. apply Hu.
Qed.

Lemma memset_pages_frames n p b r r' : memset_pages n p b r = Ok ((), r') → ∃ f, r' = set_frames f r.
Proof.
  revert p r. induction n as [|n IH]; intros p r; cbn [memset_pages]; [intros [= <-]; exists (frames r); by destruct r|].
  unfold get, mbind, M_bind, lift. destruct (frames r !! p); [|done]. cbn. intros (f & ->)%IH. by exists f.
Qed.

(** A group with a page that is not in use is not accepted. *)
Lemma palloc_free_not_allocated r user p n q :
  ram_wf r → in_pool r user p 1 → 0 < n ≤ 2 ^ 18 → page_in p n q → ¬ allocated r q →
  ∃ e, palloc_free_multiple p n r = Err e.
Proof.
  intros Hwf (i & Hi & Hin & ->) Hn (k & Hk & ->) Hna. rewrite palloc_free_pool by (done || lia).
  destruct (memset_pages (Z.to_nat n) (base (the_pool user r) + i * PGSIZE) 0xcc r) as [[[] r1]|e] eqn:Hm;
    [|exists e; by apply bind_Err].
  rewrite (bind_Ok _ _ _ _ _ Hm). apply memset_pages_frames in Hm as [f ->].
  assert (the_pool user (set_frames f r) = the_pool user r) as Ep by (by destruct user).
  pose proof (pool_map _ _ (ram_pool r user Hwf)) as Hw. pose proof (wf_cnt _ Hw). pose proof (pool_bound r user Hwf).
  destruct (decide (i + n ≤ bit_cnt (used_map (the_pool user r)))) as [Hle|Hgt].
  - destruct (bitmap_contains_spec (used_map (the_pool user r)) i n false) as (c & Hc & Hiff); [done|lia..|].
    destruct c.
    + exists Panic. rewrite (bind_Ok _ _ _ false (with_pool (set_frames f r) user (used_map (the_pool user r)))); [done|].
      apply with_map_run. rewrite Ep. unfold bitmap_all. by rewrite (bind_Ok _ _ _ _ _ Hc).
    + destruct Hna. exists user, (i + k). split; [lia|]. split; [lia|]. apply Hiff; [done|lia].
  - exists Panic. apply bind_Err, with_map_err. rewrite Ep. unfold bitmap_all, bitmap_contains. apply bind_Err.
    rewrite (bind_Ok _ _ _ _ _ (eq_refl : get _ = Ok (used_map (the_pool user r), _))).
    rewrite (bind_Ok _ _ _ () (used_map (the_pool user r))) by (rewrite bool_decide_true by lia; done).
    apply bind_Err. rewrite wrapu_id by (unfold in_u; lia). by rewrite bool_decide_false by lia.
Qed.

(** ** The claims *)


(** [palloc_free_multiple] gives back a group of pages that are all in use:
    exactly they are free afterwards, overwritten with 0xcc, and everything
    else is kept.  A group with a page that is not in use, as in a second
    call for the same pages, or one that leaves its pool, is never accepted. *)
Theorem palloc_free_multiple_owned r user p n :
  ram_wf r → in_pool r user p 1 → 0 < n ≤ 2 ^ 18 →
  (in_pool r user p n → (∀ q, page_in p n q → allocated r q) →
   ∃ r', palloc_free_multiple p n r = Ok ((), r') ∧ given_back r r' p n) ∧
  (∀ q, page_in p n q → ¬ allocated r q → ∃ e, palloc_free_multiple p n r = Err e).
Proof.
  intros Hwf Hp Hn. split.
  - intros Hpn Ha. apply (palloc_free_run r user); [done..|lia|done].
  - intros q Hq Hna. by eapply palloc_free_not_allocated.
Qed.

(** A machine of 264 pages: 256 below 1 MB and four pages for each pool, of
    which one holds the bitmap; the last page below 1 MB is an empty page
    directory. *)
Definition demo_init_page_dir : Z := PHYS_BASE + 255 * PGSIZE.
Definition demo_frames : gmap Z (list Z) :=
  <[demo_init_page_dir := replicate 1024 0]>
    (list_to_map ((λ i, (PHYS_BASE + (256 + i) * PGSIZE, replicate 1024 0xffffffff)) <$> seqZ 0 8)).
Definition demo_blank : ram :=
  Ram demo_frames (Pool (Bitmap_ 0 []) 0) (Pool (Bitmap_ 0 []) 0) 264 demo_init_page_dir 0.
Definition demo_ram : ram :=
  match palloc_init (2 ^ 32 - 1) demo_blank with Ok (_, r) => r | Err _ => demo_blank end.

Lemma demo_ram_pools :
  kernel_pool demo_ram = Pool (Bitmap_ 3 (0xfffffff8 :: replicate 1021 0xffffffff)) (PHYS_BASE + 257 * PGSIZE) ∧
  user_pool demo_ram = Pool (Bitmap_ 3 (0xfffffff8 :: replicate 1021 0xffffffff)) (PHYS_BASE + 261 * PGSIZE) ∧
  frames demo_ram = demo_frames.
Proof. split_and!; vm_compute; reflexivity. Defined.

Lemma demo_bitmap_pool_wf : wf (Bitmap_ 3 (0xfffffff8 :: replicate 1021 0xffffffff)).
Proof. split; cbn [bit_cnt bits]; [lia|by vm_compute|]. apply (bool_decide_unpack _). vm_compute. exact I. Defined.

Lemma demo_frame_some i : 0 ≤ i < 8 → is_Some (demo_frames !! (PHYS_BASE + (256 + i) * PGSIZE)).
Proof.
  intros Hi. assert (i = 0 ∨ i = 1 ∨ i = 2 ∨ i = 3 ∨ i = 4 ∨ i = 5 ∨ i = 6 ∨ i = 7) as H by lia.
  destruct H as [->|[->|[->|[->|[->|[->|[->| ->]]]]]]]; vm_compute; eauto.
Defined.

Lemma demo_ram_wf : ram_wf demo_ram.
Proof.
  destruct demo_ram_pools as (Hk & Hu & Hf). constructor.
  - constructor; unfold the_pool; rewrite ?Hk, ?Hf; cbn [used_map base bit_cnt].
    + apply demo_bitmap_pool_wf.
    + split; vm_compute; reflexivity.
    + vm_compute. discriminate.
    + intros i Hi. replace (PHYS_BASE + 257 * PGSIZE + i * PGSIZE) with (PHYS_BASE + (256 + (i + 1)) * PGSIZE) by lia.
      apply demo_frame_some. lia.
  - constructor; unfold the_pool; rewrite ?Hu, ?Hf; cbn [used_map base bit_cnt].
    + apply demo_bitmap_pool_wf.
    + split; vm_compute; reflexivity.
    + vm_compute. discriminate.
    + intros i Hi. replace (PHYS_BASE + 261 * PGSIZE + i * PGSIZE) with (PHYS_BASE + (256 + (i + 5)) * PGSIZE) by lia.
      apply demo_frame_some. lia.
  - rewrite Hk, Hu. done.
  - rewrite Hf. intros p f Hp. unfold demo_frames in Hp.
    destruct (decide (p = demo_init_page_dir)) as [->|Hne].
    { rewrite lookup_insert_eq in Hp. rewrite <- (Some_inj _ _ Hp). apply fill_ok. split; by vm_compute. }
    rewrite lookup_insert_ne in Hp by done. apply elem_of_list_to_map_2, list_elem_of_fmap in Hp as (i & Hp & _).
    rewrite (f_equal snd Hp : f = replicate 1024 _). apply fill_ok. split; by vm_compute.
Defined.


Lemma palloc_free_multiple_owned_witness :
  ∃ e, palloc_free_multiple (PHYS_BASE + 261 * PGSIZE) 1 demo_ram = Err e.
Proof.
  destruct (palloc_free_multiple_owned demo_ram true (PHYS_BASE + 261 * PGSIZE) 1 demo_ram_wf) as [_ H].
  - exists 0. destruct demo_ram_pools as (_ & Hu & _). unfold the_pool. rewrite Hu. split; [done|]. split; [by vm_compute|done].
  - lia.
  - apply (H (PHYS_BASE + 261 * PGSIZE)); [by exists 0|]. destruct demo_ram_pools as (Hk & Hu & _).
    intros (user & i & Hi & E & Hb). unfold the_pool in *. destruct user; rewrite ?Hk, ?Hu in *; cbn [base used_map bit_cnt] in *.
    + assert (i = 0) as -> by (unfold PGSIZE in E; lia). vm_compute in Hb. discriminate.
    + unfold PGSIZE in E. lia.
Defined.
End PallocSpec.
