(* ===== verification/Pagedir.v ===== *)
(** * Page tables (threads/pte.h, userprog/pagedir.c)

    Page directories and page tables are frames of the memory of [Palloc],
    obtained from its kernel pool; an entry is a 32-bit word.  Writing the
    page directory base register, which also clears the translation
    lookaside buffer, sets [cr3]. *)

From S2P Require Import Prelude Palloc.
Import Palloc.

Module Pagedir.

(** ** Entries (pte.h) *)

Definition PTSHIFT : Z := PGBITS.
Definition PTBITS : Z := 10.
Definition PTSPAN : Z := Z.shiftl (Z.shiftl 1 PTBITS) PGBITS.
Definition PTMASK : Z := BITMASK PTSHIFT PTBITS.
Definition PDSHIFT : Z := PTSHIFT + PTBITS.
Definition PDBITS : Z := 10.
Definition PDMASK : Z := BITMASK PDSHIFT PDBITS.

Definition pt_no (va : Z) : Z := Z.shiftr (Z.land va PTMASK) PTSHIFT.
Definition pd_no (va : Z) : Z := Z.shiftr va PDSHIFT.

Definition PTE_FLAGS : Z := 0x00000fff.
Definition PTE_ADDR : Z := 0xfffff000.
Definition PTE_AVL : Z := 0x00000e00.
Definition PTE_P : Z := 0x1.
Definition PTE_W : Z := 0x2.
Definition PTE_U : Z := 0x4.
Definition PTE_A : Z := 0x20.
Definition PTE_D : Z := 0x40.

Definition pde_create (pt : Z) : V Z :=
  ASSERT (bool_decide (pg_ofs pt = 0));;
  pa ← vtop pt; mret (Z.lor (Z.lor (Z.lor pa PTE_U) PTE_P) PTE_W).

Definition pde_get_pt (pde : Z) : V Z :=
  ASSERT (bool_decide (Z.land pde PTE_P ≠ 0));; ptov (Z.land pde PTE_ADDR).

Definition pte_create_kernel (page : Z) (writable : bool) : V Z :=
  ASSERT (bool_decide (pg_ofs page = 0));;
  pa ← vtop page; mret (Z.lor (Z.lor pa PTE_P) (if writable then PTE_W else 0)).

Definition pte_create_user (page : Z) (writable : bool) : V Z :=
  pte ← pte_create_kernel page writable; mret (Z.lor pte PTE_U).

Definition pte_get_page (pte : Z) : V Z := ptov (Z.land pte PTE_ADDR).

(** ** Page directories (pagedir.c) *)

(** [memcpy] of a whole page. *)
Definition memcpy_page (dst src : Z) : V unit :=
  r ← get; f ← lift (frames r !! src) Undef; lift (frames r !! dst) Undef;;
  put (set_frames (<[dst := f]> (frames r)) r).

Definition pagedir_create : V Z :=
  pd ← palloc_get_page 0;
  (if decide (pd ≠ 0) then src ← gets init_page_dir; memcpy_page pd src else mret ());;
  mret pd.

(** The [n] entries of a page table from [pte] on. *)
Fixpoint destroy_ptes (n : nat) (pte : Z) : V unit :=
  match n with
  | O => mret ()
  | S n =>
      e ← load_word pte;
      (if decide (Z.land e PTE_P ≠ 0) then page ← pte_get_page e; palloc_free_page page else mret ());;
      destroy_ptes n (pte + 4)
  end.

(** The [n] entries of a page directory from [pde] on. *)
Fixpoint destroy_pdes (n : nat) (pde : Z) : V unit :=
  match n with
  | O => mret ()
  | S n =>
      e ← load_word pde;
      (if decide (Z.land e PTE_P ≠ 0) then
         pt ← pde_get_pt e;
         destroy_ptes (Z.to_nat (PGSIZE / 4)) pt;;
         palloc_free_page pt
       else mret ());;
      destroy_pdes n (pde + 4)
  end.

Definition pagedir_destroy (pd : Z) : V unit :=
  if decide (pd = 0) then mret () else
  init ← gets init_page_dir;
  ASSERT (bool_decide (pd ≠ init));;
  destroy_pdes (Z.to_nat (pd_no PHYS_BASE)) pd;;
  palloc_free_page pd.

(** The address of the entry, 0 if there is none. *)
Definition lookup_page (pd vaddr : Z) (create : bool) : V Z :=
  ASSERT (bool_decide (pd ≠ 0));;
  ASSERT (negb create || is_user_vaddr vaddr);;
  let pde := pd + 4 * pd_no vaddr in
  e ← load_word pde;
  have ← (if decide (e = 0) then
            if create then
              pt ← palloc_get_page PAL_ZERO;
              if decide (pt = 0) then mret false
              else e ← pde_create pt; store_word pde e;; mret true
            else mret false
          else mret true);
  if (have : bool) then e ← load_word pde; pt ← pde_get_pt e; mret (pt + 4 * pt_no vaddr) else mret 0.

Definition pagedir_set_page (pd upage kpage : Z) (writable : bool) : V bool :=
  ASSERT (bool_decide (pg_ofs upage = 0));;
  ASSERT (bool_decide (pg_ofs kpage = 0));;
  ASSERT (is_user_vaddr upage);;
  pa ← vtop kpage; n ← gets init_ram_pages; ASSERT (bool_decide (Z.shiftr pa PTSHIFT < n));;
  init ← gets init_page_dir; ASSERT (bool_decide (pd ≠ init));;
  pte ← lookup_page pd upage true;
  if decide (pte ≠ 0) then
    e ← load_word pte; ASSERT (bool_decide (Z.land e PTE_P = 0));;
    e ← pte_create_user kpage writable;
    store_word pte e;;
    mret true
  else mret false.

Definition pagedir_get_page (pd uaddr : Z) : V Z :=
  ASSERT (is_user_vaddr uaddr);;
  pte ← lookup_page pd uaddr false;
  if decide (pte ≠ 0) then
    e ← load_word pte;
    if decide (Z.land e PTE_P ≠ 0) then page ← pte_get_page e; mret (page + pg_ofs uaddr) else mret 0
  else mret 0.

Definition pagedir_activate (pd : Z) : V unit :=
  init ← gets init_page_dir;
  pa ← vtop (if decide (pd = 0) then init else pd);
  modify (λ r, Ram (frames r) (kernel_pool r) (user_pool r) (init_ram_pages r) (init_page_dir r) pa).

Definition active_pd : V Z := pd ← gets cr3; ptov pd.

Definition invalidate_pagedir (pd : Z) : V unit :=
  a ← active_pd; if decide (a = pd) then pagedir_activate pd else mret ().

Definition pagedir_clear_page (pd upage : Z) : V unit :=
  ASSERT (bool_decide (pg_ofs upage = 0));;
  ASSERT (is_user_vaddr upage);;
  pte ← lookup_page pd upage false;
  if decide (pte ≠ 0) then
    e ← load_word pte;
    if decide (Z.land e PTE_P ≠ 0) then
      store_word pte (Z.land e (u32 (Z.lnot PTE_P)));; invalidate_pagedir pd
    else mret ()
  else mret ().

(** The two bits the processor sets. *)
Definition pagedir_is (bit pd vpage : Z) : V bool :=
  pte ← lookup_page pd vpage false;
  if decide (pte ≠ 0) then e ← load_word pte; mret (bool_decide (Z.land e bit ≠ 0)) else mret false.
Definition pagedir_set (bit pd vpage : Z) (v : bool) : V unit :=
  pte ← lookup_page pd vpage false;
  if decide (pte ≠ 0) then
    e ← load_word pte;
    if v then store_word pte (Z.lor e bit)
    else store_word pte (Z.land e (u32 (Z.lnot bit)));; invalidate_pagedir pd
  else mret ().
Definition pagedir_is_dirty (pd vpage : Z) : V bool := pagedir_is PTE_D pd vpage.
Definition pagedir_set_dirty (pd vpage : Z) (dirty : bool) : V unit := pagedir_set PTE_D pd vpage dirty.
Definition pagedir_is_accessed (pd vpage : Z) : V bool := pagedir_is PTE_A pd vpage.
Definition pagedir_set_accessed (pd vpage : Z) (accessed : bool) : V unit := pagedir_set PTE_A pd vpage accessed.

End Pagedir.
