(* ===== verification/PagedirSpec.v ===== *)
(** * Page tables: theorems

    What [pagedir_set_page] maps, [pagedir_get_page] finds, and every other
    address keeps its page; [pagedir_destroy] gives back exactly the pages
    the directory refers to, its tables and itself. *)

From S2P Require Import Prelude Bitmap Palloc PallocSpec Pagedir.
Import Bitmap Palloc PallocSpec Pagedir.

Module PagedirSpec.

(** ** Words and entries *)

Lemma land_addr w : in_u 32 w → Z.land w PTE_ADDR = w / PGSIZE * PGSIZE.
Proof. exact (pg_round_down_div w). Qed.

Lemma land_present w : Z.land w PTE_P = w mod 2.
Proof. change PTE_P with (Z.ones 1). by rewrite Z.land_ones. Qed.

Lemma lor_flags a f : a mod PGSIZE = 0 → 0 ≤ f < PGSIZE → Z.lor a f = a + f.
Proof.
  intros Ha Hf. symmetry. apply Z.add_nocarry_lor.
  assert (a = Z.shiftl (a / PGSIZE) 12) as ->.
  { rewrite Z.shiftl_mul_pow2 by lia. pose proof (Z.div_mod a PGSIZE). unfold PGSIZE in *. lia. }
  assert (f = Z.land f (Z.ones 12)) as -> by (rewrite Z.land_ones, Z.mod_small; [done|done|lia]).
  apply Z.bits_inj'. intros n Hn. rewrite !Z.land_spec, Z.bits_0, Z.shiftl_spec by done. destruct (decide (n < 12)).
  - by rewrite Z.testbit_neg_r by lia.
  - rewrite Z.ones_spec_high by lia. by rewrite !andb_false_r.
Qed.

Lemma pt_no_spec va : 0 ≤ va → pt_no va = va / PGSIZE mod 1024.
Proof.
  intros Hva. unfold pt_no, PTSHIFT, PGBITS. change PTMASK with (Z.shiftl (Z.ones 10) 12).
  rewrite Z.shiftr_land, Z.shiftr_shiftl_l by lia. change (12 - 12) with 0. rewrite Z.shiftl_0_r.
  rewrite Z.land_ones by lia. by rewrite Z.shiftr_div_pow2.
Qed.

Lemma pd_no_spec va : 0 ≤ va → pd_no va = va / PGSIZE / 1024.
Proof.
  intros Hva. unfold pd_no. change PDSHIFT with 22. rewrite Z.shiftr_div_pow2 by lia.
  rewrite Z.div_div by done. done.
Qed.

(** The address of a page of the kernel, and the word in an entry for it. *)
Definition kernel_page (p : Z) : Prop := p mod PGSIZE = 0 ∧ PHYS_BASE ≤ p < 2 ^ 32.
Definition entry (p f : Z) : Z := p - PHYS_BASE + f.

Lemma kernel_page_phys p : kernel_page p → (p - PHYS_BASE) mod PGSIZE = 0.
Proof.
  intros [Hp _]. change PHYS_BASE with (786432 * PGSIZE). rewrite <- Z.add_opp_r, <- Z.mul_opp_l.
  by rewrite Z.mod_add.
Qed.

Lemma entry_page p f : kernel_page p → 0 ≤ f < PGSIZE →
  in_u 32 (entry p f) ∧ entry p f / PGSIZE * PGSIZE = p - PHYS_BASE.
Proof.
  intros Hp Hf. pose proof (kernel_page_phys p Hp) as Hm. destruct Hp as [_ Hp].
  pose proof (Z.div_mod (p - PHYS_BASE) PGSIZE). unfold entry, in_u, PGSIZE, PHYS_BASE in *.
  split; [lia|]. Z.to_euclidean_division_equations. lia.
Qed.

Lemma ptov_run pa r : 0 ≤ pa < 2 ^ 32 - PHYS_BASE → ptov pa r = Ok (pa + PHYS_BASE, r).
Proof.
  intros Hp. unfold ptov. unfold PHYS_BASE in *. rewrite bool_decide_true by lia. cbn. unfold mbind, M_bind, mret, M_ret. cbn.
  by rewrite wrapu_id by (unfold in_u; lia).
Qed.

Lemma vtop_run p r : kernel_page p → vtop p r = Ok (p - PHYS_BASE, r).
Proof. intros [_ Hp]. unfold vtop, is_kernel_vaddr. by rewrite bool_decide_true by lia. Qed.

Lemma pde_create_run p r : kernel_page p → pde_create p r = Ok (entry p 7, r).
Proof.
  intros Hp. unfold pde_create. rewrite pg_ofs_mod. rewrite bool_decide_true by apply Hp.
  rewrite (bind_Ok _ _ _ () r) by done. rewrite (bind_Ok _ _ _ _ _ (vtop_run p r Hp)).
  rewrite <- !Z.lor_assoc. change (Z.lor PTE_U (Z.lor PTE_P PTE_W)) with 7.
  by rewrite lor_flags by (done || by apply kernel_page_phys).
Qed.

Definition user_flags (writable : bool) : Z := if writable then 7 else 5.

Lemma pte_create_user_run p w r : kernel_page p → pte_create_user p w r = Ok (entry p (user_flags w), r).
Proof.
  intros Hp. unfold pte_create_user, pte_create_kernel. rewrite pg_ofs_mod. rewrite bool_decide_true by apply Hp.
  unfold ASSERT. rewrite (bind_Ok _ _ _ (Z.lor (Z.lor (p - PHYS_BASE) PTE_P) (if w then PTE_W else 0)) r).
  2:{ rewrite (bind_Ok _ _ _ () r) by done. by rewrite (bind_Ok _ _ _ _ _ (vtop_run p r Hp)). }
  rewrite <- !Z.lor_assoc. destruct w; unfold user_flags.
  - change (Z.lor PTE_P (Z.lor PTE_W PTE_U)) with 7. by rewrite lor_flags by (done || by apply kernel_page_phys).
  - change (Z.lor PTE_P (Z.lor 0 PTE_U)) with 5. by rewrite lor_flags by (done || by apply kernel_page_phys).
Qed.

(** The page an entry names. *)
Definition page_of (e : Z) : Z := e / PGSIZE * PGSIZE + PHYS_BASE.

Lemma page_of_entry p f : kernel_page p → 0 ≤ f < PGSIZE → page_of (entry p f) = p.
Proof. intros Hp Hf. unfold page_of. rewrite (proj2 (entry_page p f Hp Hf)). lia. Qed.

Lemma pte_get_page_run e r : in_u 32 e → e < 2 ^ 32 - PHYS_BASE → pte_get_page e r = Ok (page_of e, r).
Proof.
  intros He Hl. unfold pte_get_page. rewrite land_addr by done. apply ptov_run.
  unfold in_u, PGSIZE in *. Z.to_euclidean_division_equations. lia.
Qed.

Lemma pde_get_pt_run e r : in_u 32 e → e < 2 ^ 32 - PHYS_BASE → e mod 2 = 1 → pde_get_pt e r = Ok (page_of e, r).
Proof.
  intros He Hl Ho. unfold pde_get_pt. rewrite land_present, bool_decide_true by lia.
  rewrite (bind_Ok _ _ _ () r) by done. by apply pte_get_page_run.
Qed.

(** The word [k] of the frame at [p]. *)
Lemma word_addr p k : kernel_page p → 0 ≤ k < 1024 →
  (p + 4 * k) mod 4 = 0 ∧ pg_round_down (p + 4 * k) = p ∧ Z.to_nat (pg_ofs (p + 4 * k) / 4) = Z.to_nat k.
Proof.
  intros [Hm Hp] Hk. rewrite pg_ofs_mod, pg_round_down_div by (unfold in_u, PGSIZE, PHYS_BASE in *; Z.to_euclidean_division_equations; lia).
  unfold PGSIZE, PHYS_BASE in *. Z.to_euclidean_division_equations. lia.
Qed.

Lemma load_word_run r p f k w :
  kernel_page p → 0 ≤ k < 1024 → frames r !! p = Some f → f !! Z.to_nat k = Some w →
  load_word (p + 4 * k) r = Ok (w, r).
Proof.
  intros Hp Hk Hf Hw. destruct (word_addr p k Hp Hk) as (H1 & H2 & H3).
  unfold load_word, get, mbind, M_bind, lift. rewrite decide_True by done. rewrite H2, H3, Hf. cbn. by rewrite Hw.
Qed.

(** ** Well-formed directories *)

Definition word (r : ram) (p k : Z) : option Z := f ← frames r !! p; f !! Z.to_nat k.

(** The page table for index [i]. *)
Definition table (r : ram) (pd i pt : Z) : Prop :=
  ∃ e, 0 ≤ i < 768 ∧ word r pd i = Some e ∧ e ≠ 0 ∧ page_of e = pt.

Lemma table_intro r pd i e : 0 ≤ i < 768 → word r pd i = Some e → e ≠ 0 → table r pd i (page_of e).
Proof. intros. by exists e. Qed.

Record pd_wf (r : ram) (pd : Z) : Prop := {
  pd_alloc : allocated r pd;
  pd_user : pd ≠ init_page_dir r;
  pd_pdes : ∀ i e, 0 ≤ i < 768 → word r pd i = Some e → e ≠ 0 → e < 2 ^ 32 - PHYS_BASE ∧ e mod 2 = 1;
  pd_tables : ∀ i pt, table r pd i pt → allocated r pt ∧ pt ≠ pd;
  pd_distinct : ∀ i j pt, table r pd i pt → table r pd j pt → i = j;
  pd_ptes : ∀ i pt j w, table r pd i pt → word r pt j = Some w → w mod 2 = 1 → w < 2 ^ 32 - PHYS_BASE;
}.

Lemma allocated_page r p : ram_wf r → allocated r p → kernel_page p ∧ ∃ f, frames r !! p = Some f ∧ frame_ok f.
Proof.
  intros Hwf (user & i & Hi & -> & _). pose proof (ram_pool r user Hwf) as Hp. pose proof (pool_base _ _ Hp) as [Hm Hb].
  pose proof (pool_end _ _ Hp). split.
  - split; [rewrite Z.mod_add; done|]. unfold PGSIZE in *. nia.
  - destruct (pool_frames _ _ Hp i Hi) as [f Hf]. exists f. split; [done|by eapply ram_frames].
Qed.

(** A word of an allocated page. *)
Lemma word_some r p k :
  ram_wf r → allocated r p → 0 ≤ k < 1024 →
  ∃ w, word r p k = Some w ∧ in_u 32 w ∧ load_word (p + 4 * k) r = Ok (w, r).
Proof.
  intros Hwf Ha Hk. destruct (allocated_page r p Hwf Ha) as (Hp & f & Hf & [Hl Hw]).
  destruct (lookup_lt_is_Some_2 f (Z.to_nat k)) as [w Hk']; [lia|]. exists w. split; [unfold word; by rewrite Hf|].
  split; [by eapply Forall_lookup_1 in Hw|by eapply load_word_run].
Qed.

(** The state after a word of an allocated page is stored. *)
Definition stored (r : ram) (p k w : Z) : ram :=
  set_frames (alter (<[Z.to_nat k := w]>) p (frames r)) r.

Lemma store_word_run r p k w :
  ram_wf r → allocated r p → 0 ≤ k < 1024 → store_word (p + 4 * k) w r = Ok ((), stored r p k w).
Proof.
  intros Hwf Ha Hk. destruct (word_some r p k Hwf Ha Hk) as (w0 & _ & _ & Hl).
  destruct (allocated_page r p Hwf Ha) as [Hp _]. destruct (word_addr p k Hp Hk) as (_ & H2 & H3).
  unfold store_word. rewrite (bind_Ok _ _ _ _ _ Hl). unfold modify, stored. by rewrite H2, H3.
Qed.

Lemma word_stored r p k w q j :
  ram_wf r → allocated r p → 0 ≤ k < 1024 → 0 ≤ j →
  word (stored r p k w) q j = if decide (q = p ∧ j = k) then Some w else word r q j.
Proof.
  intros Hwf Ha Hk Hj. destruct (allocated_page r p Hwf Ha) as (_ & f & Hf & [Hl _]). unfold word, stored. cbn.
  destruct (decide (q = p)) as [->|Hq].
  - rewrite lookup_alter_eq, Hf. cbn. destruct (decide (j = k)) as [->|Hjk].
    + rewrite decide_True by done. rewrite list_lookup_insert_eq; [done|lia].
    + rewrite decide_False by tauto. rewrite list_lookup_insert_ne; [done|lia].
  - rewrite lookup_alter_ne by done. by rewrite decide_False by tauto.
Qed.

Lemma stored_wf r p k w : ram_wf r → in_u 32 w → ram_wf (stored r p k w).
Proof.
  intros [[K1 K2 K3 K4] [U1 U2 U3 U4] Hd Hf] Hw.
  constructor; [constructor; cbn in *; auto|constructor; cbn in *; auto|done|].
  - intros i Hi. destruct (K4 i Hi) as [f Hf']. rewrite lookup_alter. case_decide; [|by exists f]. subst. rewrite Hf'. by eexists.
  - intros i Hi. destruct (U4 i Hi) as [f Hf']. rewrite lookup_alter. case_decide; [|by exists f]. subst. rewrite Hf'. by eexists.
  - cbn. intros q f. rewrite lookup_alter. case_decide; [|apply Hf]. subst.
    intros (f0 & H0 & ->)%fmap_Some. apply Hf in H0 as [Hl Ha]. split; [by rewrite length_insert|by apply Forall_insert].
Qed.

Lemma stored_allocated r p k w q : allocated (stored r p k w) q ↔ allocated r q.
Proof. apply allocated_frames. Qed.

(** ** Walking the tables *)

(** The entry for a virtual address that is mapped. *)
Definition mapping (r : ram) (pd va : Z) : option Z :=
  e ← word r pd (pd_no va);
  if decide (e = 0) then None else
  w ← word r (page_of e) (pt_no va); if decide (w mod 2 = 1) then Some w else None.

Definition user_addr (va : Z) : Prop := 0 ≤ va < PHYS_BASE.

Lemma user_addr_nos va : user_addr va → 0 ≤ pd_no va < 768 ∧ 0 ≤ pt_no va < 1024.
Proof.
  intros [H0 H1]. rewrite pd_no_spec, pt_no_spec by done. unfold PHYS_BASE, PGSIZE in *.
  Z.to_euclidean_division_equations. lia.
Qed.

Lemma same_page va va' : 0 ≤ va → 0 ≤ va' →
  pd_no va = pd_no va' ∧ pt_no va = pt_no va' ↔ va / PGSIZE = va' / PGSIZE.
Proof.
  intros H H'. rewrite !pd_no_spec, !pt_no_spec by done. unfold PGSIZE. split; [|by intros ->].
  intros [E1 E2]. Z.to_euclidean_division_equations. lia.
Qed.

Lemma table_run r pd i pt :
  ram_wf r → pd_wf r pd → table r pd i pt →
  ∃ e, word r pd i = Some e ∧ e ≠ 0 ∧ page_of e = pt ∧ pde_get_pt e r = Ok (pt, r).
Proof.
  intros Hwf Hpd (e & Hi & He & Hne & <-). exists e. split_and!; [done..|].
  destruct (word_some r pd i Hwf (pd_alloc _ _ Hpd) ltac:(lia)) as (e' & He' & Hu & _).
  assert (e' = e) as -> by congruence. destruct (pd_pdes _ _ Hpd i e Hi He Hne). by apply pde_get_pt_run.
Qed.

(** [lookup_page] without creation. *)
Lemma lookup_page_run r pd va :
  ram_wf r → pd_wf r pd → user_addr va →
  (∃ pt, table r pd (pd_no va) pt ∧ pt ≠ 0 ∧ lookup_page pd va false r = Ok (pt + 4 * pt_no va, r)) ∨
  (word r pd (pd_no va) = Some 0 ∧ lookup_page pd va false r = Ok (0, r)).
Proof.
  intros Hwf Hpd Hva. destruct (user_addr_nos va Hva) as [Hd Ht].
  destruct (allocated_page r pd Hwf (pd_alloc _ _ Hpd)) as [Hk _].
  destruct (word_some r pd (pd_no va) Hwf (pd_alloc _ _ Hpd) ltac:(lia)) as (e & He & Hu & Hl).
  unfold lookup_page. rewrite bool_decide_true by (destruct Hk; unfold PHYS_BASE in *; lia).
  do 2 rewrite (bind_Ok _ _ _ () r) by done. cbv zeta. rewrite (bind_Ok _ _ _ _ _ Hl). case_decide as He0.
  - right. subst e. split; [done|]. by rewrite (bind_Ok _ _ _ false r) by done.
  - left. assert (table r pd (pd_no va) (page_of e)) as Htab by (by exists e).
    exists (page_of e). split; [done|].
    destruct (pd_tables _ _ Hpd _ _ Htab) as [Ha _]. destruct (allocated_page r _ Hwf Ha) as [Hk' _].
    split; [destruct Hk'; unfold PHYS_BASE in *; lia|].
    rewrite (bind_Ok _ _ _ true r) by done. rewrite (bind_Ok _ _ _ _ _ Hl).
    destruct (table_run r pd _ _ Hwf Hpd Htab) as (e' & He' & _ & _ & Hg). assert (e' = e) as -> by congruence.
    by rewrite (bind_Ok _ _ _ _ _ Hg).
Qed.

(** What [pagedir_get_page] returns. *)
Definition translate (o : option Z) (va : Z) : Z :=
  match o with Some w => page_of w + va mod PGSIZE | None => 0 end.

Lemma get_page_run r pd va :
  ram_wf r → pd_wf r pd → user_addr va → pagedir_get_page pd va r = Ok (translate (mapping r pd va) va, r).
Proof.
  intros Hwf Hpd Hva. destruct (user_addr_nos va Hva) as [Hd Ht]. unfold pagedir_get_page, is_user_vaddr.
  rewrite bool_decide_true by apply Hva. rewrite (bind_Ok _ _ _ () r) by done. unfold mapping.
  destruct (lookup_page_run r pd va Hwf Hpd Hva) as [(pt & Htab & Hne & Hr)|[He Hr]].
  - destruct (pd_tables _ _ Hpd _ _ Htab) as [Ha _]. destruct (allocated_page r pt Hwf Ha) as [Hk' _].
    rewrite (bind_Ok _ _ _ _ _ Hr), decide_True by (destruct Hk'; unfold PHYS_BASE in *; lia).
    destruct (word_some r pt (pt_no va) Hwf Ha Ht) as (w & Hw & Hu & Hl). rewrite (bind_Ok _ _ _ _ _ Hl), land_present.
    pose proof Htab as (e & _ & He & He0 & Ee). rewrite He. cbn. rewrite (decide_False (P := e = 0)) by done. rewrite Ee, Hw. cbn.
    pose proof (Z.mod_pos_bound w 2). destruct (decide (w mod 2 = 1)) as [Ho|Ho].
    + rewrite decide_True by lia. cbn [translate].
      rewrite (bind_Ok _ _ _ _ _ (pte_get_page_run w r Hu (pd_ptes _ _ Hpd _ _ _ _ Htab Hw Ho))). by rewrite pg_ofs_mod.
    + rewrite decide_False by lia. done.
  - rewrite (bind_Ok _ _ _ _ _ Hr). rewrite decide_False by (intros []; done). by rewrite He.
Qed.

Lemma mapping_page r pd va w :
  ram_wf r → pd_wf r pd → user_addr va → mapping r pd va = Some w → PHYS_BASE ≤ page_of w ∧ w mod 2 = 1.
Proof.
  intros Hwf Hpd Hva. destruct (user_addr_nos va Hva) as [Hd Ht]. unfold mapping.
  destruct (word r pd (pd_no va)) as [e|] eqn:He; [|done]. cbn. destruct (decide (e = 0)) as [|He0]; [done|].
  destruct (word_some r (page_of e) (pt_no va) Hwf) as (w' & -> & Hu & _); [|done|].
  { apply (pd_tables _ _ Hpd (pd_no va)). by apply table_intro. }
  cbn. case_decide; [|done]. intros [= <-]. split; [|done]. unfold page_of.
  destruct Hu. pose proof (Z.div_pos w' PGSIZE). unfold PGSIZE in *. lia.
Qed.

(** ** Adding a table *)

(** Storing an entry in a table. *)
Lemma store_pte_run r pd i pt k w :
  ram_wf r → pd_wf r pd → table r pd i pt → 0 ≤ k < 1024 → in_u 32 w → (w mod 2 = 1 → w < 2 ^ 32 - PHYS_BASE) →
  store_word (pt + 4 * k) w r = Ok ((), stored r pt k w) ∧ ram_wf (stored r pt k w) ∧ pd_wf (stored r pt k w) pd ∧
  (∀ va, user_addr va → mapping (stored r pt k w) pd va =
    if decide (pd_no va = i ∧ pt_no va = k) then (if decide (w mod 2 = 1) then Some w else None) else mapping r pd va).
Proof.
  intros Hwf Hpd Htab Hk Hw Hp. destruct (pd_tables _ _ Hpd _ _ Htab) as [Ha Hne].
  assert (∀ j, 0 ≤ j → word (stored r pt k w) pd j = word r pd j) as Hpdw.
  { intros j Hj. rewrite word_stored by done. by rewrite decide_False by (intros [? _]; congruence). }
  assert (∀ j q, table (stored r pt k w) pd j q ↔ table r pd j q) as Ht.
  { intros j q. unfold table. split; intros (e & Hj & H); exists e; rewrite Hpdw in * by lia; auto. }
  split_and!.
  - by apply store_word_run.
  - by apply stored_wf.
  - constructor.
    + by apply stored_allocated, Hpd.
    + apply Hpd.
    + intros j e Hj. rewrite Hpdw by lia. by apply Hpd.
    + intros j q Hq%Ht. rewrite stored_allocated. by apply (pd_tables _ _ Hpd j).
    + intros i1 j1 q H1%Ht H2%Ht. by apply (pd_distinct _ _ Hpd i1 j1 q).
    + intros j q l v Hq%Ht. destruct (decide (0 ≤ l)).
      * rewrite word_stored by done. case_decide; [by intros [= <-]|]. by apply (pd_ptes _ _ Hpd j).
      * replace (word _ q l) with (word (stored r pt k w) q 0) by (unfold word; replace (Z.to_nat l) with (Z.to_nat 0) by lia; done).
        rewrite word_stored by done. case_decide; [by intros [= <-]|]. by apply (pd_ptes _ _ Hpd j).
  - intros va Hva. destruct (user_addr_nos va Hva) as [Hd Hpt]. unfold mapping. rewrite Hpdw by lia.
    destruct (word r pd (pd_no va)) as [e|] eqn:He; cbn.
    2:{ rewrite decide_False; [done|]. intros [<- _]. destruct Htab as (e & _ & He' & _). congruence. }
    destruct (decide (e = 0)) as [->|He0].
    { rewrite decide_False; [done|]. intros [<- _]. destruct Htab as (e & _ & He' & ? & _). congruence. }
    rewrite word_stored by (done || lia).
    assert (page_of e = pt ↔ pd_no va = i) as Hiff.
    { split; [|intros <-; destruct Htab as (e' & _ & He' & _ & <-); congruence]. intros E.
      apply (pd_distinct _ _ Hpd _ _ pt); [by exists e|done]. }
    destruct (decide (page_of e = pt ∧ pt_no va = k)) as [Hd1|Hd1].
    + rewrite decide_True by tauto. done.
    + rewrite decide_False by tauto. done.
Qed.

Lemma page_in_1 p q : page_in p 1 q ↔ q = p.
Proof. split; [intros (k & Hk & ->); assert (k = 0) as -> by lia; lia|intros ->; exists 0; lia]. Qed.

(** A fresh page leaves a directory as it is. *)
Lemma fresh_page_pd r r1 user zero p pd :
  pd_wf r pd → handed_out r r1 user zero p 1 →
  (∀ q, allocated r q → q ≠ p ∧ frames r1 !! q = frames r !! q) ∧ pd_wf r1 pd ∧
  (∀ i q, table r1 pd i q ↔ table r pd i q) ∧ (∀ va, user_addr va → mapping r1 pd va = mapping r pd va).
Proof.
  intros Hpd [_ _ Hfree Hused Hfr _ (Hinit & _)].
  assert (∀ q, allocated r q → q ≠ p ∧ frames r1 !! q = frames r !! q) as Hsame.
  { intros q Hq. assert (q ≠ p) by (intros ->; apply (Hfree p); [by apply page_in_1|done]). split; [done|].
    rewrite Hfr, decide_False; [done|]. by intros [_ ?%page_in_1]. }
  assert (∀ q k, allocated r q → word r1 q k = word r q k) as Hw.
  { intros q k Hq. unfold word. by rewrite (proj2 (Hsame q Hq)). }
  pose proof (pd_alloc _ _ Hpd) as Ha.
  assert (∀ i q, table r1 pd i q ↔ table r pd i q) as Ht.
  { intros i q. unfold table. by setoid_rewrite (Hw pd _ Ha). }
  split; [done|]. split; [|split; [done|]].
  - constructor.
    + apply Hused. by left.
    + rewrite Hinit. apply Hpd.
    + intros i e. rewrite (Hw pd _ Ha). apply Hpd.
    + intros i q Hq%Ht. rewrite Hused. destruct (pd_tables _ _ Hpd i q Hq). tauto.
    + intros i j q H1%Ht H2%Ht. by apply (pd_distinct _ _ Hpd i j q).
    + intros i q j w Hq%Ht. rewrite Hw by apply (pd_tables _ _ Hpd i q Hq). by apply (pd_ptes _ _ Hpd i).
  - intros va Hva. unfold mapping. rewrite (Hw pd _ Ha). destruct (word r pd (pd_no va)) as [e|] eqn:He; [|done]. cbn.
    destruct (decide (e = 0)); [done|]. rewrite Hw; [done|]. apply (pd_tables _ _ Hpd (pd_no va)).
    apply table_intro; [apply (user_addr_nos va Hva)|assumption..].
Qed.

(** Installing a table whose entries are all 0. *)
Lemma install_table_run r pd i pt :
  ram_wf r → pd_wf r pd → 0 ≤ i < 768 → word r pd i = Some 0 →
  allocated r pt → pt ≠ pd → (∀ j, ¬ table r pd j pt) → (∀ j w, word r pt j = Some w → w = 0) →
  let r' := stored r pd i (entry pt 7) in
  store_word (pd + 4 * i) (entry pt 7) r = Ok ((), r') ∧ ram_wf r' ∧ pd_wf r' pd ∧ table r' pd i pt ∧
  (∀ j q, table r' pd j q ↔ table r pd j q ∨ j = i ∧ q = pt) ∧
  (∀ va, user_addr va → mapping r' pd va = mapping r pd va).
Proof.
  intros Hwf Hpd Hi Hz Hpt Hne Hno Hzero r'. pose proof (pd_alloc _ _ Hpd) as Ha.
  destruct (allocated_page r pt Hwf Hpt) as [Hk _]. destruct (entry_page pt 7 Hk ltac:(done)) as [Hu _].
  pose proof (page_of_entry pt 7 Hk ltac:(done)) as Hpo.
  assert (entry pt 7 ≠ 0 ∧ entry pt 7 < 2 ^ 32 - PHYS_BASE ∧ entry pt 7 mod 2 = 1) as (He0 & Hel & Heo).
  { pose proof (kernel_page_phys pt Hk). unfold entry. destruct Hk as [_ Hk]. unfold PGSIZE, PHYS_BASE in *.
    Z.to_euclidean_division_equations. lia. }
  assert (∀ j, 0 ≤ j → word r' pd j = if decide (j = i) then Some (entry pt 7) else word r pd j) as Hpdw.
  { intros j Hj. unfold r'. rewrite word_stored by (done || lia).
    destruct (decide (j = i)); [rewrite decide_True by done|rewrite decide_False by tauto]; done. }
  assert (∀ q j, q ≠ pd → word r' q j = word r q j) as Hw.
  { intros q j Hq. unfold word, r', stored. cbn. by rewrite lookup_alter_ne by done. }
  assert (∀ j q, table r' pd j q ↔ table r pd j q ∨ j = i ∧ q = pt) as Ht.
  { intros j q. unfold table. split.
    - intros (e & Hj & He & H0 & <-). rewrite Hpdw in He by lia. 
      case_decide; [right|left; by apply table_intro]. injection He as <-. done.
    - intros [(e & Hj & He & H0 & <-)|[-> ->]]; [|exists (entry pt 7); rewrite Hpdw, decide_True by lia; done].
      exists e. rewrite Hpdw by lia. case_decide; [congruence|done]. }
  split_and!.
  - by apply store_word_run; [..|lia].
  - by apply stored_wf.
  - constructor.
    + by apply stored_allocated.
    + apply Hpd.
    + intros j e Hj. rewrite Hpdw by lia. case_decide; [intros [= <-] _; done|by apply Hpd].
    + intros j q [Hq|[_ ->]]%Ht; unfold r'; rewrite stored_allocated; [by apply (pd_tables _ _ Hpd j)|done].
    + intros i1 j1 q [H1|[-> ->]]%Ht [H2|[-> E]]%Ht; [by apply (pd_distinct _ _ Hpd i1 j1 q)| |..|done].
      * subst q. by apply Hno in H1.
      * by apply Hno in H2.
    + intros j q l w [Hq|[_ ->]]%Ht.
      * rewrite Hw by apply (pd_tables _ _ Hpd j q Hq). by apply (pd_ptes _ _ Hpd j).
      * rewrite Hw by done. intros ->%Hzero. done.
  - apply Ht. by right.
  - done.
  - intros va Hva. destruct (user_addr_nos va Hva) as [Hd Hpn]. unfold mapping. rewrite Hpdw by lia.
    destruct (decide (pd_no va = i)) as [->|Hni]; cbn [mbind option_bind].
    + rewrite Hz. cbn [mbind option_bind]. rewrite decide_False by done. rewrite (decide_True (P := 0 = 0)) by done.
      rewrite Hpo, Hw by done. destruct (word r pt (pt_no va)) as [w|] eqn:Hwd; [|done]. by rewrite (Hzero _ _ Hwd).
    + destruct (word r pd (pd_no va)) as [e|] eqn:He; [|done]. cbn. destruct (decide (e = 0)); [done|].
      rewrite Hw; [done|]. apply (pd_tables _ _ Hpd (pd_no va)).
      apply table_intro; assumption.
Qed.

(** What may have changed besides the directory [pd] and its tables. *)
Record grown (r r' : ram) (pd : Z) : Prop := {
  gr_alloc : ∀ q, allocated r q → allocated r' q;
  gr_frames : ∀ q, allocated r q → q ≠ pd → (∀ i, ¬ table r pd i q) → frames r' !! q = frames r !! q;
  gr_tables : ∀ i q, table r pd i q → table r' pd i q;
  gr_old : ∀ i q, allocated r q → table r' pd i q → table r pd i q;
  gr_dom : ∀ q, is_Some (frames r' !! q) → is_Some (frames r !! q);
  gr_init : init_page_dir r' = init_page_dir r ∧ init_ram_pages r' = init_ram_pages r ∧ cr3 r' = cr3 r;
}.

Lemma grown_refl r pd : grown r r pd.
Proof. by constructor. Qed.

Lemma handed_out_dom r r1 user zero p q :
  ram_wf r → handed_out r r1 user zero p 1 → is_Some (frames r1 !! q) → is_Some (frames r !! q).
Proof.
  intros Hwf Hho. rewrite (ho_frames _ _ _ _ _ _ Hho). case_decide as Hd; [|done]. intros _.
  destruct Hd as [_ ->%page_in_1]. destruct (ho_pool _ _ _ _ _ _ Hho) as (i & Hi & Hin & ->).
  apply (pool_frames _ _ (ram_pool r user Hwf)). lia.
Qed.

(** [lookup_page] with creation. *)
Lemma lookup_create_run r pd va :
  ram_wf r → pd_wf r pd → user_addr va →
  (∃ r1 pt, lookup_page pd va true r = Ok (pt + 4 * pt_no va, r1) ∧ table r1 pd (pd_no va) pt ∧
     ram_wf r1 ∧ pd_wf r1 pd ∧ grown r r1 pd ∧
     (∀ va, user_addr va → mapping r1 pd va = mapping r pd va)) ∨
  (no_room r false 1 ∧ lookup_page pd va true r = Ok (0, r)).
Proof.
  intros Hwf Hpd Hva. destruct (user_addr_nos va Hva) as [Hd Ht]. pose proof (pd_alloc _ _ Hpd) as Ha.
  destruct (allocated_page r pd Hwf Ha) as [Hk _].
  destruct (word_some r pd (pd_no va) Hwf Ha ltac:(lia)) as (e & He & Hu & Hl).
  unfold lookup_page. rewrite bool_decide_true by (destruct Hk; unfold PHYS_BASE in *; lia).
  rewrite (bind_Ok _ _ _ () r) by done. cbn [negb orb]. unfold is_user_vaddr. rewrite bool_decide_true by apply Hva.
  rewrite (bind_Ok _ _ _ () r) by done. cbv zeta. rewrite (bind_Ok _ _ _ _ _ Hl). destruct (decide (e = 0)) as [->|He0].
  - destruct (palloc_get_run r PAL_ZERO 1 Hwf ltac:(lia)) as [(pt & r1 & Hg & Hho)|[Hno Hg]]; cbn in Hg.
    + left. destruct (fresh_page_pd r r1 _ _ pt pd Hpd Hho) as (Hsame & Hpd1 & Htab & Hmap).
      pose proof (ho_wf _ _ _ _ _ _ Hho) as Hwf1.
      assert (allocated r1 pt) as Hap by (apply (ho_used _ _ _ _ _ _ Hho); right; by apply page_in_1).
      assert (¬ allocated r pt) as Hnp by (apply (ho_free _ _ _ _ _ _ Hho), page_in_1; done).
      assert (pt ≠ pd) as Hne by (intros ->; done).
      destruct (install_table_run r1 pd (pd_no va) pt) as (Hst & Hwf2 & Hpd2 & Ht2 & Htt & Hm2); [done|done|done| |done|done| | |].
      { unfold word. by rewrite (proj2 (Hsame pd Ha)). }
      { intros j Hj%Htab. by apply Hnp, (pd_tables _ _ Hpd j). }
      { intros j w. unfold word. rewrite (ho_frames _ _ _ _ _ _ Hho), decide_True by (split; [done|by apply page_in_1]).
        change (replicate 1024 0 !! Z.to_nat j = Some w → w = 0). intros Hj. by apply lookup_replicate in Hj as [-> _]. }
      set (r2 := stored r1 pd (pd_no va) (entry pt 7)) in *.
      destruct (allocated_page r1 pt Hwf1 Hap) as [Hkp _].
      rewrite (bind_Ok _ _ _ true r2).
      2:{ unfold palloc_get_page. rewrite (bind_Ok _ _ _ _ _ Hg). rewrite decide_False by apply (ho_null _ _ _ _ _ _ Hho).
          rewrite (bind_Ok _ _ _ _ _ (pde_create_run pt r1 Hkp)). by rewrite (bind_Ok _ _ _ _ _ Hst). }
      destruct (word_some r2 pd (pd_no va) Hwf2 (pd_alloc _ _ Hpd2) ltac:(lia)) as (e2 & He2 & _ & Hl2).
      destruct (table_run r2 pd _ _ Hwf2 Hpd2 Ht2) as (e3 & He3 & _ & _ & Hgp). assert (e3 = e2) as -> by congruence.
      rewrite (bind_Ok _ _ _ _ _ Hl2), (bind_Ok _ _ _ _ _ Hgp).
      exists r2, pt. split; [done|]. split; [done|]. split; [done|]. split; [done|]. split.
      { constructor.
        - intros q Hq. apply stored_allocated, (ho_used _ _ _ _ _ _ Hho). by left.
        - intros q Hq Hqp _. unfold r2. cbn. rewrite lookup_alter_ne by done. apply (Hsame q Hq).
        - intros i q Hq%Htab. apply Htt. by left.
        - intros i q Hq [Hi|[_ ->]]%Htt; [by apply Htab|done].
        - intros q. unfold r2. cbn. rewrite lookup_alter_is_Some. by apply (handed_out_dom r r1 (flag PAL_ZERO PAL_USER) (flag PAL_ZERO PAL_ZERO) pt).
        - apply (ho_same _ _ _ _ _ _ Hho). }
      intros va' Hva'. rewrite Hm2, Hmap by done. done.
    + right. split; [done|]. unfold palloc_get_page. rewrite (bind_Ok _ _ _ false r); [done|]. by rewrite (bind_Ok _ _ _ _ _ Hg).
  - left. assert (table r pd (pd_no va) (page_of e)) as Htab by by apply table_intro.
    rewrite (bind_Ok _ _ _ true r) by done. rewrite (bind_Ok _ _ _ _ _ Hl).
    destruct (table_run r pd _ _ Hwf Hpd Htab) as (e' & He' & _ & _ & Hg). assert (e' = e) as -> by congruence.
    rewrite (bind_Ok _ _ _ _ _ Hg). exists r, (page_of e). split_and!; [done..|apply grown_refl|done].
Qed.

(** ** Creating a directory *)

(** [init_page_dir] is not a free page and maps no user address. *)
Record init_pd_wf (r : ram) : Prop := {
  ip_frame : ∃ f, frames r !! init_page_dir r = Some f;
  ip_kept : ∀ user, in_pool r user (init_page_dir r) 1 → allocated r (init_page_dir r);
  ip_user : ∀ i, 0 ≤ i < 768 → word r (init_page_dir r) i = Some 0;
}.

Lemma set_frame_wf r p f : ram_wf r → frame_ok f → ram_wf (set_frames (<[p := f]> (frames r)) r).
Proof.
  intros [[K1 K2 K3 K4] [U1 U2 U3 U4] Hd Hf] Hok.
  constructor; [constructor; cbn in *; auto|constructor; cbn in *; auto|done|].
  - intros i Hi. rewrite lookup_insert. case_decide; [done|auto].
  - intros i Hi. rewrite lookup_insert. case_decide; [done|auto].
  - cbn. intros q g. rewrite lookup_insert. case_decide; [by intros [= <-]|apply Hf].
Qed.

Lemma pagedir_create_run r :
  ram_wf r → init_pd_wf r →
  (∃ pd r', pagedir_create r = Ok (pd, r') ∧ ram_wf r' ∧ pd_wf r' pd ∧ ¬ allocated r pd ∧
     (∀ q, allocated r' q ↔ allocated r q ∨ q = pd) ∧ (∀ va, user_addr va → mapping r' pd va = None) ∧
     (∀ q, q ≠ pd → frames r' !! q = frames r !! q) ∧ is_Some (frames r !! pd) ∧
     init_page_dir r' = init_page_dir r ∧ init_ram_pages r' = init_ram_pages r) ∨
  (no_room r false 1 ∧ pagedir_create r = Ok (0, r)).
Proof.
  intros Hwf [[f Hf] Hkept Huser]. unfold pagedir_create, palloc_get_page.
  destruct (palloc_get_run r 0 1 Hwf ltac:(lia)) as [(pd & r1 & Hg & Hho)|[Hno Hg]]; cbn in Hg; rewrite (bind_Ok _ _ _ _ _ Hg).
  2:{ right. split; [done|]. by rewrite decide_False by (intros []; done). }
  left. rewrite decide_True by apply (ho_null _ _ _ _ _ _ Hho).
  assert (¬ allocated r pd) as Hnp by (apply (ho_free _ _ _ _ _ _ Hho), page_in_1; done).
  assert (pd ≠ init_page_dir r) as Hne by (intros ->; by eapply Hnp, Hkept, (ho_pool _ _ _ _ _ _ Hho)).
  assert (∀ q, frames r1 !! q = frames r !! q) as Hfr.
  { intros q. rewrite (ho_frames _ _ _ _ _ _ Hho). by rewrite decide_False by (intros [? _]; done). }
  assert (allocated r1 pd) as Hap by (apply (ho_used _ _ _ _ _ _ Hho); right; by apply page_in_1).
  pose proof (ho_wf _ _ _ _ _ _ Hho) as Hwf1. destruct (allocated_page r1 pd Hwf1 Hap) as (_ & g & Hg1 & _).
  destruct (ho_same _ _ _ _ _ _ Hho) as (Hinit & Hpages & _).
  set (r2 := set_frames (<[pd := f]> (frames r1)) r1).
  rewrite (bind_Ok _ _ _ () r2).
  2:{ rewrite (bind_Ok _ _ _ (init_page_dir r) r1) by (unfold gets; by rewrite Hinit).
      unfold memcpy_page, get, put, lift, mbind, M_bind. rewrite Hfr, Hf, Hg1. done. }
  assert (∀ i, 0 ≤ i < 768 → word r2 pd i = Some 0) as Hz.
  { intros i Hi. rewrite <- (Huser i Hi). unfold word, r2. cbn. by rewrite lookup_insert_eq, Hf. }
  assert (∀ i pt, ¬ table r2 pd i pt) as Hnt by (intros i pt (e & Hi & He & H0 & _); rewrite Hz in He by done; congruence).
  exists pd, r2. split; [done|]. split; [apply set_frame_wf; [done|exact (ram_frames _ Hwf _ _ Hf)]|].
  split_and!; [|done| | | |by rewrite <- Hfr, Hg1|done|done].
  - constructor; [by apply allocated_frames|change (pd ≠ init_page_dir r1); by rewrite Hinit|intros i e Hi; rewrite Hz by done; congruence|..];
      intros i **; exfalso; eapply Hnt; eassumption.
  - intros q. unfold r2. rewrite allocated_frames, (ho_used _ _ _ _ _ _ Hho), page_in_1. done.
  - intros va Hva. unfold mapping. rewrite Hz by apply (user_addr_nos va Hva). done.
  - intros q Hq. unfold r2. cbn. by rewrite lookup_insert_ne.
Qed.

(** ** Mapping a page *)

Lemma set_page_run r pd upage kpage writable :
  ram_wf r → pd_wf r pd → user_addr upage → upage mod PGSIZE = 0 →
  kernel_page kpage → (kpage - PHYS_BASE) / PGSIZE < init_ram_pages r → mapping r pd upage = None →
  (∃ r', pagedir_set_page pd upage kpage writable r = Ok (true, r') ∧ ram_wf r' ∧ pd_wf r' pd ∧ grown r r' pd ∧
     ∀ va, user_addr va → mapping r' pd va =
       if decide (va / PGSIZE = upage / PGSIZE) then Some (entry kpage (user_flags writable)) else mapping r pd va) ∨
  (no_room r false 1 ∧ pagedir_set_page pd upage kpage writable r = Ok (false, r)).
Proof.
  intros Hwf Hpd Hup Hofs Hk Hram Hnone. pose proof (pd_user _ _ Hpd) as Hinit.
  unfold pagedir_set_page, is_user_vaddr. rewrite !pg_ofs_mod. rewrite !bool_decide_true by (done || apply Hk || apply Hup).
  do 3 rewrite (bind_Ok _ _ _ () r) by done. rewrite (bind_Ok _ _ _ _ _ (vtop_run kpage r Hk)).
  rewrite (bind_Ok _ _ _ (init_ram_pages r) r) by done.
  rewrite (bind_Ok _ _ _ () r).
  2:{ rewrite bool_decide_true; [done|]. unfold PTSHIFT, PGBITS. by rewrite Z.shiftr_div_pow2. }
  rewrite (bind_Ok _ _ _ (init_page_dir r) r) by done. rewrite (bind_Ok _ _ _ () r) by (by rewrite bool_decide_true).
  destruct (lookup_create_run r pd upage Hwf Hpd Hup) as [(r1 & pt & Hl & Htab & Hwf1 & Hpd1 & Hgr & Hmap)|[Hno Hl]];
    rewrite (bind_Ok _ _ _ _ _ Hl).
  2:{ right. split; [done|]. by rewrite decide_False by (intros []; done). }
  left. destruct (user_addr_nos upage Hup) as [Hd Ht]. destruct (pd_tables _ _ Hpd1 _ _ Htab) as [Hap _].
  destruct (allocated_page r1 pt Hwf1 Hap) as [Hkp _]. rewrite decide_True by (destruct Hkp; unfold PHYS_BASE in *; lia).
  destruct (word_some r1 pt (pt_no upage) Hwf1 Hap Ht) as (w & Hw & _ & Hlw). rewrite (bind_Ok _ _ _ _ _ Hlw), land_present.
  assert (w mod 2 = 0) as Hw0.
  { rewrite <- (Hmap upage Hup) in Hnone. destruct Htab as (e & _ & He & He0 & <-). unfold mapping in Hnone. rewrite He in Hnone.
    cbn in Hnone. rewrite (decide_False (P := e = 0)) in Hnone by done. rewrite Hw in Hnone. cbn in Hnone.
    pose proof (Z.mod_pos_bound w 2). case_decide; [done|lia]. }
  rewrite (bind_Ok _ _ _ () r1) by (by rewrite bool_decide_true).
  rewrite (bind_Ok _ _ _ _ _ (pte_create_user_run kpage writable r1 Hk)).
  assert (0 ≤ user_flags writable < PGSIZE ∧ user_flags writable mod 2 = 1) as [Hf Hf2] by (by destruct writable).
  destruct (entry_page kpage (user_flags writable) Hk Hf) as [Hu _].
  assert (entry kpage (user_flags writable) mod 2 = 1 ∧ entry kpage (user_flags writable) < 2 ^ 32 - PHYS_BASE) as [Hodd Hlt].
  { pose proof (kernel_page_phys kpage Hk). destruct Hk as [_ Hk]. unfold entry, PGSIZE, PHYS_BASE in *.
    Z.to_euclidean_division_equations. lia. }
  destruct (store_pte_run r1 pd _ pt (pt_no upage) (entry kpage (user_flags writable)) Hwf1 Hpd1 Htab Ht Hu (λ _, Hlt))
    as (Hs & Hwf2 & Hpd2 & Hm2).
  rewrite (bind_Ok _ _ _ _ _ Hs). eexists. split; [done|]. split; [done|]. split; [done|]. split.
  - destruct Hgr as [G1 G2 G3 Hold Hdom G4]. constructor; [intros q Hq; by apply stored_allocated, G1| | | | |done].
    + intros q Hq Hne Hno. cbn. rewrite lookup_alter_ne; [by apply G2|]. intros <-. by apply (Hno (pd_no upage)), Hold.
    + intros i q Hq%G3. destruct Hq as (e & Hi & He & H0 & <-). apply table_intro; [done| |done].
      rewrite word_stored by (done || lia). rewrite decide_False; [done|].
      intros [E _]. by apply (pd_tables _ _ Hpd1 _ _ Htab).
    + intros i q Hq (e & Hi & He & H0 & <-). apply Hold; [done|]. apply table_intro; [done| |done].
      rewrite word_stored in He by (done || lia). rewrite decide_False in He; [done|].
      intros [E _]. by apply (pd_tables _ _ Hpd1 _ _ Htab).
    + intros q. cbn. rewrite lookup_alter_is_Some. apply Hdom.
  - intros va Hva. rewrite Hm2, Hmap by done.
    pose proof (same_page va upage ltac:(apply Hva) ltac:(apply Hup)) as Hsp.
    destruct (decide (va / PGSIZE = upage / PGSIZE)) as [E|E].
    + rewrite decide_True by tauto. by rewrite decide_True.
    + by rewrite decide_False by tauto.
Qed.

(** C13: After [pagedir_set_page] has mapped a page that was not mapped,
    [pagedir_get_page] translates every address of the page to the same
    offset in the frame, and every other user address as before; the pages of other
    owners are not touched, and the directory stays well-formed.  The call
    fails, without a change, only when no page is left for a page table. *)
Theorem pagedir_set_get r pd upage kpage writable :
  ram_wf r → pd_wf r pd → user_addr upage → upage mod PGSIZE = 0 →
  kernel_page kpage → (kpage - PHYS_BASE) / PGSIZE < init_ram_pages r →
  pagedir_get_page pd upage r = Ok (0, r) →
  (∃ r', pagedir_set_page pd upage kpage writable r = Ok (true, r') ∧ ram_wf r' ∧ pd_wf r' pd ∧ grown r r' pd ∧
     ∀ va, user_addr va → ∃ page, pagedir_get_page pd va r = Ok (page, r) ∧
       pagedir_get_page pd va r' =
         Ok (if decide (va / PGSIZE = upage / PGSIZE) then kpage + va mod PGSIZE else page, r')) ∨
  (no_room r false 1 ∧ pagedir_set_page pd upage kpage writable r = Ok (false, r)).
Proof.
  intros Hwf Hpd Hup Hofs Hk Hram Hnone. rewrite get_page_run in Hnone by done. injection Hnone as Hnone.
  assert (mapping r pd upage = None) as Hm.
  { destruct (mapping r pd upage) as [w|] eqn:Hw; [|done]. cbn in Hnone. exfalso.
    pose proof (mapping_page r pd upage w Hwf Hpd Hup Hw) as [Hp _]. pose proof (Z.mod_pos_bound upage PGSIZE ltac:(done)).
    unfold PHYS_BASE in *. lia. }
  destruct (set_page_run r pd upage kpage writable Hwf Hpd Hup Hofs Hk Hram Hm) as [(r' & H1 & H2 & H3 & H4 & H5)|H];
    [left|by right].
  exists r'. split_and!; [done..|]. intros va Hva. eexists. split; [by apply get_page_run|].
  rewrite get_page_run, H5 by done. case_decide; [|done]. cbn [translate]. rewrite page_of_entry; [done|done|by destruct writable].
Qed.

(** ** Destroying a directory *)

(** The pages [qs] have been given back. *)
Record freed (r r' : ram) (qs : list Z) : Prop := {
  fr_wf : ram_wf r';
  fr_alloc : ∀ q, allocated r' q ↔ allocated r q ∧ q ∉ qs;
  fr_frames : ∀ q, q ∉ qs → frames r' !! q = frames r !! q;
}.

Lemma freed_nil r : ram_wf r → freed r r [].
Proof. intros. constructor; [done| |done]. intros q. split; [|tauto]. intros Hq. split; [done|]. apply not_elem_of_nil. Qed.

Lemma freed_app r r1 r2 xs ys : freed r r1 xs → freed r1 r2 ys → freed r r2 (xs ++ ys).
Proof.
  intros [_ A1 F1] [W2 A2 F2]. constructor; [done| |].
  - intros q. rewrite A2, A1, not_elem_of_app. tauto.
  - intros q Hq. apply not_elem_of_app in Hq as [Hx Hy]. by rewrite F2, F1.
Qed.

Lemma free_page_run r q : ram_wf r → allocated r q → ∃ r', palloc_free_page q r = Ok ((), r') ∧ freed r r' [q].
Proof.
  intros Hwf Ha. pose proof Ha as (user & i & Hi & E & _).
  destruct (palloc_free_run r user q 1) as (r' & Hr & [G1 G2 G3 _]); [done|exists i; lia|done| |].
  { intros q' ->%page_in_1. done. }
  exists r'. split; [done|]. constructor; [done| |].
  - intros q'. by rewrite G1, page_in_1, list_elem_of_singleton.
  - intros q' Hq'. rewrite G2, decide_False; [done|]. by rewrite page_in_1, <- list_elem_of_singleton.
Qed.

(** The pages named by the entries of a table. *)
Definition pages_of_words (ws : list Z) : list Z := page_of <$> filter (λ w, w mod 2 = 1) ws.

Lemma pages_of_words_cons w ws :
  pages_of_words (w :: ws) = (if decide (w mod 2 = 1) then [page_of w] else []) ++ pages_of_words ws.
Proof. unfold pages_of_words. rewrite filter_cons. by case_decide. Qed.

Definition good_pte (w : Z) : Prop := in_u 32 w ∧ (w mod 2 = 1 → w < 2 ^ 32 - PHYS_BASE).

Lemma not_odd_even w : w mod 2 ≠ 1 → w mod 2 = 0.
Proof. pose proof (Z.mod_pos_bound w 2). lia. Qed.

(** The entries [ws] of a table from index [k] on. *)
Lemma destroy_ptes_run ws pt t k r :
  ram_wf r → kernel_page pt → frames r !! pt = Some t → drop (Z.to_nat k) t = ws → 0 ≤ k → k + Z.of_nat (length ws) = 1024 →
  Forall good_pte ws → NoDup (pages_of_words ws) → (∀ q, q ∈ pages_of_words ws → allocated r q) → pt ∉ pages_of_words ws →
  ∃ r', destroy_ptes (length ws) (pt + 4 * k) r = Ok ((), r') ∧ freed r r' (pages_of_words ws).
Proof.
  revert k r. induction ws as [|w ws IH]; intros k r Hwf Hpt Hf Hd Hk Hl Hg Hnd Hal Hno; cbn [length destroy_ptes].
  { exists r. split; [done|by apply freed_nil]. }
  apply Forall_cons in Hg as [[Hu Hb] Hg].
  assert (t !! Z.to_nat k = Some w) as Hw by (rewrite <- (Nat.add_0_r (Z.to_nat k)), <- lookup_drop, Hd; done).
  cbn [length] in Hl. rewrite (bind_Ok _ _ _ _ _ (load_word_run r pt t k w Hpt ltac:(lia) Hf Hw)), land_present.
  assert (drop (Z.to_nat (k + 1)) t = ws) as Hd'.
  { replace (Z.to_nat (k + 1)) with (Z.to_nat k + 1)%nat by lia. by rewrite <- drop_drop, Hd. }
  rewrite pages_of_words_cons in Hnd, Hal, Hno |- *.
  replace (pt + 4 * k + 4) with (pt + 4 * (k + 1)) by lia.
  destruct (decide (w mod 2 = 1)) as [Ho|Ho].
  - rewrite decide_True by lia. cbn [app] in *. apply NoDup_cons in Hnd as [Hnd1 Hnd2]. apply not_elem_of_cons in Hno as [Hn1 Hn2].
    destruct (free_page_run r (page_of w) Hwf) as (r1 & Hr1 & Hfr1); [apply Hal; left|].
    rewrite (bind_Ok _ _ _ () r1).
    2:{ by rewrite (bind_Ok _ _ _ _ _ (pte_get_page_run w r Hu (Hb Ho))). }
    destruct (IH (k + 1) r1) as (r2 & Hr2 & Hfr2); [apply Hfr1|done| |done|lia|lia|done|done| |done|].
    + rewrite (fr_frames _ _ _ Hfr1); [done|]. by rewrite list_elem_of_singleton.
    + intros q Hq. apply (fr_alloc _ _ _ Hfr1). split; [apply Hal; by right|]. rewrite list_elem_of_singleton. by intros ->.
    + exists r2. split; [done|]. by apply (freed_app r r1 r2 [page_of w]).
  - rewrite decide_False by (intros Hx; by apply Hx, not_odd_even). cbn [app] in *. rewrite (bind_Ok _ _ _ () r) by done.
    apply (IH (k + 1) r); [done..|lia|lia|done|done|done|done].
Qed.

(** The pages of a directory entry, [cont] being the contents of the tables:
    those of the table, and the table. *)
Definition pages_of_pde (cont : Z → list Z) (e : Z) : list Z :=
  if decide (e mod 2 = 1) then pages_of_words (cont (page_of e)) ++ [page_of e] else [].
Definition pages_of_pdes (cont : Z → list Z) (es : list Z) : list Z := es ≫= pages_of_pde cont.

(** The entries [es] of a directory from index [k] on. *)
Lemma destroy_pdes_run cont es pd f k r :
  ram_wf r → kernel_page pd → frames r !! pd = Some f → take (length es) (drop (Z.to_nat k) f) = es →
  0 ≤ k → k + Z.of_nat (length es) = 768 →
  Forall (λ e, e mod 2 = 1 → good_pte e ∧ frames r !! page_of e = Some (cont (page_of e)) ∧
                length (cont (page_of e)) = 1024%nat ∧ Forall good_pte (cont (page_of e))) es →
  NoDup (pages_of_pdes cont es) → (∀ q, q ∈ pages_of_pdes cont es → allocated r q) → pd ∉ pages_of_pdes cont es →
  ∃ r', destroy_pdes (length es) (pd + 4 * k) r = Ok ((), r') ∧ freed r r' (pages_of_pdes cont es).
Proof.
  revert k r. induction es as [|e es IH]; intros k r Hwf Hpd Hf Hd Hk Hl Hg Hnd Hal Hno; cbn [length destroy_pdes].
  { exists r. split; [done|by apply freed_nil]. }
  apply Forall_cons in Hg as [He Hg]. cbn [length] in Hl, Hd.
  destruct (drop (Z.to_nat k) f) as [|e' rest] eqn:Hdr; [done|]. cbn in Hd. injection Hd as -> Hd.
  assert (f !! Z.to_nat k = Some e) as Hw by (rewrite <- (Nat.add_0_r (Z.to_nat k)), <- lookup_drop, Hdr; done).
  assert (take (length es) (drop (Z.to_nat (k + 1)) f) = es) as Hd'.
  { replace (Z.to_nat (k + 1)) with (Z.to_nat k + 1)%nat by lia. by rewrite <- drop_drop, Hdr. }
  rewrite (bind_Ok _ _ _ _ _ (load_word_run r pd f k e Hpd ltac:(lia) Hf Hw)), land_present.
  change (pages_of_pdes cont (e :: es)) with (pages_of_pde cont e ++ pages_of_pdes cont es) in *.
  replace (pd + 4 * k + 4) with (pd + 4 * (k + 1)) by lia. unfold pages_of_pde in *.
  destruct (decide (e mod 2 = 1)) as [Ho|Ho].
  - rewrite decide_True by lia. destruct (He Ho) as ([Hu Hb] & Hpt & Hlen & Hgt). set (pt := page_of e) in *.
    apply NoDup_app in Hnd as (Hnd1 & Hdis & Hnd2). apply NoDup_app in Hnd1 as (Hn1 & Hn2 & _).
    apply not_elem_of_app in Hno as [Hno1 Hno2]. apply not_elem_of_app in Hno1 as [Hno1 Hno3].
    assert (∀ q, q ∈ pages_of_words (cont pt) ++ [pt] → allocated r q) as Hal1 by (intros q Hq; apply Hal, elem_of_app; by left).
    assert (pt ∈ pages_of_words (cont pt) ++ [pt]) as Hin by (apply elem_of_app; right; left).
    assert (pt ∉ pages_of_words (cont pt)) as Hptn by (intros Hq; apply (Hn2 _ Hq); left).
    pose proof (Hal1 pt Hin) as Hap. destruct (allocated_page r pt Hwf Hap) as [Hkp _].
    destruct (destroy_ptes_run (cont pt) pt (cont pt) 0 r) as (r1 & Hr1 & Hfr1); [done..|lia|done|done| |done|].
    { intros q Hq. apply Hal1, elem_of_app. by left. }
    rewrite Z.mul_0_r, Z.add_0_r, Hlen in Hr1. change (Z.to_nat (PGSIZE / 4)) with 1024%nat.
    destruct (free_page_run r1 pt) as (r2 & Hr2 & Hfr2); [apply Hfr1|by apply (fr_alloc _ _ _ Hfr1)|].
    rewrite (bind_Ok _ _ _ () r2).
    2:{ rewrite (bind_Ok _ _ _ _ _ (pde_get_pt_run e r Hu (Hb Ho) Ho)). fold pt. by rewrite (bind_Ok _ _ _ _ _ Hr1). }
    pose proof (freed_app _ _ _ _ _ Hfr1 Hfr2) as Hfr.
    destruct (IH (k + 1) r2) as (r3 & Hr3 & Hfr3); [apply Hfr2|done| |done|lia|lia| |done| |done|].
    + rewrite (fr_frames _ _ _ Hfr); [done|]. by apply not_elem_of_app.
    + apply Forall_forall. intros e' He'. rewrite Forall_forall in Hg. specialize (Hg e' He'). intros Ho'. destruct (Hg Ho') as (G1 & G2 & G3).
      split; [done|]. split; [|done]. rewrite (fr_frames _ _ _ Hfr); [done|]. intros Hq. apply (Hdis _ Hq).
      apply list_elem_of_bind. exists e'. split; [|done]. unfold pages_of_pde. rewrite decide_True by done.
      apply elem_of_app. right. left.
    + intros q Hq. apply (fr_alloc _ _ _ Hfr). split; [apply Hal, elem_of_app; by right|]. intros Hq'. by apply (Hdis q Hq').
    + exists r3. split; [done|]. by apply (freed_app r r2 r3).
  - rewrite decide_False by (intros Hx; by apply Hx, not_odd_even). cbn [app] in *. rewrite (bind_Ok _ _ _ () r) by done.
    apply (IH (k + 1) r); [done..|lia|lia|done|done|done|done].
Qed.

(** All pages a directory owns: those it maps, its tables and itself. *)
Definition table_words (r : ram) (pt : Z) : list Z := default [] (frames r !! pt).
Definition owned_pages (r : ram) (pd : Z) : list Z :=
  pages_of_pdes (table_words r) (take 768 (table_words r pd)) ++ [pd].

(** C14: [pagedir_destroy] gives back exactly the pages mapped by the
    directory's user part, its page tables and the directory itself, each once,
    provided the directory owns them all and no page is mapped twice; the
    contents of all other pages are kept. *)
Theorem pagedir_destroy_frees r pd :
  ram_wf r → pd_wf r pd → NoDup (owned_pages r pd) → (∀ q, q ∈ owned_pages r pd → allocated r q) →
  ∃ r', pagedir_destroy pd r = Ok ((), r') ∧ ram_wf r' ∧
    (∀ q, allocated r' q ↔ allocated r q ∧ q ∉ owned_pages r pd) ∧
    (∀ q, q ∉ owned_pages r pd → frames r' !! q = frames r !! q).
Proof.
  intros Hwf Hpd Hnd Hal. pose proof (pd_alloc _ _ Hpd) as Ha. unfold owned_pages in *.
  destruct (allocated_page r pd Hwf Ha) as (Hk & f & Hf & [Hlf Hwords]).
  assert (table_words r pd = f) as Etw by (unfold table_words; by rewrite Hf). rewrite Etw in *.
  apply NoDup_app in Hnd as (Hnd & Hdis & _). unfold pagedir_destroy.
  rewrite decide_False by (destruct Hk; unfold PHYS_BASE in *; lia).
  rewrite (bind_Ok _ _ _ (init_page_dir r) r) by done.
  rewrite (bind_Ok _ _ _ () r) by (rewrite bool_decide_true by apply Hpd; done).
  set (es := take 768 f) in *. assert (length es = 768%nat) as Hle by (unfold es; rewrite length_take; lia).
  destruct (destroy_pdes_run (table_words r) es pd f 0 r) as (r1 & Hr1 & Hfr1); [done..| |lia|lia| |done| | |].
  - by rewrite Hle.
  - apply Forall_lookup. intros i e He Ho. unfold es in He. apply lookup_take_Some in He as [He Hi].
    assert (word r pd (Z.of_nat i) = Some e) as Hw by (unfold word; rewrite Hf; cbn; by rewrite Nat2Z.id).
    assert (e ≠ 0) as He0 by (intros ->; done).
    destruct (pd_pdes _ _ Hpd (Z.of_nat i) e ltac:(lia) Hw He0) as [Hb _].
    assert (table r pd (Z.of_nat i) (page_of e)) as Htab by (apply table_intro; [lia|done|done]).
    destruct (pd_tables _ _ Hpd _ _ Htab) as [Hap _]. destruct (allocated_page r _ Hwf Hap) as (_ & t & Ht & [Hlt Hwt]).
    unfold table_words. rewrite Ht. split; [split; [by eapply Forall_lookup_1 in Hwords|done]|].
    split; [done|]. split; [done|].
    apply Forall_lookup. intros j w Hj. split; [by eapply Forall_lookup_1 in Hwt|].
    intros Hodd. apply (pd_ptes _ _ Hpd _ _ (Z.of_nat j) w Htab); [|done]. unfold word. rewrite Ht. cbn. by rewrite Nat2Z.id.
  - intros q Hq. apply Hal, elem_of_app. by left.
  - intros Hq. apply (Hdis _ Hq). left.
  - rewrite Z.mul_0_r, Z.add_0_r, Hle in Hr1. change (Z.to_nat (pd_no PHYS_BASE)) with 768%nat.
    rewrite (bind_Ok _ _ _ _ _ Hr1).
    destruct (free_page_run r1 pd) as (r2 & Hr2 & Hfr2); [apply Hfr1| |].
    { apply (fr_alloc _ _ _ Hfr1). split; [done|]. intros Hq. apply (Hdis _ Hq). left. }
    exists r2. split; [done|]. destruct (freed_app _ _ _ _ _ Hfr1 Hfr2). done.
Qed.

(** ** Witnesses *)

(** A page of the user pool is mapped in a new directory. *)
Definition state_after {A} (m : V A) (r : ram) : ram := match m r with Ok (_, r) => r | Err _ => r end.
Definition demo_kpage : Z := PHYS_BASE + 261 * PGSIZE.
Definition demo_pd : Z := PHYS_BASE + 257 * PGSIZE.
Definition demo_upage : Z := 0x08048000.
Definition demo_got : ram := state_after (palloc_get_page PAL_USER) demo_ram.
Definition demo_created : ram := state_after pagedir_create demo_got.
Definition demo_mapped : ram := state_after (pagedir_set_page demo_pd demo_upage demo_kpage true) demo_created.

Lemma state_after_Ok {A} (m : V A) r a r' : m r = Ok (a, r') → state_after m r = r'.
Proof. unfold state_after. by intros ->. Qed.

Lemma demo_got_wf : ram_wf demo_got ∧ ∀ q, allocated demo_got q ↔ allocated demo_ram q ∨ q = demo_kpage.
Proof.
  destruct (palloc_get_run demo_ram PAL_USER 1 demo_ram_wf ltac:(lia)) as [(p & r & Hr & Hho)|[_ H]]; [|vm_compute in H; discriminate].
  assert (p = demo_kpage) as ->.
  { assert (match palloc_get_multiple PAL_USER 1 demo_ram with Ok (p, _) => Z.eqb p demo_kpage | Err _ => false end = true) as E
      by (vm_compute; reflexivity). rewrite Hr in E. by apply Z.eqb_eq in E. }
  unfold demo_got, palloc_get_page. rewrite (state_after_Ok _ _ _ _ Hr).
  split; [apply Hho|]. intros q. by rewrite (ho_used _ _ _ _ _ _ Hho), page_in_1.
Defined.

Lemma demo_got_pools :
  base (kernel_pool demo_got) = demo_pd ∧ bit_cnt (used_map (kernel_pool demo_got)) = 3 ∧
  base (user_pool demo_got) = demo_kpage ∧ bit_cnt (used_map (user_pool demo_got)) = 3 ∧
  init_page_dir demo_got = demo_init_page_dir ∧ frames demo_got !! demo_init_page_dir = Some (replicate 1024 0).
Proof. split_and!; vm_compute; reflexivity. Defined.

Lemma demo_got_init : init_pd_wf demo_got.
Proof.
  destruct demo_got_pools as (Hkb & Hkc & Hub & Huc & Hi & Hf). constructor; rewrite ?Hi.
  - exists (replicate 1024 0). exact Hf.
  - intros user (i & Hi0 & Hin & E). exfalso. unfold the_pool, demo_pd, demo_kpage, demo_init_page_dir, PGSIZE in *.
    destruct user; [rewrite Hub in E|rewrite Hkb in E]; lia.
  - intros i Hr. unfold word. rewrite Hf. change (replicate 1024 0 !! Z.to_nat i = Some 0). apply lookup_replicate. lia.
Defined.

Lemma demo_created_wf :
  ram_wf demo_created ∧ pd_wf demo_created demo_pd ∧
  (∀ q, allocated demo_created q ↔ allocated demo_got q ∨ q = demo_pd) ∧
  (∀ va, user_addr va → mapping demo_created demo_pd va = None).
Proof.
  destruct (pagedir_create_run demo_got (proj1 demo_got_wf) demo_got_init) as
    [(p & r & Hr & H1 & H2 & _ & H3 & H4 & _)|[_ H]]; [|vm_compute in H; discriminate].
  assert (p = demo_pd) as ->.
  { assert (match pagedir_create demo_got with Ok (p, _) => Z.eqb p demo_pd | Err _ => false end = true) as E
      by (vm_compute; reflexivity). rewrite Hr in E. by apply Z.eqb_eq in E. }
  unfold demo_created. rewrite (state_after_Ok _ _ _ _ Hr).
  exact (conj H1 (conj H2 (conj H3 H4))).
Defined.

Lemma demo_pages : user_addr demo_upage ∧ demo_upage mod PGSIZE = 0 ∧ kernel_page demo_kpage ∧
  (demo_kpage - PHYS_BASE) / PGSIZE < init_ram_pages demo_created.
Proof.
  split; [split; vm_compute; congruence|]. split; [vm_compute; reflexivity|]. split; [|vm_compute; reflexivity].
  split; [vm_compute; reflexivity|split; vm_compute; congruence].
Defined.

Lemma pagedir_set_get_witness :
  pagedir_get_page demo_pd demo_upage demo_created = Ok (0, demo_created) ∧
  ∃ r', pagedir_set_page demo_pd demo_upage demo_kpage true demo_created = Ok (true, r') ∧
    pagedir_get_page demo_pd (demo_upage + 100) r' = Ok (demo_kpage + 100, r').
Proof.
  destruct demo_created_wf as (Hwf & Hpd & _ & Hnone). destruct demo_pages as (Hu & Ho & Hk & Hr).
  assert (pagedir_get_page demo_pd demo_upage demo_created = Ok (0, demo_created)) as H0
    by (rewrite get_page_run, Hnone by assumption; reflexivity).
  split; [exact H0|].
  destruct (pagedir_set_get demo_created demo_pd demo_upage demo_kpage true Hwf Hpd Hu Ho Hk Hr H0)
    as [(r' & H1 & _ & _ & _ & H2)|[_ H]]; [|vm_compute in H; discriminate].
  exists r'. split; [exact H1|]. destruct (H2 (demo_upage + 100)) as (page & _ & Hg); [split; vm_compute; congruence|].
  rewrite Hg. rewrite decide_True by (vm_compute; reflexivity). reflexivity.
Defined.

Lemma demo_mapped_wf :
  ram_wf demo_mapped ∧ pd_wf demo_mapped demo_pd ∧ (∀ q, allocated demo_created q → allocated demo_mapped q).
Proof.
  destruct demo_created_wf as (Hwf & Hpd & _ & Hnone). destruct demo_pages as (Hu & Ho & Hk & Hr).
  destruct (set_page_run demo_created demo_pd demo_upage demo_kpage true Hwf Hpd Hu Ho Hk Hr (Hnone _ Hu))
    as [(r' & H1 & H2 & H3 & H4 & _)|[_ H]]; [|vm_compute in H; discriminate].
  unfold demo_mapped. rewrite (state_after_Ok _ _ _ _ H1).
  exact (conj H2 (conj H3 (gr_alloc _ _ _ H4))).
Defined.

Lemma demo_mapped_owned : owned_pages demo_mapped demo_pd = [demo_kpage; demo_pd + PGSIZE; demo_pd].
Proof. vm_compute. reflexivity. Defined.

Lemma pagedir_destroy_frees_witness :
  ∃ r', pagedir_destroy demo_pd demo_mapped = Ok ((), r') ∧
    ∀ q, allocated r' q ↔ allocated demo_mapped q ∧ q ∉ [demo_kpage; demo_pd + PGSIZE; demo_pd].
Proof.
  destruct demo_mapped_wf as (Hwf & Hpd & Hal). rewrite <- demo_mapped_owned.
  destruct (pagedir_destroy_frees demo_mapped demo_pd Hwf Hpd) as (r' & H1 & _ & H2 & _).
  - rewrite demo_mapped_owned. apply (bool_decide_unpack _). vm_compute. exact I.
  - rewrite demo_mapped_owned. intros q Hq. apply elem_of_cons in Hq as [->|Hq].
    + apply Hal. destruct demo_created_wf as (_ & _ & H & _). apply H. left. apply (proj2 demo_got_wf). by right.
    + apply elem_of_cons in Hq as [->|Hq%list_elem_of_singleton].
      * apply (pd_tables _ _ Hpd 32). exists (entry (demo_pd + PGSIZE) 7). split; [lia|]. split; [vm_compute; reflexivity|].
        split; [vm_compute; congruence|vm_compute; reflexivity].
      * subst q. apply Hpd.
  - exists r'. split; [exact H1|exact H2].
Defined.
End PagedirSpec.
