(* ===== verification/Malloc.v ===== *)
(** * Blocks smaller than a page (threads/malloc.c)

    A descriptor manages the blocks of one size.  Arenas, pages divided into
    blocks behind a header of three words, lie in the frames of the page
    allocator; the free list of a descriptor is the sequence of the addresses
    of its blocks (the list elements inside of free blocks are not modelled,
    lib/kernel/list.c is).  The locks of the descriptors are free.  The array
    of descriptors lies at [descs_addr], [sizeof_desc] bytes apart. *)

From S2P Require Import Prelude Palloc.
Import Palloc.

Module Malloc.

Definition NULL : Z := 0.

(** [struct desc], without its lock. *)
Record desc := Desc { block_size_ : Z; blocks_per_arena : Z; free_list : list Z }.
Record heap := Heap { h_ram : ram; descs : list desc }.
Abbreviation H := (M heap).

Definition ARENA_MAGIC : Z := 0x9a548eed.
Definition sizeof_arena : Z := 12.

Definition on_ram {A} (f : V A) : H A := λ h,
  match f (h_ram h) with
  | Ok (a, r) => Ok (a, Heap r (descs h))
  | Err e => Err e
  end.

(** [malloc_init]: the sizes from [block_size] on. *)
Fixpoint init_descs (fuel : nat) (block_size : Z) : H unit :=
  match fuel with
  | O => fail NoFuel
  | S fuel =>
      if decide (block_size < PGSIZE / 2) then
        modify (λ h, Heap (h_ram h) (descs h ++ [Desc block_size ((PGSIZE - sizeof_arena) / block_size) []]));;
        h ← get; ASSERT (bool_decide (Z.of_nat (length (descs h)) ≤ 10));;
        init_descs fuel (block_size * 2)
      else mret ()
  end.
Definition malloc_init : H unit := init_descs 32 16.

Section Blocks.
Context (descs_addr sizeof_desc : Z).

Definition desc_ptr (k : nat) : Z := descs_addr + sizeof_desc * Z.of_nat k.

(** A descriptor by its address. *)
Definition get_desc (p : Z) : H (nat * desc) :=
  h ← get;
  let k := Z.to_nat ((p - descs_addr) / sizeof_desc) in
  if decide (p = desc_ptr k) then d ← lift (descs h !! k) Undef; mret (k, d) else fail Undef.
Definition set_free_list (k : nat) (l : list Z) : H unit :=
  modify (λ h, Heap (h_ram h) (alter (λ d, Desc (block_size_ d) (blocks_per_arena d) l) k (descs h))).

(** The members of [struct arena]. *)
Definition get_magic (a : Z) : H Z := on_ram (load_word a).
Definition get_arena_desc (a : Z) : H Z := on_ram (load_word (a + 4)).
Definition get_free_cnt (a : Z) : H Z := on_ram (load_word (a + 8)).
Definition set_free_cnt (a n : Z) : H unit := on_ram (store_word (a + 8) n).
Definition set_arena (a magic desc free_cnt : Z) : H unit :=
  on_ram (store_word a magic);; on_ram (store_word (a + 4) desc);; on_ram (store_word (a + 8) free_cnt).

Definition block_to_arena (b : Z) : H Z :=
  let a := pg_round_down b in
  ASSERT (bool_decide (a ≠ NULL));;
  m ← get_magic a; ASSERT (bool_decide (m = ARENA_MAGIC));;
  p ← get_arena_desc a;
  (if decide (p = NULL) then mret () else
   '(_, d) ← get_desc p; ASSERT (bool_decide (u32 (pg_ofs b - sizeof_arena) mod block_size_ d = 0)));;
  (if decide (p ≠ NULL) then mret () else ASSERT (bool_decide (pg_ofs b = sizeof_arena)));;
  mret a.

Definition arena_to_block (a idx : Z) : H Z :=
  ASSERT (bool_decide (a ≠ NULL));;
  m ← get_magic a; ASSERT (bool_decide (m = ARENA_MAGIC));;
  p ← get_arena_desc a; '(_, d) ← get_desc p;
  ASSERT (bool_decide (idx < blocks_per_arena d));;
  mret (a + sizeof_arena + idx * block_size_ d).

(** The smallest descriptor for [size] bytes. *)
Fixpoint find_desc (size : Z) (k : nat) (ds : list desc) : option nat :=
  match ds with
  | [] => None
  | d :: ds => if decide (size ≤ block_size_ d) then Some k else find_desc size (S k) ds
  end.

(** The blocks of a new arena, from number [i] on, go to the end of the free
    list. *)
Fixpoint push_blocks (n : nat) (k : nat) (a i : Z) : H unit :=
  match n with
  | O => mret ()
  | S n =>
      b ← arena_to_block a i;
      h ← get; d ← lift (descs h !! k) Undef;
      set_free_list k (free_list d ++ [b]);;
      push_blocks n k a (i + 1)
  end.

Definition malloc (size : Z) : H Z :=
  if decide (size = 0) then mret NULL else
  h ← get;
  match find_desc size 0 (descs h) with
  | None =>
      let page_cnt := u32 (u32 (size + sizeof_arena) + PGSIZE - 1) / PGSIZE in
      a ← on_ram (palloc_get_multiple 0 page_cnt);
      if decide (a = NULL) then mret NULL else
      set_arena a ARENA_MAGIC NULL page_cnt;;
      mret (a + sizeof_arena)
  | Some k =>
      d ← lift (descs h !! k) Undef;
      ok ← (if decide (free_list d = []) then
              a ← on_ram (palloc_get_page 0);
              if decide (a = NULL) then mret false else
              set_arena a ARENA_MAGIC (desc_ptr k) (blocks_per_arena d);;
              push_blocks (Z.to_nat (blocks_per_arena d)) k a 0;; mret true
            else mret true);
      if (ok : bool) then
        h ← get; d ← lift (descs h !! k) Undef;
        match free_list d with
        | [] => PANIC
        | b :: l =>
            set_free_list k l;;
            a ← block_to_arena b;
            n ← get_free_cnt a; set_free_cnt a (u32 (n - 1));;
            mret b
        end
      else mret NULL
  end.

(** [memset (b, c, n)] on [n / 4] words. *)
Fixpoint fill_words (n : nat) (a w : Z) : H unit :=
  match n with
  | O => mret ()
  | S n => on_ram (store_word a w);; fill_words n (a + 4) w
  end.

(** The blocks of an arena, from number [i] on, leave the free list; [list_remove] of a block that is in no list is undefined. *)
Fixpoint remove_blocks (n : nat) (k : nat) (a i : Z) : H unit :=
  match n with
  | O => mret ()
  | S n =>
      b ← arena_to_block a i;
      h ← get; d ← lift (descs h !! k) Undef;
      if decide (b ∈ free_list d) then
        set_free_list k (filter (λ x, x ≠ b) (free_list d));;
        remove_blocks n k a (i + 1)
      else fail Undef
  end.

Definition free (p : Z) : H unit :=
  if decide (p = NULL) then mret () else
  a ← block_to_arena p;
  dp ← get_arena_desc a;
  if decide (dp ≠ NULL) then
    '(k, d) ← get_desc dp;
    fill_words (Z.to_nat (block_size_ d / 4)) p (word_of_byte 0xcc);;
    set_free_list k (p :: free_list d);;
    n ← get_free_cnt a;
    let n := u32 (n + 1) in
    set_free_cnt a n;;
    if decide (blocks_per_arena d ≤ n) then
      ASSERT (bool_decide (n = blocks_per_arena d));;
      remove_blocks (Z.to_nat (blocks_per_arena d)) k a 0;;
      on_ram (palloc_free_page a)
    else mret ()
  else
    n ← get_free_cnt a; on_ram (palloc_free_multiple a n).

(** One byte, and [memset] and [memcpy] byte by byte. *)
Definition load_byte (a : Z) : V Z := w ← load_word (a - a mod 4); lift (le32 w !! Z.to_nat (a mod 4)) Undef.
Definition store_byte (a b : Z) : V unit :=
  w ← load_word (a - a mod 4); store_word (a - a mod 4) (of_le32 (<[Z.to_nat (a mod 4) := u8 b]> (le32 w))).
Fixpoint fill_bytes (n : nat) (a b : Z) : H unit :=
  match n with
  | O => mret ()
  | S n => on_ram (store_byte a b);; fill_bytes n (a + 1) b
  end.
Fixpoint copy_bytes (n : nat) (dst src : Z) : H unit :=
  match n with
  | O => mret ()
  | S n => b ← on_ram (load_byte src); on_ram (store_byte dst b);; copy_bytes n (dst + 1) (src + 1)
  end.

Definition calloc (a b : Z) : H Z :=
  let size := u32 (a * b) in
  if decide (size < a ∨ size < b) then mret NULL else
  p ← malloc size;
  (if decide (p ≠ NULL) then fill_bytes (Z.to_nat size) p 0 else mret ());;
  mret p.

Definition block_size (block : Z) : H Z :=
  a ← block_to_arena block;
  p ← get_arena_desc a;
  if decide (p ≠ NULL) then '(_, d) ← get_desc p; mret (block_size_ d)
  else n ← get_free_cnt a; mret (u32 (u32 (PGSIZE * n) - pg_ofs block)).

Definition realloc (old_block new_size : Z) : H Z :=
  if decide (new_size = 0) then free old_block;; mret NULL else
  new_block ← malloc new_size;
  (if decide (old_block ≠ NULL ∧ new_block ≠ NULL) then
     old_size ← block_size old_block;
     let min_size := if decide (new_size < old_size) then new_size else old_size in
     copy_bytes (Z.to_nat min_size) new_block old_block;;
     free old_block
   else mret ());;
  mret new_block.
End Blocks.

End Malloc.
