(* ===== verification/MallocSpec.v ===== *)
(** * Blocks smaller than a page: theorems

    The allocator as its clients see it: a set of live blocks that do not
    overlap.  [malloc] adds a block with room for the request, [free] takes one
    away; arenas without live blocks are given back to the page allocator. *)

From S2P Require Import Prelude Palloc PallocSpec Pagedir PagedirSpec Malloc.
Import Palloc PallocSpec PagedirSpec Malloc.

Module MallocSpec.

(** ** Arenas and blocks *)

(** The sizes of [malloc_init]. *)
Definition bsize (k : nat) : Z := 16 * 2 ^ Z.of_nat k.
Definition bpa (k : nat) : Z := (PGSIZE - sizeof_arena) / bsize k.

(** An arena is a page of blocks of the size [bsize k], or [n] pages with one
    big block. *)
Inductive kind := Small (k : nat) | Big (n : Z).
#[global] Instance kind_eq_dec : EqDecision kind.
Proof. solve_decision. Defined.
Definition pages (kd : kind) : Z := match kd with Small _ => 1 | Big n => n end.
Definition room (kd : kind) : Z := match kd with Small k => bsize k | Big n => n * PGSIZE - sizeof_arena end.
Definition block (a : Z) (k : nat) (i : Z) : Z := a + sizeof_arena + i * bsize k.
Definition block_of (a : Z) (kd : kind) (b : Z) : Prop :=
  match kd with Small k => ∃ i, 0 ≤ i < bpa k ∧ b = block a k i | Big _ => b = a + sizeof_arena end.

Definition kind_ok (kd : kind) : Prop := match kd with Small k => (k < 7)%nat | Big n => 0 < n end.

Lemma pages_first a kd : kind_ok kd → page_in a (pages kd) a.
Proof. intros Hk. exists 0. destruct kd; cbn in *; lia. Qed.

Definition page_base (b : Z) : Z := b / PGSIZE * PGSIZE.

Lemma bsize_facts k : (k < 7)%nat →
  16 ≤ bsize k ≤ 1024 ∧ 3 ≤ bpa k ≤ 255 ∧ bsize k mod 4 = 0 ∧ sizeof_arena + bpa k * bsize k ≤ PGSIZE.
Proof.
  intros Hk. destruct k as [|[|[|[|[|[|[|]]]]]]]; [..|lia]; split_and!; vm_compute; congruence.
Qed.

Lemma block_page a k i : (k < 7)%nat → kernel_page a → 0 ≤ i < bpa k →
  page_base (block a k i) = a ∧ block a k i mod PGSIZE = sizeof_arena + i * bsize k ∧ in_u 32 (block a k i) ∧ a < block a k i.
Proof.
  intros Hk [Ha Hb] Hi. destruct (bsize_facts k Hk) as (H1 & H2 & _ & H3). unfold page_base, block, sizeof_arena, in_u in *.
  assert (0 ≤ i * bsize k ∧ i * bsize k + bsize k ≤ bpa k * bsize k) as [Hlo Hhi] by nia.
  set (x := i * bsize k) in *. set (y := bpa k * bsize k) in *. unfold PGSIZE, PHYS_BASE in *. Z.to_euclidean_division_equations. lia.
Qed.

Lemma block_inj a k i j : (k < 7)%nat → block a k i = block a k j → i = j.
Proof. intros Hk E. destruct (bsize_facts k Hk) as (H1 & _). unfold block in E. nia. Qed.

Lemma filter_all (P : Z → Prop) `{∀ x, Decision (P x)} (l : list Z) : (∀ x, x ∈ l → P x) → filter P l = l.
Proof.
  induction l as [|x l IH]; intros Hl; [done|]. rewrite filter_cons_True by (apply Hl; left). f_equal. apply IH. intros y Hy. apply Hl. by right.
Qed.
Lemma filter_same (P Q : Z → Prop) `{∀ x, Decision (P x), ∀ x, Decision (Q x)} (l : list Z) : (∀ x, x ∈ l → P x ↔ Q x) → filter P l = filter Q l.
Proof.
  induction l as [|x l IH]; intros Hl; [done|]. assert (filter P l = filter Q l) as E by (apply IH; intros y Hy; apply Hl; by right).
  rewrite !filter_cons, E. specialize (Hl x ltac:(left)). repeat case_decide; tauto.
Qed.
Lemma filter_none (P : Z → Prop) `{∀ x, Decision (P x)} (l : list Z) : (∀ x, x ∈ l → ¬ P x) → filter P l = [].
Proof.
  induction l as [|x l IH]; intros Hl; [done|]. rewrite filter_cons_False by (apply Hl; left). apply IH. intros y Hy. apply Hl. by right.
Qed.

Section Heap.
Context (descs_addr sizeof_desc : Z).
Hypothesis sizeof_pos : 0 < sizeof_desc.
Hypothesis descs_range : 0 < descs_addr ∧ descs_addr + 10 * sizeof_desc ≤ 2 ^ 32.

Abbreviation desc_ptr := (desc_ptr descs_addr sizeof_desc).
Definition fl (h : heap) (k : nat) : list Z := from_option free_list [] (descs h !! k).

(** The header of an arena, and its free blocks. *)
Record header (r : ram) (a dp n : Z) : Prop := {
  hd_magic : word r a 0 = Some ARENA_MAGIC;
  hd_desc : word r a 1 = Some dp;
  hd_cnt : word r a 2 = Some n;
}.
Definition in_arena (a : Z) (l : list Z) : list Z := filter (λ b, page_base b = a) l.
Definition kind_ptr (kd : kind) : Z := match kd with Small k => desc_ptr k | Big _ => NULL end.
Definition kind_cnt (h : heap) (a : Z) (kd : kind) : Z :=
  match kd with Small k => Z.of_nat (length (in_arena a (fl h k))) | Big n => n end.

(** The heap [h] with the arenas [A] and the live blocks [L]. *)
Record heap_ok (h : heap) (A : gmap Z kind) (L : gset Z) : Prop := {
  hk_ram : ram_wf (h_ram h);
  hk_cnt : length (descs h) = 7%nat;
  hk_descs : ∀ k, (k < 7)%nat → descs h !! k = Some (Desc (bsize k) (bpa k) (fl h k));
  hk_kind : ∀ a kd, A !! a = Some kd → kind_ok kd;
  hk_pool : ∀ a kd, A !! a = Some kd → in_pool (h_ram h) false a (pages kd);
  hk_pages : ∀ a kd q, A !! a = Some kd → page_in a (pages kd) q → allocated (h_ram h) q;
  hk_apart : ∀ a b kd kd' q, A !! a = Some kd → A !! b = Some kd' → page_in a (pages kd) q → page_in b (pages kd') q → a = b;
  hk_header : ∀ a kd, A !! a = Some kd → header (h_ram h) a (kind_ptr kd) (kind_cnt h a kd);
  hk_free : ∀ k b, (k < 7)%nat → b ∈ fl h k ↔ ∃ a, A !! a = Some (Small k) ∧ block_of a (Small k) b ∧ b ∉ L;
  hk_nodup : ∀ k, (k < 7)%nat → NoDup (fl h k);
  hk_live : ∀ b, b ∈ L → ∃ a kd, A !! a = Some kd ∧ block_of a kd b;
}.

(** Every arena is in use. *)
Definition tidy (A : gmap Z kind) (L : gset Z) : Prop := ∀ a kd, A !! a = Some kd → ∃ b, b ∈ L ∧ block_of a kd b.

Lemma arena_page h A L a kd : heap_ok h A L → A !! a = Some kd → allocated (h_ram h) a ∧ kernel_page a.
Proof.
  intros Hh Ha. assert (allocated (h_ram h) a) as Hal.
  { eapply (hk_pages _ _ _ Hh a kd a Ha). by eapply pages_first, (hk_kind _ _ _ Hh). }
  split; [done|]. apply (allocated_page _ _ (hk_ram _ _ _ Hh) Hal).
Qed.

(** What the functions need to know of one arena. *)
Record arena_at (h : heap) (a : Z) (kd : kind) (n : Z) : Prop := {
  at_ram : ram_wf (h_ram h);
  at_used : allocated (h_ram h) a;
  at_header : header (h_ram h) a (kind_ptr kd) n;
  at_desc : match kd with Small k => (k < 7)%nat ∧ ∃ l, descs h !! k = Some (Desc (bsize k) (bpa k) l) | Big n => 0 < n end;
}.

Lemma heap_arena h A L a kd : heap_ok h A L → A !! a = Some kd → arena_at h a kd (kind_cnt h a kd).
Proof.
  intros Hh Ha. constructor; [apply Hh|by eapply arena_page|by apply (hk_header _ _ _ Hh)|].
  pose proof (hk_kind _ _ _ Hh a kd Ha) as Hk. destruct kd; [|done]. split; [done|]. eexists. by apply (hk_descs _ _ _ Hh).
Qed.

Lemma block_base_page a kd b : kernel_page a → kind_ok kd → block_of a kd b → page_base b = a ∧ in_u 32 b ∧ a < b.
Proof.
  intros Hk Hd Hb. destruct kd as [k|m]; cbn in Hb.
  - destruct Hb as (i & Hi & ->). destruct (block_page a k i Hd Hk Hi) as (? & _ & ? & ?). done.
  - subst b. destruct Hk as [Hm Hr]. unfold page_base, sizeof_arena, in_u, PGSIZE, PHYS_BASE in *. Z.to_euclidean_division_equations. lia.
Qed.

Lemma block_base h a kd n b : arena_at h a kd n → block_of a kd b → kernel_page a ∧ page_base b = a ∧ in_u 32 b ∧ a < b.
Proof.
  intros [Hwf Hu _ Hd] Hb. destruct (allocated_page _ _ Hwf Hu) as [Hk _]. split; [done|].
  apply (block_base_page a kd b Hk); [by destruct kd; cbn in *; [apply Hd|]|done].
Qed.

Lemma desc_ptr_index k : Z.to_nat ((desc_ptr k - descs_addr) / sizeof_desc) = k.
Proof. unfold Malloc.desc_ptr. replace (_ - descs_addr) with (Z.of_nat k * sizeof_desc) by lia. rewrite Z.div_mul by lia. lia. Qed.

Lemma desc_ptr_pos k : desc_ptr k ≠ NULL.
Proof. unfold Malloc.desc_ptr, NULL. nia. Qed.
Lemma desc_ptr_range k : (k < 7)%nat → in_u 32 (desc_ptr k).
Proof. intros Hk. unfold Malloc.desc_ptr, in_u. nia. Qed.

Lemma get_desc_run h k d :
  descs h !! k = Some d → get_desc descs_addr sizeof_desc (desc_ptr k) h = Ok ((k, d), h).
Proof. intros Hd. unfold get_desc, get, mbind, M_bind. rewrite desc_ptr_index, decide_True by done. by rewrite Hd. Qed.

Lemma heap_ram_run {A} (m : V A) h a r : m (h_ram h) = Ok (a, r) → Malloc.on_ram m h = Ok (a, Heap r (descs h)).
Proof. unfold Malloc.on_ram. by intros ->. Qed.

(** Reading a word of a page in use. *)
Lemma read_word_run h p k w :
  ram_wf (h_ram h) → allocated (h_ram h) p → 0 ≤ k < 1024 → word (h_ram h) p k = Some w →
  Malloc.on_ram (load_word (p + 4 * k)) h = Ok (w, h).
Proof.
  intros Hwf Ha Hk Hw. destruct (word_some (h_ram h) p k Hwf Ha Hk) as (w' & Hw' & _ & Hl).
  rewrite (heap_ram_run _ _ _ _ Hl). rewrite Hw in Hw'. injection Hw' as <-. by destruct h.
Qed.

Lemma header_run h a kd n :
  arena_at h a kd n → get_magic a h = Ok (ARENA_MAGIC, h) ∧ get_arena_desc a h = Ok (kind_ptr kd, h) ∧ get_free_cnt a h = Ok (n, h).
Proof.
  intros [Hwf Ha [H1 H2 H3] _]. unfold get_magic, get_arena_desc, get_free_cnt.
  split; [replace a with (a + 4 * 0) at 1 by lia; by apply read_word_run|].
  split; [exact (read_word_run h a 1 _ Hwf Ha ltac:(lia) H2)|exact (read_word_run h a 2 n Hwf Ha ltac:(lia) H3)].
Qed.

Lemma block_to_arena_run h a kd n b :
  arena_at h a kd n → block_of a kd b → block_to_arena descs_addr sizeof_desc b h = Ok (a, h).
Proof.
  intros Hat Hb. destruct (block_base _ _ _ _ _ Hat Hb) as (Hk & Hbase & Hu & Hlt). destruct (header_run _ _ _ _ Hat) as (R1 & R2 & _).
  unfold block_to_arena. rewrite pg_round_down_div by done. fold (page_base b). rewrite Hbase. cbv zeta.
  assert (a ≠ NULL) as Hn by (destruct Hk; unfold NULL, PHYS_BASE in *; lia).
  rewrite (bind_Ok _ _ _ () h) by (by apply ASSERT_true, bool_decide_true). rewrite (bind_Ok _ _ _ _ _ R1).
  rewrite (bind_Ok _ _ _ () h) by (by apply ASSERT_true, bool_decide_true). rewrite (bind_Ok _ _ _ _ _ R2).
  pose proof (at_desc _ _ _ _ Hat) as Hd. destruct kd as [k|m]; cbn [kind_ptr] in *.
  - pose proof (desc_ptr_pos k) as Hdp. destruct Hd as [Hkd [l Hl]].
    rewrite (decide_False (P := desc_ptr k = NULL)), (decide_True (P := desc_ptr k ≠ NULL)) by done. destruct Hb as (i & Hi & ->).
    destruct (block_page a k i Hkd Hk Hi) as (_ & Hm & _). destruct (bsize_facts k Hkd) as (Hs & Hp & _ & Hfit).
    rewrite (bind_Ok _ _ _ () h).
    2:{ rewrite (bind_Ok _ _ _ _ _ (get_desc_run h k _ Hl)). apply ASSERT_true, bool_decide_true. rewrite pg_ofs_mod, Hm. cbn [block_size_].
        replace (sizeof_arena + i * bsize k - sizeof_arena) with (i * bsize k) by lia.
        rewrite wrapu_id by (unfold in_u, PGSIZE, sizeof_arena in *; nia). apply Z.mod_mul. lia. }
    by rewrite (bind_Ok _ _ _ () h).
  - rewrite (decide_True (P := NULL = NULL)), (decide_False (P := NULL ≠ NULL)) by tauto. rewrite (bind_Ok _ _ _ () h) by done.
    change (b = a + sizeof_arena) in Hb. subst b. rewrite (bind_Ok _ _ _ () h); [done|]. apply ASSERT_true, bool_decide_true. rewrite pg_ofs_mod.
    destruct Hk as [Hm _]. unfold sizeof_arena, PGSIZE in *. Z.to_euclidean_division_equations. lia.
Qed.

Lemma arena_to_block_run h a k n i :
  arena_at h a (Small k) n → 0 ≤ i < bpa k → arena_to_block descs_addr sizeof_desc a i h = Ok (block a k i, h).
Proof.
  intros Hat Hi. destruct (header_run _ _ _ _ Hat) as (R1 & R2 & _). destruct (at_desc _ _ _ _ Hat) as [Hk [l Hl]].
  destruct (allocated_page _ _ (at_ram _ _ _ _ Hat) (at_used _ _ _ _ Hat)) as ([_ Hr] & _). unfold arena_to_block.
  rewrite (bind_Ok _ _ _ () h) by (apply ASSERT_true, bool_decide_true; unfold NULL, PHYS_BASE in *; lia). rewrite (bind_Ok _ _ _ _ _ R1).
  rewrite (bind_Ok _ _ _ () h) by (by apply ASSERT_true, bool_decide_true). rewrite (bind_Ok _ _ _ _ _ R2).
  rewrite (bind_Ok _ _ _ _ _ (get_desc_run h k _ Hl)). by rewrite (bind_Ok _ _ _ () h) by (apply ASSERT_true, bool_decide_true; cbn; lia).
Qed.

(** ** Free lists *)

Definition set_fl (k : nat) (l : list Z) (h : heap) : heap :=
  Heap (h_ram h) (alter (λ d, Desc (block_size_ d) (blocks_per_arena d) l) k (descs h)).

Lemma descs_set_fl h k l k' : descs (set_fl k l h) !! k' =
  if decide (k' = k) then (λ d, Desc (block_size_ d) (blocks_per_arena d) l) <$> descs h !! k' else descs h !! k'.
Proof. cbn. case_decide as E; [subst; apply list_lookup_alter_eq|by apply list_lookup_alter_ne]. Qed.

Lemma fl_set_fl h k l k' : is_Some (descs h !! k) → fl (set_fl k l h) k' = if decide (k' = k) then l else fl h k'.
Proof. intros [d Hd]. unfold fl. rewrite descs_set_fl. case_decide; [subst; by rewrite Hd|done]. Qed.

Lemma set_fl_same h k d : descs h !! k = Some d → set_fl k (free_list d) h = h.
Proof.
  intros Hd. destruct h as [r ds]. unfold set_fl. f_equal. cbn in *. apply list_eq. intros j. destruct (decide (j = k)) as [->|].
  - rewrite list_lookup_alter_eq, Hd. by destruct d.
  - by rewrite list_lookup_alter_ne.
Qed.
Lemma set_fl_twice h k l l' : set_fl k l' (set_fl k l h) = set_fl k l' h.
Proof.
  unfold set_fl. cbn. f_equal. apply list_eq. intros j. destruct (decide (j = k)) as [->|].
  - rewrite !list_lookup_alter_eq. by destruct (descs h !! k).
  - by rewrite !list_lookup_alter_ne.
Qed.

Lemma arena_set_fl h a kd n k l : arena_at h a kd n → arena_at (set_fl k l h) a kd n.
Proof.
  intros [H1 H2 H3 H4]. constructor; [done|done|done|]. destruct kd as [k'|]; [|done]. destruct H4 as [Hk [l' Hl]]. split; [done|].
  rewrite descs_set_fl. case_decide; [|by exists l']. rewrite Hl. by exists l.
Qed.

(** The blocks of an arena from number [i] on. *)
Definition blocks_from (a : Z) (k : nat) (i : Z) (n : nat) : list Z := (λ j, block a k (i + Z.of_nat j)) <$> seq 0 n.

Lemma blocks_from_S a k i n : blocks_from a k i (S n) = block a k i :: blocks_from a k (i + 1) n.
Proof.
  unfold blocks_from. cbn [seq fmap list_fmap]. f_equal; [f_equal; lia|]. rewrite <- fmap_S_seq, <- list_fmap_compose.
  apply list_fmap_ext. intros j x _. cbn. f_equal. lia.
Qed.

Lemma push_blocks_run n : ∀ h a k c i,
  arena_at h a (Small k) c → 0 ≤ i → i + Z.of_nat n ≤ bpa k →
  ∃ h', push_blocks descs_addr sizeof_desc n k a i h = Ok ((), h') ∧ h' = set_fl k (fl h k ++ blocks_from a k i n) h.
Proof.
  induction n as [|n IH]; intros h a k c i Hat Hi Hn; cbn [push_blocks]; destruct (at_desc _ _ _ _ Hat) as [Hk [l Hl]].
  - eexists. split; [reflexivity|]. cbn. rewrite app_nil_r. symmetry. unfold fl. rewrite Hl. by apply (set_fl_same h k (Desc (bsize k) (bpa k) l)).
  - rewrite (bind_Ok _ _ _ _ _ (arena_to_block_run h a k c i Hat ltac:(lia))).
    unfold get, mbind at 1, M_bind at 1. rewrite (bind_Ok _ _ _ (Desc (bsize k) (bpa k) l) h) by (by rewrite Hl). cbn [free_list].
    rewrite (bind_Ok _ _ _ () (set_fl k (l ++ [block a k i]) h)) by done.
    destruct (IH (set_fl k (l ++ [block a k i]) h) a k c (i + 1)) as (h' & R & ->); [by apply arena_set_fl|lia|lia|].
    eexists. split; [exact R|]. rewrite blocks_from_S. rewrite fl_set_fl by (rewrite Hl; eauto). rewrite decide_True by done.
    assert (fl h k = l) as -> by (unfold fl; by rewrite Hl). rewrite set_fl_twice, <- app_assoc. done.
Qed.

(** ** Counting free blocks *)

Lemma same_arena h A L a a' kd kd' b :
  heap_ok h A L → A !! a = Some kd → A !! a' = Some kd' → block_of a kd b → block_of a' kd' b → a = a' ∧ kd = kd'.
Proof.
  intros Hh Ha Ha' Hb Hb'. destruct (block_base _ _ _ _ _ (heap_arena _ _ _ _ _ Hh Ha) Hb) as (_ & E & _).
  destruct (block_base _ _ _ _ _ (heap_arena _ _ _ _ _ Hh Ha') Hb') as (_ & E' & _). assert (a = a') as -> by congruence. split; [done|congruence].
Qed.

Lemma elem_blocks a k b : b ∈ blocks_from a k 0 (Z.to_nat (bpa k)) ↔ block_of a (Small k) b.
Proof.
  unfold blocks_from, block_of. rewrite list_elem_of_fmap. split.
  - intros (j & -> & Hj%elem_of_seq). exists (0 + Z.of_nat j). lia.
  - intros (i & Hi & ->). exists (Z.to_nat i). rewrite elem_of_seq. split; [f_equal; lia|lia].
Qed.

Lemma blocks_nodup a k n : (k < 7)%nat → NoDup (blocks_from a k 0 n).
Proof. intros Hk. apply NoDup_fmap_2; [|apply NoDup_seq]. intros i j E%block_inj; [lia|done]. Qed.

Lemma blocks_length a k i n : length (blocks_from a k i n) = n.
Proof. unfold blocks_from. by rewrite length_fmap, length_seq. Qed.

(** The free blocks of an arena. *)
Lemma elem_in_arena h A L a k b :
  heap_ok h A L → A !! a = Some (Small k) → b ∈ in_arena a (fl h k) ↔ block_of a (Small k) b ∧ b ∉ L.
Proof.
  intros Hh Ha. pose proof (hk_kind _ _ _ Hh a _ Ha) as Hk. unfold in_arena. rewrite list_elem_of_filter, (hk_free _ _ _ Hh k b Hk). split.
  - intros (E & a' & Ha' & Hb & Hn). destruct (block_base _ _ _ _ _ (heap_arena _ _ _ _ _ Hh Ha') Hb) as (_ & E' & _).
    assert (a' = a) as -> by congruence. done.
  - intros [Hb Hn]. destruct (block_base _ _ _ _ _ (heap_arena _ _ _ _ _ Hh Ha) Hb) as (_ & E' & _). split; [done|]. by exists a.
Qed.

Lemma arena_count h A L a k (n := length (in_arena a (fl h k))) :
  heap_ok h A L → A !! a = Some (Small k) →
  (n ≤ Z.to_nat (bpa k))%nat ∧ (n = Z.to_nat (bpa k) ↔ ∀ b, block_of a (Small k) b → b ∉ L).
Proof.
  intros Hh Ha. pose proof (hk_kind _ _ _ Hh a _ Ha) as Hk. cbn in Hk.
  assert (NoDup (in_arena a (fl h k))) as Hnd by (apply NoDup_filter, (hk_nodup _ _ _ Hh k Hk)).
  assert (in_arena a (fl h k) ⊆+ blocks_from a k 0 (Z.to_nat (bpa k))) as Hsub.
  { apply NoDup_submseteq; [done|]. intros b Hb. apply elem_blocks. by apply (elem_in_arena h A L a k b Hh Ha). }
  pose proof (submseteq_length _ _ Hsub) as Hle. rewrite blocks_length in Hle. split; [done|]. split.
  - intros E b Hb. assert (in_arena a (fl h k) ≡ₚ blocks_from a k 0 (Z.to_nat (bpa k))) as Hp
      by (apply submseteq_length_Permutation; [done|rewrite blocks_length; fold n; lia]).
    apply elem_blocks in Hb. rewrite <- Hp in Hb. by apply (elem_in_arena h A L a k b Hh Ha).
  - intros Hall. apply Nat.le_antisymm; [done|]. rewrite <- (blocks_length a k 0 (Z.to_nat (bpa k))). apply submseteq_length, NoDup_submseteq.
    + by apply blocks_nodup.
    + intros b Hb%elem_blocks. apply (elem_in_arena h A L a k b Hh Ha). auto.
Qed.

(** The state after the count of an arena and a free list changed. *)
Definition recount (a n : Z) (h : heap) : heap := Heap (stored (h_ram h) a 2 n) (descs h).

Lemma set_free_cnt_run h a kd c n : arena_at h a kd c → set_free_cnt a n h = Ok ((), recount a n h).
Proof.
  intros [Hwf Ha _ _]. exact (heap_ram_run _ h _ _ (store_word_run (h_ram h) a 2 n Hwf Ha ltac:(lia))).
Qed.

Lemma header_recount h a n q dp m :
  ram_wf (h_ram h) → allocated (h_ram h) a → header (h_ram h) q dp m →
  header (h_ram (recount a n h)) q dp (if decide (q = a) then n else m).
Proof.
  intros Hwf Ha [H1 H2 H3]. constructor; cbn; rewrite word_stored by (done || lia).
  - by rewrite decide_False by (intros [_ ?]; lia).
  - by rewrite decide_False by (intros [_ ?]; lia).
  - destruct (decide (q = a)) as [->|Hq]; [by rewrite decide_True|]. by rewrite decide_False by tauto.
Qed.

(** A block leaves or enters the free list of [k], and its arena is
    recounted. *)
Lemma heap_change h A L L' a k l b :
  heap_ok h A L → A !! a = Some (Small k) → block_of a (Small k) b →
  (∀ x, x ≠ b → x ∈ L' ↔ x ∈ L) → (∀ x, x ∈ l ↔ (x ≠ b ∧ x ∈ fl h k) ∨ (x = b ∧ b ∉ L')) → NoDup l →
  heap_ok (recount a (Z.of_nat (length (in_arena a l))) (set_fl k l h)) A L'.
Proof.
  intros Hh Ha Hb HL Hl Hnd. pose proof (hk_kind _ _ _ Hh a _ Ha) as Hk. cbn in Hk.
  pose proof (hk_descs _ _ _ Hh k Hk) as Hdk. destruct (block_base _ _ _ _ _ (heap_arena _ _ _ _ _ Hh Ha) Hb) as (_ & Eb & _).
  assert (∀ k', fl (recount a (Z.of_nat (length (in_arena a l))) (set_fl k l h)) k' = if decide (k' = k) then l else fl h k') as Hfl.
  { intros k'. change (fl (recount _ _ _) k') with (fl (set_fl k l h) k'). apply fl_set_fl. by rewrite Hdk. }
  destruct (arena_page _ _ _ _ _ Hh Ha) as [Hal _].
  assert (length (in_arena a l) ≤ Z.to_nat (bpa k))%nat as Hcnt.
  { rewrite <- (blocks_length a k 0 (Z.to_nat (bpa k))). apply submseteq_length, NoDup_submseteq; [by apply NoDup_filter|].
    intros x [Hx Hin]%list_elem_of_filter. apply elem_blocks. apply Hl in Hin as [[_ Hin]|[-> _]]; [|done].
    apply (elem_in_arena h A L a k x Hh Ha). by apply list_elem_of_filter. }
  constructor.
  - apply stored_wf; [apply Hh|]. destruct (bsize_facts k Hk) as (_ & ? & _). unfold in_u. lia.
  - cbn. rewrite length_alter. apply Hh.
  - intros k' Hk'. rewrite Hfl. change (descs (recount _ _ _)) with (descs (set_fl k l h)). rewrite descs_set_fl.
    case_decide; [subst; by rewrite Hdk|by apply (hk_descs _ _ _ Hh)].
  - apply Hh.
  - apply Hh.
  - intros x kd q Hx Hq. apply stored_allocated. by eapply (hk_pages _ _ _ Hh).
  - apply Hh.
  - intros q kd Hq. pose proof (header_recount h a (Z.of_nat (length (in_arena a l))) q _ _ (hk_ram _ _ _ Hh) Hal (hk_header _ _ _ Hh q kd Hq)) as Hhd.
    change (h_ram (recount a (Z.of_nat (length (in_arena a l))) (set_fl k l h))) with (h_ram (recount a (Z.of_nat (length (in_arena a l))) h)).
    destruct kd as [k'|n]; cbn [kind_cnt] in *.
    + rewrite Hfl. destruct (decide (q = a)) as [->|Hqa].
      * assert (k' = k) as -> by congruence. by rewrite decide_True.
      * case_decide as E; [|done]. subst k'. replace (length (in_arena q l)) with (length (in_arena q (fl h k))); [done|].
        apply Permutation_length, NoDup_Permutation; [apply NoDup_filter, (hk_nodup _ _ _ Hh k Hk)|by apply NoDup_filter|].
        intros x. unfold in_arena. rewrite !list_elem_of_filter, Hl. split; [intros [E Hx]; split; [done|]; left; split; [congruence|done]|].
        intros [E [[_ Hx]|[-> _]]]; [done|congruence].
    + destruct (decide (q = a)) as [->|]; [congruence|done].
  - intros k' x Hk'. rewrite Hfl. case_decide as E.
    + subst k'. rewrite Hl, (hk_free _ _ _ Hh k x Hk). split.
      * intros [[Hne (q & Hq & Hx & Hn)]|[-> Hn]]; [exists q; by rewrite HL|by exists a].
      * intros (q & Hq & Hx & Hn). destruct (decide (x = b)) as [->|Hne]; [by right|]. left. split; [done|]. exists q. by rewrite <- HL.
    + rewrite (hk_free _ _ _ Hh k' x Hk'). split; intros (q & Hq & Hx & Hn); exists q; (split; [done|]); (split; [done|]).
      all: assert (x ≠ b) by (intros ->; destruct (same_arena h A L a q _ _ b Hh Ha Hq Hb Hx) as [_ [= ->]]; done). all: by apply HL in Hn || by rewrite HL || by rewrite <- HL.
  - intros k' Hk'. rewrite Hfl. case_decide; [done|by apply (hk_nodup _ _ _ Hh)].
  - intros x Hx. destruct (decide (x = b)) as [->|Hne]; [by exists a, (Small k)|]. apply HL in Hx; [|done]. by apply (hk_live _ _ _ Hh).
Qed.

(** ** [malloc] *)

(** Words that do not belong to headers of arenas keep their values. *)
Definition keeps_words (A : gmap Z kind) (r r' : ram) : Prop :=
  ∀ q j, 0 ≤ j → allocated r q → (A !! q = None ∨ 3 ≤ j) → word r' q j = word r q j.

(** The end of [malloc]: the first free block is taken. *)
Lemma take_block_run h A L k b l :
  heap_ok h A L → (k < 7)%nat → fl h k = b :: l →
  ∃ a h', (set_free_list k l;; a ← block_to_arena descs_addr sizeof_desc b; n ← get_free_cnt a; set_free_cnt a (u32 (n - 1));; mret b) h = Ok (b, h') ∧
    A !! a = Some (Small k) ∧ block_of a (Small k) b ∧ b ∉ L ∧ heap_ok h' A ({[b]} ∪ L) ∧ keeps_words A (h_ram h) (h_ram h') ∧
    (∀ q, allocated (h_ram h') q ↔ allocated (h_ram h) q).
Proof.
  intros Hh Hk Hf. assert (b ∈ fl h k) as Hin by (rewrite Hf; left). pose proof (hk_nodup _ _ _ Hh k Hk) as Hnd. rewrite Hf in Hnd.
  apply NoDup_cons in Hnd as [Hbl Hnd]. apply (hk_free _ _ _ Hh k b Hk) in Hin as (a & Ha & Hb & HbL).
  destruct (block_base _ _ _ _ _ (heap_arena _ _ _ _ _ Hh Ha) Hb) as (_ & Eb & _).
  pose proof (arena_set_fl _ _ _ _ k l (heap_arena _ _ _ _ _ Hh Ha)) as Hat. cbn [kind_cnt] in Hat.
  assert (length (in_arena a (fl h k)) = S (length (in_arena a l))) as Hc by (rewrite Hf; unfold in_arena; by rewrite filter_cons_True).
  destruct (arena_count h A L a k Hh Ha) as [Hle _]. destruct (bsize_facts k Hk) as (_ & Hbpa & _). rewrite Hc in Hle, Hat.
  exists a, (recount a (Z.of_nat (length (in_arena a l))) (set_fl k l h)). split.
  { rewrite (bind_Ok _ _ _ () (set_fl k l h)) by done. rewrite (bind_Ok _ _ _ _ _ (block_to_arena_run _ _ _ _ _ Hat Hb)).
    destruct (header_run _ _ _ _ Hat) as (_ & _ & R3). rewrite (bind_Ok _ _ _ _ _ R3).
    replace (u32 (Z.of_nat (S (length (in_arena a l))) - 1)) with (Z.of_nat (length (in_arena a l))) by (rewrite wrapu_id; unfold in_u; lia).
    by rewrite (bind_Ok _ _ _ _ _ (set_free_cnt_run _ _ _ _ _ Hat)). }
  split; [done|]. split; [done|]. split; [done|]. split.
  - eapply (heap_change h A L _ a k l b Hh Ha Hb); [set_solver| |done]. intros x. rewrite Hf. split.
    + intros Hx. left. split; [by intros ->|by right].
    + intros [[Hne Hx]|[-> Hx]]; [apply elem_of_cons in Hx as [->|]; done|set_solver].
  - split; [|intros q; apply stored_allocated].
    intros q j Hj Hq HA. cbn. rewrite word_stored by (apply Hh || (by eapply arena_page) || lia).
    rewrite decide_False; [done|]. intros [-> ->]. destruct HA; [congruence|lia].
Qed.

Lemma set_arena_run h a m dp n (r' := stored (stored (stored (h_ram h) a 0 m) a 1 dp) a 2 n) :
  ram_wf (h_ram h) → allocated (h_ram h) a → in_u 32 m → in_u 32 dp → in_u 32 n →
  set_arena a m dp n h = Ok ((), Heap r' (descs h)) ∧ ram_wf r' ∧ (∀ q, allocated r' q ↔ allocated (h_ram h) q) ∧ same_pools (h_ram h) r' ∧
  (∀ q j, 0 ≤ j → word r' q j = if decide (q = a ∧ j = 0) then Some m else if decide (q = a ∧ j = 1) then Some dp else
     if decide (q = a ∧ j = 2) then Some n else word (h_ram h) q j).
Proof.
  intros Hwf Ha Hm Hd Hn. set (r1 := stored (h_ram h) a 0 m). set (r2 := stored r1 a 1 dp).
  assert (ram_wf r1 ∧ allocated r1 a) as [W1 A1] by (split; [by apply stored_wf|by apply stored_allocated]).
  assert (ram_wf r2 ∧ allocated r2 a) as [W2 A2] by (split; [by apply stored_wf|by apply stored_allocated]).
  split.
  { unfold set_arena. rewrite (bind_Ok _ _ _ () (Heap r1 (descs h))).
    2:{ replace a with (a + 4 * 0) at 1 by lia. apply heap_ram_run. by apply store_word_run. }
    rewrite (bind_Ok _ _ _ () (Heap r2 (descs h))) by (exact (heap_ram_run _ (Heap r1 (descs h)) _ _ (store_word_run r1 a 1 dp W1 A1 ltac:(lia)))).
    exact (heap_ram_run _ (Heap r2 (descs h)) _ _ (store_word_run r2 a 2 n W2 A2 ltac:(lia))). }
  split; [by apply stored_wf|]. split; [intros q; unfold r'; by rewrite !stored_allocated|]. split; [by intros []|].
  intros q j Hj. unfold r'. rewrite !word_stored by (done || lia). repeat case_decide; (done || naive_solver lia).
Qed.

(** A new arena: all blocks of a small one are free, the block of a big one is
    live. *)
Definition init_cnt (kd : kind) : Z := match kd with Small k => bpa k | Big n => n end.
Definition new_live (a : Z) (kd : kind) : gset Z := match kd with Small _ => ∅ | Big _ => {[a + sizeof_arena]} end.
Definition new_fl (h : heap) (a : Z) (kd : kind) (k : nat) : list Z :=
  if decide (kd = Small k) then blocks_from a k 0 (Z.to_nat (bpa k)) else fl h k.
Definition with_arena (h : heap) (r1 : ram) (a : Z) (kd : kind) : heap :=
  Heap (stored (stored (stored r1 a 0 ARENA_MAGIC) a 1 (kind_ptr kd)) a 2 (init_cnt kd))
    (match kd with Small k => descs (set_fl k (blocks_from a k 0 (Z.to_nat (bpa k))) h) | Big _ => descs h end).

Lemma kind_range r a kd : ram_wf r → in_pool r false a (pages kd) → kind_ok kd → in_u 32 (kind_ptr kd) ∧ in_u 32 (init_cnt kd).
Proof.
  intros Hwf (i & Hi & Hin & _) Hk. pose proof (pool_bound r false Hwf). destruct kd as [k|n]; cbn in *.
  - destruct (bsize_facts k Hk) as (_ & ? & _). split; [by apply desc_ptr_range|unfold in_u; lia].
  - unfold NULL, in_u. lia.
Qed.

Section Grow.
Context (h : heap) (A : gmap Z kind) (L : gset Z) (r1 : ram) (a : Z) (kd : kind).
Hypothesis Hh : heap_ok h A L.
Hypothesis Hk : kind_ok kd.
Hypothesis Hf : ∀ k, kd = Small k → fl h k = [].
Hypothesis Hho : handed_out (h_ram h) r1 false false a (pages kd).

Lemma grow_page : allocated r1 a ∧ kernel_page a ∧ A !! a = None.
Proof.
  assert (allocated r1 a) as Hal by (apply (ho_used _ _ _ _ _ _ Hho); right; by apply pages_first). split; [done|].
  split; [apply (allocated_page _ _ (ho_wf _ _ _ _ _ _ Hho) Hal)|]. destruct (A !! a) as [kd'|] eqn:E; [|done]. exfalso.
  apply (ho_free _ _ _ _ _ _ Hho a (pages_first a kd Hk)). by eapply arena_page.
Qed.

(** The blocks of the new arena were not live. *)
Lemma grow_not_live b : block_of a kd b → b ∉ L.
Proof.
  destruct grow_page as (_ & Hp & HA). intros Hb HbL. destruct (hk_live _ _ _ Hh b HbL) as (x & kd' & Hx & Hbx).
  destruct (block_base _ _ _ _ _ (heap_arena _ _ _ _ _ Hh Hx) Hbx) as (_ & Ex & _). destruct (block_base_page a kd b Hp Hk Hb) as [Ea _].
  assert (x = a) as -> by congruence. congruence.
Qed.

Lemma fl_with_arena k : fl (with_arena h r1 a kd) k = new_fl h a kd k.
Proof.
  unfold with_arena, new_fl. destruct kd as [k'|n]; [|by rewrite decide_False]. unfold fl at 1. cbn [descs].
  fold (fl (set_fl k' (blocks_from a k' 0 (Z.to_nat (bpa k'))) h) k). rewrite fl_set_fl by (by rewrite (hk_descs _ _ _ Hh k' Hk)). destruct (decide (k = k')) as [->|]; [by rewrite decide_True|by rewrite decide_False by congruence].
Qed.

Lemma grow_frame r' : r' = h_ram (with_arena h r1 a kd) →
  ram_wf r' ∧ same_pools (h_ram h) r' ∧ (∀ q, allocated r' q ↔ allocated (h_ram h) q ∨ page_in a (pages kd) q) ∧
  (∀ q j, 0 ≤ j → q ≠ a → word r' q j = word (h_ram h) q j) ∧ header r' a (kind_ptr kd) (init_cnt kd).
Proof.
  intros ->. destruct grow_page as (Hal & _ & _). pose proof (ho_wf _ _ _ _ _ _ Hho) as Hwf.
  destruct (kind_range (h_ram h) a kd) as [Hd Hc]; [apply Hh|apply Hho|done|].
  destruct (set_arena_run (Heap r1 (descs h)) a ARENA_MAGIC (kind_ptr kd) (init_cnt kd)) as (_ & W & A1 & P1 & Hw); [done..|].
  cbn [h_ram] in *. split; [done|]. split; [intros u; destruct (ho_pools _ _ _ _ _ _ Hho u) as [<- <-]; apply P1|].
  split; [intros q; etrans; [apply A1|apply Hho]|]. split.
  - intros q j Hj Hq. unfold with_arena. cbn [h_ram]. rewrite Hw, !decide_False by tauto. unfold word. rewrite (ho_frames _ _ _ _ _ _ Hho).
    by rewrite decide_False by (intros [? _]; done).
  - constructor; unfold with_arena; cbn [h_ram]; rewrite Hw by lia; [by rewrite decide_True|by rewrite decide_False, decide_True by naive_solver|].
    rewrite !decide_False by (intros [_ ?]; lia). by rewrite decide_True.
Qed.

(** The counts in the headers. *)
Lemma grow_count q kd' : <[a := kd]> A !! q = Some kd' →
  kind_cnt (with_arena h r1 a kd) q kd' = if decide (q = a) then init_cnt kd else kind_cnt h q kd'.
Proof.
  destruct grow_page as (_ & Hp & HA). destruct kd' as [k'|n]; cbn [kind_cnt]; rewrite ?fl_with_arena; unfold new_fl.
  2:{ intros [[<- ->]|[Hx Hkd]]%lookup_insert_Some; [by rewrite decide_True|by rewrite decide_False]. }
  assert (∀ b, kd = Small k' → b ∈ blocks_from a k' 0 (Z.to_nat (bpa k')) → page_base b = a) as Hb.
  { intros b -> Hb%elem_blocks. by destruct (block_base_page a (Small k') b Hp Hk Hb). }
  intros [[<- Hkd]|[Hx Hkd]]%lookup_insert_Some.
  - rewrite !decide_True by done. unfold in_arena. rewrite filter_all by auto. rewrite blocks_length, Hkd. cbn.
    rewrite Z2Nat.id; [done|]. rewrite Hkd in Hk. destruct (bsize_facts k' Hk) as (_ & ? & _). lia.
  - rewrite (decide_False (P := q = a)) by done. case_decide as E; [|done]. rewrite (Hf k' E). unfold in_arena at 1.
    rewrite filter_none; [done|]. intros b Hin Hq. apply Hx. rewrite <- Hq. by symmetry; apply Hb.
Qed.

Lemma grow_free k b : (k < 7)%nat →
  b ∈ new_fl h a kd k ↔ ∃ x, <[a := kd]> A !! x = Some (Small k) ∧ block_of x (Small k) b ∧ b ∉ new_live a kd ∪ L.
Proof.
  intros Hk'. destruct grow_page as (_ & Hp & HA). unfold new_fl. case_decide as E.
  - rewrite elem_blocks, E. split.
    + intros Hb. exists a. rewrite lookup_insert_eq. split; [done|]. split; [done|]. cbn. rewrite <- E in Hb. pose proof (grow_not_live b Hb). set_solver.
    + intros (x & [[<- _]|[Hx Hxa]]%lookup_insert_Some & Hb & Hn); [done|]. exfalso.
      assert (b ∈ fl h k) as Hin by (apply (hk_free _ _ _ Hh k b Hk'); exists x; set_solver). rewrite (Hf k E) in Hin. by apply not_elem_of_nil in Hin.
  - rewrite (hk_free _ _ _ Hh k b Hk'). split; intros (x & Hx & Hb & Hn); exists x.
    + rewrite lookup_insert_ne by congruence. split; [done|]. split; [done|]. rewrite not_elem_of_union. split; [|done].
      destruct kd as [k'|n] eqn:Ekd; cbn; [set_solver|]. intros ->%elem_of_singleton.
      destruct (block_base _ _ _ _ _ (heap_arena _ _ _ _ _ Hh Hx) Hb) as (_ & Ex & _).
      destruct (block_base_page a (Big n) (a + sizeof_arena) Hp Hk eq_refl) as [Ea _]. congruence.
    + apply lookup_insert_Some in Hx as [[<- Ek]|[_ Hx]]; [congruence|]. set_solver.
Qed.

Lemma heap_grow : heap_ok (with_arena h r1 a kd) (<[a := kd]> A) (new_live a kd ∪ L).
Proof.
  destruct grow_page as (Hal & Hp & HA). destruct (grow_frame _ eq_refl) as (W & HP & HU & Hw & Hhd).
  assert (∀ x kd' q, A !! x = Some kd' → page_in x (pages kd') q → ¬ page_in a (pages kd) q) as Hne.
  { intros x kd' q Hx Hq Hq'. by apply (ho_free _ _ _ _ _ _ Hho q Hq'), (hk_pages _ _ _ Hh x kd'). }
  constructor.
  - done.
  - unfold with_arena. destruct kd; cbn; rewrite ?length_alter; apply Hh.
  - intros k Hk'. rewrite fl_with_arena. unfold new_fl, with_arena. destruct kd as [k'|n]; [|by apply (hk_descs _ _ _ Hh)]. cbn [descs].
    rewrite descs_set_fl, (hk_descs _ _ _ Hh k Hk'). destruct (decide (k = k')) as [->|]; [by rewrite decide_True|by rewrite decide_False by congruence].
  - intros x kd' [[<- <-]|[Hx Hkd]]%lookup_insert_Some; [done|by apply (hk_kind _ _ _ Hh x)].
  - intros x kd' [[<- <-]|[Hx Hkd]]%lookup_insert_Some; apply (same_pools_in (h_ram h)); try done; [apply Hho|by apply (hk_pool _ _ _ Hh)].
  - intros x kd' q [[<- <-]|[Hx Hkd]]%lookup_insert_Some Hq; apply HU; [by right|left; by eapply (hk_pages _ _ _ Hh)].
  - intros x y kx ky q [[<- <-]|[Hx Hkx]]%lookup_insert_Some [[<- <-]|[Hy Hky]]%lookup_insert_Some Hq Hq'; [done| | |].
    + by destruct (Hne y ky q Hky Hq').
    + by destruct (Hne x kx q Hkx Hq).
    + by apply (hk_apart _ _ _ Hh x y kx ky q).
  - intros x kd' Hx. rewrite (grow_count x kd' Hx). apply lookup_insert_Some in Hx as [[<- <-]|[Hx Hkd]]; [by rewrite decide_True|].
    rewrite decide_False by done. destruct (hk_header _ _ _ Hh x kd' Hkd) as [D1 D2 D3]. constructor; rewrite Hw by (done || lia); done.
  - intros k b Hk'. rewrite fl_with_arena. apply grow_free; done.
  - intros k Hk'. rewrite fl_with_arena. unfold new_fl. case_decide; [by apply blocks_nodup|by apply (hk_nodup _ _ _ Hh)].
  - intros b [Hb|Hb]%elem_of_union.
    + exists a, kd. rewrite lookup_insert_eq. destruct kd; cbn in *; set_solver.
    + destruct (hk_live _ _ _ Hh b Hb) as (x & kd' & Hx & Hbx). exists x, kd'. rewrite lookup_insert_ne by congruence. done.
Qed.
End Grow.

(** *** The descriptor *)

Lemma find_desc_spec size ds : ∀ k0,
  match find_desc size k0 ds with
  | Some k => ∃ i d, k = (k0 + i)%nat ∧ ds !! i = Some d ∧ size ≤ block_size_ d ∧
      ∀ j d', (j < i)%nat → ds !! j = Some d' → block_size_ d' < size
  | None => ∀ j d, ds !! j = Some d → block_size_ d < size
  end.
Proof.
  induction ds as [|d ds IH]; intros k0; cbn; [done|]. case_decide as E.
  - exists 0%nat, d. split; [lia|]. split; [done|]. split; [done|]. lia.
  - specialize (IH (S k0)). destruct (find_desc size (S k0) ds) as [k|].
    + destruct IH as (i & d' & -> & Hd & Hs & Hj). exists (S i), d'. split; [lia|]. split; [done|]. split; [done|].
      intros [|j] d'' Hlt Hl; [injection Hl as <-; lia|]. apply (Hj j); [lia|done].
    + intros [|j] d' Hl; [injection Hl as <-; lia|]. by apply (IH j).
Qed.

(** What a block of kind [kd] wastes at most. *)
Definition tight (kd : kind) (size : Z) : Prop :=
  match kd with Small _ => room kd < Z.max 17 (2 * size) | Big _ => room kd < size + PGSIZE end.

Lemma bsize_S k : bsize (S k) = 2 * bsize k.
Proof. unfold bsize. rewrite Nat2Z.inj_succ, Z.pow_succ_r by lia. lia. Qed.

Lemma find_desc_run h A L size : heap_ok h A L → 0 < size →
  match find_desc size 0 (descs h) with
  | Some k => (k < 7)%nat ∧ size ≤ 1024 ∧ size ≤ bsize k ∧ tight (Small k) size
  | None => 1024 < size
  end.
Proof.
  intros Hh Hs. pose proof (find_desc_spec size (descs h) 0) as F. destruct (find_desc size 0 (descs h)) as [k|].
  - destruct F as (i & d & -> & Hd & Hle & Hmin). pose proof (lookup_lt_Some _ _ _ Hd) as Hlt. rewrite (hk_cnt _ _ _ Hh) in Hlt.
    rewrite (hk_descs _ _ _ Hh i Hlt) in Hd. injection Hd as <-. cbn in Hle. destruct (bsize_facts i Hlt) as (Hb & _). split; [done|].
    split; [lia|]. split; [done|]. unfold tight, room. change (0 + i)%nat with i. destruct i as [|i]; [change (bsize 0) with 16; lia|].
    specialize (Hmin i _ ltac:(lia) (hk_descs _ _ _ Hh i ltac:(lia))). cbn in Hmin. rewrite bsize_S. lia.
  - exact (F 6%nat _ (hk_descs _ _ _ Hh 6 ltac:(lia))).
Qed.

(** *** What a call leaves *)

(** The word [j] of the page [q] belongs to a live block. *)
Definition live_word (A : gmap Z kind) (L : gset Z) (q j : Z) : Prop :=
  0 ≤ j < 1024 ∧ ∃ a kd b, A !! a = Some kd ∧ page_in a (pages kd) q ∧ b ∈ L ∧ block_of a kd b ∧ b ≤ q + 4 * j < b + room kd.
Definition keeps_live (A : gmap Z kind) (L : gset Z) (r r' : ram) : Prop :=
  ∀ q j, live_word A L q j → word r' q j = word r q j.

Lemma keeps_words_live h A L r' : heap_ok h A L → keeps_words A (h_ram h) r' → keeps_live A L (h_ram h) r'.
Proof.
  intros Hh Hw q j (Hj & a & kd & b & Ha & Hq & HbL & Hb & Hr). apply Hw; [lia|by eapply (hk_pages _ _ _ Hh)|].
  destruct (A !! q) as [kd'|] eqn:Eq; [right|by left].
  assert (a = q) as ->. { apply (hk_apart _ _ _ Hh a q kd kd' q Ha Eq Hq). by eapply pages_first, (hk_kind _ _ _ Hh). }
  assert (q + sizeof_arena ≤ b) as Hlo; [|unfold sizeof_arena in Hlo; lia].
  pose proof (hk_kind _ _ _ Hh q kd Ha) as Hk. destruct kd as [k|n]; cbn in *; [|lia]. destruct Hb as (i & Hi & ->).
  destruct (bsize_facts k Hk) as (? & _). unfold block. nia.
Qed.

(** The pages a request needs when no free block serves it. *)
Definition need (size : Z) : Z := if decide (size ≤ 1024) then 1 else (size + sizeof_arena + PGSIZE - 1) / PGSIZE.

Record gives (h : heap) (A : gmap Z kind) (L : gset Z) (size p : Z) (h' : heap) (A' : gmap Z kind) : Prop := {
  gv_new : p ≠ NULL ∧ p ∉ L;
  gv_room : ∃ a kd, A' !! a = Some kd ∧ block_of a kd p ∧ size ≤ room kd ∧ tight kd size;
  gv_ok : heap_ok h' A' ({[p]} ∪ L);
  gv_arenas : A ⊆ A';
  gv_pages : ∀ q, allocated (h_ram h') q ↔ allocated (h_ram h) q ∨ ∃ a kd, A' !! a = Some kd ∧ A !! a = None ∧ page_in a (pages kd) q;
  gv_fresh : ∀ a kd q, A' !! a = Some kd → A !! a = None → page_in a (pages kd) q → ¬ allocated (h_ram h) q;
  gv_tidy : tidy A L → tidy A' ({[p]} ∪ L);
  gv_kept : keeps_live A L (h_ram h) (h_ram h');
}.

(** A new arena is entered. *)
Lemma enter_arena_run h A L r1 a kd :
  heap_ok h A L → kind_ok kd → handed_out (h_ram h) r1 false false a (pages kd) →
  set_arena a ARENA_MAGIC (kind_ptr kd) (init_cnt kd) (Heap r1 (descs h)) =
    Ok ((), Heap (h_ram (with_arena h r1 a kd)) (descs h)).
Proof.
  intros Hh Hk Hho. destruct (grow_page h A L r1 a kd Hh Hk Hho) as (Hal & _ & _).
  destruct (kind_range (h_ram h) a kd) as [Hd Hc]; [apply Hh|apply Hho|done|].
  by destruct (set_arena_run (Heap r1 (descs h)) a ARENA_MAGIC (kind_ptr kd) (init_cnt kd) (ho_wf _ _ _ _ _ _ Hho) Hal) as (R & _).
Qed.

Lemma grow_keeps h A L r1 a kd :
  heap_ok h A L → kind_ok kd → handed_out (h_ram h) r1 false false a (pages kd) → keeps_words A (h_ram h) (h_ram (with_arena h r1 a kd)).
Proof.
  intros Hh Hk Hho q j Hj Hq HA. destruct (grow_frame h A L r1 a kd Hh Hk Hho _ eq_refl) as (_ & _ & _ & Hw & _). apply Hw; [done|].
  intros ->. by apply (ho_free _ _ _ _ _ _ Hho a (pages_first a kd Hk)).
Qed.

Lemma new_small_run h A L r1 a k :
  heap_ok h A L → (k < 7)%nat → fl h k = [] → handed_out (h_ram h) r1 false false a 1 →
  (set_arena a ARENA_MAGIC (desc_ptr k) (bpa k);; push_blocks descs_addr sizeof_desc (Z.to_nat (bpa k)) k a 0;; mret true)
    (Heap r1 (descs h)) = Ok (true, with_arena h r1 a (Small k)).
Proof.
  intros Hh Hk Hf Hho. rewrite (bind_Ok _ _ _ _ _ (enter_arena_run h A L r1 a (Small k) Hh Hk Hho)).
  destruct (grow_page h A L r1 a (Small k) Hh Hk Hho) as (_ & _ & _). destruct (grow_frame h A L r1 a (Small k) Hh Hk Hho _ eq_refl) as (W & _ & HU & _ & Hhd).
  destruct (bsize_facts k Hk) as (_ & Hbpa & _).
  destruct (push_blocks_run (Z.to_nat (bpa k)) (Heap (h_ram (with_arena h r1 a (Small k))) (descs h)) a k (bpa k) 0) as (h' & R & ->); [|lia..|].
  { constructor; [done|apply HU; right; by apply (pages_first a (Small k))|done|]. split; [done|]. eexists. by apply (hk_descs _ _ _ Hh). }
  rewrite (bind_Ok _ _ _ _ _ R). change (fl (Heap _ (descs h)) k) with (fl h k). by rewrite Hf.
Qed.

(** The pages of one arena more. *)
Lemma pages_insert (A : gmap Z kind) (U : Z → Prop) a kd q : A !! a = None →
  U q ∨ page_in a (pages kd) q ↔ U q ∨ ∃ x kx, <[a := kd]> A !! x = Some kx ∧ A !! x = None ∧ page_in x (pages kx) q.
Proof.
  intros HA. split; (intros [Hq|Hq]; [by left|right]); [exists a, kd; by rewrite lookup_insert_eq|].
  destruct Hq as (x & kx & [[<- <-]|[_ Hx]]%lookup_insert_Some & Hn & Hq); [done|congruence].
Qed.

Lemma big_pages_run h A L size n :
  heap_ok h A L → size ≠ 0 → find_desc size 0 (descs h) = None → u32 (u32 (size + sizeof_arena) + PGSIZE - 1) / PGSIZE = n → 0 < n < 2 ^ 32 →
  (malloc descs_addr sizeof_desc size h = Ok (NULL, h) ∧ no_room (h_ram h) false n) ∨
  ∃ a r1, malloc descs_addr sizeof_desc size h = Ok (a + sizeof_arena, with_arena h r1 a (Big n)) ∧ handed_out (h_ram h) r1 false false a n.
Proof.
  intros Hh Hs Hf En Hn. unfold malloc. rewrite decide_False by lia. rewrite (bind_Ok _ _ _ h h) by done. rewrite Hf. cbv zeta. rewrite En.
  destruct (palloc_get_run (h_ram h) 0 n (hk_ram _ _ _ Hh) Hn) as [(a & r1 & R & Hho)|[Hno R]].
  - right. exists a, r1. split; [|exact Hho]. rewrite (bind_Ok _ _ _ _ _ (heap_ram_run _ _ _ _ R)). rewrite decide_False by apply Hho.
    by rewrite (bind_Ok _ _ _ _ _ (enter_arena_run h A L r1 a (Big n) Hh (proj1 Hn) Hho)).
  - left. split; [|done]. rewrite (bind_Ok _ _ _ _ _ (heap_ram_run _ _ _ _ R)). rewrite decide_True by done. by destruct h.
Qed.

Lemma big_run h A L size :
  heap_ok h A L → 1024 < size ≤ 2 ^ 32 - 4108 → find_desc size 0 (descs h) = None →
  (malloc descs_addr sizeof_desc size h = Ok (NULL, h) ∧ no_room (h_ram h) false (need size)) ∨
  ∃ p h' A', malloc descs_addr sizeof_desc size h = Ok (p, h') ∧ gives h A L size p h' A'.
Proof.
  intros Hh Hs Hf. assert (0 < need size < 2 ^ 32 ∧ size ≤ need size * PGSIZE - sizeof_arena < size + PGSIZE) as [Hn Hr].
  { unfold need, sizeof_arena, PGSIZE. rewrite decide_False by lia. Z.to_euclidean_division_equations. lia. }
  destruct (big_pages_run h A L size (need size)) as [?|(a & r1 & R & Hho)]; [done|lia|done| |done|by left|].
  { unfold need, sizeof_arena, PGSIZE. rewrite decide_False by lia. rewrite (wrapu_id 32 (size + 12)), wrapu_id; unfold in_u; lia. }
  right. change (handed_out (h_ram h) r1 false false a (pages (Big (need size)))) in Hho. set (kd := Big (need size)) in *.
  assert (kind_ok kd) as Hk by (cbn; lia). exists (a + sizeof_arena), (with_arena h r1 a kd), (<[a := kd]> A). split; [done|].
  destruct (grow_page h A L r1 a kd Hh Hk Hho) as (_ & [_ Hp] & HA). constructor.
  - split; [unfold NULL, sizeof_arena, PHYS_BASE in *; lia|by apply (grow_not_live h A L r1 a kd)].
  - exists a, kd. rewrite lookup_insert_eq. split; [done|]. split; [done|]. by cbn.
  - by apply (heap_grow h A L r1 a kd).
  - by apply insert_subseteq.
  - intros q. destruct (grow_frame h A L r1 a kd Hh Hk Hho _ eq_refl) as (_ & _ & HU & _). rewrite HU. by apply pages_insert.
  - intros x kx q [[<- <-]|[_ Hx]]%lookup_insert_Some Hnx; [by apply Hho|congruence].
  - intros Ht x kx [[<- <-]|[Hx Hkx]]%lookup_insert_Some; [exists (a + sizeof_arena); split; [set_solver|done]|].
    destruct (Ht x kx Hkx) as (b & ? & ?). exists b. set_solver.
  - eapply keeps_words_live, grow_keeps; eassumption.
Qed.

(** The end of [malloc], from a free list that is not empty. *)
Lemma small_gives h A L size k h0 A0 :
  heap_ok h A L → heap_ok h0 A0 L → A ⊆ A0 → (∀ x kx, A0 !! x = Some kx → A !! x = Some kx ∨ ¬ allocated (h_ram h) x ∧ kx = Small k ∧ ∀ b, b ∈ fl h0 k → block_of x (Small k) b) →
  keeps_words A (h_ram h) (h_ram h0) → (∀ q, allocated (h_ram h0) q ↔ allocated (h_ram h) q ∨ ∃ a kd, A0 !! a = Some kd ∧ A !! a = None ∧ page_in a (pages kd) q) →
  (k < 7)%nat → size ≤ bsize k → tight (Small k) size → fl h0 k ≠ [] →
  ∃ p h' A', (h ← get; d ← lift (descs h !! k) Undef;
     match free_list d with
     | [] => PANIC
     | b :: l => set_free_list k l;; a ← block_to_arena descs_addr sizeof_desc b; n ← get_free_cnt a; set_free_cnt a (u32 (n - 1));; mret b
     end) h0 = Ok (p, h') ∧ gives h A L size p h' A'.
Proof.
  intros Hh Hh0 HA Hnew Hw Hmono Hk Hs Ht Hf. destruct (fl h0 k) as [|b l] eqn:Ef; [done|].
  destruct (take_block_run h0 A0 L k b l Hh0 Hk Ef) as (a & h' & R & Ha & Hb & HbL & Hok & Hw' & HU'). exists b, h', A0. split.
  { rewrite (bind_Ok _ _ _ h0 h0) by done. rewrite (bind_Ok _ _ _ (Desc (bsize k) (bpa k) (b :: l)) h0) by (by rewrite (hk_descs _ _ _ Hh0 k Hk), Ef). exact R. }
  destruct (block_base _ _ _ _ _ (heap_arena _ _ _ _ _ Hh0 Ha) Hb) as ([_ Hp] & _ & _ & Hlt). constructor.
  - split; [unfold NULL, PHYS_BASE in *; lia|done].
  - exists a, (Small k). done.
  - done.
  - done.
  - intros q. by rewrite HU'.
  - intros x kx q Hx Hn Hq. destruct (Hnew x kx Hx) as [?|(Hna & -> & _)]; [congruence|]. by apply page_in_1 in Hq as ->.
  - intros Htd x kx Hx. destruct (Hnew x kx Hx) as [Hx'|(_ & -> & Hb')].
    + destruct (Htd x kx Hx') as (b' & ? & ?). exists b'. set_solver.
    + exists b. split; [set_solver|]. apply Hb'. left.
  - apply (keeps_words_live h A L (h_ram h') Hh). intros q j Hj Hq Hc. rewrite Hw'; [by apply Hw|done|apply Hmono; by left|].
    destruct Hc as [Hc|Hc]; [left|by right]. destruct (A0 !! q) as [kx|] eqn:E; [|done]. destruct (Hnew q kx E) as [|[? _]]; [congruence|done].
Qed.

Lemma malloc_run h A L size :
  heap_ok h A L → 0 ≤ size ≤ 2 ^ 32 - 4108 →
  (malloc descs_addr sizeof_desc size h = Ok (NULL, h) ∧ (size = 0 ∨ no_room (h_ram h) false (need size))) ∨
  ∃ p h' A', malloc descs_addr sizeof_desc size h = Ok (p, h') ∧ gives h A L size p h' A'.
Proof.
  intros Hh Hs. destruct (decide (size = 0)) as [->|Hne]; [left; split; [done|by left]|].
  pose proof (find_desc_run h A L size Hh ltac:(lia)) as F. destruct (find_desc size 0 (descs h)) as [k|] eqn:Ek.
  2:{ destruct (big_run h A L size Hh ltac:(lia) Ek) as [[R Hno]|R]; [left; by split; [|right]|by right]. }
  destruct F as (Hk & H1024 & Hsz & Ht). unfold malloc. rewrite decide_False by done. rewrite (bind_Ok _ _ _ h h) by done. rewrite Ek.
  rewrite (bind_Ok _ _ _ (Desc (bsize k) (bpa k) (fl h k)) h) by (by rewrite (hk_descs _ _ _ Hh k Hk)). cbn [free_list blocks_per_arena].
  destruct (decide (fl h k = [])) as [Hf|Hf].
  2:{ right. rewrite (bind_Ok _ _ _ true h) by done. apply (small_gives h A L size k h A); auto; [by intros ???|]. intros q. split; [by left|]. intros [?|(? & ? & ? & ? & _)]; [done|congruence]. }
  assert (need size = 1) as Hneed by (unfold need; by rewrite decide_True).
  destruct (palloc_get_run (h_ram h) 0 1 (hk_ram _ _ _ Hh) ltac:(lia)) as [(a & r1 & R & Hho)|[Hno R]].
  2:{ left. split; [|right; by rewrite Hneed]. rewrite (bind_Ok _ _ _ false h); [done|]. rewrite (bind_Ok _ _ _ _ _ (heap_ram_run _ _ _ _ R)).
      rewrite decide_True by done. by destruct h. }
  right. change (handed_out (h_ram h) r1 false false a (pages (Small k))) in Hho.
  rewrite (bind_Ok _ _ _ true (with_arena h r1 a (Small k))).
  2:{ rewrite (bind_Ok _ _ _ _ _ (heap_ram_run _ _ _ _ R)). rewrite decide_False by apply Hho. by apply (new_small_run h A L). }
  destruct (grow_page h A L r1 a (Small k) Hh Hk Hho) as (_ & _ & HA). destruct (grow_frame h A L r1 a (Small k) Hh Hk Hho _ eq_refl) as (_ & _ & HU & _).
  assert (fl (with_arena h r1 a (Small k)) k = blocks_from a k 0 (Z.to_nat (bpa k))) as Efl.
  { rewrite (fl_with_arena h A L r1 a (Small k) Hh Hk); [|by intros ? [= <-]|done]. unfold new_fl. by rewrite decide_True. }
  pose proof (heap_grow h A L r1 a (Small k) Hh Hk) as Hg. cbn [new_live] in Hg. rewrite (left_id_L ∅ (∪)) in Hg.
  apply (small_gives h A L size k _ (<[a := Small k]> A)); try done.
  - apply Hg; [|done]. by intros k' [= <-].
  - by apply insert_subseteq.
  - intros x kx [[<- <-]|[Hx Hkx]]%lookup_insert_Some; [right|by left]. split; [by apply (ho_free _ _ _ _ _ _ Hho), pages_first|]. split; [done|].
    intros b Hb. rewrite Efl in Hb. by apply elem_blocks.
  - by eapply grow_keeps.
  - intros q. rewrite HU. by apply pages_insert.
  - rewrite Efl. intros E. apply (f_equal length) in E. rewrite blocks_length in E. destruct (bsize_facts k Hk) as (_ & ? & _). cbn in E. lia.
Qed.

(** ** [free] *)

Lemma block_before a k i n : (k < 7)%nat → block a k i ∉ blocks_from a k (i + 1) n.
Proof.
  intros Hk (j & E & _)%list_elem_of_fmap. destruct (bsize_facts k Hk) as (Hs & _). unfold block in E. nia.
Qed.

Lemma remove_blocks_run n : ∀ h a k c i,
  arena_at h a (Small k) c → 0 ≤ i → i + Z.of_nat n ≤ bpa k → (∀ b, b ∈ blocks_from a k i n → b ∈ fl h k) →
  remove_blocks descs_addr sizeof_desc n k a i h = Ok ((), set_fl k (filter (λ x, x ∉ blocks_from a k i n) (fl h k)) h).
Proof.
  induction n as [|n IH]; intros h a k c i Hat Hi Hn Hfree; cbn [remove_blocks]; destruct (at_desc _ _ _ _ Hat) as [Hk [l Hl]].
  - rewrite filter_all by (intros; apply not_elem_of_nil). unfold fl. rewrite Hl. cbn [from_option]. by rewrite (set_fl_same h k (Desc (bsize k) (bpa k) l)).
  - rewrite (bind_Ok _ _ _ _ _ (arena_to_block_run h a k c i Hat ltac:(lia))). rewrite (bind_Ok _ _ _ h h) by done.
    rewrite (bind_Ok _ _ _ (Desc (bsize k) (bpa k) l) h) by (by rewrite Hl). cbn [free_list]. set (l' := filter (λ x, x ≠ block a k i) l).
    assert (fl h k = l) as El by (unfold fl; by rewrite Hl). rewrite El in Hfree.
    rewrite decide_True by (apply Hfree; rewrite blocks_from_S; by left).
    rewrite (bind_Ok _ _ _ () (set_fl k l' h)) by done. rewrite (IH (set_fl k l' h) a k c (i + 1)); [|by apply arena_set_fl|lia|lia|].
    2: { intros b Hb. rewrite fl_set_fl by (rewrite Hl; eauto). rewrite decide_True by done. apply list_elem_of_filter. split; [|apply Hfree; rewrite blocks_from_S; by right].
      intros ->. by apply (block_before a k i n Hk) in Hb. }
    rewrite set_fl_twice, fl_set_fl by (rewrite Hl; eauto). rewrite decide_True by done.
    rewrite El. do 3 f_equal. unfold l'. rewrite list_filter_filter. apply list_filter_iff.
    intros x. rewrite blocks_from_S, not_elem_of_cons. tauto.
Qed.

(** Filling a block. *)
Lemma fill_words_run n : ∀ h a j w, ram_wf (h_ram h) → allocated (h_ram h) a → in_u 32 w → 0 ≤ j → j + Z.of_nat n ≤ 1024 →
  ∃ r', fill_words n (a + 4 * j) w h = Ok ((), Heap r' (descs h)) ∧ ram_wf r' ∧ (∀ q, allocated r' q ↔ allocated (h_ram h) q) ∧ same_pools (h_ram h) r' ∧
    (∀ q i, 0 ≤ i → ¬ (q = a ∧ j ≤ i < j + Z.of_nat n) → word r' q i = word (h_ram h) q i).
Proof.
  induction n as [|n IH]; intros h a j w Hwf Ha Hw Hj Hn; cbn [fill_words].
  { exists (h_ram h). split; [by destruct h|]. done. }
  rewrite (bind_Ok _ _ _ _ _ (heap_ram_run _ h _ _ (store_word_run (h_ram h) a j w Hwf Ha ltac:(lia)))).
  replace (a + 4 * j + 4) with (a + 4 * (j + 1)) by lia.
  destruct (IH (Heap (stored (h_ram h) a j w) (descs h)) a (j + 1) w) as (r' & R & W & HU & HP & Hk);
    [by apply stored_wf|by apply stored_allocated|done|lia|lia|]. cbn [h_ram descs] in *. exists r'. split; [exact R|]. split; [done|].
  split; [intros q; by rewrite HU, stored_allocated|]. split; [exact HP|].
  intros q i Hi Hni. rewrite Hk by (lia || naive_solver lia). rewrite word_stored by (done || lia). by rewrite decide_False by naive_solver lia.
Qed.

(** The heap does not depend on words behind the headers. *)
Lemma heap_frame h A L r' : heap_ok h A L →
  ram_wf r' → (∀ q, allocated r' q ↔ allocated (h_ram h) q) → same_pools (h_ram h) r' →
  (∀ q j kd, A !! q = Some kd → 0 ≤ j < 3 → word r' q j = word (h_ram h) q j) → heap_ok (Heap r' (descs h)) A L.
Proof.
  intros [H1 H2 H3 H4 H5 H6 H7 H8 H9 H10 H11] W HU HP Hw. constructor; try done.
  - intros a kd Ha. apply (same_pools_in (h_ram h)); auto.
  - intros a kd q Ha Hq. apply HU. eauto.
  - intros a kd Ha. destruct (H8 a kd Ha) as [D1 D2 D3]. constructor; cbn; rewrite (Hw a _ kd Ha) by lia; done.
Qed.

Record shrunk (h : heap) (a : Z) (h' : heap) : Prop := {
  sh_cnt : length (descs h') = 7%nat;
  sh_descs : ∀ k, (k < 7)%nat → descs h' !! k = Some (Desc (bsize k) (bpa k) (filter (λ x, page_base x ≠ a) (fl h k)));
}.

(** An arena is given back. *)
Lemma heap_shrink h A L L' a kd h' :
  heap_ok h A L → A !! a = Some kd → given_back (h_ram h) (h_ram h') a (pages kd) → shrunk h a h' →
  (∀ b, block_of a kd b → b ∉ L') → (∀ b, ¬ block_of a kd b → b ∈ L' ↔ b ∈ L) → heap_ok h' (delete a A) L'.
Proof.
  intros Hh Ha [G1 G2 G3 _ G5] [S1 S2] Hdead Hsame.
  assert (∀ k, (k < 7)%nat → fl h' k = filter (λ x, page_base x ≠ a) (fl h k)) as Hfl by (intros k Hk; unfold fl at 1; by rewrite S2).
  assert (∀ x kx q, delete a A !! x = Some kx → page_in x (pages kx) q → A !! x = Some kx ∧ x ≠ a ∧ ¬ page_in a (pages kd) q) as Hx.
  { intros x kx q [Hne Hx]%lookup_delete_Some Hq. split; [done|]. split; [done|]. intros Hq'. apply Hne. by apply (hk_apart _ _ _ Hh a x kd kx q). }
  assert (∀ x kx b, A !! x = Some kx → block_of x kx b → page_base b = x) as Hbase.
  { intros x kx b Hx' Hb. by destruct (block_base _ _ _ _ _ (heap_arena _ _ _ _ _ Hh Hx') Hb) as (_ & ? & _). }
  constructor.
  - done.
  - done.
  - intros k Hk. by rewrite Hfl, S2.
  - intros x kx [_ Hx']%lookup_delete_Some. by apply (hk_kind _ _ _ Hh x).
  - intros x kx [_ Hx']%lookup_delete_Some. apply (same_pools_in (h_ram h)); [done|by apply (hk_pool _ _ _ Hh)].
  - intros x kx q Hd Hq. destruct (Hx x kx q Hd Hq) as (Hx' & _ & Hn). apply G1. split; [by eapply (hk_pages _ _ _ Hh)|done].
  - intros x y kx ky q [_ Hx']%lookup_delete_Some [_ Hy']%lookup_delete_Some. by apply (hk_apart _ _ _ Hh).
  - intros x kx Hd. pose proof Hd as [Hne Hx']%lookup_delete_Some. destruct (Hx x kx x Hd) as (_ & _ & Hn); [by eapply pages_first, (hk_kind _ _ _ Hh)|].
    replace (kind_cnt h' x kx) with (kind_cnt h x kx).
    + destruct (hk_header _ _ _ Hh x kx Hx') as [D1 D2 D3]. constructor; unfold word in *; by rewrite G2, decide_False.
    + pose proof (hk_kind _ _ _ Hh x kx Hx') as Hk. destruct kx as [k|n]; [|done]. cbn. rewrite Hfl by done. unfold in_arena.
      do 2 f_equal. rewrite list_filter_filter. apply list_filter_iff. intros b. split; [|tauto]. intros ->. done.
  - intros k b Hk. rewrite Hfl, list_elem_of_filter, (hk_free _ _ _ Hh k b Hk) by done. split.
    + intros (Hb' & x & Hx' & Hb & Hn). rewrite (Hbase _ _ _ Hx' Hb) in Hb'. exists x. rewrite lookup_delete_ne by done. split; [done|]. split; [done|].
      rewrite Hsame; [done|]. intros E. apply Hb'. by rewrite <- (Hbase _ _ _ Hx' Hb), <- (Hbase _ _ _ Ha E).
    + intros (x & [Hne Hx']%lookup_delete_Some & Hb & Hn). rewrite (Hbase _ _ _ Hx' Hb). split; [done|]. exists x. split; [done|]. split; [done|].
      rewrite <- Hsame; [done|]. intros E. apply Hne. by rewrite <- (Hbase _ _ _ Hx' Hb), <- (Hbase _ _ _ Ha E).
  - intros k Hk. rewrite Hfl by done. by apply NoDup_filter, (hk_nodup _ _ _ Hh).
  - intros b Hb. assert (¬ block_of a kd b) as Hnb by (intros E; by apply (Hdead b E)). apply (Hsame b Hnb) in Hb.
    destruct (hk_live _ _ _ Hh b Hb) as (x & kx & Hx' & Hbx). exists x, kx. rewrite lookup_delete_ne; [done|]. intros <-. congruence.
Qed.

(** What a call of [free] leaves. *)
Record frees (h : heap) (A : gmap Z kind) (L : gset Z) (p : Z) (h' : heap) (A' : gmap Z kind) : Prop := {
  fr_ok : heap_ok h' A' (L ∖ {[p]});
  fr_arenas : A' ⊆ A;
  fr_pages : ∀ q, allocated (h_ram h') q ↔ allocated (h_ram h) q ∧ ¬ ∃ a kd, A !! a = Some kd ∧ A' !! a = None ∧ page_in a (pages kd) q;
  fr_tidy : tidy A L → tidy A' (L ∖ {[p]});
  fr_kept : keeps_live A (L ∖ {[p]}) (h_ram h) (h_ram h');
}.

(** The arena goes, too. *)
Lemma frees_arena h A L p a kd h1 h' :
  heap_ok h A L → A !! a = Some kd → block_of a kd p → heap_ok h1 A (L ∖ {[p]}) → (∀ b, block_of a kd b → b ∉ L ∖ {[p]}) →
  (∀ q, allocated (h_ram h1) q ↔ allocated (h_ram h) q) → (∀ q j, 0 ≤ j → ¬ page_in a (pages kd) q → word (h_ram h1) q j = word (h_ram h) q j) →
  given_back (h_ram h1) (h_ram h') a (pages kd) → shrunk h1 a h' → frees h A L p h' (delete a A).
Proof.
  intros Hh Ha Hp Hh1 Hdead HU Hw Hgb Hsh. constructor.
  - by apply (heap_shrink h1 A (L ∖ {[p]}) _ a kd).
  - apply delete_subseteq.
  - intros q. rewrite (gb_used _ _ _ _ Hgb), HU. split; intros [Hq Hn]; (split; [done|]).
    + intros (x & kx & Hx & [<-|Hx']%lookup_delete_None & Hxq); [|congruence]. assert (kx = kd) as -> by congruence. done.
    + intros Hq'. apply Hn. exists a, kd. rewrite lookup_delete_eq. done.
  - intros Ht x kx [Hne Hx]%lookup_delete_Some. destruct (Ht x kx Hx) as (b & HbL & Hb). exists b. split; [|done]. apply elem_of_difference. split; [done|].
    intros ->%elem_of_singleton. destruct (same_arena h A L a x kd kx p) as [-> _]; done.
  - intros q j (Hj & x & kx & b & Hx & Hq & HbL & Hb & _). unfold word. rewrite (gb_frames _ _ _ _ Hgb).
    assert (¬ page_in a (pages kd) q) as Hnq.
    { intros Hq'. assert (a = x) as <- by (by apply (hk_apart _ _ _ Hh a x kd kx q)). assert (kx = kd) as -> by congruence. by apply (Hdead b). }
    rewrite decide_False by done. apply Hw; [lia|done].
Qed.

Lemma free_big_run h A L p a n :
  heap_ok h A L → A !! a = Some (Big n) → block_of a (Big n) p →
  ∃ h', Malloc.free descs_addr sizeof_desc p h = Ok ((), h') ∧ frees h A L p h' (delete a A).
Proof.
  intros Hh Ha Hp. pose proof (heap_arena _ _ _ _ _ Hh Ha) as Hat. destruct (block_base _ _ _ _ _ Hat Hp) as ([_ Hr] & _ & _ & Hlt).
  destruct (header_run _ _ _ _ Hat) as (_ & R2 & R3). unfold Malloc.free. rewrite decide_False by (unfold NULL, PHYS_BASE in *; lia).
  rewrite (bind_Ok _ _ _ _ _ (block_to_arena_run _ _ _ _ _ Hat Hp)), (bind_Ok _ _ _ _ _ R2). cbn [kind_ptr]. rewrite decide_False by tauto.
  rewrite (bind_Ok _ _ _ _ _ R3). cbn [kind_cnt]. pose proof (hk_kind _ _ _ Hh a _ Ha) as Hk. cbn in Hk.
  destruct (palloc_free_run (h_ram h) false a n (hk_ram _ _ _ Hh) (hk_pool _ _ _ Hh a _ Ha) Hk) as (r' & R & Hgb).
  { intros q Hq. by apply (hk_pages _ _ _ Hh a (Big n)). }
  exists (Heap r' (descs h)). split; [exact (heap_ram_run _ _ _ _ R)|].
  assert (∀ b, block_of a (Big n) b → b = p) as Hb by (cbn in *; intros b; by subst).
  apply (frees_arena h A L p a (Big n) h); try done.
  - assert (∀ x k, A !! x = Some (Small k) → ¬ block_of x (Small k) p) as Hnp.
    { intros x k Hx Hbx. destruct (same_arena h A L a x (Big n) (Small k) p) as [_ ?]; done. }
    destruct Hh as [H1 H2 H3 H4 H5 H6 H7 H8 H9 H10 H11]. constructor; try done.
    + intros k b Hk'. rewrite H9 by done. split; intros (x & Hx & Hbx & Hn); exists x; (split; [done|]); (split; [done|]); [set_solver|].
      intros HbL. apply Hn. apply elem_of_difference. split; [done|]. intros ->%elem_of_singleton. by apply (Hnp x k).
    + intros b [HbL _]%elem_of_difference. by apply H11.
  - intros b ->%Hb. set_solver.
  - constructor; [apply Hh|]. intros k Hk'. cbn [descs]. rewrite (hk_descs _ _ _ Hh k Hk'). rewrite filter_all; [done|].
    intros b (x & Hx & Hbx & _)%(hk_free _ _ _ Hh k b Hk') E. destruct (block_base _ _ _ _ _ (heap_arena _ _ _ _ _ Hh Hx) Hbx) as (_ & E' & _).
    congruence.
Qed.

(** The block is filled and put on the free list. *)
Lemma fill_block_run h A L p a k :
  heap_ok h A L → A !! a = Some (Small k) → block_of a (Small k) p →
  ∃ r1, fill_words (Z.to_nat (bsize k / 4)) p (word_of_byte 0xcc) h = Ok ((), Heap r1 (descs h)) ∧ heap_ok (Heap r1 (descs h)) A L ∧
    (∀ q, allocated r1 q ↔ allocated (h_ram h) q) ∧
    (∀ q j, 0 ≤ j → ¬ (q = a ∧ p ≤ q + 4 * j < p + bsize k) → word r1 q j = word (h_ram h) q j).
Proof.
  intros Hh Ha (i & Hi & Hp). pose proof (hk_kind _ _ _ Hh a _ Ha) as Hk. cbn in Hk. destruct (bsize_facts k Hk) as (Hs & Hbpa & H4 & Hfit).
  destruct (arena_page _ _ _ _ _ Hh Ha) as [Hal _]. apply Z.div_exact in H4; [|lia]. set (m := bsize k / 4) in *.
  assert (p = a + 4 * (3 + i * m)) as Ep by (unfold block, sizeof_arena in Hp; nia).
  assert (0 ≤ i * m ∧ i * m + m ≤ bpa k * m ∧ 3 + bpa k * m ≤ 1024) as (Hlo & Hhi & Hlim) by (unfold sizeof_arena, PGSIZE in Hfit; nia).
  destruct (fill_words_run (Z.to_nat m) h a (3 + i * m) (word_of_byte 0xcc)) as (r1 & R & W & HU & HP & Hw); [apply Hh|done|by unfold in_u, word_of_byte|lia|lia|].
  rewrite <- Ep in R. exists r1. split; [done|]. split; [|split; [done|]].
  - apply heap_frame; [done..|]. intros q j kd Hq Hj. apply Hw; [lia|]. intros [_ ?]. lia.
  - intros q j Hj Hn. apply Hw; [done|]. intros [-> ?]. apply Hn. split; [done|]. lia.
Qed.

Lemma unlink_block_ok h A L p a k (l := p :: fl h k) :
  heap_ok h A L → A !! a = Some (Small k) → block_of a (Small k) p → p ∈ L →
  heap_ok (recount a (Z.of_nat (length (in_arena a l))) (set_fl k l h)) A (L ∖ {[p]}) ∧ length (in_arena a l) = S (length (in_arena a (fl h k))).
Proof.
  intros Hh Ha Hp HpL. pose proof (hk_kind _ _ _ Hh a _ Ha) as Hk. cbn in Hk. assert (p ∉ fl h k) as Hpf.
  { rewrite (hk_free _ _ _ Hh k p Hk). intros (x & _ & _ & Hn). done. }
  split.
  - apply (heap_change h A L _ a k l p Hh Ha Hp); [set_solver| |].
    + intros x. unfold l. rewrite elem_of_cons, elem_of_difference, elem_of_singleton. split.
      * intros [->|Hx]; [right; tauto|left]. split; [|done]. by intros ->.
      * intros [[_ Hx]|[-> _]]; tauto.
    + apply NoDup_cons. split; [done|by apply (hk_nodup _ _ _ Hh)].
  - unfold l, in_arena. rewrite filter_cons_True; [done|]. by destruct (block_base _ _ _ _ _ (heap_arena _ _ _ _ _ Hh Ha) Hp) as (_ & ? & _).
Qed.

(** Some block of an arena that is not counted as free is live. *)
Lemma arena_live h A L a k :
  heap_ok h A L → A !! a = Some (Small k) → Z.of_nat (length (in_arena a (fl h k))) < bpa k → ∃ b, b ∈ L ∧ block_of a (Small k) b.
Proof.
  intros Hh Ha Hlt. destruct (arena_count h A L a k Hh Ha) as [_ Hiff]. destruct (decide (Forall (λ b, b ∉ L) (blocks_from a k 0 (Z.to_nat (bpa k))))) as [F|F].
  - exfalso. assert (length (in_arena a (fl h k)) = Z.to_nat (bpa k)) as E; [|lia]. apply Hiff. intros b Hb. rewrite Forall_forall in F. by apply F, elem_blocks.
  - apply not_Forall_Exists in F; [|intros x; apply _]. apply Exists_exists in F as (b & Hb%elem_blocks & Hn). exists b. split; [by apply dec_stable|done].
Qed.

(** The words of other live blocks are not touched. *)
Lemma other_words h A L p a k q j :
  heap_ok h A L → A !! a = Some (Small k) → block_of a (Small k) p → live_word A (L ∖ {[p]}) q j →
  ¬ (q = a ∧ p ≤ q + 4 * j < p + bsize k) ∧ ¬ (q = a ∧ j = 2).
Proof.
  intros Hh Ha (i & Hi & ->) (Hj & x & kx & b & Hx & Hq & [HbL Hne]%elem_of_difference & Hb & Hr). pose proof (hk_kind _ _ _ Hh a _ Ha) as Hk.
  assert (q = a → x = a ∧ kx = Small k) as Hqa.
  { intros ->. assert (a = x) as <-; [|split; [done|congruence]]. apply (hk_apart _ _ _ Hh a x (Small k) kx a Ha Hx); [by apply pages_first|done]. }
  cbn in Hk. destruct (bsize_facts k Hk) as (Hs & _). split; (intros [E Hw]; destruct (Hqa E) as [-> ->]; destruct Hb as (i' & Hi' & ->); unfold room, block in *).
  - assert (i' ≠ i) as Hii by (intros ->; apply Hne, elem_of_singleton; done). nia.
  - unfold sizeof_arena in *. nia.
Qed.

(** The end of [free] for an arena whose blocks are all free. *)
Lemma give_back_run h A L a k :
  heap_ok h A L → A !! a = Some (Small k) → (∀ b, block_of a (Small k) b → b ∉ L) →
  ∃ h', (remove_blocks descs_addr sizeof_desc (Z.to_nat (bpa k)) k a 0;; Malloc.on_ram (palloc_free_page a)) h = Ok ((), h') ∧
    given_back (h_ram h) (h_ram h') a 1 ∧ shrunk h a h'.
Proof.
  intros Hh Ha Hdead. pose proof (hk_kind _ _ _ Hh a _ Ha) as Hk. cbn in Hk. destruct (bsize_facts k Hk) as (_ & Hbpa & _).
  assert (∀ b, b ∈ blocks_from a k 0 (Z.to_nat (bpa k)) → b ∈ fl h k) as Hfree.
  { intros b Hb%elem_blocks. apply (hk_free _ _ _ Hh k b Hk). exists a. split; [done|]. split; [done|]. by apply Hdead. }
  rewrite (bind_Ok _ _ _ _ _ (remove_blocks_run (Z.to_nat (bpa k)) h a k _ 0 (heap_arena _ _ _ _ _ Hh Ha) ltac:(lia) ltac:(lia) Hfree)).
  set (l := filter _ (fl h k)). destruct (palloc_free_run (h_ram h) false a 1 (hk_ram _ _ _ Hh) (hk_pool _ _ _ Hh a _ Ha)) as (r' & R & Hgb); [lia| |].
  { intros q Hq. by apply (hk_pages _ _ _ Hh a (Small k)). }
  exists (Heap r' (descs (set_fl k l h))). split; [exact (heap_ram_run _ (set_fl k l h) _ _ R)|]. split; [done|].
  assert (∀ k' b, (k' < 7)%nat → b ∈ fl h k' → page_base b = a ↔ k' = k ∧ b ∈ blocks_from a k 0 (Z.to_nat (bpa k))) as Hin.
  { intros k' b Hk' (x & Hx & Hb & _)%(hk_free _ _ _ Hh k' b Hk'). destruct (block_base _ _ _ _ _ (heap_arena _ _ _ _ _ Hh Hx) Hb) as (_ & E & _).
    rewrite elem_blocks. split.
    - intros E'. assert (x = a) as -> by congruence. assert (k' = k) as -> by congruence. done.
    - intros [-> Hb']. by destruct (block_base _ _ _ _ _ (heap_arena _ _ _ _ _ Hh Ha) Hb') as (_ & ? & _). }
  constructor; [cbn; rewrite length_alter; apply Hh|]. intros k' Hk'. cbn [descs]. rewrite descs_set_fl, (hk_descs _ _ _ Hh k' Hk').
  case_decide as E.
  - subst k'. unfold l. cbn. do 2 f_equal. apply filter_same. intros b Hb. rewrite (Hin k b Hk Hb). tauto.
  - rewrite filter_all; [done|]. intros b Hb. rewrite (Hin k' b Hk' Hb). tauto.
Qed.

Lemma free_small_run h A L p a k :
  heap_ok h A L → A !! a = Some (Small k) → block_of a (Small k) p → p ∈ L →
  ∃ h' A', Malloc.free descs_addr sizeof_desc p h = Ok ((), h') ∧ frees h A L p h' A'.
Proof.
  intros Hh Ha Hp HpL. pose proof (heap_arena _ _ _ _ _ Hh Ha) as Hat. destruct (block_base _ _ _ _ _ Hat Hp) as ([_ Hr] & _ & _ & Hlt).
  pose proof (hk_kind _ _ _ Hh a _ Ha) as Hk. cbn in Hk. destruct (bsize_facts k Hk) as (Hs & Hbpa & _).
  destruct (header_run _ _ _ _ Hat) as (_ & R2 & _). unfold Malloc.free. rewrite decide_False by (unfold NULL, PHYS_BASE in *; lia).
  rewrite (bind_Ok _ _ _ _ _ (block_to_arena_run _ _ _ _ _ Hat Hp)), (bind_Ok _ _ _ _ _ R2). cbn [kind_ptr]. rewrite decide_True by apply desc_ptr_pos.
  rewrite (bind_Ok _ _ _ _ _ (get_desc_run h k _ (hk_descs _ _ _ Hh k Hk))). cbn [block_size_ blocks_per_arena free_list].
  destruct (fill_block_run h A L p a k Hh Ha Hp) as (r1 & R1 & Hh1 & HU1 & Hw1). rewrite (bind_Ok _ _ _ _ _ R1).
  set (h1 := Heap r1 (descs h)) in *. change (fl h k) with (fl h1 k). set (l := p :: fl h1 k).
  destruct (unlink_block_ok h1 A L p a k Hh1 Ha Hp HpL) as [Hh2 Hlen]. fold l in Hh2, Hlen.
  rewrite (bind_Ok _ _ _ () (set_fl k l h1)) by done.
  pose proof (arena_set_fl _ _ _ _ k l (heap_arena _ _ _ _ _ Hh1 Ha)) as Hat1. destruct (header_run _ _ _ _ Hat1) as (_ & _ & R3).
  rewrite (bind_Ok _ _ _ _ _ R3). cbn [kind_cnt]. cbv zeta. set (h2 := recount a (Z.of_nat (length (in_arena a l))) (set_fl k l h1)) in *.
  assert (fl h2 k = l) as Hfl2.
  { change (fl h2 k) with (fl (set_fl k l h1) k). rewrite fl_set_fl by (by rewrite (hk_descs _ _ _ Hh1 k Hk)). by rewrite decide_True. }
  destruct (arena_count h2 A _ a k Hh2 Ha) as [Hle Hiff]. rewrite Hfl2 in Hle, Hiff.
  assert (u32 (Z.of_nat (length (in_arena a (fl h1 k))) + 1) = Z.of_nat (length (in_arena a l))) as -> by (rewrite wrapu_id; unfold in_u; lia).
  rewrite (bind_Ok _ _ _ _ _ (set_free_cnt_run _ _ _ _ _ Hat1)). fold h2.
  assert (∀ q, allocated (h_ram h2) q ↔ allocated (h_ram h) q) as HU2 by (intros q; unfold h2; cbn; rewrite stored_allocated; apply HU1).
  assert (∀ q j, 0 ≤ j → ¬ (q = a ∧ p ≤ q + 4 * j < p + bsize k) → ¬ (q = a ∧ j = 2) → word (h_ram h2) q j = word (h_ram h) q j) as Hw2.
  { intros q j Hj Hn1 Hn2. unfold h2. cbn. rewrite word_stored by (apply Hh1 || (by eapply (arena_page h1)) || lia). rewrite decide_False by done. by apply Hw1. }
  destruct (decide (bpa k ≤ Z.of_nat (length (in_arena a l)))) as [Hfull|Hnot].
  - rewrite (bind_Ok _ _ _ () h2) by (apply ASSERT_true, bool_decide_true; lia).
    assert (∀ b, block_of a (Small k) b → b ∉ L ∖ {[p]}) as Hdead by (apply Hiff; lia).
    destruct (give_back_run h2 A _ a k Hh2 Ha Hdead) as (h' & R & Hgb & Hsh). exists h', (delete a A). split; [exact R|].
    apply (frees_arena h A L p a (Small k) h2); try done. intros q j Hj Hn. apply Hw2; [done|..]; (intros [-> _]; apply Hn; by apply pages_first).
  - exists h2, A. split; [done|]. constructor; [done|done| | |].
    + intros q. rewrite HU2. split; [|tauto]. intros Hq. split; [done|]. intros (x & kx & Hx & Hx' & _). congruence.
    + intros Ht x kx Hx. destruct (decide (x = a)) as [->|Hxa].
      * assert (kx = Small k) as -> by congruence. apply (arena_live h2 A _ a k Hh2 Ha). rewrite Hfl2. lia.
      * destruct (Ht x kx Hx) as (b & HbL & Hb). exists b. split; [|done]. apply elem_of_difference. split; [done|]. intros ->%elem_of_singleton.
        destruct (same_arena h A L a x (Small k) kx p) as [-> _]; done.
    + intros q j Hl. destruct (other_words h A L p a k q j Hh Ha Hp Hl) as [N1 N2]. apply Hw2; [apply Hl|done..].
Qed.

Lemma free_run h A L p :
  heap_ok h A L → p ∈ L → ∃ h' A', Malloc.free descs_addr sizeof_desc p h = Ok ((), h') ∧ frees h A L p h' A'.
Proof.
  intros Hh HpL. destruct (hk_live _ _ _ Hh p HpL) as (a & [k|n] & Ha & Hp); [by eapply free_small_run|].
  destruct (free_big_run h A L p a n Hh Ha Hp) as (h' & R & Hf). eauto.
Qed.

(** ** The clients *)

(** Live blocks do not overlap. *)
Lemma live_disjoint h A L a kd b a' kd' b' x :
  heap_ok h A L → A !! a = Some kd → A !! a' = Some kd' → block_of a kd b → block_of a' kd' b' →
  b ≤ x < b + room kd → b' ≤ x < b' + room kd' → b = b'.
Proof.
  intros Hh Ha Ha' Hb Hb' Hx Hx'.
  assert (∀ a kd b, A !! a = Some kd → block_of a kd b → b ≤ x < b + room kd → page_in a (pages kd) (page_base x)) as Hpg.
  { clear - Hh. intros a kd b Ha Hb Hx. pose proof (hk_kind _ _ _ Hh a kd Ha) as Hk. destruct (arena_page _ _ _ _ _ Hh Ha) as [_ [Hm _]].
    exists ((x - a) / PGSIZE). assert (0 ≤ x - a < pages kd * PGSIZE) as Hr.
    { destruct kd as [k|n]; cbn in *; [|subst b; unfold sizeof_arena in *; lia]. destruct Hb as (i & Hi & ->).
      destruct (bsize_facts k Hk) as (Hs & _ & _ & Hfit). unfold block, sizeof_arena, PGSIZE in *. nia. }
    unfold page_base, PGSIZE in *. Z.to_euclidean_division_equations. lia. }
  assert (a = a') as <- by (apply (hk_apart _ _ _ Hh a a' kd kd' (page_base x)); eauto). assert (kd' = kd) as -> by congruence.
  pose proof (hk_kind _ _ _ Hh a kd Ha) as Hk. destruct kd as [k|n]; cbn in *; [|lia]. destruct Hb as (i & Hi & ->), Hb' as (j & Hj & ->).
  destruct (bsize_facts k Hk) as (Hs & _). unfold block in *. assert (i = j) as -> by nia. done.
Qed.

(** The allocator and its live blocks, from the start. *)
Inductive client (r0 : ram) : heap → gset Z → Prop :=
| client_init h : malloc_init (Heap r0 []) = Ok ((), h) → client r0 h ∅
| client_malloc h L size p h' :
    client r0 h L → 0 ≤ size ≤ 2 ^ 32 - 4108 → malloc descs_addr sizeof_desc size h = Ok (p, h') →
    client r0 h' (if decide (p = NULL) then L else {[p]} ∪ L)
| client_free h L p h' :
    client r0 h L → p ∈ L → Malloc.free descs_addr sizeof_desc p h = Ok ((), h') → client r0 h' (L ∖ {[p]}).

Record client_ok (r0 : ram) (h : heap) (A : gmap Z kind) (L : gset Z) : Prop := {
  cl_heap : heap_ok h A L;
  cl_tidy : tidy A L;
  cl_apart : ∀ a kd q, A !! a = Some kd → page_in a (pages kd) q → ¬ allocated r0 q;
  cl_pages : ∀ q, allocated (h_ram h) q ↔ allocated r0 q ∨ ∃ a kd, A !! a = Some kd ∧ page_in a (pages kd) q;
}.

Lemma malloc_init_run r : malloc_init (Heap r []) =
  Ok ((), Heap r ((λ k, Desc (bsize k) (bpa k) []) <$> seq 0 7)).
Proof. reflexivity. Qed.

Lemma malloc_init_ok r : ram_wf r → heap_ok (Heap r ((λ k, Desc (bsize k) (bpa k) []) <$> seq 0 7)) ∅ ∅.
Proof.
  intros Hwf. set (h := Heap r _). assert (∀ k, (k < 7)%nat → descs h !! k = Some (Desc (bsize k) (bpa k) []) ∧ fl h k = []) as Hd.
  { intros k Hk. do 7 (destruct k as [|k]; [split; reflexivity|]). lia. }
  constructor; try (intros *; rewrite lookup_empty; done); try done.
  - intros k Hk. destruct (Hd k Hk) as [E ->]. done.
  - intros k b Hk. rewrite (proj2 (Hd k Hk)). split; [by intros ?%not_elem_of_nil|]. intros (a & Ha & _). by rewrite lookup_empty in Ha.
  - intros k Hk. rewrite (proj2 (Hd k Hk)). constructor.
Qed.

Lemma client_run r0 h L : ram_wf r0 → client r0 h L → ∃ A, client_ok r0 h A L.
Proof.
  intros Hwf. induction 1 as [h Hi|h L size p h' _ (A & [K1 K2 K3 K4]) Hs R|h L p h' _ (A & [K1 K2 K3 K4]) Hp R].
  - rewrite malloc_init_run in Hi. injection Hi as <-. exists ∅. constructor; [by apply malloc_init_ok|done|by intros *; rewrite lookup_empty|].
    intros q. cbn. split; [by left|]. intros [?|(? & ? & Ha & _)]; [done|by rewrite lookup_empty in Ha].
  - destruct (malloc_run h A L size K1 Hs) as [[R' _]|(p' & h'' & A' & R' & [[G1 _] _ G3 G4 G5 G6 G7 _])]; rewrite R in R'; injection R' as -> ->.
    + rewrite decide_True by done. by exists A.
    + rewrite decide_False by done. exists A'. constructor; [done|by apply G7| |].
      * intros a kd q Ha Hq Hr. destruct (A !! a) as [kd'|] eqn:E.
        -- rewrite (lookup_weaken _ _ _ _ E G4) in Ha. injection Ha as ->. by apply (K3 a kd q).
        -- apply (G6 a kd q Ha E Hq), K4. by left.
      * intros q. rewrite G5, K4. split.
        -- intros [[?|(a & kd & Ha & Hq)]|(a & kd & Ha & _ & Hq)]; [by left|right; exists a, kd; split; [by eapply lookup_weaken|done]|right; eauto].
        -- intros [?|(a & kd & Ha & Hq)]; [by left; left|]. destruct (A !! a) as [kd'|] eqn:E; [|right; eauto].
           rewrite (lookup_weaken _ _ _ _ E G4) in Ha. injection Ha as ->. left. right. eauto.
  - destruct (free_run h A L p K1 Hp) as (h'' & A' & R' & [F1 F2 F3 F4 _]). rewrite R in R'. injection R' as ->. exists A'.
    assert (∀ a kd, A' !! a = Some kd → A !! a = Some kd) as Hsub by (intros a kd Ha; by apply (lookup_weaken _ _ _ _ Ha F2)).
    constructor; [done|by apply F4|intros a kd q Ha; apply (K3 a kd q); auto|]. intros q. rewrite F3, K4. split.
    + intros [[?|(a & kd & Ha & Hq)] Hn]; [by left|]. right. destruct (A' !! a) as [kd'|] eqn:E; [|destruct Hn; by exists a, kd].
      rewrite (Hsub a kd' E) in Ha. injection Ha as ->. eauto.
    + intros [Hr|(a & kd & Ha & Hq)]; [split; [by left|]|split; [right; eauto|]]; intros (x & kx & Hx & Hx' & Hxq).
      * by apply (K3 x kx q).
      * assert (a = x) as <- by (apply (hk_apart _ _ _ K1 a x kd kx q); auto). congruence.
Qed.

(** ** The claims *)

(** C12: In every state that calls of [malloc], for sizes whose round-up does not
    overflow, and of [free], for live blocks, reach from [malloc_init] on: no
    assertion of a further such call fails; live blocks do not overlap; the
    pages that were in use at the start are still in use; and when no block
    is live, exactly they are, that is, [malloc] and [free] leak no page. *)
Theorem malloc_history r0 h L :
  ram_wf r0 → client r0 h L →
  (∀ size, 0 ≤ size ≤ 2 ^ 32 - 4108 → ∃ p h', malloc descs_addr sizeof_desc size h = Ok (p, h')) ∧
  (∀ p, p ∈ L → ∃ h', Malloc.free descs_addr sizeof_desc p h = Ok ((), h')) ∧
  (∃ A, heap_ok h A L ∧ ∀ a kd b a' kd' b' x, A !! a = Some kd → A !! a' = Some kd' → block_of a kd b → block_of a' kd' b' →
     b ≤ x < b + room kd → b' ≤ x < b' + room kd' → b = b') ∧
  (∀ q, allocated r0 q → allocated (h_ram h) q) ∧
  (L = ∅ → ∀ q, allocated (h_ram h) q ↔ allocated r0 q).
Proof.
  intros Hwf Hc. destruct (client_run r0 h L Hwf Hc) as (A & [K1 K2 K3 K4]). split; [|split; [|split; [|split]]].
  - intros size Hs. destruct (malloc_run h A L size K1 Hs) as [[R _]|(p & h' & _ & R & _)]; eauto.
  - intros p Hp. destruct (free_run h A L p K1 Hp) as (h' & _ & R & _). eauto.
  - exists A. split; [done|]. intros a kd b a' kd' b' x. by apply (live_disjoint h A L).
  - intros q Hq. apply K4. by left.
  - intros -> q. rewrite K4. split; [|by left]. intros [?|(a & kd & Ha & _)]; [done|]. destruct (K2 a kd Ha) as (b & Hb & _). set_solver.
Qed.

(** [malloc] returns a null pointer and changes nothing when the size is 0,
    or when no free block serves the request and the kernel pool has no room
    for the pages it needs; otherwise it returns a block that was not live,
    with room for the request and less than twice as much (at most a page
    more for a big block), which is live afterwards; the contents of the
    other live blocks are kept and pages enter use only as new arenas. *)
Theorem malloc_gives h A L size :
  heap_ok h A L → 0 ≤ size ≤ 2 ^ 32 - 4108 →
  (malloc descs_addr sizeof_desc size h = Ok (NULL, h) ∧ (size = 0 ∨ no_room (h_ram h) false (need size))) ∨
  ∃ p h' A', malloc descs_addr sizeof_desc size h = Ok (p, h') ∧ gives h A L size p h' A'.
Proof. apply malloc_run. Qed.

(** [free] of a live block makes exactly it free again: no assertion fails,
    the contents of the other live blocks are kept, and an arena goes back to
    the page allocator when, and only when, it has no live block left. *)
Theorem free_returns h A L p :
  heap_ok h A L → p ∈ L → ∃ h' A', Malloc.free descs_addr sizeof_desc p h = Ok ((), h') ∧ frees h A L p h' A'.
Proof. apply free_run. Qed.

(** The size that [malloc] computes for a big block overflows for requests of
    the last 11 sizes: when the kernel pool has one free page, a request for
    nearly 4 GB succeeds and gets a block of 4084 bytes. *)
Theorem malloc_wraps h A L size :
  heap_ok h A L → 2 ^ 32 - 11 ≤ size < 2 ^ 32 → ¬ no_room (h_ram h) false 1 →
  ∃ a h', malloc descs_addr sizeof_desc size h = Ok (a + sizeof_arena, h') ∧
    heap_ok h' (<[a := Big 1]> A) ({[a + sizeof_arena]} ∪ L) ∧ room (Big 1) = 4084 ∧ A !! a = None.
Proof.
  intros Hh Hs Hroom. pose proof (find_desc_run h A L size Hh ltac:(lia)) as F. destruct (find_desc size 0 (descs h)) as [k|] eqn:Ek; [lia|].
  destruct (big_pages_run h A L size 1) as [[_ ?]|(a & r1 & R & Hho)]; [done|lia|done| |lia|done|].
  { unfold sizeof_arena, PGSIZE. replace (u32 (size + 12)) with (size + 12 - 2 ^ 32) by (unfold wrapu; Z.to_euclidean_division_equations; lia).
    rewrite wrapu_id by (unfold in_u; lia). Z.to_euclidean_division_equations. lia. }
  assert (kind_ok (Big 1)) as Hk by (cbn; lia). exists a, (with_arena h r1 a (Big 1)). split; [done|]. split; [by apply (heap_grow h A L r1 a (Big 1))|].
  split; [done|]. by destruct (grow_page h A L r1 a (Big 1) Hh Hk Hho) as (_ & _ & ?).
Qed.
End Heap.

(** ** Witnesses: the machine of [demo_ram], right after [malloc_init] *)

Definition demo_heap : heap := Heap demo_ram ((λ k, Desc (bsize k) (bpa k) []) <$> seq 0 7).
Notation demo_descs := 0xc0040000.
Notation demo_desc := 44.

Lemma demo_heap_ok : heap_ok demo_descs demo_desc demo_heap ∅ ∅.
Proof. apply malloc_init_ok, demo_ram_wf. Defined.
Lemma demo_sizes : 0 < demo_desc ∧ 0 < demo_descs ∧ demo_descs + 10 * demo_desc ≤ 2 ^ 32.
Proof. lia. Defined.

Lemma one_live (p : Z) : p ∈ ({[p]} ∪ ∅ : gset Z).
Proof. set_solver. Qed.
Lemma none_live (p : Z) : ({[p]} ∪ ∅) ∖ {[p]} =@{gset Z} ∅.
Proof. set_solver. Qed.

Lemma malloc_history_witness : ∃ p h1 h2,
  malloc demo_descs demo_desc 100 demo_heap = Ok (p, h1) ∧ Malloc.free demo_descs demo_desc p h1 = Ok ((), h2) ∧
  ∀ q, allocated (h_ram h2) q ↔ allocated demo_ram q.
Proof.
  destruct demo_sizes as [S1 S2]. pose proof (client_init demo_descs demo_desc demo_ram demo_heap (malloc_init_run _)) as C0.
  destruct (malloc_run demo_descs demo_desc S1 S2 demo_heap ∅ ∅ 100 demo_heap_ok ltac:(lia)) as [[R _]|(p & h1 & A1 & R1 & G)].
  { apply (f_equal (λ x, match x with Ok (p, _) => p | Err _ => NULL end)) in R. vm_compute in R. discriminate. }
  pose proof (client_malloc _ _ _ _ _ 100 _ _ C0 ltac:(lia) R1) as C1. rewrite decide_False in C1 by apply G.
  pose proof (one_live p) as Hp. destruct (malloc_history demo_descs demo_desc S1 S2 demo_ram h1 _ demo_ram_wf C1) as (_ & F & _).
  destruct (F p Hp) as (h2 & R2). pose proof (client_free _ _ _ _ _ _ _ C1 Hp R2) as C2. exists p, h1, h2. split; [exact R1|]. split; [exact R2|].
  apply (malloc_history demo_descs demo_desc S1 S2 demo_ram h2 _ demo_ram_wf C2), none_live.
Defined.

Lemma malloc_gives_witness : ∃ p h' A', malloc demo_descs demo_desc 5000 demo_heap = Ok (p, h') ∧ gives demo_descs demo_desc demo_heap ∅ ∅ 5000 p h' A'.
Proof.
  destruct demo_sizes as [S1 S2]. destruct (malloc_gives demo_descs demo_desc S1 S2 demo_heap ∅ ∅ 5000 demo_heap_ok ltac:(lia)) as [[R _]|G]; [|exact G].
  apply (f_equal (λ x, match x with Ok (p, _) => p | Err _ => NULL end)) in R. vm_compute in R. discriminate.
Defined.

Lemma free_returns_witness : ∃ p h h' A A' L,
  malloc demo_descs demo_desc 100 demo_heap = Ok (p, h) ∧ Malloc.free demo_descs demo_desc p h = Ok ((), h') ∧ frees demo_descs demo_desc h A L p h' A'.
Proof.
  destruct demo_sizes as [S1 S2].
  destruct (malloc_run demo_descs demo_desc S1 S2 demo_heap ∅ ∅ 100 demo_heap_ok ltac:(lia)) as [[R _]|(p & h1 & A1 & R1 & G)].
  { apply (f_equal (λ x, match x with Ok (p, _) => p | Err _ => NULL end)) in R. vm_compute in R. discriminate. }
  destruct (free_returns demo_descs demo_desc S1 S2 h1 A1 ({[p]} ∪ ∅) p (gv_ok _ _ _ _ _ _ _ _ _ G) (one_live p)) as (h2 & A2 & R2 & F).
  exists p, h1, h2, A1, A2, ({[p]} ∪ ∅). split; [exact R1|]. split; [exact R2|exact F].
Defined.

Lemma malloc_wraps_witness : ∃ a h', malloc demo_descs demo_desc (2 ^ 32 - 1) demo_heap = Ok (a + sizeof_arena, h').
Proof.
  destruct demo_sizes as [S1 S2]. destruct (malloc_wraps demo_descs demo_desc S1 S2 demo_heap ∅ ∅ (2 ^ 32 - 1) demo_heap_ok ltac:(lia)) as (a & h' & R & _).
  - intros Hno. destruct (palloc_get_run demo_ram 0 1 demo_ram_wf ltac:(lia)) as [(p & r' & R & Hho)|[_ R]]; [by apply (Hno p), Hho; apply Hho|].
    apply (f_equal (λ x, match x with Ok (p, _) => p | Err _ => NULL end)) in R. vm_compute in R. discriminate.
  - eauto.
Defined.
End MallocSpec.
