(* ===== verification/Inode.v ===== *)
(** * Files on the disk (devices/block.c, filesys/inode.c, file.c, free-map.c)

    The file system device is the sequence of its sectors, of 512 bytes
    each; the driver behind it is not modelled.  Structures obtained from
    [malloc] and [calloc] are named by the number of the allocation;
    [malloc_ok] says which allocations succeed.  A freed structure is
    gone: following a pointer to it is undefined.  A buffer is the list of its
    bytes.  An offset is a 32-bit signed number, whose overflow is
    undefined. *)

From S2P Require Import Prelude Bitmap.
Import Bitmap.

Module Inode.

Definition BLOCK_SECTOR_SIZE : Z := 512.
Definition INODE_MAGIC : Z := 0x494e4f44.
Definition FREE_MAP_SECTOR : Z := 0.
Definition ROOT_DIR_SECTOR : Z := 1.
Definition NULL : Z := 0.

(** ** Data *)

(** [struct inode_disk], without the unused words. *)
Record inode_disk := InodeDisk { start : Z; length_ : Z; magic : Z }.

(** [struct inode]. *)
Record inode := Inode_ { sector : Z; open_cnt : Z; removed : bool; deny_write_cnt : Z; data : inode_disk }.

(** [struct file] and [struct dir]. *)
Record file := File { f_inode : Z; pos : Z; deny_write : bool }.
Record dir := Dir { d_inode : Z; d_pos : Z }.

Record fs := Fs {
  disk : list (list Z);
  free_map : bitmap;
  free_map_file : Z;
  inodes : gmap Z inode;
  open_inodes : list Z;
  files : gmap Z file;
  dirs : gmap Z dir;
  allocs : nat;
}.
Abbreviation F := (M fs).

Definition set_disk (d : list (list Z)) (s : fs) : fs :=
  Fs d (free_map s) (free_map_file s) (inodes s) (open_inodes s) (files s) (dirs s) (allocs s).
Definition set_free_map (b : bitmap) (s : fs) : fs :=
  Fs (disk s) b (free_map_file s) (inodes s) (open_inodes s) (files s) (dirs s) (allocs s).
Definition set_free_map_file (f : Z) (s : fs) : fs :=
  Fs (disk s) (free_map s) f (inodes s) (open_inodes s) (files s) (dirs s) (allocs s).
Definition set_inodes (m : gmap Z inode) (l : list Z) (s : fs) : fs :=
  Fs (disk s) (free_map s) (free_map_file s) m l (files s) (dirs s) (allocs s).
Definition set_files (m : gmap Z file) (s : fs) : fs :=
  Fs (disk s) (free_map s) (free_map_file s) (inodes s) (open_inodes s) m (dirs s) (allocs s).
Definition set_dirs (m : gmap Z dir) (s : fs) : fs :=
  Fs (disk s) (free_map s) (free_map_file s) (inodes s) (open_inodes s) (files s) m (allocs s).
Definition bump (s : fs) : fs :=
  Fs (disk s) (free_map s) (free_map_file s) (inodes s) (open_inodes s) (files s) (dirs s) (S (allocs s)).

(** An [off_t]. *)
Definition off (z : Z) : F Z := if decide (in_s 32 z) then mret z else fail Undef.

(** ** The device (block.c) *)

Definition check_sector (n : Z) : F unit :=
  s ← get; if decide (Z.of_nat (length (disk s)) ≤ n) then PANIC else mret ().
Definition block_read (n : Z) : F (list Z) :=
  check_sector n;; s ← get; lift (disk s !! Z.to_nat n) Undef.
Definition block_write (n : Z) (buf : list Z) : F unit :=
  check_sector n;; modify (λ s, set_disk (<[Z.to_nat n := take 512 buf]> (disk s)) s).
Definition block_size : F Z := gets (λ s, Z.of_nat (length (disk s))).

Definition encode_inode (d : inode_disk) : list Z :=
  le32 (start d) ++ le32 (length_ d) ++ le32 (magic d) ++ replicate 500 0.
Definition decode_inode (bs : list Z) : inode_disk :=
  InodeDisk (of_le32 bs) (i32 (of_le32 (drop 4 bs))) (of_le32 (drop 8 bs)).

Section Inodes.
Context (malloc_ok : nat → bool).

(** [malloc] and [calloc]: a new address, or [NULL]. *)
Definition alloc : F Z :=
  s ← get; put (bump s);; mret (if malloc_ok (allocs s) then Z.of_nat (allocs s) + 1 else NULL).

Definition get_inode (i : Z) : F inode := s ← get; lift (inodes s !! i) Undef.
Definition put_inode (i : Z) (x : inode) : F unit := modify (λ s, set_inodes (<[i := x]> (inodes s)) (open_inodes s) s).

(** ** Reading and writing (inode.c) *)

Definition bytes_to_sectors (size : Z) : F Z :=
  n ← off (size + BLOCK_SECTOR_SIZE); n ← off (n - 1); mret (Z.quot n BLOCK_SECTOR_SIZE).

Definition byte_to_sector (i : inode) (pos : Z) : Z :=
  if decide (pos < length_ (data i)) then u32 (start (data i) + u32 (Z.quot pos BLOCK_SECTOR_SIZE)) else 2 ^ 32 - 1.

Definition inode_length (i : Z) : F Z := x ← get_inode i; mret (length_ (data x)).

(** Bytes that are left in the inode and in the sector, and of those the
    ones to transfer. *)
Definition chunk (len size offset : Z) : F Z :=
  let sector_ofs := Z.rem offset BLOCK_SECTOR_SIZE in
  inode_left ← off (len - offset);
  let sector_left := BLOCK_SECTOR_SIZE - sector_ofs in
  let min_left := if decide (inode_left < sector_left) then inode_left else sector_left in
  mret (if decide (size < min_left) then size else min_left).

(** [bounce]: the bounce buffer has been allocated. *)
Definition need_bounce (bounce : bool) : F bool :=
  if bounce then mret true else b ← alloc; mret (bool_decide (b ≠ NULL)).

(** The bytes read, from [bytes_read = length acc] on. *)
Fixpoint read_loop (fuel : nat) (x : inode) (size offset : Z) (bounce : bool) (acc : list Z) : F (list Z) :=
  match fuel with
  | O => fail NoFuel
  | S fuel =>
      if decide (0 < size) then
        let sector_idx := byte_to_sector x offset in
        let sector_ofs := Z.rem offset BLOCK_SECTOR_SIZE in
        chunk_size ← chunk (length_ (data x)) size offset;
        if decide (chunk_size ≤ 0) then mret acc else
        if decide (sector_ofs = 0 ∧ chunk_size = BLOCK_SECTOR_SIZE) then
          buf ← block_read sector_idx;
          offset ← off (offset + chunk_size);
          read_loop fuel x (size - chunk_size) offset bounce (acc ++ buf)
        else
          b ← need_bounce bounce;
          if (b : bool) then
            buf ← block_read sector_idx;
            offset ← off (offset + chunk_size);
            read_loop fuel x (size - chunk_size) offset true
              (acc ++ take (Z.to_nat chunk_size) (drop (Z.to_nat sector_ofs) buf))
          else mret acc
      else mret acc
  end.

Definition inode_read_at (i size offset : Z) : F (list Z) :=
  x ← get_inode i; read_loop (S (Z.to_nat size)) x size offset false [].

(** The number of bytes written. *)
Fixpoint write_loop (fuel : nat) (x : inode) (buffer : list Z) (size offset : Z) (bounce : bool) (written : Z) : F Z :=
  match fuel with
  | O => fail NoFuel
  | S fuel =>
      if decide (0 < size) then
        let sector_idx := byte_to_sector x offset in
        let sector_ofs := Z.rem offset BLOCK_SECTOR_SIZE in
        let sector_left := BLOCK_SECTOR_SIZE - sector_ofs in
        chunk_size ← chunk (length_ (data x)) size offset;
        if decide (chunk_size ≤ 0) then mret written else
        let part := take (Z.to_nat chunk_size) (drop (Z.to_nat written) buffer) in
        if decide (sector_ofs = 0 ∧ chunk_size = BLOCK_SECTOR_SIZE) then
          block_write sector_idx part;;
          offset ← off (offset + chunk_size);
          write_loop fuel x buffer (size - chunk_size) offset bounce (written + chunk_size)
        else
          b ← need_bounce bounce;
          if (b : bool) then
            buf ← (if decide (sector_ofs > 0 ∨ chunk_size < sector_left) then block_read sector_idx
                   else mret (replicate 512 0));
            block_write sector_idx
              (take (Z.to_nat sector_ofs) buf ++ part ++ drop (Z.to_nat (sector_ofs + chunk_size)) buf);;
            offset ← off (offset + chunk_size);
            write_loop fuel x buffer (size - chunk_size) offset true (written + chunk_size)
          else mret written
      else mret written
  end.

Definition inode_write_at (i : Z) (buffer : list Z) (size offset : Z) : F Z :=
  x ← get_inode i;
  if decide (deny_write_cnt x ≠ 0) then mret 0 else
  write_loop (S (Z.to_nat size)) x buffer size offset false 0.

(** ** Files at an offset, and the free map on the disk *)

Definition get_file (f : Z) : F file := s ← get; lift (files s !! f) Undef.
Definition put_file (f : Z) (x : file) : F unit := modify (λ s, set_files (<[f := x]> (files s)) s).

Definition file_read_at (f size ofs : Z) : F (list Z) := x ← get_file f; inode_read_at (f_inode x) size ofs.
Definition file_write_at (f : Z) (buffer : list Z) (size ofs : Z) : F Z :=
  x ← get_file f; inode_write_at (f_inode x) buffer size ofs.

Definition with_free_map {A} (f : M bitmap A) : F A := λ s,
  match f (free_map s) with
  | Ok (a, b) => Ok (a, set_free_map b s)
  | Err e => Err e
  end.

(** [bitmap_write] and [bitmap_read] (bitmap.c) *)
Definition bitmap_write (f : Z) : F bool :=
  b ← gets free_map;
  let size := i32 (byte_cnt (bit_cnt b)) in
  n ← file_write_at f (concat (le32 <$> bits b)) size 0; mret (bool_decide (n = size)).

(** The words whose bytes start with [bs], the others as they were. *)
Fixpoint words_from (bs : list Z) (old : list Z) : list Z :=
  match old with
  | [] => []
  | w :: old => of_le32 (take 4 bs ++ drop (length (take 4 bs)) (le32 w)) :: words_from (drop 4 bs) old
  end.
Definition bitmap_read (f : Z) : F bool :=
  b ← gets free_map;
  if decide (bit_cnt b > 0) then
    let size := i32 (byte_cnt (bit_cnt b)) in
    bs ← file_read_at f size 0;
    let last := Z.to_nat (elem_cnt (bit_cnt b) - 1) in
    modify (set_free_map (Bitmap_ (bit_cnt b) (alter (λ w, Z.land w (last_mask b)) last (words_from bs (bits b)))));;
    mret (bool_decide (Z.of_nat (length bs) = size))
  else mret true.

(** ** The free map (free-map.c) *)

(** The sector, or nothing. *)
Definition free_map_allocate (cnt : Z) : F (option Z) :=
  sector ← with_free_map (bitmap_scan_and_flip 0 cnt false);
  f ← gets free_map_file;
  sector ← (if decide (sector ≠ BITMAP_ERROR ∧ f ≠ NULL) then
              ok ← bitmap_write f;
              if (ok : bool) then mret sector
              else with_free_map (bitmap_set_multiple sector cnt false);; mret BITMAP_ERROR
            else mret sector);
  mret (if decide (sector ≠ BITMAP_ERROR) then Some sector else None).

Definition free_map_release (sector cnt : Z) : F unit :=
  all ← with_free_map (bitmap_all sector cnt);
  ASSERT all;;
  with_free_map (bitmap_set_multiple sector cnt false);;
  f ← gets free_map_file;
  bitmap_write f;;
  mret ().

(** ** Inodes (inode.c) *)

(** [for (i = 0; i < sectors; i++) block_write (fs_device, start + i, zeros)] *)
Fixpoint zero_sectors (n : nat) (sector : Z) : F unit :=
  match n with
  | O => mret ()
  | S n => block_write (u32 sector) (replicate 512 0);; zero_sectors n (sector + 1)
  end.

Definition inode_create (sector length : Z) : F bool :=
  ASSERT (bool_decide (0 ≤ length));;
  a ← alloc;
  if decide (a ≠ NULL) then
    sectors ← bytes_to_sectors length;
    r ← free_map_allocate sectors;
    match r with
    | Some start =>
        block_write sector (encode_inode (InodeDisk start length INODE_MAGIC));;
        (if decide (sectors > 0) then zero_sectors (Z.to_nat sectors) start else mret ());;
        mret true
    | None => mret false
    end
  else mret false.

(** The open inode of a sector. *)
Fixpoint find_open (sector_ : Z) (l : list Z) (s : fs) : option Z :=
  match l with
  | [] => None
  | i :: l =>
      match inodes s !! i with
      | Some x => if decide (sector x = sector_) then Some i else find_open sector_ l s
      | None => None
      end
  end.

Definition inode_reopen (i : Z) : F Z :=
  if decide (i ≠ NULL) then
    x ← get_inode i; put_inode i (Inode_ (sector x) (open_cnt x + 1) (removed x) (deny_write_cnt x) (data x));; mret i
  else mret i.

Definition inode_open (sector : Z) : F Z :=
  s ← get;
  match find_open sector (open_inodes s) s with
  | Some i => inode_reopen i
  | None =>
      i ← alloc;
      if decide (i = NULL) then mret NULL else
      d ← block_read sector;
      modify (λ s, set_inodes (<[i := Inode_ sector 1 false 0 (decode_inode d)]> (inodes s)) (i :: open_inodes s) s);;
      mret i
  end.

Definition inode_get_inumber (i : Z) : F Z := x ← get_inode i; mret (sector x).

Definition inode_close (i : Z) : F unit :=
  if decide (i = NULL) then mret () else
  x ← get_inode i;
  put_inode i (Inode_ (sector x) (open_cnt x - 1) (removed x) (deny_write_cnt x) (data x));;
  if decide (open_cnt x - 1 = 0) then
    modify (λ s, set_inodes (inodes s) (filter (λ j, j ≠ i) (open_inodes s)) s);;
    (if removed x then
       free_map_release (sector x) 1;;
       n ← bytes_to_sectors (length_ (data x));
       free_map_release (start (data x)) n
     else mret ());;
    modify (λ s, set_inodes (delete i (inodes s)) (open_inodes s) s)
  else mret ().

Definition inode_remove (i : Z) : F unit :=
  x ← get_inode i; put_inode i (Inode_ (sector x) (open_cnt x) true (deny_write_cnt x) (data x)).

Definition inode_deny_write (i : Z) : F unit :=
  x ← get_inode i;
  put_inode i (Inode_ (sector x) (open_cnt x) (removed x) (deny_write_cnt x + 1) (data x));;
  ASSERT (bool_decide (deny_write_cnt x + 1 ≤ open_cnt x)).

Definition inode_allow_write (i : Z) : F unit :=
  x ← get_inode i;
  ASSERT (bool_decide (0 < deny_write_cnt x));;
  ASSERT (bool_decide (deny_write_cnt x ≤ open_cnt x));;
  put_inode i (Inode_ (sector x) (open_cnt x) (removed x) (deny_write_cnt x - 1) (data x)).

(** ** Open files (file.c) *)

Definition file_open (i : Z) : F Z :=
  f ← alloc;
  if decide (i ≠ NULL ∧ f ≠ NULL) then put_file f (File i 0 false);; mret f
  else inode_close i;; mret NULL.

Definition file_reopen (f : Z) : F Z := x ← get_file f; i ← inode_reopen (f_inode x); file_open i.

Definition file_deny_write (f : Z) : F unit :=
  x ← get_file f;
  if deny_write x then mret () else put_file f (File (f_inode x) (pos x) true);; inode_deny_write (f_inode x).

Definition file_allow_write (f : Z) : F unit :=
  x ← get_file f;
  if deny_write x then put_file f (File (f_inode x) (pos x) false);; inode_allow_write (f_inode x) else mret ().

Definition file_close (f : Z) : F unit :=
  if decide (f = NULL) then mret () else
  file_allow_write f;;
  x ← get_file f; inode_close (f_inode x);;
  modify (λ s, set_files (delete f (files s)) s).

Definition file_get_inode (f : Z) : F Z := x ← get_file f; mret (f_inode x).

Definition file_read (f size : Z) : F (list Z) :=
  x ← get_file f;
  bs ← inode_read_at (f_inode x) size (pos x);
  p ← off (pos x + Z.of_nat (length bs));
  put_file f (File (f_inode x) p (deny_write x));; mret bs.

Definition file_write (f : Z) (buffer : list Z) (size : Z) : F Z :=
  x ← get_file f;
  n ← inode_write_at (f_inode x) buffer size (pos x);
  p ← off (pos x + n);
  put_file f (File (f_inode x) p (deny_write x));; mret n.

Definition file_length (f : Z) : F Z := x ← get_file f; inode_length (f_inode x).

Definition file_seek (f new_pos : Z) : F unit :=
  ASSERT (bool_decide (0 ≤ new_pos));;
  x ← get_file f; put_file f (File (f_inode x) new_pos (deny_write x)).

Definition file_tell (f : Z) : F Z := x ← get_file f; mret (pos x).

(** ** The free map's file (free-map.c) *)

(** The words of a new bitmap hold what [malloc] left in them. *)
Definition free_map_init (storage : list Z) : F unit :=
  n ← block_size;
  a ← alloc;
  if decide (a = NULL) then PANIC else
  b ← alloc;
  match bitmap_create (Some ()) (if decide (b ≠ NULL) then Some storage else None) n with
  | Ok (Some m) =>
      modify (set_free_map m);;
      with_free_map (bitmap_mark FREE_MAP_SECTOR);; with_free_map (bitmap_mark ROOT_DIR_SECTOR)
  | Ok None => PANIC
  | Err e => fail e
  end.

Definition free_map_open : F unit :=
  i ← inode_open FREE_MAP_SECTOR; f ← file_open i;
  modify (set_free_map_file f);;
  if decide (f = NULL) then PANIC else
  ok ← bitmap_read f; if (ok : bool) then mret () else PANIC.

Definition free_map_close : F unit := f ← gets free_map_file; file_close f.

Definition free_map_create : F unit :=
  b ← gets free_map;
  ok ← inode_create FREE_MAP_SECTOR (i32 (bitmap_file_size b));
  if (ok : bool) then
    i ← inode_open FREE_MAP_SECTOR; f ← file_open i;
    modify (set_free_map_file f);;
    if decide (f = NULL) then PANIC else
    ok ← bitmap_write f; if (ok : bool) then mret () else PANIC
  else PANIC.

(** [inode_init] *)
Definition inode_init : F unit := modify (λ s, set_inodes (inodes s) [] s).
End Inodes.

End Inode.
