(* ===== verification/InodeSpec.v ===== *)
(** * Files on the disk: theorems

    What is written to an inode is read back; bytes outside the range, and
    sectors of others, are kept. *)

From S2P Require Import Prelude Bitmap Inode.
Import Bitmap Inode.

Module InodeSpec.

(** ** Well-formed inodes *)

(** Sectors of 512 bytes, and fewer than the numbers a sector can have. *)
Record disk_wf (d : list (list Z)) : Prop := {
  dk_sectors : Forall (λ s, length s = 512%nat) d;
  dk_size : Z.of_nat (length d) < 2 ^ 32 - 1;
}.

(** The data of the inode lie on the disk. *)
Record inode_wf (d : list (list Z)) (x : inode) : Prop := {
  in_length : 0 ≤ length_ (data x) < 2 ^ 31;
  in_start : 0 ≤ start (data x);
  in_end : 512 * start (data x) + length_ (data x) ≤ 512 * Z.of_nat (length d);
}.

(** The byte at an offset, and the sector it is in. *)
Definition sector_of (x : inode) (o : Z) : Z := start (data x) + o / 512.
Definition byte (d : list (list Z)) (x : inode) (o : Z) : option Z :=
  s ← d !! Z.to_nat (sector_of x o); s !! Z.to_nat (o mod 512).

Lemma byte_to_sector_run d x o :
  disk_wf d → inode_wf d x → 0 ≤ o < length_ (data x) →
  byte_to_sector x o = sector_of x o ∧ 0 ≤ sector_of x o < Z.of_nat (length d).
Proof.
  intros [_ Hd] [Hl Hs He] Ho. unfold byte_to_sector, sector_of, BLOCK_SECTOR_SIZE. rewrite decide_True by lia.
  rewrite Z.quot_div_nonneg by lia.
  assert (0 ≤ o / 512 ∧ 512 * (o / 512) ≤ o) by (Z.to_euclidean_division_equations; lia).
  rewrite (wrapu_id 32 (o / 512)) by (unfold in_u; lia). rewrite wrapu_id by (unfold in_u; lia). lia.
Qed.

Lemma sector_lookup d n : disk_wf d → 0 ≤ n < Z.of_nat (length d) → ∃ s, d !! Z.to_nat n = Some s ∧ length s = 512%nat.
Proof.
  intros [Hd _] Hn. destruct (lookup_lt_is_Some_2 d (Z.to_nat n)) as [s Hs]; [lia|]. exists s. split; [done|].
  by eapply Forall_lookup_1 in Hd.
Qed.

Lemma block_read_run s n b : disk s !! Z.to_nat n = Some b → 0 ≤ n → block_read n s = Ok (b, s).
Proof.
  intros Hb Hn. pose proof (lookup_lt_Some _ _ _ Hb). unfold block_read, check_sector, get, mbind, M_bind.
  rewrite decide_False by lia. cbn. by rewrite Hb.
Qed.

Lemma block_write_run s n b :
  0 ≤ n < Z.of_nat (length (disk s)) → block_write n b s = Ok ((), set_disk (<[Z.to_nat n := take 512 b]> (disk s)) s).
Proof.
  intros Hn. unfold block_write, check_sector, get, mbind, M_bind. rewrite decide_False by lia. done.
Qed.

Lemma off_run z s : in_s 32 z → off z s = Ok (z, s).
Proof. intros H. unfold off. by rewrite decide_True. Qed.

(** How many bytes the next round transfers. *)
Definition chunk_of (len size offset : Z) : Z := Z.min size (Z.min (len - offset) (512 - offset mod 512)).

Lemma chunk_run len size offset s :
  0 ≤ len < 2 ^ 31 → 0 ≤ offset < 2 ^ 31 → chunk len size offset s = Ok (chunk_of len size offset, s).
Proof.
  intros Hl Ho. unfold chunk. rewrite (bind_Ok _ _ _ _ _ (off_run (len - offset) s ltac:(unfold in_s; lia))).
  unfold BLOCK_SECTOR_SIZE, chunk_of. rewrite Z.rem_mod_nonneg by lia. repeat case_decide; unfold mret, M_ret; do 2 f_equal; lia.
Qed.

(** Byte [k] of a chunk that lies in one sector. *)
Lemma chunk_byte d x o k b :
  0 ≤ o → 0 ≤ k → o mod 512 + k < 512 → d !! Z.to_nat (sector_of x o) = Some b →
  byte d x (o + k) = b !! Z.to_nat (o mod 512 + k).
Proof.
  intros Ho Hk Hs Hb. unfold byte, sector_of in *.
  assert ((o + k) / 512 = o / 512 ∧ (o + k) mod 512 = o mod 512 + k) as [E1 E2].
  { Z.to_euclidean_division_equations. lia. }
  by rewrite E1, Hb, E2.
Qed.

Section Loops.
Context (malloc_ok : nat → bool).

Lemma need_bounce_run b s :
  ∃ r s', need_bounce malloc_ok b s = Ok (r, s') ∧ disk s' = disk s ∧ (s' = s ∨ s' = bump s) ∧
          ((∀ n, malloc_ok n = true) → r = true) ∧ (b = true → r = true).
Proof.
  unfold need_bounce. destruct b; [exists true, s; naive_solver|].
  unfold alloc, get, put, mbind, M_bind. cbn. eexists _, (bump s). split; [done|]. split; [done|]. split; [by right|].
  split; [|done]. intros H. rewrite H. apply bool_decide_true. unfold NULL. lia.
Qed.

(** The states a transfer without writing leads to: allocations apart, nothing changes. *)
Definition same_but_allocs (s s' : fs) : Prop := ∃ n, s' = Nat.iter n bump s.

Lemma same_refl s : same_but_allocs s s.
Proof. by exists 0%nat. Qed.
Lemma same_trans s1 s2 s3 : same_but_allocs s1 s2 → same_but_allocs s2 s3 → same_but_allocs s1 s3.
Proof. intros [n ->] [m ->]. exists (m + n)%nat. by rewrite Nat.iter_add. Qed.
Lemma same_disk s s' : same_but_allocs s s' → disk s' = disk s ∧ inodes s' = inodes s ∧ files s' = files s.
Proof. intros [n ->]. induction n as [|n IH]; [done|]. exact IH. Qed.
Lemma bounce_same s s' : s' = s ∨ s' = bump s → same_but_allocs s s'.
Proof. intros [->| ->]; [apply same_refl|by exists 1%nat]. Qed.

(** [bs] are the bytes from [offset] on. *)
Definition bytes_from (d : list (list Z)) (x : inode) (offset : Z) (bs : list Z) : Prop :=
  ∀ k, (k < length bs)%nat → bs !! k = byte d x (offset + Z.of_nat k).

Lemma bytes_from_app d x o xs ys :
  bytes_from d x o xs → bytes_from d x (o + Z.of_nat (length xs)) ys → bytes_from d x o (xs ++ ys).
Proof.
  intros Hx Hy k Hk. rewrite length_app in Hk. destruct (decide (k < length xs)%nat).
  - rewrite lookup_app_l by done. by apply Hx.
  - rewrite lookup_app_r by lia. rewrite Hy by lia. f_equal. lia.
Qed.

Lemma bytes_from_chunk d x o c b :
  0 ≤ o → 0 ≤ c → o mod 512 + c ≤ 512 → d !! Z.to_nat (sector_of x o) = Some b → length b = 512%nat →
  bytes_from d x o (take (Z.to_nat c) (drop (Z.to_nat (o mod 512)) b)) ∧
  length (take (Z.to_nat c) (drop (Z.to_nat (o mod 512)) b)) = Z.to_nat c.
Proof.
  intros Ho Hc Hs Hb Hl. assert (0 ≤ o mod 512) by (apply Z.mod_pos_bound; lia).
  assert (length (take (Z.to_nat c) (drop (Z.to_nat (o mod 512)) b)) = Z.to_nat c) as Hlen by (rewrite length_take, length_drop; lia).
  split; [|done]. intros k Hk. rewrite Hlen in Hk. rewrite lookup_take_lt, lookup_drop by lia.
  rewrite (chunk_byte d x o (Z.of_nat k) b) by (done || lia). f_equal. lia.
Qed.

(** How many bytes of a request lie in the inode. *)
Definition avail (len size offset : Z) : Z := Z.max 0 (Z.min size (len - offset)).

Lemma avail_step len size offset :
  0 < size → 0 ≤ offset → 0 < chunk_of len size offset →
  avail len size offset = chunk_of len size offset + avail len (size - chunk_of len size offset) (offset + chunk_of len size offset).
Proof. intros. unfold avail, chunk_of in *. pose proof (Z.mod_pos_bound offset 512). lia. Qed.

Lemma avail_end len size offset : 0 ≤ offset → size ≤ 0 ∨ chunk_of len size offset ≤ 0 → avail len size offset = 0.
Proof. intros. unfold avail, chunk_of in *. pose proof (Z.mod_pos_bound offset 512). lia. Qed.

(** A chunk is of the inode and of one sector. *)
Lemma chunk_of_range len size offset (c := chunk_of len size offset) :
  0 ≤ offset → 0 < c → offset + c ≤ len ∧ offset mod 512 + c ≤ 512 ∧ c ≤ size ∧ 0 ≤ offset mod 512.
Proof. intros. unfold c, chunk_of in *. pose proof (Z.mod_pos_bound offset 512). lia. Qed.

Lemma read_loop_run fuel x size offset bounce acc s :
  disk_wf (disk s) → inode_wf (disk s) x → 0 ≤ offset < 2 ^ 31 → (Z.to_nat size < fuel)%nat →
  ∃ bs s', read_loop malloc_ok fuel x size offset bounce acc s = Ok (acc ++ bs, s') ∧ same_but_allocs s s' ∧
    bytes_from (disk s) x offset bs ∧ Z.of_nat (length bs) ≤ avail (length_ (data x)) size offset ∧
    ((∀ n, malloc_ok n = true) → Z.of_nat (length bs) = avail (length_ (data x)) size offset).
Proof.
  revert size offset bounce acc s. induction fuel as [|fuel IH]; intros size offset bounce acc s Hd Hx Ho Hf; [lia|].
  pose proof (in_length _ _ Hx) as Hlen. cbn [read_loop].
  assert (∀ s0 : fs, same_but_allocs s s0 →
    ∃ bs s', Ok (acc, s0) = Ok (acc ++ bs, s') ∧ same_but_allocs s s' ∧ bytes_from (disk s) x offset bs ∧
      Z.of_nat (length bs) ≤ avail (length_ (data x)) size offset ∧
      (avail (length_ (data x)) size offset = 0 → Z.of_nat (length bs) = avail (length_ (data x)) size offset)) as Hstop.
  { intros s0 Hs0. exists [], s0. rewrite app_nil_r. split; [done|]. split; [done|]. split; [intros k Hk; cbn in Hk; lia|].
    cbn. unfold avail. lia. }
  case_decide as Hsz.
  2:{ destruct (Hstop s (same_refl s)) as (bs & s' & ? & ? & ? & ? & Hz). exists bs, s'. split_and!; [done..|].
      intros _. apply Hz, avail_end; lia. }
  rewrite (bind_Ok _ _ _ _ _ (chunk_run _ size offset s Hlen ltac:(lia))). cbv zeta. set (c := chunk_of _ size offset).
  case_decide as Hc.
  { destruct (Hstop s (same_refl s)) as (bs & s' & ? & ? & ? & ? & Hz). exists bs, s'. split_and!; [done..|].
    intros _. apply Hz, avail_end; [lia|by right]. }
  destruct (chunk_of_range (length_ (data x)) size offset) as (Hr1 & Hr2 & Hr3 & Hr4); [lia|fold c; lia|]. fold c in Hr1, Hr2, Hr3.
  destruct (byte_to_sector_run (disk s) x offset Hd Hx ltac:(lia)) as [-> Hn].
  destruct (sector_lookup (disk s) _ Hd Hn) as (b & Hb & Hlb).
  pose proof (avail_step (length_ (data x)) size offset ltac:(lia) ltac:(lia) ltac:(fold c; lia)) as Hav. fold c in Hav.
  unfold BLOCK_SECTOR_SIZE. rewrite Z.rem_mod_nonneg by lia.
  destruct (bytes_from_chunk (disk s) x offset c b ltac:(lia) ltac:(lia) Hr2 Hb Hlb) as [Hbf Hbl].
  set (part := take (Z.to_nat c) (drop (Z.to_nat (offset mod 512)) b)) in *.
  (* the rest of the loop, from a state with the same disk *)
  assert (∀ s1 bn, same_but_allocs s s1 →
    ∃ bs s', read_loop malloc_ok fuel x (size - c) (offset + c) bn (acc ++ part) s1 = Ok (acc ++ bs, s') ∧ same_but_allocs s s' ∧
      bytes_from (disk s) x offset bs ∧ Z.of_nat (length bs) ≤ avail (length_ (data x)) size offset ∧
      ((∀ n, malloc_ok n = true) → Z.of_nat (length bs) = avail (length_ (data x)) size offset)) as Hnext.
  { intros s1 bn Hs1. destruct (same_disk _ _ Hs1) as (Ed & _).
    destruct (IH (size - c) (offset + c) bn (acc ++ part) s1) as (bs & s' & H1 & H2 & H3 & H4 & H5); [by rewrite Ed..|lia|lia|].
    rewrite Ed in H3. exists (part ++ bs), s'. rewrite app_assoc, length_app. split_and!; [done|by eapply same_trans| |lia|].
    - apply bytes_from_app; [done|]. rewrite Hbl, Z2Nat.id by lia. done.
    - intros Hm. specialize (H5 Hm). lia. }
  case_decide as Hfull.
  - rewrite (bind_Ok _ _ _ _ _ (block_read_run s _ b Hb ltac:(lia))).
    rewrite (bind_Ok _ _ _ _ _ (off_run (offset + c) s ltac:(unfold in_s; lia))).
    replace (acc ++ b) with (acc ++ part).
    2:{ f_equal. unfold part. destruct Hfull as [-> ->]. change (Z.to_nat 0) with 0%nat. rewrite drop_0. apply take_ge. lia. }
    by apply Hnext, same_refl.
  - destruct (need_bounce_run bounce s) as (r & s1 & Hnb & Ed & Hs1 & Hm & _). rewrite (bind_Ok _ _ _ _ _ Hnb).
    apply bounce_same in Hs1. destruct r.
    + rewrite (bind_Ok _ _ _ _ _ (block_read_run s1 _ b ltac:(by rewrite Ed) ltac:(lia))).
      rewrite (bind_Ok _ _ _ _ _ (off_run (offset + c) s1 ltac:(unfold in_s; lia))). by apply Hnext.
    + destruct (Hstop s1 Hs1) as (bs & s' & ? & ? & ? & ? & Hz). exists bs, s'. split_and!; [done..|].
      intros Hall. by specialize (Hm Hall).
Qed.

(** ** Writing *)

(** The disk [d'] differs from [d] in the [n] bytes from [offset] on, which
    are [bs], and in no other sector than those of the inode. *)
Record overwritten (d d' : list (list Z)) (x : inode) (offset : Z) (bs : list Z) : Prop := {
  ow_wf : disk_wf d';
  ow_length : length d' = length d;
  ow_bytes : ∀ o, 0 ≤ o < length_ (data x) → byte d' x o =
    if decide (offset ≤ o < offset + Z.of_nat (length bs)) then bs !! Z.to_nat (o - offset) else byte d x o;
  ow_sectors : ∀ m : nat, (∀ o, 0 ≤ o < length_ (data x) → Z.to_nat (sector_of x o) ≠ m) → d' !! m = d !! m;
}.

Lemma overwritten_nil d x offset : disk_wf d → overwritten d d x offset [].
Proof. intros. constructor; [done..| |done]. intros o _. by rewrite decide_False by (cbn; lia). Qed.

Lemma overwritten_app d d1 d2 x o xs ys :
  overwritten d d1 x o xs → overwritten d1 d2 x (o + Z.of_nat (length xs)) ys → overwritten d d2 x o (xs ++ ys).
Proof.
  intros [W1 L1 B1 S1] [W2 L2 B2 S2]. constructor; [done|congruence| |].
  - intros p Hp. rewrite B2, B1, length_app by done. repeat case_decide; try lia.
    + rewrite lookup_app_r by lia. f_equal. lia.
    + by rewrite lookup_app_l by lia.
    + done.
  - intros m Hm. by rewrite S2, S1.
Qed.

(** One sector with the chunk in it. *)
Lemma overwritten_chunk d x o b part :
  disk_wf d → inode_wf d x → 0 ≤ o → (0 < length part)%nat → o + Z.of_nat (length part) ≤ length_ (data x) →
  o mod 512 + Z.of_nat (length part) ≤ 512 → d !! Z.to_nat (sector_of x o) = Some b → length b = 512%nat →
  let b' := take (Z.to_nat (o mod 512)) b ++ part ++ drop (Z.to_nat (o mod 512 + Z.of_nat (length part))) b in
  overwritten d (<[Z.to_nat (sector_of x o) := take 512 b']> d) x o part.
Proof.
  intros Hd Hx Ho Hp Hin Hs Hb Hlb b'. pose proof (Z.mod_pos_bound o 512 ltac:(lia)) as Hm.
  destruct (byte_to_sector_run d x o Hd Hx ltac:(lia)) as [_ Hn].
  assert (length b' = 512%nat) as Hlb' by (unfold b'; rewrite !length_app, length_take, length_drop; lia).
  rewrite take_ge by lia. assert (Z.to_nat (sector_of x o) < length d)%nat by lia.
  constructor.
  - destruct Hd as [Hd1 Hd2]. constructor; [by apply Forall_insert|by rewrite length_insert].
  - apply length_insert.
  - intros p Hpr. unfold byte. pose proof (in_start _ _ Hx).
    destruct (decide (p / 512 = o / 512)) as [E|E].
    + replace (sector_of x p) with (sector_of x o) by (unfold sector_of; by rewrite E).
      rewrite list_lookup_insert_eq, Hb by done. cbn.
      assert (p mod 512 = p - o + o mod 512) as Epm by (Z.to_euclidean_division_equations; lia). rewrite Epm. unfold b'.
      assert (0 ≤ p - o + o mod 512 < 512) as Hpm by (rewrite <- Epm; apply Z.mod_pos_bound; lia).
      assert (length (take (Z.to_nat (o mod 512)) b) = Z.to_nat (o mod 512)) as Hlt by (rewrite length_take; lia).
      case_decide as Hc.
      * rewrite lookup_app_r by lia. rewrite Hlt, lookup_app_l by lia. f_equal. lia.
      * destruct (decide (p < o)) as [Hpo|Hpo].
        -- rewrite lookup_app_l, lookup_take_lt by lia. done.
        -- rewrite lookup_app_r by lia. rewrite Hlt, lookup_app_r by lia. rewrite lookup_drop. f_equal. lia.
    + rewrite list_lookup_insert_ne.
      2:{ unfold sector_of. assert (0 ≤ p / 512 ∧ 0 ≤ o / 512) by (split; apply Z.div_pos; lia). lia. }
      rewrite decide_False; [done|]. intros Hc. apply E. Z.to_euclidean_division_equations. lia.
  - intros m Hmm. rewrite list_lookup_insert_ne; [done|]. apply (Hmm o). lia.
Qed.

(** The states writing leads to. *)
Definition same_but_disk (s s' : fs) : Prop := ∃ n, s' = Nat.iter n bump (set_disk (disk s') s).

Lemma iter_bump_disk n d s : set_disk d (Nat.iter n bump s) = Nat.iter n bump (set_disk d s).
Proof.
  induction n as [|n IH]; [done|]. change (bump (set_disk d (Nat.iter n bump s)) = bump (Nat.iter n bump (set_disk d s))).
  by rewrite IH.
Qed.
Lemma set_disk_self s : set_disk (disk s) s = s.
Proof. by destruct s. Qed.
Lemma sbd_refl s : same_but_disk s s.
Proof. exists 0%nat. by rewrite set_disk_self. Qed.
Lemma sbd_trans s1 s2 s3 : same_but_disk s1 s2 → same_but_disk s2 s3 → same_but_disk s1 s3.
Proof.
  intros [n E1] [m E2]. exists (m + n)%nat. rewrite Nat.iter_add, <- iter_bump_disk. rewrite E2 at 1. f_equal.
  rewrite E1 at 1. rewrite !iter_bump_disk. done.
Qed.
Lemma sbd_allocs s s' : same_but_allocs s s' → same_but_disk s s'.
Proof. intros [n ->]. exists n. destruct (same_disk s (Nat.iter n bump s)) as [-> _]; [by exists n|]. by rewrite set_disk_self. Qed.
Lemma sbd_set_disk s d : same_but_disk s (set_disk d s).
Proof. by exists 0%nat. Qed.

(** What [n] bytes written from [offset] on leave. *)
Definition wrote (s s' : fs) (x : inode) (offset : Z) (bs : list Z) : Prop :=
  same_but_disk s s' ∧ overwritten (disk s) (disk s') x offset bs.

Lemma wrote_app s s1 s2 x o xs ys :
  wrote s s1 x o xs → wrote s1 s2 x (o + Z.of_nat (length xs)) ys → wrote s s2 x o (xs ++ ys).
Proof. intros [A1 B1] [A2 B2]. split; [by eapply sbd_trans|by eapply overwritten_app]. Qed.

(** One round, in a state whose disk is that of [s]. *)
Lemma write_chunk_run s s1 x o b part buf :
  disk_wf (disk s) → inode_wf (disk s) x → same_but_allocs s s1 → 0 ≤ o → (0 < length part)%nat →
  o + Z.of_nat (length part) ≤ length_ (data x) → o mod 512 + Z.of_nat (length part) ≤ 512 →
  disk s !! Z.to_nat (sector_of x o) = Some b →
  take 512 buf = take 512 (take (Z.to_nat (o mod 512)) b ++ part ++ drop (Z.to_nat (o mod 512 + Z.of_nat (length part))) b) →
  ∃ s2, block_write (sector_of x o) buf s1 = Ok ((), s2) ∧ wrote s s2 x o part.
Proof.
  intros Hd Hx Hs1 Ho Hp Hin Hs Hb Hbuf. destruct (same_disk _ _ Hs1) as (Ed & _).
  destruct (byte_to_sector_run (disk s) x o Hd Hx ltac:(lia)) as [_ Hn].
  assert (length b = 512%nat) as Hlb by (destruct Hd as [Hd _]; by eapply Forall_lookup_1 in Hd).
  rewrite (block_write_run s1) by (by rewrite Ed). eexists. split; [done|]. split.
  - eapply sbd_trans; [by apply sbd_allocs|apply sbd_set_disk].
  - cbn. rewrite Ed, Hbuf. by apply overwritten_chunk.
Qed.

(** A part of the buffer, and the rest of it. *)
Lemma part_split (buffer : list Z) w c n :
  take c (drop w buffer) ++ take n (drop (w + c) buffer) = take (c + n) (drop w buffer).
Proof. rewrite <- drop_drop. by rewrite <- take_take_drop. Qed.

Lemma write_loop_run fuel x buffer size offset bounce w s :
  disk_wf (disk s) → inode_wf (disk s) x → 0 ≤ offset < 2 ^ 31 → (Z.to_nat size < fuel)%nat →
  0 ≤ w → w + size ≤ Z.of_nat (length buffer) →
  ∃ n s', write_loop malloc_ok fuel x buffer size offset bounce w s = Ok (w + n, s') ∧
    0 ≤ n ≤ avail (length_ (data x)) size offset ∧
    wrote s s' x offset (take (Z.to_nat n) (drop (Z.to_nat w) buffer)) ∧
    ((∀ n, malloc_ok n = true) → n = avail (length_ (data x)) size offset).
Proof.
  revert size offset bounce w s. induction fuel as [|fuel IH]; intros size offset bounce w s Hd Hx Ho Hf Hw Hbuf; [lia|].
  pose proof (in_length _ _ Hx) as Hlen. cbn [write_loop].
  assert (∀ s0 : fs, same_but_allocs s s0 →
    ∃ n s', Ok (w, s0) = Ok (w + n, s') ∧ 0 ≤ n ≤ avail (length_ (data x)) size offset ∧
      wrote s s' x offset (take (Z.to_nat n) (drop (Z.to_nat w) buffer)) ∧
      (avail (length_ (data x)) size offset = 0 → n = avail (length_ (data x)) size offset)) as Hstop.
  { intros s0 Hs0. exists 0, s0. rewrite Z.add_0_r. split; [done|]. split; [unfold avail; lia|]. split; [|done].
    destruct (same_disk _ _ Hs0) as (Ed & _). split; [by apply sbd_allocs|]. rewrite Ed, take_0. by apply overwritten_nil. }
  case_decide as Hsz.
  2:{ destruct (Hstop s (same_refl s)) as (n & s' & ? & ? & ? & Hz). exists n, s'. split; [done|]. split; [done|]. split; [done|].
      intros _. apply Hz, avail_end; lia. }
  rewrite (bind_Ok _ _ _ _ _ (chunk_run _ size offset s Hlen ltac:(lia))). cbv zeta. set (c := chunk_of _ size offset).
  case_decide as Hc.
  { destruct (Hstop s (same_refl s)) as (n & s' & ? & ? & ? & Hz). exists n, s'. split; [done|]. split; [done|]. split; [done|].
    intros _. apply Hz, avail_end; [lia|by right]. }
  destruct (chunk_of_range (length_ (data x)) size offset) as (Hr1 & Hr2 & Hr3 & Hr4); [lia|fold c; lia|]. fold c in Hr1, Hr2, Hr3.
  destruct (byte_to_sector_run (disk s) x offset Hd Hx ltac:(lia)) as [-> Hn].
  destruct (sector_lookup (disk s) _ Hd Hn) as (b & Hb & Hlb).
  pose proof (avail_step (length_ (data x)) size offset ltac:(lia) ltac:(lia) ltac:(fold c; lia)) as Hav. fold c in Hav.
  unfold BLOCK_SECTOR_SIZE. rewrite Z.rem_mod_nonneg by lia.
  set (part := take (Z.to_nat c) (drop (Z.to_nat w) buffer)).
  assert (length part = Z.to_nat c) as Hpl by (unfold part; rewrite length_take, length_drop; lia).
  (* the rest of the loop, after the chunk has been written *)
  assert (∀ s2 bn, wrote s s2 x offset part →
    ∃ n s', write_loop malloc_ok fuel x buffer (size - c) (offset + c) bn (w + c) s2 = Ok (w + n, s') ∧
      0 ≤ n ≤ avail (length_ (data x)) size offset ∧
      wrote s s' x offset (take (Z.to_nat n) (drop (Z.to_nat w) buffer)) ∧
      ((∀ n, malloc_ok n = true) → n = avail (length_ (data x)) size offset)) as Hnext.
  { intros s2 bn Hs2. pose proof Hs2 as [_ [W2 L2 _ _]].
    destruct (IH (size - c) (offset + c) bn (w + c) s2) as (n & s' & H1 & H2 & H3 & H4);
      [done|destruct Hx; by constructor; rewrite ?L2|lia|lia|lia|lia|].
    exists (c + n), s'. split; [rewrite Z.add_assoc; done|]. split; [lia|]. split; [|intros Hm; specialize (H4 Hm); lia].
    replace (Z.to_nat (c + n)) with (Z.to_nat c + Z.to_nat n)%nat by lia. rewrite <- part_split. fold part.
    eapply wrote_app; [done|]. rewrite Hpl, Z2Nat.id by lia. replace (Z.to_nat w + Z.to_nat c)%nat with (Z.to_nat (w + c)) by lia. done. }
  assert (∀ s1 buf, same_but_allocs s s1 →
    take 512 buf = take 512 (take (Z.to_nat (offset mod 512)) b ++ part ++ drop (Z.to_nat (offset mod 512 + Z.of_nat (length part))) b) →
    ∃ s2, block_write (sector_of x offset) buf s1 = Ok ((), s2) ∧ wrote s s2 x offset part) as Hwr.
  { intros s1 buf Hs1 Hbf. eapply write_chunk_run; [done..|lia|lia|lia|lia|done|done]. }
  case_decide as Hfull.
  - destruct (Hwr s part (same_refl s)) as (s2 & H1 & H2).
    { destruct Hfull as [-> Hc5]. change (Z.to_nat 0) with 0%nat. rewrite take_0. cbn [app]. rewrite drop_ge by lia. by rewrite app_nil_r. }
    rewrite (bind_Ok _ _ _ _ _ H1), (bind_Ok _ _ _ _ _ (off_run (offset + c) s2 ltac:(unfold in_s; lia))). by apply Hnext.
  - destruct (need_bounce_run bounce s) as (r & s1 & Hnb & Ed & Hs1 & Hm & _). rewrite (bind_Ok _ _ _ _ _ Hnb).
    apply bounce_same in Hs1. destruct r.
    + assert (∃ buf, (if decide (offset mod 512 > 0 ∨ c < 512 - offset mod 512) then block_read (sector_of x offset) else mret (replicate 512 0)) s1 = Ok (buf, s1) ∧
        take 512 (take (Z.to_nat (offset mod 512)) buf ++ part ++ drop (Z.to_nat (offset mod 512 + c)) buf) =
        take 512 (take (Z.to_nat (offset mod 512)) b ++ part ++ drop (Z.to_nat (offset mod 512 + Z.of_nat (length part))) b)) as (buf & Hrd & Hbf).
      { rewrite Hpl, Z2Nat.id by lia. case_decide.
        - exists b. split; [|done]. apply block_read_run; [by rewrite Ed|lia].
        - exfalso. lia. }
      rewrite (bind_Ok _ _ _ _ _ Hrd). destruct (Hwr s1 _ Hs1 Hbf) as (s2 & H1 & H2).
      rewrite (bind_Ok _ _ _ _ _ H1), (bind_Ok _ _ _ _ _ (off_run (offset + c) s2 ltac:(unfold in_s; lia))). by apply Hnext.
    + destruct (Hstop s1 Hs1) as (n & s' & ? & ? & ? & Hz). exists n, s'. split; [done|]. split; [done|]. split; [done|].
      intros Hall. by specialize (Hm Hall).
Qed.

(** ** Whole requests *)

Lemma inode_read_at_run i x s size offset :
  inodes s !! i = Some x → disk_wf (disk s) → inode_wf (disk s) x → 0 ≤ offset < 2 ^ 31 →
  ∃ bs s', inode_read_at malloc_ok i size offset s = Ok (bs, s') ∧ same_but_allocs s s' ∧
    bytes_from (disk s) x offset bs ∧ Z.of_nat (length bs) ≤ avail (length_ (data x)) size offset ∧
    ((∀ n, malloc_ok n = true) → Z.of_nat (length bs) = avail (length_ (data x)) size offset).
Proof.
  intros Hi Hd Hx Ho. unfold inode_read_at, get_inode, get. rewrite (bind_Ok _ _ _ x s).
  - destruct (read_loop_run (S (Z.to_nat size)) x size offset false [] s) as (bs & s' & H); [done..|lia|]. by exists bs, s'.
  - unfold mbind, M_bind, lift. by rewrite Hi.
Qed.

Lemma inode_write_at_run i x s buffer size offset :
  inodes s !! i = Some x → deny_write_cnt x = 0 → disk_wf (disk s) → inode_wf (disk s) x → 0 ≤ offset < 2 ^ 31 →
  size ≤ Z.of_nat (length buffer) →
  ∃ n s', inode_write_at malloc_ok i buffer size offset s = Ok (n, s') ∧
    0 ≤ n ≤ avail (length_ (data x)) size offset ∧ wrote s s' x offset (take (Z.to_nat n) buffer) ∧
    ((∀ n, malloc_ok n = true) → n = avail (length_ (data x)) size offset).
Proof.
  intros Hi Hdn Hd Hx Ho Hb. unfold inode_write_at, get_inode, get. rewrite (bind_Ok _ _ _ x s).
  - rewrite decide_False by (rewrite Hdn; intros []; done).
    destruct (write_loop_run (S (Z.to_nat size)) x buffer size offset false 0 s) as (n & s' & H); [done..|lia|lia|lia|].
    exists n, s'. change (Z.to_nat 0) with 0%nat in H. by rewrite drop_0 in H.
  - unfold mbind, M_bind, lift. by rewrite Hi.
Qed.

Lemma sbd_inodes s s' : same_but_disk s s' → inodes s' = inodes s.
Proof.
  intros [n E]. rewrite E. destruct (same_disk (set_disk (disk s') s) (Nat.iter n bump (set_disk (disk s') s))) as (_ & -> & _);
    [by exists n|done].
Qed.

Lemma overwritten_inode_wf d d' x y o bs : overwritten d d' x o bs → inode_wf d y → inode_wf d' y.
Proof. intros [_ L _ _] []. by constructor; rewrite ?L. Qed.
End Loops.

(** ** The claim *)

(** C20: [inode_write_at] and [inode_read_at] on an inode whose data lie on the
    disk, for any offset and size: a write that is not denied returns how
    many bytes it wrote, all those up to the end of the file when memory
    suffices; a read of the same range then returns exactly these bytes.  All other bytes of the
    inode and all sectors of others keep their contents. *)
Theorem inode_write_read malloc_ok i x s buffer size offset :
  inodes s !! i = Some x → deny_write_cnt x = 0 → disk_wf (disk s) → inode_wf (disk s) x → 0 ≤ offset < 2 ^ 31 →
  size ≤ Z.of_nat (length buffer) → (∀ n, malloc_ok n = true) →
  ∃ n s' s'', inode_write_at malloc_ok i buffer size offset s = Ok (n, s') ∧
    n = Z.max 0 (Z.min size (length_ (data x) - offset)) ∧
    inode_read_at malloc_ok i size offset s' = Ok (take (Z.to_nat n) buffer, s'') ∧
    wrote s s' x offset (take (Z.to_nat n) buffer).
Proof.
  intros Hi Hdn Hd Hx Ho Hb Hm.
  destruct (inode_write_at_run malloc_ok i x s buffer size offset Hi Hdn Hd Hx Ho Hb) as (n & s' & H1 & H2 & [H3 H3'] & H4).
  specialize (H4 Hm). pose proof (sbd_inodes _ _ H3) as Hin. pose proof (in_length _ _ Hx) as Hlen.
  destruct (inode_read_at_run malloc_ok i x s' size offset) as (bs & s'' & H5 & _ & H6 & _ & H8).
  { by rewrite Hin. }
  { apply H3'. }
  { by eapply overwritten_inode_wf. }
  { done. }
  specialize (H8 Hm). exists n, s', s''. split; [done|]. split; [done|]. split; [|done]. rewrite H5. do 2 f_equal.
  assert (length (take (Z.to_nat n) buffer) = Z.to_nat n) as Hl by (rewrite length_take; unfold avail in *; lia).
  apply list_eq_same_length with (length bs); [lia|done|]. intros k a a' Hk Ha Ha'.
  rewrite H6, (ow_bytes _ _ _ _ _ H3') in Ha by (unfold avail in *; lia).
  rewrite decide_True in Ha by lia. replace (Z.to_nat (offset + Z.of_nat k - offset)) with k in Ha by lia. congruence.
Qed.

(** A disk of four sectors with a file of 700 bytes from sector 1 on; 300
    bytes are written across the end of its first sector and of the file. *)
Definition demo_inode : inode := Inode_ 0 1 false 0 (InodeDisk 1 700 INODE_MAGIC).
Definition demo_fs : fs :=
  Fs (replicate 4 (replicate 512 0)) (Bitmap_ 4 [15]) NULL {[ 1 := demo_inode ]} [1] ∅ ∅ 1.

Lemma inode_write_read_witness :
  ∃ s' s'', inode_write_at (λ _, true) 1 (replicate 300 7) 300 500 demo_fs = Ok (200, s') ∧
    inode_read_at (λ _, true) 1 300 500 s' = Ok (replicate 200 7, s'') ∧ length (disk s') = 4%nat.
Proof.
  destruct (inode_write_read (λ _, true) 1 demo_inode demo_fs (replicate 300 7) 300 500) as (n & s' & s'' & H1 & H2 & H3 & [_ H4]).
  - vm_compute. reflexivity.
  - reflexivity.
  - constructor; [|vm_compute; reflexivity]. apply Forall_replicate. vm_compute. reflexivity.
  - constructor; cbn; [|lia|vm_compute; congruence]. lia.
  - lia.
  - vm_compute. congruence.
  - reflexivity.
  - vm_compute in H2. subst n. exists s', s''. split; [exact H1|]. split; [rewrite H3; vm_compute; reflexivity|].
    rewrite (ow_length _ _ _ _ _ H4). reflexivity.
Defined.
End InodeSpec.
