(* ===== verification/Directory.v ===== *)
(** * Directories and the file system (filesys/directory.c, filesys.c)

    An entry takes 20 bytes: the sector of an inode, a name of 15 bytes and
    the flag.  A name is the list of its characters, without the
    terminator. *)

From S2P Require Import Prelude Bitmap Inode.
Import Bitmap Inode.

Module Directory.

Definition NAME_MAX : Z := 14.

(** [struct dir_entry]. *)
Record dir_entry := DirEntry { inode_sector : Z; name : list Z; in_use : bool }.
Definition sizeof_entry : Z := 20.

Definition encode_entry (e : dir_entry) : list Z :=
  le32 (inode_sector e) ++ name e ++ [if in_use e then 1 else 0].
Definition decode_entry (bs : list Z) : dir_entry :=
  DirEntry (of_le32 bs) (take 15 (drop 4 bs)) (bool_decide (bs !! 19%nat ≠ Some 0)).

(** [strcmp] of a name with the bytes of an entry: equal or not.  Running
    over the end of the entry's name is undefined. *)
Fixpoint same_name (n : list Z) (bs : list Z) : F bool :=
  match bs with
  | [] => fail Undef
  | b :: bs =>
      match n with
      | [] => mret (bool_decide (b = 0))
      | c :: n => if decide (c = b) then same_name n bs else mret false
      end
  end.

(** [strlcpy] to a name of [size] bytes: the rest keeps its contents. *)
Definition strlcpy_name (old n : list Z) (size : nat) : list Z :=
  let copied := take (size - 1) n ++ [0] in copied ++ drop (length copied) old.

(** The bytes of the name up to the terminator. *)
Definition name_of (bs : list Z) : list Z := take (default (length bs) (fst <$> list_find (λ b, b = 0) bs)) bs.

Section Directories.
Context (malloc_ok : nat → bool).

Definition get_dir (d : Z) : F dir := s ← get; lift (dirs s !! d) Undef.

Definition dir_create (sector entry_cnt : Z) : F bool :=
  inode_create malloc_ok sector (i32 (u32 (entry_cnt * sizeof_entry))).

Definition dir_open (i : Z) : F Z :=
  d ← alloc malloc_ok;
  if decide (i ≠ NULL ∧ d ≠ NULL) then modify (λ s, set_dirs (<[d := Dir i 0]> (dirs s)) s);; mret d
  else inode_close malloc_ok i;; mret NULL.

Definition dir_open_root : F Z := i ← inode_open malloc_ok ROOT_DIR_SECTOR; dir_open i.

Definition dir_reopen (d : Z) : F Z := x ← get_dir d; i ← inode_reopen (d_inode x); dir_open i.

Definition dir_close (d : Z) : F unit :=
  if decide (d ≠ NULL) then
    x ← get_dir d; inode_close malloc_ok (d_inode x);; modify (λ s, set_dirs (delete d (dirs s)) s)
  else mret ().

Definition dir_get_inode (d : Z) : F Z := x ← get_dir d; mret (d_inode x).

(** One entry, or nothing at the end of the directory. *)
Definition read_entry (i ofs : Z) : F (option dir_entry) :=
  bs ← inode_read_at malloc_ok i sizeof_entry (i32 ofs);
  mret (if decide (Z.of_nat (length bs) = sizeof_entry) then Some (decode_entry bs) else None).

(** A loop over the entries has one round per entry and one more. *)
Definition entry_bound (i : Z) : F nat := n ← inode_length i; mret (2 + Z.to_nat n)%nat.

Fixpoint lookup_loop (fuel : nat) (i : Z) (n : list Z) (ofs : Z) : F (option (dir_entry * Z)) :=
  match fuel with
  | O => fail NoFuel
  | S fuel =>
      r ← read_entry i ofs;
      match r with
      | None => mret None
      | Some e =>
          same ← (if in_use e then same_name n (name e) else mret false);
          if (same : bool) then mret (Some (e, ofs)) else lookup_loop fuel i n (u32 (ofs + sizeof_entry))
      end
  end.
Definition lookup (d : Z) (n : list Z) : F (option (dir_entry * Z)) :=
  x ← get_dir d; b ← entry_bound (d_inode x); lookup_loop b (d_inode x) n 0.

(** The inode, [NULL] if there is none. *)
Definition dir_lookup (d : Z) (n : list Z) : F Z :=
  r ← lookup d n;
  match r with Some (e, _) => inode_open malloc_ok (inode_sector e) | None => mret NULL end.

(** The first free slot, and the bytes of the local entry: a read at the end
    of the directory may overwrite only some of them. *)
Fixpoint slot_loop (fuel : nat) (i ofs : Z) (e : list Z) : F (Z * list Z) :=
  match fuel with
  | O => fail NoFuel
  | S fuel =>
      bs ← inode_read_at malloc_ok i sizeof_entry ofs;
      let e := bs ++ drop (length bs) e in
      if decide (Z.of_nat (length bs) = sizeof_entry ∧ in_use (decode_entry e) = true)
      then o ← off (ofs + sizeof_entry); slot_loop fuel i o e
      else mret (ofs, e)
  end.

(** [blank] holds the bytes of the local entry before the first read. *)
Definition dir_add (blank : list Z) (d : Z) (n : list Z) (sector : Z) : F bool :=
  if decide (n = [] ∨ Z.of_nat (length n) > NAME_MAX) then mret false else
  r ← lookup d n;
  match r with
  | Some _ => mret false
  | None =>
      x ← get_dir d; b ← entry_bound (d_inode x);
      '(ofs, e) ← slot_loop b (d_inode x) 0 blank;
      let e := DirEntry sector (strlcpy_name (name (decode_entry e)) n 15) true in
      w ← inode_write_at malloc_ok (d_inode x) (encode_entry e) sizeof_entry ofs;
      mret (bool_decide (w = sizeof_entry))
  end.

Definition dir_remove (d : Z) (n : list Z) : F bool :=
  r ← lookup d n;
  match r with
  | None => mret false
  | Some (e, ofs) =>
      i ← inode_open malloc_ok (inode_sector e);
      success ← (if decide (i = NULL) then mret false else
                 x ← get_dir d;
                 w ← inode_write_at malloc_ok (d_inode x) (encode_entry (DirEntry (inode_sector e) (name e) false)) sizeof_entry (i32 ofs);
                 if decide (w ≠ sizeof_entry) then mret false else inode_remove i;; mret true);
      inode_close malloc_ok i;;
      mret success
  end.

(** The name of the next entry. *)
Fixpoint readdir_loop (fuel : nat) (d : Z) : F (option (list Z)) :=
  match fuel with
  | O => fail NoFuel
  | S fuel =>
      x ← get_dir d;
      r ← read_entry (d_inode x) (d_pos x);
      match r with
      | None => mret None
      | Some e =>
          p ← off (d_pos x + sizeof_entry);
          modify (λ s, set_dirs (<[d := Dir (d_inode x) p]> (dirs s)) s);;
          if in_use e then mret (Some (name_of (name e))) else readdir_loop fuel d
      end
  end.
Definition dir_readdir (d : Z) : F (option (list Z)) :=
  x ← get_dir d; b ← entry_bound (d_inode x); readdir_loop b d.

(** ** The file system (filesys.c) *)

Definition do_format : F unit :=
  free_map_create malloc_ok;;
  ok ← dir_create ROOT_DIR_SECTOR 16;
  (if (ok : bool) then mret () else PANIC);;
  free_map_close malloc_ok.

(** [storage] is what the memory of the free map holds at first. *)
Definition filesys_init (storage : list Z) (format : bool) : F unit :=
  inode_init;;
  free_map_init malloc_ok storage;;
  (if format then do_format else mret ());;
  free_map_open malloc_ok.

Definition filesys_done : F unit := free_map_close malloc_ok.

(** [free_map_allocate] leaves [inode_sector] at 0 when it fails. *)
Definition filesys_create (blank : list Z) (n : list Z) (initial_size : Z) : F bool :=
  d ← dir_open_root;
  r ← (if decide (d ≠ NULL) then free_map_allocate malloc_ok 1 else mret None);
  success ← (match r with
             | Some sector =>
                 ok ← inode_create malloc_ok sector initial_size;
                 if (ok : bool) then dir_add blank d n sector else mret false
             | None => mret false
             end);
  (match r with
   | Some sector =>
       if decide (success = false ∧ sector ≠ 0) then free_map_release malloc_ok sector 1 else mret ()
   | None => mret ()
   end);;
  dir_close d;;
  mret success.

Definition filesys_open (n : list Z) : F Z :=
  d ← dir_open_root;
  i ← (if decide (d ≠ NULL) then dir_lookup d n else mret NULL);
  dir_close d;;
  file_open malloc_ok i.

Definition filesys_remove (n : list Z) : F bool :=
  d ← dir_open_root;
  success ← (if decide (d ≠ NULL) then dir_remove d n else mret false);
  dir_close d;;
  mret success.
End Directories.

End Directory.
