(* ===== verification/DirectorySpec.v ===== *)
(** * Directories: theorems

    A directory is a sequence of slots; [dir_add] fills the first free one,
    and [lookup] finds what was added. *)

From S2P Require Import Prelude Bitmap Inode InodeSpec Directory.
Import Bitmap Inode InodeSpec Directory.

Module DirectorySpec.

(** ** Entries as bytes *)

Lemma decode_encode e :
  in_u 32 (inode_sector e) → length (name e) = 15%nat → decode_entry (encode_entry e) = e.
Proof.
  intros Hs Hn. destruct e as [sec nm u]. unfold decode_entry, encode_entry. cbn [inode_sector name in_use] in *.
  f_equal.
  - change (of_le32 (le32 sec ++ nm ++ [if u then 1 else 0])) with (of_le32 (le32 sec)). by apply le32_of_le32.
  - change (drop 4 (le32 sec ++ nm ++ [if u then 1 else 0])) with (nm ++ [if u then 1 else 0]).
    rewrite take_app_le by lia. apply take_ge. lia.
  - change 19%nat with (length (le32 sec) + 15)%nat. rewrite lookup_app_r by lia.
    replace (length (le32 sec) + 15 - length (le32 sec))%nat with (length nm) by lia.
    rewrite lookup_app_r, Nat.sub_diag by lia. by destruct u.
Qed.

Lemma encode_length e : length (name e) = 15%nat → length (encode_entry e) = 20%nat.
Proof. intros Hn. unfold encode_entry. rewrite !length_app, Hn. done. Qed.

(** A name without a null character, in a field with room for its
    terminator. *)
Definition valid_name (n : list Z) : Prop := n ≠ [] ∧ Z.of_nat (length n) ≤ NAME_MAX ∧ 0 ∉ n.

Lemma name_of_app n rest : 0 ∉ n → name_of (n ++ 0 :: rest) = n.
Proof.
  intros Hn. unfold name_of. assert (list_find (λ b, b = 0) (n ++ 0 :: rest) = Some (length n, 0)) as ->.
  { rewrite list_find_app_r by (apply list_find_None, Forall_forall; by intros x Hx ->). done. }
  cbn. by rewrite take_app_length.
Qed.

Lemma strlcpy_name_spec old n :
  valid_name n → length old = 15%nat →
  length (strlcpy_name old n 15) = 15%nat ∧ name_of (strlcpy_name old n 15) = n ∧ 0 ∈ strlcpy_name old n 15.
Proof.
  intros (_ & Hl & Hz) Ho. unfold strlcpy_name, NAME_MAX in *. rewrite (take_ge n) by lia.
  split_and!.
  - rewrite length_app, length_drop, length_app. cbn. lia.
  - rewrite <- app_assoc. by apply name_of_app.
  - set_solver.
Qed.

(** The comparison with a terminated name. *)
Lemma same_name_run n bs s : 0 ∉ n → 0 ∈ bs → same_name n bs s = Ok (bool_decide (name_of bs = n), s).
Proof.
  revert n. induction bs as [|b bs IH]; intros n Hn Hb; [by apply elem_of_nil in Hb|].
  destruct (decide (b = 0)) as [->|Hb0].
  - assert (name_of (0 :: bs) = []) as -> by done. destruct n as [|c n]; cbn; [done|].
    apply not_elem_of_cons in Hn as [Hc Hn]. by rewrite decide_False by congruence.
  - assert (name_of (b :: bs) = b :: name_of bs) as Hnb.
    { unfold name_of. cbn. rewrite decide_False by done. by destruct (list_find (λ b, b = 0) bs) as [[]|]. }
    rewrite Hnb. apply elem_of_cons in Hb as [|Hb]; [done|]. destruct n as [|c n]; cbn [same_name].
    + by rewrite !bool_decide_false by done.
    + apply not_elem_of_cons in Hn as [Hc Hn]. case_decide as E.
      * subst c. rewrite IH by done. do 2 f_equal. apply bool_decide_ext. split; [by intros ->|by intros [= ->]].
      * rewrite bool_decide_false; [done|]. by intros [= ->].
Qed.

(** ** Slots *)

Definition entry_bytes (d : list (list Z)) (x : inode) (o : Z) : list Z :=
  (λ j, default 0 (byte d x (o + j))) <$> seqZ 0 20.
Definition slot (d : list (list Z)) (x : inode) (k : Z) : dir_entry := decode_entry (entry_bytes d x (20 * k)).
Definition slot_cnt (x : inode) : Z := length_ (data x) / 20.
Definition slots (d : list (list Z)) (x : inode) : list dir_entry := slot d x <$> seqZ 0 (slot_cnt x).

Lemma entry_bytes_lookup d x o j : (j < 20)%nat → entry_bytes d x o !! j = Some (default 0 (byte d x (o + Z.of_nat j))).
Proof. intros Hj. unfold entry_bytes. rewrite list_lookup_fmap, lookup_seqZ_lt by lia. done. Qed.

Lemma entry_bytes_eq d x o bs : bytes_from d x o bs → length bs = 20%nat → bs = entry_bytes d x o.
Proof.
  intros Hb Hl. apply list_eq_same_length with 20%nat; [done|done|]. intros j a a' Hj Ha Ha'.
  rewrite entry_bytes_lookup in Ha' by done. rewrite Hb in Ha by lia. rewrite Ha in Ha'. cbn in Ha'. congruence.
Qed.

(** The sector a name is entered with. *)
Fixpoint look (es : list dir_entry) (n : list Z) : option Z :=
  match es with
  | [] => None
  | e :: es => if decide (in_use e = true ∧ name_of (name e) = n) then Some (inode_sector e) else look es n
  end.

Lemma look_insert es k e n m :
  es !! k = Some e → in_use e = false → ∀ e', in_use e' = true → name_of (name e') = n → look es n = None →
  look (<[k := e']> es) m = if decide (m = n) then Some (inode_sector e') else look es m.
Proof.
  intros Hk Hu e' Hu' Hn Hno. revert k Hk Hno. induction es as [|e0 es IH]; intros k Hk Hno; [done|].
  cbn in Hno. case_decide as H0; [done|]. destruct k as [|k]; cbn in Hk |- *.
  - injection Hk as ->. rewrite (decide_False (P := in_use e = true ∧ _)) by (intros [? _]; congruence).
    destruct (decide (m = n)) as [->|Hm]; [by rewrite decide_True|]. rewrite decide_False; [done|]. intros [_ E]. congruence.
  - rewrite IH by done. destruct (decide (m = n)) as [->|Hm]; [by rewrite decide_False|done].
Qed.

(** Names in use are terminated. *)
Definition terminated (e : dir_entry) : Prop := in_use e = true → 0 ∈ name e.

Section Ops.
Context (malloc_ok : nat → bool).
Hypothesis malloc_all : ∀ n, malloc_ok n = true.

(** A directory that is open, with its inode. *)
Record dir_at (s : fs) (dp : Z) (i p : Z) (x : inode) : Prop := {
  da_dir : dirs s !! dp = Some (Dir i p);
  da_inode : inodes s !! i = Some x;
  da_disk : disk_wf (disk s);
  da_wf : inode_wf (disk s) x;
  da_slots : Forall terminated (slots (disk s) x);
}.

Lemma same_dirs s s' : same_but_allocs s s' → dirs s' = dirs s ∧ open_inodes s' = open_inodes s.
Proof. intros [n ->]. induction n as [|n IH]; [done|]. exact IH. Qed.

Lemma dir_at_same s s' dp i p x : same_but_allocs s s' → dir_at s dp i p x → dir_at s' dp i p x.
Proof.
  intros Hs []. destruct (same_disk _ _ Hs) as (E1 & E2 & _). destruct (same_dirs _ _ Hs) as [E3 _].
  by constructor; rewrite ?E1, ?E2, ?E3.
Qed.

(** Reading slot [k]; behind the last one, the end of the directory. *)
Lemma read_slot_run s i x k :
  inodes s !! i = Some x → disk_wf (disk s) → inode_wf (disk s) x → 0 ≤ k ≤ slot_cnt x →
  ∃ bs s', inode_read_at malloc_ok i 20 (20 * k) s = Ok (bs, s') ∧ same_but_allocs s s' ∧
    (if decide (k < slot_cnt x) then bs = entry_bytes (disk s) x (20 * k) ∧ length bs = 20%nat else (length bs < 20)%nat).
Proof.
  intros Hi Hd Hx Hk. pose proof (in_length _ _ Hx) as Hl. unfold slot_cnt in *.
  assert (20 * (length_ (data x) / 20) ≤ length_ (data x) < 20 * (length_ (data x) / 20) + 20)
    by (Z.to_euclidean_division_equations; lia).
  destruct (inode_read_at_run malloc_ok i x s 20 (20 * k) Hi Hd Hx ltac:(lia)) as (bs & s' & H1 & H2 & H3 & _ & H5).
  specialize (H5 malloc_all). exists bs, s'. split; [done|]. split; [done|]. unfold avail in H5. case_decide.
  - assert (length bs = 20%nat) by lia. split; [by apply entry_bytes_eq|done].
  - lia.
Qed.

Lemma slots_length d x : 0 ≤ slot_cnt x → length (slots d x) = Z.to_nat (slot_cnt x).
Proof. intros. unfold slots. by rewrite length_fmap, length_seqZ. Qed.

Lemma slots_lookup d x k : 0 ≤ k < slot_cnt x → slots d x !! Z.to_nat k = Some (slot d x k).
Proof.
  intros Hk. unfold slots. rewrite list_lookup_fmap, lookup_seqZ_lt by lia. cbn. do 2 f_equal. lia.
Qed.

Lemma slots_drop d x k : 0 ≤ k < slot_cnt x → drop (Z.to_nat k) (slots d x) = slot d x k :: drop (Z.to_nat (k + 1)) (slots d x).
Proof.
  intros Hk. replace (Z.to_nat (k + 1)) with (S (Z.to_nat k)) by lia. by apply drop_S, slots_lookup.
Qed.

Lemma slot_cnt_range d x : inode_wf d x → 0 ≤ slot_cnt x ∧ 20 * slot_cnt x ≤ length_ (data x) < 2 ^ 31.
Proof. intros Hx. pose proof (in_length _ _ Hx). unfold slot_cnt. Z.to_euclidean_division_equations. lia. Qed.

Lemma i32_small z : 0 ≤ z < 2 ^ 31 → i32 z = z.
Proof. intros Hz. apply wraps_id; [lia|]. unfold in_s. lia. Qed.

Lemma lookup_loop_run fuel dp i p x n k s :
  dir_at s dp i p x → 0 ∉ n → 0 ≤ k ≤ slot_cnt x → (Z.to_nat (slot_cnt x - k) < fuel)%nat →
  ∃ r s', lookup_loop malloc_ok fuel i n (20 * k) s = Ok (r, s') ∧ same_but_allocs s s' ∧
    (λ r, inode_sector r.1) <$> r = look (drop (Z.to_nat k) (slots (disk s) x)) n.
Proof.
  intros Hda Hn. revert k s Hda. induction fuel as [|fuel IH]; intros k s Hda Hk Hf; [lia|].
  destruct (slot_cnt_range _ _ (da_wf _ _ _ _ _ Hda)) as [Hc Hc'].
  cbn [lookup_loop]. unfold read_entry, sizeof_entry. rewrite i32_small by lia.
  destruct (read_slot_run s i x k (da_inode _ _ _ _ _ Hda) (da_disk _ _ _ _ _ Hda) (da_wf _ _ _ _ _ Hda) Hk) as (bs & s1 & H1 & H2 & H3).
  pose proof (dir_at_same _ _ _ _ _ _ H2 Hda) as Hda1. destruct (same_disk _ _ H2) as (Ed & _).
  case_decide as Hlt.
  - destruct H3 as [-> Hl]. rewrite (bind_Ok _ _ _ (Some (slot (disk s) x k)) s1).
    2:{ rewrite (bind_Ok _ _ _ _ _ H1). unfold mret, M_ret. by rewrite decide_True by lia. }
    rewrite slots_drop by lia. cbn [look].
    assert (terminated (slot (disk s) x k)) as Ht.
    { pose proof (da_slots _ _ _ _ _ Hda) as Hs. eapply Forall_lookup_1 in Hs; [exact Hs|]. apply (slots_lookup _ x k). lia. }
    set (e := slot (disk s) x k) in *.
    rewrite (bind_Ok _ _ _ (bool_decide (in_use e = true ∧ name_of (name e) = n)) s1).
    2:{ destruct (in_use e) eqn:Hu; [|done]. rewrite same_name_run by auto. do 2 f_equal. apply bool_decide_ext. tauto. }
    case_bool_decide as Hm.
    + rewrite decide_True by done. by exists (Some (e, 20 * k)), s1.
    + rewrite (decide_False (P := _ ∧ _)) by done. rewrite wrapu_id by (unfold in_u; lia).
      replace (20 * k + 20) with (20 * (k + 1)) by lia.
      destruct (IH (k + 1) s1 Hda1) as (r & s2 & H4 & H5 & H6); [lia|lia|].
      exists r, s2. rewrite Ed in H6. split_and!; [done|by eapply same_trans|done].
  - rewrite (bind_Ok _ _ _ None s1).
    2:{ rewrite (bind_Ok _ _ _ _ _ H1). unfold mret, M_ret. by rewrite decide_False by lia. }
    exists None, s1. split_and!; [done|done|]. rewrite drop_ge; [done|]. rewrite slots_length by done. lia.
Qed.

Lemma get_dir_run s dp i p x : dir_at s dp i p x → get_dir dp s = Ok (Dir i p, s).
Proof. intros Hda. unfold get_dir, get, mbind, M_bind, lift. by rewrite (da_dir _ _ _ _ _ Hda). Qed.

Lemma entry_bound_run s dp i p x : dir_at s dp i p x → entry_bound i s = Ok ((2 + Z.to_nat (length_ (data x)))%nat, s).
Proof.
  intros Hda. unfold entry_bound, inode_length, get_inode, get, mbind, M_bind, lift. by rewrite (da_inode _ _ _ _ _ Hda).
Qed.

Lemma lookup_run s dp i p x n :
  dir_at s dp i p x → 0 ∉ n →
  ∃ r s', lookup malloc_ok dp n s = Ok (r, s') ∧ same_but_allocs s s' ∧
    (λ r, inode_sector r.1) <$> r = look (slots (disk s) x) n.
Proof.
  intros Hda Hn. destruct (slot_cnt_range _ _ (da_wf _ _ _ _ _ Hda)) as [Hc Hc'].
  unfold lookup. rewrite (bind_Ok _ _ _ _ _ (get_dir_run _ _ _ _ _ Hda)). cbn [d_inode].
  rewrite (bind_Ok _ _ _ _ _ (entry_bound_run _ _ _ _ _ Hda)).
  destruct (lookup_loop_run (2 + Z.to_nat (length_ (data x))) dp i p x n 0 s Hda Hn) as (r & s' & H); [lia|lia|]. by exists r, s'.
Qed.

(** ** Adding an entry *)

(** The first slot that is not in use. *)
Lemma slot_loop_run fuel dp i p x k e s :
  dir_at s dp i p x → 0 ≤ k ≤ slot_cnt x → (Z.to_nat (slot_cnt x - k) < fuel)%nat → length e = 20%nat →
  (∀ j, 0 ≤ j < k → in_use (slot (disk s) x j) = true) →
  ∃ k' e' s', slot_loop malloc_ok fuel i (20 * k) e s = Ok ((20 * k', e'), s') ∧ same_but_allocs s s' ∧ length e' = 20%nat ∧
    0 ≤ k' ≤ slot_cnt x ∧ (∀ j, 0 ≤ j < k' → in_use (slot (disk s) x j) = true) ∧
    (k' < slot_cnt x → in_use (slot (disk s) x k') = false).
Proof.
  intros Hda. revert k e s Hda. induction fuel as [|fuel IH]; intros k e s Hda Hk Hf Hle Hu; [lia|].
  destruct (slot_cnt_range _ _ (da_wf _ _ _ _ _ Hda)) as [Hc Hc']. cbn [slot_loop]. unfold sizeof_entry.
  destruct (read_slot_run s i x k (da_inode _ _ _ _ _ Hda) (da_disk _ _ _ _ _ Hda) (da_wf _ _ _ _ _ Hda) Hk) as (bs & s1 & H1 & H2 & H3).
  pose proof (dir_at_same _ _ _ _ _ _ H2 Hda) as Hda1. destruct (same_disk _ _ H2) as (Ed & _).
  rewrite (bind_Ok _ _ _ _ _ H1). cbv zeta.
  assert (length (bs ++ drop (length bs) e) = 20%nat) as Hle'.
  { rewrite length_app, length_drop. case_decide; [destruct H3|]; lia. }
  destruct (decide (k < slot_cnt x)) as [Hlt|Hge].
  - destruct H3 as [E Hl]. rewrite drop_ge, app_nil_r by lia. rewrite drop_ge, app_nil_r in Hle' by lia.
    assert (decode_entry bs = slot (disk s) x k) as -> by (by rewrite E).
    destruct (in_use (slot (disk s) x k)) eqn:Huk.
    + rewrite decide_True by lia. rewrite (bind_Ok _ _ _ _ _ (off_run (20 * k + 20) s1 ltac:(unfold in_s; lia))).
      replace (20 * k + 20) with (20 * (k + 1)) by lia.
      destruct (IH (k + 1) bs s1 Hda1) as (k' & e' & s2 & G1 & G2 & G3 & G4 & G5 & G6); [lia|lia|done| |].
      { intros j Hj. rewrite Ed. destruct (decide (j = k)) as [->|]; [done|apply Hu; lia]. }
      rewrite Ed in G5, G6. exists k', e', s2. split_and!; [done|by eapply same_trans|done|lia|lia|done|done].
    + rewrite decide_False by (intros [_ ?]; done). exists k, bs, s1. split_and!; [done|done|done|lia|lia|done|done].
  - rewrite decide_False by lia. exists k, (bs ++ drop (length bs) e), s1. split_and!; [done|done|done|lia|lia|done|lia].
Qed.

(** The slots after bytes were written from slot [k] on: at most that one
    differs. *)
Lemma slots_overwritten d d' x k bs :
  inode_wf d x → overwritten d d' x (20 * k) bs → 0 ≤ k → (length bs ≤ 20)%nat →
  ∀ j, 0 ≤ j < slot_cnt x → j ≠ k → slot d' x j = slot d x j.
Proof.
  intros Hx Ho Hk Hl j Hj Hjk. destruct (slot_cnt_range _ _ Hx) as [Hc Hc']. unfold slot. f_equal.
  apply list_eq_same_length with 20%nat; [by unfold entry_bytes; rewrite length_fmap..|].
  intros a u v Ha. rewrite !entry_bytes_lookup by done. rewrite (ow_bytes _ _ _ _ _ Ho), decide_False by lia. congruence.
Qed.

Lemma slot_overwritten d d' x k bs :
  inode_wf d x → overwritten d d' x (20 * k) bs → 0 ≤ k < slot_cnt x → length bs = 20%nat → slot d' x k = decode_entry bs.
Proof.
  intros Hx Ho Hk Hl. destruct (slot_cnt_range _ _ Hx) as [Hc Hc']. unfold slot. f_equal. symmetry.
  apply entry_bytes_eq; [|done]. intros a Ha. rewrite (ow_bytes _ _ _ _ _ Ho), decide_True by lia. f_equal. lia.
Qed.

Lemma sbd_dirs s s' : same_but_disk s s' → dirs s' = dirs s.
Proof.
  intros [n E]. rewrite E. destruct (same_dirs (set_disk (disk s') s) (Nat.iter n bump (set_disk (disk s') s))) as (-> & _);
    [by exists n|done].
Qed.

(** A directory after a write to its inode. *)
Lemma dir_at_wrote s s' dp i p x o bs :
  dir_at s dp i p x → wrote s s' x o bs → Forall terminated (slots (disk s') x) → dir_at s' dp i p x.
Proof.
  intros [H1 H2 H3 H4 _] [Hs Ho] Ht. constructor; [by rewrite (sbd_dirs _ _ Hs)|by rewrite (sbd_inodes _ _ Hs)|apply Ho| |done].
  by eapply overwritten_inode_wf.
Qed.

Lemma slots_insert d d' x k e :
  0 ≤ k < slot_cnt x → slot d' x k = e → (∀ j, 0 ≤ j < slot_cnt x → j ≠ k → slot d' x j = slot d x j) →
  slots d' x = <[Z.to_nat k := e]> (slots d x).
Proof.
  intros Hk He Hs. apply list_eq. intros j. destruct (decide (Z.of_nat j < slot_cnt x)) as [Hj|Hj].
  - rewrite <- (Nat2Z.id j), slots_lookup by lia. destruct (decide (Z.of_nat j = k)) as [<-|Hne].
    + rewrite list_lookup_insert_eq; [by rewrite He|]. rewrite slots_length; lia.
    + rewrite list_lookup_insert_ne by lia. rewrite slots_lookup by lia. by rewrite Hs by lia.
  - rewrite !lookup_ge_None_2; [done|rewrite length_insert|]; rewrite slots_length; lia.
Qed.

Lemma slots_same d d' x :
  0 ≤ slot_cnt x → (∀ j, 0 ≤ j < slot_cnt x → slot d' x j = slot d x j) → slots d' x = slots d x.
Proof. intros Hc Hs. unfold slots. apply list_fmap_ext. intros j k Hk. apply lookup_seqZ in Hk. apply Hs. lia. Qed.

(** What [dir_add] does to the slots. *)
Lemma dir_add_run s dp i p x blank n sector :
  dir_at s dp i p x → deny_write_cnt x = 0 → valid_name n → in_u 32 sector → length blank = 20%nat →
  ∃ b s', dir_add malloc_ok blank dp n sector s = Ok (b, s') ∧ dir_at s' dp i p x ∧
    (if b : bool then look (slots (disk s) x) n = None ∧ (∃ e, e ∈ slots (disk s) x ∧ in_use e = false)
     else look (slots (disk s) x) n ≠ None ∨ (∀ e, e ∈ slots (disk s) x → in_use e = true)) ∧
    (∀ m, look (slots (disk s') x) m = if decide (b = true ∧ m = n) then Some sector else look (slots (disk s) x) m).
Proof.
  intros Hda Hdn Hvn Hsec Hbl. pose proof Hvn as (Hne & Hnl & Hnz). pose proof (da_wf _ _ _ _ _ Hda) as Hx.
  destruct (slot_cnt_range _ _ Hx) as [Hc Hc'].
  unfold dir_add. rewrite decide_False by (intros [?|?]; [done|lia]).
  destruct (lookup_run s dp i p x n Hda Hnz) as (r & s1 & H1 & H2 & H3). rewrite (bind_Ok _ _ _ _ _ H1).
  pose proof (dir_at_same _ _ _ _ _ _ H2 Hda) as Hda1. destruct (same_disk _ _ H2) as (Ed1 & _).
  destruct r as [r|]; cbn in H3.
  { exists false, s1. split; [done|]. split; [done|]. split; [left; by rewrite <- H3|]. intros m. rewrite Ed1.
    by rewrite decide_False by (intros [? _]; done). }
  rewrite (bind_Ok _ _ _ _ _ (get_dir_run _ _ _ _ _ Hda1)). cbn [d_inode].
  rewrite (bind_Ok _ _ _ _ _ (entry_bound_run _ _ _ _ _ Hda1)).
  destruct (slot_loop_run (2 + Z.to_nat (length_ (data x))) dp i p x 0 blank s1 Hda1) as (k & e & s2 & G1 & G2 & G3 & G4 & G5 & G6);
    [lia|lia|done|lia|]. change (20 * 0) with 0 in G1. rewrite (bind_Ok _ _ _ _ _ G1). cbv zeta.
  pose proof (dir_at_same _ _ _ _ _ _ G2 Hda1) as Hda2. destruct (same_disk _ _ G2) as (Ed2 & _). rewrite Ed1 in *.
  assert (length (name (decode_entry e)) = 15%nat) as Hnm by (cbn; rewrite length_take, length_drop; lia).
  destruct (strlcpy_name_spec (name (decode_entry e)) n Hvn Hnm) as (N1 & N2 & N3).
  set (new := DirEntry sector (strlcpy_name (name (decode_entry e)) n 15) true).
  pose proof (encode_length new N1) as Hel.
  destruct (inode_write_at_run malloc_ok i x s2 (encode_entry new) 20 (20 * k) (da_inode _ _ _ _ _ Hda2) Hdn (da_disk _ _ _ _ _ Hda2)
    (da_wf _ _ _ _ _ Hda2)) as (w & s3 & W1 & W2 & W3 & W4); [lia|lia|]. specialize (W4 malloc_all).
  rewrite (bind_Ok _ _ _ _ _ W1). eexists _, s3. split; [done|]. pose proof W3 as [_ W3']. rewrite Ed2 in W3'.
  assert (20 * slot_cnt x ≤ length_ (data x) < 20 * slot_cnt x + 20) as Hcnt
    by (unfold slot_cnt; Z.to_euclidean_division_equations; lia).
  unfold avail in W4. destruct (decide (k < slot_cnt x)) as [Hk|Hk].
  - assert (w = 20) as -> by lia. change (take (Z.to_nat 20) (encode_entry new)) with (take 20 (encode_entry new)) in *.
    rewrite (take_ge (encode_entry new)) in * by lia. rewrite bool_decide_true by done.
    assert (slots (disk s3) x = <[Z.to_nat k := new]> (slots (disk s) x)) as Hsl.
    { apply slots_insert; [lia| |].
      - rewrite (slot_overwritten (disk s) (disk s3) x k (encode_entry new)) by (done || lia). by apply decode_encode.
      - intros j Hj Hjk. by apply (slots_overwritten (disk s) (disk s3) x k (encode_entry new)); [..|lia|lia|done|done]. }
    pose proof (slots_lookup (disk s) x k ltac:(lia)) as Hkl.
    split; [|split; [split; [done|]|]].
    + eapply dir_at_wrote; [done|done|]. rewrite Hsl. apply Forall_insert; [apply Hda|]. by intros _.
    + exists (slot (disk s) x k). split; [by eapply list_elem_of_lookup_2|by apply G6].
    + intros m. rewrite Hsl, (look_insert _ _ _ n m Hkl (G6 Hk) new) by done.
      destruct (decide (m = n)); [by rewrite decide_True by done|by rewrite decide_False by (intros [_ ?]; done)].
  - assert (k = slot_cnt x) as -> by lia. rewrite bool_decide_false by (unfold sizeof_entry; lia).
    assert (slots (disk s3) x = slots (disk s) x) as Hsl.
    { apply slots_same; [done|]. intros j Hj.
      apply (slots_overwritten (disk s) (disk s3) x (slot_cnt x) (take (Z.to_nat w) (encode_entry new))); [done|done|lia| |done|lia].
      rewrite length_take. lia. }
    split; [|split; [right|]].
    + eapply dir_at_wrote; [done|done|]. rewrite Hsl. apply Hda.
    + intros e0 He0. apply list_elem_of_lookup in He0 as [j Hj]. pose proof (lookup_lt_Some _ _ _ Hj) as Hjl.
      rewrite slots_length in Hjl by done. rewrite <- (Nat2Z.id j), slots_lookup in Hj by lia. injection Hj as <-. apply G5. lia.
    + intros m. rewrite Hsl. by rewrite decide_False by (intros [? _]; done).
Qed.
End Ops.

(** ** The claims *)

(** C35: [dir_add] enters a valid name that is not yet in the directory and for
    which there is a free slot, and returns true; otherwise it returns false. Afterwards
    [lookup] finds the name with the sector it was added with, and every other
    name as before. *)
Theorem dir_add_lookup malloc_ok s dp i p x blank n sector :
  (∀ n, malloc_ok n = true) →
  dir_at s dp i p x → deny_write_cnt x = 0 → valid_name n → in_u 32 sector → length blank = 20%nat →
  ∃ b s', dir_add malloc_ok blank dp n sector s = Ok (b, s') ∧ dir_at s' dp i p x ∧
    (b = true ↔ look (slots (disk s) x) n = None ∧ ∃ e, e ∈ slots (disk s) x ∧ in_use e = false) ∧
    ∀ m, 0 ∉ m → ∃ r0 s0 r1 s1, lookup malloc_ok dp m s = Ok (r0, s0) ∧ lookup malloc_ok dp m s' = Ok (r1, s1) ∧
      (λ r, inode_sector r.1) <$> r1 =
        if decide (b = true ∧ m = n) then Some sector else (λ r, inode_sector r.1) <$> r0.
Proof.
  intros Hm Hda Hdn Hvn Hsec Hbl.
  destruct (dir_add_run malloc_ok Hm s dp i p x blank n sector Hda Hdn Hvn Hsec Hbl) as (b & s' & H1 & H2 & H3 & H4).
  exists b, s'. split; [done|]. split; [done|]. split.
  - destruct b; [done|]. split; [done|]. intros [Hn (e & He & Hu)]. exfalso. destruct H3 as [H3|H3]; [done|].
    rewrite (H3 e He) in Hu. done.
  - intros m Hmz. destruct (lookup_run malloc_ok Hm s dp i p x m Hda Hmz) as (r0 & s0 & R1 & _ & R2).
    destruct (lookup_run malloc_ok Hm s' dp i p x m H2 Hmz) as (r1 & s1 & R3 & _ & R4).
    exists r0, s0, r1, s1. split; [done|]. split; [done|]. by rewrite R4, R2, H4.
Qed.

(** A directory of three slots, the first with an entry for "x"; an entry for
    "ab" is added. *)
Definition demo_entry : dir_entry := DirEntry 9 (120 :: replicate 14 0) true.
Definition demo_dir : inode := Inode_ 0 1 false 0 (InodeDisk 1 60 INODE_MAGIC).
Definition demo_dirs : fs :=
  Fs [replicate 512 0; encode_entry demo_entry ++ replicate 492 0] (Bitmap_ 2 [3]) NULL {[ 1 := demo_dir ]} [1] ∅ {[ 2 := Dir 1 0 ]} 2.

Lemma demo_dir_at : dir_at demo_dirs 2 1 0 demo_dir.
Proof.
  constructor; try (vm_compute; reflexivity).
  - constructor; [|vm_compute; reflexivity]. repeat constructor; vm_compute; reflexivity.
  - constructor; cbn; [|lia|vm_compute; congruence]. lia.
  - vm_compute. repeat constructor; intros; congruence.
Qed.

Lemma demo_name_valid : valid_name [97; 98].
Proof. split; [done|]. split; [vm_compute; congruence|]. intros H. apply list_elem_of_In in H. cbn in H. lia. Qed.

Lemma dir_add_lookup_witness :
  ∃ s' r s'', dir_add (λ _, true) (replicate 20 7) 2 [97; 98] 5 demo_dirs = Ok (true, s') ∧
    lookup (λ _, true) 2 [97; 98] s' = Ok (r, s'') ∧ (λ r, inode_sector r.1) <$> r = Some 5.
Proof.
  destruct (dir_add_lookup (λ _, true) demo_dirs 2 1 0 demo_dir (replicate 20 7) [97; 98] 5) as (b & s' & H1 & H2 & H3 & H4).
  - reflexivity.
  - apply demo_dir_at.
  - reflexivity.
  - apply demo_name_valid.
  - unfold in_u. lia.
  - reflexivity.
  - assert (b = true) as ->.
    { apply H3. split; [vm_compute; reflexivity|]. eexists (slot (disk demo_dirs) demo_dir 1). split; [|vm_compute; reflexivity].
      unfold slots. apply list_elem_of_fmap_2, elem_of_seqZ. vm_compute. split; congruence. }
    destruct (H4 [97; 98]) as (r0 & s0 & r1 & s1 & _ & R & E).
    { apply demo_name_valid. }
    exists s', r1, s1. split; [exact H1|]. split; [exact R|]. rewrite E. rewrite decide_True by done. reflexivity.
Defined.
End DirectorySpec.
