(* ===== verification/FilesysProps.v ===== *)
(** * The file system: what fails

    [dir_add] takes a short read for the end of the directory, and
    [filesys_create] gives back only the inode's sector when the name cannot
    be entered. *)

From S2P Require Import Prelude Bitmap Inode InodeSpec Directory DirectorySpec.
Import Bitmap Inode InodeSpec Directory DirectorySpec.

Module FilesysProps.

Section LowMemory.
Context (malloc_ok : nat → bool).

(** An entry's 20 bytes need the bounce buffer. *)
Lemma read_entry_low i x s :
  inodes s !! i = Some x → inode_wf (disk s) x → 20 ≤ length_ (data x) → malloc_ok (allocs s) = false →
  inode_read_at malloc_ok i 20 0 s = Ok ([], bump s).
Proof.
  intros Hi Hx Hl Hm. unfold inode_read_at, get_inode, get, mbind, M_bind. rewrite Hi. cbn [lift mret M_ret].
  pose proof (in_length _ _ Hx). change (Z.to_nat 20) with 20%nat. generalize 20%nat. intros fuel. cbn [read_loop].
  rewrite decide_True by lia. cbv zeta. rewrite (bind_Ok _ _ _ _ _ (chunk_run (length_ (data x)) 20 0 s ltac:(lia) ltac:(lia))).
  assert (chunk_of (length_ (data x)) 20 0 = 20) as -> by (unfold chunk_of; change (0 mod 512) with 0; lia).
  rewrite decide_False by lia. rewrite decide_False by (intros [_ ?]; done).
  unfold need_bounce, alloc, get, put, mbind, M_bind. by rewrite Hm.
Qed.

Lemma write_entry_first i x s bs :
  inodes s !! i = Some x → deny_write_cnt x = 0 → disk_wf (disk s) → inode_wf (disk s) x → 20 ≤ length_ (data x) →
  length bs = 20%nat → malloc_ok (allocs s) = true →
  ∃ s', inode_write_at malloc_ok i bs 20 0 s = Ok (20, s') ∧ wrote s s' x 0 bs.
Proof.
  intros Hi Hdn Hd Hx Hl Hb Hm. pose proof (in_length _ _ Hx) as Hlen. pose proof (in_start _ _ Hx). pose proof (in_end _ _ Hx).
  destruct (inode_write_at_run malloc_ok i x s bs 20 0 Hi Hdn Hd Hx ltac:(lia) ltac:(lia)) as (n & s' & H1 & H2 & H3 & _).
  assert (n = 20) as ->; [|exists s'; split; [done|]; rewrite take_ge in H3 by (rewrite Hb; done); exact H3].
  destruct (sector_lookup (disk s) (start (data x)) Hd ltac:(lia)) as (b & Hsb & Hbl). revert H1.
  unfold inode_write_at, get_inode, get, mbind at 1 2, M_bind at 1 2. rewrite Hi. cbn [lift mret M_ret].
  rewrite decide_False by (rewrite Hdn; by intros []). change (S (Z.to_nat 20)) with (S (S 19)). generalize 19%nat. intros fuel.
  cbn [write_loop]. rewrite decide_True by lia. cbv zeta.
  rewrite (bind_Ok _ _ _ _ _ (chunk_run (length_ (data x)) 20 0 s ltac:(lia) ltac:(lia))).
  assert (chunk_of (length_ (data x)) 20 0 = 20) as -> by (unfold chunk_of; change (0 mod 512) with 0; lia).
  rewrite decide_False by lia. rewrite decide_False by (intros [_ ?]; done).
  destruct (byte_to_sector_run (disk s) x 0) as [-> _]; [done|done|lia|]. unfold sector_of. change (0 / 512) with 0. rewrite Z.add_0_r.
  assert (need_bounce malloc_ok false s = Ok (true, bump s)) as Hnb.
  { unfold need_bounce, alloc, get, put, mbind, M_bind. rewrite Hm. cbn [mret M_ret]. rewrite bool_decide_true; [done|]. unfold NULL. lia. }
  rewrite (bind_Ok _ _ _ _ _ Hnb). rewrite decide_True by (right; done).
  rewrite (bind_Ok _ _ _ _ _ (block_read_run (bump s) (start (data x)) b Hsb ltac:(lia))).
  rewrite (bind_Ok _ _ _ _ _ (block_write_run (bump s) (start (data x)) _ ltac:(cbn [disk bump]; lia))).
  rewrite (bind_Ok _ _ _ _ _ (off_run (0 + 20) _ ltac:(unfold in_s; lia))).
  rewrite decide_False by lia. intros [= <- _]. reflexivity.
Qed.
End LowMemory.

(** When no bounce buffer can be had for the two reads at the start of the
    directory, [dir_add] sees neither the entries in use nor their slots and
    overwrites the first one, reporting success: a file that was there is
    gone.  The comment in [dir_add] takes a short read for the end of the
    file. *)
Theorem dir_add_overwrites malloc_ok s dp i p x blank n sector :
  malloc_ok (allocs s) = false → malloc_ok (S (allocs s)) = false → malloc_ok (S (S (allocs s))) = true →
  dir_at s dp i p x → deny_write_cnt x = 0 → 1 ≤ slot_cnt x → valid_name n → in_u 32 sector → length blank = 20%nat →
  ∃ s', dir_add malloc_ok blank dp n sector s = Ok (true, s') ∧
    slot (disk s') x 0 = DirEntry sector (strlcpy_name (take 15 (drop 4 blank)) n 15) true.
Proof.
  intros M1 M2 M3 Hda Hdn Hsc Hvn Hsec Hbl. pose proof Hvn as (Hne & Hnl & _). pose proof (da_wf _ _ _ _ _ Hda) as Hx.
  assert (20 ≤ length_ (data x)) as Hl by (unfold slot_cnt in Hsc; Z.to_euclidean_division_equations; lia).
  assert (same_but_allocs s (bump s)) as S1 by by exists 1%nat. assert (same_but_allocs s (bump (bump s))) as S2 by by exists 2%nat.
  pose proof (dir_at_same _ _ _ _ _ _ S1 Hda) as Hda1. pose proof (dir_at_same _ _ _ _ _ _ S2 Hda) as Hda2.
  unfold dir_add. rewrite decide_False by (intros [?|?]; [done|lia]).
  assert (lookup malloc_ok dp n s = Ok (None, bump s)) as Hlk.
  { unfold lookup. rewrite (bind_Ok _ _ _ _ _ (get_dir_run _ _ _ _ _ Hda)). cbn [d_inode].
    rewrite (bind_Ok _ _ _ _ _ (entry_bound_run _ _ _ _ _ Hda)). cbn [lookup_loop Nat.add].
    unfold read_entry. change (i32 0) with 0. unfold sizeof_entry.
    pose proof (read_entry_low malloc_ok i x s (da_inode _ _ _ _ _ Hda) Hx Hl M1) as R.
    unfold mbind, M_bind. rewrite R. reflexivity. }
  rewrite (bind_Ok _ _ _ _ _ Hlk). rewrite (bind_Ok _ _ _ _ _ (get_dir_run _ _ _ _ _ Hda1)). cbn [d_inode].
  rewrite (bind_Ok _ _ _ _ _ (entry_bound_run _ _ _ _ _ Hda1)).
  assert (slot_loop malloc_ok (2 + Z.to_nat (length_ (data x))) i 0 blank (bump s) = Ok ((0, blank), bump (bump s))) as Hsl.
  { cbn [slot_loop Nat.add]. unfold sizeof_entry.
    rewrite (bind_Ok _ _ _ _ _ (read_entry_low malloc_ok i x (bump s) (da_inode _ _ _ _ _ Hda1) (da_wf _ _ _ _ _ Hda1) Hl M2)).
    cbv zeta. rewrite decide_False by (intros [? _]; done). reflexivity. }
  rewrite (bind_Ok _ _ _ _ _ Hsl). cbv zeta.
  assert (length (name (decode_entry blank)) = 15%nat) as Hnm by (cbn; rewrite length_take, length_drop; lia).
  destruct (strlcpy_name_spec (name (decode_entry blank)) n Hvn Hnm) as (N1 & _ & _).
  set (new := DirEntry sector (strlcpy_name (name (decode_entry blank)) n 15) true).
  pose proof (encode_length new N1) as Hel.
  destruct (write_entry_first malloc_ok i x (bump (bump s)) (encode_entry new)) as (s' & W1 & _ & W2);
    [apply Hda2|done|apply Hda2|apply Hda2|done|done|done|].
  unfold sizeof_entry. rewrite (bind_Ok _ _ _ _ _ W1). exists s'. split; [reflexivity|].
  rewrite (slot_overwritten (disk (bump (bump s))) (disk s') x 0 (encode_entry new)) by (done || lia).
  by apply decode_encode.
Qed.

(** The entry for "x" of the directory above is lost. *)
Lemma dir_add_overwrites_witness :
  ∃ s', dir_add (λ n, (4 <=? n)%nat) (replicate 20 7) 2 [97; 98] 5 demo_dirs = Ok (true, s') ∧
    slot (disk demo_dirs) demo_dir 0 = demo_entry ∧ inode_sector (slot (disk s') demo_dir 0) = 5.
Proof.
  destruct (dir_add_overwrites (λ n, (4 <=? n)%nat) demo_dirs 2 1 0 demo_dir (replicate 20 7) [97; 98] 5) as (s' & H1 & H2).
  - reflexivity.
  - reflexivity.
  - reflexivity.
  - apply demo_dir_at.
  - reflexivity.
  - vm_compute. congruence.
  - apply demo_name_valid.
  - unfold in_u. lia.
  - reflexivity.
  - exists s'. split; [exact H1|]. split; [vm_compute; reflexivity|]. rewrite H2. reflexivity.
Defined.

(** ** A file whose name is taken *)

(** A disk of 40 sectors with arbitrary contents, formatted. *)
Definition disk40 : fs := Fs (replicate 40 (replicate 512 7)) (Bitmap_ 0 []) NULL ∅ [] ∅ ∅ 0.
Definition mallocs (n : nat) : bool := true.
Definition garbage : list Z := replicate 20 9.

(** The free map after creating files of the given names and sizes, with what
    [filesys_create] returned. *)
Fixpoint create_all (fs : list (list Z * Z)) : F (list (bool * Z)) :=
  match fs with
  | [] => mret []
  | (n, size) :: fs =>
      b ← filesys_create mallocs garbage n size;
      m ← with_free_map (bitmap_count 0 40 true);
      r ← create_all fs; mret ((b, m) :: r)
  end.
Definition created (fs : list (list Z * Z)) : option (list (bool * Z)) :=
  match (filesys_init mallocs [5; 5] true;; create_all fs) disk40 with Ok (r, _) => Some r | Err _ => None end.

(** Creating a file of 600 bytes takes three sectors, its inode and two
    for its data.  Creating it again returns false, as it must, but only the
    inode's sector is given back: each further attempt makes two more sectors
    unusable, although no file owns them, until the disk is full and a file
    with another name cannot be created. *)
Theorem filesys_create_leaks :
  created [([97], 600); ([97], 600); ([97], 600)] = Some [(true, 7); (false, 9); (false, 11)] ∧
  (created (replicate 17 ([97], 600) ++ [([98], 1)]) ≫= last) = Some (false, 39).
Proof. split; vm_compute; reflexivity. Qed.
End FilesysProps.
