(* ===== verification/Exec.v ===== *)
(** * Command lines (userprog/process_create.c)

    What [process_execute] and [start_process] do with the command line: the
    name of the program is cut off from a copy of it, and the words of the
    line are put on the user stack as the arguments of [main].  Memory is byte
    memory, with the page of the user stack mapped in it; addresses do not
    wrap around.  [space] is the address of the literal string of one
    space, [place] that of the local variable of this name. *)

From S2P Require Import Prelude CMem CString Palloc.
Import CMem CString.

Module Exec.

(** [*(uint32_t * ) p = v]. *)
Definition store32 (p v : Z) : C unit :=
  store p v;; store (p + 1) (v / 2 ^ 8);; store (p + 2) (v / 2 ^ 16);; store (p + 3) (v / 2 ^ 24).

(** *** [process_execute] *)

(** The copy's first word, the name of the thread, and [processed]. *)
Definition split_command (fn_copy file_name space : Z) : C (Z * bool) :=
  strlcpy fn_copy file_name Palloc.PGSIZE;;
  r ← strtok_r fn_copy space NULL;
  a ← strlen r.1;
  b ← strlen file_name;
  mret (r.1, bool_decide (a ≠ b)).

(** *** [start_process] *)

(** [while ('\0' != file_name[null_pos]) null_pos++] *)
Fixpoint null_loop (fuel : nat) (file_name null_pos : Z) : C Z :=
  match fuel with
  | O => fail NoFuel
  | S fuel =>
      x ← load (file_name + null_pos);
      if decide (x ≠ 0) then null_loop fuel file_name (null_pos + 1) else mret null_pos
  end.

Definition restore_command (file_name : Z) (processed : bool) : C unit :=
  if processed then
    null_pos ← bounded (λ n, null_loop n file_name 0);
    store (file_name + null_pos) 32
  else mret ().

(** The words of the line, pushed one by one: [esp], [byte_counter] and
    [argc]. *)
Fixpoint push_tokens (fuel : nat) (space s save esp byte_counter argc : Z) : C (Z * Z * Z) :=
  match fuel with
  | O => fail NoFuel
  | S fuel =>
      r ← strtok_r s space save;
      if decide (r.1 ≠ NULL) then
        store32 (esp - 4) r.1;;
        push_tokens fuel space NULL r.2 (esp - 4) (byte_counter + 4) (argc + 1)
      else mret (esp, byte_counter, argc)
  end.

Fixpoint reverse_loop (fuel : nat) (place esp byte_counter i : Z) : C unit :=
  match fuel with
  | O => fail NoFuel
  | S fuel =>
      if decide (i < Z.quot byte_counter 2) then
        let last_pos := byte_counter - 4 in
        memmove place (esp + last_pos - i) 4;;
        memmove (esp + last_pos - i) (esp + i) 4;;
        memmove (esp + i) place 4;;
        reverse_loop fuel place esp byte_counter (i + 4)
      else mret ()
  end.

(** From the copy of the line on the stack to the fake return address; the
    result is the stack pointer the program starts with. *)
Definition push_arguments (file_name esp space place : Z) : C Z :=
  n ← strlen file_name;
  let raw_char_count := n + 1 in
  let esp := esp - raw_char_count in
  strlcpy esp file_name raw_char_count;;
  let token := esp in
  let esp := Z.land esp 0xfffffff0 in
  let esp := esp - 4 in store32 esp 0;;
  let esp := esp - 4 in store32 esp 0;;
  '(esp, byte_counter, argc) ← bounded (λ n, push_tokens n space token NULL esp 8 0);
  let byte_counter := byte_counter + 4 in
  let esp := esp - 4 in store32 esp 0;;
  let byte_counter :=
    if decide (Z.rem byte_counter 16 ≠ 0) then Z.land (byte_counter + 16) 0xfffffff0 else byte_counter in
  let esp := Z.land esp 0xfffffff0 in
  reverse_loop (S (Z.to_nat byte_counter)) place esp byte_counter 0;;
  store32 (esp + 4) (esp + 8);;
  store32 esp argc;;
  mret (esp - 4).

End Exec.
