(* ===== verification/ExecSpec.v ===== *)
(** * Command lines: theorems

    [push_arguments] lays out [argc], [argv] and the words of the command line
    as [main] expects them. *)

From S2P Require Import Prelude Bitmap CMem CString CStringSpec CStringEdit Palloc Exec.
Import CMem CString CStringSpec CStringEdit Exec.

Module ExecSpec.

(** ** Words *)

Definition word_at (m : mem) (p v : Z) : Prop := bytes_at m p (le32 v).

Lemma store32_run m p v : mapped m p 4 → store32 p v m = Ok ((), write p (le32 v) m).
Proof.
  intros Hm. unfold store32.
  erewrite bind_Ok by (apply store_run, Hm; unfold in_range; lia).
  erewrite bind_Ok by (apply store_run; rewrite lookup_insert_ne by lia; apply Hm; unfold in_range; lia).
  erewrite bind_Ok by (apply store_run; rewrite !lookup_insert_ne by lia; apply Hm; unfold in_range; lia).
  rewrite store_run by (rewrite !lookup_insert_ne by lia; apply Hm; unfold in_range; lia).
  do 2 f_equal. unfold le32. cbn [write].
  replace (p + 1 + 1) with (p + 2) by lia. replace (p + 2 + 1) with (p + 3) by lia.
  rewrite (insert_insert_ne _ (p + 3) (p + 2)), (insert_insert_ne _ (p + 3) (p + 1)), (insert_insert_ne _ (p + 3) p) by lia.
  rewrite (insert_insert_ne _ (p + 2) (p + 1)), (insert_insert_ne _ (p + 2) p) by lia.
  by rewrite (insert_insert_ne _ (p + 1) p) by lia.
Qed.

Lemma mapped_write m p n q bs : mapped m p n → mapped (write q bs m) p n.
Proof.
  intros Hm a Ha. destruct (decide (in_range q (Z.of_nat (length bs)) a)) as [Hr|Hr].
  - unfold in_range in Hr. pose proof (write_bytes_at q bs m) as Hb. apply bytes_at_mapped in Hb. by apply Hb.
  - rewrite write_lookup_out by done. by apply Hm.
Qed.

Lemma mapped_sub m p n q k : mapped m p n → p ≤ q → q + Z.of_nat k ≤ p + Z.of_nat n → mapped m q k.
Proof. intros Hm H1 H2 a Ha. apply Hm. unfold in_range in *. lia. Qed.

Lemma mapped_ext m m' p n : (∀ a, m' !! a = m !! a) → mapped m p n → mapped m' p n.
Proof. intros He Hm a Ha. rewrite He. by apply Hm. Qed.

Lemma write_apart p bs m q cs :
  bytes_at m q cs → apart p (Z.of_nat (length bs)) q (Z.of_nat (length cs)) → bytes_at (write p bs m) q cs.
Proof.
  intros Hb Ha. eapply bytes_at_ext; [|exact Hb]. intros a Hr. apply write_lookup_out. unfold apart, in_range in *. lia.
Qed.

(** Rounding down to a multiple of 16. *)
Lemma land_align x : in_u 32 x → Z.land x 0xfffffff0 = x / 16 * 16.
Proof.
  intros Hx. apply Z.bits_inj'. intros n Hn. change 0xfffffff0 with (Z.shiftl (Z.ones 28) 4). change 16 with (2 ^ 4).
  rewrite <- Z.shiftl_mul_pow2, <- Z.shiftr_div_pow2 by lia.
  rewrite Z.land_spec, !Z.shiftl_spec by done. destruct (decide (n < 4)).
  - rewrite !(Z.testbit_neg_r _ (n - 4)) by lia. apply andb_false_r.
  - rewrite Z.shiftr_spec by lia. replace (n - 4 + 4) with n by lia.
    destruct (decide (n < 32)); [rewrite Z.ones_spec_low by lia; apply andb_true_r|].
    by rewrite (Bitmap.Bitmap.in_u_testbit x n Hx) by lia.
Qed.

Lemma align_words a k : (a * 16 - 4 * (k + 3)) / 16 * 16 = a * 16 - 4 * ((k + 6) / 4 * 4).
Proof. Z.to_euclidean_division_equations. lia. Qed.

(** ** Reversing the words *)

Section Reverse.
Context (place esp n : Z) (q : Z → list Z).
Hypothesis Hplace : 0 < place.
Hypothesis Hesp : 0 < esp.
Hypothesis Hap : apart place 4 esp (4 * n).
Hypothesis Hq : ∀ j, 0 ≤ j < n → length (q j) = 4%nat ∧ Forall (in_u 8) (q j).

(** After [i] rounds, the outer [i] words on both sides are exchanged. *)
Definition swapped (m : mem) (i : Z) : Prop :=
  ∀ j, 0 ≤ j < n → bytes_at m (esp + 4 * j) (q (if decide (j < i ∨ n - i ≤ j) then n - 1 - j else j)).

Lemma memmove_word m dst src bs :
  0 < dst → 0 < src → length bs = 4%nat → Forall (in_u 8) bs → bytes_at m src bs → mapped m dst 4 →
  ∃ r, memmove dst src 4 m = Ok (r, write dst bs m).
Proof.
  intros Hd Hs Hl Hu Hb Hm. change 4 with (Z.of_nat 4). rewrite <- Hl. eexists.
  apply memmove_run; [unfold NULL; lia|unfold NULL; lia|done|by rewrite Hl|done].
Qed.

Lemma swap_round m i :
  swapped m i → 0 ≤ i → 2 * i + 2 ≤ n → mapped m place 4 →
  ∃ m', (∀ k, (memmove place (esp + (4 * n - 4) - 4 * i) 4;; memmove (esp + (4 * n - 4) - 4 * i) (esp + 4 * i) 4;;
               memmove (esp + 4 * i) place 4;; k) m = (k : C unit) m') ∧
    swapped m' (i + 1) ∧ mapped m' place 4 ∧
    (∀ a, ¬ in_range esp (4 * n) a → ¬ in_range place 4 a → m' !! a = m !! a).
Proof.
  intros Hs Hi Hn Hm. set (l := n - 1 - i). replace (esp + (4 * n - 4) - 4 * i) with (esp + 4 * l) by lia.
  destruct (Hq i) as [Li Ui]; [lia|]. destruct (Hq l) as [Ll Ul]; [lia|].
  pose proof (Hs i ltac:(lia)) as Bi. rewrite decide_False in Bi by lia.
  pose proof (Hs l ltac:(lia)) as Bl. rewrite decide_False in Bl by lia.
  set (m1 := write place (q l) m). set (m2 := write (esp + 4 * l) (q i) m1). set (m3 := write (esp + 4 * i) (q l) m2).
  assert (bytes_at m1 (esp + 4 * i) (q i)) as Bi1 by (apply write_apart; [done|unfold apart in *; lia]).
  assert (bytes_at m1 (esp + 4 * l) (q l)) as Bl1 by (apply write_apart; [done|unfold apart in *; lia]).
  assert (bytes_at m2 place (q l)) as Bp2.
  { apply write_apart; [apply write_bytes_at|unfold apart in *; lia]. }
  assert (mapped m2 (esp + 4 * i) 4) as M2.
  { apply mapped_write. rewrite <- Li. by apply bytes_at_mapped. }
  exists m3. split_and!.
  - intros k. destruct (memmove_word m place (esp + 4 * l) (q l)) as [r1 R1]; [lia|lia|done..|].
    rewrite (bind_Ok _ _ _ _ _ R1). fold m1.
    destruct (memmove_word m1 (esp + 4 * l) (esp + 4 * i) (q i)) as [r2 R2]; [lia|lia|done|done|done| |].
    { rewrite <- Ll. by apply bytes_at_mapped. }
    rewrite (bind_Ok _ _ _ _ _ R2). fold m2.
    destruct (memmove_word m2 (esp + 4 * i) place (q l)) as [r3 R3]; [lia|lia|done..|].
    by rewrite (bind_Ok _ _ _ _ _ R3).
  - intros j Hj. destruct (decide (j = i)) as [->|Hji]; [|destruct (decide (j = l)) as [->|Hjl]].
    + rewrite decide_True by lia. fold l. apply write_bytes_at.
    + rewrite decide_True by lia. replace (n - 1 - l) with i by lia.
      apply write_apart; [apply write_bytes_at|unfold apart in *; lia].
    + pose proof (Hs j Hj) as Bj. set (x := q (if decide (j < i ∨ n - i ≤ j) then n - 1 - j else j)) in Bj.
      assert (q (if decide (j < i + 1 ∨ n - (i + 1) ≤ j) then n - 1 - j else j) = x) as ->.
      { unfold x. f_equal. do 2 case_decide; lia. }
      assert (length x = 4%nat) by (apply Hq; case_decide; lia).
      repeat (apply write_apart; [|unfold apart in *; lia]). done.
  - by do 3 apply mapped_write.
  - intros a H1 H2. unfold in_range in *. unfold m3, m2, m1.
    rewrite !write_lookup_out; [done|unfold in_range; lia..].
Qed.

Lemma reverse_loop_run fuel m i d :
  swapped m i → 0 ≤ i → n = 2 * (i + Z.of_nat d) → mapped m place 4 → (d < fuel)%nat →
  ∃ m', reverse_loop fuel place esp (4 * n) (4 * i) m = Ok ((), m') ∧
    (∀ j, 0 ≤ j < n → bytes_at m' (esp + 4 * j) (q (n - 1 - j))) ∧
    (∀ a, ¬ in_range esp (4 * n) a → ¬ in_range place 4 a → m' !! a = m !! a).
Proof.
  revert m i fuel. induction d as [|d IH]; intros m i fuel Hs Hi Hn Hm Hf; (destruct fuel as [|fuel]; [lia|]); cbn [reverse_loop].
  - rewrite decide_False by (Z.to_euclidean_division_equations; lia). exists m. split; [done|]. split; [|done].
    intros j Hj. pose proof (Hs j Hj) as H. by rewrite decide_True in H by lia.
  - rewrite decide_True by (Z.to_euclidean_division_equations; lia). cbv zeta.
    destruct (swap_round m i Hs Hi ltac:(lia) Hm) as (m1 & R & S1 & M1 & O1). rewrite R.
    destruct (IH m1 (i + 1) fuel) as (m' & R' & S' & O'); [done|lia|lia|done|lia|].
    exists m'. replace (4 * i + 4) with (4 * (i + 1)) by lia. split; [done|]. split; [done|].
    intros a H1 H2. by rewrite O', O1.
Qed.
End Reverse.

(** ** Pushing the words of the line *)

Section Push.
Context (space : Z) (d : list Z).
Hypothesis Hspace : 0 < space.

(** A word of the string [str] at [p]. *)
Definition word_of (m : mem) (p : Z) (str : list Z) (t : Z) (w : list Z) : Prop :=
  str_at m t w ∧ p ≤ t ∧ t + Z.of_nat (length w) ≤ p + Z.of_nat (length str).

(** The call that finds no word. *)
Lemma strtok_r_none m s p save str :
  (if decide (s = NULL) then save else s) = p → 0 < p → str_at m space d → str_at m p str → Forall (in_u 8) str →
  drop (leading d str) str = [] → strtok_r s space save m = Ok ((NULL, p + Z.of_nat (leading d str)), m).
Proof. intros. rewrite (strtok_r_start space d Hspace m s p save str) by done. by rewrite bool_decide_false by naive_solver. Qed.

Lemma word_of_mono m m' p p' str str' t w :
  word_of m p str t w → p' ≤ p → p + Z.of_nat (length str) ≤ p' + Z.of_nat (length str') →
  (∀ a, in_range p (Z.of_nat (length str) + 1) a → m' !! a = m !! a) → word_of m' p' str' t w.
Proof.
  intros (Hs & H1 & H2) Hp Hl He. split; [|lia]. eapply str_at_ext; [|exact Hs]. intros a Ha. apply He. unfold in_range in *. lia.
Qed.

Lemma push_tokens_run n m s save p str esp b c (k := length (tokens d str)) :
  (if decide (s = NULL) then save else s) = p → 0 < p → str_at m space d → str_at m p str → Forall (in_u 8) str →
  apart p (Z.of_nat (length str) + 1) space (Z.of_nat (length d) + 1) →
  apart (esp - 4 * Z.of_nat k) (4 * Z.of_nat k) space (Z.of_nat (length d) + 1) →
  esp ≤ p → mapped m (esp - 4 * Z.of_nat k) (4 * k) → (length str < n)%nat →
  ∃ m' ts, push_tokens n space s save esp b c m =
      Ok ((esp - 4 * Z.of_nat k, b + 4 * Z.of_nat k, c + Z.of_nat k), m') ∧
    Forall2 (word_of m' p str) ts (tokens d str) ∧
    (∀ i t, ts !! i = Some t → word_at m' (esp - 4 * (Z.of_nat i + 1)) t) ∧
    (∀ a, ¬ in_range p (Z.of_nat (length str)) a → ¬ in_range (esp - 4 * Z.of_nat k) (4 * Z.of_nat k) a → m' !! a = m !! a).
Proof.
  subst k. revert m s save p str esp b c.
  induction n as [|n IH]; intros m s save p str esp b c Es Hp Hd Hs Hu Hap Has Hle Hm Hn; [lia|]. cbn [push_tokens].
  pose proof (tokens_step d str) as Et. destruct (drop (leading d str) str) as [|x str''] eqn:E.
  { rewrite (bind_Ok _ _ _ _ _ (strtok_r_none m s p save str Es Hp Hd Hs Hu E)). rewrite Et in *. cbn [fst length] in *.
    rewrite decide_False by (intros H; by apply H). exists m, []. rewrite !Z.mul_0_r, Z.sub_0_r, !Z.add_0_r.
    split; [done|]. split; [constructor|]. split; [|done]. intros i t H. by rewrite lookup_nil in H. }
  destruct (strtok_r_token space d Hspace m s p save str Es Hp Hd Hs Hu) as (m1 & save1 & Hrun & Ht & Hr & Hge & Hlen & Hout);
    [by rewrite E|]. pose proof (length_drop str (leading d str)) as Hl'.
  assert (Forall (in_u 8) (drop (leading d str) str)) as Hu' by (by apply Forall_drop). rewrite E in *. clear E. cbv beta iota zeta in Et.
  set (str' := x :: str'') in *. set (token := p + Z.of_nat (leading d str)) in *.
  set (l := token_len d str') in *. set (rest := drop (S l) str') in *.
  assert (length rest = length str' - S l)%nat as Hlr by apply length_drop.
  assert (0 < length str')%nat as Hpos by (cbn; lia).
  assert (l ≤ length str')%nat as Hk by apply span_le.
  rewrite Et in Has, Hm |- *. cbn [length] in Has, Hm |- *. set (k := length (tokens d rest)) in *.
  rewrite (bind_Ok _ _ _ _ _ Hrun). cbn [fst snd]. rewrite decide_True by (unfold NULL; lia).
  assert (mapped m1 (esp - 4 * Z.of_nat (S k)) (4 * S k)) as Hm1.
  { intros a Ha. rewrite Hout; [by apply Hm|]. unfold in_range in *. lia. }
  rewrite (bind_Ok _ _ _ _ _ (store32_run m1 (esp - 4) token ltac:(eapply mapped_sub; [exact Hm1|lia|lia]))).
  set (m2 := write (esp - 4) (le32 token) m1).
  assert (∀ a, ¬ in_range (esp - 4) 4 a → m2 !! a = m1 !! a) as Ho2 by (intros a Ha; by apply write_lookup_out).
  destruct (IH m2 NULL save1 save1 rest (esp - 4) (b + 4) (c + 1)) as (m' & ts & R & T & W & O).
  - by rewrite decide_True.
  - lia.
  - eapply str_at_ext; [|exact Hd]. unfold apart, in_range in *. intros a Ha. rewrite Ho2, Hout; [done|unfold in_range; lia..].
  - eapply str_at_ext; [|exact Hr]. unfold in_range in *. intros a Ha. rewrite Ho2; [done|unfold in_range; lia].
  - by apply Forall_drop.
  - unfold apart in *. lia.
  - fold k. unfold apart in *. lia.
  - lia.
  - fold k. apply mapped_write. eapply mapped_sub; [exact Hm1|lia|lia].
  - lia.
  - fold k in R, O. exists m', (token :: ts). split; [rewrite R; f_equal; f_equal; f_equal; [f_equal|]; lia|].
    assert (∀ a, ¬ in_range save1 (Z.of_nat (length rest)) a → ¬ in_range (esp - 4 - 4 * Z.of_nat k) (4 * Z.of_nat k + 4) a → m' !! a = m1 !! a) as Ho'.
    { intros a H1 H2. rewrite O, Ho2; [done|unfold in_range in *; lia..]. }
    split; [|split].
    + constructor.
      * split; [|rewrite length_take; lia]. eapply str_at_ext; [|exact Ht]. rewrite length_take. intros a Ha.
        apply Ho'; unfold in_range in *; lia.
      * eapply Forall2_impl; [exact T|]. intros t w Hw. eapply word_of_mono; [exact Hw|lia|lia|done].
    + intros [|i] t Hi; cbn in Hi.
      * injection Hi as <-. replace (esp - 4 * (Z.of_nat 0 + 1)) with (esp - 4) by lia.
        eapply bytes_at_ext; [|apply write_bytes_at]. rewrite le32_length. intros a Ha. apply O; unfold in_range in *; lia.
      * replace (esp - 4 * (Z.of_nat (S i) + 1)) with (esp - 4 - 4 * (Z.of_nat i + 1)) by lia. by apply W.
    + intros a H1 H2. unfold in_range in *. rewrite Ho', Hout; [done|unfold in_range; lia..].
Qed.
End Push.

(** ** The stack of a new process *)

(** A memory of bytes. *)
Definition bytes_ok (m : mem) : Prop := map_Forall (λ _ b, in_u 8 b) m.

(** The four bytes at [p]. *)
Definition quad (m : mem) (p : Z) : list Z := (λ i, default 0 (m !! (p + i))) <$> seqZ 0 4.

Lemma quad_at m p : mapped m p 4 → bytes_at m p (quad m p).
Proof.
  intros Hm i b Hi. unfold quad in Hi. apply list_lookup_fmap_Some in Hi as (x & -> & Hx). apply lookup_seqZ in Hx as [-> Hx].
  destruct (Hm (p + Z.of_nat i)) as [c Hc]; [unfold in_range; lia|]. by rewrite Z.add_0_l, Hc.
Qed.

Lemma quad_bytes m p : bytes_ok m → Forall (in_u 8) (quad m p).
Proof.
  intros Hm. apply Forall_fmap, Forall_forall. intros i _. cbn. destruct (m !! (p + i)) as [b|] eqn:E; [by apply Hm in E|].
  unfold in_u. cbn. lia.
Qed.

(** Words of the line, and the spaces before the first one. *)
Abbreviation words := (tokens [32]).

(** The room [push_arguments] takes. *)
Definition stack_room (s : list Z) : Z := Z.of_nat (length s) + 4 * Z.of_nat (length (words s)) + 43.

(** The stack [main] expects: above the return address the number of
    arguments and the address of their vector, which ends with a null
    pointer; each element points to a word. *)
Record main_stack (m : mem) (esp : Z) (args : list (list Z)) : Prop := {
  ms_aligned : (esp + 4) mod 16 = 0;
  ms_argc : word_at m (esp + 4) (Z.of_nat (length args));
  ms_argv : word_at m (esp + 8) (esp + 12);
  ms_args : ∀ i w, args !! i = Some w → ∃ t, word_at m (esp + 12 + 4 * Z.of_nat i) t ∧ str_at m t w;
  ms_null : word_at m (esp + 12 + 4 * Z.of_nat (length args)) 0;
}.

Section Layout.
Context (m : mem) (fn top space place : Z) (s : list Z).
Hypothesis Hfn : 0 < fn.
Hypothesis Hsp : 0 < space.
Hypothesis Hpl : 0 < place.
Hypothesis Htop : top mod 16 = 0 ∧ Palloc.PGSIZE < top ∧ top ≤ Palloc.PHYS_BASE.
Hypothesis Hm : bytes_ok m.
Hypothesis Hs : str_at m fn s.
Hypothesis Hspace : str_at m space [32].
Hypothesis Hplace : mapped m place 4.
Hypothesis Hpage : mapped m (top - Palloc.PGSIZE) (Z.to_nat Palloc.PGSIZE).
Hypothesis Hroom : stack_room s ≤ Palloc.PGSIZE.
Hypothesis Hap1 : apart (top - Palloc.PGSIZE) Palloc.PGSIZE fn (Z.of_nat (length s) + 1).
Hypothesis Hap2 : apart (top - Palloc.PGSIZE) Palloc.PGSIZE space 2.
Hypothesis Hap3 : apart (top - Palloc.PGSIZE) Palloc.PGSIZE place 4.

Let k := Z.of_nat (length (words s)).
Let p := top - (Z.of_nat (length s) + 1).
Let A := p / 16 * 16.
Let n := (k + 6) / 4 * 4.
Let E := A - 4 * n.

Local Ltac arith := unfold stack_room, Palloc.PGSIZE, Palloc.PHYS_BASE, apart, in_range, in_u, E, n, A, p, k in *;
  Z.to_euclidean_division_equations; lia.

Lemma line_bytes : Forall (in_u 8) s.
Proof.
  apply Forall_lookup. intros i b Hb. destruct Hs as [H _]. apply (Hm (fn + Z.of_nat i)). apply H. by apply lookup_app_l_Some.
Qed.

(** The words from [A] downwards before they are reversed. *)
Definition pushed (ts : list Z) (i : Z) : list Z :=
  if decide (i < 2) then le32 0 else
  match ts !! Z.to_nat (i - 2) with
  | Some t => le32 t
  | None => if decide (i = k + 2) then le32 0 else quad m (A - 4 * (i + 1))
  end.

Lemma pushed_quad ts i : length (pushed ts i) = 4%nat ∧ Forall (in_u 8) (pushed ts i).
Proof.
  unfold pushed. repeat case_match; (split; [done|]); first [apply le32_bytes|by apply quad_bytes].
Qed.

Lemma copy_line :
  ∃ m1, strlcpy p fn (Z.of_nat (length s) + 1) m = Ok (Z.of_nat (length s), m1) ∧ str_at m1 p s ∧
    (∀ a, ¬ in_range p (Z.of_nat (length s) + 1) a → m1 !! a = m !! a).
Proof.
  destruct (strlcpy_run m p fn s (Z.of_nat (length s) + 1)) as (m1 & R & S1 & O1); [arith|done|lia|done|apply line_bytes| | |].
  - intros a Ha. apply Hpage. arith.
  - arith.
  - exists m1. rewrite take_ge in S1 by lia. rewrite Z.min_id in O1. done.
Qed.

Lemma pushed_at m1 m3 m4 m5 ts :
  (∀ a, ¬ in_range p (Z.of_nat (length s) + 1) a → m1 !! a = m !! a) →
  m3 = write (A - 8) (le32 0) (write (A - 4) (le32 0) m1) →
  length ts = length (words s) → (∀ i t, ts !! i = Some t → word_at m4 (A - 8 - 4 * (Z.of_nat i + 1)) t) →
  (∀ a, ¬ in_range p (Z.of_nat (length s)) a → ¬ in_range (A - 8 - 4 * k) (4 * k) a → m4 !! a = m3 !! a) →
  m5 = write (A - 4 * (k + 3)) (le32 0) m4 →
  ∀ j, 0 ≤ j < n → bytes_at m5 (A - 4 * (j + 1)) (pushed ts j).
Proof.
  intros O1 E3 Hl W4 O4 E5 j Hj.
  assert (∀ bs, length bs = 4%nat → bytes_at m4 (A - 4 * (j + 1)) bs → j ≠ k + 2 → bytes_at m5 (A - 4 * (j + 1)) bs) as H5.
  { intros bs Hb H Hne. subst m5. apply write_apart; [done|]. rewrite Hb, le32_length. unfold apart. lia. }
  assert (∀ bs, length bs = 4%nat → bytes_at m3 (A - 4 * (j + 1)) bs → j < 2 ∨ k + 2 < j → bytes_at m5 (A - 4 * (j + 1)) bs) as H3.
  { intros bs Hb H Hne. apply H5; [done| |lia]. eapply bytes_at_ext; [|exact H]. intros a Ha. rewrite Hb in Ha. apply O4; arith. }
  unfold pushed. case_decide as H2.
  { apply H3; [done| |lia]. subst m3. destruct (decide (j = 1)) as [->|Hj1]; [apply write_bytes_at|].
    assert (j = 0) as -> by lia. apply write_apart; [apply write_bytes_at|]. rewrite le32_length. unfold apart. lia. }
  destruct (ts !! Z.to_nat (j - 2)) as [t|] eqn:Et.
  { pose proof (lookup_lt_Some _ _ _ Et). apply H5; [done| |unfold k; lia]. apply W4 in Et.
    replace (A - 8 - 4 * (Z.of_nat (Z.to_nat (j - 2)) + 1)) with (A - 4 * (j + 1)) in Et by lia. done. }
  apply lookup_ge_None in Et. case_decide as Hk.
  { subst j m5. replace (A - 4 * (k + 2 + 1)) with (A - 4 * (k + 3)) by lia. apply write_bytes_at. }
  assert (k + 2 < j) by (unfold k in *; lia). apply H3; [done| |lia]. subst m3.
  do 2 (apply write_apart; [|rewrite le32_length; unfold apart; change (length (quad m (A - 4 * (j + 1)))) with 4%nat; lia]).
  eapply bytes_at_ext; [|apply quad_at; eapply mapped_sub; [exact Hpage|arith|arith]].
  intros a Ha. change (length (quad m (A - 4 * (j + 1)))) with 4%nat in Ha. apply O1. arith.
Qed.

Lemma push_words :
  ∃ m5 ts, push_arguments fn top space place m =
      (reverse_loop (S (Z.to_nat (4 * n))) place E (4 * n) 0;;
       store32 (E + 4) (E + 8);; store32 E k;; mret (E - 4)) m5 ∧
    Forall2 (word_of m5 p s) ts (words s) ∧
    (∀ j, 0 ≤ j < n → bytes_at m5 (A - 4 * (j + 1)) (pushed ts j)) ∧
    (∀ a, ¬ in_range (top - Palloc.PGSIZE) Palloc.PGSIZE a → m5 !! a = m !! a).
Proof.
  destruct copy_line as (m1 & R1 & S1 & O1).
  unfold push_arguments. rewrite (bind_Ok _ _ _ _ _ (strlen_run m fn s ltac:(unfold NULL; lia) Hs)). cbv zeta.
  fold p. rewrite (bind_Ok _ _ _ _ _ R1). rewrite (land_align p) by arith. fold A.
  assert (mapped m1 (top - Palloc.PGSIZE) (Z.to_nat Palloc.PGSIZE)) as M1.
  { intros a Ha. destruct (decide (in_range p (Z.of_nat (length s) + 1) a)) as [Hr|Hr].
    - destruct S1 as [B1 _]. apply bytes_at_mapped in B1. apply B1. rewrite length_app. unfold in_range in *. cbn. lia.
    - rewrite O1 by done. by apply Hpage. }
  rewrite (bind_Ok _ _ _ _ _ (store32_run m1 (A - 4) 0 ltac:(eapply mapped_sub; [exact M1|arith|arith]))).
  set (m2 := write (A - 4) (le32 0) m1). replace (A - 4 - 4) with (A - 8) by lia.
  rewrite (bind_Ok _ _ _ _ _ (store32_run m2 (A - 8) 0 ltac:(apply mapped_write; eapply mapped_sub; [exact M1|arith|arith]))).
  set (m3 := write (A - 8) (le32 0) m2).
  assert (∀ a, ¬ in_range (A - 8) 8 a → m3 !! a = m1 !! a) as O3.
  { intros a Ha. unfold m3, m2. rewrite !write_lookup_out; [done|rewrite le32_length; unfold in_range in *; lia..]. }
  assert (str_at m3 p s) as S3.
  { eapply str_at_ext; [|exact S1]. intros a Ha. apply O3. arith. }
  destruct (push_tokens_run space [32] Hsp (S (size m3)) m3 p NULL p s (A - 8) 8 0) as (m4 & ts & R4 & T4 & W4 & O4).
  { rewrite decide_False; [done|]. unfold NULL. arith. }
  { arith. }
  { eapply str_at_ext; [|exact Hspace]. cbn. intros a Ha. rewrite O3, O1; [done|arith..]. }
  { done. }
  { apply line_bytes. }
  { cbn. arith. }
  { cbn. arith. }
  { arith. }
  { do 2 apply mapped_write. eapply mapped_sub; [exact M1|arith|arith]. }
  { by eapply str_at_size. }
  fold k in R4, O4. assert (bounded (λ n, push_tokens n space p NULL (A - 8) 8 0) m3 = Ok ((A - 8 - 4 * k, 8 + 4 * k, 0 + k), m4)) as R4' by exact R4.
  rewrite (bind_Ok _ _ _ _ _ R4'). rewrite Z.add_0_l. replace (A - 8 - 4 * k - 4) with (A - 4 * (k + 3)) by lia.
  assert (mapped m3 (top - Palloc.PGSIZE) (Z.to_nat Palloc.PGSIZE)) as M3 by (by do 2 apply mapped_write).
  assert (∀ a, in_range (top - Palloc.PGSIZE) (A - 8 - 4 * k - (top - Palloc.PGSIZE)) a → m4 !! a = m1 !! a) as O4'.
  { intros a Ha. rewrite O4, O3; [done|arith..]. }
  assert (mapped m4 (A - 4 * (k + 3)) 4) as M4.
  { intros a Ha. rewrite O4' by arith. apply M1. arith. }
  rewrite (bind_Ok _ _ _ _ _ (store32_run m4 (A - 4 * (k + 3)) 0 M4)). set (m5 := write (A - 4 * (k + 3)) (le32 0) m4).
  assert (∀ a, ¬ in_range (A - 4 * (k + 3)) 4 a → m5 !! a = m4 !! a) as O5 by (intros a Ha; by apply write_lookup_out).
  exists m5, ts. split; [|split; [|split]].
  - assert ((if decide (Z.rem (8 + 4 * k + 4) 16 ≠ 0) then Z.land (8 + 4 * k + 4 + 16) 0xfffffff0 else 8 + 4 * k + 4) = 4 * n) as ->.
    { case_decide; [rewrite land_align by arith|]; arith. }
    rewrite (land_align (A - 4 * (k + 3))) by arith. unfold E, A, n. by rewrite align_words.
  - eapply Forall2_impl; [exact T4|]. intros t w Hw. eapply word_of_mono; [exact Hw|lia|lia|]. intros a Ha. apply O5. arith.
  - apply (pushed_at m1 m3 m4 m5 ts); [done|done|by eapply Forall2_length|done|done|done].
  - intros a Ha. rewrite O5, O4, O3, O1; [done|arith..].
Qed.

Lemma layout_bounds :
  top - Palloc.PGSIZE ≤ E ∧ E + 4 * n = A ∧ A ≤ p ∧ p + Z.of_nat (length s) + 1 = top ∧ 0 ≤ k ∧ k + 3 ≤ n ∧ n = 2 * (n / 2) ∧
  E mod 16 = 0.
Proof. split_and!; arith. Qed.

Lemma push_arguments_run :
  ∃ m', push_arguments fn top space place m = Ok (E - 4, m') ∧ top - Palloc.PGSIZE ≤ E < top ∧ main_stack m' (E - 4) (words s) ∧
    (∀ a, ¬ in_range (top - Palloc.PGSIZE) Palloc.PGSIZE a → ¬ in_range place 4 a → m' !! a = m !! a).
Proof.
  destruct push_words as (m5 & ts & R5 & T5 & W5 & O5). rewrite R5.
  assert (Hl := Forall2_length _ _ _ T5). destruct layout_bounds as (B1 & B2 & B3 & B4 & B5 & B6 & B7 & B8).
  clearbody E A p n. pose proof Htop as (_ & Htp & _).
  destruct (reverse_loop_run place E n (λ j, pushed ts (n - 1 - j)) Hpl ltac:(lia) ltac:(unfold apart in *; lia) ltac:(intros; apply pushed_quad)
    (S (Z.to_nat (4 * n))) m5 0 (Z.to_nat (n / 2))) as (m6 & R6 & W6 & O6).
  { intros j Hj. rewrite decide_False by lia. replace (E + 4 * j) with (A - 4 * (n - 1 - j + 1)) by lia. apply W5. lia. }
  { lia. }
  { lia. }
  { intros a Ha. rewrite O5 by (unfold apart, in_range in *; lia). by apply Hplace. }
  { lia. }
  assert (∀ j, 0 ≤ j < n → bytes_at m6 (E + 4 * j) (pushed ts j)) as W6'.
  { intros j Hj. specialize (W6 j Hj). by replace (n - 1 - (n - 1 - j)) with j in W6 by lia. }
  rewrite Z.mul_0_r in R6. rewrite (bind_Ok _ _ _ _ _ R6).
  assert (∀ j, 0 ≤ j < n → mapped m6 (E + 4 * j) 4) as M6.
  { intros j Hj. destruct (pushed_quad ts j) as [L _]. rewrite <- L. by apply bytes_at_mapped, W6'. }
  assert (3 ≤ n) by lia.
  rewrite (bind_Ok _ _ _ _ _ (store32_run m6 (E + 4) (E + 8) (M6 1 ltac:(lia)))).
  set (m7 := write (E + 4) (le32 (E + 8)) m6).
  rewrite (bind_Ok _ _ _ _ _ (store32_run m7 E k ltac:(apply mapped_write; rewrite <- (Z.add_0_r E); apply (M6 0); lia))).
  set (m8 := write E (le32 k) m7). exists m8.
  assert (∀ a, ¬ in_range E 8 a → m8 !! a = m6 !! a) as O8.
  { intros a Ha. unfold m8, m7. rewrite !write_lookup_out; [done|rewrite le32_length; unfold in_range in *; lia..]. }
  assert (∀ j, 2 ≤ j < n → bytes_at m8 (E + 4 * j) (pushed ts j)) as W8.
  { intros j Hj. eapply bytes_at_ext; [|apply W6'; lia]. intros a Ha. destruct (pushed_quad ts j) as [L _]. rewrite L in Ha.
    apply O8. unfold in_range in *. lia. }
  split; [done|]. split; [lia|]. split; [|intros a H1 H2; rewrite O8, O6, O5; [done|unfold apart, in_range in *; lia..]].
  constructor.
  - replace (E - 4 + 4) with E by lia. done.
  - replace (E - 4 + 4) with E by lia. apply write_bytes_at.
  - replace (E - 4 + 8) with (E + 4) by lia. replace (E - 4 + 12) with (E + 8) by lia.
    apply write_apart; [apply write_bytes_at|]. rewrite le32_length. unfold apart. lia.
  - intros i w Hi. destruct (Forall2_lookup_r _ _ _ _ _ T5 Hi) as (t & Ht & Hw). exists t.
    pose proof (lookup_lt_Some _ _ _ Hi). replace (E - 4 + 12 + 4 * Z.of_nat i) with (E + 4 * (2 + Z.of_nat i)) by lia. split.
    + pose proof (W8 (2 + Z.of_nat i) ltac:(unfold k in *; lia)) as Hb. unfold pushed in Hb. rewrite decide_False in Hb by lia.
      replace (Z.to_nat (2 + Z.of_nat i - 2)) with i in Hb by lia. by rewrite Ht in Hb.
    + destruct Hw as (Hw & H1 & H2). eapply str_at_ext; [|exact Hw]. intros a Ha. rewrite O8, O6; [done|unfold apart, in_range in *; lia..].
  - fold k. replace (E - 4 + 12 + 4 * k) with (E + 4 * (k + 2)) by lia. pose proof (W8 (k + 2) ltac:(unfold k in *; lia)) as Hb.
    unfold pushed in Hb. rewrite decide_False in Hb by (unfold k; lia).
    replace (Z.to_nat (k + 2 - 2)) with (length ts) in Hb by (unfold k; lia). rewrite lookup_ge_None_2 in Hb by lia.
    by rewrite decide_True in Hb.
Qed.
End Layout.

(** ** Cutting the name off and putting the space back *)

Lemma bytes_ok_patch m m' p bs :
  bytes_ok m → (∀ a, ¬ in_range p (Z.of_nat (length bs)) a → m' !! a = m !! a) →
  bytes_at m' p bs → Forall (in_u 8) bs → bytes_ok m'.
Proof.
  intros Hm Ho Hb Hu a b Ha. destruct (decide (in_range p (Z.of_nat (length bs)) a)) as [Hr|Hr].
  - unfold in_range in Hr. destruct (lookup_lt_is_Some_2 bs (Z.to_nat (a - p))) as [c Hc]; [lia|].
    pose proof (Hb _ _ Hc) as E. replace (p + Z.of_nat (Z.to_nat (a - p))) with a in E by lia. assert (b = c) as -> by congruence.
    by eapply Forall_lookup_1 in Hu.
  - rewrite Ho in Ha by done. by apply Hm in Ha.
Qed.

Lemma zero_byte : Forall (in_u 8) [0].
Proof. repeat constructor; unfold in_u; lia. Qed.

Lemma null_loop_run m p s i n : str_at m (p + i) s → (length s < n)%nat → null_loop n p i m = Ok (i + Z.of_nat (length s), m).
Proof.
  revert i n. induction s as [|b s IH]; intros i n Hs Hn; (destruct n as [|n]; [cbn in Hn; lia|]); cbn [null_loop].
  - apply str_at_nil in Hs. rewrite (bind_Ok _ _ _ _ _ (load_run _ _ _ Hs)). rewrite decide_False by (intros H; by apply H).
    cbn. by rewrite Z.add_0_r.
  - apply str_at_cons in Hs as (Hb & Hb0 & Hs). rewrite (bind_Ok _ _ _ _ _ (load_run _ _ _ Hb)). rewrite decide_True by done.
    cbn [length] in *. rewrite IH; [do 2 f_equal; lia| |lia]. by rewrite Z.add_assoc.
Qed.

(** [restore_command] on a string overwrites its terminator. *)
Lemma restore_run m p s : 0 < p → str_at m p s → restore_command p true m = Ok ((), <[p + Z.of_nat (length s) := 32]> m).
Proof.
  intros Hp Hs. unfold restore_command.
  assert (bounded (λ n, null_loop n p 0) m = Ok (0 + Z.of_nat (length s), m)) as R.
  { unfold bounded, get, mbind, M_bind. apply null_loop_run; [by rewrite Z.add_0_r|by eapply str_at_size]. }
  rewrite (bind_Ok _ _ _ _ _ R), Z.add_0_l. apply store_run. destruct Hs as [Hb _]. apply bytes_at_app in Hb as [_ Hb].
  apply bytes_at_cons in Hb as [Hb _]. by rewrite Hb.
Qed.

Section Split.
Context (m : mem) (fn_copy file_name space : Z) (s : list Z).
Hypothesis Hc : 0 < fn_copy.
Hypothesis Hf : 0 < file_name.
Hypothesis Hsp : 0 < space.
Hypothesis Hm : bytes_ok m.
Hypothesis Hs : str_at m file_name s.
Hypothesis Hlen : Z.of_nat (length s) < Palloc.PGSIZE.
Hypothesis Hspace : str_at m space [32].
Hypothesis Hpage : mapped m fn_copy (Z.to_nat Palloc.PGSIZE).
Hypothesis Hap1 : apart fn_copy Palloc.PGSIZE file_name (Z.of_nat (length s) + 1).
Hypothesis Hap2 : apart fn_copy Palloc.PGSIZE space 2.

Lemma str_bytes m' p t : bytes_ok m' → str_at m' p t → Forall (in_u 8) t.
Proof.
  intros Hm' [H _]. apply Forall_lookup. intros i b Hb. apply (Hm' (p + Z.of_nat i)). apply H. by apply lookup_app_l_Some.
Qed.

(** The copy. *)
Lemma copy_command :
  ∃ m1, strlcpy fn_copy file_name Palloc.PGSIZE m = Ok (Z.of_nat (length s), m1) ∧ str_at m1 fn_copy s ∧
    str_at m1 file_name s ∧ str_at m1 space [32] ∧ bytes_ok m1 ∧
    (∀ a, ¬ in_range fn_copy (Z.of_nat (length s) + 1) a → m1 !! a = m !! a).
Proof.
  pose proof (str_bytes _ _ _ Hm Hs) as Hu. unfold Palloc.PGSIZE in *.
  destruct (strlcpy_run m fn_copy file_name s 4096) as (m1 & R & S1 & O1); [done|done|lia|done|done| |done|].
  { intros a Ha. apply Hpage. unfold in_range in *. lia. }
  rewrite take_ge in S1 by lia. rewrite Z.min_l in O1 by lia. exists m1. split; [done|]. split; [done|].
  split; [|split; [|split; [|done]]].
  - eapply str_at_ext; [|exact Hs]. intros a Ha. apply O1. unfold apart, in_range in *. lia.
  - eapply str_at_ext; [|exact Hspace]. cbn. intros a Ha. apply O1. unfold apart, in_range in *. lia.
  - destruct S1 as [B1 _]. apply (bytes_ok_patch m m1 fn_copy (s ++ [0])); [done| |done|].
    + rewrite length_app. cbn. intros a Ha. apply O1. unfold in_range in *. lia.
    + apply Forall_app. split; [done|apply zero_byte].
Qed.

(** A blank line has no first word. *)
Lemma split_blank : words s = [] → split_command fn_copy file_name space m = Err Panic.
Proof.
  intros Hw. destruct copy_command as (m1 & R & S1 & S2 & S3 & Hm1 & _). unfold split_command. rewrite (bind_Ok _ _ _ _ _ R).
  pose proof (tokens_step [32] s) as Et. rewrite Hw in Et. destruct (drop (leading [32] s) s) as [|b s'] eqn:E; [|done].
  rewrite (bind_Ok _ _ _ _ _ (strtok_r_none space [32] Hsp m1 fn_copy fn_copy NULL s ltac:(rewrite decide_False; [done|unfold NULL; lia])
    Hc S3 S1 (str_bytes _ _ _ Hm1 S1) E)). done.
Qed.

Let l := leading [32] s.
Let w := take (token_len [32] (drop l s)) (drop l s).

(** Otherwise the first word is cut off at the next space, if there is
    one. *)
Lemma split_word :
  drop l s ≠ [] →
  ∃ m1, split_command fn_copy file_name space m =
      Ok ((fn_copy + Z.of_nat l, bool_decide (Z.of_nat (length w) ≠ Z.of_nat (length s))), m1) ∧
    str_at m1 (fn_copy + Z.of_nat l) w ∧ bytes_at m1 fn_copy (take l s) ∧
    ((l + length w)%nat = length s ∨
     s !! (l + length w)%nat = Some 32 ∧
     bytes_at m1 (fn_copy + Z.of_nat (S (l + length w))) (drop (S (l + length w)) s ++ [0])) ∧
    bytes_ok m1 ∧
    (∀ a, ¬ in_range fn_copy (Z.of_nat (length s) + 1) a → m1 !! a = m !! a).
Proof.
  intros Hne. destruct copy_command as (m1 & R & S1 & S2 & S3 & Hm1 & O1). unfold split_command. rewrite (bind_Ok _ _ _ _ _ R).
  destruct (strtok_r_token space [32] Hsp m1 fn_copy fn_copy NULL s) as (m2 & save & R2 & T2 & D2 & G2 & L2 & O2);
    [rewrite decide_False; [done|unfold NULL; lia]|done|done|done|by eapply str_bytes|done|].
  fold l w in R2, T2, G2, L2, O2, D2. set (k := token_len [32] (drop l s)) in *.
  assert (l ≤ length s)%nat as Hl by apply span_le. assert (k ≤ length (drop l s))%nat as Hk by apply span_le.
  assert (length w = k) as Hw by (unfold w; rewrite length_take; lia).
  pose proof (length_drop s l) as Hdl. pose proof (length_drop (drop l s) (S k)) as Hdk.
  assert (∀ a, ¬ in_range fn_copy (Z.of_nat (length s) + 1) a → m2 !! a = m1 !! a) as O2'.
  { intros a Ha. apply O2. unfold in_range in *. lia. }
  rewrite (bind_Ok _ _ _ _ _ R2). cbn [fst snd].
  rewrite (bind_Ok _ _ _ _ _ (strlen_run m2 (fn_copy + Z.of_nat l) w ltac:(unfold NULL; lia) T2)).
  assert (str_at m2 file_name s) as S2'.
  { eapply str_at_ext; [|exact S2]. intros a Ha. apply O2'. unfold apart, in_range, Palloc.PGSIZE in *. lia. }
  rewrite (bind_Ok _ _ _ _ _ (strlen_run m2 file_name s ltac:(unfold NULL; lia) S2')).
  assert (bytes_at m2 fn_copy (take l s)) as B2.
  { destruct S1 as [B1 _]. rewrite <- (take_drop l s), <- app_assoc in B1. apply bytes_at_app in B1 as [B1 _].
    eapply bytes_at_ext; [|exact B1]. rewrite length_take. intros a Ha. apply O2. unfold in_range in *. lia. }
  assert ((l + k)%nat = length s ∨ s !! (l + k)%nat = Some 32 ∧
     bytes_at m2 (fn_copy + Z.of_nat (S (l + k))) (drop (S (l + k)) s ++ [0])) as Hend.
  { destruct (s !! (l + k)%nat) as [c|] eqn:Ec; [right|left; apply lookup_ge_None in Ec; lia].
    pose proof (lookup_lt_Some _ _ _ Ec). split.
    - rewrite <- lookup_drop in Ec. apply span_stop in Ec. apply dec_stable in Ec. apply list_elem_of_singleton in Ec. by subst.
    - destruct D2 as [D2 _]. rewrite drop_drop in D2. replace (l + S k)%nat with (S (l + k)) in D2 by lia.
      replace save with (fn_copy + Z.of_nat (S (l + k))) in D2 by lia. done. }
  rewrite Hw. exists m2. split; [done|]. split; [done|]. split; [done|]. split; [done|]. split; [|intros a Ha; by rewrite O2', O1].
  pose proof (str_bytes _ _ _ Hm1 S1) as Hu.
  destruct T2 as [T2 _]. assert (bytes_at m2 fn_copy (take l s ++ w ++ [0])) as B.
  { apply bytes_at_app. split; [done|]. by replace (length (take l s)) with l by (rewrite length_take; lia). }
  assert (Forall (in_u 8) (take l s ++ w ++ [0])) as HB.
  { apply Forall_app. split; [by apply Forall_take|]. apply Forall_app. split; [by apply Forall_take, Forall_drop|apply zero_byte]. }
  destruct Hend as [He|[_ He]].
  - apply (bytes_ok_patch m1 m2 fn_copy (take l s ++ w ++ [0])); [done| |done|done].
    rewrite !length_app, length_take. cbn. intros a Ha. apply O2'. unfold in_range in *. lia.
  - apply (bytes_ok_patch m1 m2 fn_copy ((take l s ++ w ++ [0]) ++ drop (S (l + k)) s ++ [0])); [done| | |].
    + rewrite !length_app, length_take, length_drop. cbn. intros a Ha. apply O2'. unfold in_range in *. lia.
    + apply bytes_at_app. split; [done|]. rewrite !length_app, length_take. cbn.
      replace (l `min` length s + (length w + 1))%nat with (S (l + k)) by lia. done.
    + apply Forall_app. split; [done|]. apply Forall_app. split; [by apply Forall_drop|apply zero_byte].
Qed.
End Split.

(** ** The claims *)

(** The memory of a call of exec: the user's line at [file_name], the kernel's
    page [fn_copy], the user stack below [top], and the constants and
    variables of the two functions. *)
Record exec_mem (m : mem) (file_name fn_copy top space place : Z) (s : list Z) : Prop := {
  em_addresses : 0 < file_name ∧ 0 < fn_copy ∧ 0 < space ∧ 0 < place;
  em_top : top mod 16 = 0 ∧ Palloc.PGSIZE < top ∧ top ≤ Palloc.PHYS_BASE;
  em_bytes : bytes_ok m;
  em_line : str_at m file_name s ∧ Z.of_nat (length s) < Palloc.PGSIZE;
  em_space : str_at m space [32];
  em_place : mapped m place 4;
  em_copy : mapped m fn_copy (Z.to_nat Palloc.PGSIZE);
  em_stack : mapped m (top - Palloc.PGSIZE) (Z.to_nat Palloc.PGSIZE);
  em_apart : apart fn_copy Palloc.PGSIZE file_name (Z.of_nat (length s) + 1) ∧ apart fn_copy Palloc.PGSIZE space 2 ∧
    apart fn_copy Palloc.PGSIZE place 4 ∧ apart (top - Palloc.PGSIZE) Palloc.PGSIZE fn_copy Palloc.PGSIZE ∧
    apart (top - Palloc.PGSIZE) Palloc.PGSIZE space 2 ∧ apart (top - Palloc.PGSIZE) Palloc.PGSIZE place 4;
}.

(** The first word ends at a space or with the line; putting the space back
    gives the line again. *)
Lemma restore_split m fn_copy file_name space s k m1 :
  0 < fn_copy → str_at m file_name s → str_at m1 fn_copy (take k s) → (k ≤ length s)%nat →
  (k = length s ∨ s !! k = Some 32 ∧ bytes_at m1 (fn_copy + Z.of_nat (S k)) (drop (S k) s ++ [0])) → bytes_ok m1 → 0 < space →
  ∃ m2, restore_command fn_copy (bool_decide (Z.of_nat k ≠ Z.of_nat (length s))) m1 = Ok ((), m2) ∧ str_at m2 fn_copy s ∧
    bytes_ok m2 ∧ (∀ a, ¬ in_range fn_copy (Z.of_nat (length s) + 1) a → m2 !! a = m1 !! a).
Proof.
  intros Hc [_ Hnz] Hw Hk Hend Hm1 Hsp. destruct Hend as [->|[Hx Hrest]].
  { rewrite bool_decide_false by tauto. exists m1. rewrite take_ge in Hw by lia. done. }
  pose proof (lookup_lt_Some _ _ _ Hx). rewrite bool_decide_true by lia.
  rewrite (restore_run m1 fn_copy _ Hc Hw), length_take. replace (k `min` length s)%nat with k by lia.
  eexists. split; [done|]. destruct Hw as [Hw _]. apply bytes_at_app in Hw as [Hw _]. split; [|split].
  - split; [|done]. rewrite <- (take_drop_middle s k 32 Hx), <- app_assoc. cbn [app]. apply bytes_at_app.
    rewrite length_take. replace (k `min` length s)%nat with k by lia. split.
    + eapply bytes_at_ext; [|exact Hw]. rewrite length_take. intros a Ha. rewrite lookup_insert_ne; [done|]. unfold in_range in Ha. lia.
    + apply bytes_at_cons. split; [apply lookup_insert_eq|]. replace (fn_copy + Z.of_nat k + 1) with (fn_copy + Z.of_nat (S k)) by lia.
      eapply bytes_at_ext; [|exact Hrest]. intros a Ha. rewrite lookup_insert_ne; [done|]. unfold in_range in Ha. lia.
  - apply map_Forall_insert_2; [unfold in_u; lia|done].
  - intros a Ha. rewrite lookup_insert_ne; [done|]. unfold in_range in Ha. lia.
Qed.

(** C29: for a command line that starts with a word and fits the stack page,
    [process_execute] names the thread after the first word, and
    [start_process] restores the line and leaves on the user stack what
    [main] expects: the number of words, their vector with a null
    pointer at the end, and the words themselves, with the stack
    aligned.  Only the copy of the line, the page of the stack and the local
    variable are written. *)
Theorem exec_arguments m file_name fn_copy top space place s :
  exec_mem m file_name fn_copy top space place s → leading [32] s = 0%nat → s ≠ [] → stack_room s ≤ Palloc.PGSIZE →
  ∃ processed m1 m2 m3 esp,
    split_command fn_copy file_name space m = Ok ((fn_copy, processed), m1) ∧
    str_at m1 fn_copy (take (token_len [32] s) s) ∧
    restore_command fn_copy processed m1 = Ok ((), m2) ∧
    push_arguments fn_copy top space place m2 = Ok (esp, m3) ∧
    top - Palloc.PGSIZE ≤ esp + 4 < top ∧ main_stack m3 esp (words s) ∧
    (∀ a, ¬ in_range fn_copy (Z.of_nat (length s) + 1) a → ¬ in_range (top - Palloc.PGSIZE) Palloc.PGSIZE a →
       ¬ in_range place 4 a → m3 !! a = m !! a).
Proof.
  intros [(A1 & A2 & A3 & A4) Ht Hb [Hs Hl] Hsp Hpl Hc Hst (P1 & P2 & P3 & P4 & P5 & P6)] Hld Hne Hroom.
  destruct (split_word m fn_copy file_name space s A2 A1 A3 Hb Hs Hl Hsp Hc P1 P2) as (m1 & R1 & W1 & _ & E1 & Hb1 & O1);
    [by rewrite Hld|].
  rewrite Hld in R1, W1, E1. rewrite Z.add_0_r in R1, W1. rewrite drop_0 in R1, W1, E1. cbn [Nat.add] in E1.
  pose proof (span_le (λ x, x ∉ [32]) s) as Hk. fold (token_len [32] s) in Hk. set (k := token_len [32] s) in *.
  rewrite length_take in R1, E1. replace (k `min` length s)%nat with k in R1, E1 by lia.
  destruct (restore_split m fn_copy file_name space s k m1 A2 Hs W1 Hk E1 Hb1 A3) as (m2 & R2 & S2 & Hb2 & O2).
  assert (∀ a, ¬ in_range fn_copy (Z.of_nat (length s) + 1) a → m2 !! a = m !! a) as O12 by (intros a Ha; by rewrite O2, O1).
  destruct (push_arguments_run m2 fn_copy top space place s) as (m3 & R3 & B3 & M3 & O3);
    [done|done|done|done|done|done| | | |done| |done|done|].
  - eapply str_at_ext; [|exact Hsp]. cbn. intros a Ha. apply O12. unfold apart, in_range, Palloc.PGSIZE in *. lia.
  - intros a Ha. rewrite O12; [by apply Hpl|]. unfold apart, in_range, Palloc.PGSIZE in *. lia.
  - intros a Ha. rewrite O12; [by apply Hst|]. unfold apart, in_range, Palloc.PGSIZE in *. lia.
  - unfold apart, Palloc.PGSIZE in *. lia.
  - eexists _, m1, m2, m3, _. split; [exact R1|]. split; [done|]. split; [exact R2|]. split; [exact R3|]. split; [lia|]. split; [done|].
    intros a H1 H2 H3. by rewrite O3, O12.
Qed.

(** A command line of spaces only (or an empty one) stops the kernel: [strtok_r]
    returns a null pointer, on which [strlen] fails its assertion.  A line
    with spaces before its only word loses its terminator: the shorter name
    counts as cut off, and the space is put where the line ends. *)
Theorem exec_spaces m file_name fn_copy top space place s :
  exec_mem m file_name fn_copy top space place s →
  (words s = [] → split_command fn_copy file_name space m = Err Panic) ∧
  (leading [32] s ≠ 0%nat → words s = [drop (leading [32] s) s] →
   ∃ processed m1 m2, split_command fn_copy file_name space m = Ok ((fn_copy + Z.of_nat (leading [32] s), processed), m1) ∧
     restore_command fn_copy processed m1 = Ok ((), m2) ∧ bytes_at m2 fn_copy (s ++ [32])).
Proof.
  intros [(A1 & A2 & A3 & A4) Ht Hb [Hs Hl] Hsp Hpl Hc Hst (P1 & P2 & P3 & P4 & P5 & P6)].
  split; [by apply split_blank|]. intros Hld Hw. set (l := leading [32] s) in *.
  assert (drop l s ≠ []) as Hne.
  { intros E. pose proof (tokens_step [32] s) as Et. fold l in Et. rewrite E in Et. by rewrite Et in Hw. }
  destruct (split_word m fn_copy file_name space s A2 A1 A3 Hb Hs Hl Hsp Hc P1 P2) as (m1 & R1 & W1 & B1 & _ & _); [done|].
  fold l in R1, W1, B1. assert (take (token_len [32] (drop l s)) (drop l s) = drop l s) as Ew.
  { pose proof (tokens_step [32] s) as Et. fold l in Et. rewrite Hw in Et. destruct (drop l s) as [|c s'] eqn:E; [done|].
    cbv zeta in Et. injection Et as <- _. done. }
  rewrite Ew in R1, W1. pose proof (span_le (λ x, x ∈ [32]) s) as Hle. fold (leading [32] s) in Hle. fold l in Hle.
  rewrite length_drop in R1. rewrite bool_decide_true in R1 by lia.
  assert (str_at m1 fn_copy s) as S1.
  { destruct Hs as [_ Hnz], W1 as [W1 _]. split; [|done]. rewrite <- (take_drop l s) at 1. rewrite <- app_assoc. apply bytes_at_app.
    split; [done|]. rewrite length_take. by replace (l `min` length s)%nat with l by lia. }
  eexists true, m1, _. split; [exact R1|]. split; [apply restore_run; [done|exact S1]|].
  destruct S1 as [S1 _]. apply bytes_at_app in S1 as [S1 _]. apply bytes_at_app. split.
  - eapply bytes_at_ext; [|exact S1]. intros a Ha. rewrite lookup_insert_ne; [done|]. unfold in_range in Ha. lia.
  - apply bytes_at_cons. split; [apply lookup_insert_eq|apply bytes_at_nil].
Qed.

(** A concrete memory: two pages, a line at 16, a space at 8 and the variable at
    12. *)
Definition exec_demo (s : list Z) : mem :=
  write 8 [32; 0] (write 12 [0; 0; 0; 0] (write 16 (s ++ [0]) (write 8192 (replicate 4096 7) (write 4096 (replicate 4096 7) ∅)))).

Lemma write_bytes_ok p bs m : bytes_ok m → Forall (in_u 8) bs → bytes_ok (write p bs m).
Proof.
  intros Hm. revert p. induction bs as [|b bs IH]; intros p Hu; [done|]. apply Forall_cons in Hu as [Hb Hu].
  apply map_Forall_insert_2; [done|by apply IH].
Qed.

Lemma write_mapped p bs m : mapped (write p bs m) p (length bs).
Proof. apply bytes_at_mapped, write_bytes_at. Qed.

Lemma exec_demo_ok s : Forall (λ b, in_u 8 b ∧ b ≠ 0) s → (length s < 4000)%nat → exec_mem (exec_demo s) 16 4096 12288 8 12 s.
Proof.
  intros Hs Hl. assert (Z.to_nat Palloc.PGSIZE = length (replicate 4096 7)) as Hp by (by rewrite length_replicate).
  assert (Forall (in_u 8) s ∧ Forall (λ b, b ≠ 0) s) as [Hu Hnz] by (split; (eapply Forall_impl; [exact Hs|]); by intros ? []).
  assert (Forall (in_u 8) (replicate 4096 7)) as H7 by (apply Forall_replicate; unfold in_u; lia).
  unfold exec_demo. constructor.
  - lia.
  - unfold Palloc.PGSIZE, Palloc.PHYS_BASE. split; [reflexivity|lia].
  - do 2 (apply write_bytes_ok; [|repeat (apply Forall_cons_2; [unfold in_u; lia|]); apply Forall_nil_2]).
    apply write_bytes_ok; [|apply Forall_app; split; [done|apply zero_byte]].
    do 2 (apply write_bytes_ok; [|done]). apply map_Forall_empty.
  - split; [|unfold Palloc.PGSIZE; lia]. split; [|done].
    repeat (apply write_apart; [|cbn; rewrite length_app; cbn; unfold apart; lia]). apply write_bytes_at.
  - split; [apply write_bytes_at|]. by apply Forall_singleton.
  - apply mapped_write, (write_mapped 12 [0; 0; 0; 0]).
  - do 4 apply mapped_write. rewrite Hp. apply write_mapped.
  - do 3 apply mapped_write. rewrite Hp. apply write_mapped.
  - unfold apart, Palloc.PGSIZE. lia.
Qed.

Lemma exec_arguments_witness :
  ∃ processed m1 m2 m3 esp, split_command 4096 16 8 (exec_demo [97; 98; 32; 99]) = Ok ((4096, processed), m1) ∧
    restore_command 4096 processed m1 = Ok ((), m2) ∧ push_arguments 4096 12288 8 12 m2 = Ok (esp, m3) ∧
    main_stack m3 esp [[97; 98]; [99]].
Proof.
  destruct (exec_arguments (exec_demo [97; 98; 32; 99]) 16 4096 12288 8 12 [97; 98; 32; 99])
    as (processed & m1 & m2 & m3 & esp & H1 & _ & H2 & H3 & _ & H4 & _).
  - apply exec_demo_ok; [|cbn; lia]. repeat (apply Forall_cons_2; [unfold in_u; lia|]). apply Forall_nil_2.
  - reflexivity.
  - discriminate.
  - vm_compute. congruence.
  - exists processed, m1, m2, m3, esp. split; [exact H1|]. split; [exact H2|]. split; [exact H3|]. exact H4.
Defined.

Lemma exec_spaces_witness :
  split_command 4096 16 8 (exec_demo [32; 32]) = Err Panic ∧
  ∃ processed m1 m2, split_command 4096 16 8 (exec_demo [32; 97]) = Ok ((4097, processed), m1) ∧
    restore_command 4096 processed m1 = Ok ((), m2) ∧ bytes_at m2 4096 [32; 97; 32].
Proof.
  split.
  - apply (exec_spaces (exec_demo [32; 32]) 16 4096 12288 8 12 [32; 32]); [|reflexivity].
    apply exec_demo_ok; [|cbn; lia]. repeat (apply Forall_cons_2; [unfold in_u; lia|]). apply Forall_nil_2.
  - apply (exec_spaces (exec_demo [32; 97]) 16 4096 12288 8 12 [32; 97]); [|discriminate|reflexivity].
    apply exec_demo_ok; [|cbn; lia]. repeat (apply Forall_cons_2; [unfold in_u; lia|]). apply Forall_nil_2.
Defined.
End ExecSpec.
