(* ===== verification/Loader.v ===== *)
(** * Loading programs (userprog/process_create.c)

    [load] reads an ELF executable through the file system and builds the
    address space of a process from pages of the user pool.  The state is
    the memory, the file system and the members of the process control block
    that [load] uses; the caller holds the semaphore of the file system.
    Switching the task state segment is not modelled. *)

From S2P Require Import Prelude Palloc Pagedir Inode Directory.

Module Loader.

Abbreviation ram := Palloc.ram.
Abbreviation fs := Inode.fs.
Abbreviation PGSIZE := Palloc.PGSIZE.
Abbreviation PGMASK := Palloc.PGMASK.
Abbreviation PHYS_BASE := Palloc.PHYS_BASE.
Abbreviation NULL := Inode.NULL.

(** [enum exiting_status] (process.h). *)
Inductive exiting_status := EXITING_NONE | EXITING_MAIN | EXITING_NORMAL | EXITING_EXCEPTION.
Definition NONE_OR_MAIN (e : exiting_status) : bool :=
  match e with EXITING_NONE | EXITING_MAIN => true | _ => false end.

Record loader := Loader_ { l_ram : ram; l_fs : fs; pagedir : Z; exec : Z; exiting : exiting_status }.
Abbreviation L := (M loader).

Definition on_ram {A} (f : M ram A) : L A := λ s,
  match f (l_ram s) with
  | Ok (a, r) => Ok (a, Loader_ r (l_fs s) (pagedir s) (exec s) (exiting s))
  | Err e => Err e
  end.
Definition on_fs {A} (f : M fs A) : L A := λ s,
  match f (l_fs s) with
  | Ok (a, x) => Ok (a, Loader_ (l_ram s) x (pagedir s) (exec s) (exiting s))
  | Err e => Err e
  end.
Definition set_pagedir (pd : Z) : L unit := modify (λ s, Loader_ (l_ram s) (l_fs s) pd (exec s) (exiting s)).
Definition set_exec (f : Z) : L unit := modify (λ s, Loader_ (l_ram s) (l_fs s) (pagedir s) f (exiting s)).

(** ** ELF structures *)

Definition of_le16 (bs : list Z) : Z := match bs with a :: b :: _ => a + b * 2 ^ 8 | _ => 0 end.

Record Elf32_Ehdr := Ehdr {
  e_ident : list Z; e_type : Z; e_machine : Z; e_version : Z; e_entry : Z; e_phoff : Z; e_shoff : Z;
  e_flags : Z; e_ehsize : Z; e_phentsize : Z; e_phnum : Z; e_shentsize : Z; e_shnum : Z; e_shstrndx : Z;
}.
Definition sizeof_Ehdr : Z := 52.
Definition decode_ehdr (bs : list Z) : Elf32_Ehdr :=
  Ehdr (take 16 bs) (of_le16 (drop 16 bs)) (of_le16 (drop 18 bs)) (of_le32 (drop 20 bs)) (of_le32 (drop 24 bs))
    (of_le32 (drop 28 bs)) (of_le32 (drop 32 bs)) (of_le32 (drop 36 bs)) (of_le16 (drop 40 bs)) (of_le16 (drop 42 bs))
    (of_le16 (drop 44 bs)) (of_le16 (drop 46 bs)) (of_le16 (drop 48 bs)) (of_le16 (drop 50 bs)).

Record Elf32_Phdr := Phdr {
  p_type : Z; p_offset : Z; p_vaddr : Z; p_paddr : Z; p_filesz : Z; p_memsz : Z; p_flags : Z; p_align : Z;
}.
Definition sizeof_Phdr : Z := 32.
Definition decode_phdr (bs : list Z) : Elf32_Phdr :=
  Phdr (of_le32 bs) (of_le32 (drop 4 bs)) (of_le32 (drop 8 bs)) (of_le32 (drop 12 bs)) (of_le32 (drop 16 bs))
    (of_le32 (drop 20 bs)) (of_le32 (drop 24 bs)) (of_le32 (drop 28 bs)).

Definition PT_LOAD : Z := 1.
Definition PT_DYNAMIC : Z := 2.
Definition PT_INTERP : Z := 3.
Definition PT_SHLIB : Z := 5.
Definition PF_W : Z := 2.

(** The bytes of a page, and a page of given bytes. *)
Definition page_bytes (f : list Z) : list Z := concat (le32 <$> f).
Definition page_words (bs : list Z) : list Z := (λ k, of_le32 (drop (4 * k) bs)) <$> seq 0 1024.

(** Bytes stored in a page from offset [ofs] on. *)
Definition store_bytes (page ofs : Z) (bs : list Z) : M ram unit :=
  r ← get;
  f ← lift (Palloc.frames r !! page) Undef;
  if decide (ofs + Z.of_nat (length bs) ≤ PGSIZE) then
    let old := page_bytes f in
    put (Palloc.set_frames
      (<[page := page_words (take (Z.to_nat ofs) old ++ bs ++ drop (Z.to_nat ofs + length bs) old)]> (Palloc.frames r)) r)
  else fail Undef.

Section Load.
Context (malloc_ok : nat → bool).

(** ** Helpers of [load] *)

Definition install_page (upage kpage : Z) (writable : bool) : L bool :=
  pd ← gets pagedir;
  page ← on_ram (Pagedir.pagedir_get_page pd upage);
  if decide (page = 0) then on_ram (Pagedir.pagedir_set_page pd upage kpage writable) else mret false.

(** The value of [*esp], if the stack was set up. *)
Definition setup_stack (top : Z) : L (option Z) :=
  e ← gets exiting;
  if NONE_OR_MAIN e then
    kpage ← on_ram (Palloc.palloc_get_page (Z.lor Palloc.PAL_USER Palloc.PAL_ZERO));
    if decide (kpage ≠ 0) then
      success ← install_page (top - PGSIZE) kpage true;
      if (success : bool) then mret (Some top) else on_ram (Palloc.palloc_free_page kpage);; mret None
    else mret None
  else mret None.

Definition validate_segment (phdr : Elf32_Phdr) (file : Z) : L bool :=
  len ← on_fs (Inode.file_length file);
  mret (bool_decide (Z.land (p_offset phdr) PGMASK = Z.land (p_vaddr phdr) PGMASK) &&
        bool_decide (p_offset phdr ≤ u32 len) &&
        bool_decide (p_filesz phdr ≤ p_memsz phdr) &&
        bool_decide (p_memsz phdr ≠ 0) &&
        Palloc.is_user_vaddr (p_vaddr phdr) &&
        Palloc.is_user_vaddr (u32 (p_vaddr phdr + p_memsz phdr)) &&
        bool_decide (p_vaddr phdr ≤ u32 (p_vaddr phdr + p_memsz phdr)) &&
        bool_decide (PGSIZE ≤ p_vaddr phdr)).

(** The loop of [load_segment], one page per round. *)
Fixpoint segment_loop (fuel : nat) (file upage read_bytes zero_bytes : Z) (writable : bool) : L bool :=
  match fuel with
  | O => fail NoFuel
  | S fuel =>
      if decide (0 < read_bytes ∨ 0 < zero_bytes) then
        let page_read_bytes := if decide (read_bytes < PGSIZE) then read_bytes else PGSIZE in
        let page_zero_bytes := PGSIZE - page_read_bytes in
        kpage ← on_ram (Palloc.palloc_get_page Palloc.PAL_USER);
        if decide (kpage = 0) then mret false else
        bs ← on_fs (Inode.file_read malloc_ok file page_read_bytes);
        on_ram (store_bytes kpage 0 bs);;
        if decide (Z.of_nat (length bs) ≠ page_read_bytes) then on_ram (Palloc.palloc_free_page kpage);; mret false else
        on_ram (store_bytes kpage page_read_bytes (replicate (Z.to_nat page_zero_bytes) 0));;
        ok ← install_page upage kpage writable;
        if (ok : bool) then
          segment_loop fuel file (u32 (upage + PGSIZE)) (u32 (read_bytes - page_read_bytes)) (u32 (zero_bytes - page_zero_bytes)) writable
        else on_ram (Palloc.palloc_free_page kpage);; mret false
      else mret true
  end.

Definition load_segment (file ofs upage read_bytes zero_bytes : Z) (writable : bool) : L bool :=
  ASSERT (bool_decide (u32 (read_bytes + zero_bytes) mod PGSIZE = 0));;
  ASSERT (bool_decide (Palloc.pg_ofs upage = 0));;
  ASSERT (bool_decide (Z.rem ofs PGSIZE = 0));;
  on_fs (Inode.file_seek file ofs);;
  segment_loop (S (Z.to_nat (u32 (read_bytes + zero_bytes) / PGSIZE))) file upage read_bytes zero_bytes writable.

(** [ROUND_UP (x, PGSIZE)] on 32-bit numbers. *)
Definition round_up_page (x : Z) : Z := u32 (u32 (x + PGSIZE - 1) / PGSIZE * PGSIZE).

(** One program header: the body of the switch. *)
Definition load_header (file : Z) (phdr : Elf32_Phdr) : L bool :=
  if decide (p_type phdr = PT_DYNAMIC ∨ p_type phdr = PT_INTERP ∨ p_type phdr = PT_SHLIB) then mret false
  else if decide (p_type phdr = PT_LOAD) then
    valid ← validate_segment phdr file;
    if (valid : bool) then
      let writable := bool_decide (Z.land (p_flags phdr) PF_W ≠ 0) in
      let file_page := Z.land (p_offset phdr) (u32 (Z.lnot PGMASK)) in
      let mem_page := Z.land (p_vaddr phdr) (u32 (Z.lnot PGMASK)) in
      let page_offset := Z.land (p_vaddr phdr) PGMASK in
      if decide (0 < p_filesz phdr) then
        let read_bytes := u32 (page_offset + p_filesz phdr) in
        load_segment file (i32 file_page) mem_page read_bytes
          (u32 (round_up_page (page_offset + p_memsz phdr) - read_bytes)) writable
      else load_segment file (i32 file_page) mem_page 0 (round_up_page (page_offset + p_memsz phdr)) writable
    else mret false
  else mret true.

(** [n] program headers from [file_ofs] on. *)
Fixpoint load_headers (n : nat) (file file_ofs : Z) : L bool :=
  match n with
  | O => mret true
  | S n =>
      len ← on_fs (Inode.file_length file);
      if decide (file_ofs < 0 ∨ file_ofs > len) then mret false else
      on_fs (Inode.file_seek file file_ofs);;
      bs ← on_fs (Inode.file_read malloc_ok file sizeof_Phdr);
      if decide (Z.of_nat (length bs) ≠ sizeof_Phdr) then mret false else
      ok ← load_header file (decode_phdr bs);
      if (ok : bool) then load_headers n file (i32 (u32 (file_ofs + sizeof_Phdr))) else mret false
  end.

(** From the executable header on: the entry point and the stack pointer. *)
Definition load_image (file : Z) : L (option (Z * Z)) :=
  bs ← on_fs (Inode.file_read malloc_ok file sizeof_Ehdr);
  let ehdr := decode_ehdr bs in
  if decide (Z.of_nat (length bs) ≠ sizeof_Ehdr ∨ take 7 (e_ident ehdr) ≠ [127; 69; 76; 70; 1; 1; 1] ∨ e_type ehdr ≠ 2 ∨
             e_machine ehdr ≠ 3 ∨ e_version ehdr ≠ 1 ∨ e_phentsize ehdr ≠ sizeof_Phdr ∨ e_phnum ehdr > 1024)
  then mret None else
  on_fs (Inode.file_deny_write file);;
  set_exec file;;
  ok ← load_headers (Z.to_nat (e_phnum ehdr)) file (i32 (e_phoff ehdr));
  if (ok : bool) then
    esp ← setup_stack PHYS_BASE;
    mret ((λ esp, (e_entry ehdr, esp)) <$> esp)
  else mret None.

(** [process_activate], without [tss_update]. *)
Definition process_activate : L unit := pd ← gets pagedir; on_ram (Pagedir.pagedir_activate pd).

(** The entry point and the stack pointer, or nothing. *)
Definition load (file_name : list Z) : L (option (Z * Z)) :=
  pd ← on_ram Pagedir.pagedir_create;
  set_pagedir pd;;
  if decide (pd = 0) then on_fs (Inode.file_close malloc_ok NULL);; mret None else
  process_activate;;
  file ← on_fs (Directory.filesys_open malloc_ok file_name);
  if decide (file = NULL) then on_fs (Inode.file_close malloc_ok file);; mret None else
  r ← load_image file;
  match r with
  | Some _ => mret r
  | None => on_fs (Inode.file_close malloc_ok file);; mret None
  end.
End Load.

End Loader.
