(* ===== verification/LoaderSpec.v ===== *)
(** * Loading programs: theorems

    A segment's pages hold the bytes of the file and zeros, and no
    executable, however malformed, makes [load] fail an assertion. *)

From S2P Require Import Prelude Bitmap Palloc PallocSpec Pagedir PagedirSpec Inode InodeSpec Directory Loader.
Import Palloc PallocSpec Pagedir PagedirSpec Loader.

Module LoaderSpec.

(** ** Address spaces *)

(** The byte a user program sees at [va]. *)
Definition user_byte (r : ram) (pd va : Z) : option Z :=
  w ← mapping r pd va; f ← frames r !! page_of w; page_bytes f !! Z.to_nat (va mod PGSIZE).

(** The memory of a process: the mapped pages are in use and are neither the
    directory nor its tables. *)
Record space_ok (r : ram) (pd : Z) : Prop := {
  so_ram : ram_wf r;
  so_pd : pd_wf r pd;
  so_frames : ∀ q, is_Some (frames r !! q) → (q - PHYS_BASE) / PGSIZE < init_ram_pages r;
  so_user : ∀ va w, user_addr va → mapping r pd va = Some w →
    allocated r (page_of w) ∧ page_of w ≠ pd ∧ ∀ i, ¬ table r pd i (page_of w);
}.

(** What happens to pages outside of a directory does not concern it. *)
Lemma directory_same r r' pd :
  pd_wf r pd → init_page_dir r' = init_page_dir r →
  (∀ q, q = pd ∨ (∃ i, table r pd i q) → allocated r' q ∧ frames r' !! q = frames r !! q) →
  pd_wf r' pd ∧ (∀ i q, table r' pd i q ↔ table r pd i q) ∧ (∀ va, user_addr va → mapping r' pd va = mapping r pd va).
Proof.
  intros Hpd Hinit Hq. destruct (Hq pd) as [Ha Hf]; [by left|].
  assert (∀ k, word r' pd k = word r pd k) as Hw by (intros k; unfold word; by rewrite Hf).
  assert (∀ i q k, table r pd i q → word r' q k = word r q k) as Hw'.
  { intros i q k Ht. unfold word. rewrite (proj2 (Hq q ltac:(right; by exists i))). done. }
  assert (∀ i q, table r' pd i q ↔ table r pd i q) as Ht by (intros i q; unfold table; by setoid_rewrite Hw).
  split; [|split; [done|]].
  - constructor.
    + done.
    + rewrite Hinit. apply Hpd.
    + intros i e. rewrite Hw. apply Hpd.
    + intros i q Hi%Ht. split; [apply Hq; right; by exists i|]. apply (pd_tables _ _ Hpd i q Hi).
    + intros i j q H1%Ht H2%Ht. by apply (pd_distinct _ _ Hpd i j q).
    + intros i q j w Hi%Ht. rewrite (Hw' i q j Hi). by apply (pd_ptes _ _ Hpd i).
  - intros va Hva. unfold mapping. rewrite Hw. destruct (word r pd (pd_no va)) as [e|] eqn:He; [|done]. cbn.
    destruct (decide (e = 0)); [done|]. rewrite (Hw' (pd_no va)); [done|]. apply table_intro; [apply (user_addr_nos va Hva)|done..].
Qed.

(** The user addresses outside of [P] are as they were, and pages in use stay in
    use. *)
Record kept (r r' : ram) (pd : Z) (P : Z → Prop) : Prop := {
  kp_alloc : ∀ q, allocated r q → allocated r' q;
  kp_map : ∀ va, user_addr va → ¬ P va → mapping r' pd va = mapping r pd va ∧ user_byte r' pd va = user_byte r pd va;
}.

Lemma kept_refl r pd P : kept r r pd P.
Proof. by constructor. Qed.

Lemma kept_weaken r r' pd (P Q : Z → Prop) : kept r r' pd P → (∀ va, P va → Q va) → kept r r' pd Q.
Proof. intros [A M] H. constructor; [done|]. intros va Hva HQ. apply M; [done|]. intros HP. by apply HQ, H. Qed.

Lemma kept_trans r1 r2 r3 pd (P Q R : Z → Prop) :
  kept r1 r2 pd P → kept r2 r3 pd Q → (∀ va, ¬ R va → ¬ P va ∧ ¬ Q va) → kept r1 r3 pd R.
Proof.
  intros [A1 M1] [A2 M2] H. constructor; [auto|]. intros va Hva [HP HQ]%H.
  destruct (M1 va Hva HP) as [<- <-]. by apply M2.
Qed.

(** [k] is a page that was free in [r], is in use in [r1] and not part of the address
    space. *)
Record fresh_page (r r1 : ram) (pd k : Z) : Prop := {
  fp_free : ¬ allocated r k;
  fp_used : allocated r1 k;
  fp_space : space_ok r1 pd;
  fp_apart : k ≠ pd ∧ (∀ i, ¬ table r1 pd i k) ∧ ∀ va w, user_addr va → mapping r1 pd va = Some w → page_of w ≠ k;
  fp_kept : kept r r1 pd (λ _, False);
  fp_tables : ∀ i q, table r1 pd i q ↔ table r pd i q;
  fp_same : init_page_dir r1 = init_page_dir r ∧ init_ram_pages r1 = init_ram_pages r;
}.

Lemma user_byte_same r r' pd va :
  mapping r' pd va = mapping r pd va →
  (∀ w, mapping r pd va = Some w → frames r' !! page_of w = frames r !! page_of w) → user_byte r' pd va = user_byte r pd va.
Proof. intros Hm Hf. unfold user_byte. rewrite Hm. destruct (mapping r pd va) as [w|]; [|done]. cbn. by rewrite Hf. Qed.

Lemma get_user_page_run flags r pd :
  flag flags PAL_USER = true → flag flags PAL_ASSERT = false → space_ok r pd →
  (∃ k r1, palloc_get_page flags r = Ok (k, r1) ∧ k ≠ 0 ∧ fresh_page r r1 pd k ∧
     (flag flags PAL_ZERO = true → frames r1 !! k = Some (replicate 1024 0))) ∨
  palloc_get_page flags r = Ok (0, r).
Proof.
  intros Hu Has Hs. pose proof (so_ram _ _ Hs) as Hwf. pose proof (so_pd _ _ Hs) as Hpd. unfold palloc_get_page.
  destruct (palloc_get_run r flags 1 Hwf ltac:(lia)) as [(k & r1 & Hg & Hho)|[Hno Hg]]; [|right; by rewrite Has in Hg].
  left. exists k, r1. split; [done|]. split; [apply (ho_null _ _ _ _ _ _ Hho)|].
  destruct (fresh_page_pd r r1 _ _ k pd Hpd Hho) as (Hsame & Hpd1 & Htab & Hmap).
  assert (¬ allocated r k) as Hnk by (apply (ho_free _ _ _ _ _ _ Hho), page_in_1; done).
  destruct (ho_same _ _ _ _ _ _ Hho) as (Hinit & Hn & _).
  split.
  2:{ intros Hz. rewrite (ho_frames _ _ _ _ _ _ Hho), decide_True; [done|]. split; [done|by apply page_in_1]. }
  constructor; [done| | | | |done|done].
  - apply (ho_used _ _ _ _ _ _ Hho). right. by apply page_in_1.
  - constructor; [apply (ho_wf _ _ _ _ _ _ Hho)|done| |].
    + intros q Hq%(handed_out_dom r r1 _ _ k q Hwf Hho). rewrite Hn. by apply (so_frames _ _ Hs).
    + intros va w Hva Hw. rewrite Hmap in Hw by done. destruct (so_user _ _ Hs va w Hva Hw) as (H1 & H2 & H3).
      split; [apply (ho_used _ _ _ _ _ _ Hho); by left|]. split; [done|]. intros i Hi%Htab. by apply (H3 i).
  - split; [intros ->; by apply Hnk, Hpd|]. split; [intros i Hi%Htab; by apply Hnk, (pd_tables _ _ Hpd i)|].
    intros va w Hva Hw E. rewrite Hmap in Hw by done. apply Hnk. rewrite <- E. by apply (so_user _ _ Hs va w).
  - constructor; [intros q Hq; apply (ho_used _ _ _ _ _ _ Hho); by left|]. intros va Hva _. split; [by apply Hmap|].
    apply user_byte_same; [by apply Hmap|]. intros w Hw. apply Hsame, (so_user _ _ Hs va w Hva Hw).
Qed.

(** Filling the page. *)
Lemma page_bytes_length f : length f = 1024%nat → length (page_bytes f) = 4096%nat.
Proof.
  intros Hl. unfold page_bytes. assert (∀ g, length (concat (le32 <$> g)) = (4 * length g)%nat) as H.
  { induction g as [|w g IH]; [done|]. cbn [fmap list_fmap concat length]. rewrite length_app, IH, le32_length. cbn. lia. }
  rewrite H. lia.
Qed.

Lemma of_le32_range bs : Forall (in_u 8) bs → in_u 32 (of_le32 bs).
Proof.
  intros H. unfold in_u. destruct bs as [|a [|b [|c [|d l]]]]; cbn [of_le32]; try lia.
  apply Forall_cons in H as [Ha H]. apply Forall_cons in H as [Hb H]. apply Forall_cons in H as [Hc H]. apply Forall_cons in H as [Hd _].
  unfold in_u in *. lia.
Qed.

Lemma page_words_ok bs : Forall (in_u 8) bs → frame_ok (page_words bs).
Proof. intros Hu. split; [done|]. apply Forall_fmap, Forall_forall. intros k _. by apply of_le32_range, Forall_drop. Qed.

Lemma of_le32_bytes a b c d l : Forall (in_u 8) [a; b; c; d] → le32 (of_le32 (a :: b :: c :: d :: l)) = [a; b; c; d].
Proof.
  intros H. apply Forall_cons in H as [Ha H]. apply Forall_cons in H as [Hb H]. apply Forall_cons in H as [Hc H]. apply Forall_cons in H as [Hd _].
  unfold le32, of_le32, wrapu, in_u in *.
  change (2 ^ 8) with 256 in *. change (2 ^ 16) with 65536. change (2 ^ 24) with 16777216.
  repeat f_equal; Z.to_euclidean_division_equations; lia.
Qed.

Lemma words_bytes n bs :
  length bs = (4 * n)%nat → Forall (in_u 8) bs → concat (le32 <$> ((λ k, of_le32 (drop (4 * k) bs)) <$> seq 0 n)) = bs.
Proof.
  revert bs. induction n as [|n IH]; intros bs Hl Hu; [by destruct bs|].
  destruct bs as [|a [|b [|c [|d bs]]]]; try (cbn in Hl; lia).
  change (seq 0 (S n)) with (0%nat :: seq 1 n). rewrite fmap_cons, fmap_cons. cbn [concat].
  apply (Forall_app _ [a; b; c; d] bs) in Hu as [Hu1 Hu2].
  change (drop (4 * 0) (a :: b :: c :: d :: bs)) with (a :: b :: c :: d :: bs). rewrite of_le32_bytes by done.
  cbn [app]. do 4 f_equal. etransitivity; [|apply (IH bs); [cbn in Hl; lia|done]]. f_equal. f_equal.
  rewrite <- fmap_S_seq, <- list_fmap_compose. apply list_fmap_ext. intros i k _. cbn [compose].
  by replace (4 * S k)%nat with (4 + 4 * k)%nat by lia.
Qed.

Lemma page_words_bytes bs : length bs = 4096%nat → Forall (in_u 8) bs → page_bytes (page_words bs) = bs.
Proof. apply (words_bytes 1024). Qed.

Lemma page_bytes_ok f : Forall (in_u 8) (page_bytes f).
Proof. unfold page_bytes. induction f as [|w f IH]; [constructor|]. apply Forall_app. split; [apply le32_bytes|exact IH]. Qed.

Lemma fresh_store r r1 pd k f :
  fresh_page r r1 pd k → frame_ok f → fresh_page r (set_frames (<[k := f]> (frames r1)) r1) pd k.
Proof.
  intros [Hfree Hused Hsp (Hne & Hnt & Hnm) Hkp Htb Hsame] Hf. set (r2 := set_frames _ r1).
  assert (∀ q, q ≠ k → frames r2 !! q = frames r1 !! q) as Hfr by (intros q Hq; unfold r2; cbn; by rewrite lookup_insert_ne).
  destruct (directory_same r1 r2 pd (so_pd _ _ Hsp)) as (Hpd & Ht & Hm); [done| |].
  { intros q Hq. split.
    - apply allocated_frames. destruct Hq as [->|[i Hi]]; [apply (so_pd _ _ Hsp)|apply (pd_tables _ _ (so_pd _ _ Hsp) i q Hi)].
    - apply Hfr. intros ->. destruct Hq as [->|[i Hi]]; [done|by apply (Hnt i)]. }
  constructor; [done|by apply allocated_frames| | | | |done].
  - constructor; [by apply set_frame_wf; [apply Hsp|]|done| |].
    + intros q. unfold r2. cbn. intros Hq. apply (so_frames _ _ Hsp q). destruct (decide (q = k)) as [->|Hqk].
      * destruct (allocated_page r1 k (so_ram _ _ Hsp) Hused) as (_ & g & Hg & _). by rewrite Hg.
      * by rewrite lookup_insert_ne in Hq.
    + intros va w Hva Hw. rewrite Hm in Hw by done. destruct (so_user _ _ Hsp va w Hva Hw) as (H1 & H2 & H3).
      split; [by apply allocated_frames|]. split; [done|]. intros i Hi%Ht. by apply (H3 i).
  - split; [done|]. split; [intros i Hi%Ht; by apply (Hnt i)|]. intros va w Hva Hw. rewrite Hm in Hw by done. by apply (Hnm va w).
  - destruct Hkp as [Ka Km]. constructor; [intros q Hq; by apply allocated_frames, Ka|]. intros va Hva _.
    destruct (Km va Hva) as [E1 E2]; [by intros []|]. split; [by rewrite Hm|]. rewrite <- E2.
    apply user_byte_same; [by apply Hm|]. intros w Hw. apply Hfr. by apply (Hnm va w).
  - intros i q. by rewrite Ht, Htb.
Qed.

Lemma store_bytes_run r r1 pd k ofs bs :
  fresh_page r r1 pd k → 0 ≤ ofs → ofs + Z.of_nat (length bs) ≤ PGSIZE → Forall (in_u 8) bs →
  ∃ r2 f f2, store_bytes k ofs bs r1 = Ok ((), r2) ∧ fresh_page r r2 pd k ∧ frames r1 !! k = Some f ∧ frames r2 !! k = Some f2 ∧
    page_bytes f2 = take (Z.to_nat ofs) (page_bytes f) ++ bs ++ drop (Z.to_nat ofs + length bs) (page_bytes f).
Proof.
  intros Hfp Ho Hl Hu. destruct (allocated_page r1 k (so_ram _ _ (fp_space _ _ _ _ Hfp)) (fp_used _ _ _ _ Hfp)) as (_ & f & Hf & [Hlf Hof]).
  pose proof (page_bytes_length f Hlf) as Hlb. unfold PGSIZE in *.
  set (nb := take (Z.to_nat ofs) (page_bytes f) ++ bs ++ drop (Z.to_nat ofs + length bs) (page_bytes f)).
  assert (Forall (in_u 8) nb) as Hnb.
  { pose proof (page_bytes_ok f). apply Forall_app. split; [by apply Forall_take|]. apply Forall_app. split; [done|by apply Forall_drop]. }
  assert (length nb = 4096%nat) as Hln by (unfold nb; rewrite !length_app, length_take, length_drop; lia).
  eexists _, f, (page_words nb). split.
  { unfold store_bytes, get, put, mbind, M_bind, lift. rewrite Hf. cbn [mret M_ret]. rewrite decide_True by (unfold Loader.PGSIZE, PGSIZE; lia).
    reflexivity. }
  split; [by apply fresh_store, page_words_ok|]. split; [exact Hf|]. split; [exact (lookup_insert_eq (frames r1) k (page_words nb))|]. exact (page_words_bytes nb Hln Hnb).
Qed.

(** Giving the page back. *)
Lemma fresh_free r r1 pd k :
  fresh_page r r1 pd k → ∃ r2, palloc_free_page k r1 = Ok ((), r2) ∧ space_ok r2 pd ∧ kept r r2 pd (λ _, False) ∧
    init_page_dir r2 = init_page_dir r ∧ init_ram_pages r2 = init_ram_pages r.
Proof.
  intros [Hfree Hused Hsp (Hne & Hnt & Hnm) [Ka Km] Htb Hsame]. pose proof (so_ram _ _ Hsp) as Hwf.
  pose proof Hused as (user & i & Hi & E & _).
  destruct (palloc_free_run r1 user k 1) as (r2 & Hr & [G1 G2 G3 G4 _]); [done|exists i; lia|lia| |].
  { intros q ->%page_in_1. done. }
  assert (∀ q, q ≠ k → frames r2 !! q = frames r1 !! q) as Hfr.
  { intros q Hq. rewrite G2, decide_False; [done|]. by intros ?%page_in_1. }
  assert (∀ q, q ≠ k → allocated r1 q → allocated r2 q) as Hal.
  { intros q Hq Ha. apply G1. split; [done|]. by intros ?%page_in_1. }
  destruct (directory_same r1 r2 pd (so_pd _ _ Hsp)) as (Hpd & Ht & Hm); [apply G4| |].
  { intros q Hq. assert (q ≠ k) by (intros ->; destruct Hq as [->|[j Hj]]; [done|by apply (Hnt j)]).
    split; [|by apply Hfr]. apply Hal; [done|]. destruct Hq as [->|[j Hj]]; [apply (so_pd _ _ Hsp)|apply (pd_tables _ _ (so_pd _ _ Hsp) j q Hj)]. }
  exists r2. split; [done|]. split; [|split; [|destruct G4 as (-> & -> & _); apply Hsame]].
  - constructor; [done|done| |].
    + intros q Hq. destruct G4 as (_ & -> & _). apply (so_frames _ _ Hsp q). rewrite G2 in Hq. case_decide as Hd; [|done].
      apply page_in_1 in Hd as ->. destruct (allocated_page r1 k Hwf Hused) as (_ & g & Hg & _). by rewrite Hg.
    + intros va w Hva Hw. rewrite Hm in Hw by done. destruct (so_user _ _ Hsp va w Hva Hw) as (H1 & H2 & H3).
      split; [apply Hal; [by apply (Hnm va w)|done]|]. split; [done|]. intros j Hj%Ht. by apply (H3 j).
  - constructor; [intros q Hq; apply Hal; [by intros ->|by apply Ka]|]. intros va Hva _.
    destruct (Km va Hva) as [E1 E2]; [by intros []|]. split; [by rewrite Hm|]. rewrite <- E2.
    apply user_byte_same; [by apply Hm|]. intros w Hw. apply Hfr. by apply (Hnm va w).
Qed.

(** Mapping the page. *)
Definition in_page (upage va : Z) : Prop := va / PGSIZE = upage / PGSIZE.

Lemma fresh_map r r1 pd k upage writable :
  fresh_page r r1 pd k → user_addr upage → upage mod PGSIZE = 0 → mapping r1 pd upage = None →
  (∃ r2, pagedir_set_page pd upage k writable r1 = Ok (true, r2) ∧ space_ok r2 pd ∧ kept r r2 pd (in_page upage) ∧
     frames r2 !! k = frames r1 !! k ∧ (∀ va, user_addr va → in_page upage va → mapping r2 pd va = Some (entry k (user_flags writable))) ∧
     init_page_dir r2 = init_page_dir r ∧ init_ram_pages r2 = init_ram_pages r) ∨
  pagedir_set_page pd upage k writable r1 = Ok (false, r1).
Proof.
  intros [Hfree Hused Hsp (Hne & Hnt & Hnm) [Ka Km] Htb Hsame] Hup Hofs Hnone. pose proof (so_ram _ _ Hsp) as Hwf.
  destruct (allocated_page r1 k Hwf Hused) as (Hk & f & Hf & _).
  assert ((k - PHYS_BASE) / PGSIZE < init_ram_pages r1) as Hram by (apply (so_frames _ _ Hsp); by rewrite Hf).
  destruct (set_page_run r1 pd upage k writable Hwf (so_pd _ _ Hsp) Hup Hofs Hk Hram Hnone)
    as [(r2 & H1 & H2 & H3 & [G1 G2 G3 G4 G5 (G6 & G7 & _)] & H5)|[_ H]]; [left|by right].
  assert (∀ va w, user_addr va → mapping r1 pd va = Some w → frames r2 !! page_of w = frames r1 !! page_of w) as Hpg.
  { intros va w Hva Hw. destruct (so_user _ _ Hsp va w Hva Hw) as (A1 & A2 & A3). by apply G2. }
  assert (page_of (entry k (user_flags writable)) = k) as Epg by (apply page_of_entry; [done|by destruct writable]).
  exists r2. split; [done|]. split; [|split; [|split; [by apply G2|split]]].
  - constructor; [done|done| |].
    + intros q Hq%G5. rewrite G7. by apply (so_frames _ _ Hsp).
    + intros va w Hva Hw. rewrite H5 in Hw by done. case_decide.
      * injection Hw as <-. rewrite Epg. split; [by apply G1|]. split; [done|]. intros i Hi%G4; [by apply (Hnt i)|done].
      * destruct (so_user _ _ Hsp va w Hva Hw) as (A1 & A2 & A3). split; [by apply G1|]. split; [done|].
        intros i Hi%G4; [by apply (A3 i)|done].
  - constructor; [intros q Hq; by apply G1, Ka|]. intros va Hva Hp. destruct (Km va Hva) as [E1 E2]; [by intros []|].
    assert (mapping r2 pd va = mapping r1 pd va) as E3 by (rewrite H5 by done; by rewrite decide_False).
    split; [by rewrite E3|]. rewrite <- E2. apply user_byte_same; [done|]. intros w Hw. by apply (Hpg va).
  - intros va Hva Hp. rewrite H5 by done. by rewrite decide_True.
  - destruct Hsame. split; congruence.
Qed.

(** ** Files *)

Import Inode InodeSpec.

(** The file [f] is open at position [p] of the inode [x], whose data lie on the
    disk. *)
Record file_at (s : fs) (f i p : Z) (dw : bool) (x : inode) : Prop := {
  fa_file : files s !! f = Some (File i p dw);
  fa_inode : inodes s !! i = Some x;
  fa_disk : disk_wf (disk s);
  fa_wf : inode_wf (disk s) x;
  fa_pos : 0 ≤ p < 2 ^ 31;
}.

Lemma file_at_pos s s' f i p p' dw x :
  file_at s f i p dw x → same_but_allocs s s' → 0 ≤ p' < 2 ^ 31 →
  file_at (set_files (<[f := File i p' dw]> (files s')) s') f i p' dw x ∧ disk s' = disk s.
Proof.
  intros [F1 F2 F3 F4 F5] Hs Hp. destruct (same_disk _ _ Hs) as (E1 & E2 & _). split; [|done].
  constructor; cbn; rewrite ?E1, ?E2; [by rewrite lookup_insert_eq|done..].
Qed.

Section Files.
Context (malloc_ok : nat → bool).

Lemma get_file_run s f x : files s !! f = Some x → get_file f s = Ok (x, s).
Proof. intros H. unfold get_file, get, mbind, M_bind. by rewrite H. Qed.

Lemma file_read_run s f i p dw x size :
  file_at s f i p dw x → 0 ≤ size →
  ∃ bs s', file_read malloc_ok f size s = Ok (bs, s') ∧ file_at s' f i (p + Z.of_nat (length bs)) dw x ∧ disk s' = disk s ∧
    bytes_from (disk s) x p bs ∧ Z.of_nat (length bs) ≤ size.
Proof.
  intros Hf Hs. pose proof Hf as [F1 F2 F3 F4 F5]. pose proof (in_length _ _ F4) as Hl.
  destruct (inode_read_at_run malloc_ok i x s size p F2 F3 F4 F5) as (bs & s1 & R & Hsame & Hb & Hle & _). unfold avail in Hle.
  unfold file_read. rewrite (bind_Ok _ _ _ _ _ (get_file_run s f _ F1)). cbn [f_inode pos].
  rewrite (bind_Ok _ _ _ _ _ R). rewrite (bind_Ok _ _ _ _ _ (off_run (p + Z.of_nat (length bs)) s1 ltac:(unfold in_s; lia))). cbn [f_inode deny_write].
  destruct (file_at_pos s s1 f i p (p + Z.of_nat (length bs)) dw x Hf Hsame ltac:(lia)) as [Hf' Hd].
  exists bs, (set_files (<[f := File i (p + Z.of_nat (length bs)) dw]> (files s1)) s1).
  split; [done|]. split; [done|]. split; [done|]. split; [done|lia].
Qed.

Lemma file_seek_run s f i p dw x p' :
  file_at s f i p dw x → 0 ≤ p' < 2 ^ 31 → ∃ s', file_seek f p' s = Ok ((), s') ∧ file_at s' f i p' dw x ∧ disk s' = disk s.
Proof.
  intros Hf Hp. unfold file_seek. rewrite bool_decide_true by lia. unfold ASSERT, get_file, get, mbind, M_bind. cbn [mret M_ret].
  rewrite (fa_file _ _ _ _ _ _ Hf). cbn [lift mret M_ret f_inode deny_write].
  eexists. split; [done|]. apply (file_at_pos s s f i p p' dw x Hf (same_refl s) Hp).
Qed.

Lemma file_length_run s f i p dw x : file_at s f i p dw x → file_length f s = Ok (length_ (data x), s).
Proof.
  intros [F1 F2 _ _ _]. unfold file_length, inode_length, get_file, get_inode, get, mbind, M_bind. rewrite F1. cbn. by rewrite F2.
Qed.

Lemma file_deny_write_run s f i p x :
  file_at s f i p false x → deny_write_cnt x < open_cnt x →
  ∃ s' x', file_deny_write f s = Ok ((), s') ∧ file_at s' f i p true x' ∧ disk s' = disk s ∧ data x' = data x ∧
    removed x' = removed x ∧ open_cnt x' = open_cnt x ∧ deny_write_cnt x' = deny_write_cnt x + 1.
Proof.
  intros [F1 F2 F3 F4 F5] Hc. unfold file_deny_write, inode_deny_write, get_file, put_file, put_inode, get_inode, get, modify, mbind, M_bind.
  rewrite F1. cbn. rewrite F2. cbn. rewrite bool_decide_true by lia.
  eexists _, (Inode_ (sector x) (open_cnt x) (removed x) (deny_write_cnt x + 1) (data x)). split; [done|]. split; [|done]. constructor; cbn; [by rewrite lookup_insert_eq|by rewrite lookup_insert_eq|done| |done]. by destruct F4.
Qed.

Lemma get_inode_run s i x : inodes s !! i = Some x → get_inode i s = Ok (x, s).
Proof. intros H. unfold get_inode, get, mbind, M_bind. by rewrite H. Qed.

Lemma inode_close_run s i x : inodes s !! i = Some x → removed x = false → ∃ s', inode_close malloc_ok i s = Ok ((), s').
Proof.
  intros Hx Hr. unfold inode_close. case_decide; [eexists; reflexivity|]. rewrite (bind_Ok _ _ _ _ _ (get_inode_run _ _ _ Hx)), Hr.
  unfold put_inode, modify, mbind, M_bind. case_decide; eexists; reflexivity.
Qed.

Lemma file_allow_write_run s f i p dw x :
  file_at s f i p dw x → (dw = true → 0 < deny_write_cnt x ≤ open_cnt x) →
  ∃ s' x', file_allow_write f s = Ok ((), s') ∧ files s' !! f = Some (File i p false) ∧ inodes s' !! i = Some x' ∧
    removed x' = removed x.
Proof.
  intros [F1 F2 F3 F4 F5] Hd. unfold file_allow_write. rewrite (bind_Ok _ _ _ _ _ (get_file_run s f _ F1)). cbn [deny_write f_inode pos].
  destruct dw; [|by exists s, x]. destruct Hd as [Hd1 Hd2]; [done|]. unfold put_file, modify, mbind at 1, M_bind at 1.
  unfold inode_allow_write. rewrite (bind_Ok _ _ _ x (set_files (<[f := File i p false]> (files s)) s)) by (by apply get_inode_run).
  rewrite !bool_decide_true by done. unfold ASSERT, put_inode, modify, mbind, M_bind. cbn [mret M_ret].
  eexists _, (Inode_ (sector x) (open_cnt x) (removed x) (deny_write_cnt x - 1) (data x)).
  split; [reflexivity|]. cbn. rewrite !lookup_insert_eq. done.
Qed.

Lemma file_close_run s f i p dw x :
  file_at s f i p dw x → (dw = true → 0 < deny_write_cnt x ≤ open_cnt x) → removed x = false →
  ∃ s', file_close malloc_ok f s = Ok ((), s').
Proof.
  intros Hf Hd Hr. unfold file_close. case_decide as Hn; [eexists; reflexivity|].
  destruct (file_allow_write_run s f i p dw x Hf Hd) as (s1 & x1 & R1 & F1 & I1 & Hr1). rewrite (bind_Ok _ _ _ _ _ R1).
  rewrite (bind_Ok _ _ _ _ _ (get_file_run s1 f _ F1)). cbn [f_inode].
  destruct (inode_close_run s1 i x1 I1 ltac:(congruence)) as (s2 & R2). rewrite (bind_Ok _ _ _ _ _ R2). eexists. reflexivity.
Qed.
End Files.

(** ** Segments *)

Definition with_ram (r : ram) (s : loader) : loader := Loader_ r (l_fs s) (pagedir s) (exec s) (exiting s).
Definition with_fs (x : fs) (s : loader) : loader := Loader_ (l_ram s) x (pagedir s) (exec s) (exiting s).

Lemma on_ram_run {A} (f : M ram A) s a r : f (l_ram s) = Ok (a, r) → on_ram f s = Ok (a, with_ram r s).
Proof. intros H. unfold on_ram. by rewrite H. Qed.
Lemma on_fs_run {A} (f : M fs A) s a x : f (l_fs s) = Ok (a, x) → on_fs f s = Ok (a, with_fs x s).
Proof. intros H. unfold on_fs. by rewrite H. Qed.

(** A process that is being loaded from the file [f], at position [p]. *)
Record loading (s : loader) (pd f i p : Z) (dw : bool) (x : inode) : Prop := {
  ld_pd : pagedir s = pd;
  ld_space : space_ok (l_ram s) pd;
  ld_file : file_at (l_fs s) f i p dw x;
  ld_bytes : Forall (Forall (in_u 8)) (disk (l_fs s));
}.

(** The same process, later: only the memory, the position in the file and
    the allocations of the file system differ. *)
Record later (s s' : loader) : Prop := {
  lt_pagedir : pagedir s' = pagedir s;
  lt_exec : exec s' = exec s;
  lt_exiting : exiting s' = exiting s;
  lt_disk : disk (l_fs s') = disk (l_fs s);
}.

Lemma later_trans s1 s2 s3 : later s1 s2 → later s2 s3 → later s1 s3.
Proof. intros [] []. constructor; congruence. Qed.

Lemma bytes_from_ok d x p bs : Forall (Forall (in_u 8)) d → bytes_from d x p bs → Forall (in_u 8) bs.
Proof.
  intros Hd Hb. apply Forall_lookup. intros k b Hk. rewrite Hb in Hk by (by eapply lookup_lt_Some). unfold byte in Hk.
  apply bind_Some in Hk as (t & Ht & Hk). eapply Forall_lookup_1 in Hd; [|exact Ht]. by eapply Forall_lookup_1 in Hk.
Qed.

Lemma install_page_run s r pd k upage writable :
  pagedir s = pd → fresh_page r (l_ram s) pd k → user_addr upage → upage mod PGSIZE = 0 →
  ∃ b r2, install_page upage k writable s = Ok (b, with_ram r2 s) ∧
    if b : bool then space_ok r2 pd ∧ kept r r2 pd (in_page upage) ∧ frames r2 !! k = frames (l_ram s) !! k ∧
      (∀ va, user_addr va → in_page upage va → mapping r pd va = None) ∧
      (∀ va, user_addr va → in_page upage va → mapping r2 pd va = Some (entry k (user_flags writable)))
    else r2 = l_ram s.
Proof.
  intros Hpd Hf Hup Hal. pose proof (fp_space _ _ _ _ Hf) as Hsp. unfold install_page, gets, mbind, M_bind. rewrite Hpd.
  pose proof (get_page_run (l_ram s) pd upage (so_ram _ _ Hsp) (so_pd _ _ Hsp) Hup) as Hg.
  rewrite (on_ram_run _ _ _ _ Hg). assert (with_ram (l_ram s) s = s) as -> by by destruct s.
  destruct (mapping (l_ram s) pd upage) as [w|] eqn:Hm.
  - destruct (mapping_page _ _ _ _ (so_ram _ _ Hsp) (so_pd _ _ Hsp) Hup Hm) as [Hb _].
    rewrite decide_False by (cbn [translate]; rewrite Hal; unfold PHYS_BASE in *; lia). exists false, (l_ram s). split; [by destruct s|done].
  - rewrite decide_True by done.
    destruct (fresh_map r (l_ram s) pd k upage writable Hf Hup Hal Hm) as [(r2 & R & H1 & H2 & H3 & H4 & _)|R];
      rewrite (on_ram_run _ _ _ _ R); [exists true, r2|by exists false, (l_ram s)].
    split; [done|]. split; [done|]. split; [done|]. split; [done|]. split; [|done]. intros va Hva Hp.
    rewrite <- (proj1 (kp_map _ _ _ _ (fp_kept _ _ _ _ Hf) va Hva (λ F, F))). unfold mapping.
    destruct (proj2 (same_page va upage (proj1 Hva) (proj1 Hup)) Hp) as [-> ->]. exact Hm.
Qed.

(** What [load_segment] promises of an address that was not mapped: the
    byte [b], in a page that was free before. *)
Definition loaded (r r' : ram) (pd va : Z) (b : option Z) (writable : bool) : Prop :=
  user_byte r' pd va = b ∧ mapping r pd va = None ∧
  ∃ k, ¬ allocated r k ∧ mapping r' pd va = Some (entry k (user_flags writable)).

Section Segments.
Context (malloc_ok : nat → bool) (pd f i : Z) (dw : bool) (x : inode) (writable : bool).

(** The page of one round: [pr] bytes of the file and zeros. *)
Lemma fill_page_run s r p k pr :
  pagedir s = pd → fresh_page r (l_ram s) pd k → file_at (l_fs s) f i p dw x → Forall (Forall (in_u 8)) (disk (l_fs s)) →
  0 ≤ pr ≤ PGSIZE →
  ∃ bs s1 r1, on_fs (file_read malloc_ok f pr) s = Ok (bs, s1) ∧ on_ram (store_bytes k 0 bs) s1 = Ok ((), with_ram r1 s1) ∧
    later s s1 ∧ fresh_page r r1 pd k ∧ file_at (l_fs s1) f i (p + Z.of_nat (length bs)) dw x ∧ Z.of_nat (length bs) ≤ pr ∧
    (Z.of_nat (length bs) = pr →
     ∃ r2 f2, on_ram (store_bytes k pr (replicate (Z.to_nat (PGSIZE - pr)) 0)) (with_ram r1 s1) = Ok ((), with_ram r2 s1) ∧
       fresh_page r r2 pd k ∧ frames r2 !! k = Some f2 ∧
       ∀ j, 0 ≤ j < PGSIZE → page_bytes f2 !! Z.to_nat j = if decide (j < pr) then byte (disk (l_fs s)) x (p + j) else Some 0).
Proof.
  intros Hpd Hf Hfile Hb Hpr.
  destruct (file_read_run malloc_ok (l_fs s) f i p dw x pr Hfile ltac:(lia)) as (bs & x1 & R1 & F1 & D1 & B1 & L1).
  pose proof (bytes_from_ok _ _ _ _ Hb B1) as Hu.
  destruct (store_bytes_run r (l_ram s) pd k 0 bs Hf ltac:(lia) ltac:(lia) Hu) as (r1 & fa & fb & R2 & F2 & Fa & Fb & E2).
  exists bs, (with_fs x1 s), r1. split; [by apply on_fs_run|]. split; [by apply on_ram_run|]. split; [by constructor|].
  split; [done|]. split; [done|]. split; [done|]. intros Hl.
  destruct (store_bytes_run r r1 pd k pr (replicate (Z.to_nat (PGSIZE - pr)) 0) F2 ltac:(lia)) as (r2 & fa' & f2 & R3 & F3 & Fa' & Fc & E3).
  { rewrite length_replicate. lia. }
  { apply Forall_replicate. unfold in_u. lia. }
  exists r2, f2. split; [exact (on_ram_run _ (with_ram r1 (with_fs x1 s)) _ _ R3)|]. split; [done|]. split; [done|]. intros j Hj.
  assert (fa' = fb) as -> by congruence. rewrite E3, E2. cbn [take app].
  change (take (Z.to_nat 0) (page_bytes fa)) with (@nil Z). cbn [app].
  rewrite take_app_le by lia. rewrite (take_ge bs) by lia. case_decide as Hjp.
  - rewrite lookup_app_l by lia. rewrite B1 by lia. f_equal. lia.
  - rewrite lookup_app_r by lia. rewrite lookup_app_l by (rewrite length_replicate; lia). apply lookup_replicate_2. lia.
Qed.

Lemma segment_loop_run (n : nat) fuel s p upage read zero :
  loading s pd f i p dw x → upage mod PGSIZE = 0 → 0 ≤ upage → upage + Z.of_nat n * PGSIZE ≤ PHYS_BASE →
  0 ≤ read → 0 ≤ zero → read + zero = Z.of_nat n * PGSIZE → (n < fuel)%nat →
  ∃ b s' p', segment_loop malloc_ok fuel f upage read zero writable s = Ok (b, s') ∧ loading s' pd f i p' dw x ∧ later s s' ∧
    kept (l_ram s) (l_ram s') pd (λ va, upage ≤ va < upage + Z.of_nat n * PGSIZE) ∧
    (b = true → ∀ j, 0 ≤ j < Z.of_nat n * PGSIZE →
       loaded (l_ram s) (l_ram s') pd (upage + j) (if decide (j < read) then byte (disk (l_fs s)) x (p + j) else Some 0) writable).
Proof.
  revert fuel s p upage read zero.
  induction n as [|n IH]; intros fuel s p upage read zero Hld Hal Hup Hend Hr Hz Hsum Hf; (destruct fuel as [|fuel]; [lia|]); cbn [segment_loop].
  { rewrite decide_False by lia. exists true, s, p. split; [done|]. split; [done|]. split; [by constructor|]. split; [apply kept_refl|]. lia. }
  rewrite decide_True by (unfold PGSIZE in *; lia). cbv zeta. destruct Hld as [Hpd Hsp Hfile Hb].
  set (pr := if decide (read < Loader.PGSIZE) then read else Loader.PGSIZE).
  assert (0 ≤ pr ≤ PGSIZE ∧ pr ≤ read ∧ (read < PGSIZE → pr = read) ∧ (PGSIZE ≤ read → pr = PGSIZE)) as (Hpr & Hprr & Hpr1 & Hpr2).
  { unfold pr, Loader.PGSIZE, PGSIZE in *. case_decide; lia. }
  destruct (get_user_page_run PAL_USER (l_ram s) pd eq_refl eq_refl Hsp) as [(k & r1 & Rg & Hk & Hfp & _)|Rg];
    rewrite (bind_Ok _ _ _ _ _ (on_ram_run _ _ _ _ Rg)).
  2:{ rewrite decide_True by done. exists false, (with_ram (l_ram s) s), p. split; [done|]. split; [by constructor|]. split; [by constructor|].
      split; [apply kept_refl|done]. }
  rewrite decide_False by done.
  assert (user_addr upage) as Hua by (unfold user_addr, PGSIZE in *; lia).
  destruct (fill_page_run (with_ram r1 s) (l_ram s) p k pr Hpd Hfp Hfile Hb Hpr) as (bs & s1 & r2 & R2 & R3 & L1 & F2 & Hf1 & Hle & Hfull).
  rewrite (bind_Ok _ _ _ _ _ R2), (bind_Ok _ _ _ _ _ R3). pose proof (lt_disk _ _ L1) as Hd1.
  assert (∀ r, later s (with_ram r s1)) as Hlt by (intros r; destruct L1; by constructor).
  assert (∀ r, space_ok r pd → loading (with_ram r s1) pd f i (p + Z.of_nat (length bs)) dw x) as Hld1.
  { intros r Hr'. constructor; [by rewrite (lt_pagedir _ _ (Hlt r))|done|done|]. cbn. by rewrite Hd1. }
  destruct (decide (Z.of_nat (length bs) ≠ pr)) as [Hne|Heq].
  { destruct (fresh_free (l_ram s) r2 pd k F2) as (r3 & R4 & Hs3 & Hk3 & _).
    rewrite (bind_Ok _ _ _ _ _ (on_ram_run _ (with_ram r2 s1) _ _ R4)).
    exists false, (with_ram r3 s1), (p + Z.of_nat (length bs)). split; [done|]. split; [by apply Hld1|]. split; [apply Hlt|].
    split; [|done]. by eapply kept_weaken; [exact Hk3|]. }
  apply dec_stable in Heq. destruct (Hfull Heq) as (r3 & f3 & R4 & F3 & Hf3 & Hbytes). rewrite (bind_Ok _ _ _ _ _ R4).
  destruct (install_page_run (with_ram r3 s1) (l_ram s) pd k upage writable) as (b & r4 & R5 & Hb5);
    [by rewrite (lt_pagedir _ _ (Hlt r3))|done|done|done|]. rewrite (bind_Ok _ _ _ _ _ R5).
  destruct b.
  2:{ subst r4. destruct (fresh_free (l_ram s) r3 pd k F3) as (r5 & R6 & Hs5 & Hk5 & _).
      rewrite (bind_Ok _ _ _ _ _ (on_ram_run _ (with_ram r3 (with_ram r3 s1)) _ _ R6)).
      exists false, (with_ram r5 s1), (p + Z.of_nat (length bs)). split; [done|]. split; [by apply Hld1|]. split; [apply Hlt|].
      split; [|done]. by eapply kept_weaken; [exact Hk5|]. }
  destruct Hb5 as (Hs4 & Hk4 & Hf4 & Hn4 & Hm4).
  assert (u32 (upage + Loader.PGSIZE) = upage + PGSIZE ∧ u32 (read - pr) = read - pr ∧
          u32 (zero - (Loader.PGSIZE - pr)) = zero - (PGSIZE - pr)) as (-> & -> & ->).
  { unfold Loader.PGSIZE, PGSIZE, PHYS_BASE in *. rewrite !wrapu_id by (unfold in_u; lia). done. }
  change (with_ram r4 (with_ram r3 s1)) with (with_ram r4 s1).
  destruct (IH fuel (with_ram r4 s1) (p + Z.of_nat (length bs)) (upage + PGSIZE) (read - pr) (zero - (PGSIZE - pr)))
    as (b & s' & p' & R6 & Hld6 & Hlt6 & Hk6 & Hb6); [by apply Hld1|..].
  { unfold PGSIZE in *. Z.to_euclidean_division_equations. lia. }
  { unfold PGSIZE. lia. }
  { unfold PGSIZE in *. lia. }
  { lia. }
  { unfold PGSIZE in *. lia. }
  { unfold PGSIZE in *. lia. }
  { lia. }
  exists b, s', p'. split; [done|]. split; [done|]. split; [by eapply later_trans; [apply Hlt|]|].
  cbn [l_ram with_ram] in Hk6, Hb6. split.
  { eapply kept_trans; [exact Hk4|exact Hk6|]. intros va Hva. unfold in_page, PGSIZE in *. Z.to_euclidean_division_equations. lia. }
  intros Hbt j Hj. specialize (Hb6 Hbt). destruct (decide (j < PGSIZE)) as [Hjp|Hjp].
  - assert (user_addr (upage + j)) as Hua' by (unfold user_addr, PGSIZE in *; lia).
    assert (in_page upage (upage + j)) as Hip by (unfold in_page, PGSIZE in *; Z.to_euclidean_division_equations; lia).
    destruct (kp_map _ _ _ _ Hk6 (upage + j) Hua') as [E1 E2]; [unfold PGSIZE in *; lia|].
    pose proof (Hm4 (upage + j) Hua' Hip) as Hm. split.
    + rewrite E2. unfold user_byte. rewrite Hm. cbn.
      destruct (allocated_page r3 k (so_ram _ _ (fp_space _ _ _ _ F3)) (fp_used _ _ _ _ F3)) as [Hkk _].
      rewrite page_of_entry by (done || by destruct writable). cbn in Hf4. rewrite Hf4, Hf3. cbn.
      replace ((upage + j) mod PGSIZE) with j by (unfold PGSIZE in *; Z.to_euclidean_division_equations; lia).
      rewrite Hbytes by lia. cbn. do 2 case_decide; (done || unfold PGSIZE in *; lia).
    + split; [by apply Hn4|]. exists k. split; [apply (fp_free _ _ _ _ F3)|]. by rewrite E1.
  - destruct (Hb6 (j - PGSIZE)) as (H1 & Hno & k' & H2 & H3); [lia|].
    replace (upage + PGSIZE + (j - PGSIZE)) with (upage + j) in * by lia. split.
    + rewrite H1. cbn [l_fs with_ram]. rewrite Hd1. cbn [l_fs with_ram]. do 2 case_decide; (done || lia || idtac).
      f_equal. unfold PGSIZE in *. lia.
    + split; [|exists k'; split; [|done]; intros Ha; by apply H2, (kp_alloc _ _ _ _ Hk4)]. rewrite <- Hno. symmetry.
      apply (kp_map _ _ _ _ Hk4); [unfold user_addr, PGSIZE in *; lia|]. unfold in_page, PGSIZE in *. Z.to_euclidean_division_equations. lia.
Qed.

Lemma load_segment_run (n : nat) s p ofs upage read zero :
  loading s pd f i p dw x → upage mod PGSIZE = 0 → 0 ≤ upage → upage + Z.of_nat n * PGSIZE ≤ PHYS_BASE →
  0 ≤ read → 0 ≤ zero → read + zero = Z.of_nat n * PGSIZE → 0 ≤ ofs < 2 ^ 31 → ofs mod PGSIZE = 0 →
  ∃ b s' p', load_segment malloc_ok f ofs upage read zero writable s = Ok (b, s') ∧ loading s' pd f i p' dw x ∧ later s s' ∧
    kept (l_ram s) (l_ram s') pd (λ va, upage ≤ va < upage + Z.of_nat n * PGSIZE) ∧
    (b = true → ∀ j, 0 ≤ j < Z.of_nat n * PGSIZE →
       loaded (l_ram s) (l_ram s') pd (upage + j) (if decide (j < read) then byte (disk (l_fs s)) x (ofs + j) else Some 0) writable).
Proof.
  intros [Hpd Hsp Hfile Hb] Hal Hup Hend Hr Hz Hsum Ho Hoa. unfold load_segment.
  assert (u32 (read + zero) = Z.of_nat n * PGSIZE) as ->.
  { rewrite wrapu_id by (unfold in_u, PGSIZE, PHYS_BASE in *; lia). done. }
  rewrite pg_ofs_mod. unfold ASSERT.
  assert (Z.rem ofs Loader.PGSIZE = 0) as Hrem by (rewrite Z.rem_mod_nonneg; (done || unfold Loader.PGSIZE, PGSIZE; lia)).
  rewrite !bool_decide_true by (done || by apply Z.mod_mul).
  destruct (file_seek_run (l_fs s) f i p dw x ofs Hfile Ho) as (s1 & R1 & F1 & D1).
  unfold mbind at 1 2 3, M_bind at 1 2 3. cbn [mret M_ret]. rewrite (bind_Ok _ _ _ _ _ (on_fs_run _ _ _ _ R1)).
  rewrite Z.div_mul by done. rewrite Nat2Z.id.
  destruct (segment_loop_run n (S n) (with_fs s1 s) ofs upage read zero) as (b & s' & p' & R & H1 & H2 & H3 & H4);
    [by constructor; cbn; rewrite ?D1|done..|lia|].
  exists b, s', p'. split; [done|]. split; [done|]. split.
  { eapply later_trans; [|exact H2]. by constructor. }
  split; [done|]. intros Hbt j Hj. specialize (H4 Hbt j Hj). cbn in H4. by rewrite D1 in H4.
Qed.

(** What a program header must satisfy (the checks of [validate_segment]
    on numbers that do not wrap around). *)
Record valid_header (ph : Elf32_Phdr) : Prop := {
  vh_offset : p_offset ph mod PGSIZE = p_vaddr ph mod PGSIZE;
  vh_file : 0 ≤ p_offset ph ≤ length_ (data x);
  vh_sizes : 0 ≤ p_filesz ph ≤ p_memsz ph;
  vh_nonempty : p_memsz ph ≠ 0;
  vh_user : PGSIZE ≤ p_vaddr ph ∧ p_vaddr ph + p_memsz ph < PHYS_BASE;
}.

(** A header as it is stored: 32-bit numbers. *)
Definition header_ok (ph : Elf32_Phdr) : Prop :=
  Forall (in_u 32) [p_type ph; p_offset ph; p_vaddr ph; p_paddr ph; p_filesz ph; p_memsz ph; p_flags ph; p_align ph].

Lemma land_PGMASK a : Z.land a Loader.PGMASK = a mod PGSIZE.
Proof. exact (pg_ofs_mod a). Qed.
Lemma land_page a : in_u 32 a → Z.land a (u32 (Z.lnot Loader.PGMASK)) = a / PGSIZE * PGSIZE.
Proof. exact (pg_round_down_div a). Qed.

Lemma validate_segment_run s p ph :
  loading s pd f i p dw x → header_ok ph →
  ∃ b, validate_segment ph f s = Ok (b, s) ∧ (b = true ↔ valid_header ph).
Proof.
  intros [Hpd Hsp Hfile Hb] Hh. unfold validate_segment.
  rewrite (bind_Ok _ _ _ _ _ (on_fs_run _ _ _ _ (file_length_run _ _ _ _ _ _ Hfile))).
  assert (with_fs (l_fs s) s = s) as -> by by destruct s.
  eexists. split; [reflexivity|]. rewrite !land_PGMASK.
  pose proof (in_length _ _ (fa_wf _ _ _ _ _ _ Hfile)) as Hl. rewrite (wrapu_id 32 (length_ _)) by (unfold in_u; lia).
  unfold is_user_vaddr. rewrite !andb_true_iff, !bool_decide_eq_true.
  unfold header_ok in Hh. rewrite !Forall_cons in Hh. destruct Hh as (_ & Ho & Hv & _ & Hfs & Hm & _). unfold in_u in *.
  destruct (decide (p_vaddr ph + p_memsz ph < 2 ^ 32)) as [Hw|Hw].
  - rewrite (wrapu_id 32 (p_vaddr ph + _)) by (unfold in_u; lia). split.
    + intros (((((((H1 & H2) & H3) & H4) & H5) & H6) & H7) & H8). constructor; (done || lia).
    + intros [H1 H2 H3 H4 [H5 H6]]. unfold Loader.PHYS_BASE, PHYS_BASE, Loader.PGSIZE, PGSIZE in *. split_and!; (done || lia).
  - replace (wrapu 32 (p_vaddr ph + p_memsz ph)) with (p_vaddr ph + p_memsz ph - 2 ^ 32).
    2:{ unfold wrapu. Z.to_euclidean_division_equations. lia. }
    split; [intros (((((((H1 & H2) & H3) & H4) & H5) & H6) & H7) & H8); lia|].
    intros [H1 H2 H3 H4 [H5 H6]]. unfold PHYS_BASE in *. lia.
Qed.
End Segments.

(** ** Program headers *)

Section Headers.
Context (malloc_ok : nat → bool) (pd f i : Z) (dw : bool) (x : inode).

Definition header_writable (ph : Elf32_Phdr) : bool := bool_decide (Z.land (p_flags ph) PF_W ≠ 0).

(** The addresses of the pages of a segment. *)
Definition segment_page (ph : Elf32_Phdr) (va : Z) : Prop :=
  p_type ph = PT_LOAD ∧ p_vaddr ph / PGSIZE ≤ va / PGSIZE ≤ (p_vaddr ph + p_memsz ph - 1) / PGSIZE.

(** The segment of a header is in memory: the bytes of the file, then
    zeros. *)
Definition segment_loaded (d : list (list Z)) (r r' : ram) (ph : Elf32_Phdr) : Prop :=
  valid_header x ph ∧ ∀ j, 0 ≤ j < p_memsz ph →
    loaded r r' pd (p_vaddr ph + j) (if decide (j < p_filesz ph) then byte d x (p_offset ph + j) else Some 0) (header_writable ph).

(** The number of pages of a valid segment. *)
Lemma segment_size ph (po := p_vaddr ph mod PGSIZE) (mp := p_vaddr ph / PGSIZE * PGSIZE) :
  valid_header x ph → ∃ n : nat, round_up_page (po + p_memsz ph) = Z.of_nat n * PGSIZE ∧ mp + Z.of_nat n * PGSIZE ≤ PHYS_BASE ∧
    0 ≤ mp ∧ mp mod PGSIZE = 0 ∧ po + p_memsz ph ≤ Z.of_nat n * PGSIZE < po + p_memsz ph + PGSIZE.
Proof.
  intros [H1 H2 H3 H4 [H5 H6]]. subst po mp. unfold round_up_page, Loader.PGSIZE, PGSIZE, PHYS_BASE in *.
  exists (Z.to_nat ((p_vaddr ph mod 4096 + p_memsz ph + 4095) / 4096)).
  assert (0 ≤ p_vaddr ph mod 4096 < 4096 ∧ p_vaddr ph = 4096 * (p_vaddr ph / 4096) + p_vaddr ph mod 4096) as [Hm Hd]
    by (Z.to_euclidean_division_equations; lia).
  set (po := p_vaddr ph mod 4096) in *. set (q := p_vaddr ph / 4096) in *.
  assert (0 ≤ (po + p_memsz ph + 4095) / 4096) by (apply Z.div_pos; lia). rewrite Z2Nat.id by done.
  replace (po + p_memsz ph + 4096 - 1) with (po + p_memsz ph + 4095) by lia.
  rewrite (wrapu_id 32 (_ + 4095)) by (unfold in_u; lia).
  set (m := (po + p_memsz ph + 4095) / 4096) in *.
  assert (4096 * m ≤ po + p_memsz ph + 4095 < 4096 * m + 4096) by (subst m; Z.to_euclidean_division_equations; lia).
  rewrite wrapu_id by (unfold in_u; lia). split; [lia|]. split; [lia|]. split; [lia|]. split; [by apply Z.mod_mul|lia].
Qed.

Lemma load_header_run s p ph :
  loading s pd f i p dw x → header_ok ph →
  ∃ b s' p', load_header malloc_ok f ph s = Ok (b, s') ∧ loading s' pd f i p' dw x ∧ later s s' ∧
    kept (l_ram s) (l_ram s') pd (segment_page ph) ∧
    (b = true → p_type ph ∉ [PT_DYNAMIC; PT_INTERP; PT_SHLIB] ∧
       (p_type ph = PT_LOAD → segment_loaded (disk (l_fs s)) (l_ram s) (l_ram s') ph) ∧
       ∀ va, user_addr va → is_Some (mapping (l_ram s) pd va) →
         mapping (l_ram s') pd va = mapping (l_ram s) pd va ∧ user_byte (l_ram s') pd va = user_byte (l_ram s) pd va).
Proof.
  intros Hld Hh. assert (loading s pd f i p dw x ∧ later s s ∧ kept (l_ram s) (l_ram s) pd (segment_page ph)) as (Hs1 & Hs2 & Hs3)
    by (split; [done|split; [by constructor|apply kept_refl]]).
  unfold load_header. case_decide as Hty; [by exists false, s, p|].
  assert (p_type ph ∉ [PT_DYNAMIC; PT_INTERP; PT_SHLIB]) as Hnot.
  { rewrite !not_elem_of_cons. split_and!; [tauto..|apply not_elem_of_nil]. }
  case_decide as Hload; [|by exists true, s, p].
  destruct (validate_segment_run pd f i dw x s p ph Hld Hh) as (v & Rv & Hv). rewrite (bind_Ok _ _ _ _ _ Rv).
  destruct v; [|by exists false, s, p].
  pose proof (proj1 Hv eq_refl) as Hval. destruct (segment_size ph Hval) as (n & Hn & Hend & Hmp & Hal & Hlo & Hhi).
  pose proof Hval as [H1 H2 H3 H4 [H5 H6]]. pose proof (in_length _ _ (fa_wf _ _ _ _ _ _ (ld_file _ _ _ _ _ _ _ Hld))) as Hlen.
  assert (0 ≤ p_vaddr ph mod PGSIZE < PGSIZE) as Hpo by (apply Z.mod_pos_bound; done).
  unfold header_ok in Hh. rewrite !Forall_cons in Hh. destruct Hh as (_ & Ho & Hva & _).
  cbv zeta. rewrite !land_PGMASK, !land_page, Hn by done.
  set (fp := p_offset ph / PGSIZE * PGSIZE).
  assert (p_offset ph = fp + p_vaddr ph mod PGSIZE) as Hfp by (rewrite <- H1; subst fp; rewrite (Z.div_mod (p_offset ph) PGSIZE) at 1 by done; lia).
  assert (0 ≤ fp ∧ fp mod PGSIZE = 0) as [Hfp0 Hfpa] by (subst fp; unfold PGSIZE in *; split; [Z.to_euclidean_division_equations; lia|by apply Z.mod_mul]).
  rewrite (wraps_id 32 fp) by (unfold in_s; lia).
  set (read := if decide (0 < p_filesz ph) then p_vaddr ph mod PGSIZE + p_filesz ph else 0).
  assert (0 ≤ read ≤ Z.of_nat n * PGSIZE) as Hread by (subst read; case_decide; lia).
  destruct (load_segment_run malloc_ok pd f i dw x (header_writable ph) n s p fp (p_vaddr ph / PGSIZE * PGSIZE) read (Z.of_nat n * PGSIZE - read))
    as (b & s' & p' & R & Hld' & Hlt & Hk & Hbytes); [done|done|done|done|lia|lia|lia|lia|done|].
  exists b, s', p'. split.
  { rewrite <- R. subst read. unfold header_writable. case_decide; [|by rewrite Z.sub_0_r].
    rewrite !wrapu_id; [done|..]; unfold in_u, PGSIZE, PHYS_BASE in *; lia. }
  split; [done|]. split; [done|].
  assert (p_vaddr ph = p_vaddr ph / PGSIZE * PGSIZE + p_vaddr ph mod PGSIZE) as Hdm by (rewrite (Z.div_mod (p_vaddr ph) PGSIZE) at 1 by done; lia).
  assert (∀ va, p_vaddr ph / PGSIZE * PGSIZE ≤ va < p_vaddr ph / PGSIZE * PGSIZE + Z.of_nat n * PGSIZE ↔ segment_page ph va) as Hseg.
  { intros va. unfold segment_page. trans (p_vaddr ph / PGSIZE ≤ va / PGSIZE ≤ (p_vaddr ph + p_memsz ph - 1) / PGSIZE); [|naive_solver].
    generalize dependent (p_vaddr ph mod PGSIZE). generalize dependent (p_vaddr ph / PGSIZE). intros q **.
    unfold PGSIZE in *. Z.to_euclidean_division_equations. lia. }
  split; [eapply kept_weaken; [exact Hk|]; intros va; apply Hseg|]. intros ->. specialize (Hbytes eq_refl). split; [done|]. split.
  - intros _. split; [done|]. intros j Hj. specialize (Hbytes (p_vaddr ph mod PGSIZE + j) ltac:(lia)).
    replace (p_vaddr ph / PGSIZE * PGSIZE + (p_vaddr ph mod PGSIZE + j)) with (p_vaddr ph + j) in Hbytes by lia.
    replace (fp + (p_vaddr ph mod PGSIZE + j)) with (p_offset ph + j) in Hbytes by lia.
    revert Hbytes. subst read. do 3 case_decide; (done || lia).
  - intros va Hua [w Hw]. apply (kp_map _ _ _ _ Hk); [done|]. intros Hin.
    destruct (Hbytes (va - p_vaddr ph / PGSIZE * PGSIZE)) as (_ & Hno & _); [lia|].
    replace (p_vaddr ph / PGSIZE * PGSIZE + (va - p_vaddr ph / PGSIZE * PGSIZE)) with va in Hno by lia. congruence.
Qed.

(** Pages in use and mapped addresses stay as they are. *)
Record still (r r' : ram) : Prop := {
  st_alloc : ∀ q, allocated r q → allocated r' q;
  st_map : ∀ va, user_addr va → is_Some (mapping r pd va) →
    mapping r' pd va = mapping r pd va ∧ user_byte r' pd va = user_byte r pd va;
}.

Lemma still_trans r1 r2 r3 : still r1 r2 → still r2 r3 → still r1 r3.
Proof.
  intros [A1 M1] [A2 M2]. constructor; [auto|]. intros va Hva Hs. destruct (M1 va Hva Hs) as [E1 E2].
  rewrite <- E1, <- E2. apply M2; [done|by rewrite E1].
Qed.

Lemma loaded_before r1 r2 r3 va b w : user_addr va → still r1 r2 → loaded r2 r3 pd va b w → loaded r1 r3 pd va b w.
Proof.
  intros Hva [A M] (H1 & H2 & k & H3 & H4). split; [done|]. split.
  - destruct (mapping r1 pd va) as [e|] eqn:E; [|done]. destruct (M va Hva) as [E' _]; [by rewrite E|]. congruence.
  - exists k. split; [|done]. intros Ha. by apply H3, A.
Qed.

Lemma loaded_after r1 r2 r3 va b w : user_addr va → loaded r1 r2 pd va b w → still r2 r3 → loaded r1 r3 pd va b w.
Proof.
  intros Hva (H1 & H2 & k & H3 & H4) [A M]. destruct (M va Hva) as [E1 E2]; [by rewrite H4|].
  split; [by rewrite E2|]. split; [done|]. exists k. split; [done|]. by rewrite E1.
Qed.

Lemma segment_user ph j : valid_header x ph → 0 ≤ j < p_memsz ph → user_addr (p_vaddr ph + j).
Proof. intros [_ _ _ _ [H1 H2]] Hj. unfold user_addr, PGSIZE in *. lia. Qed.

Lemma segment_before d r1 r2 r3 ph : still r1 r2 → segment_loaded d r2 r3 ph → segment_loaded d r1 r3 ph.
Proof.
  intros Hs [Hv Hl]. split; [done|]. intros j Hj. eapply loaded_before; [by apply segment_user|done|by apply Hl].
Qed.

Lemma segment_after d r1 r2 r3 ph : segment_loaded d r1 r2 ph → still r2 r3 → segment_loaded d r1 r3 ph.
Proof.
  intros [Hv Hl] Hs. split; [done|]. intros j Hj. eapply loaded_after; [by apply segment_user|by apply Hl|done].
Qed.

(** The bytes of the file from [p] on, and the program header there. *)
Definition file_bytes (d : list (list Z)) (p n : Z) : list Z := (λ j, default 0 (byte d x (p + j))) <$> seqZ 0 n.

Lemma file_bytes_eq d p n bs : bytes_from d x p bs → Z.of_nat (length bs) = n → file_bytes d p n = bs.
Proof.
  intros Hb Hl. apply list_eq. intros k. unfold file_bytes. rewrite list_lookup_fmap. destruct (decide (k < length bs)%nat) as [Hk|Hk].
  - rewrite lookup_seqZ_lt by lia. cbn. rewrite Z.add_0_l, <- Hb by done. by destruct (lookup_lt_is_Some_2 bs k Hk) as [b ->].
  - rewrite lookup_seqZ_ge, lookup_ge_None_2 by lia. done.
Qed.

Lemma decode_phdr_ok bs : Forall (in_u 8) bs → header_ok (decode_phdr bs).
Proof. intros H. unfold header_ok, decode_phdr. cbn. rewrite !Forall_cons. split_and!; try (by apply of_le32_range; try apply Forall_drop). constructor. Qed.

Definition program_header (d : list (list Z)) (ofs : Z) : Elf32_Phdr := decode_phdr (file_bytes d ofs sizeof_Phdr).
Definition header_accepted (d : list (list Z)) (r r' : ram) (ph : Elf32_Phdr) : Prop :=
  p_type ph ∉ [PT_DYNAMIC; PT_INTERP; PT_SHLIB] ∧ (p_type ph = PT_LOAD → segment_loaded d r r' ph).

(** The program header at [ofs] is read. *)
Lemma read_header_run s p ofs :
  loading s pd f i p dw x → 0 ≤ ofs < 2 ^ 31 →
  ∃ bs s1 s2 p', on_fs (file_seek f ofs) s = Ok ((), s1) ∧ on_fs (file_read malloc_ok f sizeof_Phdr) s1 = Ok (bs, s2) ∧
    loading s2 pd f i p' dw x ∧ later s s2 ∧ l_ram s2 = l_ram s ∧ Forall (in_u 8) bs ∧
    (Z.of_nat (length bs) = sizeof_Phdr → decode_phdr bs = program_header (disk (l_fs s)) ofs).
Proof.
  intros [Hpd Hsp Hfile Hb] Ho. destruct (file_seek_run (l_fs s) f i p dw x ofs Hfile Ho) as (x1 & R1 & F1 & D1).
  destruct (file_read_run malloc_ok x1 f i ofs dw x sizeof_Phdr F1 ltac:(done)) as (bs & x2 & R2 & F2 & D2 & B2 & L2).
  exists bs, (with_fs x1 s), (with_fs x2 (with_fs x1 s)), (ofs + Z.of_nat (length bs)).
  split; [by apply on_fs_run|]. split; [by apply on_fs_run|]. split; [constructor; cbn; rewrite ?D2, ?D1; done|].
  split; [constructor; cbn; congruence|]. split; [done|]. rewrite D1 in B2. split; [by eapply bytes_from_ok|].
  intros Hl. unfold program_header. by rewrite (file_bytes_eq _ _ _ bs).
Qed.

Lemma load_headers_run n s p ofs :
  loading s pd f i p dw x → in_s 32 ofs →
  ∃ b s' p', load_headers malloc_ok n f ofs s = Ok (b, s') ∧ loading s' pd f i p' dw x ∧ later s s' ∧
    (∀ q, allocated (l_ram s) q → allocated (l_ram s') q) ∧
    (b = true → still (l_ram s) (l_ram s') ∧ ((0 < n)%nat → 0 ≤ ofs) ∧
       ∀ k, (k < n)%nat → header_accepted (disk (l_fs s)) (l_ram s) (l_ram s') (program_header (disk (l_fs s)) (ofs + sizeof_Phdr * Z.of_nat k))).
Proof.
  revert s p ofs. induction n as [|n IH]; intros s p ofs Hld Ho; cbn [load_headers].
  { exists true, s, p. split; [done|]. split; [done|]. split; [by constructor|]. split; [done|]. intros _. split; [by constructor|]. split; [lia|lia]. }
  rewrite (bind_Ok _ _ _ _ _ (on_fs_run _ _ _ _ (file_length_run _ _ _ _ _ _ (ld_file _ _ _ _ _ _ _ Hld)))).
  assert (with_fs (l_fs s) s = s) as -> by by destruct s. pose proof (in_length _ _ (fa_wf _ _ _ _ _ _ (ld_file _ _ _ _ _ _ _ Hld))) as Hlen.
  case_decide as Hout. { exists false, s, p. split; [done|]. split; [done|]. split; [by constructor|]. done. }
  destruct (read_header_run s p ofs Hld ltac:(lia)) as (bs & s1 & s2 & p2 & R1 & R2 & Hld2 & Hlt2 & Hr2 & Hu & Hph).
  rewrite (bind_Ok _ _ _ _ _ R1), (bind_Ok _ _ _ _ _ R2).
  case_decide as Hl. { exists false, s2, p2. split; [done|]. split; [done|]. split; [done|]. by rewrite Hr2. }
  rewrite (Hph Hl). pose proof (lt_disk _ _ Hlt2) as Hd2.
  destruct (load_header_run s2 p2 (program_header (disk (l_fs s)) ofs)) as (b & s3 & p3 & R3 & Hld3 & Hlt3 & Hk3 & Hb3);
    [done|rewrite <- (Hph Hl); by apply decode_phdr_ok|].
  rewrite (bind_Ok _ _ _ _ _ R3). rewrite Hr2 in *. rewrite Hd2 in Hb3.
  destruct b. 2:{ exists false, s3, p3. split; [done|]. split; [done|]. split; [by eapply later_trans|]. split; [apply Hk3|done]. }
  destruct (Hb3 eq_refl) as (Hty & Hseg & Hmap).
  destruct (IH s3 p3 (i32 (u32 (ofs + sizeof_Phdr))) Hld3 ltac:(apply wraps_range; lia)) as (b & s' & p' & R & Hld' & Hlt' & Ha' & Hb').
  exists b, s', p'. split; [done|]. split; [done|]. split; [by eapply later_trans; [|exact Hlt']; eapply later_trans|].
  split; [intros q Hq; by apply Ha', Hk3|]. intros Hbt. destruct (Hb' Hbt) as (Hst & Hpos & Hall).
  rewrite (lt_disk _ _ Hlt3), Hd2 in Hall. assert (still (l_ram s) (l_ram s3)) as Hst3 by (constructor; [apply Hk3|done]).
  split; [by eapply still_trans|]. split; [lia|]. intros [|k] Hk.
  - rewrite Z.mul_0_r, Z.add_0_r. split; [done|]. intros Hload. eapply segment_after; [by apply Hseg|done].
  - assert (i32 (u32 (ofs + sizeof_Phdr)) = ofs + sizeof_Phdr) as E.
    { specialize (Hpos ltac:(lia)). unfold sizeof_Phdr in *. rewrite (wrapu_id 32) in * by (unfold in_u; lia).
      unfold wraps in *. Z.to_euclidean_division_equations. lia. }
    destruct (Hall k ltac:(lia)) as [H1 H2]. rewrite E in H1, H2.
    replace (ofs + sizeof_Phdr * Z.of_nat (S k)) with (ofs + sizeof_Phdr + sizeof_Phdr * Z.of_nat k) by lia.
    split; [done|]. intros Hload. eapply segment_before; [done|by apply H2].
Qed.
End Headers.

(** ** The image of a program *)

Lemma zero_page_byte j : (j < 4096)%nat → page_bytes (replicate 1024 0) !! j = Some 0.
Proof.
  intros Hj. unfold page_bytes. rewrite fmap_replicate.
  assert (∀ n, concat (replicate n (le32 0)) = replicate (4 * n) 0) as ->; [|by apply lookup_replicate_2].
  induction n as [|n IH]; [done|]. replace (4 * S n)%nat with (4 + 4 * n)%nat by lia. rewrite replicate_add, <- IH. done.
Qed.

Section Image.
Context (malloc_ok : nat → bool) (pd f i : Z).

(** The stack: one page of zeros below [PHYS_BASE]. *)
Definition stack_loaded (r r' : ram) : Prop := ∀ va, PHYS_BASE - PGSIZE ≤ va < PHYS_BASE → loaded r r' pd va (Some 0) true.

Lemma setup_stack_run s p dw x :
  loading s pd f i p dw x →
  ∃ o s', setup_stack PHYS_BASE s = Ok (o, s') ∧ loading s' pd f i p dw x ∧ later s s' ∧
    (∀ q, allocated (l_ram s) q → allocated (l_ram s') q) ∧
    (o = None ∨ o = Some PHYS_BASE ∧ still pd (l_ram s) (l_ram s') ∧ stack_loaded (l_ram s) (l_ram s')).
Proof.
  intros Hld. pose proof Hld as [Hpd Hsp Hfile Hb].
  assert (loading s pd f i p dw x ∧ later s s ∧ (∀ q, allocated (l_ram s) q → allocated (l_ram s) q)) as (Hs1 & Hs2 & Hs3)
    by (split; [done|]; split; [by constructor|done]).
  assert (∀ r, space_ok r pd → loading (with_ram r s) pd f i p dw x ∧ later s (with_ram r s)) as Hw by (intros r Hr; split; by constructor).
  unfold setup_stack, gets, mbind at 1, M_bind at 1. destruct (NONE_OR_MAIN (exiting s)); [|exists None, s; by auto 6].
  destruct (get_user_page_run (Z.lor PAL_USER PAL_ZERO) (l_ram s) pd eq_refl eq_refl Hsp) as [(k & r1 & Rg & Hk & Hfp & Hz)|Rg];
    rewrite (bind_Ok _ _ _ _ _ (on_ram_run _ _ _ _ Rg)).
  2:{ rewrite decide_False by tauto. exists None, (with_ram (l_ram s) s). destruct (Hw _ Hsp). by auto 6. }
  rewrite decide_True by done. set (top := Loader.PHYS_BASE - Loader.PGSIZE).
  destruct (install_page_run (with_ram r1 s) (l_ram s) pd k top true Hpd Hfp ltac:(done) ltac:(done)) as (b & r2 & R2 & Hb2).
  rewrite (bind_Ok _ _ _ _ _ R2). change (with_ram r2 (with_ram r1 s)) with (with_ram r2 s). destruct b.
  2:{ subst r2. destruct (fresh_free (l_ram s) r1 pd k Hfp) as (r3 & R3 & Hs3' & Hk3 & _).
      rewrite (bind_Ok _ _ _ _ _ (on_ram_run _ (with_ram r1 s) _ _ R3)). exists None, (with_ram r3 s).
      destruct (Hw _ Hs3'). split; [done|]. split; [done|]. split; [done|]. split; [apply Hk3|by left]. }
  destruct Hb2 as (Hs4 & Hk4 & Hf4 & Hn4 & Hm4). exists (Some PHYS_BASE), (with_ram r2 s). destruct (Hw _ Hs4).
  assert (∀ va, user_addr va → in_page top va ↔ PHYS_BASE - PGSIZE ≤ va) as Htop.
  { intros va Hva. unfold in_page, user_addr, top, Loader.PHYS_BASE, PHYS_BASE, Loader.PGSIZE, PGSIZE in *. Z.to_euclidean_division_equations. lia. }
  split; [done|]. split; [done|]. split; [done|]. split; [apply Hk4|right; split; [done|]]. split.
  - constructor; [apply Hk4|]. intros va Hva [w Hm]. apply (kp_map _ _ _ _ Hk4); [done|]. intros Hin.
    pose proof (Hn4 va Hva Hin). congruence.
  - intros va Hva. assert (user_addr va) as Hua by (unfold user_addr, PHYS_BASE, PGSIZE in *; lia).
    assert (in_page top va) as Hin by (apply Htop; [done|lia]). cbn [l_ram with_ram] in *. split; [|split; [by apply Hn4|]].
    + unfold user_byte. rewrite (Hm4 va Hua Hin). cbn.
      destruct (allocated_page r1 k (so_ram _ _ (fp_space _ _ _ _ Hfp)) (fp_used _ _ _ _ Hfp)) as [Hkk _].
      rewrite page_of_entry by done. rewrite Hf4, Hz by done. cbn [mbind option_bind].
      apply zero_page_byte. pose proof (Z.mod_pos_bound va PGSIZE ltac:(done)). unfold PGSIZE in *. lia.
    + exists k. split; [apply (fp_free _ _ _ _ Hfp)|]. by apply Hm4.
Qed.

(** The executable header as [load] wants it. *)
Definition valid_ehdr (eh : Elf32_Ehdr) : Prop :=
  take 7 (e_ident eh) = [127; 69; 76; 70; 1; 1; 1] ∧ e_type eh = 2 ∧ e_machine eh = 3 ∧ e_version eh = 1 ∧
  e_phentsize eh = sizeof_Phdr ∧ e_phnum eh ≤ 1024.

(** The program of the file [x] is in memory. *)
Record program_loaded (d : list (list Z)) (x : inode) (r r' : ram) (entry esp : Z) : Prop := {
  pl_ehdr : valid_ehdr (decode_ehdr (file_bytes x d 0 sizeof_Ehdr));
  pl_entry : entry = e_entry (decode_ehdr (file_bytes x d 0 sizeof_Ehdr));
  pl_esp : esp = PHYS_BASE;
  pl_segments : ∀ k, 0 ≤ k < e_phnum (decode_ehdr (file_bytes x d 0 sizeof_Ehdr)) →
    header_accepted pd x d r r' (program_header x d (e_phoff (decode_ehdr (file_bytes x d 0 sizeof_Ehdr)) + sizeof_Phdr * k));
  pl_stack : stack_loaded r r';
}.

Lemma byte_data d x y o : data x = data y → byte d x o = byte d y o.
Proof. intros E. unfold byte, sector_of. by rewrite E. Qed.

Lemma program_header_data d x y o : data x = data y → program_header x d o = program_header y d o.
Proof. intros E. unfold program_header, file_bytes. f_equal. apply list_fmap_ext. intros j a _. by rewrite (byte_data d x y). Qed.

Lemma header_accepted_data d x y r r' ph : data x = data y → header_accepted pd x d r r' ph → header_accepted pd y d r r' ph.
Proof.
  intros E [H1 H2]. split; [done|]. intros [[V1 V2 V3 V4 V5] Hl]%H2. split; [constructor; by rewrite <- ?E|]. intros j Hj.
  specialize (Hl j Hj). by rewrite (byte_data d x y) in Hl.
Qed.

(** What a program's file is when [load] opens it. *)
Record opened (x : inode) : Prop := { op_deny : 0 ≤ deny_write_cnt x < open_cnt x; op_removed : removed x = false }.
(** What it is when [load] closes it. *)
Definition closable (dw : bool) (x : inode) : Prop := (dw = true → 0 < deny_write_cnt x ≤ open_cnt x) ∧ removed x = false.

Lemma load_image_run s x :
  loading s pd f i 0 false x → opened x →
  ∃ o s' p' dw' x', load_image malloc_ok f s = Ok (o, s') ∧ loading s' pd f i p' dw' x' ∧ closable dw' x' ∧
    (∀ q, allocated (l_ram s) q → allocated (l_ram s') q) ∧
    match o with
    | Some (entry, esp) => program_loaded (disk (l_fs s)) x (l_ram s) (l_ram s') entry esp ∧ exec s' = f ∧ dw' = true
    | None => True
    end.
Proof.
  intros [Hpd Hsp Hfile Hb] [Hdc Hrm]. unfold load_image.
  destruct (file_read_run malloc_ok (l_fs s) f i 0 false x sizeof_Ehdr Hfile ltac:(done)) as (bs & x1 & R1 & F1 & D1 & B1 & L1).
  rewrite (bind_Ok _ _ _ _ _ (on_fs_run _ _ _ _ R1)). cbv zeta. set (s1 := with_fs x1 s).
  destruct (decide (Z.of_nat (length bs) ≠ sizeof_Ehdr ∨ _)) as [Hbad|Hok].
  { eexists None, s1, _, false, x. split; [done|]. split; [constructor; cbn; rewrite ?D1; done|]. split; [by split|]. done. }
  assert (Z.of_nat (length bs) = sizeof_Ehdr ∧ valid_ehdr (decode_ehdr bs)) as [Hl Hv]
    by (unfold valid_ehdr; split_and!; (apply dec_stable || idtac); first [lia|tauto]).
  clear Hok. assert (Forall (in_u 8) bs) as Hu by by eapply bytes_from_ok.
  pose proof (file_bytes_eq x _ _ _ bs B1 Hl) as Ebs. rewrite <- Ebs in Hv. rewrite <- Ebs. set (eh := decode_ehdr (file_bytes x (disk (l_fs s)) 0 sizeof_Ehdr)) in *.
  destruct (file_deny_write_run x1 f i _ x F1 ltac:(lia)) as (x2 & y & R2 & F2 & D2 & Ey & Er & Eo & Ed).
  rewrite (bind_Ok _ _ _ _ _ (on_fs_run _ s1 _ _ R2)). unfold set_exec, modify, mbind at 1, M_bind at 1.
  set (s2 := Loader_ _ _ _ _ _).
  assert (disk (l_fs s2) = disk (l_fs s)) as Hd2 by (cbn; congruence).
  assert (closable true y) as Hcl by (split; [intros _; lia|congruence]).
  assert (in_s 32 (i32 (e_phoff eh))) as Hin by (apply wraps_range; lia).
  assert (loading s2 pd f i (0 + Z.of_nat (length bs)) true y) as Hld2 by (constructor; cbn; rewrite ?D2, ?D1; done).
  destruct (load_headers_run malloc_ok pd f i true y (Z.to_nat (e_phnum eh)) s2 _ (i32 (e_phoff eh)) Hld2 Hin)
    as (b & s3 & p3 & R3 & Hld3 & Hlt3 & Ha3 & Hb3). rewrite (bind_Ok _ _ _ _ _ R3).
  destruct b; [|by exists None, s3, p3, true, y].
  destruct (Hb3 eq_refl) as (Hst & Hpos & Hall). rewrite Hd2 in Hall.
  destruct (setup_stack_run s3 p3 true y Hld3) as (o & s4 & R4 & Hld4 & Hlt4 & Ha4 & Ho4). rewrite (bind_Ok _ _ _ _ _ R4).
  exists ((λ esp, (e_entry eh, esp)) <$> o), s4, p3, true, y. split; [done|]. split; [done|]. split; [done|].
  split; [intros q Hq; by apply Ha4, Ha3|]. destruct Ho4 as [->|(-> & Hst4 & Hstack)]; [done|]. cbn [fmap option_fmap option_map].
  split; [|split; [by rewrite (lt_exec _ _ Hlt4), (lt_exec _ _ Hlt3)|done]].
  constructor; [done|done|done|..].
  - fold eh. intros k Hk. destruct (Hall (Z.to_nat k) ltac:(lia)) as [H1 H2]. rewrite Z2Nat.id in H1, H2 by lia.
    assert (i32 (e_phoff eh) = e_phoff eh) as E.
    { specialize (Hpos ltac:(lia)). assert (in_u 32 (e_phoff eh)) by (unfold eh; rewrite Ebs; by apply of_le32_range, Forall_drop).
      unfold in_u, wraps in *. Z.to_euclidean_division_equations. lia. }
    rewrite E in H1, H2. rewrite <- (program_header_data _ y x) by done. apply (header_accepted_data _ y x); [done|].
    split; [done|]. intros Hload. eapply segment_after; [by apply H2|done].
  - intros va Hva. eapply loaded_before; [unfold user_addr, PHYS_BASE, PGSIZE in *; lia|done|by apply Hstack].
Qed.
End Image.

(** ** [load] *)

Lemma activate_run r pd :
  space_ok r pd →
  ∃ r', pagedir_activate pd r = Ok ((), r') ∧ space_ok r' pd ∧ (∀ q, allocated r' q ↔ allocated r q).
Proof.
  intros [Hwf Hpd Hfr Hus]. destruct (allocated_page r pd Hwf (pd_alloc _ _ Hpd)) as (Hk & _).
  set (r' := Ram (frames r) (kernel_pool r) (user_pool r) (init_ram_pages r) (init_page_dir r) (pd - PHYS_BASE)).
  exists r'. split.
  { unfold pagedir_activate, gets, mbind at 1, M_bind at 1. rewrite decide_False by (intros ->; destruct Hk; unfold PHYS_BASE in *; lia).
    by rewrite (bind_Ok _ _ _ _ _ (vtop_run pd r Hk)). }
  destruct (directory_same r r' pd Hpd eq_refl) as (H1 & H2 & H3).
  { intros q [->|[j Hj]]; [by split; [apply Hpd|]|]. by split; [apply (pd_tables _ _ Hpd j q Hj)|]. }
  split; [|done]. constructor; [by destruct Hwf as [[] []]; constructor|done|done|].
  intros va w Hva Hw. rewrite H3 in Hw by done. destruct (Hus va w Hva Hw) as (A1 & A2 & A3).
  split; [done|]. split; [done|]. intros j Hj%H2. by apply (A3 j).
Qed.

(** A machine on which a process can be created: the page directory of the
    kernel maps no user page and the frames are those of the RAM. *)
Record bootable (r : ram) : Prop := {
  bt_wf : ram_wf r;
  bt_init : init_pd_wf r;
  bt_frames : ∀ q, is_Some (frames r !! q) → (q - PHYS_BASE) / PGSIZE < init_ram_pages r;
}.

(** The page directory is created and activated. *)
Lemma create_activate_run s :
  bootable (l_ram s) →
  (∃ pd r1 r2, pagedir_create (l_ram s) = Ok (pd, r1) ∧ pd ≠ 0 ∧ pagedir_activate pd r1 = Ok ((), r2) ∧ space_ok r2 pd ∧
     ¬ allocated (l_ram s) pd ∧ ∀ q, allocated r2 q ↔ allocated (l_ram s) q ∨ q = pd) ∨
  pagedir_create (l_ram s) = Ok (0, l_ram s).
Proof.
  intros [Hwf Hin Hfr]. destruct (pagedir_create_run (l_ram s) Hwf Hin)
    as [(pd & r1 & R1 & W1 & P1 & Hfree & Hal & Hno & Hsame & Hpf & Hi1 & Hn1)|[_ R1]]; [left|by right].
  destruct (activate_run r1 pd) as (r2 & R2 & S2 & Ha2).
  { constructor; [done|done| |intros va w Hva Hw; rewrite Hno in Hw by done; done].
    intros q Hq. rewrite Hn1. apply Hfr. destruct (decide (q = pd)) as [->|Hne]; [done|]. by rewrite <- Hsame. }
  destruct (allocated_page r1 pd W1 (pd_alloc _ _ P1)) as ([_ Hk] & _).
  exists pd, r1, r2. split; [done|]. split; [unfold PHYS_BASE in *; lia|]. split; [done|]. split; [done|]. split; [done|].
  intros q. by rewrite Ha2, Hal.
Qed.

(** C21: [load] returns, whatever the file holds and whichever allocations fail: no
    assertion fails and nothing outside of a frame is written.  When it
    succeeds, the headers were valid, every byte of every PT_LOAD segment is
    at its address, followed by zeros up to the segment's memory size, with
    the segment's write permission and in pages that were free before, and one
    page of zeros below [PHYS_BASE] is the stack.  When it fails after the page
    directory was created, the directory stays allocated. *)
Theorem load_program malloc_ok file_name s f fs1 i x :
  bootable (l_ram s) →
  Directory.filesys_open malloc_ok file_name (l_fs s) = Ok (f, fs1) → f ≠ NULL →
  file_at fs1 f i 0 false x → opened x → Forall (Forall (in_u 8)) (disk fs1) →
  ∃ o s', load malloc_ok file_name s = Ok (o, s') ∧
    (∀ q, allocated (l_ram s) q → allocated (l_ram s') q) ∧
    match o with
    | Some (entry, esp) =>
        ∃ r, (∀ q, allocated (l_ram s) q → allocated r q) ∧
          program_loaded (pagedir s') (disk fs1) x r (l_ram s') entry esp ∧ exec s' = f
    | None => pagedir s' = 0 ∨ ¬ allocated (l_ram s) (pagedir s') ∧ allocated (l_ram s') (pagedir s')
    end.
Proof.
  intros Hbt Hopen Hnull Hfile Hop Hb. unfold load.
  destruct (create_activate_run s Hbt) as [(pd & r1 & r2 & R1 & Hpd & R2 & Hsp & Hfree & Hal)|R1].
  2:{ rewrite (bind_Ok _ _ _ _ _ (on_ram_run _ _ _ _ R1)). unfold set_pagedir, modify, mbind at 1, M_bind at 1. rewrite decide_True by done.
      eexists None, _. split; [reflexivity|]. split; [done|by left]. }
  rewrite (bind_Ok _ _ _ _ _ (on_ram_run _ _ _ _ R1)). unfold set_pagedir, modify, mbind at 1, M_bind at 1.
  rewrite decide_False by done. set (s1 := Loader_ _ _ _ _ _).
  rewrite (bind_Ok _ _ _ () (with_ram r2 s1)) by (unfold process_activate, gets, mbind, M_bind; exact (on_ram_run _ s1 _ _ R2)).
  rewrite (bind_Ok _ _ _ _ _ (on_fs_run _ (with_ram r2 s1) _ _ Hopen)). rewrite decide_False by done.
  set (s2 := with_fs fs1 (with_ram r2 s1)).
  destruct (load_image_run malloc_ok pd f i s2 x) as (o & s3 & p3 & dw & y & R3 & Hld3 & Hcl & Ha3 & Ho); [by constructor|done|].
  rewrite (bind_Ok _ _ _ _ _ R3).
  assert (∀ q, allocated (l_ram s) q → allocated (l_ram s3) q) as Hkeep by (intros q Hq; apply Ha3; cbn; apply Hal; by left).
  pose proof (ld_pd _ _ _ _ _ _ _ Hld3) as Epd. destruct o as [[entry esp]|].
  - destruct Ho as (Hpl & Hex & _). exists (Some (entry, esp)), s3. split; [done|]. split; [done|].
    exists r2. split; [intros q Hq; apply Hal; by left|]. split; [|done]. rewrite Epd. exact Hpl.
  - destruct Hcl as [Hcl1 Hcl2]. destruct (file_close_run malloc_ok (l_fs s3) f i p3 dw y (ld_file _ _ _ _ _ _ _ Hld3) Hcl1 Hcl2) as (x4 & R4).
    rewrite (bind_Ok _ _ _ _ _ (on_fs_run _ _ _ _ R4)). exists None, (with_fs x4 s3). split; [done|]. split; [done|].
    right. cbn [pagedir with_fs l_ram]. rewrite Epd. split; [done|]. apply Ha3, Hal. by right.
Qed.

(** A program of 100 bytes with one segment of 200 bytes at 0x08048000,
    in a file named "p". *)
Definition demo_elf : list Z :=
  [127; 69; 76; 70; 1; 1; 1] ++ replicate 9 0 ++ [2; 0; 3; 0] ++ le32 1 ++ le32 0x08048054 ++ le32 52 ++ le32 0 ++ le32 0 ++
  [52; 0; 32; 0; 1; 0; 0; 0; 0; 0; 0; 0] ++
  le32 PT_LOAD ++ le32 0 ++ le32 0x08048000 ++ le32 0 ++ le32 100 ++ le32 200 ++ le32 5 ++ le32 4096 ++
  replicate 16 144.
Definition padded (bs : list Z) : list Z := bs ++ replicate (512 - length bs) 0.
Definition demo_disk : list (list Z) :=
  [padded []; padded (encode_inode (InodeDisk 2 20 INODE_MAGIC));
   padded (Directory.encode_entry (Directory.DirEntry 3 (112 :: replicate 14 0) true));
   padded (encode_inode (InodeDisk 4 100 INODE_MAGIC)); padded demo_elf; padded []].
Definition demo_elf_fs : fs := Fs demo_disk (Bitmap.Bitmap_ 6 [31]) Inode.NULL ∅ [] ∅ ∅ 0.
Definition demo_process : loader := Loader_ demo_got demo_elf_fs 0 0 EXITING_NONE.
Definition demo_open : option (Z * fs) :=
  match Directory.filesys_open (λ _, true) [112] demo_elf_fs with Ok r => Some r | Err _ => None end.
Definition demo_elf_file : Z := match demo_open with Some (f, _) => f | None => 0 end.
Definition demo_elf_opened : fs := match demo_open with Some (_, s) => s | None => demo_elf_fs end.
Definition demo_elf_inode : inode := Inode_ 3 1 false 0 (InodeDisk 4 100 INODE_MAGIC).

Lemma demo_bootable : bootable demo_got.
Proof.
  constructor; [apply demo_got_wf|apply demo_got_init|]. intros q [g Hg].
  assert (map_Forall (λ q _, (q - PHYS_BASE) / PGSIZE < init_ram_pages demo_got) (frames demo_got)) as H
    by (apply (bool_decide_unpack _); vm_compute; exact I).
  exact (H q g Hg).
Defined.

Lemma demo_opened :
  Directory.filesys_open (λ _, true) [112] demo_elf_fs = Ok (5, demo_elf_opened) ∧ file_at demo_elf_opened 5 4 0 false demo_elf_inode ∧
  disk demo_elf_opened = demo_disk ∧ Forall (Forall (in_u 8)) demo_disk.
Proof.
  split; [vm_compute; reflexivity|]. split; [|split; [vm_compute; reflexivity|apply (bool_decide_unpack _); vm_compute; exact I]].
  assert (disk demo_elf_opened = demo_disk) as E by (vm_compute; reflexivity).
  constructor; rewrite ?E; [vm_compute; reflexivity|vm_compute; reflexivity| | |lia].
  - constructor; [apply (bool_decide_unpack _); vm_compute; exact I|vm_compute; reflexivity].
  - constructor; [split; [vm_compute; discriminate|vm_compute; reflexivity]|vm_compute; discriminate|vm_compute; discriminate].
Defined.

(** The program starts at 0x08048054, its last byte is at 0x08048063 and the
    next one is zero. *)
Lemma load_program_witness :
  ∃ s', load (λ _, true) [112] demo_process = Ok (Some (0x08048054, PHYS_BASE), s') ∧
    user_byte (l_ram s') (pagedir s') 0x08048063 = Some 144 ∧ user_byte (l_ram s') (pagedir s') 0x08048064 = Some 0.
Proof.
  destruct demo_opened as (H1 & H2 & H3 & H4).
  destruct (load_program (λ _, true) [112] demo_process 5 demo_elf_opened 4 demo_elf_inode) as (o & s' & R & _ & Ho);
    [exact demo_bootable|exact H1|discriminate|exact H2|constructor; [split; vm_compute; congruence|reflexivity]|rewrite H3; exact H4|].
  assert (match load (λ _, true) [112] demo_process with Ok (Some p, _) => bool_decide (p = (0x08048054, PHYS_BASE)) | _ => false end = true) as E
    by (vm_compute; reflexivity).
  rewrite R in E. destruct o as [p|]; [|discriminate]. apply bool_decide_eq_true in E. subst p. exists s'. split; [exact R|].
  destruct Ho as (r & _ & [_ _ _ Hseg _] & _). rewrite H3 in Hseg.
  destruct (Hseg 0) as [_ Hl]; [split; vm_compute; congruence|].
  destruct Hl as [_ Hl]; [vm_compute; reflexivity|].
  destruct (Hl 99) as [Hb _]; [split; vm_compute; congruence|]. destruct (Hl 100) as [Hc _]; [split; vm_compute; congruence|].
  split; [exact Hb|exact Hc].
Defined.
End LoaderSpec.
