(* ===== verification/Syscall.v ===== *)
(** * System calls (userprog/syscall.c)

    [syscall_handler] reads the arguments of a call from the user stack,
    checks them and calls the handler of the call; the handlers of the calls
    on files work on the table of open files of the process and on the file
    system.  The kernel reads and writes the memory of the process through
    its page directory: [load_byte] and [store_byte] are the accesses of the
    processor in kernel mode, with write protection.  An access that is not
    possible is a page fault, by which the process ends (exception.c); a call
    that faults is [None], and what it had done so far is not modelled.  The
    process has one thread, so that the locks of its tables are free; the
    calls on processes, threads and locks are handed on. *)

From S2P Require Import Prelude Palloc Pagedir Inode Directory.
Import Palloc Pagedir.

Module Syscall.

Abbreviation fs := Inode.fs.
Abbreviation NULL := Inode.NULL.

(** [struct file_desc], without its lock. *)
Record file_desc := FileDesc { fd_no : Z; fd_file : Z }.

(** The process that makes the call: its memory, the file system, the
    members of its control block, what it has printed and how many keys it
    has read.  The control block and the table of open files are in the
    kernel's memory, but are kept apart from [y_ram]: that is right for calls
    that write to user memory only ([SyscallTab]). *)
Record sys := Sys {
  y_ram : ram; y_fs : fs; y_pagedir : Z; y_tid : Z;
  files_tab : list file_desc; files_next_desc : Z;
  printed : list Z; keys_read : nat;
}.

Definition set_ram (r : ram) (s : sys) : sys :=
  Sys r (y_fs s) (y_pagedir s) (y_tid s) (files_tab s) (files_next_desc s) (printed s) (keys_read s).
Definition set_fs (x : fs) (s : sys) : sys :=
  Sys (y_ram s) x (y_pagedir s) (y_tid s) (files_tab s) (files_next_desc s) (printed s) (keys_read s).
Definition set_tab (t : list file_desc) (n : Z) (s : sys) : sys :=
  Sys (y_ram s) (y_fs s) (y_pagedir s) (y_tid s) t n (printed s) (keys_read s).
Definition set_console (o : list Z) (k : nat) (s : sys) : sys :=
  Sys (y_ram s) (y_fs s) (y_pagedir s) (y_tid s) (files_tab s) (files_next_desc s) o k.

(** Kernel code that may fault on an address of the process. *)
Definition Y (A : Type) : Type := M sys (option A).
#[global] Instance Y_ret : MRet Y := λ A a s, Ok (Some a, s).
#[global] Instance Y_bind : MBind Y := λ A B f m s,
  match m s with
  | Ok (Some a, s') => f a s'
  | Ok (None, s') => Ok (None, s')
  | Err e => Err e
  end.
Definition page_fault {A} : Y A := λ s, Ok (None, s).
Definition read_state {A} (f : sys → A) : Y A := λ s, Ok (Some (f s), s).
Definition change (f : sys → sys) : Y unit := λ s, Ok (Some (), f s).
Definition or_fault {A} (f : sys → option A) : Y A := λ s, Ok (f s, s).
Definition on_fs {A} (f : M fs A) : Y A := λ s,
  match f (y_fs s) with
  | Ok (a, x) => Ok (Some a, set_fs x s)
  | Err e => Err e
  end.

(** A loop of at most [2 ^ n] rounds. *)
Fixpoint rounds {A B} (n : nat) (body : A → A + B) (a : A) : A + B :=
  match n with
  | O => body a
  | S n => match rounds n body a with inl a => rounds n body a | inr b => inr b end
  end.

Section Calls.
Context (malloc_ok : nat → bool) (blank : list Z) (kernel_text : Z → bool) (key : nat → Z).

(** ** The memory of the process *)

Definition frame_word (r : ram) (p k : Z) : option Z := f ← frames r !! p; f !! Z.to_nat k.
Definition frame_of (e : Z) : Z := u32 (Z.land e PTE_ADDR + PHYS_BASE).
Definition permits (e : Z) (write : bool) : bool :=
  negb (bool_decide (Z.land e PTE_P = 0)) && (negb write || negb (bool_decide (Z.land e PTE_W = 0))).

(** The page behind a virtual address.  The kernel's own code is not
    writable ([paging_init]). *)
Definition mmu (r : ram) (pd va : Z) (write : bool) : option Z :=
  if decide (va < PHYS_BASE) then
    e ← frame_word r pd (pd_no va);
    if permits e write then
      w ← frame_word r (frame_of e) (pt_no va);
      if permits w write then Some (frame_of w) else None
    else None
  else if write && kernel_text va then None else Some (pg_round_down va).

Definition load_byte (r : ram) (pd va : Z) : option Z :=
  p ← mmu r pd va false;
  w ← frame_word r p (pg_ofs va / 4);
  le32 w !! Z.to_nat (va mod 4).
Definition store_byte (r : ram) (pd va b : Z) : option ram :=
  p ← mmu r pd va true;
  f ← frames r !! p;
  w ← f !! Z.to_nat (pg_ofs va / 4);
  Some (set_frames (<[p := <[Z.to_nat (pg_ofs va / 4) := of_le32 (<[Z.to_nat (va mod 4) := u8 b]> (le32 w))]> f]> (frames r)) r).

Definition load_bytes (r : ram) (pd va n : Z) : option (list Z) := mapM (λ i, load_byte r pd (u32 (va + i))) (seqZ 0 n).
Fixpoint store_bytes (r : ram) (pd va : Z) (bs : list Z) : option ram :=
  match bs with
  | [] => Some r
  | b :: bs => r' ← store_byte r pd va b; store_bytes r' pd (u32 (va + 1)) bs
  end.

(** [strlen] on an address of the process. *)
Definition strlen_round (r : ram) (pd s p : Z) : Z + option Z :=
  match load_byte r pd p with
  | None => inr None
  | Some b => if decide (b = 0) then inr (Some (p - s)) else inl (p + 1)
  end.
Definition user_strlen (s : Z) : Y Z :=
  or_fault (λ y, match rounds 32 (strlen_round (y_ram y) (y_pagedir y) s) s with inl _ => None | inr o => o end).

Definition load_user (va n : Z) : Y (list Z) := or_fault (λ y, load_bytes (y_ram y) (y_pagedir y) va n).
Definition store_user (va : Z) (bs : list Z) : Y unit := λ s,
  match store_bytes (y_ram s) (y_pagedir s) va bs with
  | Some r => Ok (Some (), set_ram r s)
  | None => Ok (None, s)
  end.
Definition user_string (s : Z) : Y (list Z) := n ← user_strlen s; load_user s n.

(** [args[i]] *)
Definition arg (esp i : Z) : Y Z := bs ← load_user (u32 (esp + 4 * i)) 4; mret (of_le32 bs).

(** ** Checks *)

Definition check_fd (fd : Z) : Y bool := read_state (λ s, bool_decide (fd ≤ files_next_desc s)).
Definition check_buffer (buffer size : Z) : bool := bool_decide (u32 (buffer + size) ≤ 0xbffffffe).
Definition check_boundary (buffer : Z) : bool := bool_decide (buffer < 0xbffffffe).
Definition check_not_null (pointer : Z) : bool := negb (bool_decide (pointer = 0)).

(** ** Handlers *)

(** What ends a call: a value in [eax], the end of the process, the end of
    the machine, or a handler that is not part of this model. *)
Inductive reply := Return (eax : Z) | Exit (code : Z) | Halt | Elsewhere (number : Z).

(** The walk over the table ([list_for_each_entry]). *)
Fixpoint find_desc (fd : Z) (tab : list file_desc) : option file_desc :=
  match tab with
  | [] => None
  | d :: tab => if decide (fd_no d = fd) then Some d else find_desc fd tab
  end.
Fixpoint remove_desc (fd : Z) (tab : list file_desc) : list file_desc :=
  match tab with
  | [] => []
  | d :: tab => if decide (fd_no d = fd) then tab else d :: remove_desc fd tab
  end.
Definition lookup_desc (fd : Z) : Y (option file_desc) := read_state (λ s, find_desc fd (files_tab s)).

Definition handler_practice (a1 : Z) : Y Z := mret (i32 (u32 (a1 + 1))).

Definition handler_create (a1 a2 : Z) : Y Z :=
  n ← user_string a1;
  b ← on_fs (Directory.filesys_create malloc_ok blank n (i32 a2)); mret (Z.b2z b).
Definition handler_remove (a1 : Z) : Y Z :=
  n ← user_string a1;
  b ← on_fs (Directory.filesys_remove malloc_ok n); mret (Z.b2z b).

Definition handler_open (a1 : Z) : Y Z :=
  n ← user_string a1;
  new_file ← on_fs (Directory.filesys_open malloc_ok n);
  if decide (new_file ≠ NULL) then
    next ← read_state files_next_desc;
    if decide (3 ≤ next) then
      new_file_desc ← on_fs (Inode.alloc malloc_ok);
      if decide (new_file_desc = NULL) then page_fault else
      change (λ s, set_tab (FileDesc next new_file :: files_tab s) (u32 (files_next_desc s + 1)) s);;
      mret (i32 next)
    else λ _, Err Panic
  else mret (-1).

Definition handler_close (fd : Z) : Y Z :=
  if decide (fd < 3) then mret (-1) else
  pos ← lookup_desc fd;
  match pos with
  | Some pos =>
      change (λ s, set_tab (remove_desc fd (files_tab s)) (files_next_desc s) s);;
      on_fs (Inode.file_close malloc_ok (fd_file pos));; mret 0
  | None => mret (-1)
  end.

Definition handler_filesize (fd : Z) : Y Z :=
  if decide (fd < 3) then mret (-1) else
  pos ← lookup_desc fd;
  match pos with Some pos => on_fs (Inode.file_length (fd_file pos)) | None => mret (-1) end.

Definition handler_tell (fd : Z) : Y Z :=
  if decide (fd < 3) then mret (-1) else
  pos ← lookup_desc fd;
  match pos with Some pos => on_fs (Inode.file_tell (fd_file pos)) | None => mret (-1) end.

Definition handler_seek (fd position : Z) : Y Z :=
  if decide (fd < 3) then mret (-1) else
  pos ← lookup_desc fd;
  match pos with Some pos => on_fs (Inode.file_seek (fd_file pos) (i32 position));; mret 0 | None => mret (-1) end.

(** [n] keys stored from [buffer] on. *)
Fixpoint read_keys (n : nat) (buffer : Z) : Y unit :=
  match n with
  | O => mret ()
  | S n =>
      k ← read_state keys_read;
      change (λ s, set_console (printed s) (S k) s);;
      store_user buffer [key k];;
      read_keys n (u32 (buffer + 1))
  end.

(** [file_read] into the memory of the process: the position moves on when
    everything has been stored. *)
Definition file_read_user (file buffer size : Z) : Y Z :=
  x ← on_fs (Inode.get_file file);
  bs ← on_fs (Inode.inode_read_at malloc_ok (Inode.f_inode x) size (Inode.pos x));
  store_user buffer bs;;
  p ← on_fs (Inode.off (Inode.pos x + Z.of_nat (length bs)));
  on_fs (Inode.put_file file (Inode.File (Inode.f_inode x) p (Inode.deny_write x)));;
  mret (Z.of_nat (length bs)).

Definition handler_read (fd buffer size : Z) : Y Z :=
  if decide (fd = 0) then read_keys (Z.to_nat size) buffer;; mret (i32 size)
  else if decide (fd = 1) then mret (-1)
  else
    pos ← lookup_desc fd;
    match pos with
    | Some pos => file_read_user (fd_file pos) buffer (i32 size)
    | None => mret (-1)
    end.

(** The bytes [file_write] reads from the memory of the process: as many as
    the file has room for from its position on. *)
Definition file_write_user (file buffer size : Z) : Y Z :=
  x ← on_fs (Inode.get_file file);
  i ← on_fs (Inode.get_inode (Inode.f_inode x));
  let room := Z.min size (Inode.length_ (Inode.data i) - Inode.pos x) in
  bs ← load_user buffer (if decide (0 < Inode.deny_write_cnt i) then 0 else room);
  on_fs (Inode.file_write malloc_ok file bs size).

Definition handler_write (fd buffer size : Z) : Y Z :=
  if decide (fd = 1) then
    bs ← load_user buffer size;
    change (λ s, set_console (printed s ++ bs) (keys_read s) s);; mret 0
  else if decide (fd = 0) then mret (-1)
  else
    pos ← lookup_desc fd;
    match pos with
    | Some pos => file_write_user (fd_file pos) buffer (i32 size)
    | None => mret (-1)
    end.

(** ** The dispatcher *)

Definition SYS_HALT : Z := 0.
Definition SYS_EXIT : Z := 1.
Definition SYS_EXEC : Z := 2.
Definition SYS_WAIT : Z := 3.
Definition SYS_CREATE : Z := 4.
Definition SYS_REMOVE : Z := 5.
Definition SYS_OPEN : Z := 6.
Definition SYS_FILESIZE : Z := 7.
Definition SYS_READ : Z := 8.
Definition SYS_WRITE : Z := 9.
Definition SYS_SEEK : Z := 10.
Definition SYS_TELL : Z := 11.
Definition SYS_CLOSE : Z := 12.
Definition SYS_PRACTICE : Z := 13.
Definition SYS_COMPUTE_E : Z := 14.
Definition SYS_PT_CREATE : Z := 15.
Definition SYS_PT_EXIT : Z := 16.
Definition SYS_PT_JOIN : Z := 17.
Definition SYS_LOCK_INIT : Z := 18.
Definition SYS_SEMA_UP : Z := 23.
Definition SYS_GET_TID : Z := 24.

(** [if (beneath) f->eax = ...], and [process_exit_normal (-1)] behind the
    switch otherwise. *)
Definition when_beneath (beneath : bool) (handler : Y reply) : Y reply := if beneath then handler else mret (Exit (-1)).
Definition eax_of (handler : Y Z) : Y reply := v ← handler; mret (Return (u32 v)).
Definition if_fd (fd : Z) (handler : Y Z) : Y reply := b ← check_fd fd; if (b : bool) then eax_of handler else mret (Return (u32 (-1))).

(** The check of a name: [args[i] != NULL && check_buffer (args[i], strlen (args[i]))]. *)
Definition check_name (a : Z) : Y bool :=
  if check_not_null a then n ← user_strlen a; mret (check_buffer a n) else mret false.

Definition syscall_handler (esp : Z) : Y reply :=
  let beneath i := check_boundary (u32 (esp + 4 * i)) in
  number ← arg esp 0;
  if decide (number = SYS_HALT) then mret Halt
  else if decide (number = SYS_EXIT) then
    when_beneath (beneath 1) (a1 ← arg esp 1; mret (Exit (i32 a1)))
  else if decide (number = SYS_EXEC) then
    when_beneath (beneath 1) (a1 ← arg esp 1; b ← check_name a1; when_beneath b (mret (Elsewhere number)))
  else if decide (number = SYS_WAIT) then when_beneath (beneath 1) (mret (Elsewhere number))
  else if decide (number = SYS_CREATE) then
    when_beneath (beneath 2) (a1 ← arg esp 1; b ← check_name a1;
      when_beneath b (a2 ← arg esp 2; eax_of (handler_create a1 a2)))
  else if decide (number = SYS_REMOVE) then
    when_beneath (beneath 1) (a1 ← arg esp 1; b ← check_name a1; when_beneath b (eax_of (handler_remove a1)))
  else if decide (number = SYS_OPEN) then
    when_beneath (beneath 1) (a1 ← arg esp 1; b ← check_name a1; when_beneath b (eax_of (handler_open a1)))
  else if decide (number = SYS_FILESIZE) then
    when_beneath (beneath 1) (a1 ← arg esp 1; if_fd a1 (handler_filesize a1))
  else if decide (number = SYS_READ) then
    when_beneath (beneath 3) (a2 ← arg esp 2;
      if check_not_null a2 then
        a3 ← arg esp 3;
        when_beneath (check_buffer a2 a3) (a1 ← arg esp 1; if_fd a1 (handler_read a1 a2 a3))
      else mret (Exit (-1)))
  else if decide (number = SYS_WRITE) then
    when_beneath (beneath 3) (a2 ← arg esp 2;
      if check_not_null a2 then
        a3 ← arg esp 3;
        when_beneath (check_buffer a2 a3) (a1 ← arg esp 1; if_fd a1 (handler_write a1 a2 a3))
      else mret (Exit (-1)))
  else if decide (number = SYS_SEEK) then
    when_beneath (beneath 2) (a1 ← arg esp 1; b ← check_fd a1;
      if (b : bool) then a2 ← arg esp 2; eax_of (handler_seek a1 a2) else mret (Return (u32 (-1))))
  else if decide (number = SYS_TELL) then
    when_beneath (beneath 1) (a1 ← arg esp 1; if_fd a1 (handler_tell a1))
  else if decide (number = SYS_CLOSE) then
    when_beneath (beneath 1) (a1 ← arg esp 1; if_fd a1 (handler_close a1))
  else if decide (number = SYS_PRACTICE) then
    when_beneath (beneath 1) (a1 ← arg esp 1; eax_of (handler_practice a1))
  else if decide (number = SYS_COMPUTE_E) then when_beneath (beneath 1) (mret (Elsewhere number))
  else if decide (number = SYS_PT_CREATE) then when_beneath (beneath 2 && beneath 3) (mret (Elsewhere number))
  else if decide (number = SYS_PT_EXIT ∨ number = SYS_PT_JOIN) then mret (Elsewhere number)
  else if decide (SYS_LOCK_INIT ≤ number ≤ SYS_SEMA_UP) then
    when_beneath (beneath 1) (a1 ← arg esp 1; if check_not_null a1 then mret (Elsewhere number) else mret (Return 0))
  else if decide (number = SYS_GET_TID) then t ← read_state y_tid; mret (Return (u32 t))
  else mret (Exit (-1)).
End Calls.

End Syscall.
