(* ===== verification/SyscallSpec.v ===== *)
(** * System calls: theorems

    What the operations of the file system leave alone, and that the handlers
    keep the table of open files consistent with the file system as long as
    nothing else writes to it ([SyscallTab] shows when that is so). *)

From S2P Require Import Prelude Bitmap Palloc PallocSpec Pagedir PagedirSpec Inode InodeSpec Directory Loader LoaderSpec Syscall.
Import Palloc PallocSpec Pagedir PagedirSpec Inode InodeSpec Directory LoaderSpec Syscall.

Module SyscallSpec.

(** ** Open files under the operations of the file system *)

(** The operation leaves the open files as they are; addresses handed out by
    [malloc] are new. *)
Definition keeps {A} (m : M fs A) : Prop :=
  ∀ s a s', m s = Ok (a, s') → files s' = files s ∧ (allocs s ≤ allocs s')%nat.

Create HintDb keeps discriminated.

Lemma keeps_ret {A} (a : A) : keeps (mret a).
Proof. intros s ? ? [= <- <-]. done. Qed.
Lemma keeps_bind {A B} (m : M fs A) (f : A → M fs B) : keeps m → (∀ a, keeps (f a)) → keeps (m ≫= f).
Proof.
  intros Hm Hf s b s' H. apply bind_Ok_inv in H as (a & s1 & H1 & H2). destruct (Hm _ _ _ H1), (Hf _ _ _ _ H2). split; [congruence|lia].
Qed.
Lemma keeps_fail {A} e : keeps (@fail fs A e).
Proof. by intros ? ? ?. Qed.
Lemma keeps_get : keeps (@get fs).
Proof. intros s ? ? [= <- <-]. done. Qed.
Lemma keeps_gets {A} (f : fs → A) : keeps (gets f).
Proof. intros s ? ? [= <- <-]. done. Qed.
Lemma keeps_modify f : (∀ s, files (f s) = files s ∧ allocs (f s) = allocs s) → keeps (modify f).
Proof. intros H s ? ? [= <- <-]. destruct (H s) as [-> ->]. done. Qed.
Lemma keeps_lift {A} (o : option A) e : keeps (lift o e).
Proof. destruct o; [apply keeps_ret|apply keeps_fail]. Qed.
Lemma keeps_ASSERT b : keeps (ASSERT b).
Proof. destruct b; [apply keeps_ret|apply keeps_fail]. Qed.
Lemma keeps_with_free_map {A} (f : M Bitmap.bitmap A) : keeps (with_free_map f).
Proof. intros s a s'. unfold with_free_map. destruct (f (free_map s)) as [[? ?]|]; [|done]. intros [= <- <-]. done. Qed.
Lemma keeps_alloc malloc_ok : keeps (alloc malloc_ok).
Proof. intros s ? ? [= <- <-]. cbn. split; [done|lia]. Qed.
Lemma keeps_if {A} (P : Prop) `{Decision P} (m1 m2 : M fs A) : keeps m1 → keeps m2 → keeps (if decide P then m1 else m2).
Proof. by case_decide. Qed.
Lemma keeps_bool {A} (b : bool) (m1 m2 : M fs A) : keeps m1 → keeps m2 → keeps (if b then m1 else m2).
Proof. by destruct b. Qed.

#[local] Hint Resolve keeps_ret keeps_fail keeps_get keeps_gets keeps_lift keeps_ASSERT keeps_with_free_map keeps_alloc : keeps.
#[local] Hint Extern 1 (keeps (modify _)) => apply keeps_modify; done : keeps.

(** The operation is taken apart down to the ones that are known. *)
Ltac keeps_step :=
  match goal with
  | |- keeps (mbind _ _) => apply keeps_bind; [|intros ?]
  | |- keeps (if decide _ then _ else _) => apply keeps_if
  | |- keeps (if ?b then _ else _) => lazymatch type of b with bool => apply keeps_bool end
  | |- keeps (match ?x with _ => _ end) => destruct x
  | |- keeps PANIC => apply keeps_fail
  | |- keeps (let _ := _ in _) => cbv zeta
  end.
Ltac keeps := repeat first [solve [auto 1 with keeps nocore]|keeps_step].

Section Keeps.
Context (malloc_ok : nat → bool).

Lemma keeps_off z : keeps (off z). Proof. unfold off. keeps. Qed.
Lemma keeps_block_read n : keeps (block_read n). Proof. unfold block_read, check_sector. keeps. Qed.
Lemma keeps_block_write n b : keeps (block_write n b). Proof. unfold block_write, check_sector. keeps. Qed.
Lemma keeps_get_inode i : keeps (get_inode i). Proof. unfold get_inode. keeps. Qed.
Lemma keeps_put_inode i x : keeps (put_inode i x). Proof. unfold put_inode. keeps. Qed.
Lemma keeps_get_file f : keeps (get_file f). Proof. unfold get_file. keeps. Qed.
Lemma keeps_get_dir d : keeps (get_dir d). Proof. unfold get_dir. keeps. Qed.
Hint Resolve keeps_off keeps_block_read keeps_block_write keeps_get_inode keeps_put_inode keeps_get_file keeps_get_dir : keeps.

Lemma keeps_read_loop fuel : ∀ x size o b acc, keeps (read_loop malloc_ok fuel x size o b acc).
Proof. induction fuel as [|fuel IH]; intros; cbn [read_loop]; unfold chunk, need_bounce; keeps; apply IH. Qed.
Lemma keeps_write_loop fuel : ∀ x buf size o b w, keeps (write_loop malloc_ok fuel x buf size o b w).
Proof. induction fuel as [|fuel IH]; intros; cbn [write_loop]; unfold chunk, need_bounce; keeps; apply IH. Qed.
Hint Resolve keeps_read_loop keeps_write_loop : keeps.
Lemma keeps_read_at i size o : keeps (inode_read_at malloc_ok i size o). Proof. unfold inode_read_at. keeps. Qed.
Lemma keeps_write_at i buf size o : keeps (inode_write_at malloc_ok i buf size o). Proof. unfold inode_write_at. keeps. Qed.
Hint Resolve keeps_read_at keeps_write_at : keeps.
Lemma keeps_bitmap_write f : keeps (bitmap_write malloc_ok f). Proof. unfold bitmap_write, file_write_at. keeps. Qed.
Hint Resolve keeps_bitmap_write : keeps.
Lemma keeps_allocate n : keeps (free_map_allocate malloc_ok n). Proof. unfold free_map_allocate. keeps. Qed.
Lemma keeps_release n m : keeps (free_map_release malloc_ok n m). Proof. unfold free_map_release. keeps. Qed.
Hint Resolve keeps_allocate keeps_release : keeps.
Lemma keeps_zero n : ∀ m, keeps (zero_sectors n m). Proof. induction n; intros; cbn [zero_sectors]; keeps; auto. Qed.
Hint Resolve keeps_zero : keeps.
Lemma keeps_create n m : keeps (inode_create malloc_ok n m). Proof. unfold inode_create, bytes_to_sectors. keeps. Qed.
Lemma keeps_reopen i : keeps (inode_reopen i). Proof. unfold inode_reopen. keeps. Qed.
Hint Resolve keeps_create keeps_reopen : keeps.
Lemma keeps_open n : keeps (inode_open malloc_ok n). Proof. unfold inode_open. keeps. Qed.
Lemma keeps_close i : keeps (inode_close malloc_ok i). Proof. unfold inode_close, bytes_to_sectors. keeps. Qed.
Lemma keeps_remove i : keeps (inode_remove i). Proof. unfold inode_remove. keeps. Qed.
Hint Resolve keeps_open keeps_close keeps_remove : keeps.
Lemma keeps_dir_open i : keeps (dir_open malloc_ok i). Proof. unfold dir_open. keeps. Qed.
Lemma keeps_dir_close d : keeps (dir_close malloc_ok d). Proof. unfold dir_close. keeps. Qed.
Hint Resolve keeps_dir_open keeps_dir_close : keeps.
Lemma keeps_root : keeps (dir_open_root malloc_ok). Proof. unfold dir_open_root. keeps. Qed.
Lemma keeps_entry i o : keeps (read_entry malloc_ok i o). Proof. unfold read_entry. keeps. Qed.
Lemma keeps_bound i : keeps (entry_bound i). Proof. unfold entry_bound, inode_length. keeps. Qed.
Lemma keeps_same_name n : ∀ bs, keeps (same_name n bs). Proof. induction n; intros []; cbn [same_name]; keeps; auto. Qed.
Hint Resolve keeps_root keeps_entry keeps_bound keeps_same_name : keeps.
Lemma keeps_lookup_loop fuel : ∀ i n o, keeps (lookup_loop malloc_ok fuel i n o).
Proof. induction fuel as [|fuel IH]; intros; cbn [lookup_loop]; keeps; apply IH. Qed.
Lemma keeps_slot_loop fuel : ∀ i o e, keeps (slot_loop malloc_ok fuel i o e).
Proof. induction fuel as [|fuel IH]; intros; cbn [slot_loop]; keeps; apply IH. Qed.
Hint Resolve keeps_lookup_loop keeps_slot_loop : keeps.
Lemma keeps_lookup d n : keeps (lookup malloc_ok d n). Proof. unfold lookup. keeps. Qed.
Hint Resolve keeps_lookup : keeps.
Lemma keeps_dir_lookup d n : keeps (dir_lookup malloc_ok d n). Proof. unfold dir_lookup. keeps. Qed.
Lemma keeps_dir_add b d n k : keeps (dir_add malloc_ok b d n k). Proof. unfold dir_add. keeps. Qed.
Lemma keeps_dir_remove d n : keeps (dir_remove malloc_ok d n). Proof. unfold dir_remove. keeps. Qed.
Hint Resolve keeps_dir_lookup keeps_dir_add keeps_dir_remove : keeps.
Lemma keeps_filesys_create b n k : keeps (filesys_create malloc_ok b n k). Proof. unfold filesys_create. keeps. Qed.
Lemma keeps_filesys_remove n : keeps (filesys_remove malloc_ok n). Proof. unfold filesys_remove. keeps. Qed.

(** [file_open] hands out a new address. *)
Lemma file_open_files i s f s' :
  file_open malloc_ok i s = Ok (f, s') →
  (allocs s ≤ allocs s')%nat ∧
  (f = NULL ∧ files s' = files s ∨ Z.of_nat (allocs s) < f ≤ Z.of_nat (allocs s') ∧ ∃ x, files s' = <[f := x]> (files s)).
Proof.
  unfold file_open, alloc, get, put. cbn. unfold mbind, M_bind, mret, M_ret.
  destruct (malloc_ok (allocs s)); case_decide as Hd.
  2,4: intros H; destruct (inode_close malloc_ok i (bump s)) as [[[] s1]|] eqn:Hc; [|done]; injection H as <- <-;
       destruct (keeps_close i _ _ _ Hc) as [-> Ha]; cbn in *; split; [lia|by left].
  - intros [= <- <-]. cbn. split; [lia|]. right. split; [lia|by eexists].
  - by destruct Hd.
Qed.

Lemma filesys_open_files n s f s' :
  filesys_open malloc_ok n s = Ok (f, s') →
  (allocs s ≤ allocs s')%nat ∧
  (f = NULL ∧ files s' = files s ∨ Z.of_nat (allocs s) < f ≤ Z.of_nat (allocs s') ∧ ∃ x, files s' = <[f := x]> (files s)).
Proof.
  unfold filesys_open. intros H. apply bind_Ok_inv in H as (d & s1 & H1 & H). apply bind_Ok_inv in H as (i & s2 & H2 & H).
  apply bind_Ok_inv in H as (u & s3 & H3 & H). destruct (keeps_root _ _ _ H1) as [E1 A1].
  assert (keeps (if decide (d ≠ NULL) then dir_lookup malloc_ok d n else mret NULL)) as K2 by (case_decide; keeps).
  destruct (K2 _ _ _ H2) as [E2 A2]. destruct (keeps_dir_close d _ _ _ H3) as [E3 A3].
  destruct (file_open_files _ _ _ _ H) as [A4 H4]. split; [lia|]. destruct H4 as [[-> E4]|[Hr [x E4]]].
  - left. split; [done|congruence].
  - right. split; [lia|]. exists x. congruence.
Qed.
End Keeps.

(** ** The table of open files *)

(** Every descriptor is a number that was given out once and names an open
    file of its own. *)
Record tab_ok (s : sys) : Prop := {
  tb_next : 3 ≤ files_next_desc s < 2 ^ 32;
  tb_range : ∀ d, d ∈ files_tab s → 3 ≤ fd_no d < files_next_desc s;
  tb_fds : NoDup (fd_no <$> files_tab s);
  tb_open : ∀ d, d ∈ files_tab s → fd_file d ≠ NULL ∧ is_Some (files (y_fs s) !! fd_file d);
  tb_files : NoDup (fd_file <$> files_tab s);
  tb_fresh : ∀ f, is_Some (files (y_fs s) !! f) → 0 < f ≤ Z.of_nat (allocs (y_fs s));
}.

Lemma tab_ok_fs s x :
  tab_ok s → (∀ f, is_Some (files x !! f) ↔ is_Some (files (y_fs s) !! f)) → (allocs (y_fs s) ≤ allocs x)%nat → tab_ok (set_fs x s).
Proof.
  intros [H1 H2 H3 H4 H5 H6] Hf Ha. constructor; cbn; [done|done|done| |done|].
  - intros d Hd. destruct (H4 d Hd). split; [done|]. by apply Hf.
  - intros f Hx%Hf%H6. lia.
Qed.

(** There is a descriptor left. *)
Definition roomy (s : sys) : Prop := tab_ok s ∧ files_next_desc s < 2 ^ 32 - 1.

Definition leads {A} (P : sys → Prop) (m : Y A) (Q : sys → Prop) : Prop := ∀ s o s', P s → m s = Ok (o, s') → Q s'.

Lemma leads_bind {A B} (P Q : sys → Prop) (m : Y A) (f : A → Y B) :
  (∀ s, P s → Q s) → leads P m P → (∀ a, leads P (f a) Q) → leads P (m ≫= f) Q.
Proof.
  intros HPQ Hm Hf s o s' Hs. unfold mbind, Y_bind. destruct (m s) as [[[a|] s1]|] eqn:E; [|intros [= <- <-]|done].
  - intros H. apply (Hf a s1 o s'); [by apply (Hm s (Some a) s1)|done].
  - by eapply HPQ, Hm.
Qed.
Lemma leads_same {A} (P Q : sys → Prop) (m : Y A) : (∀ s, P s → Q s) → (∀ s o s', m s = Ok (o, s') → s' = s) → leads P m Q.
Proof. intros HPQ Hm s o s' Hs H. rewrite (Hm _ _ _ H). auto. Qed.
Lemma leads_weaken {A} (P Q : sys → Prop) (m : Y A) : (∀ s, P s → Q s) → leads P m P → leads P m Q.
Proof. intros HPQ Hm s o s' Hs H. by eapply HPQ, Hm. Qed.

Lemma roomy_tab s : roomy s → tab_ok s.
Proof. by intros []. Qed.
#[local] Hint Resolve roomy_tab : core.

Lemma leads_ret {A} (a : A) P Q : (∀ s, P s → Q s) → leads P (mret a) Q.
Proof. intros H. apply leads_same; [done|]. by intros s o s' [= <- <-]. Qed.
Lemma leads_fault {A} (f : sys → option A) P Q : (∀ s, P s → Q s) → leads P (or_fault f) Q.
Proof. intros H. apply leads_same; [done|]. by intros s o s' [= <- <-]. Qed.
Lemma leads_state {A} (f : sys → A) P Q : (∀ s, P s → Q s) → leads P (read_state f) Q.
Proof. intros H. apply leads_same; [done|]. by intros s o s' [= <- <-]. Qed.
Lemma leads_page_fault {A} P Q : (∀ s, P s → Q s) → leads P (@page_fault A) Q.
Proof. intros H. apply leads_same; [done|]. by intros s o s' [= <- <-]. Qed.


(** Operations on one open file. *)
Definition touches {A} (m : M fs A) : Prop :=
  ∀ s a s', m s = Ok (a, s') → (∀ f, is_Some (files s' !! f) ↔ is_Some (files s !! f)) ∧ (allocs s ≤ allocs s')%nat.

Lemma leads_touches {A} (m : M fs A) : touches m → leads roomy (on_fs m) roomy.
Proof.
  intros Hm s o s' [Ht Hr]. unfold on_fs. destruct (m (y_fs s)) as [[a x]|] eqn:E; [|done]. intros [= <- <-].
  destruct (Hm _ _ _ E) as [Ef Ea]. split; [|done]. by apply tab_ok_fs.
Qed.
Lemma leads_keeps {A} (m : M fs A) : keeps m → leads roomy (on_fs m) roomy.
Proof. intros Hm. apply leads_touches. intros s a s' H. destruct (Hm _ _ _ H) as [-> ?]. done. Qed.

Lemma insert_dom {A} (m : gmap Z A) f x y g : m !! f = Some x → is_Some (<[f := y]> m !! g) ↔ is_Some (m !! g).
Proof. intros Hf. destruct (decide (g = f)) as [->|Hg]; [rewrite lookup_insert_eq, Hf; split; by eexists|by rewrite lookup_insert_ne]. Qed.

Lemma get_file_inv f s x s' : get_file f s = Ok (x, s') → files s !! f = Some x ∧ s' = s.
Proof. unfold get_file, get, mbind, M_bind. destruct (files s !! f); [|done]. by intros [= <- <-]. Qed.

Lemma touches_seek f p : touches (file_seek f p).
Proof.
  intros s a s' H. unfold file_seek in H. apply bind_Ok_inv in H as ([] & s1 & [_ [= ->]]%ASSERT_inv & H).
  apply bind_Ok_inv in H as (x & s2 & [Hf ->]%get_file_inv & [= <- <-]). cbn. split; [|done]. intros g. by apply insert_dom with x.
Qed.

Section Calls.
Context (malloc_ok : nat → bool) (blank : list Z) (kernel_text : Z → bool) (key : nat → Z).

Lemma touches_write f bs size : touches (file_write malloc_ok f bs size).
Proof.
  intros s b s' H. unfold file_write in H. apply bind_Ok_inv in H as (x & s1 & [Hf ->]%get_file_inv & H).
  apply bind_Ok_inv in H as (n & s2 & H2 & H). apply bind_Ok_inv in H as (p & s3 & H3 & [= <- <-]).
  destruct (keeps_write_at _ _ _ _ _ _ _ _ H2) as [E2 A2]. destruct (keeps_off _ _ _ _ H3) as [E3 A3]. cbn.
  split; [|lia]. intros g. rewrite E3, E2. by apply insert_dom with x.
Qed.

Lemma file_close_files f s u s' :
  file_close malloc_ok f s = Ok (u, s') → f ≠ NULL →
  (∀ g, g ≠ f → is_Some (files s' !! g) ↔ is_Some (files s !! g)) ∧ files s' !! f = None ∧ (allocs s ≤ allocs s')%nat.
Proof.
  unfold file_close. intros H Hn. rewrite decide_False in H by done. apply bind_Ok_inv in H as ([] & s1 & H1 & H).
  apply bind_Ok_inv in H as (x & s2 & [Hx ->]%get_file_inv & H). apply bind_Ok_inv in H as ([] & s3 & H3 & [= <- <-]).
  destruct (keeps_close _ _ _ _ _ H3) as [E3 A3].
  assert ((∀ g, is_Some (files s1 !! g) ↔ is_Some (files s !! g)) ∧ (allocs s ≤ allocs s1)%nat) as [Hg A1].
  { unfold file_allow_write in H1. apply bind_Ok_inv in H1 as (y & s4 & [Hy ->]%get_file_inv & H1).
    destruct (deny_write y); [|by injection H1 as <-]. apply bind_Ok_inv in H1 as ([] & s4 & [= <-] & H1).
    assert (keeps (inode_allow_write (f_inode y))) as K by (unfold inode_allow_write; keeps; [apply keeps_get_inode|apply keeps_put_inode]).
    destruct (K _ _ _ H1) as [E A]. cbn in *. split; [|lia]. intros g. rewrite E. by apply insert_dom with y. }
  cbn. split; [|split; [apply lookup_delete_eq|lia]]. intros g Hgf. rewrite lookup_delete_ne, E3 by done. apply Hg.
Qed.

Lemma leads_store va bs : leads roomy (store_user kernel_text va bs) roomy.
Proof. intros s o s' [[] Hr]. unfold store_user. destruct (Syscall.store_bytes _ _ _ _ _); intros [= <- <-]; (split; [by constructor|done]). Qed.

Lemma leads_eax h : leads roomy h tab_ok → leads roomy (eax_of h) tab_ok.
Proof.
  intros Hh s o s' Hs. unfold eax_of, mbind, Y_bind. destruct (h s) as [[[a|] s1]|] eqn:E; [|intros [= <- <-]; by eapply Hh|done].
  intros [= <- <-]. by eapply Hh.
Qed.

Create HintDb leads discriminated.
#[local] Hint Resolve leads_ret leads_fault leads_state leads_page_fault leads_keeps leads_store touches_write touches_seek leads_touches roomy_tab : leads.
#[local] Hint Extern 1 (leads roomy (change _) roomy) => intros ? ? ? [[] ?] [= <- <-]; split; [by constructor|done] : leads.

Ltac leads_step :=
  match goal with
  | |- ∀ s, roomy s → _ s => solve [intros ? []; done|intros ?; exact id]
  | |- leads _ (mbind _ _) _ => apply leads_bind; [| |intros ?]
  | |- leads _ (if decide _ then _ else _) _ => case_decide
  | |- leads _ (if ?b then _ else _) _ => lazymatch type of b with bool => destruct b end
  | |- leads _ (match ?x with _ => _ end) _ => destruct x
  | |- leads _ (mret _) _ => apply leads_ret
  | |- leads _ (or_fault _) _ => apply leads_fault
  | |- leads _ (read_state _) _ => apply leads_state
  | |- leads _ page_fault _ => apply leads_page_fault
  | |- leads roomy (eax_of _) tab_ok => apply leads_eax
  | |- leads roomy ?m tab_ok => apply leads_weaken
  end.
Ltac leads := repeat first [solve [auto 2 with leads nocore]|leads_step].

Lemma leads_strlen a : leads roomy (user_strlen kernel_text a) roomy.
Proof. unfold user_strlen. leads. Qed.
Lemma leads_load va n : leads roomy (load_user kernel_text va n) roomy.
Proof. unfold load_user. leads. Qed.
Hint Resolve leads_strlen leads_load : leads.
Lemma leads_string a : leads roomy (user_string kernel_text a) roomy.
Proof. unfold user_string. leads. Qed.
Lemma leads_arg esp i : leads roomy (arg kernel_text esp i) roomy.
Proof. unfold arg. leads. Qed.
Lemma leads_name a : leads roomy (check_name kernel_text a) roomy.
Proof. unfold check_name. leads. Qed.
Hint Resolve leads_string leads_arg leads_name : leads.

Lemma leads_create a1 a2 : leads roomy (handler_create malloc_ok blank kernel_text a1 a2) roomy.
Proof. unfold handler_create. leads; apply leads_keeps, keeps_filesys_create. Qed.
Lemma leads_remove a1 : leads roomy (handler_remove malloc_ok kernel_text a1) roomy.
Proof. unfold handler_remove. leads; apply leads_keeps, keeps_filesys_remove. Qed.

Lemma leads_open a1 : leads roomy (handler_open malloc_ok kernel_text a1) tab_ok.
Proof.
  unfold handler_open. apply leads_bind; [auto|leads|]. intros n s o s' [Ht Hr]. pose proof Ht as [T1 T2 T3 T4 T5 T6].
  unfold mbind at 1, Y_bind at 1, on_fs at 1. destruct (filesys_open malloc_ok n (y_fs s)) as [[f x]|] eqn:E; [|done].
  destruct (filesys_open_files _ _ _ _ _ E) as [Ha Hf].
  destruct Hf as [[-> Ef]|[Hlt [v Ef]]].
  { rewrite decide_False by tauto. intros [= <- <-]. apply tab_ok_fs; [done| |done]. intros g. by rewrite Ef. }
  rewrite decide_True by (unfold NULL; lia). unfold mbind, Y_bind, read_state. cbn [files_next_desc set_fs].
  rewrite decide_True by lia. unfold on_fs, alloc, get, put, mbind, M_bind, mret, M_ret. cbn [y_fs set_fs].
  assert (files (y_fs s) !! f = None) as Hnew by (apply eq_None_not_Some; intros ?%T6; lia).
  assert (∀ x', files x' = files x → (allocs x ≤ allocs x')%nat → tab_ok (set_fs x' (set_fs x s))) as Hok.
  { intros x' Hx' Ha'. constructor; cbn; rewrite ?Hx', ?Ef; [done|done|done| |done|].
    - intros d Hd. destruct (T4 d Hd) as [? Hs]. split; [done|]. destruct (decide (fd_file d = f)) as [Edf|]; [rewrite Edf, Hnew in Hs; by destruct Hs|].
      by rewrite lookup_insert_ne.
    - intros g. destruct (decide (g = f)) as [->|]; [lia|]. rewrite lookup_insert_ne by done. intros ?%T6. lia. }
  destruct (Hok (bump x) eq_refl ltac:(cbn; lia)) as [K1 K2 K3 K4 K5 K6]. cbn in *.
  case_decide as Hz; intros [= <- <-]; [by constructor|].
  rewrite (wrapu_id 32) by (unfold in_u; lia). constructor; cbn; [lia| | | | |done].
  - intros d [->|Hd]%elem_of_cons; cbn; [lia|]. specialize (K2 d Hd). lia.
  - apply NoDup_cons. split; [|done]. intros (d & Hfd & Hd)%list_elem_of_fmap. specialize (K2 d Hd). lia.
  - intros d [->|Hd]%elem_of_cons; cbn; [|by apply K4]. split; [unfold NULL; lia|]. rewrite Ef, lookup_insert_eq. by eexists.
  - apply NoDup_cons. split; [|done]. intros (d & Edf & Hd)%list_elem_of_fmap. destruct (T4 d Hd) as [_ Hs]. rewrite <- Edf, Hnew in Hs. by destruct Hs.
Qed.

Lemma find_desc_Some fd tab d : find_desc fd tab = Some d → d ∈ tab ∧ fd_no d = fd.
Proof.
  induction tab as [|e tab IH]; cbn; [done|]. case_decide; [intros [= ->]; split; [left|done]|]. intros [? ?]%IH. split; [by right|done].
Qed.
Lemma find_desc_None fd tab : find_desc fd tab = None ↔ fd ∉ fd_no <$> tab.
Proof.
  induction tab as [|e tab IH]; cbn; [split; [intros _; apply not_elem_of_nil|done]|].
  rewrite not_elem_of_cons, <- IH. case_decide; naive_solver.
Qed.

(** Removing a descriptor leaves the others. *)
Lemma remove_desc_spec fd tab d :
  NoDup (fd_no <$> tab) → find_desc fd tab = Some d → tab ≡ₚ d :: remove_desc fd tab.
Proof.
  induction tab as [|e tab IH]; cbn; [done|]. intros [Hn Hnd]%NoDup_cons. case_decide; [by intros [= ->]|].
  intros Hp%IH; [|done]. rewrite Hp at 1. constructor.
Qed.

Lemma leads_close fd : leads roomy (handler_close malloc_ok fd) roomy.
Proof.
  unfold handler_close. case_decide; [leads|]. intros s o s' [Ht Hr]. pose proof Ht as [T1 T2 T3 T4 T5 T6].
  unfold lookup_desc, read_state, mbind, Y_bind, change, on_fs. destruct (find_desc fd (files_tab s)) as [d|] eqn:Hd; [|by intros [= <- <-]].
  destruct (find_desc_Some _ _ _ Hd) as [Hin _]. destruct (T4 d Hin) as [Hnn _]. pose proof (remove_desc_spec _ _ _ T3 Hd) as Hp.
  cbn [y_fs set_tab]. destruct (file_close malloc_ok (fd_file d) (y_fs s)) as [[[] x]|] eqn:E; [|done]. intros [= <- <-].
  destruct (file_close_files _ _ _ _ E Hnn) as (Hg & Hf & Ha).
  assert (fd_file d ∉ fd_file <$> remove_desc fd (files_tab s) ∧ NoDup (fd_file <$> remove_desc fd (files_tab s))) as [Hnf Hndf].
  { apply NoDup_cons. rewrite <- fmap_cons. by rewrite <- Hp. }
  assert (∀ e, e ∈ remove_desc fd (files_tab s) → e ∈ files_tab s) as Hsub by (intros e He; rewrite Hp; by right).
  split; [|done]. constructor; cbn; [done|auto| | |done|].
  - apply (NoDup_cons (fd_no d)). rewrite <- fmap_cons. by rewrite <- Hp.
  - intros e He. destruct (T4 e (Hsub e He)). split; [done|]. apply Hg; [|done]. intros Ee. apply Hnf. rewrite <- Ee. by apply list_elem_of_fmap_2.
  - intros g Hs. destruct (decide (g = fd_file d)) as [->|Hne]; [rewrite Hf in Hs; by destruct Hs|]. apply Hg in Hs; [|done]. specialize (T6 g Hs). lia.
Qed.

Lemma keeps_length f : keeps (file_length f).
Proof. unfold file_length, inode_length. keeps; [apply keeps_get_file|apply keeps_get_inode]. Qed.
Lemma keeps_tell f : keeps (file_tell f).
Proof. unfold file_tell. keeps. apply keeps_get_file. Qed.
Hint Resolve keeps_length keeps_tell : leads.

Lemma leads_filesize fd : leads roomy (handler_filesize fd) roomy.
Proof. unfold handler_filesize, lookup_desc. leads. Qed.
Lemma leads_tell fd : leads roomy (handler_tell fd) roomy.
Proof. unfold handler_tell, lookup_desc. leads. Qed.
Lemma leads_seek fd p : leads roomy (handler_seek fd p) roomy.
Proof. unfold handler_seek, lookup_desc. leads. Qed.

Lemma leads_keys n : ∀ b, leads roomy (read_keys kernel_text key n b) roomy.
Proof. induction n as [|n IH]; intros b; cbn [read_keys]; leads; apply IH. Qed.

(** While the read goes on the file stays open. *)
Lemma leads_file_read f b n : leads roomy (file_read_user malloc_ok kernel_text f b n) roomy.
Proof.
  unfold file_read_user. intros s o s' Hs. unfold mbind at 1, Y_bind at 1, on_fs at 1.
  destruct (get_file f (y_fs s)) as [[x fs1]|] eqn:E; [|done]. apply get_file_inv in E as [Hx ->].
  assert (set_fs (y_fs s) s = s) as -> by by destruct s. revert s o s' Hs Hx.
  enough (leads (λ s, roomy s ∧ files (y_fs s) !! f = Some x) (bs ← on_fs (inode_read_at malloc_ok (f_inode x) n (pos x));
    store_user kernel_text b bs;; p ← on_fs (off (pos x + Z.of_nat (length bs)));
    on_fs (put_file f (File (f_inode x) p (deny_write x)));; mret (Z.of_nat (length bs))) roomy) as H by (intros s o s' Hs Hx; by apply H).
  assert (∀ A (m : M fs A), keeps m → leads (λ s, roomy s ∧ files (y_fs s) !! f = Some x) (on_fs m) (λ s, roomy s ∧ files (y_fs s) !! f = Some x)) as HK.
  { intros A m Hm s o s' [Hs Hx] H. split; [by apply (leads_keeps m Hm s o s')|]. unfold on_fs in H.
    destruct (m (y_fs s)) as [[a fs1]|] eqn:E; [|done]. injection H as <- <-. destruct (Hm _ _ _ E) as [Ef _]. cbn. by rewrite Ef. }
  apply leads_bind; [tauto|apply HK, keeps_read_at|]. intros bs. apply leads_bind; [tauto| |].
  { intros s o s' [Hs Hx] H. split; [by eapply leads_store|]. unfold store_user in H. destruct (Syscall.store_bytes _ _ _ _ _); by injection H as <- <-. }
  intros _. apply leads_bind; [tauto|apply HK, keeps_off|]. intros p s o s' [Hs Hx] [= <- <-].
  destruct Hs as [Ht Hr]. split; [|done]. apply tab_ok_fs; [done| |done]. intros g. cbn. by apply insert_dom with x.
Qed.

Hint Resolve leads_file_read leads_keys keeps_get_file keeps_get_inode : leads.
Lemma leads_read fd b n : leads roomy (handler_read malloc_ok kernel_text key fd b n) roomy.
Proof. unfold handler_read, lookup_desc. leads. Qed.
Lemma leads_write fd b n : leads roomy (handler_write malloc_ok kernel_text fd b n) roomy.
Proof. unfold handler_write, lookup_desc, file_write_user. leads. Qed.
Hint Resolve leads_create leads_remove leads_open leads_close leads_filesize leads_tell leads_seek leads_read leads_write : leads.

(** Every system call, whatever its arguments are. *)
Lemma syscall_leads esp : leads roomy (syscall_handler malloc_ok blank kernel_text key esp) tab_ok.
Proof. unfold syscall_handler, when_beneath, if_fd, check_fd, handler_practice. cbv zeta. leads. Qed.
End Calls.

(** The table of open files stays consistent: descriptors are distinct numbers
    from 3 up that were given out, each names an open file, no two the same
    one.  (While a descriptor number is left: they are never used again.) *)
Lemma syscall_tab malloc_ok blank kernel_text key esp s o s' :
  tab_ok s → files_next_desc s < 2 ^ 32 - 1 →
  syscall_handler malloc_ok blank kernel_text key esp s = Ok (o, s') → tab_ok s'.
Proof. intros Ht Hr. by apply syscall_leads. Qed.

(** A process with one page of writable memory at 0x08048000, which holds the
    arguments of a system call and, from offset 64 on, some bytes. *)
Definition demo_user (words bytes : list Z) : sys :=
  let r := default demo_mapped (Syscall.store_bytes (λ _, false) demo_mapped demo_pd demo_upage (concat (le32 <$> words))) in
  let r := default r (Syscall.store_bytes (λ _, false) r demo_pd (demo_upage + 64) bytes) in
  Sys r demo_elf_fs demo_pd 1 [] 3 [] 0.

Lemma no_files_ok s : files_tab s = [] → files_next_desc s = 3 → files (y_fs s) = ∅ → tab_ok s.
Proof.
  intros Ht Hn Hf. constructor; rewrite ?Ht, ?Hn, ?Hf; [lia| |constructor| |constructor|].
  - intros d Hd. by apply not_elem_of_nil in Hd.
  - intros d Hd. by apply not_elem_of_nil in Hd.
  - intros f [x Hx]. by rewrite lookup_empty in Hx.
Qed.

Notation demo_call := (syscall_handler (λ _, true) (replicate 20 9) (λ _, false) (λ _, 65) demo_upage).
Definition demo_opening : sys := demo_user [SYS_OPEN; demo_upage + 64] [112; 0].
Definition demo_with_file : sys := match demo_call demo_opening with Ok (_, s) => s | Err _ => demo_opening end.

Lemma demo_open_run : demo_call demo_opening = Ok (Some (Return 3), demo_with_file).
Proof. vm_compute. reflexivity. Qed.

Lemma demo_with_file_tab : tab_ok demo_with_file.
Proof. eapply (syscall_tab _ _ _ _ _ demo_opening); [apply no_files_ok; reflexivity|reflexivity|exact demo_open_run]. Qed.
End SyscallSpec.
