(* ===== verification/SyscallMem.v ===== *)
(** * System calls and the memory of the process

    The kernel's accesses to user memory go through the page tables that
    [pagedir_set_page] built; what a process writes to a file through a
    descriptor it reads back into its memory; and what the checks of the
    arguments let through. *)

From S2P Require Import Prelude Bitmap Palloc PallocSpec Pagedir PagedirSpec Inode InodeSpec Directory Loader LoaderSpec Syscall SyscallSpec.
Import Palloc PallocSpec Pagedir PagedirSpec Inode InodeSpec LoaderSpec Syscall SyscallSpec.

Module SyscallMem.

Section Memory.
Context (kernel_text : Z → bool).

Lemma frame_of_page e : in_u 32 e → e < 2 ^ 32 - PHYS_BASE → frame_of e = page_of e.
Proof.
  intros Hu Hl. unfold frame_of, page_of. rewrite land_addr by done. apply wrapu_id.
  unfold in_u, PGSIZE, PHYS_BASE in *. Z.to_euclidean_division_equations. lia.
Qed.

Lemma permits_read e : permits e false = bool_decide (e mod 2 = 1).
Proof.
  unfold permits. rewrite land_present, orb_true_l, andb_true_r. pose proof (Z.mod_pos_bound e 2).
  destruct (decide (e mod 2 = 0)); [rewrite bool_decide_true, bool_decide_false by lia|rewrite bool_decide_false, bool_decide_true by lia]; done.
Qed.
Lemma permits_write e : permits e true = true → permits e false = true.
Proof. unfold permits. cbn. rewrite andb_true_iff, andb_true_r. tauto. Qed.

(** The processor and [pagedir_get_page] agree. *)
Lemma mmu_user r pd va : space_ok r pd → user_addr va → mmu kernel_text r pd va false = page_of <$> mapping r pd va.
Proof.
  intros Hs Hva. pose proof (so_ram _ _ Hs) as Hwf. pose proof (so_pd _ _ Hs) as Hpd. destruct (user_addr_nos va Hva) as [Hd Ht].
  unfold mmu, mapping. rewrite decide_True by apply Hva. change frame_word with word.
  destruct (word_some r pd (pd_no va) Hwf (pd_alloc _ _ Hpd) ltac:(lia)) as (e & He & Heu & _). rewrite He. cbn [mbind option_bind].
  rewrite permits_read. destruct (decide (e = 0)) as [->|He0]; [done|].
  destruct (pd_pdes _ _ Hpd _ _ Hd He He0) as [Hel Heo]. rewrite bool_decide_true by done. rewrite frame_of_page by done.
  pose proof (table_intro r pd _ e Hd He He0) as Htab. destruct (pd_tables _ _ Hpd _ _ Htab) as [Hal _].
  destruct (word_some r (page_of e) (pt_no va) Hwf Hal Ht) as (w & Hw & Hwu & _). rewrite Hw. cbn [mbind option_bind].
  rewrite permits_read. case_bool_decide as Hwo; [|by rewrite decide_False]. rewrite decide_True by done. cbn.
  f_equal. apply frame_of_page; [done|]. by apply (pd_ptes _ _ Hpd _ _ _ _ Htab Hw).
Qed.

Lemma mmu_write r pd va p : mmu kernel_text r pd va true = Some p → mmu kernel_text r pd va false = Some p.
Proof.
  unfold mmu. case_decide.
  - destruct (frame_word r pd (pd_no va)) as [e|]; [|done]. cbn [mbind option_bind].
    destruct (permits e true) eqn:He; [|done]. rewrite (permits_write _ He).
    destruct (frame_word r (frame_of e) (pt_no va)) as [w|]; [|done]. cbn [mbind option_bind].
    destruct (permits w true) eqn:Hw; [|done]. by rewrite (permits_write _ Hw).
  - cbn. by destruct (kernel_text va).
Qed.

(** The byte [j] of the word [k] of a page. *)
Lemma page_bytes_lookup f k j : (j < 4)%nat → Loader.page_bytes f !! (4 * k + j)%nat = (w ← f !! k; le32 w !! j).
Proof.
  intros Hj. revert k. induction f as [|w f IH]; intros k; [done|]. unfold Loader.page_bytes. cbn [fmap list_fmap concat].
  destruct k as [|k].
  - rewrite lookup_app_l by (rewrite le32_length; lia). done.
  - rewrite lookup_app_r by (rewrite le32_length; lia). rewrite le32_length.
    replace (4 * S k + j - 4)%nat with (4 * k + j)%nat by lia. apply IH.
Qed.

Lemma page_ofs va : 0 ≤ va → Z.to_nat (va mod PGSIZE) = (4 * Z.to_nat (pg_ofs va / 4) + Z.to_nat (va mod 4))%nat ∧ (Z.to_nat (va mod 4) < 4)%nat.
Proof. intros H. rewrite pg_ofs_mod. unfold PGSIZE. Z.to_euclidean_division_equations. lia. Qed.

Lemma load_byte_user r pd va : space_ok r pd → user_addr va → load_byte kernel_text r pd va = user_byte r pd va.
Proof.
  intros Hs Hva. unfold load_byte, user_byte. rewrite mmu_user by done. destruct (mapping r pd va) as [w|]; [|done]. cbn [fmap option_fmap option_map mbind option_bind].
  unfold frame_word. destruct (frames r !! page_of w) as [f|]; [|done]. cbn [mbind option_bind].
  destruct (page_ofs va (proj1 Hva)) as [-> Hj]. by rewrite page_bytes_lookup.
Qed.

(** No page is mapped twice. *)
Definition no_alias (r : ram) (pd : Z) : Prop :=
  ∀ va va' w w', user_addr va → user_addr va' → mapping r pd va = Some w → mapping r pd va' = Some w' →
    page_of w = page_of w' → va / PGSIZE = va' / PGSIZE.

(** One byte of one page changes. *)
Lemma store_byte_frame r pd va b r' :
  0 ≤ va → store_byte kernel_text r pd va b = Some r' →
  ∃ p f f', mmu kernel_text r pd va true = Some p ∧ frames r !! p = Some f ∧ r' = set_frames (<[p := f']> (frames r)) r ∧
    (frame_ok f → frame_ok f') ∧
    ∀ o, 0 ≤ o < PGSIZE → Loader.page_bytes f' !! Z.to_nat o = if decide (o = va mod PGSIZE) then Some (u8 b) else Loader.page_bytes f !! Z.to_nat o.
Proof.
  intros Hva. unfold store_byte. destruct (mmu kernel_text r pd va true) as [p|]; [|done]. cbn [mbind option_bind].
  destruct (frames r !! p) as [f|] eqn:Hf; [|done]. cbn [mbind option_bind].
  set (k := Z.to_nat (pg_ofs va / 4)). set (j := Z.to_nat (va mod 4)). destruct (page_ofs va Hva) as [Eo Hj]. fold k j in Eo, Hj.
  destruct (f !! k) as [w|] eqn:Hw; [|done]. cbn [mbind option_bind]. intros [= <-].
  assert (Forall (in_u 8) (<[j := u8 b]> (le32 w))) as Hu by (apply Forall_insert; [apply le32_bytes|apply wrapu_range; lia]).
  assert (le32 (of_le32 (<[j := u8 b]> (le32 w))) = <[j := u8 b]> (le32 w)) as Ew.
  { assert (length (<[j := u8 b]> (le32 w)) = 4%nat) as Hl by (by rewrite length_insert, le32_length).
    destruct (<[j := u8 b]> (le32 w)) as [|a [|b' [|c [|d [|]]]]]; try (cbn in Hl; lia). by apply of_le32_bytes. }
  eexists p, f, _. split; [done|]. split; [done|]. split; [reflexivity|]. split.
  { intros [Hfl Hfw]. split; [by rewrite length_insert|]. apply Forall_insert; [done|]. by apply of_le32_range. }
  intros o Ho. destruct (page_ofs o ltac:(lia)) as [Eo' Hj']. rewrite (Z.mod_small o) in Eo' by done. rewrite Eo', !page_bytes_lookup by done.
  case_decide as Heq.
  - assert (Z.to_nat (pg_ofs o / 4) = k ∧ Z.to_nat (o mod 4) = j) as [-> ->] by lia.
    rewrite list_lookup_insert_eq by (by eapply lookup_lt_Some). cbn [mbind option_bind]. rewrite Ew. apply list_lookup_insert_eq. by rewrite le32_length.
  - destruct (decide (Z.to_nat (pg_ofs o / 4) = k)) as [Ek|Ek]; [|by rewrite list_lookup_insert_ne].
    rewrite Ek, Hw, list_lookup_insert_eq by (by eapply lookup_lt_Some). cbn [mbind option_bind]. rewrite Ew.
    apply list_lookup_insert_ne. intros Ej. apply Heq. pose proof (Z.mod_pos_bound va PGSIZE). lia.
Qed.

Lemma store_byte_run r pd va b r' :
  space_ok r pd → no_alias r pd → user_addr va → store_byte kernel_text r pd va b = Some r' →
  space_ok r' pd ∧ no_alias r' pd ∧ (∀ va', user_addr va' → mapping r' pd va' = mapping r pd va') ∧
  (∀ va', user_addr va' → user_byte r' pd va' = if decide (va' = va) then Some (u8 b) else user_byte r pd va').
Proof.
  intros Hs Hna Hva Hst. destruct (store_byte_frame r pd va b r' (proj1 Hva) Hst) as (p & f & f' & Hm & Hf & -> & Hok & Hbytes).
  apply mmu_write in Hm. rewrite mmu_user in Hm by done. destruct (mapping r pd va) as [e|] eqn:He; [|done]. injection Hm as <-.
  destruct (so_user _ _ Hs va e Hva He) as (Hal & Hne & Hnt). set (r' := set_frames _ r).
  destruct (directory_same r r' pd (so_pd _ _ Hs) eq_refl) as (Hpd & Ht & Hmp).
  { intros q Hq. assert (q ≠ page_of e) as Hqe by (intros ->; destruct Hq as [E|[i Hi]]; [by apply Hne|by apply (Hnt i)]).
    split; [|unfold r'; cbn; by rewrite lookup_insert_ne]. apply allocated_frames.
    destruct Hq as [->|[i Hi]]; [apply (so_pd _ _ Hs)|apply (pd_tables _ _ (so_pd _ _ Hs) i q Hi)]. }
  split; [|split; [|split; [done|]]].
  - constructor; [|done| |].
    + apply set_frame_wf; [apply (so_ram _ _ Hs)|]. by eapply Hok, ram_frames; [apply (so_ram _ _ Hs)|].
    + intros q [g Hg]. apply (so_frames _ _ Hs q). unfold r' in Hg. cbn in Hg. destruct (decide (q = page_of e)) as [->|]; [by rewrite Hf|].
      rewrite lookup_insert_ne in Hg by done. by rewrite Hg.
    + intros va' v Hva' Hv. rewrite Hmp in Hv by done. destruct (so_user _ _ Hs va' v Hva' Hv) as (A1 & A2 & A3).
      split; [by apply allocated_frames|]. split; [done|]. intros i Hi%Ht. by apply (A3 i).
  - intros va1 va2 w1 w2 H1 H2. rewrite !Hmp by done. by apply Hna.
  - intros va' Hva'. unfold user_byte. rewrite Hmp by done. destruct (mapping r pd va') as [e'|] eqn:He'; cbn [mbind option_bind].
    2:{ rewrite decide_False; [done|]. congruence. }
    destruct (decide (page_of e' = page_of e)) as [Ep|Ep].
    + pose proof (Hna va' va e' e Hva' Hva He' He Ep) as Hpg. rewrite Ep, Hf. unfold r'. cbn [frames set_frames]. rewrite lookup_insert_eq. cbn [mbind option_bind].
      rewrite Hbytes by (apply Z.mod_pos_bound; done). pose proof (Z.div_mod va' PGSIZE ltac:(done)). pose proof (Z.div_mod va PGSIZE ltac:(done)).
      do 2 case_decide; (done || congruence || lia).
    + rewrite decide_False by congruence. unfold r'. cbn [frames set_frames]. by rewrite lookup_insert_ne.
Qed.

Lemma store_bytes_user r pd va bs r' :
  space_ok r pd → no_alias r pd → 0 ≤ va → va + Z.of_nat (length bs) ≤ PHYS_BASE → Forall (in_u 8) bs →
  Syscall.store_bytes kernel_text r pd va bs = Some r' →
  space_ok r' pd ∧ (∀ va', user_addr va' → mapping r' pd va' = mapping r pd va') ∧
  (∀ va', user_addr va' → user_byte r' pd va' =
     if decide (va ≤ va' < va + Z.of_nat (length bs)) then bs !! Z.to_nat (va' - va) else user_byte r pd va').
Proof.
  revert r va. induction bs as [|b bs IH]; intros r va Hs Hna Hva Hend Hu; cbn [Syscall.store_bytes].
  { intros [= <-]. split; [done|]. split; [done|]. intros va' _. rewrite decide_False by (cbn; lia). done. }
  cbn [length] in *. apply Forall_cons in Hu as [Hb Hu]. assert (user_addr va) as Hua by (unfold user_addr; lia).
  destruct (store_byte kernel_text r pd va b) as [r1|] eqn:H1; [|done]. cbn [mbind option_bind].
  destruct (store_byte_run r pd va b r1 Hs Hna Hua H1) as (S1 & N1 & M1 & B1).
  destruct bs as [|c bs].
  { intros [= <-]. split; [done|]. split; [done|]. intros va' Hva'. rewrite B1 by done. rewrite (wrapu_id 8) by done. cbn [length].
    do 2 case_decide; (done || lia || idtac). subst. by rewrite Z.sub_diag. }
  rewrite (wrapu_id 32) by (unfold in_u, PHYS_BASE in *; cbn [length] in *; lia).
  intros H2. destruct (IH r1 (va + 1)) as (S2 & M2 & B2); [done|done|lia|lia|done|done|]. split; [done|].
  split; [intros va' Hva'; by rewrite M2, M1|]. intros va' Hva'. rewrite B2, B1 by done. rewrite (wrapu_id 8) by done.
  repeat case_decide; subst; (done || lia || idtac).
  - replace (Z.to_nat (va' - va)) with (S (Z.to_nat (va' - (va + 1)))) by lia. done.
  - by rewrite Z.sub_diag.
Qed.

(** Addresses of the kernel are the frames themselves. *)
Lemma load_byte_kernel r pd va : PHYS_BASE ≤ va → load_byte kernel_text r pd va = (f ← frames r !! pg_round_down va; Loader.page_bytes f !! Z.to_nat (va mod PGSIZE)).
Proof.
  intros Hva. unfold load_byte, mmu. rewrite decide_False by lia. cbn [mbind option_bind andb]. unfold frame_word.
  destruct (frames r !! pg_round_down va) as [f|]; [|done]. cbn [mbind option_bind].
  destruct (page_ofs va ltac:(unfold PHYS_BASE in *; lia)) as [-> Hj]. by rewrite page_bytes_lookup.
Qed.

Lemma store_byte_kernel r pd va b r' :
  PHYS_BASE ≤ va < 2 ^ 32 → store_byte kernel_text r pd va b = Some r' →
  ∀ va', PHYS_BASE ≤ va' < 2 ^ 32 → load_byte kernel_text r' pd va' = if decide (va' = va) then Some (u8 b) else load_byte kernel_text r pd va'.
Proof.
  intros Hva Hst va' Hva'. destruct (store_byte_frame r pd va b r' ltac:(unfold PHYS_BASE in *; lia) Hst) as (p & f & f' & Hm & Hf & -> & _ & Hb).
  unfold mmu in Hm. rewrite decide_False in Hm by lia. destruct (true && kernel_text va); [done|]. injection Hm as <-.
  rewrite !load_byte_kernel by lia. cbn [frames set_frames].
  rewrite !pg_round_down_div in * by (unfold in_u, PHYS_BASE in *; lia).
  pose proof (Z.div_mod va' PGSIZE ltac:(done)). pose proof (Z.div_mod va PGSIZE ltac:(done)).
  destruct (decide (va' / PGSIZE * PGSIZE = va / PGSIZE * PGSIZE)) as [Ep|Ep].
  - rewrite Ep, lookup_insert_eq, Hf. cbn [mbind option_bind]. rewrite Hb by (apply Z.mod_pos_bound; done). do 2 case_decide; (done || congruence || lia).
  - rewrite lookup_insert_ne, decide_False by congruence. done.
Qed.

Lemma store_bytes_kernel r pd va bs r' :
  PHYS_BASE ≤ va → va + Z.of_nat (length bs) ≤ 2 ^ 32 → Forall (in_u 8) bs →
  Syscall.store_bytes kernel_text r pd va bs = Some r' →
  ∀ va', PHYS_BASE ≤ va' < 2 ^ 32 → load_byte kernel_text r' pd va' =
    if decide (va ≤ va' < va + Z.of_nat (length bs)) then bs !! Z.to_nat (va' - va) else load_byte kernel_text r pd va'.
Proof.
  revert r va. induction bs as [|b bs IH]; intros r va Hva Hend Hu; cbn [Syscall.store_bytes].
  { intros [= <-] va' _. rewrite decide_False by (cbn; lia). done. }
  cbn [length] in *. apply Forall_cons in Hu as [Hb Hu].
  destruct (store_byte kernel_text r pd va b) as [r1|] eqn:H1; [|done]. cbn [mbind option_bind]. intros H2 va' Hva'.
  pose proof (store_byte_kernel r pd va b r1 ltac:(lia) H1 va' Hva') as B1. rewrite (wrapu_id 8) in B1 by done. destruct bs as [|c bs].
  { injection H2 as <-. rewrite B1. cbn [length]. do 2 case_decide; (done || lia || idtac). subst. by rewrite Z.sub_diag. }
  cbn [length] in *. rewrite (wrapu_id 32) in H2 by (unfold in_u, PHYS_BASE in *; lia).
  rewrite (IH r1 (va + 1) ltac:(lia) ltac:(lia) Hu H2 va' Hva'), B1. repeat case_decide; subst; (done || lia || idtac).
  all: first [by rewrite Z.sub_diag|by replace (Z.to_nat (va' - va)) with (S (Z.to_nat (va' - (va + 1)))) by lia].
Qed.

(** A range of user memory that can be read holds [bs]. *)
Lemma load_bytes_user r pd va bs :
  space_ok r pd → 0 ≤ va → va + Z.of_nat (length bs) ≤ PHYS_BASE →
  load_bytes kernel_text r pd va (Z.of_nat (length bs)) = Some bs ↔
  ∀ j, (j < length bs)%nat → user_byte r pd (va + Z.of_nat j) = bs !! j.
Proof.
  intros Hs Hva Hend. unfold load_bytes. rewrite mapM_Some, Forall2_same_length_lookup.
  rewrite length_seqZ. split.
  - intros [_ H] j Hj. destruct (lookup_lt_is_Some_2 bs j Hj) as [b Hb]. rewrite Hb, <- (load_byte_user r pd) by (done || unfold user_addr; lia).
    specialize (H j (Z.of_nat j) b). rewrite <- H; [|by apply lookup_seqZ; lia|done].
    rewrite wrapu_id; [done|]. unfold in_u, PHYS_BASE in *. lia.
  - intros H. split; [lia|]. intros j z b [-> Hz]%lookup_seqZ Hb. rewrite Z.add_0_l, wrapu_id by (unfold in_u, PHYS_BASE in *; lia).
    rewrite load_byte_user by (done || unfold user_addr; lia). rewrite H by (by eapply lookup_lt_Some). done.
Qed.

Lemma load_bytes_length r pd va n bs : 0 ≤ n → load_bytes kernel_text r pd va n = Some bs → Z.of_nat (length bs) = n.
Proof. intros Hn H. unfold load_bytes in H. apply length_mapM in H. rewrite length_seqZ in H. lia. Qed.

Lemma load_byte_range r pd va b : load_byte kernel_text r pd va = Some b → in_u 8 b.
Proof.
  unfold load_byte. destruct (mmu _ _ _ _ _); [|done]. cbn [mbind option_bind]. destruct (frame_word _ _ _) as [w|]; [|done]. cbn [mbind option_bind].
  intros H. by eapply Forall_lookup_1; [apply (le32_bytes w)|].
Qed.

Lemma load_bytes_range r pd va n bs : load_bytes kernel_text r pd va n = Some bs → Forall (in_u 8) bs.
Proof.
  unfold load_bytes. intros H%mapM_Some. induction H; [constructor|]. constructor; [by eapply load_byte_range|done].
Qed.
End Memory.

(** ** Files *)

Lemma sbd_files s s' : same_but_disk s s' → files s' = files s.
Proof.
  intros [n E]. rewrite E. destruct (same_disk (set_disk (disk s') s) (Nat.iter n bump (set_disk (disk s') s))) as (_ & _ & ->);
    [by exists n|done].
Qed.

Section Handlers.
Context (malloc_ok : nat → bool) (kernel_text : Z → bool) (key : nat → Z).
Hypothesis mallocs : ∀ n, malloc_ok n = true.

Lemma ybind_Some {A B} (m : Y A) (f : A → Y B) s a s' : m s = Ok (Some a, s') → (m ≫= f) s = f a s'.
Proof. unfold mbind, Y_bind. by intros ->. Qed.
Lemma on_fs_Some {A} (m : M fs A) s a x : m (y_fs s) = Ok (a, x) → Syscall.on_fs m s = Ok (Some a, set_fs x s).
Proof. unfold Syscall.on_fs. by intros ->. Qed.

(** [file_write] within the file. *)
Lemma file_write_run s f i p dw x bs :
  file_at s f i p dw x → deny_write_cnt x = 0 → p + Z.of_nat (length bs) ≤ length_ (data x) →
  ∃ s', file_write malloc_ok f bs (Z.of_nat (length bs)) s = Ok (Z.of_nat (length bs), s') ∧
    file_at s' f i (p + Z.of_nat (length bs)) dw x ∧ overwritten (disk s) (disk s') x p bs.
Proof.
  intros [F1 F2 F3 F4 F5] Hd Hl. pose proof (in_length _ _ F4) as Hlen.
  destruct (inode_write_at_run malloc_ok i x s bs (Z.of_nat (length bs)) p) as (n & s1 & R & _ & [H1 H2] & Hn); [done..|].
  specialize (Hn mallocs). unfold avail in Hn. assert (n = Z.of_nat (length bs)) as -> by lia.
  rewrite Nat2Z.id, take_ge in H2 by done. unfold file_write. rewrite (bind_Ok _ _ _ _ _ (get_file_run s f _ F1)). cbn [f_inode pos].
  rewrite (bind_Ok _ _ _ _ _ R), (bind_Ok _ _ _ _ _ (off_run (p + Z.of_nat (length bs)) s1 ltac:(unfold in_s; lia))).
  eexists. split; [reflexivity|]. split; [|exact H2]. constructor; cbn; [by rewrite lookup_insert_eq|by rewrite (sbd_inodes _ _ H1)|apply H2| |lia].
  by eapply overwritten_inode_wf.
Qed.

Lemma handler_write_run s fd d i p x ubuf bs :
  3 ≤ fd → find_desc fd (files_tab s) = Some d → file_at (y_fs s) (fd_file d) i p false x → deny_write_cnt x = 0 →
  p + Z.of_nat (length bs) ≤ length_ (data x) → load_bytes kernel_text (y_ram s) (y_pagedir s) ubuf (Z.of_nat (length bs)) = Some bs →
  ∃ x1, handler_write malloc_ok kernel_text fd ubuf (Z.of_nat (length bs)) s = Ok (Some (Z.of_nat (length bs)), set_fs x1 s) ∧
    file_at x1 (fd_file d) i (p + Z.of_nat (length bs)) false x ∧ overwritten (disk (y_fs s)) (disk x1) x p bs.
Proof.
  intros Hfd Hd Hf Hdn Hl Hld. pose proof (in_length _ _ (fa_wf _ _ _ _ _ _ Hf)) as Hlen. pose proof (fa_pos _ _ _ _ _ _ Hf) as Hp.
  unfold handler_write. rewrite !decide_False by lia.
  rewrite (ybind_Some _ _ _ (Some d) s) by (unfold lookup_desc, read_state; by rewrite Hd). unfold file_write_user.
  rewrite (wraps_id 32) by (done || unfold in_s; lia). assert (set_fs (y_fs s) s = s) as Es by by destruct s.
  rewrite (ybind_Some _ _ _ _ _ (on_fs_Some _ _ _ _ (get_file_run _ _ _ (fa_file _ _ _ _ _ _ Hf)))), Es. cbn [f_inode pos].
  rewrite (ybind_Some _ _ _ _ _ (on_fs_Some _ _ _ _ (get_inode_run _ _ _ (fa_inode _ _ _ _ _ _ Hf)))), Es. cbv zeta.
  rewrite decide_False by lia. rewrite Z.min_l by lia.
  rewrite (ybind_Some _ _ _ bs s) by (unfold load_user, or_fault; by rewrite Hld).
  destruct (file_write_run (y_fs s) (fd_file d) i p false x bs Hf Hdn Hl) as (x1 & R & F1 & O1). exists x1.
  split; [by apply on_fs_Some|done].
Qed.

Lemma handler_seek_run s fd d i p x p' :
  3 ≤ fd → find_desc fd (files_tab s) = Some d → file_at (y_fs s) (fd_file d) i p false x → 0 ≤ p' < 2 ^ 31 →
  ∃ x1, handler_seek fd p' s = Ok (Some 0, set_fs x1 s) ∧ file_at x1 (fd_file d) i p' false x ∧ disk x1 = disk (y_fs s).
Proof.
  intros Hfd Hd Hf Hp. unfold handler_seek. rewrite decide_False by lia.
  rewrite (ybind_Some _ _ _ (Some d) s) by (unfold lookup_desc, read_state; by rewrite Hd).
  rewrite (wraps_id 32) by (done || unfold in_s; lia).
  destruct (file_seek_run (y_fs s) (fd_file d) i p false x p' Hf Hp) as (x1 & R & F1 & D1). exists x1.
  rewrite (ybind_Some _ _ _ _ _ (on_fs_Some _ _ _ _ R)). done.
Qed.

Lemma handler_read_run s fd d i p x vbuf size bs r' :
  3 ≤ fd → find_desc fd (files_tab s) = Some d → file_at (y_fs s) (fd_file d) i p false x →
  0 ≤ size < 2 ^ 31 → Z.of_nat (length bs) = Z.min size (length_ (data x) - p) → bytes_from (disk (y_fs s)) x p bs →
  Syscall.store_bytes kernel_text (y_ram s) (y_pagedir s) vbuf bs = Some r' →
  ∃ x1, handler_read malloc_ok kernel_text key fd vbuf size s =
    Ok (Some (Z.of_nat (length bs)), set_fs x1 (set_ram r' s)).
Proof.
  intros Hfd Hd Hf Hsz Hl Hb Hst. pose proof (in_length _ _ (fa_wf _ _ _ _ _ _ Hf)) as Hlen. pose proof Hf as [F1 F2 F3 F4 F5].
  unfold handler_read. rewrite !decide_False by lia.
  rewrite (ybind_Some _ _ _ (Some d) s) by (unfold lookup_desc, read_state; by rewrite Hd). unfold file_read_user.
  rewrite (wraps_id 32) by (done || unfold in_s; lia). assert (set_fs (y_fs s) s = s) as Es by by destruct s.
  rewrite (ybind_Some _ _ _ _ _ (on_fs_Some _ _ _ _ (get_file_run _ _ _ F1))), Es. cbn [f_inode pos].
  destruct (inode_read_at_run malloc_ok i x (y_fs s) size p F2 F3 F4 F5) as (bs' & x1 & R & S1 & B1 & _ & L1).
  specialize (L1 mallocs). unfold avail in L1.
  assert (bs' = bs) as ->.
  { apply list_eq_same_length with (length bs); [done|lia|]. intros k a a' Hk Ha Ha'. rewrite B1 in Ha by lia. rewrite Hb in Ha' by lia. congruence. }
  rewrite (ybind_Some _ _ _ _ _ (on_fs_Some _ _ _ _ R)).
  rewrite (ybind_Some _ _ _ () (set_ram r' (set_fs x1 s))) by (unfold store_user; cbn; by rewrite Hst).
  rewrite (ybind_Some _ _ _ _ _ (on_fs_Some _ (set_ram r' (set_fs x1 s)) _ _ (off_run (p + Z.of_nat (length bs)) x1 ltac:(unfold in_s; lia)))).
  eexists. reflexivity.
Qed.
End Handlers.

(** C28: what a process writes from its memory to an open file is what it reads
    back: after [write], [seek] to the old position and [read] into another
    buffer, this buffer holds the bytes of the first one, through the page tables, the
    table of open files, the inode and the disk.  (The file is long enough,
    and memory for the buffers of the file system is not lacking.) *)
Theorem write_seek_read malloc_ok kernel_text key s fd d i p x ubuf vbuf bs r' :
  (∀ n, malloc_ok n = true) → space_ok (y_ram s) (y_pagedir s) → no_alias (y_ram s) (y_pagedir s) →
  3 ≤ fd → find_desc fd (files_tab s) = Some d → file_at (y_fs s) (fd_file d) i p false x → deny_write_cnt x = 0 →
  p + Z.of_nat (length bs) ≤ length_ (data x) →
  load_bytes kernel_text (y_ram s) (y_pagedir s) ubuf (Z.of_nat (length bs)) = Some bs →
  0 ≤ vbuf → vbuf + Z.of_nat (length bs) ≤ PHYS_BASE →
  Syscall.store_bytes kernel_text (y_ram s) (y_pagedir s) vbuf bs = Some r' →
  ∃ s1 s2 s3,
    handler_write malloc_ok kernel_text fd ubuf (Z.of_nat (length bs)) s = Ok (Some (Z.of_nat (length bs)), s1) ∧
    handler_seek fd p s1 = Ok (Some 0, s2) ∧
    handler_read malloc_ok kernel_text key fd vbuf (Z.of_nat (length bs)) s2 = Ok (Some (Z.of_nat (length bs)), s3) ∧
    load_bytes kernel_text (y_ram s3) (y_pagedir s3) vbuf (Z.of_nat (length bs)) = Some bs ∧ files_tab s3 = files_tab s.
Proof.
  intros Hm Hs Hna Hfd Hd Hf Hdn Hl Hld Hv0 Hv1 Hst. pose proof (fa_pos _ _ _ _ _ _ Hf) as Hp.
  destruct (handler_write_run malloc_ok kernel_text Hm s fd d i p x ubuf bs) as (x1 & R1 & F1 & O1); [done..|].
  destruct (handler_seek_run (set_fs x1 s) fd d i (p + Z.of_nat (length bs)) x p) as (x2 & R2 & F2 & D2); [done..|].
  destruct (handler_read_run malloc_ok kernel_text key Hm (set_fs x2 (set_fs x1 s)) fd d i p x vbuf (Z.of_nat (length bs)) bs r') as (x3 & R3);
    [done|done|done|pose proof (in_length _ _ (fa_wf _ _ _ _ _ _ Hf)); lia|lia| |done|].
  { cbn. rewrite D2. intros k Hk. cbn. rewrite (ow_bytes _ _ _ _ _ O1) by lia. rewrite decide_True by lia. f_equal. lia. }
  eexists _, _, _. split; [exact R1|]. split; [exact R2|]. split; [exact R3|]. split; [|done]. cbn.
  destruct (store_bytes_user kernel_text (y_ram s) (y_pagedir s) vbuf bs r') as (S3 & _ & B3); [done..|by eapply load_bytes_range|done|].
  apply load_bytes_user; [done..|]. intros j Hj. rewrite B3 by (unfold user_addr; lia). rewrite decide_True by lia. f_equal. lia.
Qed.

(** The process above, which has opened the file "p". *)
Lemma demo_mapped_space : space_ok demo_mapped demo_pd ∧ no_alias demo_mapped demo_pd.
Proof.
  destruct demo_created_wf as (Hwf & Hpd & Hal & Hnone). destruct demo_pages as (Hu & Ho & Hk & Hr).
  destruct (set_page_run demo_created demo_pd demo_upage demo_kpage true Hwf Hpd Hu Ho Hk Hr (Hnone _ Hu))
    as [(r & H1 & H2 & H3 & Hg & H5)|[_ H]]; [|vm_compute in H; discriminate].
  assert (demo_mapped = r) as E by (unfold demo_mapped; exact (state_after_Ok _ _ _ _ H1)). rewrite <- E in H2, H3, Hg, H5.
  assert (∀ va w, user_addr va → mapping demo_mapped demo_pd va = Some w → w = entry demo_kpage 7 ∧ va / PGSIZE = demo_upage / PGSIZE) as Hmap.
  { intros va w Hva Hw. rewrite H5 in Hw by exact Hva. case_decide as Hd; [injection Hw as <-; split; [reflexivity|exact Hd]|].
    rewrite Hnone in Hw by exact Hva. discriminate. }
  split.
  - constructor; [exact H2|exact H3| |].
    + intros q [g Hq]. assert (map_Forall (λ q _, (q - PHYS_BASE) / PGSIZE < init_ram_pages demo_mapped) (frames demo_mapped)) as Hall
        by (apply (bool_decide_unpack _); vm_compute; exact I).
      exact (Hall q g Hq).
    + intros va w Hva Hw. destruct (Hmap va w Hva Hw) as [-> _]. rewrite page_of_entry by (exact Hk || done).
      split; [apply (gr_alloc _ _ _ Hg), Hal; left; apply demo_got_wf; right; reflexivity|]. split; [discriminate|].
      intros i Hi. destruct Hi as (e & Hi & He & He0 & Epg).
      assert (Forall (λ i, match word demo_mapped demo_pd i with Some e => bool_decide (e = 0 ∨ page_of e ≠ demo_kpage) | None => false end = true) (seqZ 0 768)) as Hall
        by (apply (bool_decide_unpack _); vm_compute; exact I).
      rewrite Forall_forall in Hall. specialize (Hall i). rewrite He in Hall. rewrite bool_decide_eq_true in Hall.
      destruct Hall as [?|?]; [apply elem_of_seqZ; lia|contradiction|contradiction].
  - intros va va' w w' Hva Hva' Hw Hw' _. destruct (Hmap va w Hva Hw) as [_ ->]. destruct (Hmap va' w' Hva' Hw') as [_ ->]. reflexivity.
Qed.

Lemma demo_stored r va bs :
  space_ok r demo_pd → no_alias r demo_pd → 0 ≤ va → va + Z.of_nat (length bs) ≤ PHYS_BASE → Forall (in_u 8) bs →
  space_ok (default r (Syscall.store_bytes (λ _, false) r demo_pd va bs)) demo_pd ∧
  no_alias (default r (Syscall.store_bytes (λ _, false) r demo_pd va bs)) demo_pd.
Proof.
  intros Hs Hn H0 H1 Hb. destruct (Syscall.store_bytes (λ _, false) r demo_pd va bs) as [r'|] eqn:E; [|done]. cbn [default from_option id].
  destruct (store_bytes_user (λ _, false) r demo_pd va bs r' Hs Hn H0 H1 Hb E) as (S & M & _). split; [exact S|].
  intros va1 va2 w1 w2 A B. rewrite !M by assumption. by apply Hn.
Qed.

Lemma demo_with_file_space : space_ok (y_ram demo_with_file) demo_pd ∧ no_alias (y_ram demo_with_file) demo_pd.
Proof.
  assert (y_ram demo_with_file = y_ram demo_opening) as -> by (vm_compute; reflexivity).
  destruct demo_mapped_space as [S0 N0].
  destruct (demo_stored demo_mapped demo_upage (concat (le32 <$> [SYS_OPEN; demo_upage + 64]))) as [S1 N1];
    [exact S0|exact N0|discriminate|discriminate|apply (bool_decide_unpack _); vm_compute; exact I|].
  apply (demo_stored _ (demo_upage + 64) [112; 0] S1 N1); [discriminate|discriminate|apply (bool_decide_unpack _); vm_compute; exact I].
Qed.

Lemma demo_with_file_at : file_at (y_fs demo_with_file) 5 4 0 false demo_elf_inode.
Proof.
  assert (disk (y_fs demo_with_file) = demo_disk) as E by (vm_compute; reflexivity).
  destruct demo_opened as (_ & [_ _ D1 D2 _] & D3 & _). rewrite D3 in D1, D2.
  constructor; rewrite ?E; [vm_compute; reflexivity|vm_compute; reflexivity|exact D1|exact D2|lia].
Qed.

(** It writes two bytes to the start of the file and reads them back. *)
Lemma write_seek_read_witness :
  ∃ s1 s2 s3,
    handler_write (λ _, true) (λ _, false) 3 (demo_upage + 64) 2 demo_with_file = Ok (Some 2, s1) ∧
    handler_seek 3 0 s1 = Ok (Some 0, s2) ∧
    handler_read (λ _, true) (λ _, false) (λ _, 65) 3 (demo_upage + 200) 2 s2 = Ok (Some 2, s3) ∧
    load_bytes (λ _, false) (y_ram s3) (y_pagedir s3) (demo_upage + 200) 2 = Some [112; 0] ∧ files_tab s3 = files_tab demo_with_file.
Proof.
  destruct demo_with_file_space as [Hs Hn].
  assert (∃ r', Syscall.store_bytes (λ _, false) (y_ram demo_with_file) demo_pd (demo_upage + 200) [112; 0] = Some r') as [r' Hr].
  { assert (match Syscall.store_bytes (λ _, false) (y_ram demo_with_file) demo_pd (demo_upage + 200) [112; 0] with Some _ => true | None => false end = true) as E
      by (vm_compute; reflexivity). destruct (Syscall.store_bytes _ _ _ _ _) as [r'|]; [exists r'; reflexivity|discriminate]. }
  apply (write_seek_read (λ _, true) (λ _, false) (λ _, 65) demo_with_file 3 (FileDesc 3 5) 4 0 demo_elf_inode (demo_upage + 64) (demo_upage + 200) [112; 0] r').
  - reflexivity.
  - exact Hs.
  - exact Hn.
  - lia.
  - vm_compute. reflexivity.
  - exact demo_with_file_at.
  - reflexivity.
  - vm_compute. discriminate.
  - vm_compute. reflexivity.
  - vm_compute. discriminate.
  - vm_compute. discriminate.
  - exact Hr.
Defined.

(** ** Arguments that should have been refused *)

(** C40: [check_buffer] adds the size to the address in 32 bits and compares the
    sum: with the size [2^32 - buffer] it lets every kernel address
    through.  So a process with an open file can have [read] overwrite the memory of the
    kernel: the rest of the file is stored from [buffer] on, wherever the
    kernel may write. *)
Theorem read_overwrites_kernel malloc_ok kernel_text key s fd d i p x buffer bs r' :
  (∀ n, malloc_ok n = true) → 3 ≤ fd → find_desc fd (files_tab s) = Some d → file_at (y_fs s) (fd_file d) i p false x →
  PHYS_BASE ≤ buffer < 2 ^ 32 → Z.of_nat (length bs) = length_ (data x) - p → Z.of_nat (length bs) ≤ 2 ^ 32 - buffer →
  bytes_from (disk (y_fs s)) x p bs → Forall (in_u 8) bs →
  Syscall.store_bytes kernel_text (y_ram s) (y_pagedir s) buffer bs = Some r' →
  check_buffer buffer (2 ^ 32 - buffer) = true ∧
  ∃ s', handler_read malloc_ok kernel_text key fd buffer (2 ^ 32 - buffer) s = Ok (Some (Z.of_nat (length bs)), s') ∧
    ∀ j, (j < length bs)%nat → load_byte kernel_text (y_ram s') (y_pagedir s') (buffer + Z.of_nat j) = bs !! j.
Proof.
  intros Hm Hfd Hd Hf Hbuf Hl Hlen Hb Hu Hst. split.
  - unfold check_buffer. replace (buffer + (2 ^ 32 - buffer)) with (2 ^ 32) by lia. done.
  - destruct (handler_read_run malloc_ok kernel_text key Hm s fd d i p x buffer (2 ^ 32 - buffer) bs r') as (x1 & R);
      [done|done|done|unfold PHYS_BASE in *; lia|lia|done|done|].
    eexists. split; [exact R|]. intros j Hj. cbn.
    rewrite (store_bytes_kernel kernel_text (y_ram s) (y_pagedir s) buffer bs r') by (done || lia). rewrite decide_True by lia. f_equal. lia.
Qed.

(** The page of the kernel that holds the bitmap of its pool, and the file
    "p". *)
Definition demo_kernel_page : Z := PHYS_BASE + 256 * PGSIZE.

Lemma read_overwrites_kernel_witness :
  load_byte (λ _, false) (y_ram demo_with_file) demo_pd demo_kernel_page = Some 255 ∧
  ∃ s', handler_read (λ _, true) (λ _, false) (λ _, 65) 3 demo_kernel_page (2 ^ 32 - demo_kernel_page) demo_with_file = Ok (Some 100, s') ∧
    load_byte (λ _, false) (y_ram s') (y_pagedir s') demo_kernel_page = Some 127.
Proof.
  split; [vm_compute; reflexivity|].
  assert (∃ r', Syscall.store_bytes (λ _, false) (y_ram demo_with_file) demo_pd demo_kernel_page demo_elf = Some r') as [r' Hr].
  { assert (match Syscall.store_bytes (λ _, false) (y_ram demo_with_file) demo_pd demo_kernel_page demo_elf with Some _ => true | None => false end = true) as E
      by (vm_compute; reflexivity). destruct (Syscall.store_bytes _ _ _ _ _) as [r'|]; [exists r'; reflexivity|discriminate]. }
  destruct (read_overwrites_kernel (λ _, true) (λ _, false) (λ _, 65) demo_with_file 3 (FileDesc 3 5) 4 0 demo_elf_inode demo_kernel_page demo_elf r')
    as (_ & s' & H1 & H2).
  - reflexivity.
  - lia.
  - vm_compute. reflexivity.
  - exact demo_with_file_at.
  - split; vm_compute; [discriminate|reflexivity].
  - vm_compute. reflexivity.
  - vm_compute. discriminate.
  - assert (disk (y_fs demo_with_file) = demo_disk) as E by (vm_compute; reflexivity). rewrite E.
    assert (Forall (λ k, demo_elf !! k = byte demo_disk demo_elf_inode (0 + Z.of_nat k)) (seq 0 100)) as Hall by (apply (bool_decide_unpack _); vm_compute; exact I).
    intros k Hk. rewrite Forall_forall in Hall. apply Hall, elem_of_seq. split; [lia|]. exact Hk.
  - apply (bool_decide_unpack _). vm_compute. exact I.
  - exact Hr.
  - exists s'. split; [exact H1|]. specialize (H2 0%nat). rewrite Z.add_0_r in H2. rewrite H2; [reflexivity|]. vm_compute. lia.
Defined.

(** Offsets and sizes of files are signed, the arguments of system calls are
    not checked for their sign: [seek] to [2^31] or beyond on any open file, and [create]
    with such a size (once a sector for the inode is found), fail an
    assertion: a process can stop the kernel. *)
Theorem large_offset_panics malloc_ok blank kernel_text s fd d p a1 n dir x1 sector x2 :
  3 ≤ fd → find_desc fd (files_tab s) = Some d → 2 ^ 31 ≤ p < 2 ^ 32 →
  user_string kernel_text a1 s = Ok (Some n, s) → Directory.dir_open_root malloc_ok (y_fs s) = Ok (dir, x1) → dir ≠ NULL →
  free_map_allocate malloc_ok 1 x1 = Ok (Some sector, x2) →
  handler_seek fd p s = Err Panic ∧ handler_create malloc_ok blank kernel_text a1 p s = Err Panic.
Proof.
  intros Hfd Hd Hp Hn Hdir Hnull Hal. assert (bool_decide (0 ≤ i32 p) = false) as Hneg.
  { apply bool_decide_false. unfold wraps. Z.to_euclidean_division_equations. lia. }
  split.
  - unfold handler_seek. rewrite decide_False by lia. rewrite (ybind_Some _ _ _ (Some d) s) by (unfold lookup_desc, read_state; by rewrite Hd).
    unfold mbind, Y_bind, Syscall.on_fs, file_seek. rewrite Hneg. reflexivity.
  - unfold handler_create. rewrite (ybind_Some _ _ _ n s) by done. unfold mbind, Y_bind, Syscall.on_fs, Directory.filesys_create.
    rewrite (bind_Ok _ _ _ _ _ Hdir). rewrite decide_True by done. rewrite (bind_Ok _ _ _ _ _ Hal).
    unfold inode_create at 1. rewrite Hneg. reflexivity.
Qed.

Lemma large_offset_panics_witness :
  handler_seek 3 (2 ^ 31) demo_with_file = Err Panic ∧
  handler_create (λ _, true) (replicate 20 9) (λ _, false) (demo_upage + 64) (2 ^ 31) demo_with_file = Err Panic.
Proof.
  pose (opened := match Directory.dir_open_root (λ _, true) (y_fs demo_with_file) with Ok r => r | Err _ => (0, y_fs demo_with_file) end).
  pose (taken := match free_map_allocate (λ _, true) 1 opened.2 with Ok r => r | Err _ => (None, y_fs demo_with_file) end).
  apply (large_offset_panics (λ _, true) (replicate 20 9) (λ _, false) demo_with_file 3 (FileDesc 3 5) (2 ^ 31) (demo_upage + 64) [112]
           opened.1 opened.2 5 taken.2).
  - lia.
  - vm_compute. reflexivity.
  - lia.
  - vm_compute. reflexivity.
  - vm_compute. reflexivity.
  - vm_compute. discriminate.
  - vm_compute. reflexivity.
Defined.
End SyscallMem.
