(* ===== verification/SyscallTab.v ===== *)
(** * System calls leave the memory of the kernel alone

    The table of open files is a list in the memory of the kernel, which the
    model of the system calls keeps apart from the pages of memory.  That is
    right as long as no system call writes to the kernel's pages: the handlers
    write to memory only in [read], through the page tables of the process, and
    if the buffer is in user memory only pages that the process has mapped
    change.  (With another buffer [read] can overwrite the kernel, see
    [SyscallMem].) *)

From S2P Require Import Prelude Bitmap Palloc PallocSpec Pagedir PagedirSpec Inode InodeSpec Directory Loader LoaderSpec Syscall SyscallSpec SyscallMem.
Import Palloc PallocSpec Pagedir PagedirSpec Inode InodeSpec Directory LoaderSpec Syscall SyscallSpec SyscallMem.

Module SyscallTab.

(** ** Memory that the process has not mapped *)

Definition user_page (r : ram) (pd p : Z) : Prop := ∃ va w, user_addr va ∧ mapping r pd va = Some w ∧ page_of w = p.

(** ** Calls that do not write to memory *)

Definition still {A} (m : Y A) : Prop := ∀ s o s', m s = Ok (o, s') → y_ram s' = y_ram s ∧ y_pagedir s' = y_pagedir s.
Lemma still_bind {A B} (m : Y A) (f : A → Y B) : still m → (∀ a, still (f a)) → still (m ≫= f).
Proof.
  intros Hm Hf s o s'. unfold mbind, Y_bind. destruct (m s) as [[[a|] s1]|] eqn:E; [|intros [= <- <-]; by apply (Hm s None)|done].
  intros H. destruct (Hm _ _ _ E), (Hf _ _ _ _ H). split; congruence.
Qed.
Lemma still_ret {A} (a : A) : still (mret a). Proof. by intros s o s' [= <- <-]. Qed.
Lemma still_fault {A} (f : sys → option A) : still (or_fault f). Proof. by intros s o s' [= <- <-]. Qed.
Lemma still_state {A} (f : sys → A) : still (read_state f). Proof. by intros s o s' [= <- <-]. Qed.
Lemma still_page_fault {A} : still (@page_fault A). Proof. by intros s o s' [= <- <-]. Qed.
Lemma still_fs {A} (m : M fs A) : still (on_fs m).
Proof. intros s o s'. unfold on_fs. destruct (m (y_fs s)) as [[a x]|]; [|done]. by intros [= <- <-]. Qed.
Lemma still_change f : (∀ s, y_ram (f s) = y_ram s ∧ y_pagedir (f s) = y_pagedir s) → still (change f).
Proof. intros Hf s o s' [= <- <-]. apply Hf. Qed.

Ltac still_step := match goal with
  | |- still (mbind _ _) => apply still_bind; [|intros ?]
  | |- still (mret _) => apply still_ret
  | |- still (or_fault _) => apply still_fault
  | |- still (read_state _) => apply still_state
  | |- still page_fault => apply still_page_fault
  | |- still (on_fs _) => apply still_fs
  | |- still (change _) => apply still_change; done
  | |- still (if decide _ then _ else _) => case_decide
  | |- still (if ?b then _ else _) => lazymatch type of b with bool => destruct b end
  | |- still (match ?x with _ => _ end) => destruct x
  | |- still (λ _, Err _) => by intros ? ? ?
  end.
Ltac still := repeat still_step.

(** ** Confined writes *)

Section Calls.
Context (malloc_ok : nat → bool) (blank : list Z) (kernel_text : Z → bool) (key : nat → Z) (s0 : sys).

(** Only pages that the process had mapped in [s0] are different. *)
Record confined (s : sys) : Prop := {
  cf_pd : y_pagedir s = y_pagedir s0;
  cf_space : space_ok (y_ram s) (y_pagedir s0);
  cf_alias : no_alias (y_ram s) (y_pagedir s0);
  cf_map va : user_addr va → mapping (y_ram s) (y_pagedir s0) va = mapping (y_ram s0) (y_pagedir s0) va;
  cf_rest p : ¬ user_page (y_ram s0) (y_pagedir s0) p → frames (y_ram s) !! p = frames (y_ram s0) !! p;
}.

Lemma confined_byte s va b r' :
  confined s → user_addr va → store_byte kernel_text (y_ram s) (y_pagedir s) va b = Some r' → confined (set_ram r' s).
Proof.
  intros [C1 C2 C3 C4 C5] Hva. rewrite C1. intros Hst. destruct (store_byte_run _ _ _ _ _ _ C2 C3 Hva Hst) as (S & N & Mp & _).
  constructor; cbn; [done|done|done|intros va' Hva'; by rewrite Mp, C4|].
  intros p Hp. destruct (store_byte_frame _ _ _ _ _ _ (proj1 Hva) Hst) as (q & f & f' & Hm & _ & -> & _). cbn.
  rewrite lookup_insert_ne; [by apply C5|]. intros ->. apply Hp. apply mmu_write in Hm. rewrite mmu_user, C4 in Hm by done.
  destruct (mapping (y_ram s0) (y_pagedir s0) va) as [w|] eqn:Hw; [|done]. injection Hm as <-. by exists va, w.
Qed.
Lemma confined_bytes bs s va r' : confined s → 0 ≤ va → va + Z.of_nat (length bs) ≤ PHYS_BASE →
  Syscall.store_bytes kernel_text (y_ram s) (y_pagedir s) va bs = Some r' → confined (set_ram r' s).
Proof.
  revert s va. induction bs as [|b bs IH]; intros s va Hc Hva Hend; cbn [Syscall.store_bytes]; [intros [= <-]; by destruct s|].
  cbn [length] in Hend. destruct (store_byte _ _ _ _ _) as [r1|] eqn:H1; [|done]. cbn [mbind option_bind]. intros H2.
  pose proof (confined_byte s va b r1 Hc ltac:(unfold user_addr; lia) H1) as Hc1. rewrite wrapu_id in H2 by (unfold in_u, PHYS_BASE in *; lia).
  apply (IH (set_ram r1 s) (va + 1)); [done|lia|lia|done].
Qed.

Lemma still_strlen a : still (user_strlen kernel_text a). Proof. unfold user_strlen. still. Qed.
Lemma still_load va n : still (load_user kernel_text va n). Proof. unfold load_user. still. Qed.
Lemma still_string a : still (user_string kernel_text a). Proof. unfold user_string. still; [apply still_strlen|apply still_load]. Qed.
Lemma still_arg esp i : still (arg kernel_text esp i). Proof. unfold arg. still. apply still_load. Qed.
Lemma still_name a : still (check_name kernel_text a). Proof. unfold check_name. still. apply still_strlen. Qed.
Lemma still_create a1 a2 : still (handler_create malloc_ok blank kernel_text a1 a2). Proof. unfold handler_create. still. apply still_string. Qed.
Lemma still_remove a1 : still (handler_remove malloc_ok kernel_text a1). Proof. unfold handler_remove. still. apply still_string. Qed.
Lemma still_open a1 : still (handler_open malloc_ok kernel_text a1). Proof. unfold handler_open. still. apply still_string. Qed.
Lemma still_write fd b n : still (handler_write malloc_ok kernel_text fd b n).
Proof. unfold handler_write, lookup_desc, file_write_user. still; apply still_load. Qed.

Lemma still_confined {A} (m : Y A) s o s' : still m → m s = Ok (o, s') → confined s → confined s'.
Proof. intros Hm H [C1 C2 C3 C4 C5]. destruct (Hm _ _ _ H) as [E1 E2]. constructor; rewrite ?E1, ?E2; done. Qed.

(** ** Reading *)

(** Not more bytes than asked for. *)
Lemma block_read_length n s b s' : disk_wf (disk s) → Inode.block_read n s = Ok (b, s') → length b = 512%nat ∧ s' = s.
Proof.
  intros Hd (u & s1 & H1 & (x & s2 & [= <- <-] & H2)%bind_Ok_inv)%bind_Ok_inv. unfold check_sector in H1. apply bind_Ok_inv in H1 as (y & s3 & [= <- <-] & H1).
  case_decide; [done|]. injection H1 as _ <-. destruct (disk s !! Z.to_nat n) as [c|] eqn:E; [|done]. injection H2 as <- <-.
  split; [|done]. apply (Forall_lookup_1 _ _ _ _ (dk_sectors _ Hd) E).
Qed.
Lemma off_inv z s r s' : off z s = Ok (r, s') → r = z ∧ s' = s.
Proof. unfold off. case_decide; [|done]. by intros [= <- <-]. Qed.
Lemma read_loop_length fuel : ∀ x size o b acc s bs s', disk_wf (disk s) → Inode.read_loop malloc_ok fuel x size o b acc s = Ok (bs, s') →
  Z.of_nat (length bs) ≤ Z.of_nat (length acc) + Z.max 0 size.
Proof.
  induction fuel as [|fuel IH]; intros x size o b acc s bs s' Hd H; [done|]. cbn [Inode.read_loop] in H. case_decide as Hsz; [|injection H as <- <-; lia].
  apply bind_Ok_inv in H as (c & s1 & (l & s2 & [-> ->]%off_inv & [= <- <-])%bind_Ok_inv & H). set (cs := if decide _ then size else _) in *.
  assert (cs ≤ size ∧ cs ≤ 512 - Z.rem o 512) as [Hc1 Hc2] by (unfold cs, BLOCK_SECTOR_SIZE; repeat case_decide; lia).
  case_decide; [injection H as <- <-; lia|]. case_decide as Hfull.
  - destruct Hfull as [_ Hfull]. apply bind_Ok_inv in H as (buf & s3 & [Hl ->]%block_read_length & H); [|done]. apply bind_Ok_inv in H as (o' & s4 & [-> ->]%off_inv & H).
    apply IH in H; [|done]. rewrite length_app in H. unfold BLOCK_SECTOR_SIZE in Hfull. lia.
  - apply bind_Ok_inv in H as (b' & s3 & H3 & H). assert (disk s3 = disk s) as E3.
    { unfold need_bounce, alloc, get, put, mbind, M_bind, mret, M_ret in H3. destruct b; injection H3 as _ <-; done. }
    destruct b'; [|injection H as <- <-; lia]. apply bind_Ok_inv in H as (buf & s4 & [Hl ->]%block_read_length & H); [|by rewrite E3].
    apply bind_Ok_inv in H as (o' & s5 & [-> ->]%off_inv & H). apply IH in H; [|by rewrite E3]. rewrite length_app, length_take in H. lia.
Qed.

Lemma confined_keys n : ∀ b s o s', confined s → 0 ≤ b → b + Z.of_nat n ≤ PHYS_BASE → read_keys kernel_text key n b s = Ok (o, s') → confined s'.
Proof.
  induction n as [|n IH]; intros b s o s' Hc Hb Hend; cbn [read_keys]; [by intros [= <- <-]|]. unfold mbind, Y_bind, read_state, change, store_user.
  set (s1 := set_console _ _ s). assert (confined s1) as Hc1 by (destruct Hc; by constructor).
  destruct (Syscall.store_bytes _ _ _ _ _) as [r1|] eqn:E; [|by intros [= <- <-]]. pose proof (confined_bytes [key (keys_read s)] s1 b r1 Hc1 Hb ltac:(unfold PHYS_BASE in *; cbn; lia) E) as Hc2.
  rewrite wrapu_id by (unfold in_u, PHYS_BASE in *; lia). apply IH; [done|lia|lia].
Qed.
Lemma confined_file_read f b n s o s' : confined s → disk_wf (disk (y_fs s)) → 0 ≤ b → b + Z.max 0 n ≤ PHYS_BASE →
  file_read_user malloc_ok kernel_text f b n s = Ok (o, s') → confined s'.
Proof.
  intros Hc Hd Hb Hend. unfold file_read_user, mbind, Y_bind. destruct (on_fs (get_file f) s) as [[[x|] s1]|] eqn:E1; [|intros [= <- <-]; by eapply (still_confined _ _ _ _ (still_fs _) E1)|done].
  pose proof (still_confined _ _ _ _ (still_fs _) E1 Hc) as Hc1. assert (y_fs s1 = y_fs s) as Ef.
  { unfold on_fs in E1. destruct (get_file f (y_fs s)) as [[y fs1]|] eqn:E; [|done]. apply get_file_inv in E as [_ ->]. by injection E1 as _ <-. }
  destruct (on_fs (inode_read_at _ _ _ _) s1) as [[[bs|] s2]|] eqn:E2; [|intros [= <- <-]; by eapply (still_confined _ _ _ _ (still_fs _) E2)|done].
  pose proof (still_confined _ _ _ _ (still_fs _) E2 Hc1) as Hc2. assert (Z.of_nat (length bs) ≤ Z.max 0 n) as Hl.
  { unfold on_fs in E2. destruct (inode_read_at _ _ _ _ (y_fs s1)) as [[y fs1]|] eqn:E; [|done]. injection E2 as <- _. unfold inode_read_at in E.
    apply bind_Ok_inv in E as (i & fs2 & (z & fs3 & [= <- <-] & E4)%bind_Ok_inv & E). unfold lift in E4. destruct (inodes (y_fs s1) !! _); [|done]. injection E4 as <- <-.
    apply read_loop_length in E; [cbn in E; lia|by rewrite Ef]. }
  unfold store_user at 1. destruct (Syscall.store_bytes _ _ _ _ _) as [r1|] eqn:E; [|by intros [= <- <-]]. pose proof (confined_bytes bs s2 b r1 Hc2 Hb ltac:(lia) E) as Hc3.
  revert Hc3. generalize (set_ram r1 s2) as s3. intros s3 Hc3 H. 
  refine (still_confined (p ← on_fs (off (pos x + Z.of_nat (length bs))); on_fs (put_file f (File (f_inode x) p (deny_write x)));; mret (Z.of_nat (length bs))) s3 o s' _ H Hc3).
  apply still_bind; [apply still_fs|intros p]. apply still_bind; [apply still_fs|intros ?; apply still_ret].
Qed.
Lemma confined_read fd b n s o s' : confined s → disk_wf (disk (y_fs s)) → 0 ≤ b → 0 ≤ n → b + n ≤ PHYS_BASE →
  handler_read malloc_ok kernel_text key fd b n s = Ok (o, s') → confined s'.
Proof.
  intros Hc Hd Hb Hn Hend. unfold handler_read. case_decide.
  - unfold mbind, Y_bind. destruct (read_keys _ _ _ _ s) as [[[[]|] s1]|] eqn:E; [intros [= <- <-]|intros [= <- <-]|done]; (eapply confined_keys; [exact Hc|exact Hb| |exact E]; lia).
  - case_decide; [by intros [= <- <-]|]. unfold mbind, Y_bind, lookup_desc, read_state. destruct (find_desc fd (files_tab s)) as [d|]; [|by intros [= <- <-]].
    apply confined_file_read; [done|done|done|]. assert (i32 n ≤ n) by (unfold wraps, PHYS_BASE in *; Z.to_euclidean_division_equations; lia). lia.
Qed.

(** ** The theorem *)

Lemma arg_same esp i s o s' : arg kernel_text esp i s = Ok (o, s') → s' = s.
Proof.
  unfold arg, load_user, or_fault, mbind, Y_bind. destruct (load_bytes _ _ _ _ _); by intros [= <- <-].
Qed.
End Calls.

(** If the call is [read], the buffer is in user memory. *)
Definition reads_user (kernel_text : Z → bool) (esp : Z) (s : sys) : Prop :=
  ∀ a2 a3, arg kernel_text esp 0 s = Ok (Some SYS_READ, s) → arg kernel_text esp 2 s = Ok (Some a2, s) → arg kernel_text esp 3 s = Ok (Some a3, s) →
    0 ≤ a2 ∧ 0 ≤ a3 ∧ a2 + a3 ≤ PHYS_BASE.

Section Handler.
Context (malloc_ok : nat → bool) (blank : list Z) (kernel_text : Z → bool) (key : nat → Z) (s0 : sys).

Lemma still_eax h : still h → still (eax_of h).
Proof. intros Hh. unfold eax_of. apply still_bind; [done|intros ?; apply still_ret]. Qed.
Lemma handler_confined esp o s' : confined s0 s0 → disk_wf (disk (y_fs s0)) → reads_user kernel_text esp s0 →
  syscall_handler malloc_ok blank kernel_text key esp s0 = Ok (o, s') → confined s0 s'.
Proof.
  intros Hc Hd Hr. unfold syscall_handler. cbv zeta. intros H. unfold mbind at 1, Y_bind at 1 in H. destruct (arg kernel_text esp 0 s0) as [[[number|] s1]|] eqn:E0; [|by injection H as <- <-; apply arg_same in E0; subst|done].
  assert (s1 = s0) as -> by (by eapply arg_same).
  destruct (decide (number = SYS_READ)) as [->|Hn].
  - cbv beta in H. do 8 (rewrite decide_False in H by done). unfold when_beneath at 1 in H. destruct (check_boundary _); [|by injection H as <- <-].
    unfold mbind at 1, Y_bind at 1 in H. destruct (arg kernel_text esp 2 s0) as [[[a2|] s1]|] eqn:E2; [|by injection H as <- <-; apply arg_same in E2; subst|done].
    assert (s1 = s0) as -> by (by eapply arg_same). destruct (check_not_null a2); [|by injection H as <- <-].
    unfold mbind at 1, Y_bind at 1 in H. destruct (arg kernel_text esp 3 s0) as [[[a3|] s1]|] eqn:E3; [|by injection H as <- <-; apply arg_same in E3; subst|done].
    assert (s1 = s0) as -> by (by eapply arg_same). unfold when_beneath in H. destruct (check_buffer a2 a3); [|by injection H as <- <-].
    unfold mbind at 1, Y_bind at 1 in H. destruct (arg kernel_text esp 1 s0) as [[[a1|] s1]|] eqn:E1; [|by injection H as <- <-; apply arg_same in E1; subst|done].
    assert (s1 = s0) as -> by (by eapply arg_same). unfold if_fd, check_fd, read_state, mbind, Y_bind in H. destruct (bool_decide _); [|by injection H as <- <-].
    unfold eax_of, mbind, Y_bind in H. destruct (Hr a2 a3 E0 E2 E3) as (H2 & H3 & H23).
    destruct (handler_read malloc_ok kernel_text key a1 a2 a3 s0) as [[[v|] s1]|] eqn:E; [|injection H as <- <-|done]; [injection H as <- <-|]; exact (confined_read malloc_ok kernel_text key s0 a1 a2 a3 s0 _ _ Hc Hd H2 H3 H23 E).
  - revert H. match goal with |- ?m s0 = _ → _ => enough (still m) as Hs by (intros H; by eapply still_confined) end.
    unfold when_beneath, if_fd, check_fd, handler_practice, handler_filesize, handler_seek, handler_tell, handler_close, lookup_desc. repeat first [apply still_arg|apply still_name|apply still_eax|apply still_create|apply still_remove|apply still_open|apply still_write|still_step].
Qed.
End Handler.


Lemma tab_ok_ram r s : tab_ok s → tab_ok (set_ram r s).
Proof. intros []. by constructor. Qed.

(** The process reads two bytes of its file. *)
Definition demo_reading : sys :=
  set_ram (default (y_ram demo_with_file) (Syscall.store_bytes (λ _, false) (y_ram demo_with_file) demo_pd demo_upage (concat (le32 <$> [SYS_READ; 3; demo_upage + 200; 2])))) demo_with_file.
Definition demo_read : sys := match demo_call demo_reading with Ok (_, s) => s | Err _ => demo_reading end.

End SyscallTab.
