(* ===== verification/Process.v ===== *)
(** * Parents and children (userprog/process_create.c, process_exit.c, syscall.c)

    How a process starts another, waits for it and ends: the entry
    [struct child_process] that parent and child share, its reference count
    [exited], the semaphores [waiting] (part of the entry) and [editing] (a
    block of its own).  Each process has one thread; the locks on tables that
    only threads of one process share are left out.  A semaphore is its value:
    a thread that sleeps in [sema_down] can go on once the value is positive.

    A thread is cut at the calls of [sema_down], and where it can be preempted
    while it still has to touch the semaphore; a [frame] says what it has left
    to do.  Memory that was freed is no longer in the maps below, and an access
    to it is the outcome [Undef].  Allocated objects and threads get numbers
    that were never used before.  The [struct init_pcb] and the page with the
    command line, which only the new thread uses, are part of its frame.  Page
    tables, files and the other resources of a process are modelled in other
    files. *)

From S2P Require Import Prelude.

Module Process.

Definition NULL : Z := 0.
Definition TID_ERROR : Z := -1.

(** ** The data *)

Record child_process := ChildProcess {
  pid : Z; exited_code : Z; c_editing : Z; waiting : Z; child : Z; exited : bool }.
Record init_pcb := InitPcb { i_parent : Z; i_self : Z; i_editing : Z }.
Record process := Process { parent : Z; self : Z; children : list Z; editing : Z; exit_code : Z }.

Inductive frame :=
| Run (eax : Z)                       (** the program, after a call that returned [eax] *)
| Start (init : init_pcb)                    (** at the start of [start_process] *)
| StartFailed (init : init_pcb)              (** [start_process] at [done], after a failed load *)
| ExecSearch (tid : Z)                (** [handler_exec], in front of its loop *)
| ExecDown (e tid : Z)                (** [handler_exec], at [sema_down] *)
| WaitDown (e : Z)                    (** [process_wait], at [sema_down] *)
| ExitDown (sema : Z)                 (** [process_exit_tail], at its first [sema_down] *)
| ExitUp (sema : Z)                   (** the same, at the [sema_up] for it *)
| ExitChildren                        (** the same, in the loop over the children *)
| ChildDown (e sema : Z).             (** the same, at the [sema_down] of the loop *)
Record thread := Thread { t_pcb : Z; t_frame : frame }.

Record sys := Sys {
  threads : gmap Z thread;
  procs : gmap Z process;
  elems : gmap Z child_process;
  semas : gmap Z Z;
  next : Z;
}.
Abbreviation P := (M sys).

(** ** Memory *)

Definition set_threads (f : gmap Z thread → gmap Z thread) : P unit := modify (λ s, Sys (f (threads s)) (procs s) (elems s) (semas s) (next s)).
Definition set_procs (f : gmap Z process → gmap Z process) : P unit := modify (λ s, Sys (threads s) (f (procs s)) (elems s) (semas s) (next s)).
Definition set_elems (f : gmap Z child_process → gmap Z child_process) : P unit := modify (λ s, Sys (threads s) (procs s) (f (elems s)) (semas s) (next s)).
Definition set_semas (f : gmap Z Z → gmap Z Z) : P unit := modify (λ s, Sys (threads s) (procs s) (elems s) (f (semas s)) (next s)).

Definition alloc : P Z :=
  s ← get; modify (λ s, Sys (threads s) (procs s) (elems s) (semas s) (next s + 1));; mret (next s).

Definition get_thread (t : Z) : P thread := s ← get; lift (threads s !! t) Undef.
Definition get_proc (p : Z) : P process := s ← get; lift (procs s !! p) Undef.
Definition get_elem (e : Z) : P child_process := s ← get; lift (elems s !! e) Undef.
Definition get_sema (a : Z) : P Z := s ← get; lift (semas s !! a) Undef.

Definition put_elem (e : Z) (c : child_process) : P unit := get_elem e;; set_elems <[e := c]>.
Definition put_proc (p : Z) (x : process) : P unit := get_proc p;; set_procs <[p := x]>.
Definition free_elem (e : Z) : P unit := get_elem e;; set_elems (delete e).
Definition free_proc (p : Z) : P unit := get_proc p;; set_procs (delete p).
Definition free_sema (a : Z) : P unit := get_sema a;; set_semas (delete a).

(** [sema_up], and [sema_down] of a semaphore whose value is positive. *)
Definition sema_up (a : Z) : P unit := v ← get_sema a; set_semas <[a := v + 1]>.
Definition sema_dec (a : Z) : P unit := v ← get_sema a; set_semas <[a := v - 1]>.

Definition set_frame (t : Z) (f : frame) : P unit := th ← get_thread t; set_threads <[t := Thread (t_pcb th) f]>.
Definition set_pcb (t p : Z) : P unit := th ← get_thread t; set_threads <[t := Thread p (t_frame th)]>.
Definition thread_exit (t : Z) : P unit := set_threads (delete t).

(** The process of a thread. *)
Definition cur_pcb (t : Z) : P (Z * process) := th ← get_thread t; p ← get_proc (t_pcb th); mret (t_pcb th, p).
Definition set_children (p : process) (l : list Z) : process := Process (parent p) (self p) l (editing p) (exit_code p).

(** The search of an entry: [list_for_each_entry]. *)
Fixpoint find_child (child_pid : Z) (l : list Z) : P (option Z) :=
  match l with
  | [] => mret None
  | e :: l => c ← get_elem e; if decide (pid c = child_pid) then mret (Some e) else find_child child_pid l
  end.
Definition remove_child (t e : Z) : P unit :=
  '(a, p) ← cur_pcb t; put_proc a (set_children p (filter (λ x, x ≠ e) (children p))).

(** ** The operations *)

Definition free_parent_self (self exit_code : Z) : P unit :=
  c ← get_elem self;
  if exited c then free_sema (c_editing c);; free_elem self
  else put_elem self (ChildProcess (pid c) exit_code (c_editing c) (waiting c + 1) NULL true).

Definition free_child_self (e : Z) : P unit :=
  c ← get_elem e;
  if exited c then free_sema (c_editing c);; free_elem e
  else
    p ← get_proc (child c);
    put_proc (child c) (Process NULL (self p) (children p) (editing p) (exit_code p));;
    put_elem e (ChildProcess (pid c) (exited_code c) (c_editing c) (waiting c + 1) (child c) true).

(** Which allocations of [process_execute] succeed. *)
Record outcomes := Outcomes { o_page : bool; o_elem : bool; o_editing : bool; o_init : bool; o_thread : bool }.

Definition process_execute (t : Z) (o : outcomes) : P Z :=
  '(a, p) ← cur_pcb t;
  if negb (o_page o) then mret TID_ERROR else
  if negb (o_elem o) then mret TID_ERROR else
  child_elem ← alloc; set_elems <[child_elem := ChildProcess (-1) (-2) NULL 0 NULL false]>;;
  put_proc a (set_children p (child_elem :: children p));;
  if negb (o_editing o) then free_elem child_elem;; mret TID_ERROR else
  sema ← alloc; put_elem child_elem (ChildProcess (-1) (-2) sema 0 NULL false);;
  set_semas <[sema := 1]>;;
  if negb (o_init o) then free_sema sema;; free_elem child_elem;; mret TID_ERROR else
  sema_dec sema;;
  tid ← (if o_thread o then tid ← alloc; set_threads <[tid := Thread NULL (Start (InitPcb a child_elem sema))]>;; mret tid else mret TID_ERROR);
  c ← get_elem child_elem;
  put_elem child_elem (ChildProcess tid (exited_code c) (c_editing c) (waiting c) (child c) (exited c));;
  mret tid.

Definition init_process (t new_pcb : Z) (i : init_pcb) : P unit :=
  set_procs <[new_pcb := Process (i_parent i) (i_self i) [] (i_editing i) 0]>;; set_pcb t new_pcb.

(** The end of [start_process], from [done] on. *)
Definition start_done (t : Z) (i : init_pcb) (success : bool) : P unit :=
  c ← get_elem (i_self i);
  if negb success then
    put_elem (i_self i) (ChildProcess (pid c) (exited_code c) (c_editing c) (waiting c) (child c) false);;
    sema_up (i_editing i);; thread_exit t
  else
    th ← get_thread t;
    put_elem (i_self i) (ChildProcess t (exited_code c) (c_editing c) (waiting c) (t_pcb th) false);;
    sema_up (i_editing i);; set_frame t (Run 0).

Definition start_process (t : Z) (i : init_pcb) (pcb_ok load_ok : bool) : P unit :=
  if negb pcb_ok then start_done t i false else
  new_pcb ← alloc; init_process t new_pcb i;;
  if load_ok then start_done t i true else
  set_pcb t NULL;; free_proc new_pcb;; free_parent_self (i_self i) (-1);;
  set_frame t (StartFailed i).

Definition process_wait (t child_pid : Z) : P unit :=
  '(_, p) ← cur_pcb t;
  r ← find_child child_pid (children p);
  match r with None => set_frame t (Run (-1)) | Some e => set_frame t (WaitDown e) end.

Definition process_wait_down (t e : Z) : P unit :=
  c ← get_elem e;
  if decide (waiting c = 0) then mret () else
  put_elem e (ChildProcess (pid c) (exited_code c) (c_editing c) (waiting c - 1) (child c) (exited c));;
  remove_child t e;; free_child_self e;; set_frame t (Run (exited_code c)).

Definition handler_exec (t : Z) (o : outcomes) : P unit :=
  result ← process_execute t o;
  if decide (result = -1) then set_frame t (Run result) else set_frame t (ExecSearch result).
Definition handler_exec_search (t result : Z) : P unit :=
  '(_, p) ← cur_pcb t;
  r ← find_child result (children p);
  match r with None => set_frame t (Run result) | Some e => set_frame t (ExecDown e result) end.
Definition handler_exec_down (t e result : Z) : P unit :=
  c ← get_elem e; v ← get_sema (c_editing c);
  if decide (v = 0) then mret () else
  sema_dec (c_editing c);;
  if negb (exited c) && bool_decide (exited_code c = -1) then
    remove_child t e;; free_elem e;; set_frame t (Run (-1))
  else sema_up (c_editing c);; set_frame t (Run result).

Definition set_exit_code (p : process) (code : Z) : process :=
  if decide (exit_code p = 0 ∨ code ≠ -1) then Process (parent p) (self p) (children p) (editing p) code else p.

(** [process_exit_normal] of a process with one thread, up to the first
    [sema_down] of [process_exit_tail]. *)
Definition process_exit_normal (t code : Z) : P unit :=
  '(a, p) ← cur_pcb t;
  put_proc a (set_exit_code p code);; set_frame t (ExitDown (editing p)).

Definition exit_down (t sema : Z) : P unit :=
  v ← get_sema sema;
  if decide (v = 0) then mret () else
  sema_dec sema;;
  '(_, p) ← cur_pcb t;
  free_parent_self (self p) (exit_code p);; set_frame t (ExitUp sema).
Definition exit_up (t sema : Z) : P unit := sema_up sema;; set_frame t ExitChildren.
Definition exit_children (t : Z) : P unit :=
  '(a, p) ← cur_pcb t;
  match children p with
  | [] => set_pcb t NULL;; free_proc a;; thread_exit t
  | e :: l =>
      put_proc a (set_children p l);;
      c ← get_elem e;
      if decide (waiting c = 0) then set_frame t (ChildDown e (c_editing c)) else
      put_elem e (ChildProcess (pid c) (exited_code c) (c_editing c) (waiting c - 1) (child c) (exited c));;
      free_child_self e
  end.
Definition child_down (t e sema : Z) : P unit :=
  v ← get_sema sema;
  if decide (v = 0) then mret () else
  sema_dec sema;; free_child_self e;; sema_up sema;; set_frame t ExitChildren.

(** ** Events *)

(** A program, or [run_task], calls the kernel; or the thread goes on, with the
    outcomes of its allocation and of [load]. *)
Inductive event :=
| Exec (t : Z) (o : outcomes)
| Execute (t : Z) (o : outcomes)
| Wait (t child_pid : Z)
| Exit (t code : Z)
| Continue (t : Z) (pcb_ok load_ok : bool).

Definition in_program (t : Z) (m : P unit) : P unit :=
  th ← get_thread t; match t_frame th with Run _ => m | _ => mret () end.

Definition continue (t : Z) (pcb_ok load_ok : bool) : P unit :=
  th ← get_thread t;
  match t_frame th with
  | Run _ => mret ()
  | Start i => start_process t i pcb_ok load_ok
  | StartFailed i => start_done t i false
  | ExecSearch r => handler_exec_search t r
  | ExecDown e r => handler_exec_down t e r
  | WaitDown e => process_wait_down t e
  | ExitDown a => exit_down t a
  | ExitUp a => exit_up t a
  | ExitChildren => exit_children t
  | ChildDown e a => child_down t e a
  end.

Definition step (ev : event) : P unit :=
  match ev with
  | Exec t o => in_program t (handler_exec t o)
  | Execute t o => in_program t (r ← process_execute t o; set_frame t (Run r))
  | Wait t p => in_program t (process_wait t p)
  | Exit t code => in_program t (process_exit_normal t code)
  | Continue t pcb_ok load_ok => continue t pcb_ok load_ok
  end.

Fixpoint run (evs : list event) : P unit :=
  match evs with [] => mret () | ev :: evs => step ev;; run evs end.

(** [userprog_init]: the first thread, 1, has a PCB and an entry of its own. *)
Definition userprog_init : sys :=
  Sys {[1 := Thread 2 (Run 0)]} {[2 := Process NULL 4 [] 3 0]}
    {[4 := ChildProcess 1 0 3 0 2 true]} {[3 := 1]} 5.

End Process.
