(* ===== verification/ProcessSpec.v ===== *)
(** * Parents and children: theorems

    As long as the hand-over of an exit code is not interrupted, memory for
    [process_execute] lasts and a process outlives its children, the shared
    entries are used and freed correctly, and a parent that waits gets the
    code its child exited with.  Each of the other ways ends in an access to
    freed memory or a null pointer, which runs show. *)

From S2P Require Import Prelude Process.
Import Process.

Module ProcessSpec.

(** ** The invariant *)

(** The entry in the hands of a thread. *)
Definition owner (s : sys) (th : thread) : option Z :=
  match t_frame th with
  | Start i | StartFailed i => Some (i_self i)
  | ExitChildren | ChildDown _ _ => None
  | _ => self <$> procs s !! t_pcb th
  end.

(** The child is gone for good and has left its exit code. *)
Definition gone (tr : list event) (c : child_process) (v : Z) : Prop :=
  waiting c = 1 ∧ exited c = true ∧ v = 1 ∧ Exit (pid c) (exited_code c) ∈ tr.

(** An entry [c], the thread of the child and the value of [editing]. *)
Definition phase (tr : list event) (c : child_process) (th : option thread) (v : Z) : Prop :=
  match th with
  | None => gone tr c v ∨ (exited_code c = -2 ∧ waiting c = 0 ∧ exited c = false) ∨
            (exited_code c = -1 ∧ waiting c = 1 ∧ exited c = false ∧ v = 1)
  | Some (Thread A f) =>
      match f with
      | Start i => i_editing i = c_editing c ∧ exited_code c = -2 ∧ waiting c = 0 ∧ exited c = false ∧ v = 0
      | StartFailed i => i_editing i = c_editing c ∧ exited_code c = -1 ∧ waiting c = 1 ∧ exited c = true ∧ v = 0
      | ExitUp a => a = c_editing c ∧ waiting c = 1 ∧ exited c = true ∧ v = 0 ∧ Exit (pid c) (exited_code c) ∈ tr
      | ExitChildren | ChildDown _ _ => gone tr c v
      | _ => exited_code c = -2 ∧ waiting c = 0 ∧ exited c = false ∧ v = 1
      end
  end.

(** The child is not yet, or will not be, a process. *)
Definition starting (c : child_process) (th : option thread) : Prop :=
  match th with
  | None => exited_code c = -1 ∧ exited c = false
  | Some (Thread _ (Start _)) | Some (Thread _ (StartFailed _)) => True
  | _ => False
  end.
Definition exec_frame (f : frame) (e tid : Z) : Prop := f = ExecSearch tid ∨ f = ExecDown e tid.
Definition parent_exec (s : sys) (e tid : Z) : Prop :=
  ∃ u A f p, threads s !! u = Some (Thread A f) ∧ procs s !! A = Some p ∧ e ∈ children p ∧ exec_frame f e tid.

Definition kids_gone (tr : list event) (s : sys) (p : process) : Prop :=
  ∀ e, e ∈ children p → ∃ c v, elems s !! e = Some c ∧ semas s !! c_editing c = Some v ∧ gone tr c v.

Definition frame_ok (tr : list event) (s : sys) (u : Z) (p : process) (f : frame) : Prop :=
  match f with
  | Run _ => exit_code p = 0
  | ExecSearch r => exit_code p = 0 ∧ r ≠ -1
  | WaitDown e => exit_code p = 0 ∧ e ∈ children p
  | ExecDown e _ => exit_code p = 0 ∧ e ∈ children p
  | ExitDown a => a = editing p ∧ u ≠ 1 ∧ kids_gone tr s p ∧ Exit u (exit_code p) ∈ tr
  | ExitUp _ => u ≠ 1 ∧ kids_gone tr s p
  | ExitChildren => kids_gone tr s p
  | _ => False
  end.

Definition thread_ok (tr : list event) (s : sys) (u : Z) (th : thread) : Prop :=
  (∀ e, owner s th = Some e → ∃ c, elems s !! e = Some c ∧ pid c = u) ∧
  match t_frame th with
  | Start i | StartFailed i => t_pcb th = 0 ∧ i_self i ≠ 4 ∧ u ≠ 1
  | f => ∃ p, procs s !! t_pcb th = Some p ∧ frame_ok tr s u p f ∧ (u ≠ 1 → self p ≠ 4) ∧
      ∀ e c, owner s th = Some e → elems s !! e = Some c → c_editing c = editing p
  end.

Record inv (tr : list event) (s : sys) : Prop := {
  iv_next : 4 < next s;
  iv_main : is_Some (elems s !! 4);
  iv_threads : ∀ u th, threads s !! u = Some th → 0 < u < next s ∧ thread_ok tr s u th;
  iv_pcb : ∀ u v A f g, threads s !! u = Some (Thread A f) → threads s !! v = Some (Thread A g) → A ≠ 0 → u = v;
  iv_procs : ∀ A p, procs s !! A = Some p → 0 < A < next s ∧ NoDup (children p);
  iv_children : ∀ A p e, procs s !! A = Some p → e ∈ children p → e ≠ 4 ∧ is_Some (elems s !! e);
  iv_parent : ∀ A B p q e, procs s !! A = Some p → procs s !! B = Some q → e ∈ children p → e ∈ children q → A = B;
  iv_elems : ∀ e c, elems s !! e = Some c → 0 < e < next s ∧ -1 ≤ pid c < next s ∧ pid c ≠ 0;
  iv_semas : ∀ e c, elems s !! e = Some c → 0 < c_editing c < next s ∧ ∃ v, semas s !! c_editing c = Some v ∧
    0 ≤ v ∧ (e ≠ 4 → phase tr c (threads s !! pid c) v);
  iv_pid : ∀ e e' c c', elems s !! e = Some c → elems s !! e' = Some c' → pid c = pid c' → pid c ≠ -1 → e = e';
  iv_editing : ∀ e e' c c', elems s !! e = Some c → elems s !! e' = Some c' → c_editing c = c_editing c' → e = e';
  iv_listed : ∀ e c, elems s !! e = Some c → e ≠ 4 → ∃ A p, procs s !! A = Some p ∧ e ∈ children p;
  iv_exec : ∀ e c, elems s !! e = Some c → e ≠ 4 → starting c (threads s !! pid c) → parent_exec s e (pid c);
}.

(** ** The runs that are safe *)

Definition handing_over (f : frame) : bool := match f with ExitUp _ | StartFailed _ => true | _ => false end.
Definition actor (ev : event) : Z := match ev with Exec t _ | Execute t _ | Wait t _ | Exit t _ | Continue t _ _ => t end.

(** Calls come from programs that run.  A hand-over is completed first, the
    entries for a new child can be allocated, and a process exits after its
    children. *)
Definition in_run (s : sys) (t : Z) : Prop := ∃ A r, threads s !! t = Some (Thread A (Run r)).
Definition allowed (s : sys) (ev : event) : Prop :=
  is_Some (threads s !! actor ev) ∧
  (∀ u th, threads s !! u = Some th → handing_over (t_frame th) = true → ∃ a b, ev = Continue u a b) ∧
  match ev with
  | Exec t o => in_run s t ∧ o_editing o = true ∧ o_init o = true
  | Execute _ _ => False
  | Wait t _ => in_run s t
  | Exit t _ => in_run s t ∧ t ≠ 1 ∧ ∀ th p e c, threads s !! t = Some th → procs s !! t_pcb th = Some p →
      e ∈ children p → elems s !! e = Some c → exited c = true
  | _ => True
  end.

(** The first program is running. *)
Definition all_ok : outcomes := Outcomes true true true true true.
Definition started : sys :=
  match run [Execute 1 all_ok; Continue 7 true true] userprog_init with Ok (_, s) => s | Err _ => userprog_init end.

Inductive safe_run : list event → sys → Prop :=
| safe_start : safe_run [] started
| safe_step tr s ev s' : safe_run tr s → allowed s ev → step ev s = Ok ((), s') → safe_run (ev :: tr) s'.

(** ** A step of one thread

    It changes the thread [t], the process [A], the entry [e] and the semaphore
    of [e], and nothing else. *)

Definition upd {V} (k : Z) (o : option V) (m : gmap Z V) : gmap Z V := partial_alter (λ _, o) k m.
Lemma lookup_upd {V} k (o : option V) m j : upd k o m !! j = if decide (j = k) then o else m !! j.
Proof. unfold upd. case_decide; [subst; apply lookup_partial_alter_eq|by apply lookup_partial_alter_ne]. Qed.
Lemma upd_insert {V} k (x : V) m : <[k := x]> m = upd k (Some x) m.
Proof. done. Qed.
Lemma upd_delete {V} k (m : gmap Z V) : delete k m = upd k None m.
Proof. done. Qed.
Lemma upd_same {V} k (m : gmap Z V) : upd k (m !! k) m = m.
Proof. apply map_eq. intros j. rewrite lookup_upd. by case_decide; subst. Qed.
Lemma upd_upd {V} k (o o' : option V) (m : gmap Z V) : upd k o' (upd k o m) = upd k o' m.
Proof. apply map_eq. intros j. rewrite !lookup_upd. by case_decide. Qed.

Lemma option_cases {V} (o : option V) : o = None ∨ ∃ x, o = Some x.
Proof. destruct o; eauto. Qed.

Lemma gone_mono tr tr' c v : tr ⊆ tr' → gone tr c v → gone tr' c v.
Proof. intros H (? & ? & ? & ?). repeat split; auto. Qed.
Lemma phase_mono tr tr' c th v : tr ⊆ tr' → phase tr c th v → phase tr' c th v.
Proof.
  intros H Hp. pose proof (gone_mono tr tr' c v H) as Hg. destruct th as [[A []]|]; cbn in *; (done || tauto || naive_solver).
Qed.

Section Local.
Context (tr tr' : list event) (s : sys) (t A e n' : Z) (th : thread) (c0 : child_process).
Context (th' : option thread) (p' : option process) (c' : option child_process) (v' : option Z).
Let s' : sys := Sys (upd t th' (threads s)) (upd A p' (procs s)) (upd e c' (elems s)) (upd (c_editing c0) v' (semas s)) n'.

Record local_ok : Prop := {
  lo_thread : threads s !! t = Some th;
  lo_elem : elems s !! e = Some c0;
  lo_next : next s ≤ n';
  lo_pcb : (A = t_pcb th ∧ A ≠ 0) ∨ (procs s !! A = None ∧ next s ≤ A);
  lo_new : ∀ x, th' = Some x → thread_ok tr' s' t x ∧ (t_pcb x = A ∨ t_pcb x = 0);
  lo_proc : ∀ q, p' = Some q → 0 < A < n' ∧ NoDup (children q) ∧
    ∀ x, x ∈ children q → (x = e → is_Some c') ∧ ∃ p, procs s !! A = Some p ∧ x ∈ children p;
  lo_keep : ∀ p x, procs s !! A = Some p → x ∈ children p → x ≠ e ∨ is_Some c' → ∃ q, p' = Some q ∧ x ∈ children q;
  lo_others : c' = None → e ≠ 4 ∧ (∀ B q, B ≠ A → procs s !! B = Some q → e ∉ children q) ∧
    (∀ u x, u ≠ t → threads s !! u = Some x → owner s x ≠ Some e);
  lo_entry : ∀ c, c' = Some c → pid c = pid c0 ∧ c_editing c = c_editing c0 ∧
    (∃ v, v' = Some v ∧ 0 ≤ v ∧ (e ≠ 4 → phase tr' c (threads s' !! pid c) v)) ∧
    (e ≠ 4 → starting c (threads s' !! pid c) → parent_exec s' e (pid c));
  lo_own : ∀ x c v, x ≠ e → x ≠ 4 → elems s !! x = Some c → pid c = t → phase tr c (Some th) v → phase tr' c th' v ∧ ¬ starting c th';
  lo_exec : ∀ x c, x ≠ e → elems s !! x = Some c → exec_frame (t_frame th) x (pid c) →
    (∃ p, procs s !! t_pcb th = Some p ∧ x ∈ children p) → starting c (threads s' !! pid c) → parent_exec s' x (pid c);
  lo_gone : ∀ B q v, B ≠ A → procs s !! B = Some q → e ∈ children q → semas s !! c_editing c0 = Some v → gone tr c0 v →
    c' = Some c0 ∧ v' = Some v;
}.

Hypothesis Hinv : inv tr s.
Hypothesis Htr : tr ⊆ tr'.
Hypothesis Hlo : local_ok.

Lemma local_sema x c : x ≠ e → elems s !! x = Some c → semas s' !! c_editing c = semas s !! c_editing c.
Proof.
  intros Hx Hc. cbn. rewrite lookup_upd, decide_False; [done|]. intros E. apply Hx. by eapply (iv_editing _ _ Hinv x e c c0 Hc (lo_elem Hlo)).
Qed.
Lemma local_elem x c : elems s' !! x = Some c → x ≠ e ∧ elems s !! x = Some c ∨ x = e ∧ c' = Some c.
Proof. cbn. rewrite lookup_upd. case_decide; tauto. Qed.
Lemma local_proc B q : procs s' !! B = Some q → B ≠ A ∧ procs s !! B = Some q ∨ B = A ∧ p' = Some q.
Proof. cbn. rewrite lookup_upd. case_decide; tauto. Qed.

(** Other threads have other processes. *)
Lemma local_pcb u x : u ≠ t → threads s !! u = Some x →
  match t_frame x with Start _ | StartFailed _ => t_pcb x = 0 | _ => t_pcb x ≠ A end.
Proof.
  intros Hu Hx. destruct (iv_threads _ _ Hinv u x Hx) as (_ & _ & Hok). destruct x as [B f]. cbn in *.
  assert ((∃ p, procs s !! B = Some p) → B ≠ A) as Hne.
  { intros (p & Hp) ->. destruct (lo_pcb Hlo) as [[E Hn]|[Hn _]]; [|congruence]. apply Hu.
    pose proof (lo_thread Hlo) as Ht. destruct th as [B g]. cbn in E. subst B. by apply (iv_pcb _ _ Hinv u t A f g). }
  destruct f; try (apply Hne; destruct Hok as (? & ? & _); eauto); apply Hok.
Qed.

Lemma local_kids B q : B ≠ A → procs s !! B = Some q → kids_gone tr s q → kids_gone tr' s' q.
Proof.
  intros HB Hq Hk x Hx. destruct (Hk x Hx) as (c & v & Hc & Hv & Hg). pose proof (gone_mono tr tr' c v Htr Hg) as Hg'.
  destruct (decide (x = e)) as [->|Hne].
  - assert (c = c0) as -> by (pose proof (lo_elem Hlo); congruence). destruct (lo_gone Hlo B q v HB Hq Hx Hv Hg) as [E1 E2].
    exists c0, v. cbn. rewrite !lookup_upd, !decide_True by done. done.
  - exists c, v. split; [cbn; by rewrite lookup_upd, decide_False|]. by rewrite (local_sema x c Hne Hc).
Qed.

Lemma local_owner_elem u x o : u ≠ t → threads s !! u = Some x → owner s x = Some o → ∀ c, elems s !! o = Some c →
  ∃ c1, elems s' !! o = Some c1 ∧ pid c1 = pid c ∧ c_editing c1 = c_editing c.
Proof.
  intros Hu Hx Ho c Hc. cbn. rewrite lookup_upd. case_decide as E; [|eauto]. subst o. assert (c = c0) as -> by (pose proof (lo_elem Hlo); congruence).
  destruct (option_cases c') as [Ec|[c1 Ec]]; [by destruct (proj2 (proj2 (lo_others Hlo Ec)) u x Hu Hx)|]. destruct (lo_entry Hlo c1 Ec) as (? & ? & _). eauto.
Qed.

Lemma local_thread u x : u ≠ t → threads s !! u = Some x → thread_ok tr' s' u x.
Proof.
  intros Hu Hx. destruct (iv_threads _ _ Hinv u x Hx) as (_ & Hown & Hok). pose proof (local_pcb u x Hu Hx) as Hpcb.
  assert (owner s' x = owner s x) as Eo.
  { unfold owner. destruct x as [B f]. cbn in *. destruct f; try done; rewrite lookup_upd; by rewrite decide_False. }
  split.
  { intros o Ho. rewrite Eo in Ho. destruct (Hown o Ho) as (c & Hc & Ec). destruct (local_owner_elem u x o Hu Hx Ho c Hc) as (c1 & ? & E1 & _). exists c1. split; [done|congruence]. }
  assert (∀ p, procs s !! t_pcb x = Some p → t_pcb x ≠ A → procs s' !! t_pcb x = Some p) as Hpr by (intros; cbn; by rewrite lookup_upd, decide_False).
  destruct x as [B f]. cbn in *.
  assert (∀ p, procs s !! B = Some p → B ≠ A → frame_ok tr s u p f → frame_ok tr' s' u p f) as Hf.
  { intros p Hp HB. destruct f; cbn; try tauto; intros; (repeat match goal with H : _ ∧ _ |- _ => destruct H end); repeat split; auto; by eapply local_kids. }
  assert (∀ p, (∀ o c, owner s (Thread B f) = Some o → elems s !! o = Some c → c_editing c = editing p) →
    ∀ o c, owner s' (Thread B f) = Some o → elems s' !! o = Some c → c_editing c = editing p) as Hed.
  { intros p Hp o c Ho Hc. rewrite Eo in Ho. destruct (Hown o Ho) as (c1 & Hc1 & _). destruct (local_owner_elem u _ o Hu Hx Ho c1 Hc1) as (c2 & Hc2 & _ & E2).
    rewrite Hc in Hc2. injection Hc2 as <-. rewrite E2. eauto. }
  destruct f; try done; destruct Hok as (p & Hp & Hfr & Hself & He); exists p; (split; [by apply Hpr|]); (split; [by apply (Hf p)|]); (split; [done|]); by apply (Hed p).
Qed.

Lemma local_exec x c : x ≠ e → elems s !! x = Some c → x ≠ 4 → starting c (threads s' !! pid c) → parent_exec s' x (pid c).
Proof.
  intros Hx Hc H4 Hst. destruct (iv_semas _ _ Hinv x c Hc) as (_ & v & _ & _ & Hph).
  assert (pid c ≠ t) as Hpt.
  { intros E. cbn in Hst. rewrite lookup_upd, decide_True in Hst by done. specialize (Hph H4). rewrite E, (lo_thread Hlo) in Hph.
    by destruct (lo_own Hlo x c v Hx H4 Hc E Hph). }
  assert (starting c (threads s !! pid c)) as Hst0 by (cbn in Hst; by rewrite lookup_upd, decide_False in Hst).
  destruct (iv_exec _ _ Hinv x c Hc H4 Hst0) as (u & B & f & p & Hu & Hp & Hin & Hf). destruct (decide (u = t)) as [->|Hut].
  - assert (th = Thread B f) as Eth by (pose proof (lo_thread Hlo); congruence). apply (lo_exec Hlo x c); rewrite ?Eth; eauto.
  - exists u, B, f, p. pose proof (local_pcb u _ Hut Hu) as Hpcb. cbn in Hpcb. cbn. rewrite !lookup_upd, (decide_False (P := u = t)) by done.
    rewrite decide_False; [done|]. by destruct Hf as [-> | ->].
Qed.

Lemma inv_local : inv tr' s'.
Proof.
  pose proof (lo_next Hlo) as Hn. pose proof (iv_next _ _ Hinv). constructor.
  - cbn. lia.
  - cbn. rewrite lookup_upd. case_decide as E; [|apply (iv_main _ _ Hinv)]. destruct (option_cases c') as [Ec|[c1 Ec]]; [|rewrite Ec; eauto].
    destruct (lo_others Hlo Ec) as [? _]. congruence.
  - intros u x Hx. cbn in Hx. rewrite lookup_upd in Hx. case_decide as E.
    + subst u. destruct (iv_threads _ _ Hinv t th (lo_thread Hlo)) as [Hb _]. split; [cbn; lia|by apply (lo_new Hlo)].
    + destruct (iv_threads _ _ Hinv u x Hx) as [Hb _]. split; [cbn; lia|by apply local_thread].
  - intros u w B f g Hu Hw HB. cbn in Hu, Hw. rewrite lookup_upd in Hu, Hw.
    destruct (decide (u = t)) as [E1|E1], (decide (w = t)) as [E2|E2]; [by subst| | |].
    + destruct (proj2 (lo_new Hlo _ Hu)) as [Ea|Ea]; cbn in Ea; [|done]. pose proof (local_pcb w _ E2 Hw) as Hp. cbn in Hp. destruct g; congruence.
    + destruct (proj2 (lo_new Hlo _ Hw)) as [Ea|Ea]; cbn in Ea; [|done]. pose proof (local_pcb u _ E1 Hu) as Hp. cbn in Hp. destruct f; congruence.
    + by apply (iv_pcb _ _ Hinv u w B f g).
  - intros B q [[HB Hq]|[-> Hq]]%local_proc; cbn; [destruct (iv_procs _ _ Hinv B q Hq); split; [lia|done]|]. by destruct (lo_proc Hlo q Hq) as (? & ? & _).
  - intros B q x HBq Hx. assert (∃ q', procs s !! B = Some q' ∧ x ∈ children q' ∧ (x = e → is_Some c')) as (q' & Hq' & Hx' & Hc').
    { apply local_proc in HBq as [[HB Hq]|[-> Hq]].
      - exists q. split; [done|]. split; [done|]. intros ->. destruct (option_cases c') as [Ec|[c1 Ec]]; [|rewrite Ec; eauto].
        by destruct (proj1 (proj2 (lo_others Hlo Ec)) B q HB Hq).
      - destruct (lo_proc Hlo q Hq) as (_ & _ & Hin). destruct (Hin x Hx) as (? & p & ? & ?). eauto. }
    destruct (iv_children _ _ Hinv B q' x Hq' Hx') as [H4 Hex]. split; [done|]. cbn. rewrite lookup_upd. case_decide; auto.
  - intros B C p q x HB HC Hp Hq.
    assert (∀ B q, procs s' !! B = Some q → x ∈ children q → ∃ q', procs s !! B = Some q' ∧ x ∈ children q') as Hold.
    { clear B C p q HB HC Hp Hq. intros B q [[HB Hq]|[-> Hq]]%local_proc Hx; [eauto|]. destruct (lo_proc Hlo q Hq) as (_ & _ & Hin). by destruct (Hin x Hx). }
    destruct (Hold B p HB Hp) as (p1 & ? & ?). destruct (Hold C q HC Hq) as (q1 & ? & ?). by apply (iv_parent _ _ Hinv B C p1 q1 x).
  - intros x c [[Hx Hc]|[-> Hc]]%local_elem; cbn.
    + destruct (iv_elems _ _ Hinv x c Hc) as (? & ? & ?). lia.
    + destruct (lo_entry Hlo c Hc) as (-> & _). destruct (iv_elems _ _ Hinv e c0 (lo_elem Hlo)) as (? & ? & ?). lia.
  - intros x c [[Hx Hc]|[-> Hc]]%local_elem.
    + destruct (iv_semas _ _ Hinv x c Hc) as (? & v & Hv & Hv0 & Hph). split; [cbn; lia|]. exists v. rewrite (local_sema x c Hx Hc).
      split; [done|]. split; [done|]. intros H4. specialize (Hph H4). cbn. rewrite lookup_upd. case_decide as E; [|by apply (phase_mono tr)].
      rewrite E, (lo_thread Hlo) in Hph. by apply (lo_own Hlo x c v).
    + destruct (lo_entry Hlo c Hc) as (_ & Ee & (v & Hv & Hv0 & Hph) & _). destruct (iv_semas _ _ Hinv e c0 (lo_elem Hlo)) as (? & _).
      rewrite Ee. split; [cbn; lia|]. exists v. split; [cbn; by rewrite lookup_upd, decide_True|done].
  - intros x y c d Hc Hd Ep. assert (∀ x c, elems s' !! x = Some c → ∃ c1, elems s !! x = Some c1 ∧ pid c1 = pid c) as Hold.
    { clear x y c d Hc Hd Ep. intros x c [[Hx Hc]|[-> Hc]]%local_elem; [eauto|]. destruct (lo_entry Hlo c Hc) as (Ep & _). exists c0. split; [apply (lo_elem Hlo)|done]. }
    destruct (Hold x c Hc) as (c1 & H1 & E1), (Hold y d Hd) as (d1 & H2 & E2). intros Hm. apply (iv_pid _ _ Hinv x y c1 d1); congruence.
  - intros x y c d Hc Hd Ep. assert (∀ x c, elems s' !! x = Some c → ∃ c1, elems s !! x = Some c1 ∧ c_editing c1 = c_editing c) as Hold.
    { clear x y c d Hc Hd Ep. intros x c [[Hx Hc]|[-> Hc]]%local_elem; [eauto|]. destruct (lo_entry Hlo c Hc) as (_ & Ep & _). exists c0. split; [apply (lo_elem Hlo)|done]. }
    destruct (Hold x c Hc) as (c1 & H1 & E1), (Hold y d Hd) as (d1 & H2 & E2). apply (iv_editing _ _ Hinv x y c1 d1); congruence.
  - intros x c Hxc H4. assert (∃ c1, elems s !! x = Some c1) as [c1 Hc1] by (apply local_elem in Hxc as [[_ ?]|[-> _]]; [eauto|eexists; apply (lo_elem Hlo)]).
    assert (x ≠ e ∨ is_Some c') as Hor by (apply local_elem in Hxc as [[? _]|[_ ?]]; [by left|right; eauto]).
    destruct (iv_listed _ _ Hinv x c1 Hc1 H4) as (B & q & Hq & Hin). destruct (decide (B = A)) as [->|HB].
    + destruct (lo_keep Hlo q x Hq Hin Hor) as (q' & Eq & Hin'). exists A, q'. split; [cbn; by rewrite lookup_upd, decide_True|done].
    + exists B, q. split; [cbn; by rewrite lookup_upd, decide_False|done].
  - intros x c [[Hx Hc]|[-> Hc]]%local_elem H4 Hst; [by apply local_exec|]. destruct (lo_entry Hlo c Hc) as (_ & _ & _ & Hpe). by apply Hpe.
Qed.
End Local.

(** ** The steps *)

Definition live (f : frame) : Prop := match f with Run _ | ExecSearch _ | ExecDown _ _ | WaitDown _ => True | _ => False end.

(** What is known of a thread and its entry. *)
Lemma own_entry tr s t th e :
  inv tr s → threads s !! t = Some th → owner s th = Some e →
  ∃ c v, elems s !! e = Some c ∧ pid c = t ∧ semas s !! c_editing c = Some v ∧ 0 ≤ v ∧ (e ≠ 4 → phase tr c (Some th) v).
Proof.
  intros Hi Ht Ho. destruct (iv_threads _ _ Hi t th Ht) as (_ & Hown & _). destruct (Hown e Ho) as (c & Hc & <-).
  destruct (iv_semas _ _ Hi e c Hc) as (_ & v & Hv & Hv0 & Hph). exists c, v. rewrite Ht in Hph. done.
Qed.

Lemma live_thread tr s t A f :
  inv tr s → threads s !! t = Some (Thread A f) → live f ∨ (∃ a, f = ExitDown a) ∨ (∃ a, f = ExitUp a) →
  ∃ p, procs s !! A = Some p ∧ 0 < A < next s ∧ owner s (Thread A f) = Some (self p) ∧ frame_ok tr s t p f ∧ (t ≠ 1 → self p ≠ 4) ∧
    ∀ c, elems s !! self p = Some c → c_editing c = editing p.
Proof.
  intros Hi Ht Hf. destruct (iv_threads _ _ Hi t _ Ht) as (_ & _ & Hok). cbn in Hok.
  assert (∃ p, procs s !! A = Some p ∧ frame_ok tr s t p f ∧ (t ≠ 1 → self p ≠ 4) ∧
    ∀ e c, owner s (Thread A f) = Some e → elems s !! e = Some c → c_editing c = editing p) as (p & Hp & Hfr & Hself & Hed).
  { destruct f; try done; naive_solver. }
  assert (owner s (Thread A f) = Some (self p)) as Ho. { unfold owner. cbn. destruct f; cbn in *; try (by rewrite Hp); naive_solver. }
  exists p. destruct (iv_procs _ _ Hi A p Hp). split; [done|]. split; [done|]. split; [done|]. split; [done|]. split; [done|]. eauto.
Qed.

(** Other entries than its own do not have the number of a thread. *)
Lemma own_pid tr s t th e x c : inv tr s → threads s !! t = Some th → owner s th = Some e → elems s !! x = Some c → pid c = t → x = e.
Proof.
  intros Hi Ht Ho Hx Hp. destruct (own_entry tr s t th e Hi Ht Ho) as (c0 & _ & He & Hp0 & _).
  destruct (iv_threads _ _ Hi t th Ht) as [Hb _]. apply (iv_pid _ _ Hi x e c c0); [done|done|congruence|lia].
Qed.

Lemma sys_same s : Sys (threads s) (procs s) (elems s) (semas s) (next s) = s.
Proof. by destruct s. Qed.

(** The thread of a process goes on to another point in front of the end. *)
Lemma inv_frame tr tr' s t A f0 f1 p :
  inv tr s → tr ⊆ tr' → threads s !! t = Some (Thread A f0) → procs s !! A = Some p → live f0 → live f1 → frame_ok tr' s t p f1 →
  (∀ x c, elems s !! x = Some c → x ∈ children p → exec_frame f0 x (pid c) → starting c (threads s !! pid c) → exec_frame f1 x (pid c)) →
  inv tr' (Sys (upd t (Some (Thread A f1)) (threads s)) (procs s) (elems s) (semas s) (next s)).
Proof.
  intros Hi Htr Ht Hp Hf0 Hf1 Hfr Hex. destruct (live_thread tr s t A f0 Hi Ht (or_introl Hf0)) as (p0 & Hp0 & HA & Ho & _ & Hself & Hed).
  assert (p0 = p) as -> by congruence. destruct (own_entry tr s t _ _ Hi Ht Ho) as (c & v & Hc & Hpid & Hv & Hv0 & Hph).
  set (s' := Sys (upd t (Some (Thread A f1)) (threads s)) (procs s) (elems s) (semas s) (next s)).
  assert (s' = Sys (upd t (Some (Thread A f1)) (threads s)) (upd A (Some p) (procs s)) (upd (self p) (Some c) (elems s)) (upd (c_editing c) (Some v) (semas s)) (next s)) as Es.
  { unfold s'. by rewrite <- Hp, <- Hc, <- Hv, !upd_same. }
  rewrite Es. apply (inv_local tr tr' s t A (self p) (next s) (Thread A f0) c); [done|done|]. constructor; cbv zeta; rewrite <- ?Es.
  - done.
  - done.
  - lia.
  - left. split; [done|lia].
  - intros x [= <-]. split; [|by left]. split; cbn.
    + intros o Ho'. assert (o = self p) as -> by (unfold owner in Ho'; cbn in Ho'; rewrite Hp in Ho'; destruct f1; cbn in *; by simplify_eq). eauto.
    + assert (∃ p1, procs s !! A = Some p1 ∧ frame_ok tr' s' t p1 f1 ∧ (t ≠ 1 → self p1 ≠ 4) ∧ ∀ o c1, owner s' (Thread A f1) = Some o → elems s' !! o = Some c1 → c_editing c1 = editing p1) as Hgoal.
      { exists p. split; [done|]. split; [by destruct f1|]. split; [done|]. intros o c1 Ho'.
        assert (o = self p) as -> by (unfold owner in Ho'; cbn in Ho'; rewrite Hp in Ho'; destruct f1; cbn in *; by simplify_eq). apply Hed. }
      by destruct f1.
  - intros q [= <-]. split; [done|]. destruct (iv_procs _ _ Hi A p Hp) as [_ Hnd]. split; [done|]. intros x Hx. split; eauto.
  - intros q x Hq Hx _. assert (q = p) as -> by congruence. eauto.
  - done.
  - intros c1 [= <-]. split; [done|]. split; [done|]. cbn. rewrite lookup_upd, decide_True by done. split.
    + exists v. split; [done|]. split; [done|]. intros H4. specialize (Hph H4). by destruct f0, f1.
    + intros _ Hst. by destruct f1.
  - intros x c1 v1 Hx _ Hx1 Hp1. by destruct Hx; eapply own_pid.
  - intros x c1 Hx Hx1 Hf (p1 & Hp1 & Hin) Hst. cbn in Hp1. assert (p1 = p) as -> by congruence. exists t, A, f1, p. cbn. rewrite lookup_upd, decide_True by done.
    split; [done|]. split; [done|]. split; [done|]. apply (Hex x c1 Hx1 Hin Hf). cbn in Hst. rewrite lookup_upd, decide_False in Hst; [done|].
    intros E. apply Hx. by eapply own_pid.
  - intros B q v1 HB Hq Hin Hv1 Hg. split; [done|congruence].
Qed.

Lemma owned_not_gone tr c th v s e : owner s th = Some e → phase tr c (Some th) v → ¬ gone tr c v.
Proof. intros Ho Hp (Hw & He & Hv & _). destruct th as [A []]; cbn in *; naive_solver lia. Qed.

(** A thread changes its own entry. *)
Lemma inv_own tr tr' s t A e n' th c0 th' p' c v
  (s' := Sys (upd t th' (threads s)) (upd A p' (procs s)) (upd e (Some c) (elems s)) (upd (c_editing c0) (Some v) (semas s)) n') :
  inv tr s → tr ⊆ tr' → threads s !! t = Some th → owner s th = Some e → elems s !! e = Some c0 →
  (∀ x tid, ¬ exec_frame (t_frame th) x tid) → next s ≤ n' → (A = t_pcb th ∧ A ≠ 0) ∨ (procs s !! A = None ∧ next s ≤ A) →
  (∀ x, th' = Some x → thread_ok tr' s' t x ∧ (t_pcb x = A ∨ t_pcb x = 0)) →
  match p' with
  | Some q => 0 < A < n' ∧ (procs s !! A = None ∧ children q = [] ∨ ∃ p, procs s !! A = Some p ∧ children q = children p)
  | None => procs s !! A = None
  end →
  pid c = t → c_editing c = c_editing c0 → 0 ≤ v →
  (e ≠ 4 → phase tr' c th' v) → (e ≠ 4 → starting c th' → parent_exec s' e t) → inv tr' s'.
Proof.
  intros Hi Htr Ht Ho Hc Hne Hn HA Hth Hq Hp He Hv Hph Hst. destruct (own_entry tr s t th e Hi Ht Ho) as (c1 & v1 & Hc1 & Hp1 & Hv1 & _ & Hph1).
  assert (c1 = c0) as -> by congruence. apply (inv_local tr tr' s t A e n' th c0); [done|done|]. constructor; cbv zeta; fold s'.
  - done.
  - done.
  - done.
  - done.
  - done.
  - intros q ->. destruct Hq as [HAb [[_ ->]|(p & Hpp & ->)]]; (split; [done|]); [split; [constructor|]; by intros x ?%not_elem_of_nil|].
    split; [by apply (iv_procs _ _ Hi A p)|]. intros x Hx. split; eauto.
  - intros p x Hpp Hx _. destruct p' as [q|]; [|congruence]. destruct Hq as [_ [[? _]|(p0 & Hp0 & Eq)]]; [congruence|].
    assert (p0 = p) as -> by congruence. exists q. by rewrite Eq.
  - done.
  - intros c2 [= <-]. split; [congruence|]. split; [done|]. unfold s' at 1 2. cbn [threads]. rewrite lookup_upd, decide_True by done. split; [by exists v|].
    rewrite Hp. done.
  - intros x c2 v2 Hx _ Hx2 Hp2. destruct Hx. by eapply own_pid.
  - intros x c2 _ _ Hf. by destruct (Hne x (pid c2)).
  - intros B q v2 _ HB Hin Hv2 Hg. destruct (iv_children _ _ Hi B q e HB Hin) as [H4 _]. by destruct (owned_not_gone tr c0 th v2 s e Ho); [assert (v2 = v1) as -> by congruence; auto|].
Qed.

(** A parent frees the entry of a child. *)
Lemma inv_free tr tr' s t A e f0 f1 c0 p p1 v'
  (s' := Sys (upd t (Some (Thread A f1)) (threads s)) (upd A (Some p1) (procs s)) (upd e None (elems s)) (upd (c_editing c0) v' (semas s)) (next s)) :
  inv tr s → tr ⊆ tr' → threads s !! t = Some (Thread A f0) → procs s !! A = Some p → elems s !! e = Some c0 → e ∈ children p →
  match threads s !! pid c0 with None | Some (Thread _ ExitChildren) => True | _ => False end →
  (live f0 ∧ live f1 ∧ (∀ a, f0 ≠ ExecSearch a) ∧ (∀ x a, f0 = ExecDown x a → x = e)) ∨ (f0 = ExitChildren ∧ f1 = ExitChildren) →
  thread_ok tr' s' t (Thread A f1) → NoDup (children p1) → (∀ x, x ∈ children p1 ↔ x ∈ children p ∧ x ≠ e) → inv tr' s'.
Proof.
  intros Hi Htr Ht Hp Hc Hin Hdead Hf Hok Hnd Hsub. destruct (iv_procs _ _ Hi A p Hp) as [HA _].
  apply (inv_local tr tr' s t A e (next s) (Thread A f0) c0); [done|done|]. constructor; cbv zeta; fold s'.
  - done.
  - done.
  - lia.
  - left. split; [done|lia].
  - intros x [= <-]. split; [done|by left].
  - intros q [= <-]. split; [lia|]. split; [done|]. intros x Hx. apply Hsub in Hx as [? Hne]. split; [done|eauto].
  - intros q x Hq Hx [Hne|[]]; [|done]. assert (q = p) as -> by congruence. exists p1. split; [done|]. by apply Hsub.
  - intros _. split; [apply (iv_children _ _ Hi A p e Hp Hin)|]. split.
    + intros B q HB Hq Hinq. apply HB. by apply (iv_parent _ _ Hi B A q p e).
    + intros u x _ Hx Ho. destruct (own_entry tr s u x e Hi Hx Ho) as (c1 & v1 & Hc1 & Hp1 & _). assert (c1 = c0) as -> by congruence.
      rewrite Hp1, Hx in Hdead. by destruct x as [B []].
  - done.
  - intros x c v Hx H4 Hxc Hpid Hph. destruct Hf as [(H0 & H1 & _)|[-> ->]]; [|split; [by eapply phase_mono|by intros ?]].
    split; [|intros ?; by destruct f1]. by destruct f0, f1.
  - intros x c Hx _ Hex. destruct Hf as [(_ & _ & H1 & H2)|[-> _]]; [|by destruct Hex]. destruct Hex as [E|E]; cbn in E; [by destruct (H1 (pid c))|].
    by destruct Hx; eapply H2.
  - intros B q v HB Hq Hinq. destruct HB. by apply (iv_parent _ _ Hi B A q p e).
Qed.

(** ** Running the operations *)

Ltac psimpl := cbn [threads procs elems semas next t_pcb t_frame pid exited_code c_editing waiting child exited parent self children editing exit_code
  i_parent i_self i_editing negb].
Ltac prun :=
  unfold start_process, start_done, init_process, free_parent_self, free_child_self, process_wait_down, handler_exec_down, exit_down, exit_up,
    exit_children, process_exit_normal, remove_child, cur_pcb, set_frame, set_pcb, thread_exit, sema_up, sema_dec, put_elem, put_proc, free_elem,
    free_proc, free_sema, get_thread, get_proc, get_elem, get_sema, alloc, set_threads, set_procs, set_elems, set_semas, get, modify, lift, fail,
    mbind, M_bind, mret, M_ret;
  repeat (psimpl;
    first [ rewrite lookup_insert_eq
          | match goal with H : ?m !! ?k = Some _ |- context [?m !! ?k] => rewrite H end ]); psimpl.
Ltac pups := rewrite ?upd_insert, ?upd_delete, ?upd_upd.

Lemma start_no_pcb_run s t i c v :
  elems s !! i_self i = Some c → semas s !! i_editing i = Some v →
  start_done t i false s = Ok ((), Sys (upd t None (threads s)) (procs s)
    (upd (i_self i) (Some (ChildProcess (pid c) (exited_code c) (c_editing c) (waiting c) (child c) false)) (elems s))
    (upd (i_editing i) (Some (v + 1)) (semas s)) (next s)).
Proof. intros Hc Hv. prun. by pups. Qed.

Lemma start_ok_run s t i c v f :
  threads s !! t = Some (Thread 0 f) → elems s !! i_self i = Some c → semas s !! i_editing i = Some v →
  start_process t i true true s = Ok ((), Sys (upd t (Some (Thread (next s) (Run 0))) (threads s))
    (upd (next s) (Some (Process (i_parent i) (i_self i) [] (i_editing i) 0)) (procs s))
    (upd (i_self i) (Some (ChildProcess t (exited_code c) (c_editing c) (waiting c) (next s) false)) (elems s))
    (upd (i_editing i) (Some (v + 1)) (semas s)) (next s + 1)).
Proof. intros Ht Hc Hv. prun. by pups. Qed.

Lemma start_load_fails_run s t i c f :
  threads s !! t = Some (Thread 0 f) → elems s !! i_self i = Some c → exited c = false →
  start_process t i true false s = Ok ((), Sys (upd t (Some (Thread 0 (StartFailed i))) (threads s))
    (upd (next s) None (procs s))
    (upd (i_self i) (Some (ChildProcess (pid c) (-1) (c_editing c) (waiting c + 1) NULL true)) (elems s))
    (semas s) (next s + 1)).
Proof. intros Ht Hc He. prun. rewrite He. prun. by pups. Qed.

Lemma fresh_proc tr s : inv tr s → procs s !! next s = None.
Proof. intros Hi. destruct (procs s !! next s) as [p|] eqn:E; [|done]. destruct (iv_procs _ _ Hi _ p E). lia. Qed.
Lemma upd_none {V} k (m : gmap Z V) : m !! k = None → upd k None m = m.
Proof. intros E. rewrite <- E. apply upd_same. Qed.

Lemma parent_exec_keep s t A0 f0 th' A p' e n E S tid :
  parent_exec s e tid → threads s !! t = Some (Thread A0 f0) → ¬ exec_frame f0 e tid → procs s !! A = None →
  parent_exec (Sys (upd t th' (threads s)) (upd A p' (procs s)) E S n) e tid.
Proof.
  intros (u & B & f & p & Hu & Hp & Hin & Hf) Ht Hne HA. exists u, B, f, p. cbn.
  rewrite !lookup_upd, (decide_False (P := u = t)), (decide_False (P := B = A)) by congruence. done.
Qed.

Lemma start_facts tr s t A i f :
  inv tr s → threads s !! t = Some (Thread A f) → f = Start i ∨ f = StartFailed i →
  A = 0 ∧ i_self i ≠ 4 ∧ t ≠ 1 ∧ owner s (Thread A f) = Some (i_self i) ∧ (∀ x tid, ¬ exec_frame f x tid) ∧
  ∃ c v, elems s !! i_self i = Some c ∧ pid c = t ∧ semas s !! i_editing i = Some v ∧ i_editing i = c_editing c ∧ phase tr c (Some (Thread A f)) v ∧
    parent_exec s (i_self i) t.
Proof.
  intros Hi Ht Hf. destruct (iv_threads _ _ Hi t _ Ht) as (_ & _ & Hok). assert (owner s (Thread A f) = Some (i_self i)) as Ho by (by destruct Hf as [-> | ->]).
  destruct (own_entry tr s t _ _ Hi Ht Ho) as (c & v & Hc & Hp & Hv & _ & Hph).
  assert (A = 0 ∧ i_self i ≠ 4 ∧ t ≠ 1) as (-> & H4 & H1) by (by destruct Hf as [-> | ->]). specialize (Hph H4).
  assert (i_editing i = c_editing c) as Ee by (destruct Hf as [-> | ->]; apply Hph). do 4 (split; [done|]). split.
  { intros x tid [E|E]; destruct Hf; congruence. }
  exists c, v. rewrite Ee. do 5 (split; [done|]). rewrite <- Hp. apply (iv_exec _ _ Hi _ c Hc H4). rewrite Hp, Ht. by destruct Hf as [-> | ->].
Qed.

Lemma inv_start tr tr' s t A i a b :
  inv tr s → tr ⊆ tr' → threads s !! t = Some (Thread A (Start i)) → ∃ s', start_process t i a b s = Ok ((), s') ∧ inv tr' s'.
Proof.
  intros Hi Htr Ht. destruct (start_facts tr s t A i _ Hi Ht (or_introl eq_refl)) as (-> & H4 & H1 & Ho & Hne & c & v & Hc & Hp & Hv & Ee & Hph & Hpe).
  destruct Hph as (_ & Hcode & Hwait & Hex & ->). pose proof (fresh_proc tr s Hi) as Hfr. pose proof (iv_next _ _ Hi).
  destruct a; [destruct b|].
  - eexists. split; [by apply (start_ok_run s t i c 0 (Start i))|]. rewrite Ee. set (s' := Sys _ _ _ _ _).
    apply (inv_own tr tr' s t (next s) (i_self i) (next s + 1) (Thread 0 (Start i)) c); try done; try lia; cbn; fold s'.
    + right. split; [done|lia].
    + intros x [= <-]. split; [|by left]. assert (procs s' !! next s = Some (Process (i_parent i) (i_self i) [] (c_editing c) 0)) as Hps by (cbn; by rewrite lookup_upd, decide_True).
      assert (elems s' !! i_self i = Some (ChildProcess t (exited_code c) (c_editing c) (waiting c) (next s) false)) as Hes by (cbn; by rewrite lookup_upd, decide_True).
      split; unfold owner; cbn [t_frame t_pcb]; rewrite Hps; cbn; [intros e [= <-]; eauto|]. eexists. split; [reflexivity|]. split; [done|]. split; [done|].
      intros e c1 [= <-]. intros E. cbn in E, Hes. rewrite E in Hes. by injection Hes as ->.
    + split; [lia|by left].
  - eexists. split; [by apply (start_load_fails_run s t i c (Start i))|]. rewrite <- (upd_same (i_editing i) (semas s)), Hv, Ee. set (s' := Sys _ _ _ _ _).
    apply (inv_own tr tr' s t (next s) (i_self i) (next s + 1) (Thread 0 (Start i)) c); try done; try lia; cbn; fold s'.
    + right. split; [done|lia].
    + intros x [= <-]. split; [|by right]. split; [|done]. intros e [= <-]. cbn. rewrite lookup_upd, decide_True by done. eauto.
    + intros _. by rewrite Hwait.
    + intros _ _. by eapply parent_exec_keep.
  - eexists. split; [by apply (start_no_pcb_run s t i c 0)|]. rewrite Ee, <- (upd_none (next s) (procs s) Hfr). set (s' := Sys _ _ _ _ _).
    apply (inv_own tr tr' s t (next s) (i_self i) (next s) (Thread 0 (Start i)) c); try done; try lia; cbn; fold s'.
    + right. split; [done|lia].
    + intros _. by right; left.
    + intros _ [? _]. lia.
Qed.

Lemma inv_start_failed tr tr' s t A i :
  inv tr s → tr ⊆ tr' → threads s !! t = Some (Thread A (StartFailed i)) → ∃ s', start_done t i false s = Ok ((), s') ∧ inv tr' s'.
Proof.
  intros Hi Htr Ht. destruct (start_facts tr s t A i _ Hi Ht (or_intror eq_refl)) as (-> & H4 & H1 & Ho & Hne & c & v & Hc & Hp & Hv & Ee & Hph & Hpe).
  destruct Hph as (_ & Hcode & Hwait & Hex & ->). pose proof (fresh_proc tr s Hi) as Hfr.
  eexists. split; [by apply (start_no_pcb_run s t i c 0)|]. rewrite Ee, <- (upd_none (next s) (procs s) Hfr). set (s' := Sys _ _ _ _ _).
  apply (inv_own tr tr' s t (next s) (i_self i) (next s) (Thread 0 (StartFailed i)) c); try done; try lia; cbn; fold s'.
  - right. split; [done|lia].
  - intros _. by right; right.
  - intros _ _. by eapply parent_exec_keep.
Qed.

(** Nothing happens. *)
Lemma inv_mono tr tr' s : inv tr s → tr ⊆ tr' → inv tr' s.
Proof.
  intros Hi Htr. assert (∀ p, kids_gone tr s p → kids_gone tr' s p) as Hk.
  { intros p H x Hx. destruct (H x Hx) as (c & v & ? & ? & ?). exists c, v. split_and!; try done. by apply (gone_mono tr). }
  destruct Hi as [H1 H2 H3 H4 H5 H6 H7 H8 H9 H10 H11 H12 H13]. constructor; try done.
  - intros u th Hu. destruct (H3 u th Hu) as (Hb & Ho & Hok). split; [done|]. split; [done|]. destruct th as [A f]. cbn in *.
    destruct f; try done; destruct Hok as (p & Hp & Hf & Hr); exists p; (split; [done|]); (split; [|done]); cbn in *; naive_solver.
  - intros e c He. destruct (H9 e c He) as (Hb & v & Hv & Hv0 & Hph). split; [done|]. exists v. split; [done|]. split; [done|]. intros H. by apply (phase_mono tr), Hph.
Qed.

(** An entry that is gone is not in the hands of a thread. *)
Lemma gone_dead tr s e c v : inv tr s → elems s !! e = Some c → e ≠ 4 → semas s !! c_editing c = Some v → gone tr c v →
  match threads s !! pid c with None | Some (Thread _ ExitChildren) => True | _ => False end.
Proof.
  intros Hi He H4 Hv Hg. destruct (iv_semas _ _ Hi e c He) as (_ & v1 & Hv1 & _ & Hph). specialize (Hph H4). assert (v1 = v) as -> by congruence.
  destruct Hg as (Hw & Hx & -> & _). destruct (threads s !! pid c) as [[B f]|] eqn:E; [|done]. destruct (iv_threads _ _ Hi _ _ E) as (_ & _ & Hok).
  destruct f; cbn in *; naive_solver lia.
Qed.

Lemma kids_gone_keep tr tr' s p e c0 v0 c' v' T Q n :
  inv tr s → tr ⊆ tr' → kids_gone tr s p → elems s !! e = Some c0 → semas s !! c_editing c0 = Some v0 → e ∉ children p ∨ ¬ gone tr c0 v0 →
  kids_gone tr' (Sys T Q (upd e c' (elems s)) (upd (c_editing c0) v' (semas s)) n) p.
Proof.
  intros Hi Htr Hk He Hv0 Hng x Hx. destruct (Hk x Hx) as (c & v & Hc & Hv & Hg). exists c, v.
  assert (x ≠ e) as Hne. { intros ->. assert (c = c0) as -> by congruence. assert (v = v0) as -> by congruence. by destruct Hng. }
  cbn. rewrite !lookup_upd, decide_False by done. rewrite decide_False; [split_and!; [done|done|by apply (gone_mono tr)]|].
  intros E. apply Hne. by apply (iv_editing _ _ Hi x e c c0).
Qed.

(** ** The end of a process *)

Lemma exit_normal_run s t A f p code :
  threads s !! t = Some (Thread A f) → procs s !! A = Some p →
  process_exit_normal t code s = Ok ((), Sys (upd t (Some (Thread A (ExitDown (editing p)))) (threads s)) (upd A (Some (set_exit_code p code)) (procs s))
    (elems s) (semas s) (next s)).
Proof. intros Ht Hp. prun. by pups. Qed.

Lemma inv_exit tr tr' s t A r code :
  inv tr s → tr ⊆ tr' → Exit t code ∈ tr' → threads s !! t = Some (Thread A (Run r)) → allowed s (Exit t code) →
  ∃ s', process_exit_normal t code s = Ok ((), s') ∧ inv tr' s'.
Proof.
  intros Hi Htr Hin Ht (_ & Hho & _ & H1 & Hkids). destruct (live_thread tr s t A _ Hi Ht (or_introl I)) as (p & Hp & HA & Ho & Hfr & H4 & Hed).
  specialize (H4 H1). destruct (own_entry tr s t _ _ Hi Ht Ho) as (c & v & Hc & Hpid & Hv & Hv0 & Hph). specialize (Hph H4). cbn in Hfr.
  assert (set_exit_code p code = Process (parent p) (self p) (children p) (editing p) code) as Ep by (unfold set_exit_code; rewrite decide_True by tauto; done).
  eexists. split; [by apply (exit_normal_run s t A (Run r) p)|]. rewrite Ep, <- (upd_same (self p) (elems s)), Hc, <- (upd_same (c_editing c) (semas s)), Hv.
  set (s' := Sys _ _ _ _ _). apply (inv_own tr tr' s t A (self p) (next s) (Thread A (Run r)) c); try done; cbn; fold s'.
  - by intros x tid [?|?].
  - left. split; [done|lia].
  - intros x [= <-]. split; [|by left]. split; unfold owner; cbn; rewrite lookup_upd, decide_True by done; cbn.
    + intros e [= <-]. rewrite lookup_upd, decide_True by done. eauto.
    + eexists. split; [reflexivity|]. cbn. split.
      * split; [done|]. split; [done|]. split; [|done]. intros x Hx. cbn in Hx. destruct (iv_children _ _ Hi A p x Hp Hx) as [Hx4 [cx Hcx]].
        destruct (iv_semas _ _ Hi x cx Hcx) as (_ & vx & Hvx & _ & Hphx). specialize (Hphx Hx4). pose proof (Hkids _ p x cx Ht Hp Hx Hcx) as Hexx.
        assert (gone tr cx vx) as Hg.
        { destruct (threads s !! pid cx) as [[B f]|] eqn:E; [|cbn in Hphx; naive_solver]. destruct (iv_threads _ _ Hi _ _ E) as (_ & _ & Hok).
          pose proof (Hho _ _ E) as Hno. destruct f; cbn in *; naive_solver. }
        exists cx, vx. unfold s'. cbn. rewrite <- Hc, <- Hv, !upd_same. split_and!; [done|done|by apply (gone_mono tr)].
      * split; [done|]. intros e c1 [= <-]. rewrite lookup_upd, decide_True by done. intros [= <-]. by apply Hed.
  - split; [lia|]. right. by exists p.
Qed.

Lemma exit_down_run s t A f p a c v :
  threads s !! t = Some (Thread A f) → procs s !! A = Some p → elems s !! self p = Some c → semas s !! a = Some v → v ≠ 0 → exited c = false →
  exit_down t a s = Ok ((), Sys (upd t (Some (Thread A (ExitUp a))) (threads s)) (procs s)
    (upd (self p) (Some (ChildProcess (pid c) (exit_code p) (c_editing c) (waiting c + 1) NULL true)) (elems s)) (upd a (Some (v - 1)) (semas s)) (next s)).
Proof. intros Ht Hp Hc Hv Hv0 He. prun. rewrite decide_False by done. prun. rewrite He. prun. by pups. Qed.

Lemma exit_up_run s t A f a v :
  threads s !! t = Some (Thread A f) → semas s !! a = Some v →
  exit_up t a s = Ok ((), Sys (upd t (Some (Thread A ExitChildren)) (threads s)) (procs s) (elems s) (upd a (Some (v + 1)) (semas s)) (next s)).
Proof. intros Ht Hv. prun. by pups. Qed.

Lemma inv_exit_down tr tr' s t A a :
  inv tr s → tr ⊆ tr' → threads s !! t = Some (Thread A (ExitDown a)) → ∃ s', exit_down t a s = Ok ((), s') ∧ inv tr' s'.
Proof.
  intros Hi Htr Ht. destruct (live_thread tr s t A _ Hi Ht (or_intror (or_introl (ex_intro _ _ eq_refl)))) as (p & Hp & HA & Ho & Hfr & H4 & Hed).
  destruct Hfr as (-> & H1 & Hkids & Hin). specialize (H4 H1). destruct (own_entry tr s t _ _ Hi Ht Ho) as (c & v & Hc & Hpid & Hv & Hv0 & Hph).
  specialize (Hph H4). destruct Hph as (Hcode & Hwait & Hex & ->). pose proof (Hed c Hc) as Ee. rewrite <- Ee in *.
  eexists. split; [by apply (exit_down_run s t A (ExitDown (c_editing c)) p (c_editing c) c 1)|]. rewrite <- (upd_same A (procs s)), Hp.
  set (s' := Sys _ _ _ _ _). apply (inv_own tr tr' s t A (self p) (next s) (Thread A (ExitDown (c_editing c))) c); try done; cbn; fold s'.
  - by intros x tid [?|?].
  - left. split; [done|lia].
  - intros x [= <-]. split; [|by left]. split; unfold owner; cbn; rewrite lookup_upd, decide_True by done; cbn.
    + intros e [= <-]. rewrite lookup_upd, decide_True by done. eauto.
    + exists p. split; [done|]. split; [|split; [done|intros e c1 [= <-]; rewrite lookup_upd, decide_True by done; by intros [= <-]]]. split; [done|].
      apply (kids_gone_keep tr tr' s p (self p) c 1); try done. right. intros (_ & ? & _). congruence.
  - split; [lia|]. right. by exists p.
  - intros _. rewrite Hwait, Hpid. split_and!; try done. by apply Htr.
Qed.

Lemma inv_exit_up tr tr' s t A a :
  inv tr s → tr ⊆ tr' → threads s !! t = Some (Thread A (ExitUp a)) → ∃ s', exit_up t a s = Ok ((), s') ∧ inv tr' s'.
Proof.
  intros Hi Htr Ht. destruct (live_thread tr s t A _ Hi Ht (or_intror (or_intror (ex_intro _ _ eq_refl)))) as (p & Hp & HA & Ho & Hfr & H4 & Hed).
  destruct (own_entry tr s t _ _ Hi Ht Ho) as (c & v & Hc & Hpid & Hv & Hv0 & Hph).
  destruct Hfr as [H1 Hfr]. specialize (H4 H1). specialize (Hph H4). destruct Hph as (-> & Hwait & Hex & -> & Hin).
  eexists. split; [by apply (exit_up_run s t A (ExitUp (c_editing c)) (c_editing c) 0)|]. rewrite <- (upd_same A (procs s)), Hp, <- (upd_same (self p) (elems s)), Hc.
  set (s' := Sys _ _ _ _ _). apply (inv_own tr tr' s t A (self p) (next s) (Thread A (ExitUp (c_editing c))) c); try done; cbn; fold s'.
  - by intros x tid [?|?].
  - left. split; [done|lia].
  - intros x [= <-]. split; [|by left]. split; [done|]. cbn. exists p. rewrite lookup_upd, decide_True by done. split; [done|]. split; [|done].
    apply (kids_gone_keep tr tr' s p (self p) c 0); try done. right. intros (_ & _ & ? & _). lia.
  - split; [lia|]. right. by exists p.
  - intros _. split_and!; try done. by apply Htr.
Qed.

Lemma exit_last_run s t A f p :
  threads s !! t = Some (Thread A f) → procs s !! A = Some p → children p = [] →
  exit_children t s = Ok ((), Sys (upd t None (threads s)) (upd A None (procs s)) (elems s) (semas s) (next s)).
Proof. intros Ht Hp Hc. prun. rewrite Hc. prun. by pups. Qed.

Lemma exit_child_run s t A f p e l c v :
  threads s !! t = Some (Thread A f) → procs s !! A = Some p → children p = e :: l → elems s !! e = Some c → waiting c ≠ 0 → exited c = true →
  semas s !! c_editing c = Some v →
  exit_children t s = Ok ((), Sys (threads s) (upd A (Some (set_children p l)) (procs s)) (upd e None (elems s)) (upd (c_editing c) None (semas s)) (next s)).
Proof. intros Ht Hp Hl Hc Hw He Hv. prun. rewrite Hl. prun. rewrite decide_False by done. prun. rewrite He. prun. by pups. Qed.

Lemma inv_exit_children tr tr' s t A :
  inv tr s → tr ⊆ tr' → threads s !! t = Some (Thread A ExitChildren) → ∃ s', exit_children t s = Ok ((), s') ∧ inv tr' s'.
Proof.
  intros Hi Htr Ht. destruct (iv_threads _ _ Hi t _ Ht) as (_ & _ & p & Hp & Hkids & Hself & _). cbn in Hp, Hkids.
  destruct (iv_procs _ _ Hi A p Hp) as [HA Hnd]. destruct (children p) as [|e l] eqn:El.
  - eexists. split; [by apply (exit_last_run s t A ExitChildren p)|]. destruct (iv_main _ _ Hi) as [c Hc]. destruct (iv_semas _ _ Hi 4 c Hc) as (_ & v & Hv & Hv0 & _).
    rewrite <- (upd_same 4 (elems s)), Hc, <- (upd_same (c_editing c) (semas s)), Hv.
    apply (inv_local tr tr' s t A 4 (next s) (Thread A ExitChildren) c); [done|done|]. constructor; cbv zeta; try done.
    + left. split; [done|lia].
    + intros q x Hq. assert (q = p) as -> by congruence. rewrite El. by intros ?%not_elem_of_nil.
    + intros c1 [= <-]. split_and!; try done. by exists v.
    + intros x c1 v1 _ _ _ _ Hg. cbn in Hg. split; [left; by apply (gone_mono tr)|]. intros [_ ?]. destruct Hg as (_ & ? & _). congruence.
    + intros x c1 _ _ [?|?]; done.
    + intros B q v1 _ _ _ Hv1 _. split; congruence.
  - destruct (Hkids e) as (c & v & Hc & Hv & Hg); [rewrite El; left|]. pose proof Hg as (Hw & Hx & _). assert (e ∈ children p) as Hin by (rewrite El; left).
    destruct (iv_children _ _ Hi A p e Hp Hin) as [H4 _]. apply NoDup_cons in Hnd as [Hnl Hnd].
    eexists. split; [eapply (exit_child_run s t A ExitChildren p e l c v); try done; lia|]. rewrite <- (upd_same t (threads s)), Ht. set (s' := Sys _ _ _ _ _).
    apply (inv_free tr tr' s t A e ExitChildren ExitChildren c p (set_children p l)); try done; cbn; fold s'.
    + by eapply gone_dead.
    + by right.
    + split; [done|]. cbn. exists (set_children p l). rewrite lookup_upd, decide_True by done. split; [done|]. split; [|done].
      apply (kids_gone_keep tr tr' s (set_children p l) e c v); try done; [|by left]. intros x Hxl. apply Hkids. rewrite El. by right.
    + intros x. rewrite El, elem_of_cons. split; [intros Hxl; split; [by right|by intros ->]|tauto].
Qed.

(** ** Waiting *)

Lemma wait_down_run s t A f p e c v :
  threads s !! t = Some (Thread A f) → procs s !! A = Some p → elems s !! e = Some c → waiting c ≠ 0 → exited c = true → semas s !! c_editing c = Some v →
  process_wait_down t e s = Ok ((), Sys (upd t (Some (Thread A (Run (exited_code c)))) (threads s))
    (upd A (Some (set_children p (filter (λ x, x ≠ e) (children p)))) (procs s)) (upd e None (elems s)) (upd (c_editing c) None (semas s)) (next s)).
Proof. intros Ht Hp Hc Hw He Hv. prun. rewrite decide_False by done. prun. rewrite He. prun. by pups. Qed.

(** The parent of a child that is starting is in [handler_exec]. *)
Lemma starting_parent tr s t A f p e c :
  inv tr s → threads s !! t = Some (Thread A f) → procs s !! A = Some p → e ∈ children p → elems s !! e = Some c →
  starting c (threads s !! pid c) → exec_frame f e (pid c).
Proof.
  intros Hi Ht Hp Hin Hc Hst. destruct (iv_children _ _ Hi A p e Hp Hin) as [H4 _].
  destruct (iv_exec _ _ Hi e c Hc H4 Hst) as (u & B & g & q & Hu & Hq & Hinq & Hg). assert (B = A) as -> by (by apply (iv_parent _ _ Hi B A q p e)).
  destruct (iv_procs _ _ Hi A p Hp). assert (u = t) as -> by (apply (iv_pcb _ _ Hi u t A g f); [done|done|lia]). congruence.
Qed.

(** No hand-over is going on. *)
Definition calm (s : sys) : Prop := ∀ u th, threads s !! u = Some th → handing_over (t_frame th) = false.

Lemma wait_gone tr s t A e c p : inv tr s → calm s → threads s !! t = Some (Thread A (WaitDown e)) → procs s !! A = Some p → e ∈ children p →
  elems s !! e = Some c → waiting c ≠ 0 → ∃ v, semas s !! c_editing c = Some v ∧ gone tr c v.
Proof.
  intros Hi Hcalm Ht Hp Hin Hc Hw. destruct (iv_children _ _ Hi A p e Hp Hin) as [H4 _]. destruct (iv_semas _ _ Hi e c Hc) as (_ & v & Hv & _ & Hph).
  specialize (Hph H4). exists v. split; [done|].
  assert (¬ starting c (threads s !! pid c)) as Hns. { intros Hst. by destruct (starting_parent tr s t A _ p e c Hi Ht Hp Hin Hc Hst). }
  destruct (threads s !! pid c) as [[B f]|] eqn:E; [|cbn in *; naive_solver]. destruct (iv_threads _ _ Hi _ _ E) as (_ & _ & Hok).
  pose proof (Hcalm _ _ E) as Hno. destruct f; cbn in *; naive_solver.
Qed.

Lemma kids_filter e (l : list Z) : (∀ x : Z, x ∈ filter (λ x, x ≠ e) l ↔ x ∈ l ∧ x ≠ e).
Proof. intros x. rewrite list_elem_of_filter. tauto. Qed.

(** The thread after the entry of a child was freed. *)
Lemma freed_thread_ok tr tr' s t A f p p1 e c r V :
  inv tr s → threads s !! t = Some (Thread A f) → live f → procs s !! A = Some p → elems s !! e = Some c → e ∈ children p →
  match threads s !! pid c with None | Some (Thread _ ExitChildren) => True | _ => False end →
  p1 = set_children p (filter (λ x, x ≠ e) (children p)) →
  thread_ok tr' (Sys (upd t (Some (Thread A (Run r))) (threads s)) (upd A (Some p1) (procs s)) (upd e None (elems s)) V (next s)) t (Thread A (Run r)).
Proof.
  intros Hi Ht Hf Hp Hc Hin Hd ->. destruct (live_thread tr s t A f Hi Ht (or_introl Hf)) as (p0 & Hp0 & _ & Ho & Hfr & H4 & Hed). assert (p0 = p) as -> by congruence.
  destruct (own_entry tr s t _ _ Hi Ht Ho) as (c1 & v1 & Hc1 & Hpid & _). assert (self p ≠ e) as Hne.
  { intros E. rewrite E in Hc1. assert (c1 = c) as -> by congruence. rewrite Hpid, Ht in Hd. by destruct f. }
  split; unfold owner; cbn; rewrite lookup_upd, decide_True by done; cbn.
  - intros o [= <-]. rewrite lookup_upd, decide_False by done. eauto.
  - eexists. split; [reflexivity|]. cbn. split; [destruct f; cbn in *; tauto|]. split; [done|]. intros o c2 [= <-]. rewrite lookup_upd, decide_False by done. apply Hed.
Qed.

Lemma inv_wait_down tr tr' s t A e :
  inv tr s → tr ⊆ tr' → calm s → threads s !! t = Some (Thread A (WaitDown e)) →
  ∃ s', process_wait_down t e s = Ok ((), s') ∧ inv tr' s' ∧
    (s' = s ∨ ∃ c, elems s !! e = Some c ∧ Exit (pid c) (exited_code c) ∈ tr ∧ threads s' !! t = Some (Thread A (Run (exited_code c)))).
Proof.
  intros Hi Htr Hcalm Ht. destruct (live_thread tr s t A _ Hi Ht (or_introl I)) as (p & Hp & HA & Ho & [_ Hin] & H4 & Hed).
  destruct (iv_children _ _ Hi A p e Hp Hin) as [H4e [c Hc]]. destruct (decide (waiting c = 0)) as [Hw|Hw].
  { exists s. split; [|split; [by apply (inv_mono tr)|by left]]. prun. by rewrite decide_True. }
  destruct (wait_gone tr s t A e c p Hi Hcalm Ht Hp Hin Hc Hw) as (v & Hv & Hg). pose proof Hg as (_ & Hex & _ & Hin').
  pose proof (gone_dead tr s e c v Hi Hc H4e Hv Hg) as Hd.
  eexists. split; [by apply (wait_down_run s t A (WaitDown e) p e c v)|]. split; [|right; exists c; cbn; by rewrite lookup_upd, decide_True].
  apply (inv_free tr tr' s t A e (WaitDown e) (Run (exited_code c)) c p); try done.
  - left. split_and!; done.
  - by apply (freed_thread_ok tr tr' s t A (WaitDown e) p _ e c).
  - cbn. apply NoDup_filter. by apply (iv_procs _ _ Hi A p).
  - apply kids_filter.
Qed.

(** The search of an entry. *)
Lemma find_child_run s r l : (∀ e, e ∈ l → is_Some (elems s !! e)) →
  ∃ o, find_child r l s = Ok (o, s) ∧
    match o with
    | Some e => e ∈ l ∧ ∃ c, elems s !! e = Some c ∧ pid c = r
    | None => ∀ e c, e ∈ l → elems s !! e = Some c → pid c ≠ r
    end.
Proof.
  induction l as [|e l IH]; intros Hl; cbn [find_child].
  { exists None. split; [done|]. by intros e c ?%not_elem_of_nil. }
  destruct (Hl e) as [c Hc]; [left|]. destruct IH as (o & Ro & Ho); [intros x Hx; apply Hl; by right|].
  rewrite (bind_Ok _ _ _ c s) by (unfold get_elem, get, mbind, M_bind, lift; by rewrite Hc). destruct (decide (pid c = r)) as [E|E].
  - exists (Some e). split; [done|]. split; [left|]. eauto.
  - exists o. split; [done|]. destruct o as [x|]; [destruct Ho as [? ?]; split; [by right|done]|].
    intros x cx [->|Hx]%elem_of_cons Hcx; [congruence|by apply (Ho x)].
Qed.

Lemma set_frame_run s t A f g : threads s !! t = Some (Thread A f) →
  set_frame t g s = Ok ((), Sys (upd t (Some (Thread A g)) (threads s)) (procs s) (elems s) (semas s) (next s)).
Proof. intros Ht. prun. by pups. Qed.

Lemma cur_pcb_run s t A f p : threads s !! t = Some (Thread A f) → procs s !! A = Some p → cur_pcb t s = Ok ((A, p), s).
Proof. intros Ht Hp. by prun. Qed.

Lemma inv_wait tr tr' s t A r pid0 :
  inv tr s → tr ⊆ tr' → threads s !! t = Some (Thread A (Run r)) → ∃ s', process_wait t pid0 s = Ok ((), s') ∧ inv tr' s'.
Proof.
  intros Hi Htr Ht. destruct (live_thread tr s t A _ Hi Ht (or_introl I)) as (p & Hp & HA & Ho & Hfr & H4 & Hed). cbn in Hfr.
  destruct (find_child_run s pid0 (children p)) as (o & Ro & Hfind); [intros e He; by apply (iv_children _ _ Hi A p e Hp He)|].
  unfold process_wait. rewrite (bind_Ok _ _ _ _ _ (cur_pcb_run s t A _ p Ht Hp)), (bind_Ok _ _ _ _ _ Ro).
  destruct o as [e|]; (eexists; split; [by apply (set_frame_run s t A (Run r))|]); apply (inv_frame tr tr' s t A (Run r) _ p); try done;
    try (by intros x c _ _ [?|?]). split; [done|apply Hfind].
Qed.

Lemma inv_exec_search tr tr' s t A r :
  inv tr s → tr ⊆ tr' → threads s !! t = Some (Thread A (ExecSearch r)) → ∃ s', handler_exec_search t r s = Ok ((), s') ∧ inv tr' s'.
Proof.
  intros Hi Htr Ht. destruct (live_thread tr s t A _ Hi Ht (or_introl I)) as (p & Hp & HA & Ho & [Hfr Hr] & H4 & Hed).
  destruct (find_child_run s r (children p)) as (o & Ro & Hfind); [intros e He; by apply (iv_children _ _ Hi A p e Hp He)|].
  unfold handler_exec_search. rewrite (bind_Ok _ _ _ _ _ (cur_pcb_run s t A _ p Ht Hp)), (bind_Ok _ _ _ _ _ Ro).
  destruct o as [e|]; (eexists; split; [by apply (set_frame_run s t A (ExecSearch r))|]); apply (inv_frame tr tr' s t A (ExecSearch r) _ p); try done.
  - split; [done|apply Hfind].
  - intros x c Hc Hin [[= ->]|?] _; [|done]. destruct Hfind as (_ & ce & Hce & Ep). right. f_equal. apply (iv_pid _ _ Hi e x ce c); congruence.
  - intros x c Hc Hin [[= ->]|?] _; [|done]. by destruct (Hfind x c Hin Hc).
Qed.

(** The end of [handler_exec]. *)
Lemma exec_failed_run s t A f p e r c v :
  threads s !! t = Some (Thread A f) → procs s !! A = Some p → elems s !! e = Some c → semas s !! c_editing c = Some v → v ≠ 0 →
  exited c = false → exited_code c = -1 →
  handler_exec_down t e r s = Ok ((), Sys (upd t (Some (Thread A (Run (-1)))) (threads s))
    (upd A (Some (set_children p (filter (λ x, x ≠ e) (children p)))) (procs s)) (upd e None (elems s)) (upd (c_editing c) (Some (v - 1)) (semas s)) (next s)).
Proof. intros Ht Hp Hc Hv Hv0 He Hcode. prun. rewrite decide_False by done. prun. rewrite He, Hcode. rewrite bool_decide_true by done. cbn [negb andb]. prun. by pups. Qed.

Lemma exec_done_run s t A f e r c v :
  threads s !! t = Some (Thread A f) → elems s !! e = Some c → semas s !! c_editing c = Some v → v ≠ 0 → ¬ (exited c = false ∧ exited_code c = -1) →
  handler_exec_down t e r s = Ok ((), Sys (upd t (Some (Thread A (Run r))) (threads s)) (procs s) (elems s) (semas s) (next s)).
Proof.
  intros Ht Hc Hv Hv0 Hn. prun. rewrite decide_False by done. prun.
  replace (negb (exited c) && bool_decide (exited_code c = -1)) with false.
  - prun. pups. replace (v - 1 + 1) with v by lia. by rewrite <- Hv, upd_same.
  - destruct (exited c); [done|]. cbn. rewrite bool_decide_false; [done|]. tauto.
Qed.

Lemma inv_exec_down tr tr' s t A e r :
  inv tr s → tr ⊆ tr' → threads s !! t = Some (Thread A (ExecDown e r)) → ∃ s', handler_exec_down t e r s = Ok ((), s') ∧ inv tr' s'.
Proof.
  intros Hi Htr Ht. destruct (live_thread tr s t A _ Hi Ht (or_introl I)) as (p & Hp & HA & Ho & [Hfr Hin] & H4 & Hed).
  destruct (iv_children _ _ Hi A p e Hp Hin) as [H4e [c Hc]]. destruct (iv_semas _ _ Hi e c Hc) as (_ & v & Hv & _ & Hph). specialize (Hph H4e).
  destruct (decide (v = 0)) as [->|Hv0].
  { exists s. split; [|by apply (inv_mono tr)]. prun. by rewrite decide_True. }
  destruct (decide (exited c = false ∧ exited_code c = -1)) as [[He Hcode]|Hn].
  - assert (threads s !! pid c = None) as Hd. { destruct (threads s !! pid c) as [[B []]|]; unfold phase, gone in Hph; (done || destruct_and?; congruence). }
    eexists. split; [by apply (exec_failed_run s t A (ExecDown e r) p e r c v)|].
    apply (inv_free tr tr' s t A e (ExecDown e r) (Run (-1)) c p); try done; rewrite ?Hd; try done.
    + left. split_and!; try done. naive_solver.
    + apply (freed_thread_ok tr tr' s t A (ExecDown e r) p _ e c); try done. by rewrite Hd.
    + cbn. apply NoDup_filter. by apply (iv_procs _ _ Hi A p).
    + apply kids_filter.
  - eexists. split; [by apply (exec_done_run s t A (ExecDown e r) e r c v)|]. apply (inv_frame tr tr' s t A (ExecDown e r) _ p); try done.
    intros x cx Hcx _ [?|[= -> ->]] Hst; [done|]. exfalso. assert (cx = c) as -> by congruence.
    destruct (threads s !! pid c) as [[B []]|]; cbn in *; try done; destruct_and?; (done || tauto).
Qed.

(** ** A new child *)

Section Create.
Context (tr tr' : list event) (s : sys) (t A r tid n' : Z) (p : process) (new : option thread) (f1 : frame).
Let e : Z := next s.
Let a : Z := next s + 1.
Let p1 : process := set_children p (e :: children p).
Let s' : sys := Sys (upd t (Some (Thread A f1)) (upd tid new (threads s))) (upd A (Some p1) (procs s))
  (upd e (Some (ChildProcess tid (-2) a 0 NULL false)) (elems s)) (upd a (Some 0) (semas s)) n'.
Hypothesis Hi : inv tr s.
Hypothesis Htr : tr ⊆ tr'.
Hypothesis Ht : threads s !! t = Some (Thread A (Run r)).
Hypothesis Hp : procs s !! A = Some p.
Hypothesis Hnew : (tid = next s + 2 ∧ new = Some (Thread 0 (Start (InitPcb A e a))) ∧ f1 = ExecSearch tid ∧ n' = next s + 3) ∨
  (tid = -1 ∧ new = None ∧ f1 = Run (-1) ∧ n' = next s + 2).

Lemma create_bounds : next s < n' ∧ a < n' ∧ (tid = -1 ∨ next s < tid < n') ∧ tid ≠ t ∧ tid ≠ 0.
Proof. destruct (iv_threads _ _ Hi t _ Ht) as [Hb _]. pose proof (iv_next _ _ Hi). unfold a. destruct Hnew as [(-> & _ & _ & ->)|(-> & _ & _ & ->)]; lia. Qed.

Lemma create_elem x c : elems s !! x = Some c → elems s' !! x = Some c ∧ x ≠ e ∧ semas s' !! c_editing c = semas s !! c_editing c.
Proof.
  intros Hx. destruct (iv_elems _ _ Hi x c Hx) as (Hb & Hpid & _). destruct (iv_semas _ _ Hi x c Hx) as [Hs _].
  assert (x ≠ e) as Hne by (unfold e; lia). assert (c_editing c ≠ a) as Hna by (unfold a; lia). cbn. by rewrite !lookup_upd, !decide_False.
Qed.
Lemma create_elem_inv x c : elems s' !! x = Some c → x ≠ e ∧ elems s !! x = Some c ∨ x = e ∧ c = ChildProcess tid (-2) a 0 NULL false.
Proof. cbn. rewrite lookup_upd. case_decide; [intros [= <-]|]; tauto. Qed.
Lemma create_proc_inv B q : procs s' !! B = Some q → B ≠ A ∧ procs s !! B = Some q ∨ B = A ∧ q = p1.
Proof. cbn. rewrite lookup_upd. case_decide; [intros [= <-]|]; tauto. Qed.

Lemma create_thread_same x c : elems s !! x = Some c → threads s' !! pid c = if decide (pid c = t) then Some (Thread A f1) else threads s !! pid c.
Proof.
  intros Hx. destruct (iv_elems _ _ Hi x c Hx) as (_ & Hpid & _). cbn. rewrite !lookup_upd. case_decide; [done|]. case_decide as E; [|done].
  destruct Hnew as [(-> & _)|(-> & -> & _)]; [lia|]. destruct (threads s !! pid c) as [th|] eqn:E1; [|done]. destruct (iv_threads _ _ Hi _ _ E1). lia.
Qed.

(** The other threads. *)
Lemma create_thread u th : u ≠ t → u ≠ tid → threads s !! u = Some th → thread_ok tr' s' u th.
Proof.
  intros Hut Huv Hu. destruct (iv_threads _ _ Hi u th Hu) as (_ & Hown & Hok). destruct th as [B f].
  assert (∀ q, procs s !! B = Some q → procs s' !! B = procs s !! B) as Hpr.
  { intros q Hq. cbn. rewrite lookup_upd, decide_False; [done|]. intros ->. destruct (iv_procs _ _ Hi A q Hq). apply Hut. apply (iv_pcb _ _ Hi u t A f (Run r)); [done|done|lia]. }
  assert (owner s' (Thread B f) = owner s (Thread B f)) as Eo.
  { unfold owner. cbn [t_frame t_pcb] in *. destruct f; try done; destruct Hok as (q & Hq & _); by rewrite (Hpr q Hq). }
  assert (∀ q, kids_gone tr s q → kids_gone tr' s' q) as Hk.
  { intros q Hq x Hx. destruct (Hq x Hx) as (c & v & Hc & Hv & Hg). exists c, v. destruct (create_elem x c Hc) as (? & _ & ->).
    split_and!; [done|done|by apply (gone_mono tr)]. }
  split.
  - rewrite Eo. intros o Ho. destruct (Hown o Ho) as (c & Hc & ?). exists c. split; [by apply create_elem|done].
  - assert (∀ q, (∀ o c, owner s (Thread B f) = Some o → elems s !! o = Some c → c_editing c = editing q) →
      ∀ o c, owner s' (Thread B f) = Some o → elems s' !! o = Some c → c_editing c = editing q) as Hed.
    { intros q Hq o c Ho Hc. rewrite Eo in Ho. destruct (Hown o Ho) as (c1 & Hc1 & _). destruct (create_elem o c1 Hc1) as (Hc2 & _). assert (c = c1) as -> by congruence. eauto. }
    cbn [t_frame t_pcb] in *. destruct f; try done; destruct Hok as (q & Hq & Hf & Hself & He); exists q; rewrite (Hpr q Hq);
      (split; [done|]); (split; [|split; [done|by apply (Hed q)]]); cbn in *; naive_solver.
Qed.

Lemma create_parent : thread_ok tr' s' t (Thread A f1).
Proof.
  destruct (live_thread tr s t A _ Hi Ht (or_introl I)) as (p0 & Hp0 & _ & Ho & Hfr & Hself & Hed). assert (p0 = p) as -> by congruence.
  destruct (own_entry tr s t _ _ Hi Ht Ho) as (c & v & Hc & Hpid & _). destruct (create_elem (self p) c Hc) as (Hc' & _ & _). cbn in Hfr.
  assert (procs s' !! A = Some p1) as Hp1 by (cbn; by rewrite lookup_upd, decide_True).
  assert (owner s' (Thread A f1) = Some (self p)) as Eo by (unfold owner; cbn [t_frame t_pcb]; destruct Hnew as [(_ & _ & -> & _)|(_ & _ & -> & _)]; by rewrite Hp1).
  split; [rewrite Eo; intros o [= <-]; eauto|]. cbn [t_frame t_pcb].
  assert (∃ q, procs s' !! A = Some q ∧ frame_ok tr' s' t q f1 ∧ (t ≠ 1 → self q ≠ 4) ∧ ∀ o c0, owner s' (Thread A f1) = Some o → elems s' !! o = Some c0 → c_editing c0 = editing q) as Hg.
  { exists p1. split; [done|]. split; [destruct create_bounds as (_ & _ & ? & _); destruct Hnew as [(? & _ & -> & _)|(_ & _ & -> & _)]; cbn; [split; [done|]; pose proof (iv_next _ _ Hi); lia|done]|].
    split; [done|]. rewrite Eo. intros o c0 [= <-] Hc0. assert (c0 = c) as -> by congruence. by apply Hed. }
  by destruct Hnew as [(_ & _ & -> & _)|(_ & _ & -> & _)].
Qed.

Lemma create_children x q B : procs s !! B = Some q → x ∈ children q → x ≠ e.
Proof. intros Hq Hx. destruct (iv_children _ _ Hi B q x Hq Hx) as [_ [c Hc]]. by destruct (create_elem x c Hc) as (_ & ? & _). Qed.

Lemma inv_create : inv tr' s'.
Proof.
  destruct create_bounds as (Hn & Ha & Htid & Htt & Ht0). pose proof (iv_next _ _ Hi) as H4. destruct (iv_procs _ _ Hi A p Hp) as [HA Hnd].
  assert (threads s !! tid = None) as Htn.
  { destruct (threads s !! tid) as [th|] eqn:E; [|done]. destruct (iv_threads _ _ Hi _ _ E). lia. }
  constructor.
  - cbn. lia.
  - destruct (iv_main _ _ Hi) as [c Hc]. exists c. by apply create_elem.
  - intros u th Hu. cbn in Hu. rewrite !lookup_upd in Hu. change (next s') with n'. case_decide as E1.
    { subst u. injection Hu as <-. destruct (iv_threads _ _ Hi t _ Ht). split; [lia|apply create_parent]. }
    case_decide as E2; [|destruct (iv_threads _ _ Hi u _ Hu); split; [lia|by apply create_thread]]. subst u.
    destruct Hnew as [(-> & -> & _)|(_ & -> & _)]; [|done]. injection Hu as <-. split; [lia|]. split; cbn; [|unfold e; lia].
    intros o [= <-]. rewrite lookup_upd, decide_True by done. eauto.
  - intros u w B f g Hu Hw HB. cbn in Hu, Hw. rewrite !lookup_upd in Hu, Hw.
    assert (∀ f g : frame, new = Some (Thread B f) → u = w) as Hz by (intros ? ? E; destruct Hnew as [(_ & En & _)|(_ & En & _)]; congruence).
    destruct (decide (u = t)) as [->|], (decide (w = t)) as [->|]; [done|..].
    + injection Hu as <- <-. destruct (decide (w = tid)); [eauto|]. by apply (iv_pcb _ _ Hi t w A (Run r) g).
    + injection Hw as <- <-. destruct (decide (u = tid)); [eauto|]. by apply (iv_pcb _ _ Hi u t A f (Run r)).
    + destruct (decide (u = tid)), (decide (w = tid)); eauto. by apply (iv_pcb _ _ Hi u w B f g).
  - intros B q [[HB Hq]|[-> ->]]%create_proc_inv; change (next s') with n'; [destruct (iv_procs _ _ Hi B q Hq); split; [lia|done]|]. split; [lia|].
    apply NoDup_cons. split; [|done]. intros Hx. by apply (create_children e p A Hp Hx).
  - intros B q x HBq Hx. assert (x = e ∨ ∃ C q', procs s !! C = Some q' ∧ x ∈ children q') as [->|(C & q' & Hq' & Hx')].
    { apply create_proc_inv in HBq as [[HB Hq]|[-> ->]]; [eauto|]. cbn in Hx. apply elem_of_cons in Hx as [->|Hx]; [by left|eauto]. }
    + split; [unfold e; lia|]. cbn. rewrite lookup_upd, decide_True by done. eauto.
    + destruct (iv_children _ _ Hi C q' x Hq' Hx') as [? [c Hc]]. split; [done|]. exists c. by apply create_elem.
  - intros B C q q' x HB HC Hq Hq'. assert (∀ B q, procs s' !! B = Some q → x ∈ children q → x = e ∧ B = A ∨ ∃ q0, procs s !! B = Some q0 ∧ x ∈ children q0) as Hc.
    { clear B C q q' HB HC Hq Hq'. intros B q [[HB Hq]|[-> ->]]%create_proc_inv Hx; [eauto|]. cbn in Hx. apply elem_of_cons in Hx as [->|Hx]; eauto. }
    destruct (Hc B q HB Hq) as [[-> ->]|(q0 & Hq0 & Hx0)], (Hc C q' HC Hq') as [[Ex ->]|(q1 & Hq1 & Hx1)]; [done|..].
    + by destruct (create_children e q1 C Hq1 Hx1).
    + by destruct (create_children x q0 B Hq0 Hx0).
    + by apply (iv_parent _ _ Hi B C q0 q1 x).
  - intros x c [[Hx Hc]|[-> ->]]%create_elem_inv; cbn; [destruct (iv_elems _ _ Hi x c Hc); lia|]. unfold e. lia.
  - intros x c [[Hx Hc]|[-> ->]]%create_elem_inv; change (next s') with n'.
    + destruct (iv_semas _ _ Hi x c Hc) as (? & v & Hv & Hv0 & Hph). split; [lia|]. exists v. destruct (create_elem x c Hc) as (_ & _ & ->).
      split; [done|]. split; [done|]. intros Hx4. specialize (Hph Hx4). rewrite (create_thread_same x c Hc). case_decide as E; [|by apply (phase_mono tr)].
      rewrite E, Ht in Hph. destruct Hnew as [(_ & _ & -> & _)|(_ & _ & -> & _)]; exact Hph.
    + cbn. split; [unfold a; lia|]. exists 0. rewrite lookup_upd, decide_True by done. split; [done|]. split; [done|]. intros _.
      rewrite !lookup_upd, decide_False, decide_True by done. destruct Hnew as [(-> & -> & _)|(-> & -> & _)]; cbn; [done|]. by right; left.
  - intros x y c d Hc Hd Ep Hm. apply create_elem_inv in Hc as [[Hx Hc]|[-> ->]], Hd as [[Hy Hd]|[-> ->]]; cbn in *; [by apply (iv_pid _ _ Hi x y c d)|..|done].
    + destruct (iv_elems _ _ Hi x c Hc). lia.
    + destruct (iv_elems _ _ Hi y d Hd). lia.
  - intros x y c d Hc Hd Ep. apply create_elem_inv in Hc as [[Hx Hc]|[-> ->]], Hd as [[Hy Hd]|[-> ->]]; cbn in *; [by apply (iv_editing _ _ Hi x y c d)|..|done].
    + destruct (iv_semas _ _ Hi x c Hc). unfold a in Ep. lia.
    + destruct (iv_semas _ _ Hi y d Hd). unfold a in Ep. lia.
  - intros x c [[Hx Hc]|[-> ->]]%create_elem_inv Hx4.
    + destruct (iv_listed _ _ Hi x c Hc Hx4) as (B & q & Hq & Hin). destruct (decide (B = A)) as [->|].
      * exists A, p1. split; [cbn; by rewrite lookup_upd, decide_True|]. assert (q = p) as -> by congruence. by right.
      * exists B, q. split; [cbn; by rewrite lookup_upd, decide_False|done].
    + exists A, p1. split; [cbn; by rewrite lookup_upd, decide_True|left].
  - intros x c [[Hx Hc]|[-> ->]]%create_elem_inv Hx4 Hst.
    + rewrite (create_thread_same x c Hc) in Hst. case_decide as E; [by destruct Hnew as [(_ & _ & -> & _)|(_ & _ & -> & _)]|].
      destruct (iv_exec _ _ Hi x c Hc Hx4 Hst) as (u & B & f & q & Hu & Hq & Hin & Hf).
      assert (u ≠ t) as Hut by (intros ->; rewrite Ht in Hu; injection Hu as <- <-; by destruct Hf). assert (u ≠ tid) by congruence.
      assert (B ≠ A) as HBA by (intros ->; apply Hut; apply (iv_pcb _ _ Hi u t A f (Run r)); [done|done|lia]).
      exists u, B, f, q. cbn. by rewrite !lookup_upd, !decide_False.
    + cbn in *. rewrite !lookup_upd, decide_False, decide_True in Hst by done. destruct Hnew as [(_ & -> & -> & _)|(_ & -> & _)]; [|cbn in Hst; lia].
      exists t, A, (ExecSearch tid), p1. cbn. rewrite !lookup_upd, !decide_True by done. split; [done|]. split; [done|]. split; [left|by left].
Qed.
End Create.

Lemma process_execute_run s t A f p o :
  threads s !! t = Some (Thread A f) → procs s !! A = Some p → o_editing o = true → o_init o = true → t ≠ next s + 2 → threads s !! (-1) = None →
  ∃ tid new n', process_execute t o s = Ok (tid, if o_page o && o_elem o then
      Sys (upd tid new (threads s)) (upd A (Some (set_children p (next s :: children p))) (procs s))
        (upd (next s) (Some (ChildProcess tid (-2) (next s + 1) 0 NULL false)) (elems s)) (upd (next s + 1) (Some 0) (semas s)) n' else s) ∧
    (o_page o && o_elem o = false → tid = -1) ∧
    ((tid = next s + 2 ∧ new = Some (Thread 0 (Start (InitPcb A (next s) (next s + 1)))) ∧ n' = next s + 3) ∨ (tid = -1 ∧ new = None ∧ n' = next s + 2)).
Proof.
  intros Ht Hp He Hi Hne Hm. unfold process_execute. rewrite (bind_Ok _ _ _ _ _ (cur_pcb_run s t A f p Ht Hp)). destruct o as [pg el ed ii th]. cbn in *. subst ed ii.
  destruct pg; [|exists (-1), None, (next s + 2); split_and!; try done; by right]. destruct el; [|exists (-1), None, (next s + 2); split_and!; try done; by right].
  cbn [negb andb]. destruct th.
  - exists (next s + 2), (Some (Thread 0 (Start (InitPcb A (next s) (next s + 1))))), (next s + 3). split; [|split; [done|by left]]. prun. pups.
    rewrite <- (Z.add_assoc (next s) 1 1), <- (Z.add_assoc (next s) (1 + 1) 1). done.
  - exists (-1), None, (next s + 2). split; [|split; [done|by right]]. prun. pups. rewrite (upd_none (-1)) by done. by rewrite <- (Z.add_assoc (next s) 1 1).
Qed.

Lemma inv_exec tr tr' s t A r o :
  inv tr s → tr ⊆ tr' → threads s !! t = Some (Thread A (Run r)) → o_editing o = true → o_init o = true →
  ∃ s', handler_exec t o s = Ok ((), s') ∧ inv tr' s'.
Proof.
  intros Hi Htr Ht He Hini. destruct (live_thread tr s t A _ Hi Ht (or_introl I)) as (p & Hp & HA & Ho & Hfr & H4 & Hed). cbn in Hfr.
  destruct (iv_threads _ _ Hi t _ Ht) as [Hb _]. assert (threads s !! (-1) = None) as Hm.
  { destruct (threads s !! (-1)) as [th|] eqn:E; [|done]. destruct (iv_threads _ _ Hi _ _ E). lia. }
  destruct (process_execute_run s t A _ p o Ht Hp He Hini ltac:(lia) Hm) as (tid & new & n' & R & Hno & Hcase). unfold handler_exec. rewrite (bind_Ok _ _ _ _ _ R).
  destruct (o_page o && o_elem o).
  - set (s1 := Sys _ _ _ _ n'). assert (threads s1 !! t = Some (Thread A (Run r))) as Ht1 by (cbn; rewrite lookup_upd, decide_False; [done|destruct Hcase as [[-> _]|[-> _]]; lia]).
    destruct Hcase as [(-> & -> & ->)|(-> & -> & ->)].
    + rewrite decide_False by (pose proof (iv_next _ _ Hi); lia). eexists. split; [by apply (set_frame_run s1 t A (Run r))|].
      apply (inv_create tr tr' s t A r (next s + 2) (next s + 3) p); try done. by left.
    + rewrite decide_True by done. eexists. split; [by apply (set_frame_run s1 t A (Run r))|].
      apply (inv_create tr tr' s t A r (-1) (next s + 2) p); try done. by right.
  - rewrite (Hno eq_refl), decide_True by done. eexists. split; [by apply (set_frame_run s t A (Run r))|]. apply (inv_frame tr tr' s t A (Run r) _ p); try done.
    by intros x c _ _ [?|?].
Qed.

(** ** Every event *)

Lemma allowed_calm s t a b A f : allowed s (Continue t a b) → threads s !! t = Some (Thread A f) → handing_over f = false → calm s.
Proof.
  intros (_ & H & _) Ht Hf u th Hu. destruct (handing_over (t_frame th)) eqn:E; [|done]. destruct (H u th Hu E) as (? & ? & [= -> _ _]).
  rewrite Ht in Hu. injection Hu as <-. cbn in E. congruence.
Qed.

Lemma in_program_run s t A f m : threads s !! t = Some (Thread A f) → in_program t m s = match f with Run _ => m s | _ => Ok ((), s) end.
Proof. intros Ht. unfold in_program. rewrite (bind_Ok _ _ _ (Thread A f) s) by (unfold get_thread, get, mbind, M_bind, lift; by rewrite Ht). by destruct f. Qed.

Lemma step_inv tr s ev : inv tr s → allowed s ev → ∃ s', step ev s = Ok ((), s') ∧ inv (ev :: tr) s'.
Proof.
  intros Hi Hal. pose proof Hal as ([[A f] Ht] & Hho & Hev). assert (tr ⊆ ev :: tr) as Htr by (intros x; by right).
  assert (∃ s', Ok ((), s) = Ok ((), s') ∧ inv (ev :: tr) s') as Hsame by (exists s; split; [done|by apply (inv_mono tr)]).
  destruct ev as [t o|t o|t q|t code|t a b]; cbn [actor] in Ht; cbn [step]; rewrite ?(in_program_run s t A f _ Ht).
  - destruct f; try done. destruct Hev as (_ & ? & ?). by eapply inv_exec.
  - done.
  - destruct f; try done. by eapply inv_wait.
  - destruct f; try done. eapply inv_exit; try done. left.
  - unfold continue. rewrite (bind_Ok _ _ _ (Thread A f) s) by (unfold get_thread, get, mbind, M_bind, lift; by rewrite Ht). cbn [t_frame].
    destruct f; [done| | | | | | | | |].
    + by eapply inv_start.
    + by eapply inv_start_failed.
    + by eapply inv_exec_search.
    + by eapply inv_exec_down.
    + destruct (inv_wait_down tr _ s t A e Hi Htr (allowed_calm s t a b A _ Hal Ht eq_refl) Ht) as (s' & ? & ? & _). eauto.
    + by eapply inv_exit_down.
    + by eapply inv_exit_up.
    + by eapply inv_exit_children.
    + destruct (iv_threads _ _ Hi t _ Ht) as (_ & _ & p & _ & [] & _).
Qed.

Lemma started_eq : started =
  Sys (<[7 := Thread 8 (Run 0)]> {[1 := Thread 2 (Run 7)]}) (<[8 := Process 2 5 [] 6 0]> {[2 := Process NULL 4 [5] 3 0]})
    (<[5 := ChildProcess 7 (-2) 6 0 8 false]> {[4 := ChildProcess 1 0 3 0 2 true]}) (<[6 := 1]> {[3 := 1]}) 9.
Proof. vm_compute. reflexivity. Qed.

Ltac cells := repeat match goal with
  | H : <[_ := _]> _ !! _ = Some _ |- _ => apply lookup_insert_Some in H as [[? ?]|[? H]]
  | H : {[_ := _]} !! _ = Some _ |- _ => apply lookup_singleton_Some in H as [? ?]
  | H : _ ∈ [] |- _ => by apply not_elem_of_nil in H
  | H : _ ∈ [_] |- _ => apply list_elem_of_singleton in H
  | _ => progress simplify_eq/=
  end.

Lemma started_inv : inv [] started.
Proof.
  rewrite started_eq. constructor; cbn [threads procs elems semas next].
  - lia.
  - rewrite lookup_insert_ne by done. by eexists.
  - intros u th Hu. cells; (split; [lia|]); (split; unfold owner; cbn [t_frame t_pcb procs elems]; [|eexists; split; [by vm_compute|]]).
    + intros e He. vm_compute in He. simplify_eq. eexists. split; [by vm_compute|done].
    + split; [done|]. split; [done|]. intros e c He. vm_compute in He. simplify_eq. intros Hc. vm_compute in Hc. by simplify_eq.
    + intros e He. vm_compute in He. simplify_eq. eexists. split; [by vm_compute|done].
    + split; [done|]. split; [done|]. intros e c He. vm_compute in He. simplify_eq. intros Hc. vm_compute in Hc. by simplify_eq.
  - intros u v A f g Hu Hv _. by cells.
  - intros A p HA. cells; (split; [lia|]); repeat constructor; apply not_elem_of_nil.
  - intros A p e HA He. cells. split; [done|]. rewrite lookup_insert_eq. by eexists.
  - intros A B p q e HA HB He Hq. by cells.
  - intros e c He. by cells.
  - intros e c He. cells; (split; [lia|]); exists 1; (split; [by vm_compute|]); (split; [lia|]); [|done]. intros _. by vm_compute.
  - intros e e' c c' He He' Hp _. by cells.
  - intros e e' c c' He He' Hp. by cells.
  - intros e c He H4. cells. exists 2, (Process NULL 4 [5] 3 0). split; [by vm_compute|left].
  - intros e c He H4 Hst. by cells.
Qed.

Lemma safe_inv tr s : safe_run tr s → inv tr s.
Proof.
  induction 1 as [|tr s ev s' _ IH Hal Hstep]; [apply started_inv|]. destruct (step_inv tr s ev IH Hal) as (s1 & R & Hi).
  rewrite Hstep in R. by injection R as ->.
Qed.

(** ** The claims *)

(** C22: From the state on in which the first program has been loaded, in every
    run in which hand-overs of exit codes are not interrupted, the two
    allocations behind the list insertion of [process_execute] succeed,
    processes exit after their children, the kernel's initial thread does not
    exit and runs no further program ([Execute]): no call and no continuation of [exec], [wait] and [exit]
    touches freed memory or a null pointer, and every entry of a child stays
    in the list of exactly one parent until it is freed. *)
Theorem handover_safe tr s ev :
  safe_run tr s → allowed s ev →
  (∃ s', step ev s = Ok ((), s')) ∧
  ∀ e, is_Some (elems s !! e) → e ≠ 4 → ∃ A p, procs s !! A = Some p ∧ e ∈ children p ∧ NoDup (children p) ∧
    ∀ B q, procs s !! B = Some q → e ∈ children q → B = A.
Proof.
  intros Hr%safe_inv Hal. split; [destruct (step_inv tr s ev Hr Hal) as (s' & R & _); eauto|]. intros e [c He] H4.
  destruct (iv_listed _ _ Hr e c He H4) as (A & p & Hp & Hin). exists A, p. split; [done|]. split; [done|]. split; [by apply (iv_procs _ _ Hr A p)|].
  intros B q Hq Hinq. by apply (iv_parent _ _ Hr B A q p e).
Qed.

(** C24: In such a run, a thread that waits in [process_wait] for the entry of a
    child goes on sleeping while the child has not handed over its exit code;
    then it returns the code with which the child called [exit], and the
    entry and its semaphore are freed. *)
Theorem wait_status tr s t A e a b :
  safe_run tr s → allowed s (Continue t a b) → threads s !! t = Some (Thread A (WaitDown e)) →
  ∃ c s', elems s !! e = Some c ∧ step (Continue t a b) s = Ok ((), s') ∧
    if decide (waiting c = 0) then s' = s
    else Exit (pid c) (exited_code c) ∈ tr ∧ threads s' !! t = Some (Thread A (Run (exited_code c))) ∧
      elems s' !! e = None ∧ semas s' !! c_editing c = None.
Proof.
  intros Hr%safe_inv Hal Ht. destruct (live_thread tr s t A _ Hr Ht (or_introl I)) as (p & Hp & _ & _ & [_ Hin] & _).
  destruct (iv_children _ _ Hr A p e Hp Hin) as [_ [c Hc]]. exists c.
  assert (step (Continue t a b) s = process_wait_down t e s) as ->.
  { cbn [step]. unfold continue. by rewrite (bind_Ok _ _ _ (Thread A (WaitDown e)) s) by (unfold get_thread, get, mbind, M_bind, lift; by rewrite Ht). }
  destruct (decide (waiting c = 0)) as [Hw|Hw]; [exists s; split_and!; try done; prun; by rewrite decide_True|].
  destruct (wait_gone tr s t A e c p Hr (allowed_calm s t a b A _ Hal Ht eq_refl) Ht Hp Hin Hc Hw) as (v & Hv & Hg). pose proof Hg as (_ & Hex & _ & Hin').
  eexists. split; [done|]. split; [by apply (wait_down_run s t A (WaitDown e) p e c v)|]. split; [done|]. cbn. by rewrite !lookup_upd, !decide_True.
Qed.

(** The child of a parent that has exited uses freed memory when it exits:
    [free_parent_self] frees the semaphore [editing], on which
    [process_exit_tail] then calls [sema_up]. *)
Theorem orphan_exit_uses_freed s t A a p c v x y :
  threads s !! t = Some (Thread A (ExitDown a)) → procs s !! A = Some p → elems s !! self p = Some c → exited c = true → a = c_editing c →
  semas s !! a = Some v → 0 < v →
  ∃ s', step (Continue t x y) s = Ok ((), s') ∧ step (Continue t x y) s' = Err Undef.
Proof.
  intros Ht Hp Hc Hex -> Hv Hv0. eexists. cbn [step]. unfold continue. split.
  - prun. rewrite decide_False by lia. prun. rewrite Hex. prun. reflexivity.
  - prun. by rewrite lookup_delete_eq.
Qed.

(** The assumptions of the theorems above are needed.  When the parent runs
    between the two [sema_up] of an exiting child, it frees the semaphore the
    child still uses; when memory for the semaphore is short,
    [process_execute] frees an entry that stays in the list; when the program
    to run is missing, the kernel's [process_wait] follows a null pointer; and
    when memory for its PCB is short, the child is gone but [exec] returns its
    number, and [wait] for it sleeps for ever. *)
Theorem handover_failures :
  run [Execute 1 all_ok; Continue 7 true true; Wait 1 7; Exit 7 0; Continue 7 true true; Continue 1 true true; Continue 7 true true] userprog_init = Err Undef ∧
  run [Execute 1 (Outcomes true true false true true); Wait 1 7] userprog_init = Err Undef ∧
  run [Execute 1 all_ok; Continue 7 true false; Continue 7 true true; Wait 1 7; Continue 1 true true] userprog_init = Err Undef ∧
  ∃ s, run [Execute 1 all_ok; Continue 7 true true; Exec 7 all_ok; Continue 11 false true; Continue 7 true true; Continue 7 true true; Wait 7 11] userprog_init = Ok ((), s) ∧
    threads s !! 7 = Some (Thread 8 (WaitDown 9)) ∧ threads s !! 11 = None ∧ ∀ n, run (replicate n (Continue 7 true true)) s = Ok ((), s).
Proof.
  split; [by vm_compute|]. split; [by vm_compute|]. split; [by vm_compute|]. eexists. split; [vm_compute; reflexivity|]. split; [by vm_compute|]. split; [by vm_compute|].
  induction n as [|n IH]; [done|]. cbn [replicate run]. erewrite bind_Ok; [exact IH|]. by vm_compute.
Qed.

(** *** Witnesses *)

Notation C t := (Continue t true true).

(** Runs can be checked. *)
Definition runs_b (s : sys) (t : Z) : bool := match threads s !! t with Some (Thread _ (Run _)) => true | _ => false end.
Definition kids_b (s : sys) (t : Z) : bool :=
  match threads s !! t with
  | Some th => match procs s !! t_pcb th with
               | Some p => forallb (λ e, match elems s !! e with Some c => exited c | None => true end) (children p)
               | None => true
               end
  | None => true
  end.
Definition own_b (ev : event) (u : Z) : bool := match ev with Continue t _ _ => bool_decide (t = u) | _ => false end.
Definition allowed_b (s : sys) (ev : event) : bool :=
  bool_decide (is_Some (threads s !! actor ev)) &&
  bool_decide (map_Forall (λ u th, negb (handing_over (t_frame th)) || own_b ev u = true) (threads s)) &&
  match ev with
  | Exec t o => runs_b s t && o_editing o && o_init o
  | Execute _ _ => false
  | Wait t _ => runs_b s t
  | Exit t _ => runs_b s t && bool_decide (t ≠ 1) && kids_b s t
  | Continue _ _ _ => true
  end.

Lemma runs_b_sound s t : runs_b s t = true → in_run s t.
Proof. unfold runs_b, in_run. destruct (threads s !! t) as [[A []]|]; try done. eauto. Qed.

Lemma allowed_b_sound s ev : allowed_b s ev = true → allowed s ev.
Proof.
  unfold allowed_b. rewrite !andb_true_iff, !bool_decide_eq_true. intros [[H1 H2] H3]. split; [done|]. split.
  - intros u th Hu Hh. specialize (H2 u th Hu). cbn in H2. rewrite Hh in H2. destruct ev; cbn in H2; try done. apply bool_decide_eq_true in H2 as ->. eauto.
  - destruct ev as [t o|t o|t q|t code|t a b]; rewrite ?andb_true_iff, ?bool_decide_eq_true in H3; try done.
    + destruct H3 as [[? ?] ?]. split; [by apply runs_b_sound|done].
    + by apply runs_b_sound.
    + destruct H3 as [[? ?] Hk]. split; [by apply runs_b_sound|]. split; [done|]. intros th p e c Ht Hp Hin Hc. unfold kids_b in Hk. rewrite Ht, Hp in Hk.
      rewrite forallb_forall in Hk. specialize (Hk e). rewrite Hc in Hk. apply Hk. by apply list_elem_of_In.
Qed.

Fixpoint safe_b (evs : list event) (s : sys) : option sys :=
  match evs with
  | [] => Some s
  | ev :: evs => if allowed_b s ev then match step ev s with Ok (_, s') => safe_b evs s' | Err _ => None end else None
  end.
Lemma safe_b_sound evs : ∀ tr s s', safe_run tr s → safe_b evs s = Some s' → safe_run (rev evs ++ tr) s'.
Proof.
  induction evs as [|ev evs IH]; intros tr s s' Hr Hs; cbn in *; [by injection Hs as <-|]. destruct (allowed_b s ev) eqn:Ha; [|done].
  destruct (step ev s) as [[[] s1]|] eqn:E; [|done]. rewrite <- app_assoc. apply (IH _ s1); [|done]. eapply safe_step; [done|by apply allowed_b_sound|done].
Qed.

(** The first program, 7, has started 11 and waits for it; 11 has exited. *)
Notation demo_wait := [Exec 7 all_ok; C 11; C 7; C 7; Wait 7 11; Exit 11 42; C 11; C 11].
Definition demo_waiting : sys := match safe_b demo_wait started with Some s => s | None => started end.

Lemma demo_safe : safe_run (rev demo_wait ++ []) demo_waiting.
Proof. apply (safe_b_sound demo_wait [] started); [apply safe_start|]. vm_compute. reflexivity. Qed.

Lemma handover_safe_witness : ∃ s', step (C 7) demo_waiting = Ok ((), s').
Proof. apply (handover_safe _ demo_waiting (C 7) demo_safe). apply allowed_b_sound. by vm_compute. Defined.

Lemma wait_status_witness : ∃ s', step (C 7) demo_waiting = Ok ((), s') ∧ threads s' !! 7 = Some (Thread 8 (Run 42)).
Proof.
  destruct (wait_status _ demo_waiting 7 8 9 true true demo_safe) as (c & s' & Hc & R & H); [apply allowed_b_sound; by vm_compute|by vm_compute|].
  vm_compute in Hc. injection Hc as <-. exists s'. split; [exact R|]. rewrite decide_False in H by done. apply H.
Defined.

(** The first program, 7, exits while its child 11 runs, and then 11 exits. *)
Notation demo_orphan := [Exec 7 all_ok; C 11; C 7; C 7; Exit 7 0; C 7; C 7; C 7; C 7; C 7; Exit 11 1].
Definition demo_orphaned : sys := match run demo_orphan started with Ok (_, s) => s | Err _ => started end.

Lemma orphan_exit_uses_freed_witness : ∃ s', step (C 11) demo_orphaned = Ok ((), s') ∧ step (C 11) s' = Err Undef.
Proof.
  refine (orphan_exit_uses_freed demo_orphaned 11 12 10 (Process NULL 9 [] 10 1) (ChildProcess 11 (-2) 10 1 12 true) 1 true true _ _ _ _ _ _ _); by vm_compute.
Defined.
End ProcessSpec.
