(* ===== verification/UserThread.v ===== *)
(** * The threads of a process (userprog/userthread_create.c, userthread_join.c,
      process_exit.c, syscall.c)

    How the threads of one process start, join each other and end together:
    the counters and the exit status in the PCB, the fields of the TCBs that
    the protocol uses, and the list of threads.  A thread in the kernel can be
    preempted wherever interrupts are on; a [frame] says where it is.  Code
    that runs with interrupts off, and code that holds the lock of the list
    and does not sleep, is one step; so is, more coarsely, [pthread_execute]
    up to [sema_down], the end of [pthread_join] and the loop that frees the
    threads in the end.  A thread that was freed is no longer in
    the map, and an access to it is the outcome [Undef].  A thread runs when it
    is in the ready list or the current one, which [queued] says; its status is
    then RUNNING ([thread_switch_tail]), which is not told apart from READY.

    The queues of the scheduler, page tables and the resources that
    [process_exit_tail] releases are modelled in other files, and the event
    [EXITING_EXCEPTION], which the code no longer raises, is left out. *)

From S2P Require Import Prelude.

Module UserThread.

Definition NULL : Z := 0.
Definition MAX_THREADS : Z := 128.

(** ** The data *)

Inductive exiting_status := EXITING_NONE | EXITING_MAIN | EXITING_NORMAL.
#[global] Instance exiting_status_eq_dec : EqDecision exiting_status.
Proof. solve_decision. Defined.
Definition NONE_OR_MAIN (x : exiting_status) : bool := match x with EXITING_NORMAL => false | _ => true end.

Inductive status := Ready | Blocked | Zombie.
#[global] Instance status_eq_dec : EqDecision status.
Proof. solve_decision. Defined.

Inductive frame :=
| User                                   (** the program *)
| Leave (is_pthread_exit : bool)         (** at [exit_if_exiting] *)
| PExit                                  (** in it, in front of [pthread_exit] *)
| Create0                                (** at [handler_pthread_create] *)
| Create1                                (** at [pthread_execute] *)
| CreateUndo                             (** behind it, when it returned [TID_ERROR] *)
| CreateWait (finished : Z)              (** in it, at [sema_down] *)
| CreateFailed (finished : Z)            (** the same, when there is no new thread *)
| Start (creator : Z)                    (** at [start_pthread] *)
| StartPush (creator : Z)                (** in it, in front of the list insertion *)
| StartUp (creator : Z)                  (** in it, at [sema_up] *)
| JoinCheck (tid : Z)                    (** at [pthread_join] *)
| JoinTest (pos : Z) (is_main block_wait : bool)  (** in it, behind the search *)
| JoinSet (pos : Z) (is_main block_wait : bool)   (** in it, behind the tests *)
| JoinEnd (pos : Z) (is_main : bool)     (** in it, behind [thread_block] *)
| ExitEnter (exit_code : Z)              (** at [process_exit_normal] *)
| Sweep0                                 (** in it, in front of the first traversal *)
| Sweep (rest : list Z)                  (** in the traversal *)
| ExitBlock                              (** behind it *)
| ExitClean                              (** behind [thread_block] *)
| MainEnter                              (** at [pthread_exit_main] *)
| MainLoop                               (** in its loop *)
| MainClean                              (** behind the loop *)
| Tail                                   (** at [process_exit_tail] *)
| Dead.                                  (** never runs again *)

Record tcb := Tcb { t_status : status; queued : bool; in_handler : bool; joined_by : Z; stack_no : Z; t_frame : frame }.
Record pcb := Pcb {
  exiting : exiting_status; exit_code : Z; thread_exiting : Z; in_kernel_threads : Z; active_threads : Z;
  threads : list Z; stacks : gset Z; main_thread : Z; readers : Z }.
(** The TCBs, the PCB, the next thread number and the threads of the process
    in [all_list]. *)
Record sys := Sys { tcbs : gmap Z tcb; the_pcb : pcb; next_tid : Z; all_list : list Z }.
Abbreviation U := (M sys).

Definition get_tcb (t : Z) : U tcb := s ← get; lift (tcbs s !! t) Undef.
Definition put_tcb (t : Z) (x : tcb) : U unit := get_tcb t;; modify (λ s, Sys (<[t := x]> (tcbs s)) (the_pcb s) (next_tid s) (all_list s)).
Definition free_tcb (t : Z) : U unit := get_tcb t;; modify (λ s, Sys (delete t (tcbs s)) (the_pcb s) (next_tid s) (all_list s)).
Definition get_pcb : U pcb := gets the_pcb.
Definition put_pcb (p : pcb) : U unit := modify (λ s, Sys (tcbs s) p (next_tid s) (all_list s)).

Definition set_frame (t : Z) (f : frame) : U unit :=
  x ← get_tcb t; put_tcb t (Tcb (t_status x) (queued x) (in_handler x) (joined_by x) (stack_no x) f).
Definition set_status (t : Z) (st : status) (q : bool) : U unit :=
  x ← get_tcb t; put_tcb t (Tcb st q (in_handler x) (joined_by x) (stack_no x) (t_frame x)).
Definition set_handler (t : Z) (b : bool) : U unit :=
  x ← get_tcb t; put_tcb t (Tcb (t_status x) (queued x) b (joined_by x) (stack_no x) (t_frame x)).

(** [list_remove (&t->allelem)] of an element that is in the list. *)
Definition all_remove (t : Z) : U unit :=
  get_tcb t;; s ← get;
  if decide (t ∈ all_list s) then put (Sys (tcbs s) (the_pcb s) (next_tid s) (filter (λ u, u ≠ t) (all_list s))) else fail Undef.

(** The counters. *)
Definition add_kernel (d : Z) : U unit :=
  p ← get_pcb; put_pcb (Pcb (exiting p) (exit_code p) (thread_exiting p) (u32 (in_kernel_threads p + d)) (active_threads p) (threads p) (stacks p) (main_thread p) (readers p)).
Definition add_active (d : Z) : U unit :=
  p ← get_pcb; put_pcb (Pcb (exiting p) (exit_code p) (thread_exiting p) (in_kernel_threads p) (u32 (active_threads p + d)) (threads p) (stacks p) (main_thread p) (readers p)).
Definition set_exiting (x : exiting_status) (t : Z) : U unit :=
  p ← get_pcb; put_pcb (Pcb x (exit_code p) t (in_kernel_threads p) (active_threads p) (threads p) (stacks p) (main_thread p) (readers p)).
Definition set_threads (l : list Z) : U unit :=
  p ← get_pcb; put_pcb (Pcb (exiting p) (exit_code p) (thread_exiting p) (in_kernel_threads p) (active_threads p) l (stacks p) (main_thread p) (readers p)).
Definition set_stacks (S : gset Z) : U unit :=
  p ← get_pcb; put_pcb (Pcb (exiting p) (exit_code p) (thread_exiting p) (in_kernel_threads p) (active_threads p) (threads p) S (main_thread p) (readers p)).
Definition set_readers (n : Z) : U unit :=
  p ← get_pcb; put_pcb (Pcb (exiting p) (exit_code p) (thread_exiting p) (in_kernel_threads p) (active_threads p) (threads p) (stacks p) (main_thread p) n).
Definition set_exit_code (code : Z) : U unit :=
  p ← get_pcb;
  if decide (exit_code p = 0 ∨ code ≠ -1) then
    put_pcb (Pcb (exiting p) code (thread_exiting p) (in_kernel_threads p) (active_threads p) (threads p) (stacks p) (main_thread p) (readers p))
  else mret ().

(** ** The operations *)

Definition thread_unblock (t : Z) : U unit :=
  x ← get_tcb t; ASSERT (bool_decide (t_status x = Blocked));; set_status t Ready true.

Definition wake_up_joiner (t : Z) : U unit :=
  x ← get_tcb t; if decide (joined_by x = NULL) then mret () else thread_unblock (joined_by x).

(** [exit_if_exiting]: its part with interrupts off, and the branch behind. *)
Definition exit_if_exiting (t : Z) (is_pthread_exit : bool) : U unit :=
  add_kernel (-1);; set_handler t false;;
  p ← get_pcb;
  match exiting p with
  | EXITING_NORMAL =>
      (if decide (in_kernel_threads p = 1) then thread_unblock (thread_exiting p) else mret ());;
      set_frame t PExit
  | EXITING_MAIN =>
      (if is_pthread_exit && bool_decide (active_threads p = 2) then thread_unblock (main_thread p) else mret ());;
      set_frame t (if is_pthread_exit then PExit else User)
  | EXITING_NONE => set_frame t (if is_pthread_exit then PExit else User)
  end.

(** The next [schedule] drops the thread. *)
Definition thread_zombie (t : Z) : U unit := all_remove t;; set_status t Zombie false.
Definition pthread_exit (t : Z) : U unit :=
  wake_up_joiner t;;
  x ← get_tcb t; p ← get_pcb; set_stacks (stacks p ∖ {[stack_no x]});;
  add_active (-1);;
  thread_zombie t;; set_frame t Dead.

(** Creating a thread. *)
Definition handler_pthread_create (t : Z) : U unit := add_kernel 1;; add_active 1;; set_frame t Create1.

Definition first_free (S : gset Z) : option Z := head (filter (λ i, i ∉ S) (seqZ 0 MAX_THREADS)).

(** The result of [malloc] is not tested. *)
Definition pthread_execute (t : Z) (created memory : bool) : U unit :=
  p ← get_pcb;
  match first_free (stacks p) with
  | None => set_frame t CreateUndo
  | Some stack_no =>
      ASSERT (bool_decide (0 < stack_no));;
      if negb memory then fail Undef else
      if created then
        set_stacks ({[stack_no]} ∪ stacks p);;
        s ← get; let tid := next_tid s in
        modify (λ s, Sys (<[tid := Tcb Ready true false NULL stack_no (Start t)]> (tcbs s)) (the_pcb s) (tid + 1) (all_list s ++ [tid]));;
        set_frame t (CreateWait 0)
      else set_frame t (CreateFailed 0)
  end.
Definition create_undo (t : Z) : U unit := add_kernel (-1);; add_active (-1);; set_frame t (Leave false).
Definition create_down (t finished : Z) : U unit := if decide (finished = 0) then mret () else set_frame t (Leave false).

Definition start_pthread (t creator : Z) (memory : bool) : U unit :=
  p ← get_pcb; set_frame t (if NONE_OR_MAIN (exiting p) && memory then StartPush creator else StartUp creator).
Definition start_push (t creator : Z) : U unit :=
  p ← get_pcb;
  if decide (readers p ≠ 0) then mret () else
  (if NONE_OR_MAIN (exiting p) then set_threads (t :: threads p) else mret ());;
  set_frame t (StartUp creator).
Definition start_up (t creator : Z) : U unit :=
  x ← get_tcb creator;
  (match t_frame x with CreateWait v => set_frame creator (CreateWait (v + 1)) | _ => fail Undef end);;
  set_frame t (Leave false).

(** Joining a thread. *)
Fixpoint find_thread (tid : Z) (l : list Z) : U (option tcb) :=
  match l with
  | [] => mret None
  | t :: l => x ← get_tcb t; if decide (t = tid) then mret (Some x) else find_thread tid l
  end.
Definition pthread_join (t tid : Z) : U unit :=
  p ← get_pcb; r ← find_thread tid (threads p);
  match r with
  | Some pos =>
      if decide (joined_by pos = NULL)
      then set_frame t (JoinTest tid (bool_decide (tid = main_thread p)) (negb (bool_decide (t_status pos = Zombie))))
      else set_frame t (Leave false)
  | None => set_frame t (Leave false)
  end.
Definition join_test (t pos : Z) (is_main block_wait : bool) : U unit :=
  me ← get_tcb t; set_frame t (if decide (t = pos ∨ joined_by me = pos) then Leave false else JoinSet pos is_main block_wait).
Definition join_set (t pos : Z) (is_main block_wait : bool) : U unit :=
  x ← get_tcb pos; put_tcb pos (Tcb (t_status x) (queued x) (in_handler x) t (stack_no x) (t_frame x));;
  p ← get_pcb;
  set_frame t (JoinEnd pos is_main);;
  if block_wait && (negb (bool_decide (exiting p = EXITING_MAIN)) || negb is_main) then set_status t Blocked false else mret ().
Definition join_end (t pos : Z) (is_main : bool) : U unit :=
  p ← get_pcb;
  if decide (readers p ≠ 0) then mret () else
  x ← get_tcb pos;
  (if is_main then mret () else
     ASSERT (bool_decide (t_status x = Zombie));;
     set_threads (filter (λ y, y ≠ pos) (threads p));; free_tcb pos);;
  set_frame t (Leave false).

(** The end of the process. *)
Definition exit_helper (t : Z) : U unit := x ← get_tcb t; set_status t Zombie (queued x);; all_remove t.
Definition process_exit_normal (t code : Z) : U unit :=
  wake_up_joiner t;; set_exit_code code;;
  p ← get_pcb;
  match exiting p with
  | EXITING_NONE => set_exiting EXITING_NORMAL t;; set_frame t Sweep0
  | EXITING_MAIN =>
      ASSERT (bool_decide (t ≠ main_thread p));;
      exit_helper (main_thread p);; add_kernel (-1);; set_frame t Sweep0
  | EXITING_NORMAL => set_frame t (Leave true)
  end.
(** Its test of the status comes after its caller has changed it; the other
    test, that the thread is in a queue, is left to the status. *)
Definition exit_helper_remove_from_list (pos : Z) : U unit :=
  x ← get_tcb pos;
  if decide (t_status x = Blocked ∨ t_status x = Ready) then set_status pos (t_status x) false else mret ().
Definition exit_sweep0 (t : Z) : U unit :=
  p ← get_pcb;
  let l := filter (λ x, x ≠ t) (threads p) in
  set_threads l;; set_readers (readers p + 1);; set_frame t (Sweep l).
Definition exit_sweep (t : Z) (rest : list Z) : U unit :=
  match rest with
  | [] => p ← get_pcb; set_readers (readers p - 1);; set_frame t ExitBlock
  | pos :: rest =>
      x ← get_tcb pos;
      (if in_handler x then mret () else
         set_status pos Zombie (queued x);; exit_helper_remove_from_list pos;; all_remove pos;; wake_up_joiner pos);;
      set_frame t (Sweep rest)
  end.
Definition exit_block (t : Z) : U unit :=
  p ← get_pcb; set_frame t ExitClean;; if decide (1 < in_kernel_threads p) then set_status t Blocked false else mret ().

(** [list_clean_each] with [palloc_free_page]. *)
Fixpoint free_threads (l : list Z) : U unit :=
  match l with [] => mret () | t :: l => free_tcb t;; free_threads l end.
Definition exit_clean (t : Z) : U unit :=
  p ← get_pcb; ASSERT (bool_decide (in_kernel_threads p = 1));; free_threads (threads p);; set_threads [];; set_frame t Tail.

Definition main_loop (t : Z) : U unit :=
  p ← get_pcb; if decide (1 < active_threads p) then set_frame t MainLoop;; set_status t Blocked false else set_frame t MainClean.
Definition pthread_exit_main (t : Z) : U unit :=
  p ← get_pcb; ASSERT (bool_decide (t = main_thread p));;
  set_exit_code 0;;
  if decide (exiting p = EXITING_NONE) then set_exiting EXITING_MAIN t;; wake_up_joiner t;; main_loop t
  else set_frame t (Leave true).
Definition main_clean (t : Z) : U unit :=
  p ← get_pcb; let l := filter (λ x, x ≠ t) (threads p) in
  set_threads l;; ASSERT (bool_decide (in_kernel_threads p = 1));; free_threads l;; set_threads [];; set_frame t Tail.

(** ** Events *)

Inductive call := PthreadCreate | PthreadExit | PthreadJoin (tid : Z) | ProcessExit (code : Z) | OtherCall.
Inductive event :=
| Enter (t : Z) (c : call)
| Continue (t : Z) (created memory : bool).

(** The system call handler, or the handler of a fault for [ProcessExit (-1)]. *)
Definition enter (t : Z) (c : call) : U unit :=
  add_kernel 1;; set_handler t true;;
  p ← get_pcb;
  set_frame t (match c with
    | PthreadCreate => Create0
    | PthreadExit => if decide (t = main_thread p) then MainEnter else Leave true
    | PthreadJoin tid => JoinCheck tid
    | ProcessExit code => ExitEnter code
    | OtherCall => Leave false
    end).

(** ** Faults (exception.c) *)

Definition SEL_KCSEG : Z := 0x08.
Definition SEL_UCSEG : Z := 0x1b.
(** A fault of the program ends it as a call of [exit] does; a page fault in
    the kernel ends it too, within the system call that has faulted. *)
Definition kill (t cs vec_no : Z) : U unit :=
  if decide (cs = SEL_UCSEG) then enter t (ProcessExit (-1))
  else if decide (cs = SEL_KCSEG) then (if decide (vec_no = 14) then process_exit_normal t (-1) else PANIC)
  else PANIC.

Definition continue (t : Z) (f : frame) (created memory : bool) : U unit :=
  match f with
  | User | Tail | Dead | CreateFailed _ => mret ()
  | Leave b => exit_if_exiting t b
  | PExit => pthread_exit t
  | Create0 => handler_pthread_create t
  | Create1 => pthread_execute t created memory
  | CreateUndo => create_undo t
  | CreateWait v => create_down t v
  | Start c => start_pthread t c memory
  | StartPush c => start_push t c
  | StartUp c => start_up t c
  | JoinCheck tid => pthread_join t tid
  | JoinTest pos m b => join_test t pos m b
  | JoinSet pos m b => join_set t pos m b
  | JoinEnd pos m => join_end t pos m
  | ExitEnter code => process_exit_normal t code
  | Sweep0 => exit_sweep0 t
  | Sweep l => exit_sweep t l
  | ExitBlock => exit_block t
  | ExitClean => exit_clean t
  | MainEnter => pthread_exit_main t
  | MainLoop => main_loop t
  | MainClean => main_clean t
  end.

(** [schedule] picks the thread. *)
Definition dispatch (t : Z) (m : frame → U unit) : U unit :=
  x ← get_tcb t; if queued x then set_status t Ready true;; m (t_frame x) else mret ().
Definition step (ev : event) : U unit :=
  match ev with
  | Enter t c => dispatch t (λ f, match f with User => enter t c | _ => mret () end)
  | Continue t created memory => dispatch t (λ f, continue t f created memory)
  end.

Fixpoint run (evs : list event) : U unit :=
  match evs with [] => mret () | ev :: evs => step ev;; run evs end.

(** A process whose main thread, 1, runs. *)
Definition boot : sys :=
  Sys {[1 := Tcb Ready true false NULL 0 User]} (Pcb EXITING_NONE 0 NULL 0 1 [1] {[0]} 1 0) 2 [1].

End UserThread.
