(* ===== verification/UserThreadSpec.v ===== *)
(** * The threads of a process: theorems

    The counter [in_kernel_threads] never falls below the number of threads
    between the start of a system call and its decrement in
    [exit_if_exiting], so that the thread that ends the process frees no such
    thread.  The steps of [pthread_join] are here, the theorem about it is in
    [UserJoin].  Runs show where the protocol fails. *)

From S2P Require Import Prelude UserThread.
Import UserThread.

Module UserThreadSpec.

(** ** Counting *)

(** What a thread contributes to [in_kernel_threads]: the creator of a thread
    counts for the new one, too, until there is one. *)
Definition weight (f : frame) : Z :=
  match f with User | PExit | Dead => 0 | Create1 | CreateUndo | CreateFailed _ => 2 | _ => 1 end.
Definition ksum (m : gmap Z tcb) : Z := map_fold (λ _ x n, weight (t_frame x) + n) 0 m.

Lemma weight_nonneg f : 0 ≤ weight f.
Proof. by destruct f. Qed.

Lemma ksum_insert m t x : m !! t = None → ksum (<[t := x]> m) = weight (t_frame x) + ksum m.
Proof. intros H. unfold ksum. rewrite map_fold_insert_L; [done| |done]. intros. lia. Qed.
Lemma ksum_delete m t x : m !! t = Some x → ksum m = weight (t_frame x) + ksum (delete t m).
Proof. intros H. rewrite <- (insert_delete_id m t x H) at 1. apply ksum_insert, lookup_delete_eq. Qed.
Lemma ksum_nonneg m : 0 ≤ ksum m.
Proof.
  induction m as [|t x m Hn IH] using map_ind; [unfold ksum; by rewrite map_fold_empty|]. rewrite ksum_insert by done. pose proof (weight_nonneg (t_frame x)). lia.
Qed.
Lemma ksum_update m t x y : m !! t = Some x → weight (t_frame y) = weight (t_frame x) → ksum (<[t := y]> m) = ksum m.
Proof. intros H E. rewrite (ksum_delete m t x H), (ksum_delete (<[t := y]> m) t y) by apply lookup_insert_eq. by rewrite delete_insert_eq, E. Qed.
Lemma ksum_delete_le m t : ksum (delete t m) ≤ ksum m.
Proof.
  destruct (m !! t) as [x|] eqn:E; [|by rewrite delete_id]. rewrite (ksum_delete m t x E). pose proof (weight_nonneg (t_frame x)). lia.
Qed.
Lemma ksum_elem m t x : m !! t = Some x → weight (t_frame x) ≤ ksum m.
Proof. intros H. rewrite (ksum_delete m t x H). pose proof (ksum_nonneg (delete t m)). lia. Qed.

(** Either the main thread does not call [pthread_exit], or no thread calls
    [exit]. *)
Definition mode_ok (b : bool) (f : frame) : Prop :=
  match f with
  | MainEnter | MainLoop | MainClean => b = false
  | ExitEnter _ | Sweep0 | Sweep _ | ExitBlock | ExitClean => b = true
  | _ => True
  end.
Definition call_ok (b : bool) (ev : event) : Prop :=
  match ev with
  | Enter t PthreadExit => b = true → t ≠ 1
  | Enter _ (ProcessExit _) => b = true
  | _ => True
  end.

Section Counts.
Context (b : bool).

Record base (B : Z) (s : sys) : Prop := {
  bs_range : in_kernel_threads (the_pcb s) ≤ B < 2 ^ 32;
  bs_mode : ∀ u x, tcbs s !! u = Some x → mode_ok b (t_frame x);
  bs_exiting : b = true → exiting (the_pcb s) ≠ EXITING_MAIN;
  bs_main : main_thread (the_pcb s) = 1;
  bs_fresh : ∀ u, is_Some (tcbs s !! u) → u < next_tid s;
}.

(** The invariant, and what holds while the thread [t] is at work. *)
Definition counted (B : Z) (s : sys) : Prop := base B s ∧ ksum (tcbs s) ≤ in_kernel_threads (the_pcb s).
Definition busy (t k B : Z) (s : sys) : Prop :=
  base B s ∧ ksum (delete t (tcbs s)) + k ≤ in_kernel_threads (the_pcb s).

Definition triple {A} (P : sys → Prop) (m : U A) (Q : A → sys → Prop) : Prop := ∀ s a s', P s → m s = Ok (a, s') → Q a s'.

Lemma triple_bind {A C} P Q R (m : U A) (f : A → U C) : triple P m Q → (∀ a, triple (Q a) (f a) R) → triple P (m ≫= f) R.
Proof. intros Hm Hf s c s' HP H. apply bind_Ok_inv in H as (a & s1 & H1 & H2). eapply Hf; [|done]. by eapply Hm. Qed.
Lemma triple_ret {A} P (a : A) : triple P (mret a) (λ _, P).
Proof. by intros s x s' HP [= <- <-]. Qed.
Lemma triple_weaken {A} P P' Q (m : U A) : triple P m Q → (∀ s, P' s → P s) → triple P' m Q.
Proof. intros H HP s a s' HP' E. eapply H; [|done]. auto. Qed.
Lemma triple_fail {A} P e (Q : A → sys → Prop) : triple P (fail e) Q.
Proof. by intros s a s' _ [=]. Qed.
Lemma triple_get P : triple P get (λ a s, P s ∧ a = s).
Proof. by intros s a s' HP [= <- <-]. Qed.
Lemma triple_pcb P : triple P get_pcb (λ p s, P s ∧ p = the_pcb s).
Proof. by intros s a s' HP [= <- <-]. Qed.
Lemma triple_tcb P t : triple P (get_tcb t) (λ x s, P s ∧ tcbs s !! t = Some x).
Proof. intros s x s' HP H. unfold get_tcb, get, mbind, M_bind, lift in H. destruct (tcbs s !! t) eqn:E; [|done]. by injection H as <- <-. Qed.
Lemma triple_ASSERT P c : triple P (ASSERT c) (λ _ s, P s ∧ c = true).
Proof. intros s x s' HP [Hc [= -> ->]]%ASSERT_inv. done. Qed.

Lemma put_tcb_inv t x s a s' : put_tcb t x s = Ok (a, s') → is_Some (tcbs s !! t) ∧ s' = Sys (<[t := x]> (tcbs s)) (the_pcb s) (next_tid s) (all_list s).
Proof. unfold put_tcb, get_tcb, get, mbind, M_bind, lift. destruct (tcbs s !! t); [|done]. intros [= _ <-]. eauto. Qed.

Lemma base_tcb B s t x : base B s → is_Some (tcbs s !! t) → mode_ok b (t_frame x) → base B (Sys (<[t := x]> (tcbs s)) (the_pcb s) (next_tid s) (all_list s)).
Proof.
  intros [H1 H2 H3 H4 H5] Ht Hx. constructor; try done; cbn.
  - intros u y [[<- <-]|[_ ?]]%lookup_insert_Some; [done|eauto].
  - intros u [y [[<- _]|[_ ?]]%lookup_insert_Some]; eauto.
Qed.

(** A thread keeps its frame, or the thread at work gets one. *)
Lemma busy_put t k B u x y s : busy t k B s → tcbs s !! u = Some x → weight (t_frame y) = weight (t_frame x) ∨ u = t → mode_ok b (t_frame y) →
  busy t k B (Sys (<[u := y]> (tcbs s)) (the_pcb s) (next_tid s) (all_list s)).
Proof.
  intros [Hb Hk] Hu Hw Hm. split; [apply base_tcb; eauto|]. cbn. destruct (decide (u = t)) as [->|Hne]; [by rewrite delete_insert_eq|].
  rewrite delete_insert_ne by done. destruct Hw as [Hw|]; [|done]. rewrite (ksum_update _ u x y); [done|by rewrite lookup_delete_ne|done].
Qed.
Lemma counted_put B u x y s : counted B s → tcbs s !! u = Some x → weight (t_frame y) = weight (t_frame x) → mode_ok b (t_frame y) →
  counted B (Sys (<[u := y]> (tcbs s)) (the_pcb s) (next_tid s) (all_list s)).
Proof. intros [Hb Hk] Hu Hw Hm. split; [apply base_tcb; eauto|]. cbn. by rewrite (ksum_update _ u x y). Qed.

Lemma busy_done t k B s x : busy t k B s → tcbs s !! t = Some x → weight (t_frame x) ≤ k → counted B s.
Proof. intros [Hb Hk] Hx Hw. split; [done|]. rewrite (ksum_delete _ t x Hx). lia. Qed.

Lemma triple_frame t k B f : mode_ok b f → weight f ≤ k → triple (busy t k B) (set_frame t f) (λ _, counted B).
Proof.
  intros Hm Hw s a s' Hb (x & s1 & [[_ ->] Hx]%(triple_tcb (λ s1, busy t k B s1 ∧ s1 = s) t s _ _ (conj Hb eq_refl)) & [_ ->]%put_tcb_inv)%bind_Ok_inv.
  eapply busy_done; [by eapply busy_put; eauto|apply lookup_insert_eq|done].
Qed.

(** Operations that keep frames and the counter. *)
Definition quiet {A} (m : U A) : Prop := ∀ s a s', m s = Ok (a, s') →
  (∀ t k B, busy t k B s → busy t k B s') ∧ (∀ B, counted B s → counted B s').
Lemma quiet_bind {A C} (m : U A) (f : A → U C) : quiet m → (∀ a, quiet (f a)) → quiet (m ≫= f).
Proof.
  intros Hm Hf s c s' (a & s1 & H1 & H2)%bind_Ok_inv. destruct (Hm _ _ _ H1) as [M1 M2], (Hf _ _ _ _ H2) as [F1 F2]. split; eauto.
Qed.
Lemma quiet_ret {A} (a : A) : quiet (mret a).
Proof. intros s x s' [= _ <-]. done. Qed.
Lemma quiet_fail {A} e : quiet (fail (A := A) e).
Proof. by intros s x s' [=]. Qed.
Lemma quiet_get_tcb t : quiet (get_tcb t).
Proof. intros s x s' H. unfold get_tcb, get, mbind, M_bind, lift in H. destruct (tcbs s !! t); [|done]. by injection H as _ <-. Qed.
Lemma quiet_get_pcb : quiet get_pcb.
Proof. by intros s x s' [= _ <-]. Qed.
Lemma quiet_ASSERT c : quiet (ASSERT c).
Proof. intros s x s' [_ [= -> ->]]%ASSERT_inv. done. Qed.

Lemma quiet_put t g : (∀ x, weight (t_frame (g x)) = weight (t_frame x) ∧ (mode_ok b (t_frame x) → mode_ok b (t_frame (g x)))) →
  quiet (x ← get_tcb t; put_tcb t (g x)).
Proof.
  intros Hg s a s' (x & s1 & H1 & [_ ->]%put_tcb_inv)%bind_Ok_inv. destruct (triple_tcb (λ s0, s0 = s) t s _ _ eq_refl H1) as [-> Hx]. destruct (Hg x) as [E Hm].
  split.
  - intros u k B Hb. eapply busy_put; [done|done|by left|]. apply Hm. by eapply (bs_mode _ _ (proj1 Hb)).
  - intros B Hb. eapply counted_put; [done|done|done|]. apply Hm. by eapply (bs_mode _ _ (proj1 Hb)).
Qed.
Lemma quiet_status t st q : quiet (set_status t st q).
Proof. by apply (quiet_put t (λ x, Tcb st q (in_handler x) (joined_by x) (stack_no x) (t_frame x))). Qed.
Lemma quiet_handler t c : quiet (set_handler t c).
Proof. by apply (quiet_put t (λ x, Tcb (t_status x) (queued x) c (joined_by x) (stack_no x) (t_frame x))). Qed.

Lemma quiet_pcb g : (∀ p, in_kernel_threads (g p) = in_kernel_threads p ∧ main_thread (g p) = main_thread p ∧
    (b = true → exiting p ≠ EXITING_MAIN → exiting (g p) ≠ EXITING_MAIN)) → quiet (p ← get_pcb; put_pcb (g p)).
Proof.
  intros Hg s a s' [= _ <-]. destruct (Hg (the_pcb s)) as (E1 & E2 & E3).
  assert (∀ B, base B s → base B (Sys (tcbs s) (g (the_pcb s)) (next_tid s) (all_list s))) as Hb.
  { intros B [H1 H2 H3 H4 H5]. constructor; cbn; rewrite ?E1, ?E2; auto. }
  split; [intros t k B [? ?]|intros B [? ?]]; (split; [auto|cbn; by rewrite E1]).
Qed.

Ltac qstep := repeat match goal with
  | |- quiet (_ ≫= _) => apply quiet_bind; [|intros ?]
  | |- quiet (mret _) => apply quiet_ret
  | |- quiet (fail _) => apply quiet_fail
  | |- quiet (get_tcb _) => apply quiet_get_tcb
  | |- quiet get_pcb => apply quiet_get_pcb
  | |- quiet (ASSERT _) => apply quiet_ASSERT
  | |- quiet (set_status _ _ _) => apply quiet_status
  | |- quiet (set_handler _ _) => apply quiet_handler
  | |- quiet (if ?c then _ else _) => destruct c
  | |- quiet (match ?c with _ => _ end) => destruct c
  end.

Lemma quiet_unblock t : quiet (thread_unblock t).
Proof. unfold thread_unblock. qstep. Qed.
Lemma quiet_joiner t : quiet (wake_up_joiner t).
Proof. unfold wake_up_joiner. qstep. apply quiet_unblock. Qed.
Lemma quiet_active d : quiet (add_active d).
Proof. by apply (quiet_pcb (λ p, Pcb _ _ _ _ _ _ _ _ _)). Qed.
Lemma quiet_threads l : quiet (set_threads l).
Proof. by apply (quiet_pcb (λ p, Pcb _ _ _ _ _ _ _ _ _)). Qed.
Lemma quiet_stacks l : quiet (set_stacks l).
Proof. by apply (quiet_pcb (λ p, Pcb _ _ _ _ _ _ _ _ _)). Qed.
Lemma quiet_readers n : quiet (set_readers n).
Proof. by apply (quiet_pcb (λ p, Pcb _ _ _ _ _ _ _ _ _)). Qed.
Lemma quiet_exiting x t : (b = true → x ≠ EXITING_MAIN) → quiet (set_exiting x t).
Proof. intros H. apply (quiet_pcb (λ p, Pcb _ _ _ _ _ _ _ _ _)). auto. Qed.
Lemma quiet_code c : quiet (set_exit_code c).
Proof.
  unfold set_exit_code. intros s a s' (p & s1 & [= <- <-] & H)%bind_Ok_inv. case_decide; [|by eapply (quiet_ret tt)].
  by apply (quiet_pcb (λ p, Pcb (exiting p) c (thread_exiting p) (in_kernel_threads p) (active_threads p) (threads p) (stacks p) (main_thread p) (readers p)) ltac:(done) s a s').
Qed.

Lemma quiet_free t : quiet (free_tcb t).
Proof.
  intros s a s' (x & s1 & Hx & H)%bind_Ok_inv. destruct (triple_tcb (λ s0, s0 = s) t s _ _ eq_refl Hx) as [-> Ht]. injection H as _ <-.
  assert (∀ B, base B s → base B (Sys (delete t (tcbs s)) (the_pcb s) (next_tid s) (all_list s))) as Hb.
  { intros B [H1 H2 H3 H4 H5]. constructor; try done; cbn; [intros u y [_ ?]%lookup_delete_Some; eauto|].
    intros u [y [_ ?]%lookup_delete_Some]; eauto. }
  split; [intros u k B [? Hk]|intros B [? Hk]]; (split; [auto|cbn]).
  - rewrite delete_delete. pose proof (ksum_delete_le (delete u (tcbs s)) t). lia.
  - pose proof (ksum_delete_le (tcbs s) t). lia.
Qed.

Lemma quiet_all_remove t : quiet (all_remove t).
Proof.
  intros s a s' (x & s1 & Hx & (y & s2 & [= <- <-] & H)%bind_Ok_inv)%bind_Ok_inv. destruct (triple_tcb (λ s0, s0 = s) t s _ _ eq_refl Hx) as [-> Ht].
  case_decide; [|done]. injection H as _ <-. split; [intros u k B [[? ? ? ? ?] ?]|intros B [[? ? ? ? ?] ?]]; (split; [constructor; done|done]).
Qed.
Lemma quiet_zombie t : quiet (thread_zombie t).
Proof. unfold thread_zombie. qstep. apply quiet_all_remove. Qed.
#[local] Hint Resolve quiet_all_remove quiet_zombie quiet_unblock quiet_joiner quiet_active quiet_threads quiet_stacks quiet_readers quiet_code quiet_free : quiet.
Ltac quiet := qstep; eauto with quiet.

Lemma quiet_free_threads l : quiet (free_threads l).
Proof. induction l as [|t l IH]; cbn [free_threads]; quiet. Qed.
Lemma quiet_find tid l : quiet (find_thread tid l).
Proof. induction l as [|t l IH]; cbn [find_thread]; quiet. Qed.
Lemma quiet_helper pos : quiet (exit_helper_remove_from_list pos).
Proof. unfold exit_helper_remove_from_list. quiet. Qed.
#[local] Hint Resolve quiet_free_threads quiet_find quiet_helper : quiet.

(** ** Steps *)

Lemma triple_quiet {A C} t k B (m : U A) (f : A → U C) Q : quiet m → (∀ a, triple (busy t k B) (f a) Q) → triple (busy t k B) (m ≫= f) Q.
Proof. intros Hq Hf. eapply (triple_bind _ (λ _, busy t k B)); [|done]. intros s a s' HP H. by apply (Hq _ _ _ H). Qed.

Lemma triple_inc t k B : B + 1 < 2 ^ 32 → 0 ≤ k → triple (busy t k B) (add_kernel 1) (λ _, busy t (k + 1) (B + 1)).
Proof.
  intros HB Hk s a s' [[H1 H2 H3 H4 H5] Hs] [= _ <-]. pose proof (ksum_nonneg (delete t (tcbs s))).
  assert (u32 (in_kernel_threads (the_pcb s) + 1) = in_kernel_threads (the_pcb s) + 1) as E by (apply wrapu_id; unfold in_u; lia).
  split; [constructor; cbn; rewrite ?E; auto; lia|cbn; rewrite E; lia].
Qed.
Lemma triple_dec t k B : 1 ≤ k → triple (busy t k B) (add_kernel (-1)) (λ _, busy t (k - 1) B).
Proof.
  intros Hk s a s' [[H1 H2 H3 H4 H5] Hs] [= _ <-]. pose proof (ksum_nonneg (delete t (tcbs s))).
  assert (u32 (in_kernel_threads (the_pcb s) + -1) = in_kernel_threads (the_pcb s) - 1) as E by (apply wrapu_id; unfold in_u; lia).
  split; [constructor; cbn; rewrite ?E; auto; lia|cbn; rewrite E; lia].
Qed.

(** The creator's new thread takes over one of its two counts. *)
Lemma triple_spawn t k B stack_no : 1 ≤ k →
  triple (busy t k B) (s ← get; modify (λ s', Sys (<[next_tid s := Tcb Ready true false NULL stack_no (Start t)]> (tcbs s')) (the_pcb s') (next_tid s + 1) (all_list s' ++ [next_tid s])))
    (λ _, busy t (k - 1) B).
Proof.
  intros Hk s a s' [[H1 H2 H3 H4 H5] Hs] [= _ <-].
  assert (tcbs s !! next_tid s = None) as Hn. { apply eq_None_not_Some. intros ?%H5. lia. }
  split; [constructor; try done; cbn|cbn].
  - intros u y [[<- <-]|[_ ?]]%lookup_insert_Some; [done|eauto].
  - intros u [y [[<- _]|[_ ?]]%lookup_insert_Some]; [lia|]. enough (u < next_tid s) by lia. eauto.
  - destruct (decide (t = next_tid s)) as [->|Hne].
    + rewrite delete_insert_eq. lia.
    + rewrite delete_insert_ne by done. rewrite ksum_insert by (by rewrite lookup_delete_ne). cbn. lia.
Qed.

(** The frame of another thread changes, within the same weight. *)
Lemma triple_other t k B u f g : weight f = weight g → mode_ok b g →
  triple (λ s, busy t k B s ∧ ∃ x, tcbs s !! u = Some x ∧ t_frame x = f) (set_frame u g) (λ _, busy t k B).
Proof.
  intros Hw Hm s a s' [Hb (x & Hx & <-)] (y & s1 & Hy & [_ ->]%put_tcb_inv)%bind_Ok_inv.
  destruct (triple_tcb (λ s0, s0 = s) u s _ _ eq_refl Hy) as [-> ?]. simplify_eq. eapply busy_put; eauto.
Qed.

Lemma triple_mono {A} P t k B (m : U A) Q : triple (busy t k B) m Q → (∀ s, P s → busy t k B s) → triple P m Q.
Proof. apply triple_weaken. Qed.

Lemma triple_later {A} t k B (m : U A) : triple (busy t k B) m (λ _, counted B) → B + 1 < 2 ^ 32 → triple (busy t k B) m (λ _, counted (B + 1)).
Proof. intros H HB s a s' HP E. destruct (H s a s' HP E) as [[H1 H2 H3 H4 H5] Hs]. split; [constructor; auto; lia|done]. Qed.

Lemma triple_keep t k B f (m : U unit) : quiet m → mode_ok b f → weight f ≤ k → triple (busy t k B) (set_frame t f;; m) (λ _, counted B).
Proof. intros Hq Hm Hw. eapply (triple_bind _ (λ _, counted B)); [by apply triple_frame|]. intros _ s a s' HP H. by apply (Hq _ _ _ H). Qed.

Ltac tstep := repeat match goal with
  | |- triple _ (set_frame _ _) _ => apply triple_frame; [done|cbn; lia]
  | |- triple _ (if ?c then _ else _) _ => destruct c
  | |- triple _ (match ?c with _ => _ end) _ => destruct c
  | |- triple _ (_ ≫= _) _ => apply triple_quiet; [by quiet|intros ?]
  end.

Lemma triple_leave t b' B : triple (busy t 1 B) (exit_if_exiting t b') (λ _, counted B).
Proof. unfold exit_if_exiting. eapply triple_bind; [by apply triple_dec|]. intros []; cbn beta. tstep; destruct b'; tstep. Qed.
Lemma triple_pthread_exit t B : triple (busy t 0 B) (pthread_exit t) (λ _, counted B).
Proof. unfold pthread_exit. tstep. Qed.
Lemma triple_create t B : B + 1 < 2 ^ 32 → triple (busy t 1 B) (handler_pthread_create t) (λ _, counted (B + 1)).
Proof. intros HB. unfold handler_pthread_create. eapply triple_bind; [by apply triple_inc|]. intros []; cbn beta. tstep. Qed.
Lemma triple_execute t c m B : triple (busy t 2 B) (pthread_execute t c m) (λ _, counted B).
Proof.
  unfold pthread_execute. apply triple_quiet; [quiet|intros p]. destruct (first_free (stacks p)) as [n|].
  - apply triple_quiet; [quiet|intros _]. destruct m; [cbn [negb]|apply triple_fail]. destruct c; [|tstep]. apply triple_quiet; [quiet|intros _].
    intros s a s' Hb H. refine (triple_bind _ _ (λ _, counted B) _ (λ _, set_frame t (CreateWait 0)) (triple_spawn t 2 B n ltac:(lia)) _ s a s' Hb H).
    intros []. by apply triple_frame.
  - tstep.
Qed.
Lemma triple_undo t B : triple (busy t 2 B) (create_undo t) (λ _, counted B).
Proof. unfold create_undo. eapply triple_bind; [by apply triple_dec|]. intros []; cbn beta. tstep. Qed.

(** A thread that waits, on a semaphore or for the lock of the list, stays
    where it is. *)
Definition ready (t k B : Z) (s : sys) : Prop := busy t k B s ∧ counted B s.
Lemma triple_stay t k B : triple (ready t k B) (mret ()) (λ _, counted B).
Proof. intros s a s' [_ HP] [= _ <-]. done. Qed.
Lemma triple_ready {A} t k B (m : U A) Q : triple (busy t k B) m Q → triple (ready t k B) m Q.
Proof. intros H. eapply triple_weaken; [done|by intros s [? _]]. Qed.
Lemma triple_pcb_ready {A} t k B (f : pcb → U A) Q : (∀ p, triple (ready t k B) (f p) Q) → triple (ready t k B) (p ← get_pcb; f p) Q.
Proof. intros H. eapply triple_bind; [apply triple_pcb|]. intros p. eapply triple_weaken; [apply H|by intros s [? _]]. Qed.

Lemma triple_create_down t v B : triple (ready t 1 B) (create_down t v) (λ _, counted B).
Proof. unfold create_down. case_decide; [apply triple_stay|apply triple_ready; tstep]. Qed.
Lemma triple_start_push t c B : triple (ready t 1 B) (start_push t c) (λ _, counted B).
Proof. unfold start_push. apply triple_pcb_ready. intros p. case_decide; [apply triple_stay|apply triple_ready; tstep]. Qed.
Lemma triple_join_end t pos m B : triple (ready t 1 B) (join_end t pos m) (λ _, counted B).
Proof. unfold join_end. apply triple_pcb_ready. intros p. case_decide; [apply triple_stay|apply triple_ready; tstep]. Qed.
Lemma triple_start t c m B : triple (busy t 1 B) (start_pthread t c m) (λ _, counted B).
Proof. unfold start_pthread. apply triple_quiet; [quiet|intros p]. destruct (_ && _); tstep. Qed.
Lemma triple_start_up t c B : triple (busy t 1 B) (start_up t c) (λ _, counted B).
Proof.
  unfold start_up. eapply triple_bind; [apply triple_tcb|]. intros x; cbn beta.
  eapply (triple_bind _ (λ _, busy t 1 B)); [|intros _; tstep]. destruct (t_frame x) eqn:E; try apply triple_fail.
  eapply triple_weaken; [by apply (triple_other t 1 B c (CreateWait finished))|]. intros s [? ?]. eauto.
Qed.
Lemma triple_join t tid B : triple (busy t 1 B) (pthread_join t tid) (λ _, counted B).
Proof. unfold pthread_join. tstep. Qed.
Lemma triple_join_test t pos m w B : triple (busy t 1 B) (join_test t pos m w) (λ _, counted B).
Proof. unfold join_test. apply triple_quiet; [quiet|intros me]. case_decide; tstep. Qed.
Lemma triple_join_set t pos m w B : triple (busy t 1 B) (join_set t pos m w) (λ _, counted B).
Proof.
  unfold join_set. intros s a s' Hb (x & s1 & Hx & (u & s2 & [_ ->]%put_tcb_inv & H)%bind_Ok_inv)%bind_Ok_inv.
  destruct (triple_tcb (λ s0, s0 = s) pos s _ _ eq_refl Hx) as [-> Hp].
  revert H. match goal with |- ?m ?s2 = _ → _ => enough (triple (busy t 1 B) m (λ _, counted B)) as Ht; [apply Ht|] end.
  - eapply busy_put; [done|done|by left|]. cbn. by eapply (bs_mode _ _ (proj1 Hb)).
  - apply triple_quiet; [quiet|intros p]. apply triple_keep; [destruct (_ && _); quiet|done|done].
Qed.
Lemma triple_exit_block t B : b = true → triple (busy t 1 B) (exit_block t) (λ _, counted B).
Proof. intros Hm. unfold exit_block. apply triple_quiet; [quiet|intros p]. apply triple_keep; [quiet|done|done]. Qed.
Lemma triple_sweep0 t B : b = true → triple (busy t 1 B) (exit_sweep0 t) (λ _, counted B).
Proof. intros Hm. unfold exit_sweep0. tstep. Qed.
Lemma triple_sweep t l B : b = true → triple (busy t 1 B) (exit_sweep t l) (λ _, counted B).
Proof. intros Hm. unfold exit_sweep. tstep. Qed.
Lemma triple_exit_clean t B : triple (busy t 1 B) (exit_clean t) (λ _, counted B).
Proof. unfold exit_clean. tstep. Qed.
Lemma triple_main_clean t B : triple (busy t 1 B) (main_clean t) (λ _, counted B).
Proof. unfold main_clean. tstep. Qed.
Lemma triple_main_loop t B : b = false → triple (busy t 1 B) (main_loop t) (λ _, counted B).
Proof. intros Hm. unfold main_loop. apply triple_quiet; [quiet|intros p]. case_decide; [apply triple_keep; [quiet|done|done]|tstep]. Qed.
Lemma triple_main t B : b = false → triple (busy t 1 B) (pthread_exit_main t) (λ _, counted B).
Proof.
  intros Hm. unfold pthread_exit_main. do 3 (apply triple_quiet; [quiet|intros ?]). case_decide; [|tstep].
  apply triple_quiet; [apply quiet_exiting; congruence|intros ?]. apply triple_quiet; [quiet|intros ?]. by apply triple_main_loop.
Qed.
Lemma triple_exit t c B : b = true → triple (busy t 1 B) (process_exit_normal t c) (λ _, counted B).
Proof.
  intros Hm. unfold process_exit_normal. do 2 (apply triple_quiet; [quiet|intros []]). eapply triple_bind; [apply triple_pcb|]. intros p; cbn beta.
  destruct (exiting p) eqn:E.
  - eapply triple_weaken; [|by intros s [H _]; exact H]. apply triple_quiet; [by apply quiet_exiting|intros ?]. tstep.
  - intros s r s' [[Hb _] ->] _. by destruct (bs_exiting _ _ Hb Hm).
  - eapply triple_weaken; [|by intros s [H _]; exact H]. tstep.
Qed.

Lemma triple_enter t c B : B + 1 < 2 ^ 32 → call_ok b (Enter t c) → triple (busy t 0 B) (enter t c) (λ _, counted (B + 1)).
Proof.
  intros HB Hc. unfold enter. eapply triple_bind; [by apply triple_inc|]. intros []; cbn beta.
  apply triple_quiet; [quiet|intros []]. eapply triple_bind; [apply triple_pcb|]. intros p s a s' [Hs ->]. revert a s'.
  pose proof (bs_main _ _ (proj1 Hs)) as Hm. enough (mode_ok b (match c with
    | PthreadCreate => Create0 | PthreadExit => if decide (t = main_thread (the_pcb s)) then MainEnter else Leave true
    | PthreadJoin tid => JoinCheck tid | ProcessExit code => ExitEnter code | OtherCall => Leave false end)) as Hok.
  { intros a s'. refine (triple_frame t _ _ _ Hok _ s a s' Hs). destruct c; try done. by case_decide. }
  destruct c; try done. rewrite Hm. case_decide; [|done]. cbn. by destruct b; [destruct Hc|].
Qed.
(** A fault keeps the counts: in the program it is one more thread in the
    kernel, in the kernel none. *)
Lemma triple_kill t v B : B + 1 < 2 ^ 32 → b = true →
  triple (busy t 0 B) (kill t SEL_UCSEG v) (λ _, counted (B + 1)) ∧ triple (busy t 1 B) (kill t SEL_KCSEG v) (λ _, counted B).
Proof.
  intros HB Hb. split.
  - apply triple_enter; [done|]. by subst b.
  - unfold kill. rewrite decide_False, decide_True by done. case_decide; [by apply triple_exit|apply triple_fail].
Qed.

Lemma triple_continue t f c m B : B + 1 < 2 ^ 32 → mode_ok b f → triple (ready t (weight f) B) (continue t f c m) (λ _, counted (B + 1)).
Proof.
  intros HB Hf. assert (f = Create0 ∨ f ≠ Create0) as [->|Hne] by (destruct f; auto); [by apply triple_ready, triple_create|].
  enough (triple (ready t (weight f) B) (continue t f c m) (λ _, counted B)) as H.
  { intros s a s' HP E. destruct (H s a s' HP E) as [[H1 H2 H3 H4 H5] Hs]. split; [constructor; auto; lia|done]. }
  destruct f; try done; cbn [continue weight]; try apply triple_stay; eauto using triple_create_down, triple_start_push, triple_join_end; apply triple_ready.
  all: eauto using triple_undo, triple_join_test, triple_leave, triple_pthread_exit, triple_execute, triple_start, triple_start_up, triple_join, triple_join_set, triple_exit_block,
    triple_sweep0, triple_sweep, triple_exit_clean, triple_main_clean, triple_main_loop, triple_main, triple_exit.
Qed.

Lemma triple_dispatch t (m : frame → U unit) B B' : B ≤ B' < 2 ^ 32 →
  (∀ f, mode_ok b f → triple (ready t (weight f) B) (m f) (λ _, counted B')) → triple (counted B) (dispatch t m) (λ _, counted B').
Proof.
  intros HB Hm s a s' Hc (x & s1 & Hx & H)%bind_Ok_inv. destruct (triple_tcb (λ s0, s0 = s) t s _ _ eq_refl Hx) as [-> Ht].
  assert (ready t (weight (t_frame x)) B s) as Hr.
  { split; [|done]. split; [apply Hc|]. destruct Hc as [_ Hc]. rewrite (ksum_delete _ t x Ht) in Hc. lia. }
  destruct (queued x).
  - apply bind_Ok_inv in H as (u & s2 & [Q1 Q2]%quiet_status & H). eapply Hm; [|split; [apply Q1, Hr|apply Q2, Hc]|done].
    by apply (bs_mode _ _ (proj1 Hc) t).
  - injection H as _ <-. destruct Hc as [[H1 H2 H3 H4 H5] Hs]. split; [constructor; auto; lia|done].
Qed.

Lemma triple_step ev B : B + 1 < 2 ^ 32 → call_ok b ev → triple (counted B) (step ev) (λ _, counted (B + 1)).
Proof.
  intros HB Hc. destruct ev as [t c|t c m]; cbn [step]; apply triple_dispatch; try lia; intros f Hf; [|by apply triple_continue].
  destruct f; try (intros s a s' [_ [[H1 H2 H3 H4 H5] Hs]] [= _ <-]; split; [constructor; auto; lia|done]).
  by apply triple_ready, triple_enter.
Qed.

Lemma triple_run (evs : list event) B : B + Z.of_nat (length evs) < 2 ^ 32 → Forall (call_ok b) evs → triple (counted B) (run evs) (λ _, counted (B + Z.of_nat (length evs))).
Proof.
  intros HB Hf. revert B HB. induction Hf as [|ev evs Hev Hf IH]; intros B HB; cbn [run length] in *.
  - intros s a s' Hc [= _ <-]. by replace (B + Z.of_nat 0) with B by lia.
  - eapply triple_bind; [apply triple_step; [lia|done]|]. intros []. replace (B + Z.of_nat (S (length evs))) with (B + 1 + Z.of_nat (length evs)) by lia. apply IH. lia.
Qed.

Lemma boot_counted : counted 0 boot.
Proof.
  split; [|done]. constructor; cbn; try done.
  - by intros u x [<- <-]%lookup_singleton_Some.
  - intros u [x [<- _]%lookup_singleton_Some]. lia.
Qed.

(** A thread that cleans up when the counter is 1 is the only one in the kernel. *)
Lemma counted_alone B s t u x y : counted B s → in_kernel_threads (the_pcb s) = 1 → tcbs s !! t = Some x → 1 ≤ weight (t_frame x) →
  u ≠ t → tcbs s !! u = Some y → weight (t_frame y) = 0.
Proof.
  intros [_ Hs] Hk Hx Hw Hne Hy. rewrite (ksum_delete _ t x Hx) in Hs.
  pose proof (ksum_elem (delete t (tcbs s)) u y ltac:(by rewrite lookup_delete_ne)). pose proof (weight_nonneg (t_frame y)). lia.
Qed.
End Counts.

(** In the program, past the point in [exit_if_exiting] at which the counter is
    decremented and on the way to [pthread_exit], or ended. *)
Definition uncounted (f : frame) : Prop := f = User ∨ f = PExit ∨ f = Dead.
Definition cleans (f : frame) : Prop := f = ExitClean ∨ f = MainClean.

Lemma step_cleans t c m s s' x : tcbs s !! t = Some x → queued x = true → cleans (t_frame x) → step (Continue t c m) s = Ok ((), s') →
  in_kernel_threads (the_pcb s) = 1.
Proof.
  intros Ht Hq Hf H. cbn [step] in H. unfold dispatch in H. apply bind_Ok_inv in H as (y & s1 & Hy & H).
  destruct (triple_tcb (λ s0, s0 = s) t s _ _ eq_refl Hy) as [-> ?]; simplify_eq. rewrite Hq in H.
  apply bind_Ok_inv in H as ([] & s2 & (z & s3 & Hz & [_ ->]%put_tcb_inv)%bind_Ok_inv & H).
  destruct (triple_tcb (λ s0, s0 = s) t s _ _ eq_refl Hz) as [-> _].
  destruct Hf as [Hf|Hf]; rewrite Hf in H; cbn [continue] in H; unfold exit_clean, main_clean in H;
    apply bind_Ok_inv in H as (p & s4 & [= <- <-] & H); [|apply bind_Ok_inv in H as ([] & s5 & [= <-] & H)];
    apply bind_Ok_inv in H as (r & s6 & [?%bool_decide_eq_true _]%ASSERT_inv & _); done.
Qed.

(** The thread that frees the others frees all that are in the list. *)
Lemma free_threads_frees l s s' : free_threads l s = Ok ((), s') → ∀ u, u ∈ l → tcbs s' !! u = None.
Proof.
  revert s. induction l as [|t l IH]; intros s H u Hu; [by apply elem_of_nil in Hu|]. cbn [free_threads] in H. apply bind_Ok_inv in H as ([] & s1 & H1 & H).
  assert (∀ l s1, free_threads l s1 = Ok ((), s') → tcbs s1 !! u = None → tcbs s' !! u = None) as Hkeep.
  { clear. induction l as [|v l IH]; intros s1 H Hn; [by injection H as <-|]. cbn [free_threads] in H. apply bind_Ok_inv in H as ([] & s2 & (x & s3 & Hx & [= <-])%bind_Ok_inv & H).
    destruct (triple_tcb (λ s0, s0 = s1) v s1 _ _ eq_refl Hx) as [-> _]. eapply IH; [done|]. cbn. by rewrite lookup_delete_None; right. }
  apply elem_of_cons in Hu as [->|Hu]; [|by eapply IH]. eapply Hkeep; [done|]. apply bind_Ok_inv in H1 as (x & s3 & Hx & [= <-]). apply lookup_delete_eq.
Qed.
Lemma set_frame_dom t f s s' u : set_frame t f s = Ok ((), s') → tcbs s !! u = None → tcbs s' !! u = None.
Proof.
  intros (x & s1 & Hx & [[y Hy] ->]%put_tcb_inv)%bind_Ok_inv Hn. destruct (triple_tcb (λ s0, s0 = s) t s _ _ eq_refl Hx) as [-> Ht]. cbn. rewrite lookup_insert_ne; [done|congruence].
Qed.
Lemma step_frees t c m s s' x u : tcbs s !! t = Some x → queued x = true → cleans (t_frame x) → step (Continue t c m) s = Ok ((), s') →
  u ≠ t → u ∈ threads (the_pcb s) → tcbs s' !! u = None.
Proof.
  intros Ht Hq Hf H Hne Hu. cbn [step] in H. unfold dispatch in H. apply bind_Ok_inv in H as (y & s1 & Hy & H).
  destruct (triple_tcb (λ s0, s0 = s) t s _ _ eq_refl Hy) as [-> ?]; simplify_eq. rewrite Hq in H.
  apply bind_Ok_inv in H as ([] & s2 & (z & s3 & Hz & [_ ->]%put_tcb_inv)%bind_Ok_inv & H).
  destruct (triple_tcb (λ s0, s0 = s) t s _ _ eq_refl Hz) as [-> _].
  destruct Hf as [Hf|Hf]; rewrite Hf in H; cbn [continue] in H; unfold exit_clean, main_clean in H; apply bind_Ok_inv in H as (p & s4 & [= <- <-] & H).
  - apply bind_Ok_inv in H as ([] & s5 & [_ [= ->]]%ASSERT_inv & H). apply bind_Ok_inv in H as ([] & s6 & H6 & H). apply bind_Ok_inv in H as ([] & s7 & [= <-] & H).
    eapply set_frame_dom; [done|]. cbn. by apply (free_threads_frees _ _ _ H6).
  - apply bind_Ok_inv in H as ([] & s5 & [= <-] & H). apply bind_Ok_inv in H as ([] & s6 & [_ [= ->]]%ASSERT_inv & H). apply bind_Ok_inv in H as ([] & s7 & H7 & H).
    apply bind_Ok_inv in H as ([] & s8 & [= <-] & H). eapply set_frame_dom; [done|]. cbn. apply (free_threads_frees _ _ _ H7). by apply list_elem_of_filter.
Qed.

(** C23: the counter [in_kernel_threads] along every history in which the main
    thread does not call [pthread_exit], or no thread calls [exit].  It is at
    least the number of threads between the start of a system call and its
    decrement in [exit_if_exiting] (the creator of a thread counting for the new
    one), and at most the number of events, so it never wraps; and when the
    thread that ends the process frees the others in the list, each of these
    is in the program, has ended, or has passed the decrement and is on its way to
    [pthread_exit].  The last are still on their kernel stacks, which are
    freed nevertheless (see [freed_in_kernel]). *)
Theorem thread_counts (b : bool) (evs : list event) s :
  Z.of_nat (length evs) < 2 ^ 32 → Forall (call_ok b) evs → run evs boot = Ok ((), s) →
  ksum (tcbs s) ≤ in_kernel_threads (the_pcb s) ≤ Z.of_nat (length evs) ∧
  ∀ t c m x s', tcbs s !! t = Some x → queued x = true → cleans (t_frame x) → step (Continue t c m) s = Ok ((), s') →
    (∀ u y, u ≠ t → tcbs s !! u = Some y → uncounted (t_frame y)) ∧
    (∀ u, u ≠ t → u ∈ threads (the_pcb s) → tcbs s' !! u = None).
Proof.
  intros Hl Hf Hr. assert (counted b (Z.of_nat (length evs)) s) as Hc.
  { refine (triple_run b evs 0 _ Hf boot () s (boot_counted b) Hr). lia. }
  split; [split; [apply Hc|apply (bs_range _ _ _ (proj1 Hc))]|].
  intros t c m x s' Hx Hq Hcl Hs. split; [|intros u; by eapply step_frees].
  intros u y Hne Hy. pose proof (step_cleans _ _ _ _ _ _ Hx Hq Hcl Hs) as Hk.
  assert (1 ≤ weight (t_frame x)) as Hw by (destruct Hcl as [-> | ->]; cbn; lia).
  pose proof (counted_alone b _ _ _ _ _ _ Hc Hk Hx Hw Hne Hy). unfold uncounted. destruct (t_frame y); try done; auto.
Qed.

(** ** Joining *)

(** Thread 1 creates thread 2; both are back in the program. *)
Abbreviation C t := (Continue t true true).
Definition two_threads : list event := [Enter 1 PthreadCreate; C 1; C 1; C 2; C 2; C 2; C 1; C 1; C 2].

Definition with_frame (x : tcb) (f : frame) : tcb := Tcb (t_status x) (queued x) (in_handler x) (joined_by x) (stack_no x) f.

Lemma get_tcb_run t x s : tcbs s !! t = Some x → get_tcb t s = Ok (x, s).
Proof. intros H. unfold get_tcb, get, mbind, M_bind, lift. by rewrite H. Qed.
Lemma put_tcb_run t y s : is_Some (tcbs s !! t) → put_tcb t y s = Ok ((), Sys (<[t := y]> (tcbs s)) (the_pcb s) (next_tid s) (all_list s)).
Proof. intros [x H]. unfold put_tcb. by rewrite (bind_Ok _ _ _ _ _ (get_tcb_run _ _ _ H)). Qed.
Lemma at_new_frame t f x s : tcbs s !! t = Some x → set_frame t f s = Ok ((), Sys (<[t := with_frame x f]> (tcbs s)) (the_pcb s) (next_tid s) (all_list s)).
Proof. intros H. unfold set_frame. rewrite (bind_Ok _ _ _ _ _ (get_tcb_run _ _ _ H)). by apply put_tcb_run. Qed.
Lemma set_status_run t st q x s : tcbs s !! t = Some x →
  set_status t st q s = Ok ((), Sys (<[t := Tcb st q (in_handler x) (joined_by x) (stack_no x) (t_frame x)]> (tcbs s)) (the_pcb s) (next_tid s) (all_list s)).
Proof. intros H. unfold set_status. rewrite (bind_Ok _ _ _ _ _ (get_tcb_run _ _ _ H)). by apply put_tcb_run. Qed.

(** A thread that runs continues where it is. *)
Lemma continue_run t c m x s : tcbs s !! t = Some x → queued x = true → t_status x = Ready →
  step (Continue t c m) s = continue t (t_frame x) c m s.
Proof.
  intros Ht Hq Hs. cbn [step]. unfold dispatch. rewrite (bind_Ok _ _ _ _ _ (get_tcb_run _ _ _ Ht)), Hq, (bind_Ok _ _ _ _ _ (set_status_run _ _ _ _ _ Ht)).
  rewrite insert_id; [by destruct s|]. by destruct x; cbn in *; subst.
Qed.

Lemma run_app evs evs' s : run (evs ++ evs') s = (run evs;; run evs') s.
Proof.
  revert s. induction evs as [|ev evs IH]; intros s; [done|]. cbn [run app]. unfold mbind, M_bind in *. destruct (step ev s) as [[[] s1]|e]; [|done]. apply IH.
Qed.
Lemma find_thread_run tid l x s : Forall (λ t, is_Some (tcbs s !! t)) l → tid ∈ l → tcbs s !! tid = Some x → find_thread tid l s = Ok (Some x, s).
Proof.
  intros Hl Hin Hx. induction Hl as [|t l [y Hy] Hl IH]; [by apply elem_of_nil in Hin|]. cbn [find_thread].
  rewrite (bind_Ok _ _ _ _ _ (get_tcb_run _ _ _ Hy)). case_decide as Ht; [by simplify_eq|]. apply IH. set_solver.
Qed.

Definition with_threads (p : pcb) (l : list Z) : pcb :=
  Pcb (exiting p) (exit_code p) (thread_exiting p) (in_kernel_threads p) (active_threads p) l (stacks p) (main_thread p) (readers p).
Lemma join_end_run t tid c m y z s : t ≠ tid → tcbs s !! t = Some y → queued y = true → t_status y = Ready → t_frame y = JoinEnd tid false →
  tcbs s !! tid = Some z → t_status z = Zombie → readers (the_pcb s) = 0 →
  step (Continue t c m) s = Ok ((), Sys (<[t := with_frame y (Leave false)]> (delete tid (tcbs s)))
    (with_threads (the_pcb s) (filter (λ u, u ≠ tid) (threads (the_pcb s)))) (next_tid s) (all_list s)).
Proof.
  intros Hne Hy Hq Hs Hf Hz Hst Hr. rewrite (continue_run _ _ _ y) by done. rewrite Hf. cbn [continue]. unfold join_end.
  rewrite (bind_Ok get_pcb _ _ (the_pcb s) s eq_refl), decide_False by lia. rewrite (bind_Ok _ _ _ _ _ (get_tcb_run _ _ _ Hz)).
  set (p' := with_threads (the_pcb s) _). rewrite (bind_Ok _ _ s () (Sys (delete tid (tcbs s)) p' (next_tid s) (all_list s))).
  2:{ rewrite (bind_Ok (ASSERT _) _ s () s) by (unfold ASSERT; by rewrite bool_decide_eq_true_2).
      rewrite (bind_Ok (set_threads _) _ s () (Sys (tcbs s) p' (next_tid s) (all_list s))) by reflexivity.
      unfold free_tcb. by rewrite (bind_Ok (get_tcb _) _ _ z (Sys (tcbs s) p' (next_tid s) (all_list s))) by (by apply get_tcb_run). }
  by rewrite (at_new_frame _ _ y) by (cbn; by rewrite lookup_delete_ne).
Qed.

(** The state in front of a join: [t] calls [pthread_join] on another thread of
    the process that runs, is not joined and does not join [t]. *)
Record joining (t tid : Z) (me pos : tcb) (s : sys) : Prop := {
  jn_ne : t ≠ tid; jn_null : t ≠ NULL;
  jn_me : tcbs s !! t = Some me; jn_frame : t_frame me = JoinCheck tid; jn_queued : queued me = true; jn_ready : t_status me = Ready;
  jn_pos : tcbs s !! tid = Some pos; jn_free : joined_by pos = NULL; jn_no_cycle : joined_by me ≠ tid;
  jn_in : tid ∈ threads (the_pcb s); jn_live : Forall (λ t, is_Some (tcbs s !! t)) (threads (the_pcb s));
  jn_main : tid ≠ main_thread (the_pcb s);
}.

Section Join.
Context (t tid : Z) (me pos : tcb) (s : sys) (J : joining t tid me pos s) (c m : bool).

(** [pthread_join] up to [thread_block]. *)
Definition joiner (st : status) (q : bool) : tcb := Tcb st q (in_handler me) (joined_by me) (stack_no me) (JoinEnd tid false).
Definition target : tcb := Tcb (t_status pos) (queued pos) (in_handler pos) t (stack_no pos) (t_frame pos).
Definition joined : sys :=
  let zombie := bool_decide (t_status pos = Zombie) in
  Sys (<[t := joiner (if zombie then Ready else Blocked) zombie]> (<[tid := target]> (tcbs s))) (the_pcb s) (next_tid s) (all_list s).
Lemma joined_me : tcbs joined !! t = Some (joiner (if bool_decide (t_status pos = Zombie) then Ready else Blocked) (bool_decide (t_status pos = Zombie))).
Proof. apply lookup_insert_eq. Qed.
Lemma joined_pos : tcbs joined !! tid = Some target.
Proof. destruct J. unfold joined; cbn. rewrite lookup_insert_ne by done. apply lookup_insert_eq. Qed.

Definition at_frame (f : frame) : sys := Sys (<[t := with_frame me f]> (tcbs s)) (the_pcb s) (next_tid s) (all_list s).
Abbreviation w := (negb (bool_decide (t_status pos = Zombie))).

Lemma at_frame_me f : tcbs (at_frame f) !! t = Some (with_frame me f).
Proof. apply lookup_insert_eq. Qed.
Lemma at_frame_pos f : tcbs (at_frame f) !! tid = Some pos.
Proof. destruct J. unfold at_frame; cbn. by rewrite lookup_insert_ne. Qed.
Lemma at_frame_set f g : set_frame t g (at_frame f) = Ok ((), at_frame g).
Proof. rewrite (at_new_frame _ _ _ _ (at_frame_me f)). unfold at_frame; cbn. by rewrite insert_insert_eq. Qed.
Lemma at_frame_continue f : step (Continue t c m) (at_frame f) = continue t f c m (at_frame f).
Proof. destruct J. by rewrite (continue_run _ _ _ _ _ (at_frame_me f)). Qed.

Lemma join_check_run : step (Continue t c m) s = Ok ((), at_frame (JoinTest tid false w)).
Proof.
  destruct J as [Hne Hn Hme Hf Hq Hr Hpos Hfree Hcy Hin Hl Hm]. rewrite (continue_run _ _ _ me) by done. rewrite Hf. cbn [continue]. unfold pthread_join.
  rewrite (bind_Ok _ _ _ (the_pcb s) s eq_refl), (bind_Ok _ _ _ _ _ (find_thread_run _ _ _ _ Hl Hin Hpos)), decide_True by done.
  rewrite (bool_decide_eq_false_2 _ Hm). by apply at_new_frame.
Qed.
Lemma join_test_run : step (Continue t c m) (at_frame (JoinTest tid false w)) = Ok ((), at_frame (JoinSet tid false w)).
Proof.
  rewrite at_frame_continue. cbn [continue]. unfold join_test. rewrite (bind_Ok _ _ _ _ _ (get_tcb_run _ _ _ (at_frame_me _))).
  rewrite decide_False by (cbn; destruct J; tauto). apply at_frame_set.
Qed.
Lemma join_set_run : step (Continue t c m) (at_frame (JoinSet tid false w)) = Ok ((), joined).
Proof.
  rewrite at_frame_continue. cbn [continue]. unfold join_set. rewrite (bind_Ok _ _ _ _ _ (get_tcb_run _ _ _ (at_frame_pos _))).
  rewrite (bind_Ok _ _ _ _ _ (put_tcb_run _ _ _ (mk_is_Some _ _ (at_frame_pos _)))). pose proof (jn_ne _ _ _ _ _ J).
  erewrite (bind_Ok get_pcb) by reflexivity.
  match goal with |- (_ ≫= _) ?s1 = _ => assert (tcbs s1 !! t = Some (with_frame me (JoinSet tid false w))) as H1 by (cbn; rewrite lookup_insert_ne by done; apply lookup_insert_eq) end.
  rewrite (bind_Ok _ _ _ _ _ (at_new_frame _ _ _ _ H1)). cbn [tcbs the_pcb next_tid at_frame].
  rewrite (insert_insert_ne _ tid t), !insert_insert_eq by done.
  rewrite orb_true_r, andb_true_r. unfold joined. destruct (bool_decide (t_status pos = Zombie)); cbn [negb].
  - destruct J. by unfold mret, M_ret, with_frame; rewrite jn_queued0, jn_ready0.
  - erewrite set_status_run by apply lookup_insert_eq. cbn. by rewrite insert_insert_eq.
Qed.

Lemma join_run : run [Continue t c m; Continue t c m; Continue t c m] s = Ok ((), joined).
Proof. cbn [run]. by rewrite (bind_Ok _ _ _ _ _ join_check_run), (bind_Ok _ _ _ _ _ join_test_run), (bind_Ok _ _ _ _ _ join_set_run). Qed.

Definition reaped (p : pcb) : sys :=
  Sys (<[t := with_frame me (Leave false)]> (delete tid (tcbs s))) (with_threads p (filter (λ u, u ≠ tid) (threads p))) (next_tid s) (all_list s).

Lemma join_zombie_run : t_status pos = Zombie → readers (the_pcb s) = 0 → step (Continue t c m) joined = Ok ((), reaped (the_pcb s)).
Proof.
  intros Hz Hr. pose proof joined_me as Hme. rewrite bool_decide_eq_true_2 in Hme by done. pose proof (jn_ne _ _ _ _ _ J) as Hne.
  rewrite (join_end_run t tid c m _ _ _ Hne Hme eq_refl eq_refl eq_refl joined_pos Hz Hr). unfold joined, reaped, with_frame; cbn.
  by rewrite delete_insert_ne, insert_insert_eq, delete_insert_eq, (jn_queued _ _ _ _ _ J), (jn_ready _ _ _ _ _ J) by done.
Qed.
End Join.

(** ** Runs *)

(** Thread 1 calls [exit] and gets to the point where it frees the others. *)
Definition exit_to_clean : list event := two_threads ++ [Enter 1 (ProcessExit 0); C 1; C 1; C 1; C 1; C 1].

Lemma exit_to_clean_run : ∃ s, run exit_to_clean boot = Ok ((), s) ∧
  (∃ x, tcbs s !! 1 = Some x ∧ queued x = true ∧ t_frame x = ExitClean) ∧ (∃ y, tcbs s !! 2 = Some y) ∧ in_kernel_threads (the_pcb s) = 1.
Proof.
  destruct (run exit_to_clean boot) as [[[] s]|e] eqn:E; [|by vm_compute in E].
  exists s. split; [done|]. vm_compute in E. injection E as <-. vm_compute. eauto 10.
Qed.

Lemma thread_counts_witness : ∃ s, run exit_to_clean boot = Ok ((), s) ∧ in_kernel_threads (the_pcb s) = 1 ∧
  ∃ y, tcbs s !! 2 = Some y ∧ ksum (tcbs s) ≤ 1.
Proof.
  destruct exit_to_clean_run as (s & Hr & _ & [y Hy] & Hk). exists s. split; [done|]. split; [done|]. exists y. split; [done|]. rewrite <- Hk.
  apply (thread_counts true exit_to_clean s); [vm_compute; done| |done]. repeat constructor; done.
Defined.

(** The counter says nothing of a thread that has passed its decrement in
    [exit_if_exiting]: when the thread that ends the process finds the counter
    at 1 and frees the others, and one of them is on its way to [pthread_exit] and
    ready to run, its next step uses its freed TCB. *)
Theorem freed_in_kernel t u c m c' m' x y s s' :
  tcbs s !! t = Some x → queued x = true → cleans (t_frame x) → u ≠ t → u ∈ threads (the_pcb s) →
  tcbs s !! u = Some y → t_frame y = PExit → queued y = true →
  step (Continue t c m) s = Ok ((), s') → step (Continue u c' m') s' = Err Undef.
Proof.
  intros Hx Hq Hf Hne Hu _ _ _ H. pose proof (step_frees _ _ _ _ _ _ _ Hx Hq Hf H Hne Hu) as Hn.
  cbn [step]. unfold dispatch. apply bind_Err. unfold get_tcb, get, mbind, M_bind, lift. by rewrite Hn.
Qed.
(** Thread 2 is in a system call when thread 1 calls [exit]; it leaves the count, which wakes thread 1. *)
Definition exit_past_two : list event :=
  two_threads ++ [Enter 2 OtherCall; Enter 1 (ProcessExit 0); C 1; C 1; C 1; C 1; C 1; C 2].
Lemma freed_in_kernel_witness : ∃ s s', run exit_past_two boot = Ok ((), s) ∧ step (C 1) s = Ok ((), s') ∧ step (C 2) s' = Err Undef.
Proof.
  destruct (run exit_past_two boot) as [[[] s]|e] eqn:E; [|by vm_compute in E]. vm_compute in E. injection E as <-.
  match goal with |- ∃ s s', Ok ((), ?s0) = _ ∧ _ => exists s0; destruct (step (C 1) s0) as [[[] s']|] eqn:E; [|by vm_compute in E];
    exists s'; split; [reflexivity|]; split; [reflexivity|]; refine (freed_in_kernel 1 2 true true true true _ _ s0 s' _ _ _ _ _ _ _ _ E) end.
  - vm_compute. reflexivity.
  - reflexivity.
  - left. reflexivity.
  - done.
  - apply list_elem_of_In. left. reflexivity.
  - vm_compute. reflexivity.
  - reflexivity.
  - reflexivity.
Defined.

(** When no thread is in the ready list, nothing happens any more. *)
Lemma stuck s evs s' : map_Forall (λ _ x, queued x = false) (tcbs s) → run evs s = Ok ((), s') → s' = s.
Proof.
  intros Hs. revert s'. induction evs as [|ev evs IH]; intros s' H; cbn [run] in H; [by injection H|].
  apply bind_Ok_inv in H as ([] & s1 & H1 & H2). enough (s1 = s) as -> by auto. clear H2.
  assert (∃ t m, step ev = dispatch t m) as (t & m & E) by (destruct ev; cbn; eauto). rewrite E in H1.
  unfold dispatch in H1. apply bind_Ok_inv in H1 as (x & s2 & Hx & H1). destruct (triple_tcb (λ s0, s0 = s) t s _ _ eq_refl Hx) as [-> Ht].
  rewrite (Hs _ _ Ht) in H1. by injection H1.
Qed.

Definition asleep_for_ever (evs : list event) (t : Z) : Prop :=
  ∃ s x, run evs boot = Ok ((), s) ∧ tcbs s !! t = Some x ∧ t_status x = Blocked ∧ ∀ evs' s', run evs' s = Ok ((), s') → s' = s.

Definition asleep_check (evs : list event) (t : Z) : bool :=
  match run evs boot with
  | Ok (_, s) => forallb (λ p, negb (queued p.2)) (map_to_list (tcbs s)) &&
      match tcbs s !! t with Some x => bool_decide (t_status x = Blocked) | None => false end
  | _ => false
  end.
Lemma asleep_check_ok evs t : asleep_check evs t = true → asleep_for_ever evs t.
Proof.
  unfold asleep_check, asleep_for_ever. destruct (run evs boot) as [[[] s]|]; [|done]. intros [Hq Hs]%andb_prop.
  destruct (tcbs s !! t) as [x|] eqn:Ht; [|done]. apply bool_decide_eq_true in Hs. exists s, x. repeat split; try done.
  intros evs' s' H. eapply stuck; [|done]. intros u y Hy. rewrite forallb_forall in Hq.
  specialize (Hq (u, y)). apply negb_true_iff, Hq. by apply list_elem_of_In, elem_of_map_to_list.
Qed.

(** Failures of joining and ending that preemption makes possible, as runs
    from a process with two threads.  A thread that joins one which then calls
    [exit] panics the kernel, because it is woken before the other is a
    zombie.  A thread that is preempted between the search of [pthread_join]
    and [thread_block] while the other ends sleeps for ever, and so does the
    main thread when it calls [pthread_exit] while the last other thread is
    between [exit_if_exiting] and [pthread_exit].  When a thread calls [exit],
    another that is in the ready list stays there, its status being tested
    after it was set to zombie, and is freed: it is scheduled nevertheless.
    And when another has ended before by [pthread_exit] and was not joined, its
    element is taken out of [all_list] a second time. *)
Theorem thread_failures :
  run (two_threads ++ [Enter 1 (PthreadJoin 2); C 1; C 1; C 1; Enter 2 (ProcessExit 0); C 2; C 2; C 2; C 2; C 2; C 1]) boot = Err Panic ∧
  asleep_for_ever (two_threads ++ [Enter 1 (PthreadJoin 2); C 1; C 1; Enter 2 PthreadExit; C 2; C 2; C 1]) 1 ∧
  asleep_for_ever (two_threads ++ [Enter 1 PthreadExit; Enter 2 PthreadExit; C 2; C 1; C 2]) 1 ∧
  run (exit_to_clean ++ [C 1; C 2]) boot = Err Undef ∧
  run (two_threads ++ [Enter 2 PthreadExit; C 2; C 2; Enter 1 (ProcessExit 0); C 1; C 1; C 1]) boot = Err Undef.
Proof.
  refine (conj _ (conj (asleep_check_ok _ _ _) (conj (asleep_check_ok _ _ _) (conj _ _)))); vm_compute; reflexivity.
Qed.

End UserThreadSpec.
