(* ===== verification/UserJoin.v ===== *)
(** * Joining a thread: theorems

    A thread that sleeps in [pthread_join] sleeps until the other thread calls
    [pthread_exit], whatever the threads of the process do in the meantime short of ending
    the process; then it goes on and frees the other thread. *)

From S2P Require Import Prelude UserThread UserThreadSpec.
Import UserThread UserThreadSpec.

Module UserJoin.

(** A thread that ends the process, or the main thread in [pthread_exit]. *)
Definition ends (f : frame) : bool :=
  match f with
  | ExitEnter _ | Sweep0 | Sweep _ | ExitBlock | ExitClean | MainEnter | MainLoop | MainClean | Tail => true
  | _ => false
  end.
(** It has found the thread [tid] and is going to join it. *)
Definition joins (tid : Z) (f : frame) : bool :=
  match f with JoinTest p _ _ | JoinSet p _ _ | JoinEnd p _ => bool_decide (p = tid) | _ => false end.

(** Events of other threads than [t] that do not end the process. *)
Definition of_others (t : Z) (ev : event) : Prop :=
  match ev with
  | Enter u (ProcessExit _) => False
  | Enter u PthreadExit => u ≠ t ∧ u ≠ 1
  | Enter u _ | Continue u _ _ => u ≠ t
  end.

Section Join.
Context (t tid : Z).

Record other_ok (u : Z) (x : tcb) : Prop := {
  ot_ends : ends (t_frame x) = false;
  ot_joined : u ≠ tid → joined_by x ≠ t;
  ot_joins : joins tid (t_frame x) = false;
}.

(** The thread [t] is in [pthread_join] for [tid]: asleep, or, if [woken], awake
    after [tid] has ended. *)
Record joining_for (woken : bool) (s : sys) : Prop := {
  jf_ne : t ≠ tid; jf_null : t ≠ NULL;
  jf_exiting : exiting (the_pcb s) = EXITING_NONE; jf_main : main_thread (the_pcb s) = 1; jf_readers : readers (the_pcb s) = 0;
  jf_fresh u : is_Some (tcbs s !! u) → u < next_tid s;
  jf_me : ∃ x, tcbs s !! t = Some x ∧ t_frame x = JoinEnd tid false ∧ t_status x = (if woken then Ready else Blocked) ∧ queued x = woken;
  jf_pos : ∃ z, tcbs s !! tid = Some z ∧ joined_by z = t ∧
    if woken then t_status z = Zombie ∧ queued z = false ∧ t_frame z = Dead else t_status z ≠ Zombie ∧ t_frame z ≠ Dead;
  jf_in : tid ∈ threads (the_pcb s);
  jf_others u x : u ≠ t → tcbs s !! u = Some x → other_ok u x;
}.

(** ** What keeps it *)

Abbreviation keeps w m := (triple (joining_for w) m (λ _, joining_for w)).

Lemma jf_put w s u x y : joining_for w s → u ≠ t → tcbs s !! u = Some x → other_ok u y →
  (u = tid → w = false ∧ joined_by y = t ∧ t_status y ≠ Zombie ∧ t_frame y ≠ Dead) →
  joining_for w (Sys (<[u := y]> (tcbs s)) (the_pcb s) (next_tid s) (all_list s)).
Proof.
  intros [J1 J2 J3 J4 J5 J6 (xt & J7) (z & J8) J9 J10] Hu Hx Hy Hp. constructor; cbn; try done.
  - intros v [z' [[<- _]|[_ ?]]%lookup_insert_Some]; eauto.
  - exists xt. by rewrite lookup_insert_ne.
  - destruct (decide (u = tid)) as [->|Hne].
    + exists y. rewrite lookup_insert_eq. destruct (Hp eq_refl) as (-> & ? & ? & ?). done.
    + exists z. by rewrite lookup_insert_ne.
  - intros v z' Hv [[<- <-]|[_ ?]]%lookup_insert_Some; [done|eauto].
Qed.
Lemma jf_pcb w s p : joining_for w s → exiting p = exiting (the_pcb s) → main_thread p = main_thread (the_pcb s) → readers p = readers (the_pcb s) →
  tid ∈ threads p → joining_for w (Sys (tcbs s) p (next_tid s) (all_list s)).
Proof. intros [J1 J2 J3 J4 J5 J6 J7 J8 J9 J10] E1 E2 E3 E4. constructor; cbn; congruence || done. Qed.

Lemma join_ret {A} w (a : A) : keeps w (mret a).
Proof. by intros s x s' HP [= <- <-]. Qed.
Lemma keeps_add_kernel w d : keeps w (add_kernel d).
Proof. intros s a s' HJ [= _ <-]. apply jf_pcb; try done. apply HJ. Qed.
Lemma keeps_add_active w d : keeps w (add_active d).
Proof. intros s a s' HJ [= _ <-]. apply jf_pcb; try done. apply HJ. Qed.
Lemma keeps_stacks w S : keeps w (set_stacks S).
Proof. intros s a s' HJ [= _ <-]. apply jf_pcb; try done. apply HJ. Qed.
Lemma join_ASSERT w c : keeps w (ASSERT c).
Proof. intros s x s' HJ [_ [= -> ->]]%ASSERT_inv. done. Qed.
Lemma keeps_tcb w u : keeps w (get_tcb u).
Proof. intros s x s' HJ H. by destruct (triple_tcb (λ s0, s0 = s) u s _ _ eq_refl H) as [-> _]. Qed.
Lemma keeps_all_remove w u : keeps w (all_remove u).
Proof.
  intros s a s' [J1 J2 J3 J4 J5 J6 J7 J8 J9 J10] (x & s1 & Hx & (y & s2 & [= <- <-] & H)%bind_Ok_inv)%bind_Ok_inv.
  destruct (triple_tcb (λ s0, s0 = s) u s _ _ eq_refl Hx) as [-> _]. case_decide; [|done]. injection H as _ <-. by constructor.
Qed.

(** The thread that takes the step, while it is not the one that has ended. *)
Definition active (w : bool) (u : Z) : Prop := u ≠ t ∧ (u = tid → w = false).

Lemma keeps_update w u g : active w u →
  (∀ x, joined_by (g x) = joined_by x ∧ (other_ok u x → other_ok u (g x)) ∧
        (u = tid → t_status x ≠ Zombie → t_frame x ≠ Dead → t_status (g x) ≠ Zombie ∧ t_frame (g x) ≠ Dead)) →
  keeps w (x ← get_tcb u; put_tcb u (g x)).
Proof.
  intros [Hu Hw] Hg s a s' HJ (x & s1 & Hx & [_ ->]%put_tcb_inv)%bind_Ok_inv. destruct (triple_tcb (λ s0, s0 = s) u s _ _ eq_refl Hx) as [-> Hux].
  destruct (Hg x) as (E & Ho & Hz). eapply jf_put; [done|done|exact Hux|apply Ho; by apply (jf_others _ _ HJ)|]. intros ->. specialize (Hw eq_refl). subst w.
  destruct (jf_pos _ _ HJ) as (z & Hzz & Hj & Hs & Hf). simplify_eq. split; [done|]. split; [congruence|]. by apply Hz.
Qed.
Lemma keeps_frame w u f : active w u → ends f = false → joins tid f = false → (u = tid → f ≠ Dead) → keeps w (set_frame u f).
Proof. intros Hu He Hj Hd. apply (keeps_update w u (λ x, Tcb (t_status x) (queued x) (in_handler x) (joined_by x) (stack_no x) f)); [done|]. intros x. split; [done|]. split; [by intros []|auto]. Qed.
Lemma keeps_status w u st q : active w u → (u = tid → st ≠ Zombie) → keeps w (set_status u st q).
Proof. intros Hu Hs. apply (keeps_update w u (λ x, Tcb st q (in_handler x) (joined_by x) (stack_no x) (t_frame x))); [done|]. intros x. split; [done|]. split; [by intros []|auto]. Qed.
Lemma keeps_handler w u h : active w u → keeps w (set_handler u h).
Proof. intros Hu. apply (keeps_update w u (λ x, Tcb (t_status x) (queued x) h (joined_by x) (stack_no x) (t_frame x))); [done|]. intros x. split; [done|]. split; [by intros []|auto]. Qed.
(** A blocked thread has not ended. *)
Lemma keeps_unblock w v : v ≠ t → keeps w (thread_unblock v).
Proof.
  intros Hv s a s' HJ (x & s1 & Hx & ([] & s2 & [Hb%bool_decide_eq_true [= ->]]%ASSERT_inv & H)%bind_Ok_inv)%bind_Ok_inv.
  destruct (triple_tcb (λ s0, s0 = s) v s _ _ eq_refl Hx) as [-> Hvx]. eapply (keeps_status w v Ready true); [|done|exact HJ|exact H].
  split; [done|]. intros ->. destruct (jf_pos _ _ HJ) as (z & Hz & _ & Hzz). simplify_eq. destruct w; [|done]. destruct Hzz. congruence.
Qed.
(** Nobody but [tid] is joined by [t]. *)
Lemma keeps_joiner w u : u ≠ t → u ≠ tid → keeps w (wake_up_joiner u).
Proof.
  intros Hu Hut s a s' HJ (x & s1 & Hx & H)%bind_Ok_inv. destruct (triple_tcb (λ s0, s0 = s) u s _ _ eq_refl Hx) as [-> Hux].
  case_decide; [by injection H as _ <-|]. eapply keeps_unblock; [|exact HJ|exact H]. by apply (jf_others _ _ HJ u x).
Qed.
Lemma join_bind {A B} w (m : U A) (f : A → U B) : keeps w m → (∀ a, keeps w (f a)) → keeps w (m ≫= f).
Proof. intros Hm Hf. by eapply triple_bind. Qed.
Lemma keeps_pcb {A} w (f : pcb → U A) :
  (∀ p, exiting p = EXITING_NONE → main_thread p = 1 → readers p = 0 → tid ∈ threads p → keeps w (f p)) → keeps w (p ← get_pcb; f p).
Proof. intros H s a s' HJ (p & s1 & [= <- <-] & E)%bind_Ok_inv. eapply H; [apply HJ..|exact HJ|exact E]. Qed.
Lemma keeps_threads w l : tid ∈ l → keeps w (set_threads l).
Proof. intros Hl s a s' HJ [= _ <-]. by apply jf_pcb. Qed.

(** Steps that are made of these. *)
Ltac kstep := repeat match goal with
  | |- triple _ (p ← get_pcb; _) _ => apply keeps_pcb; intros ? ? ? ? ?
  | |- triple _ (set_frame _ _) _ => apply keeps_frame; [assumption|done|done|done]
  | |- triple _ (set_handler _ _) _ => by apply keeps_handler
  | |- triple _ (add_kernel _) _ => apply keeps_add_kernel
  | |- triple _ (add_active _) _ => apply keeps_add_active
  | |- triple _ (set_stacks _) _ => apply keeps_stacks
  | |- triple _ (ASSERT _) _ => apply join_ASSERT
  | |- triple _ (get_tcb _) _ => apply keeps_tcb
  | |- triple _ (mret _) _ => apply join_ret
  | |- triple _ (fail _) _ => apply triple_fail
  | |- triple _ (_ ≫= _) _ => apply join_bind; [|intros ?]
  | |- triple _ (if ?c then _ else _) _ => destruct c
  | |- triple _ (match ?c with _ => _ end) _ => destruct c
  end.

Lemma keeps_leave w u b : active w u → keeps w (exit_if_exiting u b).
Proof. intros Hu. unfold exit_if_exiting. apply join_bind; [kstep|intros _]. apply join_bind; [kstep|intros _]. apply keeps_pcb. intros p -> _ _ _. destruct b; kstep. Qed.
Lemma keeps_pthread_exit w u : active w u → u ≠ tid → keeps w (pthread_exit u).
Proof.
  intros Hu Hut. unfold pthread_exit, thread_zombie. apply join_bind; [by apply keeps_joiner; [apply Hu|]|intros _]. kstep.
  - apply keeps_all_remove.
  - by apply keeps_status.
Qed.
Lemma keeps_spawn w u n : 
  keeps w (s ← get; modify (λ s', Sys (<[next_tid s := Tcb Ready true false NULL n (Start u)]> (tcbs s')) (the_pcb s') (next_tid s + 1) (all_list s' ++ [next_tid s]))).
Proof.
  intros s a s' [J1 J2 J3 J4 J5 J6 (xt & Jt & J7) (z & Jz & J8) J9 J10] [= _ <-].
  assert (∀ v, is_Some (tcbs s !! v) → v ≠ next_tid s) as Hv by (intros v ?%J6; lia). constructor; cbn; try done.
  - intros v [y [[<- _]|[_ ?]]%lookup_insert_Some]; [lia|]. enough (v < next_tid s) by lia. eauto.
  - exists xt. rewrite lookup_insert_ne by (symmetry; eauto). done.
  - exists z. rewrite lookup_insert_ne by (symmetry; eauto). done.
  - intros v y Hvt [[<- <-]|[_ ?]]%lookup_insert_Some; [by constructor|eauto].
Qed.
Lemma keeps_execute w u c m : active w u → keeps w (pthread_execute u c m).
Proof.
  intros Hu. unfold pthread_execute. apply keeps_pcb. intros p _ _ _ _. destruct (first_free (stacks p)) as [n|]; [|kstep].
  apply join_bind; [kstep|intros _]. destruct m; [cbn [negb]|apply triple_fail]. destruct c; [|kstep]. apply join_bind; [kstep|intros _].
  intros s a s' HJ H. refine (join_bind w _ (λ _, set_frame u (CreateWait 0)) (keeps_spawn w u n) _ s a s' HJ H). intros _. kstep.
Qed.
Lemma keeps_start_push w u c : active w u → keeps w (start_push u c).
Proof.
  intros Hu. unfold start_push. apply keeps_pcb. intros p _ _ _ Hin. case_decide; [kstep|]. apply join_bind; [|intros _; kstep].
  destruct (NONE_OR_MAIN _); [apply keeps_threads; by right|kstep].
Qed.
(** The creator waits on its semaphore, so it is neither of the two. *)
Lemma keeps_start_up w u c : active w u → keeps w (start_up u c).
Proof.
  intros Hu. unfold start_up. intros s a s' HJ (x & s1 & Hx & ([] & s2 & H & H2)%bind_Ok_inv)%bind_Ok_inv.
  destruct (triple_tcb (λ s0, s0 = s) c s _ _ eq_refl Hx) as [-> Hc]. destruct (t_frame x) eqn:Ef; try done.
  refine (keeps_frame w u (Leave false) Hu eq_refl eq_refl ltac:(done) s2 a s' _ H2). refine (keeps_frame w c (CreateWait (finished + 1)) _ eq_refl eq_refl ltac:(done) s _ s2 HJ H). split.
  - intros ->. destruct (jf_me _ _ HJ) as (y & ? & ? & _). simplify_eq. congruence.
  - intros ->. destruct (jf_pos _ _ HJ) as (y & ? & _ & Hz). simplify_eq. destruct w; [|done]. destruct Hz as (_ & _ & ?). congruence.
Qed.
Lemma find_thread_inv k l s o s' : find_thread k l s = Ok (o, s') → s' = s ∧ ∀ x, o = Some x → tcbs s !! k = Some x.
Proof.
  induction l as [|v l IH]; cbn [find_thread]; [by intros [= <- <-]|]. intros (x & s1 & Hx & H)%bind_Ok_inv.
  destruct (triple_tcb (λ s0, s0 = s) v s _ _ eq_refl Hx) as [-> Hv]. case_decide; [|by apply IH]. injection H as <- <-. subst. split; [done|]. by intros y [= <-].
Qed.
(** The thread [tid] is joined already. *)
Lemma keeps_join w u k : active w u → keeps w (pthread_join u k).
Proof.
  intros Hu. unfold pthread_join. apply keeps_pcb. intros p _ _ _ _ s a s' HJ (o & s1 & [-> Ho]%find_thread_inv & H)%bind_Ok_inv.
  assert (keeps w (set_frame u (Leave false))) as HL by kstep. destruct o as [pos|]; [|by apply (HL s a s')]. case_decide as Hj; [|by apply (HL s a s')].
  refine (keeps_frame w u (JoinTest k _ _) Hu eq_refl _ ltac:(done) s a s' HJ H). apply bool_decide_false. intros ->.
  destruct (jf_pos _ _ HJ) as (z & Hz & Hzj & _). specialize (Ho pos eq_refl). simplify_eq. apply (jf_null _ _ HJ). congruence.
Qed.
Lemma keeps_join_test w u p m b : active w u → p ≠ tid → keeps w (join_test u p m b).
Proof.
  intros Hu Hp. unfold join_test. apply join_bind; [kstep|intros x]. apply keeps_frame; [done|by case_decide|case_decide; [done|by apply bool_decide_false]|by case_decide].
Qed.
Lemma keeps_join_set w u p m b : active w u → p ≠ tid → keeps w (join_set u p m b).
Proof.
  intros Hu Hp. unfold join_set. intros s a s' HJ (x & s1 & Hx & ([] & s2 & [_ ->]%put_tcb_inv & H)%bind_Ok_inv)%bind_Ok_inv.
  destruct (triple_tcb (λ s0, s0 = s) p s _ _ eq_refl Hx) as [-> Hpx]. revert H. match goal with |- ?m ?s2 = _ → _ => enough (joining_for w s2 ∧ keeps w m) as [HJ2 Hk] by by apply Hk end. split.
  - set (y := Tcb _ _ _ u _ _). destruct (decide (p = t)) as [->|Hpt].
    + destruct HJ as [J1 J2 J3 J4 J5 J6 (xt & Jt & J7) (z & Jz & J8) J9 J10]. simplify_eq. constructor; cbn; try done.
      * intros v [y' [[<- _]|[_ ?]]%lookup_insert_Some]; eauto.
      * exists y. rewrite lookup_insert_eq. done.
      * exists z. by rewrite lookup_insert_ne.
      * intros v y' Hv [[<- _]|[_ ?]]%lookup_insert_Some; [done|eauto].
    + eapply jf_put; [done|done|exact Hpx| |done]. destruct (jf_others _ _ HJ p x Hpt Hpx) as [O1 O2 O3]. constructor; [done| |done]. intros _. apply Hu.
  - apply keeps_pcb. intros q _ _ _ _. apply join_bind; [apply keeps_frame; [done|done|by apply bool_decide_false|done]|intros _].
    destruct (_ && _); [by apply keeps_status|kstep].
Qed.
Lemma keeps_join_end w u p m : active w u → p ≠ tid → keeps w (join_end u p m).
Proof.
  intros Hu Hp. unfold join_end. apply keeps_pcb. intros q _ _ _ Hin. case_decide as Hr; [kstep|]. intros s a s' HJ (x & s1 & Hx & ([] & s2 & H & H2)%bind_Ok_inv)%bind_Ok_inv.
  destruct (triple_tcb (λ s0, s0 = s) p s _ _ eq_refl Hx) as [-> Hpx]. refine (keeps_frame w u (Leave false) Hu eq_refl eq_refl ltac:(done) s2 a s' _ H2).
  destruct m; [by injection H as <-|]. apply bind_Ok_inv in H as ([] & s3 & [Hz%bool_decide_eq_true [= ->]]%ASSERT_inv & H).
  apply bind_Ok_inv in H as ([] & s4 & H4 & H). assert (joining_for w s4) as HJ4.
  { refine (keeps_threads w _ _ s _ s4 HJ H4). by apply list_elem_of_filter. }
  assert (tcbs s4 = tcbs s) as E4 by (by injection H4 as <-). apply bind_Ok_inv in H as (x' & s5 & Hx' & [= <-]).
  destruct (triple_tcb (λ s0, s0 = s4) p s4 _ _ eq_refl Hx') as [-> _]. assert (p ≠ t) as Hpt.
  { intros ->. destruct (jf_me _ _ HJ) as (y & ? & _ & Hy & _). simplify_eq. rewrite Hz in Hy. by destruct w. }
  destruct HJ4 as [J1 J2 J3 J4 J5 J6 (xt & J7) (z & J8) J9 J10]. constructor; cbn; try done.
  - intros v [y [_ ?]%lookup_delete_Some]; eauto.
  - exists xt. by rewrite lookup_delete_ne.
  - exists z. by rewrite lookup_delete_ne.
  - intros v y Hv [_ ?]%lookup_delete_Some; eauto.
Qed.

(** [tid] ends and wakes [t]. *)
Lemma exit_wakes s a s' : joining_for false s → pthread_exit tid s = Ok (a, s') → joining_for true s'.
Proof.
  intros HJ H. destruct (jf_me _ _ HJ) as (y & Hy & Hyf & Hys & _). destruct (jf_pos _ _ HJ) as (z & Hz & Hzj & _). pose proof (jf_ne _ _ HJ) as Hne.
  unfold pthread_exit, wake_up_joiner in H. apply bind_Ok_inv in H as ([] & s1 & H1 & H).
  rewrite (bind_Ok _ _ _ _ _ (get_tcb_run _ _ _ Hz)), Hzj, decide_False in H1 by apply HJ.
  unfold thread_unblock in H1. rewrite (bind_Ok _ _ _ _ _ (get_tcb_run _ _ _ Hy)), (bind_Ok (ASSERT _) _ s () s) in H1 by (apply ASSERT_true; by rewrite bool_decide_eq_true_2).
  rewrite (set_status_run _ _ _ _ _ Hy) in H1. injection H1 as <-. set (y1 := Tcb Ready true _ _ _ _) in H.
  apply bind_Ok_inv in H as (z' & s2 & H2 & H). rewrite (get_tcb_run _ z) in H2 by (cbn; by rewrite lookup_insert_ne). injection H2 as <- <-.
  apply bind_Ok_inv in H as (p & s2 & [= <- <-] & H). apply bind_Ok_inv in H as ([] & s2 & [= <-] & H). apply bind_Ok_inv in H as ([] & s2 & [= <-] & H). cbn [the_pcb tcbs next_tid all_list] in H.
  unfold thread_zombie, all_remove in H. apply bind_Ok_inv in H as ([] & s3 & H3 & H). apply bind_Ok_inv in H3 as ([] & s4 & H4 & H3).
  apply bind_Ok_inv in H4 as (z' & s5 & H5 & H4). rewrite (get_tcb_run _ z) in H5 by (cbn; by rewrite lookup_insert_ne). injection H5 as <- <-.
  apply bind_Ok_inv in H4 as (s5 & s6 & [= <- <-] & H4). case_decide; [|done]. injection H4 as <-.
  rewrite (set_status_run _ _ _ z) in H3 by (cbn; by rewrite lookup_insert_ne). injection H3 as <-.
  rewrite (at_new_frame _ _ (Tcb Zombie false (in_handler z) (joined_by z) (stack_no z) (t_frame z))) in H by (cbn; apply lookup_insert_eq). injection H as _ <-.
  destruct HJ as [J1 J2 J3 J4 J5 J6 _ _ J9 J10]. constructor; cbn; try done.
  - intros u [x [[<- _]|[_ [[<- _]|[_ [[<- _]|[_ ?]]%lookup_insert_Some]]%lookup_insert_Some]]%lookup_insert_Some]; eauto.
  - exists y1. rewrite !lookup_insert_ne, lookup_insert_eq by done. done.
  - eexists. rewrite lookup_insert_eq. split; [done|]. done.
  - intros u x Hu [[<- <-]|[Hne' Hx]]%lookup_insert_Some; [by constructor|].
    rewrite !lookup_insert_ne in Hx by done. by apply J10.
Qed.

(** ** Steps and histories *)

(** The thread [t] sleeps on, or [tid] has ended. *)
Definition asleep_or_woken (w : bool) (s : sys) : Prop := joining_for true s ∨ (w = false ∧ joining_for false s).
Lemma triple_keeps {A} w (m : U A) : keeps w m → triple (joining_for w) m (λ _, asleep_or_woken w).
Proof. intros H s a s' HJ E. specialize (H s a s' HJ E). destruct w; [by left|by right]. Qed.

Lemma continue_join w u f c m : active w u → ends f = false → joins tid f = false →
  triple (joining_for w) (continue u f c m) (λ _, asleep_or_woken w).
Proof.
  intros Hu He Hj. assert (f = PExit ∧ u = tid ∨ (f = PExit → u ≠ tid)) as [[-> ->]|Hf] by (destruct (decide (u = tid)); [destruct f; auto; right; done|auto]).
  { cbn [continue]. destruct Hu as [_ Hw]. rewrite (Hw eq_refl). intros s a s' HJ E. left. by eapply exit_wakes. }
  apply triple_keeps. destruct f; try done; cbn [continue]; cbn in Hj; try apply bool_decide_eq_false in Hj; try apply join_ret.
  - by apply keeps_leave.
  - apply keeps_pthread_exit; auto.
  - unfold handler_pthread_create. kstep.
  - by apply keeps_execute.
  - unfold create_undo. kstep.
  - unfold create_down. kstep.
  - unfold start_pthread. apply keeps_pcb. intros p _ _ _ _. destruct (_ && _); kstep.
  - by apply keeps_start_push.
  - by apply keeps_start_up.
  - by apply keeps_join.
  - by apply keeps_join_test.
  - by apply keeps_join_set.
  - by apply keeps_join_end.
Qed.
Lemma enter_join w u c : active w u → of_others t (Enter u c) → keeps w (enter u c).
Proof.
  intros Hu Hc. unfold enter. apply join_bind; [kstep|intros _]. apply join_bind; [kstep|intros _]. apply keeps_pcb. intros p _ -> _ _.
  destruct c; try done; [kstep| |kstep..]. rewrite decide_False by apply Hc. kstep.
Qed.
Lemma dispatch_join w u (m : frame → U unit) : u ≠ t →
  (∀ f, active w u → ends f = false → joins tid f = false → triple (joining_for w) (m f) (λ _, asleep_or_woken w)) →
  triple (joining_for w) (dispatch u m) (λ _, asleep_or_woken w).
Proof.
  intros Hu Hm s a s' HJ (x & s1 & Hx & H)%bind_Ok_inv. destruct (triple_tcb (λ s0, s0 = s) u s _ _ eq_refl Hx) as [-> Hux].
  destruct (queued x) eqn:Hq; [|injection H as _ <-; by eapply (triple_keeps w (mret ())); [apply join_ret| |]].
  assert (active w u) as Ha.
  { split; [done|]. intros ->. destruct (jf_pos _ _ HJ) as (z & Hz & _ & Hzz). simplify_eq. destruct w; [|done]. destruct Hzz as (_ & ? & _). congruence. }
  apply bind_Ok_inv in H as ([] & s2 & H2 & H). destruct (jf_others _ _ HJ u x Hu Hux) as [O1 _ O3]. eapply (Hm _ Ha O1 O3); [|exact H].
  eapply (keeps_status w u Ready true); done.
Qed.
Lemma step_join w ev : of_others t ev → triple (joining_for w) (step ev) (λ _, asleep_or_woken w).
Proof.
  intros He. destruct ev as [u c|u c m]; cbn [step]; apply dispatch_join; try (by destruct c; cbn in He; tauto); try done; intros f Ha H1 H2.
  - destruct f; try (apply triple_keeps, join_ret). by apply triple_keeps, enter_join.
  - by apply continue_join.
Qed.
Lemma run_join evs : Forall (of_others t) evs → ∀ w, triple (joining_for w) (run evs) (λ _, asleep_or_woken w).
Proof.
  induction 1 as [|ev evs He _ IH]; intros w s a s' HJ; cbn [run]; [intros [= _ <-]; destruct w; [by left|by right]|].
  intros ([] & s1 & H1 & H2)%bind_Ok_inv. destruct (step_join w ev He _ _ _ HJ H1) as [HJ1|[-> HJ1]].
  - destruct (IH true _ _ _ HJ1 H2) as [?|[? _]]; [by left|done].
  - exact (IH false _ _ _ HJ1 H2).
Qed.
End Join.

(** ** Joining *)

(** No thread ends the process, and none but [t] is about to join [tid]. *)
Record quiet_process (t tid : Z) (s : sys) : Prop := {
  qp_exiting : exiting (the_pcb s) = EXITING_NONE; qp_main : main_thread (the_pcb s) = 1;
  qp_fresh u : is_Some (tcbs s !! u) → u < next_tid s;
  qp_others u x : u ≠ t → tcbs s !! u = Some x → ends (t_frame x) = false ∧ joined_by x ≠ t ∧ joins tid (t_frame x) = false;
}.

Lemma joined_asleep t tid me pos s : joining t tid me pos s → quiet_process t tid s → readers (the_pcb s) = 0 →
  t_status pos ≠ Zombie → t_frame pos ≠ Dead → joining_for t tid false (joined t tid me pos s).
Proof.
  intros J [Q1 Q2 Q3 Q4] Hr Hz Hd. pose proof J as [Hne Hn Hme Hf Hq Hre Hpos Hfree Hcy Hin Hl Hm]. constructor; try done; cbn.
  - intros u [x [[<- _]|[_ [[<- _]|[_ ?]]%lookup_insert_Some]]%lookup_insert_Some]; eauto.
  - eexists. split; [apply joined_me|]. by rewrite bool_decide_false.
  - eexists. split; [by eapply joined_pos|]. done.
  - intros u x Hu [[? _]|[_ [[<- <-]|[_ Hx]]%lookup_insert_Some]]%lookup_insert_Some; [congruence| |].
    + destruct (Q4 tid pos) as (? & _ & ?); [done..|]. by constructor.
    + destruct (Q4 u x Hu Hx) as (? & ? & ?). by constructor.
Qed.

(** The state after the joined thread has been freed. *)
Definition reaped_from (t tid : Z) (s : sys) : sys :=
  Sys (alter (λ y, with_frame y (Leave false)) t (delete tid (tcbs s))) (with_threads (the_pcb s) (filter (λ u, u ≠ tid) (threads (the_pcb s)))) (next_tid s) (all_list s).
Lemma woken_reaps t tid c m s : joining_for t tid true s → step (Continue t c m) s = Ok ((), reaped_from t tid s).
Proof.
  intros J. destruct (jf_me _ _ _ _ J) as (y & Hy & Hf & Hs & Hq). destruct (jf_pos _ _ _ _ J) as (z & Hz & _ & Hzs & _).
  rewrite (join_end_run t tid c m y z) by (done || apply J). unfold reaped_from. do 3 f_equal. apply map_eq. intros u. destruct (decide (u = t)) as [->|Hu].
  - rewrite lookup_insert_eq, lookup_alter_eq, lookup_delete_ne, Hy by (apply not_eq_sym, J). done.
  - by rewrite lookup_insert_ne, lookup_alter_ne by done.
Qed.


Lemma tcbs_check (P : Z → tcb → bool) (ts : gmap Z tcb) : forallb (λ p, P p.1 p.2) (map_to_list ts) = true → ∀ u x, ts !! u = Some x → P u x = true.
Proof. rewrite forallb_forall. intros H u x Hx. apply (H (u, x)). by apply list_elem_of_In, elem_of_map_to_list. Qed.

(** Thread 1 joins thread 2, which then makes a system call and ends. *)
Definition second_ends : list event := [Enter 2 OtherCall; C 2; Enter 2 PthreadExit; C 2; C 2].
End UserJoin.
