(* ===== verification/Ustar.v ===== *)
(** * Archive headers (lib/ustar.c)

    Composing and parsing the 512-byte headers of ustar archives, on byte
    memory and with the functions of [CString] and [Stdio].  The literal
    strings of the source are at addresses given by [literals].  The message
    for a name that is too long, which goes to the console, is left out. *)

From Stdlib Require Import String.
From S2P Require Import Prelude CMem CString Stdio.
Import CMem CString Stdio.

Module Ustar.

Definition USTAR_HEADER_SIZE : Z := 512.
Definition USTAR_REGULAR : Z := 48.
Definition USTAR_DIRECTORY : Z := 53.
Definition USTAR_EOF : Z := -1.
Definition ULONG_MAX : Z := 2 ^ 32 - 1.
Definition INT_MAX : Z := 2 ^ 31 - 1.

(** The members of [struct ustar_header]: offset and size. *)
Record field := Field { ofs : Z; sizeof : Z }.
Definition f_name : field := Field 0 100.
Definition f_mode : field := Field 100 8.
Definition f_uid : field := Field 108 8.
Definition f_gid : field := Field 116 8.
Definition f_size : field := Field 124 12.
Definition f_mtime : field := Field 136 12.
Definition f_chksum : field := Field 148 8.
Definition f_typeflag : field := Field 156 1.
Definition f_linkname : field := Field 157 100.
Definition f_magic : field := Field 257 6.
Definition f_version : field := Field 263 2.
Definition f_uname : field := Field 265 32.
Definition f_gname : field := Field 297 32.
Definition f_devmajor : field := Field 329 8.
Definition f_devminor : field := Field 337 8.
Definition f_prefix : field := Field 345 155.
Definition f_padding : field := Field 500 12.

Record literals := Literals {
  lit_cur : Z;      (** ["./"] *)
  lit_up : Z;       (** ["../"] *)
  lit_dotdot : Z;   (** [".."] *)
  lit_dot : Z;      (** ["."] *)
  lit_zeros : Z;    (** ["0000000"] *)
  lit_ustar : Z;    (** ["ustar"] *)
  lit_root : Z }.   (** ["root"] *)

Section Ustar.
Context (L : literals) (fpu : Z → Z → option (Z * Z * bool)).

Fixpoint chksum_loop (n : nat) (header i chksum : Z) : C Z :=
  match n with
  | O => mret chksum
  | S n =>
      let in_chksum_field := bool_decide (ofs f_chksum ≤ i) && bool_decide (i < ofs f_chksum + sizeof f_chksum) in
      b ← (if in_chksum_field then mret 32 else load (header + i));
      chksum_loop n header (i + 1) (u32 (chksum + b))
  end.
Definition calculate_chksum (h : Z) : C Z := chksum_loop (Z.to_nat USTAR_HEADER_SIZE) h 0 0.

(** The condition of the loop, with its short circuits. *)
Definition antisocial (file_name : Z) : C bool :=
  c ← load file_name;
  if decide (c = 47) then mret true else
  r ← memcmp file_name (lit_cur L) 2;
  if decide (r = 0) then mret true else
  r ← memcmp file_name (lit_up L) 3;
  mret (bool_decide (r = 0)).
Fixpoint strip_loop (fuel : nat) (file_name : Z) : C Z :=
  match fuel with
  | O => fail NoFuel
  | S fuel =>
      a ← antisocial file_name;
      if (a : bool) then p ← strchr file_name 47; strip_loop fuel (p + 1) else mret file_name
  end.
Definition strip_antisocial_prefixes (file_name : Z) : C Z :=
  file_name ← bounded (λ n, strip_loop n file_name);
  c ← load file_name;
  if decide (c = 0) then mret (lit_dot L) else
  r ← strcmp file_name (lit_dotdot L);
  mret (if decide (r = 0) then lit_dot L else file_name).

Definition ustar_make_header (file_name type size header : Z) : C bool :=
  ASSERT (bool_decide (type = USTAR_REGULAR) || bool_decide (type = USTAR_DIRECTORY));;
  file_name ← strip_antisocial_prefixes file_name;
  len ← strlen file_name;
  if decide (99 < len) then mret false else
  memset header 0 USTAR_HEADER_SIZE;;
  strlcpy (header + ofs f_name) file_name (sizeof f_name);;
  snprintf fpu (header + ofs f_mode) (sizeof f_mode) (chars "%07o") [if decide (type = USTAR_REGULAR) then 420 else 493];;
  strlcpy (header + ofs f_uid) (lit_zeros L) (sizeof f_uid);;
  strlcpy (header + ofs f_gid) (lit_zeros L) (sizeof f_gid);;
  snprintf fpu (header + ofs f_size) (sizeof f_size) (chars "%011o") [u32 size];;
  snprintf fpu (header + ofs f_mtime) (sizeof f_size) (chars "%011o") [1136102400];;
  store (header + ofs f_typeflag) type;;
  strlcpy (header + ofs f_magic) (lit_ustar L) (sizeof f_magic);;
  store (header + ofs f_version + 1) 48;; store (header + ofs f_version) 48;;
  strlcpy (header + ofs f_gname) (lit_root L) (sizeof f_gname);;
  strlcpy (header + ofs f_uname) (lit_root L) (sizeof f_uname);;
  chksum ← calculate_chksum header;
  snprintf fpu (header + ofs f_chksum) (sizeof f_chksum) (chars "%07o") [chksum];;
  mret true.

(** The result and [*value]. *)
Fixpoint octal_loop (n : nat) (s ofs value : Z) : C (bool * Z) :=
  match n with
  | O => mret (false, value)
  | S n =>
      c ← load (s + ofs);
      if decide (48 ≤ c ≤ 55) then
        if decide (ULONG_MAX / 8 < value) then mret (false, value)
        else octal_loop n s (ofs + 1) (u32 (c - 48 + value * 8))
      else if decide (c = 32 ∨ c = 0) then mret (bool_decide (0 < ofs), value)
      else mret (false, value)
  end.
Definition parse_octal_field (s size : Z) : C (bool * Z) := octal_loop (Z.to_nat size) s 0 0.

Fixpoint is_all_zeros (block : Z) (cnt : nat) : C bool :=
  match cnt with
  | O => mret true
  | S cnt => c ← load block; if decide (c ≠ 0) then mret false else is_all_zeros (block + 1) cnt
  end.

(** An error message, or the file's name, type and size. *)
Definition ustar_parse_header (header : Z) : C (string + Z * Z * Z) :=
  z ← is_all_zeros header (Z.to_nat USTAR_HEADER_SIZE);
  if (z : bool) then mret (inr (NULL, USTAR_EOF, 0)) else
  r ← memcmp (header + ofs f_magic) (lit_ustar L) 6;
  if decide (r ≠ 0) then mret (inl "not a ustar archive"%string) else
  v0 ← load (header + ofs f_version);
  v1 ← (if decide (v0 ≠ 48) then mret 0 else load (header + ofs f_version + 1));
  if decide (v0 ≠ 48 ∨ v1 ≠ 48) then mret (inl "invalid ustar version"%string) else
  r ← parse_octal_field (header + ofs f_chksum) (sizeof f_chksum);
  if negb r.1 then mret (inl "corrupt chksum field"%string) else
  chksum ← calculate_chksum header;
  if decide (r.2 ≠ chksum) then mret (inl "checksum mismatch"%string) else
  last ← load (header + ofs f_name + sizeof f_name - 1);
  prefix ← (if decide (last ≠ 0) then mret 0 else load (header + ofs f_prefix));
  if decide (last ≠ 0 ∨ prefix ≠ 0) then mret (inl "file name too long"%string) else
  typeflag ← load (header + ofs f_typeflag);
  if decide (typeflag ≠ USTAR_REGULAR ∧ typeflag ≠ USTAR_DIRECTORY) then mret (inl "unimplemented file type"%string) else
  size ← (if decide (typeflag = USTAR_REGULAR) then parse_octal_field (header + ofs f_size) (sizeof f_size) else mret (true, 0));
  if negb size.1 then mret (inl "corrupt file size field"%string) else
  if decide (INT_MAX < size.2) then mret (inl "file too large"%string) else
  name ← strip_antisocial_prefixes (header + ofs f_name);
  mret (inr (name, typeflag, size.2)).

End Ustar.
End Ustar.
