(* ===== verification/UstarSpec.v ===== *)
(** * Archive headers: theorems

    A header that [ustar_make_header] composes is parsed back; parsing returns
    for any 512 bytes, and never with a name that leaves the directory at its
    start. *)

From Stdlib Require Import String Wf_nat.
From S2P Require Import Prelude CMem CString CStringSpec CStringEdit Stdio StdioSpec Ustar.
Import CMem CString CStringSpec CStringEdit Stdio StdioSpec Ustar.

Module UstarSpec.

(** ** Names *)

(** The name without prefixes ["/"], ["./"] and ["../"]. *)
Fixpoint skip (s : list Z) : list Z :=
  match s with
  | [] => []
  | c :: s1 =>
      if decide (c = 47) then skip s1 else
      match s1 with
      | [] => s
      | d :: s2 =>
          if decide (c = 46 ∧ d = 47) then skip s2 else
          match s2 with
          | [] => s
          | e :: s3 => if decide (c = 46 ∧ d = 46 ∧ e = 47) then skip s3 else s
          end
      end
  end.
Definition strip (s : list Z) : list Z := if decide (skip s = [] ∨ skip s = [46; 46]) then [46] else skip s.

(** Whether a name has such a prefix. *)
Definition bad (s : list Z) : Prop := [47] `prefix_of` s ∨ [46; 47] `prefix_of` s ∨ [46; 46; 47] `prefix_of` s.
#[global] Instance bad_dec s : Decision (bad s).
Proof. unfold bad. apply _. Defined.
Definition safe (s : list Z) : Prop := ¬ bad s ∧ s ≠ [] ∧ s ≠ [46; 46].

(** What the loop does to a name with such a prefix. *)
Definition cut (s : list Z) : list Z :=
  match s with 47 :: s => s | 46 :: 47 :: s => s | 46 :: 46 :: 47 :: s => s | _ => s end.

Lemma bad_cut s : bad s → ∃ k, s !! k = Some 47 ∧ Forall (λ c, c ≠ 47) (take k s) ∧ cut s = drop (S k) s ∧ skip s = skip (cut s).
Proof.
  intros [[t ->]|[[t ->]|[t ->]]]; [exists 0%nat|exists 1%nat|exists 2%nat]; (split; [done|]; split; [repeat constructor; lia|]; split; reflexivity).
Qed.
Lemma skip_good s : ¬ bad s → skip s = s.
Proof.
  intros H. unfold bad in H. destruct s as [|c s1]; [done|]. cbn [skip]. case_decide as H1; [subst; destruct H; left; by exists s1|].
  destruct s1 as [|d s2]; [done|]. case_decide as H2; [destruct H2 as [-> ->], H; right; left; by exists s2|].
  destruct s2 as [|e s3]; [done|]. case_decide as H3; [destruct H3 as (-> & -> & ->), H; right; right; by exists s3|done].
Qed.
Lemma cut_length s : bad s → (length (cut s) < length s)%nat.
Proof. intros (k & Hk%lookup_lt_Some & _ & -> & _)%bad_cut. rewrite length_drop. lia. Qed.

Lemma skip_not_bad s : ¬ bad (skip s).
Proof.
  induction s as [s IH] using (well_founded_ind (well_founded_ltof _ length)). unfold ltof in IH. destruct (decide (bad s)) as [Hb|Hb]; [|by rewrite skip_good].
  pose proof (cut_length s Hb). destruct (bad_cut s Hb) as (k & _ & _ & _ & ->). by apply IH.
Qed.
Lemma strip_safe s : safe (strip s).
Proof.
  unfold strip, safe. case_decide as H; [|split; [apply skip_not_bad|tauto]].
  split; [|done]. intros [[t [=]]|[[t [=]]|[t [=]]]].
Qed.
Lemma strip_id s : safe s → strip s = s.
Proof. intros (Hb & H1 & H2). unfold strip. rewrite skip_good by done. by rewrite decide_False by tauto. Qed.

Lemma skip_drop s : ∃ k, (k ≤ length s)%nat ∧ skip s = drop k s.
Proof.
  induction s as [s IH] using (well_founded_ind (well_founded_ltof _ length)). unfold ltof in IH. destruct (decide (bad s)) as [Hb|Hb]; [|exists 0%nat; rewrite skip_good; [split; [lia|done]|done]].
  pose proof (cut_length s Hb) as Hl. destruct (bad_cut s Hb) as (k & Hk%lookup_lt_Some & _ & Hc & ->).
  destruct (IH (cut s) ltac:(lia)) as (j & Hj & ->). rewrite Hc, length_drop in Hj. exists (S k + j)%nat.
  split; [lia|]. by rewrite Hc, drop_drop.
Qed.

(** ** [strip_antisocial_prefixes] *)

Definition strings (L : literals) : list (Z * list Z) :=
  [(lit_cur L, chars "./"); (lit_up L, chars "../"); (lit_dotdot L, chars ".."); (lit_dot L, chars ".");
   (lit_zeros L, chars "0000000"); (lit_ustar L, chars "ustar"); (lit_root L, chars "root")].
Definition literals_at (m : mem) (L : literals) : Prop := Forall (λ x, 0 < x.1 ∧ str_at m x.1 x.2) (strings L).

Section Strip.
Context (L : literals) (m : mem) (HL : literals_at m L).

(** [memcmp] of a string with the bytes of a shorter or longer one. *)
Lemma memcmp_loop_prefix s t p q : str_at m p s → bytes_at m q t → Forall (λ b, b ≠ 0) t →
  ∃ r, memcmp_loop (length t) p q m = Ok (r, m) ∧ (r = 0 ↔ t `prefix_of` s).
Proof.
  revert s p q. induction t as [|y t IH]; intros s p q Hs Ht Hn; [exists 0; split; [done|]; split; [intros _; apply prefix_nil|done]|].
  apply bytes_at_cons in Ht as [Hy Ht]. apply Forall_cons in Hn as [Hy0 Hn]. cbn [length memcmp_loop]. destruct s as [|x s].
  - apply str_at_nil in Hs. rewrite (bind_Ok _ _ _ _ _ (load_run _ _ _ Hs)), (bind_Ok _ _ _ _ _ (load_run _ _ _ Hy)), decide_False by done.
    eexists. split; [done|]. split; [by case_decide|]. by intros ?%prefix_nil_not.
  - apply str_at_cons in Hs as (Hx & _ & Hs). rewrite (bind_Ok _ _ _ _ _ (load_run _ _ _ Hx)), (bind_Ok _ _ _ _ _ (load_run _ _ _ Hy)).
    case_decide as E.
    + subst. destruct (IH s (p + 1) (q + 1) Hs Ht Hn) as (r & H & Hr). exists r. split; [done|]. rewrite Hr. split; [apply prefix_cons|apply prefix_cons_inv_2].
    + eexists. split; [done|]. split; [by case_decide|]. intros Hp%prefix_cons_inv_1. congruence.
Qed.
Lemma memcmp_prefix s t p q n : p ≠ NULL → q ≠ NULL → str_at m p s → str_at m q t → n = Z.of_nat (length t) →
  ∃ r, memcmp p q n m = Ok (r, m) ∧ (r = 0 ↔ t `prefix_of` s).
Proof.
  intros Hp Hq Hs [[Ht _]%bytes_at_app Hn] ->. unfold memcmp. rewrite (bind_Ok _ _ _ _ _ (ASSERT_block_run _ _ _ Hp)), (bind_Ok _ _ _ _ _ (ASSERT_block_run _ _ _ Hq)), Nat2Z.id.
  by apply memcmp_loop_prefix.
Qed.

Lemma literal_at q t : (q, t) ∈ strings L → q ≠ NULL ∧ str_at m q t.
Proof. intros H. pose proof HL as HL'. unfold literals_at in HL'. rewrite Forall_forall in HL'. destruct (HL' _ H) as [Hq Ht]. split; [cbn in Hq; unfold NULL; lia|done]. Qed.

Lemma antisocial_run p s : p ≠ NULL → str_at m p s → antisocial L p m = Ok (bool_decide (bad s), m).
Proof.
  intros Hp Hs. unfold antisocial. destruct (literal_at (lit_cur L) (chars "./") ltac:(left)) as [Hq1 Ht1]. destruct (literal_at (lit_up L) (chars "../") ltac:(right; left)) as [Hq2 Ht2].
  destruct (memcmp_prefix s _ p _ 2 Hp Hq1 Hs Ht1 eq_refl) as (r1 & E1 & H1). destruct (memcmp_prefix s _ p _ 3 Hp Hq2 Hs Ht2 eq_refl) as (r2 & E2 & H2).
  change (chars "./") with [46; 47] in H1. change (chars "../") with [46; 46; 47] in H2.
  assert (∃ c, m !! p = Some c ∧ (c = 47 ↔ [47] `prefix_of` s)) as (c & Hc & Hb).
  { destruct s as [|c s]; rewrite ?str_at_nil, ?str_at_cons in Hs; [exists 0; split; [done|]; split; [lia|by intros ?%prefix_nil_not]|].
    exists c. split; [apply Hs|]. split; [intros ->; by exists s|by intros ->%prefix_cons_inv_1]. }
  rewrite (bind_Ok _ _ _ _ _ (load_run _ _ _ Hc)). case_decide; [by rewrite bool_decide_eq_true_2 by (left; tauto)|].
  rewrite (bind_Ok _ _ _ _ _ E1). case_decide; [by rewrite bool_decide_eq_true_2 by (right; left; tauto)|].
  rewrite (bind_Ok _ _ _ _ _ E2). unfold mret, M_ret. do 2 f_equal. apply bool_decide_ext. unfold bad. tauto.
Qed.

Lemma first_at p s c k : s !! k = Some c → Forall (λ x, x ≠ c) (take k s) → first (λ x, x = c) p s = p + Z.of_nat k.
Proof.
  revert p k. induction s as [|x s IH]; intros p k Hk Hf; [by rewrite lookup_nil in Hk|]. rewrite first_cons. destruct k as [|k]; cbn in *.
  - simplify_eq. rewrite decide_True by done. lia.
  - apply Forall_cons in Hf as [Hx Hf]. rewrite decide_False by done. rewrite (IH _ k) by done. lia.
Qed.

(** The pointer moves within the string. *)
Lemma strip_loop_run n p s : 0 < p → str_at m p s → (length s < n)%nat →
  ∃ k, (k ≤ length s)%nat ∧ strip_loop L n p m = Ok (p + Z.of_nat k, m) ∧ str_at m (p + Z.of_nat k) (skip s) ∧ length (skip s) = (length s - k)%nat.
Proof.
  revert p s. induction n as [|n IH]; intros p s Hp Hs Hn; [lia|]. cbn [strip_loop]. assert (p ≠ NULL) by (unfold NULL; lia).
  rewrite (bind_Ok _ _ _ _ _ (antisocial_run _ _ ltac:(done) Hs)). case_bool_decide as Hb.
  - destruct (bad_cut s Hb) as (k & Hk & Hf & Hc & ->). pose proof (lookup_lt_Some _ _ _ Hk) as Hlt. pose proof (cut_length s Hb) as Hl.
    rewrite (bind_Ok _ _ _ _ _ (strchr_run _ _ _ _ ltac:(done) Hs)). change (u8 47) with 47.
    rewrite (first_at p (s ++ [0]) 47 k) by (rewrite ?lookup_app_l, ?take_app_le by lia; done).
    rewrite Hc, length_drop in Hl. destruct (IH (p + Z.of_nat k + 1) (cut s)) as (j & Hj & E & Hs' & Hlen); rewrite ?Hc, ?length_drop in *; [lia| |lia|].
    { replace (p + Z.of_nat k + 1) with (p + Z.of_nat (S k)) by lia. apply str_at_drop; [done|lia]. }
    exists (S k + j)%nat. replace (p + Z.of_nat (S k + j)) with (p + Z.of_nat k + 1 + Z.of_nat j) by lia. split; [lia|]. split; [done|]. split; [done|lia].
  - exists 0%nat. rewrite Z.add_0_r, skip_good by done. split; [lia|]. split; [done|]. split; [done|lia].
Qed.

Lemma strip_run p s : 0 < p → str_at m p s → Forall (in_u 8) s →
  ∃ q, strip_antisocial_prefixes L p m = Ok (q, m) ∧ 0 < q ∧ str_at m q (strip s) ∧
    (q = lit_dot L ∨ p ≤ q ∧ q + Z.of_nat (length (strip s)) ≤ p + Z.of_nat (length s)).
Proof.
  intros Hp Hs Hu. unfold strip_antisocial_prefixes. destruct (strip_loop_run (S (size m)) p s Hp Hs (str_at_size _ _ _ Hs)) as (k & Hk & E & Hs' & Hl).
  destruct (literal_at (lit_dot L) (chars ".") ltac:(do 3 right; left)) as [Hq1 Ht1]. destruct (literal_at (lit_dotdot L) (chars "..") ltac:(do 2 right; left)) as [Hq2 Ht2].
  assert (0 < lit_dot L) as Hd by (pose proof HL as HL'; unfold literals_at in HL'; rewrite Forall_forall in HL'; apply (HL' (lit_dot L, chars ".")); do 3 right; left).
  erewrite bind_Ok by (rewrite bounded_run; exact E). set (p' := p + Z.of_nat k) in *. unfold strip.
  destruct (skip_drop s) as (j & _ & Hj). assert (Forall (in_u 8) (skip s)) as Hu' by (rewrite Hj; by apply Forall_drop).
  destruct (skip s) as [|c t] eqn:Ht.
  - apply str_at_nil in Hs'. erewrite bind_Ok by (by apply load_run). rewrite !decide_True by auto. exists (lit_dot L). auto.
  - pose proof Hs' as (Hc & Hc0 & _)%str_at_cons. erewrite bind_Ok by (by apply load_run). rewrite (decide_False (P := c = 0)) by done.
    rewrite (bind_Ok _ _ _ (compare (c :: t) (chars "..")) m).
    2:{ unfold strcmp. rewrite (bind_Ok _ _ _ _ _ (ASSERT_ptr_run p' _ ltac:(unfold p', NULL; lia))), (bind_Ok _ _ _ _ _ (ASSERT_ptr_run _ _ Hq2)), bounded_run.
        apply strcmp_loop_run; [done..| |by eapply str_at_size]. by repeat constructor. }
    change (chars "..") with [46; 46]. destruct (decide (c :: t = [46; 46])) as [Ht'|Ht'].
    + rewrite !decide_True by (try apply compare_zero; auto). exists (lit_dot L). auto.
    + rewrite (decide_False (P := compare _ _ = 0)) by (by rewrite compare_zero). rewrite decide_False by (intros [?|?]; done).
      exists p'. split; [done|]. split; [unfold p'; lia|]. split; [done|]. right. unfold p'. lia.
Qed.
End Strip.

(** ** Octal fields *)

(** The last [n] octal digits of a number. *)
Fixpoint octal (n : nat) (v : Z) : list Z :=
  match n with O => [] | S n => octal n (v / 8) ++ [48 + v mod 8] end.
Definition octal_value (cs : list Z) : Z := foldl (λ a c, c - 48 + a * 8) 0 cs.
Definition digit (c : Z) : Prop := 48 ≤ c ≤ 55.

Lemma octal_length n v : length (octal n v) = n.
Proof. revert v. induction n as [|n IH]; intros v; [done|]. cbn [octal]. rewrite length_app, IH. cbn. lia. Qed.
Lemma octal_digits n v : Forall digit (octal n v).
Proof.
  revert v. induction n as [|n IH]; intros v; [done|]. cbn [octal]. apply Forall_app. split; [apply IH|]. constructor; [|done].
  unfold digit. pose proof (Z.mod_pos_bound v 8). lia.
Qed.
Lemma octal_value_octal n v : 0 ≤ v < 8 ^ Z.of_nat n → octal_value (octal n v) = v.
Proof.
  revert v. induction n as [|n IH]; intros v Hv; [cbn in *; lia|]. cbn [octal]. unfold octal_value in *. rewrite foldl_app. cbn [foldl].
  rewrite IH; [pose proof (Z.div_mod v 8); lia|]. rewrite Nat2Z.inj_succ, Z.pow_succ_r in Hv by lia.
  split; [apply Z.div_pos; lia|apply Z.div_lt_upper_bound; lia].
Qed.

(** The digits of [format_integer], padded with zeros. *)
Lemma octal_digits_of f n v : 0 ≤ v < 8 ^ Z.of_nat n → (n ≤ f)%nat →
  octal n v = reverse ((λ d, d + 48) <$> (digits_of f 8 v ++ replicate (n - length (digits_of f 8 v)) 0)) ∧ (length (digits_of f 8 v) ≤ n)%nat.
Proof.
  revert f v. induction n as [|n IH]; intros f v Hv Hf.
  - assert (v = 0) as -> by (cbn in Hv; lia). by destruct f.
  - destruct f as [|f]; [lia|]. cbn [octal digits_of]. assert (0 ≤ v / 8 < 8 ^ Z.of_nat n) as Hv'.
    { rewrite Nat2Z.inj_succ, Z.pow_succ_r in Hv by lia. split; [apply Z.div_pos; lia|apply Z.div_lt_upper_bound; lia]. }
    case_decide as H0.
    + destruct (IH f (v / 8) Hv' ltac:(lia)) as [-> Hl]. cbn [length]. split; [|lia].
      cbn [app fmap list_fmap]. rewrite reverse_cons. f_equal. f_equal. lia.
    + assert (v = 0) as -> by lia. destruct (IH f 0 ltac:(lia) ltac:(lia)) as [E _]. change (0 / 8) with 0. rewrite E.
      assert (digits_of f 8 0 = []) as -> by (by destruct f). cbn [length app]. split; [|lia]. rewrite !Nat.sub_0_r, !fmap_replicate, !reverse_replicate.
      change (48 + 0 mod 8) with 48. change [48] with (replicate 1 48). by rewrite <- replicate_add, Nat.add_1_r.
Qed.

Lemma grouped_octal c ds : Forall (λ d, 0 ≤ d < 8) ds → grouped base_o false c ds = (λ d, d + 48) <$> ds.
Proof.
  intros H. revert c. induction H as [|d ds Hd _ IH]; intros c; [done|]. cbn [grouped andb app fmap list_fmap]. rewrite IH. f_equal.
  assert (d = 0 ∨ d = 1 ∨ d = 2 ∨ d = 3 ∨ d = 4 ∨ d = 5 ∨ d = 6 ∨ d = 7) as Hd' by lia. clear -Hd'. naive_solver.
Qed.

(** What a field of zeros and octal digits looks like. *)
Lemma layout_octal n v : 0 ≤ v < 8 ^ Z.of_nat n → (1 ≤ n ≤ 22)%nat →
  layout ZERO (Z.of_nat n) [] [] (body_text base_o ZERO (-1) (digits_of 64 8 v)) = octal n v.
Proof.
  intros Hv Hn. destruct (octal_digits_of 64 n v Hv ltac:(lia)) as [-> Hl]. set (ds := digits_of 64 8 v) in *.
  assert (Forall (λ d, 0 ≤ d < 8) ds) by (apply digits_of_range; lia).
  unfold layout, body_text. change (has ZERO GROUP) with false. change (has ZERO POUND) with false. change (has ZERO (Z.lor MINUS ZERO)) with true.
  change (has ZERO ZERO) with true. change (has ZERO MINUS) with false. cbn [andb app length].
  rewrite grouped_octal by done. rewrite app_nil_r, length_reverse, length_app, length_fmap, length_replicate, reverse_app, reverse_replicate.
  rewrite fmap_app, fmap_replicate, reverse_app, reverse_replicate, app_assoc, <- replicate_add. change (0 + 48) with 48. do 2 f_equal.
  change (Z.to_nat (if decide (-1 < 0)%Z then 1%Z else (-1)%Z) `min` 63)%nat with 1%nat. lia.
Qed.

(** What ["%07o"] and ["%011o"] print. *)
Lemma vprintf_o fpu w m rest n : peek rest ≠ 37 →
  parse_conversion rest [w] (m, []) = Ok ((Conv ZERO (Z.of_nat n) (-1) INT, [111], [w]), (m, [] : list Z)) →
  __vprintf collect fpu (37 :: rest) [w] (m, []) = format_integer collect (u32 w) false false base_o (Conv ZERO (Z.of_nat n) (-1) INT) (m, []).
Proof.
  intros Hr Hp. unfold __vprintf. cbn [length Nat.add]. replace (length rest + 32)%nat with (S (length rest + 31)) by lia.
  generalize (length rest + 31)%nat as k. intros k. remember (S k) as k'. cbn [vprintf_loop].
  rewrite decide_False by lia. rewrite decide_False by done. rewrite (bind_Ok _ _ _ _ _ Hp). cbn iota.
  change (peek [111]) with 111. unfold convert. rewrite decide_False by (apply (bool_decide_unpack _); by vm_compute).
  rewrite decide_True by (apply (bool_decide_unpack _); by vm_compute).
  cbn [ctype unsigned_arg arg]. unfold mbind, M_bind, mret, M_ret. cbn iota beta zeta. cbn [fst snd]. rewrite decide_True by (apply (bool_decide_unpack _); by vm_compute).
  destruct (format_integer collect (u32 w) false false base_o _ (m, [])) as [[[] s']|]; [|done]. by subst k'.
Qed.
Lemma print_octal fpu v m rest n : peek rest ≠ 37 → 0 ≤ v < 8 ^ Z.of_nat n → in_u 32 v → (1 ≤ n ≤ 22)%nat →
  parse_conversion rest [v] (m, []) = Ok ((Conv ZERO (Z.of_nat n) (-1) INT, [111], [v]), (m, [] : list Z)) →
  __vprintf collect fpu (37 :: rest) [v] (m, []) = Ok ((), (m, octal n v)).
Proof.
  intros Hr Hv Hu Hn Hp. rewrite (vprintf_o fpu v m rest n Hr Hp), wrapu_id by done.
  destruct (format_integer_run v false false base_o (Conv ZERO (Z.of_nat n) (-1) INT) m []) as (_ & _ & ->);
    [unfold known_base; right; left|unfold in_u in *; lia|cbn; lia|unfold in_s; cbn; lia|].
  cbn [flags width precision app]. change (prefix_text base_o ZERO v) with ([] : list Z). change (base base_o) with 8. cbn [sign_text].
  by rewrite layout_octal.
Qed.

(** [snprintf] of an octal number into a field of exactly its size. *)
Lemma snprintf_octal fpu m p fmt rest (n : nat) v : chars fmt = 37 :: rest → peek rest ≠ 37 → 0 ≤ v < 8 ^ Z.of_nat n → in_u 32 v → (1 ≤ n ≤ 22)%nat →
  parse_conversion rest [v] (∅, []) = Ok ((Conv ZERO (Z.of_nat n) (-1) INT, [111], [v]), (∅, [] : list Z)) → mapped m p (S n) →
  snprintf fpu p (Z.of_nat (S n)) (chars fmt) [v] m = Ok (Z.of_nat n, write p (octal n v ++ [0]) m).
Proof.
  intros -> Hr Hv Hu Hn Hp Hm. unfold snprintf. pose proof (octal_length n v) as Hl.
  rewrite (vsnprintf_run fpu m ∅ ∅ p (S n) _ [v] (octal n v)); [|done|apply map_empty_subseteq|by intros; rewrite lookup_empty|lia|by apply print_octal|unfold in_s; lia].
  rewrite Hl. rewrite decide_False by lia. rewrite take_ge by lia. do 4 f_equal. rewrite <- (list_fmap_id (octal n v)) at 2.
  apply list_fmap_ext. intros i c Hc. apply wrapu_id. pose proof (octal_digits n v) as Hd. rewrite Forall_lookup in Hd. specialize (Hd i c Hc).
  unfold digit, in_u, id in *. lia.
Qed.
Lemma snprintf_o7 fpu m p v : 0 ≤ v < 8 ^ 7 → mapped m p 8 → snprintf fpu p 8 (chars "%07o") [v] m = Ok (7, write p (octal 7 v ++ [0]) m).
Proof. intros Hv Hm. by apply (snprintf_octal fpu m p "%07o" [48; 55; 111] 7); try done; try lia; unfold in_u; lia. Qed.
Lemma snprintf_o11 fpu m p v : in_u 32 v → mapped m p 12 → snprintf fpu p 12 (chars "%011o") [v] m = Ok (11, write p (octal 11 v ++ [0]) m).
Proof. intros Hv Hm. apply (snprintf_octal fpu m p "%011o" [48; 49; 49; 111] 11); try done; try lia. unfold in_u in *. lia. Qed.

Lemma foldl_octal_ge cs a : Forall digit cs → 0 ≤ a → a ≤ foldl (λ a c, c - 48 + a * 8) a cs.
Proof.
  intros H. revert a. induction H as [|c cs Hc H IH]; intros a Ha; cbn [foldl]; [done|]. unfold digit in Hc. specialize (IH (c - 48 + a * 8)). lia.
Qed.

(** A field of digits that ends in a null byte is read as its value. *)
Lemma octal_loop_run n m s o cs a : bytes_at m (s + o) (cs ++ [0]) → Forall digit cs → (length cs < n)%nat → 0 ≤ a → 0 ≤ o →
  0 < o + Z.of_nat (length cs) → foldl (λ a c, c - 48 + a * 8) a cs < 2 ^ 32 →
  octal_loop n s o a m = Ok ((true, foldl (λ a c, c - 48 + a * 8) a cs), m).
Proof.
  intros Hb Hd. revert n o a Hb. induction Hd as [|c cs Hc Hd IH]; intros n o a Hb Hn Ha Ho Hne Hlt; (destruct n as [|n]; [lia|]); cbn [octal_loop app foldl length] in *;
    apply bytes_at_cons in Hb as [H0 Hb]; rewrite (bind_Ok _ _ _ _ _ (load_run _ _ _ H0)).
  - rewrite decide_False by lia. rewrite decide_True by auto. by rewrite bool_decide_eq_true_2 by lia.
  - unfold digit in Hc. pose proof (foldl_octal_ge cs (c - 48 + a * 8) Hd ltac:(lia)) as Hge. rewrite decide_True by done. unfold ULONG_MAX.
    rewrite decide_False by (change ((2 ^ 32 - 1) / 8) with 536870911; lia). rewrite wrapu_id by (unfold in_u; lia).
    apply IH; try lia. by rewrite Z.add_assoc.
Qed.
Lemma parse_octal_run m p (n : nat) v : (1 ≤ n)%nat → 0 ≤ v < 8 ^ Z.of_nat n → in_u 32 v → bytes_at m p (octal n v ++ [0]) →
  parse_octal_field p (Z.of_nat (S n)) m = Ok ((true, v), m).
Proof.
  intros Hn Hv Hu Hb. unfold parse_octal_field. rewrite Nat2Z.id. pose proof (octal_length n v). pose proof (octal_value_octal n v Hv) as Hval. unfold octal_value in Hval.
  rewrite (octal_loop_run _ _ _ _ (octal n v)); rewrite ?Hval; [done|by rewrite Z.add_0_r|apply octal_digits|unfold in_u in *; lia..].
Qed.

(** ** The checksum *)

Definition octets (m : mem) (p n : Z) : Prop := ∀ a, in_range p n a → ∃ b, m !! a = Some b ∧ in_u 8 b.
Definition chk_byte (m : mem) (h i : Z) : Z :=
  if bool_decide (ofs f_chksum ≤ i) && bool_decide (i < ofs f_chksum + sizeof f_chksum) then 32 else default 0 (m !! (h + i)).
Fixpoint chk (m : mem) (h i : Z) (n : nat) : Z := match n with O => 0 | S n => chk_byte m h i + chk m h (i + 1) n end.

Lemma chk_byte_range m h i : octets m h 512 → 0 ≤ i < 512 → in_u 8 (chk_byte m h i).
Proof.
  intros Ho Hi. unfold chk_byte. destruct (_ && _); [by unfold in_u|]. destruct (Ho (h + i)) as (b & -> & Hb); [unfold in_range; lia|done].
Qed.
Lemma chk_range m h i n : octets m h 512 → 0 ≤ i → i + Z.of_nat n ≤ 512 → 0 ≤ chk m h i n ≤ 255 * Z.of_nat n.
Proof.
  intros Ho. revert i. induction n as [|n IH]; intros i Hi Hn; cbn [chk]; [lia|]. pose proof (chk_byte_range m h i Ho ltac:(lia)) as Hb. unfold in_u in Hb.
  specialize (IH (i + 1)). lia.
Qed.
Lemma chksum_loop_run m h n i a : octets m h 512 → 0 ≤ i → i + Z.of_nat n ≤ 512 → 0 ≤ a → a + 255 * Z.of_nat n < 2 ^ 32 →
  chksum_loop n h i a m = Ok (a + chk m h i n, m).
Proof.
  intros Ho. revert i a. induction n as [|n IH]; intros i a Hi Hn Ha Hlt; cbn [chksum_loop chk]; [by rewrite Z.add_0_r|].
  pose proof (chk_byte_range m h i Ho ltac:(lia)) as Hb. unfold in_u in Hb.
  rewrite (bind_Ok _ _ _ (chk_byte m h i) m).
  2:{ unfold chk_byte. destruct (_ && _); [done|]. destruct (Ho (h + i)) as (b & Hl & _); [unfold in_range; lia|]. rewrite Hl. by apply load_run. }
  rewrite wrapu_id by (unfold in_u; lia). rewrite IH by lia. do 2 f_equal. lia.
Qed.
Lemma chksum_run m h : octets m h 512 → calculate_chksum h m = Ok (chk m h 0 512, m) ∧ 0 ≤ chk m h 0 512 < 8 ^ 7.
Proof.
  intros Ho. split; [|pose proof (chk_range m h 0 512 Ho ltac:(lia) ltac:(lia)); lia].
  unfold calculate_chksum. change (Z.to_nat USTAR_HEADER_SIZE) with 512%nat. by rewrite (chksum_loop_run m h 512 0 0 Ho) by lia.
Qed.
(** The field of the checksum does not count. *)
Lemma chk_ext m m' h i n : (∀ a, ¬ in_range (h + 148) 8 a → m' !! a = m !! a) → chk m' h i n = chk m h i n.
Proof.
  intros He. revert i. induction n as [|n IH]; intros i; cbn [chk]; [done|]. rewrite IH. f_equal. unfold chk_byte. cbn [ofs sizeof f_chksum].
  do 2 case_bool_decide; cbn [andb]; try done; rewrite He; try done; unfold in_range; lia.
Qed.

(** ** Writing fields *)

Lemma write_eq p bs m m' : bytes_at m' p bs → (∀ a, ¬ in_range p (Z.of_nat (length bs)) a → m' !! a = m !! a) → m' = write p bs m.
Proof.
  intros Hb Ho. apply map_eq. intros a. destruct (decide (p ≤ a < p + Z.of_nat (length bs))) as [Ha|Ha].
  - destruct (lookup_lt_is_Some_2 bs (Z.to_nat (a - p))) as [b Hi]; [lia|].
    pose proof (Hb _ _ Hi) as H1. pose proof (write_bytes_at p bs m _ _ Hi) as H2. replace (p + Z.of_nat (Z.to_nat (a - p))) with a in * by lia. congruence.
  - rewrite write_lookup_out; [by apply Ho|]; exact Ha.
Qed.
Lemma bytes_at_write p bs m q cs : apart p (Z.of_nat (length bs)) q (Z.of_nat (length cs)) → bytes_at m q cs → bytes_at (write p bs m) q cs.
Proof. intros Ha. apply bytes_at_ext. intros a Hr. apply write_lookup_out. unfold apart, in_range in *. lia. Qed.
Lemma str_at_write p bs m q s : apart p (Z.of_nat (length bs)) q (Z.of_nat (length s) + 1) → str_at m q s → str_at (write p bs m) q s.
Proof. intros Ha. apply str_at_ext. intros a Hr. apply write_lookup_out. unfold apart, in_range in *. lia. Qed.

Lemma octets_write p bs m h n : octets m h n → Forall (in_u 8) bs → octets (write p bs m) h n.
Proof.
  intros Ho Hb a Ha. destruct (decide (p ≤ a < p + Z.of_nat (length bs))) as [Hr|Hr]; [|rewrite write_lookup_out by exact Hr; by apply Ho].
  destruct (lookup_lt_is_Some_2 bs (Z.to_nat (a - p))) as [b Hi]; [lia|]. exists b. split; [|by eapply Forall_lookup_1].
  rewrite <- (write_bytes_at p bs m _ _ Hi). f_equal. lia.
Qed.
Lemma octets_mapped m h p n : octets m h 512 → h ≤ p → p + Z.of_nat n ≤ h + 512 → mapped m p n.
Proof. intros Ho H1 H2 a Ha. destruct (Ho a) as (b & -> & _); [unfold in_range in *; lia|eauto]. Qed.

Lemma memset_loop_run n p m : mapped m p n → memset_loop n p 0 m = Ok ((), write p (replicate n 0) m).
Proof.
  revert p m. induction n as [|n IH]; intros p m Hm; [done|]. cbn [memset_loop replicate write].
  rewrite (bind_Ok _ _ _ _ _ (store_run m p 0 ltac:(apply Hm; unfold in_range; lia))). change (u8 0) with 0. rewrite IH.
  - rewrite write_insert; [done|]. unfold in_range. lia.
  - intros a Ha. destruct (decide (a = p)) as [->|Hne]; [rewrite lookup_insert_eq; eauto|]. rewrite lookup_insert_ne by done. apply Hm. unfold in_range in *. lia.
Qed.
Lemma memset_run m p : 0 < p → mapped m p 512 → memset p 0 USTAR_HEADER_SIZE m = Ok (p, write p (replicate 512 0) m).
Proof.
  intros Hp Hm. unfold memset. rewrite (bind_Ok _ _ _ _ _ (ASSERT_block_run p _ m ltac:(unfold NULL; lia))). change (Z.to_nat USTAR_HEADER_SIZE) with 512%nat.
  by rewrite (bind_Ok _ _ _ _ _ (memset_loop_run 512 p m Hm)).
Qed.
Lemma strlcpy_write m dst src s size : 0 < dst → 0 < src → str_at m src s → Forall (in_u 8) s → mapped m dst (Z.to_nat size) → Z.of_nat (length s) < size →
  apart dst size src (Z.of_nat (length s) + 1) → strlcpy dst src size m = Ok (Z.of_nat (length s), write dst (s ++ [0]) m).
Proof.
  intros Hd Hs0 Hs Hu Hm Hl Hap. destruct (strlcpy_run m dst src s size) as (m' & E & Hs' & Ho); try done; [lia|intros a Ha; apply Hm; unfold in_range in *; lia|].
  rewrite take_ge in Hs' by lia. rewrite E. do 2 f_equal. apply write_eq; [apply Hs'|]. rewrite length_app. cbn [length]. intros a Ha. apply Ho. unfold in_range in *. lia.
Qed.
Lemma store_write m p v : is_Some (m !! p) → in_u 8 v → store p v m = Ok ((), write p [v] m).
Proof. intros Hm Hv. rewrite store_run by done. by rewrite wrapu_id. Qed.

Abbreviation zeros := (chars "0000000").
Definition mode (type : Z) : Z := if decide (type = USTAR_REGULAR) then 420 else 493.

(** The header but for its checksum, in the order of the code. *)
Definition fields (name : list Z) (type size : Z) : list (Z * list Z) :=
  [(0, replicate 512 0); (0, name ++ [0]); (100, octal 7 (mode type) ++ [0]); (108, zeros ++ [0]); (116, zeros ++ [0]);
   (124, octal 11 (u32 size) ++ [0]); (136, octal 11 1136102400 ++ [0]); (156, [type]); (257, chars "ustar" ++ [0]);
   (264, [48]); (263, [48]); (297, chars "root" ++ [0]); (265, chars "root" ++ [0])].
Definition fill (h : Z) (fs : list (Z * list Z)) (m : mem) : mem := foldl (λ m f, write (h + f.1) f.2 m) m fs.

(** Facts about the addresses outside and the bytes inside survive. *)
Definition in_header (f : Z * list Z) : Prop := 0 ≤ f.1 ∧ f.1 + Z.of_nat (length f.2) ≤ 512 ∧ Forall (in_u 8) f.2.
Lemma fill_octets h fs m : Forall in_header fs → octets m h 512 → octets (fill h fs m) h 512.
Proof. intros H. revert m. induction H as [|f fs (_ & _ & Hf) H IH]; intros m Ho; [done|]. cbn. apply IH. by apply octets_write. Qed.
Lemma fill_str h fs m q s : Forall in_header fs → apart h 512 q (Z.of_nat (length s) + 1) → str_at m q s → str_at (fill h fs m) q s.
Proof.
  intros H Ha. revert m. induction H as [|f fs (H1 & H2 & _) H IH]; intros m Hs; [done|]. cbn. apply IH. apply str_at_write; [unfold apart in *; lia|done].
Qed.
Lemma fill_out h fs m a : Forall in_header fs → ¬ in_range h 512 a → fill h fs m !! a = m !! a.
Proof.
  intros H Ha. revert m. induction H as [|f fs (H1 & H2 & _) H IH]; intros m; [done|]. change (fill h (f :: fs) m) with (fill h fs (write (h + f.1) f.2 m)). rewrite IH. apply write_lookup_out. unfold in_range in *. lia.
Qed.

(** ** [ustar_make_header] *)

Definition literals_apart (L : literals) (h : Z) : Prop := Forall (λ x, apart h 512 x.1 (Z.of_nat (length x.2) + 1)) (strings L).

Section Make.
Context (L : literals) (fpu : Z → Z → option (Z * Z * bool)) (h q : Z) (name : list Z).
Context (Hh : 0 < h) (Hq : 0 < q) (HLa : literals_apart L h) (Hn : Forall (in_u 8) name) (Hl : (length name ≤ 99)%nat)
  (Hqa : apart h 512 q (Z.of_nat (length name) + 1)).

Record prepared (m : mem) : Prop := {
  pr_octets : octets m h 512;
  pr_literals : literals_at m L;
  pr_name : str_at m q name;
}.

Lemma literals_write m p bs : literals_at m L → h ≤ p → p + Z.of_nat (length bs) ≤ h + 512 → literals_at (write p bs m) L.
Proof.
  unfold literals_at, literals_apart in *. rewrite !Forall_forall in *. intros H H1 H2 x Hx. destruct (H x Hx) as [H0 Hs]. split; [done|].
  apply str_at_write; [|done]. specialize (HLa x Hx). unfold apart in *. lia.
Qed.
Lemma prepared_write m o bs : prepared m → in_header (o, bs) → prepared (write (h + o) bs m).
Proof.
  intros [H1 H2 H3] (Ho & Hlen & Hb). cbn in *. constructor; [by apply octets_write|apply literals_write; [done|lia..]|].
  apply str_at_write; [unfold apart in *; lia|done].
Qed.

Lemma step_literal m o p t size : prepared m → (p, t) ∈ strings L → 0 ≤ o → o + size ≤ 512 → Z.of_nat (length t) < size → Forall (in_u 8) t →
  strlcpy (h + o) p size m = Ok (Z.of_nat (length t), write (h + o) (t ++ [0]) m).
Proof.
  intros [H1 H2 H3] Hin Ho Hs Hlt Hu. unfold literals_at, literals_apart in *. rewrite Forall_forall in H2, HLa. destruct (H2 _ Hin) as [Hp Ht]. specialize (HLa _ Hin). cbn in *.
  apply strlcpy_write; try done; [lia|by eapply octets_mapped; [done|lia..]|unfold apart in *; lia].
Qed.
Lemma step_name m : prepared m → strlcpy (h + 0) q 100 m = Ok (Z.of_nat (length name), write (h + 0) (name ++ [0]) m).
Proof. intros [H1 H2 H3]. apply strlcpy_write; try done; [lia|by eapply octets_mapped; [done|lia..]|lia|unfold apart in *; lia]. Qed.
Lemma step_o7 m o v : prepared m → 0 ≤ o → o + 8 ≤ 512 → 0 ≤ v < 8 ^ 7 → snprintf fpu (h + o) 8 (chars "%07o") [v] m = Ok (7, write (h + o) (octal 7 v ++ [0]) m).
Proof. intros [H1 _ _] Ho Hs Hv. apply snprintf_o7; [done|]. by eapply octets_mapped; [done|lia..]. Qed.
Lemma step_o11 m o v : prepared m → 0 ≤ o → o + 12 ≤ 512 → in_u 32 v → snprintf fpu (h + o) 12 (chars "%011o") [v] m = Ok (11, write (h + o) (octal 11 v ++ [0]) m).
Proof. intros [H1 _ _] Ho Hs Hv. apply snprintf_o11; [done|]. by eapply octets_mapped; [done|lia..]. Qed.
Lemma step_store m o v : prepared m → 0 ≤ o < 512 → in_u 8 v → store (h + o) v m = Ok ((), write (h + o) [v] m).
Proof. intros [H1 _ _] Ho Hv. apply store_write; [|done]. destruct (H1 (h + o)) as (b & -> & _); [unfold in_range; lia|eauto]. Qed.

Lemma header_octal o n v : 0 ≤ o → o + Z.of_nat n + 1 ≤ 512 → in_header (o, octal n v ++ [0]).
Proof.
  intros Ho Hn'. split; [done|]. cbn [fst snd]. rewrite length_app, octal_length. split; [cbn; lia|]. apply Forall_app. split; [|by repeat constructor].
  eapply Forall_impl; [apply octal_digits|]. unfold digit, in_u. intros; lia.
Qed.
Lemma header_name : in_header (0, name ++ [0]).
Proof. split; [done|]. cbn [fst snd]. rewrite length_app. split; [cbn; lia|]. apply Forall_app. split; [done|by repeat constructor]. Qed.
Lemma header_byte o v : 0 ≤ o < 512 → in_u 8 v → in_header (o, [v]).
Proof. intros Ho Hv. split; [cbn; lia|]. split; [cbn; lia|]. by constructor. Qed.
Lemma header_text o bs : (0 <=? o) && (o + Z.of_nat (length bs) <=? 512) && forallb (λ b, (0 <=? b) && (b <? 256)) bs = true → in_header (o, bs).
Proof.
  intros [[H1 H2]%andb_prop H3]%andb_prop. split; [cbn; lia|]. split; [cbn; lia|]. apply Forall_forall. intros b Hb%list_elem_of_In. rewrite forallb_forall in H3.
  specialize (H3 b Hb). cbn in *. unfold in_u. lia.
Qed.
Lemma fields_in_header type size : in_u 8 type → Forall in_header (fields name type size).
Proof.
  intros Ht. unfold fields. repeat (apply Forall_cons; split); try apply header_octal; try apply header_name; try (apply header_byte; [lia|done]); try lia; try (apply header_text; vm_compute; reflexivity).
  by apply Forall_nil.
Qed.

Lemma prepared_memset m : mapped m h 512 → literals_at m L → str_at m q name → prepared (write (h + 0) (replicate 512 0) m).
Proof.
  intros Hm HL Hs. constructor.
  - intros a Ha. exists 0. split; [|by unfold in_u]. rewrite Z.add_0_r. rewrite <- (write_bytes_at h (replicate 512 0) m (Z.to_nat (a - h)) 0).
    + f_equal. unfold in_range in Ha. lia.
    + apply lookup_replicate_2. unfold in_range in Ha. lia.
  - apply literals_write; [done|lia|rewrite length_replicate; lia].
  - apply str_at_write; [rewrite length_replicate; unfold apart in *; lia|done].
Qed.

(** The fields, then the checksum of what they make. *)
Ltac advance P H := let P' := fresh in pose proof (prepared_write _ _ _ P H) as P'; clear P; rename P' into P.
Lemma make_fields_run m type size : type = USTAR_REGULAR ∨ type = USTAR_DIRECTORY → mapped m h 512 → literals_at m L → str_at m q name →
  let m1 := fill h (fields name type size) m in
  prepared m1 ∧
  (memset h 0 USTAR_HEADER_SIZE;;
   strlcpy (h + ofs f_name) q (sizeof f_name);;
   snprintf fpu (h + ofs f_mode) (sizeof f_mode) (chars "%07o") [if decide (type = USTAR_REGULAR) then 420 else 493];;
   strlcpy (h + ofs f_uid) (lit_zeros L) (sizeof f_uid);;
   strlcpy (h + ofs f_gid) (lit_zeros L) (sizeof f_gid);;
   snprintf fpu (h + ofs f_size) (sizeof f_size) (chars "%011o") [u32 size];;
   snprintf fpu (h + ofs f_mtime) (sizeof f_size) (chars "%011o") [1136102400];;
   store (h + ofs f_typeflag) type;;
   strlcpy (h + ofs f_magic) (lit_ustar L) (sizeof f_magic);;
   store (h + ofs f_version + 1) 48;; store (h + ofs f_version) 48;;
   strlcpy (h + ofs f_gname) (lit_root L) (sizeof f_gname);;
   strlcpy (h + ofs f_uname) (lit_root L) (sizeof f_uname);;
   chksum ← calculate_chksum h;
   snprintf fpu (h + ofs f_chksum) (sizeof f_chksum) (chars "%07o") [chksum];;
   mret true) m = Ok (true, write (h + 148) (octal 7 (chk m1 h 0 512) ++ [0]) m1).
Proof.
  intros Ht Hm HL Hs. assert (in_u 8 type) as Htu by (unfold USTAR_REGULAR, USTAR_DIRECTORY, in_u in *; lia).
  pose proof (prepared_memset m Hm HL Hs) as P. intros m1.
  assert (memset h 0 USTAR_HEADER_SIZE m = Ok (h, write (h + 0) (replicate 512 0) m)) as E0 by (rewrite Z.add_0_r; by apply memset_run).
  rewrite (bind_Ok _ _ _ _ _ E0). clear E0.
  unfold f_name, f_mode, f_uid, f_gid, f_size, f_mtime, f_typeflag, f_magic, f_version, f_gname, f_uname, f_chksum. cbv beta iota delta [ofs sizeof]. fold (mode type).
  replace (h + 263 + 1) with (h + 264) by lia.
  assert (0 ≤ mode type < 8 ^ 7) as Hmode by (unfold mode; case_decide; lia).
  assert (∀ o, 0 ≤ o → o + 8 ≤ 512 → in_header (o, zeros ++ [0])) as Hz by (intros o H1 H2; split; [done|]; split; [cbn; lia|by repeat constructor]).
  assert (∀ o, 0 ≤ o → o + 5 ≤ 512 → in_header (o, chars "root" ++ [0])) as Hr by (intros o H1 H2; split; [done|]; split; [cbn; lia|by repeat constructor]).
  rewrite (bind_Ok _ _ _ _ _ (step_name _ P)). advance P header_name.
  assert (∀ p t, (p, t) ∈ strings L → Forall (in_u 8) t → ∀ o size, 0 ≤ o → o + size ≤ 512 → Z.of_nat (length t) < size → ∀ m', prepared m' →
    strlcpy (h + o) p size m' = Ok (Z.of_nat (length t), write (h + o) (t ++ [0]) m')) as lit by (intros; by apply step_literal).
  pose proof (lit (lit_zeros L) zeros ltac:(do 4 right; left) ltac:(by repeat constructor)) as lit_z.
  pose proof (lit (lit_ustar L) (chars "ustar") ltac:(do 5 right; left) ltac:(by repeat constructor)) as lit_u.
  pose proof (lit (lit_root L) (chars "root") ltac:(do 6 right; left) ltac:(by repeat constructor)) as lit_r. clear lit.
  rewrite (bind_Ok _ _ _ _ _ (step_o7 _ 100 _ P ltac:(lia) ltac:(lia) Hmode)). advance P (header_octal 100 7 (mode type) ltac:(lia) ltac:(lia)).
  rewrite (bind_Ok _ _ _ _ _ (lit_z 108 8 ltac:(lia) ltac:(lia) ltac:(cbn; lia) _ P)). advance P (Hz 108 ltac:(lia) ltac:(lia)).
  rewrite (bind_Ok _ _ _ _ _ (lit_z 116 8 ltac:(lia) ltac:(lia) ltac:(cbn; lia) _ P)). advance P (Hz 116 ltac:(lia) ltac:(lia)).
  rewrite (bind_Ok _ _ _ _ _ (step_o11 _ 124 _ P ltac:(lia) ltac:(lia) (wrapu_range 32 size ltac:(lia)))). advance P (header_octal 124 11 (u32 size) ltac:(lia) ltac:(lia)).
  rewrite (bind_Ok _ _ _ _ _ (step_o11 _ 136 1136102400 P ltac:(lia) ltac:(lia) ltac:(done))). advance P (header_octal 136 11 1136102400 ltac:(lia) ltac:(lia)).
  rewrite (bind_Ok _ _ _ _ _ (step_store _ 156 type P ltac:(lia) Htu)). advance P (header_byte 156 type ltac:(lia) Htu).
  rewrite (bind_Ok _ _ _ _ _ (lit_u 257 6 ltac:(lia) ltac:(lia) ltac:(cbn; lia) _ P)). advance P (header_text 257 (chars "ustar" ++ [0]) eq_refl).
  rewrite (bind_Ok _ _ _ _ _ (step_store _ 264 48 P ltac:(lia) ltac:(done))). advance P (header_byte 264 48 ltac:(lia) ltac:(done)).
  rewrite (bind_Ok _ _ _ _ _ (step_store _ 263 48 P ltac:(lia) ltac:(done))). advance P (header_byte 263 48 ltac:(lia) ltac:(done)).
  rewrite (bind_Ok _ _ _ _ _ (lit_r 297 32 ltac:(lia) ltac:(lia) ltac:(cbn; lia) _ P)). advance P (Hr 297 ltac:(lia) ltac:(lia)).
  rewrite (bind_Ok _ _ _ _ _ (lit_r 265 32 ltac:(lia) ltac:(lia) ltac:(cbn; lia) _ P)). advance P (Hr 265 ltac:(lia) ltac:(lia)).
  match type of P with prepared ?M => change M with m1 in P |- * end. split; [exact P|]. destruct (chksum_run m1 h (pr_octets _ P)) as [E Hc].
  rewrite (bind_Ok _ _ _ _ _ E). by rewrite (bind_Ok _ _ _ _ _ (step_o7 _ 148 _ P ltac:(lia) ltac:(lia) Hc)).
Qed.

(** ** What is in the header then *)

Section Header.
Context (m : mem) (type size : Z).
Abbreviation m1 := (fill h (fields name type size) m).
Abbreviation sum := (chk m1 h 0 512).
Definition composed : mem := write (h + 148) (octal 7 sum ++ [0]) m1.

Lemma zero_octet o : 0 ≤ o < 512 → bytes_at (write (h + 0) (replicate 512 0) m) (h + o) [0].
Proof.
  intros Ho i b Hb. destruct i as [|[|i]]; [|done..]. injection Hb as <-. rewrite <- (write_bytes_at (h + 0) (replicate 512 0) m (Z.to_nat o) 0).
  - f_equal. lia.
  - apply lookup_replicate_2. lia.
Qed.

Ltac peel := unfold composed, fill, fields; cbn [foldl fst snd];
  repeat first [apply write_bytes_at
               |apply zero_octet; lia
               |apply bytes_at_write; [rewrite ?length_app, ?octal_length, ?length_replicate; unfold apart; cbn [length chars]; cbn; lia|]].

Lemma at_name : bytes_at composed (h + 0) (name ++ [0]).
Proof. peel. Qed.
Lemma at_size : bytes_at composed (h + 124) (octal 11 (u32 size) ++ [0]).
Proof. peel. Qed.
Lemma at_chksum : bytes_at composed (h + 148) (octal 7 sum ++ [0]).
Proof. apply write_bytes_at. Qed.
Lemma at_type : bytes_at composed (h + 156) [type].
Proof. peel. Qed.
Lemma at_magic : bytes_at composed (h + 257) (chars "ustar" ++ [0]).
Proof. peel. Qed.
Lemma at_version0 : bytes_at composed (h + 263) [48].
Proof. peel. Qed.
Lemma at_version1 : bytes_at composed (h + 264) [48].
Proof. peel. Qed.
Lemma at_prefix : bytes_at composed (h + 345) [0].
Proof. peel. Qed.
Lemma at_last : bytes_at composed (h + 99) [0].
Proof.
  destruct (decide (length name = 99)%nat) as [E|E].
  - pose proof at_name as H. apply bytes_at_app in H as [_ H]. rewrite E in H. by replace (h + 99) with (h + 0 + Z.of_nat 99) by lia.
  - peel.
Qed.
Lemma composed_chk : chk composed h 0 512 = sum.
Proof.
  apply chk_ext. intros a Ha. apply write_lookup_out. rewrite length_app, octal_length. unfold in_range in *. cbn. lia.
Qed.
End Header.
End Make.

(** ** [ustar_parse_header] *)

Section Parse.
Context (L : literals) (m : mem) (h : Z) (Hh : 0 < h) (Ho : octets m h 512) (HL : literals_at m L).

Lemma octet o : 0 ≤ o < 512 → ∃ b, m !! (h + o) = Some b ∧ in_u 8 b.
Proof. intros H. apply Ho. unfold in_range. lia. Qed.

Lemma all_zeros_run p n : h ≤ p → p + Z.of_nat n ≤ h + 512 → ∃ z, is_all_zeros p n m = Ok (z, m) ∧ (∀ a b, in_range p (Z.of_nat n) a → m !! a = Some b → b ≠ 0 → z = false).
Proof.
  revert p. induction n as [|n IH]; intros p H1 H2; cbn [is_all_zeros]; [exists true; split; [done|]; unfold in_range; intros; lia|].
  destruct (Ho p) as (c & Hc & _); [unfold in_range; lia|]. rewrite (bind_Ok _ _ _ _ _ (load_run _ _ _ Hc)). case_decide as Hz; [by exists false|].
  destruct (IH (p + 1)) as (z & E & H); [lia..|]. exists z. split; [done|]. intros a b Ha Hb Hb0. destruct (decide (a = p)) as [->|Hne]; [simplify_eq; tauto|].
  apply (H a b); [unfold in_range in *; lia|done|done].
Qed.

Lemma octal_total n p o a : h ≤ p + o → p + o + Z.of_nat n ≤ h + 512 → in_u 32 a → ∃ r v, octal_loop n p o a m = Ok ((r, v), m) ∧ in_u 32 v.
Proof.
  revert o a. induction n as [|n IH]; intros o a H1 H2 Ha; cbn [octal_loop]; [by exists false, a|].
  destruct (Ho (p + o)) as (c & Hc & _); [unfold in_range; lia|]. rewrite (bind_Ok _ _ _ _ _ (load_run _ _ _ Hc)).
  repeat case_decide; eauto. apply IH; [lia|lia|]. apply wrapu_range; lia.
Qed.

(** A name whose field ends in a null byte is a string. *)
Lemma string_before n p : h ≤ p → p + Z.of_nat n < h + 512 → m !! (p + Z.of_nat n) = Some 0 → ∃ s, str_at m p s ∧ Forall (in_u 8) s.
Proof.
  revert p. induction n as [|n IH]; intros p H1 H2 H0; [exists []; split; [|done]; apply str_at_nil; by rewrite Z.add_0_r in H0|].
  destruct (Ho p) as (c & Hc & Hu); [unfold in_range; lia|]. destruct (decide (c = 0)) as [->|Hne]; [exists []; split; [by apply str_at_nil|done]|].
  destruct (IH (p + 1)) as (s & Hs & Hus); [lia..|rewrite <- H0; f_equal; lia|]. exists (c :: s). split; [by apply str_at_cons|by constructor].
Qed.

Lemma magic_bytes : ∃ bs, length bs = 6%nat ∧ bytes_at m (h + 257) bs.
Proof. apply mapped_bytes. by eapply octets_mapped; [done|lia..]. Qed.

Definition well_read (r : string + Z * Z * Z) : Prop :=
  match r with
  | inl _ => True
  | inr (name, type, size) =>
      (name = NULL ∧ type = USTAR_EOF ∧ size = 0) ∨
      ((type = USTAR_REGULAR ∨ type = USTAR_DIRECTORY) ∧ 0 ≤ size ≤ INT_MAX ∧ ∃ s, str_at m name s ∧ safe s)
  end.

Lemma read_error e : ∃ r, (mret (inl e) : C (string + Z * Z * Z)) m = Ok (r, m) ∧ well_read r.
Proof. by exists (inl e). Qed.
Lemma parse_total : ∃ r, ustar_parse_header L h m = Ok (r, m) ∧ well_read r.
Proof.
  unfold ustar_parse_header, f_name, f_mode, f_size, f_typeflag, f_magic, f_version, f_prefix, f_chksum. cbv beta iota delta [ofs sizeof].
  destruct (all_zeros_run h 512) as (z & Ez & _); [lia..|]. change (Z.to_nat USTAR_HEADER_SIZE) with 512%nat. rewrite (bind_Ok _ _ _ _ _ Ez).
  destruct z; [eexists; split; [done|]; by left|].
  destruct magic_bytes as (bs & Hbl & Hbs). destruct (literal_at L m HL (lit_ustar L) (chars "ustar") ltac:(do 5 right; left)) as [Hu0 [Hub _]].
  rewrite (bind_Ok _ _ _ _ _ (memcmp_run m (h + 257) (lit_ustar L) bs _ 6 ltac:(unfold NULL; lia) Hu0 Hbs Hub Hbl ltac:(by rewrite Hbl))).
  case_decide; [apply read_error|].
  destruct (octet 263) as (v0 & Hv0 & _); [lia|]. rewrite (bind_Ok _ _ _ _ _ (load_run _ _ _ Hv0)).
  destruct (octet 264) as (v1 & Hv1 & _); [lia|]. replace (h + 263 + 1) with (h + 264) by lia.
  rewrite (bind_Ok _ _ _ (if decide (v0 ≠ 48) then 0 else v1) m) by (case_decide; [done|by apply load_run]). generalize (if decide (v0 ≠ 48) then 0 else v1). intros v1'. case_decide; [apply read_error|].
  destruct (octal_total 8 (h + 148) 0 0) as (r & v & Er & _); [lia..|by unfold in_u|]. rewrite (bind_Ok (parse_octal_field _ _) _ m (r, v) m) by exact Er.
  destruct r; cbn [negb fst snd]; [|apply read_error]. destruct (chksum_run m h Ho) as [Ec _]. rewrite (bind_Ok _ _ _ _ _ Ec). case_decide; [apply read_error|].
  destruct (octet 99) as (l & Hl & _); [lia|]. replace (h + 0 + 100 - 1) with (h + 99) by lia. rewrite (bind_Ok _ _ _ _ _ (load_run _ _ _ Hl)).
  destruct (octet 345) as (x & Hx & _); [lia|].
  rewrite (bind_Ok _ _ _ (if decide (l ≠ 0) then 0 else x) m) by (case_decide; [done|by apply load_run]). generalize (if decide (l ≠ 0) then 0 else x). intros x'. case_decide as Hz; [apply read_error|].
  destruct (octet 156) as (ty & Hty & _); [lia|]. rewrite (bind_Ok _ _ _ _ _ (load_run _ _ _ Hty)). case_decide as Ht; [apply read_error|].
  destruct (octal_total 12 (h + 124) 0 0) as (r & sz & Es & Hsz); [lia..|by unfold in_u|].
  rewrite (bind_Ok _ _ _ (if decide (ty = USTAR_REGULAR) then (r, sz) else (true, 0)) m) by (case_decide; [exact Es|done]).
  set (rs := if decide (ty = USTAR_REGULAR) then (r, sz) else (true, 0)). assert (0 ≤ rs.2) as Hrs by (unfold rs, in_u in *; case_decide; cbn; lia).
  destruct (rs.1); cbn [negb]; [|apply read_error]. case_decide as Hmax; [apply read_error|].
  assert (l = 0) as -> by (destruct (decide (l = 0)); [done|tauto]). destruct (string_before 99 (h + 0)) as (s & Hs & Hus); [lia..|rewrite <- Hl; f_equal; lia|].
  destruct (strip_run L m HL (h + 0) s ltac:(lia) Hs Hus) as (q & Eq & _ & Hq & _). rewrite (bind_Ok _ _ _ _ _ Eq). eexists. split; [done|]. right.
  split; [destruct (decide (ty = USTAR_REGULAR)); [by left|right; destruct (decide (ty = USTAR_DIRECTORY)); [done|tauto]]|].
  split; [lia|]. exists (strip s). split; [done|apply strip_safe].
Qed.

Lemma byte_of o b : bytes_at m (h + o) [b] → m !! (h + o) = Some b.
Proof. intros H. rewrite <- (Z.add_0_r (h + o)). by apply (H 0%nat). Qed.

Lemma parse_header_run type size name : type = USTAR_REGULAR ∨ type = USTAR_DIRECTORY → 0 ≤ size ≤ INT_MAX → Forall (in_u 8) name →
  str_at m (h + 0) name → bytes_at m (h + 124) (octal 11 size ++ [0]) → bytes_at m (h + 148) (octal 7 (chk m h 0 512) ++ [0]) → bytes_at m (h + 156) [type] →
  bytes_at m (h + 257) (chars "ustar" ++ [0]) → bytes_at m (h + 263) [48] → bytes_at m (h + 264) [48] → bytes_at m (h + 345) [0] → bytes_at m (h + 99) [0] →
  ∃ q, ustar_parse_header L h m = Ok (inr (q, type, if decide (type = USTAR_REGULAR) then size else 0), m) ∧ str_at m q (strip name).
Proof.
  intros Ht Hsz Hnu Hname Hsize Hchk Hty Hmag Hv0 Hv1 Hpre Hlast. apply byte_of in Hty, Hv0, Hv1, Hpre, Hlast.
  unfold ustar_parse_header, f_name, f_mode, f_size, f_typeflag, f_magic, f_version, f_prefix, f_chksum. cbv beta iota delta [ofs sizeof].
  destruct (all_zeros_run h 512) as (z & Ez & Hz); [lia..|]. change (Z.to_nat USTAR_HEADER_SIZE) with 512%nat.
  rewrite (Hz (h + 263) 48 ltac:(unfold in_range; lia) Hv0 ltac:(lia)) in Ez. rewrite (bind_Ok _ _ _ _ _ Ez).
  destruct (literal_at L m HL (lit_ustar L) (chars "ustar") ltac:(do 5 right; left)) as [Hu0 [Hub _]].
  rewrite (bind_Ok _ _ _ _ _ (memcmp_run m (h + 257) (lit_ustar L) _ _ 6 ltac:(unfold NULL; lia) Hu0 Hmag Hub eq_refl eq_refl)).
  rewrite (proj2 (compare_zero _ _) eq_refl), decide_False by tauto. rewrite (bind_Ok _ _ _ _ _ (load_run _ _ _ Hv0)). replace (h + 263 + 1) with (h + 264) by lia.
  rewrite (decide_False (P := 48 ≠ 48)), (bind_Ok _ _ _ _ _ (load_run _ _ _ Hv1)), decide_False by tauto.
  destruct (chksum_run m h Ho) as [Ec Hc]. rewrite (bind_Ok _ _ _ _ _ (parse_octal_run m (h + 148) 7 _ ltac:(lia) Hc ltac:(unfold in_u; lia) Hchk)). cbn [negb fst snd].
  rewrite (bind_Ok _ _ _ _ _ Ec), decide_False by tauto. replace (h + 0 + 100 - 1) with (h + 99) by lia. rewrite (bind_Ok _ _ _ _ _ (load_run _ _ _ Hlast)).
  rewrite (decide_False (P := 0 ≠ 0)), (bind_Ok _ _ _ _ _ (load_run _ _ _ Hpre)), decide_False, (bind_Ok _ _ _ _ _ (load_run _ _ _ Hty)), decide_False by tauto.
  unfold INT_MAX in Hsz. rewrite (bind_Ok _ _ _ (true, if decide (type = USTAR_REGULAR) then size else 0) m).
  2:{ case_decide; [|done]. apply (parse_octal_run m (h + 124) 11); [lia|lia|unfold in_u; lia|done]. }
  cbn [negb fst snd]. rewrite decide_False by (unfold INT_MAX; case_decide; lia).
  destruct (strip_run L m HL (h + 0) name ltac:(lia) Hname Hnu) as (q & Eq & _ & Hq & _). rewrite (bind_Ok _ _ _ _ _ Eq). by exists q.
Qed.
End Parse.

(** A part of the header, in a memory that has the same header. *)
Definition same_header (h : Z) (m m' : mem) : Prop := ∀ a, in_range h 512 a → m' !! a = m !! a.
Lemma bytes_at_same h m m' o bs : same_header h m m' → 0 ≤ o → o + Z.of_nat (length bs) ≤ 512 → bytes_at m (h + o) bs → bytes_at m' (h + o) bs.
Proof. intros Hs Ho Hl Hb i b Hi. rewrite Hs; [by apply Hb|]. apply lookup_lt_Some in Hi. unfold in_range. lia. Qed.
Lemma chk_same h m m' i n : same_header h m m' → 0 ≤ i → i + Z.of_nat n ≤ 512 → chk m' h i n = chk m h i n.
Proof.
  intros Hs. revert i. induction n as [|n IH]; intros i Hi Hn; cbn [chk]; [done|]. rewrite IH by lia. f_equal. unfold chk_byte. destruct (_ && _); [done|]. rewrite Hs; [done|]. unfold in_range. lia.
Qed.

(** A composed header is read, there or in another memory. *)
Lemma composed_reads L m h q name type size (m' := composed h name m type size) :
  0 < h → literals_apart L h → Forall (in_u 8) name → (length name ≤ 99)%nat → apart h 512 q (Z.of_nat (length name) + 1) →
  type = USTAR_REGULAR ∨ type = USTAR_DIRECTORY → 0 ≤ size ≤ INT_MAX → prepared L h q name (fill h (fields name type size) m) →
  (∀ a, ¬ in_range h 512 a → m' !! a = m !! a) ∧ octets m' h 512 ∧ literals_at m' L ∧
  ∀ m2, octets m2 h 512 → literals_at m2 L → same_header h m' m2 →
    ∃ q', ustar_parse_header L h m2 = Ok (inr (q', type, if decide (type = USTAR_REGULAR) then size else 0), m2) ∧ str_at m2 q' (strip name).
Proof.
  intros Hh HLa Hu Hl Hqa Ht Hsz P. assert (in_header (148, octal 7 (chk (fill h (fields name type size) m) h 0 512) ++ [0])) as H148 by (apply (header_octal name Hl); lia).
  pose proof (prepared_write L h q name HLa Hu Hl Hqa _ _ _ P H148) as [P1 P2 P3].
  assert (in_u 8 type) as Htu by (unfold USTAR_REGULAR, USTAR_DIRECTORY, in_u in *; lia). split; [|split; [exact P1|split; [exact P2|]]].
  - intros a Ha. unfold m', composed. rewrite write_lookup_out; [apply fill_out; [by apply fields_in_header|done]|].
    rewrite length_app, octal_length. unfold in_range in *. cbn. lia.
  - intros m2 O2 L2 S2. assert (u32 size = size) as Hs by (apply wrapu_id; unfold INT_MAX, in_u in *; lia). pose proof (at_size h name Hl m type size) as H. rewrite Hs in H.
    pose proof (at_chksum h name m type size) as Hc. rewrite <- (composed_chk h name Hl m type size), <- (chk_same h (composed h name m type size) m2 0 512 S2) in Hc by lia.
    assert (∀ o bs, 0 ≤ o → o + Z.of_nat (length bs) ≤ 512 → bytes_at m' (h + o) bs → bytes_at m2 (h + o) bs) as Hmove by (intros o bs; by apply bytes_at_same).
    assert (∀ o n z, 0 ≤ o → o + Z.of_nat n < 512 → bytes_at m' (h + o) (octal n z ++ [0]) → bytes_at m2 (h + o) (octal n z ++ [0])) as Hoct
      by (intros o n z H1 H2; apply Hmove; [done|rewrite length_app, octal_length; cbn [length]; lia]).
    assert (∀ o b, 0 ≤ o < 512 → bytes_at m' (h + o) [b] → bytes_at m2 (h + o) [b]) as Hone by (intros o b Hb; apply Hmove; [lia|cbn [length]; lia]).
    apply (parse_header_run L m2 h Hh O2 L2 type size name Ht Hsz Hu).
    + split; [apply Hmove; [lia|rewrite length_app; cbn [length]; lia|by apply at_name]|apply P3].
    + apply Hoct; [lia|lia|exact H].
    + apply Hoct; [lia|lia|exact Hc].
    + apply Hone; [lia|by apply at_type].
    + apply Hmove; [lia|cbn; lia|by apply at_magic].
    + apply Hone; [lia|by apply at_version0].
    + apply Hone; [lia|by apply at_version1].
    + apply Hone; [lia|by apply at_prefix].
    + apply Hone; [lia|by apply at_last].
Qed.

(** What [ustar_make_header] composes. *)
Lemma make_header_run L fpu m h p s type size :
  0 < h → 0 < p → mapped m h 512 → literals_at m L → literals_apart L h → str_at m p s → Forall (in_u 8) s → apart h 512 p (Z.of_nat (length s) + 1) →
  type = USTAR_REGULAR ∨ type = USTAR_DIRECTORY → 0 ≤ size ≤ INT_MAX →
  if decide (99 < length (strip s))%nat then ustar_make_header L fpu p type size h m = Ok (false, m) else
  let m' := composed h (strip s) m type size in
  ustar_make_header L fpu p type size h m = Ok (true, m') ∧ (∀ a, ¬ in_range h 512 a → m' !! a = m !! a) ∧ octets m' h 512 ∧ literals_at m' L ∧
  ∀ m2, octets m2 h 512 → literals_at m2 L → same_header h m' m2 →
    ∃ q, ustar_parse_header L h m2 = Ok (inr (q, type, if decide (type = USTAR_REGULAR) then size else 0), m2) ∧ str_at m2 q (strip s).
Proof.
  intros Hh Hp Hm HL HLa Hs Hu Hap Ht Hsz. destruct (strip_run L m HL p s Hp Hs Hu) as (q & Eq & Hq0 & Hq & Hqr).
  assert (Forall (in_u 8) (strip s)) as Hun.
  { unfold strip. case_decide; [by repeat constructor|]. destruct (skip_drop s) as (j & _ & ->). by apply Forall_drop. }
  assert (apart h 512 q (Z.of_nat (length (strip s)) + 1)) as Hqa.
  { destruct Hqr as [->|Hqr]; [|unfold apart in *; lia]. unfold literals_at, literals_apart in *. rewrite Forall_forall in HL, HLa.
    assert ((lit_dot L, chars ".") ∈ strings L) as Hin by (do 3 right; left). destruct (HL _ Hin) as [_ Hd]. specialize (HLa _ Hin). cbn [fst snd] in *.
    by rewrite (str_at_unique _ _ _ _ Hq Hd). }
  unfold ustar_make_header. rewrite (bind_Ok (ASSERT _) _ m () m).
  2:{ apply ASSERT_true. destruct Ht as [-> | ->]; by vm_compute. }
  rewrite (bind_Ok _ _ _ _ _ Eq), (bind_Ok _ _ _ _ _ (strlen_run m q _ ltac:(unfold NULL; lia) Hq)).
  destruct (decide (99 < length (strip s))%nat) as [Hl|Hl]; [by rewrite decide_True by lia|]. rewrite decide_False by lia.
  destruct (make_fields_run L fpu h q (strip s) Hh Hq0 HLa Hun ltac:(lia) Hqa m type size Ht Hm HL Hq) as [P E]. rewrite E.
  clear E. destruct (composed_reads L m h q (strip s) type size Hh HLa Hun ltac:(lia) Hqa Ht Hsz P) as (Ho & O' & L' & Hr).
  rewrite (strip_id (strip s) (strip_safe s)) in Hr. done.
Qed.

(** ** The theorems *)

(** C33: a header that [ustar_make_header] composes for a regular file or a
    directory is read back by [ustar_parse_header] with the same name, less
    the prefixes that are stripped, the same type and, for a regular file, the
    same size.  Nothing outside of the header changes.  A name of more than 99
    characters is refused before anything is written. *)
Theorem ustar_roundtrip L fpu m h p s type size :
  0 < h → 0 < p → mapped m h 512 → literals_at m L → literals_apart L h → str_at m p s → Forall (in_u 8) s → apart h 512 p (Z.of_nat (length s) + 1) →
  type = USTAR_REGULAR ∨ type = USTAR_DIRECTORY → 0 ≤ size ≤ INT_MAX →
  if decide (99 < length (strip s))%nat then ustar_make_header L fpu p type size h m = Ok (false, m) else
  ∃ m' q, ustar_make_header L fpu p type size h m = Ok (true, m') ∧ (∀ a, ¬ in_range h 512 a → m' !! a = m !! a) ∧
    ustar_parse_header L h m' = Ok (inr (q, type, if decide (type = USTAR_REGULAR) then size else 0), m') ∧ str_at m' q (strip s).
Proof.
  intros Hh Hp Hm HL HLa Hs Hu Hap Ht Hsz. pose proof (make_header_run L fpu m h p s type size Hh Hp Hm HL HLa Hs Hu Hap Ht Hsz) as H. case_decide; [exact H|].
  destruct H as (E & Ho & O' & L' & Hr). destruct (Hr _ O' L') as (q & Eq & Hq); [by intros a|]. by exists (composed h (strip s) m type size), q.
Qed.

(** A memory for examples: the literals, a name at 100 and a header at 1000. *)
Definition demo_literals : literals := Literals 10 20 30 40 50 60 70.
Definition demo : mem :=
  foldr (λ x m, write x.1 (x.2 ++ [0]) m) (write 1000 (replicate 512 255) ∅) (strings demo_literals ++ [(100, chars "/../etc/motd")]).
Definition no_fpu (d p : Z) : option (Z * Z * bool) := None.

Lemma demo_literals_at : literals_at demo demo_literals.
Proof. unfold literals_at, strings. repeat (apply Forall_cons; split; [split; [done|apply str_at_check; vm_compute; reflexivity]|]). by apply Forall_nil. Qed.
Lemma demo_header : octets demo 1000 512.
Proof.
  intros a Ha. exists 255. split; [|by unfold in_u]. assert (bytes_at demo 1000 (replicate 512 255)) as H by (apply bytes_at_check; vm_compute; reflexivity).
  rewrite <- (H (Z.to_nat (a - 1000)) 255); [f_equal; unfold in_range in Ha; lia|]. apply lookup_replicate_2. unfold in_range in Ha. lia.
Qed.

Lemma ustar_roundtrip_witness : ∃ m' q, ustar_make_header demo_literals no_fpu 100 USTAR_REGULAR 4711 1000 demo = Ok (true, m') ∧
  ustar_parse_header demo_literals 1000 m' = Ok (inr (q, USTAR_REGULAR, 4711), m') ∧ str_at m' q (chars "etc/motd").
Proof.
  assert (literals_apart demo_literals 1000) as Ha.
  { unfold literals_apart, strings. repeat (apply Forall_cons; split; [right; vm_compute; congruence|]). by apply Forall_nil. }
  assert (str_at demo 100 (chars "/../etc/motd")) as Hs by (apply str_at_check; vm_compute; reflexivity).
  assert (Forall (in_u 8) (chars "/../etc/motd")) as Hu by (by repeat constructor).
  pose proof (ustar_roundtrip demo_literals no_fpu demo 1000 100 (chars "/../etc/motd") USTAR_REGULAR 4711 ltac:(lia) ltac:(lia)
    (octets_mapped demo 1000 1000 512 demo_header ltac:(lia) ltac:(lia)) demo_literals_at Ha Hs Hu ltac:(right; vm_compute; congruence) ltac:(by left) ltac:(by vm_compute)) as H.
  rewrite decide_False in H by (vm_compute; lia). destruct H as (m' & q & H1 & _ & H2 & H3). exists m', q. split; [exact H1|]. split; [exact H2|exact H3].
Defined.

(** [ustar_parse_header] returns for any 512 bytes whatever, with an error
    message, the end of the archive or a file whose type is known, whose size
    is a non-negative [int] and whose name is safe: a string that is not empty,
    is not two dots and does not begin with a slash, a dot and a slash, or two
    dots and a slash. *)
Theorem parse_header_safe L m h : 0 < h → octets m h 512 → literals_at m L → ∃ r, ustar_parse_header L h m = Ok (r, m) ∧ well_read m r.
Proof. intros Hh Ho HL. by apply parse_total. Qed.

(** The header of the example is no header. *)
Lemma parse_header_safe_witness : octets demo 1000 512 ∧ literals_at demo demo_literals ∧
  ∃ r, ustar_parse_header demo_literals 1000 demo = Ok (r, demo) ∧ well_read demo r.
Proof. split; [exact demo_header|]. split; [exact demo_literals_at|]. apply parse_header_safe; [lia|exact demo_header|exact demo_literals_at]. Defined.

End UstarSpec.
