(* ===== verification/Random.v ===== *)
(** * Random numbers (lib/random.c)

    The generator, an RC4 stream, with its state.  [random_bytes] returns the
    bytes it writes to its buffer.  The state stays a permutation of the 256
    bytes, so no index leaves the table, and what is drawn is one stream that
    the seed determines, however it is cut into requests. *)

From S2P Require Import Prelude.

Module Random.

Record rng := Rng { s : list Z; s_i : Z; s_j : Z; inited : bool }.
Abbreviation R := (M rng).

(** The static variables before the first call. *)
Definition start : rng := Rng (replicate 256 0) 0 0 false.

Definition at_ (t : list Z) (i : Z) : R Z := lift (t !! Z.to_nat i) Undef.
Definition swap_byte (t : list Z) (a b : Z) : R (list Z) :=
  x ← at_ t a; y ← at_ t b; mret (<[Z.to_nat b := x]> (<[Z.to_nat a := y]> t)).

(** [seedp[i % sizeof seed]] *)
Definition seed_byte (seed i : Z) : Z := u8 (Z.shiftr seed (8 * (i mod 4))).
Fixpoint mix_loop (n : nat) (t : list Z) (seed i j : Z) : R (list Z) :=
  match n with
  | O => mret t
  | S n => x ← at_ t i; let j := u8 (j + (x + seed_byte seed i)) in t ← swap_byte t i j; mix_loop n t seed (i + 1) j
  end.
Definition random_init (seed : Z) : R unit :=
  t ← mix_loop 256 (seqZ 0 256) seed 0 0; put (Rng t 0 0 true).

Fixpoint bytes_loop (size : nat) : R (list Z) :=
  match size with
  | O => mret []
  | S size =>
      g ← get;
      let i := u8 (s_i g + 1) in
      x ← at_ (s g) i; let j := u8 (s_j g + x) in
      t ← swap_byte (s g) i j;
      put (Rng t i j (inited g));;
      a ← at_ t i; b ← at_ t j; v ← at_ t (u8 (a + b));
      rest ← bytes_loop size; mret (v :: rest)
  end.
Definition random_bytes (size : nat) : R (list Z) :=
  g ← get; (if inited g then mret () else random_init 0);; bytes_loop size.

Definition random_ulong : R Z := bs ← random_bytes 4; mret (of_le32 bs).

(** ** The state *)

Definition table (t : list Z) : Prop := t ≡ₚ seqZ 0 256.
Definition rng_ok (g : rng) : Prop := table (s g) ∧ in_u 8 (s_i g) ∧ in_u 8 (s_j g) ∧ inited g = true.

Lemma table_at t i g : table t → in_u 8 i → ∃ x, at_ t i g = Ok (x, g) ∧ in_u 8 x ∧ t !! Z.to_nat i = Some x.
Proof.
  intros Ht Hi. pose proof (Permutation_length Ht) as Hl. rewrite length_seqZ in Hl. unfold in_u in *.
  destruct (lookup_lt_is_Some_2 t (Z.to_nat i)) as [x Hx]; [lia|]. exists x. unfold at_, lift. rewrite Hx. split; [done|]. split; [|done].
  assert (x ∈ seqZ 0 256) as H by (unfold table in Ht; rewrite <- Ht; by eapply list_elem_of_lookup_2). apply elem_of_seqZ in H. lia.
Qed.

Lemma swap_run t a b g : table t → in_u 8 a → in_u 8 b → ∃ t', swap_byte t a b g = Ok (t', g) ∧ table t'.
Proof.
  intros Ht Ha Hb. destruct (table_at t a g Ht Ha) as (x & Ex & _ & Hx), (table_at t b g Ht Hb) as (y & Ey & _ & Hy).
  unfold swap_byte. rewrite (bind_Ok _ _ _ _ _ Ex), (bind_Ok _ _ _ _ _ Ey). eexists. split; [done|].
  unfold table. by rewrite (Permutation_insert_swap t _ _ x y Hx Hy).
Qed.

Lemma mix_loop_run n t seed i j g : table t → 0 ≤ i → i + Z.of_nat n ≤ 256 → ∃ t', mix_loop n t seed i j g = Ok (t', g) ∧ table t'.
Proof.
  revert t i j. induction n as [|n IH]; intros t i j Ht Hi Hn; [by exists t|]. cbn [mix_loop].
  destruct (table_at t i g Ht) as (x & Ex & _); [unfold in_u; lia|]. rewrite (bind_Ok _ _ _ _ _ Ex).
  destruct (swap_run t i (u8 (j + (x + seed_byte seed i))) g Ht) as (t1 & E1 & Ht1); [unfold in_u; lia|apply wrapu_range; lia|].
  rewrite (bind_Ok _ _ _ _ _ E1). apply IH; [done|lia..].
Qed.
(** The table after [random_init] depends on the seed only. *)
Lemma mix_loop_any n t seed i j g g' t' : mix_loop n t seed i j g = Ok (t', g) → mix_loop n t seed i j g' = Ok (t', g').
Proof.
  revert t i j. induction n as [|n IH]; intros t i j; cbn [mix_loop]; [by intros [= ->]|]. unfold swap_byte, at_, lift, mbind, M_bind, mret, M_ret, fail; cbv zeta.
  destruct (t !! Z.to_nat i) as [x|]; [|done]. cbv beta iota. destruct (t !! Z.to_nat (u8 (j + (x + seed_byte seed i)))); [|done]. apply IH.
Qed.
Lemma random_init_run seed : ∃ t, table t ∧ ∀ g, random_init seed g = Ok ((), Rng t 0 0 true).
Proof.
  destruct (mix_loop_run 256 (seqZ 0 256) seed 0 0 start) as (t & E & Ht); [unfold table; reflexivity|lia|lia|]. exists t. split; [done|]. intros g.
  unfold random_init. by rewrite (bind_Ok _ _ _ _ _ (mix_loop_any _ _ _ _ _ _ g _ E)).
Qed.

Lemma bytes_loop_run n g : rng_ok g → ∃ bs g', bytes_loop n g = Ok (bs, g') ∧ rng_ok g' ∧ length bs = n ∧ Forall (in_u 8) bs.
Proof.
  revert g. induction n as [|n IH]; intros g Hg; [by exists [], g|]. cbn [bytes_loop]. destruct Hg as (Ht & Hi & Hj & Hin).
  rewrite (bind_Ok get _ g g g eq_refl). assert (∀ z, in_u 8 (u8 z)) as Hu by (intros; apply wrapu_range; lia).
  destruct (table_at (s g) (u8 (s_i g + 1)) g Ht (Hu _)) as (x & Ex & _). rewrite (bind_Ok _ _ _ _ _ Ex).
  destruct (swap_run (s g) (u8 (s_i g + 1)) (u8 (s_j g + x)) g Ht (Hu _) (Hu _)) as (t & Et & Ht'). rewrite (bind_Ok _ _ _ _ _ Et).
  set (g1 := Rng t (u8 (s_i g + 1)) (u8 (s_j g + x)) (inited g)). rewrite (bind_Ok (put g1) _ g () g1 eq_refl).
  destruct (table_at t (u8 (s_i g + 1)) g1 Ht' (Hu _)) as (a & Ea & _). destruct (table_at t (u8 (s_j g + x)) g1 Ht' (Hu _)) as (b & Eb & _).
  rewrite (bind_Ok _ _ _ _ _ Ea), (bind_Ok _ _ _ _ _ Eb). destruct (table_at t (u8 (a + b)) g1 Ht' (Hu _)) as (v & Ev & Hv & _). rewrite (bind_Ok _ _ _ _ _ Ev).
  destruct (IH g1) as (bs & g' & E & Hg' & Hl & Hb); [by repeat split; cbn; auto; apply wrapu_range|]. rewrite (bind_Ok _ _ _ _ _ E).
  exists (v :: bs), g'. split; [done|]. split; [done|]. cbn. split; [lia|by constructor].
Qed.

(** A request of [n + k] bytes is one of [n] and one of [k]. *)
Lemma bytes_loop_app n k g : bytes_loop (n + k) g = (a ← bytes_loop n; b ← bytes_loop k; mret (a ++ b)) g.
Proof.
  revert g. induction n as [|n IH]; intros g; cbn [bytes_loop Nat.add].
  - unfold mbind, M_bind. cbn. by destruct (bytes_loop k g) as [[? ?]|].
  - unfold at_, swap_byte, at_, lift, mbind, M_bind, get, put, mret, M_ret in *. cbn beta iota.
    unfold fail; cbv zeta. repeat (match goal with |- context [match ?l !! ?i with _ => _ end] => destruct (l !! i) end; cbv beta iota; [|done]). rewrite IH. by destruct (bytes_loop n _) as [[bs g1]|]; [destruct (bytes_loop k g1) as [[bs' g2]|]|].
Qed.

(** Requests one after the other. *)
Fixpoint requests (sizes : list nat) : R (list Z) :=
  match sizes with [] => mret [] | n :: sizes => a ← random_bytes n; b ← requests sizes; mret (a ++ b) end.

Lemma random_bytes_ok n g : inited g = true → random_bytes n g = bytes_loop n g.
Proof. intros H. unfold random_bytes. rewrite (bind_Ok get _ g g g eq_refl). by rewrite H. Qed.

Lemma requests_run sizes g : rng_ok g → requests sizes g = bytes_loop (sum_list sizes) g.
Proof.
  revert g. induction sizes as [|n sizes IH]; intros g Hg; [done|]. change (sum_list (n :: sizes)) with (n + sum_list sizes)%nat. cbn [requests]. rewrite bytes_loop_app.
  unfold mbind, M_bind. rewrite random_bytes_ok by apply Hg. destruct (bytes_loop_run n g Hg) as (bs & g' & -> & Hg' & _). by rewrite IH.
Qed.

(** The generator never leaves its table, and its output is one stream per
    seed: after [random_init], any requests get, put together, the first bytes
    of a sequence that the seed alone determines, as many as were asked for,
    and the table is a permutation of the bytes again.  Without a call of
    [random_init] the stream is that of the seed 0. *)
Theorem random_stream seed : ∃ stream : nat → list Z,
  (∀ n, length (stream n) = n ∧ Forall (in_u 8) (stream n)) ∧ (∀ n k, stream n `prefix_of` stream (n + k)%nat) ∧
  ∀ sizes g, ∃ g', rng_ok g' ∧ (random_init seed;; requests sizes) g = Ok (stream (sum_list sizes), g') ∧
    (seed = 0 → inited g = false → sizes ≠ [] → requests sizes g = Ok (stream (sum_list sizes), g')).
Proof.
  destruct (random_init_run seed) as (t & Ht & Ei). set (g0 := Rng t 0 0 true).
  assert (rng_ok g0) as H0 by (by repeat split).
  assert (∀ n, ∃ bs g', bytes_loop n g0 = Ok (bs, g') ∧ rng_ok g' ∧ length bs = n ∧ Forall (in_u 8) bs) as Hrun by (intros; by apply bytes_loop_run).
  exists (λ n, match bytes_loop n g0 with Ok (bs, _) => bs | Err _ => [] end). split; [|split].
  - intros n. destruct (Hrun n) as (bs & g' & -> & _ & ?). done.
  - intros n k. rewrite bytes_loop_app. destruct (Hrun n) as (bs & g' & E & Hg' & _). destruct (bytes_loop_run k g' Hg') as (bs' & g2 & E' & _).
    rewrite (bind_Ok _ _ _ _ _ E), (bind_Ok _ _ _ _ _ E'), E. cbn. by exists bs'.
  - intros sizes g. destruct (Hrun (sum_list sizes)) as (bs & g' & E & Hg' & _). exists g'. split; [done|]. rewrite E.
    split; [rewrite (bind_Ok _ _ _ _ _ (Ei g)); fold g0; rewrite requests_run by done; exact E|]. intros -> Hin Hne. destruct sizes as [|n sizes]; [done|]. cbn [requests].
    rewrite <- E, <- (requests_run (n :: sizes) g0 H0). cbn [requests]. unfold mbind, M_bind. rewrite (random_bytes_ok n g0) by done.
    unfold random_bytes. rewrite (bind_Ok get _ g g g eq_refl), Hin. by rewrite (bind_Ok _ _ _ _ _ (Ei g)).
Qed.
End Random.
