(* ===== verification/Paging.v ===== *)
(** * The page tables of the kernel (threads/init.c)

    [paging_init] maps the whole of physical memory at [PHYS_BASE], the text
    of the kernel read-only.  The boundaries of the text come from the linker
    and are parameters.  The directory it makes is the one that
    [pagedir_create] copies. *)

From S2P Require Import Prelude Bitmap Palloc PallocSpec Pagedir PagedirSpec.
Import Bitmap Palloc PallocSpec Pagedir PagedirSpec.

Module Paging.

Section Paging.
Context (start_ end_kernel_text : Z).

Definition set_init_page_dir (pd : Z) (r : ram) : ram := Ram (frames r) (kernel_pool r) (user_pool r) (init_ram_pages r) pd (cr3 r).
Definition set_cr3 (pa : Z) (r : ram) : ram := Ram (frames r) (kernel_pool r) (user_pool r) (init_ram_pages r) (init_page_dir r) pa.

Fixpoint paging_loop (n : nat) (page pd pt : Z) : V unit :=
  match n with
  | O => mret ()
  | S n =>
      vaddr ← ptov (u32 (page * PGSIZE));
      let in_kernel_text := bool_decide (start_ ≤ vaddr) && bool_decide (vaddr < end_kernel_text) in
      e ← load_word (pd + 4 * pd_no vaddr);
      pt ← (if decide (e = 0) then
              pt ← palloc_get_page (Z.lor PAL_ASSERT PAL_ZERO);
              e ← pde_create pt; store_word (pd + 4 * pd_no vaddr) e;; mret pt
            else mret pt);
      e ← pte_create_kernel vaddr (negb in_kernel_text);
      store_word (pt + 4 * pt_no vaddr) e;;
      paging_loop n (page + 1) pd pt
  end.

Definition paging_init : V unit :=
  pd ← palloc_get_page (Z.lor PAL_ASSERT PAL_ZERO);
  modify (set_init_page_dir pd);;
  n ← gets init_ram_pages;
  paging_loop (Z.to_nat n) 0 pd 0;;
  pa ← vtop pd; modify (set_cr3 pa).

(** ** Free pages of the kernel's pool *)

Definition free_pages (r : ram) : gset Z :=
  list_to_set ((λ i, base (kernel_pool r) + i * PGSIZE) <$> filter (λ i, bit (used_map (kernel_pool r)) i = false) (seqZ 0 (bit_cnt (used_map (kernel_pool r))))).

Lemma elem_of_free r p : ram_wf r → p ∈ free_pages r ↔ in_pool r false p 1 ∧ ¬ allocated r p.
Proof.
  intros Hwf. unfold free_pages. rewrite elem_of_list_to_set, list_elem_of_fmap. split.
  - intros (i & -> & [Hb Hi%elem_of_seqZ]%list_elem_of_filter). split; [exists i; cbn; split; [lia|split; [lia|done]]|].
    intros (user & j & Hj & E & Hbit). pose proof (pools_disjoint r false user i j Hwf) as Hd. cbn in Hd.
    destruct Hd as [<- <-]; [lia|done|done|]. cbn in Hbit. congruence.
  - intros [(i & Hi & Hin & ->) Hn]. cbn in *. exists i. split; [done|]. apply list_elem_of_filter. split; [|apply elem_of_seqZ; lia].
    destruct (bit _ i) eqn:E; [|done]. destruct Hn. exists false, i. cbn. split; [lia|done].
Qed.

Lemma free_handed_out r r' zero p : ram_wf r → handed_out r r' false zero p 1 → free_pages r' = free_pages r ∖ {[p]} ∧ p ∈ free_pages r.
Proof.
  intros Hwf Hho. pose proof (ho_wf _ _ _ _ _ _ Hho) as Hwf'. split.
  - apply set_eq. intros q. rewrite elem_of_difference, elem_of_singleton, !elem_of_free by done.
    assert (in_pool r' false q 1 ↔ in_pool r false q 1) as ->.
    { unfold in_pool. by destruct (ho_pools _ _ _ _ _ _ Hho false) as [-> ->]. }
    rewrite (ho_used _ _ _ _ _ _ Hho), page_in_1. tauto.
  - apply elem_of_free; [done|]. split; [apply Hho|]. apply (ho_free _ _ _ _ _ _ Hho). by apply page_in_1.
Qed.
Lemma free_none r : ram_wf r → no_room r false 1 → free_pages r = ∅.
Proof.
  intros Hwf Hno. apply set_eq. intros p. split; [|set_solver]. intros [Hin Hn]%elem_of_free; [|done]. destruct (Hno p Hin). by intros q ->%page_in_1.
Qed.
Lemma free_stored r p k w : free_pages (stored r p k w) = free_pages r.
Proof. done. Qed.

Lemma get_zeroed r : ram_wf r →
  if decide (free_pages r = ∅) then palloc_get_page (Z.lor PAL_ASSERT PAL_ZERO) r = Err Panic else
  ∃ p r', palloc_get_page (Z.lor PAL_ASSERT PAL_ZERO) r = Ok (p, r') ∧ handed_out r r' false true p 1 ∧ size (free_pages r') = (size (free_pages r) - 1)%nat.
Proof.
  intros Hwf. unfold palloc_get_page. destruct (palloc_get_run r (Z.lor PAL_ASSERT PAL_ZERO) 1 Hwf ltac:(lia)) as [(p & r' & Hg & Hho)|[Hno Hg]].
  - destruct (free_handed_out r r' _ p Hwf Hho) as [E Hin]. rewrite decide_False by set_solver. exists p, r'. split; [done|]. split; [done|].
    rewrite E, size_difference by set_solver. by rewrite size_singleton.
  - by rewrite decide_True by (by apply free_none).
Qed.

(** ** The tables so far *)

(** The address of page [k] of physical memory, and the flags of its entry. *)
Definition vp (k : Z) : Z := PHYS_BASE + k * PGSIZE.
Definition in_text (k : Z) : bool := bool_decide (start_ ≤ vp k) && bool_decide (vp k < end_kernel_text).
Definition flags (k : Z) : Z := if in_text k then 1 else 3.

Lemma vp_page k : 0 ≤ k < 2 ^ 18 → kernel_page (vp k) ∧ pd_no (vp k) = 768 + k / 1024 ∧ pt_no (vp k) = k mod 1024.
Proof.
  intros Hk. rewrite pd_no_spec, pt_no_spec by (unfold vp, PHYS_BASE, PGSIZE; lia). unfold kernel_page, vp, PHYS_BASE, PGSIZE.
  Z.to_euclidean_division_equations. lia.
Qed.

(** Directory [pd] with tables [ts]: the pages up to [k] are mapped. *)
Record mapped_to (k : Z) (r : ram) (pd : Z) (ts : list Z) : Prop := {
  mt_wf : ram_wf r;
  mt_alloc : ∀ p, p ∈ pd :: ts → allocated r p;
  mt_nodup : NoDup (pd :: ts);
  mt_pde : ∀ i t, ts !! i = Some t → word r pd (768 + Z.of_nat i) = Some (entry t 7);
  mt_none : ∀ i, 0 ≤ i < 768 ∨ 768 + Z.of_nat (length ts) ≤ i < 1024 → word r pd i = Some 0;
  mt_pte : ∀ j t, 0 ≤ j < k → ts !! Z.to_nat (j / 1024) = Some t → word r t (j mod 1024) = Some (entry (vp j) (flags j));
  mt_rest : ∀ j t, k ≤ j → ts !! Z.to_nat (j / 1024) = Some t → word r t (j mod 1024) = Some 0;
}.

(** A page that is handed out leaves the words of allocated pages. *)
Lemma handed_out_word r r' zero p q j : handed_out r r' false zero p 1 → allocated r q → word r' q j = word r q j.
Proof.
  intros Hho Hq. unfold word. rewrite (ho_frames _ _ _ _ _ _ Hho), decide_False; [done|]. intros [_ ->%page_in_1].
  apply (ho_free _ _ _ _ _ _ Hho p); [by apply page_in_1|done].
Qed.

Lemma mapped_table k r r1 pd ts t : 0 ≤ k < 2 ^ 18 → mapped_to k r pd ts → Z.of_nat (length ts) = k / 1024 → k mod 1024 = 0 → handed_out r r1 false true t 1 →
  let r2 := stored r1 pd (768 + k / 1024) (entry t 7) in
  store_word (pd + 4 * (768 + k / 1024)) (entry t 7) r1 = Ok ((), r2) ∧ mapped_to k r2 pd (ts ++ [t]) ∧ free_pages r2 = free_pages r1.
Proof.
  intros Hk [M1 M2 M3 M4 M5 M6 M7] Hl Hm Hho r2. pose proof (ho_wf _ _ _ _ _ _ Hho) as Hwf1.
  assert (∀ q, allocated r q → allocated r1 q) as Hal by (intros; apply (ho_used _ _ _ _ _ _ Hho); by left).
  assert (allocated r1 t) as Hat by (apply (ho_used _ _ _ _ _ _ Hho); right; by apply page_in_1).
  assert (¬ allocated r t) as Hnt by (apply (ho_free _ _ _ _ _ _ Hho); by apply page_in_1).
  assert (allocated r1 pd) as Hap by (apply Hal, M2; left). assert (0 ≤ 768 + k / 1024 < 1024) as Hi by (Z.to_euclidean_division_equations; lia).
  assert (in_u 32 (entry t 7)) as Hu by (apply entry_page; [by apply (allocated_page r1)|done]).
  assert (∀ q j, 0 ≤ j → allocated r q → word r2 q j = if decide (q = pd ∧ j = 768 + k / 1024) then Some (entry t 7) else word r q j) as Hw.
  { intros q j Hj Hq. unfold r2. rewrite word_stored by done. case_decide; [done|by eapply handed_out_word]. }
  assert (∀ i t', (ts ++ [t]) !! i = Some t' → ts !! i = Some t' ∧ allocated r t' ∧ t' ≠ pd ∨ i = length ts ∧ t' = t) as Hts.
  { intros i t' [H|[H1 H2]]%lookup_app_Some; [left|right].
    - split; [done|]. split; [apply M2; right; by eapply list_elem_of_lookup_2|]. apply NoDup_cons in M3 as [M3 _]. intros ->. apply M3. by eapply list_elem_of_lookup_2.
    - destruct (i - length ts)%nat eqn:E; [|done]. injection H2 as <-. split; [lia|done]. }
  split; [by apply store_word_run|]. split; [|done]. constructor.
  - by apply stored_wf.
  - intros p Hp. apply stored_allocated. rewrite app_comm_cons in Hp. apply elem_of_app in Hp as [Hp| ->%list_elem_of_singleton]; [|done]. by apply Hal, M2.
  - rewrite app_comm_cons. apply NoDup_app. split; [done|]. split; [|apply NoDup_singleton]. intros p Hp ->%list_elem_of_singleton. by apply Hnt, M2.
  - intros i t' [(H & _ & _)|[-> ->]]%Hts; rewrite Hw by (lia || apply M2; left).
    + apply lookup_lt_Some in H as Hlt. rewrite decide_False by lia. by apply M4.
    + rewrite decide_True by lia. done.
  - intros i Hi'. rewrite length_app in Hi'. cbn in Hi'. rewrite Hw by (lia || apply M2; left). rewrite decide_False by lia. apply M5. lia.
  - intros j t' Hj [(H & Ha & Hne)|[E _]]%Hts; [rewrite Hw by (done || Z.to_euclidean_division_equations; lia); rewrite decide_False by tauto; by apply M6|].
    Z.to_euclidean_division_equations. lia.
  - intros j t' Hj [(H & Ha & Hne)|[E ->]]%Hts; [rewrite Hw by (done || Z.to_euclidean_division_equations; lia); rewrite decide_False by tauto; by apply M7|].
    unfold r2. rewrite word_stored by (done || Z.to_euclidean_division_equations; lia). rewrite decide_False by (intros [-> _]; apply Hnt, M2; left).
    unfold word. rewrite (ho_frames _ _ _ _ _ _ Hho), decide_True by (split; [done|by apply page_in_1]). cbn [mbind option_bind].
    apply lookup_replicate_2. Z.to_euclidean_division_equations. lia.
Qed.

Lemma mapped_entry k r pd ts t : 0 ≤ k < 2 ^ 18 → mapped_to k r pd ts → ts !! Z.to_nat (k / 1024) = Some t →
  let r' := stored r t (k mod 1024) (entry (vp k) (flags k)) in
  store_word (t + 4 * (k mod 1024)) (entry (vp k) (flags k)) r = Ok ((), r') ∧ mapped_to (k + 1) r' pd ts.
Proof.
  intros Hk [M1 M2 M3 M4 M5 M6 M7] Ht r'. assert (allocated r t) as Hat by (apply M2; right; by eapply list_elem_of_lookup_2).
  assert (allocated r pd) as Hap by (apply M2; left). pose proof (Z.mod_pos_bound k 1024 ltac:(lia)) as Hm.
  assert (in_u 32 (entry (vp k) (flags k))) as Hu by (apply entry_page; [by apply vp_page|unfold flags, PGSIZE; destruct (in_text k); lia]).
  pose proof M3 as [Hnp Hnd]%NoDup_cons. assert (pd ≠ t) as Hne by (intros ->; apply Hnp; by eapply list_elem_of_lookup_2).
  assert (∀ q j, 0 ≤ j → word r' q j = if decide (q = t ∧ j = k mod 1024) then Some (entry (vp k) (flags k)) else word r q j) as Hw.
  { intros q j Hj. unfold r'. by rewrite word_stored. }
  split; [by apply store_word_run|]. constructor; try done.
  - by apply stored_wf.
  - intros i t' Hi. rewrite Hw by lia. rewrite decide_False by tauto. by apply M4.
  - intros i Hi. rewrite Hw by lia. rewrite decide_False by tauto. by apply M5.
  - intros j t' Hj Hi. rewrite Hw by (Z.to_euclidean_division_equations; lia). case_decide as E.
    + destruct E as [-> E]. pose proof (NoDup_lookup _ _ _ _ Hnd Hi Ht) as E'. assert (j = k) as -> by (Z.to_euclidean_division_equations; lia). done.
    + destruct (decide (j = k)) as [->|Hjk]; [destruct E; by simplify_eq|]. apply M6; [lia|done].
  - intros j t' Hj Hi. rewrite Hw by (Z.to_euclidean_division_equations; lia). rewrite decide_False; [apply M7; [lia|done]|].
    intros [-> E]. pose proof (NoDup_lookup _ _ _ _ Hnd Hi Ht) as E'. Z.to_euclidean_division_equations. lia.
Qed.

Lemma pte_create_kernel_run k r : 0 ≤ k < 2 ^ 18 → pte_create_kernel (vp k) (negb (in_text k)) r = Ok (entry (vp k) (flags k), r).
Proof.
  intros Hk. destruct (vp_page k Hk) as [Hp _]. unfold pte_create_kernel. rewrite pg_ofs_mod. rewrite bool_decide_true by apply Hp.
  rewrite (bind_Ok _ _ _ () r) by done. rewrite (bind_Ok _ _ _ _ _ (vtop_run _ _ Hp)). rewrite <- Z.lor_assoc. unfold flags.
  destruct (in_text k); cbn [negb]; change (Z.lor PTE_P 0) with 1; change (Z.lor PTE_P PTE_W) with 3; by rewrite lor_flags by (done || by apply kernel_page_phys).
Qed.

(** The entry of page [k] and the rest of the loop. *)
Lemma paging_step_run n k r pd ts t : 0 ≤ k < 2 ^ 18 → mapped_to k r pd ts → ts !! Z.to_nat (k / 1024) = Some t →
  let r' := stored r t (k mod 1024) (entry (vp k) (flags k)) in
  (e ← pte_create_kernel (vp k) (negb (in_text k)); store_word (t + 4 * (k mod 1024)) e;; paging_loop n (k + 1) pd t) r = paging_loop n (k + 1) pd t r' ∧
  mapped_to (k + 1) r' pd ts.
Proof.
  intros Hk M Ht r'. destruct (mapped_entry k r pd ts t Hk M Ht) as [E M']. split; [|done].
  by rewrite (bind_Ok _ _ _ _ _ (pte_create_kernel_run k r Hk)), (bind_Ok _ _ _ _ _ E).
Qed.

(** Tables needed for [n] pages. *)
Definition tables (n : Z) : Z := (n + 1023) / 1024.

Lemma paging_loop_run n k r pd pt ts : mapped_to k r pd ts → Z.of_nat (length ts) = tables k → (k mod 1024 ≠ 0 → ts !! Z.to_nat (k / 1024) = Some pt) →
  0 ≤ k → k + Z.of_nat n ≤ 2 ^ 18 →
  if decide (tables (k + Z.of_nat n) - tables k ≤ Z.of_nat (size (free_pages r))) then
    ∃ r' ts', paging_loop n k pd pt r = Ok ((), r') ∧ mapped_to (k + Z.of_nat n) r' pd ts' ∧ Z.of_nat (length ts') = tables (k + Z.of_nat n) ∧
      init_page_dir r' = init_page_dir r
  else paging_loop n k pd pt r = Err Panic.
Proof.
  revert k r pt ts. induction n as [|n IH]; intros k r pt ts M Hl Hpt Hk Hn; cbn [paging_loop].
  { rewrite Z.add_0_r, decide_True by lia. by exists r, ts. }
  destruct (vp_page k ltac:(lia)) as (Hp & Hd & Ht). rewrite wrapu_id by (unfold in_u, PGSIZE; lia).
  rewrite (bind_Ok _ _ _ (vp k) r).
  2:{ rewrite ptov_run by (unfold PGSIZE, PHYS_BASE; lia). unfold vp. do 2 f_equal. lia. }
  fold (in_text k). rewrite Hd, Ht. pose proof M as [M1 M2 M3 M4 M5 M6 M7]. assert (allocated r pd) as Hap by (apply M2; left).
  destruct (word_some r pd (768 + k / 1024) M1 Hap ltac:(Z.to_euclidean_division_equations; lia)) as (e & He & _ & Hload). rewrite (bind_Ok _ _ _ _ _ Hload).
  replace (k + Z.of_nat (S n)) with (k + 1 + Z.of_nat n) in * by lia. unfold tables in *. destruct (decide (k mod 1024 = 0)) as [Hk0|Hk0].
  - assert (e = 0) as -> by (rewrite M5 in He by (Z.to_euclidean_division_equations; lia); congruence). rewrite (decide_True (P := 0 = 0)) by done.
    pose proof (get_zeroed r M1) as Hg. destruct (decide (free_pages r = ∅)) as [Hf|Hf].
    + rewrite (bind_Err _ _ _ _ (bind_Err _ _ _ _ Hg)), Hf, size_empty. by rewrite decide_False by (Z.to_euclidean_division_equations; lia).
    + destruct Hg as (t & r1 & Eg & Hho & Hsz).
      destruct (mapped_table k r r1 pd ts t ltac:(lia) M ltac:(Z.to_euclidean_division_equations; lia) Hk0 Hho) as (Es & M' & Hf').
      assert (kernel_page t) as Hkt by (apply (allocated_page r1); [apply Hho|apply (ho_used _ _ _ _ _ _ Hho); right; by apply page_in_1]).
      rewrite (bind_Ok _ _ _ t (stored r1 pd (768 + k / 1024) (entry t 7))).
      2:{ rewrite (bind_Ok _ _ _ _ _ Eg), (bind_Ok _ _ _ _ _ (pde_create_run t r1 Hkt)). by rewrite (bind_Ok _ _ _ _ _ Es). }
      assert ((ts ++ [t]) !! Z.to_nat (k / 1024) = Some t) as Hlast.
      { rewrite lookup_app_r by (Z.to_euclidean_division_equations; lia). replace (_ - _)%nat with 0%nat by (Z.to_euclidean_division_equations; lia). done. }
      destruct (paging_step_run n k _ pd _ t ltac:(lia) M' Hlast) as [-> M2'].
      specialize (IH (k + 1) _ t (ts ++ [t]) M2'). rewrite free_stored, Hf', Hsz in IH. rewrite length_app in IH. cbn [length] in IH.
      assert (size (free_pages r) ≠ 0%nat) as Hs0 by (intros H0; apply Hf, leibniz_equiv; by apply size_empty_inv).
      assert (init_page_dir (stored (stored r1 pd (768 + k / 1024) (entry t 7)) t (k mod 1024) (entry (vp k) (flags k))) = init_page_dir r) as Hi
        by apply (ho_same _ _ _ _ _ _ Hho).
      rewrite Hi in IH. destruct (decide (_ ≤ Z.of_nat (size (free_pages r)))) as [Hle|Hle].
      * rewrite decide_True in IH by (Z.to_euclidean_division_equations; lia). apply IH; [Z.to_euclidean_division_equations; lia| |lia..].
        intros H1. rewrite <- Hlast. f_equal. Z.to_euclidean_division_equations; lia.
      * rewrite decide_False in IH by (Z.to_euclidean_division_equations; lia). apply IH; [Z.to_euclidean_division_equations; lia| |lia..].
        intros H1. rewrite <- Hlast. f_equal. Z.to_euclidean_division_equations; lia.
  - specialize (Hpt Hk0). assert (e ≠ 0) as He0.
    { pose proof (M4 _ _ Hpt) as He'. replace (768 + Z.of_nat (Z.to_nat (k / 1024))) with (768 + k / 1024) in He' by (Z.to_euclidean_division_equations; lia).
      assert (kernel_page pt) as Hkp by (apply (allocated_page r pt M1), M2; right; by eapply list_elem_of_lookup_2).
      rewrite He in He'. injection He' as ->. unfold entry. destruct Hkp. lia. }
    rewrite (decide_False (P := e = 0)) by done. rewrite (bind_Ok _ _ _ pt r) by done. destruct (paging_step_run n k r pd ts pt ltac:(lia) M Hpt) as [-> M'].
    specialize (IH (k + 1) _ pt ts M'). rewrite free_stored in IH.
    replace ((k + 1 + Z.of_nat n + 1023) / 1024 - (k + 1023) / 1024) with ((k + 1 + Z.of_nat n + 1023) / 1024 - (k + 1 + 1023) / 1024) by (Z.to_euclidean_division_equations; lia).
    apply IH; [Z.to_euclidean_division_equations; lia| |lia..]. intros H1. rewrite <- Hpt. f_equal. Z.to_euclidean_division_equations; lia.
Qed.

(** What an address is mapped to by the directory [pd]. *)
Definition walk (r : ram) (pd va : Z) : option Z :=
  e ← word r pd (pd_no va); if decide (e = 0) then None else w ← word r (page_of e) (pt_no va); if decide (w = 0) then None else Some w.

Lemma mapped_walk n r pd ts : mapped_to n r pd ts → 0 ≤ n ≤ 2 ^ 18 → Z.of_nat (length ts) = tables n → ∀ k, 0 ≤ k < 2 ^ 18 →
  walk r pd (vp k) = if decide (k < n) then Some (entry (vp k) (flags k)) else None.
Proof.
  intros [M1 M2 M3 M4 M5 M6 M7] Hn Hl k Hk. destruct (vp_page k Hk) as (Hp & Hd & Ht). unfold walk, tables in *. rewrite Hd, Ht.
  destruct (decide (k / 1024 < Z.of_nat (length ts))) as [Hlt|Hge].
  - destruct (lookup_lt_is_Some_2 ts (Z.to_nat (k / 1024))) as [t Hti]; [Z.to_euclidean_division_equations; lia|].
    pose proof (M4 _ _ Hti) as He. replace (768 + Z.of_nat (Z.to_nat (k / 1024))) with (768 + k / 1024) in He by (Z.to_euclidean_division_equations; lia).
    assert (kernel_page t) as Hkt by (apply (allocated_page r t M1), M2; right; by eapply list_elem_of_lookup_2). rewrite He. cbn [mbind option_bind].
    rewrite decide_False by (unfold entry; destruct Hkt; lia). rewrite page_of_entry by done. case_decide.
    + rewrite (M6 k t) by (done || lia). cbn [mbind option_bind]. rewrite decide_False; [done|]. unfold entry, flags, vp, PGSIZE. destruct (in_text k); lia.
    + rewrite (M7 k t) by (done || lia). cbn [mbind option_bind]. by rewrite decide_True.
  - rewrite M5 by (Z.to_euclidean_division_equations; lia). cbn [mbind option_bind]. rewrite decide_True by done. by rewrite decide_False by (Z.to_euclidean_division_equations; lia).
Qed.

Lemma registers_wf r pd pa : ram_wf r → ram_wf (set_init_page_dir pd r) ∧ ram_wf (set_cr3 pa r).
Proof. intros [[K1 K2 K3 K4] [U1 U2 U3 U4] Hd Hf]. split; (constructor; [constructor; assumption|constructor; assumption|assumption|assumption]). Qed.

(** C15: [paging_init] succeeds exactly when the kernel's pool has a page for
    the directory and one for each group of 1024 pages of memory, and panics
    otherwise.  It maps each page of physical memory, and no other address
    above [PHYS_BASE], at [PHYS_BASE] plus its address, writable unless it is
    in the text of the kernel; it maps no user address, makes the directory
    the active one, and leaves [pagedir_create] what it needs. *)
Theorem paging_init_maps r n : ram_wf r → init_ram_pages r = n → 0 ≤ n ≤ 2 ^ 18 →
  if decide (1 + tables n ≤ Z.of_nat (size (free_pages r))) then
    ∃ r' (pd := init_page_dir r'), paging_init r = Ok ((), r') ∧ ram_wf r' ∧ cr3 r' = pd - PHYS_BASE ∧ allocated r' pd ∧ init_pd_wf r' ∧
      (∀ k, 0 ≤ k < 2 ^ 18 → walk r' pd (vp k) = if decide (k < n) then Some (entry (vp k) (flags k)) else None)
  else paging_init r = Err Panic.
Proof.
  intros Hwf Hn Hr. unfold paging_init. pose proof (get_zeroed r Hwf) as Hg. assert (0 ≤ tables n) as Ht0 by (unfold tables; Z.to_euclidean_division_equations; lia).
  destruct (decide (free_pages r = ∅)) as [Hf|Hf]; [rewrite Hf, size_empty, decide_False by lia; by rewrite (bind_Err _ _ _ _ Hg)|].
  destruct Hg as (pd & r1 & Eg & Hho & Hsz). rewrite (bind_Ok _ _ _ _ _ Eg). set (r2 := set_init_page_dir pd r1).
  rewrite (bind_Ok (modify (set_init_page_dir pd)) _ r1 () r2 eq_refl), (bind_Ok (gets init_ram_pages) _ r2 n r2); [|unfold gets; cbn; destruct (ho_same _ _ _ _ _ _ Hho) as (_ & -> & _); by rewrite Hn].
  assert (allocated r1 pd) as Hap by (apply (ho_used _ _ _ _ _ _ Hho); right; by apply page_in_1).
  assert (mapped_to 0 r2 pd []) as M.
  { constructor; [apply (registers_wf r1 pd 0), Hho|by intros p ->%list_elem_of_singleton|apply NoDup_singleton|done| |done|done].
    intros i Hi. unfold word. change (frames r2) with (frames r1). rewrite (ho_frames _ _ _ _ _ _ Hho), decide_True by (split; [done|by apply page_in_1]). cbn [mbind option_bind].
    apply lookup_replicate_2. cbn in Hi. lia. }
  pose proof (paging_loop_run (Z.to_nat n) 0 r2 pd 0 [] M eq_refl) as Hloop. rewrite Z.add_0_l, Z2Nat.id in Hloop by lia. change (tables 0) with 0 in Hloop.
  change (free_pages r2) with (free_pages r1) in Hloop. rewrite Hsz, Z.sub_0_r in Hloop.
  assert (size (free_pages r) ≠ 0%nat) as Hs0 by (intros H0; apply Hf, leibniz_equiv; by apply size_empty_inv).
  destruct (decide (1 + tables n ≤ Z.of_nat (size (free_pages r)))) as [Hd|Hd].
  - rewrite decide_True in Hloop by lia. destruct Hloop as (r3 & ts & El & M' & Hlen & Hi); [done|lia|lia|]. rewrite (bind_Ok _ _ _ _ _ El).
    pose proof (mt_alloc _ _ _ _ M' pd ltac:(left)) as Ha3. destruct (allocated_page r3 pd (mt_wf _ _ _ _ M') Ha3) as (Hk & f & Hfr & _).
    rewrite (bind_Ok _ _ _ _ _ (vtop_run pd r3 Hk)). exists (set_cr3 (pd - PHYS_BASE) r3). cbv zeta. cbn [set_cr3 init_page_dir cr3]. change (init_page_dir r2) with pd in Hi. rewrite Hi.
    split; [done|]. split; [apply (registers_wf r3 0), M'|]. split; [done|]. split; [done|]. split.
    + constructor; cbn [set_cr3 init_page_dir frames]; rewrite Hi; [by exists f|done|]. intros i Hi'. apply (mt_none _ _ _ _ M'). by left.
    + intros k Hk'. exact (mapped_walk n r3 pd ts M' Hr Hlen k Hk').
  - rewrite decide_False in Hloop by lia. by rewrite (bind_Err _ _ _ _ (Hloop ltac:(done) ltac:(lia) ltac:(lia))).
Qed.
End Paging.

Abbreviation demo_text := (PHYS_BASE + 32 * PGSIZE).
Lemma paging_init_maps_witness : ram_wf demo_ram ∧ ∃ r', paging_init demo_text (demo_text + PGSIZE) demo_ram = Ok ((), r') ∧
  walk r' (init_page_dir r') (vp 32) = Some (entry (vp 32) 1) ∧ walk r' (init_page_dir r') (vp 33) = Some (entry (vp 33) 3) ∧
  walk r' (init_page_dir r') (vp 5000) = None.
Proof.
  split; [exact demo_ram_wf|]. assert (bool_decide (1 + tables (init_ram_pages demo_ram) ≤ Z.of_nat (size (free_pages demo_ram))) = true) as Hd by (vm_compute; reflexivity).
  apply bool_decide_eq_true in Hd.
  pose proof (paging_init_maps demo_text (demo_text + PGSIZE) demo_ram (init_ram_pages demo_ram) demo_ram_wf eq_refl ltac:(vm_compute; split; congruence)) as H.
  rewrite (decide_True (P := 1 + tables (init_ram_pages demo_ram) ≤ Z.of_nat (size (free_pages demo_ram))) _ _ Hd) in H.
  destruct H as (r' & H1 & _ & _ & _ & _ & H2). exists r'. split; [exact H1|].
  split; [exact (H2 32 ltac:(lia))|]. split; [exact (H2 33 ltac:(lia))|exact (H2 5000 ltac:(lia))].
Defined.
End Paging.
