(* ===== verification/Block.v ===== *)
(** * Block devices and partitions (devices/block.c, partition.c, threads/init.c)

    The list of block devices, in the order of their registration, with their
    drivers: a disk, or a partition of another device.  A device is named by
    its place in the list.  The heap is the number of blocks that [malloc] can
    still hand out; when it is 0, [malloc] returns a null pointer.  Messages
    on the console are left out. *)

From Stdlib Require Import String.
From S2P Require Import Prelude CMem Stdio StdioSpec.
Import Stdio StdioSpec.

Module Block.

Definition BLOCK_SECTOR_SIZE : Z := 512.
Definition sector_t := list Z.

Inductive block_type := BLOCK_KERNEL | BLOCK_FILESYS | BLOCK_SCRATCH | BLOCK_SWAP | BLOCK_RAW | BLOCK_FOREIGN.
#[global] Instance block_type_eq_dec : EqDecision block_type.
Proof. solve_decision. Defined.
(** The types below [BLOCK_ROLE_CNT]. *)
Definition is_role (t : block_type) : bool := match t with BLOCK_RAW | BLOCK_FOREIGN => false | _ => true end.

Definition block_type_name (t : block_type) : string :=
  match t with
  | BLOCK_KERNEL => "kernel" | BLOCK_FILESYS => "filesys" | BLOCK_SCRATCH => "scratch"
  | BLOCK_SWAP => "swap" | BLOCK_RAW => "raw" | BLOCK_FOREIGN => "foreign"
  end.

(** [ops] and [aux]. *)
Inductive driver := Disk (disk : nat) | Partition (block : nat) (start : Z).
Record block := Block { name : list Z; type : block_type; size : Z; ops : driver; read_cnt : Z; write_cnt : Z }.
Record devices := Devices { all_blocks : list block; block_by_role : block_type → option nat; disks : list (list sector_t); heap : nat }.
Abbreviation D := (M devices).

Definition set_blocks (l : list block) (d : devices) : devices := Devices l (block_by_role d) (disks d) (heap d).
Definition set_disks (l : list (list sector_t)) (d : devices) : devices := Devices (all_blocks d) (block_by_role d) l (heap d).
Definition set_heap (n : nat) (d : devices) : devices := Devices (all_blocks d) (block_by_role d) (disks d) n.

Definition malloc : D bool :=
  d ← get; match heap d with O => mret false | S n => put (set_heap n d);; mret true end.
Definition free : D unit := modify (λ d, set_heap (S (heap d)) d).

Definition get_block (b : nat) : D block := d ← get; lift (all_blocks d !! b) Undef.

(** ** Devices (block.c) *)

Definition block_get_role (role : block_type) : D (option nat) := ASSERT (is_role role);; gets (λ d, block_by_role d role).
Definition block_set_role (role : block_type) (b : option nat) : D unit :=
  ASSERT (is_role role);;
  modify (λ d, Devices (all_blocks d) (λ t, if decide (t = role) then b else block_by_role d t) (disks d) (heap d)).

Definition list_elem_to_block (b : nat) : D (option nat) :=
  gets (λ d, if decide (b < length (all_blocks d))%nat then Some b else None).
Definition block_first : D (option nat) := list_elem_to_block 0.
Definition block_next (b : nat) : D (option nat) := list_elem_to_block (S b).

Fixpoint find_name (n : list Z) (l : list block) (b : nat) : option nat :=
  match l with [] => None | blk :: l => if decide (n = name blk) then Some b else find_name n l (S b) end.
Definition block_get_by_name (n : list Z) : D (option nat) := gets (λ d, find_name n (all_blocks d) 0).

Definition block_size (b : nat) : D Z := blk ← get_block b; mret (size blk).
Definition block_name (b : nat) : D (list Z) := blk ← get_block b; mret (name blk).
Definition block_type_of (b : nat) : D block_type := blk ← get_block b; mret (type blk).

Definition check_sector (b : nat) (sector : Z) : D unit := n ← block_size b; if decide (n ≤ sector) then PANIC else mret ().

Definition count (b : nat) (f : block → block) : D unit := modify (λ d, set_blocks (alter f b (all_blocks d)) d).
Definition count_read (blk : block) : block := Block (name blk) (type blk) (size blk) (ops blk) (u64 (read_cnt blk + 1)) (write_cnt blk).
Definition count_write (blk : block) : block := Block (name blk) (type blk) (size blk) (ops blk) (read_cnt blk) (u64 (write_cnt blk + 1)).

(** The disk's own driver, for a sector that it has. *)
Definition disk_read (disk : nat) (sector : Z) : D sector_t :=
  d ← get; l ← lift (disks d !! disk) Undef; lift (l !! Z.to_nat sector) Undef.
Definition disk_write (disk : nat) (sector : Z) (buffer : sector_t) : D unit :=
  disk_read disk sector;; modify (λ d, set_disks (alter (<[Z.to_nat sector := take 512 buffer]>) disk (disks d)) d).

(** [block_read] and [partition_read] call each other, down the list. *)
Fixpoint read_loop (fuel : nat) (b : nat) (sector : Z) : D sector_t :=
  match fuel with
  | O => fail NoFuel
  | S fuel =>
      check_sector b sector;;
      blk ← get_block b;
      buffer ← match ops blk with
        | Disk disk => disk_read disk sector
        | Partition p start => read_loop fuel p (u32 (start + sector))
        end;
      count b count_read;; mret buffer
  end.
Definition block_read (b : nat) (sector : Z) : D sector_t := d ← get; read_loop (S (length (all_blocks d))) b sector.
Definition partition_read (block : nat) (start sector : Z) : D sector_t := block_read block (u32 (start + sector)).

Fixpoint write_loop (fuel : nat) (b : nat) (sector : Z) (buffer : sector_t) : D unit :=
  match fuel with
  | O => fail NoFuel
  | S fuel =>
      check_sector b sector;;
      blk ← get_block b;
      ASSERT (negb (bool_decide (type blk = BLOCK_FOREIGN)));;
      match ops blk with
      | Disk disk => disk_write disk sector buffer
      | Partition p start => write_loop fuel p (u32 (start + sector)) buffer
      end;;
      count b count_write
  end.
Definition block_write (b : nat) (sector : Z) (buffer : sector_t) : D unit :=
  d ← get; write_loop (S (length (all_blocks d))) b sector buffer.
Definition partition_write (block : nat) (start sector : Z) (buffer : sector_t) : D unit := block_write block (u32 (start + sector)) buffer.

(** [strlcpy] keeps 15 characters of the name. *)
Definition block_register (n : list Z) (t : block_type) (sz : Z) (o : driver) : D nat :=
  ok ← malloc;
  if negb ok then PANIC else
  d ← get; put (set_blocks (all_blocks d ++ [Block (take 15 n) t sz o 0 0]) d);; mret (length (all_blocks d)).

(** ** Partitions (partition.c) *)

Record partition_table_entry := Entry { e_type : Z; e_offset : Z; e_size : Z }.
Definition entry_at (s : sector_t) (i : nat) : partition_table_entry :=
  let e := drop (446 + 16 * i) s in
  Entry (default 0 (e !! 4%nat)) (of_le32 (take 4 (drop 8 e))) (of_le32 (take 4 (drop 12 e))).
Definition signature (s : sector_t) : Z := default 0 (s !! 510%nat) + 256 * default 0 (s !! 511%nat).
Definition extended (t : Z) : bool := bool_decide (t ∈ [0x05; 0x0f; 0x85; 0xc5]).

Definition partition_type (t : Z) : block_type :=
  if decide (t = 0x20) then BLOCK_KERNEL else if decide (t = 0x21) then BLOCK_FILESYS
  else if decide (t = 0x22) then BLOCK_SCRATCH else if decide (t = 0x23) then BLOCK_SWAP else BLOCK_FOREIGN.

(** ["%s%d"] into 16 bytes. *)
Definition decimal (n : Z) : list Z := (λ d, d + 48) <$> reverse (digits_of 10 10 n).
Definition part_name (n : list Z) (part_nr : Z) : list Z := take 15 (n ++ decimal part_nr).

Definition found_partition (b : nat) (part_type start sz part_nr : Z) : D unit :=
  n ← block_size b;
  if decide (n ≤ start) then mret ()
  else if decide (u32 (start + sz) < start ∨ n < u32 (start + sz)) then mret ()
  else
    ok ← malloc;
    if negb ok then PANIC else
    nm ← block_name b;
    block_register (part_name nm part_nr) (partition_type part_type) sz (Partition b start);; mret ().

(** The loop over the entries, for a function that reads another table. *)
Fixpoint entries_loop (read_table : Z → Z → Z → D Z) (b : nat) (sector primary_extended_sector : Z) (es : list partition_table_entry) (part_nr : Z) : D Z :=
  match es with
  | [] => mret part_nr
  | e :: es =>
      part_nr ←
        (if decide (e_size e = 0 ∨ e_type e = 0) then mret part_nr
         else if extended (e_type e) then
           if decide (sector = 0) then read_table (e_offset e) (e_offset e) part_nr
           else read_table (u32 (e_offset e + primary_extended_sector)) primary_extended_sector part_nr
         else
           found_partition b (e_type e) (u32 (e_offset e + sector)) (e_size e) (part_nr + 1);; mret (part_nr + 1));
      entries_loop read_table b sector primary_extended_sector es part_nr
  end.

(** A table whose sector is read takes a block of the heap until its entries
    are done, so the heap bounds the depth.  Whatever [sector] is, it is
    sector 0 that is read. *)
Fixpoint read_partition_table (fuel : nat) (b : nat) (sector primary_extended_sector part_nr : Z) : D Z :=
  match fuel with
  | O => fail NoFuel
  | S fuel =>
      n ← block_size b;
      if decide (n ≤ sector) then mret part_nr else
      ok ← malloc;
      if negb ok then PANIC else
      pt ← block_read b 0;
      if decide (signature pt ≠ 0xaa55) then free;; mret part_nr else
      part_nr ← entries_loop (read_partition_table fuel b) b sector primary_extended_sector (entry_at pt <$> seq 0 4) part_nr;
      free;; mret part_nr
  end.
Definition partition_scan (b : nat) : D Z := d ← get; read_partition_table (S (heap d)) b 0 0 0.

(** ** Roles (init.c) *)

(** [for (block = block_first (); block != NULL; block = block_next (block))] *)
Fixpoint locate_loop (fuel : nat) (role : block_type) (b : option nat) : D (option nat) :=
  match fuel, b with
  | O, _ => fail NoFuel
  | S _, None => mret None
  | S fuel, Some b => t ← block_type_of b; if decide (t = role) then mret (Some b) else n ← block_next b; locate_loop fuel role n
  end.
Definition locate_block_device (role : block_type) (n : option (list Z)) : D unit :=
  b ← match n with
      | Some n => b ← block_get_by_name n; match b with Some b => mret (Some b) | None => PANIC end
      | None => b ← block_first; d ← get; locate_loop (S (length (all_blocks d))) role b
      end;
  match b with Some b => block_set_role role (Some b) | None => mret () end.
Definition locate_block_devices (filesys_bdev_name scratch_bdev_name : option (list Z)) : D unit :=
  locate_block_device BLOCK_FILESYS filesys_bdev_name;; locate_block_device BLOCK_SCRATCH scratch_bdev_name.

End Block.
