(* ===== verification/BlockSpec.v ===== *)
(** * Block devices and partitions: theorems

    Every sector of a registered device is a sector of a disk, can be read and
    written, and no other device's sector is touched unless it is the same
    place; scanning finds the partitions of a table and keeps them within their
    disk.  An extended partition makes the scan run out of memory. *)

From Stdlib Require Import String.
From S2P Require Import Prelude CMem Stdio StdioSpec Block.
Import Stdio StdioSpec Block.

Module BlockSpec.

(** ** Well-formed lists of devices *)

Definition driver_ok (l : list block) (ds : list (list sector_t)) (b : nat) (blk : block) : Prop :=
  match ops blk with
  | Disk k => ∃ ss, ds !! k = Some ss ∧ size blk ≤ Z.of_nat (length ss)
  | Partition p start => (p < b)%nat ∧ 0 ≤ start ∧ ∃ blk', l !! p = Some blk' ∧ start + size blk ≤ size blk' ∧ type blk' ≠ BLOCK_FOREIGN
  end.
Definition blocks_ok (l : list block) (ds : list (list sector_t)) : Prop := ∀ b blk, l !! b = Some blk → in_u 32 (size blk) ∧ driver_ok l ds b blk.
Abbreviation dev_wf d := (blocks_ok (all_blocks d) (disks d)).

(** Devices up to the counters. *)
Definition same_block (x y : block) : Prop := name x = name y ∧ type x = type y ∧ size x = size y ∧ ops x = ops y.
Definition counted (l l' : list block) : Prop := Forall2 same_block l l'.

Lemma counted_refl l : counted l l.
Proof. apply Forall2_same_length_lookup_2; [done|]. intros. by simplify_eq. Qed.
Lemma counted_trans l l' l'' : counted l l' → counted l' l'' → counted l l''.
Proof.
  intros H1 H2. pose proof (Forall2_length _ _ _ H1). pose proof (Forall2_length _ _ _ H2). apply Forall2_same_length_lookup_2; [congruence|].
  intros i x z Hx Hz. destruct (lookup_lt_is_Some_2 l' i) as [y Hy]; [apply lookup_lt_Some in Hx; lia|].
  destruct (Forall2_lookup_lr _ _ _ _ _ _ H1 Hx Hy) as (? & ? & ? & ?), (Forall2_lookup_lr _ _ _ _ _ _ H2 Hy Hz) as (? & ? & ? & ?). repeat split; congruence.
Qed.
Lemma counted_alter l b f : (∀ x, same_block x (f x)) → counted l (alter f b l).
Proof.
  intros Hf. apply Forall2_same_length_lookup_2; [by rewrite length_alter|]. intros i x y Hx Hy. destruct (decide (i = b)) as [->|Hne].
  - rewrite list_lookup_alter_eq, Hx in Hy. injection Hy as <-. apply Hf.
  - rewrite list_lookup_alter_ne in Hy by done. by simplify_eq.
Qed.
Lemma counted_lookup l l' b blk : counted l l' → l !! b = Some blk → ∃ blk', l' !! b = Some blk' ∧ same_block blk blk'.
Proof. intros H Hb. destruct (Forall2_lookup_l _ _ _ _ _ H Hb) as (y & ? & ?). eauto. Qed.
Lemma counted_wf l l' ds : counted l l' → blocks_ok l ds → blocks_ok l' ds.
Proof.
  intros H Hok b blk' Hb. destruct (Forall2_lookup_r _ _ _ _ _ H Hb) as (blk & Hb' & (E1 & E2 & E3 & E4)). destruct (Hok b blk Hb') as [Hu Hd].
  split; [congruence|]. unfold driver_ok in *. rewrite <- E4, <- E3. destruct (ops blk) as [k|p st]; [done|]. destruct Hd as (H1 & H2 & x & Hx & H3 & H4).
  destruct (counted_lookup _ _ _ _ H Hx) as (y & Hy & (F1 & F2 & F3 & F4)). split; [done|]. split; [done|]. exists y. split; [done|]. split; congruence.
Qed.

(** ** Where a sector is *)

Fixpoint place_loop (fuel : nat) (l : list block) (b : nat) (sector : Z) : option (nat * Z) :=
  match fuel with
  | O => None
  | S fuel => blk ← l !! b; match ops blk with Disk k => Some (k, sector) | Partition p start => place_loop fuel l p (start + sector) end
  end.
(** The disk and the sector on it. *)
Definition place (l : list block) (b : nat) (sector : Z) : option (nat * Z) := place_loop (S (length l)) l b sector.

Lemma place_counted fuel l l' b s : counted l l' → place_loop fuel l' b s = place_loop fuel l b s.
Proof.
  intros H. revert b s. induction fuel as [|fuel IH]; intros b s; [done|]. cbn. destruct (l !! b) as [blk|] eqn:E.
  - destruct (counted_lookup _ _ _ _ H E) as (blk' & -> & (_ & _ & _ & E4)). cbn. rewrite <- E4. destruct (ops blk); [done|apply IH].
  - apply lookup_ge_None in E. rewrite (Forall2_length _ _ _ H) in E. apply lookup_ge_None in E. by rewrite E.
Qed.
Lemma place_fuel f1 f2 l ds b s : blocks_ok l ds → (b < f1)%nat → (b < f2)%nat → place_loop f1 l b s = place_loop f2 l b s.
Proof.
  intros Hok. revert f2 b s. induction f1 as [|f1 IH]; intros [|f2] b s H1 H2; [lia..|]. cbn. destruct (l !! b) as [blk|] eqn:E; [|done]. cbn.
  destruct (Hok b blk E) as [_ Hd]. unfold driver_ok in Hd. destruct (ops blk) as [k|p st]; [done|]. apply IH; lia.
Qed.

Section Access.
Context (d : devices) (Hwf : dev_wf d).

Lemma get_block_run b blk l : l !! b = Some blk → get_block b (set_blocks l d) = Ok (blk, set_blocks l d).
Proof. intros H. unfold get_block, get, lift, mbind, M_bind. cbn. by rewrite H. Qed.
Lemma check_sector_run b blk l s : l !! b = Some blk → check_sector b s (set_blocks l d) = if decide (size blk ≤ s) then Err Panic else Ok ((), set_blocks l d).
Proof.
  intros H. unfold check_sector, block_size. erewrite bind_Ok by (by rewrite (bind_Ok _ _ _ _ _ (get_block_run b blk l H))). by case_decide.
Qed.

Lemma dev_read_loop_run fuel l b blk s : counted (all_blocks d) l → (b < fuel)%nat → l !! b = Some blk → 0 ≤ s < size blk →
  ∃ k n ss x l', place_loop fuel l b s = Some (k, n) ∧ disks d !! k = Some ss ∧ 0 ≤ n ∧ ss !! Z.to_nat n = Some x ∧
    read_loop fuel b s (set_blocks l d) = Ok (x, set_blocks l' d) ∧ counted l l'.
Proof.
  intros Hl. revert b blk s. induction fuel as [|fuel IH]; intros b blk s Hb Hblk Hs; [lia|]. cbn [read_loop place_loop].
  destruct (counted_wf _ _ _ Hl Hwf b blk Hblk) as [Hu Hd]. rewrite (bind_Ok _ _ _ () (set_blocks l d)) by (rewrite (check_sector_run b blk) by done; by rewrite decide_False by lia).
  rewrite (bind_Ok _ _ _ _ _ (get_block_run b blk l Hblk)), Hblk. cbn [mbind option_bind]. unfold driver_ok in Hd. destruct (ops blk) as [k|p st] eqn:Eo.
  - destruct Hd as (ss & Hss & Hlen). destruct (lookup_lt_is_Some_2 ss (Z.to_nat s)) as [x Hx]; [lia|].
    exists k, s, ss, x, (alter count_read b l). split; [done|]. split; [done|]. split; [lia|]. split; [done|]. split; [|by apply counted_alter].
    rewrite (bind_Ok _ _ _ x (set_blocks l d)); [done|]. unfold disk_read, get, lift, mbind, M_bind. cbn. rewrite Hss. cbn. by rewrite Hx.
  - destruct Hd as (Hp & Hst & blk' & Hblk' & Hle & _). pose proof (proj1 (counted_wf _ _ _ Hl Hwf p blk' Hblk')) as Hu'. unfold in_u in *. rewrite wrapu_id by (unfold in_u; lia).
    destruct (IH p blk' (st + s) ltac:(lia) Hblk' ltac:(lia)) as (k & n & ss & x & l' & H1 & H2 & H3 & H4 & H5 & H6).
    exists k, n, ss, x, (alter count_read b l'). do 4 (split; [done|]). rewrite (bind_Ok _ _ _ _ _ H5). split; [done|]. eapply counted_trans; [done|]. by apply counted_alter.
Qed.

Lemma dev_write_loop_run fuel l b blk s buf : counted (all_blocks d) l → (b < fuel)%nat → l !! b = Some blk → 0 ≤ s < size blk → type blk ≠ BLOCK_FOREIGN →
  ∃ k n l', place_loop fuel l b s = Some (k, n) ∧
    write_loop fuel b s buf (set_blocks l d) = Ok ((), set_disks (alter (<[Z.to_nat n := take 512 buf]>) k (disks d)) (set_blocks l' d)) ∧ counted l l'.
Proof.
  intros Hl. revert b blk s. induction fuel as [|fuel IH]; intros b blk s Hb Hblk Hs Ht; [lia|]. cbn [write_loop place_loop].
  destruct (counted_wf _ _ _ Hl Hwf b blk Hblk) as [Hu Hd]. rewrite (bind_Ok _ _ _ () (set_blocks l d)) by (rewrite (check_sector_run b blk) by done; by rewrite decide_False by lia).
  rewrite (bind_Ok _ _ _ _ _ (get_block_run b blk l Hblk)), Hblk. cbn [mbind option_bind]. rewrite bool_decide_eq_false_2 by done.
  rewrite (bind_Ok _ _ _ () (set_blocks l d)) by done. unfold driver_ok in Hd. destruct (ops blk) as [k|p st] eqn:Eo.
  - destruct Hd as (ss & Hss & Hlen). destruct (lookup_lt_is_Some_2 ss (Z.to_nat s)) as [x Hx]; [lia|].
    exists k, s, (alter count_write b l). split; [done|]. split; [|by apply counted_alter].
    set (d1 := set_disks (alter (<[Z.to_nat s := take 512 buf]>) k (disks d)) (set_blocks l d)).
    rewrite (bind_Ok _ _ _ () d1); [done|]. unfold disk_write. rewrite (bind_Ok _ _ _ x (set_blocks l d)); [done|]. unfold disk_read, get, lift, mbind, M_bind. cbn. rewrite Hss. cbn. by rewrite Hx.
  - destruct Hd as (Hp & Hst & blk' & Hblk' & Hle & Ht'). pose proof (proj1 (counted_wf _ _ _ Hl Hwf p blk' Hblk')) as Hu'. unfold in_u in *. rewrite wrapu_id by (unfold in_u; lia).
    destruct (IH p blk' (st + s) ltac:(lia) Hblk' ltac:(lia) Ht') as (k & n & l' & H1 & H2 & H3).
    exists k, n, (alter count_write b l'). split; [done|]. rewrite (bind_Ok _ _ _ _ _ H2). split; [done|]. eapply counted_trans; [done|]. by apply counted_alter.
Qed.
End Access.

(** [block_read] and [block_write] on a sector of the device. *)
Lemma dev_read_run d b blk s : dev_wf d → all_blocks d !! b = Some blk → 0 ≤ s < size blk →
  ∃ k n ss x l', place (all_blocks d) b s = Some (k, n) ∧ disks d !! k = Some ss ∧ 0 ≤ n ∧ ss !! Z.to_nat n = Some x ∧
    block_read b s d = Ok (x, set_blocks l' d) ∧ counted (all_blocks d) l'.
Proof.
  intros Hwf Hb Hs. apply lookup_lt_Some in Hb as Hlt.
  destruct (dev_read_loop_run d Hwf (S (length (all_blocks d))) (all_blocks d) b blk s (counted_refl _) ltac:(lia) Hb Hs) as (k & n & ss & x & l' & H).
  exists k, n, ss, x, l'. by destruct d.
Qed.
Lemma dev_write_run d b blk s buf : dev_wf d → all_blocks d !! b = Some blk → 0 ≤ s < size blk → type blk ≠ BLOCK_FOREIGN →
  ∃ k n l', place (all_blocks d) b s = Some (k, n) ∧
    block_write b s buf d = Ok ((), set_disks (alter (<[Z.to_nat n := take 512 buf]>) k (disks d)) (set_blocks l' d)) ∧ counted (all_blocks d) l'.
Proof.
  intros Hwf Hb Hs Ht. apply lookup_lt_Some in Hb as Hlt.
  destruct (dev_write_loop_run d Hwf (S (length (all_blocks d))) (all_blocks d) b blk s buf (counted_refl _) ltac:(lia) Hb Hs Ht) as (k & n & l' & H).
  exists k, n, l'. by destruct d.
Qed.
Lemma past_end d b blk s : all_blocks d !! b = Some blk → size blk ≤ s → block_read b s d = Err Panic ∧ ∀ buf, block_write b s buf d = Err Panic.
Proof.
  intros Hb Hs. assert (check_sector b s d = Err Panic) as E.
  { pose proof (check_sector_run d b blk (all_blocks d) s Hb) as E. rewrite decide_True in E by done. by destruct d. }
  split; [|intros buf]; unfold block_read, block_write; (rewrite (bind_Ok get _ d d d eq_refl)); cbn [read_loop write_loop]; by rewrite (bind_Err _ _ _ _ E).
Qed.

(** A sector that is written keeps the devices well-formed. *)
Lemma disks_wf l ds k n x : blocks_ok l ds → blocks_ok l (alter (<[n := x]>) k ds).
Proof.
  intros Hok b blk Hb. destruct (Hok b blk Hb) as [Hu Hd]. split; [done|]. unfold driver_ok in *. destruct (ops blk) as [k'|]; [|done].
  destruct Hd as (ss & Hss & Hlen). destruct (decide (k' = k)) as [->|Hne].
  - exists (<[n := x]> ss). rewrite list_lookup_alter_eq, Hss. split; [done|]. by rewrite length_insert.
  - exists ss. by rewrite list_lookup_alter_ne.
Qed.

(** C18: every sector of a registered device, a disk or a partition of a
    partition, is the sector of a disk that [place] tells, and reading it
    returns what is there.  Writing a sector of a device that is not foreign
    returns, and the sector then reads as what was written, while a sector
    of any device that is at another place reads as before.  An access past
    the end of the device panics. *)
Theorem block_access d b blk sector : dev_wf d → all_blocks d !! b = Some blk → 0 ≤ sector →
  (size blk ≤ sector → block_read b sector d = Err Panic ∧ ∀ buf, block_write b sector buf d = Err Panic) ∧
  (sector < size blk → ∃ k n ss x d', place (all_blocks d) b sector = Some (k, n) ∧ disks d !! k = Some ss ∧ ss !! Z.to_nat n = Some x ∧
     block_read b sector d = Ok (x, d') ∧ dev_wf d' ∧ disks d' = disks d) ∧
  (sector < size blk → type blk ≠ BLOCK_FOREIGN → ∀ buf, length buf = 512%nat → ∃ d', block_write b sector buf d = Ok ((), d') ∧ dev_wf d' ∧
     (∃ d2, block_read b sector d' = Ok (buf, d2)) ∧
     ∀ b2 blk2 s2, all_blocks d !! b2 = Some blk2 → 0 ≤ s2 < size blk2 → place (all_blocks d) b2 s2 ≠ place (all_blocks d) b sector →
       ∃ x d1 d2, block_read b2 s2 d = Ok (x, d1) ∧ block_read b2 s2 d' = Ok (x, d2)).
Proof.
  intros Hwf Hb Hs. split; [by eapply past_end|]. split.
  - intros Hlt. destruct (dev_read_run d b blk sector Hwf Hb ltac:(lia)) as (k & n & ss & x & l' & H1 & H2 & _ & H3 & H4 & H5).
    exists k, n, ss, x, (set_blocks l' d). do 4 (split; [done|]). split; [|done]. by eapply counted_wf.
  - intros Hlt Ht buf Hbuf. destruct (dev_write_run d b blk sector buf Hwf Hb ltac:(lia) Ht) as (k & n & l' & H1 & H2 & H3). rewrite take_ge in H2 by lia.
    set (d' := set_disks (alter (<[Z.to_nat n := buf]>) k (disks d)) (set_blocks l' d)) in *.
    assert (dev_wf d') as Hwf' by (apply disks_wf; by eapply counted_wf). exists d'. split; [done|]. split; [done|].
    assert (∀ b2 s2, place (all_blocks d') b2 s2 = place (all_blocks d) b2 s2) as Hpl.
    { intros b2 s2. unfold place. cbn [all_blocks d' set_disks set_blocks]. rewrite <- (Forall2_length _ _ _ H3). by apply place_counted. }
    split.
    + destruct (counted_lookup _ _ _ _ H3 Hb) as (blk' & Hb' & (_ & _ & Es & _)).
      destruct (dev_read_run d' b blk' sector Hwf' Hb' ltac:(lia)) as (k' & n' & ss & x & l2 & E1 & E2 & E3 & E4 & E5 & _).
      rewrite Hpl, H1 in E1. simplify_eq. exists (set_blocks l2 d'). rewrite E5. cbn in E2. rewrite list_lookup_alter_eq in E2.
      destruct (disks d !! k') as [ss0|]; [|done]. injection E2 as <-. apply lookup_lt_Some in E4 as Hl. rewrite length_insert in Hl.
      rewrite list_lookup_insert_eq in E4 by done. by simplify_eq.
    + intros b2 blk2 s2 Hb2 Hs2 Hne. destruct (dev_read_run d b2 blk2 s2 Hwf Hb2 Hs2) as (k2 & n2 & ss & x & l2 & E1 & E2 & E3 & E4 & E5 & _).
      destruct (counted_lookup _ _ _ _ H3 Hb2) as (blk' & Hb' & (_ & _ & Es & _)).
      destruct (dev_read_run d' b2 blk' s2 Hwf' Hb' ltac:(lia)) as (k' & n' & ss' & x' & l3 & F1 & F2 & F3 & F4 & F5 & _).
      rewrite Hpl, E1 in F1. injection F1 as <- <-. exists x, (set_blocks l2 d), (set_blocks l3 d'). split; [done|]. rewrite F5. do 2 f_equal. cbn in F2.
      assert (k2 ≠ k ∨ n2 ≠ n) as Hkn by (destruct (decide (k2 = k)), (decide (n2 = n)); try tauto; subst; congruence).
      destruct (decide (k2 = k)) as [->|Hk]; [|rewrite list_lookup_alter_ne in F2 by done; congruence].
      rewrite list_lookup_alter_eq, E2 in F2. injection F2 as <-. rewrite list_lookup_insert_ne in F4; [congruence|].
      assert (0 ≤ n); [|lia].
      destruct (dev_read_run d b blk sector Hwf Hb ltac:(lia)) as (? & ? & ? & ? & ? & G1 & _ & G2 & _). rewrite H1 in G1. by simplify_eq.
Qed.

(** ** Scanning *)

Definition empty (e : partition_table_entry) : Prop := e_size e = 0 ∨ e_type e = 0.
#[global] Instance empty_dec e : Decision (empty e).
Proof. unfold empty. apply _. Defined.
Definition fits (n : Z) (e : partition_table_entry) : Prop := e_offset e < n ∧ e_offset e + e_size e ≤ n.
#[global] Instance fits_dec n e : Decision (fits n e).
Proof. unfold fits. apply _. Defined.
Definition entry_ok (e : partition_table_entry) : Prop := in_u 32 (e_offset e) ∧ in_u 32 (e_size e).

Definition new_device (b : nat) (nm : list Z) (e : partition_table_entry) (part_nr : Z) : block :=
  Block (part_name nm part_nr) (partition_type (e_type e)) (e_size e) (Partition b (e_offset e)) 0 0.
(** The devices that the entries of a table give, with their numbers. *)
Fixpoint found (b : nat) (blk : block) (es : list partition_table_entry) (part_nr : Z) : list block :=
  match es with
  | [] => []
  | e :: es =>
      if decide (empty e) then found b blk es part_nr
      else (if decide (fits (size blk) e) then [new_device b (name blk) e (part_nr + 1)] else []) ++ found b blk es (part_nr + 1)
  end.
Definition parts (es : list partition_table_entry) : Z := Z.of_nat (length (filter (λ e, ¬ empty e) es)).

Lemma le32_bytes_range bs : Forall (in_u 8) bs → in_u 32 (of_le32 bs).
Proof.
  intros H. unfold of_le32. destruct bs as [|a [|b [|c [|d bs]]]]; try (by unfold in_u). repeat (apply Forall_cons in H as [? H]). unfold in_u in *. lia.
Qed.
Lemma entry_at_ok s i : Forall (in_u 8) s → entry_ok (entry_at s i).
Proof. intros H. split; apply le32_bytes_range; repeat (apply Forall_take || apply Forall_drop); done. Qed.

Lemma found_partition_run d b blk t start sz nr : all_blocks d !! b = Some blk → in_u 32 (size blk) → in_u 32 start → in_u 32 sz → (2 ≤ heap d)%nat →
  found_partition b t start sz nr d = Ok ((),
    if decide (start < size blk ∧ start + sz ≤ size blk)
    then set_heap (heap d - 2) (set_blocks (all_blocks d ++ [Block (part_name (name blk) nr) (partition_type t) sz (Partition b start) 0 0]) d) else d).
Proof.
  intros Hb Hu Hs Hz Hh. unfold found_partition, block_size, block_name. assert (get_block b d = Ok (blk, d)) as Hg by (unfold get_block, get, lift, mbind, M_bind; by rewrite Hb).
  rewrite (bind_Ok _ _ _ (size blk) d) by (by rewrite (bind_Ok _ _ _ _ _ Hg)).
  destruct (decide (size blk ≤ start)); [by rewrite decide_False by lia|]. unfold in_u in *.
  destruct (decide (u32 (start + sz) < start ∨ _)) as [H|H].
  - rewrite decide_False; [done|]. intros [H1 H2]. rewrite wrapu_id in H by (unfold in_u; lia). lia.
  - rewrite decide_True by (unfold wrapu in H; Z.to_euclidean_division_equations; lia).
    destruct d as [l ro ds [|[|h]]]; cbn in Hh; [lia..|]. cbn [heap set_heap set_blocks all_blocks Nat.sub]. cbn in Hb, Hg.
    unfold malloc at 1. cbn. unfold mbind, M_bind. cbn. unfold get_block, get, lift, mbind, M_bind. cbn. rewrite Hb. cbn.
    unfold block_register, malloc, mbind, M_bind, get, put; cbn.
    by rewrite Nat.sub_0_r, take_ge by (unfold part_name; rewrite length_take; lia).
Qed.

Lemma entries_loop_run rt d b blk es nr : all_blocks d !! b = Some blk → in_u 32 (size blk) → Forall entry_ok es →
  Forall (λ e, extended (e_type e) = true → empty e) es → (2 * length es ≤ heap d)%nat →
  ∃ h, (heap d - 2 * length es ≤ h)%nat ∧
    entries_loop rt b 0 0 es nr d = Ok (nr + parts es, set_heap h (set_blocks (all_blocks d ++ found b blk es nr) d)).
Proof.
  intros Hb Hu Hes Hx. revert d nr Hb. induction Hes as [|e es [He1 He2] Hes IH]; intros d nr Hb Hh; cbn [entries_loop found length] in *.
  { exists (heap d). split; [lia|]. rewrite app_nil_r. unfold parts. cbn. rewrite Z.add_0_r. by destruct d. }
  apply Forall_cons in Hx as [Hxe Hx]. unfold parts in *. rewrite filter_cons. destruct (decide (empty e)) as [He|He].
  - rewrite (decide_False (P := ¬ empty e)) by tauto. rewrite (decide_True (P := e_size e = 0 ∨ e_type e = 0)) by exact He.
    rewrite (bind_Ok _ _ _ nr d) by done. destruct (IH Hx d nr Hb ltac:(lia)) as (h & Hh' & E). exists h. split; [lia|done].
  - rewrite (decide_True (P := ¬ empty e)) by done. rewrite (decide_False (P := e_size e = 0 ∨ e_type e = 0)) by exact He. destruct (extended (e_type e)) eqn:Ex; [by destruct (He (Hxe eq_refl))|]. rewrite Z.add_0_r, (wrapu_id 32 (e_offset e)) by done.
    pose proof (found_partition_run d b blk (e_type e) (e_offset e) (e_size e) (nr + 1) Hb Hu He1 He2 ltac:(lia)) as E. change (found_partition b (e_type e) (e_offset e) (e_size e) (nr + 1) d = Ok ((), if decide (fits (size blk) e) then set_heap (heap d - 2) (set_blocks (all_blocks d ++ [new_device b (name blk) e (nr + 1)]) d) else d)) in E.
    erewrite bind_Ok by (by rewrite (bind_Ok _ _ _ _ _ E)). cbn [length]. destruct (decide (fits (size blk) e)).
    + set (d1 := set_heap (heap d - 2) _). destruct (IH Hx d1 (nr + 1)) as (h & Hh' & E').
      { cbn. by apply lookup_app_l_Some. }
      { cbn. lia. }
      exists h. split; [cbn in Hh'; lia|]. rewrite E'. cbn [set_heap set_blocks all_blocks d1]. rewrite <- app_assoc. do 2 f_equal. lia.
    + destruct (IH Hx d (nr + 1) Hb ltac:(lia)) as (h & Hh' & E'). exists h. split; [lia|]. rewrite E'. cbn [app]. do 2 f_equal. lia.
Qed.

Lemma found_counted b blk es nr : found b (count_read blk) es nr = found b blk es nr.
Proof. revert nr. induction es as [|e es IH]; intros nr; [done|]. cbn [found]. by rewrite !IH. Qed.

(** The table of a disk. *)
Definition table (mbr : sector_t) : list partition_table_entry := entry_at mbr <$> seq 0 4.
Record on_disk (b : nat) (blk : block) (mbr : sector_t) (d : devices) : Prop := On_disk {
  disk_blk : all_blocks d !! b = Some blk;
  disk_size : 0 < size blk ∧ in_u 32 (size blk);
  disk_mbr : ∃ k ss, ops blk = Disk k ∧ disks d !! k = Some (mbr :: ss);
  disk_bytes : Forall (in_u 8) mbr
}.
Lemma table_ok mbr : Forall (in_u 8) mbr → Forall entry_ok (table mbr).
Proof. intros H. apply Forall_fmap, Forall_forall. intros i _. by apply entry_at_ok. Qed.

Lemma mbr_read b blk mbr d : on_disk b blk mbr d → block_read b 0 d = Ok (mbr, set_blocks (alter count_read b (all_blocks d)) d).
Proof.
  intros [Hb [Hs _] (k & ss & Ho & Hd) _]. assert (get_block b d = Ok (blk, d)) as Hg by (unfold get_block, get, lift, mbind, M_bind; by rewrite Hb).
  unfold block_read. rewrite (bind_Ok get _ d d d eq_refl). cbn [read_loop]. unfold check_sector, block_size.
  rewrite (bind_Ok _ _ d () d) by (erewrite bind_Ok by (by rewrite (bind_Ok _ _ _ _ _ Hg)); by rewrite decide_False by lia).
  rewrite (bind_Ok _ _ _ _ _ Hg), Ho. rewrite (bind_Ok _ _ d mbr d); [done|]. unfold disk_read, get, lift, mbind, M_bind. cbn. by rewrite Hd.
Qed.
Lemma on_disk_read b blk mbr d l n : on_disk b blk mbr d → on_disk b (count_read blk) mbr (set_blocks (alter count_read b (all_blocks d) ++ l) (set_heap n d)).
Proof.
  intros [Hb Hs Hd Hm]. split; [|done..]. cbn. apply lookup_app_l_Some. by rewrite list_lookup_alter_eq, Hb.
Qed.

(** A table that has been read, before its entries are looked at. *)
Lemma read_table_run fuel b blk mbr d sector pes nr : on_disk b blk mbr d → sector < size blk →
  read_partition_table (S fuel) b sector pes nr d =
    match heap d with
    | O => Err Panic
    | S h => (if decide (signature mbr ≠ 0xaa55) then free;; mret nr
              else nr ← entries_loop (read_partition_table fuel b) b sector pes (table mbr) nr; free;; mret nr) (set_blocks (alter count_read b (all_blocks d)) (set_heap h d))
    end.
Proof.
  intros Hd Hs. pose proof (disk_blk _ _ _ _ Hd) as Hb. assert (get_block b d = Ok (blk, d)) as Hg by (unfold get_block, get, lift, mbind, M_bind; by rewrite Hb).
  cbn [read_partition_table]. unfold block_size at 1. rewrite (bind_Ok _ _ d (size blk) d) by (by rewrite (bind_Ok _ _ _ _ _ Hg)). rewrite decide_False by lia.
  destruct (heap d) as [|h] eqn:Eh.
  - rewrite (bind_Ok _ _ d false d); [done|]. unfold malloc, get, mbind, M_bind. by rewrite Eh.
  - rewrite (bind_Ok _ _ d true (set_heap h d)) by (unfold malloc, get, mbind, M_bind; by rewrite Eh). cbn [negb].
    assert (on_disk b blk mbr (set_heap h d)) as Hd' by (by destruct Hd). rewrite (bind_Ok _ _ _ _ _ (mbr_read _ _ _ _ Hd')). cbn [set_heap all_blocks]. by case_decide.
Qed.

Lemma found_wf d b blk l es nr : dev_wf d → all_blocks d !! b = Some blk → type blk ≠ BLOCK_FOREIGN → Forall entry_ok es → counted (all_blocks d) l →
  blocks_ok (l ++ found b blk es nr) (disks d).
Proof.
  intros Hwf Hb Ht Hes Hc. assert (∃ blk', l !! b = Some blk' ∧ same_block blk blk') as (blk' & Hb' & Hs) by (by eapply counted_lookup).
  assert (blocks_ok l (disks d)) as Hl by (by eapply counted_wf). clear Hc Hwf Hb. revert l nr Hb' Hl.
  induction Hes as [|e es [He1 He2] Hes IH]; intros l nr Hb' Hl; cbn [found]; [by rewrite app_nil_r|].
  destruct (decide (empty e)); [by apply IH|]. destruct (decide (fits (size blk) e)) as [[Hf1 Hf2]|]; [|by apply IH]. rewrite app_assoc. apply IH; [by apply lookup_app_l_Some|].
  intros i x Hi. apply lookup_app_Some in Hi as [Hi|[Hge Hi]].
  - destruct (Hl i x Hi) as [Hu Hd]. split; [done|]. unfold driver_ok in *. destruct (ops x) as [|p st]; [done|]. destruct Hd as (H1 & H2 & y & Hy & H3).
    split; [done|]. split; [done|]. exists y. split; [by apply lookup_app_l_Some|done].
  - apply list_lookup_singleton_Some in Hi as [Hi <-]. split; [done|]. cbn. apply lookup_lt_Some in Hb' as Hlt. split; [lia|]. split; [apply He1|].
    exists blk'. destruct Hs as (_ & E2 & E3 & _). split; [by apply lookup_app_l_Some|]. split; [lia|congruence].
Qed.

(** Scanning a disk with a partition table in its first sector, without
    extended partitions, returns the number of its partitions and registers one
    device, numbered from 1, for each of them that lies on the disk, in the order
    of the table and after all older devices, of which only the counters change; all devices then still are well-formed, so every
    sector of a partition is one of its disk.  A disk without the signature
    gets no device. *)
Theorem partition_scan_registers b blk mbr d : on_disk b blk mbr d → (9 ≤ heap d)%nat →
  (signature mbr ≠ 0xaa55 → partition_scan b d = Ok (0, set_blocks (alter count_read b (all_blocks d)) d)) ∧
  (signature mbr = 0xaa55 → Forall (λ e, extended (e_type e) = true → empty e) (table mbr) →
   ∃ h, partition_scan b d = Ok (parts (table mbr), set_heap h (set_blocks (alter count_read b (all_blocks d) ++ found b blk (table mbr) 0) d)) ∧
     (dev_wf d → type blk ≠ BLOCK_FOREIGN → blocks_ok (alter count_read b (all_blocks d) ++ found b blk (table mbr) 0) (disks d))).
Proof.
  intros Hd Hh. pose proof (disk_size _ _ _ _ Hd) as [Hs Hu]. pose proof (table_ok _ (disk_bytes _ _ _ _ Hd)) as Ht.
  unfold partition_scan. rewrite (bind_Ok get _ d d d eq_refl), (read_table_run _ b blk mbr) by done. destruct (heap d) as [|h] eqn:Eh; [lia|]. split.
  - intros Hsig. rewrite decide_True by done. destruct d; cbn in *. by subst.
  - intros Hsig Hx. rewrite decide_False by tauto. set (d1 := set_blocks _ (set_heap h d)).
    pose proof (on_disk_read b blk mbr d [] h Hd) as Hd1. rewrite app_nil_r in Hd1. change (on_disk b (count_read blk) mbr d1) in Hd1.
    destruct (entries_loop_run (read_partition_table (S h) b) d1 b (count_read blk) (table mbr) 0 (disk_blk _ _ _ _ Hd1) Hu Ht Hx ltac:(cbn; lia)) as (h' & _ & E).
    exists (S h'). rewrite (bind_Ok _ _ _ _ _ E), found_counted. split; [done|]. intros Hwf Hty. eapply found_wf; [done| |done..|]; [by apply Hd|by apply counted_alter].
Qed.

(** ** Extended partitions *)

(** A partition that is found leaves the disk as it is, or memory runs out. *)
Lemma found_partition_any b blk mbr d t start sz nr : on_disk b blk mbr d →
  found_partition b t start sz nr d = Err Panic ∨ ∃ d', found_partition b t start sz nr d = Ok ((), d') ∧ on_disk b blk mbr d' ∧ (heap d' ≤ heap d)%nat.
Proof.
  intros Hd. pose proof (disk_blk _ _ _ _ Hd) as Hb. unfold found_partition, block_size, block_name.
  assert (get_block b d = Ok (blk, d)) as Hg by (unfold get_block, get, lift, mbind, M_bind; by rewrite Hb).
  rewrite (bind_Ok _ _ _ (size blk) d) by (by rewrite (bind_Ok _ _ _ _ _ Hg)). case_decide; [by right; exists d|]. case_decide; [by right; exists d|].
  destruct d as [l ro ds [|[|h]]]; cbn in Hb; [by left|left|right].
  - unfold malloc at 1. unfold get_block, block_register, malloc, get, put, lift, mbind, M_bind. cbn. by rewrite Hb.
  - unfold malloc at 1. unfold get_block, block_register, malloc, get, put, lift, mbind, M_bind. cbn. rewrite Hb. cbn. eexists. split; [done|]. split; [|cbn; lia].
    destruct Hd as [_ H1 H2 H3]. split; [|done..]. cbn. by apply lookup_app_l_Some.
Qed.

(** The first extended partition of a table. *)
Definition first_extended (es : list partition_table_entry) (e : partition_table_entry) : Prop :=
  ∃ es1 es2, es = es1 ++ e :: es2 ∧ Forall (λ e, extended (e_type e) = true → empty e) es1 ∧ extended (e_type e) = true ∧ ¬ empty e.

Lemma entries_loop_panics rt b blk mbr d sector pes es e nr h : on_disk b blk mbr d → (heap d ≤ h)%nat → first_extended es e →
  (∀ d' nr', on_disk b blk mbr d' → (heap d' ≤ h)%nat →
     (if decide (sector = 0) then rt (e_offset e) (e_offset e) nr' else rt (u32 (e_offset e + pes)) pes nr') d' = Err Panic) →
  entries_loop rt b sector pes es nr d = Err Panic.
Proof.
  intros Hd Hh (es1 & es2 & -> & Hes1 & Hx & He) Hrt. revert d nr Hd Hh. induction Hes1 as [|e1 es1 He1 Hes1 IH]; intros d nr Hd Hh; cbn [app entries_loop].
  - rewrite (decide_False (P := e_size e = 0 ∨ e_type e = 0)) by exact He. rewrite Hx. apply bind_Err. pose proof (Hrt d nr Hd Hh). by case_decide.
  - destruct (decide (e_size e1 = 0 ∨ e_type e1 = 0)) as [H1|H1]; [rewrite (bind_Ok _ _ _ nr d) by done; by apply IH|].
    destruct (extended (e_type e1)) eqn:E1; [by destruct (H1 (He1 eq_refl))|].
    destruct (found_partition_any b blk mbr d (e_type e1) (u32 (e_offset e1 + sector)) (e_size e1) (nr + 1) Hd) as [E|(d' & E & Hd' & Hh')].
    + apply bind_Err. by apply bind_Err.
    + erewrite bind_Ok by (by rewrite (bind_Ok _ _ _ _ _ E)). apply IH; [done|lia].
Qed.

Lemma read_table_panics fuel b blk mbr d sector pes nr e : on_disk b blk mbr d → signature mbr = 0xaa55 → first_extended (table mbr) e →
  0 < e_offset e → 2 * e_offset e < size blk → (heap d < fuel)%nat → sector < size blk → sector = 0 ∨ pes = e_offset e →
  read_partition_table fuel b sector pes nr d = Err Panic.
Proof.
  intros Hd Hsig Hf Ho H2 Hlt. revert blk d sector pes nr Hd H2 Hlt. induction fuel as [|fuel IH]; intros blk d sector pes nr Hd H2 Hlt Hs Hp; [lia|].
  pose proof (disk_size _ _ _ _ Hd) as [_ Hu]. rewrite (read_table_run _ b blk mbr) by done. destruct (heap d) as [|h] eqn:Eh; [done|].
  rewrite decide_False by tauto. apply bind_Err. set (d1 := set_blocks _ _).
  pose proof (on_disk_read b blk mbr d [] h Hd) as Hd1. rewrite app_nil_r in Hd1. change (on_disk b (count_read blk) mbr d1) in Hd1.
  apply (entries_loop_panics _ b (count_read blk) mbr d1 sector pes _ e nr h); [done..|]. intros d' nr' Hd' Hh'.
  destruct (decide (sector = 0)) as [->|Hne].
  - apply (IH (count_read blk)); [done|done|lia|cbn; lia|by right].
  - destruct Hp as [Hp| ->]; [done|]. unfold in_u in Hu. rewrite wrapu_id by (unfold in_u; lia). apply (IH (count_read blk)); [done|done|lia|cbn; lia|by right].
Qed.

(** A disk whose table has an extended partition in its first half, as one
    with logical partitions has, makes the scan fail for want of memory, however
    much there is: [read_partition_table] reads sector 0 whatever sector it is
    given, finds the same extended partition again, and keeps a block of the heap
    at every level.  The stack, which is not modelled, may end before. *)
Theorem extended_partition_panics b blk mbr d e : on_disk b blk mbr d → signature mbr = 0xaa55 → first_extended (table mbr) e →
  0 < e_offset e → 2 * e_offset e < size blk → partition_scan b d = Err Panic.
Proof.
  intros Hd Hsig Hf Ho H2. unfold partition_scan. rewrite (bind_Ok get _ d d d eq_refl).
  apply (read_table_panics _ b blk mbr d 0 0 0 e); try done; [lia|apply Hd|by left].
Qed.

(** ** Roles *)

(** The first device of a type, from a place in the list on. *)
Definition first_of (role : block_type) (l : list block) : option nat := fst <$> list_find (λ blk, type blk = role) l.

Lemma locate_loop_run fuel d role b : (length (all_blocks d) - b < fuel)%nat →
  (x ← list_elem_to_block b; locate_loop fuel role x) d = Ok (Nat.add b <$> first_of role (drop b (all_blocks d)), d).
Proof.
  revert b. induction fuel as [|fuel IH]; intros b Hf; [lia|]. unfold list_elem_to_block, gets, mbind, M_bind. cbn. case_decide as Hb.
  - destruct (lookup_lt_is_Some_2 _ _ Hb) as [blk Hblk]. unfold block_type_of. unfold mbind, M_bind. unfold get_block, get, lift, mbind, M_bind. rewrite Hblk. cbn.
    rewrite (drop_S _ _ _ Hblk). unfold first_of. cbn [list_find]. case_decide; [cbn; by rewrite Nat.add_0_r|].
    pose proof (IH (S b) ltac:(lia)) as E. unfold list_elem_to_block, gets, mbind, M_bind in E. rewrite E. unfold first_of. rewrite <- !option_fmap_compose.
    do 2 f_equal. destruct (list_find _ _) as [[i x]|]; cbn; [by rewrite Nat.add_succ_r|done].
  - rewrite drop_ge by lia. done.
Qed.

(** Without a name from the command line a role goes to the first device of
    its type, and stays as it was when there is none. *)
Lemma locate_block_device_first d role : is_role role = true → ∃ d', locate_block_device role None d = Ok ((), d') ∧ all_blocks d' = all_blocks d ∧ disks d' = disks d ∧
  ∀ t, block_by_role d' t = match first_of role (all_blocks d) with Some b => if decide (t = role) then Some b else block_by_role d t | None => block_by_role d t end.
Proof.
  intros Hr. unfold locate_block_device. pose proof (locate_loop_run (S (length (all_blocks d))) d role 0 ltac:(lia)) as E. rewrite drop_0 in E.
  erewrite bind_Ok; [|exact E]. cbn. destruct (first_of role (all_blocks d)) as [b|]; cbn; [|by exists d].
  unfold block_set_role. erewrite (bind_Ok (ASSERT _)) by (by rewrite Hr). by eexists.
Qed.

(** ** Witnesses *)

Module Examples.
(** A disk of 64 sectors with a partition for files at sector 8. *)
Definition entry_bytes (t off sz : Z) : list Z := [0; 0; 0; 0; t; 0; 0; 0; off; 0; 0; 0; sz; 0; 0; 0].
Definition mbr_of (e1 e2 : list Z) : sector_t := replicate 446 0 ++ e1 ++ e2 ++ replicate 32 0 ++ [0x55; 0xaa].
Definition hda : block := Block [104; 100; 97] BLOCK_RAW 64 (Disk 0) 0 0.
Definition machine (mbr : sector_t) (h : nat) : devices := Devices [hda] (λ _, None) [mbr :: replicate 63 (replicate 512 0)] h.
Definition mbr1 : sector_t := mbr_of (entry_bytes 0x21 8 16) (entry_bytes 0x83 60 8).
Definition mbr2 : sector_t := mbr_of (entry_bytes 0x21 8 16) (entry_bytes 0x05 30 4).
Definition hda1 : block := new_device 0 [104; 100; 97] (Entry 0x21 8 16) 1.
Definition machine1 : devices := Devices [hda; hda1] (λ _, None) [mbr1 :: replicate 63 (replicate 512 0)] 7.

Lemma table1 : table mbr1 = [Entry 0x21 8 16; Entry 0x83 60 8; Entry 0 0 0; Entry 0 0 0].
Proof. reflexivity. Qed.
Lemma table2 : table mbr2 = [Entry 0x21 8 16; Entry 0x05 30 4; Entry 0 0 0; Entry 0 0 0].
Proof. reflexivity. Qed.
Lemma mbr_bytes e1 e2 : Forall (in_u 8) e1 → Forall (in_u 8) e2 → Forall (in_u 8) (mbr_of e1 e2).
Proof. intros H1 H2. unfold mbr_of. repeat (apply Forall_app; split); try done; try (apply Forall_replicate; done). by repeat constructor. Qed.
Lemma machine_disk e1 e2 h : Forall (in_u 8) e1 → Forall (in_u 8) e2 → on_disk 0 hda (mbr_of e1 e2) (machine (mbr_of e1 e2) h).
Proof. intros H1 H2. split; [done|done| |by apply mbr_bytes]. exists 0%nat, (replicate 63 (replicate 512 0)). done. Qed.
Lemma machine1_wf : dev_wf machine1.
Proof.
  intros [|[|[|]]] blk Hb; cbn in Hb; try done; injection Hb as <-; (split; [done|]); cbn.
  - exists (mbr1 :: replicate 63 (replicate 512 0)). split; [reflexivity|]. cbn [length]. rewrite length_replicate. lia.
  - split; [lia|]. split; [lia|]. exists hda. done.
Qed.
End Examples.

(** The sector 3 of the partition is sector 11 of the disk. *)
Lemma block_access_witness : ∃ k n ss x d', place (all_blocks Examples.machine1) 1 3 = Some (k, n) ∧ disks Examples.machine1 !! k = Some ss ∧ ss !! Z.to_nat n = Some x ∧
  block_read 1 3 Examples.machine1 = Ok (x, d') ∧ dev_wf d' ∧ disks d' = disks Examples.machine1.
Proof.
  apply (block_access Examples.machine1 1 Examples.hda1 3); [apply Examples.machine1_wf|reflexivity|lia|]. cbn. lia.
Defined.
Lemma partition_scan_registers_witness : ∃ h, partition_scan 0 (Examples.machine Examples.mbr1 9) =
  Ok (2, set_heap h (set_blocks [count_read Examples.hda; Examples.hda1] (Examples.machine Examples.mbr1 9))).
Proof.
  pose proof (partition_scan_registers 0 Examples.hda Examples.mbr1 (Examples.machine Examples.mbr1 9)) as H. rewrite Examples.table1 in H.
  destruct H as [_ H]; [apply Examples.machine_disk; by repeat constructor|apply le_n|]. destruct H as (h & E & _); [reflexivity|by repeat constructor|]. by exists h.
Defined.
Lemma extended_partition_panics_witness : partition_scan 0 (Examples.machine Examples.mbr2 9) = Err Panic.
Proof.
  apply (extended_partition_panics 0 Examples.hda Examples.mbr2 _ (Entry 0x05 30 4)); [apply Examples.machine_disk; by repeat constructor|reflexivity| |cbn; lia|cbn; lia].
  rewrite Examples.table2. exists [Entry 0x21 8 16], [Entry 0 0 0; Entry 0 0 0]. split; [done|]. split; [by repeat constructor|]. split; [done|]. intros []; done.
Defined.
End BlockSpec.
