(* ===== verification/Intq.v ===== *)
(** * The queue of bytes from interrupts (devices/intq.c, devices/input.c)

    A ring of 64 bytes that interrupt handlers and threads share.  Every
    function runs with interrupts off, so it can be interleaved with others only
    where it sleeps: in [lock_acquire], in [wait] and, since [lock_release] may
    yield, after that.  A thread in the loop of [intq_getc] or [intq_putc] is at
    one of these places, its [pc].  The lock is its holder, as the theorems on
    locks justify.  The functions take the caller: a thread or, with [None], an
    interrupt handler. *)

From S2P Require Import Prelude.

Module Intq.

Definition INTQ_BUFSIZE : Z := 64.

Inductive op := Getc | Putc (byte : Z).
#[global] Instance op_eq_dec : EqDecision op.
Proof. solve_decision. Defined.

(** Where a thread is: before the test of the loop, in [lock_acquire], asleep
    in [wait], or back from it. *)
Inductive pc := At_test (o : op) | At_lock (o : op) | Asleep (o : op) | Awake (o : op).
#[global] Instance pc_eq_dec : EqDecision pc.
Proof. solve_decision. Defined.

Record intq := Intq { lock : option nat; not_full : option nat; not_empty : option nat; buf : list Z; head : Z; tail : Z }.
(** The queue, the threads that are in one of its functions, and the bytes
    that were put and got so far. *)
Record system := System { q : intq; threads : gmap nat pc; entered : list Z; taken : list Z }.
Abbreviation Q := (M system).

Definition set_q (x : intq) (s : system) : system := System x (threads s) (entered s) (taken s).
Definition set_thread (t : nat) (p : option pc) (s : system) : system := System (q s) (partial_alter (λ _, p) t (threads s)) (entered s) (taken s).
Definition set_lock (h : option nat) (x : intq) : intq := Intq h (not_full x) (not_empty x) (buf x) (head x) (tail x).

Definition intq_init (x : intq) : intq := Intq None None None (buf x) 0 0.

Definition next (pos : Z) : Z := (pos + 1) mod INTQ_BUFSIZE.
Definition intq_empty (x : intq) : bool := bool_decide (head x = tail x).
Definition intq_full (x : intq) : bool := bool_decide (next (head x) = tail x).

(** [&q->not_empty] and [&q->not_full], and the one that an operation waits
    for. *)
Inductive side := Not_empty | Not_full.
#[global] Instance side_eq_dec : EqDecision side.
Proof. solve_decision. Defined.
Definition side_of (o : op) : side := match o with Getc => Not_empty | Putc _ => Not_full end.

Definition waiter (w : side) (x : intq) : option nat := match w with Not_empty => not_empty x | Not_full => not_full x end.
Definition set_waiter (w : side) (t : option nat) (x : intq) : intq :=
  match w with
  | Not_empty => Intq (lock x) (not_full x) t (buf x) (head x) (tail x)
  | Not_full => Intq (lock x) t (not_empty x) (buf x) (head x) (tail x)
  end.
(** The condition does not hold. *)
Definition blocked (w : side) (x : intq) : bool := match w with Not_empty => intq_empty x | Not_full => intq_full x end.

Definition wait (o : op) (t : nat) : Q unit :=
  s ← get;
  ASSERT (blocked (side_of o) (q s));;
  modify (set_q (set_waiter (side_of o) (Some t) (q s)));; modify (set_thread t (Some (Asleep o))).

(** [thread_unblock] asserts that the thread sleeps. *)
Definition thread_unblock (t : nat) : Q unit :=
  s ← get;
  match threads s !! t with
  | Some (Asleep o) => modify (set_thread t (Some (Awake o)))
  | _ => PANIC
  end.
Definition signal (w : side) : Q unit :=
  s ← get;
  ASSERT (negb (blocked w (q s)));;
  match waiter w (q s) with
  | Some t => thread_unblock t;; modify (λ s, set_q (set_waiter w None (q s)) s)
  | None => mret ()
  end.

(** After the loops. *)
Definition intq_getc_tail : Q unit :=
  s ← get; let x := q s in
  byte ← lift (buf x !! Z.to_nat (tail x)) Undef;
  put (System (Intq (lock x) (not_full x) (not_empty x) (buf x) (head x) (next (tail x))) (threads s) (entered s) (taken s ++ [byte]));;
  signal Not_full.
Definition intq_putc_tail (byte : Z) : Q unit :=
  s ← get; let x := q s in
  lift (buf x !! Z.to_nat (head x)) Undef;;
  put (System (Intq (lock x) (not_full x) (not_empty x) (<[Z.to_nat (head x) := byte]> (buf x)) (next (head x)) (tail x)) (threads s) (entered s ++ [byte]) (taken s));;
  signal Not_empty.
Definition tail_of (o : op) : Q unit := match o with Getc => intq_getc_tail | Putc byte => intq_putc_tail byte end.

(** [lock_acquire], and [wait] when it has returned. *)
Definition acquire_wait (o : op) (t : nat) : Q unit :=
  s ← get;
  match lock (q s) with
  | Some h => ASSERT (bool_decide (h ≠ t));; modify (set_thread t (Some (At_lock o)))
  | None => modify (set_q (set_lock (Some t) (q s)));; wait o t
  end.
(** [intq_getc] and [intq_putc] from the test of the loop on. *)
Definition loop (o : op) (caller : option nat) : Q unit :=
  s ← get;
  if blocked (side_of o) (q s) then
    match caller with
    | None => PANIC
    | Some t => acquire_wait o t
    end
  else
    (match caller with None => mret () | Some t => modify (set_thread t None) end);; tail_of o.
Definition intq_getc (caller : option nat) : Q unit := loop Getc caller.
Definition intq_putc (byte : Z) (caller : option nat) : Q unit := loop (Putc byte) caller.

(** [lock_release]: the caller holds the lock. *)
Definition lock_release (t : nat) : Q unit :=
  s ← get; ASSERT (bool_decide (lock (q s) = Some t));; modify (set_q (set_lock None (q s))).

(** A thread in a function of the queue goes on. *)
Definition go_on (t : nat) : Q unit :=
  s ← get;
  match threads s !! t with
  | Some (At_test o) => loop o (Some t)
  | Some (At_lock o) => acquire_wait o t
  | Some (Awake o) => lock_release t;; modify (set_thread t (Some (At_test o)))
  | Some (Asleep _) | None => mret ()
  end.

(** ** Keys (input.c) *)

Definition input_putc (key : Z) : Q unit := s ← get; ASSERT (negb (intq_full (q s)));; intq_putc key None.
Definition input_getc (t : nat) : Q unit := intq_getc (Some t).
Definition input_full : Q bool := gets (λ s, intq_full (q s)).

(** ** Histories *)

Inductive event :=
  | Call (o : op) (t : nat)    (** a thread calls [intq_getc] or [intq_putc] *)
  | Intr (o : op)              (** an interrupt handler does *)
  | Key (key : Z)              (** the handler of the keyboard calls [input_putc] if [input_full] is false *)
  | Run (t : nat).             (** a thread that is in a function goes on *)

Definition step (e : event) : Q unit :=
  match e with
  | Call o t => s ← get; match threads s !! t with None => loop o (Some t) | Some _ => mret () end
  | Intr o => loop o None
  | Key key => f ← input_full; if (f : bool) then mret () else input_putc key
  | Run t => go_on t
  end.
Fixpoint run (es : list event) : Q unit := match es with [] => mret () | e :: es => step e;; run es end.

Definition boot : system := System (intq_init (Intq None None None (replicate 64 0) 0 0)) ∅ [] [].

(** ** The invariant *)

(** The bytes between [tail] and [head]. *)
Definition contents (x : intq) : list Z := (λ i, default 0 (buf x !! Z.to_nat ((tail x + i) mod INTQ_BUFSIZE))) <$> seqZ 0 ((head x - tail x) mod INTQ_BUFSIZE).
Definition holds (p : option pc) : bool := match p with Some (Asleep _ | Awake _) => true | _ => false end.
Record ring_ok (x : intq) : Prop := Ring_ok { ring_len : length (buf x) = 64%nat; ring_head : 0 ≤ head x < 64; ring_tail : 0 ≤ tail x < 64 }.
(** The invariant, where the sleepers of side [w] may be about to be woken. *)
Record inv_but (w : option side) (s : system) : Prop := Inv {
  inv_ring : ring_ok (q s);
  inv_bytes : entered s = taken s ++ contents (q s);
  inv_sleep : ∀ t o, threads s !! t = Some (Asleep o) → waiter (side_of o) (q s) = Some t ∧ (w ≠ Some (side_of o) → blocked (side_of o) (q s) = true);
  inv_waiter : ∀ t v, waiter v (q s) = Some t → ∃ o, threads s !! t = Some (Asleep o) ∧ side_of o = v;
  inv_lock : ∀ t, holds (threads s !! t) = true ↔ lock (q s) = Some t
}.
Abbreviation inv := (inv_but None).

Lemma empty_contents x : ring_ok x → intq_empty x = true ↔ contents x = [].
Proof.
  intros [Hl Hh Ht]. unfold intq_empty, contents, INTQ_BUFSIZE. rewrite bool_decide_eq_true. split.
  - intros ->. by rewrite Z.sub_diag.
  - intros E. apply fmap_nil_inv in E. apply (f_equal length) in E. rewrite length_seqZ in E. cbn in E. Z.to_euclidean_division_equations. lia.
Qed.
Lemma full_contents x : ring_ok x → (length (contents x) ≤ 63)%nat ∧ (intq_full x = true ↔ length (contents x) = 63%nat).
Proof.
  intros [Hl Hh Ht]. unfold intq_full, contents, next, INTQ_BUFSIZE. rewrite bool_decide_eq_true, length_fmap, length_seqZ. Z.to_euclidean_division_equations. lia.
Qed.

(** Taking and adding a byte. *)
Lemma contents_get x : ring_ok x → intq_empty x = false →
  ∃ b, buf x !! Z.to_nat (tail x) = Some b ∧ let x' := Intq (lock x) (not_full x) (not_empty x) (buf x) (head x) (next (tail x)) in
    ring_ok x' ∧ contents x = b :: contents x' ∧ intq_full x' = false.
Proof.
  intros [Hl Hh Ht] He. apply bool_decide_eq_false in He. destruct (lookup_lt_is_Some_2 (buf x) (Z.to_nat (tail x))) as [b Hb]; [lia|].
  exists b. split; [done|]. unfold next, INTQ_BUFSIZE. split; [split; [done..|cbn; apply Z.mod_pos_bound; lia]|]. split.
  - unfold contents, INTQ_BUFSIZE. cbn [head tail buf]. assert (0 < (head x - tail x) mod 64) by (Z.to_euclidean_division_equations; lia).
    rewrite seqZ_cons by lia. cbn [fmap list_fmap]. rewrite Z.add_0_r, Z.mod_small by lia. rewrite Hb. cbn. f_equal.
    replace (Z.pred ((head x - tail x) mod 64)) with ((head x - (tail x + 1) mod 64) mod 64) by (Z.to_euclidean_division_equations; lia).
    rewrite <- (fmap_add_seqZ 1 0), <- list_fmap_compose. apply list_fmap_ext. intros _ i _. cbn. do 3 f_equal. Z.to_euclidean_division_equations. lia.
  - apply bool_decide_eq_false. cbn. unfold next, INTQ_BUFSIZE. Z.to_euclidean_division_equations. lia.
Qed.
Lemma contents_put x b : ring_ok x → intq_full x = false →
  is_Some (buf x !! Z.to_nat (head x)) ∧ let x' := Intq (lock x) (not_full x) (not_empty x) (<[Z.to_nat (head x) := b]> (buf x)) (next (head x)) (tail x) in
    ring_ok x' ∧ contents x' = contents x ++ [b] ∧ intq_empty x' = false.
Proof.
  intros [Hl Hh Ht] Hf. apply bool_decide_eq_false in Hf. unfold next, INTQ_BUFSIZE in *. split; [apply lookup_lt_is_Some_2; lia|].
  split; [split; [by cbn; rewrite length_insert|cbn; apply Z.mod_pos_bound; lia|done]|]. split.
  - unfold contents, INTQ_BUFSIZE. cbn [head tail buf].
    replace (((head x + 1) mod 64 - tail x) mod 64) with ((head x - tail x) mod 64 + 1) by (Z.to_euclidean_division_equations; lia).
    rewrite seqZ_app by (apply Z.mod_pos_bound || done; lia). rewrite fmap_app. f_equal.
    + apply list_fmap_ext. intros k i Hi. apply list_elem_of_lookup_2, elem_of_seqZ in Hi. rewrite list_lookup_insert_ne; [done|]. Z.to_euclidean_division_equations. lia.
    + rewrite Z.add_0_l. rewrite seqZ_cons by lia. cbn [fmap list_fmap]. replace ((tail x + ((head x - tail x) mod 64)) mod 64) with (head x) by (Z.to_euclidean_division_equations; lia). rewrite list_lookup_insert_eq by lia. done.
  - apply bool_decide_eq_false. cbn. Z.to_euclidean_division_equations. lia.
Qed.

(** ** Steps *)

Lemma threads_set s t p t' : threads (set_thread t p s) !! t' = if decide (t = t') then p else threads s !! t'.
Proof. cbn. case_decide; subst; [by rewrite lookup_partial_alter_eq|by rewrite lookup_partial_alter_ne]. Qed.


(** The threads change only by waking up, but for the caller [c], which goes to
    [lock_acquire] only if another thread has the lock. *)
Definition evolves (c : option nat) (s s' : system) : Prop := ∀ t p, threads s' !! t = Some p →
  (∃ p0, threads s !! t = Some p0 ∧ (p = p0 ∨ ∃ o, p = Awake o)) ∨ c = Some t ∧ ((∀ o, p ≠ At_lock o) ∨ ∃ h, lock (q s) = Some h ∧ h ≠ t).
Lemma evolves_refl c s : evolves c s s.
Proof. intros t p Ht. left. exists p. eauto. Qed.

Lemma inv_set_free s t p w : inv_but w s → holds (threads s !! t) = false → holds p = false → inv_but w (set_thread t p s).
Proof.
  intros [H1 H2 H3 H4 H5] Ht Hp. split; [exact H1|exact H2| | |].
  - intros t' o. rewrite threads_set. case_decide; [by intros ->|apply H3].
  - intros t' v Hw. destruct (H4 t' v Hw) as (o & Ho & Hv). exists o. split; [|done]. rewrite threads_set. case_decide; [|done]. subst. by rewrite Ho in Ht.
  - intros t'. rewrite threads_set. case_decide; [subst|apply H5]. rewrite Hp. rewrite <- (H5 t'), Ht. done.
Qed.

Lemma signal_run w s : inv_but (Some w) s → blocked w (q s) = false →
  ∃ s', signal w s = Ok ((), s') ∧ inv s' ∧ evolves None s s'.
Proof.
  intros [H1 H2 H3 H4 H5] Hb. unfold signal. rewrite (bind_Ok get _ s s s eq_refl), Hb. rewrite (bind_Ok _ _ s () s) by done.
  destruct (waiter w (q s)) as [t|] eqn:Ew.
  - destruct (H4 t w Ew) as (o & Ho & Hv). subst w. rewrite (bind_Ok _ _ s () (set_thread t (Some (Awake o)) s)).
    2:{ unfold thread_unblock, get, mbind, M_bind. by rewrite Ho. }
    eexists. split; [done|]. split.
    + split; [destruct H1; by destruct (side_of o)|transitivity (taken s ++ contents (q s)); [exact H2|by destruct (side_of o)]| | |].
      * intros t' o'. cbn [threads set_q]. rewrite threads_set. case_decide; [done|]. intros Ht'. destruct (H3 t' o' Ht') as [Hw' Hb'].
        assert (side_of o' ≠ side_of o) as Hne by (intros E; rewrite E, Ew in Hw'; by simplify_eq). cbn [q set_thread set_q].
        split; [by destruct (side_of o), (side_of o')|]. intros _. rewrite <- Hb' by congruence. by destruct (side_of o), (side_of o').
      * intros t' v Hw'. cbn [q set_thread set_q] in Hw'. assert (v ≠ side_of o ∧ waiter v (q s) = Some t') as [Hne Hw] by (by destruct (side_of o), v).
        destruct (H4 t' v Hw) as (o' & Ho' & Hv'). exists o'. split; [|done]. cbn [threads set_q]. rewrite threads_set. case_decide; [subst; congruence|done].
      * intros t'. cbn [threads q set_thread set_q]. replace (lock (set_waiter (side_of o) None (q s))) with (lock (q s)) by (by destruct (side_of o)).
        rewrite <- (H5 t'). pose proof (threads_set s t (Some (Awake o)) t') as E. cbn in E. rewrite E. case_decide; [subst; by rewrite Ho|done].
    + intros t' p Hp. cbn [threads set_q] in Hp. rewrite threads_set in Hp. left. case_decide; [simplify_eq; exists (Asleep o); eauto|exists p; eauto].
  - exists s. split; [done|]. split; [|apply evolves_refl]. split; [done..| |done|done]. intros t o Ho. destruct (H3 t o Ho) as [Hw Hb']. split; [done|].
    intros _. apply Hb'. congruence.
Qed.

Lemma signal_from w s0 s : threads s0 = threads s → lock (q s0) = lock (q s) → blocked w (q s) = false → inv_but (Some w) s →
  ∃ s', signal w s = Ok ((), s') ∧ inv s' ∧ evolves None s0 s'.
Proof. intros Ht Hl Hb Hi. destruct (signal_run w s Hi Hb) as (s' & E & Hi' & He). exists s'. split; [done|]. split; [done|]. unfold evolves in *. rewrite Ht. intros t p Hp. destruct (He t p Hp) as [?|[? _]]; [by left|done]. Qed.

Lemma tail_run o s : inv s → blocked (side_of o) (q s) = false → ∃ s', tail_of o s = Ok ((), s') ∧ inv s' ∧ evolves None s s'.
Proof.
  intros [H1 H2 H3 H4 H5] Hb. destruct o as [|byte]; cbn [tail_of side_of blocked] in *.
  - destruct (contents_get (q s) H1 Hb) as (b & Eb & Hr & Hc & Hf). unfold intq_getc_tail. rewrite (bind_Ok get _ s s s eq_refl). cbv zeta.
    rewrite (bind_Ok _ _ s b s) by (unfold lift; by rewrite Eb). erewrite (bind_Ok (put _)) by reflexivity. apply signal_from; [done..|exact Hf|].
    split; [done| | |done|done]; cbn [entered taken q threads]; [by rewrite H2, Hc, <- app_assoc|]. intros t [|b'] Ho; destruct (H3 t _ Ho) as [Hw Hb']; [|done].
    cbn in Hb'. rewrite Hb in Hb'. by discriminate Hb'.
  - destruct (contents_put (q s) byte H1 Hb) as ([b Eb] & Hr & Hc & Hf). unfold intq_putc_tail. rewrite (bind_Ok get _ s s s eq_refl). cbv zeta.
    rewrite (bind_Ok _ _ s b s) by (unfold lift; by rewrite Eb). erewrite (bind_Ok (put _)) by reflexivity. apply signal_from; [done..|exact Hf|].
    split; [done| | |done|done]; cbn [entered taken q threads]; [by rewrite H2, Hc, <- app_assoc|]. intros t [|b'] Ho; destruct (H3 t _ Ho) as [Hw Hb']; [done|].
    cbn in Hb'. rewrite Hb in Hb'. by discriminate Hb'.
Qed.

(** [wait] with the lock just taken. *)
Lemma wait_run o t s : inv s → lock (q s) = None → holds (threads s !! t) = false →
  let s1 := set_q (set_lock (Some t) (q s)) s in
  if blocked (side_of o) (q s) then ∃ s', wait o t s1 = Ok ((), s') ∧ inv s' ∧ evolves (Some t) s s' else wait o t s1 = Err Panic.
Proof.
  intros Hi Hl Hf s1. destruct Hi as [H1 H2 H3 H4 H5]. assert (∀ t', holds (threads s !! t') = false) as Hnone.
  { intros t'. destruct (holds (threads s !! t')) eqn:E; [|done]. apply H5 in E. congruence. }
  assert (∀ v, waiter v (q s) = None) as Hw.
  { intros v. destruct (waiter v (q s)) as [t'|] eqn:E; [|done]. destruct (H4 t' v E) as (o' & Ho & _). specialize (Hnone t'). by rewrite Ho in Hnone. }
  unfold wait. rewrite (bind_Ok get _ s1 s1 s1 eq_refl). replace (blocked (side_of o) (q s1)) with (blocked (side_of o) (q s)) by (by destruct (side_of o)).
  destruct (blocked (side_of o) (q s)) eqn:Eb; [|done]. rewrite (bind_Ok _ _ s1 () s1) by done. eexists. split; [done|]. split.
  - split.
    + destruct H1. by destruct (side_of o).
    + transitivity (taken s ++ contents (q s)); [exact H2|by destruct (side_of o)].
    + intros t' o'. rewrite threads_set. case_decide as Et.
      * intros [= <-]. subst t'. cbn [q set_thread set_q s1]. split; [by destruct (side_of o)|]. intros _. rewrite <- Eb. by destruct (side_of o).
      * intros Ho. specialize (Hnone t'). cbn [s1 threads set_q] in Ho. by rewrite Ho in Hnone.
    + intros t' v Hv. cbn [q set_thread set_q s1] in Hv. assert (v = side_of o ∧ t' = t) as [-> ->].
      { pose proof (Hw v) as E. destruct v, (side_of o); cbn in E, Hv; simplify_eq; try done; congruence. }
      exists o. split; [|done]. rewrite threads_set. by rewrite decide_True.
    + intros t'. rewrite threads_set. cbn [q set_thread set_q s1 threads]. replace (lock (set_waiter (side_of o) (Some t) (set_lock (Some t) (q s)))) with (Some t) by (by destruct (side_of o)).
      case_decide; [by subst|]. rewrite Hnone. split; [done|congruence].
  - intros t' p Hp. rewrite threads_set in Hp. case_decide; [right; subst; simplify_eq; by split; [|left]|left; exists p; eauto].
Qed.

Lemma acquire_run o t s : inv s → holds (threads s !! t) = false →
  if decide (lock (q s) = None ∧ blocked (side_of o) (q s) = false) then acquire_wait o t s = Err Panic
  else ∃ s', acquire_wait o t s = Ok ((), s') ∧ inv s' ∧ evolves (Some t) s s'.
Proof.
  intros Hi Hf. unfold acquire_wait. rewrite (bind_Ok get _ s s s eq_refl). destruct (lock (q s)) as [h|] eqn:El.
  - rewrite decide_False by (by intros [? _]). assert (h ≠ t) as Hne by (intros ->; rewrite <- (inv_lock _ s Hi t) in El; congruence).
    rewrite bool_decide_eq_true_2 by done. rewrite (bind_Ok _ _ s () s) by done. eexists. split; [done|]. split; [by apply inv_set_free|].
    intros t' p Hp. rewrite threads_set in Hp. case_decide; [right; subst; split; [done|]; right; by exists h|left; exists p; eauto].
  - pose proof (wait_run o t s Hi El Hf) as Hw. cbn zeta in Hw. erewrite (bind_Ok (modify _)) by reflexivity.
    destruct (blocked (side_of o) (q s)); [rewrite decide_False by (by intros [_ ?])|rewrite decide_True by done]; exact Hw.
Qed.

Lemma loop_run o c s : inv s → (∀ t, c = Some t → holds (threads s !! t) = false) →
  if decide (c = None ∧ blocked (side_of o) (q s) = true) then loop o c s = Err Panic
  else ∃ s', loop o c s = Ok ((), s') ∧ inv s' ∧ evolves c s s'.
Proof.
  intros Hi Hc. unfold loop. rewrite (bind_Ok get _ s s s eq_refl). destruct (blocked (side_of o) (q s)) eqn:Eb.
  - destruct c as [t|]; [|by rewrite decide_True]. rewrite decide_False by (by intros [? _]). pose proof (acquire_run o t s Hi (Hc t eq_refl)) as H.
    rewrite Eb, decide_False in H by (by intros [_ ?]). exact H.
  - rewrite decide_False by (by intros [_ ?]). destruct c as [t|].
    + erewrite (bind_Ok (modify _)) by reflexivity. set (s1 := set_thread t None s). assert (inv s1) as Hi1 by (apply inv_set_free; [done|by apply Hc|done]).
      destruct (tail_run o s1 Hi1 Eb) as (s' & E & Hi' & He). exists s'. split; [done|]. split; [done|]. intros t' p Hp.
      destruct (He t' p Hp) as [(p0 & Hp0 & H)|[? _]]; [|done]. unfold s1 in Hp0. rewrite threads_set in Hp0. case_decide; [done|]. left. by exists p0.
    + rewrite (bind_Ok _ _ s () s) by done. by apply tail_run.
Qed.

Lemma release_inv o t s : inv s → threads s !! t = Some (Awake o) → lock (q s) = Some t →
  inv (set_thread t (Some (At_test o)) (set_q (set_lock None (q s)) s)).
Proof.
  intros [H1 H2 H3 H4 H5] Et El. split; [by destruct H1|exact H2| | |].
  - intros t' o'. rewrite threads_set. case_decide; [done|]. intros Ht. assert (lock (q s) = Some t') by (apply H5; cbn in Ht; by rewrite Ht). congruence.
  - intros t' v Hw. assert (waiter v (q s) = Some t') as Hw' by (by destruct v). destruct (H4 t' v Hw') as (o' & Ho & _).
    assert (lock (q s) = Some t') by (apply H5; by rewrite Ho). congruence.
  - intros t'. rewrite threads_set. cbn [q set_thread set_q threads set_lock lock]. case_decide; [done|]. rewrite (H5 t'), El. split; [congruence|done].
Qed.

(** A step goes well, or an assertion fails: for a handler that would have to
    wait, or for a thread that gets the lock and has nothing to wait for. *)
Definition stops (e : event) (s : system) : Prop :=
  match e with
  | Intr o => blocked (side_of o) (q s) = true
  | Run t => ∃ o, threads s !! t = Some (At_lock o) ∧ lock (q s) = None ∧ blocked (side_of o) (q s) = false
  | _ => False
  end.
Definition caller_of (e : event) : option nat := match e with Call _ t | Run t => Some t | _ => None end.

Lemma step_run e s : inv s → (step e s = Err Panic ∧ stops e s) ∨ ∃ s', step e s = Ok ((), s') ∧ inv s' ∧ evolves (caller_of e) s s'.
Proof.
  intros Hi. destruct e as [o t|o|key|t]; cbn [step caller_of stops].
  - right. rewrite (bind_Ok get _ s s s eq_refl). destruct (threads s !! t) eqn:Et; [exists s; split; [done|]; split; [done|apply evolves_refl]|].
    pose proof (loop_run o (Some t) s Hi) as H. rewrite decide_False in H by (by intros [? _]). apply H. intros ? [= <-]. by rewrite Et.
  - pose proof (loop_run o None s Hi ltac:(done)) as H. case_decide as Hd; [left; by destruct Hd|by right].
  - right. rewrite (bind_Ok _ _ s (intq_full (q s)) s) by done. destruct (intq_full (q s)) eqn:Ef; [exists s; split; [done|]; split; [done|apply evolves_refl]|].
    unfold input_putc. rewrite (bind_Ok get _ s s s eq_refl), Ef. rewrite (bind_Ok _ _ s () s) by done.
    pose proof (loop_run (Putc key) None s Hi ltac:(done)) as H. rewrite decide_False in H; [exact H|]. cbn. intros [_ ?]. congruence.
  - unfold go_on. rewrite (bind_Ok get _ s s s eq_refl). destruct (threads s !! t) as [[o|o|o|o]|] eqn:Et.
    + right. pose proof (loop_run o (Some t) s Hi) as H. rewrite decide_False in H by (by intros [? _]). apply H. intros ? [= <-]. by rewrite Et.
    + pose proof (acquire_run o t s Hi) as H. rewrite Et in H. specialize (H eq_refl). case_decide as Hd; [left; split; [done|]; exists o; tauto|by right].
    + right. exists s. split; [done|]. split; [done|apply evolves_refl].
    + right. pose proof (proj1 (inv_lock _ s Hi t) ltac:(by rewrite Et)) as El. unfold lock_release.
      erewrite bind_Ok by (rewrite (bind_Ok get _ s s s eq_refl), bool_decide_eq_true_2 by done; by rewrite (bind_Ok _ _ s () s) by done).
      eexists. split; [done|]. split; [by apply release_inv|]. intros t' p Hp. rewrite threads_set in Hp.
      case_decide; [right; subst; split; [done|]; left; by simplify_eq|left; exists p; eauto].
    + right. exists s. split; [done|]. split; [done|apply evolves_refl].
Qed.

(** ** Histories: theorems *)

Lemma boot_inv : inv boot.
Proof. split; [by split|reflexivity|intros t o H; done|intros t [] H; done|intros t; split; done]. Qed.

Lemma run_run es s : inv s →
  (∃ s', run es s = Ok ((), s') ∧ inv s') ∨
  ∃ es1 e es2 s1, es = es1 ++ e :: es2 ∧ run es1 s = Ok ((), s1) ∧ inv s1 ∧ stops e s1 ∧ run es s = Err Panic.
Proof.
  revert s. induction es as [|e es IH]; intros s Hi; [left; by exists s|]. cbn [run]. destruct (step_run e s Hi) as [[E Hs]|(s1 & E & Hi1 & _)].
  - right. exists [], e, es, s. split; [done|]. split; [done|]. split; [done|]. split; [done|]. by apply bind_Err.
  - rewrite (bind_Ok _ _ _ _ _ E). destruct (IH s1 Hi1) as [H|(es1 & e' & es2 & s2 & -> & E1 & H)]; [by left|right].
    exists (e :: es1), e', es2, s2. split; [done|]. split; [|done]. cbn [run]. by rewrite (bind_Ok _ _ _ _ _ E).
Qed.

(** One thread only, and handlers that look before they put. *)
Definition by_one (t0 : nat) (e : event) : Prop := match e with Call _ t => t = t0 | Intr _ => False | Key _ | Run _ => True end.
Definition alone (t0 : nat) (s : system) : Prop := ∀ t p, threads s !! t = Some p → t = t0 ∧ ∀ o, p ≠ At_lock o.

Lemma alone_step t0 e s s' : inv s → alone t0 s → by_one t0 e → step e s = Ok ((), s') → evolves (caller_of e) s s' → alone t0 s'.
Proof.
  intros Hi Ha He Es Hev t p Hp. destruct (Hev t p Hp) as [(p0 & H0 & [->|[o ->]])|[Hc Hl]].
  - by apply Ha.
  - by split; [eapply Ha|].
  - assert (t = t0) as ->.
    { destruct e as [o t'|o|k|t']; cbn in Hc, He; simplify_eq; [done|]. destruct (threads s !! t) as [p0|] eqn:Et; [by eapply Ha|].
      cbn [step] in Es. unfold go_on in Es. rewrite (bind_Ok get _ s s s eq_refl), Et in Es. injection Es as <-. congruence. }
    split; [done|]. destruct Hl as [Hl|(h & Hh & Hne)]; [done|]. apply (inv_lock _ s Hi) in Hh. destruct (threads s !! h) as [ph|] eqn:Eh; [|done].
    by destruct Hne; eapply Ha.
Qed.
Lemma run_alone t0 es s : Forall (by_one t0) es → inv s → alone t0 s → ∃ s', run es s = Ok ((), s').
Proof.
  intros Hes. revert s. induction Hes as [|e es He Hes IH]; intros s Hi Ha; [by exists s|]. cbn [run].
  destruct (step_run e s Hi) as [[_ Hs]|(s1 & E & Hi1 & Hev)].
  - destruct e as [o t'|o|k|t']; cbn in Hs, He; try done. destruct Hs as (o & Ho & _). by destruct (proj2 (Ha _ _ Ho) o).
  - rewrite (bind_Ok _ _ _ _ _ E). apply IH; [done|]. by apply (alone_step t0 e s).
Qed.

(** C30: whatever threads and interrupt handlers do, the queue is a first-in
    first-out queue of at most 63 bytes: what was put is what was taken followed
    by what is in the ring.  No wake-up is lost: a thread that sleeps for a byte
    sleeps on an empty queue, one that sleeps for room on a full one.  A history
    stops at an assertion only where a handler would have to wait or a thread
    comes to [wait] when there is nothing to wait for any more, and never when
    one thread reads the keys. *)
Theorem intq_fifo es :
  match run es boot with
  | Ok (_, s) => entered s = taken s ++ contents (q s) ∧ (length (contents (q s)) ≤ 63)%nat ∧
      (∀ t, threads s !! t = Some (Asleep Getc) → contents (q s) = []) ∧ (∀ t b, threads s !! t = Some (Asleep (Putc b)) → length (contents (q s)) = 63%nat)
  | Err f => f = Panic ∧ (∃ es1 e es2 s, es = es1 ++ e :: es2 ∧ run es1 boot = Ok ((), s) ∧ stops e s) ∧ ∀ t, ¬ Forall (by_one t) es
  end.
Proof.
  destruct (run_run es boot boot_inv) as [(s & -> & Hi)|(es1 & e & es2 & s & Ees & E1 & Hi & Hs & E)].
  - pose proof (inv_ring _ s Hi) as Hr. destruct (full_contents _ Hr) as [Hle Hfull]. split; [apply Hi|]. split; [done|].
    split; [intros t Ht; apply empty_contents; [done|]|intros t b Ht; apply Hfull]; by apply (inv_sleep _ s Hi t _ Ht).
  - rewrite E. split; [done|]. split; [by exists es1, e, es2, s|]. intros t Ht. destruct (run_alone t es boot Ht boot_inv) as (s' & E'); [done|]. congruence.
Qed.

(** Two threads that wait for keys stop the kernel.  The second waits for
    the lock; the first, when it is woken, releases the lock before it takes
    its byte.  If the second runs then, or if another key has come in the
    meantime, it enters [wait] with a byte in the queue, and the assertion that
    the queue is empty fails. *)
Theorem two_readers_panic k1 k2 : 
  run [Call Getc 1; Call Getc 2; Key k1; Run 1; Run 2] boot = Err Panic ∧
  run [Call Getc 1; Call Getc 2; Key k1; Key k2; Run 1; Run 1; Run 2] boot = Err Panic.
Proof. split; reflexivity. Qed.

End Intq.
