(* ===== verification/UserSync.v ===== *)
(** * Locks and semaphores of user programs (userprog/syscall.c)

    The tables of a process that give its locks and semaphores, by the
    addresses that the program uses for them, and the system calls on them.  The
    tables are read and extended under readers-writers locks, so a search with
    what follows it is one step; taking a lock or a semaphore, for which a thread
    may have to sleep, is another one.  A thread is the address of its TCB.  The
    locks and semaphores of synch.c are translated in [Synch]; here they are
    contracts, that of a lock being its holder and that of a semaphore its
    value: [lock_acquire], [lock_release], [sema_down] and [sema_up] below are
    these contracts, and leave priorities, donation and its panic aside.  The heap is the number of elements that [malloc] can still
    give. *)

From S2P Require Import Prelude.

Module UserSync.

Record registered_lock := RLock { lid : Z; holder : option nat }.
Record registered_sema := RSema { sid : Z; value : Z }.

(** What a thread is about to do after the search of the table: it is in
    [lock_acquire] or in [sema_down], with the element that was found. *)
Inductive pending := In_acquire (lock : Z) | In_down (sema : Z).

(** What has happened, for the theorems: each return of a handler. *)
Inductive entry :=
  | Lock_inited (lock : Z) | Lock_taken (t : nat) (lock : Z) | Lock_given (t : nat) (lock : Z)
  | Sema_inited (sema v : Z) | Sema_downed (sema : Z) | Sema_upped (sema : Z)
  | Lock_init_refused (lock : Z) | Acquire_refused (t : nat) (lock : Z) | Release_refused (t : nat) (lock : Z)
  | Sema_init_refused (sema v : Z) | Down_refused (sema : Z) | Up_refused (sema : Z)
  | No_memory.

Record process := Process { locks_tab : list registered_lock; semas_tab : list registered_sema; threads : gset nat; calls : gmap nat pending; heap : nat; log : list entry }.
Abbreviation P := (M process).

Definition set_locks (l : list registered_lock) (p : process) : process := Process l (semas_tab p) (threads p) (calls p) (heap p) (log p).
Definition set_semas (l : list registered_sema) (p : process) : process := Process (locks_tab p) l (threads p) (calls p) (heap p) (log p).
Definition set_threads (l : gset nat) (p : process) : process := Process (locks_tab p) (semas_tab p) l (calls p) (heap p) (log p).
Definition set_calls (l : gmap nat pending) (p : process) : process := Process (locks_tab p) (semas_tab p) (threads p) l (heap p) (log p).
Definition set_heap (n : nat) (p : process) : process := Process (locks_tab p) (semas_tab p) (threads p) (calls p) n (log p).
Definition returns (e : entry) : P unit := modify (λ p, Process (locks_tab p) (semas_tab p) (threads p) (calls p) (heap p) (log p ++ [e])).

Definition malloc : P bool :=
  p ← get; match heap p with O => mret false | S n => put (set_heap n p);; mret true end.

(** The loops over the tables. *)
Fixpoint find_lock (lock : Z) (l : list registered_lock) : option registered_lock :=
  match l with [] => None | r :: l => if decide (lid r = lock) then Some r else find_lock lock l end.
Fixpoint find_sema (sema : Z) (l : list registered_sema) : option registered_sema :=
  match l with [] => None | r :: l => if decide (sid r = sema) then Some r else find_sema sema l end.

(** Writing to the element that was found. *)
Fixpoint set_holder (lock : Z) (h : option nat) (l : list registered_lock) : list registered_lock :=
  match l with [] => [] | r :: l => if decide (lid r = lock) then RLock lock h :: l else r :: set_holder lock h l end.
Fixpoint set_value (sema v : Z) (l : list registered_sema) : list registered_sema :=
  match l with [] => [] | r :: l => if decide (sid r = sema) then RSema sema v :: l else r :: set_value sema v l end.

Definition handler_lock_init (lock : Z) : P bool :=
  p ← get;
  match find_lock lock (locks_tab p) with
  | Some _ => returns (Lock_init_refused lock);; mret false
  | None =>
      ok ← malloc;
      if negb ok then returns No_memory;; mret false else
      modify (λ p, set_locks (RLock lock None :: locks_tab p) p);;
      returns (Lock_inited lock);; mret true
  end.

Definition lock_held_by_current_thread (t : nat) (r : registered_lock) : bool := bool_decide (holder r = Some t).

(** The contract of [lock_acquire], as often as the thread is woken up. *)
Definition lock_acquire (t : nat) (lock : Z) : P bool :=
  p ← get;
  r ← lift (find_lock lock (locks_tab p)) Undef;
  ASSERT (negb (lock_held_by_current_thread t r));;
  match holder r with
  | Some _ => mret false
  | None =>
      modify (λ p, set_locks (set_holder lock (Some t) (locks_tab p)) (set_calls (delete t (calls p)) p));;
      returns (Lock_taken t lock);; mret true
  end.
(** Up to the call of [lock_acquire]. *)
Definition handler_lock_acquire (t : nat) (lock : Z) : P unit :=
  p ← get;
  match find_lock lock (locks_tab p) with
  | None => returns (Acquire_refused t lock)
  | Some r =>
      if lock_held_by_current_thread t r then returns (Acquire_refused t lock)
      else modify (set_calls (<[t := In_acquire lock]> (calls p)))
  end.

Definition lock_release (t : nat) (lock : Z) : P unit :=
  p ← get;
  r ← lift (find_lock lock (locks_tab p)) Undef;
  ASSERT (lock_held_by_current_thread t r);;
  modify (set_locks (set_holder lock None (locks_tab p))).
Definition handler_lock_release (t : nat) (lock : Z) : P bool :=
  p ← get;
  match find_lock lock (locks_tab p) with
  | None => returns (Release_refused t lock);; mret false
  | Some r =>
      if negb (lock_held_by_current_thread t r) then returns (Release_refused t lock);; mret false
      else lock_release t lock;; returns (Lock_given t lock);; mret true
  end.

Definition handler_sema_init (sema val : Z) : P bool :=
  if decide (val < 0) then returns (Sema_init_refused sema val);; mret false else
  p ← get;
  match find_sema sema (semas_tab p) with
  | Some _ => returns (Sema_init_refused sema val);; mret false
  | None =>
      ok ← malloc;
      if negb ok then returns No_memory;; mret false else
      modify (λ p, set_semas (RSema sema val :: semas_tab p) p);;
      returns (Sema_inited sema val);; mret true
  end.

(** The contract of [sema_down], as often as the thread is woken up. *)
Definition sema_down (t : nat) (sema : Z) : P bool :=
  p ← get;
  r ← lift (find_sema sema (semas_tab p)) Undef;
  if decide (value r = 0) then mret false else
  modify (λ p, set_semas (set_value sema (value r - 1) (semas_tab p)) (set_calls (delete t (calls p)) p));;
  returns (Sema_downed sema);; mret true.
Definition handler_sema_down (t : nat) (sema : Z) : P unit :=
  p ← get;
  match find_sema sema (semas_tab p) with
  | None => returns (Down_refused sema)
  | Some _ => modify (set_calls (<[t := In_down sema]> (calls p)))
  end.
(** [value] is unsigned. *)
Definition sema_up (sema : Z) : P unit :=
  p ← get;
  r ← lift (find_sema sema (semas_tab p)) Undef;
  modify (set_semas (set_value sema (u32 (value r + 1)) (semas_tab p))).
Definition handler_sema_up (sema : Z) : P bool :=
  p ← get;
  match find_sema sema (semas_tab p) with
  | None => returns (Up_refused sema);; mret false
  | Some _ => sema_up sema;; returns (Sema_upped sema);; mret true
  end.

(** ** Histories *)

Inductive syscall := Lock_init (lock : Z) | Lock_acquire (lock : Z) | Lock_release (lock : Z) | Sema_init (sema v : Z) | Sema_down (sema : Z) | Sema_up (sema : Z).
Inductive event :=
  | Create (t : nat)             (** a thread is created in page [t], which is free *)
  | Call (t : nat) (c : syscall) (** a thread makes a system call *)
  | Run (t : nat)                (** a thread in [lock_acquire] or [sema_down] tries *)
  | Exit (t : nat).              (** a thread calls [pthread_exit], and its page is freed *)

Definition handle (t : nat) (c : syscall) : P unit :=
  match c with
  | Lock_init lock => handler_lock_init lock;; mret ()
  | Lock_acquire lock => handler_lock_acquire t lock
  | Lock_release lock => handler_lock_release t lock;; mret ()
  | Sema_init sema v => handler_sema_init sema v;; mret ()
  | Sema_down sema => handler_sema_down t sema
  | Sema_up sema => handler_sema_up sema;; mret ()
  end.
(** Only a thread that is there and not in a call can make one. *)
Definition idle (t : nat) (p : process) : bool := bool_decide (t ∈ threads p ∧ calls p !! t = None).
Definition step (e : event) : P unit :=
  p ← get;
  match e with
  | Create t => if decide (t ∈ threads p) then mret () else modify (set_threads ({[t]} ∪ threads p))
  | Call t c => if idle t p then handle t c else mret ()
  | Run t => match calls p !! t with Some (In_acquire lock) => lock_acquire t lock;; mret () | Some (In_down sema) => sema_down t sema;; mret () | None => mret () end
  | Exit t => if idle t p then modify (set_threads (threads p ∖ {[t]})) else mret ()
  end.
Fixpoint run (es : list event) : P unit := match es with [] => mret () | e :: es => step e;; run es end.

(** A process without locks, semaphores and threads. *)
Definition start (n : nat) : process := Process [] [] ∅ ∅ n [].

(** ** The specification *)

Record objects := Objects { locks : gmap Z (option nat); semas : gmap Z Z }.
(** What a call may return, and what it does. *)
Definition allowed (e : entry) (o : objects) : option objects :=
  match e with
  | Lock_inited l => if decide (locks o !! l = None) then Some (Objects (<[l := None]> (locks o)) (semas o)) else None
  | Lock_taken t l => if decide (locks o !! l = Some None) then Some (Objects (<[l := Some t]> (locks o)) (semas o)) else None
  | Lock_given t l => if decide (locks o !! l = Some (Some t)) then Some (Objects (<[l := None]> (locks o)) (semas o)) else None
  | Sema_inited s v => if decide (semas o !! s = None ∧ 0 ≤ v) then Some (Objects (locks o) (<[s := v]> (semas o))) else None
  | Sema_downed s => match semas o !! s with Some v => if decide (0 < v) then Some (Objects (locks o) (<[s := v - 1]> (semas o))) else None | None => None end
  | Sema_upped s => match semas o !! s with Some v => Some (Objects (locks o) (<[s := v + 1]> (semas o))) | None => None end
  | Lock_init_refused l => if decide (is_Some (locks o !! l)) then Some o else None
  | Acquire_refused t l => if decide (locks o !! l = None ∨ locks o !! l = Some (Some t)) then Some o else None
  | Release_refused t l => if decide (locks o !! l ≠ Some (Some t)) then Some o else None
  | Sema_init_refused s v => if decide (is_Some (semas o !! s) ∨ v < 0) then Some o else None
  | Down_refused s | Up_refused s => if decide (semas o !! s = None) then Some o else None
  | No_memory => Some o
  end.
Fixpoint allowed_all (es : list entry) (o : objects) : option objects := match es with [] => Some o | e :: es => o ← allowed e o; allowed_all es o end.

(** ** The tables *)

Lemma find_set_holder l h tab l' : find_lock l' (set_holder l h tab) = if decide (l' = l) then (λ _, RLock l h) <$> find_lock l tab else find_lock l' tab.
Proof.
  induction tab as [|r tab IH]; cbn [find_lock set_holder]; [by case_decide|]. destruct (decide (lid r = l)) as [E|E]; cbn [find_lock lid].
  - destruct (decide (l' = l)) as [->|H]; [by rewrite decide_True|]. rewrite !decide_False by congruence. done.
  - rewrite IH. destruct (decide (l' = l)) as [->|H]; [by rewrite decide_False|done].
Qed.
Lemma find_set_value s v tab s' : find_sema s' (set_value s v tab) = if decide (s' = s) then (λ _, RSema s v) <$> find_sema s tab else find_sema s' tab.
Proof.
  induction tab as [|r tab IH]; cbn [find_sema set_value]; [by case_decide|]. destruct (decide (sid r = s)) as [E|E]; cbn [find_sema sid].
  - destruct (decide (s' = s)) as [->|H]; [by rewrite decide_True|]. rewrite !decide_False by congruence. done.
  - rewrite IH. destruct (decide (s' = s)) as [->|H]; [by rewrite decide_False|done].
Qed.

(** ** The tables implement the specification *)

Definition BOUND : Z := 2 ^ 31 - 1.
(** The tables hold the objects, values are at most [BOUND + n], and a thread
    in a call has found an object that it can wait for. *)
Definition waits_ok (tab : list registered_lock) (stab : list registered_sema) (t : nat) (w : pending) : Prop :=
  match w with In_acquire l => ∃ r, find_lock l tab = Some r ∧ holder r ≠ Some t | In_down s => is_Some (find_sema s stab) end.
Record rep (n : Z) (p : process) (o : objects) : Prop := Rep {
  rep_locks : ∀ l, locks o !! l = holder <$> find_lock l (locks_tab p);
  rep_semas : ∀ s, semas o !! s = value <$> find_sema s (semas_tab p);
  rep_values : ∀ s r, find_sema s (semas_tab p) = Some r → 0 ≤ value r ≤ BOUND + n;
  rep_calls : ∀ t w, calls p !! t = Some w → waits_ok (locks_tab p) (semas_tab p) t w
}.
(** One step adds to the log what the specification allows. *)
Definition follows (n : Z) (m : P unit) (p : process) (o : objects) : Prop :=
  ∃ p' new o', m p = Ok ((), p') ∧ log p' = log p ++ new ∧ allowed_all new o = Some o' ∧ rep n p' o'.

Lemma rep_weaken n n' p o : n ≤ n' → rep n p o → rep n' p o.
Proof. intros Hn [H1 H2 H3 H4]. split; [done|done| |done]. intros s r Hr. specialize (H3 s r Hr). lia. Qed.
Lemma follows_nothing n p o : rep n p o → follows n (mret ()) p o.
Proof. intros H. exists p, [], o. split; [done|]. split; [by rewrite app_nil_r|done]. Qed.
Lemma follows_refused n p o e : rep n p o → allowed e o = Some o → follows n (returns e) p o.
Proof. intros H He. exists (Process (locks_tab p) (semas_tab p) (threads p) (calls p) (heap p) (log p ++ [e])), [e], o. split; [done|]. split; [done|]. split; [cbn; by rewrite He|by destruct H]. Qed.
(** Running a handler on a state whose parts are known. *)
Ltac runs := unfold returns, malloc, ASSERT, lift, get, put, modify, mret, M_ret, mbind, M_bind; cbn;
  repeat (match goal with E : ?x = _ |- context [?x] => rewrite E end; cbn); try (rewrite decide_False by done; cbn); try reflexivity.
(** The new log and the objects after it. *)
Ltac follows_by new o' := eexists _, new, o'; split; [runs|split; [cbn; rewrite ?app_nil_r; reflexivity|split]].

Lemma waits_ok_lock tab stab t w l h : waits_ok tab stab t w → h ≠ Some t → waits_ok (set_holder l h tab) stab t w.
Proof.
  destruct w as [l'|s]; [|done]. intros (r & Hr & Hh) Ht. cbn. rewrite find_set_holder. case_decide; [subst; rewrite Hr; cbn; eauto|eauto].
Qed.
Lemma rep_set_holder n p o l h r : rep n p o → find_lock l (locks_tab p) = Some r → (∀ t w, calls p !! t = Some w → h ≠ Some t) →
  rep n (set_locks (set_holder l h (locks_tab p)) p) (Objects (<[l := h]> (locks o)) (semas o)).
Proof.
  intros [H1 H2 H3 H4] Hl Hh. split; [|done|done|].
  - intros l'. cbn. rewrite find_set_holder. destruct (decide (l' = l)) as [->|Hne]; [by rewrite lookup_insert_eq, Hl|by rewrite lookup_insert_ne].
  - intros t w Hw. apply waits_ok_lock; [by apply H4|by eapply Hh].
Qed.
Lemma rep_set_value n p o s v r : rep n p o → find_sema s (semas_tab p) = Some r → 0 ≤ v ≤ BOUND + n →
  rep n (set_semas (set_value s v (semas_tab p)) p) (Objects (locks o) (<[s := v]> (semas o))).
Proof.
  intros [H1 H2 H3 H4] Hs Hv. split; [done| | |].
  - intros s'. cbn. rewrite find_set_value. destruct (decide (s' = s)) as [->|Hne]; [by rewrite lookup_insert_eq, Hs|by rewrite lookup_insert_ne].
  - intros s' r'. cbn. rewrite find_set_value. case_decide; [rewrite Hs; by intros [= <-]|apply H3].
  - intros t w Hw. specialize (H4 t w Hw). destruct w as [l|s']; [done|]. cbn in *. rewrite find_set_value. case_decide; [subst; rewrite Hs; eauto|done].
Qed.
Lemma rep_set_calls n p o cs : rep n p o → (∀ t w, cs !! t = Some w → waits_ok (locks_tab p) (semas_tab p) t w) → rep n (set_calls cs p) o.
Proof. intros [H1 H2 H3 H4] H. by split. Qed.
(** Parts that do not matter. *)
Lemma rep_same n p o h ts lg : rep n p o → rep n (Process (locks_tab p) (semas_tab p) ts (calls p) h lg) o.
Proof. by intros []. Qed.

Section Handlers.
Context (n : Z) (p : process) (o : objects) (Hrep : rep n p o).

Lemma lock_init_follows t l : follows n (handle t (Lock_init l)) p o.
Proof.
  pose proof (rep_locks _ _ _ Hrep l) as El. unfold handle, handler_lock_init. destruct (find_lock l (locks_tab p)) as [r|] eqn:E; cbn in El.
  - follows_by [Lock_init_refused l] o; [cbn; by rewrite El, decide_True by eauto|by apply rep_same].
  - destruct (heap p) as [|h] eqn:Eh.
    + follows_by [No_memory] o; [done|by apply rep_same].
    + follows_by [Lock_inited l] (Objects (<[l := None]> (locks o)) (semas o)); [cbn; by rewrite El, decide_True by done|].
      destruct Hrep as [H1 H2 H3 H4]. split; [|done|done|].
      * intros l'. cbn. case_decide as Hl; [subst; by rewrite lookup_insert_eq|by rewrite lookup_insert_ne].
      * intros t' w Hw. specialize (H4 t' w Hw). destruct w as [l'|s]; [|done]. cbn in *. case_decide; [by subst; destruct H4 as (? & ? & _); congruence|done].
Qed.
Lemma lock_acquire_follows t l : follows n (handle t (Lock_acquire l)) p o.
Proof.
  pose proof (rep_locks _ _ _ Hrep l) as El. unfold handle, handler_lock_acquire, lock_held_by_current_thread. destruct (find_lock l (locks_tab p)) as [r|] eqn:E; cbn in El.
  - destruct (bool_decide (holder r = Some t)) eqn:Eh.
    + apply bool_decide_eq_true in Eh as Eh'. follows_by [Acquire_refused t l] o; [cbn; by rewrite El, Eh', decide_True by eauto|by apply rep_same].
    + apply bool_decide_eq_false in Eh as Eh'. follows_by (@nil entry) o; [done|]. apply rep_set_calls; [done|]. intros t' w.
      destruct (decide (t' = t)) as [->|Hne]; [rewrite lookup_insert_eq; intros [= <-]; by exists r|rewrite lookup_insert_ne by done; apply Hrep].
  - follows_by [Acquire_refused t l] o; [cbn; by rewrite El, decide_True by eauto|by apply rep_same].
Qed.
Lemma lock_release_follows t l : calls p !! t = None → follows n (handle t (Lock_release l)) p o.
Proof.
  intros Ht. pose proof (rep_locks _ _ _ Hrep l) as El. unfold handle, handler_lock_release, lock_release, lock_held_by_current_thread.
  destruct (find_lock l (locks_tab p)) as [r|] eqn:E; cbn in El.
  - destruct (bool_decide (holder r = Some t)) eqn:Eh.
    + apply bool_decide_eq_true in Eh as Eh'. follows_by [Lock_given t l] (Objects (<[l := None]> (locks o)) (semas o)); [cbn; by rewrite El, Eh', decide_True by done|].
      refine (rep_same n (set_locks (set_holder l None (locks_tab p)) p) _ _ _ _ _). by eapply rep_set_holder.
    + apply bool_decide_eq_false in Eh as Eh'. follows_by [Release_refused t l] o; [cbn; by rewrite El, decide_True by congruence|by apply rep_same].
  - follows_by [Release_refused t l] o; [cbn; by rewrite El, decide_True by done|by apply rep_same].
Qed.
Lemma sema_init_follows t s v : v ≤ BOUND → 0 ≤ n → follows n (handle t (Sema_init s v)) p o.
Proof.
  intros Hv Hn. pose proof (rep_semas _ _ _ Hrep s) as Es. unfold handle, handler_sema_init. destruct (decide (v < 0)) as [Hneg|Hpos].
  { follows_by [Sema_init_refused s v] o; [cbn; by rewrite decide_True by eauto|by apply rep_same]. }
  destruct (find_sema s (semas_tab p)) as [r|] eqn:E; cbn in Es.
  - follows_by [Sema_init_refused s v] o; [cbn; by rewrite Es, decide_True by eauto|by apply rep_same].
  - destruct (heap p) as [|h] eqn:Eh.
    + follows_by [No_memory] o; [done|by apply rep_same].
    + follows_by [Sema_inited s v] (Objects (locks o) (<[s := v]> (semas o))); [cbn; by rewrite Es, decide_True by (split; [done|lia])|].
      destruct Hrep as [H1 H2 H3 H4]. split; [done| | |].
      * intros s'. cbn. case_decide as Hs; [subst; by rewrite lookup_insert_eq|by rewrite lookup_insert_ne].
      * intros s' r. cbn. case_decide; [intros [= <-]; cbn; lia|apply H3].
      * intros t' w Hw. specialize (H4 t' w Hw). destruct w as [l'|s']; [done|]. cbn in *. case_decide; [eauto|done].
Qed.
Lemma sema_down_follows t s : follows n (handle t (Sema_down s)) p o.
Proof.
  pose proof (rep_semas _ _ _ Hrep s) as Es. unfold handle, handler_sema_down. destruct (find_sema s (semas_tab p)) as [r|] eqn:E; cbn in Es.
  - follows_by (@nil entry) o; [done|]. apply rep_set_calls; [done|]. intros t' w.
    destruct (decide (t' = t)) as [->|Hne]; [rewrite lookup_insert_eq; intros [= <-]; by exists r|rewrite lookup_insert_ne by done; apply Hrep].
  - follows_by [Down_refused s] o; [cbn; by rewrite Es, decide_True by done|by apply rep_same].
Qed.
Lemma sema_up_follows t s : 0 ≤ n ≤ BOUND → follows (n + 1) (handle t (Sema_up s)) p o.
Proof.
  intros Hn. pose proof (rep_semas _ _ _ Hrep s) as Es. unfold handle, handler_sema_up, sema_up. destruct (find_sema s (semas_tab p)) as [r|] eqn:E; cbn in Es.
  - pose proof (rep_values _ _ _ Hrep s r E) as Hv. follows_by [Sema_upped s] (Objects (locks o) (<[s := u32 (value r + 1)]> (semas o))).
    + cbn. rewrite Es. cbn. rewrite wrapu_id; [done|]. unfold in_u, BOUND in *. lia.
    + refine (rep_same (n + 1) (set_semas (set_value s (u32 (value r + 1)) (semas_tab p)) p) _ _ _ _ _). eapply rep_set_value; [eapply rep_weaken; [|done]; lia|done|].
      rewrite wrapu_id by (unfold in_u, BOUND in *; lia). lia.
  - follows_by [Up_refused s] o; [cbn; by rewrite Es, decide_True by done|by apply rep_same, (rep_weaken n); [lia|]].
Qed.

(** A thread in a call tries again. *)
Lemma acquire_again t l : calls p !! t = Some (In_acquire l) → follows n (lock_acquire t l;; mret ()) p o.
Proof.
  intros Ht. destruct (rep_calls _ _ _ Hrep t _ Ht) as (r & E & Hh). pose proof (rep_locks _ _ _ Hrep l) as El. rewrite E in El. cbn in El.
  assert (bool_decide (holder r = Some t) = false) as Eb by (by apply bool_decide_eq_false). unfold lock_acquire, lock_held_by_current_thread. destruct (holder r) as [t'|] eqn:Eh.
  - follows_by (@nil entry) o; done.
  - follows_by [Lock_taken t l] (Objects (<[l := Some t]> (locks o)) (semas o)); [cbn; by rewrite El, decide_True by done|].
    refine (rep_same n (set_locks (set_holder l (Some t) (locks_tab p)) (set_calls (delete t (calls p)) p)) _ _ _ _ _).
    assert (rep n (set_calls (delete t (calls p)) p) o) as Hr by (apply rep_set_calls; [done|]; intros t' w [_ Hw]%lookup_delete_Some; by apply Hrep).
    eapply (rep_set_holder n _ o l (Some t) r Hr); [done|]. intros t' w Hw. cbn [calls set_calls] in Hw. apply lookup_delete_Some in Hw as [Hne _]. congruence.
Qed.
Lemma down_again t s : calls p !! t = Some (In_down s) → follows n (sema_down t s;; mret ()) p o.
Proof.
  intros Ht. destruct (rep_calls _ _ _ Hrep t _ Ht) as [r E]. pose proof (rep_semas _ _ _ Hrep s) as Es. rewrite E in Es. cbn in Es.
  pose proof (rep_values _ _ _ Hrep s r E) as Hv. unfold sema_down. destruct (decide (value r = 0)) as [H0|H0].
  - follows_by (@nil entry) o; done.
  - follows_by [Sema_downed s] (Objects (locks o) (<[s := value r - 1]> (semas o))); [cbn; rewrite Es, decide_True by lia; done|].
    refine (rep_same n (set_semas (set_value s (value r - 1) (semas_tab p)) (set_calls (delete t (calls p)) p)) _ _ _ _ _).
    assert (rep n (set_calls (delete t (calls p)) p) o) as Hr by (apply rep_set_calls; [done|]; intros t' w [_ Hw]%lookup_delete_Some; by apply Hrep).
    eapply (rep_set_value n _ o s _ r Hr); [done|]. lia.
Qed.
End Handlers.

(** ** Histories: theorems *)

(** The value of [sema_init] is an [int]. *)
Definition int_args (e : event) : Prop := match e with Call _ (Sema_init _ v) => v ≤ BOUND | _ => True end.

Lemma step_follows n e p o : rep n p o → int_args e → 0 ≤ n ≤ BOUND → follows (n + 1) (step e) p o.
Proof.
  intros Hr He Hn. assert (∀ m, follows n m p o → follows (n + 1) m p o) as Hw.
  { intros m (p' & new & o' & H1 & H2 & H3 & H4). exists p', new, o'. do 3 (split; [done|]). eapply rep_weaken; [|done]. lia. }
  unfold follows, step. rewrite (bind_Ok get _ p p p eq_refl). destruct e as [t|t c|t|t].
  - case_decide; [by apply Hw, follows_nothing|]. eexists _, [], o. split; [done|]. split; [cbn; by rewrite app_nil_r|]. split; [done|].
    apply (rep_weaken n); [lia|]. by apply rep_same.
  - unfold idle. destruct (bool_decide _) eqn:Ei; [|by apply Hw, follows_nothing]. apply bool_decide_eq_true in Ei as [_ Hc].
    destruct c; [apply Hw; by apply lock_init_follows|apply Hw; by apply lock_acquire_follows|apply Hw; by apply lock_release_follows|
      apply Hw; apply sema_init_follows; [done|done|lia]|apply Hw; by apply sema_down_follows|by apply sema_up_follows].
  - apply Hw. destruct (calls p !! t) as [[l|s]|] eqn:Ec; [by apply acquire_again|by apply down_again|by apply follows_nothing].
  - destruct (idle t p); [|by apply Hw, follows_nothing]. eexists _, [], o. split; [done|]. split; [cbn; by rewrite app_nil_r|]. split; [done|].
    apply (rep_weaken n); [lia|]. by apply rep_same.
Qed.

Lemma allowed_app es es' o o' : allowed_all es o = Some o' → allowed_all (es ++ es') o = allowed_all es' o'.
Proof. revert o. induction es as [|e es IH]; intros o; cbn; [by intros [= ->]|]. destruct (allowed e o); [apply IH|done]. Qed.

Lemma run_follows n es p o : rep n p o → Forall int_args es → 0 ≤ n → n + Z.of_nat (length es) ≤ BOUND →
  follows (n + Z.of_nat (length es)) (run es) p o.
Proof.
  intros Hr Hes. revert n p o Hr. induction Hes as [|e es He Hes IH]; intros n p o Hr Hn Hl; cbn [length run] in *; [rewrite Z.add_0_r; by apply follows_nothing|].
  destruct (step_follows n e p o Hr He ltac:(lia)) as (p1 & new & o1 & E & Hlog & Ha & Hr1).
  destruct (IH (n + 1) p1 o1 Hr1 ltac:(lia) ltac:(lia)) as (p2 & new2 & o2 & E2 & Hlog2 & Ha2 & Hr2).
  exists p2, (new ++ new2), o2. rewrite (bind_Ok _ _ _ _ _ E). split; [done|]. split; [by rewrite Hlog2, Hlog, app_assoc|]. split; [by rewrite (allowed_app _ _ _ _ Ha)|].
  by replace (n + Z.of_nat (S (length es))) with (n + 1 + Z.of_nat (length es)) by lia.
Qed.

(** C26: whatever the threads of a process do, the calls on locks and
    semaphores never fail an assertion, and what they return is what the
    specification allows, in their order: a lock has one holder, is taken only
    when it is free and given up by its holder only; a semaphore's value is its first
    value with the ups and without the downs, and is never negative; an address
    is registered once; and a call is refused only for the reasons in the
    comments.  The tables then are the objects of the specification.  The history is short enough
    that no semaphore reaches 2^32. *)
Theorem user_sync_refines es h : Forall int_args es → Z.of_nat (length es) ≤ BOUND →
  ∃ p o, run es (start h) = Ok ((), p) ∧ allowed_all (log p) (Objects ∅ ∅) = Some o ∧
    (∀ l, locks o !! l = holder <$> find_lock l (locks_tab p)) ∧ (∀ s, semas o !! s = value <$> find_sema s (semas_tab p)).
Proof.
  intros Hes Hl. destruct (run_follows 0 es (start h) (Objects ∅ ∅)) as (p & new & o & E & Hlog & Ha & Hr); [|done|lia|lia|].
  { split; [intros l; apply lookup_empty|intros s; apply lookup_empty|done|]. intros t w Hw. cbn in Hw. by rewrite lookup_empty in Hw. }
  exists p, o. split; [done|]. rewrite Hlog. split; [done|]. split; apply Hr.
Qed.

(** Two threads take turns with a lock; the second one has to wait. *)
Lemma user_sync_refines_witness : ∃ p o, run [Create 1; Create 2; Call 1 (Lock_init 100); Call 1 (Lock_acquire 100); Run 1; Call 2 (Lock_acquire 100); Run 2; Call 1 (Lock_release 100); Run 2] (start 5) = Ok ((), p) ∧
  allowed_all (log p) (Objects ∅ ∅) = Some o ∧
    (∀ l, locks o !! l = holder <$> find_lock l (locks_tab p)) ∧ (∀ s, semas o !! s = value <$> find_sema s (semas_tab p)).
Proof. apply user_sync_refines; [by repeat constructor|unfold BOUND; cbn; lia]. Defined.

Lemma run_prefix es es' p p' : run es p = Ok ((), p') → run (es ++ es') p = run es' p'.
Proof.
  revert p. induction es as [|e es IH]; intros p; cbn [run app]; [by intros [= ->]|]. unfold mbind, M_bind. destruct (step e p) as [[[] p1]|]; [apply IH|done].
Qed.
Lemma run_stays e p k : step e p = Ok ((), p) → run (replicate k e) p = Ok ((), p).
Proof. intros E. induction k as [|k IH]; [done|]. cbn [replicate run]. by rewrite (bind_Ok _ _ _ _ _ E). Qed.

(** A thread that exits keeps its locks.  Another thread that waits for
    such a lock waits for ever, however often it tries; and since the holder is
    known by its page, a new thread that is given the page of the old one is
    refused the lock as its holder and may release it. *)
Theorem exit_keeps_locks k h :
  ∃ p, run ([Create 1; Create 2; Call 1 (Lock_init 100); Call 1 (Lock_acquire 100); Run 1; Exit 1; Call 2 (Lock_acquire 100)] ++ replicate k (Run 2)) (start (S h)) = Ok ((), p) ∧
    calls p !! 2%nat = Some (In_acquire 100) ∧
  ∃ p', run [Create 1; Call 1 (Lock_acquire 100); Call 1 (Lock_release 100)] p = Ok ((), p') ∧
    log p' = [Lock_inited 100; Lock_taken 1 100; Acquire_refused 1 100; Lock_given 1 100].
Proof.
  eexists. split; [erewrite run_prefix by (vm_compute; reflexivity); apply run_stays; by vm_compute|]. split; [by vm_compute|].
  eexists. split; [vm_compute; reflexivity|]. reflexivity.
Qed.

End UserSync.
