(* ===== verification/Boot.v ===== *)
(** * The command line of the kernel (threads/init.c)

    [read_command_line], [parse_options] and [run_actions], on the byte memory
    in which the loader leaves the arguments, for the build with threads, user
    programs and the file system.  [argv] is a list of pointers.  The literal
    strings of the source are where [lit] says.  An action that is run is
    recorded with its argument.  Messages are left out. *)

From Stdlib Require Import String.
From S2P Require Import Prelude Kernel CMem CString StdLib Stdio Random.
Import Kernel CMem CString StdLib Stdio.

Module Boot.

Definition LOADER_ARGS_LEN : Z := 128.
Definition LOADER_ARGS : Z := 0x7e00 - 2 - 64 - LOADER_ARGS_LEN.
Definition LOADER_ARG_CNT : Z := LOADER_ARGS - 4.
(** For the two addresses above, which pass its assertion. *)
Definition ptov (paddr : Z) : Z := 0xc0000000 + paddr.
Definition SCHED_DEFAULT : sched_policy := SCHED_FIFO.
Definition SIZE_MAX : Z := 2 ^ 32 - 1.

Inductive shutdown_type := SHUTDOWN_NONE | SHUTDOWN_POWER_OFF | SHUTDOWN_REBOOT.
(** The entries of the table of actions. *)
Inductive action := run_task | run_userprog_kernel_task | run_threads_kernel_task | fsutil_ls | fsutil_cat | fsutil_rm | fsutil_extract | fsutil_append.

Record config := Config { memory : mem; how : shutdown_type; format_filesys : bool; filesys_bdev_name : Z; scratch_bdev_name : Z;
  user_page_limit : Z; active_sched_policy : sched_policy; generator : Random.rng; performed : list (action * Z) }.
Abbreviation B := (M config).

(** The static variables before [main]. *)
Definition initial (m : mem) : config := Config m SHUTDOWN_NONE false NULL NULL SIZE_MAX SCHED_FIFO Random.start [].

Definition set_memory (m : mem) (c : config) : config := Config m (how c) (format_filesys c) (filesys_bdev_name c) (scratch_bdev_name c) (user_page_limit c) (active_sched_policy c) (generator c) (performed c).
Definition set_how (h : shutdown_type) (c : config) : config := Config (memory c) h (format_filesys c) (filesys_bdev_name c) (scratch_bdev_name c) (user_page_limit c) (active_sched_policy c) (generator c) (performed c).
Definition set_format (c : config) : config := Config (memory c) (how c) true (filesys_bdev_name c) (scratch_bdev_name c) (user_page_limit c) (active_sched_policy c) (generator c) (performed c).
Definition set_filesys (p : Z) (c : config) : config := Config (memory c) (how c) (format_filesys c) p (scratch_bdev_name c) (user_page_limit c) (active_sched_policy c) (generator c) (performed c).
Definition set_scratch (p : Z) (c : config) : config := Config (memory c) (how c) (format_filesys c) (filesys_bdev_name c) p (user_page_limit c) (active_sched_policy c) (generator c) (performed c).
Definition set_limit (n : Z) (c : config) : config := Config (memory c) (how c) (format_filesys c) (filesys_bdev_name c) (scratch_bdev_name c) n (active_sched_policy c) (generator c) (performed c).
Definition set_policy (p : sched_policy) (c : config) : config := Config (memory c) (how c) (format_filesys c) (filesys_bdev_name c) (scratch_bdev_name c) (user_page_limit c) p (generator c) (performed c).
Definition set_generator (g : Random.rng) (c : config) : config := Config (memory c) (how c) (format_filesys c) (filesys_bdev_name c) (scratch_bdev_name c) (user_page_limit c) (active_sched_policy c) g (performed c).
Definition perform (a : action) (arg : Z) : B unit :=
  modify (λ c, Config (memory c) (how c) (format_filesys c) (filesys_bdev_name c) (scratch_bdev_name c) (user_page_limit c) (active_sched_policy c) (generator c) (performed c ++ [(a, arg)])).

(** Functions on memory and on the generator. *)
Definition on_mem {A} (f : C A) : B A := λ c, match f (memory c) with Ok (a, m) => Ok (a, set_memory m c) | Err e => Err e end.
Definition random_init (seed : Z) : B unit := λ c, match Random.random_init seed (generator c) with Ok (_, g) => Ok ((), set_generator g c) | Err e => Err e end.

Section Boot.
(** The addresses of the literals, and the result of [rtc_get_time]. *)
Context (lit : string → Z) (now : Z).

(** ** [read_command_line] *)

Definition load_u32 (p : Z) : C Z := a ← load p; b ← load (p + 1); c ← load (p + 2); d ← load (p + 3); mret (of_le32 [a; b; c; d]).
(** [argv[i] = p], for [static char *argv[LOADER_ARGS_LEN / 2 + 1]]. *)
Definition set_argv (argv : list Z) (i p : Z) : B (list Z) :=
  if decide (0 ≤ i < LOADER_ARGS_LEN / 2 + 1) then mret (<[Z.to_nat i := p]> argv) else fail Undef.
(** The loop, with [n] arguments left. *)
Fixpoint args_loop (n : nat) (argv : list Z) (i p end_ : Z) : B (list Z) :=
  match n with
  | O => mret argv
  | S n =>
      if decide (end_ ≤ p) then PANIC else
      argv ← set_argv argv i p;
      len ← on_mem (strnlen p (end_ - p));
      args_loop n argv (i + 1) (p + len + 1) end_
  end.
Definition read_command_line : B (list Z) :=
  argc ← on_mem (load_u32 (ptov LOADER_ARG_CNT));
  let argc := i32 argc in
  let p := ptov LOADER_ARGS in
  argv ← args_loop (Z.to_nat argc) (replicate (Z.to_nat (LOADER_ARGS_LEN / 2 + 1)) NULL) 0 p (p + LOADER_ARGS_LEN);
  set_argv argv argc NULL.

(** ** [parse_options] *)

(** [!strcmp (s, "...")] *)
Definition streq (p : Z) (s : string) : B bool := r ← on_mem (strcmp p (lit s)); mret (bool_decide (r = 0)).

(** One option: the new flags, or nothing if [usage] has switched off the machine. *)
Definition parse_option (name value : Z) (flags : list bool) : B (option (list bool)) :=
  b ← streq name "-h"; if (b : bool) then mret None else
  b ← streq name "-q"; if (b : bool) then modify (set_how SHUTDOWN_POWER_OFF);; mret (Some flags) else
  b ← streq name "-r"; if (b : bool) then modify (set_how SHUTDOWN_REBOOT);; mret (Some flags) else
  b ← streq name "-f"; if (b : bool) then modify set_format;; mret (Some flags) else
  b ← streq name "-filesys"; if (b : bool) then modify (set_filesys value);; mret (Some flags) else
  b ← streq name "-scratch"; if (b : bool) then modify (set_scratch value);; mret (Some flags) else
  b ← streq name "-rs"; if (b : bool) then n ← on_mem (atoi value); random_init (u32 n);; mret (Some flags) else
  b ← streq name "-sched"; if (b : bool) then
    b ← streq value "fifo"; if (b : bool) then mret (Some (<[0%nat := true]> flags)) else
    b ← streq value "prio"; if (b : bool) then mret (Some (<[1%nat := true]> flags)) else
    b ← streq value "fair"; if (b : bool) then mret (Some (<[2%nat := true]> flags)) else
    b ← streq value "mlfqs"; if (b : bool) then mret (Some (<[3%nat := true]> flags)) else
    PANIC
  else
  b ← streq name "-ul"; if (b : bool) then n ← on_mem (atoi value); modify (set_limit (u32 n));; mret (Some flags) else
  PANIC.

(** The loop over [argv]: the place where it ends, and the flags. *)
Fixpoint options_loop (fuel : nat) (argv : list Z) (k : nat) (flags : list bool) : B (option (nat * list bool)) :=
  match fuel with
  | O => fail NoFuel
  | S fuel =>
      p ← lift (argv !! k) Undef;
      if decide (p = NULL) then mret (Some (k, flags)) else
      c ← on_mem (load p);
      if decide (c ≠ 45) then mret (Some (k, flags)) else
      name ← on_mem (strtok_r p (lit "=") 0);
      value ← on_mem (strtok_r NULL (lit "") name.2);
      r ← parse_option name.1 value.1 flags;
      match r with None => mret None | Some flags => options_loop fuel argv (S k) flags end
  end.

(** The scheduler that the flags ask for. *)
Definition choose (flags : list bool) : B sched_policy :=
  let n := length (filter (λ b, b = true) flags) in
  if decide (n = 0)%nat then mret SCHED_DEFAULT
  else if decide (1 < n)%nat then PANIC
  else if decide (flags !! 0%nat = Some true) then mret SCHED_FIFO
  else if decide (flags !! 1%nat = Some true) then mret SCHED_PRIO
  else if decide (flags !! 2%nat = Some true) then mret SCHED_FAIR
  else if decide (flags !! 3%nat = Some true) then mret SCHED_MLFQS
  else PANIC.

(** The place of the first argument that is no option. *)
Definition parse_options (argv : list Z) : B (option nat) :=
  r ← options_loop (S (length argv)) argv 0 (replicate 8 false);
  match r with
  | None => mret None
  | Some (k, flags) => p ← choose flags; modify (set_policy p);; random_init now;; mret (Some k)
  end.

(** ** [run_actions] *)

Definition actions : list (string * nat * action) :=
  [("run"%string, 2%nat, run_task); ("rukt"%string, 2%nat, run_userprog_kernel_task); ("rtkt"%string, 2%nat, run_threads_kernel_task);
   ("ls"%string, 1%nat, fsutil_ls); ("cat"%string, 2%nat, fsutil_cat); ("rm"%string, 2%nat, fsutil_rm);
   ("extract"%string, 1%nat, fsutil_extract); ("append"%string, 2%nat, fsutil_append)].
Fixpoint find_action (p : Z) (l : list (string * nat * action)) : B (nat * action) :=
  match l with
  | [] => PANIC
  | (name, argc, a) :: l => b ← streq p name; if (b : bool) then mret (argc, a) else find_action p l
  end.
(** [for (i = 1; i < a->argc; i++)], with [n] rounds left. *)
Fixpoint check_args (n i k : nat) (argv : list Z) : B unit :=
  match n with
  | O => mret ()
  | S n => p ← lift (argv !! (k + i)%nat) Undef; if decide (p = NULL) then PANIC else check_args n (S i) k argv
  end.
(** [a->function (argv)]: the actions look at [argv[1]]. *)
Fixpoint run_actions (fuel : nat) (argv : list Z) (k : nat) : B unit :=
  match fuel with
  | O => fail NoFuel
  | S fuel =>
      p ← lift (argv !! k) Undef;
      if decide (p = NULL) then mret () else
      a ← find_action p actions;
      check_args (a.1 - 1) 1 k argv;;
      arg ← (if decide (a.1 = 1)%nat then mret NULL else lift (argv !! S k) Undef);
      perform a.2 arg;;
      run_actions fuel argv (k + a.1)
  end.

(** The calls of [main]: [false] if [usage] has switched off the machine. *)
Definition main_actions : B bool :=
  argv ← read_command_line; k ← parse_options argv;
  match k with None => mret false | Some k => run_actions (S (length argv)) argv k;; mret true end.

End Boot.
End Boot.
