(* ===== verification/BootSpec.v ===== *)
(** * The command line of the kernel: theorems

    What the arguments on the command line set, and which actions they run, as
    functions on strings, and that the code on memory implements them. *)

From Stdlib Require Import String.
From S2P Require Import Prelude Kernel CMem CString CStringSpec CStringEdit StdLib Stdio StdioSpec Random Boot.
Import Kernel CMem CString CStringSpec CStringEdit StdLib Stdio StdioSpec Boot.

Module BootSpec.

(** ** The specification *)

Record settings := Settings { s_how : shutdown_type; s_format : bool; s_filesys : option (list Z); s_scratch : option (list Z); s_limit : Z; s_flags : list bool }.
Definition defaults : settings := Settings SHUTDOWN_NONE false None None SIZE_MAX (replicate 8 false).

(** What an option leads to: the machine is switched off, a panic, or new
    settings. *)
Inductive verdict := Off | Bad | Go (s : settings).

(** The part before the first equals sign, and the part after it if it is not empty. *)
Definition name_of (arg : list Z) : list Z := take (token_len [61] arg) arg.
Definition value_of (arg : list Z) : option (list Z) :=
  match drop (S (token_len [61] arg)) arg with [] => None | v => Some v end.

Definition digit (c : Z) : Prop := 48 ≤ c ≤ 57.
#[global] Instance digit_dec c : Decision (digit c).
Proof. unfold digit. apply _. Defined.
Definition number (v : list Z) : Z := foldl (λ a c, a * 10 + (c - 48)) 0 v.
(** A number of at most nine digits. *)
Definition is_number (v : list Z) : Prop := v ≠ [] ∧ (length v ≤ 9)%nat ∧ Forall digit v.

Definition flag_of (v : list Z) : option nat :=
  if decide (v = chars "fifo") then Some 0%nat else if decide (v = chars "prio") then Some 1%nat
  else if decide (v = chars "fair") then Some 2%nat else if decide (v = chars "mlfqs") then Some 3%nat else None.

Definition option_spec (name : list Z) (value : option (list Z)) (s : settings) : verdict :=
  if decide (name = chars "-h") then Off
  else if decide (name = chars "-q") then Go (Settings SHUTDOWN_POWER_OFF (s_format s) (s_filesys s) (s_scratch s) (s_limit s) (s_flags s))
  else if decide (name = chars "-r") then Go (Settings SHUTDOWN_REBOOT (s_format s) (s_filesys s) (s_scratch s) (s_limit s) (s_flags s))
  else if decide (name = chars "-f") then Go (Settings (s_how s) true (s_filesys s) (s_scratch s) (s_limit s) (s_flags s))
  else if decide (name = chars "-filesys") then Go (Settings (s_how s) (s_format s) value (s_scratch s) (s_limit s) (s_flags s))
  else if decide (name = chars "-scratch") then Go (Settings (s_how s) (s_format s) (s_filesys s) value (s_limit s) (s_flags s))
  else if decide (name = chars "-rs") then match value with Some _ => Go s | None => Bad end
  else if decide (name = chars "-sched") then
    match value ≫= flag_of with
    | Some i => Go (Settings (s_how s) (s_format s) (s_filesys s) (s_scratch s) (s_limit s) (<[i := true]> (s_flags s)))
    | None => Bad
    end
  else if decide (name = chars "-ul") then
    match value with Some v => Go (Settings (s_how s) (s_format s) (s_filesys s) (s_scratch s) (number v) (s_flags s)) | None => Bad end
  else Bad.

Definition is_option (arg : list Z) : bool := match arg with c :: _ => bool_decide (c = 45) | [] => false end.
(** The number of options, and what they lead to. *)
Fixpoint options_spec (args : list (list Z)) (s : settings) : nat * verdict :=
  match args with
  | [] => (0%nat, Go s)
  | arg :: args =>
      if is_option arg then
        match option_spec (name_of arg) (value_of arg) s with
        | Go s => let r := options_spec args s in (S r.1, r.2)
        | v => (0%nat, v)
        end
      else (0%nat, Go s)
  end.
Definition policy_spec (flags : list bool) : option sched_policy :=
  match filter (λ i, flags !! i = Some true) (seq 0 8) with
  | [] => Some SCHED_DEFAULT
  | [i] => [SCHED_FIFO; SCHED_PRIO; SCHED_FAIR; SCHED_MLFQS] !! i
  | _ => None
  end.

(** The actions with their arguments, or none if one is unknown or lacks its
    argument. *)
Fixpoint actions_spec (fuel : nat) (args : list (list Z)) : option (list (action * option (list Z))) :=
  match fuel, args with
  | O, _ => None
  | S _, [] => Some []
  | S fuel, name :: args =>
      a ← list_find (λ x, chars x.1.1 = name) actions;
      let '(_, argc, act) := a.2 in
      match argc with
      | 1%nat => rest ← actions_spec fuel args; Some ((act, None) :: rest)
      | _ => match args with arg :: args => rest ← actions_spec fuel args; Some ((act, Some arg) :: rest) | [] => None end
      end
  end.

(** Numbers on the command line are short. *)
Definition numbers_ok (arg : list Z) : Prop :=
  name_of arg ∈ [chars "-rs"; chars "-ul"] → match value_of arg with Some v => is_number v | None => True end.

#[global] Instance is_number_dec v : Decision (is_number v).
Proof. unfold is_number. apply _. Defined.
#[global] Instance numbers_ok_dec arg : Decision (numbers_ok arg).
Proof. unfold numbers_ok. destruct (value_of arg); apply _. Defined.

Example spec_example : options_spec (chars <$> ["-q"; "-sched=prio"; "-filesys=hdb1"; "-ul=20"; "run"; "-x"]%string) defaults =
  (4%nat, Go (Settings SHUTDOWN_POWER_OFF false (Some (chars "hdb1")) None 20 [false; true; false; false; false; false; false; false])).
Proof. reflexivity. Qed.

(** ** Strings *)

(** The literals of the source. *)
Definition lits : list string :=
  ["="; ""; "-h"; "-q"; "-r"; "-f"; "-filesys"; "-scratch"; "-rs"; "-sched"; "fifo"; "prio"; "fair"; "mlfqs"; "-ul";
   "run"; "rukt"; "rtkt"; "ls"; "cat"; "rm"; "extract"; "append"]%string.
Definition A : Z := ptov LOADER_ARGS.

Lemma chars_octets s : Forall (in_u 8) (chars s).
Proof.
  unfold chars. apply Forall_fmap, Forall_forall. intros a _. unfold in_u. cbn. pose proof (Ascii.N_ascii_bounded a). lia.
Qed.
Lemma lit_in s : bool_decide (s ∈ lits) = true → s ∈ lits.
Proof. apply bool_decide_eq_true. Qed.
Lemma set_memory_id c : set_memory (memory c) c = c.
Proof. by destruct c. Qed.
Lemma on_mem_run {T} (f : C T) c a m : f (memory c) = Ok (a, m) → on_mem f c = Ok (a, set_memory m c).
Proof. intros H. unfold on_mem. by rewrite H. Qed.
Lemma on_mem_same {T} (f : C T) c a : f (memory c) = Ok (a, memory c) → on_mem f c = Ok (a, c).
Proof. intros H. rewrite (on_mem_run f c a _ H). by rewrite set_memory_id. Qed.

Lemma atoi_number m p v : p ≠ NULL → str_at m p v → is_number v → atoi p m = Ok (number v, m) ∧ 0 ≤ number v < 2 ^ 31.
Proof.
  intros Hp Hs (Hne & Hl & Hd). set (ds := (λ c, c - 48) <$> v).
  assert (v = (λ d, d + 48) <$> ds) as Ev.
  { unfold ds. rewrite <- list_fmap_compose. rewrite <- (list_fmap_id v) at 1. apply list_fmap_ext. intros _ c _. cbn. unfold id. lia. }
  assert (Forall (λ d, 0 ≤ d < 10) ds) as Hds by (apply Forall_fmap; eapply Forall_impl; [exact Hd|]; unfold digit; cbn; lia).
  assert (∀ l a, foldl (λ a d, a * 10 - d) (- a) ((λ c, c - 48) <$> l) = - foldl (λ a c, a * 10 + (c - 48)) a l) as Hf.
  { induction l as [|c l IH]; intros a; cbn; [done|]. rewrite <- IH. f_equal. lia. }
  assert (∀ l a, Forall digit l → 0 ≤ a → 0 ≤ foldl (λ a c, a * 10 + (c - 48)) a l < (a + 1) * 10 ^ Z.of_nat (length l)) as Hb.
  { induction l as [|c l IH]; intros a Hl' Ha; [cbn; lia|]. apply Forall_cons in Hl' as [Hc Hl']. unfold digit in Hc. cbn [foldl length].
    specialize (IH (a * 10 + (c - 48)) Hl' ltac:(lia)). rewrite Nat2Z.inj_succ, Z.pow_succ_r by lia. nia. }
  specialize (Hb v 0 Hd ltac:(lia)). fold (number v) in Hb.
  assert (10 ^ Z.of_nat (length v) ≤ 10 ^ 9) as H9 by (apply Z.pow_le_mono_r; lia). change (10 ^ 9) with 1000000000 in H9.
  specialize (Hf v 0). fold ds in Hf. fold (number v) in Hf. change (- 0) with 0 in Hf. split; [|lia].
  rewrite (atoi_digits m p false ds); rewrite ?Hf; try done; try lia.
  - by rewrite Z.opp_involutive.
  - cbn [app]. by rewrite <- Ev.
  - intros E. apply Hne. unfold ds in E. by apply fmap_nil_inv in E.
Qed.

Section Strings.
Context (lit : string → Z).

Definition lits_at (m : mem) : Prop := ∀ s, s ∈ lits → 0 < lit s ∧ str_at m (lit s) (chars s).
Definition lits_apart : Prop := ∀ s, s ∈ lits → apart A LOADER_ARGS_LEN (lit s) (Z.of_nat (length (chars s)) + 1).
(** Only the arguments change. *)
Definition args_only (m m' : mem) : Prop := ∀ a, ¬ in_range A LOADER_ARGS_LEN a → m' !! a = m !! a.

Lemma lits_frame m m' : lits_apart → args_only m m' → lits_at m → lits_at m'.
Proof.
  intros Ha Hm H s Hs. destruct (H s Hs) as [Hp Ht]. split; [done|]. eapply str_at_ext; [|exact Ht]. intros a Hr. apply Hm. specialize (Ha s Hs). unfold in_range, apart in *. lia.
Qed.

Lemma streq_run c p t s : 0 < p → str_at (memory c) p t → Forall (in_u 8) t → lits_at (memory c) → s ∈ lits →
  streq lit p s c = Ok (bool_decide (t = chars s), c).
Proof.
  intros Hp Ht Hu HL Hs. destruct (HL s Hs) as [Hq Hl]. unfold streq. rewrite (bind_Ok _ _ _ (compare t (chars s)) c).
  - unfold mret, M_ret. do 2 f_equal. apply bool_decide_ext. apply compare_zero.
  - apply on_mem_same. unfold strcmp. rewrite (bind_Ok _ _ _ _ _ (ASSERT_ptr_run p _ ltac:(unfold NULL; lia))), (bind_Ok _ _ _ _ _ (ASSERT_ptr_run (lit s) _ ltac:(unfold NULL; lia))), bounded_run.
    apply strcmp_loop_run; [done..|apply chars_octets|by eapply str_at_size].
Qed.
Lemma streq_null c s : streq lit NULL s c = Err Panic.
Proof. done. Qed.

(** A value that may be missing, which ends at [b] at the latest. *)
Definition value_at (m : mem) (b p : Z) (v : option (list Z)) : Prop :=
  match v with None => p = NULL | Some v => 0 < p ∧ str_at m p v ∧ p + Z.of_nat (length v) + 1 ≤ b end.

(** The two calls of [strtok_r] on an option. *)
Lemma option_tokens m p arg : 0 < p → lits_at m → str_at m p arg → Forall (in_u 8) arg → is_option arg = true → A ≤ p → p + Z.of_nat (length arg) + 1 ≤ A + LOADER_ARGS_LEN →
  lits_apart → ∃ sv m1 vp sv2 m2, strtok_r p (lit "=") 0 m = Ok ((p, sv), m1) ∧ strtok_r NULL (lit "") sv m1 = Ok ((vp, sv2), m2) ∧
    str_at m2 p (name_of arg) ∧ value_at m2 (p + Z.of_nat (length arg) + 1) vp (value_of arg) ∧ 
    (∀ a, ¬ in_range p (Z.of_nat (length arg)) a → m2 !! a = m !! a).
Proof.
  intros Hp HL Hs Hu Ho HA Hend Hap. destruct (HL "="%string ltac:(left)) as [Hq1 Ht1]. destruct (HL ""%string ltac:(right; left)) as [Hq2 Ht2].
  assert (leading [61] arg = 0%nat) as E0.
  { destruct arg as [|c arg]; [done|]. cbn in Ho. apply bool_decide_eq_true in Ho as ->. unfold leading. cbn [span]. by rewrite decide_False by (rewrite list_elem_of_singleton; lia). }
  destruct (strtok_r_token (lit "=") [61] Hq1 m p p 0 arg) as (m1 & sv & Er & Hn & Hv & Hge & Hlen & Hout); rewrite ?E0, ?drop_0; try done.
  { by rewrite decide_False by (unfold NULL; lia). }
  { by destruct arg. }
  rewrite E0 in *. rewrite Z.add_0_r, drop_0 in *. fold (name_of arg) in Hn. set (n := token_len [61] arg) in *. set (rest := drop (S n) arg) in *.
  assert (Forall (in_u 8) rest) as Hur by (by apply Forall_drop). assert (lits_at m1) as HL1.
  { eapply lits_frame; [done| |exact HL]. intros a Ha. apply Hout. unfold in_range in *. lia. }
  destruct (HL1 ""%string ltac:(right; left)) as [_ Ht2']. exists sv, m1.
  assert (leading [] rest = 0%nat ∧ token_len [] rest = length rest) as [El Et].
  { unfold leading, token_len. clear. split; induction rest as [|c r IH]; cbn [span length]; [done| |done|]; [by rewrite decide_False by (by intros ?%elem_of_nil)|].
    rewrite decide_True by (by intros ?%elem_of_nil). by rewrite IH. }
  unfold value_of. fold n rest. destruct rest as [|x r] eqn:Erest.
  - exists NULL, sv, m1. split; [done|]. split; [|done]. rewrite (strtok_r_start (lit "") [] Hq2 m1 NULL sv sv []); [|done|cbn in Hlen; lia|done..].
    cbn. by rewrite Z.add_0_r.
  - rewrite <- Erest in *. assert (Z.of_nat (length rest) = Z.of_nat (length arg) - Z.of_nat (S n) ∧ (0 < length rest)%nat) as [Hlr Hpos].
    { assert (length rest = length arg - S n)%nat as E by (unfold rest; apply length_drop). assert (0 < length rest)%nat by (rewrite Erest; cbn; lia). lia. }
    destruct (strtok_r_token (lit "") [] Hq2 m1 NULL sv sv rest) as (m2 & sv2 & Er2 & Hn2 & _ & _ & _ & Hout2); rewrite ?El, ?drop_0; try done.
    { lia. }
    { by rewrite Erest. }
    rewrite El, Z.add_0_r in Er2, Hn2, Hout2. rewrite drop_0 in Hn2, Hout2. rewrite Et, take_ge in Hn2 by lia. exists sv, sv2, m2. split; [done|]. split; [done|].
    assert ((length (name_of arg) ≤ n)%nat) as Hln by (unfold name_of; rewrite length_take; lia). split.
    + eapply str_at_ext; [|exact Hn]. intros a Ha. apply Hout2. unfold in_range in *. lia.
    + split; [split; [lia|]; split; [done|lia]|]. intros a Ha. rewrite Hout2 by (unfold in_range in *; lia). apply Hout. unfold in_range in *. lia.
Qed.

(** ** Options *)

(** The variables hold the settings; the strings they point to end before [b]. *)
Record agrees (b : Z) (c : config) (s : settings) : Prop := Agrees {
  ag_how : how c = s_how s;
  ag_format : format_filesys c = s_format s;
  ag_filesys : value_at (memory c) b (filesys_bdev_name c) (s_filesys s);
  ag_scratch : value_at (memory c) b (scratch_bdev_name c) (s_scratch s);
  ag_limit : user_page_limit c = s_limit s;
  ag_performed : performed c = []
}.
Lemma value_weaken m b b' p v : b ≤ b' → value_at m b p v → value_at m b' p v.
Proof. intros Hb. destruct v; [|done]. intros (? & ? & ?). split; [done|]. split; [done|lia]. Qed.
Lemma agrees_frame b b' c s m : agrees b c s → b ≤ b' → (∀ a, a < b → m !! a = memory c !! a) → agrees b' (set_memory m c) s.
Proof.
  intros [H1 H2 H3 H4 H5 H6] Hb Hm. assert (∀ p v, value_at (memory c) b p v → value_at m b' p v) as Hv.
  { intros p [v|]; [|done]. intros (Hp & Hs & Hl). split; [done|]. split; [|lia]. eapply str_at_ext; [|exact Hs]. intros a Ha. apply Hm. unfold in_range in Ha. lia. }
  split; cbn; auto.
Qed.

(** The new generator does not depend on the old one. *)
Lemma random_init_gen seed c : ∃ g, random_init seed c = Ok ((), set_generator g c) ∧ Random.random_init seed Random.start = Ok ((), g).
Proof. destruct (Random.random_init_run seed) as (t & _ & E). unfold random_init. rewrite !E. eauto. Qed.
Lemma random_init_ok seed c : ∃ g, random_init seed c = Ok ((), set_generator g c).
Proof. destruct (random_init_gen seed c) as (g & ? & _). eauto. Qed.

Ltac streq_step HL := erewrite bind_Ok by (eapply streq_run; [done|done|done|exact HL|by apply lit_in]).

Lemma parse_option_run b c s np nm vp v : agrees b c s → lits_at (memory c) → 0 < np → str_at (memory c) np nm → Forall (in_u 8) nm →
  value_at (memory c) b vp v → (∀ x, v = Some x → Forall (in_u 8) x) → (nm ∈ [chars "-rs"; chars "-ul"] → ∀ x, v = Some x → is_number x) →
  match option_spec nm v s with
  | Off => parse_option lit np vp (s_flags s) c = Ok (None, c)
  | Bad => parse_option lit np vp (s_flags s) c = Err Panic
  | Go s' => ∃ c', parse_option lit np vp (s_flags s) c = Ok (Some (s_flags s'), c') ∧ agrees b c' s' ∧ memory c' = memory c
  end.
Proof.
  intros Ha HL Hp Hn Hu Hv Hvu Hnum. unfold parse_option, option_spec. pose proof Ha as [H1 H2 H3 H4 H5 H6].
  streq_step HL. case_bool_decide; [by rewrite decide_True|rewrite decide_False by done].
  do 5 (streq_step HL; case_bool_decide; [rewrite decide_True by done; eexists; split; [reflexivity|]; split; [by split|done]|rewrite decide_False by done]).
  streq_step HL. case_bool_decide as Hrs; [rewrite decide_True by done|rewrite decide_False by done].
  { destruct v as [v|]; cbn in Hv; [|by subst vp]. destruct Hv as (Hvp & Hvs & _). assert (is_number v) as Hx by (eapply Hnum; [rewrite Hrs; left|done]).
    destruct (atoi_number (memory c) vp v ltac:(unfold NULL; lia) Hvs Hx) as [Ea _]. erewrite (bind_Ok (on_mem _)) by (apply on_mem_same; exact Ea).
    destruct (random_init_ok (u32 (number v)) c) as [g Eg]. rewrite (bind_Ok _ _ _ _ _ Eg). eexists. split; [reflexivity|]. split; [by split|done]. }
  streq_step HL. case_bool_decide as Hsc; [rewrite decide_True by done|rewrite decide_False by done].
  { destruct v as [v|]; cbn in Hv; [|by subst vp]. destruct Hv as (Hvp & Hvs & _). specialize (Hvu v eq_refl). cbn [mbind option_bind]. unfold flag_of.
    do 4 (streq_step HL; case_bool_decide; [rewrite decide_True by done; eexists; split; [reflexivity|]; split; [by split|done]|rewrite decide_False by done]). done. }
  streq_step HL. case_bool_decide as Hul; [rewrite decide_True by done|by rewrite decide_False by done].
  destruct v as [v|]; cbn in Hv; [|by subst vp]. destruct Hv as (Hvp & Hvs & _). assert (is_number v) as Hx by (eapply Hnum; [rewrite Hul; right; left|done]).
  destruct (atoi_number (memory c) vp v ltac:(unfold NULL; lia) Hvs Hx) as [Ea Hr]. erewrite (bind_Ok (on_mem _)) by (apply on_mem_same; exact Ea).
  rewrite wrapu_id by (unfold in_u; lia). eexists. split; [reflexivity|]. split; [by split|done].
Qed.

(** ** The arguments in memory *)

Fixpoint laid (m : mem) (p : Z) (args : list (list Z)) : Prop :=
  match args with [] => True | arg :: args => str_at m p arg ∧ laid m (p + Z.of_nat (length arg) + 1) args end.
Fixpoint ptrs (p : Z) (args : list (list Z)) : list Z :=
  match args with [] => [] | arg :: args => p :: ptrs (p + Z.of_nat (length arg) + 1) args end.
Fixpoint total (args : list (list Z)) : Z := match args with [] => 0 | arg :: args => Z.of_nat (length arg) + 1 + total args end.

Lemma total_nonneg args : 0 ≤ total args.
Proof. induction args as [|arg args IH]; cbn; lia. Qed.
Lemma total_app xs ys : total (xs ++ ys) = total xs + total ys.
Proof. induction xs as [|x xs IH]; cbn; [done|]. rewrite IH. lia. Qed.
Lemma laid_frame m m' p args : (∀ a, p ≤ a → m' !! a = m !! a) → laid m p args → laid m' p args.
Proof.
  revert p. induction args as [|arg args IH]; intros p Hm; [done|]. intros [Hs Hl]. split.
  - eapply str_at_ext; [|exact Hs]. intros a Ha. apply Hm. unfold in_range in Ha. lia.
  - apply IH; [|done]. intros a Ha. apply Hm. lia.
Qed.
Lemma args_only_trans m1 m2 m3 : args_only m1 m2 → args_only m2 m3 → args_only m1 m3.
Proof. intros H1 H2 a Ha. by rewrite H2, H1. Qed.
Lemma A_pos p : A ≤ p → 0 < p.
Proof. unfold A, ptov, LOADER_ARGS, LOADER_ARGS_LEN. lia. Qed.

(** The text that [parse_options] can read. *)
Definition text_ok (args : list (list Z)) : Prop := Forall (λ arg, Forall (in_u 8) arg ∧ numbers_ok arg) args.

Lemma options_loop_run (Hap : lits_apart) fuel argv zs k args p c s :
  drop k argv = ptrs p args ++ NULL :: zs → (length args < fuel)%nat → laid (memory c) p args → text_ok args →
  A ≤ p → p + total args ≤ A + LOADER_ARGS_LEN → lits_at (memory c) → agrees p c s →
  match options_spec args s with
  | (_, Off) => ∃ c', options_loop lit fuel argv k (s_flags s) c = Ok (None, c')
  | (_, Bad) => options_loop lit fuel argv k (s_flags s) c = Err Panic
  | (n, Go s') => let p' := p + total (take n args) in
      ∃ c', options_loop lit fuel argv k (s_flags s) c = Ok (Some ((k + n)%nat, s_flags s'), c') ∧ agrees p' c' s' ∧
        drop (k + n) argv = ptrs p' (drop n args) ++ NULL :: zs ∧ laid (memory c') p' (drop n args) ∧ lits_at (memory c') ∧ args_only (memory c) (memory c')
  end.
Proof.
  revert k args p c s. induction fuel as [|fuel IH]; intros k args p c s Hd Hf Hl Ht HA Hend HL Hag; [lia|]. cbn [options_loop].
  destruct args as [|arg args]; cbn [options_spec ptrs laid length] in *.
  - assert (argv !! k = Some NULL) as Hk by (rewrite <- (Nat.add_0_r k), <- lookup_drop, Hd; done).
    rewrite (bind_Ok _ _ _ NULL c) by (by rewrite Hk). rewrite decide_True by done. cbn. exists c. rewrite Nat.add_0_r, Z.add_0_r. done.
  - destruct Hl as [Hs Hl]. apply Forall_cons in Ht as [[Hu Hnum] Ht]. pose proof (A_pos p HA) as Hp. pose proof (total_nonneg args) as Htot. cbn [total] in Hend.
    assert (argv !! k = Some p) as Hk by (rewrite <- (Nat.add_0_r k), <- lookup_drop, Hd; done).
    rewrite (bind_Ok _ _ _ p c) by (by rewrite Hk). rewrite decide_False by (unfold NULL; lia).
    assert (∃ x, memory c !! p = Some x ∧ (x = 45 ↔ is_option arg = true)) as (x & Hx & Hxo).
    { destruct arg as [|x arg]; [apply str_at_nil in Hs; exists 0; split; [done|]; cbn; split; [lia|done]|].
      apply str_at_cons in Hs as (Hx & _ & _). exists x. split; [done|]. cbn. by rewrite bool_decide_eq_true. }
    rewrite (bind_Ok _ _ _ x c) by (apply on_mem_same; by apply load_run). destruct (is_option arg) eqn:Eo.
    2:{ rewrite decide_True by (rewrite Hxo; done). cbn. exists c. rewrite Nat.add_0_r, Z.add_0_r. done. }
    rewrite decide_False by (rewrite Hxo; tauto).
    destruct (option_tokens (memory c) p arg) as (sv & m1 & vp & sv2 & m2 & E1 & E2 & Hn & Hv & Hout); [done..|lia|done|].
    rewrite (bind_Ok _ _ _ _ _ (on_mem_run _ c _ _ E1)). cbn [snd]. rewrite (bind_Ok _ _ _ _ _ (on_mem_run _ (set_memory m1 c) _ _ E2)). cbn [fst].
    change (set_memory m2 (set_memory m1 c)) with (set_memory m2 c). set (c2 := set_memory m2 c). set (p1 := p + Z.of_nat (length arg) + 1).
    assert (args_only (memory c) m2) as Hao by (intros a Ha; apply Hout; unfold in_range in *; lia).
    assert (lits_at m2) as HL2 by (by eapply lits_frame).
    assert (agrees p1 c2 s) as Hag2.
    { eapply agrees_frame; [exact Hag|unfold p1; lia|]. intros a Ha. apply Hout. unfold in_range. lia. }
    assert (Forall (in_u 8) (name_of arg)) as Hun by (by apply Forall_take).
    assert (∀ x, value_of arg = Some x → Forall (in_u 8) x) as Huv.
    { intros y. unfold value_of. destruct (drop _ arg) eqn:E; [done|]. intros [= <-]. rewrite <- E. by apply Forall_drop. }
    pose proof (parse_option_run p1 c2 s p (name_of arg) vp (value_of arg) Hag2 HL2 Hp Hn Hun Hv Huv) as Hpo.
    specialize (Hpo ltac:(intros Hin y Ey; specialize (Hnum Hin); by rewrite Ey in Hnum)).
    destruct (option_spec (name_of arg) (value_of arg) s) as [| |s1].
    + rewrite (bind_Ok _ _ _ _ _ Hpo). by exists c2.
    + by rewrite (bind_Err _ _ _ _ Hpo).
    + destruct Hpo as (c3 & E3 & Hag3 & Hm3). rewrite (bind_Ok _ _ _ _ _ E3). cbn [memory c2 set_memory] in Hm3.
      assert (drop (S k) argv = ptrs p1 args ++ NULL :: zs) as Hd1 by (rewrite <- Nat.add_1_r, <- drop_drop, Hd; done).
      assert (laid (memory c3) p1 args) as Hl1.
      { rewrite Hm3. eapply laid_frame; [|exact Hl]. intros a Ha. apply Hout. unfold in_range. lia. }
      specialize (IH (S k) args p1 c3 s1 Hd1 ltac:(lia) Hl1 Ht ltac:(unfold p1; lia) ltac:(unfold p1; lia) ltac:(by rewrite Hm3) Hag3).
      destruct (options_spec args s1) as [n [| |s2]]; cbn [fst snd] in *; [done|done|].
      destruct IH as (c4 & E4 & G1 & G2 & G3 & G4 & G5). exists c4. cbn [take drop total]. rewrite Nat.add_succ_r.
      replace (p + (Z.of_nat (length arg) + 1 + total (take n args))) with (p1 + total (take n args)) by (unfold p1; lia).
      do 5 (split; [done|]). eapply args_only_trans; [exact Hao|]. by rewrite <- Hm3.
Qed.

(** ** [read_command_line] *)

Lemma strnlen_args m p s n maxlen k : str_at m (p + k) s → 0 ≤ k → k + Z.of_nat (length s) < maxlen → (length s < n)%nat →
  CString.strnlen_loop n p maxlen k m = Ok (k + Z.of_nat (length s), m).
Proof.
  revert s k. induction n as [|n IH]; intros s k Hs Hk Hm Hn; [lia|]. cbn [CString.strnlen_loop]. destruct s as [|x s]; cbn [length] in *.
  - apply str_at_nil in Hs. rewrite (bind_Ok _ _ _ _ _ (load_run _ _ _ Hs)). rewrite decide_False by tauto. by rewrite Z.add_0_r.
  - apply str_at_cons in Hs as (Hx & Hx0 & Hs). rewrite (bind_Ok _ _ _ _ _ (load_run _ _ _ Hx)). rewrite decide_True by (split; [done|lia]).
    rewrite (IH s) by (try lia; by rewrite Z.add_assoc). do 2 f_equal. lia.
Qed.

Lemma args_loop_run c args argv k p : laid (memory c) p args → p + total args ≤ A + LOADER_ARGS_LEN → (k + length args ≤ 64)%nat → length argv = 65%nat →
  args_loop (length args) argv (Z.of_nat k) p (A + LOADER_ARGS_LEN) c = Ok (take k argv ++ ptrs p args ++ drop (k + length args) argv, c).
Proof.
  revert argv k p. induction args as [|arg args IH]; intros argv k p Hl Hend Hk Hlen; cbn [args_loop length ptrs laid total] in *.
  { rewrite Nat.add_0_r. cbn [app]. by rewrite take_drop. }
  destruct Hl as [Hs Hl]. pose proof (total_nonneg args). rewrite decide_False by lia.
  rewrite (bind_Ok _ _ _ (<[k := p]> argv) c) by (unfold set_argv; rewrite decide_True by (change (LOADER_ARGS_LEN / 2 + 1) with 65; lia); by rewrite Nat2Z.id).
  rewrite (bind_Ok _ _ _ (Z.of_nat (length arg)) c).
  2:{ apply on_mem_same. unfold strnlen. rewrite bounded_run. rewrite (strnlen_args _ _ arg); [by rewrite Z.add_0_l|by rewrite Z.add_0_r|lia|lia|by eapply str_at_size]. }
  replace (Z.of_nat k + 1) with (Z.of_nat (S k)) by lia. rewrite IH by (done || lia || by rewrite length_insert). do 2 f_equal.
  rewrite (take_S_r _ _ p) by (apply list_lookup_insert_eq; lia). rewrite take_insert_ge by lia. rewrite <- app_assoc. cbn [app]. do 3 f_equal.
  rewrite drop_insert_lt by lia. f_equal. lia.
Qed.

Lemma load_u32_run m p z : in_u 32 z → bytes_at m p (le32 z) → load_u32 p m = Ok (z, m).
Proof.
  intros Hu Hc. pose proof (le32_of_le32 _ Hu) as E. destruct (le32 z) as [|b0 [|b1 [|b2 [|b3 [|]]]]] eqn:El; try done.
  repeat (apply bytes_at_cons in Hc as [? Hc]). unfold load_u32. rewrite <- !Z.add_assoc in *. cbn [Z.add Pos.add Pos.succ] in *.
  do 4 (erewrite bind_Ok by (by apply load_run)). by rewrite E.
Qed.
(** All elements of the array can be filled. *)
Lemma args_loop_any c args argv k p : laid (memory c) p args → p + total args ≤ A + LOADER_ARGS_LEN → (k + length args ≤ 65)%nat →
  ∃ argv', args_loop (length args) argv (Z.of_nat k) p (A + LOADER_ARGS_LEN) c = Ok (argv', c).
Proof.
  revert argv k p. induction args as [|arg args IH]; intros argv k p Hl Hend Hk; cbn [args_loop length laid total] in *; [by exists argv|].
  destruct Hl as [Hs Hl]. pose proof (total_nonneg args). rewrite decide_False by lia.
  erewrite bind_Ok by (unfold set_argv; rewrite decide_True by (change (LOADER_ARGS_LEN / 2 + 1) with 65; lia); reflexivity).
  rewrite (bind_Ok _ _ _ (Z.of_nat (length arg)) c).
  2:{ apply on_mem_same. unfold strnlen. rewrite bounded_run. rewrite (strnlen_args _ _ arg); [by rewrite Z.add_0_l|by rewrite Z.add_0_r|lia|lia|by eapply str_at_size]. }
  replace (Z.of_nat k + 1) with (Z.of_nat (S k)) by lia. apply IH; [done|lia|lia].
Qed.

Definition argv_of (args : list (list Z)) : list Z := ptrs A args ++ replicate (65 - length args) NULL.
Lemma length_ptrs p args : length (ptrs p args) = length args.
Proof. revert p. induction args as [|arg args IH]; intros p; cbn; [done|]. by rewrite IH. Qed.

Lemma read_command_line_run c args : bytes_at (memory c) (ptov LOADER_ARG_CNT) (le32 (Z.of_nat (length args))) → laid (memory c) A args →
  total args ≤ LOADER_ARGS_LEN → (length args ≤ 64)%nat → read_command_line c = Ok (argv_of args, c).
Proof.
  intros Hc Hl Ht Hn. unfold read_command_line. assert (in_u 32 (Z.of_nat (length args))) as Hu by (unfold in_u; lia).
  rewrite (bind_Ok _ _ _ (Z.of_nat (length args)) c).
  2:{ apply on_mem_same. by apply load_u32_run. }
  replace (i32 (Z.of_nat (length args))) with (Z.of_nat (length args)) by (symmetry; apply wraps_id; [lia|unfold in_s; lia]). cbv zeta. rewrite Nat2Z.id.
  change (Z.to_nat (LOADER_ARGS_LEN / 2 + 1)) with 65%nat. rewrite (bind_Ok _ _ _ _ _ (args_loop_run c args (replicate 65 NULL) 0 A Hl ltac:(lia) ltac:(lia) ltac:(by rewrite length_replicate))).
  unfold set_argv. rewrite decide_True by (change (LOADER_ARGS_LEN / 2 + 1) with 65; lia). rewrite Nat2Z.id. cbn [take app Nat.add]. rewrite drop_replicate. unfold argv_of, mret, M_ret. do 2 f_equal.
  rewrite take_0. cbn [app]. rewrite insert_app_r_alt by (rewrite length_ptrs; lia). rewrite length_ptrs, Nat.sub_diag. f_equal. by destruct (65 - length args)%nat eqn:E; [lia|].
Qed.

(** ** Actions *)

Lemma find_action_run c p name l : 0 < p → str_at (memory c) p name → Forall (in_u 8) name → lits_at (memory c) → Forall (λ x, x.1.1 ∈ lits) l →
  find_action lit p l c = match list_find (λ x, chars x.1.1 = name) l with Some (_, (_, argc, a)) => Ok ((argc, a), c) | None => Err Panic end.
Proof.
  intros Hp Hs Hu HL. induction 1 as [|[[n argc] a] l Hn Hl IH]; [done|]. cbn [find_action list_find].
  rewrite (bind_Ok _ _ _ _ _ (streq_run c p name n Hp Hs Hu HL Hn)). cbn [fst snd]. destruct (decide (chars n = name)) as [E|E].
  - by rewrite bool_decide_eq_true_2.
  - rewrite bool_decide_eq_false_2 by congruence. rewrite IH. by destruct (list_find _ l) as [[? [[? ?] ?]]|].
Qed.
Lemma actions_known : Forall (λ x, x.1.1 ∈ lits ∧ (x.1.2 = 1 ∨ x.1.2 = 2)%nat) actions.
Proof. repeat (constructor; [split; [by apply lit_in|auto]|]). constructor. Qed.

(** The argument of an action that was run. *)
Definition ran (m : mem) (x : action * Z) (y : action * option (list Z)) : Prop := x.1 = y.1 ∧ value_at m (A + LOADER_ARGS_LEN) x.2 y.2.

Definition with_performed (xs : list (action * Z)) (c : config) : config :=
  Config (memory c) (how c) (format_filesys c) (filesys_bdev_name c) (scratch_bdev_name c) (user_page_limit c) (active_sched_policy c) (generator c) (performed c ++ xs).
Lemma with_performed_app xs ys c : with_performed ys (with_performed xs c) = with_performed (xs ++ ys) c.
Proof. unfold with_performed. cbn. by rewrite app_assoc. Qed.

Lemma run_actions_run fuel fuel' argv zs k args p c :
  drop k argv = ptrs p args ++ NULL :: zs → (length args < fuel)%nat → (length args < fuel')%nat → laid (memory c) p args → text_ok args →
  A ≤ p → p + total args ≤ A + LOADER_ARGS_LEN → lits_at (memory c) →
  match actions_spec fuel' args with
  | None => run_actions lit fuel argv k c = Err Panic
  | Some ys => ∃ xs, run_actions lit fuel argv k c = Ok ((), with_performed xs c) ∧ Forall2 (ran (memory c)) xs ys
  end.
Proof.
  revert fuel' k args p c. induction fuel as [|fuel IH]; intros [|fuel'] k args p c Hd Hf Hf' Hl Ht HA Hend HL; [lia..|]. cbn [run_actions].
  destruct args as [|name args]; cbn [actions_spec ptrs laid length total] in *.
  - assert (argv !! k = Some NULL) as Hk by (rewrite <- (Nat.add_0_r k), <- lookup_drop, Hd; done).
    rewrite (bind_Ok _ _ _ NULL c) by (by rewrite Hk). rewrite decide_True by done. exists []. split; [|constructor]. unfold with_performed. rewrite app_nil_r. by destruct c.
  - destruct Hl as [Hs Hl]. apply Forall_cons in Ht as [[Hu _] Ht]. pose proof (A_pos p HA) as Hp. pose proof (total_nonneg args) as Htot.
    assert (argv !! k = Some p) as Hk by (rewrite <- (Nat.add_0_r k), <- lookup_drop, Hd; done).
    rewrite (bind_Ok _ _ _ p c) by (by rewrite Hk). rewrite decide_False by (unfold NULL; lia).
    pose proof (find_action_run c p name actions Hp Hs Hu HL ltac:(eapply Forall_impl; [apply actions_known|]; by intros ? [? _])) as Ef.
    destruct (list_find (λ x, chars x.1.1 = name) actions) as [[i [[nm argc] act]]|] eqn:Elf; cbn [mbind option_bind]; [|by rewrite (bind_Err _ _ _ _ Ef)].
    rewrite (bind_Ok _ _ _ _ _ Ef). apply list_find_Some in Elf as (Hi & _ & _). cbn [fst snd].
    set (p1 := p + Z.of_nat (length name) + 1) in *. assert (drop (k + 1) argv = ptrs p1 args ++ NULL :: zs) as Hd1 by (rewrite <- drop_drop, Hd; done).
    destruct (Forall_lookup_1 _ _ _ _ actions_known Hi) as [_ [Ha|Ha]]; cbn [fst snd] in Ha; subst argc; cbn [Nat.sub check_args].
    + rewrite (bind_Ok _ _ _ () c) by done. rewrite decide_True by done. rewrite (bind_Ok _ _ _ NULL c) by done.
      rewrite (bind_Ok _ _ _ () (with_performed [(act, NULL)] c)) by done.
      specialize (IH fuel' (k + 1)%nat args p1 (with_performed [(act, NULL)] c) Hd1 ltac:(lia) ltac:(lia) Hl Ht ltac:(unfold p1; lia) ltac:(unfold p1; lia) HL).
      destruct (actions_spec fuel' args) as [ys|]; cbn; [|done]. destruct IH as (xs & E & Hxs). exists ((act, NULL) :: xs). rewrite E, with_performed_app. split; [done|].
      constructor; [by split|done].
    + destruct args as [|arg args]; cbn [ptrs laid total length app] in *.
      { assert (argv !! (k + 1)%nat = Some NULL) as Hk1 by (rewrite <- (Nat.add_0_r (k + 1)), <- lookup_drop, Hd1; done). by rewrite Hk1. }
      assert (argv !! (k + 1)%nat = Some p1) as Hk1 by (rewrite <- (Nat.add_0_r (k + 1)), <- lookup_drop, Hd1; done).
      destruct Hl as [Hs1 Hl]. apply Forall_cons in Ht as [_ Ht]. pose proof (total_nonneg args) as Htot1.
      rewrite (bind_Ok _ _ _ () c) by (rewrite Hk1; erewrite bind_Ok by reflexivity; by rewrite decide_False by (unfold NULL, p1; lia)).
      rewrite decide_False by done. rewrite Nat.add_1_r in Hk1. rewrite (bind_Ok _ _ _ p1 c) by (by rewrite Hk1).
      rewrite (bind_Ok _ _ _ () (with_performed [(act, p1)] c)) by done. set (p2 := p1 + Z.of_nat (length arg) + 1) in *.
      assert (drop (k + 2) argv = ptrs p2 args ++ NULL :: zs) as Hd2 by (replace (k + 2)%nat with (k + 1 + 1)%nat by lia; rewrite <- drop_drop, Hd1; done).
      specialize (IH fuel' (k + 2)%nat args p2 (with_performed [(act, p1)] c) Hd2 ltac:(lia) ltac:(lia) Hl Ht ltac:(unfold p2, p1; lia) ltac:(unfold p2, p1; lia) HL).
      destruct (actions_spec fuel' args) as [ys|]; cbn; [|done]. destruct IH as (xs & E & Hxs). exists ((act, p1) :: xs). rewrite E, with_performed_app. split; [done|].
      constructor; [|done]. split; [done|]. cbn [fst snd value_at]. split; [unfold p1; lia|]. split; [done|unfold p1 in *; lia].
Qed.

(** ** The whole command line *)

Lemma choose_run flags c : length flags = 8%nat → choose flags c = match policy_spec flags with Some p => Ok (p, c) | None => Err Panic end.
Proof.
  intros H. do 8 (destruct flags as [|? flags]; [done|]). destruct flags; [|done].
  repeat match goal with b : bool |- _ => destruct b end; reflexivity.
Qed.
Lemma option_flags name v s s' : option_spec name v s = Go s' → length (s_flags s') = length (s_flags s).
Proof.
  unfold option_spec. repeat case_decide; try done; try (by intros [= <-]).
  - by destruct v; intros [= <-].
  - destruct (v ≫= flag_of); [|done]. intros [= <-]. cbn. by rewrite length_insert.
  - by destruct v; intros [= <-].
Qed.
Lemma options_flags args s s' n : options_spec args s = (n, Go s') → length (s_flags s') = length (s_flags s) ∧ (n ≤ length args)%nat.
Proof.
  revert s s' n. induction args as [|arg args IH]; intros s s' n; cbn; [by intros [= <- <-]|]. destruct (is_option arg); [|intros [= <- <-]; split; [done|lia]].
  destruct (option_spec _ _ s) as [| |s1] eqn:E; [done|done|]. destruct (options_spec args s1) as [n1 v1] eqn:E1. cbn. intros [= <- ->].
  destruct (IH s1 s' n1 E1) as [-> H]. split; [by eapply option_flags|lia].
Qed.

End Strings.

(** What the kernel makes of its arguments. *)
Inductive outcome := Switched_off | Panicked | Ran (s : settings) (p : sched_policy) (l : list (action * option (list Z))).
Definition line_spec (args : list (list Z)) : outcome :=
  match options_spec args defaults with
  | (_, Off) => Switched_off
  | (_, Bad) => Panicked
  | (n, Go s) =>
      match policy_spec (s_flags s), actions_spec (S (length args)) (drop n args) with
      | Some p, Some l => Ran s p l
      | _, _ => Panicked
      end
  end.

(** C17: for every command line of at most 64 arguments that the loader has put
    into its 128 bytes, with numbers of at most nine digits, the kernel does
    what [line_spec] says: options set their variables and come first, [-h]
    switches the machine off, an unknown option or action, one that lacks its value, or two
    schedulers are a panic, and the actions run in their order with their
    arguments.  The generator of random numbers is in the end seeded with the
    time, also when the option [-rs] has given a seed. *)
Theorem command_line lit now m args :
  lits_at lit m → lits_apart lit → bytes_at m (ptov LOADER_ARG_CNT) (le32 (Z.of_nat (length args))) → laid m A args → text_ok args →
  total args ≤ LOADER_ARGS_LEN → (length args ≤ 64)%nat →
  match line_spec args with
  | Switched_off => ∃ c, main_actions lit now (initial m) = Ok (false, c)
  | Panicked => main_actions lit now (initial m) = Err Panic
  | Ran s p l => ∃ c, main_actions lit now (initial m) = Ok (true, c) ∧ how c = s_how s ∧ format_filesys c = s_format s ∧ user_page_limit c = s_limit s ∧
      value_at (memory c) (A + LOADER_ARGS_LEN) (filesys_bdev_name c) (s_filesys s) ∧ value_at (memory c) (A + LOADER_ARGS_LEN) (scratch_bdev_name c) (s_scratch s) ∧
      Boot.active_sched_policy c = p ∧ Random.random_init now Random.start = Ok ((), generator c) ∧ Forall2 (ran (memory c)) (performed c) l
  end.
Proof.
  intros HL Hap Hc Hl Ht Htot Hn. set (c0 := initial m). unfold main_actions. rewrite (bind_Ok _ _ _ _ _ (read_command_line_run c0 args Hc Hl Htot Hn)).
  unfold parse_options, line_spec. set (argv := argv_of args).
  assert (drop 0 argv = ptrs A args ++ NULL :: replicate (64 - length args) NULL) as Hd.
  { rewrite drop_0. unfold argv, argv_of. f_equal. by replace (65 - length args)%nat with (S (64 - length args)) by lia. }
  assert (length argv = 65%nat) as Hlen by (unfold argv, argv_of; rewrite length_app, length_ptrs, length_replicate; lia).
  pose proof (options_loop_run lit Hap (S (length argv)) argv _ 0 args A c0 defaults Hd ltac:(lia) Hl Ht ltac:(lia) ltac:(lia) HL ltac:(by split)) as Ho.
  destruct (options_spec args defaults) as [n [| |s]] eqn:Eo.
  - destruct Ho as (c & E). exists c. by erewrite bind_Ok by (by rewrite (bind_Ok _ _ _ _ _ E)).
  - apply bind_Err. by apply bind_Err.
  - destruct Ho as (c1 & E & Hag & Hd1 & Hl1 & HL1 & _). destruct (options_flags _ _ _ _ Eo) as [Hfl Hnn]. cbn [Nat.add] in *.
    pose proof (choose_run (s_flags s) c1 Hfl) as Ech. destruct (policy_spec (s_flags s)) as [pol|].
    2:{ apply bind_Err. rewrite (bind_Ok _ _ _ _ _ E). by apply bind_Err. }
    destruct (random_init_gen now (set_policy pol c1)) as (g & Eg & Eg'). set (c2 := set_generator g (set_policy pol c1)) in *.
    erewrite bind_Ok by (rewrite (bind_Ok _ _ _ _ _ E), (bind_Ok _ _ _ _ _ Ech); rewrite (bind_Ok _ _ _ () (set_policy pol c1)) by done; by rewrite (bind_Ok _ _ _ _ _ Eg)).
    assert (total (take n args) + total (drop n args) = total args) as Htt by (rewrite <- total_app; by rewrite take_drop).
    pose proof (total_nonneg (take n args)). pose proof (total_nonneg (drop n args)).
    pose proof (run_actions_run lit (S (length argv)) (S (length args)) argv _ n (drop n args) (A + total (take n args)) c2 Hd1) as Hr.
    rewrite length_drop in Hr. specialize (Hr ltac:(lia) ltac:(lia) Hl1 ltac:(by apply Forall_drop) ltac:(lia) ltac:(lia) HL1).
    destruct (actions_spec (S (length args)) (drop n args)) as [ys|]; [|by rewrite (bind_Err _ _ _ _ Hr)].
    destruct Hr as (xs & Er & Hxs). rewrite (bind_Ok _ _ _ _ _ Er). exists (with_performed xs c2). split; [done|]. destruct Hag as [G1 G2 G3 G4 G5 G6].
    do 3 (split; [done|]). split; [eapply value_weaken; [|exact G3]; lia|]. split; [eapply value_weaken; [|exact G4]; lia|]. split; [done|].
    split; [done|]. cbn. by rewrite G6.
Qed.

(** ** More than 64 arguments *)

Lemma empty_args_loop c n k argv : (k ≤ 65)%nat → (65 < k + n)%nat → bytes_at (memory c) A (replicate 128 0) →
  args_loop n argv (Z.of_nat k) (A + Z.of_nat k) (A + LOADER_ARGS_LEN) c = Err Undef.
Proof.
  intros Hk Hn Hb. revert k argv Hk Hn. induction n as [|n IH]; intros k argv Hk Hn; [lia|]. cbn [args_loop]. rewrite decide_False by (unfold LOADER_ARGS_LEN; lia).
  destruct (decide (k = 65%nat)) as [->|Hne]; [by apply bind_Err|].
  erewrite bind_Ok by (unfold set_argv; rewrite decide_True by (change (LOADER_ARGS_LEN / 2 + 1) with 65; lia); reflexivity).
  rewrite (bind_Ok _ _ _ 0 c).
  - replace (Z.of_nat k + 1) with (Z.of_nat (S k)) by lia. replace (A + Z.of_nat k + 0 + 1) with (A + Z.of_nat (S k)) by lia. apply IH; lia.
  - apply on_mem_same. unfold strnlen. rewrite bounded_run. apply (strnlen_args _ _ []); [|lia|cbn; unfold LOADER_ARGS_LEN; lia|cbn; lia].
    rewrite Z.add_0_r. apply str_at_nil. apply Hb. apply lookup_replicate. split; [done|lia].
Qed.

(** An argument can be empty, so that it takes one byte only, and 65 or
    more of them fit into the 128 bytes of the loader; [argv] has 65 elements, one
    of them for the null pointer, and [read_command_line] writes past its end. *)
Theorem many_arguments_overflow m (n : nat) : (65 ≤ n ≤ 128)%nat → bytes_at m (ptov LOADER_ARG_CNT) (le32 (Z.of_nat n)) → bytes_at m A (replicate 128 0) →
  read_command_line (initial m) = Err Undef.
Proof.
  intros Hn Hc Hb. unfold read_command_line. rewrite (bind_Ok _ _ _ (Z.of_nat n) (initial m)) by (apply on_mem_same; apply load_u32_run; [unfold in_u; lia|done]).
  replace (i32 (Z.of_nat n)) with (Z.of_nat n) by (symmetry; apply wraps_id; [lia|unfold in_s; lia]). cbv zeta. rewrite Nat2Z.id.
  pose proof (empty_args_loop (initial m) n 0 (replicate 65 NULL) ltac:(lia)) as H. change (A + Z.of_nat 0) with A in H.
  destruct (decide (n = 65%nat)) as [->|Hne]; [|by apply bind_Err, H; [lia|]].
  assert (laid m A (replicate 65 [])) as Hl.
  { assert (∀ j k, (k + j ≤ 128)%nat → laid m (A + Z.of_nat k) (replicate j [])) as H'; [|by apply (H' 65%nat 0%nat); lia].
    induction j as [|j IH]; intros k Hk; cbn; [done|]. split; [apply str_at_nil, Hb, lookup_replicate; split; [done|lia]|].
    replace (A + Z.of_nat k + Z.of_nat 0 + 1) with (A + Z.of_nat (S k)) by lia. apply IH. lia. }
  destruct (args_loop_any (initial m) (replicate 65 []) (replicate 65 NULL) 0 A Hl) as [argv E]; [by vm_compute|by vm_compute|].
  rewrite length_replicate in E. rewrite (bind_Ok _ _ _ _ _ E). reflexivity.
Qed.

(** ** Witnesses *)

(** Literals at multiples of 16, and the arguments given. *)
Definition demo_lit (s : string) : Z := 4096 + 16 * match list_find (λ x, x = s) lits with Some (i, _) => Z.of_nat i | None => 1000 end.
Definition demo_memory (args : list (list Z)) : mem :=
  write (ptov LOADER_ARG_CNT) (le32 (Z.of_nat (length args))) (write A (args ≫= λ arg, arg ++ [0]) (foldr (λ s m, write (demo_lit s) (chars s ++ [0]) m) ∅ lits)).
Definition demo_args : list (list Z) := chars <$> ["-q"; "-sched=prio"; "-filesys=hdb1"; "-rs=17"; "run"; "echo x"; "ls"]%string.

Lemma command_line_witness : ∃ c, main_actions demo_lit 5 (initial (demo_memory demo_args)) = Ok (true, c) ∧ Boot.active_sched_policy c = SCHED_PRIO ∧
  value_at (memory c) (A + LOADER_ARGS_LEN) (filesys_bdev_name c) (Some (chars "hdb1")) ∧
  Forall2 (ran (memory c)) (performed c) [(run_task, Some (chars "echo x")); (fsutil_ls, None)].
Proof.
  pose proof (command_line demo_lit 5 (demo_memory demo_args) demo_args) as H.
  assert (lits_at demo_lit (demo_memory demo_args)) as HL.
  { intros s. revert s. apply Forall_forall. unfold lits. repeat (apply Forall_cons; split; [split; [done|apply str_at_check; vm_compute; reflexivity]|]). by apply Forall_nil. }
  assert (lits_apart demo_lit) as Hap.
  { intros s. revert s. apply Forall_forall. unfold lits. repeat (apply Forall_cons; split; [right; vm_compute; congruence|]). by apply Forall_nil. }
  specialize (H HL Hap ltac:(apply bytes_at_check; vm_compute; reflexivity)).
  assert (laid (demo_memory demo_args) A demo_args) as Hl.
  { unfold demo_args. cbn [fmap list_fmap laid]. repeat (split; [apply str_at_check; vm_compute; reflexivity|]). done. }
  assert (text_ok demo_args) as Ht.
  { unfold text_ok, demo_args. apply Forall_fmap, Forall_forall. intros t Ht'. split; [apply chars_octets|]. revert t Ht'. apply Forall_forall.
    apply (bool_decide_eq_true_1 _). vm_compute. reflexivity. }
  specialize (H Hl Ht ltac:(vm_compute; congruence) ltac:(vm_compute; lia)).
  assert (line_spec demo_args = Ran (Settings SHUTDOWN_POWER_OFF false (Some (chars "hdb1")) None SIZE_MAX [false; true; false; false; false; false; false; false]) SCHED_PRIO
    [(run_task, Some (chars "echo x")); (fsutil_ls, None)]) as El by (vm_compute; reflexivity).
  rewrite El in H. destruct H as (c & E & _ & _ & _ & Hf & _ & Hp & _ & Hx).
  exists c. exact (conj E (conj Hp (conj Hf Hx))).
Defined.

Lemma many_arguments_overflow_witness : read_command_line (initial (demo_memory (replicate 128 []))) = Err Undef.
Proof. apply (many_arguments_overflow _ 128); [lia|apply bytes_at_check; vm_compute; reflexivity|apply bytes_at_check; vm_compute; reflexivity]. Defined.

End BootSpec.
