(* ===== verification/Rtc.v ===== *)
(** * The real-time clock (devices/rtc.c)

    [rtc_get_time] on a clock that is read through its registers: [cmos n i] is
    what the [n]th access finds in register [i].  A reference definition of the
    seconds since 1970 shows by how much the result is off. *)

From S2P Require Import Prelude.

Module Rtc.

Definition RTC_REG_SEC : Z := 0.
Definition RTC_REG_MIN : Z := 2.
Definition RTC_REG_HOUR : Z := 4.
Definition RTC_REG_MDAY : Z := 7.
Definition RTC_REG_MON : Z := 8.
Definition RTC_REG_YEAR : Z := 9.

Section Rtc.
Context (cmos : nat → Z → Z).
(** The state is the number of accesses so far. *)
Abbreviation T := (M nat).

Definition cmos_read (index : Z) : T Z := n ← get; put (S n);; mret (cmos n index).
Definition bcd_to_bin (x : Z) : Z := Z.land x 0x0f + Z.shiftr x 4 * 10.
Definition read_bcd (index : Z) : T Z := x ← cmos_read index; mret (bcd_to_bin x).

(** The [do] loop, for a number of rounds. *)
Fixpoint read_stable (fuel : nat) : T (Z * Z * Z * Z * Z * Z) :=
  match fuel with
  | O => fail NoFuel
  | S fuel =>
      sec ← read_bcd RTC_REG_SEC; min ← read_bcd RTC_REG_MIN; hour ← read_bcd RTC_REG_HOUR;
      mday ← read_bcd RTC_REG_MDAY; mon ← read_bcd RTC_REG_MON; year ← read_bcd RTC_REG_YEAR;
      again ← read_bcd RTC_REG_SEC;
      if decide (sec ≠ again) then read_stable fuel else mret (sec, min, hour, mday, mon, year)
  end.

(** An [int] expression: its value must be in range. *)
Definition int (z : Z) : T Z := if decide (in_s 32 z) then mret z else fail Undef.
Definition days_per_month : list Z := [31; 28; 31; 30; 31; 30; 31; 31; 30; 31; 30; 31].
(** [for (i = 1; i <= mon; i++)], with [n] rounds left. *)
Fixpoint months_loop (n : nat) (i time : Z) : T Z :=
  match n with
  | O => mret time
  | S n => d ← lift (days_per_month !! Z.to_nat (i - 1)) Undef; time ← int (time + d * 24 * 60 * 60); months_loop n (i + 1) time
  end.

(** The seconds up to the month, for years since 1970. *)
Definition month_time (mon year : Z) : T Z :=
  time ← int ((year * 365 + Z.quot (year - 1) 4) * 24 * 60 * 60);
  time ← months_loop (Z.to_nat mon) 1 time;
  if decide (2 < mon ∧ Z.rem year 4 = 0) then int (time + 24 * 60 * 60) else mret time.
Definition time_of (sec min hour mday mon year : Z) : T Z :=
  let year := (if decide (year < 70) then year + 100 else year) - 70 in
  time ← month_time mon year;
  time ← int (time + (mday - 1) * 24 * 60 * 60);
  time ← int (time + hour * 60 * 60);
  time ← int (time + min * 60);
  int (time + sec).
Definition rtc_get_time (fuel : nat) : T Z :=
  r ← read_stable fuel;
  let '(sec, min, hour, mday, mon, year) := r in time_of sec min hour mday mon year.

(** ** The reference *)

Definition leap (y : Z) : bool := (y mod 4 =? 0) && (negb (y mod 100 =? 0) || (y mod 400 =? 0)).
Definition days_in_year (y : Z) : Z := if leap y then 366 else 365.
Definition days_in_month (y m : Z) : Z := if (m =? 2) && leap y then 29 else default 0 (days_per_month !! Z.to_nat (m - 1)).
Definition sum (l : list Z) : Z := foldr Z.add 0 l.
(** The days from 1 January 1970 to the given day. *)
Definition days_before (y m d : Z) : Z := sum (days_in_year <$> seqZ 1970 (y - 1970)) + sum (days_in_month y <$> seqZ 1 (m - 1)) + (d - 1).
Definition unix_time (y m d hour min sec : Z) : Z := days_before y m d * 86400 + hour * 3600 + min * 60 + sec.

Record date := Date { d_year : Z; d_mon : Z; d_day : Z; d_hour : Z; d_min : Z; d_sec : Z }.
(** A date for which the result, which is more than the time, fits 31 bits. *)
Definition date_ok (x : date) : Prop :=
  1970 ≤ d_year x ≤ 2036 ∧ 1 ≤ d_mon x ≤ 12 ∧ 1 ≤ d_day x ≤ days_in_month (d_year x) (d_mon x) ∧ 0 ≤ d_hour x < 24 ∧ 0 ≤ d_min x < 60 ∧ 0 ≤ d_sec x < 60.
Definition bcd (n : Z) : Z := n / 10 * 16 + n mod 10.
Definition registers (x : date) (i : Z) : Z :=
  if decide (i = RTC_REG_SEC) then bcd (d_sec x) else if decide (i = RTC_REG_MIN) then bcd (d_min x) else if decide (i = RTC_REG_HOUR) then bcd (d_hour x)
  else if decide (i = RTC_REG_MDAY) then bcd (d_day x) else if decide (i = RTC_REG_MON) then bcd (d_mon x) else if decide (i = RTC_REG_YEAR) then bcd (d_year x mod 100) else 0.

Lemma bcd_run n : 0 ≤ n < 100 → bcd_to_bin (bcd n) = n.
Proof.
  intros Hn. assert (Forall (λ n, bcd_to_bin (bcd n) = n) (seqZ 0 100)) as H by (apply (bool_decide_eq_true_1 _); vm_compute; reflexivity).
  rewrite Forall_forall in H. apply H, elem_of_seqZ. lia.
Qed.

(** The days that are too many: the month itself is counted, and the leap days
    are counted for the wrong years. *)
Definition surplus (y m : Z) : Z :=
  default 0 (days_per_month !! Z.to_nat (m - 1)) + Z.quot (y - 1971) 4 - (y - 1969) / 4 + (if decide (2 < m ∧ (y - 1970) mod 4 = 0) then 1 else 0) - (if decide (2 < m ∧ y mod 4 = 0) then 1 else 0).

(** Every month, by computation. *)
Definition month_ok (y m : Z) : bool :=
  match month_time m (y - 1970) 0%nat with
  | Ok (t, _) => (t =? (days_before y m 1 + surplus y m) * 86400) && (0 <=? t) && (t <? 2 ^ 31 - 31 * 86400) && (27 <=? surplus y m) && (surplus y m <=? 32) && (days_in_month y m <=? 31)
  | Err _ => false
  end.
Lemma all_months_ok : forallb (λ y, forallb (month_ok y) (seqZ 1 12)) (seqZ 1970 67) = true.
Proof. vm_compute. reflexivity. Qed.

(** No step looks at the state. *)
Lemma int_any z n n' t m : int z n = Ok (t, m) → m = n ∧ int z n' = Ok (t, n').
Proof. unfold int. case_decide; [|done]. by intros [= -> ->]. Qed.
Lemma int_run z n : in_s 32 z → int z n = Ok (z, n).
Proof. intros H. unfold int. by rewrite decide_True. Qed.
Lemma months_any k i t n n' r m : months_loop k i t n = Ok (r, m) → m = n ∧ months_loop k i t n' = Ok (r, n').
Proof.
  revert i t. induction k as [|k IH]; intros i t; cbn [months_loop]; [by intros [= -> ->]|]. unfold int, lift, mbind, M_bind, mret, M_ret, fail. destruct (days_per_month !! _); [|done].
  case_decide; [apply IH|done].
Qed.
Lemma month_any mon y n n' t m : month_time mon y n = Ok (t, m) → month_time mon y n' = Ok (t, n').
Proof.
  unfold month_time. intros H. apply bind_Ok_inv in H as (t1 & s1 & H1 & H). destruct (int_any _ _ n' _ _ H1) as [-> E1].
  rewrite (bind_Ok _ _ _ _ _ E1). apply bind_Ok_inv in H as (t2 & s2 & H2 & H). destruct (months_any _ _ _ _ n' _ _ H2) as [-> E2].
  rewrite (bind_Ok _ _ _ _ _ E2). case_decide; [by destruct (int_any _ _ n' _ _ H)|]. by injection H as -> _.
Qed.
Lemma month_run y m n : 1970 ≤ y ≤ 2036 → 1 ≤ m ≤ 12 → ∃ t, month_time m (y - 1970) n = Ok (t, n) ∧ t = (days_before y m 1 + surplus y m) * 86400 ∧
  0 ≤ t < 2 ^ 31 - 31 * 86400 ∧ 27 ≤ surplus y m ≤ 32 ∧ days_in_month y m ≤ 31.
Proof.
  intros Hy Hm. pose proof all_months_ok as H. rewrite forallb_forall in H. specialize (H y ltac:(apply list_elem_of_In, elem_of_seqZ; lia)).
  rewrite forallb_forall in H. specialize (H m ltac:(apply list_elem_of_In, elem_of_seqZ; lia)). unfold month_ok in H.
  destruct (month_time m (y - 1970) 0%nat) as [[t s]|] eqn:E; [|done]. exists t. split; [by eapply month_any|]. repeat (apply andb_prop in H as [H ?]).
  rewrite ?Z.leb_le, ?Z.ltb_lt, ?Z.eqb_eq in *. lia.
Qed.

Lemma time_of_run x n : date_ok x →
  time_of (d_sec x) (d_min x) (d_hour x) (d_day x) (d_mon x) (d_year x mod 100) n =
    Ok (unix_time (d_year x) (d_mon x) (d_day x) (d_hour x) (d_min x) (d_sec x) + surplus (d_year x) (d_mon x) * 86400, n) ∧ 27 ≤ surplus (d_year x) (d_mon x) ≤ 32.
Proof.
  intros (Hy & Hm & Hd & Hh & Hi & Hs). unfold time_of. replace ((if decide (d_year x mod 100 < 70) then d_year x mod 100 + 100 else d_year x mod 100) - 70) with (d_year x - 1970) by (case_decide; Z.to_euclidean_division_equations; lia).
  destruct (month_run (d_year x) (d_mon x) n Hy Hm) as (t & E & Et & Ht & Hsu & Hdm). cbv zeta. rewrite (bind_Ok _ _ _ _ _ E).
  do 3 (erewrite (bind_Ok (int _)) by (apply int_run; unfold in_s; lia)). rewrite int_run by (unfold in_s; lia). split; [|done]. do 2 f_equal.
  unfold unix_time. rewrite Et. unfold days_before. lia.
Qed.

Lemma read_bcd_run i n v : cmos n i = bcd v → 0 ≤ v < 100 → read_bcd i n = Ok (v, S n).
Proof. intros E Hv. unfold read_bcd, cmos_read, get, put, mbind, M_bind, mret, M_ret. by rewrite E, bcd_run. Qed.

(** On a clock that shows a valid date between 1970 and 2036,
    [rtc_get_time] returns, after one round, a time that is 27 to 32 days past
    the seconds since 1970 that its comment promises, and so never the time:
    the days of the current month are added, and leap years are taken to
    be 1970, 1974 and so on. *)
Theorem rtc_off_by_a_month x n : date_ok x → (∀ n i, cmos n i = registers x i) →
  ∃ days, 27 ≤ days ≤ 32 ∧ rtc_get_time 1 n = Ok (unix_time (d_year x) (d_mon x) (d_day x) (d_hour x) (d_min x) (d_sec x) + days * 86400, (n + 7)%nat).
Proof.
  intros Hx Hc. pose proof Hx as (Hy & Hm & Hd & Hh & Hi & Hs). destruct (month_run (d_year x) (d_mon x) n Hy Hm) as (_ & _ & _ & _ & _ & Hdm).
  destruct (time_of_run x (7 + n) Hx) as [E Hsu]. exists (surplus (d_year x) (d_mon x)). split; [done|]. unfold rtc_get_time.
  erewrite bind_Ok.
  2:{ cbn [read_stable]. rewrite (bind_Ok _ _ _ _ _ (read_bcd_run RTC_REG_SEC n (d_sec x) (Hc _ _) ltac:(lia))), (bind_Ok _ _ _ _ _ (read_bcd_run RTC_REG_MIN _ (d_min x) (Hc _ _) ltac:(lia))),
        (bind_Ok _ _ _ _ _ (read_bcd_run RTC_REG_HOUR _ (d_hour x) (Hc _ _) ltac:(lia))), (bind_Ok _ _ _ _ _ (read_bcd_run RTC_REG_MDAY _ (d_day x) (Hc _ _) ltac:(lia))),
        (bind_Ok _ _ _ _ _ (read_bcd_run RTC_REG_MON _ (d_mon x) (Hc _ _) ltac:(lia))), (bind_Ok _ _ _ _ _ (read_bcd_run RTC_REG_YEAR _ (d_year x mod 100) (Hc _ _) ltac:(Z.to_euclidean_division_equations; lia))),
        (bind_Ok _ _ _ _ _ (read_bcd_run RTC_REG_SEC _ (d_sec x) (Hc _ _) ltac:(lia))). rewrite decide_False by (by intros []). reflexivity. }
  cbn beta iota. replace (n + 7)%nat with (7 + n)%nat by lia. exact E.
Qed.

End Rtc.

(** 29 February 2024, 12:30:45. *)
Lemma rtc_off_by_a_month_witness : ∃ days, 27 ≤ days ≤ 32 ∧ rtc_get_time (λ _, registers (Date 2024 2 29 12 30 45)) 1 0%nat = Ok (1709209845 + days * 86400, 7%nat).
Proof. apply (rtc_off_by_a_month (λ _, registers (Date 2024 2 29 12 30 45)) (Date 2024 2 29 12 30 45) 0%nat); [vm_compute; repeat split; congruence|done]. Defined.

End Rtc.
