(* ===== verification/Vga.v ===== *)
(** * The text screen (devices/vga.c)

    The frame buffer, as rows of cells with a character and an attribute, and
    the cursor.  The position that [find_cursor] reads from the hardware at the
    first call is a parameter; the beep is left out, and so is [move_cursor], which
    tells the hardware the position. *)

From S2P Require Import Prelude.

Module Vga.

Definition COL_CNT : Z := 80.
Definition ROW_CNT : Z := 25.
Definition GRAY_ON_BLACK : Z := 0x07.

Abbreviation cell := (Z * Z)%type.
Abbreviation row := (list cell).
Record screen := Screen { fb : list row; cx : Z; cy : Z; inited : bool }.
Abbreviation V := (M screen).

Definition set_fb (f : list row) (s : screen) : screen := Screen f (cx s) (cy s) (inited s).
Definition set_cursor (x y : Z) (s : screen) : screen := Screen (fb s) x y (inited s).

(** [fb[y][x] = ...] *)
Definition store_cell (y x : Z) (c : cell) : V unit :=
  s ← get;
  r ← lift (fb s !! Z.to_nat y) Undef;
  lift (r !! Z.to_nat x) Undef;;
  put (set_fb (<[Z.to_nat y := <[Z.to_nat x := c]> r]> (fb s)) s).

Fixpoint clear_loop (n : nat) (y x : Z) : V unit :=
  match n with O => mret () | S n => store_cell y x (32, GRAY_ON_BLACK);; clear_loop n y (x + 1) end.
Definition clear_row (y : Z) : V unit := clear_loop (Z.to_nat COL_CNT) y 0.

Fixpoint cls_loop (n : nat) (y : Z) : V unit := match n with O => mret () | S n => clear_row y;; cls_loop n (y + 1) end.
Definition cls : V unit := cls_loop (Z.to_nat ROW_CNT) 0;; modify (set_cursor 0 0).

(** [memmove (&fb[0], &fb[1], sizeof fb[0] * (ROW_CNT - 1))] *)
Definition scroll (f : list row) : list row := take 24 (drop 1 f) ++ drop 24 f.
Definition newline : V unit :=
  s ← get;
  put (set_cursor 0 (cy s + 1) s);;
  if decide (ROW_CNT ≤ cy s + 1) then
    modify (set_cursor 0 (ROW_CNT - 1));; modify (λ s, set_fb (scroll (fb s)) s);; clear_row (ROW_CNT - 1)
  else mret ().

Section Vga.
(** The 16-bit position that the hardware reports. *)
Context (cp : Z).

Definition find_cursor : Z * Z := (cp mod COL_CNT, cp / COL_CNT).
Definition init : V unit :=
  s ← get; if inited s then mret () else put (Screen (fb s) find_cursor.1 find_cursor.2 true).

Definition vga_putc (c : Z) : V unit :=
  init;;
  s ← get;
  if decide (c = 10) then newline
  else if decide (c = 12) then cls
  else if decide (c = 8) then (if decide (0 < cx s) then put (set_cursor (cx s - 1) (cy s) s) else mret ())
  else if decide (c = 13) then put (set_cursor 0 (cy s) s)
  else if decide (c = 9) then
    put (set_cursor (ROUND_UP (cx s + 1) 8) (cy s) s);;
    if decide (COL_CNT ≤ ROUND_UP (cx s + 1) 8) then newline else mret ()
  else if decide (c = 7) then mret ()
  else
    store_cell (cy s) (cx s) (u8 c, GRAY_ON_BLACK);;
    modify (λ s, set_cursor (cx s + 1) (cy s) s);;
    if decide (COL_CNT ≤ cx s + 1) then newline else mret ().

Fixpoint putbuf (cs : list Z) : V unit := match cs with [] => mret () | c :: cs => vga_putc c;; putbuf cs end.

(** ** What a character does to the screen *)

Definition blank : row := replicate 80 (32, GRAY_ON_BLACK).
Definition shape (f : list row) : Prop := length f = 25%nat ∧ Forall (λ r, length r = 80%nat) f.
Record ok (s : screen) : Prop := { ok_shape : shape (fb s); ok_x : 0 ≤ cx s < 80; ok_y : 0 ≤ cy s < 25; ok_inited : inited s = true }.

(** Going to the next line, with a blank line at the bottom if need be. *)
Definition next_line (s : screen) : screen :=
  if decide (cy s = 24) then Screen (drop 1 (fb s) ++ [blank]) 0 24 true else Screen (fb s) 0 (cy s + 1) true.
Definition wrap (s : screen) : screen := if decide (80 ≤ cx s) then next_line s else s.
Definition with_cell (y x : Z) (c : cell) (f : list row) : list row := alter (<[Z.to_nat x := c]>) (Z.to_nat y) f.
Definition spec (c : Z) (s : screen) : screen :=
  if decide (c = 10) then next_line s
  else if decide (c = 12) then Screen (replicate 25 blank) 0 0 true
  else if decide (c = 8) then Screen (fb s) (Z.max 0 (cx s - 1)) (cy s) true
  else if decide (c = 13) then Screen (fb s) 0 (cy s) true
  else if decide (c = 9) then wrap (Screen (fb s) (8 * (cx s / 8 + 1)) (cy s) true)
  else if decide (c = 7) then s
  else wrap (Screen (with_cell (cy s) (cx s) (u8 c, GRAY_ON_BLACK) (fb s)) (cx s + 1) (cy s) true).

Lemma alter_insert {A} (g : A → A) (l : list A) i x : l !! i = Some x → alter g i l = <[i := g x]> l.
Proof. revert i. induction l as [|y l IH]; intros [|i] H; cbn in *; [done|done|by simplify_eq|]. by rewrite <- IH. Qed.
Lemma store_cell_run y x c s : shape (fb s) → 0 ≤ y < 25 → 0 ≤ x < 80 → store_cell y x c s = Ok ((), set_fb (with_cell y x c (fb s)) s).
Proof.
  intros [Hl Hr] Hy Hx. unfold store_cell, with_cell. rewrite (bind_Ok get _ s s s eq_refl). destruct (lookup_lt_is_Some_2 (fb s) (Z.to_nat y)) as [r Er]; [lia|].
  assert (length r = 80%nat) as Hlr by (by eapply Forall_lookup_1 in Hr). destruct (lookup_lt_is_Some_2 r (Z.to_nat x)) as [d Ed]; [lia|].
  rewrite (bind_Ok _ _ s r s) by (by rewrite Er). rewrite (bind_Ok _ _ s d s) by (by rewrite Ed). unfold put. do 3 f_equal. by rewrite (alter_insert _ _ _ _ Er).
Qed.
Lemma with_cell_shape y x c f : shape f → shape (with_cell y x c f).
Proof.
  intros [Hl Hr]. unfold with_cell. split; [by rewrite length_alter|]. apply Forall_alter; [done|]. intros r _ Hlr. by rewrite length_insert.
Qed.

Lemma clear_loop_run n y x s : shape (fb s) → 0 ≤ y < 25 → 0 ≤ x → x + Z.of_nat n = 80 →
  clear_loop n y x s = Ok ((), set_fb (alter (λ r, take (Z.to_nat x) r ++ replicate n (32, GRAY_ON_BLACK)) (Z.to_nat y) (fb s)) s).
Proof.
  revert x s. induction n as [|n IH]; intros x s Hs Hy Hx Hn; cbn [clear_loop].
  - replace (alter _ (Z.to_nat y) (fb s)) with (fb s); [by destruct s|]. destruct (lookup_lt_is_Some_2 (fb s) (Z.to_nat y)) as [r Er]; [destruct Hs; lia|].
    rewrite (alter_insert _ _ _ _ Er), list_insert_id; [done|]. rewrite Er. f_equal. cbn. rewrite app_nil_r, take_ge; [done|].
    destruct Hs as [_ Hr]. eapply Forall_lookup_1 in Hr; [|exact Er]. lia.
  - rewrite (bind_Ok _ _ _ _ _ (store_cell_run y x _ s Hs Hy ltac:(lia))). rewrite IH by (done || lia || by apply with_cell_shape). do 2 f_equal. cbn [fb set_fb]. unfold set_fb. cbn. f_equal.
    unfold with_cell. destruct (lookup_lt_is_Some_2 (fb s) (Z.to_nat y)) as [r Er]; [destruct Hs; lia|]. rewrite !(alter_insert _ (fb s) _ _ Er).
    erewrite alter_insert by (apply list_lookup_insert_eq; destruct Hs; lia). rewrite list_insert_insert_eq. f_equal.
    assert (length r = 80%nat) as Hl by (destruct Hs as [_ Hr]; by eapply Forall_lookup_1 in Hr).
    replace (Z.to_nat (x + 1)) with (S (Z.to_nat x)) by lia. rewrite (take_S_r _ _ (32, GRAY_ON_BLACK)) by (apply list_lookup_insert_eq; lia).
    rewrite take_insert_ge by lia. by rewrite <- app_assoc.
Qed.
Lemma clear_row_run y s : shape (fb s) → 0 ≤ y < 25 → clear_row y s = Ok ((), set_fb (<[Z.to_nat y := blank]> (fb s)) s).
Proof.
  intros Hs Hy. unfold clear_row. rewrite clear_loop_run by (done || lia). destruct (lookup_lt_is_Some_2 (fb s) (Z.to_nat y)) as [r Er]; [destruct Hs; lia|].
  by rewrite (alter_insert _ _ _ _ Er).
Qed.
Lemma insert_shape i r f : shape f → length r = 80%nat → shape (<[i := r]> f).
Proof. intros [Hl Hr] H. split; [by rewrite length_insert|]. by apply Forall_insert. Qed.

Lemma newline_run s : shape (fb s) → 0 ≤ cy s < 25 → inited s = true → newline s = Ok ((), next_line s).
Proof.
  intros Hs Hy Hi. unfold newline, next_line. rewrite (bind_Ok get _ s s s eq_refl). erewrite (bind_Ok (put _)) by reflexivity. unfold ROW_CNT.
  destruct (decide (cy s = 24)) as [E|E].
  - rewrite decide_True by lia. erewrite (bind_Ok (modify _)) by reflexivity. erewrite (bind_Ok (modify _)) by reflexivity. destruct Hs as [Hl Hr].
    assert (shape (scroll (fb s))) as Hsc.
    { unfold scroll. split; [rewrite length_app, length_take, !length_drop; lia|]. apply Forall_app. split; [by apply Forall_take, Forall_drop|by apply Forall_drop]. }
    rewrite clear_row_run by (done || lia). do 2 f_equal. unfold set_fb, set_cursor. cbn. rewrite Hi. f_equal. unfold scroll.
    rewrite insert_app_r_alt by (rewrite length_take, length_drop; lia). rewrite take_ge by (rewrite length_drop; lia). f_equal.
    rewrite length_drop, Hl. cbn. destruct (drop 24 (fb s)) as [|r [|]] eqn:Ed; [|done|]; apply (f_equal length) in Ed; rewrite length_drop in Ed; cbn in Ed; lia.
  - rewrite decide_False by lia. unfold set_cursor. by rewrite Hi.
Qed.
Lemma next_line_ok s : shape (fb s) → 0 ≤ cy s < 25 → ok (next_line s).
Proof.
  intros [Hl Hr] Hy. unfold next_line. case_decide; split; cbn; try lia; try done. split; [rewrite length_app, length_drop; cbn; lia|].
  apply Forall_app. split; [by apply Forall_drop|]. by repeat constructor.
Qed.
Lemma wrap_ok s : shape (fb s) → 0 ≤ cx s ≤ 80 → 0 ≤ cy s < 25 → inited s = true → ok (wrap s).
Proof. intros Hs Hx Hy Hi. unfold wrap. case_decide; [by apply next_line_ok|]. split; [done|lia|done|done]. Qed.

Lemma cls_loop_run n y s : shape (fb s) → 0 ≤ y → y + Z.of_nat n = 25 → cls_loop n y s = Ok ((), set_fb (take (Z.to_nat y) (fb s) ++ replicate n blank) s).
Proof.
  revert y s. induction n as [|n IH]; intros y s Hs Hy Hn; cbn [cls_loop].
  - rewrite app_nil_r, take_ge by (destruct Hs; lia). by destruct s.
  - rewrite (bind_Ok _ _ _ _ _ (clear_row_run y s Hs ltac:(lia))). rewrite IH by (lia || by apply insert_shape). do 2 f_equal. unfold set_fb. cbn. f_equal.
    replace (Z.to_nat (y + 1)) with (S (Z.to_nat y)) by lia. rewrite (take_S_r _ _ blank) by (apply list_lookup_insert_eq; destruct Hs; lia).
    rewrite take_insert_ge by lia. by rewrite <- app_assoc.
Qed.

Lemma putc_run c s : ok s → vga_putc c s = Ok ((), spec c s) ∧ ok (spec c s).
Proof.
  intros [Hs Hx Hy Hi]. unfold vga_putc, spec. rewrite (bind_Ok _ _ s () s) by (unfold init; rewrite (bind_Ok get _ s s s eq_refl); by rewrite Hi).
  rewrite (bind_Ok get _ s s s eq_refl). unfold COL_CNT.
  destruct (decide (c = 10)); [split; [by apply newline_run|by apply next_line_ok]|].
  destruct (decide (c = 12)).
  { unfold cls. rewrite (bind_Ok _ _ _ _ _ (cls_loop_run 25 0 s Hs ltac:(lia) ltac:(lia))). unfold modify, set_cursor, set_fb. cbn. rewrite Hi. split; [done|].
    split; cbn; try lia; try done. split; [done|]. by repeat constructor. }
  destruct (decide (c = 8)).
  { case_decide; split; try (split; cbn; try done; lia).
    - unfold put, set_cursor. rewrite Hi. do 3 f_equal. lia.
    - destruct s as [f x y i]. cbn in *. subst i. unfold mret, M_ret. do 3 f_equal. lia. }
  destruct (decide (c = 13)); [unfold put, set_cursor; rewrite Hi; split; [done|by split; cbn; try lia]|].
  destruct (decide (c = 9)).
  { assert (ROUND_UP (cx s + 1) 8 = 8 * (cx s / 8 + 1)) as -> by (unfold ROUND_UP; Z.to_euclidean_division_equations; lia).
    assert (0 ≤ 8 * (cx s / 8 + 1) ≤ 80) as Hr by (Z.to_euclidean_division_equations; lia). erewrite (bind_Ok (put _)) by reflexivity. split; [|by apply wrap_ok].
    unfold wrap. cbn [cx]. unfold set_cursor. rewrite Hi. case_decide; [by apply newline_run|done]. }
  destruct (decide (c = 7)); [by split|].
  rewrite (bind_Ok _ _ _ _ _ (store_cell_run (cy s) (cx s) _ s Hs Hy Hx)). erewrite (bind_Ok (modify _)) by reflexivity. unfold set_cursor, set_fb. cbn [cx cy fb inited]. rewrite Hi.
  pose proof (with_cell_shape (cy s) (cx s) (u8 c, GRAY_ON_BLACK) (fb s) Hs) as Hs'. split; [|apply wrap_ok; cbn; [done|lia|done|done]].
  unfold wrap. cbn [cx]. case_decide; [by apply newline_run|done].
Qed.

(** Once the cursor that the hardware reports at the first character is on the
    screen, writing never leaves the frame buffer, and every character
    does to the screen what [spec] says: the screen is 25 rows of 80 columns,
    text wraps at the end of a row and the screen scrolls up at its end. *)
Theorem vga_shows s cs : shape (fb s) → (inited s = true → 0 ≤ cx s < 80 ∧ 0 ≤ cy s < 25) → 0 ≤ cp < 2000 →
  let s0 := if inited s then s else Screen (fb s) (cp mod 80) (cp / 80) true in
  cs ≠ [] → putbuf cs s = Ok ((), foldl (λ s c, spec c s) s0 cs) ∧ ok (foldl (λ s c, spec c s) s0 cs).
Proof.
  intros Hs Hi Hcp s0 Hne. assert (ok s0) as H0.
  { unfold s0. destruct (inited s) eqn:E; [destruct (Hi eq_refl); by split|]. split; cbn; [done|Z.to_euclidean_division_equations; lia..|done]. }
  assert (∀ c, vga_putc c s = vga_putc c s0) as Hfirst.
  { intros c. unfold s0. destruct (inited s) eqn:E; [done|]. unfold vga_putc. rewrite (bind_Ok init _ s () (Screen (fb s) (cp mod 80) (cp / 80) true)) by (unfold init; rewrite (bind_Ok get _ s s s eq_refl); by rewrite E).
    by rewrite (bind_Ok init _ (Screen (fb s) (cp mod 80) (cp / 80) true) () (Screen (fb s) (cp mod 80) (cp / 80) true)) by done. }
  assert (∀ l s, ok s → putbuf l s = Ok ((), foldl (λ s c, spec c s) s l) ∧ ok (foldl (λ s c, spec c s) s l)) as Hall.
  { induction l as [|c l IH]; intros t Ht; [done|]. cbn [putbuf foldl]. destruct (putc_run c t Ht) as [E Ho]. rewrite (bind_Ok _ _ _ _ _ E). by apply IH. }
  destruct cs as [|c cs]; [done|]. destruct (Hall (c :: cs) s0 H0) as [E Ho]. split; [|done]. rewrite <- E. cbn [putbuf]. unfold mbind, M_bind. by rewrite Hfirst.
Qed.
End Vga.

(** A line that is longer than the screen is wide. *)
Lemma vga_shows_witness : ∃ s, putbuf 160 (replicate 81 65) (Screen (replicate 25 blank) 0 0 false) = Ok ((), s) ∧ cx s = 1 ∧ cy s = 3.
Proof.
  eexists. split; [apply (vga_shows 160 (Screen (replicate 25 blank) 0 0 false) (replicate 81 65)); [split; [done|by repeat constructor]|done|lia|done]|].
  split; vm_compute; reflexivity.
Defined.

End Vga.
