(* ===== verification/Kbd.v ===== *)
(** * The keyboard (devices/kbd.c)

    The handler of keyboard interrupts, with the state of the shift keys, on the
    queue of [Intq].  The bytes that it reads from the data register are
    arguments. *)

From Stdlib Require Import String.
From S2P Require Import Prelude StdLib Stdio Intq.
Import StdLib Stdio.

Module Kbd.

Record kbd := Kbd { left_shift : bool; right_shift : bool; left_alt : bool; right_alt : bool; left_ctrl : bool; right_ctrl : bool; caps_lock : bool;
  key_cnt : Z; queue : Intq.system }.
Abbreviation K := (M kbd).

Definition set_caps (b : bool) (k : kbd) : kbd := Kbd (left_shift k) (right_shift k) (left_alt k) (right_alt k) (left_ctrl k) (right_ctrl k) b (key_cnt k) (queue k).
Definition add_key (s : Intq.system) (k : kbd) : kbd := Kbd (left_shift k) (right_shift k) (left_alt k) (right_alt k) (left_ctrl k) (right_ctrl k) (caps_lock k) (key_cnt k + 1) s.

(** Pairs of a first scancode and characters, without the last entry. *)
Definition invariant_keymap : list (Z * list Z) :=
  [(0x01, [27]); (0x0e, [8]); (0x0f, 9 :: chars "QWERTYUIOP"); (0x1c, [13]); (0x1e, chars "ASDFGHJKL"); (0x2c, chars "ZXCVBNM"); (0x37, chars "*"); (0x39, chars " "); (0x53, [127])].
Definition unshifted_keymap : list (Z * list Z) := [(0x02, chars "1234567890-="); (0x1a, chars "[]"); (0x27, chars ";'`"); (0x2b, chars "\"); (0x33, chars ",./")].
Definition shifted_keymap : list (Z * list Z) := [(0x02, chars "!@#$%^&*()_+"); (0x1a, chars "{}"); (0x27, 58 :: 34 :: chars "~"); (0x2b, chars "|"); (0x33, chars "<>?")].

Fixpoint map_key (k : list (Z * list Z)) (scancode : Z) : option Z :=
  match k with
  | [] => None
  | (first, cs) :: k => if decide (first ≤ scancode < first + Z.of_nat (length cs)) then cs !! Z.to_nat (scancode - first) else map_key k scancode
  end.

(** [shift_keys]: the state variable of a scancode is set. *)
Definition shift_key (code : Z) (b : bool) (k : kbd) : kbd :=
  let '(Kbd ls rs la ra lc rc cl n s) := k in
  if decide (code = 0x2a) then Kbd b rs la ra lc rc cl n s
  else if decide (code = 0x36) then Kbd ls b la ra lc rc cl n s
  else if decide (code = 0x38) then Kbd ls rs b ra lc rc cl n s
  else if decide (code = 0xe038) then Kbd ls rs la b lc rc cl n s
  else if decide (code = 0x1d) then Kbd ls rs la ra b rc cl n s
  else if decide (code = 0xe01d) then Kbd ls rs la ra lc b cl n s
  else k.

(** The character of a key, by the tables. *)
Definition key_char (shift : bool) (code : Z) : option Z :=
  match map_key invariant_keymap code with
  | Some c => Some c
  | None => if shift then map_key shifted_keymap code else map_key unshifted_keymap code
  end.
(** The handling of Ctrl, Shift and Alt, on a [uint8_t]. *)
Definition modify_char (shift alt ctrl caps : bool) (c : Z) : Z :=
  let c := if decide (ctrl = true ∧ 0x40 ≤ c < 0x60) then u8 (c - 0x40) else if decide (shift = caps) then u8 (tolower c) else c in
  if alt then u8 (c + 0x80) else c.

(** [input_full] and [input_putc]. *)
Definition on_queue {A} (f : M Intq.system A) : K (A * Intq.system) :=
  λ k, match f (queue k) with Ok (a, s) => Ok ((a, s), k) | Err e => Err e end.

(** The scancode of a byte, or of two if the first is a prefix. *)
Definition scancode (byte1 byte2 : Z) : Z := if decide (byte1 = 0xe0) then Z.lor (Z.shiftl byte1 8) byte2 else byte1.

(** Whether [shutdown_reboot] is called, which does not return. *)
Definition keyboard_interrupt (byte1 byte2 : Z) : K bool :=
  k ← get;
  let shift := left_shift k || right_shift k in
  let alt := left_alt k || right_alt k in
  let ctrl := left_ctrl k || right_ctrl k in
  let code := scancode byte1 byte2 in
  let release := negb (bool_decide (Z.land code 0x80 = 0)) in
  let code := Z.land code (Z.lnot 0x80) in
  if decide (code = 0x3a) then (if release then mret () else modify (set_caps (negb (caps_lock k))));; mret false
  else match key_char shift code with
  | Some c =>
      if release then mret false else
      if decide (c = 127 ∧ ctrl = true ∧ alt = true) then mret true else
      let c := modify_char shift alt ctrl (caps_lock k) c in
      full ← on_queue Intq.input_full;
      (if (full.1 : bool) then mret () else r ← on_queue (Intq.input_putc c); modify (add_key r.2));;
      mret false
  | None => modify (shift_key code (negb release));; mret false
  end.

(** ** Layout *)

(** The keys of the keyboard, with their characters without and with Shift. *)
Definition layout : list (Z * (Z * Z)) :=
  zip (seqZ 0x01 14) (zip (27 :: chars "1234567890-=" ++ [8]) (27 :: chars "!@#$%^&*()_+" ++ [8])) ++
  zip (seqZ 0x0f 14) (zip (9 :: chars "qwertyuiop[]" ++ [13]) (9 :: chars "QWERTYUIOP{}" ++ [13])) ++
  zip (seqZ 0x1e 12) (zip (chars "asdfghjkl;'`") (chars "ASDFGHJKL:" ++ [34] ++ chars "~")) ++
  zip (seqZ 0x2b 11) (zip (chars "\zxcvbnm,./") (chars "|ZXCVBNM<>?")) ++
  [(0x37, (42, 42)); (0x39, (32, 32)); (0x53, (127, 127))].
(** Caps Lock turns letters only. *)
Definition typed (shift caps : bool) (key : Z * (Z * Z)) : Z :=
  if (if islower key.2.1 then xorb shift caps else shift) then key.2.2 else key.2.1.

Definition typed_at (shift caps : bool) (code : Z) : option Z :=
  match list_find (λ key, key.1 = code) layout with Some (_, key) => Some (typed shift caps key) | None => None end.

(** The tables of the source are this layout, for all keys and only for them. *)
Lemma layout_types shift caps code : 0 ≤ code < 2 ^ 32 → modify_char shift false false caps <$> key_char shift code = typed_at shift caps code.
Proof.
  intros Hc. destruct (decide (code < 128)) as [Hlt|Hge].
  - assert (Forall (λ code, ∀ shift caps : bool, modify_char shift false false caps <$> key_char shift code = typed_at shift caps code) (seqZ 0 128)) as H.
    { apply (bool_decide_eq_true_1 _). vm_compute. reflexivity. }
    rewrite Forall_forall in H. apply H, elem_of_seqZ. lia.
  - assert (∀ km, Forall (λ x : Z * list Z, x.1 + Z.of_nat (length x.2) ≤ 128) km → map_key km code = None) as Hm.
    { induction km as [|[f cs] km IH]; intros Hf; [done|]. apply Forall_cons in Hf as [Hf Hfs]. cbn in *. rewrite decide_False by lia. by apply IH. }
    assert (key_char shift code = None) as ->.
    { unfold key_char. rewrite (Hm invariant_keymap) by (by repeat constructor). destruct shift; apply Hm; by repeat constructor. }
    unfold typed_at. destruct (list_find _ layout) as [[i key]|] eqn:E; [|done]. apply list_find_Some in E as (Hi & Hk & _).
    assert (Forall (λ key : Z * (Z * Z), key.1 < 128) layout) as Hl by (apply (bool_decide_eq_true_1 _); vm_compute; reflexivity).
    eapply Forall_lookup_1 in Hl; [|exact Hi]. cbn in *. lia.
Qed.

(** ** Histories *)

Definition code_of (e : Z * Z) : Z := Z.land (scancode e.1 e.2) (Z.lnot 0x80).
Definition pressed (e : Z * Z) : bool := bool_decide (Z.land (scancode e.1 e.2) 0x80 = 0).
(** The interrupts one after the other, until the machine is rebooted. *)
Fixpoint run (es : list (Z * Z)) : K bool :=
  match es with [] => mret false | e :: es => r ← keyboard_interrupt e.1 e.2; if (r : bool) then mret true else run es end.
Definition start : kbd := Kbd false false false false false false false 0 Intq.boot.

Definition shift_codes : list Z := [0x2a; 0x36; 0x38; 0xe038; 0x1d; 0xe01d].
Definition flag (c : Z) (k : kbd) : bool :=
  if decide (c = 0x2a) then left_shift k else if decide (c = 0x36) then right_shift k else if decide (c = 0x38) then left_alt k
  else if decide (c = 0xe038) then right_alt k else if decide (c = 0x1d) then left_ctrl k else right_ctrl k.

(** A key is held down after a history if its last event was a press; Caps
    Lock is on after an odd number of presses. *)
Definition held (c : Z) (es : list (Z * Z)) : bool := foldl (λ b e, if decide (code_of e = c) then pressed e else b) false es.
Definition caps_on (es : list (Z * Z)) : bool := foldl (λ b e, if decide (code_of e = 0x3a ∧ pressed e = true) then negb b else b) false es.
Definition shift_held (es : list (Z * Z)) : bool := held 0x2a es || held 0x36 es.
Definition alt_held (es : list (Z * Z)) : bool := held 0x38 es || held 0xe038 es.
Definition ctrl_held (es : list (Z * Z)) : bool := held 0x1d es || held 0xe01d es.
(** The character that an event after a history types. *)
Definition key_of (es : list (Z * Z)) (e : Z * Z) : option Z :=
  if decide (pressed e = true ∧ code_of e ≠ 0x3a) then modify_char (shift_held es) (alt_held es) (ctrl_held es) (caps_on es) <$> key_char (shift_held es) (code_of e) else None.
Fixpoint keys_from (es1 es : list (Z * Z)) : list Z :=
  match es with [] => [] | e :: es => option_list (key_of es1 e) ++ keys_from (es1 ++ [e]) es end.

Lemma not_typed c shift : c ∈ shift_codes → key_char shift c = None ∧ c ≠ 0x3a.
Proof.
  intros Hc. assert (Forall (λ c, ∀ shift : bool, key_char shift c = None ∧ c ≠ 0x3a) shift_codes) as H by (apply (bool_decide_eq_true_1 _); vm_compute; reflexivity).
  rewrite Forall_forall in H. by apply H.
Qed.
Lemma shift_key_flag code b k c : c ∈ shift_codes → flag c (shift_key code b k) = if decide (code = c) then b else flag c k.
Proof.
  intros Hc. unfold shift_codes in Hc. repeat (apply elem_of_cons in Hc as [-> |Hc]); [..|by apply elem_of_nil in Hc]; destruct k; unfold shift_key, flag;
    repeat (case_decide; try subst; try lia); done.
Qed.
Lemma shift_key_rest code b k : caps_lock (shift_key code b k) = caps_lock k ∧ queue (shift_key code b k) = queue k ∧ key_cnt (shift_key code b k) = key_cnt k.
Proof. destruct k. unfold shift_key. repeat case_decide; done. Qed.

(** What has been typed is in the queue, until that is full. *)
Record after (es : list (Z * Z)) (k : kbd) : Prop := After {
  af_flags : ∀ c, c ∈ shift_codes → flag c k = held c es;
  af_caps : caps_lock k = caps_on es;
  af_queue : Intq.inv_but None (queue k) ∧ Intq.taken (queue k) = [] ∧ Intq.threads (queue k) = ∅;
  af_keys : Intq.contents (Intq.q (queue k)) = take 63 (keys_from [] es)
}.
Lemma keys_snoc es1 es e : keys_from es1 (es ++ [e]) = keys_from es1 es ++ option_list (key_of (es1 ++ es) e).
Proof.
  revert es1. induction es as [|x es IH]; intros es1; cbn [keys_from app]; [by rewrite !app_nil_r|]. rewrite IH, <- !app_assoc. done.
Qed.
Lemma held_snoc c es e : held c (es ++ [e]) = if decide (code_of e = c) then pressed e else held c es.
Proof. unfold held. by rewrite foldl_app. Qed.
Lemma caps_snoc es e : caps_on (es ++ [e]) = if decide (code_of e = 0x3a ∧ pressed e = true) then negb (caps_on es) else caps_on es.
Proof. unfold caps_on. by rewrite foldl_app. Qed.

(** A key goes to the end of the queue, when nobody waits for it. *)
Lemma putc_alone c s : Intq.inv_but None s → Intq.threads s = ∅ → Intq.intq_full (Intq.q s) = false →
  ∃ s', Intq.input_putc c s = Ok ((), s') ∧ Intq.inv_but None s' ∧ Intq.taken s' = Intq.taken s ∧ Intq.threads s' = ∅ ∧
    Intq.contents (Intq.q s') = Intq.contents (Intq.q s) ++ [c].
Proof.
  intros Hi Ht Hf. destruct (Intq.contents_put (Intq.q s) c (Intq.inv_ring _ _ Hi) Hf) as ([b Eb] & _ & Hc & He). cbn zeta in *.
  assert (Intq.not_empty (Intq.q s) = None) as Hw.
  { destruct (Intq.not_empty (Intq.q s)) as [t|] eqn:E; [|done]. destruct (Intq.inv_waiter _ _ Hi t Intq.Not_empty E) as (o & Ho & _). by rewrite Ht, lookup_empty in Ho. }
  pose proof (Intq.loop_run (Intq.Putc c) None s Hi ltac:(done)) as Hl. rewrite decide_False in Hl by (cbn; intros [_ ?]; congruence). destruct Hl as (s' & El & Hi' & _).
  exists s'. unfold Intq.input_putc. rewrite (bind_Ok get _ s s s eq_refl), Hf. rewrite (bind_Ok _ _ s () s) by done. split; [done|]. split; [done|].
  unfold Intq.loop in El. rewrite (bind_Ok get _ s s s eq_refl) in El. cbn [Intq.side_of Intq.blocked] in El. rewrite Hf in El. rewrite (bind_Ok _ _ s () s) in El by done.
  cbn [Intq.tail_of] in El. unfold Intq.intq_putc_tail in El. rewrite (bind_Ok get _ s s s eq_refl) in El. cbv zeta in El.
  rewrite (bind_Ok _ _ s b s) in El by (unfold lift; by rewrite Eb). erewrite (bind_Ok (put _)) in El by reflexivity.
  set (s1 := Intq.System _ _ _ _) in El. unfold Intq.signal in El. rewrite (bind_Ok get _ s1 s1 s1 eq_refl) in El. cbn [Intq.blocked Intq.q s1] in El. rewrite He in El.
  rewrite (bind_Ok _ _ s1 () s1) in El by done. cbn [Intq.waiter Intq.not_empty] in El. rewrite Hw in El. injection El as <-. done.
Qed.

(** The chord of the reboot. *)
Definition reboots (es : list (Z * Z)) (e : Z * Z) : Prop := pressed e = true ∧ key_char (shift_held es) (code_of e) = Some 127 ∧ ctrl_held es = true ∧ alt_held es = true.

Lemma interrupt_run es e k : after es k →
  (keyboard_interrupt e.1 e.2 k = Ok (true, k) ∧ reboots es e) ∨ ∃ k', keyboard_interrupt e.1 e.2 k = Ok (false, k') ∧ after (es ++ [e]) k'.
Proof.
  intros [H1 H2 (Hi & Htk & Hth) H4]. unfold keyboard_interrupt. rewrite (bind_Ok get _ k k k eq_refl). cbv zeta. fold (code_of e). fold (pressed e).
  assert (left_shift k || right_shift k = shift_held es) as -> by (unfold shift_held; rewrite <- !H1 by (unfold shift_codes; set_solver); done).
  assert (left_alt k || right_alt k = alt_held es) as -> by (unfold alt_held; rewrite <- !H1 by (unfold shift_codes; set_solver); done).
  assert (left_ctrl k || right_ctrl k = ctrl_held es) as -> by (unfold ctrl_held; rewrite <- !H1 by (unfold shift_codes; set_solver); done).
  assert (∀ k', caps_lock k' = caps_lock k → queue k' = queue k → (∀ c, c ∈ shift_codes → flag c k' = if decide (code_of e = c) then pressed e else flag c k) →
    code_of e ≠ 0x3a → key_of es e = None → after (es ++ [e]) k') as Hquiet.
  { intros k' Hc Hq Hfl Hne Hk. split.
    - intros c Hcs. rewrite Hfl, held_snoc, H1 by done. done.
    - rewrite caps_snoc, decide_False by tauto. congruence.
    - by rewrite Hq.
    - rewrite Hq, keys_snoc. cbn [app]. by rewrite Hk, app_nil_r. }
  destruct (decide (code_of e = 0x3a)) as [E3a|E3a].
  - right. assert (key_of es e = None) as Hk by (unfold key_of; by rewrite decide_False by tauto).
    assert (∀ c, c ∈ shift_codes → held c (es ++ [e]) = held c es) as Hh by (intros c Hc; rewrite held_snoc, decide_False; [done|]; destruct (not_typed c false Hc); congruence).
    destruct (pressed e) eqn:Ep; cbn [negb]; [exists (set_caps (negb (caps_lock k)) k)|exists k]; (split; [done|]); split.
    all: try (intros c Hc; rewrite Hh, <- H1 by done; done).
    all: try done.
    all: try (rewrite keys_snoc; cbn [app]; by rewrite Hk, app_nil_r).
    + rewrite caps_snoc, decide_True by done. cbn. by rewrite H2.
    + rewrite caps_snoc, decide_False by (rewrite Ep; intros [_ ?]; done). done.
  - destruct (key_char (shift_held es) (code_of e)) as [c|] eqn:Ec.
    2:{ right. eexists. split; [done|]. destruct (shift_key_rest (code_of e) (negb (negb (pressed e))) k) as (? & ? & _). apply Hquiet; [done|done| |done|].
        - intros c Hc. rewrite shift_key_flag by done. by rewrite negb_involutive.
        - unfold key_of. case_decide; [|done]. by rewrite Ec. }
    assert (∀ c, c ∈ shift_codes → code_of e ≠ c) as Hns by (intros c' Hc' E; destruct (not_typed c' (shift_held es) Hc'); congruence).
    destruct (pressed e) eqn:Ep; cbn [negb].
    2:{ right. exists k. split; [done|]. apply Hquiet; [done|done| |done|unfold key_of; rewrite decide_False; [done|]; by rewrite Ep; intros [? _]].
        intros c' Hc'. rewrite decide_False; [done|]. by apply Hns. }
    case_decide as Hd; [left; split; [done|]; destruct Hd as (-> & ? & ?); by repeat split|]. right. rewrite H2.
    set (c' := modify_char (shift_held es) (alt_held es) (ctrl_held es) (caps_on es) c).
    assert (key_of es e = Some c') as Hk by (unfold key_of; rewrite decide_True by (by rewrite Ep); by rewrite Ec).
    destruct (Intq.full_contents _ (Intq.inv_ring _ _ Hi)) as [Hle Hfull]. rewrite (bind_Ok _ _ k (Intq.intq_full (Intq.q (queue k)), queue k) k) by done. cbn [fst].
    assert (∀ k', caps_lock k' = caps_lock k → (∀ c, flag c k' = flag c k) → Intq.inv_but None (queue k') → Intq.taken (queue k') = [] → Intq.threads (queue k') = ∅ →
      Intq.contents (Intq.q (queue k')) = take 63 (keys_from [] es ++ [c']) → after (es ++ [e]) k') as Hkey.
    { intros k' Hc Hfl G1 G2 G3 G4. split; [|rewrite caps_snoc, decide_False by tauto; congruence|done|by rewrite keys_snoc; cbn [app]; rewrite Hk].
      intros x Hx. rewrite Hfl, held_snoc, decide_False by (by apply Hns). by apply H1. }
    rewrite H4 in Hfull, Hle. destruct (Intq.intq_full (Intq.q (queue k))) eqn:Ef.
    + exists k. split; [done|]. apply Hkey; try done. rewrite H4. assert (length (take 63 (keys_from [] es)) = 63%nat) as Hl by (by apply Hfull).
      rewrite length_take in Hl. by rewrite take_app_le by lia.
    + destruct (putc_alone c' (queue k) Hi Hth Ef) as (s' & E & G1 & G2 & G3 & G4). exists (add_key s' k). split.
      * erewrite bind_Ok; [done|]. rewrite (bind_Ok _ _ k ((), s') k) by (unfold on_queue; by rewrite E). done.
      * apply Hkey; try done; cbn; [congruence|]. rewrite G4, H4. assert (length (take 63 (keys_from [] es)) ≠ 63%nat) as Hl by (intros Hl; by apply Hfull in Hl).
        rewrite length_take in Hl. rewrite (take_ge (keys_from [] es)) by lia. rewrite take_ge; [done|]. rewrite length_app. cbn. lia.
Qed.

Lemma run_snoc es e k k1 : run es k = Ok (false, k1) → run (es ++ [e]) k = run [e] k1.
Proof.
  revert k. induction es as [|x es IH]; intros k; cbn [run app]; [by intros [= ->]|]. unfold mbind, M_bind. destruct (keyboard_interrupt x.1 x.2 k) as [[[|] k2]|]; [done|apply IH|done].
Qed.
Lemma run_stopped es e k k1 : run es k = Ok (true, k1) → run (es ++ [e]) k = Ok (true, k1).
Proof.
  revert k. induction es as [|x es IH]; intros k; cbn [run app]; [done|]. unfold mbind, M_bind. destruct (keyboard_interrupt x.1 x.2 k) as [[[|] k2]|]; [done|apply IH|done].
Qed.

(** For every history of interrupts the handler returns, the shift keys are
    known to be down exactly when they are, Caps Lock counts its presses, and the
    queue, from which nobody reads, holds the first 63 characters typed, each
    according to the layout of the keyboard and to the shift keys held when it
    was typed; or Ctrl, Alt and Delete were pressed together. *)
Theorem kbd_history es : ∃ r k, run es start = Ok (r, k) ∧
  if r then ∃ es1 e es2, es = es1 ++ e :: es2 ∧ reboots es1 e else after es k.
Proof.
  induction es as [|e es IH] using rev_ind.
  - exists false, start. split; [done|]. split; [|done|split; [apply Intq.boot_inv|done]|done]. intros c _. unfold flag. by repeat case_decide.
  - destruct IH as (r & k & E & H). destruct r.
    + destruct H as (es1 & x & es2 & -> & Hr). exists true, k. rewrite (run_stopped _ _ _ _ E). split; [done|]. exists es1, x, (es2 ++ [e]). split; [by rewrite <- app_assoc|done].
    + rewrite (run_snoc _ _ _ _ E). cbn [run]. destruct (interrupt_run es e k H) as [[E' Hr]|(k' & E' & Hk)]; rewrite (bind_Ok _ _ _ _ _ E').
      * exists true, k. split; [done|]. by exists es, e, [].
      * by exists false, k'.
Qed.

(** Shift and A, and then B. *)
Example kbd_example : ∃ k, run [(0x2a, 0); (0x1e, 0); (0x9e, 0); (0xaa, 0); (0x30, 0)] start = Ok (false, k) ∧ Intq.contents (Intq.q (queue k)) = chars "Ab".
Proof. eexists. split; reflexivity. Qed.

End Kbd.
