(* ===== verification/Descriptors.v ===== *)
(** * Segments and gates (userprog/gdt.c, threads/interrupt.c)

    The descriptors that the processor reads, as the 64-bit words the code
    computes, and the tables of them: the interrupt table with the handlers that
    the kernel registers at its start (interrupt.c, timer.c, kbd.c, exception.c,
    syscall.c, serial.c, ide.c), and the table of segments.  The fields of the
    descriptors are read back with the formats of the processor, given as
    reference definitions.  The stubs, which are assembly, are addresses. *)

From Stdlib Require Import String.
From S2P Require Import Prelude.

Module Descriptors.

Definition SEL_NULL : Z := 0x00.
Definition SEL_KCSEG : Z := 0x08.
Definition SEL_KDSEG : Z := 0x10.
Definition SEL_UCSEG : Z := 0x1b.
Definition SEL_UDSEG : Z := 0x23.
Definition SEL_TSS : Z := 0x28.
Definition SEL_CNT : Z := 6.
Definition INTR_CNT : Z := 256.

(** ** Gates (interrupt.c) *)

Inductive handler := timer_interrupt | keyboard_interrupt | serial_interrupt | ide_interrupt | kill | page_fault | syscall_handler.
Inductive intr_level := INTR_OFF | INTR_ON.
#[global] Instance gate_level_eq_dec : EqDecision intr_level.
Proof. solve_decision. Defined.
#[global] Instance handler_eq_dec : EqDecision handler.
Proof. solve_decision. Defined.

(** The tables, and the operands of the instructions [lidt], [lgdt] and [ltr] once they are executed. *)
Record tables := Tables {
  idt : list Z; intr_handlers : list (option handler); intr_names : list (option string); gdt : list Z;
  idtr : option Z; gdtr : option Z; tr : option Z }.
Abbreviation I := (M tables).

Definition make_gate (function dpl type : Z) : I Z :=
  ASSERT (negb (bool_decide (function = 0)));; ASSERT (bool_decide (0 ≤ dpl ≤ 3));; ASSERT (bool_decide (0 ≤ type ≤ 15));;
  let e0 := Z.lor (Z.land function 0xffff) (Z.shiftl SEL_KCSEG 16) in
  let e1 := Z.lor (Z.lor (Z.lor (Z.lor (Z.land function 0xffff0000) (Z.shiftl 1 15)) (Z.shiftl dpl 13)) (Z.shiftl 0 12)) (Z.shiftl type 8) in
  mret (Z.lor e0 (Z.shiftl e1 32)).
Definition make_intr_gate (function dpl : Z) : I Z := make_gate function dpl 14.
Definition make_trap_gate (function dpl : Z) : I Z := make_gate function dpl 15.
Definition make_idtr_operand (limit base : Z) : Z := Z.lor limit (Z.shiftl base 16).

Definition set_idt (v g : Z) : I unit :=
  modify (λ s, Tables (<[Z.to_nat v := g]> (idt s)) (intr_handlers s) (intr_names s) (gdt s) (idtr s) (gdtr s) (tr s)).
Definition set_handler (v : Z) (h : handler) : I unit :=
  modify (λ s, Tables (idt s) (<[Z.to_nat v := Some h]> (intr_handlers s)) (intr_names s) (gdt s) (idtr s) (gdtr s) (tr s)).
Definition set_name (v : Z) (n : string) : I unit :=
  modify (λ s, Tables (idt s) (intr_handlers s) (<[Z.to_nat v := Some n]> (intr_names s)) (gdt s) (idtr s) (gdtr s) (tr s)).
Definition lidt (z : Z) : I unit :=
  modify (λ s, Tables (idt s) (intr_handlers s) (intr_names s) (gdt s) (Some z) (gdtr s) (tr s)).

(** The strings of [intr_init]. *)
Definition exception_names : list (Z * string) :=
  [(0, "#DE Divide Error"); (1, "#DB Debug Exception"); (2, "NMI Interrupt"); (3, "#BP Breakpoint Exception"); (4, "#OF Overflow Exception");
   (5, "#BR BOUND Range Exceeded Exception"); (6, "#UD Invalid Opcode Exception"); (7, "#NM Device Not Available Exception");
   (8, "#DF Double Fault Exception"); (9, "Coprocessor Segment Overrun"); (10, "#TS Invalid TSS Exception"); (11, "#NP Segment Not Present");
   (12, "#SS Stack Fault Exception"); (13, "#GP General Protection Exception"); (14, "#PF Page-Fault Exception");
   (16, "#MF x87 FPU Floating-Point Error"); (17, "#AC Alignment Check Exception"); (18, "#MC Machine-Check Exception");
   (19, "#XF SIMD Floating-Point Exception")]%string.
Fixpoint set_names (l : list (Z * string)) : I unit :=
  match l with [] => mret () | (v, n) :: l => set_name v n;; set_names l end.

Section Tables.
(** The addresses of the stubs, of the two tables and of the task-state segment. *)
Context (intr_stubs : Z → Z) (idt_addr gdt_addr tss_addr : Z).

(** The first loop of [intr_init], with [n] rounds left. *)
Fixpoint init_loop (n : nat) (i : Z) : I unit :=
  match n with O => mret () | S n => g ← make_intr_gate (intr_stubs i) 0; set_idt i g;; init_loop n (i + 1) end.
(** [intr_init] after the interrupt controller is set up. *)
Definition intr_init : I unit :=
  init_loop (Z.to_nat INTR_CNT) 0;;
  lidt (make_idtr_operand (INTR_CNT * 8 - 1) idt_addr);;
  set_names (map (λ i, (i, "unknown"%string)) (seqZ 0 INTR_CNT));;
  set_names exception_names.

Definition register_handler (vec_no dpl : Z) (level : intr_level) (h : handler) (name : string) : I unit :=
  s ← get;
  old ← lift (intr_handlers s !! Z.to_nat vec_no) Undef;
  ASSERT (bool_decide (old = None));;
  g ← (if decide (level = INTR_ON) then make_trap_gate (intr_stubs vec_no) dpl else make_intr_gate (intr_stubs vec_no) dpl);
  set_idt vec_no g;; set_handler vec_no h;; set_name vec_no name.
Definition intr_register_ext (vec_no : Z) (h : handler) (name : string) : I unit :=
  ASSERT (bool_decide (0x20 ≤ vec_no ≤ 0x2f));; register_handler vec_no 0 INTR_OFF h name.
Definition intr_register_int (vec_no dpl : Z) (level : intr_level) (h : handler) (name : string) : I unit :=
  ASSERT (bool_decide (vec_no < 0x20 ∨ 0x2f < vec_no));; register_handler vec_no dpl level h name.

(** The registrations of the drivers and of the kernel. *)
Definition timer_register : I unit := intr_register_ext 0x20 timer_interrupt "8254 Timer".
Definition kbd_init : I unit := intr_register_ext 0x21 keyboard_interrupt "8042 Keyboard".
Definition exception_init : I unit :=
  intr_register_int 3 3 INTR_ON kill "#BP Breakpoint Exception";;
  intr_register_int 4 3 INTR_ON kill "#OF Overflow Exception";;
  intr_register_int 5 3 INTR_ON kill "#BR BOUND Range Exceeded Exception";;
  intr_register_int 0 0 INTR_ON kill "#DE Divide Error";;
  intr_register_int 1 0 INTR_ON kill "#DB Debug Exception";;
  intr_register_int 6 0 INTR_ON kill "#UD Invalid Opcode Exception";;
  intr_register_int 7 0 INTR_ON kill "#NM Device Not Available Exception";;
  intr_register_int 11 0 INTR_ON kill "#NP Segment Not Present";;
  intr_register_int 12 0 INTR_ON kill "#SS Stack Fault Exception";;
  intr_register_int 13 0 INTR_ON kill "#GP General Protection Exception";;
  intr_register_int 16 0 INTR_ON kill "#MF x87 FPU Floating-Point Error";;
  intr_register_int 19 0 INTR_ON kill "#XF SIMD Floating-Point Exception";;
  intr_register_int 14 0 INTR_OFF page_fault "#PF Page-Fault Exception".
Definition syscall_init : I unit := intr_register_int 0x30 3 INTR_ON syscall_handler "syscall".
Definition serial_register : I unit := intr_register_ext (0x20 + 4) serial_interrupt "serial".
(** The two channels. *)
Definition ide_register : I unit :=
  intr_register_ext (14 + 0x20) ide_interrupt "ide0";; intr_register_ext (15 + 0x20) ide_interrupt "ide1".

(** ** Segments (gdt.c) *)

Definition CLS_SYSTEM : Z := 0.
Definition CLS_CODE_DATA : Z := 1.
Definition GRAN_BYTE : Z := 0.
Definition GRAN_PAGE : Z := 1.

Definition make_seg_desc (base limit class type dpl granularity : Z) : I Z :=
  ASSERT (bool_decide (limit ≤ 0xfffff));; ASSERT (bool_decide (class = CLS_SYSTEM ∨ class = CLS_CODE_DATA));; ASSERT (bool_decide (0 ≤ type ≤ 15));;
  ASSERT (bool_decide (0 ≤ dpl ≤ 3));; ASSERT (bool_decide (granularity = GRAN_BYTE ∨ granularity = GRAN_PAGE));;
  let e0 := Z.lor (Z.land limit 0xffff) (u32 (Z.shiftl base 16)) in
  let e1 := Z.lor (Z.lor (Z.lor (Z.lor (Z.lor (Z.lor (Z.lor (Z.lor (Z.land (Z.shiftr base 16) 0xff) (Z.shiftl type 8)) (Z.shiftl class 12)) (Z.shiftl dpl 13)) (Z.shiftl 1 15))
    (Z.land limit 0xf0000)) (Z.shiftl 1 22)) (Z.shiftl granularity 23)) (Z.land base 0xff000000) in
  mret (Z.lor e0 (Z.shiftl e1 32)).
Definition make_code_desc (dpl : Z) : I Z := make_seg_desc 0 0xfffff CLS_CODE_DATA 10 dpl GRAN_PAGE.
Definition make_data_desc (dpl : Z) : I Z := make_seg_desc 0 0xfffff CLS_CODE_DATA 2 dpl GRAN_PAGE.
Definition make_tss_desc (laddr : Z) : I Z := make_seg_desc laddr 0x67 CLS_SYSTEM 9 0 GRAN_BYTE.
Definition make_gdtr_operand (limit base : Z) : Z := Z.lor limit (Z.shiftl base 16).

Definition set_gdt (sel d : Z) : I unit :=
  modify (λ s, Tables (idt s) (intr_handlers s) (intr_names s) (<[Z.to_nat (sel / 8) := d]> (gdt s)) (idtr s) (gdtr s) (tr s)).
Definition lgdt (z : Z) : I unit :=
  modify (λ s, Tables (idt s) (intr_handlers s) (intr_names s) (gdt s) (idtr s) (Some z) (tr s)).
Definition ltr (z : Z) : I unit :=
  modify (λ s, Tables (idt s) (intr_handlers s) (intr_names s) (gdt s) (idtr s) (gdtr s) (Some z)).
Definition gdt_init : I unit :=
  set_gdt SEL_NULL 0;;
  d ← make_code_desc 0; set_gdt SEL_KCSEG d;; d ← make_data_desc 0; set_gdt SEL_KDSEG d;;
  d ← make_code_desc 3; set_gdt SEL_UCSEG d;; d ← make_data_desc 3; set_gdt SEL_UDSEG d;;
  d ← make_tss_desc tss_addr; set_gdt SEL_TSS d;;
  lgdt (make_gdtr_operand (SEL_CNT * 8 - 1) gdt_addr);; ltr SEL_TSS.

(** The calls of [main]. *)
Definition init_tables : I unit :=
  gdt_init;; intr_init;; timer_register;; kbd_init;; exception_init;; syscall_init;; serial_register;; ide_register.
Definition start : tables := Tables (replicate 256 0) (replicate 256 None) (replicate 256 None) (replicate 6 0) None None None.
End Tables.

(** ** The formats of the processor *)

Definition bits (lo n z : Z) : Z := z / 2 ^ lo mod 2 ^ n.
Record gate := Gate { g_offset : Z; g_selector : Z; g_type : Z; g_system : Z; g_dpl : Z; g_present : Z }.
Definition read_gate (d : Z) : gate := Gate (bits 0 16 d + 2 ^ 16 * bits 48 16 d) (bits 16 16 d) (bits 40 4 d) (bits 44 1 d) (bits 45 2 d) (bits 47 1 d).
Record segment := Segment { s_base : Z; s_limit : Z; s_type : Z; s_class : Z; s_dpl : Z; s_present : Z; s_32bit : Z; s_gran : Z }.
Definition read_segment (d : Z) : segment :=
  Segment (bits 16 24 d + 2 ^ 24 * bits 56 8 d) (bits 0 16 d + 2 ^ 16 * bits 48 4 d) (bits 40 4 d) (bits 44 1 d) (bits 45 2 d) (bits 47 1 d) (bits 54 1 d) (bits 55 1 d).

(** ** Fields *)

Lemma lor_add a b k : 0 ≤ k → 0 ≤ a < 2 ^ k → Z.lor a (b * 2 ^ k) = a + b * 2 ^ k.
Proof.
  intros Hk Ha. symmetry. apply Z.add_nocarry_lor, Z.bits_inj'. intros i Hi. rewrite Z.land_spec, Z.bits_0. destruct (decide (i < k)).
  - by rewrite Z.mul_pow2_bits_low, andb_false_r by lia.
  - rewrite <- (Z.mod_small a (2 ^ k)) by lia. by rewrite Z.mod_pow2_bits_high by lia.
Qed.
Lemma lor_shiftl a b k : 0 ≤ k → 0 ≤ a < 2 ^ k → Z.lor a (Z.shiftl b k) = a + b * 2 ^ k.
Proof. intros Hk Ha. rewrite Z.shiftl_mul_pow2 by done. by apply lor_add. Qed.
(** The part of a number above bit [k], of [n] bits. *)
Lemma land_high z k n : 0 ≤ k → 0 ≤ n → Z.land z (Z.ones n * 2 ^ k) = z / 2 ^ k mod 2 ^ n * 2 ^ k.
Proof.
  intros Hk Hn. rewrite <- Z.land_ones, <- Z.shiftr_div_pow2, <- !Z.shiftl_mul_pow2 by done. apply Z.bits_inj'. intros i Hi.
  rewrite Z.land_spec, !Z.shiftl_spec, Z.land_spec by done. destruct (decide (i < k)).
  - rewrite !(Z.testbit_neg_r _ (i - k)) by lia. by rewrite andb_false_r.
  - rewrite Z.shiftr_spec by lia. by replace (i - k + k) with i by lia.
Qed.

(** Words made of fields, the lowest first. *)
Fixpoint pack (l : list (Z * Z)) : Z := match l with [] => 0 | (w, v) :: l => v + 2 ^ w * pack l end.
Definition fields_ok (l : list (Z * Z)) : Prop := Forall (λ x, 0 ≤ x.1 ∧ 0 ≤ x.2 < 2 ^ x.1) l.
Lemma pack_here w v l : fields_ok ((w, v) :: l) → bits 0 w (pack ((w, v) :: l)) = v.
Proof.
  intros H. apply Forall_cons in H as [[Hw Hv] _]. cbn in *. unfold bits. rewrite Z.pow_0_r, Z.div_1_r, Z.mul_comm, Z.mod_add by lia. by apply Z.mod_small.
Qed.
Lemma pack_later w v l k n : fields_ok ((w, v) :: l) → w ≤ k → bits k n (pack ((w, v) :: l)) = bits (k - w) n (pack l).
Proof.
  intros H Hk. apply Forall_cons in H as [[Hw Hv] _]. cbn in *. unfold bits. f_equal. replace (2 ^ k) with (2 ^ w * 2 ^ (k - w)) by (rewrite <- Z.pow_add_r by lia; f_equal; lia).
  rewrite <- Z.div_div by lia. f_equal. rewrite Z.mul_comm, Z.div_add by lia. rewrite Z.div_small by done. lia.
Qed.
(** The words of a gate and of a segment. *)
Definition gate_word (f dpl type : Z) : Z := pack [(16, f mod 2 ^ 16); (16, SEL_KCSEG); (8, 0); (4, type); (1, 0); (2, dpl); (1, 1); (16, f / 2 ^ 16)].
Definition seg_word (base limit class type dpl gran : Z) : Z :=
  pack [(16, limit mod 2 ^ 16); (24, base mod 2 ^ 24); (4, type); (1, class); (2, dpl); (1, 1); (4, limit / 2 ^ 16); (2, 0); (1, 1); (1, gran); (8, base / 2 ^ 24)].

Lemma gate_pack f dpl type s : in_u 32 f → f ≠ 0 → 0 ≤ dpl ≤ 3 → 0 ≤ type ≤ 15 →
  make_gate f dpl type s = Ok (gate_word f dpl type, s).
Proof.
  intros Hu Hf Hd Ht. unfold make_gate. rewrite !bool_decide_eq_true_2, bool_decide_eq_false_2 by done. do 3 (rewrite (bind_Ok _ _ s () s) by done). unfold mret, M_ret. do 2 f_equal.
  unfold in_u in Hu. change 0xffff with (Z.ones 16). rewrite Z.land_ones by lia. rewrite (lor_shiftl (f mod 2 ^ 16)) by (try lia; apply Z.mod_pos_bound; lia).
  change 0xffff0000 with (Z.ones 16 * 2 ^ 16). rewrite land_high by lia. rewrite (Z.mod_small (f / 2 ^ 16)) by (Z.to_euclidean_division_equations; lia).
  assert (Z.lor (Z.shiftl 1 15) (Z.lor (Z.shiftl dpl 13) (Z.lor (Z.shiftl 0 12) (Z.shiftl type 8))) = type * 2 ^ 8 + dpl * 2 ^ 13 + 2 ^ 15) as Ec.
  { assert (Forall (λ dpl, Forall (λ type, Z.lor (Z.shiftl 1 15) (Z.lor (Z.shiftl dpl 13) (Z.lor (Z.shiftl 0 12) (Z.shiftl type 8))) = type * 2 ^ 8 + dpl * 2 ^ 13 + 2 ^ 15) (seqZ 0 16)) (seqZ 0 4)) as H
      by (apply (bool_decide_eq_true_1 _); vm_compute; reflexivity).
    rewrite Forall_forall in H. specialize (H dpl ltac:(apply elem_of_seqZ; lia)). rewrite Forall_forall in H. apply H, elem_of_seqZ. lia. }
  rewrite <- !Z.lor_assoc, Ec. rewrite (Z.lor_comm (f / 2 ^ 16 * 2 ^ 16)), lor_add by lia. rewrite lor_shiftl by (unfold SEL_KCSEG; Z.to_euclidean_division_equations; lia).
  unfold gate_word. cbn [pack]. unfold SEL_KCSEG. lia.
Qed.
Lemma seg_pack base limit class type dpl gran s : in_u 32 base → 0 ≤ limit ≤ 0xfffff → class = 0 ∨ class = 1 → 0 ≤ type ≤ 15 → 0 ≤ dpl ≤ 3 → gran = 0 ∨ gran = 1 →
  make_seg_desc base limit class type dpl gran s = Ok (seg_word base limit class type dpl gran, s).
Proof.
  intros Hu Hl Hc Ht Hd Hg. unfold make_seg_desc. rewrite !bool_decide_eq_true_2 by (done || lia). do 5 (rewrite (bind_Ok _ _ s () s) by done). unfold mret, M_ret. do 2 f_equal.
  unfold in_u in Hu. change 0xffff with (Z.ones 16). rewrite Z.land_ones by lia. assert (u32 (Z.shiftl base 16) = Z.shiftl (base mod 2 ^ 16) 16) as ->.
  { rewrite !Z.shiftl_mul_pow2 by lia. unfold wrapu. Z.to_euclidean_division_equations. lia. }
  rewrite (lor_shiftl (limit mod 2 ^ 16)) by (try lia; apply Z.mod_pos_bound; lia). change 0xff with (Z.ones 8). rewrite Z.land_ones, Z.shiftr_div_pow2 by lia.
  change 0xf0000 with (Z.ones 4 * 2 ^ 16). rewrite land_high by lia. rewrite (Z.mod_small (limit / 2 ^ 16)) by (Z.to_euclidean_division_equations; lia).
  change 0xff000000 with (Z.ones 8 * 2 ^ 24). rewrite land_high by lia. rewrite (Z.mod_small (base / 2 ^ 24)) by (Z.to_euclidean_division_equations; lia).
  set (b := base / 2 ^ 16 mod 2 ^ 8). assert (0 ≤ b < 2 ^ 8) as Hb by (apply Z.mod_pos_bound; lia). set (l := limit / 2 ^ 16). assert (0 ≤ l < 2 ^ 4) as Hl2 by (unfold l; Z.to_euclidean_division_equations; lia).
  rewrite (lor_shiftl b) by lia. rewrite (lor_shiftl _ class) by lia. rewrite (lor_shiftl _ dpl) by lia. rewrite (lor_shiftl _ 1 15) by lia. rewrite (lor_add _ l) by lia.
  rewrite (lor_shiftl _ 1 22) by lia. rewrite (lor_shiftl _ gran) by lia. rewrite (lor_add _ (base / 2 ^ 24) 24) by lia.
  rewrite lor_shiftl by (Z.to_euclidean_division_equations; lia). unfold seg_word. cbn [pack]. assert (base mod 2 ^ 24 = base mod 2 ^ 16 + b * 2 ^ 16) as -> by (unfold b; Z.to_euclidean_division_equations; lia).
  fold l. lia.
Qed.

(** Reads the fields of a packed word one after the other. *)
Ltac fields_fine := repeat constructor; cbn; unfold SEL_KCSEG; try apply Z.mod_pos_bound; Z.to_euclidean_division_equations; lia.
Ltac read_fields := repeat first [rewrite pack_here by fields_fine | rewrite pack_later; [|fields_fine|lia]; cbn -[pack bits]].

Lemma read_gate_word f dpl type : in_u 32 f → 0 ≤ dpl ≤ 3 → 0 ≤ type ≤ 15 → read_gate (gate_word f dpl type) = Gate f SEL_KCSEG type 0 dpl 1.
Proof.
  intros Hf Hd Ht. unfold read_gate, gate_word. unfold in_u in Hf. f_equal; read_fields; try done. Z.to_euclidean_division_equations; lia.
Qed.
Lemma read_seg_word base limit class type dpl gran : in_u 32 base → 0 ≤ limit ≤ 0xfffff → class = 0 ∨ class = 1 → 0 ≤ type ≤ 15 → 0 ≤ dpl ≤ 3 → gran = 0 ∨ gran = 1 →
  read_segment (seg_word base limit class type dpl gran) = Segment base limit type class dpl 1 1 gran.
Proof.
  intros Hb Hl Hc Ht Hd Hg. unfold read_segment, seg_word. unfold in_u in Hb. f_equal; read_fields; try done; Z.to_euclidean_division_equations; lia.
Qed.
Lemma operand_fields limit base : in_u 16 limit → in_u 32 base → let z := make_idtr_operand limit base in bits 0 16 z = limit ∧ bits 16 32 z = base.
Proof.
  intros Hl Hb z. unfold z, make_idtr_operand. unfold in_u in Hl, Hb. rewrite lor_shiftl by lia. unfold bits. split.
  - by rewrite Z.div_1_r, Z.mod_add, Z.mod_small by lia.
  - by rewrite Z.div_add, Z.div_small, Z.mod_small by lia.
Qed.

(** ** The gates, abstractly

    A plan of the interrupt table: the privilege level and the type of each gate that is there. *)

Record plan := Plan { p_gates : list (option (Z * Z)); p_handlers : list (option handler); p_names : list (option string) }.
Definition blank : plan := Plan (replicate 256 None) (replicate 256 None) (replicate 256 None).
Definition level_type (level : intr_level) : Z := if decide (level = INTR_ON) then 15 else 14.
Definition plan_gate (v dpl type : Z) (p : plan) : plan := Plan (<[Z.to_nat v := Some (dpl, type)]> (p_gates p)) (p_handlers p) (p_names p).
Definition plan_name (v : Z) (n : string) (p : plan) : plan := Plan (p_gates p) (p_handlers p) (<[Z.to_nat v := Some n]> (p_names p)).
Definition plan_handler (v : Z) (h : handler) (p : plan) : plan := Plan (p_gates p) (<[Z.to_nat v := Some h]> (p_handlers p)) (p_names p).
Definition plan_register (v dpl : Z) (level : intr_level) (h : handler) (n : string) (p : plan) : plan :=
  plan_name v n (plan_handler v h (plan_gate v dpl (level_type level) p)).
Definition plan_ok (v dpl : Z) (p : plan) : bool := bool_decide (0 ≤ v < 256 ∧ 0 ≤ dpl ≤ 3 ∧ p_handlers p !! Z.to_nat v = Some None).
Fixpoint plan_loop (n : nat) (i : Z) (p : plan) : plan := match n with O => p | S n => plan_loop n (i + 1) (plan_gate i 0 14 p) end.
Fixpoint plan_names (l : list (Z * string)) (p : plan) : plan := match l with [] => p | (v, n) :: l => plan_names l (plan_name v n p) end.

Section Plan.
Context (intr_stubs : Z → Z) (Hstubs : ∀ v, 0 ≤ v < 256 → in_u 32 (intr_stubs v) ∧ intr_stubs v ≠ 0).

Definition plan_word (i : nat) (o : option (Z * Z)) : Z := match o with Some (dpl, type) => gate_word (intr_stubs (Z.of_nat i)) dpl type | None => 0 end.
(** The tables of a plan, beside a table of segments and the registers. *)
Definition of_plan (p : plan) (g : list Z) (ri rg rt : option Z) : tables := Tables (imap plan_word (p_gates p)) (p_handlers p) (p_names p) g ri rg rt.

Lemma imap_insert {A B} (f : nat → A → B) (l : list A) i x : imap f (<[i := x]> l) = <[i := f i x]> (imap f l).
Proof.
  apply list_eq. intros j. rewrite list_lookup_imap. destruct (decide (i = j)) as [->|Hij].
  - destruct (decide (j < length l)%nat) as [Hl|Hl].
    + rewrite !list_lookup_insert_eq by (rewrite ?length_imap; done). done.
    + rewrite !lookup_ge_None_2 by (rewrite ?length_insert, ?length_imap; lia). done.
  - by rewrite !list_lookup_insert_ne, list_lookup_imap.
Qed.
Lemma set_gate_plan v dpl type p g ri rg rt : 0 ≤ v →
  set_idt v (gate_word (intr_stubs v) dpl type) (of_plan p g ri rg rt) = Ok ((), of_plan (plan_gate v dpl type p) g ri rg rt).
Proof. intros Hv. unfold set_idt, modify, of_plan, plan_gate. cbn. rewrite imap_insert. cbn. by rewrite Z2Nat.id by done. Qed.

(** The action takes the tables of the one plan to those of the other. *)
Definition sim (m : I unit) (p p' : plan) : Prop := ∀ g ri rg rt, m (of_plan p g ri rg rt) = Ok ((), of_plan p' g ri rg rt).
Lemma plan_sim_bind m k p q r : sim m p q → sim k q r → sim (m;; k) p r.
Proof. intros Hm Hk g ri rg rt. rewrite (bind_Ok _ _ _ _ _ (Hm g ri rg rt)). apply Hk. Qed.
Lemma sim_register v dpl level h n p : plan_ok v dpl p = true → sim (register_handler intr_stubs v dpl level h n) p (plan_register v dpl level h n p).
Proof.
  intros (Hv & Hd & Hh)%bool_decide_eq_true_1 g ri rg rt. destruct (Hstubs v Hv) as [Hu H0].
  unfold register_handler. rewrite (bind_Ok get _ _ _ _ eq_refl). unfold of_plan at 1. cbn [intr_handlers]. rewrite Hh. rewrite (bind_Ok _ _ _ None _ eq_refl).
  rewrite (bind_Ok _ _ _ () _ eq_refl).
  rewrite (bind_Ok _ _ _ (gate_word (intr_stubs v) dpl (level_type level)) (of_plan p g ri rg rt)) by (unfold level_type; destruct (decide _); by apply gate_pack).
  by rewrite (bind_Ok _ _ _ _ _ (set_gate_plan v dpl (level_type level) p g ri rg rt ltac:(lia))).
Qed.
Lemma sim_ext v h n p : 0x20 ≤ v ≤ 0x2f → plan_ok v 0 p = true → sim (intr_register_ext intr_stubs v h n) p (plan_register v 0 INTR_OFF h n p).
Proof. intros Hv Hp g ri rg rt. unfold intr_register_ext. rewrite bool_decide_eq_true_2 by done. by apply sim_register. Qed.
Lemma plan_sim_int v dpl level h n p : v < 0x20 ∨ 0x2f < v → plan_ok v dpl p = true →
  sim (intr_register_int intr_stubs v dpl level h n) p (plan_register v dpl level h n p).
Proof. intros Hv Hp g ri rg rt. unfold intr_register_int. rewrite bool_decide_eq_true_2 by done. by apply sim_register. Qed.
Lemma sim_loop n i p : 0 ≤ i → i + Z.of_nat n ≤ 256 → sim (init_loop intr_stubs n i) p (plan_loop n i p).
Proof.
  revert i p. induction n as [|n IH]; intros i p Hi Hn; [done|]. intros g ri rg rt. cbn [init_loop]. destruct (Hstubs i ltac:(lia)) as [Hu H0]. unfold make_intr_gate.
  rewrite (bind_Ok _ _ _ _ _ (gate_pack _ 0 14 _ Hu H0 ltac:(lia) ltac:(lia))). rewrite (bind_Ok _ _ _ _ _ (set_gate_plan i 0 14 p g ri rg rt Hi)).
  apply IH; lia.
Qed.
Lemma sim_names l p : sim (set_names l) p (plan_names l p).
Proof. revert p. induction l as [|[v n] l IH]; intros p; [done|]. apply (plan_sim_bind _ _ p (plan_name v n p)); [done|apply IH]. Qed.

Lemma intr_init_plan idt_addr p g ri rg rt :
  intr_init intr_stubs idt_addr (of_plan p g ri rg rt) =
    Ok ((), of_plan (plan_names exception_names (plan_names (map (λ i, (i, "unknown"%string)) (seqZ 0 INTR_CNT)) (plan_loop 256 0 p))) g
      (Some (make_idtr_operand (INTR_CNT * 8 - 1) idt_addr)) rg rt).
Proof.
  unfold intr_init. rewrite (bind_Ok _ _ _ _ _ (sim_loop 256 0 p ltac:(lia) ltac:(lia) g ri rg rt)). rewrite (bind_Ok (lidt _) _ _ _ _ eq_refl).
  apply (plan_sim_bind _ _ _ _ _ (sim_names _ _) (sim_names _ _)).
Qed.
End Plan.

(** ** The tables of the running kernel

    The handler of each vector, the vectors whose handlers run with interrupts on,
    and those that a user program may name in an [int] instruction. *)

Definition handler_of (v : Z) : option handler :=
  if decide (v ∈ [0; 1; 3; 4; 5; 6; 7; 11; 12; 13; 16; 19]) then Some kill else if decide (v = 14) then Some page_fault
  else if decide (v = 0x20) then Some timer_interrupt else if decide (v = 0x21) then Some keyboard_interrupt else if decide (v = 0x24) then Some serial_interrupt
  else if decide (v ∈ [0x2e; 0x2f]) then Some ide_interrupt else if decide (v = 0x30) then Some syscall_handler else None.
Definition runs_preemptible (v : Z) : bool := bool_decide (handler_of v ∈ [Some kill; Some syscall_handler]).
Definition user_callable (v : Z) : bool := bool_decide (v ∈ [3; 4; 5; 0x30]).
Definition gate_of (v : Z) : Z * Z := (if user_callable v then 3 else 0, if runs_preemptible v then 15 else 14).
Definition plan_done (p : plan) : bool :=
  bool_decide (Forall (λ v, p_gates p !! Z.to_nat v = Some (Some (gate_of v)) ∧ p_handlers p !! Z.to_nat v = Some (handler_of v)) (seqZ 0 256)).

Ltac register := first [apply sim_ext | apply plan_sim_int]; [assumption|lia|vm_compute; reflexivity].
Lemma registered intr_stubs : (∀ v, 0 ≤ v < 256 → in_u 32 (intr_stubs v) ∧ intr_stubs v ≠ 0) →
  let p := plan_names exception_names (plan_names (map (λ i, (i, "unknown"%string)) (seqZ 0 INTR_CNT)) (plan_loop 256 0 blank)) in
  ∃ q, sim intr_stubs (timer_register intr_stubs;; kbd_init intr_stubs;; exception_init intr_stubs;; syscall_init intr_stubs;;
    serial_register intr_stubs;; ide_register intr_stubs) p q ∧ plan_done q = true.
Proof.
  intros Hs p. eexists. split.
  - unfold timer_register, kbd_init, syscall_init, serial_register. do 2 (eapply plan_sim_bind; [register|]).
    eapply plan_sim_bind; [unfold exception_init; do 12 (eapply plan_sim_bind; [register|]); register|]. do 2 (eapply plan_sim_bind; [register|]).
    unfold ide_register. eapply plan_sim_bind; register.
  - vm_compute. reflexivity.
Qed.

Definition segments (tss_addr : Z) : list Z :=
  [0; seg_word 0 0xfffff 1 10 0 1; seg_word 0 0xfffff 1 2 0 1; seg_word 0 0xfffff 1 10 3 1; seg_word 0 0xfffff 1 2 3 1; seg_word tss_addr 0x67 0 9 0 0].
Lemma gdt_init_tables intr_stubs gdt_addr tss_addr : in_u 32 tss_addr →
  gdt_init gdt_addr tss_addr start =
    Ok ((), of_plan intr_stubs blank (segments tss_addr) None (Some (make_gdtr_operand (SEL_CNT * 8 - 1) gdt_addr)) (Some SEL_TSS)).
Proof.
  intros Ht. unfold gdt_init, make_code_desc, make_data_desc, make_tss_desc. rewrite (bind_Ok (set_gdt _ _) _ _ _ _ eq_refl).
  do 5 (erewrite (bind_Ok (make_seg_desc _ _ _ _ _ _)); [|apply seg_pack; (unfold in_u, CLS_SYSTEM, CLS_CODE_DATA, GRAN_BYTE, GRAN_PAGE; lia) || exact Ht];
    rewrite (bind_Ok (set_gdt _ _) _ _ _ _ eq_refl)).
  reflexivity.
Qed.

(** C16: The kernel sets up its descriptor tables without failing an assertion, and
    the tables then say to the processor what they should: every one of the 256
    gates is present, leads to the stub of its vector in the kernel's code segment
    and has the handler of that vector; handlers run with interrupts off except
    those of faults (the page fault apart) and system calls; a user program may
    name only the vectors of a breakpoint, an overflow, a bound check and a system
    call.  The segments of the kernel have privilege level 0, those of user
    programs level 3, each is all of memory, and the task-state segment is the
    one of [tss_get]. *)
Theorem descriptor_tables intr_stubs idt_addr gdt_addr tss_addr :
  (∀ v, 0 ≤ v < 256 → in_u 32 (intr_stubs v) ∧ intr_stubs v ≠ 0) → in_u 32 idt_addr → in_u 32 gdt_addr → in_u 32 tss_addr →
  ∃ t, init_tables intr_stubs idt_addr gdt_addr tss_addr start = Ok ((), t) ∧
    (∀ v, 0 ≤ v < 256 → ∃ d, idt t !! Z.to_nat v = Some d ∧ intr_handlers t !! Z.to_nat v = Some (handler_of v) ∧
      read_gate d = Gate (intr_stubs v) SEL_KCSEG (if runs_preemptible v then 15 else 14) 0 (if user_callable v then 3 else 0) 1) ∧
    map read_segment (drop 1 (gdt t)) =
      [Segment 0 0xfffff 10 1 0 1 1 1; Segment 0 0xfffff 2 1 0 1 1 1; Segment 0 0xfffff 10 1 3 1 1 1; Segment 0 0xfffff 2 1 3 1 1 1;
       Segment tss_addr 0x67 9 0 0 1 1 0] ∧
    (∃ i g, idtr t = Some i ∧ gdtr t = Some g ∧ bits 0 16 i = 256 * 8 - 1 ∧ bits 16 32 i = idt_addr ∧ bits 0 16 g = 6 * 8 - 1 ∧ bits 16 32 g = gdt_addr) ∧
    tr t = Some SEL_TSS.
Proof.
  intros Hs Hi Hg Ht. destruct (registered intr_stubs Hs) as (q & Hq & Hd).
  eexists. split; [|split; [|split; [|split]]].
  - unfold init_tables. rewrite (bind_Ok _ _ _ _ _ (gdt_init_tables intr_stubs gdt_addr tss_addr Ht)).
    rewrite (bind_Ok _ _ _ _ _ (intr_init_plan intr_stubs Hs idt_addr _ _ _ _ _)). apply Hq.
  - intros v Hv. apply bool_decide_eq_true_1 in Hd. rewrite Forall_forall in Hd. destruct (Hd v) as [Hgate Hh]; [apply elem_of_seqZ; lia|].
    eexists. split; [|split; [exact Hh|]].
    + cbn [of_plan idt]. rewrite list_lookup_imap, Hgate. reflexivity.
    + unfold plan_word, gate_of. rewrite Z2Nat.id by lia. apply read_gate_word; [by apply Hs|destruct (user_callable v); lia|destruct (runs_preemptible v); lia].
  - cbn [of_plan gdt segments drop map]. rewrite !read_seg_word by (unfold in_u; done || lia || exact Ht). reflexivity.
  - do 2 eexists. split; [reflexivity|]. split; [reflexivity|].
    destruct (operand_fields (256 * 8 - 1) idt_addr) as [Hli Hbi]; [unfold in_u; lia|done|].
    destruct (operand_fields (6 * 8 - 1) gdt_addr) as [Hl Hb]; [unfold in_u; lia|done|]. exact (conj Hli (conj Hbi (conj Hl Hb))).
  - reflexivity.
Qed.
(** Stubs of 16 bytes at 3 GB. *)
Lemma descriptor_tables_witness :
  ∃ t d, init_tables (λ v, 0xc0020000 + 16 * v) 0xc0030000 0xc0031000 0xc0040000 start = Ok ((), t) ∧ idt t !! 48%nat = Some d ∧ g_dpl (read_gate d) = 3.
Proof.
  destruct (descriptor_tables (λ v, 0xc0020000 + 16 * v) 0xc0030000 0xc0031000 0xc0040000) as (t & E & H & _); [unfold in_u; lia..|].
  destruct (H 48 ltac:(lia)) as (d & Hd & _ & Hr). exists t, d. split; [exact E|]. split; [exact Hd|]. rewrite Hr. reflexivity.
Defined.

End Descriptors.
