(* ===== verification/Ide.v ===== *)
(** * Disks (devices/ide.c)

    The driver of the disks on the channels of an IDE controller: reading and
    writing of sectors, the detection of disks, and the interrupt handler.  The
    hardware is a reference model of a channel with two drives after [ATA-3],
    which interrupts once per command and not otherwise, with the time that each
    command takes as a parameter; an access to a
    register that the standard forbids is undefined behaviour here.  An
    operation of the driver works on one channel, whose state is that of the
    driver and that of the hardware; time passes where the driver sleeps, and
    interrupts arrive when their time has come.  Messages are left out. *)

From S2P Require Import Prelude StdLib.

Module Ide.

(** ** Registers *)

Definition STA_BSY : Z := 0x80.
Definition STA_DRDY : Z := 0x40.
Definition STA_DRQ : Z := 0x08.
Definition CTL_SRST : Z := 0x04.
Definition DEV_MBS : Z := 0xa0.
Definition DEV_LBA : Z := 0x40.
Definition DEV_DEV : Z := 0x10.
Definition CMD_IDENTIFY_DEVICE : Z := 0xec.
Definition CMD_READ_SECTOR_RETRY : Z := 0x20.
Definition CMD_WRITE_SECTOR_RETRY : Z := 0x30.

(** ** A channel, as the standard has it *)

Record drive := Drive { sectors : list (list Z); identity : list Z }.

(** What a channel is doing: [Fetch], [Prepare], [Store] and [Resetting] take
    time, during which it is busy; [Offer] and [Accept] request data. *)
Inductive phase :=
| Rest
| Fetch (data : option (list Z))
| Offer (data : list Z)
| Prepare (lba : option nat)
| Accept (lba : nat)
| Store (lba : nat) (data : list Z)
| Resetting.

(** The registers by number, the error register, the reset bit, the nanoseconds
    for which the channel is still busy, and the number of commands so far. *)
Record ata := Ata { drives : list (option drive); regs : Z → Z; error : Z; srst : bool; busy : Z; doing : phase; served : nat }.

Definition selected (a : ata) : nat := if Z.testbit (regs a 6) 4 then 1 else 0.
Definition drive_of (a : ata) : option drive := mjoin (drives a !! selected a).
Definition lba_of (a : ata) : Z := regs a 3 + 2 ^ 8 * regs a 4 + 2 ^ 16 * regs a 5 + 2 ^ 24 * (regs a 6 mod 16).
Definition requests (p : phase) : bool := match p with Offer _ | Accept _ => true | _ => false end.
Definition is_busy (a : ata) : bool := srst a || bool_decide (0 < busy a).
Definition status (a : ata) : Z := if is_busy a then STA_BSY else if requests (doing a) then Z.lor STA_DRDY STA_DRQ else STA_DRDY.
(** The registers may be written. *)
Definition quiet (a : ata) : bool := negb (is_busy a) && negb (requests (doing a)).

Definition set_regs (f : Z → Z) (a : ata) : ata := Ata (drives a) f (error a) (srst a) (busy a) (doing a) (served a).
Definition set_doing (t : Z) (p : phase) (n : nat) (a : ata) : ata := Ata (drives a) (regs a) (error a) (srst a) t p n.
Definition store_sector (lba : nat) (data : list Z) (dr : drive) : drive := Drive (<[lba := data]> (sectors dr)) (identity dr).

Section Hardware.
(** The time that the [n]th command takes, and what is read from a drive that is
    not there. *)
Context (delay : nat → Z) (absent : Z → Z).

Definition start (p : phase) (a : ata) : ata := set_doing (delay (served a)) p (S (served a)) a.
Definition signature (r : Z) : Z := if decide (r = 2 ∨ r = 3) then 1 else 0.

Definition ata_in (r : Z) (a : ata) : Z :=
  match drive_of a with
  | None => absent r
  | Some _ => if decide (r = 7 ∨ r = 0x206) then status a else if is_busy a then status a else if decide (r = 1) then error a else regs a r
  end.
Definition command (v : Z) (a : ata) : ata :=
  match drive_of a with
  | None => a
  | Some dr =>
      if decide (v = 0x20) then start (Fetch (sectors dr !! Z.to_nat (lba_of a))) a
      else if decide (v = 0x30) then start (Prepare (if decide (lba_of a < Z.of_nat (length (sectors dr))) then Some (Z.to_nat (lba_of a)) else None)) a
      else if decide (v = 0xec) then start (Fetch (Some (identity dr))) a
      else start (Fetch None) a
  end.
Definition control (v : Z) (a : ata) : ata :=
  if decide (Z.land v CTL_SRST ≠ 0) then Ata (drives a) (regs a) (error a) true 0 Rest (served a)
  else if srst a then start Resetting (Ata (drives a) signature 1 false 0 Rest (served a)) else a.
Definition ata_out (r v : Z) (a : ata) : option ata :=
  if decide (r = 0x206) then Some (control v a)
  else if negb (quiet a) then None
  else if decide (r = 7) then Some (command v a)
  else Some (set_regs (λ x, if decide (x = r) then v else regs a x) a).
(** [n] words of the data register. *)
Definition data_in (n : Z) (a : ata) : option (list Z * ata) :=
  match doing a with Offer d => if decide (Z.of_nat (length d) = 2 * n ∧ is_busy a = false) then Some (d, set_doing 0 Rest (served a) a) else None | _ => None end.
Definition data_out (d : list Z) (a : ata) : option ata :=
  match doing a with Accept lba => if decide (length d = 512%nat ∧ is_busy a = false) then Some (start (Store lba d) a) else None | _ => None end.

(** The end of what takes time, and whether an interrupt tells of it. *)
Definition finish (a : ata) : ata * bool :=
  let rest := set_doing 0 Rest (served a) a in
  match doing a with
  | Fetch (Some d) => (set_doing 0 (Offer d) (served a) a, true)
  | Prepare (Some lba) => (set_doing 0 (Accept lba) (served a) a, false)
  | Store lba d => (Ata (alter (fmap (store_sector lba d)) (selected a) (drives a)) (regs a) (error a) (srst a) 0 Rest (served a), true)
  | Fetch None | Prepare None => (rest, true)
  | _ => (rest, false)
  end.
(** [t] nanoseconds. *)
Definition pass (t : Z) (a : ata) : ata * bool :=
  if decide (0 < busy a) then if decide (t < busy a) then (set_doing (busy a - t) (doing a) (served a) a, false) else finish a else (a, false).

(** ** The driver *)

Record ata_disk := Disk { d_name : list Z; dev_no : Z; is_ata : bool }.
(** [struct channel], with its lock and semaphore, the interrupt flag of the processor, and the hardware. *)
Record channel := Channel {
  c_name : list Z; reg_base : Z; irq : Z; lock : bool; expecting_interrupt : bool; completion_wait : Z; devices : list ata_disk; intr_on : bool; hw : ata }.
Abbreviation C := (M channel).

Definition reg_data (c : channel) : Z := reg_base c + 0.
Definition reg_error (c : channel) : Z := reg_base c + 1.
Definition reg_nsect (c : channel) : Z := reg_base c + 2.
Definition reg_lbal (c : channel) : Z := reg_base c + 3.
Definition reg_lbam (c : channel) : Z := reg_base c + 4.
Definition reg_lbah (c : channel) : Z := reg_base c + 5.
Definition reg_device (c : channel) : Z := reg_base c + 6.
Definition reg_status (c : channel) : Z := reg_base c + 7.
Definition reg_command (c : channel) : Z := reg_status c.
Definition reg_ctl (c : channel) : Z := reg_base c + 0x206.
Definition reg_alt_status (c : channel) : Z := reg_ctl c.

Definition set_hw (a : ata) (c : channel) : channel :=
  Channel (c_name c) (reg_base c) (irq c) (lock c) (expecting_interrupt c) (completion_wait c) (devices c) (intr_on c) a.
Definition set_wait (e : bool) (n : Z) (c : channel) : channel :=
  Channel (c_name c) (reg_base c) (irq c) (lock c) e n (devices c) (intr_on c) (hw c).
Definition set_lock (l : bool) (c : channel) : channel :=
  Channel (c_name c) (reg_base c) (irq c) l (expecting_interrupt c) (completion_wait c) (devices c) (intr_on c) (hw c).
Definition set_devices (l : list ata_disk) (c : channel) : channel :=
  Channel (c_name c) (reg_base c) (irq c) (lock c) (expecting_interrupt c) (completion_wait c) l (intr_on c) (hw c).

(** A port of the channel. *)
Definition inb (port : channel → Z) : C Z := c ← get; mret (u8 (ata_in (port c - reg_base c) (hw c))).
Definition outb (port : channel → Z) (v : Z) : C unit := c ← get; a ← lift (ata_out (port c - reg_base c) (u8 v) (hw c)) Undef; put (set_hw a c).
Definition insw (n : Z) : C (list Z) := c ← get; '(d, a) ← lift (data_in n (hw c)) Undef; put (set_hw a c);; mret d.
Definition outsw (d : list Z) : C unit := c ← get; a ← lift (data_out d (hw c)) Undef; put (set_hw a c).

Definition sema_up : C unit := modify (λ c, set_wait (expecting_interrupt c) (completion_wait c + 1) c).
(** The branch of [interrupt_handler] for this channel. *)
Definition service : C unit :=
  c ← get; if expecting_interrupt c then inb reg_status;; sema_up else mret ().
(** The thread sleeps, or waits in a loop, for [t] nanoseconds. *)
Definition sleep (t : Z) : C unit :=
  c ← get; let '(a, raised) := pass t (hw c) in put (set_hw a c);; if (raised : bool) then service else mret ().
Definition timer_nsleep (t : Z) : C unit := sleep t.
Definition timer_usleep (t : Z) : C unit := sleep (t * 1000).
Definition timer_msleep (t : Z) : C unit := sleep (t * 1000 * 1000).
(** A thread that nothing will wake waits for ever. *)
Definition sema_down : C unit :=
  c ← get;
  (if decide (completion_wait c = 0) then sleep (busy (hw c)) else mret ());;
  c ← get;
  if decide (0 < completion_wait c) then put (set_wait (expecting_interrupt c) (completion_wait c - 1) c) else fail NoFuel.
Definition lock_acquire : C unit := c ← get; if lock c then fail NoFuel else put (set_lock true c).
Definition lock_release : C unit := c ← get; ASSERT (lock c);; put (set_lock false c).

(** Whether a status has one of the bits. *)
Definition has (v bits : Z) : bool := negb (bool_decide (Z.land v bits = 0)).

Fixpoint idle_loop (n : nat) : C unit :=
  match n with O => mret () | S n => v ← inb reg_status; if has v (Z.lor STA_BSY STA_DRQ) then timer_usleep 10;; idle_loop n else mret () end.
Definition wait_until_idle : C unit := idle_loop 1000.
Fixpoint busy_loop (n : nat) : C bool :=
  match n with
  | O => mret false
  | S n =>
      v ← inb reg_alt_status;
      if has v STA_BSY then timer_msleep 10;; busy_loop n else v ← inb reg_alt_status; mret (has v STA_DRQ)
  end.
Definition wait_while_busy : C bool := busy_loop 3000.
Definition select_device (dev : Z) : C unit :=
  outb reg_device (if decide (dev = 1) then Z.lor DEV_MBS DEV_DEV else DEV_MBS);; inb reg_alt_status;; timer_nsleep 400.
Definition select_device_wait (dev : Z) : C unit := wait_until_idle;; select_device dev;; wait_until_idle.

Definition select_sector (dev sec_no : Z) : C unit :=
  ASSERT (bool_decide (sec_no < Z.shiftl 1 28));;
  select_device_wait dev;;
  outb reg_nsect 1;; outb reg_lbal sec_no;; outb reg_lbam (Z.shiftr sec_no 8);; outb reg_lbah (Z.shiftr sec_no 16);;
  outb reg_device (Z.lor (Z.lor (Z.lor DEV_MBS DEV_LBA) (if decide (dev = 1) then DEV_DEV else 0)) (Z.shiftr sec_no 24)).
Definition issue_pio_command (v : Z) : C unit :=
  c ← get; ASSERT (intr_on c);; put (set_wait true (completion_wait c) c);; outb reg_command v.
Definition input_sector : C (list Z) := insw (512 / 2).
Definition output_sector (sector : list Z) : C unit := outsw sector.

Definition ide_read (dev sec_no : Z) : C (list Z) :=
  lock_acquire;; select_sector dev sec_no;; issue_pio_command CMD_READ_SECTOR_RETRY;; sema_down;;
  ok ← wait_while_busy;
  if negb ok then PANIC else buffer ← input_sector; lock_release;; mret buffer.
Definition ide_write (dev sec_no : Z) (buffer : list Z) : C unit :=
  lock_acquire;; select_sector dev sec_no;; issue_pio_command CMD_WRITE_SECTOR_RETRY;;
  ok ← wait_while_busy;
  if negb ok then PANIC else output_sector buffer;; sema_down;; lock_release.

(** ** Detection *)

Definition present (dev : Z) : C bool :=
  select_device dev;;
  outb reg_nsect 0x55;; outb reg_lbal 0xaa;; outb reg_nsect 0xaa;; outb reg_lbal 0x55;; outb reg_nsect 0x55;; outb reg_lbal 0xaa;;
  x ← inb reg_nsect; if decide (x = 0x55) then y ← inb reg_lbal; mret (bool_decide (y = 0xaa)) else mret false.
(** [for (i = 0; i < 3000; i++)], with [n] rounds left. *)
Fixpoint slave_loop (n : nat) : C unit :=
  match n with
  | O => mret ()
  | S n => x ← inb reg_nsect; y ← (if decide (x = 1) then inb reg_lbal else mret 0); if decide (x = 1 ∧ y = 1) then mret () else timer_msleep 10;; slave_loop n
  end.
Definition reset_channel : C unit :=
  p0 ← present 0; p1 ← present 1;
  outb reg_ctl 0;; timer_usleep 10;; outb reg_ctl CTL_SRST;; timer_usleep 10;; outb reg_ctl 0;;
  timer_msleep 150;;
  (if p0 : bool then select_device 0;; wait_while_busy;; mret () else mret ());;
  (if p1 : bool then select_device 1;; slave_loop 3000;; wait_while_busy;; mret () else mret ()).

Definition get_disk (dev : Z) : C ata_disk := c ← get; lift (devices c !! Z.to_nat dev) Undef.
Definition set_is_ata (dev : Z) (b : bool) : C unit :=
  modify (λ c, set_devices (alter (λ d, Disk (d_name d) (dev_no d) b) (Z.to_nat dev) (devices c)) c).
Definition check_device_type (dev : Z) : C bool :=
  d ← get_disk dev;
  select_device (dev_no d);;
  error ← inb reg_error; lbam ← inb reg_lbam; lbah ← inb reg_lbah; status ← inb reg_status;
  if decide ((error ≠ 1 ∧ (error ≠ 0x81 ∨ dev_no d = 1)) ∨ has status STA_DRDY = false ∨ has status STA_BSY = true)
  then set_is_ata dev false;; mret (bool_decide (error ≠ 0x81))
  else set_is_ata dev (bool_decide ((lbam = 0 ∧ lbah = 0) ∨ (lbam = 0x3c ∧ lbah = 0xc3)));; mret true.

(** On the bytes: every pair swapped, then cut before the trailing blanks; the last byte makes room for the null byte. *)
Fixpoint swap_loop (l : list Z) : list Z := match l with a :: b :: l => b :: a :: swap_loop l | l => l end.
Fixpoint trim_loop (l : list Z) (size : nat) : nat :=
  match size with O => O | S n => let c := default 0 (l !! n) in if negb (bool_decide (c = 0)) && negb (StdLib.isspace c) then S n else trim_loop l n end.
Definition descramble_ata_string (l : list Z) : list Z := let l := swap_loop l in take (trim_loop l (length l - 1)) l.

(** What is registered as a block device: the name, the information on the disk and its capacity; [None] when nothing is. *)
Definition identify_ata_device (dev : Z) : C (option (list Z * (list Z * list Z) * Z)) :=
  d ← get_disk dev;
  ASSERT (is_ata d);;
  select_device_wait (dev_no d);; issue_pio_command CMD_IDENTIFY_DEVICE;; sema_down;;
  ok ← wait_while_busy;
  if negb ok then set_is_ata dev false;; mret None else
  id ← input_sector;
  let capacity := of_le32 (drop (60 * 2) id) in
  let model := descramble_ata_string (take 20 (drop (10 * 2) id)) in
  let serial := descramble_ata_string (take 40 (drop (27 * 2) id)) in
  if decide (1024 * 1024 * 1024 / 512 ≤ capacity) then set_is_ata dev false;; mret None
  else mret (Some (d_name d, (model, serial), capacity)).

(** The round of [ide_init] for a channel, from the reset on. *)
Definition identify_if (dev : Z) : C (option (list Z * (list Z * list Z) * Z)) :=
  d ← get_disk dev; if is_ata d then identify_ata_device dev else mret None.
Definition detect : C (list (list Z * (list Z * list Z) * Z)) :=
  reset_channel;;
  slave ← check_device_type 0;
  (if slave : bool then check_device_type 1;; mret () else mret ());;
  r0 ← identify_if 0; r1 ← identify_if 1;
  mret (omap id [r0; r1]).

(** ** The two channels *)

Definition on {A} (i : nat) (m : C A) : M (list channel) A :=
  l ← get; c ← lift (l !! i) Undef; match m c with Ok (x, c') => put (<[i := c']> l);; mret x | Err e => fail e end.

(** The fields that [ide_init] sets, for a channel with that hardware: "ide0", "hda" and so on. *)
Definition init_channel (chan_no : nat) (on : bool) (a : ata) : channel :=
  Channel [105; 100; 101; 48 + Z.of_nat chan_no] (if decide (chan_no = 0%nat) then 0x1f0 else 0x170) (if decide (chan_no = 0%nat) then 14 + 0x20 else 15 + 0x20)
    false false 0 (map (λ dev, Disk [104; 100; 97 + Z.of_nat chan_no * 2 + dev] dev false) [0; 1]) on a.
Definition init_round (i : nat) : M (list channel) (list (list Z * (list Z * list Z) * Z)) :=
  l ← get; c ← lift (l !! i) Undef; put (<[i := init_channel i (intr_on c) (hw c)]> l);; on i detect.
Definition ide_init : M (list channel) (list (list Z * (list Z * list Z) * Z)) :=
  r0 ← init_round 0; r1 ← init_round 1; mret (r0 ++ r1).

Fixpoint handler_loop (vec_no : Z) (l : list channel) (i : nat) : M (list channel) unit :=
  match l with [] => PANIC | c :: l => if decide (vec_no = irq c) then on i service else handler_loop vec_no l (S i) end.
Definition interrupt_handler (vec_no : Z) : M (list channel) unit := l ← get; handler_loop vec_no l 0.
End Hardware.
End Ide.
