(* ===== verification/IdeSpec.v ===== *)
(** * The disks behave like arrays of sectors

    The driver of devices/ide.c on the reference model of a channel: reading and
    writing do what they should, a sector that is not there or a drive that is
    too slow is a panic, the drives are found at the start, and what becomes of
    an interrupt that nobody expects. *)

From S2P Require Import Prelude StdLib Ide.
Import Ide.

Module IdeSpec.

(** A channel with the fields that the driver sets once, and the hardware at rest. *)
Definition upd (f : Z → Z) (r v : Z) : Z → Z := λ x, if decide (x = r) then v else f x.
Definition calm (ds : list (option drive)) (rg : Z → Z) (er : Z) (k : nat) : ata := Ata ds rg er false 0 Rest k.
Definition working (ds : list (option drive)) (rg : Z → Z) (er b : Z) (p : phase) (k : nat) : ata := Ata ds rg er false b p k.

Section Driver.
Context (delay : nat → Z) (absent : Z → Z) (Hdelay : ∀ n, 0 < delay n).
Context (nm : list Z) (rb iq : Z).
Definition ch (dv : list ata_disk) (l e : bool) (w : Z) (a : ata) : channel := Channel nm rb iq l e w dv true a.

(** ** Steps on a channel at rest *)

Lemma in_ch port r dv l e w a : port (ch dv l e w a) = rb + r → inb absent port (ch dv l e w a) = Ok (u8 (ata_in absent r a), ch dv l e w a).
Proof. intros Hp. unfold inb, mbind, M_bind, get, mret, M_ret. rewrite Hp. cbn [reg_base ch hw]. by replace (rb + r - rb) with r by lia. Qed.
Lemma out_ch port r v dv l e w a a' : port (ch dv l e w a) = rb + r → ata_out delay r (u8 v) a = Some a' →
  outb delay port v (ch dv l e w a) = Ok ((), ch dv l e w a').
Proof.
  intros Hp Ha. unfold outb. rewrite (bind_Ok get _ _ _ _ eq_refl). rewrite Hp. cbn [reg_base ch hw]. replace (rb + r - rb) with r by lia. rewrite Ha. reflexivity.
Qed.
Lemma out_calm port r v dv l e w ds rg er k : (∀ c, port c = reg_base c + r) → r ≠ 7 → r ≠ 0x206 →
  outb delay port v (ch dv l e w (calm ds rg er k)) = Ok ((), ch dv l e w (calm ds (upd rg r (u8 v)) er k)).
Proof.
  intros Hp H7 Hc. apply (out_ch _ r); [by rewrite Hp|]. unfold ata_out. rewrite decide_False by done. cbn. rewrite decide_False by done. reflexivity.
Qed.
Lemma sleep_calm t dv l e w ds rg er k : sleep absent t (ch dv l e w (calm ds rg er k)) = Ok ((), ch dv l e w (calm ds rg er k)).
Proof. reflexivity. Qed.
Lemma idle_calm n dv l e w ds rg er k : idle_loop absent n (ch dv l e w (calm ds rg er k)) = Ok ((), ch dv l e w (calm ds rg er k)).
Proof.
  induction n as [|n IH]; [done|]. cbn [idle_loop]. rewrite (bind_Ok _ _ _ _ _ (in_ch reg_status 7 _ _ _ _ _ eq_refl)). destruct (has _ _); [|done].
  unfold timer_usleep. by rewrite (bind_Ok _ _ _ _ _ (sleep_calm _ _ _ _ _ _ _ _ _)).
Qed.
Lemma busy_calm n dv l e w ds rg er k : ∃ b, busy_loop absent n (ch dv l e w (calm ds rg er k)) = Ok (b, ch dv l e w (calm ds rg er k)).
Proof.
  induction n as [|n [b IH]]; [by eexists|]. cbn [busy_loop]. rewrite (bind_Ok _ _ _ _ _ (in_ch reg_alt_status 0x206 _ _ _ _ _ eq_refl)). destruct (has _ _).
  - unfold timer_msleep. rewrite (bind_Ok _ _ _ _ _ (sleep_calm _ _ _ _ _ _ _ _ _)). eauto.
  - rewrite (bind_Ok _ _ _ _ _ (in_ch reg_alt_status 0x206 _ _ _ _ _ eq_refl)). by eexists.
Qed.
Definition dev_reg (dev : Z) : Z := if decide (dev = 1) then Z.lor DEV_MBS DEV_DEV else DEV_MBS.
Lemma select_calm dev dv l e w ds rg er k :
  select_device delay absent dev (ch dv l e w (calm ds rg er k)) = Ok ((), ch dv l e w (calm ds (upd rg 6 (u8 (dev_reg dev))) er k)).
Proof.
  unfold select_device. rewrite (bind_Ok _ _ _ _ _ (out_calm reg_device 6 _ _ _ _ _ _ _ _ _ (λ _, eq_refl) ltac:(done) ltac:(done))).
  by rewrite (bind_Ok _ _ _ _ _ (in_ch reg_alt_status 0x206 _ _ _ _ _ eq_refl)).
Qed.
Lemma select_wait_calm dev dv l e w ds rg er k :
  select_device_wait delay absent dev (ch dv l e w (calm ds rg er k)) = Ok ((), ch dv l e w (calm ds (upd rg 6 (u8 (dev_reg dev))) er k)).
Proof.
  unfold select_device_wait, wait_until_idle. rewrite (bind_Ok _ _ _ _ _ (idle_calm _ _ _ _ _ _ _ _ _)). rewrite (bind_Ok _ _ _ _ _ (select_calm _ _ _ _ _ _ _ _ _)).
  apply idle_calm.
Qed.

(** ** The address of a sector *)

Definition lba_reg (dev x : Z) : Z := u8 (Z.lor (Z.lor (Z.lor DEV_MBS DEV_LBA) (if decide (dev = 1) then DEV_DEV else 0)) x).
Definition sector_regs (dev sec : Z) (rg : Z → Z) : Z → Z :=
  upd (upd (upd (upd (upd (upd rg 6 (u8 (dev_reg dev))) 2 (u8 1)) 3 (u8 sec)) 4 (u8 (Z.shiftr sec 8))) 5 (u8 (Z.shiftr sec 16))) 6
    (lba_reg dev (Z.shiftr sec 24)).
Lemma select_sector_calm dev sec dv l e w ds rg er k : sec < 2 ^ 28 →
  select_sector delay absent dev sec (ch dv l e w (calm ds rg er k)) = Ok ((), ch dv l e w (calm ds (sector_regs dev sec rg) er k)).
Proof.
  intros Hs. unfold select_sector. rewrite bool_decide_eq_true_2 by done. rewrite (bind_Ok _ _ _ () _ eq_refl). rewrite (bind_Ok _ _ _ _ _ (select_wait_calm _ _ _ _ _ _ _ _ _)).
  do 4 (erewrite bind_Ok; [|eapply out_calm; [intros; reflexivity|done|done]]). eapply (out_calm reg_device 6); [done|done|done].
Qed.
Lemma dev_lba_reg dev x : dev = 0 ∨ dev = 1 → 0 ≤ x < 16 → lba_reg dev x mod 16 = x ∧ Z.testbit (lba_reg dev x) 4 = bool_decide (dev = 1).
Proof.
  intros Hd Hx. assert (Forall (λ dev, Forall (λ x, lba_reg dev x mod 16 = x ∧ Z.testbit (lba_reg dev x) 4 = bool_decide (dev = 1)) (seqZ 0 16)) [0; 1]) as H
    by (apply (bool_decide_eq_true_1 _); vm_compute; reflexivity).
  rewrite Forall_forall in H. specialize (H dev ltac:(set_solver)). rewrite Forall_forall in H. apply H, elem_of_seqZ. lia.
Qed.
Lemma sector_regs_spec dev sec rg ds er b p k : dev = 0 ∨ dev = 1 → 0 ≤ sec < 2 ^ 28 →
  let a := working ds (sector_regs dev sec rg) er b p k in lba_of a = sec ∧ selected a = Z.to_nat dev.
Proof.
  intros Hd Hs a. assert (0 ≤ Z.shiftr sec 24 < 16) as Hx by (rewrite Z.shiftr_div_pow2 by lia; Z.to_euclidean_division_equations; lia).
  destruct (dev_lba_reg dev _ Hd Hx) as [Hm Ht]. unfold lba_of, selected.
  change (regs a 3) with (u8 sec). change (regs a 4) with (u8 (Z.shiftr sec 8)). change (regs a 5) with (u8 (Z.shiftr sec 16)).
  change (regs a 6) with (lba_reg dev (Z.shiftr sec 24)). rewrite Hm, Ht. split.
  - unfold wrapu. rewrite !Z.shiftr_div_pow2 by lia. Z.to_euclidean_division_equations; lia.
  - destruct Hd as [-> | ->]; reflexivity.
Qed.

(** ** Commands *)

Definition valid (ds : list (option drive)) (dev : Z) (dr : drive) : Prop := (dev = 0 ∨ dev = 1) ∧ ds !! Z.to_nat dev = Some (Some dr).
Lemma drive_of_working dev sec dr ds rg er b p k : valid ds dev dr → 0 ≤ sec < 2 ^ 28 → drive_of (working ds (sector_regs dev sec rg) er b p k) = Some dr.
Proof. intros [Hd Hl] Hs. unfold drive_of. destruct (sector_regs_spec dev sec rg ds er b p k Hd Hs) as [_ ->]. cbn [drives working]. by rewrite Hl. Qed.

Lemma issue_calm v dv l e w ds rg er k : issue_pio_command delay v (ch dv l e w (calm ds rg er k)) = Ok ((), ch dv l true w (command delay (u8 v) (calm ds rg er k))).
Proof.
  unfold issue_pio_command. rewrite (bind_Ok get _ _ _ _ eq_refl). cbn [intr_on ch]. rewrite (bind_Ok (ASSERT true) _ _ () _ eq_refl). rewrite (bind_Ok (put _) _ _ _ _ eq_refl).
  by apply (out_ch reg_command 7).
Qed.

(** A drive that has something to say when it is done. *)
Lemma wait_for dv l ds rg er b p k a : 0 < b → finish (working ds rg er b p k) = (a, true) →
  sema_down absent (ch dv l true 0 (working ds rg er b p k)) = Ok ((), ch dv l true 0 a).
Proof.
  intros Hb Hf. unfold sema_down. rewrite (bind_Ok get _ _ _ _ eq_refl). cbn [completion_wait ch]. rewrite decide_True by done.
  assert (sleep absent b (ch dv l true 0 (working ds rg er b p k)) = Ok ((), ch dv l true 1 a)) as E.
  { unfold sleep. rewrite (bind_Ok get _ _ _ _ eq_refl). cbn [hw ch]. unfold pass. rewrite decide_True by done. rewrite decide_False by (cbn; lia). rewrite Hf.
    rewrite (bind_Ok (put _) _ _ _ _ eq_refl). reflexivity. }
  cbn [hw ch busy working]. rewrite (bind_Ok _ _ _ _ _ E). reflexivity.
Qed.

(** The drive that the device register selects answers. *)
Definition sel (ds : list (option drive)) (rg : Z → Z) : option drive := mjoin (ds !! (if Z.testbit (rg 6) 4 then 1%nat else 0%nat)).
Section Answer.
Context (ds : list (option drive)) (rg : Z → Z) (dr : drive) (Hsel : sel ds rg = Some dr).

Lemma status_in er b p k r : r = 7 ∨ r = 0x206 →
  ata_in absent r (working ds rg er b p k) = status (working ds rg er b p k).
Proof. intros Hr. unfold ata_in. change (drive_of _) with (sel ds rg). rewrite Hsel. by rewrite decide_True. Qed.
(** A drive that is not busy says at once whether it wants data. *)
Lemma busy_over n dv l e w er p k : busy_loop absent (S n) (ch dv l e w (working ds rg er 0 p k)) =
  Ok (requests p, ch dv l e w (working ds rg er 0 p k)).
Proof.
  cbn [busy_loop]. rewrite (bind_Ok _ _ _ _ _ (in_ch reg_alt_status 0x206 _ _ _ _ _ eq_refl)). rewrite status_in by auto.
  assert (status (working ds rg er 0 p k) = if requests p then 0x48 else 0x40) as E by (unfold status; cbn; by destruct (requests p)).
  rewrite E. replace (has (u8 (if requests p then 0x48 else 0x40)) STA_BSY) with false by (by destruct (requests p)).
  rewrite (bind_Ok _ _ _ _ _ (in_ch reg_alt_status 0x206 _ _ _ _ _ eq_refl)). rewrite status_in, E by auto. by destruct (requests p).
Qed.
(** One that is busy is asked again after 10 ms. *)
Lemma busy_again n dv l e w er b p k : 0 < b → busy_loop absent (S n) (ch dv l e w (working ds rg er b p k)) =
  (timer_msleep absent 10;; busy_loop absent n) (ch dv l e w (working ds rg er b p k)).
Proof.
  intros Hb. cbn [busy_loop]. rewrite (bind_Ok _ _ _ _ _ (in_ch reg_alt_status 0x206 _ _ _ _ _ eq_refl)). rewrite status_in by auto.
  unfold status, is_busy. cbn [srst busy working orb]. rewrite bool_decide_eq_true_2 by done. reflexivity.
Qed.
Lemma sleep_busy dv l e w er b p k : 10000000 < b →
  sleep absent (10 * 1000 * 1000) (ch dv l e w (working ds rg er b p k)) = Ok ((), ch dv l e w (working ds rg er (b - 10000000) p k)).
Proof. intros Hb. unfold sleep. rewrite (bind_Ok get _ _ _ _ eq_refl). cbn [hw ch]. unfold pass. rewrite !decide_True by (cbn; lia). reflexivity. Qed.
Lemma sleep_done dv l e w er b p k a : 0 < b ≤ 10000000 → finish (working ds rg er b p k) = (a, false) →
  sleep absent (10 * 1000 * 1000) (ch dv l e w (working ds rg er b p k)) = Ok ((), ch dv l e w a).
Proof.
  intros Hb Hf. unfold sleep. rewrite (bind_Ok get _ _ _ _ eq_refl). cbn [hw ch]. unfold pass. rewrite decide_True, decide_False by (cbn; lia). by rewrite Hf.
Qed.
Lemma sleep_raised dv l w er b p k a : 0 < b ≤ 10000000 → finish (working ds rg er b p k) = (a, true) →
  sleep absent (10 * 1000 * 1000) (ch dv l true w (working ds rg er b p k)) = Ok ((), ch dv l true (w + 1) a).
Proof.
  intros Hb Hf. unfold sleep. rewrite (bind_Ok get _ _ _ _ eq_refl). cbn [hw ch]. unfold pass. rewrite decide_True, decide_False by (cbn; lia). by rewrite Hf.
Qed.
(** The loop comes to the state in which the drive is done, if that is soon enough. *)
Lemma busy_until n dv l e w er b p k c : (∀ b, 0 < b ≤ 10000000 →
    sleep absent (10 * 1000 * 1000) (ch dv l e w (working ds rg er b p k)) = Ok ((), c)) → 0 < b ≤ Z.of_nat n * 10000000 →
  ∃ m, busy_loop absent (S n) (ch dv l e w (working ds rg er b p k)) = busy_loop absent (S m) c.
Proof.
  intros Hc. revert b. induction n as [|n IH]; intros b Hb; [lia|]. rewrite busy_again by lia. unfold timer_msleep. destruct (decide (10000000 < b)) as [Hl|Hl].
  - rewrite (bind_Ok _ _ _ _ _ (sleep_busy dv l e w er b p k Hl)). apply IH. lia.
  - rewrite (bind_Ok _ _ _ _ _ (Hc b ltac:(lia))). by exists n.
Qed.
Lemma busy_in_time n dv l e w er b k lba : 0 < b ≤ Z.of_nat n * 10000000 →
  busy_loop absent (S n) (ch dv l e w (working ds rg er b (Prepare (Some lba)) k)) =
    Ok (true, ch dv l e w (working ds rg er 0 (Accept lba) k)).
Proof.
  intros Hb. destruct (busy_until n dv l e w er b (Prepare (Some lba)) k (ch dv l e w (working ds rg er 0 (Accept lba) k))) as [m ->]; [|done|].
  - intros x Hx. by apply sleep_done.
  - apply busy_over.
Qed.
Lemma busy_refused n dv l w er b k : 0 < b ≤ Z.of_nat n * 10000000 →
  busy_loop absent (S n) (ch dv l true w (working ds rg er b (Prepare None) k)) =
    Ok (false, ch dv l true (w + 1) (working ds rg er 0 Rest k)).
Proof.
  intros Hb. destruct (busy_until n dv l true w er b (Prepare None) k (ch dv l true (w + 1) (working ds rg er 0 Rest k))) as [m ->]; [|done|].
  - intros x Hx. by apply sleep_raised.
  - apply busy_over.
Qed.
Lemma sleep_ok t c : ∃ c', sleep absent t c = Ok ((), c').
Proof.
  unfold sleep. rewrite (bind_Ok get _ _ _ _ eq_refl). destruct (pass t (hw c)) as [a []]; rewrite (bind_Ok (put _) _ _ _ _ eq_refl); [|by eexists].
  unfold service. rewrite (bind_Ok get _ _ _ _ eq_refl). destruct (expecting_interrupt _); by eexists.
Qed.
Lemma busy_too_long n dv l e w er b k p : 0 < b → (Z.of_nat n - 1) * 10000000 < b →
  ∃ c, busy_loop absent n (ch dv l e w (working ds rg er b p k)) = Ok (false, c).
Proof.
  revert b. induction n as [|n IH]; intros b H0 Hb; [by eexists|]. rewrite busy_again by lia. unfold timer_msleep. destruct (decide (10000000 < b)) as [Hl|Hl].
  - rewrite (bind_Ok _ _ _ _ _ (sleep_busy dv l e w er b p k Hl)). apply IH; lia.
  - destruct (sleep_ok (10 * 1000 * 1000) (ch dv l e w (working ds rg er b p k))) as [c Hc]. rewrite (bind_Ok _ _ _ _ _ Hc).
    replace n with O by lia. by eexists.
Qed.

End Answer.

Section Valid.
Context (dev sec : Z) (dr : drive) (ds : list (option drive)) (Hv : valid ds dev dr) (Hs : 0 ≤ sec < 2 ^ 28).

(** ** Reading and writing *)

Lemma sel_sector rg : sel ds (sector_regs dev sec rg) = Some dr.
Proof. exact (drive_of_working dev sec dr ds rg 0 0 Rest 0 Hv Hs). Qed.
Lemma start_op m dv e rg er k {A} (f : unit → M channel A) : (lock_acquire;; select_sector delay absent dev sec;; issue_pio_command delay m;; f ()) (ch dv false e 0 (calm ds rg er k)) =
  f () (ch dv true true 0 (command delay (u8 m) (calm ds (sector_regs dev sec rg) er k))).
Proof.
  rewrite (bind_Ok lock_acquire _ _ () (ch dv true e 0 (calm ds rg er k))) by reflexivity. rewrite (bind_Ok _ _ _ _ _ (select_sector_calm dev sec _ _ _ _ _ _ _ _ ltac:(lia))).
  by rewrite (bind_Ok _ _ _ _ _ (issue_calm _ _ _ _ _ _ _ _ _)).
Qed.
Lemma command_start v rg er k : command delay v (calm ds (sector_regs dev sec rg) er k) =
  working ds (sector_regs dev sec rg) er (delay k)
    (if decide (v = 0x20) then Fetch (sectors dr !! Z.to_nat sec)
     else if decide (v = 0x30) then Prepare (if decide (sec < Z.of_nat (length (sectors dr))) then Some (Z.to_nat sec) else None)
     else if decide (v = 0xec) then Fetch (Some (identity dr)) else Fetch None) (S k).
Proof.
  unfold command. pose proof (drive_of_working dev sec dr ds rg er 0 Rest k Hv Hs) as E. unfold working in E. unfold calm at 1. rewrite E.
  destruct (sector_regs_spec dev sec rg ds er 0 Rest k (proj1 Hv) Hs) as [El _]. unfold working in El. unfold calm. rewrite El. by repeat case_decide.
Qed.
Lemma read_ok dv e rg er k d : sectors dr !! Z.to_nat sec = Some d → length d = 512%nat →
  ide_read delay absent dev sec (ch dv false e 0 (calm ds rg er k)) = Ok (d, ch dv false true 0 (calm ds (sector_regs dev sec rg) er (S k))).
Proof.
  intros Hd Hl. unfold ide_read. rewrite (start_op _ dv e rg er k (λ _, sema_down absent;; _)). rewrite command_start by done. change (u8 CMD_READ_SECTOR_RETRY) with 0x20. rewrite decide_True, Hd by done.
  rewrite (bind_Ok (sema_down absent) _ _ () (ch dv true true 0 (working ds (sector_regs dev sec rg) er 0 (Offer d) (S k)))) by (apply wait_for; [apply Hdelay|reflexivity]).
  unfold wait_while_busy. change 3000%nat with (S 2999).
  rewrite (bind_Ok _ _ _ _ _ (busy_over _ _ dr (sel_sector rg) 2999 dv true true 0 er (Offer d) (S k))). cbn [requests negb].
  unfold input_sector, insw. rewrite (bind_Ok _ _ _ d (ch dv true true 0 (calm ds (sector_regs dev sec rg) er (S k)))); [reflexivity|].
  rewrite (bind_Ok get _ _ _ _ eq_refl). cbn [hw ch]. unfold data_in. cbn [doing working]. rewrite decide_True by (rewrite Hl; done). reflexivity.
Qed.
Lemma read_beyond dv e rg er k : sectors dr !! Z.to_nat sec = None → ide_read delay absent dev sec (ch dv false e 0 (calm ds rg er k)) = Err Panic.
Proof.
  intros Hd. unfold ide_read. rewrite (start_op _ dv e rg er k (λ _, sema_down absent;; _)). rewrite command_start by done. change (u8 CMD_READ_SECTOR_RETRY) with 0x20. rewrite decide_True, Hd by done.
  rewrite (bind_Ok (sema_down absent) _ _ () (ch dv true true 0 (working ds (sector_regs dev sec rg) er 0 Rest (S k)))) by (apply wait_for; [apply Hdelay|reflexivity]).
  unfold wait_while_busy. change 3000%nat with (S 2999). by rewrite (bind_Ok _ _ _ _ _ (busy_over _ _ dr (sel_sector rg) 2999 dv true true 0 er Rest (S k))).
Qed.
(** The time that [wait_while_busy] is patient. *)
Definition patience : Z := 2999 * 10000000.
Definition write_drives (data : list Z) : list (option drive) := alter (fmap (store_sector (Z.to_nat sec) data)) (Z.to_nat dev) ds.
Lemma write_ok dv e rg er k data : sec < Z.of_nat (length (sectors dr)) → length data = 512%nat → delay k ≤ patience →
  ide_write delay absent dev sec data (ch dv false e 0 (calm ds rg er k)) = Ok ((), ch dv false true 0 (calm (write_drives data) (sector_regs dev sec rg) er (S (S k)))).
Proof.
  intros Hl Hd Hp. unfold ide_write. rewrite (start_op _ dv e rg er k (λ _, wait_while_busy absent ≫= _)). rewrite command_start by done. change (u8 CMD_WRITE_SECTOR_RETRY) with 0x30.
  rewrite decide_False, !decide_True by done. unfold wait_while_busy. change 3000%nat with (S 2999).
  rewrite (bind_Ok _ _ _ _ _ (busy_in_time _ _ dr (sel_sector rg) 2999 dv true true 0 er (delay k) (S k) (Z.to_nat sec) (conj (Hdelay k) Hp))). cbn [negb].
  unfold output_sector. rewrite (bind_Ok _ _ _ () (ch dv true true 0 (working ds (sector_regs dev sec rg) er (delay (S k)) (Store (Z.to_nat sec) data) (S (S k))))).
  - rewrite (bind_Ok (sema_down absent) _ _ () (ch dv true true 0 (calm (write_drives data) (sector_regs dev sec rg) er (S (S k))))); [reflexivity|].
    apply wait_for; [apply Hdelay|]. unfold finish. cbn [doing working]. destruct (sector_regs_spec dev sec rg ds er (delay (S k)) (Store (Z.to_nat sec) data) (S (S k)) (proj1 Hv) Hs) as [_ ->]. reflexivity.
  - unfold outsw. rewrite (bind_Ok get _ _ _ _ eq_refl). cbn [hw ch]. unfold data_out. cbn [doing working]. rewrite decide_True by done. reflexivity.
Qed.
Lemma write_beyond dv e rg er k data : Z.of_nat (length (sectors dr)) ≤ sec ∨ patience < delay k → ide_write delay absent dev sec data (ch dv false e 0 (calm ds rg er k)) = Err Panic.
Proof.
  intros Hl. unfold ide_write. rewrite (start_op _ dv e rg er k (λ _, wait_while_busy absent ≫= _)). rewrite command_start by done. change (u8 CMD_WRITE_SECTOR_RETRY) with 0x30.
  rewrite (decide_False (P := 0x30 = 0x20)), (decide_True (P := 0x30 = 0x30)) by done.
  assert (∃ c, wait_while_busy absent (ch dv true true 0 (working ds (sector_regs dev sec rg) er (delay k)
    (Prepare (if decide (sec < Z.of_nat (length (sectors dr))) then Some (Z.to_nat sec) else None)) (S k))) = Ok (false, c)) as [c Hc]; [|by rewrite (bind_Ok _ _ _ _ _ Hc)].
  destruct (decide (patience < delay k)) as [Hp|Hp]; [apply (busy_too_long _ _ dr (sel_sector rg)); [apply Hdelay|exact Hp]|]. rewrite decide_False by (destruct Hl; lia).
  eexists. unfold wait_while_busy. change 3000%nat with (S 2999). apply (busy_refused _ _ dr (sel_sector rg)). pose proof (Hdelay k). unfold patience in Hp. lia.
Qed.
End Valid.

(** ** Histories *)

Inductive op := ReadSector (dev sec : Z) | WriteSector (dev sec : Z) (data : list Z).
Definition op_dev (o : op) : Z := match o with ReadSector dev _ | WriteSector dev _ _ => dev end.
Definition op_sec (o : op) : Z := match o with ReadSector _ sec | WriteSector _ sec _ => sec end.
Definition op_data (o : op) : list Z := match o with ReadSector _ _ => replicate 512 0 | WriteSector _ _ data => data end.
Definition step (o : op) : M channel (list Z) :=
  match o with ReadSector dev sec => ide_read delay absent dev sec | WriteSector dev sec data => ide_write delay absent dev sec data;; mret [] end.
Fixpoint steps (os : list op) : M channel (list (list Z)) := match os with [] => mret [] | o :: os => x ← step o; xs ← steps os; mret (x :: xs) end.

(** The specification: the drives are arrays. *)
Definition spec_step (o : op) (ds : list (option drive)) : option (list Z * list (option drive)) :=
  dr ← mjoin (ds !! Z.to_nat (op_dev o)); d ← sectors dr !! Z.to_nat (op_sec o);
  match o with
  | ReadSector _ _ => Some (d, ds)
  | WriteSector dev sec data => Some ([], alter (fmap (store_sector (Z.to_nat sec) data)) (Z.to_nat dev) ds)
  end.
Fixpoint spec_steps (os : list op) (ds : list (option drive)) : option (list (list Z) * list (option drive)) :=
  match os with [] => Some ([], ds) | o :: os => '(x, ds) ← spec_step o ds; '(xs, ds) ← spec_steps os ds; Some (x :: xs, ds) end.

(** The operation is on a drive that is there, and a sector has 512 bytes. *)
Definition legal (ds : list (option drive)) (o : op) : Prop :=
  (op_dev o = 0 ∨ op_dev o = 1) ∧ is_Some (mjoin (ds !! Z.to_nat (op_dev o))) ∧ 0 ≤ op_sec o < 2 ^ 28 ∧ length (op_data o) = 512%nat.
Definition drives_ok (ds : list (option drive)) : Prop := ∀ i dr, ds !! i = Some (Some dr) → Forall (λ d, length d = 512%nat) (sectors dr).
Definition resting (ds : list (option drive)) (c : channel) : Prop := ∃ dv e rg er k, c = ch dv false e 0 (calm ds rg er k).

Lemma legal_alter ds i (f : drive → drive) o : legal ds o → legal (alter (fmap f) i ds) o.
Proof.
  intros (Hd & [dr Hdr] & H). split; [done|]. split; [|done]. destruct (decide (i = Z.to_nat (op_dev o))) as [->|Hi].
  - rewrite list_lookup_alter_eq. destruct (ds !! _) as [[x|]|]; [|done|done]. by eexists.
  - rewrite list_lookup_alter_ne by done. by eexists.
Qed.
Lemma drives_ok_alter ds i lba data : drives_ok ds → length data = 512%nat → drives_ok (alter (fmap (store_sector lba data)) i ds).
Proof.
  intros Hok Hd j dr Hj. destruct (decide (i = j)) as [->|Hij].
  - rewrite list_lookup_alter_eq in Hj. destruct (ds !! j) as [[x|]|] eqn:E; [|done|done]. injection Hj as <-. apply Forall_insert; [by eapply Hok|done].
  - rewrite list_lookup_alter_ne in Hj by done. by eapply Hok.
Qed.
Lemma spec_step_keeps o ds x ds' : drives_ok ds → legal ds o → spec_step o ds = Some (x, ds') → drives_ok ds' ∧ ∀ o', legal ds o' → legal ds' o'.
Proof.
  unfold spec_step. intros Hok (_ & _ & _ & Hl). destruct (mjoin _); [|done]. cbn. destruct (_ !! _); [|done]. cbn. destruct o as [dev sec|dev sec data]; intros [= <- <-]; [done|].
  split; [by apply drives_ok_alter|]. intros o'. apply legal_alter.
Qed.

Lemma step_spec o ds c : (∀ n, delay n ≤ patience) → drives_ok ds → resting ds c → legal ds o →
  match spec_step o ds with Some (x, ds') => ∃ c', step o c = Ok (x, c') ∧ resting ds' c' | None => step o c = Err Panic end.
Proof.
  intros Hp Hok (dv & e & rg & er & k & ->) (Hd & [dr Hdr] & Hs & Hl). unfold spec_step. rewrite Hdr. cbn [mbind option_bind].
  assert (valid ds (op_dev o) dr) as Hv. { split; [done|]. destruct (ds !! _) as [[y|]|] eqn:E; [|done|done]. injection Hdr as ->. done. }
  destruct (sectors dr !! Z.to_nat (op_sec o)) as [d|] eqn:E; cbn [mbind option_bind]; destruct o as [dev sec|dev sec data]; cbn [op_dev op_sec op_data step] in *.
  - eexists. split; [apply (read_ok _ _ dr _ Hv Hs); [done|]|by do 5 eexists]. specialize (Hok _ _ (proj2 Hv)). by eapply Forall_lookup_1 in Hok.
  - eexists. split; [|by do 5 eexists]. apply lookup_lt_Some in E. by rewrite (bind_Ok _ _ _ _ _ (write_ok dev sec dr ds Hv Hs dv e rg er k data ltac:(lia) Hl (Hp k))).
  - by apply (read_beyond _ _ dr).
  - apply lookup_ge_None in E. apply bind_Err. apply (write_beyond _ _ dr); [done|done|left; lia].
Qed.

(** ** Detection *)

Lemma present_calm dev dv l e w ds rg er k : ∃ b rg', present delay absent dev (ch dv l e w (calm ds rg er k)) = Ok (b, ch dv l e w (calm ds rg' er k)).
Proof.
  unfold present. rewrite (bind_Ok _ _ _ _ _ (select_calm _ _ _ _ _ _ _ _ _)). do 6 (erewrite bind_Ok; [|eapply out_calm; [intros; reflexivity|done|done]]).
  rewrite (bind_Ok _ _ _ _ _ (in_ch reg_nsect 2 _ _ _ _ _ eq_refl)). destruct (decide _); [|by do 2 eexists].
  rewrite (bind_Ok _ _ _ _ _ (in_ch reg_lbal 3 _ _ _ _ _ eq_refl)). by do 2 eexists.
Qed.
Lemma slave_calm n dv l e w ds rg er k : slave_loop absent n (ch dv l e w (calm ds rg er k)) = Ok ((), ch dv l e w (calm ds rg er k)).
Proof.
  induction n as [|n IH]; [done|]. cbn [slave_loop]. rewrite (bind_Ok _ _ _ _ _ (in_ch reg_nsect 2 _ _ _ _ _ eq_refl)).
  assert (∃ y, (if decide (u8 (ata_in absent 2 (calm ds rg er k)) = 1) then inb absent reg_lbal else mret 0) (ch dv l e w (calm ds rg er k)) =
    Ok (y, ch dv l e w (calm ds rg er k))) as [y Hy]. { destruct (decide _); [|by eexists]. eexists. by apply (in_ch reg_lbal 3). }
  rewrite (bind_Ok _ _ _ _ _ Hy). destruct (decide (_ ∧ _)); [reflexivity|]. unfold timer_msleep. by rewrite (bind_Ok _ _ _ _ _ (sleep_calm _ _ _ _ _ _ _ _ _)).
Qed.
(** The registers have the signature of a drive after a reset. *)
Definition signed (rg : Z → Z) : Prop := rg 4 = 0 ∧ rg 5 = 0.
Lemma ctl_calm v dv l e w ds rg er k : Z.land (u8 v) CTL_SRST = 0 → outb delay reg_ctl v (ch dv l e w (calm ds rg er k)) = Ok ((), ch dv l e w (calm ds rg er k)).
Proof. intros Hv. apply (out_ch reg_ctl 0x206); [done|]. unfold ata_out. rewrite decide_True by done. unfold control. by rewrite decide_False by (rewrite Hv; auto). Qed.
Lemma soft_reset {A} (f : M channel A) dv l e w ds rg er k : delay k ≤ 150000000 →
  (outb delay reg_ctl CTL_SRST;; timer_usleep absent 10;; outb delay reg_ctl 0;; timer_msleep absent 150;; f) (ch dv l e w (calm ds rg er k)) =
    f (ch dv l e w (calm ds signature 1 (S k))).
Proof.
  intros Hd. rewrite (bind_Ok _ _ _ () (ch dv l e w (Ata ds rg er true 0 Rest k))) by (apply (out_ch reg_ctl 0x206); done).
  rewrite (bind_Ok (timer_usleep absent 10) _ _ () (ch dv l e w (Ata ds rg er true 0 Rest k))) by reflexivity.
  rewrite (bind_Ok _ _ _ () (ch dv l e w (working ds signature 1 (delay k) Resetting (S k)))) by (apply (out_ch reg_ctl 0x206); done).
  rewrite (bind_Ok _ _ _ () (ch dv l e w (calm ds signature 1 (S k)))); [done|].
  unfold timer_msleep, sleep. rewrite (bind_Ok get _ _ _ _ eq_refl). cbn [hw ch]. unfold pass. pose proof (Hdelay k). rewrite decide_True, decide_False by (cbn; lia). reflexivity.
Qed.
Lemma wait_present (b : bool) dev (m : M channel unit) dv l e w ds rg er k : (∀ rg, m (ch dv l e w (calm ds rg er k)) = Ok ((), ch dv l e w (calm ds rg er k))) → signed rg →
  ∃ rg', (if b then select_device delay absent dev;; m;; wait_while_busy absent;; mret () else mret ()) (ch dv l e w (calm ds rg er k)) =
    Ok ((), ch dv l e w (calm ds rg' er k)) ∧ signed rg'.
Proof.
  intros Hm Hr. destruct b; [|by eexists]. eexists. split.
  - rewrite (bind_Ok _ _ _ _ _ (select_calm _ _ _ _ _ _ _ _ _)). rewrite (bind_Ok _ _ _ _ _ (Hm _)). unfold wait_while_busy.
    edestruct busy_calm as [b Hb]. by rewrite (bind_Ok _ _ _ _ _ Hb).
  - exact Hr.
Qed.
Lemma reset_calm dv l e w ds rg er k : delay k ≤ 150000000 →
  ∃ rg', reset_channel delay absent (ch dv l e w (calm ds rg er k)) = Ok ((), ch dv l e w (calm ds rg' 1 (S k))) ∧ signed rg'.
Proof.
  intros Hd. unfold reset_channel. destruct (present_calm 0 dv l e w ds rg er k) as (p0 & r0 & H0). rewrite (bind_Ok _ _ _ _ _ H0).
  destruct (present_calm 1 dv l e w ds r0 er k) as (p1 & r1 & H1). rewrite (bind_Ok _ _ _ _ _ H1).
  rewrite (bind_Ok _ _ _ _ _ (ctl_calm 0 _ _ _ _ _ _ _ _ eq_refl)). rewrite (bind_Ok (timer_usleep _ _) _ _ () _ (sleep_calm _ _ _ _ _ _ _ _ _)).
  rewrite soft_reset by done.
  destruct (wait_present p0 0 (mret ()) dv l e w ds signature 1 (S k)) as (r2 & H2 & S2); [done|done|]. rewrite (bind_Ok _ _ _ _ _ H2).
  exact (wait_present p1 1 (slave_loop absent 3000) dv l e w ds r2 1 (S k) (λ rg, slave_calm _ _ _ _ _ _ rg _ _) S2).
Qed.

Lemma sel_dev dev ds rg : dev = 0 ∨ dev = 1 → sel ds (upd rg 6 (u8 (dev_reg dev))) = mjoin (ds !! Z.to_nat dev).
Proof. by intros [-> | ->]. Qed.
Definition flag (dev : Z) (b : bool) (dv : list ata_disk) : list ata_disk := alter (λ d, Disk (d_name d) (dev_no d) b) (Z.to_nat dev) dv.
(** What is read from a drive that is not there: not the signature of a drive. *)
Definition silent : Prop := u8 (absent 1) ≠ 0x81 ∧ has (u8 (absent 7)) STA_DRDY = false.
Lemma check_calm dev d dv l e w ds rg k : silent → signed rg → dev = 0 ∨ dev = 1 → dv !! Z.to_nat dev = Some d → dev_no d = dev →
  check_device_type delay absent dev (ch dv l e w (calm ds rg 1 k)) =
    Ok (true, ch (flag dev (bool_decide (is_Some (mjoin (ds !! Z.to_nat dev)))) dv) l e w (calm ds (upd rg 6 (u8 (dev_reg dev))) 1 k)).
Proof.
  intros [A1 A7] [H4 H5] Hd Hdv Hn. unfold check_device_type. rewrite (bind_Ok (get_disk dev) _ _ d (ch dv l e w (calm ds rg 1 k))) by (unfold get_disk; rewrite (bind_Ok get _ _ _ _ eq_refl); cbn [devices ch]; by rewrite Hdv).
  rewrite Hn. rewrite (bind_Ok _ _ _ _ _ (select_calm _ _ _ _ _ _ _ _ _)). set (rg' := upd rg 6 _). set (c := ch dv l e w (calm ds rg' 1 k)).
  rewrite (bind_Ok _ _ c _ _ (in_ch reg_error 1 _ _ _ _ _ eq_refl)), (bind_Ok _ _ c _ _ (in_ch reg_lbam 4 _ _ _ _ _ eq_refl)),
    (bind_Ok _ _ c _ _ (in_ch reg_lbah 5 _ _ _ _ _ eq_refl)), (bind_Ok _ _ c _ _ (in_ch reg_status 7 _ _ _ _ _ eq_refl)).
  pose proof (sel_dev dev ds rg Hd : drive_of (calm ds rg' 1 k) = _) as Es. unfold ata_in. rewrite Es. destruct (mjoin _) as [dr|] eqn:Em.
  - change (regs (calm ds rg' 1 k) 4) with (rg 4). change (regs (calm ds rg' 1 k) 5) with (rg 5). rewrite H4, H5. rewrite decide_False by (intros [[? _]|[?|?]]; [by vm_compute in H|done|done]). reflexivity.
  - rewrite decide_True by auto. rewrite bool_decide_eq_true_2 by done. reflexivity.
Qed.

(** What the driver registers for a drive. *)
Definition capacity (dr : drive) : Z := of_le32 (drop (60 * 2) (identity dr)).
Definition too_big (dr : drive) : bool := bool_decide (2 ^ 21 ≤ capacity dr).
Definition entry (name : list Z) (dr : drive) : list Z * (list Z * list Z) * Z :=
  (name, (descramble_ata_string (take 20 (drop (10 * 2) (identity dr))), descramble_ata_string (take 40 (drop (27 * 2) (identity dr)))), capacity dr).

Lemma identify_calm dev d dr dv l e ds rg er k : dev = 0 ∨ dev = 1 → dv !! Z.to_nat dev = Some d → dev_no d = dev → is_ata d = true →
  mjoin (ds !! Z.to_nat dev) = Some dr → length (identity dr) = 512%nat →
  identify_ata_device delay absent dev (ch dv l e 0 (calm ds rg er k)) =
    Ok (if too_big dr then None else Some (entry (d_name d) dr),
      ch (if too_big dr then flag dev false dv else dv) l true 0 (calm ds (upd rg 6 (u8 (dev_reg dev))) er (S k))).
Proof.
  intros Hd Hdv Hn Ha Hdr Hl. unfold identify_ata_device.
  rewrite (bind_Ok (get_disk dev) _ _ d (ch dv l e 0 (calm ds rg er k))) by (unfold get_disk; rewrite (bind_Ok get _ _ _ _ eq_refl); cbn [devices ch]; by rewrite Hdv).
  rewrite Ha, Hn. rewrite (bind_Ok (ASSERT true) _ _ () _ eq_refl). rewrite (bind_Ok _ _ _ _ _ (select_wait_calm _ _ _ _ _ _ _ _ _)). set (rg' := upd rg 6 _).
  assert (sel ds rg' = Some dr) as Es by (unfold rg'; by rewrite sel_dev).
  rewrite (bind_Ok _ _ _ () (ch dv l true 0 (working ds rg' er (delay k) (Fetch (Some (identity dr))) (S k)))).
  2: { rewrite issue_calm. do 3 f_equal. unfold command. change (drive_of _) with (sel ds rg'). by rewrite Es. }
  rewrite (bind_Ok (sema_down absent) _ _ () (ch dv l true 0 (working ds rg' er 0 (Offer (identity dr)) (S k)))) by (apply wait_for; [apply Hdelay|reflexivity]).
  unfold wait_while_busy. change 3000%nat with (S 2999). rewrite (bind_Ok _ _ _ _ _ (busy_over ds rg' dr Es 2999 dv l true 0 er (Offer (identity dr)) (S k))). cbn [requests negb].
  rewrite (bind_Ok _ _ _ (identity dr) (ch dv l true 0 (calm ds rg' er (S k)))).
  2: { unfold input_sector, insw. rewrite (bind_Ok get _ _ _ _ eq_refl). cbn [hw ch]. unfold data_in. cbn [doing working]. rewrite decide_True by (rewrite Hl; done). reflexivity. }
  unfold too_big. change (1024 * 1024 * 1024 / 512) with (2 ^ 21). fold (capacity dr). destruct (decide (2 ^ 21 ≤ capacity dr)) as [Hb|Hb].
  - by rewrite (bool_decide_eq_true_2 _ Hb).
  - by rewrite (bool_decide_eq_false_2 _ Hb).
Qed.
(** A round of the second loop of [ide_init]. *)
Definition found (dev : Z) (name : list Z) (ds : list (option drive)) : option (list Z * (list Z * list Z) * Z) :=
  dr ← mjoin (ds !! Z.to_nat dev); if too_big dr then None else Some (entry name dr).
Definition usable (dev : Z) (ds : list (option drive)) : bool := match mjoin (ds !! Z.to_nat dev) with Some dr => negb (too_big dr) | None => false end.
Lemma identify_if_calm dev nm' b dv l e ds rg er k : dev = 0 ∨ dev = 1 → dv !! Z.to_nat dev = Some (Disk nm' dev b) → b = bool_decide (is_Some (mjoin (ds !! Z.to_nat dev))) →
  (∀ dr, mjoin (ds !! Z.to_nat dev) = Some dr → length (identity dr) = 512%nat) →
  ∃ e' rg' k', identify_if delay absent dev (ch dv l e 0 (calm ds rg er k)) = Ok (found dev nm' ds, ch (flag dev (usable dev ds) dv) l e' 0 (calm ds rg' er k')).
Proof.
  intros Hd Hdv Hb Hl. unfold identify_if, found, usable.
  rewrite (bind_Ok (get_disk dev) _ _ (Disk nm' dev b) (ch dv l e 0 (calm ds rg er k))) by (unfold get_disk; rewrite (bind_Ok get _ _ _ _ eq_refl); cbn [devices ch]; by rewrite Hdv).
  cbn [is_ata]. subst b. assert (∀ x, dv !! Z.to_nat dev = Some (Disk nm' dev x) → flag dev x dv = dv) as Hf.
  { intros x Hx. unfold flag. apply list_eq. intros i. destruct (decide (i = Z.to_nat dev)) as [->|Hi]; [|by rewrite list_lookup_alter_ne]. by rewrite list_lookup_alter_eq, Hx. }
  destruct (mjoin _) as [dr|] eqn:E.
  - rewrite bool_decide_eq_true_2 in Hdv |- * by done. rewrite (identify_calm dev _ dr dv l e ds rg er k Hd Hdv) by (done || by apply Hl). do 3 eexists. cbn [mbind option_bind d_name]. destruct (too_big dr); [done|]. cbn [negb]. by rewrite (Hf true).
  - do 3 eexists. cbn. by rewrite (Hf false).
Qed.

Definition name_of (chan_no : nat) (dev : Z) : list Z := [104; 100; 97 + Z.of_nat chan_no * 2 + dev].
Definition identities_ok (ds : list (option drive)) : Prop := ∀ i dr, mjoin (ds !! i) = Some dr → length (identity dr) = 512%nat.
Lemma detect_calm i l e ds rg er k : silent → delay k ≤ 150000000 → identities_ok ds →
  ∃ e' rg' k', detect delay absent (ch [Disk (name_of i 0) 0 false; Disk (name_of i 1) 1 false] l e 0 (calm ds rg er k)) =
    Ok (omap id [found 0 (name_of i 0) ds; found 1 (name_of i 1) ds],
      ch [Disk (name_of i 0) 0 (usable 0 ds); Disk (name_of i 1) 1 (usable 1 ds)] l e' 0 (calm ds rg' 1 k')).
Proof.
  intros Ha Hd Hi. unfold detect. edestruct (reset_calm [Disk (name_of i 0) 0 false; Disk (name_of i 1) 1 false] l e 0 ds rg er k Hd) as (r1 & H1 & S1).
  rewrite (bind_Ok _ _ _ _ _ H1).
  erewrite bind_Ok; [|eapply (check_calm 0 (Disk (name_of i 0) 0 false)); [exact Ha|exact S1|by left|reflexivity|reflexivity]].
  erewrite bind_Ok; [|erewrite bind_Ok; [reflexivity|eapply (check_calm 1 (Disk (name_of i 1) 1 false)); [exact Ha|exact S1|by right|reflexivity|reflexivity]]].
  set (f dev := bool_decide (is_Some (mjoin (ds !! Z.to_nat dev)))).
  destruct (identify_if_calm 0 (name_of i 0) (f 0) [Disk (name_of i 0) 0 (f 0); Disk (name_of i 1) 1 (f 1)] l e ds (upd (upd r1 6 (u8 (dev_reg 0))) 6 (u8 (dev_reg 1))) 1 (S k))
    as (e2 & r2 & k2 & H2); [by left|reflexivity|reflexivity|apply Hi|].
  rewrite (bind_Ok _ _ _ _ _ H2).
  destruct (identify_if_calm 1 (name_of i 1) (f 1) [Disk (name_of i 0) 0 (usable 0 ds); Disk (name_of i 1) 1 (f 1)] l e2 ds r2 1 k2)
    as (e3 & r3 & k3 & H3); [by right|reflexivity|reflexivity|apply Hi|].
  rewrite (bind_Ok _ _ _ _ _ H3).
  do 3 eexists. reflexivity.
Qed.
End Driver.

(** C19: With the reference model of a channel, on which each command takes
    some time of at most 29.99 seconds and which interrupts once per command, the
    driver makes the drives arrays of sectors.  Whatever sectors of its disks
    are read and written, in whatever order: the driver never breaks the
    protocol of the channel and never waits for ever, a read returns what was
    last written, and the channel is at rest afterwards; a sector that the
    drive does not have makes the kernel panic, and nothing else does.  (A
    slower write command is a panic of [wait_while_busy]: [write_beyond].) *)
Theorem ide_access delay absent nm rb iq os ds c :
  (∀ n, 0 < delay n ≤ patience) → drives_ok ds → resting nm rb iq ds c → Forall (legal ds) os →
  match spec_steps os ds with
  | Some (xs, ds') => ∃ c', steps delay absent os c = Ok (xs, c') ∧ resting nm rb iq ds' c'
  | None => steps delay absent os c = Err Panic
  end.
Proof.
  intros Hp Hok Hc Hl. revert ds c Hok Hc Hl. induction os as [|o os IH]; intros ds c Hok Hc Hl; [by eexists|]. apply Forall_cons in Hl as [Ho Hl].
  cbn [spec_steps steps]. pose proof (step_spec delay absent (λ n, proj1 (Hp n)) nm rb iq o ds c (λ n, proj2 (Hp n)) Hok Hc Ho) as H.
  destruct (spec_step o ds) as [[x ds']|] eqn:E; cbn [mbind option_bind]; [|by apply bind_Err].
  destruct H as (c' & Hr & Hc'). destruct (spec_step_keeps _ _ _ _ Hok Ho E) as [Hok' Hk]. rewrite (bind_Ok _ _ _ _ _ Hr).
  specialize (IH ds' c' Hok' Hc' (Forall_impl _ _ _ Hl Hk)). destruct (spec_steps os ds') as [[xs ds'']|]; cbn [mbind option_bind].
  - destruct IH as (c'' & Hs & Hc''). rewrite (bind_Ok _ _ _ _ _ Hs). by eexists.
  - by apply bind_Err.
Qed.
(** One drive with two sectors: it is read back what is written, and the third sector is a panic. *)
Definition small_drive (n : nat) : drive := Drive (replicate n (replicate 512 7)) (replicate 120 0 ++ le32 (Z.of_nat n) ++ replicate 388 0).
Definition small_channel : channel := ch [] 0x1f0 0x2e [] false false 0 (calm [Some (small_drive 2); None] (λ _, 0) 1 0).
Lemma small_ok : drives_ok [Some (small_drive 2); None].
Proof.
  intros i dr Hi. destruct i as [|[|i]]; cbn in Hi; [|done|done]. injection Hi as <-. cbn. repeat constructor.
Qed.
Lemma ide_access_witness : ∃ c, steps (λ _, 5000000) (λ _, 0) [WriteSector 0 1 (replicate 512 9); ReadSector 0 1; ReadSector 0 0] small_channel =
  Ok ([[]; replicate 512 9; replicate 512 7], c).
Proof.
  pose proof (ide_access (λ _, 5000000) (λ _, 0) [] 0x1f0 0x2e [WriteSector 0 1 (replicate 512 9); ReadSector 0 1; ReadSector 0 0] [Some (small_drive 2); None] small_channel) as H.
  destruct H as (c & Hc & _); [split; vm_compute; congruence|exact small_ok|by do 5 eexists| |exists c; exact Hc].
  repeat constructor; cbn; try lia; try (by eexists); reflexivity.
Defined.

(** ** The start *)

(** A channel as the hardware is when the kernel starts: at rest, with a reset that takes at most 150 ms. *)
Definition waiting (delay : nat → Z) (ds : list (option drive)) (c : channel) : Prop :=
  intr_on c = true ∧ ∃ rg er k, hw c = calm ds rg er k ∧ delay k ≤ 150000000.
Definition channel_found (i : nat) (ds : list (option drive)) : list (list Z * (list Z * list Z) * Z) := omap id [found 0 (name_of i 0) ds; found 1 (name_of i 1) ds].

Lemma on_ok {A} i (m : M channel A) l c x c' : l !! i = Some c → m c = Ok (x, c') → on i m l = Ok (x, <[i := c']> l).
Proof. intros Hl Hm. unfold on. rewrite (bind_Ok get _ _ _ _ eq_refl), Hl. rewrite (bind_Ok _ _ _ c l eq_refl). by rewrite Hm. Qed.
Lemma round_found delay absent i l c ds : (∀ n, 0 < delay n) → silent absent → l !! i = Some c → waiting delay ds c → identities_ok ds →
  ∃ c', init_round delay absent i l = Ok (channel_found i ds, <[i := c']> l) ∧ resting (c_name c') (reg_base c') (irq c') ds c' ∧
    map is_ata (devices c') = [usable 0 ds; usable 1 ds].
Proof.
  intros Hd Hs Hl (Hi & rg & er & k & Hh & Hk) Hid.
  destruct (detect_calm delay absent Hd [105; 100; 101; 48 + Z.of_nat i] (if decide (i = 0%nat) then 0x1f0 else 0x170) (if decide (i = 0%nat) then 14 + 0x20 else 15 + 0x20)
    i false false ds rg er k Hs Hk Hid) as (e' & rg' & k' & H).
  eexists. split; [|split].
  - unfold init_round. rewrite (bind_Ok get _ _ _ _ eq_refl), Hl. rewrite (bind_Ok _ _ _ c l eq_refl). rewrite (bind_Ok (put _) _ _ _ _ eq_refl).
    rewrite Hi, Hh. rewrite (on_ok i _ _ (init_channel i true (calm ds rg er k)) _ _ (list_lookup_insert_eq _ _ _ (lookup_lt_Some _ _ _ Hl)) H). by rewrite list_insert_insert_eq.
  - by do 5 eexists.
  - reflexivity.
Qed.

(** [ide_init] registers exactly the drives that are there and hold less
    than a gigabyte, in the order of the channels, as [hda] to [hdd] and with
    the capacities that they report, whichever of the four places are empty; it
    leaves both channels at rest, with the drives' contents as they were. *)
Theorem ide_init_finds delay absent c0 c1 ds0 ds1 :
  (∀ n, 0 < delay n) → silent absent → waiting delay ds0 c0 → waiting delay ds1 c1 → identities_ok ds0 → identities_ok ds1 →
  ∃ c0' c1', ide_init delay absent [c0; c1] = Ok (channel_found 0 ds0 ++ channel_found 1 ds1, [c0'; c1']) ∧
    resting (c_name c0') (reg_base c0') (irq c0') ds0 c0' ∧ resting (c_name c1') (reg_base c1') (irq c1') ds1 c1' ∧
    map is_ata (devices c0' ++ devices c1') = [usable 0 ds0; usable 1 ds0; usable 0 ds1; usable 1 ds1].
Proof.
  intros Hd Hs W0 W1 H0 H1. destruct (round_found delay absent 0 [c0; c1] c0 ds0 Hd Hs eq_refl W0 H0) as (c0' & E0 & R0 & D0).
  destruct (round_found delay absent 1 [c0'; c1] c1 ds1 Hd Hs eq_refl W1 H1) as (c1' & E1 & R1 & D1).
  exists c0', c1'. split; [|split; [exact R0|split; [exact R1|by rewrite map_app, D0, D1]]].
  unfold ide_init. rewrite (bind_Ok _ _ _ _ _ E0). cbn [insert list_insert]. by rewrite (bind_Ok _ _ _ _ _ E1).
Qed.
(** A master on the first channel and a slave on the second. *)
Lemma ide_init_finds_witness : ∃ l, ide_init (λ _, 5000000) (λ _, 0)
  [init_channel 0 true (calm [Some (small_drive 2); None] (λ _, 0) 0 0); init_channel 1 true (calm [None; Some (small_drive 3)] (λ _, 0) 0 0)] =
  Ok ([([104; 100; 97], ([], []), 2); ([104; 100; 100], ([], []), 3)], l).
Proof.
  destruct (ide_init_finds (λ _, 5000000) (λ _, 0) (init_channel 0 true (calm [Some (small_drive 2); None] (λ _, 0) 0 0))
    (init_channel 1 true (calm [None; Some (small_drive 3)] (λ _, 0) 0 0)) [Some (small_drive 2); None] [None; Some (small_drive 3)]) as (c0 & c1 & E & _).
  - lia.
  - by split.
  - split; [reflexivity|]. do 3 eexists. split; [reflexivity|lia].
  - split; [reflexivity|]. do 3 eexists. split; [reflexivity|lia].
  - intros [|[|i]] dr Hi; cbn in Hi; [|done|done]. injection Hi as <-. reflexivity.
  - intros [|[|i]] dr Hi; cbn in Hi; [done| |done]. injection Hi as <-. reflexivity.
  - exists [c0; c1]. rewrite E. vm_compute. reflexivity.
Defined.

(** The names of a drive are stored with their bytes swapped in pairs and blanks
    at the end; they are recovered, if a byte is left for the null byte. *)
Lemma swap_swap l : swap_loop (swap_loop l) = l.
Proof. induction l as [l IH] using (induction_ltof1 _ length). destruct l as [|a [|b l]]; [done|done|]. cbn. f_equal. f_equal. apply IH. unfold ltof. cbn. lia. Qed.
Lemma swap_length l : length (swap_loop l) = length l.
Proof. induction l as [l IH] using (induction_ltof1 _ length). destruct l as [|a [|b l]]; [done|done|]. cbn. do 2 f_equal. apply IH. unfold ltof. cbn. lia. Qed.
Lemma trim_blanks s x n : x ≠ 0 → StdLib.isspace x = false → ∀ m, (m < n)%nat → trim_loop (s ++ [x] ++ replicate n 32) (length s + 1 + m) = (length s + 1)%nat.
Proof.
  intros Hx Hs m Hm. induction m as [|m IH].
  - replace (length s + 1 + 0)%nat with (S (length s)) by lia. cbn [trim_loop]. rewrite lookup_app_r, Nat.sub_diag by lia. cbn. rewrite bool_decide_eq_false_2, Hs by done. cbn. lia.
  - replace (length s + 1 + S m)%nat with (S (length s + 1 + m)) by lia. cbn [trim_loop]. rewrite !lookup_app_r by (cbn; lia). rewrite lookup_replicate_2 by (cbn; lia). apply IH. lia.
Qed.
Lemma descramble_scrambled s x n : x ≠ 0 → StdLib.isspace x = false → (0 < n)%nat → descramble_ata_string (swap_loop (s ++ [x] ++ replicate n 32)) = s ++ [x].
Proof.
  intros Hx Hs Hn. unfold descramble_ata_string. rewrite swap_swap, !length_app, length_replicate. replace (length s + (length [x] + n) - 1)%nat with (length s + 1 + (n - 1))%nat by (cbn; lia).
  rewrite trim_blanks by (done || lia). rewrite app_assoc, take_app_length'; [done|]. rewrite length_app. done.
Qed.

(** [interrupt_handler] serves the channel of the interrupt; another vector does not get here. *)
Lemma handler_serves absent c0 c1 vec : irq c0 ≠ irq c1 →
  interrupt_handler absent vec [c0; c1] =
    if decide (vec = irq c0) then on 0 (service absent) [c0; c1] else if decide (vec = irq c1) then on 1 (service absent) [c0; c1] else Err Panic.
Proof. intros Hi. unfold interrupt_handler. rewrite (bind_Ok get _ _ _ _ eq_refl). cbn. destruct (decide (vec = irq c0)); [done|]. by destruct (decide (vec = irq c1)). Qed.

(** [expecting_interrupt] is set by the first command and never cleared, so
    that an interrupt without a command counts as the end of the next one: a
    write then returns while the drive is still busy, and the next command, which
    waits for ten milliseconds only, is sent to a busy drive.  Without that
    interrupt the same operations do what they should. *)
Theorem stray_interrupt :
  let os := [WriteSector 0 1 (replicate 512 9); ReadSector 0 1] in
  let c := set_wait true 0 small_channel in
  ∃ c', service (λ _, 0) c = Ok ((), c') ∧ steps (λ _, 50000000) (λ _, 0) os c' = Err Undef ∧
    ∃ c'', steps (λ _, 50000000) (λ _, 0) os c = Ok ([[]; replicate 512 9], c'').
Proof. cbv zeta. eexists. split; [reflexivity|]. split; [vm_compute; reflexivity|]. eexists. vm_compute. reflexivity. Qed.
End IdeSpec.
