(* ===== verification/Serial.v ===== *)
(** * The serial port (devices/serial.c, devices/input.c)

    The driver with its queue of bytes to send and the input buffer, both of
    [Intq], on a model of the port's registers after [PC16550D].  Whenever the
    line status is read, the hardware may just have sent a byte or received
    one: [quick n] and [arrive n] say so for the [n]th reading.  A byte that is
    written to a full holding register would be lost; that is undefined
    behaviour here.  Functions run with interrupts off, so the threads that
    print or read can be interleaved only where they sleep in a queue; a
    thread's call is continued by [serial_putc_tail] and [input_getc_tail]. *)

From S2P Require Import Prelude Intq.

Module Serial.

Definition IO_BASE : Z := 0x3f8.
Definition RBR_REG : Z := IO_BASE + 0.
Definition THR_REG : Z := IO_BASE + 0.
Definition IER_REG : Z := IO_BASE + 1.
Definition LS_REG : Z := IO_BASE + 0.
Definition MS_REG : Z := IO_BASE + 1.
Definition IIR_REG : Z := IO_BASE + 2.
Definition FCR_REG : Z := IO_BASE + 2.
Definition LCR_REG : Z := IO_BASE + 3.
Definition MCR_REG : Z := IO_BASE + 4.
Definition LSR_REG : Z := IO_BASE + 5.
Definition IER_RECV : Z := 0x01.
Definition IER_XMIT : Z := 0x02.
Definition LCR_N81 : Z := 0x03.
Definition LCR_DLAB : Z := 0x80.
Definition MCR_OUT2 : Z := 0x08.
Definition LSR_DR : Z := 0x01.
Definition LSR_THRE : Z := 0x20.

(** ** The port *)

(** The registers that are written, the holding register, the byte received, what has gone out on the line, and the number of readings of the status. *)
Record uart := Uart { ier : Z; fcr : Z; lcr : Z; mcr : Z; divisor : Z * Z; thr : option Z; rbr : option Z; line : list Z; readings : nat }.
Definition set_thr (t r : option Z) (l : list Z) (n : nat) (u : uart) : uart := Uart (ier u) (fcr u) (lcr u) (mcr u) (divisor u) t r l n.
(** All that was written, in order. *)
Definition written (u : uart) : list Z := line u ++ option_list (thr u).
Definition uart_out (port v : Z) (u : uart) : option uart :=
  let dlab := Z.testbit (lcr u) 7 in
  if decide (port = 0x3f8) then
    if dlab then Some (Uart (ier u) (fcr u) (lcr u) (mcr u) (v, (divisor u).2) (thr u) (rbr u) (line u) (readings u))
    else if thr u then None else Some (set_thr (Some v) (rbr u) (line u) (readings u) u)
  else if decide (port = 0x3f9) then
    if dlab then Some (Uart (ier u) (fcr u) (lcr u) (mcr u) ((divisor u).1, v) (thr u) (rbr u) (line u) (readings u))
    else Some (Uart v (fcr u) (lcr u) (mcr u) (divisor u) (thr u) (rbr u) (line u) (readings u))
  else if decide (port = 0x3fa) then Some (Uart (ier u) v (lcr u) (mcr u) (divisor u) (thr u) (rbr u) (line u) (readings u))
  else if decide (port = 0x3fb) then Some (Uart (ier u) (fcr u) v (mcr u) (divisor u) (thr u) (rbr u) (line u) (readings u))
  else if decide (port = 0x3fc) then Some (Uart (ier u) (fcr u) (lcr u) v (divisor u) (thr u) (rbr u) (line u) (readings u))
  else None.
(** The holding register is emptied. *)
Definition xmit (u : uart) : uart := set_thr None (rbr u) (written u) (readings u) u.

Inductive mode := UNINIT | POLL | QUEUE.
#[global] Instance mode_eq_dec : EqDecision mode.
Proof. solve_decision. Defined.
(** The driver, the input buffer of input.c, the port, and whether interrupts are off. *)
Record serial := Serial { the_mode : mode; txq : Intq.system; buffer : Intq.system; port : uart; off : bool }.
Abbreviation S := (M serial).
Definition set_mode (m : mode) (s : serial) : serial := Serial m (txq s) (buffer s) (port s) (off s).
Definition set_txq (q : Intq.system) (s : serial) : serial := Serial (the_mode s) q (buffer s) (port s) (off s).
Definition set_buffer (q : Intq.system) (s : serial) : serial := Serial (the_mode s) (txq s) q (port s) (off s).
Definition set_port (u : uart) (s : serial) : serial := Serial (the_mode s) (txq s) (buffer s) u (off s).
Definition set_off (b : bool) (s : serial) : serial := Serial (the_mode s) (txq s) (buffer s) (port s) b.

Definition on_txq {A} (m : M Intq.system A) : S A := s ← get; match m (txq s) with Ok (x, q) => put (set_txq q s);; mret x | Err e => fail e end.
Definition on_buffer {A} (m : M Intq.system A) : S A := s ← get; match m (buffer s) with Ok (x, q) => put (set_buffer q s);; mret x | Err e => fail e end.

Section Port.
Context (quick : nat → bool) (arrive : nat → option Z).

Definition tick (u : uart) : uart :=
  let u := if quick (readings u) then xmit u else u in
  set_thr (thr u) (match arrive (readings u) with Some b => Some b | None => rbr u end) (line u) (Datatypes.S (readings u)) u.
Definition line_status (u : uart) : Z := Z.lor (if rbr u then LSR_DR else 0) (if thr u then 0 else LSR_THRE).
Definition inb_lsr : S Z := modify (λ s, set_port (tick (port s)) s);; gets (λ s, line_status (port s)).
Definition inb_rbr : S Z := s ← get; b ← lift (rbr (port s)) Undef; put (set_port (set_thr (thr (port s)) None (line (port s)) (readings (port s)) (port s)) s);; mret b.
Definition outb (p v : Z) : S unit := s ← get; u ← lift (uart_out p (u8 v) (port s)) Undef; put (set_port u s).
Definition has (v bit : Z) : bool := negb (bool_decide (Z.land v bit = 0)).
Definition intr_get_level : S bool := gets (λ s, negb (off s)).

(** ** The driver *)

Definition set_serial (bps : Z) : S unit :=
  let base_rate := 1843200 / 16 in
  let divisor := u16 (base_rate / bps) in
  ASSERT (bool_decide (300 ≤ bps ≤ 115200));;
  outb LCR_REG (Z.lor LCR_N81 LCR_DLAB);; outb LS_REG (Z.land divisor 0xff);; outb MS_REG (Z.shiftr divisor 8);; outb LCR_REG LCR_N81.
Definition intq_init : M Intq.system unit := modify (λ q, Intq.set_q (Intq.intq_init (Intq.q q)) q).
Definition init_poll : S unit :=
  s ← get; ASSERT (bool_decide (the_mode s = UNINIT));;
  outb IER_REG 0;; outb FCR_REG 0;; set_serial 9600;; outb MCR_REG MCR_OUT2;; on_txq intq_init;; modify (set_mode POLL).

Definition input_full : S bool := s ← get; ASSERT (off s);; mret (Intq.intq_full (Intq.q (buffer s))).
Definition write_ier : S unit :=
  s ← get; ASSERT (off s);;
  full ← input_full;
  outb IER_REG (Z.lor (if Intq.intq_empty (Intq.q (txq s)) then 0 else IER_XMIT) (if (full : bool) then 0 else IER_RECV)).

(** The loop, for a number of readings. *)
Fixpoint poll_loop (fuel : nat) : S unit :=
  match fuel with O => fail NoFuel | Datatypes.S fuel => v ← inb_lsr; if has v LSR_THRE then mret () else poll_loop fuel end.
Definition putc_poll (fuel : nat) (byte : Z) : S unit := s ← get; ASSERT (off s);; poll_loop fuel;; outb THR_REG byte.

(** [intq_getc (&txq)] where it cannot sleep. *)
Definition txq_getc : S Z := on_txq (Intq.intq_getc None);; s ← get; lift (last (Intq.taken (txq s))) Undef.

(** The registration of the handler is in [Descriptors]. *)
Definition serial_init_queue : S unit :=
  s ← get; (if decide (the_mode s = UNINIT) then init_poll else mret ());;
  s ← get; ASSERT (bool_decide (the_mode s = POLL));;
  modify (set_mode QUEUE);;
  old ← gets off; modify (set_off true);; write_ier;; modify (set_off old).

(** The end of [serial_putc]; a thread that sleeps has not come to it. *)
Definition serial_putc_tail (old : bool) : S unit := write_ier;; modify (set_off old).
Definition serial_putc (fuel : nat) (t : nat) (byte : Z) : S unit :=
  old ← gets off; modify (set_off true);;
  s ← get;
  if decide (the_mode s ≠ QUEUE) then
    (if decide (the_mode s = UNINIT) then init_poll else mret ());; putc_poll fuel byte;; modify (set_off old)
  else
    (if old && Intq.intq_full (Intq.q (txq s)) then b ← txq_getc; putc_poll fuel b else mret ());;
    on_txq (Intq.intq_putc byte (if old then None else Some t));;
    s ← get;
    if negb old && bool_decide (is_Some (Intq.threads (txq s) !! t)) then modify (set_off false) else serial_putc_tail old.
(** A thread that sleeps in [serial_putc] goes on. *)
Definition putc_resume (t : nat) : S unit :=
  modify (set_off true);; on_txq (Intq.go_on t);;
  s ← get; match Intq.threads (txq s) !! t with Some _ => modify (set_off false) | None => serial_putc_tail false end.

Fixpoint flush_loop (fuel n : nat) : S unit :=
  match n with
  | O => fail NoFuel
  | Datatypes.S n => s ← get; if Intq.intq_empty (Intq.q (txq s)) then mret () else b ← txq_getc; putc_poll fuel b;; flush_loop fuel n
  end.
Definition serial_flush (fuel : nat) : S unit := old ← gets off; modify (set_off true);; flush_loop fuel 64;; modify (set_off old).

Definition serial_notify : S unit := s ← get; ASSERT (off s);; if decide (the_mode s = QUEUE) then write_ier else mret ().

(** ** The input buffer (input.c) *)

Definition input_putc (key : Z) : S unit := s ← get; ASSERT (off s);; on_buffer (Intq.input_putc key);; serial_notify.
Definition input_getc_tail : S unit := serial_notify;; modify (set_off false).
Definition input_getc (t : nat) : S unit :=
  modify (set_off true);; on_buffer (Intq.intq_getc (Some t));;
  s ← get; match Intq.threads (buffer s) !! t with Some _ => modify (set_off false) | None => input_getc_tail end.
Definition getc_resume (t : nat) : S unit :=
  modify (set_off true);; on_buffer (Intq.go_on t);;
  s ← get; match Intq.threads (buffer s) !! t with Some _ => modify (set_off false) | None => input_getc_tail end.

(** ** The interrupt handler *)

Fixpoint recv_loop (n : nat) : S unit :=
  match n with
  | O => fail NoFuel
  | Datatypes.S n =>
      full ← input_full;
      if (full : bool) then mret () else
      v ← inb_lsr;
      if has v LSR_DR then b ← inb_rbr; input_putc b;; recv_loop n else mret ()
  end.
Fixpoint send_loop (n : nat) : S unit :=
  match n with
  | O => fail NoFuel
  | Datatypes.S n =>
      s ← get;
      if Intq.intq_empty (Intq.q (txq s)) then mret () else
      v ← inb_lsr;
      if has v LSR_THRE then b ← txq_getc; outb THR_REG b;; send_loop n else mret ()
  end.
(** An external interrupt: interrupts are off while the handler runs. *)
Definition serial_interrupt : S unit := modify (set_off true);; recv_loop 64;; send_loop 64;; write_ier;; modify (set_off false).
End Port.
End Serial.
