(* ===== verification/SerialSpec.v ===== *)
(** * Bytes on the serial port

    Whatever threads and interrupt handlers do, the driver of devices/serial.c
    sends every byte once and in order, and the port interrupts when it has
    to. *)

From S2P Require Import Prelude Intq Serial.
Import Serial.

Module SerialSpec.

(** ** The queue: what an operation leaves alone *)

Definition op_of (p : Intq.pc) : Intq.op := match p with Intq.At_test o | Intq.At_lock o | Intq.Asleep o | Intq.Awake o => o end.
(** The threads in the queue are there for operations of this kind. *)
Definition ops (P : Intq.op → Prop) (q : Intq.system) : Prop := ∀ t p, Intq.threads q !! t = Some p → P (op_of p).
Definition is_putc (o : Intq.op) : Prop := o ≠ Intq.Getc.

Lemma ops_set P t p q : ops P q → (∀ x, p = Some x → P (op_of x)) → ops P (Intq.set_thread t p q).
Proof. intros Ho Hp t' p' H. rewrite Intq.threads_set in H. case_decide; [by apply Hp|by eapply Ho]. Qed.
Lemma signal_frame P w q q' : Intq.signal w q = Ok ((), q') → Intq.taken q' = Intq.taken q ∧ Intq.entered q' = Intq.entered q ∧ (ops P q → ops P q').
Proof.
  unfold Intq.signal. intros H. minv. unfold get in *. simplify_eq/=. destruct (Intq.waiter _ _) as [t|]; [|by injection H as <-]. minv. unfold Intq.thread_unblock in *. minv. unfold get in *. simplify_eq/=.
  destruct (Intq.threads _ !! t) as [[]|] eqn:E; try done. unfold modify in *. simplify_eq/=. split; [done|]. split; [done|]. intros Ho. apply (ops_set P t (Some (Intq.Awake o)) _ Ho).
  intros x [= <-]. exact (Ho _ _ E).
Qed.
Lemma putc_frame P b q q' : Intq.intq_putc_tail b q = Ok ((), q') → Intq.taken q' = Intq.taken q ∧ Intq.entered q' = Intq.entered q ++ [b] ∧ (ops P q → ops P q').
Proof.
  unfold Intq.intq_putc_tail. intros H. minv. unfold get in *. simplify_eq/=. destruct (Intq.buf _ !! _); [|done]. minv. unfold put in *. simplify_eq/=.
  apply (signal_frame P) in H as (Ht & He & Ho). split; [exact Ht|]. split; [exact He|]. intros H; apply Ho; exact H.
Qed.
Lemma getc_frame P q q' : Intq.intq_getc_tail q = Ok ((), q') → ∃ b, Intq.taken q' = Intq.taken q ++ [b] ∧ Intq.entered q' = Intq.entered q ∧ (ops P q → ops P q').
Proof.
  unfold Intq.intq_getc_tail. intros H. minv. unfold get in *. simplify_eq/=. destruct (Intq.buf _ !! _) as [b|]; [|done]. minv. unfold put in *. simplify_eq/=.
  apply (signal_frame P) in H as (Ht & He & Ho). eexists. split; [exact Ht|]. split; [exact He|]. intros H; apply Ho; exact H.
Qed.
Lemma acquire_frame P o t q q' : Intq.acquire_wait o t q = Ok ((), q') → P o → Intq.taken q' = Intq.taken q ∧ (ops P q → ops P q').
Proof.
  unfold Intq.acquire_wait. intros H Po. minv. unfold get in *. simplify_eq/=. destruct (Intq.lock _).
  - minv. unfold modify in *. simplify_eq/=. split; [done|]. intros Ho. apply ops_set; [done|]. by intros x [= <-].
  - minv. unfold modify, Intq.wait in *. simplify_eq/=. minv. intros. unfold get, modify in *. simplify_eq/=. split; [done|].
    intros Ho. apply ops_set; [exact Ho|]. by intros x [= <-].
Qed.
Lemma loop_frame P b c q q' : P (Intq.Putc b) → Intq.loop (Intq.Putc b) c q = Ok ((), q') → Intq.taken q' = Intq.taken q ∧ (ops P q → ops P q').
Proof.
  unfold Intq.loop. intros Po H. minv. unfold get in *. simplify_eq/=. destruct (Intq.intq_full _); [destruct c; [by eapply acquire_frame|done]|]. minv. apply (putc_frame P) in H as (Ht & _ & Ho).
  destruct c as [t|]; unfold modify in *; [simplify_eq/=|by injection Hm as <- <-]. split; [done|]. intros H. apply Ho, ops_set; [done|]. done.
Qed.
Lemma go_on_frame t q q' : ops is_putc q → Intq.go_on t q = Ok ((), q') → Intq.taken q' = Intq.taken q ∧ ops is_putc q'.
Proof.
  unfold Intq.go_on. intros Ho H. minv. unfold get in *. simplify_eq/=. destruct (Intq.threads _ !! t) as [p|] eqn:E; [|by injection H as <-]. pose proof (Ho _ _ E) as Hp.
  destruct p as [o|o|o|o]; cbn in Hp; try (by injection H as <-).
  - destruct o as [|b]; [by destruct Hp|]. apply (loop_frame is_putc) in H as [? Hf]; [|done]. eauto.
  - apply (acquire_frame is_putc) in H as [? Hf]; [|done]. eauto.
  - minv. unfold Intq.lock_release, modify in *. minv. unfold get in *. simplify_eq/=. split; [done|]. apply ops_set; [exact Ho|]. by intros x [= <-].
Qed.

(** A call that has not returned has left the ring alone. *)
Definition same_ring (q q' : Intq.system) : Prop := Intq.head (Intq.q q') = Intq.head (Intq.q q) ∧ Intq.tail (Intq.q q') = Intq.tail (Intq.q q).
Definition returned (t : nat) (q q' : Intq.system) : Prop := Intq.threads q' !! t = None ∨ same_ring q q'.
Lemma signal_none w t q q' : Intq.threads q !! t = None → Intq.signal w q = Ok ((), q') → Intq.threads q' !! t = None.
Proof.
  unfold Intq.signal. intros Hn H. minv. unfold get in *. simplify_eq/=. destruct (Intq.waiter _ _) as [t'|]; [|by injection H as <-]. minv. unfold Intq.thread_unblock in *. minv. unfold get in *. simplify_eq/=.
  destruct (Intq.threads _ !! t') as [[]|] eqn:E; try done. unfold modify in *. simplify_eq/=. rewrite lookup_partial_alter_ne by congruence. done.
Qed.
Lemma tail_none o t q q' : Intq.threads q !! t = None → Intq.tail_of o q = Ok ((), q') → Intq.threads q' !! t = None.
Proof.
  intros Hn H. destruct o; cbn in H; unfold Intq.intq_getc_tail, Intq.intq_putc_tail in H; minv; unfold get in *; simplify_eq/=; destruct (Intq.buf _ !! _); try done; minv; unfold put in *; simplify_eq/=;
    (eapply signal_none; [|exact H]; done).
Qed.
Lemma acquire_ring o t q q' : Intq.acquire_wait o t q = Ok ((), q') → same_ring q q'.
Proof.
  unfold Intq.acquire_wait. intros H. minv. unfold get in *. simplify_eq/=. destruct (Intq.lock _).
  - minv. unfold modify in *. by simplify_eq/=.
  - minv. unfold modify, Intq.wait in *. simplify_eq/=. minv. intros. unfold get, modify in *. simplify_eq/=. by destruct (Intq.side_of o).
Qed.
Lemma loop_returned o t q q' : Intq.loop o (Some t) q = Ok ((), q') → returned t q q'.
Proof.
  unfold Intq.loop. intros H. minv. unfold get in *. simplify_eq/=. destruct (Intq.blocked _ _); [right; by eapply acquire_ring|]. left. minv. unfold modify in *. simplify_eq/=.
  eapply tail_none; [|exact H]. rewrite Intq.threads_set. by rewrite decide_True.
Qed.
Lemma go_on_returned t q q' : Intq.go_on t q = Ok ((), q') → returned t q q'.
Proof.
  unfold Intq.go_on. intros H. minv. unfold get in *. simplify_eq/=. destruct (Intq.threads _ !! t) as [[o|o|o|o]|] eqn:E.
  - by eapply loop_returned.
  - right. by eapply acquire_ring.
  - right. by injection H as <-.
  - right. minv. unfold Intq.lock_release, modify in *. minv. unfold get in *. by simplify_eq/=.
  - right. by injection H as <-.
Qed.

(** One writer, one reader. *)
Lemma alone_evolves t0 c q q' : Intq.alone t0 q → Intq.evolves c q q' → (c = None ∨ c = Some t0) → Intq.inv_but None q → Intq.alone t0 q'.
Proof.
  intros Ha He Hc Hi t p Hp. destruct (He t p Hp) as [(p0 & H0 & [->|[o ->]])|[Hc' Hl]].
  - by apply Ha.
  - by split; [eapply Ha|].
  - assert (t = t0) as -> by (destruct Hc; congruence). split; [done|]. destruct Hl as [Hl|(h & Hh & Hne)]; [done|].
    apply (Intq.inv_lock _ q Hi) in Hh. destruct (Intq.threads q !! h) as [ph|] eqn:Eh; [|done]. by destruct Hne; eapply Ha.
Qed.
Definition queue_ok (t0 : nat) (q : Intq.system) : Prop := Intq.inv_but None q ∧ Intq.alone t0 q.
Lemma loop_ok t0 o c q : queue_ok t0 q → (c = None ∧ Intq.blocked (Intq.side_of o) (Intq.q q) = false) ∨ (c = Some t0 ∧ Intq.holds (Intq.threads q !! t0) = false) →
  ∃ q', Intq.loop o c q = Ok ((), q') ∧ queue_ok t0 q'.
Proof.
  intros [Hi Ha] Hc. pose proof (Intq.loop_run o c q Hi) as H. assert (∀ t, c = Some t → Intq.holds (Intq.threads q !! t) = false) as Hh.
  { intros t Ht. destruct Hc as [[-> _]|[-> Hc]]; [done|]. by injection Ht as <-. }
  specialize (H Hh). rewrite decide_False in H by (destruct Hc as [[_ Hb]|[-> _]]; [intros [_ ?]; congruence|by intros [? _]]).
  destruct H as (q' & E & Hi' & He). exists q'. split; [done|]. split; [done|]. apply (alone_evolves t0 c q); [done|done|tauto|done].
Qed.
Lemma go_on_ok t0 q : queue_ok t0 q → ∃ q', Intq.go_on t0 q = Ok ((), q') ∧ queue_ok t0 q'.
Proof.
  intros [Hi Ha]. destruct (Intq.step_run (Intq.Run t0) q Hi) as [[_ Hs]|(q' & E & Hi' & He)].
  - destruct Hs as (o & Ho & _). by destruct (proj2 (Ha _ _ Ho) o).
  - exists q'. split; [done|]. split; [done|]. by apply (Intq.alone_step t0 (Intq.Run t0) q).
Qed.

(** ** The driver *)

Section Driver.
Context (quick : nat → bool) (arrive : nat → option Z) (fuel : nat) (t0 t1 : nat).
(** The port sends a byte in the time of so many readings of its status. *)
Context (Hquick : ∀ n, ∃ m, (m < fuel)%nat ∧ quick (n + m) = true).

(** The bytes [pre] were sent before there was a queue.  [core] holds inside the functions too. *)
Record core (pre : list Z) (s : serial) : Prop := Core {
  c_mode : the_mode s = QUEUE;
  c_tx : queue_ok t0 (txq s);
  c_ops : ops is_putc (txq s);
  c_buf : queue_ok t1 (buffer s);
  c_dlab : Z.testbit (lcr (port s)) 7 = false;
  c_line : written (port s) = pre ++ (u8 <$> Intq.taken (txq s))
}.
Definition ier_of (s : serial) : Z :=
  Z.lor (if Intq.intq_empty (Intq.q (txq s)) then 0 else IER_XMIT) (if Intq.intq_full (Intq.q (buffer s)) then 0 else IER_RECV).
(** The port interrupts when it can send, if there is something to send, and when it has received, if there is room. *)
Definition armed (s : serial) : Prop :=
  (Intq.intq_empty (Intq.q (txq s)) = false → Z.testbit (ier (port s)) 1 = true) ∧ Z.testbit (ier (port s)) 0 = negb (Intq.intq_full (Intq.q (buffer s))).
Definition good (pre : list Z) (s : serial) : Prop := core pre s ∧ off s = false ∧ armed s.

(** The same transmitter and the same registers, up to the status. *)
Definition same_port (u u' : uart) : Prop := written u' = written u ∧ lcr u' = lcr u ∧ ier u' = ier u.
Lemma core_port pre s u : core pre s → written u = written (port s) → lcr u = lcr (port s) → core pre (set_port u s).
Proof. intros [? ? ? ? Hd Hi] Hw Hl. split; try done; cbn [port set_port]; [by rewrite Hl|by rewrite Hw]. Qed.
Lemma core_off pre b s : core pre s → core pre (set_off b s).
Proof. by intros []. Qed.
Lemma tick_same u : same_port u (tick quick arrive u).
Proof. unfold same_port, tick, written. destruct (quick _); [|done]. cbn. by rewrite app_nil_r. Qed.
Lemma tick_readings u : readings (tick quick arrive u) = Datatypes.S (readings u).
Proof. unfold tick. by destruct (quick _). Qed.
Lemma same_port_trans u v w : same_port u v → same_port v w → same_port u w.
Proof. unfold same_port. intros (-> & -> & ->). done. Qed.
Lemma status_thre u : has (line_status u) LSR_THRE = bool_decide (thr u = None).
Proof. unfold line_status. by destruct (rbr u), (thr u). Qed.
Lemma status_dr u : has (line_status u) LSR_DR = bool_decide (is_Some (rbr u)).
Proof. unfold line_status. by destruct (rbr u), (thr u). Qed.

Definition set_ier (v : Z) (u : uart) : uart := Uart v (fcr u) (lcr u) (mcr u) (divisor u) (thr u) (rbr u) (line u) (readings u).
Lemma write_ier_run pre s : core pre s → off s = true → write_ier s = Ok ((), set_port (set_ier (ier_of s) (port s)) s).
Proof.
  intros Hc Ho. unfold write_ier. rewrite (bind_Ok get _ _ _ _ eq_refl), Ho. rewrite (bind_Ok (ASSERT true) _ _ () _ eq_refl).
  unfold input_full. rewrite (bind_Ok _ _ _ (Intq.intq_full (Intq.q (buffer s))) s) by (rewrite (bind_Ok get _ _ _ _ eq_refl), Ho; reflexivity).
  unfold outb. rewrite (bind_Ok get _ _ _ _ eq_refl). change IER_REG with 0x3f9. unfold uart_out. rewrite (c_dlab _ _ Hc). rewrite decide_False, decide_True by done.
  rewrite (bind_Ok _ _ _ (set_ier (ier_of s) (port s)) s); [reflexivity|]. unfold ier_of. by destruct (Intq.intq_empty _), (Intq.intq_full _).
Qed.
Lemma armed_ier s : armed (set_port (set_ier (ier_of s) (port s)) s).
Proof. unfold armed, ier_of. cbn [txq buffer port set_port ier set_ier]. by destruct (Intq.intq_empty _), (Intq.intq_full _). Qed.
(** The end of a function: the register is right. *)
Lemma write_ier_good pre s : core pre s → off s = true → ∃ s', (write_ier;; modify (set_off false)) s = Ok ((), s') ∧ good pre s'.
Proof.
  intros Hc Ho. rewrite (bind_Ok _ _ _ _ _ (write_ier_run pre s Hc Ho)). eexists. split; [reflexivity|]. split; [by apply core_off, core_port|]. split; [done|apply armed_ier].
Qed.

Lemma poll_run n s : (∃ m, (m < n)%nat ∧ quick (readings (port s) + m) = true) →
  ∃ u, poll_loop quick arrive n s = Ok ((), set_port u s) ∧ same_port (port s) u ∧ thr u = None.
Proof.
  revert s. induction n as [|n IH]; intros s (m & Hm & Hq); [lia|]. cbn [poll_loop]. rewrite (bind_Ok (inb_lsr quick arrive) _ s (line_status (tick quick arrive (port s))) (set_port (tick quick arrive (port s)) s)) by reflexivity.
  rewrite status_thre. destruct (bool_decide_reflect (thr (tick quick arrive (port s)) = None)) as [Ht|Ht]; [exists (tick quick arrive (port s)); by split; [|split; [apply tick_same|]]|].
  assert (m ≠ 0%nat) as Hne. { intros ->. apply Ht. rewrite Nat.add_0_r in Hq. unfold tick. by rewrite Hq. }
  destruct (IH (set_port (tick quick arrive (port s)) s)) as (u & E & Hu & Hn).
  { exists (m - 1)%nat. split; [lia|]. rewrite <- Hq. f_equal. cbn [port set_port]. rewrite tick_readings. lia. }
  exists u. split; [exact E|]. split; [|done]. eapply same_port_trans; [apply tick_same|exact Hu].
Qed.
(** A byte goes to the holding register. *)
Lemma thr_run b s : Z.testbit (lcr (port s)) 7 = false → thr (port s) = None →
  ∃ u, outb THR_REG b s = Ok ((), set_port u s) ∧ written u = written (port s) ++ [u8 b] ∧ lcr u = lcr (port s) ∧ ier u = ier (port s).
Proof.
  intros Hd Ht. eexists. split; [|split].
  - unfold outb. rewrite (bind_Ok get _ _ _ _ eq_refl). change THR_REG with 0x3f8. unfold uart_out. rewrite Hd, Ht, decide_True by done. reflexivity.
  - unfold written. cbn. by rewrite Ht, app_nil_r.
  - by split.
Qed.
Lemma putc_poll_run b s : off s = true → Z.testbit (lcr (port s)) 7 = false →
  ∃ u, putc_poll quick arrive fuel b s = Ok ((), set_port u s) ∧ written u = written (port s) ++ [u8 b] ∧ lcr u = lcr (port s) ∧ ier u = ier (port s).
Proof.
  intros Ho Hd. unfold putc_poll. rewrite (bind_Ok get _ _ _ _ eq_refl), Ho. rewrite (bind_Ok (ASSERT true) _ _ () _ eq_refl).
  destruct (poll_run fuel s (Hquick _)) as (u & E & (Hw & Hl & Hi) & Ht). rewrite (bind_Ok _ _ _ _ _ E).
  destruct (thr_run b (set_port u s)) as (v & Ev & Hv & Hlv & Hiv); [by cbn; rewrite Hl|done|]. exists v. split; [exact Ev|]. cbn in *. by rewrite Hv, Hlv, Hiv, Hw, Hl, Hi.
Qed.

(** ** Bytes from and to the queues *)

Lemma on_txq_run {A} (m : M Intq.system A) s x q : m (txq s) = Ok (x, q) → on_txq m s = Ok (x, set_txq q s).
Proof. intros E. unfold on_txq. rewrite (bind_Ok get _ _ _ _ eq_refl). by rewrite E. Qed.
Lemma on_buffer_run {A} (m : M Intq.system A) s x q : m (buffer s) = Ok (x, q) → on_buffer m s = Ok (x, set_buffer q s).
Proof. intros E. unfold on_buffer. rewrite (bind_Ok get _ _ _ _ eq_refl). by rewrite E. Qed.
Lemma core_buffer pre s q : core pre s → queue_ok t1 q → core pre (set_buffer q s).
Proof. intros [] Hq. by split. Qed.

Lemma txq_getc_run s : queue_ok t0 (txq s) → ops is_putc (txq s) → Intq.intq_empty (Intq.q (txq s)) = false →
  ∃ b q, txq_getc s = Ok (b, set_txq q s) ∧ queue_ok t0 q ∧ ops is_putc q ∧ Intq.taken q = Intq.taken (txq s) ++ [b] ∧
    Intq.contents (Intq.q (txq s)) = b :: Intq.contents (Intq.q q).
Proof.
  intros Hq Ho He. destruct (loop_ok t0 Intq.Getc None (txq s) Hq) as (q & E & Hq'); [by left|].
  pose proof E as E'. unfold Intq.loop in E'. rewrite (bind_Ok get _ _ _ _ eq_refl) in E'. cbn [Intq.side_of Intq.blocked] in E'. rewrite He in E'.
  rewrite (bind_Ok _ _ _ () (txq s) eq_refl) in E'. cbn [Intq.tail_of] in E'.
  destruct (getc_frame is_putc _ _ E') as (b & Ht & Hn & Hp). exists b, q. split.
  { unfold txq_getc. rewrite (bind_Ok _ _ _ _ _ (on_txq_run (Intq.intq_getc None) s () q E)). rewrite (bind_Ok get _ _ _ _ eq_refl). cbn [txq set_txq]. by rewrite Ht, last_snoc. }
  split; [done|]. split; [auto|]. split; [done|]. pose proof (Intq.inv_bytes _ _ (proj1 Hq)) as H1. pose proof (Intq.inv_bytes _ _ (proj1 Hq')) as H2.
  rewrite Hn, H1, Ht, <- app_assoc in H2. by apply app_inv_head in H2.
Qed.
(** One byte from the queue to the port. *)
Lemma core_sent pre s q b u : core pre s → queue_ok t0 q → ops is_putc q → Intq.taken q = Intq.taken (txq s) ++ [b] → written u = written (port s) ++ [u8 b] → lcr u = lcr (port s) →
  core pre (set_port u (set_txq q s)).
Proof.
  intros [] Hq Ho Ht Hw Hl. split; try done; cbn [port set_port set_txq txq].
  - by rewrite Hl.
  - by rewrite Hw, Ht, fmap_app, c_line0, <- app_assoc.
Qed.
Lemma poll_out pre s : core pre s → off s = true → Intq.intq_empty (Intq.q (txq s)) = false →
  ∃ s', (b ← txq_getc; putc_poll quick arrive fuel b) s = Ok ((), s') ∧ core pre s' ∧ off s' = true ∧ (buffer s' = buffer s ∧ ier (port s') = ier (port s)) ∧
    Intq.contents (Intq.q (txq s')) = tail (Intq.contents (Intq.q (txq s))).
Proof.
  intros Hc Ho He. destruct (txq_getc_run s (c_tx _ _ Hc) (c_ops _ _ Hc) He) as (b & q & E & Hq & Hp & Ht & Hn). rewrite (bind_Ok _ _ _ _ _ E).
  destruct (putc_poll_run b (set_txq q s) Ho (c_dlab _ _ Hc)) as (u & Eu & Hw & Hl & Hi). exists (set_port u (set_txq q s)). split; [exact Eu|].
  split; [by apply (core_sent pre s q b)|]. split; [done|]. split; [done|]. by rewrite Hn.
Qed.

Lemma flush_run pre n s : core pre s → off s = true → (length (Intq.contents (Intq.q (txq s))) < n)%nat →
  ∃ s', flush_loop quick arrive fuel n s = Ok ((), s') ∧ core pre s' ∧ off s' = true ∧ (buffer s' = buffer s ∧ ier (port s') = ier (port s)) ∧ Intq.contents (Intq.q (txq s')) = [].
Proof.
  revert s. induction n as [|n IH]; intros s Hc Ho Hn; [lia|]. cbn [flush_loop]. rewrite (bind_Ok get _ _ _ _ eq_refl).
  destruct (Intq.intq_empty (Intq.q (txq s))) eqn:He.
  - exists s. split; [done|]. split; [done|]. split; [done|]. split; [done|]. apply Intq.empty_contents; [apply (c_tx _ _ Hc)|done].
  - destruct (poll_out pre s Hc Ho He) as (s1 & E & Hc1 & Ho1 & [Hb1 Hi1] & Hn1). unfold mbind, M_bind in E |- *. destruct (txq_getc s) as [[b s2]|]; [|done]. rewrite E.
    destruct (IH s1 Hc1 Ho1) as (s' & E' & Hc' & Ho' & [Hb' Hi'] & Hn').
    + rewrite Hn1. destruct (Intq.contents _) eqn:Ec; [|cbn in *; lia]. exfalso. apply (Intq.empty_contents _ (Intq.inv_ring _ _ (proj1 (c_tx _ _ Hc)))) in Ec. congruence.
    + exists s'. split; [exact E'|]. by rewrite Hb', Hb1, Hi', Hi1.
Qed.

(** ** The handler *)

Lemma lsr_run s : inb_lsr quick arrive s = Ok (line_status (tick quick arrive (port s)), set_port (tick quick arrive (port s)) s).
Proof. reflexivity. Qed.
Lemma full_run s : off s = true → input_full s = Ok (Intq.intq_full (Intq.q (buffer s)), s).
Proof. intros Ho. unfold input_full. rewrite (bind_Ok get _ _ _ _ eq_refl), Ho. reflexivity. Qed.
Lemma putc_none t b q : queue_ok t q → Intq.intq_full (Intq.q q) = false →
  ∃ q', Intq.loop (Intq.Putc b) None q = Ok ((), q') ∧ queue_ok t q' ∧ Intq.taken q' = Intq.taken q ∧ Intq.contents (Intq.q q') = Intq.contents (Intq.q q) ++ [b] ∧
    (ops is_putc q → ops is_putc q').
Proof.
  intros Hq Hf. destruct (loop_ok t (Intq.Putc b) None q Hq) as (q' & E & Hq'); [by left|]. pose proof E as E'. unfold Intq.loop in E'. rewrite (bind_Ok get _ _ _ _ eq_refl) in E'.
  cbn [Intq.side_of Intq.blocked] in E'. rewrite Hf in E'. rewrite (bind_Ok _ _ _ () q eq_refl) in E'. cbn [Intq.tail_of] in E'.
  destruct (putc_frame is_putc _ _ _ E') as (Ht & Hn & Hp). exists q'. split; [done|]. split; [done|]. split; [done|]. split; [|done].
  pose proof (Intq.inv_bytes _ _ (proj1 Hq)) as H1. pose proof (Intq.inv_bytes _ _ (proj1 Hq')) as H2. rewrite Hn, H1, Ht, <- app_assoc in H2. symmetry. by apply app_inv_head in H2.
Qed.
Lemma notify_run pre s : core pre s → off s = true → serial_notify s = Ok ((), set_port (set_ier (ier_of s) (port s)) s).
Proof.
  intros Hc Ho. unfold serial_notify. rewrite (bind_Ok get _ _ _ _ eq_refl), Ho. rewrite (bind_Ok (ASSERT true) _ _ () _ eq_refl). rewrite decide_True by apply Hc. by apply (write_ier_run pre).
Qed.
Lemma core_ier pre s : core pre s → core pre (set_port (set_ier (ier_of s) (port s)) s).
Proof. intros Hc. by apply core_port. Qed.
Lemma input_putc_run pre b s : core pre s → off s = true → Intq.intq_full (Intq.q (buffer s)) = false →
  ∃ s', input_putc b s = Ok ((), s') ∧ core pre s' ∧ off s' = true ∧ txq s' = txq s ∧ armed s' ∧
    Intq.contents (Intq.q (buffer s')) = Intq.contents (Intq.q (buffer s)) ++ [b].
Proof.
  intros Hc Ho Hf. unfold input_putc. rewrite (bind_Ok get _ _ _ _ eq_refl), Ho. rewrite (bind_Ok (ASSERT true) _ _ () _ eq_refl).
  destruct (putc_none t1 b (buffer s) (c_buf _ _ Hc) Hf) as (q & E & Hq & _ & Hn & _).
  rewrite (bind_Ok _ _ _ () (set_buffer q s)).
  2: { apply on_buffer_run. unfold Intq.input_putc. rewrite (bind_Ok get _ _ _ _ eq_refl), Hf. exact E. }
  assert (core pre (set_buffer q s)) as Hc' by (by apply core_buffer). rewrite (notify_run pre) by done. eexists. split; [reflexivity|]. split; [by apply core_ier|]. split; [done|]. split; [done|]. split; [apply armed_ier|done].
Qed.
Lemma rbr_run s : is_Some (rbr (port s)) → ∃ b u, inb_rbr s = Ok (b, set_port u s) ∧ same_port (port s) u.
Proof. intros [b Hb]. exists b, (set_thr (thr (port s)) None (line (port s)) (readings (port s)) (port s)). split; [|by split]. unfold inb_rbr. rewrite (bind_Ok get _ _ _ _ eq_refl), Hb. reflexivity. Qed.
Lemma recv_run pre n s : core pre s → off s = true → (63 < length (Intq.contents (Intq.q (buffer s))) + n)%nat →
  ∃ s', recv_loop quick arrive n s = Ok ((), s') ∧ core pre s' ∧ off s' = true ∧ txq s' = txq s.
Proof.
  revert s. induction n as [|n IH]; intros s Hc Ho Hn.
  - destruct (Intq.full_contents _ (Intq.inv_ring _ _ (proj1 (c_buf _ _ Hc)))) as [Hle _]. lia.
  - cbn [recv_loop]. rewrite (bind_Ok _ _ _ _ _ (full_run s Ho)). destruct (Intq.intq_full (Intq.q (buffer s))) eqn:Hf; [by exists s|].
    rewrite (bind_Ok _ _ _ _ _ (lsr_run s)), status_dr. set (s1 := set_port (tick quick arrive (port s)) s). assert (core pre s1) as Hc1 by (apply core_port; [done|apply tick_same..]).
    destruct (bool_decide_reflect (is_Some (rbr (tick quick arrive (port s))))) as [Hr|Hr]; [|by exists s1].
    destruct (rbr_run s1 Hr) as (b & u & E & Hu). rewrite (bind_Ok _ _ _ _ _ E). assert (core pre (set_port u s1)) as Hc2 by (apply core_port; [done|apply Hu..]).
    destruct (input_putc_run pre b (set_port u s1) Hc2 Ho Hf) as (s3 & E3 & Hc3 & Ho3 & Ht3 & _ & Hn3). rewrite (bind_Ok _ _ _ _ _ E3).
    destruct (IH s3 Hc3 Ho3) as (s4 & E4 & Hc4 & Ho4 & Ht4); [|exists s4; split; [done|]; split; [done|]; split; [done|]; by rewrite Ht4, Ht3].
    rewrite Hn3, length_app. cbn [length]. change (buffer (set_port u s1)) with (buffer s). lia.
Qed.
Lemma send_run pre n s : core pre s → off s = true → (length (Intq.contents (Intq.q (txq s))) < n)%nat →
  ∃ s', send_loop quick arrive n s = Ok ((), s') ∧ core pre s' ∧ off s' = true ∧ ((∀ k, quick k = true) → Intq.contents (Intq.q (txq s')) = []).
Proof.
  revert s. induction n as [|n IH]; intros s Hc Ho Hn; [lia|]. cbn [send_loop]. rewrite (bind_Ok get _ _ _ _ eq_refl).
  pose proof (Intq.empty_contents _ (Intq.inv_ring _ _ (proj1 (c_tx _ _ Hc)))) as Hemp. destruct (Intq.intq_empty (Intq.q (txq s))) eqn:He.
  - exists s. split; [done|]. split; [done|]. split; [done|]. intros _. by apply Hemp.
  - rewrite (bind_Ok _ _ _ _ _ (lsr_run s)), status_thre. set (s1 := set_port (tick quick arrive (port s)) s). assert (core pre s1) as Hc1 by (apply core_port; [done|apply tick_same..]).
    destruct (bool_decide_reflect (thr (tick quick arrive (port s)) = None)) as [Ht|Ht].
    + destruct (txq_getc_run s1 (c_tx _ _ Hc1) (c_ops _ _ Hc1) He) as (b & q & E & Hq & Hp & Htk & Hct). rewrite (bind_Ok _ _ _ _ _ E).
      destruct (thr_run b (set_txq q s1) (c_dlab _ _ Hc1) Ht) as (u & Eu & Hw & Hl & _). rewrite (bind_Ok _ _ _ _ _ Eu).
      apply IH; [by apply (core_sent pre s1 q b)|done|]. change (txq s1) with (txq s) in Hct. rewrite Hct in Hn. cbn [length] in Hn. cbn [txq set_port set_txq]. lia.
    + exists s1. split; [done|]. split; [done|]. split; [done|]. intros Hq. destruct Ht. unfold tick. by rewrite Hq.
Qed.
Lemma port_interrupt_run pre s : good pre s → ∃ s', serial_interrupt quick arrive s = Ok ((), s') ∧ good pre s' ∧ ((∀ k, quick k = true) → Intq.contents (Intq.q (txq s')) = []).
Proof.
  intros (Hc & Ho & _). unfold serial_interrupt. rewrite (bind_Ok (modify _) _ _ _ _ eq_refl). assert (core pre (set_off true s)) as Hc0 by (by apply core_off).
  destruct (recv_run pre 64 (set_off true s) Hc0 eq_refl) as (s1 & E1 & Hc1 & Ho1 & Ht1); [cbn; lia|]. rewrite (bind_Ok _ _ _ _ _ E1).
  destruct (send_run pre 64 s1 Hc1 Ho1) as (s2 & E2 & Hc2 & Ho2 & Hs2).
  { destruct (Intq.full_contents _ (Intq.inv_ring _ _ (proj1 (c_tx _ _ Hc1)))) as [Hle _]. lia. }
  rewrite (bind_Ok _ _ _ _ _ E2). rewrite (bind_Ok _ _ _ _ _ (write_ier_run pre s2 Hc2 Ho2)). eexists. split; [reflexivity|]. split; [|exact Hs2].
  split; [by apply core_off, core_ier|]. split; [done|apply armed_ier].
Qed.

(** ** Calls *)

Lemma empty_ring q q' : same_ring q q' → Intq.intq_empty (Intq.q q') = Intq.intq_empty (Intq.q q) ∧ Intq.intq_full (Intq.q q') = Intq.intq_full (Intq.q q).
Proof. intros [Hh Ht]. unfold Intq.intq_empty, Intq.intq_full. by rewrite Hh, Ht. Qed.
(** The call of a thread on the queue has returned, or the thread sleeps. *)
Lemma tx_end pre s q : good pre s → core pre (set_txq q (set_off true s)) → returned t0 (txq s) q →
  ∃ s', (if negb false && bool_decide (is_Some (Intq.threads q !! t0)) then modify (set_off false) else serial_putc_tail false) (set_txq q (set_off true s)) = Ok ((), s') ∧ good pre s'.
Proof.
  intros (_ & _ & [A1 A2]) Hc Hr. cbn [negb andb]. destruct (bool_decide_reflect (is_Some (Intq.threads q !! t0))) as [[p Hp]|Hn]; [|by apply write_ier_good].
  destruct Hr as [Hr|Hr]; [congruence|]. eexists. split; [reflexivity|]. split; [exact (core_off _ _ _ Hc)|]. split; [done|]. destruct (empty_ring _ _ Hr) as [He _].
  split; cbn [txq buffer port set_off set_txq]; [by rewrite He|done].
Qed.
Lemma core_txq pre s q : core pre s → queue_ok t0 q → ops is_putc q → Intq.taken q = Intq.taken (txq s) → core pre (set_txq q (set_off true s)).
Proof. intros [] Hq Ho Ht. split; try done. cbn [txq set_txq set_off port]. by rewrite Ht. Qed.

Lemma putc_ok pre s b : good pre s → Intq.threads (txq s) !! t0 = None → ∃ s', serial_putc quick arrive fuel t0 b s = Ok ((), s') ∧ good pre s'.
Proof.
  intros Hg Hn. pose proof Hg as (Hc & Ho & _). unfold serial_putc. rewrite (bind_Ok _ _ _ false s) by (unfold gets; by rewrite Ho). rewrite (bind_Ok (modify _) _ _ _ _ eq_refl), (bind_Ok get _ _ _ _ eq_refl).
  rewrite decide_False by (cbn; rewrite (c_mode _ _ Hc); auto). cbn [andb]. rewrite (bind_Ok (mret ()) _ _ () _ eq_refl).
  destruct (loop_ok t0 (Intq.Putc b) (Some t0) (txq s) (c_tx _ _ Hc)) as (q & E & Hq); [right; by rewrite Hn|].
  destruct (loop_frame is_putc b (Some t0) _ _ ltac:(done) E) as [Ht Hp]. rewrite (bind_Ok _ _ _ () (set_txq q (set_off true s))) by (by apply on_txq_run). rewrite (bind_Ok get _ _ _ _ eq_refl).
  apply tx_end; [done|apply core_txq; auto; apply Hp, Hc|by eapply loop_returned].
Qed.
Lemma putc_resume_ok pre s : good pre s → ∃ s', putc_resume t0 s = Ok ((), s') ∧ good pre s'.
Proof.
  intros Hg. pose proof Hg as (Hc & Ho & _). unfold putc_resume. rewrite (bind_Ok (modify _) _ _ _ _ eq_refl).
  destruct (go_on_ok t0 (txq s) (c_tx _ _ Hc)) as (q & E & Hq). destruct (go_on_frame t0 _ _ (c_ops _ _ Hc) E) as [Ht Hp].
  rewrite (bind_Ok _ _ _ () (set_txq q (set_off true s))) by (by apply on_txq_run). rewrite (bind_Ok get _ _ _ _ eq_refl).
  destruct (tx_end pre s q Hg) as (s' & Es & Hg'); [by apply core_txq|by apply go_on_returned|]. exists s'. split; [|done]. rewrite <- Es. cbn. by destruct (Intq.threads q !! t0).
Qed.
(** A caller that has interrupts off: an interrupt handler, or a thread. *)
Lemma putc_off_ok pre s t b : good pre s → ∃ s', (modify (set_off true);; serial_putc quick arrive fuel t b;; modify (set_off false)) s = Ok ((), s') ∧ good pre s'.
Proof.
  intros (Hc & Ho & _). rewrite (bind_Ok (modify _) _ _ _ _ eq_refl). assert (core pre (set_off true s)) as Hc0 by (by apply core_off). revert Hc0. generalize (set_off true s) (eq_refl : off (set_off true s) = true).
  clear s Hc Ho. intros s Ho Hc. assert (set_off true s = s) as Es by (destruct s; cbn in Ho; by subst).
  assert (∃ s', serial_putc quick arrive fuel t b s = Ok ((), s') ∧ core pre s' ∧ armed s') as (s' & E & Hc' & Ha'). 2: { rewrite (bind_Ok _ _ _ _ _ E). eexists. split; [reflexivity|]. split; [by apply core_off|done]. }
  unfold serial_putc. rewrite (bind_Ok _ _ _ true s) by (unfold gets; by rewrite Ho). rewrite (bind_Ok (modify _) _ _ _ _ eq_refl), (bind_Ok get _ _ _ _ eq_refl), Es.
  rewrite decide_False by (rewrite (c_mode _ _ Hc); auto). cbn [andb negb].
  assert (∃ s1, (if Intq.intq_full (Intq.q (txq s)) then b ← txq_getc; putc_poll quick arrive fuel b else mret ()) s = Ok ((), s1) ∧ core pre s1 ∧ off s1 = true ∧ Intq.intq_full (Intq.q (txq s1)) = false) as (s1 & E1 & Hc1 & Ho1 & Hf1).
  { destruct (Intq.intq_full (Intq.q (txq s))) eqn:Ef; [|by exists s]. pose proof (Intq.inv_ring _ _ (proj1 (c_tx _ _ Hc))) as Hr. destruct (Intq.full_contents _ Hr) as [_ Hfull]. apply Hfull in Ef.
    destruct (poll_out pre s Hc Ho) as (s1 & E1 & Hc1 & Ho1 & _ & Hn1).
    { destruct (Intq.intq_empty _) eqn:He; [|done]. apply (Intq.empty_contents _ Hr) in He. by rewrite He in Ef. }
    exists s1. split; [done|]. split; [done|]. split; [done|]. destruct (Intq.intq_full (Intq.q (txq s1))) eqn:Ef1; [|done].
    apply (Intq.full_contents _ (Intq.inv_ring _ _ (proj1 (c_tx _ _ Hc1)))) in Ef1. rewrite Hn1 in Ef1. destruct (Intq.contents (Intq.q (txq s))); cbn in *; lia. }
  rewrite (bind_Ok _ _ _ _ _ E1). destruct (putc_none t0 b (txq s1) (c_tx _ _ Hc1) Hf1) as (q & E & Hq & Ht & _ & Hp).
  rewrite (bind_Ok _ _ _ () (set_txq q s1)) by (by apply on_txq_run). rewrite (bind_Ok get _ _ _ _ eq_refl). unfold serial_putc_tail.
  assert (core pre (set_txq q s1)) as Hc2. { destruct Hc1. split; try done; [by apply Hp|]. cbn [txq set_txq port]. by rewrite Ht. }
  rewrite (bind_Ok _ _ _ _ _ (write_ier_run pre (set_txq q s1) Hc2 Ho1)). eexists. split; [reflexivity|]. split; [by apply core_off, core_ier|exact (armed_ier (set_txq q s1))].
Qed.

Lemma rx_end pre s q : good pre s → queue_ok t1 q → returned t1 (buffer s) q →
  ∃ s', match Intq.threads q !! t1 with Some _ => modify (set_off false) | None => input_getc_tail end (set_buffer q (set_off true s)) = Ok ((), s') ∧ good pre s'.
Proof.
  intros (Hc & _ & [A1 A2]) Hq Hr. assert (core pre (set_buffer q (set_off true s))) as Hc' by (by apply core_buffer, Hq; apply core_off). destruct (Intq.threads q !! t1) eqn:Et.
  - destruct Hr as [Hr|Hr]; [congruence|]. eexists. split; [reflexivity|]. split; [exact (core_off _ _ _ Hc')|]. split; [done|]. destruct (empty_ring _ _ Hr) as [_ Hf].
    split; cbn [txq buffer port set_off set_buffer]; [done|by rewrite Hf].
  - unfold input_getc_tail. rewrite (bind_Ok _ _ _ _ _ (notify_run pre _ Hc' eq_refl)). eexists. split; [reflexivity|]. split; [by apply core_off, core_ier|]. split; [done|apply armed_ier].
Qed.
Lemma getc_ok pre s : good pre s → Intq.threads (buffer s) !! t1 = None → ∃ s', input_getc t1 s = Ok ((), s') ∧ good pre s'.
Proof.
  intros Hg Hn. pose proof Hg as (Hc & Ho & _). unfold input_getc. rewrite (bind_Ok (modify _) _ _ _ _ eq_refl).
  destruct (loop_ok t1 Intq.Getc (Some t1) (buffer s) (c_buf _ _ Hc)) as (q & E & Hq); [right; by rewrite Hn|].
  rewrite (bind_Ok _ _ _ () (set_buffer q (set_off true s))) by (by apply on_buffer_run). rewrite (bind_Ok get _ _ _ _ eq_refl). apply rx_end; [done|done|by eapply loop_returned].
Qed.
Lemma getc_resume_ok pre s : good pre s → ∃ s', getc_resume t1 s = Ok ((), s') ∧ good pre s'.
Proof.
  intros Hg. pose proof Hg as (Hc & Ho & _). unfold getc_resume. rewrite (bind_Ok (modify _) _ _ _ _ eq_refl). destruct (go_on_ok t1 (buffer s) (c_buf _ _ Hc)) as (q & E & Hq).
  rewrite (bind_Ok _ _ _ () (set_buffer q (set_off true s))) by (by apply on_buffer_run). rewrite (bind_Ok get _ _ _ _ eq_refl). apply rx_end; [done|done|by apply go_on_returned].
Qed.
Lemma flush_ok pre s : good pre s → ∃ s', serial_flush quick arrive fuel s = Ok ((), s') ∧ good pre s' ∧ Intq.contents (Intq.q (txq s')) = [].
Proof.
  intros (Hc & Ho & [_ A2]). unfold serial_flush. rewrite (bind_Ok _ _ _ false s) by (unfold gets; by rewrite Ho). rewrite (bind_Ok (modify _) _ _ _ _ eq_refl).
  destruct (flush_run pre 64 (set_off true s)) as (s' & E & Hc' & Ho' & [Hb Hi] & Hn); [by apply core_off|done| |].
  { destruct (Intq.full_contents _ (Intq.inv_ring _ _ (proj1 (c_tx _ _ Hc)))) as [Hle _]. cbn [txq set_off]. lia. }
  rewrite (bind_Ok _ _ _ _ _ E). eexists. split; [reflexivity|]. split; [|exact Hn]. split; [by apply core_off|]. split; [done|]. cbn [txq buffer port set_off armed].
  apply (Intq.empty_contents _ (Intq.inv_ring _ _ (proj1 (c_tx _ _ Hc')))) in Hn. split; cbn [txq buffer port set_off]; [congruence|]. rewrite Hb, Hi. exact A2.
Qed.

(** ** Histories *)

Inductive event :=
| Print (byte : Z)        (** the writer calls [serial_putc]; it goes on in [Printing] when it has slept *)
| Printing
| Print_off (byte : Z)    (** [serial_putc] is called with interrupts off *)
| Read                    (** the reader calls [input_getc]; it goes on in [Reading] *)
| Reading
| Key (key : Z)           (** the handler of the keyboard *)
| Interrupt               (** the handler of the port *)
| Flush
| Time.                   (** the port has sent its byte *)

Definition step (e : event) : M serial unit :=
  match e with
  | Print b => s ← get; match Intq.threads (txq s) !! t0 with None => serial_putc quick arrive fuel t0 b | Some _ => mret () end
  | Printing => s ← get; match Intq.threads (txq s) !! t0 with Some _ => putc_resume t0 | None => mret () end
  | Print_off b => modify (set_off true);; serial_putc quick arrive fuel t0 b;; modify (set_off false)
  | Read => s ← get; match Intq.threads (buffer s) !! t1 with None => input_getc t1 | Some _ => mret () end
  | Reading => s ← get; match Intq.threads (buffer s) !! t1 with Some _ => getc_resume t1 | None => mret () end
  | Key k => modify (set_off true);; full ← input_full; (if (full : bool) then mret () else input_putc k);; modify (set_off false)
  | Interrupt => serial_interrupt quick arrive
  | Flush => serial_flush quick arrive fuel
  | Time => modify (λ s, set_port (xmit (port s)) s)
  end.
Fixpoint run (es : list event) : M serial unit := match es with [] => mret () | e :: es => step e;; run es end.

Lemma step_good pre e s : good pre s → ∃ s', step e s = Ok ((), s') ∧ good pre s'.
Proof.
  intros Hg. destruct e as [b| |b| | |k| | |]; cbn [step].
  - rewrite (bind_Ok get _ _ _ _ eq_refl). destruct (Intq.threads (txq s) !! t0) eqn:E; [by exists s|by apply putc_ok].
  - rewrite (bind_Ok get _ _ _ _ eq_refl). destruct (Intq.threads (txq s) !! t0) eqn:E; [by apply putc_resume_ok|by exists s].
  - by apply putc_off_ok.
  - rewrite (bind_Ok get _ _ _ _ eq_refl). destruct (Intq.threads (buffer s) !! t1) eqn:E; [by exists s|by apply getc_ok].
  - rewrite (bind_Ok get _ _ _ _ eq_refl). destruct (Intq.threads (buffer s) !! t1) eqn:E; [by apply getc_resume_ok|by exists s].
  - destruct Hg as (Hc & Ho & Ha). rewrite (bind_Ok (modify _) _ _ _ _ eq_refl), (bind_Ok _ _ _ _ _ (full_run (set_off true s) eq_refl)). cbn [buffer set_off].
    assert (core pre (set_off true s)) as Hc0 by (by apply core_off). destruct (Intq.intq_full (Intq.q (buffer s))) eqn:Ef.
    + eexists. split; [reflexivity|]. split; [exact (core_off _ _ _ Hc0)|done].
    + destruct (input_putc_run pre k (set_off true s) Hc0 eq_refl Ef) as (s' & E & Hc' & _ & _ & Ha' & _). rewrite (bind_Ok _ _ _ _ _ E). eexists. split; [reflexivity|].
      split; [exact (core_off _ _ _ Hc')|done].
  - destruct (port_interrupt_run pre s Hg) as (s' & E & H & _). eauto.
  - destruct (flush_ok pre s Hg) as (s' & E & H & _). eauto.
  - destruct Hg as (Hc & Ho & Ha). eexists. split; [reflexivity|]. split; [|done]. apply core_port; [done| |done]. unfold xmit, written. cbn. by rewrite app_nil_r.
Qed.
Lemma run_good pre es s : good pre s → ∃ s', run es s = Ok ((), s') ∧ good pre s'.
Proof.
  revert s. induction es as [|e es IH]; intros s Hg; [by exists s|]. cbn [run]. destruct (step_good pre e s Hg) as (s1 & E & Hg1). rewrite (bind_Ok _ _ _ _ _ E). by apply IH.
Qed.

(** ** The start *)

(** The state of the kernel's start, when the port has just been switched on. *)
Definition boot (u : uart) : serial := Serial UNINIT Intq.boot Intq.boot u false.
Fixpoint print_poll (bs : list Z) : M serial unit := match bs with [] => mret () | b :: bs => serial_putc quick arrive fuel t0 b;; print_poll bs end.

Record polled (w : list Z) (s : serial) : Prop := Polled {
  p_mode : the_mode s = POLL; p_tx : txq s = Intq.boot; p_buf : buffer s = Intq.boot; p_off : off s = false;
  p_dlab : Z.testbit (lcr (port s)) 7 = false; p_line : written (port s) = w }.
(** 9600 bits per second need the divisor 12. *)
Lemma init_poll_run u b : ∃ u', init_poll (set_off b (boot u)) = Ok ((), Serial POLL Intq.boot Intq.boot u' b) ∧ written u' = written u ∧ lcr u' = LCR_N81 ∧ divisor u' = (12, 0).
Proof.
  assert (∃ v, outb IER_REG 0 (set_off b (boot u)) = Ok ((), set_off b (boot v)) ∧ written v = written u) as (v & E & Hv).
  { unfold outb. rewrite (bind_Ok get _ _ _ _ eq_refl). change IER_REG with 0x3f9. unfold uart_out. rewrite decide_False, decide_True by done. destruct (Z.testbit _ 7); by eexists. }
  unfold init_poll. rewrite (bind_Ok get _ _ _ _ eq_refl). rewrite (bind_Ok _ _ _ () (set_off b (boot u)) eq_refl). rewrite (bind_Ok _ _ _ _ _ E).
  exists (Uart (ier v) 0 3 8 (12, 0) (thr v) (rbr v) (line v) (readings v)). split; [vm_compute; reflexivity|]. by rewrite <- Hv.
Qed.
Lemma poll_putc_run w b s : polled w s → ∃ s', serial_putc quick arrive fuel t0 b s = Ok ((), s') ∧ polled (w ++ [u8 b]) s'.
Proof.
  intros [Hm Ht Hb Ho Hd Hw]. unfold serial_putc. rewrite (bind_Ok _ _ _ false s) by (unfold gets; by rewrite Ho). rewrite (bind_Ok (modify _) _ _ _ _ eq_refl), (bind_Ok get _ _ _ _ eq_refl).
  cbn [the_mode set_off]. rewrite Hm. rewrite decide_True, decide_False by done. rewrite (bind_Ok (mret ()) _ _ () _ eq_refl).
  destruct (putc_poll_run b (set_off true s) eq_refl Hd) as (u & E & Hwu & Hl & _). rewrite (bind_Ok _ _ _ _ _ E). eexists. split; [reflexivity|]. split; try done; cbn; [by rewrite Hl|by rewrite Hwu, <- Hw].
Qed.
Lemma first_putc_run u b : ∃ s', serial_putc quick arrive fuel t0 b (boot u) = Ok ((), s') ∧ polled (written u ++ [u8 b]) s'.
Proof.
  unfold serial_putc. rewrite (bind_Ok _ _ _ false (boot u)) by done. rewrite (bind_Ok (modify _) _ _ _ _ eq_refl), (bind_Ok get _ _ _ _ eq_refl). cbn [the_mode set_off boot]. rewrite !decide_True by done.
  destruct (init_poll_run u true) as (v & Ev & Hv & Hl & _). rewrite (bind_Ok _ _ _ _ _ Ev).
  destruct (putc_poll_run b (Serial POLL Intq.boot Intq.boot v true)) as (x & E & Hwx & Hlx & _); [done|by cbn; rewrite Hl|]. rewrite (bind_Ok _ _ _ _ _ E). eexists. split; [reflexivity|].
  split; try done; cbn; [by rewrite Hlx; cbn; rewrite Hl|by rewrite Hwx; cbn; rewrite Hv].
Qed.
Lemma print_polled w bs s : polled w s → ∃ s', print_poll bs s = Ok ((), s') ∧ polled (w ++ (u8 <$> bs)) s'.
Proof.
  revert w s. induction bs as [|b bs IH]; intros w s Hp; [exists s; by rewrite app_nil_r|]. cbn [print_poll]. destruct (poll_putc_run w b s Hp) as (s1 & E & H1). rewrite (bind_Ok _ _ _ _ _ E).
  destruct (IH _ _ H1) as (s' & E' & H'). exists s'. split; [done|]. rewrite fmap_cons. change (u8 b :: (u8 <$> bs)) with ([u8 b] ++ (u8 <$> bs)). by rewrite app_assoc.
Qed.
Lemma queue_boot t : queue_ok t Intq.boot.
Proof. split; [apply Intq.boot_inv|done]. Qed.
Lemma queue_start w s : polled w s → ∃ s', (modify (set_mode QUEUE);; old ← gets off; modify (set_off true);; write_ier;; modify (set_off old)) s = Ok ((), s') ∧ good w s' ∧ Intq.entered (txq s') = [].
Proof.
  intros [Hm Ht Hb Ho Hd Hw]. rewrite (bind_Ok (modify _) _ _ _ _ eq_refl). rewrite (bind_Ok _ _ _ false (set_mode QUEUE s)) by (unfold gets; cbn; by rewrite Ho). rewrite (bind_Ok (modify _) _ _ _ _ eq_refl).
  set (s1 := set_off true (set_mode QUEUE s)). assert (core w s1) as Hc.
  { split; cbn [txq buffer port s1 set_off set_mode the_mode]; rewrite ?Ht, ?Hb; [done|apply queue_boot|by intros ? ?|apply queue_boot|done|by rewrite Hw, app_nil_r]. }
  rewrite (bind_Ok _ _ _ _ _ (write_ier_run w s1 Hc eq_refl)). eexists. split; [reflexivity|]. split; [|by cbn; rewrite Ht]. split; [exact (core_off _ false _ (core_ier _ _ Hc))|]. split; [done|apply armed_ier].
Qed.
Lemma init_queue_run u bs : ∃ s, (print_poll bs;; serial_init_queue) (boot u) = Ok ((), s) ∧ good (written u ++ (u8 <$> bs)) s ∧ Intq.entered (txq s) = [].
Proof.
  assert (∀ w s, polled w s → ∃ s', serial_init_queue s = Ok ((), s') ∧ good w s' ∧ Intq.entered (txq s') = []) as Hq.
  { intros w s Hp. pose proof (p_mode _ _ Hp) as Hm. unfold serial_init_queue. rewrite (bind_Ok get _ _ _ _ eq_refl), Hm. rewrite decide_False by done. rewrite (bind_Ok (mret ()) _ _ () _ eq_refl), (bind_Ok get _ _ _ _ eq_refl), Hm.
    rewrite (bind_Ok _ _ _ () s eq_refl). by apply queue_start. }
  destruct bs as [|b bs]; cbn [print_poll].
  - rewrite (bind_Ok (mret ()) _ _ () _ eq_refl). unfold serial_init_queue. rewrite (bind_Ok get _ _ _ _ eq_refl). cbn [the_mode boot]. rewrite decide_True by done.
    destruct (init_poll_run u false) as (v & Ev & Hv & Hl & _). change (set_off false (boot u)) with (boot u) in Ev. rewrite (bind_Ok _ _ _ _ _ Ev). rewrite (bind_Ok get _ _ _ _ eq_refl).
    rewrite (bind_Ok _ _ _ () (Serial POLL Intq.boot Intq.boot v false) eq_refl). apply queue_start. split; try done; cbn; [by rewrite Hl|by rewrite Hv, app_nil_r].
  - destruct (first_putc_run u b) as (s1 & E1 & H1). destruct (print_polled _ bs _ H1) as (s2 & E2 & H2).
    rewrite (bind_Ok _ _ _ () s2) by (by rewrite (bind_Ok _ _ _ _ _ E1)). rewrite <- app_assoc in H2. by apply Hq.
Qed.
End Driver.

(** "Hi" with the first byte printed at the start and the second in the queue until the port is ready. *)
Definition silent_port : uart := Uart 0 0 0 0 (0, 0) None None [] 0.
End SerialSpec.
