(* ===== verification/Console.v ===== *)
(** * The console (lib/kernel/console.c)

    The lock that keeps the output of threads apart, with its count of nested
    calls.  A call of [puts], [putbuf], [putchar] or [vprintf] is its bytes,
    written one after the other; threads are interleaved at every byte, and a
    thread that is printing may be made to print something else in between.
    A byte that is written is recorded with its thread and the depth of its
    call; it goes on to [serial_putc] and [vga_putc] ([Serial], [Vga]).  The lock
    is its holder. *)

From S2P Require Import Prelude.

Module Console.

(** Where a thread is: in [lock_acquire], or in a call, with what is left to
    write of it and of the calls around it. *)
Inductive pc := Waiting (bs : list Z) | Writing (bs : list Z) (outer : list (list Z)).
Record console := Console {
  console_lock : option nat; use_console_lock : bool; console_lock_depth : Z; write_cnt : Z;
  threads : gmap nat pc; out : list (nat * Z * Z); order : list (nat * list Z) }.
Abbreviation C := (M console).

Definition set_lock (h : option nat) (s : console) : console := Console h (use_console_lock s) (console_lock_depth s) (write_cnt s) (threads s) (out s) (order s).
Definition set_use (b : bool) (s : console) : console := Console (console_lock s) b (console_lock_depth s) (write_cnt s) (threads s) (out s) (order s).
Definition set_depth (d : Z) (s : console) : console := Console (console_lock s) (use_console_lock s) d (write_cnt s) (threads s) (out s) (order s).
Definition set_thread (t : nat) (p : option pc) (s : console) : console :=
  Console (console_lock s) (use_console_lock s) (console_lock_depth s) (write_cnt s) (partial_alter (λ _, p) t (threads s)) (out s) (order s).
(** The message is the next one. *)
Definition begin (t : nat) (bs : list Z) (s : console) : console :=
  Console (console_lock s) (use_console_lock s) (console_lock_depth s) (write_cnt s) (threads s) (out s) (order s ++ [(t, bs)]).

Definition console_init : C unit := modify (set_lock None);; modify (set_use true).
Definition console_panic : C unit := modify (set_use false).

(** For a thread, or for an interrupt handler with [None]; false when the
    thread has to wait for the lock. *)
Definition acquire_console (caller : option nat) : C bool :=
  s ← get;
  match caller with
  | Some t =>
      if use_console_lock s then
        if decide (console_lock s = Some t) then put (set_depth (console_lock_depth s + 1) s);; mret true
        else match console_lock s with None => put (set_lock (Some t) s);; mret true | Some _ => mret false end
      else mret true
  | None => mret true
  end.
Definition release_console (caller : option nat) : C unit :=
  s ← get;
  match caller with
  | Some t =>
      if use_console_lock s then
        if decide (0 < console_lock_depth s) then put (set_depth (console_lock_depth s - 1) s)
        else ASSERT (bool_decide (console_lock s = Some t));; put (set_lock None s)
      else mret ()
  | None => mret ()
  end.
Definition console_locked_by_current_thread (caller : option nat) : C bool :=
  gets (λ s, match caller with None => true | Some t => negb (use_console_lock s) || bool_decide (console_lock s = Some t) end).
Definition putchar_have_lock (t : nat) (c : Z) : C unit :=
  l ← console_locked_by_current_thread (Some t); ASSERT l;;
  modify (λ s, Console (console_lock s) (use_console_lock s) (console_lock_depth s) (i64 (write_cnt s + 1)) (threads s) (out s ++ [(t, console_lock_depth s, u8 c)]) (order s)).

(** What the functions write. *)
Definition puts (s : list Z) : list Z := s ++ [10].
Definition putbuf (buffer : list Z) : list Z := buffer.
Definition putchar (c : Z) : list Z := [c].

(** A thread calls one of them. *)
Definition call (t : nat) (bs : list Z) : C unit :=
  s ← get;
  match threads s !! t with
  | None => ok ← acquire_console (Some t); if (ok : bool) then modify (begin t bs);; modify (set_thread t (Some (Writing bs []))) else modify (set_thread t (Some (Waiting bs)))
  | Some (Writing cur outer) => ok ← acquire_console (Some t); ASSERT ok;; modify (set_thread t (Some (Writing bs (cur :: outer))))
  | Some (Waiting _) => mret ()
  end.
(** A thread goes on. *)
Definition go_on (t : nat) : C unit :=
  s ← get;
  match threads s !! t with
  | Some (Waiting bs) => ok ← acquire_console (Some t); if (ok : bool) then modify (begin t bs);; modify (set_thread t (Some (Writing bs []))) else mret ()
  | Some (Writing (c :: bs) outer) => putchar_have_lock t c;; modify (set_thread t (Some (Writing bs outer)))
  | Some (Writing [] outer) =>
      release_console (Some t);;
      modify (set_thread t (match outer with [] => None | cur :: outer => Some (Writing cur outer) end))
  | None => mret ()
  end.

Inductive event := Call (t : nat) (bs : list Z) | Run (t : nat).
Definition step (e : event) : C unit := match e with Call t bs => call t bs | Run t => go_on t end.
Fixpoint run (es : list event) : C unit := match es with [] => mret () | e :: es => step e;; run es end.
Definition boot : console := Console None false 0 0 ∅ [] [].

(** ** Messages do not mix *)

(** What a message has written itself, without what was printed in between. *)
Definition own (seg : list (nat * Z * Z)) : list Z := (λ x, x.2) <$> filter (λ x, x.1.2 = 0) seg.
(** The bytes that are left of the outermost call. *)
Definition left (bs : list Z) (outer : list (list Z)) : list Z := default bs (last outer).

(** A message and what was written while it had the lock: all by its thread. *)
Definition seg_ok (rest : list Z) (m : nat * list Z) (seg : list (nat * Z * Z)) : Prop := own seg ++ (u8 <$> rest) = (u8 <$> m.2) ∧ Forall (λ x, x.1.1 = m.1) seg.
Definition unmixed (s : console) : Prop :=
  match console_lock s with
  | None => ∃ segs, out s = concat segs ∧ Forall2 (seg_ok []) (order s) segs
  | Some t => ∃ ms m segs seg bs outer, order s = ms ++ [m] ∧ m.1 = t ∧ out s = concat segs ++ seg ∧ Forall2 (seg_ok []) ms segs ∧
      threads s !! t = Some (Writing bs outer) ∧ console_lock_depth s = Z.of_nat (length outer) ∧ seg_ok (left bs outer) m seg
  end.
Record inv (s : console) : Prop := Inv {
  i_use : use_console_lock s = true;
  i_one : ∀ t bs outer, threads s !! t = Some (Writing bs outer) → console_lock s = Some t;
  i_depth : console_lock s = None → console_lock_depth s = 0;
  i_unmixed : unmixed s
}.

Lemma console_threads_set s t p t' : threads (set_thread t p s) !! t' = if decide (t = t') then p else threads s !! t'.
Proof. cbn. case_decide; subst; [by rewrite lookup_partial_alter_eq|by rewrite lookup_partial_alter_ne]. Qed.

Lemma left_nested bs cur outer : left bs (cur :: outer) = left cur outer.
Proof. unfold left. destruct outer; [done|]. rewrite last_cons. by destruct (last (l :: outer)). Qed.
Lemma own_app a b : own (a ++ b) = own a ++ own b.
Proof. unfold own. by rewrite filter_app, fmap_app. Qed.

(** The thread gets the lock. *)
Lemma inv_begin s t bs : inv s → console_lock s = None → inv (set_thread t (Some (Writing bs [])) (begin t bs (set_lock (Some t) s))).
Proof.
  intros [Hu Ho Hd Hm] Hl. split; [done| |done|].
  - intros t' bs' outer'. rewrite console_threads_set. case_decide; [by subst|]. intros Ht. apply Ho in Ht. congruence.
  - unfold unmixed in *. rewrite Hl in Hm. destruct Hm as (segs & Hout & Hf). cbn [console_lock set_thread begin set_lock].
    exists (order s), (t, bs), segs, [], bs, []. split; [done|]. split; [done|]. split; [cbn; by rewrite app_nil_r|]. split; [done|]. split; [by rewrite console_threads_set, decide_True|]. split; [by apply Hd|]. by split.
Qed.
(** A thread that does not have it waits. *)
Lemma console_wait s t bs : inv s → console_lock s ≠ Some t → inv (set_thread t (Some (Waiting bs)) s).
Proof.
  intros [Hu Ho Hd Hm] Hl. split; [done| |done|].
  - intros t' bs' outer'. rewrite console_threads_set. case_decide; [done|]. apply Ho.
  - unfold unmixed in *. cbn [console_lock set_thread] in *. destruct (console_lock s) as [h|]; [|done]. destruct Hm as (ms & m & segs & seg & b & o & H1 & H2 & H3 & H4 & H5 & H6 & H7).
    exists ms, m, segs, seg, b, o. split; [done|]. split; [done|]. split; [done|]. split; [done|]. split; [rewrite console_threads_set, decide_False by congruence; done|done].
Qed.
(** The thread that has it goes on: other bytes, another depth, the same message. *)
Lemma inv_write s t bs outer bs' outer' seg' cnt : inv s → threads s !! t = Some (Writing bs outer) →
  (∀ m seg, m.1 = t → console_lock_depth s = Z.of_nat (length outer) → seg_ok (left bs outer) m seg → seg_ok (left bs' outer') m (seg ++ seg')) →
  inv (set_thread t (Some (Writing bs' outer')) (Console (console_lock s) (use_console_lock s) (Z.of_nat (length outer')) cnt (threads s) (out s ++ seg') (order s))).
Proof.
  intros [Hu Ho Hd Hm] Ht Hseg. pose proof (Ho _ _ _ Ht) as Hl. split; [done| |cbn; congruence|].
  - intros t' b o. rewrite console_threads_set. case_decide; [by subst|]. apply Ho.
  - unfold unmixed in *. cbn [console_lock set_thread] in *. rewrite Hl in Hm |- *. destruct Hm as (ms & m & segs & seg & b & o & H1 & H2 & H3 & H4 & H5 & H6 & H7).
    rewrite Ht in H5. injection H5 as <- <-. exists ms, m, segs, (seg ++ seg'), bs', outer'. split; [done|]. split; [done|]. split; [cbn; by rewrite H3, <- app_assoc|]. split; [done|].
    split; [by rewrite console_threads_set, decide_True|]. split; [done|]. by apply Hseg.
Qed.
(** The message is complete. *)
Lemma inv_end s t : inv s → threads s !! t = Some (Writing [] []) → inv (set_thread t None (set_lock None s)).
Proof.
  intros [Hu Ho Hd Hm] Ht. pose proof (Ho _ _ _ Ht) as Hl. unfold unmixed in Hm. rewrite Hl in Hm. destruct Hm as (ms & m & segs & seg & b & o & H1 & H2 & H3 & H4 & H5 & H6 & H7).
  rewrite Ht in H5. injection H5 as <- <-. split; [done| |done|].
  - intros t' b o. rewrite console_threads_set. case_decide; [done|]. intros Ht'. apply Ho in Ht'. cbn in Ht'. congruence.
  - exists (segs ++ [seg]). cbn. split; [by rewrite concat_app, H3; cbn; rewrite app_nil_r|]. rewrite H1. apply Forall2_app; [done|]. by constructor.
Qed.

Lemma console_acquire s t : inv s →
  acquire_console (Some t) s = if decide (console_lock s = Some t) then Ok (true, set_depth (console_lock_depth s + 1) s)
    else match console_lock s with None => Ok (true, set_lock (Some t) s) | Some _ => Ok (false, s) end.
Proof. intros [Hu _ _ _]. unfold acquire_console. rewrite (bind_Ok get _ _ _ _ eq_refl), Hu. case_decide; [done|]. by destruct (console_lock s). Qed.

Lemma start_run s t bs : inv s → console_lock s ≠ Some t →
  ∃ s', (ok ← acquire_console (Some t); if (ok : bool) then modify (begin t bs);; modify (set_thread t (Some (Writing bs []))) else modify (set_thread t (Some (Waiting bs)))) s = Ok ((), s') ∧ inv s'.
Proof.
  intros Hi Hl. pose proof (console_acquire s t Hi) as E. rewrite decide_False in E by done. destruct (console_lock s) as [h|] eqn:Eh.
  - rewrite (bind_Ok _ _ _ _ _ E). eexists. split; [reflexivity|]. apply console_wait; [done|congruence].
  - rewrite (bind_Ok _ _ _ _ _ E). eexists. split; [reflexivity|]. by apply inv_begin.
Qed.
Lemma writing_depth s t bs outer : inv s → threads s !! t = Some (Writing bs outer) → console_lock_depth s = Z.of_nat (length outer).
Proof.
  intros Hi Ht. pose proof (i_one _ Hi _ _ _ Ht) as Hl. pose proof (i_unmixed _ Hi) as Hm. unfold unmixed in Hm. rewrite Hl in Hm. destruct Hm as (ms & m & segs & seg & b & o & _ & _ & _ & _ & H5 & H6 & _).
  rewrite Ht in H5. by injection H5 as <- <-.
Qed.
Lemma not_holder s t : inv s → (∀ bs outer, threads s !! t ≠ Some (Writing bs outer)) → console_lock s ≠ Some t.
Proof. intros Hi Hn Hl. pose proof (i_unmixed _ Hi) as Hm. unfold unmixed in Hm. rewrite Hl in Hm. destruct Hm as (? & ? & ? & ? & b & o & _ & _ & _ & _ & H5 & _). by eapply Hn. Qed.

Lemma call_run s t bs : inv s → ∃ s', call t bs s = Ok ((), s') ∧ inv s'.
Proof.
  intros Hi. unfold call. rewrite (bind_Ok get _ _ _ _ eq_refl). destruct (threads s !! t) as [[w|cur outer]|] eqn:Et; [by exists s| |].
  - pose proof (i_one _ Hi _ _ _ Et) as Hl. pose proof (console_acquire s t Hi) as E. rewrite decide_True in E by done. rewrite (bind_Ok _ _ _ _ _ E). eexists. split; [reflexivity|].
    pose proof (inv_write s t cur outer bs (cur :: outer) [] (write_cnt s) Hi Et) as H. rewrite app_nil_r in H. unfold set_depth. rewrite (writing_depth s t cur outer Hi Et).
    replace (Z.of_nat (length outer) + 1) with (Z.of_nat (length (cur :: outer))) by (cbn; lia). apply H. intros m seg _ _ Hs. rewrite app_nil_r. by rewrite left_nested.
  - apply start_run; [done|]. apply not_holder; [done|]. congruence.
Qed.
Lemma go_on_run s t : inv s → ∃ s', go_on t s = Ok ((), s') ∧ inv s'.
Proof.
  intros Hi. unfold go_on. rewrite (bind_Ok get _ _ _ _ eq_refl). destruct (threads s !! t) as [[w|[|c bs] outer]|] eqn:Et; [| | |by exists s].
  - assert (console_lock s ≠ Some t) as Hl by (apply not_holder; [done|congruence]). pose proof (console_acquire s t Hi) as E. rewrite decide_False in E by done. destruct (console_lock s) as [h|] eqn:Eh.
    + rewrite (bind_Ok _ _ _ _ _ E). by exists s.
    + rewrite (bind_Ok _ _ _ _ _ E). eexists. split; [reflexivity|]. by apply inv_begin.
  - pose proof (i_one _ Hi _ _ _ Et) as Hl. pose proof (writing_depth _ _ _ _ Hi Et) as Hd. unfold release_console. destruct outer as [|cur outer].
    + rewrite (bind_Ok _ _ _ () (set_lock None s)).
      2: { rewrite (bind_Ok get _ _ _ _ eq_refl), (i_use _ Hi), Hd. rewrite decide_False by (cbn; lia). rewrite bool_decide_eq_true_2 by done. reflexivity. }
      eexists. split; [reflexivity|]. by apply inv_end.
    + rewrite (bind_Ok _ _ _ () (set_depth (Z.of_nat (length outer)) s)).
      2: { rewrite (bind_Ok get _ _ _ _ eq_refl), (i_use _ Hi), Hd. rewrite decide_True by (cbn; lia). unfold put. do 3 f_equal. cbn. lia. }
      eexists. split; [reflexivity|]. pose proof (inv_write s t [] (cur :: outer) cur outer [] (write_cnt s) Hi Et) as H. rewrite app_nil_r in H. apply H. intros m seg _ _ Hs. rewrite app_nil_r. by rewrite left_nested in Hs.
  - pose proof (i_one _ Hi _ _ _ Et) as Hl. pose proof (writing_depth _ _ _ _ Hi Et) as Hd. unfold putchar_have_lock.
    assert (console_locked_by_current_thread (Some t) s = Ok (true, s)) as E by (unfold console_locked_by_current_thread, gets; rewrite Hl, bool_decide_eq_true_2 by done; by rewrite orb_true_r).
    rewrite (bind_Ok _ _ _ () (Console (console_lock s) (use_console_lock s) (console_lock_depth s) (i64 (write_cnt s + 1)) (threads s) (out s ++ [(t, console_lock_depth s, u8 c)]) (order s)))
      by (rewrite (bind_Ok _ _ _ _ _ E); reflexivity).
    eexists. split; [reflexivity|]. rewrite Hd. apply (inv_write s t (c :: bs) outer); [done|done|]. intros m seg Hm _ [H1 H2]. split.
    + rewrite own_app, <- H1, <- app_assoc. f_equal. destruct outer as [|cur outer]; [done|]. rewrite !left_nested. unfold own. by rewrite filter_cons_False by (cbn; lia).
    + apply Forall_app. split; [done|]. by constructor.
Qed.
Lemma run_inv es s : inv s → ∃ s', run es s = Ok ((), s') ∧ inv s'.
Proof.
  revert s. induction es as [|e es IH]; intros s Hi; [by exists s|]. cbn [run]. assert (∃ s', step e s = Ok ((), s') ∧ inv s') as (s1 & E & Hi1) by (destruct e; [by apply call_run|by apply go_on_run]).
  rewrite (bind_Ok _ _ _ _ _ E). by apply IH.
Qed.

(** C31: The messages of different threads do not mix on the console, however the
    threads are interleaved: what is written is one message after the other in
    the order in which their threads got the lock, the last one perhaps not yet
    complete; between the first and the last byte of a message there is only
    what the same thread was made to print in nested calls.  No assertion
    fails, and the depth counts the nested calls. *)
Theorem console_unmixed es : ∃ s, (console_init;; run es) boot = Ok ((), s) ∧ unmixed s.
Proof.
  assert (inv (set_use true boot)) as Hi. { split; [done|by intros ? ? ?|done|]. exists []. done. }
  destruct (run_inv es _ Hi) as (s & E & Hs). exists s. split; [|apply Hs]. by rewrite (bind_Ok console_init _ _ () (set_use true boot)) by reflexivity.
Qed.
End Console.
