(* ===== verification/Delay.v ===== *)
(** * Short delays, the interval timer and the speaker (devices/timer.c, pit.c, speaker.c)

    The calibration of the delay loop, for a processor on which [limit] rounds
    of a waiting loop fit between two timer interrupts; the number of rounds that a delay takes; the
    counts that the interval timer is given; and the switch of the speaker. *)

From S2P Require Import Prelude Timer.
Import Timer.

Module Delay.

(** ** Calibration (timer.c) *)

(** [loops_per_tick], the tick counter, and the rounds since the last tick. *)
Record clock := Clock { loops_per_tick : Z; ticks : Z; elapsed : Z }.
Abbreviation L := (M clock).
Definition set_loops (l : Z) : L unit := modify (λ s, Clock l (ticks s) (elapsed s)).

Section Calibrate.
Context (limit : Z).

(** One round of a loop that only waits; in the last round of a tick the timer
    interrupts, and its handler counts the tick. *)
Definition barrier : L unit := modify (λ s,
  if decide (elapsed s < limit) then Clock (loops_per_tick s) (ticks s) (elapsed s + 1)
  else Clock (loops_per_tick s) (i64 (ticks s + 1)) 0).
Fixpoint wait_loop (fuel : nat) (start : Z) : L unit :=
  s ← get; if decide (ticks s = start) then match fuel with O => fail NoFuel | S fuel => barrier;; wait_loop fuel start end else mret ().
Fixpoint wait_rounds (n : nat) : L unit := match n with O => mret () | S n => barrier;; wait_rounds n end.
Definition busy_wait (loops : Z) : L unit := wait_rounds (Z.to_nat loops).
Definition too_many_loops (loops : Z) : L bool :=
  start ← gets ticks; wait_loop (Z.to_nat (limit + 1)) start;;
  start ← gets ticks; busy_wait loops;;
  now ← gets ticks; mret (negb (bool_decide (start = now))).

Fixpoint double_loop (fuel : nat) : L unit :=
  match fuel with
  | O => fail NoFuel
  | S fuel =>
      l ← gets loops_per_tick; b ← too_many_loops (u32 (Z.shiftl l 1));
      if (b : bool) then mret () else set_loops (u32 (Z.shiftl l 1));; l ← gets loops_per_tick; ASSERT (negb (bool_decide (l = 0)));; double_loop fuel
  end.
Fixpoint refine_loop (fuel : nat) (test_bit last : Z) : L unit :=
  match fuel with
  | O => fail NoFuel
  | S fuel =>
      if decide (test_bit = last) then mret () else
      l ← gets loops_per_tick; b ← too_many_loops (Z.lor l test_bit);
      (if (b : bool) then mret () else set_loops (Z.lor l test_bit));; refine_loop fuel (Z.shiftr test_bit 1) last
  end.
(** With interrupts on. *)
Definition timer_calibrate : L unit :=
  set_loops (Z.shiftl 1 10);; double_loop 32;; high_bit ← gets loops_per_tick; refine_loop 32 (Z.shiftr high_bit 1) (Z.shiftr high_bit 10).
End Calibrate.

(** The rounds of [busy_wait]; the arithmetic is in 64 bits. *)
Definition int64 {S} (z : Z) : M S Z := if decide (in_s 64 z) then mret z else fail Undef.
Definition real_time_delay (loops_per_tick num denom : Z) : M unit Z :=
  ASSERT (bool_decide (Z.rem denom 1000 = 0));;
  x ← int64 (loops_per_tick * num); y ← int64 (Z.quot x 1000 * TIMER_FREQ); mret (Z.quot y (Z.quot denom 1000)).
Definition timer_mdelay (loops_per_tick ms : Z) : M unit Z := real_time_delay loops_per_tick ms 1000.
Definition timer_udelay (loops_per_tick us : Z) : M unit Z := real_time_delay loops_per_tick us (1000 * 1000).
Definition timer_ndelay (loops_per_tick ns : Z) : M unit Z := real_time_delay loops_per_tick ns (1000 * 1000 * 1000).

(** ** The interval timer (pit.c) and the speaker (speaker.c) *)

Definition PIT_PORT_CONTROL : Z := 0x43.
Definition PIT_PORT_COUNTER (channel : Z) : Z := 0x40 + channel.
Definition PIT_HZ : Z := 1193180.
Definition SPEAKER_GATE_ENABLE : Z := 0x03.

(** What was written to the ports of the timer, and the register of the speaker. *)
Record ports := Ports { written : list (Z * Z); gate : Z }.
Abbreviation P := (M ports).
Definition outb (port v : Z) : P unit := modify (λ s, Ports (written s ++ [(port, u8 v)]) (gate s)).
Definition pit_count (frequency : Z) : Z :=
  if decide (frequency < 19) then 0 else if decide (PIT_HZ < frequency) then 2 else u16 (Z.quot (PIT_HZ + Z.quot frequency 2) frequency).
Definition pit_configure_channel (channel mode frequency : Z) : P unit :=
  ASSERT (bool_decide (channel = 0 ∨ channel = 2));; ASSERT (bool_decide (mode = 2 ∨ mode = 3));;
  let count := pit_count frequency in
  outb PIT_PORT_CONTROL (Z.lor (Z.lor (Z.shiftl channel 6) 0x30) (Z.shiftl mode 1));;
  outb (PIT_PORT_COUNTER channel) count;; outb (PIT_PORT_COUNTER channel) (Z.shiftr count 8).
Definition speaker_off : P unit := modify (λ s, Ports (written s) (u8 (Z.land (gate s) (Z.lnot SPEAKER_GATE_ENABLE)))).
Definition speaker_on (frequency : Z) : P unit :=
  if decide (20 ≤ frequency ≤ 20000) then pit_configure_channel 2 3 frequency;; modify (λ s, Ports (written s) (u8 (Z.lor (gate s) SPEAKER_GATE_ENABLE))) else speaker_off.
(** Without the 250 ms in between. *)
Definition speaker_beep (intr_on : bool) : P unit := if intr_on then speaker_on 440;; speaker_off else mret ().

(** ** Theorems *)

Lemma lor_bit l i : 0 ≤ i → l mod 2 ^ (i + 1) = 0 → Z.lor l (2 ^ i) = l + 2 ^ i.
Proof.
  intros Hi Hl. symmetry. apply Z.add_nocarry_lor, Z.bits_inj'. intros j Hj. rewrite Z.land_spec, Z.bits_0. destruct (decide (j = i)) as [->|Hne].
  - rewrite <- (Z.mod_pow2_bits_low l (i + 1) i) by lia. by rewrite Hl, Z.bits_0.
  - rewrite Z.pow2_bits_false by lia. apply andb_false_r.
Qed.
(** *** The clock *)

Record running (limit : Z) (s : clock) : Prop := { rn_ticks : in_s 64 (ticks s); rn_elapsed : 0 ≤ elapsed s ≤ limit }.
Definition after (limit n : Z) (s : clock) : clock :=
  Clock (loops_per_tick s) (i64 (ticks s + (elapsed s + n) / (limit + 1))) ((elapsed s + n) mod (limit + 1)).
Lemma after_running limit n s : 0 ≤ limit → running limit (after limit n s).
Proof. intros Hl. split; cbn; [apply wraps_range; lia|]. pose proof (Z.mod_pos_bound (elapsed s + n) (limit + 1)). lia. Qed.
Lemma after_0 limit s : running limit s → after limit 0 s = s.
Proof.
  intros [Ht He]. unfold after. rewrite Z.add_0_r, Z.div_small, Z.mod_small by lia. rewrite Z.add_0_r, wraps_id by done. by destruct s.
Qed.
Lemma after_step limit n s : 0 ≤ limit → 0 ≤ n → running limit s → barrier limit (after limit n s) = Ok ((), after limit (n + 1) s).
Proof.
  intros Hl Hn [Ht He]. unfold barrier, modify, after; cbn. pose proof (Z.div_mod (elapsed s + n) (limit + 1) ltac:(lia)). pose proof (Z.mod_pos_bound (elapsed s + n) (limit + 1) ltac:(lia)).
  set (q := (elapsed s + n) / (limit + 1)) in *. set (r := (elapsed s + n) mod (limit + 1)) in *. do 2 f_equal. case_decide as Hr.
  - assert ((elapsed s + (n + 1)) / (limit + 1) = q ∧ (elapsed s + (n + 1)) mod (limit + 1) = r + 1) as [-> ->]; [|done].
    split; [symmetry; apply (Z.div_unique _ _ _ (r + 1)); lia|symmetry; apply (Z.mod_unique _ _ q); lia].
  - assert ((elapsed s + (n + 1)) / (limit + 1) = q + 1 ∧ (elapsed s + (n + 1)) mod (limit + 1) = 0) as [-> ->].
    { split; [symmetry; apply (Z.div_unique _ _ _ 0); lia|symmetry; apply (Z.mod_unique _ _ (q + 1)); lia]. }
    f_equal. unfold wraps. rewrite Z.add_assoc. set (x := ticks s + q). replace ((x + 2 ^ (64 - 1)) mod 2 ^ 64 - 2 ^ (64 - 1) + 1 + 2 ^ (64 - 1)) with ((x + 2 ^ (64 - 1)) mod 2 ^ 64 + 1) by lia.
    rewrite Zplus_mod_idemp_l. do 2 f_equal. lia.
Qed.
Lemma rounds_run limit k n s : 0 ≤ limit → 0 ≤ n → running limit s → wait_rounds limit k (after limit n s) = Ok ((), after limit (n + Z.of_nat k) s).
Proof.
  intros Hl Hn Hs. revert n Hn. induction k as [|k IH]; intros n Hn; cbn [wait_rounds]; [by replace (n + Z.of_nat 0) with n by lia|].
  rewrite (bind_Ok _ _ _ _ _ (after_step limit n s Hl Hn Hs)), IH by lia. do 3 f_equal. lia.
Qed.
(** The tick counter changes when a tick has passed. *)
Lemma ticks_differ t j : in_s 64 t → 0 ≤ j < 2 ^ 64 → i64 (t + j) = t ↔ j = 0.
Proof.
  intros Ht Hj. split; [|intros ->; rewrite Z.add_0_r; by apply wraps_id]. intros E.
  pose proof (wraps_mod 64 (t + j) ltac:(lia)) as H. rewrite E in H. pose proof (Z.div_mod (t + j) (2 ^ 64) ltac:(lia)). pose proof (Z.div_mod t (2 ^ 64) ltac:(lia)).
  assert (j = 2 ^ 64 * ((t + j) / 2 ^ 64 - t / 2 ^ 64)) as Ej by lia. set (q := (t + j) / 2 ^ 64 - t / 2 ^ 64) in *. nia.
Qed.
Lemma after_same limit n s : 0 ≤ limit → 0 ≤ n < 2 ^ 63 → running limit s → elapsed s < 2 ^ 63 → ticks (after limit n s) = ticks s ↔ elapsed s + n ≤ limit.
Proof.
  intros Hl Hn [Ht He] Hb. cbn. assert (0 ≤ (elapsed s + n) / (limit + 1)) by (apply Z.div_pos; lia).
  assert ((elapsed s + n) / (limit + 1) ≤ elapsed s + n) by (apply Z.div_le_upper_bound; nia). rewrite ticks_differ by (done || lia).
  rewrite Z.div_small_iff by lia. lia.
Qed.
Lemma wait_loop_run limit fuel n s : 0 ≤ limit < 2 ^ 31 → running limit s → 0 ≤ n → elapsed s + n ≤ limit + 1 → limit + 1 - elapsed s - n ≤ Z.of_nat fuel →
  wait_loop limit fuel (ticks s) (after limit n s) = Ok ((), after limit (limit + 1 - elapsed s) s).
Proof.
  intros Hl Hs. revert n. induction fuel as [|fuel IH]; intros n Hn Hle Hf; cbn [wait_loop]; rewrite (bind_Ok get _ _ _ _ eq_refl); pose proof (rn_elapsed _ _ Hs);
    pose proof (after_same limit n s ltac:(lia) ltac:(lia) Hs ltac:(lia)) as Hsame; case_decide as Ht; try (rewrite Hsame in Ht; assert (n = limit + 1 - elapsed s) as -> by lia; done).
  - apply Hsame in Ht. lia.
  - apply Hsame in Ht. rewrite (bind_Ok _ _ _ _ _ (after_step limit n s ltac:(lia) Hn Hs)). apply IH; lia.
Qed.
(** [loops] rounds take more than a tick. *)
Lemma too_many_run limit loops s : 0 ≤ limit < 2 ^ 31 → 0 ≤ loops < 2 ^ 32 → running limit s →
  ∃ s', too_many_loops limit loops s = Ok (bool_decide (limit < loops), s') ∧ running limit s' ∧ loops_per_tick s' = loops_per_tick s.
Proof.
  intros Hl Hn Hs. unfold too_many_loops. rewrite (bind_Ok (gets ticks) _ _ _ _ eq_refl). pose proof (rn_elapsed _ _ Hs).
  pose proof (wait_loop_run limit (Z.to_nat (limit + 1)) 0 s Hl Hs ltac:(lia) ltac:(lia) ltac:(lia)) as Hw. rewrite (after_0 limit s Hs) in Hw. rewrite (bind_Ok _ _ _ _ _ Hw), (bind_Ok (gets ticks) _ _ _ _ eq_refl).
  set (s1 := after limit (limit + 1 - elapsed s) s). assert (running limit s1) as Hs1 by (apply after_running; lia).
  assert (elapsed s1 = 0) as He1 by (cbn; replace (elapsed s + (limit + 1 - elapsed s)) with (limit + 1) by lia; apply Z.mod_same; lia).
  pose proof (rounds_run limit (Z.to_nat loops) 0 s1 ltac:(lia) ltac:(lia) Hs1) as Hr. rewrite (after_0 limit s1 Hs1) in Hr. replace (0 + Z.of_nat (Z.to_nat loops)) with loops in Hr by lia. unfold busy_wait. rewrite (bind_Ok _ _ _ _ _ Hr), (bind_Ok (gets ticks) _ _ _ _ eq_refl).
  exists (after limit loops s1). split; [|split; [apply after_running; lia|done]]. unfold mret, M_ret. do 2 f_equal.
  pose proof (after_same limit loops s1 ltac:(lia) ltac:(lia) Hs1 ltac:(lia)) as Hsame. rewrite He1 in Hsame.
  destruct (decide (limit < loops)) as [Hb|Hb]; [rewrite (bool_decide_true _ Hb), bool_decide_false; [done|intros E; symmetry in E; apply Hsame in E; lia]|].
  rewrite (bool_decide_false _ Hb), bool_decide_true; [done|]. symmetry. apply Hsame. lia.
Qed.

(** *** The calibration *)

Lemma double_run limit fuel k s : 10 ≤ k → 31 - k ≤ Z.of_nat fuel → 2 ^ k ≤ limit < 2 ^ 31 → running limit s → loops_per_tick s = 2 ^ k →
  ∃ j s', k ≤ j ≤ 30 ∧ double_loop limit fuel s = Ok ((), s') ∧ running limit s' ∧ loops_per_tick s' = 2 ^ j ∧ 2 ^ j ≤ limit < 2 ^ (j + 1).
Proof.
  revert k s. induction fuel as [|fuel IH]; intros k s Hk Hf Hl Hs Hls; assert (k < 31) as Hk31 by (apply (Z.pow_lt_mono_r_iff 2); lia); [lia|].
  cbn [double_loop]. rewrite (bind_Ok (gets loops_per_tick) _ _ _ _ eq_refl), Hls. assert (0 < 2 ^ k) by (apply Z.pow_pos_nonneg; lia).
  assert (2 ^ (k + 1) < 2 ^ 32) by (apply Z.pow_lt_mono_r; lia). assert (0 < 2 ^ (k + 1)) by (apply Z.pow_pos_nonneg; lia).
  assert (u32 (Z.shiftl (2 ^ k) 1) = 2 ^ (k + 1)) as -> by (rewrite Z.shiftl_mul_pow2, <- Z.pow_add_r by lia; apply wrapu_id; split; lia).
  destruct (too_many_run limit (2 ^ (k + 1)) s) as (s1 & E1 & Hs1 & Hl1); [lia|lia|done|]. rewrite (bind_Ok _ _ _ _ _ E1).
  destruct (bool_decide_reflect (limit < 2 ^ (k + 1))) as [Hb|Hb]; [exists k, s1; split; [lia|]; split; [done|]; split; [done|]; split; [congruence|lia]|].
  rewrite (bind_Ok (set_loops _) _ _ _ _ eq_refl), (bind_Ok (gets loops_per_tick) _ _ _ _ eq_refl). cbn [loops_per_tick]. rewrite bool_decide_eq_false_2 by lia.
  erewrite (bind_Ok (ASSERT (negb false))) by reflexivity. destruct (IH (k + 1) (Clock (2 ^ (k + 1)) (ticks s1) (elapsed s1))) as (j & s' & Hj & H'); [lia|lia|lia|by destruct Hs1|done|].
  exists j, s'. split; [lia|done].
Qed.
Lemma refine_run limit fuel k i l s : 0 ≤ k ≤ i → i < 32 → i - k < Z.of_nat fuel → 0 ≤ limit < 2 ^ 31 → l mod 2 ^ (i + 1) = 0 → 0 ≤ l ≤ limit → limit < l + 2 ^ (i + 1) →
  running limit s → loops_per_tick s = l →
  ∃ s', refine_loop limit fuel (2 ^ i) (2 ^ k) s = Ok ((), s') ∧ l ≤ loops_per_tick s' ≤ limit ∧ limit < loops_per_tick s' + 2 ^ (k + 1).
Proof.
  revert i l s. induction fuel as [|fuel IH]; intros i l s Hk Hi Hf Hlim Hm Hl Hl' Hs Hls; [lia|]. cbn [refine_loop]. destruct (decide (2 ^ i = 2 ^ k)) as [Ee|Ee].
  - apply Z.pow_inj_r in Ee; [|lia..]. subst i. exists s. split; [done|lia].
  - assert (k < i) as Hki by (destruct (decide (k = i)); [subst; done|lia]). rewrite (bind_Ok (gets loops_per_tick) _ _ _ _ eq_refl), Hls. rewrite lor_bit by (done || lia).
    replace (Z.shiftr (2 ^ i) 1) with (2 ^ (i - 1)) by (rewrite Z.shiftr_div_pow2, Z.pow_sub_r by lia; done).
    assert (2 ^ (i + 1) = 2 * 2 ^ i) as E2 by (rewrite Z.pow_add_r by lia; lia). assert (0 < 2 ^ i < 2 ^ 32) as Hp by (split; [apply Z.pow_pos_nonneg|apply Z.pow_lt_mono_r]; lia).
    apply Z.mod_divide in Hm as [c Hc]; [|lia]. assert (l + 2 ^ i < 2 ^ 32) as Hlt.
    { destruct (decide (i ≤ 30)) as [H30|H30]; [assert (2 ^ i ≤ 2 ^ 30) by (apply Z.pow_le_mono_r; lia); lia|]. assert (i = 31) as -> by lia. assert (l = 0) as -> by nia. lia. }
    destruct (too_many_run limit (l + 2 ^ i) s) as (s1 & E1 & Hs1 & Hl1); [lia|lia|done|]. rewrite (bind_Ok _ _ _ _ _ E1).
    destruct (bool_decide_reflect (limit < l + 2 ^ i)) as [Hb|Hb].
    + rewrite (bind_Ok (mret ()) _ _ () _ eq_refl). destruct (IH (i - 1) l s1) as (s' & E & Hr); [lia|lia|lia|lia| |lia|replace (i - 1 + 1) with i by lia; lia|done|congruence|].
      { replace (i - 1 + 1) with i by lia. apply Z.mod_divide; [lia|]. exists (2 * c). rewrite Hc, E2. lia. }
      exists s'. split; [done|lia].
    + rewrite (bind_Ok (set_loops _) _ _ _ _ eq_refl).
      destruct (IH (i - 1) (l + 2 ^ i) (Clock (l + 2 ^ i) (ticks s1) (elapsed s1))) as (s' & E & Hr); [lia|lia|lia|lia| |lia|replace (i - 1 + 1) with i by lia; lia|by destruct Hs1|done|].
      { replace (i - 1 + 1) with i by lia. apply Z.mod_divide; [lia|]. exists (2 * c + 1). rewrite Hc, E2. lia. }
      exists s'. split; [done|lia].
Qed.

(** C38: On every processor on which the number of rounds of a waiting loop
    between two timer interrupts is at least 1024 and less than 2^31,
    [timer_calibrate] ends, and [loops_per_tick] is that number or less, by
    less than one part in 512: the loop refines nine bits, one more than its
    comment says. *)
Theorem timer_calibrate_finds limit s : 1024 ≤ limit < 2 ^ 31 → running limit s →
  ∃ s', timer_calibrate limit s = Ok ((), s') ∧ loops_per_tick s' ≤ limit ∧ 512 * (limit - loops_per_tick s') < loops_per_tick s'.
Proof.
  intros Hl Hs. unfold timer_calibrate. rewrite (bind_Ok (set_loops _) _ _ _ _ eq_refl). change (Z.shiftl 1 10) with (2 ^ 10).
  destruct (double_run limit 32 10 (Clock (2 ^ 10) (ticks s) (elapsed s))) as (j & s1 & Hj & E & Hs1 & Hl1 & Hb); [lia|lia|lia|by destruct Hs|done|].
  rewrite (bind_Ok _ _ _ _ _ E), (bind_Ok (gets loops_per_tick) _ _ _ _ eq_refl), Hl1.
  replace (Z.shiftr (2 ^ j) 1) with (2 ^ (j - 1)) by (rewrite Z.shiftr_div_pow2, Z.pow_sub_r by lia; done). replace (Z.shiftr (2 ^ j) 10) with (2 ^ (j - 10)) by (rewrite Z.shiftr_div_pow2, Z.pow_sub_r by lia; done).
  assert (2 ^ (j + 1) = 2 * 2 ^ j) as E1 by (rewrite Z.pow_add_r by lia; lia). assert (0 < 2 ^ j) by (apply Z.pow_pos_nonneg; lia).
  destruct (refine_run limit 32 (j - 10) (j - 1) (2 ^ j) s1) as (s' & Er & Hr); [lia|lia|lia|lia|replace (j - 1 + 1) with j by lia; apply Z.mod_same; lia|lia|replace (j - 1 + 1) with j by lia; lia|done|done|].
  exists s'. split; [done|]. split; [lia|]. replace (j - 10 + 1) with (j - 9) in Hr by lia. assert (2 ^ j = 512 * 2 ^ (j - 9)) by (change 512 with (2 ^ 9); rewrite <- Z.pow_add_r by lia; f_equal; lia). lia.
Qed.
Lemma timer_calibrate_finds_witness : ∃ s', timer_calibrate 3000 (Clock 0 0 0) = Ok ((), s') ∧ 2992 ≤ loops_per_tick s' ≤ 3000.
Proof.
  destruct (timer_calibrate_finds 3000 (Clock 0 0 0)) as (s' & E & H1 & H2); [lia|by split|]. exists s'. split; [exact E|lia].
Defined.

(** The rounds of a delay: as many as the calibration says for the time, or less by the rounding. *)
Lemma delay_rounds lpt num d : 0 ≤ lpt → 0 ≤ num → 0 < d → lpt * num * 100 < 2 ^ 63 →
  ∃ r, real_time_delay lpt num (1000 * d) () = Ok (r, ()) ∧ r * (1000 * d) ≤ lpt * num * TIMER_FREQ < (r + 1) * (1000 * d) + 1000 * TIMER_FREQ.
Proof.
  intros Hl Hn Hd Hb. unfold real_time_delay. assert (Z.quot (1000 * d) 1000 = d) as -> by (rewrite Z.mul_comm; apply Z.quot_mul; lia). rewrite bool_decide_eq_true_2 by (rewrite Z.mul_comm; apply Z.rem_mul; lia). rewrite (bind_Ok _ _ _ () () eq_refl). unfold int64, TIMER_FREQ.
  rewrite decide_True by (unfold in_s; nia). rewrite (bind_Ok _ _ _ (lpt * num) () eq_refl). rewrite (Z.quot_div_nonneg (lpt * num)) by nia.
  assert (0 ≤ lpt * num / 1000) by (apply Z.div_pos; nia). assert (1000 * (lpt * num / 1000) ≤ lpt * num) by (apply Z.mul_div_le; lia).
  rewrite decide_True by (unfold in_s; lia). rewrite (bind_Ok _ _ _ (lpt * num / 1000 * 100) () eq_refl). eexists. split; [reflexivity|].
  rewrite Z.quot_div_nonneg by lia.
  pose proof (Z.mul_div_le (lpt * num / 1000 * 100) d Hd). pose proof (Z.mul_succ_div_gt (lpt * num / 1000 * 100) d Hd). pose proof (Z.mul_succ_div_gt (lpt * num) 1000 ltac:(lia)). nia.
Qed.

(** What the timer divides its clock by: 0 stands for 65536. *)
Definition divisor (lo hi : Z) : Z := if decide (lo + 256 * hi = 0) then 65536 else lo + 256 * hi.
(** The two bytes are the count, and the period is as near to the frequency as a count can be. *)
Lemma pit_nearest channel mode f s : channel = 0 ∨ channel = 2 → mode = 2 ∨ mode = 3 → 19 ≤ f ≤ PIT_HZ →
  ∃ v lo hi, pit_configure_channel channel mode f s = Ok ((), Ports (written s ++ [(0x43, v); (0x40 + channel, lo); (0x40 + channel, hi)]) (gate s)) ∧
    divisor lo hi = (PIT_HZ + f / 2) / f ∧ 2 * Z.abs (PIT_HZ - f * divisor lo hi) ≤ f.
Proof.
  intros Hc Hm Hf. unfold pit_configure_channel. rewrite !bool_decide_eq_true_2 by done. rewrite (bind_Ok _ _ s () s eq_refl), (bind_Ok _ _ s () s eq_refl). unfold PIT_HZ in Hf.
  assert (pit_count f = (PIT_HZ + f / 2) / f) as Ec.
  { unfold pit_count. rewrite !decide_False by (unfold PIT_HZ; lia). assert (0 ≤ f / 2 ≤ f) by (Z.to_euclidean_division_equations; lia). rewrite (Z.quot_div_nonneg f) by lia.
    rewrite Z.quot_div_nonneg by (unfold PIT_HZ; lia). apply wrapu_id. unfold PIT_HZ. split; [apply Z.div_pos; lia|]. apply Z.div_lt_upper_bound; lia. }
  rewrite Ec. set (n := (PIT_HZ + f / 2) / f). assert (f * n ≤ PIT_HZ + f / 2 < f * n + f) as Hn.
  { pose proof (Z.mul_div_le (PIT_HZ + f / 2) f ltac:(lia)). pose proof (Z.mul_succ_div_gt (PIT_HZ + f / 2) f ltac:(lia)). unfold n. lia. }
  assert (0 < n < 2 ^ 16) as Hr by (unfold PIT_HZ in Hn; pose proof (Z.mul_div_le f 2 ltac:(lia)); pose proof (Z.mul_succ_div_gt f 2 ltac:(lia)); nia).
  assert (divisor (u8 n) (u8 (Z.shiftr n 8)) = n) as Hd.
  { unfold divisor. assert (u8 n + 256 * u8 (Z.shiftr n 8) = n) as -> by (unfold wrapu; rewrite Z.shiftr_div_pow2 by lia; Z.to_euclidean_division_equations; lia). rewrite decide_False by lia. done. }
  do 3 eexists. split; [|split; [exact Hd|]].
  - unfold outb, modify, mbind, M_bind. cbn. by rewrite <- !app_assoc.
  - rewrite Hd. pose proof (Z.mul_div_le f 2 ltac:(lia)). pose proof (Z.mul_succ_div_gt f 2 ltac:(lia)). lia.
Qed.
(** Frequencies above two thirds of the clock get the count 1, which the comment calls illegal in mode 2. *)
Lemma pit_count_one f : 795454 ≤ f ≤ PIT_HZ → pit_count f = 1.
Proof.
  intros Hf. unfold PIT_HZ in Hf. unfold pit_count. rewrite !decide_False by (unfold PIT_HZ; lia). assert (f / 2 * 2 ≤ f < f / 2 * 2 + 2) by (Z.to_euclidean_division_equations; lia).
  rewrite (Z.quot_div_nonneg f) by lia. rewrite Z.quot_div_nonneg by (unfold PIT_HZ; lia). assert ((PIT_HZ + f / 2) / f = 1) as -> by (unfold PIT_HZ; symmetry; apply (Z.div_unique _ _ _ (1193180 + f / 2 - f)); lia). done.
Qed.
(** A beep leaves the speaker off. *)
Lemma beep_off s : ∃ s', speaker_beep true s = Ok ((), s') ∧ Z.land (gate s') SPEAKER_GATE_ENABLE = 0.
Proof.
  unfold speaker_beep, speaker_on. rewrite decide_True by lia. destruct (pit_nearest 2 3 440 s) as (v & lo & hi & E & _); [auto|auto|unfold PIT_HZ; lia|].
  eexists. split.
  - erewrite bind_Ok; [|rewrite (bind_Ok _ _ _ _ _ E); reflexivity]. reflexivity.
  - cbn [gate]. unfold wrapu. rewrite <- Z.land_ones, <- !Z.land_assoc by lia. change (Z.land (Z.lnot SPEAKER_GATE_ENABLE) (Z.land (Z.ones 8) SPEAKER_GATE_ENABLE)) with 0. apply Z.land_0_r.
Qed.
End Delay.
