(* ===== verification/Fsutil.v ===== *)
(** * Archives on the scratch device (filesys/fsutil.c)

    [fsutil_append] and [fsutil_extract] copy files between the file system and
    a ustar archive on the scratch device.  What they need of lib/ustar.c is an
    interface, [Headers], with its laws; the functions of [Ustar] implement it
    ([FsutilSpec]).  The file system is a map from names to contents, which is
    what file.c and inode.c ([FileDir], [Inode]) give a caller; where they can
    fail is a parameter: whether a file can be created, for which there must be
    room and memory, whether it can be opened, and whether the bounce buffer of
    a transfer that is not a whole sector can be allocated.  Messages are left
    out. *)

From S2P Require Import Prelude.

Module Fsutil.

Definition BLOCK_SECTOR_SIZE : Z := 512.
Abbreviation name := (list Z).
Abbreviation sector := (list Z).

(** What [ustar_parse_header] says of a sector. *)
Inductive header := Bad | Eof | Directory | Regular (n : name) (size : Z).
(** [ustar_make_header] for a regular file, and [ustar_parse_header]. *)
Class Headers := { make_header : name → Z → option sector; parse_header : sector → header }.

(** The file system, the scratch device if there is one, and the static variables [sector] of the two functions. *)
Record state := State { files : gmap name (list Z); scratch : option (list sector); extract_sector : Z; append_sector : Z }.
Abbreviation F := (M state).
Definition set_files (f : gmap name (list Z)) (s : state) : state := State f (scratch s) (extract_sector s) (append_sector s).
Definition set_scratch (d : list sector) (s : state) : state := State (files s) (Some d) (extract_sector s) (append_sector s).
Definition set_extract (n : Z) (s : state) : state := State (files s) (scratch s) n (append_sector s).
Definition set_append (n : Z) (s : state) : state := State (files s) (scratch s) (extract_sector s) n.

(** [block_read] and [block_write], which panic past the end. *)
Definition device : F (list sector) := s ← get; lift (scratch s) Panic.
Definition block_read (n : Z) : F sector := d ← device; lift (d !! Z.to_nat n) Panic.
Definition block_write (n : Z) (x : sector) : F unit := d ← device; lift (d !! Z.to_nat n) Panic;; modify (set_scratch (<[Z.to_nat n := x]> d)).
Definition block_size : F Z := d ← device; mret (Z.of_nat (length d)).

Section Fsutil.
Context `{Headers} (creatable : gmap name (list Z) → name → Z → bool).
Context (opens : name → bool) (bounce : name → Z → bool).

Definition filesys_create (n : name) (size : Z) : F bool :=
  s ← get; if creatable (files s) n size then put (set_files (<[n := replicate (Z.to_nat size) 0]> (files s)) s);; mret true else mret false.
(** An open file is its name and the position.  [filesys_open] finds the file and allocates. *)
Definition filesys_open (n : name) : F bool := s ← get; mret (bool_decide (is_Some (files s !! n)) && opens n).
Definition file_length (n : name) : F Z := s ← get; c ← lift (files s !! n) Undef; mret (Z.of_nat (length c)).
(** What is transferred of [data], at most a sector from the start of one: without a bounce buffer a part of a sector is not. *)
Definition transferred (n : name) (pos : Z) (data : list Z) : list Z :=
  if decide (Z.of_nat (length data) < BLOCK_SECTOR_SIZE) then (if bounce n pos then data else []) else data.
Definition file_read (n : name) (pos size : Z) : F (list Z) :=
  s ← get; c ← lift (files s !! n) Undef; mret (transferred n pos (take (Z.to_nat size) (drop (Z.to_nat pos) c))).
(** A file does not grow. *)
Definition file_write (n : name) (pos : Z) (data : list Z) : F Z :=
  s ← get; c ← lift (files s !! n) Undef;
  let data := transferred n pos (take (length c - Z.to_nat pos) data) in
  put (set_files (<[n := take (Z.to_nat pos) c ++ data ++ drop (Z.to_nat pos + length data) c]> (files s)) s);; mret (Z.of_nat (length data)).

(** The copy loops, with [fuel] rounds left. *)
Fixpoint extract_copy (fuel : nat) (n : name) (pos size : Z) : F unit :=
  if decide (size ≤ 0) then mret () else
  match fuel with
  | O => fail NoFuel
  | S fuel =>
      let chunk_size := if decide (BLOCK_SECTOR_SIZE < size) then BLOCK_SECTOR_SIZE else size in
      s ← get; modify (set_extract (extract_sector s + 1));; data ← block_read (extract_sector s);
      k ← file_write n pos (take (Z.to_nat chunk_size) data);
      if decide (k ≠ chunk_size) then PANIC else extract_copy fuel n (pos + chunk_size) (size - chunk_size)
  end.
Fixpoint extract_loop (fuel : nat) : F unit :=
  match fuel with
  | O => fail NoFuel
  | S fuel =>
      s ← get; modify (set_extract (extract_sector s + 1));; x ← block_read (extract_sector s);
      match parse_header x with
      | Bad => PANIC
      | Eof => mret ()
      | Directory => extract_loop fuel
      | Regular n size =>
          ok ← filesys_create n size; if negb ok then PANIC else
          ok ← filesys_open n; if negb ok then PANIC else
          extract_copy (Z.to_nat size) n 0 size;; extract_loop fuel
      end
  end.
(** [mem] says whether the buffers can be allocated. *)
Definition fsutil_extract (mem : bool) : F unit :=
  if negb mem then PANIC else
  d ← device;
  extract_loop (S (length d));;
  block_write 0 (replicate 512 0);; block_write 1 (replicate 512 0).

Fixpoint append_copy (fuel : nat) (n : name) (pos size : Z) : F unit :=
  if decide (size ≤ 0) then mret () else
  match fuel with
  | O => fail NoFuel
  | S fuel =>
      let chunk_size := if decide (BLOCK_SECTOR_SIZE < size) then BLOCK_SECTOR_SIZE else size in
      s ← get; b ← block_size;
      if decide (b ≤ append_sector s) then PANIC else
      data ← file_read n pos chunk_size;
      if decide (Z.of_nat (length data) ≠ chunk_size) then PANIC else
      modify (set_append (append_sector s + 1));; block_write (append_sector s) (data ++ replicate (512 - length data) 0);;
      append_copy fuel n (pos + chunk_size) (size - chunk_size)
  end.
Definition fsutil_append (mem : bool) (n : name) : F unit :=
  if negb mem then PANIC else
  ok ← filesys_open n; if negb ok then PANIC else
  size ← file_length n;
  device;;
  h ← lift (make_header n size) Panic;
  s ← get; modify (set_append (append_sector s + 1));; block_write (append_sector s) h;;
  append_copy (Z.to_nat size) n 0 size;;
  s ← get;
  block_write (append_sector s) (replicate 512 0);; block_write (append_sector s + 1) (replicate 512 0).
End Fsutil.
End Fsutil.
