(* ===== verification/FsutilSpec.v ===== *)
(** * What is appended to an archive is extracted from it

    The laws of the interface [Headers], the round trip of files through an
    archive for whatever implements it, and the proof that the functions of
    lib/ustar.c do. *)

From Stdlib Require Import String.
From S2P Require Import Prelude CMem CString CStringSpec CStringEdit Stdio StdioSpec Ustar UstarSpec Fsutil.
Import Fsutil.

Module FsutilSpec.

(** [stored n] is the name under which a file is extracted. *)
Class HeaderLaws (H : Headers) := {
  stored : name → name;
  valid : name → Z → Prop;
  make_parses : ∀ n size, valid n size → ∃ x, make_header n size = Some x ∧ parse_header x = Regular (stored n) size;
  zeros_end : parse_header (replicate 512 0) = Eof
}.

(** ** Sectors *)

Definition pad (c : list Z) : sector := c ++ replicate (512 - length c) 0.
Fixpoint chunks (fuel : nat) (c : list Z) : list sector :=
  match fuel, c with S fuel, _ :: _ => pad (take 512 c) :: chunks fuel (drop 512 c) | _, _ => [] end.
Definition holds_at (d : list sector) (a : nat) (xs : list sector) : Prop := ∀ j x, xs !! j = Some x → d !! (a + j)%nat = Some x.
Definition before (a : nat) (d d' : list sector) : Prop := length d' = length d ∧ ∀ j, (j < a)%nat → d' !! j = d !! j.

Lemma holds_nil d a : holds_at d a [].
Proof. intros j x Hx. done. Qed.
Lemma holds_cons d a x xs : holds_at d a (x :: xs) ↔ d !! a = Some x ∧ holds_at d (S a) xs.
Proof.
  split.
  - intros H. split; [rewrite <- (Nat.add_0_r a); by apply (H 0%nat)|]. intros j y Hy. replace (S a + j)%nat with (a + S j)%nat by lia. by apply H.
  - intros [H0 H] [|j] y Hy; [injection Hy as <-; by rewrite Nat.add_0_r|]. replace (a + S j)%nat with (S a + j)%nat by lia. by apply H.
Qed.
Lemma holds_app d a xs ys : holds_at d a (xs ++ ys) ↔ holds_at d a xs ∧ holds_at d (a + length xs) ys.
Proof.
  revert a. induction xs as [|x xs IH]; intros a; [cbn; rewrite Nat.add_0_r; split; [intros H; split; [apply holds_nil|done]|tauto]|].
  cbn [app length]. rewrite !holds_cons, IH. replace (S a + length xs)%nat with (a + S (length xs))%nat by lia. tauto.
Qed.
Lemma holds_before a b d d' xs : holds_at d a xs → before b d d' → (a + length xs ≤ b)%nat → holds_at d' a xs.
Proof. intros H [_ Hb] Hl j x Hx. rewrite Hb; [by apply H|]. apply lookup_lt_Some in Hx. lia. Qed.
Lemma before_trans a b d d' d'' : (a ≤ b)%nat → before a d d' → before b d' d'' → before a d d''.
Proof. intros Hab [L1 H1] [L2 H2]. split; [congruence|]. intros j Hj. rewrite H2, H1 by lia. done. Qed.
Lemma before_insert a d x : before a d (<[a := x]> d).
Proof. split; [by rewrite length_insert|]. intros j Hj. by rewrite list_lookup_insert_ne by lia. Qed.

Lemma take_min (r : list Z) : take (Nat.min 512 (length r)) r = take 512 r.
Proof. destruct (decide (512 ≤ length r)%nat); [by rewrite Nat.min_l|]. rewrite Nat.min_r by lia. by rewrite !take_ge by lia. Qed.
Lemma drop_min (r : list Z) : drop (Nat.min 512 (length r)) r = drop 512 r.
Proof. destruct (decide (512 ≤ length r)%nat); [by rewrite Nat.min_l|]. rewrite Nat.min_r by lia. by rewrite !drop_ge by lia. Qed.

Section Roundtrip.
Context `{Laws : HeaderLaws} (creatable : gmap name (list Z) → name → Z → bool).
Context (opens : name → bool) (bounce : name → Z → bool) (Hopens : ∀ n, opens n = true) (Hbounce : ∀ n p, bounce n p = true).

Lemma transferred_all n p data : transferred bounce n p data = data.
Proof using Hbounce. unfold transferred. rewrite Hbounce. by case_decide. Qed.

Lemma write_run d n x s : scratch s = Some d → 0 ≤ n < Z.of_nat (length d) → block_write n x s = Ok ((), set_scratch (<[Z.to_nat n := x]> d) s).
Proof.
  intros Hd Hn. unfold block_write, device. rewrite (bind_Ok _ _ s d s) by (rewrite (bind_Ok get _ _ _ _ eq_refl), Hd; done).
  destruct (lookup_lt_is_Some_2 d (Z.to_nat n)) as [y Hy]; [lia|]. rewrite Hy. rewrite (bind_Ok _ _ s y s eq_refl). reflexivity.
Qed.
Lemma read_run d n x s : scratch s = Some d → d !! Z.to_nat n = Some x → block_read n s = Ok (x, s).
Proof. intros Hd Hn. unfold block_read, device. rewrite (bind_Ok _ _ s d s) by (rewrite (bind_Ok get _ _ _ _ eq_refl), Hd; done). by rewrite Hn. Qed.

(** ** Appending *)

Lemma append_copy_run fuel n c pos d s : files s !! n = Some c → scratch s = Some d → 0 ≤ append_sector s → (pos ≤ length c)%nat → (length c - pos ≤ fuel)%nat →
  (Z.to_nat (append_sector s) + length (chunks fuel (drop pos c)) ≤ length d)%nat →
  ∃ d', append_copy bounce fuel n (Z.of_nat pos) (Z.of_nat (length c) - Z.of_nat pos) s =
      Ok ((), State (files s) (Some d') (extract_sector s) (append_sector s + Z.of_nat (length (chunks fuel (drop pos c))))) ∧
    before (Z.to_nat (append_sector s)) d d' ∧ holds_at d' (Z.to_nat (append_sector s)) (chunks fuel (drop pos c)).
Proof.
  intros Hf. revert pos d s Hf. induction fuel as [|fuel IH]; intros pos d s Hf Hd Ha Hp Hl Hr; cbn [append_copy].
  - rewrite decide_True by lia. exists d. split; [|split; [done|apply holds_nil]]. destruct s. cbn in *. subst. unfold mret, M_ret. do 3 f_equal. lia.
  - case_decide as Hs.
    + rewrite drop_ge by lia. exists d. split; [|split; [done|apply holds_nil]]. destruct s. cbn in *. subst. unfold mret, M_ret. do 3 f_equal. lia.
    + destruct (drop pos c) as [|y ys] eqn:Ed; [apply (f_equal length) in Ed; rewrite length_drop in Ed; cbn in Ed; lia|].
      set (r := y :: ys) in *. assert (length r = length c - pos)%nat as Hlr by (rewrite <- Ed, length_drop; done).
      assert (chunks (S fuel) r = pad (take 512 r) :: chunks fuel (drop 512 r)) as Ec by done. rewrite Ec in Hr |- *. cbn [length] in Hr |- *.
      set (k := length (take 512 r)). assert (k = Nat.min 512 (length r)) as Hk by (unfold k; by rewrite length_take).
      assert ((if decide (BLOCK_SECTOR_SIZE < Z.of_nat (length c) - Z.of_nat pos) then BLOCK_SECTOR_SIZE else Z.of_nat (length c) - Z.of_nat pos) = Z.of_nat k) as ->
        by (unfold BLOCK_SECTOR_SIZE; case_decide; lia).
      rewrite (bind_Ok get _ _ _ _ eq_refl). unfold block_size, device.
      rewrite (bind_Ok _ _ s (Z.of_nat (length d)) s) by (rewrite (bind_Ok _ _ s d s) by (rewrite (bind_Ok get _ _ _ _ eq_refl), Hd; done); done).
      rewrite decide_False by lia. rewrite (bind_Ok _ _ s (take 512 r) s).
      2: { unfold file_read. rewrite (bind_Ok get _ _ _ _ eq_refl), Hf. rewrite (bind_Ok _ _ s c s eq_refl). rewrite transferred_all, !Nat2Z.id, Ed. unfold mret, M_ret. do 2 f_equal. rewrite Hk. apply take_min. }
      rewrite decide_False by (fold k; lia). rewrite (bind_Ok (modify _) _ _ _ _ eq_refl).
      rewrite (bind_Ok _ _ _ _ _ (write_run d (append_sector s) (take 512 r ++ replicate (512 - length (take 512 r)) 0) (set_append (append_sector s + 1) s) Hd ltac:(lia))). fold (pad (take 512 r)).
      set (a := Z.to_nat (append_sector s)) in *. set (s1 := set_scratch _ _).
      destruct (IH (pos + k)%nat (<[a := pad (take 512 r)]> d) s1) as (d' & E & Hb & Hh); [done|done|cbn; lia|lia|lia| |].
      { rewrite <- drop_drop, Ed, Hk, drop_min. cbn [append_sector s1 set_scratch set_append]. rewrite length_insert. lia. }
      rewrite <- drop_drop, Ed, Hk, drop_min in E, Hh. rewrite <- Hk in E. exists d'. split; [|split].
      * replace (Z.of_nat pos + Z.of_nat k) with (Z.of_nat (pos + k)) by lia. replace (Z.of_nat (length c) - Z.of_nat pos - Z.of_nat k) with (Z.of_nat (length c) - Z.of_nat (pos + k)) by lia.
        rewrite E. cbn [files s1 set_scratch set_append append_sector extract_sector]. do 3 f_equal. lia.
      * eapply (before_trans a _ d (<[a := pad (take 512 r)]> d)); [|apply before_insert|exact Hb]. cbn. lia.
      * apply holds_cons. cbn [append_sector s1 set_scratch set_append] in Hb, Hh. replace (Z.to_nat (append_sector s + 1)) with (S a) in Hb, Hh by lia. split; [|exact Hh].
        rewrite (proj2 Hb) by lia. apply list_lookup_insert_eq. lia.
Qed.

(** A file in the archive: its header and its contents. *)
Definition entry (f : name * list Z) : list sector :=
  match make_header f.1 (Z.of_nat (length f.2)) with Some h => h :: chunks (length f.2) f.2 | None => [] end.
Definition body (l : list (name * list Z)) : list sector := concat (entry <$> l).
Definition ending : list sector := [replicate 512 0; replicate 512 0].

Lemma append_run n c d s : files s !! n = Some c → valid n (Z.of_nat (length c)) → scratch s = Some d → 0 ≤ append_sector s →
  (Z.to_nat (append_sector s) + length (entry (n, c)) + 2 ≤ length d)%nat →
  ∃ d', fsutil_append opens bounce true n s = Ok ((), State (files s) (Some d') (extract_sector s) (append_sector s + Z.of_nat (length (entry (n, c))))) ∧
    before (Z.to_nat (append_sector s)) d d' ∧ holds_at d' (Z.to_nat (append_sector s)) (entry (n, c) ++ ending).
Proof.
  intros Hf Hv Hd Ha Hr. destruct (make_parses n _ Hv) as (h & Eh & _). unfold entry in *. cbn [fst snd] in *. rewrite Eh in *. cbn [length] in Hr |- *.
  unfold fsutil_append. cbn [negb]. rewrite (bind_Ok _ _ s true s) by (unfold filesys_open; rewrite (bind_Ok get _ _ _ _ eq_refl), Hf, Hopens; done). cbn [negb].
  rewrite (bind_Ok _ _ s (Z.of_nat (length c)) s) by (unfold file_length; rewrite (bind_Ok get _ _ _ _ eq_refl), Hf; done).
  rewrite (bind_Ok _ _ s d s) by (unfold device; rewrite (bind_Ok get _ _ _ _ eq_refl), Hd; done). rewrite Eh. rewrite (bind_Ok _ _ s h s eq_refl).
  rewrite (bind_Ok get _ _ _ _ eq_refl), (bind_Ok (modify _) _ _ _ _ eq_refl). rewrite (bind_Ok _ _ _ _ _ (write_run d (append_sector s) h (set_append (append_sector s + 1) s) Hd ltac:(lia))).
  set (a := Z.to_nat (append_sector s)) in *. set (s1 := set_scratch _ _).
  destruct (append_copy_run (length c) n c 0 (<[a := h]> d) s1) as (d1 & E & Hb & Hh); [done|done|cbn; lia|lia|lia|cbn [append_sector s1 set_scratch set_append]; rewrite length_insert, drop_0; lia|].
  rewrite drop_0 in E, Hh. replace (Z.of_nat (length c) - Z.of_nat 0) with (Z.of_nat (length c)) in E by lia. rewrite Nat2Z.id. rewrite (bind_Ok _ _ _ _ _ E). clear E.
  cbn [append_sector files extract_sector s1 set_scratch set_append] in *. replace (Z.to_nat (append_sector s + 1)) with (S a) in Hb, Hh by lia. set (q := length (chunks (length c) c)) in *.
  rewrite (bind_Ok get _ _ _ _ eq_refl). cbn [append_sector].
  assert (length d1 = length d) as Hl1 by (rewrite (proj1 Hb), length_insert; done).
  rewrite (bind_Ok _ _ _ _ _ (write_run d1 (append_sector s + 1 + Z.of_nat q) (replicate 512 0) (State (files s) (Some d1) (extract_sector s) (append_sector s + 1 + Z.of_nat q)) eq_refl ltac:(lia))).
  replace (Z.to_nat (append_sector s + 1 + Z.of_nat q)) with (S a + q)%nat by lia. set (d2 := <[(S a + q)%nat := replicate 512 0]> d1).
  rewrite (write_run d2 (append_sector s + 1 + Z.of_nat q + 1) (replicate 512 0)) by (cbn; unfold d2; rewrite ?length_insert; lia || done).
  replace (Z.to_nat (append_sector s + 1 + Z.of_nat q + 1)) with (S (S a + q))%nat by lia. set (d3 := <[(S (S a + q))%nat := replicate 512 0]> d2). exists d3.
  assert (before (S a + q) d1 d3) as B3 by (eapply (before_trans _ (S (S a + q))); [lia|apply before_insert|apply before_insert]).
  split; [unfold set_scratch; cbn; do 3 f_equal; lia|]. split.
  - eapply (before_trans a (S a)); [lia|apply before_insert|]. eapply (before_trans (S a) (S a + q)); [lia|exact Hb|exact B3].
  - apply holds_cons. split; [rewrite (proj2 B3), (proj2 Hb) by lia; apply list_lookup_insert_eq; lia|]. apply holds_app. split; [eapply (holds_before _ (S a + q)); [exact Hh|exact B3|fold q; lia]|].
    fold q. apply holds_cons. split; [unfold d3, d2; rewrite list_lookup_insert_ne by lia; apply list_lookup_insert_eq; lia|]. apply holds_cons. split; [unfold d3, d2; apply list_lookup_insert_eq; rewrite length_insert; lia|apply holds_nil].
Qed.

(** ** Extracting *)

Lemma extract_copy_run fuel n c pos d s : files s !! n = Some (take pos c ++ replicate (length c - pos) 0) → scratch s = Some d → 0 ≤ extract_sector s → (pos ≤ length c)%nat → (length c - pos ≤ fuel)%nat →
  holds_at d (Z.to_nat (extract_sector s)) (chunks fuel (drop pos c)) →
  extract_copy bounce fuel n (Z.of_nat pos) (Z.of_nat (length c) - Z.of_nat pos) s =
    Ok ((), State (<[n := c]> (files s)) (scratch s) (extract_sector s + Z.of_nat (length (chunks fuel (drop pos c)))) (append_sector s)).
Proof.
  revert pos s. induction fuel as [|fuel IH]; intros pos s Hf Hd Ha Hp Hl Hh; cbn [extract_copy].
  - rewrite decide_True by lia. rewrite take_ge in Hf by lia. replace (length c - pos)%nat with 0%nat in Hf by lia. rewrite app_nil_r in Hf. destruct s. cbn in *. rewrite insert_id by done. unfold mret, M_ret. do 3 f_equal. lia.
  - case_decide as Hs.
    + rewrite drop_ge by lia. rewrite take_ge in Hf by lia. replace (length c - pos)%nat with 0%nat in Hf by lia. rewrite app_nil_r in Hf. destruct s. cbn in *. rewrite insert_id by done. unfold mret, M_ret. do 3 f_equal. lia.
    + destruct (drop pos c) as [|y ys] eqn:Ed; [apply (f_equal length) in Ed; rewrite length_drop in Ed; cbn in Ed; lia|].
      set (r := y :: ys) in *. assert (length r = length c - pos)%nat as Hlr by (rewrite <- Ed, length_drop; done).
      assert (chunks (S fuel) r = pad (take 512 r) :: chunks fuel (drop 512 r)) as Ec by done. rewrite Ec in Hh |- *. cbn [length]. apply holds_cons in Hh as [H0 Hh].
      set (k := length (take 512 r)). assert (k = Nat.min 512 (length r)) as Hk by (unfold k; by rewrite length_take).
      assert ((if decide (BLOCK_SECTOR_SIZE < Z.of_nat (length c) - Z.of_nat pos) then BLOCK_SECTOR_SIZE else Z.of_nat (length c) - Z.of_nat pos) = Z.of_nat k) as ->
        by (unfold BLOCK_SECTOR_SIZE; case_decide; lia).
      rewrite (bind_Ok get _ _ _ _ eq_refl), (bind_Ok (modify _) _ _ _ _ eq_refl). set (s1 := set_extract _ s). rewrite (bind_Ok _ _ _ _ _ (read_run d (extract_sector s) _ s1 Hd H0)).
      assert (file_write bounce n (Z.of_nat pos) (take (Z.to_nat (Z.of_nat k)) (pad (take 512 r))) s1 =
        Ok (Z.of_nat k, set_files (<[n := take (pos + k) c ++ replicate (length c - (pos + k)) 0]> (files s)) s1)) as Ew.
      { unfold file_write. rewrite (bind_Ok get _ _ _ _ eq_refl). cbn [files s1 set_extract]. rewrite Hf. rewrite (bind_Ok _ _ s1 _ s1 eq_refl). cbv zeta. rewrite !transferred_all, !Nat2Z.id.
        unfold pad. rewrite take_app_length'  by done. assert (length (take pos c) = pos) as Hlp by (rewrite length_take; lia). rewrite length_app, length_replicate, Hlp.
        rewrite (take_ge (take 512 r)) by (fold k; lia). fold k. rewrite take_app_length' by done. rewrite drop_app_ge by (rewrite Hlp; lia). rewrite drop_replicate, Hlp.
        replace (length c - pos - (pos + k - pos))%nat with (length c - (pos + k))%nat by lia.
        assert (take (pos + k) c = take pos c ++ take 512 r) as ->. { rewrite <- (take_drop pos c) at 1. rewrite take_app_ge by lia. rewrite Hlp, Ed. replace (pos + k - pos)%nat with k by lia. by rewrite Hk, take_min. }
        by rewrite <- app_assoc. }
      rewrite (bind_Ok _ _ _ _ _ Ew). rewrite decide_False by lia.
      replace (Z.of_nat pos + Z.of_nat k) with (Z.of_nat (pos + k)) by lia. replace (Z.of_nat (length c) - Z.of_nat pos - Z.of_nat k) with (Z.of_nat (length c) - Z.of_nat (pos + k)) by lia.
      assert (drop (pos + k) c = drop 512 r) as Edr by (rewrite <- drop_drop, Ed, Hk; apply drop_min).
      rewrite IH; [| |done|cbn; lia|lia|lia|].
      * rewrite Edr. cbn [files set_files s1 set_extract extract_sector scratch append_sector]. rewrite insert_insert_eq. do 3 f_equal. lia.
      * cbn. by rewrite lookup_insert_eq.
      * rewrite Edr. cbn [extract_sector set_files s1 set_extract]. by replace (Z.to_nat (extract_sector s + 1)) with (S (Z.to_nat (extract_sector s))) by lia.
Qed.

Definition extracted (l : list (name * list Z)) (f : gmap name (list Z)) : gmap name (list Z) := foldl (λ f x, <[stored x.1 := x.2]> f) f l.
(** There is room for the files, and none is there. *)
Fixpoint can_create (f : gmap name (list Z)) (l : list (name * list Z)) : Prop :=
  match l with [] => True | (n, c) :: l => creatable f (stored n) (Z.of_nat (length c)) = true ∧ can_create (<[stored n := c]> f) l end.
Definition all_valid (l : list (name * list Z)) : Prop := Forall (λ x, valid x.1 (Z.of_nat (length x.2))) l.

Lemma extract_loop_run l fuel d s : all_valid l → (length l < fuel)%nat → scratch s = Some d → 0 ≤ extract_sector s → can_create (files s) l →
  holds_at d (Z.to_nat (extract_sector s)) (body l ++ ending) →
  extract_loop creatable opens bounce fuel s = Ok ((), State (extracted l (files s)) (scratch s) (extract_sector s + Z.of_nat (length (body l)) + 1) (append_sector s)).
Proof.
  revert l s. induction fuel as [|fuel IH]; intros l s Hv Hf Hd He Hc Hh; [lia|]. cbn [extract_loop]. rewrite (bind_Ok get _ _ _ _ eq_refl), (bind_Ok (modify _) _ _ _ _ eq_refl).
  set (s1 := set_extract _ s). destruct l as [|[n c] l].
  - apply holds_cons in Hh as [H0 _]. rewrite (bind_Ok _ _ _ _ _ (read_run d (extract_sector s) _ s1 Hd H0)). rewrite zeros_end. unfold mret, M_ret, s1, set_extract. cbn. do 3 f_equal. lia.
  - apply Forall_cons in Hv as [Hn Hv]. cbn [fst snd] in Hn. destruct (make_parses n _ Hn) as (h & Eh & Ep). destruct Hc as [Hc1 Hc].
    assert (body ((n, c) :: l) = (h :: chunks (length c) c) ++ body l) as Eb by (unfold body, entry; cbn; by rewrite Eh). rewrite Eb in Hh |- *. rewrite <- app_assoc in Hh.
    apply holds_cons in Hh as [H0 Hh]. apply holds_app in Hh as [Hh1 Hh2]. rewrite (bind_Ok _ _ _ _ _ (read_run d (extract_sector s) _ s1 Hd H0)). rewrite Ep.
    set (s2 := set_files (<[stored n := replicate (length c) 0]> (files s)) s1). rewrite (bind_Ok _ _ s1 true s2).
    2: { unfold filesys_create. rewrite (bind_Ok get _ _ _ _ eq_refl). cbn [files s1 set_extract]. rewrite Hc1, Nat2Z.id. reflexivity. }
    cbn [negb]. rewrite (bind_Ok _ _ s2 true s2) by (unfold filesys_open; rewrite (bind_Ok get _ _ _ _ eq_refl); cbn; by rewrite lookup_insert_eq, Hopens). cbn [negb]. rewrite Nat2Z.id.
    assert (Z.to_nat (extract_sector s2) = S (Z.to_nat (extract_sector s))) as E2 by (cbn; lia).
    pose proof (extract_copy_run (length c) (stored n) c 0 d s2) as Hx. rewrite drop_0, E2, Nat.sub_0_r in Hx. replace (Z.of_nat (length c) - Z.of_nat 0) with (Z.of_nat (length c)) in Hx by lia.
    rewrite (bind_Ok _ _ _ _ _ (Hx ltac:(cbn; by rewrite lookup_insert_eq) Hd ltac:(cbn; lia) ltac:(lia) ltac:(lia) Hh1)). clear Hx.
    set (s3 := State _ _ _ _). assert (files s3 = <[stored n := c]> (files s)) as Ef by (cbn; by rewrite insert_insert_eq).
    rewrite (IH l s3 Hv); [|cbn in Hf; lia|done|cbn; lia|by rewrite Ef|].
    + rewrite Ef. unfold extracted. cbn [foldl fst snd]. cbn [scratch s3 extract_sector append_sector s2 s1 set_files set_extract]. do 3 f_equal. rewrite length_app. cbn [length]. lia.
    + replace (Z.to_nat (extract_sector s3)) with (S (Z.to_nat (extract_sector s)) + length (chunks (length c) c))%nat by (cbn; lia). exact Hh2.
Qed.

Lemma body_length l : all_valid l → (length l ≤ length (body l))%nat.
Proof.
  induction 1 as [|[n c] l Hn Hl IH]; [done|]. destruct (make_parses n _ Hn) as (h & Eh & _). unfold body, entry. cbn. cbn in Eh. rewrite Eh. cbn. rewrite length_app. unfold body, entry in IH. lia.
Qed.
Lemma extract_run l d s : all_valid l → scratch s = Some d → extract_sector s = 0 → can_create (files s) l → (length (body l) + 2 ≤ length d)%nat → holds_at d 0 (body l ++ ending) →
  ∃ d', fsutil_extract creatable opens bounce true s = Ok ((), State (extracted l (files s)) (Some d') (Z.of_nat (length (body l)) + 1) (append_sector s)) ∧ holds_at d' 0 ending.
Proof.
  intros Hv Hd He Hc Hl Hh. unfold fsutil_extract. cbn [negb]. rewrite (bind_Ok _ _ s d s) by (unfold device; rewrite (bind_Ok get _ _ _ _ eq_refl), Hd; done).
  pose proof (body_length l Hv). rewrite (bind_Ok _ _ _ _ _ (extract_loop_run l (S (length d)) d s Hv ltac:(lia) Hd ltac:(lia) Hc ltac:(by rewrite He))).
  set (s1 := State (extracted l (files s)) _ _ _). rewrite (bind_Ok _ _ s1 _ _ (write_run d 0 (replicate 512 0) s1 Hd ltac:(lia))). rewrite (write_run (<[0%nat := replicate 512 0]> d)) by (cbn; rewrite ?length_insert; lia || done).
  eexists. split; [unfold set_scratch; cbn; do 3 f_equal; lia|]. apply holds_cons. split; [rewrite list_lookup_insert_ne by (cbn; lia); apply list_lookup_insert_eq; lia|].
  apply holds_cons. split; [apply list_lookup_insert_eq; rewrite length_insert; cbn; lia|apply holds_nil].
Qed.

(** The files are appended one after the other. *)
Fixpoint appends (l : list (name * list Z)) : M state unit := match l with [] => mret () | (n, _) :: l => fsutil_append opens bounce true n;; appends l end.
Lemma appends_run l pre d s : all_valid l → Forall (λ x, files s !! x.1 = Some x.2) l → scratch s = Some d → append_sector s = Z.of_nat (length pre) → l ≠ [] →
  (length pre + length (body l) + 2 ≤ length d)%nat → holds_at d 0 pre →
  ∃ d', appends l s = Ok ((), State (files s) (Some d') (extract_sector s) (Z.of_nat (length pre + length (body l)))) ∧ length d' = length d ∧ holds_at d' 0 (pre ++ body l ++ ending).
Proof.
  revert pre d s. induction l as [|[n c] l IH]; intros pre d s Hv Hf Hd Ha Hne Hl Hh; [done|]. apply Forall_cons in Hv as [Hn Hv]. apply Forall_cons in Hf as [Hfn Hf]. cbn [fst snd] in *.
  assert (body ((n, c) :: l) = entry (n, c) ++ body l) as Eb by done. rewrite Eb, length_app in Hl |- *. cbn [appends].
  destruct (append_run n c d s Hfn Hn Hd) as (d1 & E & Hb & Hh1); [lia|rewrite Ha; lia|]. rewrite (bind_Ok _ _ _ _ _ E). rewrite Ha, Nat2Z.id in Hb, Hh1.
  assert (holds_at d1 0 (pre ++ entry (n, c) ++ ending)) as Hh2 by (apply holds_app; split; [by eapply holds_before; [exact Hh|exact Hb|lia]|exact Hh1]).
  destruct l as [|f l].
  - exists d1. split; [|split; [apply Hb|by rewrite app_nil_r]]. cbn [appends]. unfold mret, M_ret. rewrite Ha. cbn [body fmap list_fmap concat length]. do 3 f_equal. lia.
  - rewrite app_assoc in Hh2. apply holds_app in Hh2 as [Hh2 _].
    destruct (IH (pre ++ entry (n, c)) d1 (State (files s) (Some d1) (extract_sector s) (append_sector s + Z.of_nat (length (entry (n, c)))))) as (d' & E' & Hl' & Hh'); [done|done|done|cbn; rewrite length_app; lia|done|rewrite length_app, (proj1 Hb); lia|done|].
    exists d'. split; [|split; [by rewrite Hl', (proj1 Hb)|by rewrite <- !app_assoc in Hh' |- *]]. rewrite E'. cbn [files extract_sector]. rewrite length_app. do 3 f_equal. lia.
Qed.

(** The round trip, for whatever makes and reads headers. *)
Lemma archive_roundtrip_any l d s : all_valid l → Forall (λ x, files s !! x.1 = Some x.2) l → scratch s = Some d → append_sector s = 0 → l ≠ [] → (length (body l) + 2 ≤ length d)%nat →
  ∃ d', appends l s = Ok ((), State (files s) (Some d') (extract_sector s) (Z.of_nat (length (body l)))) ∧
    ∀ f x, can_create f l → ∃ d'', fsutil_extract creatable opens bounce true (State f (Some d') 0 x) = Ok ((), State (extracted l f) (Some d'') (Z.of_nat (length (body l)) + 1) x) ∧
      ∀ g y, ∃ d3, fsutil_extract creatable opens bounce true (State g (Some d'') 0 y) = Ok ((), State g (Some d3) 1 y).
Proof.
  intros Hv Hf Hd Ha Hne Hl. destruct (appends_run l [] d s Hv Hf Hd Ha Hne ltac:(cbn; lia) (holds_nil _ _)) as (d' & E & Hl' & Hh). exists d'. split; [exact E|]. intros f x Hc.
  destruct (extract_run l d' (State f (Some d') 0 x) Hv eq_refl eq_refl Hc ltac:(lia) Hh) as (d'' & E'' & Hh''). exists d''. split; [exact E''|]. intros g y.
  destruct (extract_run [] d'' (State g (Some d'') 0 y)) as (d3 & E3 & _); [by constructor|done|done|done| |exact Hh''|by exists d3].
  assert (d'' !! 1%nat = Some (replicate 512 0)) as H1 by (apply (Hh'' 1%nat); done). apply lookup_lt_Some in H1. cbn. lia.
Qed.
End Roundtrip.

(** ** The functions of lib/ustar.c

    They run in a memory that holds their string literals, the name at 2000
    and the header at 1000. *)

Import CMem CString CStringSpec CStringEdit StdioSpec UstarSpec Fsutil.

Definition literal_memory : mem := foldr (λ x m, write x.1 (x.2 ++ [0]) m) ∅ (strings demo_literals).
Definition header_memory (x : list Z) : mem := write 1000 x literal_memory.
Definition name_memory (n : list Z) : mem := write 2000 (n ++ [0]) (header_memory (replicate 512 0)).
Definition read_bytes (m : mem) (p : Z) (k : nat) : list Z := (λ i, default 0 (m !! (p + Z.of_nat i))) <$> seq 0 k.
Fixpoint read_string (fuel : nat) (m : mem) (p : Z) : list Z :=
  match fuel with O => [] | S fuel => match m !! p with Some b => if decide (b = 0) then [] else b :: read_string fuel m (p + 1) | None => [] end end.

Definition ustar_make (n : list Z) (size : Z) : option (list Z) :=
  match Ustar.ustar_make_header demo_literals no_fpu 2000 Ustar.USTAR_REGULAR size 1000 (name_memory n) with Ok (true, m) => Some (read_bytes m 1000 512) | _ => None end.
Definition ustar_parse (x : list Z) : header :=
  match Ustar.ustar_parse_header demo_literals 1000 (header_memory x) with
  | Ok (inr (q, type, size), m) => if decide (type = Ustar.USTAR_EOF) then Eof else if decide (type = Ustar.USTAR_DIRECTORY) then Directory else Regular (read_string 100 m q) size
  | _ => Bad
  end.
#[export] Instance ustar_headers : Headers := { make_header := ustar_make; parse_header := ustar_parse }.

Lemma read_string_at fuel m p s : str_at m p s → (length s < fuel)%nat → read_string fuel m p = s.
Proof.
  revert p s. induction fuel as [|fuel IH]; intros p s [Hb Hn] Hl; [lia|]. cbn [read_string]. destruct s as [|b s].
  - apply bytes_at_cons in Hb as [-> _]. by rewrite decide_True.
  - apply bytes_at_cons in Hb as [-> Hb]. apply Forall_cons in Hn as [H0 Hn]. rewrite decide_False by done. f_equal. apply IH; [by split|cbn in Hl; lia].
Qed.
Lemma literals_memory_at : literals_at literal_memory demo_literals.
Proof. unfold literals_at, strings. repeat (apply Forall_cons; split; [split; [done|apply str_at_check; vm_compute; reflexivity]|]). by apply Forall_nil. Qed.
Lemma literals_below : literals_apart demo_literals 1000.
Proof. unfold literals_apart, strings. repeat (apply Forall_cons; split; [right; vm_compute; congruence|]). by apply Forall_nil. Qed.
Lemma literals_kept p bs m : 1000 ≤ p → literals_at m demo_literals → literals_at (write p bs m) demo_literals.
Proof.
  unfold literals_at. rewrite !Forall_forall. intros Hp H x Hx. destruct (H x Hx) as [H0 Hs]. split; [done|]. apply str_at_write; [|done]. right.
  pose proof literals_below as Hb. unfold literals_apart in Hb. rewrite Forall_forall in Hb. destruct (Hb x Hx) as [Hb'|Hb']; [|lia].
  assert (x.1 < 1000) as Hx1; [|lia]. revert Hx. unfold strings. cbn. set_solver by lia.
Qed.
Lemma header_octets x : length x = 512%nat → Forall (in_u 8) x → octets (header_memory x) 1000 512.
Proof.
  intros Hl Hu a Ha. unfold in_range in Ha. destruct (lookup_lt_is_Some_2 x (Z.to_nat (a - 1000))) as [b Hb]; [lia|]. exists b. split; [|by eapply Forall_lookup_1].
  unfold header_memory. pose proof (write_bytes_at 1000 x literal_memory _ _ Hb) as E. rewrite <- E. f_equal. lia.
Qed.
Lemma read_bytes_octets m : octets m 1000 512 → length (read_bytes m 1000 512) = 512%nat ∧ Forall (in_u 8) (read_bytes m 1000 512) ∧ same_header 1000 m (header_memory (read_bytes m 1000 512)).
Proof.
  intros Ho. assert (∀ i, (i < 512)%nat → read_bytes m 1000 512 !! i = Some (default 0 (m !! (1000 + Z.of_nat i)))) as Hr.
  { intros i Hi. unfold read_bytes. rewrite list_lookup_fmap, lookup_seq_lt by done. done. }
  split; [done|]. split.
  - apply Forall_lookup_2. intros i b Hb. pose proof (lookup_lt_Some _ _ _ Hb) as Hi. change (length (read_bytes m 1000 512)) with 512%nat in Hi. rewrite Hr in Hb by done. injection Hb as <-.
    destruct (Ho (1000 + Z.of_nat i)) as (b & -> & Hu); [unfold in_range; lia|done].
  - intros a Ha. unfold in_range in Ha. unfold header_memory. pose proof (write_bytes_at 1000 (read_bytes m 1000 512) literal_memory (Z.to_nat (a - 1000)) _ (Hr (Z.to_nat (a - 1000)) ltac:(lia))) as E.
    replace (1000 + Z.of_nat (Z.to_nat (a - 1000))) with a in E by lia. rewrite E. destruct (Ho a) as (b & -> & _); [unfold in_range; lia|done].
Qed.

Definition ustar_valid (n : name) (size : Z) : Prop := Forall (λ b, in_u 8 b ∧ b ≠ 0) n ∧ (length (strip n) ≤ 99)%nat ∧ 0 ≤ size ≤ Ustar.INT_MAX.
Lemma ustar_valid_check n size : forallb (λ b, (0 <? b) && (b <? 256)) n && (length (strip n) <=? 99)%nat && (0 <=? size) && (size <=? Ustar.INT_MAX) = true → ustar_valid n size.
Proof.
  rewrite !andb_true_iff, forallb_forall, Nat.leb_le, !Z.leb_le. intros (((H & Hl) & H0) & H1). split; [|by split]. apply Forall_forall. intros b Hb. apply list_elem_of_In, H in Hb. unfold in_u. lia.
Qed.
Lemma ustar_make_parses n size : ustar_valid n size → ∃ x, ustar_make n size = Some x ∧ ustar_parse x = Regular (strip n) size.
Proof.
  intros (Hn & Hl & Hsz). assert (Forall (in_u 8) n) as Hu by (eapply Forall_impl; [exact Hn|by intros ? []]). assert (Forall (λ b, b ≠ 0) n) as H0 by (eapply Forall_impl; [exact Hn|by intros ? []]).
  assert (mapped (name_memory n) 1000 512) as Hm.
  { intros a Ha. unfold name_memory. rewrite write_lookup_out by (unfold in_range in *; lia). destruct (header_octets (replicate 512 0) eq_refl ltac:(by apply Forall_replicate)) with a as (b & -> & _); [exact Ha|done]. }
  pose proof (make_header_run demo_literals no_fpu (name_memory n) 1000 2000 n Ustar.USTAR_REGULAR size ltac:(lia) ltac:(lia) Hm
    (literals_kept 2000 _ _ ltac:(lia) (literals_kept 1000 _ _ ltac:(lia) literals_memory_at)) literals_below ltac:(split; [apply write_bytes_at|done]) Hu ltac:(left; lia) ltac:(by left) Hsz) as H.
  rewrite decide_False in H by lia. cbv zeta in H. destruct H as (E & _ & Ho & _ & Hr). set (m := composed _ _ _ _ _) in *. destruct (read_bytes_octets m Ho) as (Hlen & Hoct & Hsame).
  exists (read_bytes m 1000 512). split; [unfold ustar_make; rewrite E; reflexivity|]. destruct (Hr (header_memory (read_bytes m 1000 512))) as (q & Eq & Hq); [by apply header_octets|by apply literals_kept, literals_memory_at|done|].
  unfold ustar_parse. rewrite Eq. rewrite (decide_False (P := Ustar.USTAR_REGULAR = Ustar.USTAR_EOF)), (decide_False (P := Ustar.USTAR_REGULAR = Ustar.USTAR_DIRECTORY)), decide_True by done.
  f_equal. apply read_string_at; [done|lia].
Qed.
Lemma ustar_zeros_end : ustar_parse (replicate 512 0) = Eof.
Proof. vm_compute. reflexivity. Qed.
#[export] Instance ustar_laws : HeaderLaws ustar_headers := { stored := strip; valid := ustar_valid; make_parses := ustar_make_parses; zeros_end := ustar_zeros_end }.

(** Files go to an archive and come back.  If files are appended one after
    the other to a scratch device that is large enough, and the archive is then
    extracted into a file system that has room for them, with memory for every
    allocation, the file system has
    each file with its contents, under its name less the prefixes that are
    stripped; nothing panics, other files stay as they are, and extracting
    after another start of the kernel does nothing. *)
Theorem archive_roundtrip creatable opens bounce l d s :
  (∀ n, opens n = true) → (∀ n p, bounce n p = true) →
  Forall (λ x, ustar_valid x.1 (Z.of_nat (length x.2)) ∧ files s !! x.1 = Some x.2) l → scratch s = Some d → append_sector s = 0 → l ≠ [] → (length (body l) + 2 ≤ length d)%nat →
  ∃ d', appends opens bounce l s = Ok ((), State (files s) (Some d') (extract_sector s) (Z.of_nat (length (body l)))) ∧
    ∀ f x, can_create creatable f l → ∃ d'', fsutil_extract creatable opens bounce true (State f (Some d') 0 x) =
      Ok ((), State (foldl (λ f x, <[strip x.1 := x.2]> f) f l) (Some d'') (Z.of_nat (length (body l)) + 1) x) ∧
      ∀ g y, ∃ d3, fsutil_extract creatable opens bounce true (State g (Some d'') 0 y) = Ok ((), State g (Some d3) 1 y).
Proof.
  intros Ho Hb Hl Hd Ha Hne Hlen. apply Forall_and in Hl as [Hv Hf]. exact (archive_roundtrip_any creatable opens bounce Ho Hb l d s Hv Hf Hd Ha Hne Hlen).
Qed.

(** Two files, one of a name that is stripped and one of two sectors. *)
Definition demo_files : list (name * list Z) := [(Stdio.chars "/../etc/motd", [72; 105]); (Stdio.chars "a", replicate 600 7)].
Definition demo_state : state := State (list_to_map demo_files) (Some (replicate 8 (replicate 512 1))) 0 0.
Definition always (f : gmap name (list Z)) (n : name) (size : Z) : bool := true.
Lemma archive_roundtrip_witness : ∃ d', appends (λ _, true) (λ _ _, true) demo_files demo_state = Ok ((), State (files demo_state) (Some d') 0 5) ∧
  ∃ d'', fsutil_extract always (λ _, true) (λ _ _, true) true (State ∅ (Some d') 0 5) = Ok ((), State (<[Stdio.chars "a" := replicate 600 7]> {[Stdio.chars "etc/motd" := [72; 105]]}) (Some d'') 6 5).
Proof.
  destruct (archive_roundtrip always (λ _, true) (λ _ _, true) demo_files (replicate 8 (replicate 512 1)) demo_state) as (d' & E & H).
  - done.
  - done.
  - unfold demo_files. repeat (apply Forall_cons; split; [split; [apply ustar_valid_check; vm_compute; reflexivity|vm_compute; reflexivity]|]). by apply Forall_nil.
  - reflexivity.
  - reflexivity.
  - discriminate.
  - vm_compute. lia.
  - exists d'. split; [exact E|]. destruct (H ∅ 5) as (d'' & E'' & _); [split; [reflexivity|split; [reflexivity|exact I]]|]. exists d''. exact E''.
Defined.
End FsutilSpec.
